(* ===== verification/_CoqProject ===== *)
-Q . S2P
Prelude.v
Env.v
FormatsUtils.v
Transfer.v
Formats5D.v
FormatsFracZ.v
FormatsFractalZ.v
FormatsTranspose.v
FormatsNz.v
FormatsZz.v
FormatsC1hwncoc0.v
Formats3D.v
FormatsTbe.v
FormatsC04.v
FormatsRegistry.v
MemLink.v
MemPool.v
MemSpan.v
MemScalable.v
MemFiling.v
MemTiling.v
MemScalableSound.v
MemScalableAlloc.v
MemScalableRecycle.v
MemScalableClient.v
MemScalableFinal.v
ExecMpmc.v
ExecMpmcFifo.v
MemStream.v
MemStreamInv.v
MemStreamMoves.v
MemStreamSound.v
MemStreamEvents.v
MemStreamClient.v
NumBits.v
NumFp16.v
NumFp16Value.v
NumFp16Convert.v
NumFp16Int.v
NumFp16Arith.v
NumFp16Correct.v
NumMath.v
NumMathCorrect.v
NumHif8.v
NumHif8Correct.v
NumMathRuns.v
ExecReady.v
ExecTopo.v
ExecTopoSound.v
ExecGraph.v
ExecBuild.v
ExecGraphSound.v
ExecReadOrder.v
ExecValues.v
ExecGraphRuns.v
ExecSymbols.v
ExecSymbolsSound.v
ExecSymbolsFinal.v
GraphBitmap.v
GraphConnect.v
GraphConnectSound.v
GraphCycleSound.v
GraphSort.v
GraphSortSound.v
GraphSortDelay.v
GraphSortFinal.v
SchedTask.v
SchedChain.v
SchedChainSound.v
SchedWork.v
SchedWorkSound.v
SchedFinal.v
SchedRuns.v
GraphList.v
GraphListSound.v
GraphListMove.v
GraphListSort.v
GraphListRefine.v
