(* ===== verification/Prelude.v ===== *)
(** * A verification of the graph engine's format, memory, execution, graph and number libraries

    The repository holds a graph engine: models are parsed, compiled to graphs
    of operators and executed on accelerator devices.  This development covers
    five of its libraries.  [src/ge-develop/base/formats] converts tensors
    between memory layouts; [src/ge-develop/runtime/v2/kernel/memory] pools
    device memory; [src/ge-develop/runtime/v2/core] turns an execute graph into
    execution data and executes it, on one thread or through queues on several;
    [src/ge-develop/graph_metadef/graph] is the graph library;
    [src/ge-develop/base/common/fp16_t] and [math] are
    number formats and checked arithmetic.  Paths below are relative to [src/ge-develop].

    ** Conventions

    A C++ function becomes a Rocq function of the same name.  A function that
    can fail returns an [outcome]: [Ok], [Err] with the status code, or [Fault]
    where the C++ has no defined continuation (division by zero, an index past
    the end, a bad pointer).  Loops are
    [for_range] over [Z]; [int64_t] values are [Z], wrapped at 64 bits
    ([uwrap], [swrap]) where the source computes before it has checked, and
    left alone where the checks bound them: after [CheckShapeValid] the element
    count of a shape is at most [kShapeItemNumMAX], 2 ^ 40, and an element has at
    most [max_type_size], 2 ^ 16, bytes, so offsets stay below 2 ^ 63.  Buffers are lists of cells, a
    cell being a byte or memory nothing was stored in; a [TransResult] whose
    pointer is null is [None].  Code outside the repository is a type class
    with a class of laws, instantiated concretely for the runs.

    ** The format library

    - [Env]: [graph/types.h] (formats, data types, the [C0] field), securec's
      [memcpy_s] and [memset_s], the overflow helpers and assertion macros.
    - [FormatsUtils]: [base/formats/utils] and the records of
      [register_format_transfer.h].
    - [Transfer]: the pieces all conversions are made of (allocation,
      [protected_size], checked copies) and the reasoning about nested copy
      loops: [agree] says on which positions a buffer holds what a
      specification says, [delivers] that a conversion stored all of them.
    - [Formats5D], [FormatsFracZ], [FormatsFractalZ], [FormatsTranspose],
      [FormatsNz], [FormatsZz], [FormatsC1hwncoc0], [Formats3D], [FormatsTbe],
      [FormatsC04]: the conversions, one Module per source file of
      [format_transfers], one definition per function, argument checks and
      error codes included.
    - [FormatsRegistry]: the registry of [register_format_transfer.cc], the
      static registrations, and the entry points of [formats.cc] and
      [ge_format_util.cc].

    Theorems: every conversion in the forward direction succeeds on valid
    arguments and stores each element at its place and zero in the padding
    (the theorems called [_correct]); converting back restores the bytes
    ([_roundtrip]); [Transpose] is correct for every rank and permutation
    ([transpose_correct]); the ND conversion agrees with the HWCN one
    ([nd_fractal_z_matches_hwcn]); the arguments on which the shape and the data
    path disagree or fail ([nchw_nc1hwc0_needs_c0],
    [grouped_shape_divides_by_zero], [hwcn_fractal_z_empty_dst_fails]); the
    registry is independent of the order of static initialisation, dispatch
    reaches exactly the registered classes, and calls of the C04 conversion back
    into the entry points end ([registration_order_irrelevant],
    [dispatch_registered], [dispatch_depth]).

    ** The memory library

    - [MemLink]: the intrusive doubly linked list of [util/link.h] and
      [util/link_node.h] over a heap of chains, every pointer assignment in the
      source's order; [link_refines_list] refines it to a list, [link_iteration]
      is iteration, [link_move_assign] move assignment.
    - [MemPool]: the object pool of [util/object_allocator.h]; [pool_sound] is its
      soundness against arbitrary clients, [pool_no_leak] that it does not leak.
    - [MemSpan]: page spans, buddy links, span layers and their two lookup
      tables ([span/]); [lut_finds_best_fit]: both tables find the best
      fitting layer.
    - [MemScalable]: the page span allocator itself
      ([allocator/scalable_allocator.cc], [device/device_allocator.cc]) in a
      state monad over the spans, every operation that changes state, the
      paths over reserved virtual memory included.  What it calls outside is
      three interfaces: [HostMemory] (the pool span objects come from),
      [DeviceMem] (the device's blocks) and [ExpandableApi] (the allocator of
      virtual ranges).  The iterators of [SpanLayer::Recycle] are modelled with
      the links they read: after the last span of a layer was freed the loop
      reads the link of that span once more.  What such a read gives is a member
      of [HostMemory] ([freed_next]).
    - [MemFiling], [MemTiling]: the invariant in two halves.  Filing says that
      every span is on exactly the list its state names; tiling that the spans
      of a device block, in buddy order, cover it without gap or overlap.
    - [MemScalableSound], [MemScalableAlloc], [MemScalableRecycle],
      [MemScalableFinal]: the operations keep both halves.
    - [MemScalableClient]: clients that allocate, free and recycle in any
      order.  [scalable_allocator_safe]: no bad pointer, live blocks never
      overlap; [scalable_allocator_bounds]: blocks are as long as asked and at
      most a page longer, inside the device's blocks;
      [scalable_allocator_reuses]: a fitting idle span is reused before the
      device is asked; [scalable_allocator_no_leak]: after all is freed one
      [Recycle] gives everything back; [scalable_allocator_finalize]
      ([MemScalableFinal]): [Finalize] refuses exactly while blocks are in use.
      These theorems are about the allocator without a reserved virtual range,
      on a host that has room for the spans and keeps the link of a span that
      was just freed, as the object pool does until the memory is used again;
      on a host that does not, [Recycle] faults ([recycle_reads_freed_span]).
      [RunsScalable] has the theorems at concrete devices, [RunsEdges] runs
      at the edges.
    - [MemStream]: blocks shared by several streams
      ([multi_stream_mem_block.cc], [multi_stream_l2_allocator.cc],
      [borrow_allocator.cc], [version_blocks.h], [mif.h]) and the event kernels
      that carry recycling messages between streams
      ([common_kernel_impl/event.cc]), in a state monad over block objects,
      allocators and events.  The memory pool behind each stream ([L2MemPool]),
      the device runtime ([Rts]) and the order of unordered sets ([SetOrder])
      are interfaces.
    - [MemStreamInv]: the invariant: every block object is in one place, the
      bits and counts of a block in use agree with the references held, and
      what a stream has not been told about a block is still on its way.
      [MemStreamMoves] has the changes of state that keep it,
      [MemStreamSound] and [MemStreamEvents] the operations made of them.
    - [MemStreamClient]: kernels that allocate, share, wander, free, move,
      recycle and exchange events in any order.  [multi_stream_safe]: no bad
      pointer, every reference has memory of its own, no consistency check
      fails; [multi_stream_no_leak]: after the last events all memory is back.
      Both suppose that no request is served by a larger lent block
      ([orderly]): the code goes wrong there ([borrowing_leaves_an_empty_set]).  That
      recycled memory is no longer in use on the device is not a theorem:
      [recycled_while_in_use] is a run in which it still is.

    ** The task queue

    - [ExecMpmc]: [schedule/queue/lock_free/mpmc_queue.h], [Push] and [Pop] as
      program counters, a step being one access to memory others see; a schedule
      picks the thread and whether its weak compare-and-swap fails.  [fifo] is
      the specification.
    - [ExecMpmcFifo]: [mpmc_refines_fifo]: every schedule refines [fifo];
      [mpmc_solo_returns]: a thread left alone returns; both for runs of fewer
      than 2 ^ 32 accesses.  Runs, and the wrap of the counters, at which [Pop]
      can spin ([pop_spins_at_the_wrap]).

    ** Execution

    - [ExecReady]: the ring and the heap of ready nodes ([ring_queue_impl.h],
      [priority_queue_impl.h]).  [ReadyQueue] and its laws [ReadyLaws] are what
      the executors use of either: a queue gives back what it was given, the ring
      in order, the heap by priority.
    - [ExecTopo]: the sequential, topological and priority executors
      ([core/executor]), over any ready queue and any kernels.
    - [ExecTopoSound]: a plan says who waits for whom; [schedule] is a legal
      order.  The invariant: the in-degree of a node that is not ready is the
      number of notifications still to come.  [topological_execute_correct],
      [priority_execute_correct] and [execute_events_correct]: an execution is the
      sequential one in a legal order, to the same status, memory and events, and
      leaves data that can be executed again, also after a failure.  Kernels that
      rewrite watchers, as those of control flow do, are outside these theorems.
    - [ExecGraph], [ExecBuild]: node types, [GraphNode] and the builders
      ([core/builder], [sequential_execution_data_builder.cc],
      [topological_execution_data_builder.cc]); what the graph library answers is
      a record per node.
    - [ExecGraphSound]: [indegrees_count_notifications]: with any control flow the
      builder's in-degrees count the notifications; [built_graph_executes]: graphs
      without control flow are built and executed in an order that respects their
      edges.  [ExecReadOrder]: the sequential builder's order
      ([priority_order_correct], [sequential_build_order]).  [ExecValues]: chains
      and inputs ([chains_follow_symbols], [create_inputs_correct]).
    - [ExecSymbols]: the symbols of pins ([core/builder/equivalent_data_edges.cc]).
      [ExecSymbolsSound]: merging keeps the classes of the least equivalence that
      has the links; [ExecSymbolsFinal]: [symbols_are_link_classes], and a
      subgraph with a reference.
    - [ExecGraphRuns]: a diamond, a small network, an if.

    ** Execution on several threads

    - [SchedTask]: tags that choose a worker group, tasks, and the interface
      [TaskProducer] ([schedule/producer/producers/kernel_tags], [schedule/task],
      [schedule/producer]) with [ProducerLaws], what a producer promises the
      scheduler: every node of the plan is handed out once, in tasks whose nodes
      can run in order as soon as they are handed out.
    - [SchedChain]: the chain and the single task producer.  [SchedChainSound]: the
      chain producer keeps the promise, the invariant saying of every node whether
      it is recycled, collected or left; [single_task_complete]: the first task of
      the single producer is a legal order of all nodes.
    - [SchedWork]: the scheduler, worker groups and the threads of workers
      ([schedule/scheduler/task_scheduler.cc], [schedule/worker]) as a step
      relation: any thread may move next.
    - [SchedWorkSound]: every task in flight has a stage; a step of a worker moves
      one task on and keeps the invariant, and so do the scheduler's steps, for any
      producer with the laws.
    - [SchedFinal]: the workers come to rest, a round through the groups finds what
      they finished, and the loops come to their end;
      [multi_thread_schedule_safe], [multi_thread_schedule_returns].
      [SchedRuns]: runs, and what a failure leaves behind
      ([indegrees_not_recovered], [end_of_sequence_lost], [single_task_repeats],
      [single_failure_lost]).  The theorems suppose kernels that leave the
      watchers alone (no control flow), queues with a place for every node, and
      that there is always memory for a task.  The call of a kernel, with the
      test whether to quit in front of it, is one step of its thread: races
      between kernels that run at the same time are not modelled.

    ** Graphs

    - [GraphBitmap]: bit sets of any size ([graph/common/large_bm.cc]).
    - [GraphConnect]: the connection matrix and the cycle detector
      ([graph/utils/connection_matrix.cc], [cycle_detector.cc]).
      [GraphConnectSound]: [connection_matrix_correct], the matrix is
      reachability, also after groups were fused; [GraphCycleSound]:
      [cycle_detection_exact], exact for each group alone and sound for disjoint
      groups fused together; [expanded_matrix_correct], for any sequence of
      expansions; runs, and two groups that make a cycle only together
      ([two_groups_not_detected]).  All three are about sorted graphs.
    - [GraphSort]: topological sorting of an execute graph
      ([graph/fast_graph/execute_graph.cc], [fast_graph_utils.h]).
      [GraphSortSound]: taking ready nodes one by one, in whatever order, which is
      what breadth and depth first sorting do; [GraphSortDelay]: delaying nodes to
      their first use keeps the order topological.  [GraphSortFinal]: the reverse
      walk; [topological_sorting_correct], [closed_loop_detected], both for graphs
      in which no node has data from a NextIteration node: such edges are not
      counted, so that the loops they close sort ([next_iteration_loop_sorts]).
      Runs, a loop the reverse walk misses and inputs in the wrong order.

    - [GraphList]: the list that execute graphs keep their nodes, edges and
      subgraphs in ([graph/fast_graph/quick_list.h], [list_element.h]), on the heap
      of [MemLink] with an owner and a mode for every element.  [GraphListSound],
      [GraphListMove]: what the operations do to the list of elements;
      [GraphListSort]: the merge sort over bins is the stable insertion sort.
      [GraphListRefine]: [quick_list_refines_list], [quick_list_sort_correct],
      [quick_list_swap]; runs, and an element moved next to itself.

    ** Numbers

    - [NumBits]: machine integers as arithmetic, and [while] loops.
    - [NumFp16]: half precision floats in software ([fp16_t.h], [fp16_t.cc]), on
      the bits and in the integer types of the source.  [NumFp16Value] says what
      halves mean: [signed] is the value in units of 2^-24, [nearest] the IEEE
      rounding rule said of all finite halves; [grid_rounded] links it to the
      rounding of mantissas.  [NumFp16Convert], [NumFp16Int] and [NumFp16Arith]
      relate each function to them.
    - [NumFp16Correct]: sums, differences and products are correctly rounded
      ([fp16_add_correct], [fp16_mul_correct]); conversions from numbers below
      65520 are correctly rounded ([fp16_of_number_correct]), and what becomes of
      the others, against the comments of the source, is [fp16_of_large_number];
      conversions to floats are exact and come back ([fp16_widen_roundtrip]);
      conversions to integers saturate ([fp16_to_integer_saturates],
      [fp16_invalid_to_integer]); comparisons order by value
      ([fp16_compare_correct]); the 16 bits are closed under everything
      ([fp16_closed]).
    - [NumMath], [NumMathCorrect]: the overflow tests and macros of
      [math_util.h]; [int_checks_exact], [fp16_checks_exact] and
      [fmk_checks_exact]: they fail exactly when the result does not fit, and
      do not overflow themselves.
    - [NumHif8], [NumHif8Correct]: the eight bit floats of [hif8_t.cc];
      [hif8_encode_nearest] for numbers that are zero or at least 2^-128,
      [hif8_roundtrip], and the smaller ones, which become infinite
      ([hif8_tiny_floats_are_infinite]).
    - [NumFp16Correct] and [NumMathRuns] end with runs, and what goes wrong at the
      edges.

    ** Fuel

    [Measure_loop] (Euclid's algorithm) gets one turn more than the divisor,
    which falls at every turn; [clear] and the pool's destructor get one turn
    more than the heap has chains; [api] nests calls into the entry points two
    deep.  [Measure_loop_gcd], [link_refines_list], [pool_no_leak] and
    [dispatch_depth] show that this is enough: running out is a [Fault], which
    the theorems exclude.  In the page span allocator the retry loops
    are bounded by the code ([kSafeTryCount]), the loop that drops references by
    the count itself, and [recycle_loop] gets one turn more than the layer has
    spans ([scalable_allocator_safe] excludes that it runs out).  The queue's loops are steps of a schedule.
    The walk over the locally recycled blocks of a stream gets one turn more
    than there are entries, each of which is dropped or passed
    ([multi_stream_safe] excludes that it runs out).  Loops over the bits of a
    number get [loop_fuel], 64 turns; [fp16_closed] and the theorems on
    conversions exclude that they run out.  The loops of the heap get one turn
    more than it has nodes, [Clear] one more than the queue has slots and
    [read_loop] as many as there are nodes ([priority_order_correct]); the
    executors, which kernels can keep going, take the number of turns as an
    argument, and one more than there are nodes is enough
    ([topological_execute_correct]).  Sorting gets a turn for every node and one
    more, the reverse walk a turn for every edge and two for every node
    ([topological_sorting_correct]).  The producers of tasks recurse at most once
    for every node ([collect_ok], [travel_ok]).  The loops of a quick list get one
    turn more than the heap has chains ([quick_list_refines_list]).

    ** Not modelled

    Log messages and the strings built for them; arithmetic of the hardware on
    [float] and [double]; weak memory (the steps of threads are interleaved);
    the theorems on the page span allocator stop short of
    reserved virtual ranges, which it shares with
    [runtime/v1/graph/manager/active_memory_allocator.cc].  The kernel and op
    task producers, whose tasks wait for each other inside the workers, are
    outside, as are the second level memory pools ([l2_mem_pool.cc],
    [caching_mem_allocator.cc]) behind the multi-stream allocator, which are
    calls of the device runtime around the page span allocator, the kernels of
    control flow and [base/slice].  Of the graph library the storage of
    attributes and edges and the symbolic expressions of a third-party library
    are outside.
    The parsers, operator engines, graph passes, deployment code and tools are
    glue over protobuf, the device runtime and the file system.

    ** This file

    [outcome] and its weakest precondition, counted loops, machine integers,
    mixed-radix positions. *)

From stdpp Require Export prelude list list_numbers gmap.
From Stdlib Require Export ZArith Lia.

#[global] Open Scope Z_scope.

(** ** Status codes and the outcome of a fallible C++ function *)

(** The status codes the modelled functions return, by the name the source
    gives them. *)
Inductive Status :=
  | SUCCESS
  | FAILED
  | INTERNAL_ERROR
  | PARAM_INVALID
  | UNSUPPORTED
  | GRAPH_FAILED
  | ACL_ERROR_GE_PARAM_INVALID
  | ACL_ERROR_GE_FORMAT_INVALID
  | ACL_ERROR_GE_SHAPE_INVALID
  | ACL_ERROR_GE_DATATYPE_INVALID
  | ACL_ERROR_GE_MEMORY_ALLOCATION
  | ACL_ERROR_GE_MEMORY_OPERATE_FAILED.

#[global] Instance Status_eq_dec : EqDecision Status.
Proof. solve_decision. Defined.

(** [Ok a]: the function returned [SUCCESS] with out-parameters [a]; [Err s]:
    it returned the failure code [s]; [Fault]: the C++ has no defined
    continuation (an integer division by zero, an index past the end). *)
Inductive outcome (A : Type) :=
  | Ok (a : A)
  | Err (s : Status)
  | Fault.
Arguments Ok {A} _.
Arguments Err {A} _.
Arguments Fault {A}.

#[global] Instance outcome_ret : MRet outcome := fun A a => Ok a.
#[global] Instance outcome_bind : MBind outcome := fun A B f m =>
  match m with Ok a => f a | Err s => Err s | Fault => Fault end.
#[global] Instance outcome_eq_dec {A} `{EqDecision A} : EqDecision (outcome A).
Proof. solve_decision. Defined.

(** [wp m P]: [m] succeeds with a value satisfying [P]. *)
Definition wp {A} (m : outcome A) (P : A -> Prop) : Prop :=
  match m with Ok a => P a | _ => False end.

(** A guard [if (bad) return s;] in front of the rest of a function. *)
Definition reject_if {A} (bad : bool) (s : Status) (k : outcome A) : outcome A :=
  if bad then Err s else k.

(** [v.at(i)], and [v[i]] where the source indexes without a check. *)
Definition at_ {A} (l : list A) (i : nat) : outcome A :=
  match l !! i with Some a => Ok a | None => Fault end.

(** C++ integer division and remainder truncate toward zero and have no
    defined result on a zero divisor. *)
Definition quot_ (a b : Z) : outcome Z := if b =? 0 then Fault else Ok (Z.quot a b).
Definition rem_ (a b : Z) : outcome Z := if b =? 0 then Fault else Ok (Z.rem a b).

(** [for (i = lo; i < hi; i++) body], with the early returns of [body]. *)
Fixpoint foldM {S A} (body : A -> S -> outcome S) (l : list A) (s : S) : outcome S :=
  match l with
  | [] => Ok s
  | x :: l => s ← body x s; foldM body l s
  end.
Definition for_range {S} (lo hi : Z) (body : Z -> S -> outcome S) (s : S) : outcome S :=
  foldM body (seqZ lo (hi - lo)) s.

(** ** Two's complement *)

Definition swrap (w v : Z) : Z := (v + 2 ^ (w - 1)) mod 2 ^ w - 2 ^ (w - 1).
Definition uwrap (w v : Z) : Z := v mod 2 ^ w.

(** ** Weakest preconditions *)

Create HintDb ge_db.

Lemma wp_mono {A} (m : outcome A) (P Q : A -> Prop) :
  wp m P -> (forall a, P a -> Q a) -> wp m Q.
Proof. destruct m; simpl; auto. Qed.

Lemma wp_ret {A} (a : A) (P : A -> Prop) : P a -> wp (Ok a) P.
Proof. auto. Qed.

Lemma wp_bind {A B} (m : outcome A) (f : A -> outcome B) (P : B -> Prop) :
  wp m (fun a => wp (f a) P) -> wp (m ≫= f) P.
Proof. destruct m; auto. Qed.

Lemma wp_bind_eq {A B} (m : outcome A) (a : A) (f : A -> outcome B) (P : B -> Prop) :
  m = Ok a -> wp (f a) P -> wp (m ≫= f) P.
Proof. intros ->; auto. Qed.

Lemma wp_Ok {A} (m : outcome A) (P : A -> Prop) :
  wp m P <-> exists a, m = Ok a /\ P a.
Proof.
  destruct m as [a| |]; simpl; split; try done; try by intros (? & ? & ?).
  - by exists a.
  - by intros (b & [= ->] & ?).
Qed.

Lemma wp_reject {A} (b : bool) s (k : outcome A) (P : A -> Prop) :
  b = false -> wp k P -> wp (reject_if b s k) P.
Proof. intros ->; auto. Qed.

Lemma bind_Ok {A B} (m : outcome A) (f : A -> outcome B) (b : B) :
  m ≫= f = Ok b -> exists a, m = Ok a /\ f a = Ok b.
Proof. destruct m; simpl; naive_solver. Qed.

Lemma reject_Ok {A} (b : bool) s (k : outcome A) (a : A) :
  reject_if b s k = Ok a -> b = false /\ k = Ok a.
Proof. destruct b; simpl; naive_solver. Qed.

Lemma at_Ok {A} (l : list A) i a : at_ l i = Ok a <-> l !! i = Some a.
Proof. unfold at_. destruct (l !! i); naive_solver. Qed.

Lemma quot_Ok a b : b <> 0 -> quot_ a b = Ok (Z.quot a b).
Proof. intros H. unfold quot_. by rewrite (proj2 (Z.eqb_neq b 0) H). Qed.

Lemma rem_Ok a b : b <> 0 -> rem_ a b = Ok (Z.rem a b).
Proof. intros H. unfold rem_. by rewrite (proj2 (Z.eqb_neq b 0) H). Qed.

(** On the operands the loops use, truncated and floored division agree. *)
Lemma quot_nonneg a b : 0 <= a -> 0 < b -> quot_ a b = Ok (a / b).
Proof. intros. rewrite quot_Ok by lia. by rewrite Z.quot_div_nonneg by lia. Qed.

Lemma rem_nonneg a b : 0 <= a -> 0 < b -> rem_ a b = Ok (a mod b).
Proof. intros. rewrite rem_Ok by lia. by rewrite Z.rem_mod_nonneg by lia. Qed.

(** ** Counted loops *)

Lemma seqZ_split lo n :
  0 < n -> seqZ lo n = lo :: seqZ (lo + 1) (n - 1).
Proof. intros. rewrite seqZ_cons by lia. by replace (Z.pred n) with (n - 1) by lia. Qed.

Lemma for_range_nil {S} lo hi (body : Z -> S -> outcome S) s :
  hi <= lo -> for_range lo hi body s = Ok s.
Proof. intros. unfold for_range. by rewrite seqZ_nil by lia. Qed.

Lemma for_range_step {S} lo hi (body : Z -> S -> outcome S) s :
  lo < hi -> for_range lo hi body s = (s ← body lo s; for_range (lo + 1) hi body s).
Proof.
  intros. unfold for_range. rewrite seqZ_split by lia.
  simpl. by replace (hi - lo - 1) with (hi - (lo + 1)) by lia.
Qed.

(** A loop whose first iteration fails, fails. *)
Lemma for_range_err {S} lo hi (body : Z -> S -> outcome S) s e :
  lo < hi -> body lo s = Err e -> for_range lo hi body s = Err e.
Proof. intros Hlt E. rewrite for_range_step by done. by rewrite E. Qed.

(** The invariant rule: [I i] holds before iteration [i]. *)
Lemma wp_for {S} (I : Z -> S -> Prop) lo hi (body : Z -> S -> outcome S) s :
  lo <= hi -> I lo s ->
  (forall i s, lo <= i < hi -> I i s -> wp (body i s) (I (i + 1))) ->
  wp (for_range lo hi body s) (I hi).
Proof.
  intros Hle. remember (Z.to_nat (hi - lo)) as n eqn:Hn.
  revert lo s Hle Hn. induction n as [|n IH]; intros lo s Hle Hn HI Hb.
  - rewrite for_range_nil by lia. by replace hi with lo by lia.
  - rewrite for_range_step by lia. apply wp_bind.
    eapply wp_mono; [apply Hb; [lia|done]|].
    intros s' HI'. apply IH; [lia|lia|done|]. intros; apply Hb; [lia|done].
Qed.

(** The same with a guard on the number of iterations. *)
Lemma wp_for_max {S} (I : Z -> S -> Prop) lo hi (body : Z -> S -> outcome S) s :
  I lo s ->
  (forall i s, lo <= i < hi -> I i s -> wp (body i s) (I (i + 1))) ->
  wp (for_range lo hi body s) (I (Z.max lo hi)).
Proof.
  intros HI Hb. destruct (Z_le_gt_dec lo hi).
  - rewrite Z.max_r by lia. by apply wp_for.
  - rewrite for_range_nil by lia. by rewrite Z.max_l by lia.
Qed.

(** ** Mixed-radix arithmetic *)

(** [pos b i r]: entry [r] of row [i] in rows of length [b]. *)
Definition pos (b i r : Z) : Z := i * b + r.

Lemma pos_bound n b i r : 0 <= i < n -> 0 <= r < b -> 0 <= pos b i r < n * b.
Proof. unfold pos; intros; nia. Qed.

Lemma pos_div b i r : 0 <= r < b -> pos b i r / b = i.
Proof. unfold pos; intros. rewrite Z.div_add_l, Z.div_small by lia. lia. Qed.

Lemma pos_mod b i r : 0 <= r < b -> pos b i r mod b = r.
Proof.
  unfold pos; intros. rewrite Z.add_comm, Z.mod_add by lia. by apply Z.mod_small.
Qed.

Lemma pos_of_divmod b e : 0 < b -> pos b (e / b) (e mod b) = e.
Proof. unfold pos; intros. pose proof (Z.div_mod e b). lia. Qed.

Lemma pos_inj b i r i' r' :
  0 <= r < b -> 0 <= r' < b -> pos b i r = pos b i' r' -> i = i' /\ r = r'.
Proof. unfold pos; intros. apply (Z.div_mod_unique b i i' r r'); lia. Qed.

Lemma div_range n b e : 0 < b -> 0 <= e < n * b -> 0 <= e / b < n.
Proof.
  intros. split; [apply Z.div_pos; lia|]. apply Z.div_lt_upper_bound; lia.
Qed.

Create Rewrite HintDb radix.
#[export] Hint Rewrite pos_div pos_mod using lia : radix.

(** ** Slices and overwrites of lists indexed by [Z] *)

Section slices.
Context {A : Type}.
Implicit Types l bs : list A.

Definition zlen l : Z := Z.of_nat (length l).
Definition slice l (o n : Z) : list A := take (Z.to_nat n) (drop (Z.to_nat o) l).
Definition blit l (o : Z) bs : list A :=
  take (Z.to_nat o) l ++ bs ++ drop (Z.to_nat (o + zlen bs)) l.

Lemma zlen_nonneg l : 0 <= zlen l.
Proof. unfold zlen; lia. Qed.

Lemma zlen_slice l o n : 0 <= o -> 0 <= n -> o + n <= zlen l -> zlen (slice l o n) = n.
Proof. unfold zlen, slice. intros. rewrite length_take, length_drop. lia. Qed.

Lemma zlen_blit l o bs : 0 <= o -> o + zlen bs <= zlen l -> zlen (blit l o bs) = zlen l.
Proof.
  unfold zlen, blit. intros. rewrite !length_app, length_take, length_drop.
  unfold zlen in *. lia.
Qed.

Lemma slice_blit_eq l o bs :
  0 <= o -> o + zlen bs <= zlen l -> slice (blit l o bs) o (zlen bs) = bs.
Proof.
  unfold zlen, slice, blit. intros. rewrite drop_app_length'.
  - rewrite take_app_length'; [done|lia].
  - rewrite length_take. lia.
Qed.

Lemma slice_lookup l o n (i : nat) :
  0 <= o -> Z.of_nat i < n -> slice l o n !! i = l !! (Z.to_nat o + i)%nat.
Proof. unfold slice. intros. rewrite lookup_take_lt by lia. by rewrite lookup_drop. Qed.

Lemma blit_lookup_out l o bs (i : nat) :
  0 <= o -> o + zlen bs <= zlen l ->
  (Z.of_nat i < o \/ o + zlen bs <= Z.of_nat i) ->
  blit l o bs !! i = l !! i.
Proof.
  unfold zlen, blit. intros Ho Hl [Hi|Hi].
  - rewrite lookup_app_l by (rewrite length_take; lia). by rewrite lookup_take_lt by lia.
  - rewrite lookup_app_r by (rewrite length_take; lia).
    rewrite lookup_app_r by (rewrite length_take; lia).
    rewrite lookup_drop, length_take. f_equal. unfold zlen. lia.
Qed.

Lemma slice_eq l l' o n :
  0 <= o -> (forall i : nat, o <= Z.of_nat i < o + n -> l !! i = l' !! i) ->
  slice l o n = slice l' o n.
Proof.
  intros Ho H. apply list_eq. intros i.
  destruct (decide (Z.of_nat i < n)).
  - rewrite !slice_lookup by lia. apply H. lia.
  - unfold slice. rewrite !lookup_take_ge; [done|lia|lia].
Qed.

Lemma slice_blit_ne l o bs p n :
  0 <= o -> o + zlen bs <= zlen l -> 0 <= p ->
  (p + n <= o \/ o + zlen bs <= p) ->
  slice (blit l o bs) p n = slice l p n.
Proof. intros. apply slice_eq; [lia|]. intros. apply blit_lookup_out; lia. Qed.

Lemma slice_slice l o n p m :
  0 <= o -> 0 <= p -> 0 <= m -> p + m <= n -> slice (slice l o n) p m = slice l (o + p) m.
Proof.
  intros. unfold slice. rewrite skipn_firstn_comm, drop_drop, take_take. f_equal; [lia|]. f_equal. lia.
Qed.

Lemma slice_sub_blit l o bs p m :
  0 <= o -> o + zlen bs <= zlen l -> 0 <= p -> 0 <= m -> p + m <= zlen bs ->
  slice (blit l o bs) (o + p) m = slice bs p m.
Proof.
  intros. rewrite <- (slice_slice _ o (zlen bs)) by lia. by rewrite slice_blit_eq.
Qed.
End slices.

Lemma slice_fmap {A B} (f : A -> B) (l : list A) o n : slice (f <$> l) o n = f <$> slice l o n.
Proof. unfold slice. by rewrite fmap_take, fmap_drop. Qed.

Lemma zlen_fmap {A B} (f : A -> B) (l : list A) : zlen (f <$> l) = zlen l.
Proof. unfold zlen. by rewrite length_fmap. Qed.

Lemma zlen_app {A} (l l' : list A) : zlen (l ++ l') = zlen l + zlen l'.
Proof. unfold zlen. rewrite length_app. lia. Qed.

Lemma zlen_replicate {A} n (x : A) : 0 <= n -> zlen (replicate (Z.to_nat n) x) = n.
Proof. unfold zlen. rewrite length_replicate. lia. Qed.

(** ** Evaluation of concrete hypotheses *)

(** Discharge a closed hypothesis by running it. *)
Ltac run_hyp :=
  first [reflexivity | (vm_compute; reflexivity) | (vm_compute; discriminate)
        | done | (repeat split; first [reflexivity | vm_compute; (reflexivity || discriminate)])].
