(* ===== verification/Env.v ===== *)
(** * Env: what the format library takes from outside the repository

    The tensor-format code of [base/formats] is written against two headers
    that are not part of the repository: [graph/types.h] (the [Format] and
    [DataType] enumerations and the helpers that take a full format apart)
    and securec's bounds-checked [memcpy_s] / [memset_s].  Both enter the
    model as type classes.  [GeTypes] and [SecureC] hold the operations;
    [GeTypesLaws] and [SecureCLaws] hold the documented behaviour the code
    relies on.  The instances at the end show that the laws can be met, and
    every witness of the development evaluates on them. *)

From S2P Require Import Prelude.

(** A byte of memory: [None] is a byte nothing has been stored in yet. *)
Abbreviation cell := (option Z).

(** ** graph/types.h *)

Class GeTypes := {
  FORMAT_NCHW : Z;
  FORMAT_NHWC : Z;
  FORMAT_ND : Z;
  FORMAT_NC1HWC0 : Z;
  FORMAT_FRACTAL_Z : Z;
  FORMAT_FRACTAL_Z_C04 : Z;
  FORMAT_CHWN : Z;
  FORMAT_HWCN : Z;
  FORMAT_C1HWNCoC0 : Z;
  FORMAT_FRACTAL_ZZ : Z;
  FORMAT_FRACTAL_NZ : Z;
  FORMAT_DHWCN : Z;
  FORMAT_DHWNC : Z;
  FORMAT_FRACTAL_Z_3D : Z;
  FORMAT_FRACTAL_Z_3D_TRANSPOSE : Z;
  DT_FLOAT : Z;
  DT_FLOAT16 : Z;
  DT_INT8 : Z;
  GetPrimaryFormat : Z -> Z;
  GetSubFormat : Z -> Z;
  GetC0Value : Z -> Z;
  GetSizeByDataType : Z -> Z;
}.

(** No element is larger than [max_type_size] bytes. *)
Definition max_type_size : Z := 2 ^ 16.

Class GeTypesLaws `{GeTypes} : Prop := {
  formats_distinct : NoDup [FORMAT_NCHW; FORMAT_NHWC; FORMAT_ND; FORMAT_NC1HWC0; FORMAT_FRACTAL_Z;
                            FORMAT_FRACTAL_Z_C04; FORMAT_CHWN; FORMAT_HWCN; FORMAT_C1HWNCoC0;
                            FORMAT_FRACTAL_ZZ; FORMAT_FRACTAL_NZ; FORMAT_DHWCN; FORMAT_DHWNC;
                            FORMAT_FRACTAL_Z_3D; FORMAT_FRACTAL_Z_3D_TRANSPOSE];
  type_size_bound : forall dt, GetSizeByDataType dt <= max_type_size;
}.

(** Two formats at different places of the list differ. *)
Lemma formats_neq `{GeTypesLaws} (i j : nat) x y :
  [FORMAT_NCHW; FORMAT_NHWC; FORMAT_ND; FORMAT_NC1HWC0; FORMAT_FRACTAL_Z; FORMAT_FRACTAL_Z_C04;
   FORMAT_CHWN; FORMAT_HWCN; FORMAT_C1HWNCoC0; FORMAT_FRACTAL_ZZ; FORMAT_FRACTAL_NZ; FORMAT_DHWCN;
   FORMAT_DHWNC; FORMAT_FRACTAL_Z_3D; FORMAT_FRACTAL_Z_3D_TRANSPOSE] !! i = Some x ->
  [FORMAT_NCHW; FORMAT_NHWC; FORMAT_ND; FORMAT_NC1HWC0; FORMAT_FRACTAL_Z; FORMAT_FRACTAL_Z_C04;
   FORMAT_CHWN; FORMAT_HWCN; FORMAT_C1HWNCoC0; FORMAT_FRACTAL_ZZ; FORMAT_FRACTAL_NZ; FORMAT_DHWCN;
   FORMAT_DHWNC; FORMAT_FRACTAL_Z_3D; FORMAT_FRACTAL_Z_3D_TRANSPOSE] !! j = Some y ->
  i <> j -> x <> y.
Proof. intros Hi Hj Hne ->. apply Hne. eapply NoDup_lookup; eauto using formats_distinct. Qed.

(** ** Metadef helpers used by the FRACTAL_Z_C04 transfer

    [GetFormatFromSub] composes a full format; [MulOverflow] returns whether
    the [int64_t] product overflows, and the product; [ErrorResult] is what the
    [GE_ASSERT] family of macros returns. *)
Class Metadef := {
  FORMAT_RESERVED : Z;
  GetFormatFromSub : Z -> Z -> Z;
  MulOverflow : Z -> Z -> bool * Z;
  ErrorResult : Status;
}.

Class MetadefLaws `{GeTypes} `{Metadef} : Prop := {
  primary_of_primary : GetPrimaryFormat FORMAT_NCHW = FORMAT_NCHW;
  primary_from_sub : forall sub, GetPrimaryFormat (GetFormatFromSub FORMAT_NCHW sub) = FORMAT_NCHW;
  MulOverflow_ok : forall a b, - 2 ^ 63 <= a * b < 2 ^ 63 -> MulOverflow a b = (false, a * b);
}.

(** ** securec and the allocator

    A destination is a buffer and an offset into it, [None] being the null
    pointer; a source is a buffer, [None] being the null pointer, and an
    offset.  The functions return the error number and the buffer. *)
Class SecureC := {
  EOK : Z;
  SECUREC_MEM_MAX_LEN : Z;
  PtrAdd : Z -> Z -> option Z;
  memcpy_s : list cell -> option Z -> Z -> option (list Z) -> Z -> Z -> Z * list cell;
  memset_s : list cell -> option Z -> Z -> Z -> Z -> Z * list cell;
  (** whether [new (std::nothrow) uint8_t[n]] returns memory *)
  can_alloc : Z -> bool;
}.

Class SecureCLaws `{SecureC} : Prop := {
  (** [destMax] may be as large as 2 GiB - 1 *)
  mem_max_len : SECUREC_MEM_MAX_LEN = 2147483647;
  PtrAdd_ok : forall max_buf_len idx, 0 <= idx < max_buf_len -> PtrAdd max_buf_len idx = Some idx;
  memcpy_s_ok : forall dst o dest_max src so count,
    0 < count <= dest_max -> dest_max <= SECUREC_MEM_MAX_LEN ->
    0 <= o -> o + count <= zlen dst -> 0 <= so -> so + count <= zlen src ->
    memcpy_s dst (Some o) dest_max (Some src) so count
    = (EOK, blit dst o (Some <$> slice src so count));
  memset_s_ok : forall dst o dest_max c count,
    0 < count <= dest_max -> dest_max <= SECUREC_MEM_MAX_LEN ->
    0 <= o -> o + count <= zlen dst -> 0 <= c < 256 ->
    memset_s dst (Some o) dest_max c count
    = (EOK, blit dst o (replicate (Z.to_nat count) (Some c)));
}.

(** ** A model of the laws *)

Module Concrete.
(** The enumeration values the dump protocol records, and a full format
    that keeps the primary format in its low byte, the sub-format above it
    and the base-2 logarithm of [C0] plus one above that. *)
#[export] Instance types : GeTypes := {
  FORMAT_NCHW := 0; FORMAT_NHWC := 1; FORMAT_ND := 2; FORMAT_NC1HWC0 := 3;
  FORMAT_FRACTAL_Z := 4; FORMAT_FRACTAL_Z_C04 := 13; FORMAT_CHWN := 14; FORMAT_HWCN := 16;
  FORMAT_C1HWNCoC0 := 25; FORMAT_FRACTAL_ZZ := 28; FORMAT_FRACTAL_NZ := 29;
  FORMAT_DHWCN := 31; FORMAT_DHWNC := 36; FORMAT_FRACTAL_Z_3D := 33;
  FORMAT_FRACTAL_Z_3D_TRANSPOSE := 37;
  DT_FLOAT := 0; DT_FLOAT16 := 1; DT_INT8 := 2;
  GetPrimaryFormat f := Z.land f 255;
  GetSubFormat f := Z.land (Z.shiftr f 8) 65535;
  GetC0Value f := let b := Z.land (Z.shiftr f 24) 15 in if b =? 0 then -1 else 2 ^ (b - 1);
  GetSizeByDataType dt :=
    match dt with 0 => 4 | 1 => 2 | 2 => 1 | 3 => 4 | 4 => 1 | 9 => 8 | _ => -1 end;
}.

#[export] Instance types_laws : GeTypesLaws.
Proof.
  split.
  - apply (bool_decide_unpack _). vm_compute. exact I.
  - intros dt. unfold max_type_size. simpl.
    destruct dt as [|p|p]; [vm_compute; discriminate| |vm_compute; discriminate].
    destruct p as [[[[]|[]|]|[[]|[]|]|]|[[[]|[]|]|[[]|[]|]|]|]; vm_compute; discriminate.
Qed.

#[export] Instance metadef : Metadef := {
  FORMAT_RESERVED := 40;
  GetFormatFromSub p sub := Z.lor (Z.land p 255) (Z.shiftl (Z.land sub 65535) 8);
  MulOverflow a b := (negb ((- 2 ^ 63 <=? a * b) && (a * b <? 2 ^ 63)), swrap 64 (a * b));
  ErrorResult := FAILED;
}.

#[export] Instance metadef_laws : MetadefLaws.
Proof.
  split.
  - reflexivity.
  - intros sub. change (Z.land (Z.shiftl (Z.land sub 65535) 8) 255 = 0).
    apply Z.bits_inj'. intros i Hi. rewrite Z.land_spec, Z.shiftl_spec, Z.bits_0 by done.
    destruct (decide (i < 8)).
    + by rewrite Z.testbit_neg_r by lia.
    + rewrite (Z.bits_above_log2 255); [apply andb_false_r|done|]. change (Z.log2 255) with 7. lia.
  - intros a b Hab. simpl MulOverflow. rewrite (proj2 (Z.leb_le _ _)), (proj2 (Z.ltb_lt _ _)) by lia. simpl.
    f_equal. unfold swrap. change (64 - 1) with 63. rewrite Z.mod_small; lia.
Qed.

#[export] Instance securec : SecureC := {
  EOK := 0;
  SECUREC_MEM_MAX_LEN := 2147483647;
  PtrAdd max_buf_len idx := if (0 <=? idx) && (idx <? max_buf_len) then Some idx else None;
  memcpy_s dst o dest_max src so count :=
    match o, src with
    | Some o, Some src =>
      if (0 <? count) && (count <=? dest_max) && (dest_max <=? 2147483647)
      then (0, blit dst o (Some <$> slice src so count)) else (34, dst)
    | _, _ => (22, dst)
    end;
  memset_s dst o dest_max c count :=
    match o with
    | Some o =>
      if (0 <? count) && (count <=? dest_max) && (dest_max <=? 2147483647)
      then (0, blit dst o (replicate (Z.to_nat count) (Some c))) else (34, dst)
    | None => (22, dst)
    end;
  can_alloc _ := true;
}.

#[export] Instance securec_laws : SecureCLaws.
Proof.
  split; simpl; intros.
  - reflexivity.
  - by rewrite (proj2 (Z.leb_le _ _)), (proj2 (Z.ltb_lt _ _)) by lia.
  - by rewrite (proj2 (Z.ltb_lt _ _)), (proj2 (Z.leb_le count _)),
      (proj2 (Z.leb_le dest_max _)) by lia.
  - by rewrite (proj2 (Z.ltb_lt _ _)), (proj2 (Z.leb_le count _)),
      (proj2 (Z.leb_le dest_max _)) by lia.
Qed.
End Concrete.
