(* ===== verification/FormatsUtils.v ===== *)
(** * FormatsUtils: [base/formats/utils] and the transfer interface

    Shapes, their validation and the small arithmetic the transfers share
    ([formats_trans_utils.cc], [formats_trans_utils.h],
    [formats_definitions.h]), and the argument and result records of
    [register_format_transfer.h].  A shape is a list of [int64_t] values kept
    as [Z]; where the source multiplies without having checked the product
    first, the product wraps at 64 bits. *)

From S2P Require Import Prelude Env.

(** ** formats_definitions.h *)

Definition kCubeSize : Z := 16.
Definition kNiSize : Z := 16.
Definition kShapeItemNumMAX : Z := 1099511627776.
Definition DIM_DEFAULT_VALUE : Z := 1.

Definition kNchwN : nat := 0.
Definition kNchwC : nat := 1.
Definition kNchwH : nat := 2.
Definition kNchwW : nat := 3.
Definition kNchwDimsNum : Z := 4.
Definition kNhwcN : nat := 0.
Definition kNhwcH : nat := 1.
Definition kNhwcW : nat := 2.
Definition kNhwcC : nat := 3.
Definition kNhwcDimsNum : Z := 4.
Definition kHwcnH : nat := 0.
Definition kHwcnW : nat := 1.
Definition kHwcnC : nat := 2.
Definition kHwcnN : nat := 3.
Definition kHwcnDimsNum : Z := 4.
Definition kChwnC : nat := 0.
Definition kChwnH : nat := 1.
Definition kChwnW : nat := 2.
Definition kChwnN : nat := 3.
Definition kNc1hwc0N : nat := 0.
Definition kNc1hwc0C1 : nat := 1.
Definition kNc1hwc0H : nat := 2.
Definition kNc1hwc0W : nat := 3.
Definition kNc1hwc0C0 : nat := 4.
Definition kNc1hwc0DimsNum : Z := 5.
Definition kC1hwncoc0C1 : nat := 0.
Definition kC1hwncoc0H : nat := 1.
Definition kC1hwncoc0W : nat := 2.
Definition kC1hwncoc0N : nat := 3.
Definition kC1hwncoc0Co : nat := 4.
Definition kC1hwncoc0C0 : nat := 5.
Definition kC1hwncoc0DimsNum : Z := 6.
Definition kFracZHWC1 : nat := 0.
Definition kFracZN0 : nat := 1.
Definition kFracZNi : nat := 2.
Definition kFracZC0 : nat := 3.
Definition kFracZDimsNum : Z := 4.
Definition kDhwcnD : nat := 0.
Definition kDhwcnH : nat := 1.
Definition kDhwcnW : nat := 2.
Definition kDhwcnC : nat := 3.
Definition kDhwcnN : nat := 4.
Definition kDhwcnDimsNum : Z := 5.
Definition kDhwncD : nat := 0.
Definition kDhwncH : nat := 1.
Definition kDhwncW : nat := 2.
Definition kDhwncN : nat := 3.
Definition kDhwncC : nat := 4.
Definition kDhwncDimsNum : Z := 5.

(** ** register_format_transfer.h *)

(** [data] is [None] for a null pointer. *)
Record TransArgs := {
  data : option (list Z);
  src_format : Z;
  dst_format : Z;
  src_primary_format : Z;
  dst_primary_format : Z;
  src_sub_format : Z;
  dst_sub_format : Z;
  src_c0_format : Z;
  dst_c0_format : Z;
  src_shape : list Z;
  dst_shape : list Z;
  src_data_type : Z;
}.

(** The same call on another buffer. *)
Definition with_data (args : TransArgs) (d : list Z) : TransArgs :=
  {| data := Some d; src_format := src_format args; dst_format := dst_format args;
     src_primary_format := src_primary_format args; dst_primary_format := dst_primary_format args;
     src_sub_format := src_sub_format args; dst_sub_format := dst_sub_format args;
     src_c0_format := src_c0_format args; dst_c0_format := dst_c0_format args;
     src_shape := src_shape args; dst_shape := dst_shape args;
     src_data_type := src_data_type args |}.

(** The arguments the dispatcher builds: the primary and sub formats are
    those of the full formats. *)
Definition consistent `{GeTypes} (args : TransArgs) : Prop :=
  src_primary_format args = GetPrimaryFormat (src_format args) /\
  dst_primary_format args = GetPrimaryFormat (dst_format args) /\
  src_sub_format args = GetSubFormat (src_format args) /\
  dst_sub_format args = GetSubFormat (dst_format args).

(** [res_data] is [None] while the shared pointer is null. *)
Record TransResult := { res_data : option (list cell); res_length : Z }.

(** The abstract class [FormatTransfer]: a result record goes in (the caller
    owns it) and comes out. *)
Record FormatTransfer := {
  TransFormat : TransArgs -> TransResult -> outcome TransResult;
  TransShape : Z -> list Z -> Z -> Z -> outcome (list Z);
}.

(** ** formats_trans_utils *)

Definition GetCubeSizeByDataType `{GeTypes} (data_type : Z) : Z :=
  let size := GetSizeByDataType data_type in
  if size <=? 0 then -1 else if size =? 1 then kCubeSize * 2 else kCubeSize.

Definition GetItemNumByShape (shape : list Z) : Z :=
  fold_left (fun num dim => swrap 64 (num * dim)) shape 1.

Fixpoint IsShapeValid_loop (num : Z) (shape : list Z) : bool :=
  match shape with
  | [] => true
  | dim :: shape =>
    if dim <? 0 then false
    else if negb (dim =? 0) && (Z.quot kShapeItemNumMAX dim <? num) then false
    else IsShapeValid_loop (num * dim) shape
  end.

Definition IsShapeValid (shape : list Z) : bool :=
  match shape with [] => false | _ => IsShapeValid_loop 1 shape end.

Definition CheckShapeValid (shape : list Z) (expect_dims : Z) : bool :=
  if (expect_dims <=? 0) || negb (zlen shape =? expect_dims) then false else IsShapeValid shape.

Fixpoint IsShapeEqual (src dst : list Z) : bool :=
  match src, dst with
  | [], [] => true
  | x :: src, y :: dst => if x =? y then IsShapeEqual src dst else false
  | _, _ => false
  end.

Definition IsTransShapeSrcCorrect (args : TransArgs) (expect_shape : list Z) : bool :=
  if bool_decide (src_shape args = expect_shape) then true else false.

Definition IsTransShapeDstCorrect (args : TransArgs) (expect_shape : list Z) : bool :=
  if negb (bool_decide (dst_shape args = [])) && negb (bool_decide (dst_shape args = expect_shape))
  then false else true.

Definition Ceil (n1 n2 : Z) : Z :=
  if n1 =? 0 then 0 else if negb (n2 =? 0) then Z.quot (n1 - 1) n2 + 1 else 0.

(** [while ((x % y) != 0) { z = x % y; x = y; y = z; }]; the remainder's
    magnitude falls at every turn, so [Z.abs y] turns are enough. *)
Fixpoint Measure_loop (fuel : nat) (x y z : Z) : outcome Z :=
  match fuel with
  | O => Fault
  | S fuel => if Z.rem x y =? 0 then Ok z else Measure_loop fuel y (Z.rem x y) (Z.rem x y)
  end.

Definition Measure (x y : Z) : outcome Z :=
  if y =? 0 then Ok (-1) else Measure_loop (S (Z.to_nat (Z.abs y))) x y y.

Definition Lcm (a b : Z) : outcome Z :=
  if b =? 0 then Ok (-1) else m ← Measure a b; quot_ (swrap 64 (a * b)) m.

Lemma dst_correct args : IsTransShapeDstCorrect args (dst_shape args) = true.
Proof.
  unfold IsTransShapeDstCorrect. rewrite (bool_decide_eq_true_2 (dst_shape args = dst_shape args)) by done.
  by rewrite andb_false_r.
Qed.

(** ** Shape validation *)

(** Product of a shape over [Z]. *)
Fixpoint prodZ (shape : list Z) : Z :=
  match shape with [] => 1 | d :: shape => d * prodZ shape end.

Lemma swrap64_small v : - 2 ^ 63 <= v < 2 ^ 63 -> swrap 64 v = v.
Proof.
  unfold swrap. change (64 - 1) with 63. intros. rewrite Z.mod_small; lia.
Qed.

Lemma quot_lt_iff num dim :
  0 <= num -> 0 < dim -> (Z.quot kShapeItemNumMAX dim <? num) = (kShapeItemNumMAX <? num * dim).
Proof.
  intros. rewrite Z.quot_div_nonneg by (unfold kShapeItemNumMAX; lia).
  destruct (Z.ltb_spec (kShapeItemNumMAX / dim) num) as [Hlt|Hge];
    destruct (Z.ltb_spec kShapeItemNumMAX (num * dim)) as [Hlt'|Hge']; try done; exfalso.
  - apply (Z.div_le_mono _ _ dim) in Hge'; [|lia]. rewrite Z.div_mul in Hge' by lia. lia.
  - apply Z.nlt_ge in Hge. apply Hge. apply Z.div_lt_upper_bound; lia.
Qed.

(** [IsShapeValid] accepts the shapes all of whose dimensions are
    non-negative and all of whose prefix products stay within the limit. *)
Fixpoint prefixes_ok (num : Z) (shape : list Z) : Prop :=
  match shape with
  | [] => True
  | d :: shape => 0 <= d /\ num * d <= kShapeItemNumMAX /\ prefixes_ok (num * d) shape
  end.

Lemma IsShapeValid_loop_spec num shape :
  0 <= num -> (IsShapeValid_loop num shape = true <-> prefixes_ok num shape).
Proof.
  revert num. induction shape as [|d shape IH]; intros num Hn; simpl; [done|].
  destruct (Z.ltb_spec d 0); [split; [done|lia]|].
  destruct (Z.eqb_spec d 0) as [->|Hd]; simpl.
  - rewrite IH by lia. split; [intros; split_and!; try lia; auto; unfold kShapeItemNumMAX; lia|tauto].
  - rewrite quot_lt_iff by lia.
    destruct (Z.ltb_spec kShapeItemNumMAX (num * d)); [split; [done|lia]|].
    rewrite IH by nia. intuition lia.
Qed.

Lemma prefixes_ok_prod num shape :
  0 <= num <= kShapeItemNumMAX -> prefixes_ok num shape ->
  0 <= num * prodZ shape <= kShapeItemNumMAX /\
  fold_left (fun num dim => swrap 64 (num * dim)) shape num = num * prodZ shape.
Proof.
  revert num. induction shape as [|d shape IH]; intros num Hn; simpl; [lia|].
  intros (Hd & Hm & Hp). destruct (IH (num * d)) as [? E]; [nia|done|].
  rewrite (swrap64_small (num * d)) by (unfold kShapeItemNumMAX in *; nia).
  rewrite E. split; lia.
Qed.

(** On a validated shape the 64-bit product is the exact one. *)
Lemma valid_item_num shape :
  IsShapeValid shape = true ->
  GetItemNumByShape shape = prodZ shape /\ 0 <= prodZ shape <= kShapeItemNumMAX.
Proof.
  unfold IsShapeValid. destruct shape as [|d shape]; [done|].
  rewrite IsShapeValid_loop_spec by lia. intros H.
  apply prefixes_ok_prod in H; [|unfold kShapeItemNumMAX; lia].
  unfold GetItemNumByShape. lia.
Qed.

Lemma prefixes_ok_pos num shape :
  0 < num -> Forall (Z.lt 0) shape -> num * prodZ shape <= kShapeItemNumMAX ->
  prefixes_ok num shape.
Proof.
  intros Hn Hs. revert num Hn. induction Hs as [|d shape Hd Hs IH]; intros n Hn Hp; simpl; [done|].
  simpl in Hp. assert (0 < prodZ shape) by (clear -Hs; induction Hs; simpl; nia).
  split; [lia|]. split; [nia|]. apply IH; nia.
Qed.

(** So it is on positive dimensions whose product is within the limit. *)
Lemma item_num_exact shape :
  Forall (Z.lt 0) shape -> prodZ shape <= kShapeItemNumMAX -> GetItemNumByShape shape = prodZ shape.
Proof.
  intros Hs Hb. unfold GetItemNumByShape. rewrite <- (Z.mul_1_l (prodZ shape)).
  apply prefixes_ok_prod; [unfold kShapeItemNumMAX; lia|]. apply prefixes_ok_pos; [lia|done|lia].
Qed.

(** Such a shape is accepted. *)
Lemma valid_of_prod shape :
  shape <> [] -> Forall (Z.lt 0) shape -> prodZ shape <= kShapeItemNumMAX ->
  IsShapeValid shape = true.
Proof.
  intros Hne Hs Hb. unfold IsShapeValid. destruct shape; [done|].
  apply IsShapeValid_loop_spec; [lia|]. apply prefixes_ok_pos; [lia|done|lia].
Qed.

Lemma valid_nonneg shape : IsShapeValid shape = true -> Forall (fun d => 0 <= d) shape.
Proof.
  unfold IsShapeValid. destruct shape as [|d shape]; [done|].
  rewrite IsShapeValid_loop_spec by lia. generalize 1.
  generalize (d :: shape). intros l. induction l as [|x l IH]; intros n; simpl; [constructor|].
  intros (? & ? & ?). constructor; eauto.
Qed.

Lemma CheckShapeValid_inv shape n :
  CheckShapeValid shape n = true -> zlen shape = n /\ IsShapeValid shape = true.
Proof.
  unfold CheckShapeValid. destruct ((n <=? 0) || negb (zlen shape =? n)) eqn:E; [done|].
  apply orb_false_iff in E as [_ E]. apply negb_false_iff, Z.eqb_eq in E. auto.
Qed.

(** ** Rounding up *)

Lemma Ceil_eq n1 n2 : 0 <= n1 -> 0 < n2 -> Ceil n1 n2 = (n1 + n2 - 1) / n2.
Proof.
  intros. unfold Ceil. destruct (Z.eqb_spec n1 0) as [->|].
  - symmetry. apply Z.div_small. lia.
  - rewrite (proj2 (Z.eqb_neq n2 0)) by lia. simpl.
    rewrite Z.quot_div_nonneg by lia.
    replace (n1 + n2 - 1) with (n1 - 1 + 1 * n2) by lia. rewrite Z.div_add; lia.
Qed.

Lemma Ceil_bounds n1 n2 : 0 <= n1 -> 0 < n2 -> n1 <= Ceil n1 n2 * n2 < n1 + n2.
Proof.
  intros. rewrite Ceil_eq by lia.
  pose proof (Z.div_mod (n1 + n2 - 1) n2). pose proof (Z.mod_pos_bound (n1 + n2 - 1) n2). nia.
Qed.

Lemma Ceil_pos n1 n2 : 0 < n1 -> 0 < n2 -> 0 < Ceil n1 n2.
Proof. intros. pose proof (Ceil_bounds n1 n2). nia. Qed.

Lemma Ceil_nonneg n1 n2 : 0 <= n1 -> 0 < n2 -> 0 <= Ceil n1 n2.
Proof. intros. pose proof (Ceil_bounds n1 n2). nia. Qed.

(** The block an entry falls in exists. *)
Lemma Ceil_div_lt n1 n2 i : 0 <= i < n1 -> 0 < n2 -> 0 <= i / n2 < Ceil n1 n2.
Proof.
  intros. pose proof (Ceil_bounds n1 n2). split; [apply Z.div_pos; lia|].
  apply Z.div_lt_upper_bound; nia.
Qed.

(** ** Greatest common divisor and least common multiple *)

Lemma Measure_loop_gcd fuel x y :
  0 <= x -> 0 < y -> y < Z.of_nat fuel -> Measure_loop fuel x y y = Ok (Z.gcd x y).
Proof.
  revert x y. induction fuel as [|fuel IH]; intros x y Hx Hy Hf; [lia|]. simpl.
  rewrite Z.rem_mod_nonneg by lia. destruct (Z.eqb_spec (x mod y) 0) as [E|E].
  - f_equal. symmetry. rewrite Z.gcd_comm. apply Z.gcd_unique; try lia.
    + apply Z.divide_refl.
    + by apply Z.mod_divide; [lia|].
    + auto.
  - pose proof (Z.mod_pos_bound x y Hy). rewrite IH by lia.
    f_equal. rewrite (Z.gcd_comm x y), <- (Z.gcd_mod x y) by lia. apply Z.gcd_comm.
Qed.

Lemma Measure_gcd x y : 0 <= x -> 0 < y -> Measure x y = Ok (Z.gcd x y).
Proof.
  intros. unfold Measure. rewrite (proj2 (Z.eqb_neq y 0)) by lia.
  apply Measure_loop_gcd; lia.
Qed.

Lemma Lcm_lcm a b :
  0 <= a -> 0 < b -> a * b < 2 ^ 63 -> Lcm a b = Ok (Z.lcm a b).
Proof.
  intros Ha Hb Hab. unfold Lcm. rewrite (proj2 (Z.eqb_neq b 0)) by lia.
  rewrite Measure_gcd by lia. simpl. rewrite swrap64_small by nia.
  assert (Hg : 0 < Z.gcd a b).
  { pose proof (Z.gcd_nonneg a b). destruct (Z.eq_dec (Z.gcd a b) 0) as [E|]; [|lia].
    apply Z.gcd_eq_0_r in E. lia. }
  rewrite quot_nonneg by nia. f_equal. unfold Z.lcm.
  rewrite Z.abs_eq by (apply Z.mul_nonneg_nonneg; [lia|]; apply Z.div_pos; lia).
  destruct (Z.gcd_divide_r a b) as [k Hk]. rewrite Hk at 1 3.
  rewrite Z.mul_assoc, !Z.div_mul by lia. done.
Qed.

(** ** What a shape check leaves behind *)

Lemma zlen_4 (l : list Z) : zlen l = 4 -> exists a b c d, l = [a; b; c; d].
Proof. destruct l as [|a [|b [|c [|d [|]]]]]; unfold zlen; simpl; try lia. eauto. Qed.

Lemma zlen_5 (l : list Z) : zlen l = 5 -> exists a b c d e, l = [a; b; c; d; e].
Proof.
  destruct l as [|a [|b [|c [|d [|e [|]]]]]]; unfold zlen; simpl; try lia. eauto 6.
Qed.

Lemma zlen_6 (l : list Z) : zlen l = 6 -> exists a b c d e f, l = [a; b; c; d; e; f].
Proof.
  destruct l as [|a [|b [|c [|d [|e [|f [|]]]]]]]; unfold zlen; simpl; try lia. eauto 7.
Qed.

Lemma check4_inv shape :
  CheckShapeValid shape 4 = true ->
  exists a b c d, shape = [a; b; c; d] /\ 0 <= a /\ 0 <= b /\ 0 <= c /\ 0 <= d /\
    GetItemNumByShape shape = a * b * c * d /\ 0 <= a * b * c * d <= kShapeItemNumMAX.
Proof.
  intros [Hl Hv]%CheckShapeValid_inv. apply zlen_4 in Hl as (a & b & c & d & ->).
  pose proof (valid_nonneg _ Hv) as Hn. rewrite !Forall_cons in Hn.
  destruct (valid_item_num _ Hv) as [E B]. simpl prodZ in *.
  exists a, b, c, d. rewrite E. split_and!; try lia; reflexivity.
Qed.

Lemma check5_inv shape :
  CheckShapeValid shape 5 = true ->
  exists a b c d e, shape = [a; b; c; d; e] /\
    0 <= a /\ 0 <= b /\ 0 <= c /\ 0 <= d /\ 0 <= e /\
    GetItemNumByShape shape = a * b * c * d * e /\ 0 <= a * b * c * d * e <= kShapeItemNumMAX.
Proof.
  intros [Hl Hv]%CheckShapeValid_inv. apply zlen_5 in Hl as (a & b & c & d & e & ->).
  pose proof (valid_nonneg _ Hv) as Hn. rewrite !Forall_cons in Hn.
  destruct (valid_item_num _ Hv) as [E B]. simpl prodZ in *.
  exists a, b, c, d, e. rewrite E. split_and!; try lia; reflexivity.
Qed.

Lemma check6_inv shape :
  CheckShapeValid shape 6 = true ->
  exists a b c d e f, shape = [a; b; c; d; e; f] /\
    0 <= a /\ 0 <= b /\ 0 <= c /\ 0 <= d /\ 0 <= e /\ 0 <= f /\
    GetItemNumByShape shape = a * b * c * d * e * f /\
    0 <= a * b * c * d * e * f <= kShapeItemNumMAX.
Proof.
  intros [Hl Hv]%CheckShapeValid_inv. apply zlen_6 in Hl as (a & b & c & d & e & f & ->).
  pose proof (valid_nonneg _ Hv) as Hn. rewrite !Forall_cons in Hn.
  destruct (valid_item_num _ Hv) as [E B]. simpl prodZ in *.
  exists a, b, c, d, e, f. rewrite E. split_and!; try lia; reflexivity.
Qed.
