(* ===== verification/Transfer.v ===== *)
(** * Transfer: the element-wise copy loops every transfer is made of

    All transfers of [base/formats/format_transfers] share one body: allocate
    the destination, walk it with nested counted loops, and at each position
    copy one element of the source or store zeroes.  This file holds that
    body's pieces (the allocation, the [protected_size] computation with its
    [GE_CHECK_GE], the checked [memcpy_s] and [memset_s]) and the reasoning
    about them: a buffer [agree]s with a specification on a set of element
    positions, one write adds one position, and a loop adds the positions of
    all its iterations. *)

From S2P Require Import Prelude Env FormatsUtils.

(** ** The pieces of a transfer *)

(** Report any error of [m] as [s]. *)
Definition fail_as {A} (s : Status) (m : outcome A) : outcome A :=
  match m with Err _ => Err s | _ => m end.

Lemma wp_fail_as {A} s (m : outcome A) P : wp m P -> wp (fail_as s m) P.
Proof. by destruct m. Qed.

Section ops.
Context `{SecureC}.

(** [new (std::nothrow) uint8_t[total_size]] and the null check. *)
Definition new_bytes (total_size : Z) : outcome (list cell) :=
  if can_alloc total_size then Ok (replicate (Z.to_nat total_size) None)
  else Err ACL_ERROR_GE_MEMORY_ALLOCATION.

(** The same with value-initialisation, [new ... uint8_t[total_size]()]. *)
Definition new_zeroed (total_size : Z) : outcome (list cell) :=
  if can_alloc total_size then Ok (replicate (Z.to_nat total_size) (Some 0))
  else Err ACL_ERROR_GE_MEMORY_ALLOCATION.

Definition protected_size (total_size dst_offset : Z) : Z :=
  if total_size - dst_offset <? SECUREC_MEM_MAX_LEN
  then total_size - dst_offset else SECUREC_MEM_MAX_LEN.

(** [protected_size] followed by [GE_CHECK_GE(protected_size, 0)]. *)
Definition guard_size (total_size dst_offset : Z) : outcome Z :=
  let p := protected_size total_size dst_offset in
  reject_if (p <? 0) PARAM_INVALID (Ok p).

(** [static_cast<size_t>] of an [int64_t]. *)
Definition size_t (v : Z) : Z := uwrap 64 v.

(** [memcpy_s(ptr, p, src + src_offset, count)] and its [EOK] test. *)
Definition memcpy_chk (dst : list cell) (ptr : option Z) (p : Z)
    (src : option (list Z)) (src_offset count : Z) : outcome (list cell) :=
  let '(ret, dst) := memcpy_s dst ptr (size_t p) src src_offset (size_t count) in
  if ret =? EOK then Ok dst else Err ACL_ERROR_GE_MEMORY_OPERATE_FAILED.

(** [memset_s(ptr, p, 0, count)] and its [EOK] test. *)
Definition memset_chk (dst : list cell) (ptr : option Z) (p count : Z) : outcome (list cell) :=
  let '(ret, dst) := memset_s dst ptr (size_t p) 0 (size_t count) in
  if ret =? EOK then Ok dst else Err ACL_ERROR_GE_MEMORY_OPERATE_FAILED.

(** [for (index = 0; index < n; index++) { *dst_data = *src_data; ++dst_data; ++src_data; }]:
    a copy without securec; leaving either buffer is undefined. *)
Definition load (src : option (list Z)) (o : Z) : outcome Z :=
  match src with
  | Some l => if o <? 0 then Fault else at_ l (Z.to_nat o)
  | None => Fault
  end.

Definition store (dst : list cell) (o b : Z) : outcome (list cell) :=
  if (0 <=? o) && (o <? zlen dst) then Ok (<[Z.to_nat o := Some b]> dst) else Fault.

Definition copy_bytes (dst : list cell) (o : Z) (src : option (list Z)) (so n : Z)
    : outcome (list cell) :=
  for_range 0 n (fun index dst => b ← load src (so + index); store dst (o + index) b) dst.
End ops.

Lemma size_t_small v : 0 <= v < 2 ^ 64 -> size_t v = v.
Proof. apply Z.mod_small. Qed.

(** ** Elements of a buffer *)

(** The [e]-th element of a buffer of elements of [size] bytes. *)
Definition elem {A} (l : list A) (size e : Z) : list A := slice l (e * size) size.

(** An element of zero bytes. *)
Definition zero_elem (size : Z) : list Z := replicate (Z.to_nat size) 0.

Lemma zlen_elem {A} (l : list A) size e N :
  0 <= size -> 0 <= e < N -> N * size <= zlen l -> zlen (elem l size e) = size.
Proof. intros. apply zlen_slice; nia. Qed.

Lemma elem_fmap {A B} (f : A -> B) l size e : elem (f <$> l) size e = f <$> elem l size e.
Proof. apply slice_fmap. Qed.

(** A buffer is determined by its elements. *)
Lemma elem_ext {A} (l l' : list A) N size :
  0 < size -> zlen l = N * size -> zlen l' = N * size ->
  (forall e, 0 <= e < N -> elem l size e = elem l' size e) -> l = l'.
Proof.
  intros Hs Hl Hl' He. apply list_eq. intros i. unfold zlen in *.
  destruct (decide (Z.of_nat i < N * size)) as [Hi|Hi].
  - pose proof (div_range N size (Z.of_nat i) Hs ltac:(lia)) as Hd.
    pose proof (Z.div_mod (Z.of_nat i) size ltac:(lia)) as Hdm.
    pose proof (Z.mod_pos_bound (Z.of_nat i) size Hs) as Hm.
    specialize (He _ Hd). unfold elem in He.
    apply (f_equal (fun x => x !! Z.to_nat (Z.of_nat i mod size))) in He.
    rewrite !slice_lookup in He by nia.
    by replace (Z.to_nat (Z.of_nat i / size * size) + Z.to_nat (Z.of_nat i mod size))%nat
      with i in He by nia.
  - rewrite !lookup_ge_None_2 by lia. done.
Qed.

(** The copy loop is an overwrite by a slice of the source. *)
Lemma copy_bytes_ok dst o src so n :
  0 <= n -> 0 <= o -> o + n <= zlen dst -> 0 <= so -> so + n <= zlen src ->
  copy_bytes dst o (Some src) so n = Ok (blit dst o (Some <$> slice src so n)).
Proof.
  intros Hn Ho Hd Hso Hs.
  assert (wp (copy_bytes dst o (Some src) so n)
            (fun out => out = blit dst o (Some <$> slice src so n))) as (out & E & ->)%wp_Ok;
    [|done].
  apply (wp_for (fun k out => out = blit dst o (Some <$> slice src so k))); [lia| |].
  - unfold blit, slice. simpl. unfold zlen. simpl. rewrite Z.add_0_r. by rewrite take_drop.
  - intros k out Hk ->. unfold load. rewrite (proj2 (Z.ltb_ge _ _)) by lia. unfold zlen in *.
    destruct (lookup_lt_is_Some_2 src (Z.to_nat (so + k))) as [b Hb]; [lia|].
    unfold at_. rewrite Hb. simpl. unfold store.
    assert (Hl : zlen (Some <$> slice src so k) = k)
      by (rewrite zlen_fmap, zlen_slice; unfold zlen; lia).
    rewrite zlen_blit by (rewrite ?Hl; unfold zlen; lia). unfold zlen.
    rewrite (proj2 (Z.leb_le _ _)), (proj2 (Z.ltb_lt _ _)) by lia. simpl.
    assert (Hsl : slice src so (k + 1) = slice src so k ++ [b]).
    { unfold slice. replace (Z.to_nat (k + 1)) with (S (Z.to_nat k)) by lia.
      apply take_S_r. rewrite lookup_drop. rewrite <- Hb. f_equal. lia. }
    rewrite Hsl, fmap_app. unfold blit at 1.
    rewrite insert_app_r_alt by (rewrite length_take; lia).
    rewrite insert_app_r_alt by (unfold zlen in Hl; rewrite length_take; lia).
    rewrite length_take. unfold blit. rewrite zlen_app, Hl. unfold zlen in *. rewrite <- app_assoc.
    f_equal. f_equal. simpl.
    replace (Z.to_nat (o + k) - (Z.to_nat o `min` length dst) - _)%nat with O by lia.
    destruct (lookup_lt_is_Some_2 dst (Z.to_nat (o + k))) as [x Hx]; [lia|].
    rewrite (drop_S _ _ _ Hx). simpl. do 2 f_equal. lia.
Qed.

(** ** Results *)

(** The transfer delivered [N] elements, all of their bytes stored, element
    [e] being [spec e]. *)
Definition delivers (N size : Z) (spec : Z -> list Z) (r : TransResult) : Prop :=
  res_length r = N * size /\
  exists bs : list Z, res_data r = Some (Some <$> bs) /\ zlen bs = N * size /\
    forall e, 0 <= e < N -> elem bs size e = spec e.

(** ** Agreement with a specification *)

Section agree.
Context `{SecureCLaws}.
(** [N] elements of [size] bytes; [spec e] is what element [e] must be. *)
Context (N size : Z) (spec : Z -> list Z).
Hypothesis Hsize : 0 < size.

Record agree (W : Z -> Prop) (buf : list cell) : Prop := {
  agree_len : zlen buf = N * size;
  agree_elem : forall e, W e -> 0 <= e < N /\ elem buf size e = Some <$> spec e;
}.

Lemma agree_start buf : zlen buf = N * size -> agree (fun _ => False) buf.
Proof. by split. Qed.

Lemma agree_weaken (W W' : Z -> Prop) buf :
  (forall e, W' e -> W e) -> agree W buf -> agree W' buf.
Proof. intros HW [? ?]; split; auto. Qed.

(** Writing the right bytes at element [d] keeps agreement everywhere else
    and adds [d]. *)
Lemma agree_write W buf d bs :
  agree W buf -> 0 <= d < N -> zlen bs = size -> bs = Some <$> spec d ->
  agree (fun e => W e \/ e = d) (blit buf (d * size) bs).
Proof.
  intros [Hl He] Hd Hbs Hsp. split.
  - rewrite zlen_blit; nia.
  - intros e HW. destruct (decide (e = d)) as [->|Hne].
    + split; [done|]. rewrite <- Hsp. unfold elem.
      pose proof (slice_blit_eq buf (d * size) bs) as Heq. rewrite Hbs in Heq. apply Heq; nia.
    + destruct HW as [HW|]; [|done]. destruct (He _ HW) as [? <-]. split; [done|].
      unfold elem. apply slice_blit_ne; nia.
Qed.

(** Full agreement makes a result. *)
Lemma agree_delivers W buf :
  agree W buf -> (forall e, 0 <= e < N -> W e) ->
  delivers N size spec {| res_data := Some buf; res_length := N * size |}.
Proof.
  intros [Hl He] Hall. split; [done|]. exists (default 0 <$> buf).
  assert (Hel : forall e, 0 <= e < N -> elem (default 0 <$> buf) size e = spec e).
  { intros e Hr. rewrite elem_fmap. destruct (He e (Hall e Hr)) as [_ ->].
    rewrite <- list_fmap_compose. apply list_fmap_id. }
  assert (Hlen : zlen (default 0 <$> buf) = N * size) by (by rewrite zlen_fmap).
  split; [|split; done]. simpl. f_equal. eapply elem_ext; [exact Hsize|done|..].
  - by rewrite zlen_fmap.
  - intros e Hr. rewrite elem_fmap, Hel by done. by apply He, Hall.
Qed.

(** The size guard leaves room for an element. *)
Lemma wp_guard d {B} (k : Z -> outcome B) P :
  0 <= d < N -> size <= max_type_size ->
  (forall p, size <= p <= SECUREC_MEM_MAX_LEN -> wp (k p) P) ->
  wp (guard_size (N * size) (d * size) ≫= k) P.
Proof.
  intros Hd Hm Hk. unfold guard_size, protected_size, max_type_size in *. cbv zeta.
  rewrite mem_max_len in *.
  destruct (Z.ltb_spec (N * size - d * size) 2147483647);
    (rewrite (proj2 (Z.ltb_ge _ _)) by nia); apply Hk; nia.
Qed.

Lemma protected_size_ok d :
  0 <= d < N -> size <= max_type_size ->
  size <= protected_size (N * size) (d * size) <= SECUREC_MEM_MAX_LEN.
Proof.
  intros Hd Hm. unfold protected_size, max_type_size in *. rewrite mem_max_len in *.
  destruct (Z.ltb_spec (N * size - d * size) 2147483647); nia.
Qed.

(** One checked element copy. *)
Lemma wp_memcpy_elem W buf ptr p src s d :
  agree W buf -> 0 <= d < N -> size <= p <= SECUREC_MEM_MAX_LEN ->
  ptr = Some (d * size) -> 0 <= s -> (s + 1) * size <= zlen src -> spec d = elem src size s ->
  wp (memcpy_chk buf ptr p (Some src) (s * size) size) (agree (fun e => W e \/ e = d)).
Proof.
  intros Ha Hd Hp -> Hs Hsrc Hspec. unfold memcpy_chk.
  pose proof (agree_len _ _ Ha). rewrite !size_t_small by (rewrite mem_max_len in *; nia). rewrite memcpy_s_ok by nia.
  rewrite Z.eqb_refl. simpl. apply agree_write; auto.
  - rewrite zlen_fmap. apply zlen_slice; nia.
  - by rewrite Hspec.
Qed.

(** One checked zero fill. *)
Lemma wp_memset_elem W buf ptr p d :
  agree W buf -> 0 <= d < N -> size <= p <= SECUREC_MEM_MAX_LEN ->
  ptr = Some (d * size) -> spec d = zero_elem size ->
  wp (memset_chk buf ptr p size) (agree (fun e => W e \/ e = d)).
Proof.
  intros Ha Hd Hp -> Hspec. unfold memset_chk.
  pose proof (agree_len _ _ Ha). rewrite !size_t_small by (rewrite mem_max_len in *; nia). rewrite memset_s_ok by nia.
  rewrite Z.eqb_refl. simpl. apply agree_write; auto.
  - apply zlen_replicate. lia.
  - rewrite Hspec. unfold zero_elem. by rewrite fmap_replicate.
Qed.

(** One element copied byte by byte. *)
Lemma wp_copy_elem W buf src s d :
  agree W buf -> 0 <= d < N -> 0 <= s -> (s + 1) * size <= zlen src -> spec d = elem src size s ->
  wp (copy_bytes buf (d * size) (Some src) (s * size) size) (agree (fun e => W e \/ e = d)).
Proof.
  intros Ha Hd Hs Hsrc Hspec. pose proof (agree_len _ _ Ha).
  rewrite copy_bytes_ok by nia. simpl. apply agree_write; auto.
  - rewrite zlen_fmap. apply zlen_slice; nia.
  - by rewrite Hspec.
Qed.

Lemma PtrAdd_elem d : 0 <= d < N -> PtrAdd (N * size) (d * size) = Some (d * size).
Proof. intros. apply PtrAdd_ok. nia. Qed.

(** A loop adds the positions its iterations add. *)
Lemma wp_for_agree (V : Z -> Z -> Prop) W n (body : Z -> list cell -> outcome (list cell)) buf :
  agree W buf ->
  (forall i W buf, 0 <= i < n -> agree W buf ->
     wp (body i buf) (agree (fun e => W e \/ V i e))) ->
  wp (for_range 0 n body buf) (agree (fun e => W e \/ exists i, 0 <= i < n /\ V i e)).
Proof.
  intros Ha Hb.
  eapply wp_mono; [apply (wp_for_max
    (fun k => agree (fun e => W e \/ exists i, 0 <= i < k /\ i < n /\ V i e)))|].
  - eapply agree_weaken; [|exact Ha]. intros e [?|(i & ? & ?)]; [done|lia].
  - intros i s Hi Hs. eapply wp_mono; [apply (Hb i _ s Hi Hs)|].
    intros s'. apply agree_weaken. intros e [?|(j & Hj & Hn & HV)]; [tauto|].
    destruct (decide (j = i)) as [->|]; [by right|]. left. right. exists j. split; [lia|done].
  - intros s'. apply agree_weaken. intros e [?|(i & Hi & HV)]; [tauto|].
    right. exists i. split; [lia|]. split; [lia|done].
Qed.

(** An uninitialised buffer agrees on nothing yet. *)
Lemma wp_new_bytes {B} (k : list cell -> outcome B) P :
  0 <= N -> can_alloc (N * size) = true ->
  (forall buf, agree (fun _ => False) buf -> wp (k buf) P) ->
  wp (new_bytes (N * size) ≫= k) P.
Proof.
  intros Hn Hc Hk. unfold new_bytes. rewrite Hc. apply Hk, agree_start.
  apply zlen_replicate. nia.
Qed.

(** A run of [m] elements copied at once. *)
Lemma wp_guard_run d m {B} (k : Z -> outcome B) P :
  0 <= d -> 0 < m -> d + m <= N -> size * m <= SECUREC_MEM_MAX_LEN ->
  (forall p, size * m <= p <= SECUREC_MEM_MAX_LEN -> wp (k p) P) ->
  wp (guard_size (N * size) (d * size) ≫= k) P.
Proof.
  intros Hd Hm Hn Hmax Hk. unfold guard_size, protected_size. cbv zeta. rewrite mem_max_len in *.
  destruct (Z.ltb_spec (N * size - d * size) 2147483647);
    (rewrite (proj2 (Z.ltb_ge _ _)) by nia); apply Hk; nia.
Qed.

Lemma wp_memcpy_run W buf ptr p src s d m :
  agree W buf -> 0 <= d -> 0 < m -> d + m <= N -> size * m <= p <= SECUREC_MEM_MAX_LEN ->
  ptr = Some (d * size) -> 0 <= s -> (s + m) * size <= zlen src ->
  (forall j, 0 <= j < m -> spec (d + j) = elem src size (s + j)) ->
  wp (memcpy_chk buf ptr p (Some src) (s * size) (size * m))
     (agree (fun e => W e \/ d <= e < d + m)).
Proof.
  intros [Hl He] Hd Hm Hdm Hp -> Hs Hsrc Hspec. unfold memcpy_chk.
  rewrite !size_t_small by (rewrite mem_max_len in *; nia). rewrite memcpy_s_ok by nia. rewrite Z.eqb_refl. simpl.
  assert (Hbs : zlen (Some <$> slice src (s * size) (size * m)) = size * m)
    by (rewrite zlen_fmap; apply zlen_slice; nia).
  split; [rewrite zlen_blit; [done|nia|rewrite Hbs; nia]|].
  intros e HW. destruct (decide (d <= e < d + m)) as [Hin|Hout].
  - split; [lia|]. unfold elem.
    replace (e * size) with (d * size + (e - d) * size) by ring.
    rewrite slice_sub_blit by (rewrite ?Hbs; nia). rewrite slice_fmap. f_equal.
    rewrite slice_slice by nia. replace e with (d + (e - d)) at 2 by ring.
    rewrite Hspec by lia. unfold elem. f_equal. ring.
  - destruct HW as [HW|]; [|lia]. destruct (He _ HW) as [? <-]. split; [done|].
    unfold elem. apply slice_blit_ne; rewrite ?Hbs; nia.
Qed.

(** Copy a row of [w] elements held in blocks of [w0], the blocks [SD] apart in
    the destination and [SS] apart in the source: whole blocks first, then the
    elements of the last, partial block. *)
Lemma wp_row (ptr : Z -> option Z) D SD s SS (db sb dt st : Z -> Z) W buf src w w0 :
  agree W buf -> 0 < w0 -> 0 <= w -> size <= max_type_size ->
  size * w0 <= SECUREC_MEM_MAX_LEN ->
  (forall x, 0 <= x < N -> ptr (x * size) = Some (x * size)) ->
  (forall a, db a = D + a * SD) -> (forall a, sb a = s + a * SS) ->
  (forall b, dt b = D + w / w0 * SD + b) -> (forall b, st b = s + w / w0 * SS + b) ->
  (forall a b, 0 <= a -> 0 <= b < w0 -> a * w0 + b < w ->
     0 <= D + a * SD + b < N /\ 0 <= s + a * SS + b /\
     (s + a * SS + b + 1) * size <= zlen src /\
     spec (D + a * SD + b) = elem src size (s + a * SS + b)) ->
  wp (dst ← for_range 0 (w / w0) (fun a dst =>
        p ← guard_size (N * size) (db a * size);
        memcpy_chk dst (ptr (db a * size)) p (Some src) (sb a * size) (size * w0)) buf;
      for_range 0 (w - w / w0 * w0) (fun b dst =>
        p ← guard_size (N * size) (dt b * size);
        memcpy_chk dst (ptr (dt b * size)) p (Some src) (st b * size) size) dst)
     (agree (fun e => W e \/ exists a b, (0 <= a /\ 0 <= b < w0 /\ a * w0 + b < w) /\
                                         e = D + a * SD + b)).
Proof.
  intros Ha Hw0 Hw Hsz Hmax Hptr Edb Esb Edt Est Hrow.
  assert (Hq : 0 <= w / w0) by (apply Z.div_pos; lia).
  assert (Hr := Z.div_mod w w0 ltac:(lia)). assert (Hm := Z.mod_pos_bound w w0 Hw0).
  apply wp_bind. eapply wp_mono.
  - apply (wp_for_agree (fun a e => D + a * SD <= e < D + a * SD + w0) W); [exact Ha|].
    intros a W' b' Haq Ha'. rewrite Edb, Esb.
    assert (0 <= D + a * SD < N /\ 0 <= s + a * SS) as [? ?].
    { destruct (Hrow a 0) as (? & ? & _); [lia|lia|nia|]. lia. }
    assert (D + a * SD + w0 <= N /\ (s + a * SS + w0) * size <= zlen src) as [? ?].
    { destruct (Hrow a (w0 - 1)) as (? & ? & ? & _); [lia|lia|nia|].
      replace (s + a * SS + w0) with (s + a * SS + (w0 - 1) + 1) by ring. lia. }
    apply wp_guard_run with (m := w0); [lia|lia|lia|done|]. intros p Hp.
    apply wp_memcpy_run; [done|lia|lia|lia|done|apply Hptr; lia|lia|done|].
    intros j Hj. destruct (Hrow a j) as (_ & _ & _ & ->); [lia|lia|nia|done].
  - intros buf2 Ha2. eapply wp_mono.
    + apply (wp_for_agree (fun b e => e = D + w / w0 * SD + b)); [exact Ha2|].
      intros b W' b' Hb Ha'. rewrite Edt, Est. destruct (Hrow (w / w0) b) as (? & ? & ? & ?); [lia|lia|nia|].
      eapply wp_guard; [lia|lia|]. intros p Hp.
      eapply wp_memcpy_elem; eauto.
    + intros buf3. apply agree_weaken. intros e [HW|(a & b & (? & ? & ?) & ->)]; [tauto|].
      destruct (decide (a < w / w0)) as [Hlt|Hge].
      * left. right. exists a. split; [lia|]. lia.
      * assert (a = w / w0) as -> by nia. right. exists b. split; [nia|]. done.
Qed.

(** A buffer of zeroes agrees wherever the specification is zero. *)
Lemma agree_zeroes :
  0 <= N -> agree (fun e => 0 <= e < N /\ spec e = zero_elem size)
                  (replicate (Z.to_nat (N * size)) (Some 0)).
Proof.
  intros Hn. split; [apply zlen_replicate; nia|]. intros e [He ->]. split; [done|].
  unfold elem, slice, zero_elem. rewrite drop_replicate, take_replicate, fmap_replicate.
  f_equal. nia.
Qed.
End agree.

(** ** Row-major indices and functions of coordinates *)

(** The row-major index of [[i; j; k; l]] in a box whose inner extents are
    [b], [c], [d]; the outer extent does not matter. *)
Definition idx4 (b c d i j k l : Z) : Z := pos d (pos c (pos b i j) k) l.
Definition idx5 (b c d e i j k l m : Z) : Z := pos e (idx4 b c d i j k l) m.
Definition idx6 (b c d e f i j k l m n : Z) : Z := pos f (idx5 b c d e i j k l m) n.

(** A function of coordinates as a function of the index. *)
Definition at4 {T} (b c d : Z) (g : Z -> Z -> Z -> Z -> T) (x : Z) : T :=
  g (x / d / c / b) (x / d / c mod b) (x / d mod c) (x mod d).
Definition at5 {T} (b c d e : Z) (g : Z -> Z -> Z -> Z -> Z -> T) (x : Z) : T :=
  at4 b c d (fun i j k l => g i j k l (x mod e)) (x / e).
Definition at6 {T} (b c d e f : Z) (g : Z -> Z -> Z -> Z -> Z -> Z -> T) (x : Z) : T :=
  at5 b c d e (fun i j k l m => g i j k l m (x mod f)) (x / f).

Lemma at4_idx {T} b c d (g : Z -> Z -> Z -> Z -> T) i j k l :
  0 <= j < b -> 0 <= k < c -> 0 <= l < d -> at4 b c d g (idx4 b c d i j k l) = g i j k l.
Proof. intros. unfold at4, idx4. by autorewrite with radix. Qed.

Lemma at5_idx {T} b c d e (g : Z -> Z -> Z -> Z -> Z -> T) i j k l m :
  0 <= j < b -> 0 <= k < c -> 0 <= l < d -> 0 <= m < e ->
  at5 b c d e g (idx5 b c d e i j k l m) = g i j k l m.
Proof. intros. unfold at5, idx5. autorewrite with radix. by rewrite at4_idx. Qed.

Lemma at6_idx {T} b c d e f (g : Z -> Z -> Z -> Z -> Z -> Z -> T) i j k l m n :
  0 <= j < b -> 0 <= k < c -> 0 <= l < d -> 0 <= m < e -> 0 <= n < f ->
  at6 b c d e f g (idx6 b c d e f i j k l m n) = g i j k l m n.
Proof. intros. unfold at6, idx6. autorewrite with radix. by rewrite at5_idx. Qed.

Lemma idx4_bound a b c d i j k l :
  0 <= i < a -> 0 <= j < b -> 0 <= k < c -> 0 <= l < d ->
  0 <= idx4 b c d i j k l < a * b * c * d.
Proof. intros. unfold idx4. by repeat apply pos_bound. Qed.

Lemma idx5_bound a b c d e i j k l m :
  0 <= i < a -> 0 <= j < b -> 0 <= k < c -> 0 <= l < d -> 0 <= m < e ->
  0 <= idx5 b c d e i j k l m < a * b * c * d * e.
Proof. intros. unfold idx5. apply pos_bound; [|done]. by apply idx4_bound. Qed.

Lemma idx6_bound a b c d e f i j k l m n :
  0 <= i < a -> 0 <= j < b -> 0 <= k < c -> 0 <= l < d -> 0 <= m < e -> 0 <= n < f ->
  0 <= idx6 b c d e f i j k l m n < a * b * c * d * e * f.
Proof. intros. unfold idx6. apply pos_bound; [|done]. by apply idx5_bound. Qed.

(** Every index is the index of some coordinates. *)
Lemma idx4_surj a b c d x :
  0 < b -> 0 < c -> 0 < d -> 0 <= x < a * b * c * d ->
  exists i j k l, (0 <= i < a /\ 0 <= j < b /\ 0 <= k < c /\ 0 <= l < d) /\
    x = idx4 b c d i j k l.
Proof.
  intros. exists (x / d / c / b), (x / d / c mod b), (x / d mod c), (x mod d).
  assert (0 <= x / d < a * b * c) by (apply div_range; lia).
  assert (0 <= x / d / c < a * b) by (apply div_range; lia).
  split; [refine (conj _ (conj _ (conj _ _)));
    first [apply Z.mod_pos_bound; lia | apply div_range; lia]|].
  unfold idx4. by rewrite !pos_of_divmod by lia.
Qed.

Lemma idx5_surj a b c d e x :
  0 < b -> 0 < c -> 0 < d -> 0 < e -> 0 <= x < a * b * c * d * e ->
  exists i j k l m, (0 <= i < a /\ 0 <= j < b /\ 0 <= k < c /\ 0 <= l < d /\ 0 <= m < e) /\
    x = idx5 b c d e i j k l m.
Proof.
  intros. destruct (idx4_surj a b c d (x / e)) as (i & j & k & l & Hb & E);
    [done..|by apply div_range|]. exists i, j, k, l, (x mod e).
  pose proof (Z.mod_pos_bound x e). split; [tauto|].
  unfold idx5. rewrite <- E. by rewrite pos_of_divmod.
Qed.

(** ** Tactics *)

(** Take a successful chain of guards and binds apart. *)
Ltac inv_outcome :=
  repeat match goal with
  | H : reject_if _ _ _ = Ok _ |- _ => apply reject_Ok in H as [? H]
  | H : _ ≫= _ = Ok _ |- _ => apply bind_Ok in H as (? & ? & H)
  | H : Ok _ = Ok _ |- _ => injection H; clear H; intros; subst
  | H : Err _ = Ok _ |- _ => discriminate H
  | H : Fault = Ok _ |- _ => discriminate H
  | H : negb _ = false |- _ => apply negb_false_iff in H
  | H : _ || _ = false |- _ => apply orb_false_iff in H as [? H]
  | H : (_ =? _) = true |- _ => apply Z.eqb_eq in H
  | H : (_ <=? _) = false |- _ => apply Z.leb_gt in H
  | H : (_ <? _) = false |- _ => apply Z.ltb_ge in H
  | H : bool_decide _ = true |- _ => apply bool_decide_eq_true in H
  end.

(** Read the dimensions of a concrete shape. *)
Ltac wp_dims := repeat (eapply wp_bind_eq; [reflexivity|]; cbv beta).

(** Enter a loop whose body writes elements. *)
Ltac wp_loop Hs i Hi W buf Ha :=
  eapply wp_for_agree; [exact Hs || eassumption|]; intros i W buf Hi Ha; cbv zeta beta.

(** The position just described by the enclosing loops' indices. *)
Ltac in_loops := right; repeat (eexists; split; [eassumption|]).

(** ** Results by coordinates *)

Lemma delivers_eq (m : outcome TransResult) N size spec :
  wp m (delivers N size spec) ->
  exists bs : list Z,
    m = Ok {| res_data := Some (Some <$> bs); res_length := N * size |} /\
    zlen bs = N * size /\ forall e, 0 <= e < N -> elem bs size e = spec e.
Proof.
  intros (r & -> & Hl & bs & Hd & Hz & He)%wp_Ok. exists bs.
  destruct r as [rd rl]; simpl in *. by subst.
Qed.

Lemma delivers_at4 m size a b c d g :
  wp m (delivers (a * b * c * d) size (at4 b c d g)) ->
  exists bs : list Z,
    m = Ok {| res_data := Some (Some <$> bs); res_length := a * b * c * d * size |} /\
    zlen bs = a * b * c * d * size /\
    forall i j k l, 0 <= i < a -> 0 <= j < b -> 0 <= k < c -> 0 <= l < d ->
      elem bs size (idx4 b c d i j k l) = g i j k l.
Proof.
  intros (bs & ? & ? & He)%delivers_eq. exists bs. split; [done|]. split; [done|].
  intros. rewrite He by (by apply idx4_bound). by apply at4_idx.
Qed.

Lemma delivers_at5 m size a b c d e g :
  wp m (delivers (a * b * c * d * e) size (at5 b c d e g)) ->
  exists bs : list Z,
    m = Ok {| res_data := Some (Some <$> bs); res_length := a * b * c * d * e * size |} /\
    zlen bs = a * b * c * d * e * size /\
    forall i j k l p, 0 <= i < a -> 0 <= j < b -> 0 <= k < c -> 0 <= l < d -> 0 <= p < e ->
      elem bs size (idx5 b c d e i j k l p) = g i j k l p.
Proof.
  intros (bs & ? & ? & He)%delivers_eq. exists bs. split; [done|]. split; [done|].
  intros. rewrite He by (by apply idx5_bound). by apply at5_idx.
Qed.

Lemma delivers_at6 m size a b c d e f g :
  wp m (delivers (a * b * c * d * e * f) size (at6 b c d e f g)) ->
  exists bs : list Z,
    m = Ok {| res_data := Some (Some <$> bs); res_length := a * b * c * d * e * f * size |} /\
    zlen bs = a * b * c * d * e * f * size /\
    forall i j k l p q, 0 <= i < a -> 0 <= j < b -> 0 <= k < c -> 0 <= l < d -> 0 <= p < e ->
      0 <= q < f -> elem bs size (idx6 b c d e f i j k l p q) = g i j k l p q.
Proof.
  intros (bs & ? & ? & He)%delivers_eq. exists bs. split; [done|]. split; [done|].
  intros. rewrite He by (by apply idx6_bound). by apply at6_idx.
Qed.

Lemma idx6_surj a b c d e f x :
  0 < b -> 0 < c -> 0 < d -> 0 < e -> 0 < f -> 0 <= x < a * b * c * d * e * f ->
  exists i j k l m n,
    (0 <= i < a /\ 0 <= j < b /\ 0 <= k < c /\ 0 <= l < d /\ 0 <= m < e /\ 0 <= n < f) /\
    x = idx6 b c d e f i j k l m n.
Proof.
  intros. destruct (idx5_surj a b c d e (x / f)) as (i & j & k & l & m & Hb & E);
    [done..|by apply div_range|]. exists i, j, k, l, m, (x mod f).
  pose proof (Z.mod_pos_bound x f). split; [tauto|].
  unfold idx6. rewrite <- E. by rewrite pos_of_divmod.
Qed.

(** ** Concrete calls *)

Module Sample.
Import Concrete.

Definition empty_result : TransResult := {| res_data := None; res_length := 0 |}.

(** The arguments the dispatcher builds from two full formats. *)
Definition mk_args (sf df : Z) (ss ds : list Z) (dt : Z) (d : list Z) : TransArgs :=
  {| data := Some d; src_format := sf; dst_format := df;
     src_primary_format := GetPrimaryFormat sf; dst_primary_format := GetPrimaryFormat df;
     src_sub_format := GetSubFormat sf; dst_sub_format := GetSubFormat df;
     src_c0_format := GetC0Value sf; dst_c0_format := GetC0Value df;
     src_shape := ss; dst_shape := ds; src_data_type := dt |}.
End Sample.
