(* ===== verification/Formats5D.v ===== *)
(** * Formats5D: NCHW and NHWC to and from NC1HWC0

    [format_transfer_nchw_nc1hwc0.cc], [format_transfer_nhwc_nc1hwc0.cc],
    [format_transfer_nc1hwc0_nchw.cc], [format_transfer_nc1hwc0_nhwc.cc]. *)

From S2P Require Import Prelude Env FormatsUtils Transfer.

(** ** format_transfer_nchw_nc1hwc0.cc *)

Module NchwNc1hwc0.
Section model.
Context `{GeTypes} `{SecureC}.

Definition TransShapeNchwToNc1hwc0 (src_shape : list Z) (data_type cube_size : Z)
    : outcome (list Z) :=
  let c0 := if cube_size <=? 0 then GetCubeSizeByDataType data_type else cube_size in
  reject_if (c0 <=? 0) ACL_ERROR_GE_DATATYPE_INVALID $
  reject_if (negb (CheckShapeValid src_shape kNchwDimsNum)) ACL_ERROR_GE_SHAPE_INVALID $
  n ← at_ src_shape kNchwN;
  c ← at_ src_shape kNchwC;
  h ← at_ src_shape kNchwH;
  w ← at_ src_shape kNchwW;
  let dst_shape := [n; Ceil c c0; h; w; c0] in
  reject_if (negb (CheckShapeValid dst_shape kNc1hwc0DimsNum)) ACL_ERROR_GE_SHAPE_INVALID $
  Ok dst_shape.

Definition CheckArgsForNchwToNc1hwc0 (args : TransArgs) : outcome unit :=
  reject_if (negb (src_primary_format args =? FORMAT_NCHW)
             || negb (dst_primary_format args =? FORMAT_NC1HWC0)) ACL_ERROR_GE_FORMAT_INVALID $
  let c0 := GetC0Value (dst_format args) in
  expect_5d_shape ← TransShapeNchwToNc1hwc0 (src_shape args) (src_data_type args) c0;
  reject_if (negb (bool_decide (expect_5d_shape = dst_shape args))) ACL_ERROR_GE_SHAPE_INVALID $
  Ok tt.

Definition GetDstDataAfterTransOfNchw2Nc1hwc0 (args : TransArgs) (size total_size : Z)
    : outcome TransResult :=
  dst ← new_bytes total_size;
  n ← at_ (src_shape args) kNchwN;
  c ← at_ (src_shape args) kNchwC;
  h ← at_ (src_shape args) kNchwH;
  w ← at_ (src_shape args) kNchwW;
  let c0 := GetC0Value (dst_format args) in
  reject_if (c0 <=? 0) ACL_ERROR_GE_DATATYPE_INVALID $
  let c1 := Z.quot (c - 1) c0 + 1 in
  let hw := h * w in
  let hwc0 := hw * c0 in
  let c1hwc0 := c1 * hwc0 in
  dst ← for_range 0 n (fun n_idx =>
    let n_head_addr := n_idx * c1hwc0 in
    for_range 0 c1 (fun c1_idx =>
      let c1_head_addr := n_head_addr + c1_idx * hwc0 in
      for_range 0 h (fun h_idx =>
        let wc0 := w * c0 in
        let h_head_addr := c1_head_addr + h_idx * wc0 in
        for_range 0 w (fun w_idx =>
          let w_head_addr := h_head_addr + w_idx * c0 in
          for_range 0 c0 (fun c0_idx dst =>
            let dst_index := c0_idx + w_head_addr in
            let dst_offset := dst_index * size in
            p ← guard_size total_size dst_offset;
            let cIdx := c0_idx + c1_idx * c0 in
            if cIdx <? c then
              let chw := c * hw in
              let srcIdx := n_idx * chw + cIdx * hw + h_idx * w + w_idx in
              let src_offset := srcIdx * size in
              memcpy_chk dst (PtrAdd total_size dst_offset) p (data args) src_offset size
            else
              memset_chk dst (PtrAdd total_size dst_offset) p size))))) dst;
  Ok {| res_data := Some dst; res_length := total_size |}.

Definition TransFormat (args : TransArgs) (result : TransResult) : outcome TransResult :=
  _ ← CheckArgsForNchwToNc1hwc0 args;
  let size := GetSizeByDataType (src_data_type args) in
  let total_size := GetItemNumByShape (dst_shape args) * size in
  if total_size <=? 0 then
    let src_size := GetItemNumByShape (src_shape args) in
    if (total_size =? 0) && (src_size =? 0)
    then Ok {| res_data := res_data result; res_length := total_size |}
    else Err ACL_ERROR_GE_SHAPE_INVALID
  else GetDstDataAfterTransOfNchw2Nc1hwc0 args size total_size.

Definition TransShape (src_format : Z) (src_shape : list Z) (data_type dst_format : Z)
    : outcome (list Z) :=
  let src_primary_format := GetPrimaryFormat src_format in
  let c0 := GetC0Value dst_format in
  if src_primary_format =? FORMAT_NCHW
  then TransShapeNchwToNc1hwc0 src_shape data_type c0
  else Err ACL_ERROR_GE_FORMAT_INVALID.

Definition transfer : FormatTransfer :=
  {| FormatsUtils.TransFormat := TransFormat; FormatsUtils.TransShape := TransShape |}.
End model.
End NchwNc1hwc0.

(** ** format_transfer_nhwc_nc1hwc0.cc *)

Module NhwcNc1hwc0.
Section model.
Context `{GeTypes} `{SecureC}.

Definition CheckDataTypeSupportedNhwcToNc1hwc0 (data_type : Z) : bool :=
  0 <? GetSizeByDataType data_type.

Definition TransShapeNhwcToNc1hwc0 (src_shape : list Z) (data_type cube_size : Z)
    : outcome (list Z) :=
  let c0 := if cube_size <=? 0 then GetCubeSizeByDataType data_type else cube_size in
  reject_if (c0 <=? 0) ACL_ERROR_GE_DATATYPE_INVALID $
  n ← at_ src_shape kNhwcN;
  c ← at_ src_shape kNhwcC;
  h ← at_ src_shape kNhwcH;
  w ← at_ src_shape kNhwcW;
  let dst_shape := [n; Ceil c c0; h; w; c0] in
  reject_if (negb (CheckShapeValid dst_shape kNc1hwc0DimsNum)) ACL_ERROR_GE_SHAPE_INVALID $
  Ok dst_shape.

Definition CheckArgsForNhwcToNc1hwc0 (args : TransArgs) : outcome unit :=
  reject_if (negb (src_primary_format args =? FORMAT_NHWC)
             || negb (dst_primary_format args =? FORMAT_NC1HWC0)) ACL_ERROR_GE_FORMAT_INVALID $
  reject_if (negb (CheckDataTypeSupportedNhwcToNc1hwc0 (src_data_type args)))
            ACL_ERROR_GE_DATATYPE_INVALID $
  reject_if (negb (CheckShapeValid (src_shape args) kNhwcDimsNum)) ACL_ERROR_GE_SHAPE_INVALID $
  reject_if (negb (CheckShapeValid (dst_shape args) kNc1hwc0DimsNum)) ACL_ERROR_GE_SHAPE_INVALID $
  let c0 := GetC0Value (dst_format args) in
  expect_dst_shape ← TransShapeNhwcToNc1hwc0 (src_shape args) (src_data_type args) c0;
  reject_if (negb (bool_decide (dst_shape args = expect_dst_shape))) ACL_ERROR_GE_SHAPE_INVALID $
  Ok tt.

Definition GetDstDataAfterTransNhwcToNc1hwc0 (args : TransArgs) (size total_size : Z)
    : outcome TransResult :=
  dst ← new_bytes total_size;
  n ← at_ (src_shape args) kNhwcN;
  h ← at_ (src_shape args) kNhwcH;
  w ← at_ (src_shape args) kNhwcW;
  c ← at_ (src_shape args) kNhwcC;
  c1 ← at_ (dst_shape args) kNc1hwc0C1;
  c0 ← at_ (dst_shape args) kNc1hwc0C0;
  let wc := w * c in
  let hwc := h * wc in
  let wc0 := w * c0 in
  let hwc0 := h * wc0 in
  let c1hwc0 := c1 * hwc0 in
  dst ← for_range 0 n (fun n_idx =>
    let n_head_addr := n_idx * c1hwc0 in
    for_range 0 c1 (fun c1_idx =>
      let c1_head_addr := n_head_addr + c1_idx * hwc0 in
      for_range 0 h (fun h_idx =>
        let h_head_addr := c1_head_addr + h_idx * wc0 in
        for_range 0 w (fun w_idx =>
          let w_head_addr := h_head_addr + w_idx * c0 in
          for_range 0 c0 (fun c0_idx dst =>
            let dst_idx := c0_idx + w_head_addr in
            let dst_offset := dst_idx * size in
            p ← guard_size total_size dst_offset;
            let c_idx := c0_idx + c1_idx * c0 in
            let src_idx := n_idx * hwc + h_idx * wc + w_idx * c + c_idx in
            if c_idx <? c then
              let src_offset := src_idx * size in
              memcpy_chk dst (PtrAdd total_size dst_offset) p (data args) src_offset size
            else
              memset_chk dst (PtrAdd total_size dst_offset) p size))))) dst;
  Ok {| res_data := Some dst; res_length := total_size |}.

Definition TransFormat (args : TransArgs) (result : TransResult) : outcome TransResult :=
  _ ← CheckArgsForNhwcToNc1hwc0 args;
  let size := GetSizeByDataType (src_data_type args) in
  let total_size := GetItemNumByShape (dst_shape args) * size in
  if total_size <=? 0 then
    let src_size := GetItemNumByShape (src_shape args) in
    if (total_size =? 0) && (src_size =? 0)
    then Ok {| res_data := res_data result; res_length := total_size |}
    else Err ACL_ERROR_GE_DATATYPE_INVALID
  else GetDstDataAfterTransNhwcToNc1hwc0 args size total_size.

Definition TransShape (src_format : Z) (src_shape : list Z) (data_type dst_format : Z)
    : outcome (list Z) :=
  let src_primary_format := GetPrimaryFormat src_format in
  let c0 := GetC0Value dst_format in
  if (src_primary_format =? FORMAT_NHWC) && CheckDataTypeSupportedNhwcToNc1hwc0 data_type then
    reject_if (negb (CheckShapeValid src_shape kNhwcDimsNum)) ACL_ERROR_GE_SHAPE_INVALID $
    TransShapeNhwcToNc1hwc0 src_shape data_type c0
  else if negb (src_primary_format =? FORMAT_NHWC) then Err ACL_ERROR_GE_FORMAT_INVALID
  else Err ACL_ERROR_GE_DATATYPE_INVALID.

Definition transfer : FormatTransfer :=
  {| FormatsUtils.TransFormat := TransFormat; FormatsUtils.TransShape := TransShape |}.
End model.
End NhwcNc1hwc0.

(** ** format_transfer_nc1hwc0_nchw.cc *)

Module Nc1hwc0Nchw.
Section model.
Context `{GeTypes} `{SecureC}.

Definition CheckDataTypeSupportedForNc1hwc0ToNchw (data_type : Z) : bool :=
  0 <? GetSizeByDataType data_type.

Definition CheckArgsForNc1hwc0ToNchw (args : TransArgs) : outcome unit :=
  reject_if (negb (src_primary_format args =? FORMAT_NC1HWC0)
             || negb (dst_primary_format args =? FORMAT_NCHW)) ACL_ERROR_GE_FORMAT_INVALID $
  reject_if (negb (CheckDataTypeSupportedForNc1hwc0ToNchw (src_data_type args)))
            ACL_ERROR_GE_DATATYPE_INVALID $
  reject_if (negb (CheckShapeValid (src_shape args) kNc1hwc0DimsNum)) ACL_ERROR_GE_SHAPE_INVALID $
  reject_if (negb (CheckShapeValid (dst_shape args) kNchwDimsNum)) ACL_ERROR_GE_SHAPE_INVALID $
  let c0 := GetC0Value (src_format args) in
  reject_if (c0 <=? 0) ACL_ERROR_GE_DATATYPE_INVALID $
  sh ← at_ (src_shape args) kNc1hwc0H;
  sw ← at_ (src_shape args) kNc1hwc0W;
  sn ← at_ (src_shape args) kNc1hwc0N;
  sc0 ← at_ (src_shape args) kNc1hwc0C0;
  sc1 ← at_ (src_shape args) kNc1hwc0C1;
  dh ← at_ (dst_shape args) kNchwH;
  dw ← at_ (dst_shape args) kNchwW;
  dn ← at_ (dst_shape args) kNchwN;
  dc ← at_ (dst_shape args) kNchwC;
  reject_if (negb (sh =? dh) || (negb (sw =? dw) || (negb (sn =? dn) || (negb (sc0 =? c0)
             || negb (sc1 =? Ceil dc c0))))) ACL_ERROR_GE_SHAPE_INVALID $
  Ok tt.

Definition GetDstDataAfterTransForNc1hwc0ToNchw (args : TransArgs) (size total_size : Z)
    : outcome TransResult :=
  dst ← new_bytes total_size;
  h ← at_ (src_shape args) kNc1hwc0H;
  w ← at_ (src_shape args) kNc1hwc0W;
  n ← at_ (src_shape args) kNc1hwc0N;
  c1 ← at_ (src_shape args) kNc1hwc0C1;
  c0 ← at_ (src_shape args) kNc1hwc0C0;
  c ← at_ (dst_shape args) kNchwC;
  let hw := h * w in
  let chw := c * hw in
  let wc0 := w * c0 in
  let hwc0 := h * wc0 in
  let c1hwc0 := c1 * hwc0 in
  dst ← for_range 0 n (fun n_idx =>
    let n_head_addr := n_idx * chw in
    for_range 0 c (fun c_idx =>
      let c_head_addr := n_head_addr + c_idx * hw in
      for_range 0 h (fun h_idx =>
        let h_head_addr := c_head_addr + h_idx * w in
        for_range 0 w (fun w_idx dst =>
          let dst_idx := h_head_addr + w_idx in
          c1_idx ← quot_ c_idx c0;
          c0_idx ← rem_ c_idx c0;
          let src_idx := n_idx * c1hwc0 + c1_idx * hwc0 + h_idx * wc0 + w_idx * c0 + c0_idx in
          let src_offset := src_idx * size in
          let dst_offset := dst_idx * size in
          p ← guard_size total_size dst_offset;
          memcpy_chk dst (PtrAdd total_size dst_offset) p (data args) src_offset size)))) dst;
  Ok {| res_data := Some dst; res_length := total_size |}.

Definition TransFormat (args : TransArgs) (result : TransResult) : outcome TransResult :=
  _ ← CheckArgsForNc1hwc0ToNchw args;
  let size := GetSizeByDataType (src_data_type args) in
  let total_size := GetItemNumByShape (dst_shape args) * size in
  if total_size <=? 0 then
    let src_size := GetItemNumByShape (src_shape args) in
    if (total_size =? 0) && (src_size =? 0)
    then Ok {| res_data := res_data result; res_length := total_size |}
    else Err ACL_ERROR_GE_PARAM_INVALID
  else GetDstDataAfterTransForNc1hwc0ToNchw args size total_size.

Definition TransShape (src_format : Z) (src_shape : list Z) (data_type dst_format : Z)
    : outcome (list Z) := Err ACL_ERROR_GE_FORMAT_INVALID.

Definition transfer : FormatTransfer :=
  {| FormatsUtils.TransFormat := TransFormat; FormatsUtils.TransShape := TransShape |}.
End model.
End Nc1hwc0Nchw.

(** ** format_transfer_nc1hwc0_nhwc.cc *)

Module Nc1hwc0Nhwc.
Section model.
Context `{GeTypes} `{SecureC}.

Definition CheckDataTypeForNc1hwc0ToNhwc (data_type : Z) : bool :=
  0 <? GetSizeByDataType data_type.

Definition CheckArgsForNc1hwc0ToNhwc (args : TransArgs) : outcome unit :=
  reject_if (negb (src_primary_format args =? FORMAT_NC1HWC0)
             || negb (dst_primary_format args =? FORMAT_NHWC)) ACL_ERROR_GE_FORMAT_INVALID $
  reject_if (negb (CheckDataTypeForNc1hwc0ToNhwc (src_data_type args)))
            ACL_ERROR_GE_DATATYPE_INVALID $
  reject_if (negb (CheckShapeValid (src_shape args) kNc1hwc0DimsNum)) ACL_ERROR_GE_SHAPE_INVALID $
  reject_if (negb (CheckShapeValid (dst_shape args) kNhwcDimsNum)) ACL_ERROR_GE_SHAPE_INVALID $
  let c0 := GetC0Value (src_format args) in
  reject_if (c0 <=? 0) ACL_ERROR_GE_DATATYPE_INVALID $
  sh ← at_ (src_shape args) kNc1hwc0H;
  sw ← at_ (src_shape args) kNc1hwc0W;
  sn ← at_ (src_shape args) kNc1hwc0N;
  sc0 ← at_ (src_shape args) kNc1hwc0C0;
  sc1 ← at_ (src_shape args) kNc1hwc0C1;
  dh ← at_ (dst_shape args) kNhwcH;
  dw ← at_ (dst_shape args) kNhwcW;
  dn ← at_ (dst_shape args) kNhwcN;
  dc ← at_ (dst_shape args) kNhwcC;
  reject_if (negb (sh =? dh) || (negb (sw =? dw) || (negb (sn =? dn) || (negb (sc0 =? c0)
             || negb (sc1 =? Ceil dc c0))))) ACL_ERROR_GE_SHAPE_INVALID $
  Ok tt.

Definition GetDstDataForNc1hwc0ToNhwc (args : TransArgs) (size total_size : Z)
    : outcome TransResult :=
  dst ← new_bytes total_size;
  h ← at_ (src_shape args) kNc1hwc0H;
  w ← at_ (src_shape args) kNc1hwc0W;
  n ← at_ (src_shape args) kNc1hwc0N;
  c1 ← at_ (src_shape args) kNc1hwc0C1;
  c0 ← at_ (src_shape args) kNc1hwc0C0;
  c ← at_ (dst_shape args) kNhwcC;
  let wc := w * c in
  let hwc := h * wc in
  let wc0 := w * c0 in
  let hwc0 := h * wc0 in
  let c1hwc0 := c1 * hwc0 in
  dst ← for_range 0 n (fun n_idx =>
    let n_head_addr := n_idx * hwc in
    for_range 0 h (fun h_idx =>
      let h_head_addr := n_head_addr + h_idx * wc in
      for_range 0 w (fun w_idx =>
        let w_head_addr := h_head_addr + w_idx * c in
        for_range 0 c (fun c_idx dst =>
          let dst_idx := w_head_addr + c_idx in
          c1_idx ← quot_ c_idx c0;
          c0_idx ← rem_ c_idx c0;
          let src_idx := n_idx * c1hwc0 + c1_idx * hwc0 + h_idx * wc0 + w_idx * c0 + c0_idx in
          let src_offset := src_idx * size in
          let dst_offset := dst_idx * size in
          p ← guard_size total_size dst_offset;
          memcpy_chk dst (PtrAdd total_size dst_offset) p (data args) src_offset size)))) dst;
  Ok {| res_data := Some dst; res_length := total_size |}.

Definition TransFormat (args : TransArgs) (result : TransResult) : outcome TransResult :=
  _ ← CheckArgsForNc1hwc0ToNhwc args;
  let size := GetSizeByDataType (src_data_type args) in
  let total_size := GetItemNumByShape (dst_shape args) * size in
  if total_size <=? 0 then
    let src_size := GetItemNumByShape (src_shape args) in
    if (total_size =? 0) && (src_size =? 0)
    then Ok {| res_data := res_data result; res_length := total_size |}
    else Err ACL_ERROR_GE_SHAPE_INVALID
  else GetDstDataForNc1hwc0ToNhwc args size total_size.

Definition TransShape (src_format : Z) (src_shape : list Z) (data_type dst_format : Z)
    : outcome (list Z) := Err ACL_ERROR_GE_FORMAT_INVALID.

Definition transfer : FormatTransfer :=
  {| FormatsUtils.TransFormat := TransFormat; FormatsUtils.TransShape := TransShape |}.
End model.
End Nc1hwc0Nhwc.

(** ** The layouts *)

Section layouts.
(** NC1HWC0 from a source of [c] channels: channel [c1i * c0 + c0i] of the
    source, zero past the last channel. *)
Definition spec_to_5d (c h w c0 size : Z) (src : Z -> Z -> Z -> Z -> Z) (d : list Z)
    : Z -> Z -> Z -> Z -> Z -> list Z := fun ni c1i hi wi c0i =>
  if c1i * c0 + c0i <? c then elem d size (src ni (c1i * c0 + c0i) hi wi) else zero_elem size.

(** The NC1HWC0 position of channel [ci]. *)
Definition from_5d (c h w c0 ni ci hi wi : Z) : Z :=
  idx5 (Ceil c c0) h w c0 ni (ci / c0) hi wi (ci mod c0).

Lemma from_5d_bound n c h w c0 ni ci hi wi :
  0 < c0 -> 0 <= ni < n -> 0 <= ci < c -> 0 <= hi < h -> 0 <= wi < w ->
  0 <= from_5d c h w c0 ni ci hi wi < n * Ceil c c0 * h * w * c0.
Proof.
  intros. apply idx5_bound; auto; [by apply Ceil_div_lt|by apply Z.mod_pos_bound].
Qed.
End layouts.

Section to_5d.
Context `{GeTypesLaws} `{SecureCLaws}.
Import NchwNc1hwc0.

Lemma nchw_nc1hwc0_check_inv args :
  CheckArgsForNchwToNc1hwc0 args = Ok tt ->
  exists n c h w c0,
    src_shape args = [n; c; h; w] /\ dst_shape args = [n; Ceil c c0; h; w; c0] /\
    (0 <= n /\ 0 <= c /\ 0 <= h /\ 0 <= w /\ 0 < c0) /\
    (GetC0Value (dst_format args) = c0 \/ GetC0Value (dst_format args) <= 0) /\
    GetItemNumByShape (src_shape args) = n * c * h * w /\
    GetItemNumByShape (dst_shape args) = n * Ceil c c0 * h * w * c0.
Proof.
  unfold CheckArgsForNchwToNc1hwc0, TransShapeNchwToNc1hwc0. intros Hc. inv_outcome.
  set (c0 := if _ <=? 0 then _ else _) in *.
  match goal with Hs : CheckShapeValid (src_shape args) _ = true |- _ =>
    apply check4_inv in Hs as (n & c & h & w & E & ? & ? & ? & ? & Hi & _) end.
  rewrite E in *.
  repeat match goal with Ha : at_ _ _ = Ok _ |- _ => injection Ha as <- end.
  match goal with Hs : CheckShapeValid _ kNc1hwc0DimsNum = true |- _ =>
    apply check5_inv in Hs as (? & ? & ? & ? & ? & E' & ? & ? & ? & ? & ? & Hi' & _) end.
  injection E' as <- <- <- <- <-.
  match goal with Hd : _ = dst_shape args |- _ => rewrite <- Hd end.
  exists n, c, h, w, c0. split_and!; try done.
  unfold c0. destruct (Z.leb_spec (GetC0Value (dst_format args)) 0); auto.
Qed.

Lemma nchw_nc1hwc0_delivers args r n c h w d :
  let c0 := GetC0Value (dst_format args) in
  let size := GetSizeByDataType (src_data_type args) in
  let N := n * Ceil c c0 * h * w * c0 in
  CheckArgsForNchwToNc1hwc0 args = Ok tt -> src_shape args = [n; c; h; w] ->
  0 < c0 -> 0 < size -> 0 < n * c * h * w ->
  data args = Some d -> n * c * h * w * size <= zlen d -> can_alloc (N * size) = true ->
  wp (TransFormat args r)
     (delivers N size (at5 (Ceil c c0) h w c0 (spec_to_5d c h w c0 size (idx4 c h w) d))).
Proof.
  intros c0 size N Hck Es Hc0 Hsz Hpos Ed Hd Hal.
  destruct (nchw_nc1hwc0_check_inv _ Hck) as (n' & c' & h' & w' & c0' & Es' & Et & Hr & Hcc & Ei & Ej).
  rewrite Es in Es'. injection Es' as <- <- <- <-.
  assert (c0' = c0) as -> by (unfold c0 in *; lia). clear Hcc.
  assert (0 < n /\ 0 < c /\ 0 < h /\ 0 < w) as (Hn & Hc & Hh & Hw) by nia.
  assert (Hc1 := Ceil_pos c c0 Hc Hc0). assert (Hm := type_size_bound (src_data_type args)).
  unfold TransFormat. rewrite Hck. simpl. rewrite Ej. fold size N.
  rewrite (proj2 (Z.leb_gt _ _)) by (unfold N; nia).
  unfold GetDstDataAfterTransOfNchw2Nc1hwc0. rewrite Es, Ed. fold c0.
  eapply wp_new_bytes; [done|unfold N; nia|done|]. intros b0 Ha0.
  wp_dims. apply wp_reject; [lia|]. cbv zeta.
  replace (Z.quot (c - 1) c0 + 1) with (Ceil c c0)
    by (unfold Ceil; by rewrite !(proj2 (Z.eqb_neq _ 0)) by lia).
  apply wp_bind. eapply wp_mono.
  - wp_loop Ha0 ni Hni W1 b1 Ha1. wp_loop Ha1 c1i Hc1i W2 b2 Ha2. wp_loop Ha2 hi Hhi W3 b3 Ha3.
    wp_loop Ha3 wi Hwi W4 b4 Ha4. wp_loop Ha4 c0i Hc0i W5 b5 Ha5.
    assert (HD := idx5_bound n (Ceil c c0) h w c0 ni c1i hi wi c0i Hni Hc1i Hhi Hwi Hc0i).
    fold N in HD.
    replace (c0i + (ni * _ + c1i * _ + hi * _ + wi * _))
      with (idx5 (Ceil c c0) h w c0 ni c1i hi wi c0i) by (unfold idx5, idx4, pos; ring).
    eapply wp_guard; [exact Hsz|exact HD|done|]. intros p Hp. cbv zeta.
    assert (Hsp := at5_idx (Ceil c c0) h w c0 (spec_to_5d c h w c0 size (idx4 c h w) d)
                     ni c1i hi wi c0i Hc1i Hhi Hwi Hc0i).
    unfold spec_to_5d at 2 in Hsp.
    rewrite (Z.add_comm c0i). destruct (Z.ltb_spec (c1i * c0 + c0i) c) as [Hlt|Hge].
    + assert (HS : 0 <= idx4 c h w ni (c1i * c0 + c0i) hi wi < n * c * h * w)
        by (apply idx4_bound; nia).
      replace (ni * _ + _ + _ + _) with (idx4 c h w ni (c1i * c0 + c0i) hi wi)
        by (unfold idx4, pos; ring).
      eapply wp_memcpy_elem; eauto; [by apply PtrAdd_elem|lia|nia].
    + eapply wp_memset_elem; eauto. by apply PtrAdd_elem.
  - intros out Ha. eapply agree_delivers; [exact Hsz|exact Ha|]. intros e He.
    destruct (idx5_surj n (Ceil c c0) h w c0 e) as (ni & c1i & hi & wi & c0i & (?&?&?&?&?) & ->);
      [done..|]. in_loops. unfold idx5, idx4, pos; ring.
Qed.
End to_5d.

Section nhwc_to_5d.
Context `{GeTypesLaws} `{SecureCLaws}.
Import NhwcNc1hwc0.

Lemma nhwc_nc1hwc0_check_inv args :
  CheckArgsForNhwcToNc1hwc0 args = Ok tt ->
  0 < GetSizeByDataType (src_data_type args) /\
  exists n c h w c0,
    src_shape args = [n; h; w; c] /\ dst_shape args = [n; Ceil c c0; h; w; c0] /\
    (0 <= n /\ 0 <= c /\ 0 <= h /\ 0 <= w /\ 0 < c0) /\
    c0 = (if GetC0Value (dst_format args) <=? 0
          then GetCubeSizeByDataType (src_data_type args) else GetC0Value (dst_format args)) /\
    GetItemNumByShape (src_shape args) = n * h * w * c /\
    GetItemNumByShape (dst_shape args) = n * Ceil c c0 * h * w * c0.
Proof.
  unfold CheckArgsForNhwcToNc1hwc0, TransShapeNhwcToNc1hwc0, CheckDataTypeSupportedNhwcToNc1hwc0.
  intros Hc. inv_outcome. set (c0 := if _ <=? 0 then _ else _) in *.
  match goal with Hs : CheckShapeValid (src_shape args) _ = true |- _ =>
    apply check4_inv in Hs as (n & h & w & c & E & ? & ? & ? & ? & Hi & _) end.
  rewrite E in *.
  repeat match goal with Ha : at_ _ _ = Ok _ |- _ => injection Ha as <- end.
  match goal with Hd : dst_shape args = _ |- _ => rewrite Hd in * end.
  match goal with Hs : CheckShapeValid _ kNc1hwc0DimsNum = true |- _ =>
    apply check5_inv in Hs as (? & ? & ? & ? & ? & E' & ? & ? & ? & ? & ? & Hi' & _) end.
  injection E' as <- <- <- <- <-. split; [by apply Z.ltb_lt|].
  exists n, c, h, w, c0. by split_and!.
Qed.

(** The position of source element [(ni, ci, hi, wi)] in NHWC. *)
Definition nhwc_at (c h w ni ci hi wi : Z) : Z := idx4 h w c ni hi wi ci.

Lemma nhwc_nc1hwc0_delivers args r n c h w c0 d :
  let size := GetSizeByDataType (src_data_type args) in
  let N := n * Ceil c c0 * h * w * c0 in
  CheckArgsForNhwcToNc1hwc0 args = Ok tt ->
  src_shape args = [n; h; w; c] -> dst_shape args = [n; Ceil c c0; h; w; c0] ->
  0 < n * h * w * c ->
  data args = Some d -> n * h * w * c * size <= zlen d -> can_alloc (N * size) = true ->
  wp (TransFormat args r)
     (delivers N size (at5 (Ceil c c0) h w c0 (spec_to_5d c h w c0 size (nhwc_at c h w) d))).
Proof.
  intros size N Hck Es Et Hpos Ed Hd Hal.
  destruct (nhwc_nc1hwc0_check_inv _ Hck) as (Hsz & n' & c' & h' & w' & c0' & Es' & Et' & Hr & _ & Ei & Ej).
  rewrite Es in Es'. injection Es' as <- <- <- <-.
  rewrite Et in Et', Ej. injection Et' as _ <-.
  assert (0 < n /\ 0 < c /\ 0 < h /\ 0 < w) as (Hn & Hc & Hh & Hw) by nia.
  destruct Hr as (_ & _ & _ & _ & Hc0). fold size in Hsz.
  assert (Hc1 := Ceil_pos c c0 Hc Hc0). assert (Hm := type_size_bound (src_data_type args)).
  unfold TransFormat. rewrite Hck. simpl. rewrite Et, Ej. fold size N.
  rewrite (proj2 (Z.leb_gt _ _)) by (unfold N; nia).
  unfold GetDstDataAfterTransNhwcToNc1hwc0. rewrite Es, Et, Ed.
  eapply wp_new_bytes; [done|unfold N; nia|done|]. intros b0 Ha0. wp_dims. cbv zeta.
  apply wp_bind. eapply wp_mono.
  - wp_loop Ha0 ni Hni W1 b1 Ha1. wp_loop Ha1 c1i Hc1i W2 b2 Ha2. wp_loop Ha2 hi Hhi W3 b3 Ha3.
    wp_loop Ha3 wi Hwi W4 b4 Ha4. wp_loop Ha4 c0i Hc0i W5 b5 Ha5.
    assert (HD := idx5_bound n (Ceil c c0) h w c0 ni c1i hi wi c0i Hni Hc1i Hhi Hwi Hc0i).
    fold N in HD.
    replace (c0i + (ni * _ + c1i * _ + hi * _ + wi * _))
      with (idx5 (Ceil c c0) h w c0 ni c1i hi wi c0i) by (unfold idx5, idx4, pos; ring).
    eapply wp_guard; [exact Hsz|exact HD|done|]. intros p Hp. cbv zeta.
    assert (Hsp := at5_idx (Ceil c c0) h w c0 (spec_to_5d c h w c0 size (nhwc_at c h w) d)
                     ni c1i hi wi c0i Hc1i Hhi Hwi Hc0i).
    unfold spec_to_5d at 2 in Hsp.
    rewrite (Z.add_comm c0i). destruct (Z.ltb_spec (c1i * c0 + c0i) c) as [Hlt|Hge].
    + assert (HS : 0 <= nhwc_at c h w ni (c1i * c0 + c0i) hi wi < n * h * w * c)
        by (apply idx4_bound; nia).
      replace (ni * _ + hi * _ + wi * _ + _) with (nhwc_at c h w ni (c1i * c0 + c0i) hi wi)
        by (unfold nhwc_at, idx4, pos; ring).
      eapply wp_memcpy_elem; eauto; [by apply PtrAdd_elem|lia|nia].
    + eapply wp_memset_elem; eauto. by apply PtrAdd_elem.
  - intros out Ha. eapply agree_delivers; [exact Hsz|exact Ha|]. intros e He.
    destruct (idx5_surj n (Ceil c c0) h w c0 e) as (ni & c1i & hi & wi & c0i & (?&?&?&?&?) & ->);
      [done..|]. in_loops. unfold idx5, idx4, pos; ring.
Qed.
End nhwc_to_5d.

Section of_5d.
Context `{GeTypesLaws} `{SecureCLaws}.
Import Nc1hwc0Nchw.

Lemma nc1hwc0_nchw_check_inv args :
  CheckArgsForNc1hwc0ToNchw args = Ok tt ->
  let c0 := GetC0Value (src_format args) in
  0 < GetSizeByDataType (src_data_type args) /\ 0 < c0 /\
  exists n c h w,
    src_shape args = [n; Ceil c c0; h; w; c0] /\ dst_shape args = [n; c; h; w] /\
    (0 <= n /\ 0 <= c /\ 0 <= h /\ 0 <= w) /\
    GetItemNumByShape (dst_shape args) = n * c * h * w.
Proof.
  intros Hc. unfold CheckArgsForNc1hwc0ToNchw, CheckDataTypeSupportedForNc1hwc0ToNchw in Hc.
  cbv zeta in *. inv_outcome. set (c0 := GetC0Value (src_format args)) in *.
  match goal with Hs : CheckShapeValid (src_shape args) _ = true |- _ =>
    apply check5_inv in Hs as (n & c1 & h & w & c0' & E & ? & ? & ? & ? & ? & Hi & _) end.
  match goal with Hs : CheckShapeValid (dst_shape args) _ = true |- _ =>
    apply check4_inv in Hs as (? & c & ? & ? & E' & ? & ? & ? & ? & Hi' & _) end.
  rewrite E, E' in *.
  repeat match goal with Ha : at_ _ _ = Ok _ |- _ => injection Ha as <- end. subst.
  split; [by apply Z.ltb_lt|]. split; [done|]. eexists _, c, _, _. by split_and!.
Qed.

Lemma nc1hwc0_nchw_delivers args r n c h w d :
  let c0 := GetC0Value (src_format args) in
  let size := GetSizeByDataType (src_data_type args) in
  let N := n * c * h * w in
  CheckArgsForNc1hwc0ToNchw args = Ok tt -> dst_shape args = [n; c; h; w] -> 0 < N ->
  data args = Some d -> n * Ceil c c0 * h * w * c0 * size <= zlen d ->
  can_alloc (N * size) = true ->
  wp (TransFormat args r)
     (delivers N size (at4 c h w (fun ni ci hi wi => elem d size (from_5d c h w c0 ni ci hi wi)))).
Proof.
  intros c0 size N Hck Et Hpos Ed Hd Hal.
  destruct (nc1hwc0_nchw_check_inv _ Hck) as (Hsz & Hc0 & n' & c' & h' & w' & Es & Et' & Hr & Ei).
  rewrite Et in Et'. injection Et' as <- <- <- <-. fold c0 in Es, Hc0. fold size in Hsz.
  assert (0 < n /\ 0 < c /\ 0 < h /\ 0 < w) as (Hn & Hc & Hh & Hw) by (unfold N in *; nia).
  assert (Hm := type_size_bound (src_data_type args)).
  unfold TransFormat. rewrite Hck. simpl. rewrite Ei. fold size N.
  rewrite (proj2 (Z.leb_gt _ _)) by nia.
  unfold GetDstDataAfterTransForNc1hwc0ToNchw. rewrite Es, Et, Ed.
  eapply wp_new_bytes; [done|lia|done|]. intros b0 Ha0. wp_dims. cbv zeta.
  apply wp_bind. eapply wp_mono.
  - wp_loop Ha0 ni Hni W1 b1 Ha1. wp_loop Ha1 ci Hci W2 b2 Ha2. wp_loop Ha2 hi Hhi W3 b3 Ha3.
    wp_loop Ha3 wi Hwi W4 b4 Ha4.
    rewrite quot_nonneg, rem_nonneg by lia. wp_dims. cbv zeta.
    assert (HD := idx4_bound n c h w ni ci hi wi Hni Hci Hhi Hwi). fold N in HD.
    replace (ni * _ + ci * _ + hi * w + wi) with (idx4 c h w ni ci hi wi)
      by (unfold idx4, pos; ring).
    assert (HS := from_5d_bound n c h w c0 ni ci hi wi Hc0 Hni Hci Hhi Hwi).
    replace (ni * _ + ci / c0 * _ + _ + _ + _) with (from_5d c h w c0 ni ci hi wi)
      by (unfold from_5d, idx5, idx4, pos; ring).
    eapply wp_guard; [exact Hsz|exact HD|done|]. intros p Hp.
    eapply wp_memcpy_elem; eauto; [by apply PtrAdd_elem|lia|nia|].
    by rewrite at4_idx.
  - intros out Ha. eapply agree_delivers; [exact Hsz|exact Ha|]. intros e He.
    destruct (idx4_surj n c h w e) as (ni & ci & hi & wi & (?&?&?&?) & ->);
      [done..|]. in_loops. unfold idx4, pos; ring.
Qed.
End of_5d.

Section of_5d_nhwc.
Context `{GeTypesLaws} `{SecureCLaws}.
Import Nc1hwc0Nhwc.

Lemma nc1hwc0_nhwc_check_inv args :
  CheckArgsForNc1hwc0ToNhwc args = Ok tt ->
  let c0 := GetC0Value (src_format args) in
  0 < GetSizeByDataType (src_data_type args) /\ 0 < c0 /\
  exists n c h w,
    src_shape args = [n; Ceil c c0; h; w; c0] /\ dst_shape args = [n; h; w; c] /\
    (0 <= n /\ 0 <= c /\ 0 <= h /\ 0 <= w) /\
    GetItemNumByShape (dst_shape args) = n * h * w * c.
Proof.
  intros Hc. unfold CheckArgsForNc1hwc0ToNhwc, CheckDataTypeForNc1hwc0ToNhwc in Hc.
  cbv zeta in *. inv_outcome. set (c0 := GetC0Value (src_format args)) in *.
  match goal with Hs : CheckShapeValid (src_shape args) _ = true |- _ =>
    apply check5_inv in Hs as (n & c1 & h & w & c0' & E & ? & ? & ? & ? & ? & Hi & _) end.
  match goal with Hs : CheckShapeValid (dst_shape args) _ = true |- _ =>
    apply check4_inv in Hs as (? & ? & ? & c & E' & ? & ? & ? & ? & Hi' & _) end.
  rewrite E, E' in *.
  repeat match goal with Ha : at_ _ _ = Ok _ |- _ => injection Ha as <- end. subst.
  split; [by apply Z.ltb_lt|]. split; [done|]. eexists _, c, _, _. by split_and!.
Qed.

Lemma nc1hwc0_nhwc_delivers args r n c h w d :
  let c0 := GetC0Value (src_format args) in
  let size := GetSizeByDataType (src_data_type args) in
  let N := n * h * w * c in
  CheckArgsForNc1hwc0ToNhwc args = Ok tt -> dst_shape args = [n; h; w; c] -> 0 < N ->
  data args = Some d -> n * Ceil c c0 * h * w * c0 * size <= zlen d ->
  can_alloc (N * size) = true ->
  wp (TransFormat args r)
     (delivers N size (at4 h w c (fun ni hi wi ci => elem d size (from_5d c h w c0 ni ci hi wi)))).
Proof.
  intros c0 size N Hck Et Hpos Ed Hd Hal.
  destruct (nc1hwc0_nhwc_check_inv _ Hck) as (Hsz & Hc0 & n' & c' & h' & w' & Es & Et' & Hr & Ei).
  rewrite Et in Et'. injection Et' as <- <- <- <-. fold c0 in Es, Hc0. fold size in Hsz.
  assert (0 < n /\ 0 < c /\ 0 < h /\ 0 < w) as (Hn & Hc & Hh & Hw) by (unfold N in *; nia).
  assert (Hm := type_size_bound (src_data_type args)).
  unfold TransFormat. rewrite Hck. simpl. rewrite Ei. fold size N.
  rewrite (proj2 (Z.leb_gt _ _)) by nia.
  unfold GetDstDataForNc1hwc0ToNhwc. rewrite Es, Et, Ed.
  eapply wp_new_bytes; [done|lia|done|]. intros b0 Ha0. wp_dims. cbv zeta.
  apply wp_bind. eapply wp_mono.
  - wp_loop Ha0 ni Hni W1 b1 Ha1. wp_loop Ha1 hi Hhi W2 b2 Ha2. wp_loop Ha2 wi Hwi W3 b3 Ha3.
    wp_loop Ha3 ci Hci W4 b4 Ha4.
    rewrite quot_nonneg, rem_nonneg by lia. wp_dims. cbv zeta.
    assert (HD := idx4_bound n h w c ni hi wi ci Hni Hhi Hwi Hci). fold N in HD.
    replace (ni * _ + hi * _ + wi * c + ci) with (idx4 h w c ni hi wi ci)
      by (unfold idx4, pos; ring).
    assert (HS := from_5d_bound n c h w c0 ni ci hi wi Hc0 Hni Hci Hhi Hwi).
    replace (ni * _ + ci / c0 * _ + _ + _ + _) with (from_5d c h w c0 ni ci hi wi)
      by (unfold from_5d, idx5, idx4, pos; ring).
    eapply wp_guard; [exact Hsz|exact HD|done|]. intros p Hp.
    eapply wp_memcpy_elem; eauto; [by apply PtrAdd_elem|lia|nia|].
    by rewrite at4_idx.
  - intros out Ha. eapply agree_delivers; [exact Hsz|exact Ha|]. intros e He.
    destruct (idx4_surj n h w c e) as (ni & hi & wi & ci & (?&?&?&?) & ->);
      [done..|]. in_loops. unfold idx4, pos; ring.
Qed.
End of_5d_nhwc.

(** ** Theorems *)

Section theorems.
Context `{GeTypesLaws} `{SecureCLaws}.

(** Reading back the NC1HWC0 position of a channel gives the source element. *)
Lemma to_5d_from_5d c h w c0 size src d ni ci hi wi :
  0 < c0 -> 0 <= ci < c -> 0 <= hi < h -> 0 <= wi < w ->
  at5 (Ceil c c0) h w c0 (spec_to_5d c h w c0 size src d) (from_5d c h w c0 ni ci hi wi)
  = elem d size (src ni ci hi wi).
Proof.
  intros Hc0 Hci Hhi Hwi. unfold from_5d.
  rewrite at5_idx; [|by apply Ceil_div_lt|done|done|by apply Z.mod_pos_bound].
  unfold spec_to_5d. replace (ci / c0 * c0 + ci mod c0) with ci
    by (pose proof (Z.div_mod ci c0); lia).
  by rewrite (proj2 (Z.ltb_lt _ _)) by lia.
Qed.

(** C11: NCHW to NC1HWC0.  Once the argument check passes, the element size
    and C0 are positive and the tensor is not empty, the transfer succeeds,
    delivers every byte of the destination, and the element at
    [(n, c1, h, w, c0)] is channel [c1 * C0 + c0] of the source, or zero
    when there is no such channel. *)
Theorem nchw_to_nc1hwc0_correct args r n c h w d :
  let c0 := GetC0Value (dst_format args) in
  let c1 := Ceil c c0 in
  let size := GetSizeByDataType (src_data_type args) in
  NchwNc1hwc0.CheckArgsForNchwToNc1hwc0 args = Ok tt -> src_shape args = [n; c; h; w] ->
  0 < c0 -> 0 < size -> 0 < n * c * h * w ->
  data args = Some d -> n * c * h * w * size <= zlen d ->
  can_alloc (n * c1 * h * w * c0 * size) = true ->
  exists bs : list Z,
    NchwNc1hwc0.TransFormat args r
    = Ok {| res_data := Some (Some <$> bs); res_length := n * c1 * h * w * c0 * size |} /\
    zlen bs = n * c1 * h * w * c0 * size /\
    forall ni c1i hi wi c0i,
      0 <= ni < n -> 0 <= c1i < c1 -> 0 <= hi < h -> 0 <= wi < w -> 0 <= c0i < c0 ->
      elem bs size (idx5 c1 h w c0 ni c1i hi wi c0i)
      = if c1i * c0 + c0i <? c then elem d size (idx4 c h w ni (c1i * c0 + c0i) hi wi)
        else zero_elem size.
Proof.
  intros. by apply (delivers_at5 _ size n c1 h w c0 (spec_to_5d c h w c0 size (idx4 c h w) d)),
    nchw_nc1hwc0_delivers.
Qed.

(** NC1HWC0 to NCHW.  The transfer gathers channel [ci] from block
    [ci / C0], lane [ci mod C0], and never reads the padding. *)
Theorem nc1hwc0_to_nchw_correct args r n c h w d :
  let c0 := GetC0Value (src_format args) in
  let size := GetSizeByDataType (src_data_type args) in
  Nc1hwc0Nchw.CheckArgsForNc1hwc0ToNchw args = Ok tt -> dst_shape args = [n; c; h; w] ->
  0 < n * c * h * w ->
  data args = Some d -> n * Ceil c c0 * h * w * c0 * size <= zlen d ->
  can_alloc (n * c * h * w * size) = true ->
  exists bs : list Z,
    Nc1hwc0Nchw.TransFormat args r
    = Ok {| res_data := Some (Some <$> bs); res_length := n * c * h * w * size |} /\
    zlen bs = n * c * h * w * size /\
    forall ni ci hi wi, 0 <= ni < n -> 0 <= ci < c -> 0 <= hi < h -> 0 <= wi < w ->
      elem bs size (idx4 c h w ni ci hi wi)
      = elem d size (idx5 (Ceil c c0) h w c0 ni (ci / c0) hi wi (ci mod c0)).
Proof.
  intros. by apply (delivers_at4 _ size n c h w
    (fun ni ci hi wi => elem d size (from_5d c h w c0 ni ci hi wi))), nc1hwc0_nchw_delivers.
Qed.

(** C12: the two NCHW transfers are inverse.  Feeding the bytes NCHW to
    NC1HWC0 delivers to NC1HWC0 to NCHW restores the source buffer. *)
Theorem nchw_nc1hwc0_roundtrip args1 args2 r1 r2 n c h w d :
  let c0 := GetC0Value (dst_format args1) in
  let size := GetSizeByDataType (src_data_type args1) in
  NchwNc1hwc0.CheckArgsForNchwToNc1hwc0 args1 = Ok tt -> src_shape args1 = [n; c; h; w] ->
  0 < c0 -> 0 < size -> 0 < n * c * h * w ->
  data args1 = Some d -> zlen d = n * c * h * w * size -> (forall k, can_alloc k = true) ->
  Nc1hwc0Nchw.CheckArgsForNc1hwc0ToNchw args2 = Ok tt -> dst_shape args2 = [n; c; h; w] ->
  GetC0Value (src_format args2) = c0 -> src_data_type args2 = src_data_type args1 ->
  exists bs : list Z,
    NchwNc1hwc0.TransFormat args1 r1
    = Ok {| res_data := Some (Some <$> bs); res_length := n * Ceil c c0 * h * w * c0 * size |} /\
    Nc1hwc0Nchw.TransFormat (with_data args2 bs) r2
    = Ok {| res_data := Some (Some <$> d); res_length := n * c * h * w * size |}.
Proof.
  intros c0 size Hck1 Es1 Hc0 Hsz Hpos Ed1 Hd Hal Hck2 Et2 Ec0 Edt.
  destruct (delivers_eq _ _ _ _ (nchw_nc1hwc0_delivers args1 r1 n c h w d
    Hck1 Es1 Hc0 Hsz Hpos Ed1 ltac:(unfold size; lia) (Hal _))) as (bs & E1 & Hz & He).
  exists bs. split; [exact E1|].
  pose proof (nc1hwc0_nchw_delivers (with_data args2 bs) r2 n c h w bs Hck2 Et2 Hpos eq_refl) as Hd2.
  simpl src_format in Hd2. simpl src_data_type in Hd2. rewrite Ec0, Edt in Hd2. fold c0 size in Hd2, Hz, He.
  destruct (delivers_eq _ _ _ _ (Hd2 ltac:(lia) (Hal _))) as (bs' & -> & Hz' & He').
  do 4 f_equal. apply (elem_ext _ _ (n * c * h * w) size); [done|done|lia|].
  intros e Hr. rewrite He' by done.
  assert (0 < c /\ 0 < h /\ 0 < w) as (Hc & Hh & Hw).
  { destruct (nchw_nc1hwc0_check_inv _ Hck1) as (?&?&?&?&?&E&_&?&_).
    rewrite Es1 in E. injection E as <- <- <- <-. nia. }
  destruct (idx4_surj n c h w e) as (ni & ci & hi & wi & (?&?&?&?) & ->); [done..|].
  rewrite at4_idx by done. rewrite He by (by apply from_5d_bound). by apply to_5d_from_5d.
Qed.

(** NHWC to NC1HWC0, read back by NC1HWC0 to NHWC, restores the source
    buffer. *)
Theorem nhwc_nc1hwc0_roundtrip args1 args2 r1 r2 n c h w c0 d :
  let size := GetSizeByDataType (src_data_type args1) in
  NhwcNc1hwc0.CheckArgsForNhwcToNc1hwc0 args1 = Ok tt -> src_shape args1 = [n; h; w; c] ->
  dst_shape args1 = [n; Ceil c c0; h; w; c0] -> 0 < n * h * w * c ->
  data args1 = Some d -> zlen d = n * h * w * c * size -> (forall k, can_alloc k = true) ->
  Nc1hwc0Nhwc.CheckArgsForNc1hwc0ToNhwc args2 = Ok tt -> dst_shape args2 = [n; h; w; c] ->
  GetC0Value (src_format args2) = c0 -> src_data_type args2 = src_data_type args1 ->
  exists bs : list Z,
    NhwcNc1hwc0.TransFormat args1 r1
    = Ok {| res_data := Some (Some <$> bs); res_length := n * Ceil c c0 * h * w * c0 * size |} /\
    Nc1hwc0Nhwc.TransFormat (with_data args2 bs) r2
    = Ok {| res_data := Some (Some <$> d); res_length := n * h * w * c * size |}.
Proof.
  intros size Hck1 Es1 Et1 Hpos Ed1 Hd Hal Hck2 Et2 Ec0 Edt.
  destruct (nhwc_nc1hwc0_check_inv _ Hck1) as (Hsz & n' & c' & h' & w' & c0' & E & E' & Hr & _).
  rewrite Es1 in E. injection E as <- <- <- <-. rewrite Et1 in E'. injection E' as _ <-.
  destruct (delivers_eq _ _ _ _ (nhwc_nc1hwc0_delivers args1 r1 n c h w c0 d
    Hck1 Es1 Et1 Hpos Ed1 ltac:(unfold size; lia) (Hal _))) as (bs & E1 & Hz & He).
  exists bs. split; [exact E1|].
  pose proof (nc1hwc0_nhwc_delivers (with_data args2 bs) r2 n c h w bs Hck2 Et2 Hpos eq_refl) as Hd2.
  simpl src_format in Hd2. simpl src_data_type in Hd2. rewrite Ec0, Edt in Hd2. fold size in Hd2, Hz, He, Hsz.
  destruct (delivers_eq _ _ _ _ (Hd2 ltac:(lia) (Hal _))) as (bs' & -> & Hz' & He').
  do 4 f_equal. apply (elem_ext _ _ (n * h * w * c) size); [done|done|lia|].
  intros e Hre. rewrite He' by done.
  assert (0 < c /\ 0 < h /\ 0 < w) as (Hc & Hh & Hw) by nia.
  destruct (idx4_surj n h w c e) as (ni & hi & wi & ci & (?&?&?&?) & ->); [done..|].
  rewrite at4_idx by done. rewrite He by (apply from_5d_bound; lia).
  by rewrite to_5d_from_5d by lia.
Qed.

(** The shape computation and the data path disagree about a format that
    carries no C0.  [TransShape] and the argument check then take the cube
    size of the data type, but the data path insists on a C0 in the format
    and rejects every non-empty tensor. *)
Theorem nchw_nc1hwc0_needs_c0 args r n c h w :
  let size := GetSizeByDataType (src_data_type args) in
  NchwNc1hwc0.CheckArgsForNchwToNc1hwc0 args = Ok tt -> src_shape args = [n; c; h; w] ->
  GetC0Value (dst_format args) <= 0 -> 0 < size -> 0 < n * c * h * w ->
  (forall k, can_alloc k = true) ->
  (exists s, NchwNc1hwc0.TransShapeNchwToNc1hwc0 (src_shape args) (src_data_type args)
               (GetC0Value (dst_format args)) = Ok s) /\
  NchwNc1hwc0.TransFormat args r = Err ACL_ERROR_GE_DATATYPE_INVALID.
Proof.
  intros size Hck Es Hc0 Hsz Hpos Hal. split.
  - unfold NchwNc1hwc0.CheckArgsForNchwToNc1hwc0 in Hck. inv_outcome. eauto.
  - destruct (nchw_nc1hwc0_check_inv _ Hck) as (n' & c' & h' & w' & c0 & Es' & _ & Hr & _ & _ & Ej).
    rewrite Es in Es'. injection Es' as <- <- <- <-.
    assert (0 < n /\ 0 < c /\ 0 < h /\ 0 < w) as (? & ? & ? & ?) by nia.
    pose proof (Ceil_pos c c0). unfold NchwNc1hwc0.TransFormat. rewrite Hck. simpl.
    rewrite Ej. fold size. rewrite (proj2 (Z.leb_gt _ _)) by nia.
    unfold NchwNc1hwc0.GetDstDataAfterTransOfNchw2Nc1hwc0, new_bytes. rewrite Hal, Es. simpl.
    by rewrite (proj2 (Z.leb_le _ _)) by lia.
Qed.
End theorems.

(** ** Runs *)

Module Runs5D.
Import Concrete Sample.

(** A 1 x 3 x 2 x 2 tensor of bytes, FORMAT_NC1HWC0 carrying C0 = 16. *)
Definition nc1hwc0_c16 : Z := 3 + 5 * 2 ^ 24.
Definition source : list Z := seqZ 1 12.

Lemma nchw_to_nc1hwc0_correct_run :
  exists bs, NchwNc1hwc0.TransFormat
    (mk_args 0 nc1hwc0_c16 [1; 3; 2; 2] [1; 1; 2; 2; 16] 2 source) empty_result
    = Ok {| res_data := Some (Some <$> bs); res_length := 64 |}.
Proof.
  destruct (nchw_to_nc1hwc0_correct
    (mk_args 0 nc1hwc0_c16 [1; 3; 2; 2] [1; 1; 2; 2; 16] 2 source) empty_result 1 3 2 2 source)
    as (bs & E & _); [run_hyp..|]. exists bs. exact E.
Defined.

Lemma nc1hwc0_to_nchw_correct_run :
  exists bs, Nc1hwc0Nchw.TransFormat
    (mk_args nc1hwc0_c16 0 [1; 1; 2; 2; 16] [1; 3; 2; 2] 2 (seqZ 1 64)) empty_result
    = Ok {| res_data := Some (Some <$> bs); res_length := 12 |}.
Proof.
  destruct (nc1hwc0_to_nchw_correct
    (mk_args nc1hwc0_c16 0 [1; 1; 2; 2; 16] [1; 3; 2; 2] 2 (seqZ 1 64)) empty_result
    1 3 2 2 (seqZ 1 64)) as (bs & E & _); [run_hyp..|]. exists bs. exact E.
Defined.

Lemma nchw_nc1hwc0_roundtrip_run :
  exists bs, Nc1hwc0Nchw.TransFormat
    (with_data (mk_args nc1hwc0_c16 0 [1; 1; 2; 2; 16] [1; 3; 2; 2] 2 []) bs) empty_result
  = Ok {| res_data := Some (Some <$> source); res_length := 12 |}.
Proof.
  destruct (nchw_nc1hwc0_roundtrip
    (mk_args 0 nc1hwc0_c16 [1; 3; 2; 2] [1; 1; 2; 2; 16] 2 source)
    (mk_args nc1hwc0_c16 0 [1; 1; 2; 2; 16] [1; 3; 2; 2] 2 [])
    empty_result empty_result 1 3 2 2 source) as (bs & _ & E); [run_hyp..|].
  exists bs. exact E.
Defined.

Lemma nhwc_nc1hwc0_roundtrip_run :
  exists bs, Nc1hwc0Nhwc.TransFormat
    (with_data (mk_args nc1hwc0_c16 1 [1; 1; 2; 2; 16] [1; 2; 2; 3] 2 []) bs) empty_result
  = Ok {| res_data := Some (Some <$> source); res_length := 12 |}.
Proof.
  destruct (nhwc_nc1hwc0_roundtrip
    (mk_args 1 nc1hwc0_c16 [1; 2; 2; 3] [1; 1; 2; 2; 16] 2 source)
    (mk_args nc1hwc0_c16 1 [1; 1; 2; 2; 16] [1; 2; 2; 3] 2 [])
    empty_result empty_result 1 3 2 2 16 source) as (bs & _ & E); [run_hyp..|].
  exists bs. exact E.
Defined.

Lemma nchw_nc1hwc0_needs_c0_run :
  NchwNc1hwc0.TransFormat (mk_args 0 3 [1; 3; 2; 2] [1; 1; 2; 2; 32] 2 source) empty_result
  = Err ACL_ERROR_GE_DATATYPE_INVALID.
Proof.
  apply (nchw_nc1hwc0_needs_c0
    (mk_args 0 3 [1; 3; 2; 2] [1; 1; 2; 2; 32] 2 source) empty_result 1 3 2 2); run_hyp.
Defined.
End Runs5D.
