(* ===== verification/FormatsFracZ.v ===== *)
(** * FormatsFracZ: FRACTAL_Z to NCHW, NHWC and HWCN

    [format_transfer_fracz_nchw.cc], [format_transfer_fracz_nhwc.cc],
    [format_transfer_fracz_hwcn.cc].  FRACTAL_Z stores the convolution weights
    as [(C1*H*W, No, Ni, C0)] with [Ni = 16]; the code indexes it as the box
    [C1 x H x W x (Ni*No) x C0]. *)

From S2P Require Import Prelude Env FormatsUtils Transfer.

(** ** format_transfer_fracz_nchw.cc *)

Module FracZNchw.
Section model.
Context `{GeTypes} `{SecureC}.

Definition CheckDataTypeSupportedForFracZToNchw (data_type : Z) : bool :=
  0 <? GetSizeByDataType data_type.

Definition CheckArgsForFracZToNchw (args : TransArgs) : outcome unit :=
  reject_if (negb (src_primary_format args =? FORMAT_FRACTAL_Z)
             || negb (dst_primary_format args =? FORMAT_NCHW)) ACL_ERROR_GE_FORMAT_INVALID $
  reject_if (negb (CheckDataTypeSupportedForFracZToNchw (src_data_type args)))
            ACL_ERROR_GE_DATATYPE_INVALID $
  reject_if (negb (CheckShapeValid (src_shape args) kFracZDimsNum)) ACL_ERROR_GE_SHAPE_INVALID $
  reject_if (negb (CheckShapeValid (dst_shape args) kNchwDimsNum)) ACL_ERROR_GE_SHAPE_INVALID $
  let c0 := GetC0Value (src_format args) in
  reject_if (c0 <? 0) ACL_ERROR_GE_DATATYPE_INVALID $
  dc ← at_ (dst_shape args) kNchwC;
  dn ← at_ (dst_shape args) kNchwN;
  let c1 := Ceil dc c0 in
  let n0 := Ceil dn kNiSize in
  dh ← at_ (dst_shape args) kNchwH;
  dw ← at_ (dst_shape args) kNchwW;
  s_hwc1 ← at_ (src_shape args) kFracZHWC1;
  s_c0 ← at_ (src_shape args) kFracZC0;
  s_ni ← at_ (src_shape args) kFracZNi;
  s_n0 ← at_ (src_shape args) kFracZN0;
  reject_if (negb (s_hwc1 =? swrap 64 (swrap 64 (dh * dw) * c1)) || (negb (s_c0 =? c0)
             || (negb (s_ni =? kNiSize) || negb (s_n0 =? n0)))) ACL_ERROR_GE_SHAPE_INVALID $
  Ok tt.

Definition GetDstDataAfterTransForFracZToNchw (args : TransArgs) (size total_size : Z)
    : outcome TransResult :=
  dst ← new_bytes total_size;
  n0 ← at_ (src_shape args) kFracZN0;
  ni ← at_ (src_shape args) kFracZNi;
  c0 ← at_ (src_shape args) kFracZC0;
  h ← at_ (dst_shape args) kNchwH;
  w ← at_ (dst_shape args) kNchwW;
  c ← at_ (dst_shape args) kNchwC;
  n ← at_ (dst_shape args) kNchwN;
  let nc := ni * n0 in
  let ncc0 := nc * c0 in
  let wncc0 := w * ncc0 in
  let hwncc0 := h * wncc0 in
  let hw := h * w in
  let chw := c * hw in
  dst ← for_range 0 n (fun n_idx =>
    let n_head_addr := n_idx * chw in
    for_range 0 c (fun c_idx =>
      let c_head_addr := n_head_addr + c_idx * hw in
      for_range 0 h (fun h_idx =>
        let h_head_addr := c_head_addr + h_idx * w in
        for_range 0 w (fun w_idx dst =>
          let dst_idx := h_head_addr + w_idx in
          c1_idx ← quot_ c_idx c0;
          c0_idx ← rem_ c_idx c0;
          let nc_idx := n_idx in
          let src_idx :=
            c1_idx * hwncc0 + h_idx * wncc0 + w_idx * ncc0 + nc_idx * c0 + c0_idx in
          let src_offset := src_idx * size in
          let dst_offset := dst_idx * size in
          p ← guard_size total_size dst_offset;
          memcpy_chk dst (PtrAdd total_size dst_offset) p (data args) src_offset size)))) dst;
  Ok {| res_data := Some dst; res_length := total_size |}.

Definition TransFormat (args : TransArgs) (result : TransResult) : outcome TransResult :=
  _ ← CheckArgsForFracZToNchw args;
  let size := GetSizeByDataType (src_data_type args) in
  let total_size := GetItemNumByShape (dst_shape args) * size in
  if total_size <=? 0 then
    let src_size := GetItemNumByShape (src_shape args) in
    if (total_size =? 0) && (src_size =? 0)
    then Ok {| res_data := res_data result; res_length := total_size |}
    else Err ACL_ERROR_GE_SHAPE_INVALID
  else GetDstDataAfterTransForFracZToNchw args size total_size.

Definition TransShape (src_format : Z) (src_shape : list Z) (data_type dst_format : Z)
    : outcome (list Z) := Err ACL_ERROR_GE_FORMAT_INVALID.

Definition transfer : FormatTransfer :=
  {| FormatsUtils.TransFormat := TransFormat; FormatsUtils.TransShape := TransShape |}.
End model.
End FracZNchw.

(** ** format_transfer_fracz_nhwc.cc *)

Module FracZNhwc.
Section model.
Context `{GeTypes} `{SecureC}.

Definition CheckDataTypeSupportedForFracZToNhwc (data_type : Z) : bool :=
  0 <? GetSizeByDataType data_type.

Definition CheckArgsForFracZToNhwc (args : TransArgs) : outcome unit :=
  reject_if (negb (src_primary_format args =? FORMAT_FRACTAL_Z)
             || negb (dst_primary_format args =? FORMAT_NHWC)) ACL_ERROR_GE_FORMAT_INVALID $
  reject_if (negb (CheckDataTypeSupportedForFracZToNhwc (src_data_type args)))
            ACL_ERROR_GE_DATATYPE_INVALID $
  reject_if (negb (CheckShapeValid (src_shape args) kFracZDimsNum)) ACL_ERROR_GE_SHAPE_INVALID $
  reject_if (negb (CheckShapeValid (dst_shape args) kNhwcDimsNum)) ACL_ERROR_GE_SHAPE_INVALID $
  let c0 := GetC0Value (src_format args) in
  reject_if (c0 <? 0) ACL_ERROR_GE_DATATYPE_INVALID $
  dc ← at_ (dst_shape args) kNhwcC;
  dn ← at_ (dst_shape args) kNhwcN;
  let c1 := Ceil dc c0 in
  let n0 := Ceil dn kNiSize in
  dh ← at_ (dst_shape args) kNhwcH;
  dw ← at_ (dst_shape args) kNhwcW;
  s_hwc1 ← at_ (src_shape args) kFracZHWC1;
  s_c0 ← at_ (src_shape args) kFracZC0;
  s_ni ← at_ (src_shape args) kFracZNi;
  s_n0 ← at_ (src_shape args) kFracZN0;
  reject_if (negb (s_hwc1 =? swrap 64 (swrap 64 (dh * dw) * c1)) || (negb (s_c0 =? c0)
             || (negb (s_ni =? kNiSize) || negb (s_n0 =? n0)))) ACL_ERROR_GE_SHAPE_INVALID $
  Ok tt.

Definition GetDstDataAfterTransForFracZToNhwc (args : TransArgs) (size total_size : Z)
    : outcome TransResult :=
  dst ← new_bytes total_size;
  n0 ← at_ (src_shape args) kFracZN0;
  ni ← at_ (src_shape args) kFracZNi;
  c0 ← at_ (src_shape args) kFracZC0;
  h ← at_ (dst_shape args) kNhwcH;
  w ← at_ (dst_shape args) kNhwcW;
  c ← at_ (dst_shape args) kNhwcC;
  n ← at_ (dst_shape args) kNhwcN;
  let nc := ni * n0 in
  let ncc0 := nc * c0 in
  let wncc0 := w * ncc0 in
  let hwncc0 := h * wncc0 in
  let wc := w * c in
  let hwc := h * wc in
  dst ← for_range 0 n (fun n_idx =>
    let n_head_addr := n_idx * hwc in
    for_range 0 h (fun h_idx =>
      let h_head_addr := n_head_addr + h_idx * wc in
      for_range 0 w (fun w_idx =>
        let w_head_addr := h_head_addr + w_idx * c in
        for_range 0 c (fun c_idx dst =>
          let dst_idx := w_head_addr + c_idx in
          c1_idx ← quot_ c_idx c0;
          c0_idx ← rem_ c_idx c0;
          let nc_idx := n_idx in
          let src_idx :=
            c1_idx * hwncc0 + h_idx * wncc0 + w_idx * ncc0 + nc_idx * c0 + c0_idx in
          let src_offset := src_idx * size in
          let dst_offset := dst_idx * size in
          p ← guard_size total_size dst_offset;
          memcpy_chk dst (PtrAdd total_size dst_offset) p (data args) src_offset size)))) dst;
  Ok {| res_data := Some dst; res_length := total_size |}.

Definition TransFormat (args : TransArgs) (result : TransResult) : outcome TransResult :=
  _ ← CheckArgsForFracZToNhwc args;
  let size := GetSizeByDataType (src_data_type args) in
  let total_size := GetItemNumByShape (dst_shape args) * size in
  if total_size <=? 0 then
    let src_size := GetItemNumByShape (src_shape args) in
    if (total_size =? 0) && (src_size =? 0)
    then Ok {| res_data := res_data result; res_length := total_size |}
    else Err ACL_ERROR_GE_PARAM_INVALID
  else GetDstDataAfterTransForFracZToNhwc args size total_size.

Definition TransShape (src_format : Z) (src_shape : list Z) (data_type dst_format : Z)
    : outcome (list Z) := Err ACL_ERROR_GE_FORMAT_INVALID.

Definition transfer : FormatTransfer :=
  {| FormatsUtils.TransFormat := TransFormat; FormatsUtils.TransShape := TransShape |}.
End model.
End FracZNhwc.

(** ** format_transfer_fracz_hwcn.cc *)

Module FracZHwcn.
Section model.
Context `{GeTypes} `{SecureC}.

Definition CheckDataTypeSupportedForFracZToHwcn (data_type : Z) : bool :=
  0 <? GetSizeByDataType data_type.

Definition CheckArgsForFracZToHwcn (args : TransArgs) : outcome unit :=
  reject_if (negb (src_primary_format args =? FORMAT_FRACTAL_Z)
             || negb (dst_primary_format args =? FORMAT_HWCN)) ACL_ERROR_GE_FORMAT_INVALID $
  reject_if (negb (CheckDataTypeSupportedForFracZToHwcn (src_data_type args)))
            ACL_ERROR_GE_DATATYPE_INVALID $
  reject_if (negb (CheckShapeValid (src_shape args) kFracZDimsNum)) ACL_ERROR_GE_SHAPE_INVALID $
  reject_if (negb (CheckShapeValid (dst_shape args) kHwcnDimsNum)) ACL_ERROR_GE_SHAPE_INVALID $
  let c0 := GetC0Value (src_format args) in
  reject_if (c0 <? 0) ACL_ERROR_GE_DATATYPE_INVALID $
  dc ← at_ (dst_shape args) kHwcnC;
  dn ← at_ (dst_shape args) kHwcnN;
  let c1 := Ceil dc c0 in
  let n0 := Ceil dn kNiSize in
  dh ← at_ (dst_shape args) kHwcnH;
  dw ← at_ (dst_shape args) kHwcnW;
  s_hwc1 ← at_ (src_shape args) kFracZHWC1;
  s_c0 ← at_ (src_shape args) kFracZC0;
  s_ni ← at_ (src_shape args) kFracZNi;
  s_n0 ← at_ (src_shape args) kFracZN0;
  reject_if (negb (s_hwc1 =? swrap 64 (swrap 64 (dh * dw) * c1)) || (negb (s_c0 =? c0)
             || (negb (s_ni =? kNiSize) || negb (s_n0 =? n0)))) ACL_ERROR_GE_SHAPE_INVALID $
  Ok tt.

Definition GetDstDataAfterTransForFracZToHwcn (args : TransArgs) (size total_size : Z)
    : outcome TransResult :=
  dst ← new_bytes total_size;
  n0 ← at_ (src_shape args) kFracZN0;
  ni ← at_ (src_shape args) kFracZNi;
  c0 ← at_ (src_shape args) kFracZC0;
  h ← at_ (dst_shape args) kHwcnH;
  w ← at_ (dst_shape args) kHwcnW;
  c ← at_ (dst_shape args) kHwcnC;
  n ← at_ (dst_shape args) kHwcnN;
  let nc := ni * n0 in
  let ncc0 := nc * c0 in
  let wncc0 := w * ncc0 in
  let hwncc0 := h * wncc0 in
  let cn := c * n in
  let wcn := w * cn in
  dst ← for_range 0 h (fun h_idx =>
    let h_head_addr := h_idx * wcn in
    for_range 0 w (fun w_idx =>
      let w_head_addr := h_head_addr + w_idx * cn in
      for_range 0 c (fun c_idx =>
        let c_head_addr := w_head_addr + c_idx * n in
        for_range 0 n (fun n_idx dst =>
          let dst_idx := c_head_addr + n_idx in
          c1_idx ← quot_ c_idx c0;
          c0_idx ← rem_ c_idx c0;
          let nc_idx := n_idx in
          let src_idx :=
            c1_idx * hwncc0 + h_idx * wncc0 + w_idx * ncc0 + nc_idx * c0 + c0_idx in
          let src_offset := src_idx * size in
          let dst_offset := dst_idx * size in
          p ← guard_size total_size dst_offset;
          memcpy_chk dst (PtrAdd total_size dst_offset) p (data args) src_offset size)))) dst;
  Ok {| res_data := Some dst; res_length := total_size |}.

Definition TransFormat (args : TransArgs) (result : TransResult) : outcome TransResult :=
  _ ← CheckArgsForFracZToHwcn args;
  let size := GetSizeByDataType (src_data_type args) in
  let total_size := GetItemNumByShape (dst_shape args) * size in
  if total_size <=? 0 then
    let src_size := GetItemNumByShape (src_shape args) in
    if (total_size =? 0) && (src_size =? 0)
    then Ok {| res_data := res_data result; res_length := total_size |}
    else Err ACL_ERROR_GE_SHAPE_INVALID
  else GetDstDataAfterTransForFracZToHwcn args size total_size.

Definition TransShape (src_format : Z) (src_shape : list Z) (data_type dst_format : Z)
    : outcome (list Z) := Err ACL_ERROR_GE_FORMAT_INVALID.

Definition transfer : FormatTransfer :=
  {| FormatsUtils.TransFormat := TransFormat; FormatsUtils.TransShape := TransShape |}.
End model.
End FracZHwcn.

(** ** The layout *)

(** The FRACTAL_Z position of weight [(ni, ci, hi, wi)], [nn] being [Ni*No]. *)
Definition fz_at (h w nn c0 ni ci hi wi : Z) : Z := idx5 h w nn c0 (ci / c0) hi wi ni (ci mod c0).

Lemma fz_at_bound n c h w c0 ni ci hi wi :
  0 < c0 -> 0 <= ni < n -> 0 <= ci < c -> 0 <= hi < h -> 0 <= wi < w ->
  0 <= fz_at h w (kNiSize * Ceil n kNiSize) c0 ni ci hi wi
    < Ceil c c0 * h * w * (kNiSize * Ceil n kNiSize) * c0.
Proof.
  intros. pose proof (Ceil_bounds n kNiSize ltac:(lia) ltac:(done)).
  apply idx5_bound; auto; [by apply Ceil_div_lt|lia|by apply Z.mod_pos_bound].
Qed.

Section fracz_to_nchw.
Context `{GeTypesLaws} `{SecureCLaws}.
Import FracZNchw.

Lemma fracz_nchw_check_inv args :
  CheckArgsForFracZToNchw args = Ok tt ->
  let c0 := GetC0Value (src_format args) in
  0 < GetSizeByDataType (src_data_type args) /\ 0 <= c0 /\
  exists n c h w,
    src_shape args = [swrap 64 (swrap 64 (h * w) * Ceil c c0); Ceil n kNiSize; kNiSize; c0] /\
    dst_shape args = [n; c; h; w] /\
    (0 <= n /\ 0 <= c /\ 0 <= h /\ 0 <= w) /\
    GetItemNumByShape (dst_shape args) = n * c * h * w /\
    n * c * h * w <= kShapeItemNumMAX.
Proof.
  intros Hc. unfold CheckArgsForFracZToNchw, CheckDataTypeSupportedForFracZToNchw in Hc.
  cbv zeta in *. inv_outcome. set (c0 := GetC0Value (src_format args)) in *.
  match goal with Hs : CheckShapeValid (src_shape args) _ = true |- _ =>
    apply check4_inv in Hs as (? & ? & ? & ? & E & ? & ? & ? & ? & _ & _) end.
  match goal with Hs : CheckShapeValid (dst_shape args) _ = true |- _ =>
    apply check4_inv in Hs as (n & c & h & w & E' & ? & ? & ? & ? & Hi' & ?) end.
  rewrite E, E' in *.
  repeat match goal with Ha : at_ _ _ = Ok _ |- _ => injection Ha as <- end. subst.
  split; [by apply Z.ltb_lt|]. split; [done|]. exists n, c, h, w. split_and!; try done; lia.
Qed.

Lemma fracz_nchw_delivers args r n c h w d :
  let c0 := GetC0Value (src_format args) in
  let size := GetSizeByDataType (src_data_type args) in
  let nn := kNiSize * Ceil n kNiSize in
  let N := n * c * h * w in
  CheckArgsForFracZToNchw args = Ok tt -> dst_shape args = [n; c; h; w] -> 0 < N -> 0 < c0 ->
  data args = Some d -> Ceil c c0 * h * w * nn * c0 * size <= zlen d ->
  can_alloc (N * size) = true ->
  wp (TransFormat args r)
     (delivers N size (at4 c h w (fun ni ci hi wi => elem d size (fz_at h w nn c0 ni ci hi wi)))).
Proof.
  intros c0 size nn N Hck Et Hpos Hc0 Ed Hd Hal.
  destruct (fracz_nchw_check_inv _ Hck) as (Hsz & _ & n' & c' & h' & w' & Es & Et' & Hr & Ei & _).
  rewrite Et in Et'. injection Et' as <- <- <- <-. fold c0 in Es. fold size in Hsz.
  assert (0 < n /\ 0 < c /\ 0 < h /\ 0 < w) as (Hn & Hc & Hh & Hw) by (unfold N in *; nia).
  assert (Hm := type_size_bound (src_data_type args)).
  unfold TransFormat. rewrite Hck. simpl. rewrite Ei. fold size N.
  rewrite (proj2 (Z.leb_gt _ _)) by nia.
  unfold GetDstDataAfterTransForFracZToNchw. rewrite Es, Et, Ed.
  eapply wp_new_bytes; [done|lia|done|]. intros b0 Ha0. wp_dims. cbv zeta. fold nn.
  apply wp_bind. eapply wp_mono.
  - wp_loop Ha0 ni Hni W1 b1 Ha1. wp_loop Ha1 ci Hci W2 b2 Ha2. wp_loop Ha2 hi Hhi W3 b3 Ha3.
    wp_loop Ha3 wi Hwi W4 b4 Ha4.
    rewrite quot_nonneg, rem_nonneg by lia. wp_dims. cbv zeta.
    assert (HD := idx4_bound n c h w ni ci hi wi Hni Hci Hhi Hwi). fold N in HD.
    replace (ni * _ + ci * _ + hi * w + wi) with (idx4 c h w ni ci hi wi)
      by (unfold idx4, pos; ring).
    assert (HS := fz_at_bound n c h w c0 ni ci hi wi Hc0 Hni Hci Hhi Hwi). fold nn in HS.
    replace (ci / c0 * _ + _ + _ + _ + _) with (fz_at h w nn c0 ni ci hi wi)
      by (unfold fz_at, idx5, idx4, pos; ring).
    eapply wp_guard; [exact Hsz|exact HD|done|]. intros p Hp.
    eapply wp_memcpy_elem; eauto; [by apply PtrAdd_elem|lia|nia|].
    by rewrite at4_idx.
  - intros out Ha. eapply agree_delivers; [exact Hsz|exact Ha|]. intros e He.
    destruct (idx4_surj n c h w e) as (ni & ci & hi & wi & (?&?&?&?) & ->);
      [done..|]. in_loops. unfold idx4, pos; ring.
Qed.
End fracz_to_nchw.

Section fracz_to_nhwc.
Context `{GeTypesLaws} `{SecureCLaws}.
Import FracZNhwc.

Lemma fracz_nhwc_check_inv args :
  CheckArgsForFracZToNhwc args = Ok tt ->
  let c0 := GetC0Value (src_format args) in
  0 < GetSizeByDataType (src_data_type args) /\ 0 <= c0 /\
  exists n c h w,
    src_shape args = [swrap 64 (swrap 64 (h * w) * Ceil c c0); Ceil n kNiSize; kNiSize; c0] /\
    dst_shape args = [n; h; w; c] /\
    (0 <= n /\ 0 <= c /\ 0 <= h /\ 0 <= w) /\
    GetItemNumByShape (dst_shape args) = n * h * w * c /\
    n * h * w * c <= kShapeItemNumMAX.
Proof.
  intros Hc. unfold CheckArgsForFracZToNhwc, CheckDataTypeSupportedForFracZToNhwc in Hc.
  cbv zeta in *. inv_outcome. set (c0 := GetC0Value (src_format args)) in *.
  match goal with Hs : CheckShapeValid (src_shape args) _ = true |- _ =>
    apply check4_inv in Hs as (? & ? & ? & ? & E & ? & ? & ? & ? & _ & _) end.
  match goal with Hs : CheckShapeValid (dst_shape args) _ = true |- _ =>
    apply check4_inv in Hs as (n & h & w & c & E' & ? & ? & ? & ? & Hi' & ?) end.
  rewrite E, E' in *.
  repeat match goal with Ha : at_ _ _ = Ok _ |- _ => injection Ha as <- end. subst.
  split; [by apply Z.ltb_lt|]. split; [done|]. exists n, c, h, w. split_and!; try done; lia.
Qed.

Lemma fracz_nhwc_delivers args r n c h w d :
  let c0 := GetC0Value (src_format args) in
  let size := GetSizeByDataType (src_data_type args) in
  let nn := kNiSize * Ceil n kNiSize in
  let N := n * h * w * c in
  CheckArgsForFracZToNhwc args = Ok tt -> dst_shape args = [n; h; w; c] -> 0 < N -> 0 < c0 ->
  data args = Some d -> Ceil c c0 * h * w * nn * c0 * size <= zlen d ->
  can_alloc (N * size) = true ->
  wp (TransFormat args r)
     (delivers N size (at4 h w c (fun ni hi wi ci => elem d size (fz_at h w nn c0 ni ci hi wi)))).
Proof.
  intros c0 size nn N Hck Et Hpos Hc0 Ed Hd Hal.
  destruct (fracz_nhwc_check_inv _ Hck) as (Hsz & _ & n' & c' & h' & w' & Es & Et' & Hr & Ei & _).
  rewrite Et in Et'. injection Et' as <- <- <- <-. fold c0 in Es. fold size in Hsz.
  assert (0 < n /\ 0 < c /\ 0 < h /\ 0 < w) as (Hn & Hc & Hh & Hw) by (unfold N in *; nia).
  assert (Hm := type_size_bound (src_data_type args)).
  unfold TransFormat. rewrite Hck. simpl. rewrite Ei. fold size N.
  rewrite (proj2 (Z.leb_gt _ _)) by nia.
  unfold GetDstDataAfterTransForFracZToNhwc. rewrite Es, Et, Ed.
  eapply wp_new_bytes; [done|lia|done|]. intros b0 Ha0. wp_dims. cbv zeta. fold nn.
  apply wp_bind. eapply wp_mono.
  - wp_loop Ha0 ni Hni W1 b1 Ha1. wp_loop Ha1 hi Hhi W2 b2 Ha2. wp_loop Ha2 wi Hwi W3 b3 Ha3.
    wp_loop Ha3 ci Hci W4 b4 Ha4.
    rewrite quot_nonneg, rem_nonneg by lia. wp_dims. cbv zeta.
    assert (HD := idx4_bound n h w c ni hi wi ci Hni Hhi Hwi Hci). fold N in HD.
    replace (ni * _ + hi * _ + wi * c + ci) with (idx4 h w c ni hi wi ci)
      by (unfold idx4, pos; ring).
    assert (HS := fz_at_bound n c h w c0 ni ci hi wi Hc0 Hni Hci Hhi Hwi). fold nn in HS.
    replace (ci / c0 * _ + _ + _ + _ + _) with (fz_at h w nn c0 ni ci hi wi)
      by (unfold fz_at, idx5, idx4, pos; ring).
    eapply wp_guard; [exact Hsz|exact HD|done|]. intros p Hp.
    eapply wp_memcpy_elem; eauto; [by apply PtrAdd_elem|lia|nia|].
    by rewrite at4_idx.
  - intros out Ha. eapply agree_delivers; [exact Hsz|exact Ha|]. intros e He.
    destruct (idx4_surj n h w c e) as (ni & hi & wi & ci & (?&?&?&?) & ->);
      [done..|]. in_loops. unfold idx4, pos; ring.
Qed.
End fracz_to_nhwc.

Section fracz_to_hwcn.
Context `{GeTypesLaws} `{SecureCLaws}.
Import FracZHwcn.

Lemma fracz_hwcn_check_inv args :
  CheckArgsForFracZToHwcn args = Ok tt ->
  let c0 := GetC0Value (src_format args) in
  0 < GetSizeByDataType (src_data_type args) /\ 0 <= c0 /\
  exists n c h w,
    src_shape args = [swrap 64 (swrap 64 (h * w) * Ceil c c0); Ceil n kNiSize; kNiSize; c0] /\
    dst_shape args = [h; w; c; n] /\
    (0 <= n /\ 0 <= c /\ 0 <= h /\ 0 <= w) /\
    GetItemNumByShape (dst_shape args) = h * w * c * n /\
    h * w * c * n <= kShapeItemNumMAX.
Proof.
  intros Hc. unfold CheckArgsForFracZToHwcn, CheckDataTypeSupportedForFracZToHwcn in Hc.
  cbv zeta in *. inv_outcome. set (c0 := GetC0Value (src_format args)) in *.
  match goal with Hs : CheckShapeValid (src_shape args) _ = true |- _ =>
    apply check4_inv in Hs as (? & ? & ? & ? & E & ? & ? & ? & ? & _ & _) end.
  match goal with Hs : CheckShapeValid (dst_shape args) _ = true |- _ =>
    apply check4_inv in Hs as (h & w & c & n & E' & ? & ? & ? & ? & Hi' & ?) end.
  rewrite E, E' in *.
  repeat match goal with Ha : at_ _ _ = Ok _ |- _ => injection Ha as <- end. subst.
  split; [by apply Z.ltb_lt|]. split; [done|]. exists n, c, h, w. split_and!; try done; lia.
Qed.

Lemma fracz_hwcn_delivers args r n c h w d :
  let c0 := GetC0Value (src_format args) in
  let size := GetSizeByDataType (src_data_type args) in
  let nn := kNiSize * Ceil n kNiSize in
  let N := h * w * c * n in
  CheckArgsForFracZToHwcn args = Ok tt -> dst_shape args = [h; w; c; n] -> 0 < N -> 0 < c0 ->
  data args = Some d -> Ceil c c0 * h * w * nn * c0 * size <= zlen d ->
  can_alloc (N * size) = true ->
  wp (TransFormat args r)
     (delivers N size (at4 w c n (fun hi wi ci ni => elem d size (fz_at h w nn c0 ni ci hi wi)))).
Proof.
  intros c0 size nn N Hck Et Hpos Hc0 Ed Hd Hal.
  destruct (fracz_hwcn_check_inv _ Hck) as (Hsz & _ & n' & c' & h' & w' & Es & Et' & Hr & Ei & _).
  rewrite Et in Et'. injection Et' as <- <- <- <-. fold c0 in Es. fold size in Hsz.
  assert (0 < n /\ 0 < c /\ 0 < h /\ 0 < w) as (Hn & Hc & Hh & Hw) by (unfold N in *; nia).
  assert (Hm := type_size_bound (src_data_type args)).
  unfold TransFormat. rewrite Hck. simpl. rewrite Ei. fold size N.
  rewrite (proj2 (Z.leb_gt _ _)) by nia.
  unfold GetDstDataAfterTransForFracZToHwcn. rewrite Es, Et, Ed.
  eapply wp_new_bytes; [done|lia|done|]. intros b0 Ha0. wp_dims. cbv zeta. fold nn.
  apply wp_bind. eapply wp_mono.
  - wp_loop Ha0 hi Hhi W1 b1 Ha1. wp_loop Ha1 wi Hwi W2 b2 Ha2. wp_loop Ha2 ci Hci W3 b3 Ha3.
    wp_loop Ha3 ni Hni W4 b4 Ha4.
    rewrite quot_nonneg, rem_nonneg by lia. wp_dims. cbv zeta.
    assert (HD := idx4_bound h w c n hi wi ci ni Hhi Hwi Hci Hni). fold N in HD.
    replace (hi * _ + wi * _ + ci * n + ni) with (idx4 w c n hi wi ci ni)
      by (unfold idx4, pos; ring).
    assert (HS := fz_at_bound n c h w c0 ni ci hi wi Hc0 Hni Hci Hhi Hwi). fold nn in HS.
    replace (ci / c0 * _ + _ + _ + _ + _) with (fz_at h w nn c0 ni ci hi wi)
      by (unfold fz_at, idx5, idx4, pos; ring).
    eapply wp_guard; [exact Hsz|exact HD|done|]. intros p Hp.
    eapply wp_memcpy_elem; eauto; [by apply PtrAdd_elem|lia|nia|].
    by rewrite at4_idx.
  - intros out Ha. eapply agree_delivers; [exact Hsz|exact Ha|]. intros e He.
    destruct (idx4_surj h w c n e) as (hi & wi & ci & ni & (?&?&?&?) & ->);
      [done..|]. in_loops. unfold idx4, pos; ring.
Qed.
End fracz_to_hwcn.
