(* ===== verification/FormatsFractalZ.v ===== *)
(** * FormatsFractalZ: NCHW, HWCN and NHWC to FRACTAL_Z

    [format_transfer_fractal_z.cc]: the convolution weights laid out as
    [(C1*H*W, No, Ni, C0)], the grouped variant whose groups share a cube, and
    the round trips with the readers of [FormatsFracZ]. *)

From S2P Require Import Prelude Env FormatsUtils Transfer FormatsFracZ.

Module FractalZ.
Section model.
Context `{GeTypes} `{SecureC}.

Definition kDim : Z := 1.

Definition CheckDataTypeSupportForTransferFractalZ (data_type : Z) : Status :=
  if 0 <? GetSizeByDataType data_type then SUCCESS else UNSUPPORTED.

Definition TransShapeToFz (n c h w c0 : Z) : outcome (list Z) :=
  reject_if (c0 <? 0) ACL_ERROR_GE_DATATYPE_INVALID $
  let c1 := Ceil c c0 in
  let no := Ceil n kNiSize in
  let dst_shape := [swrap 64 (swrap 64 (h * w) * c1); no; kNiSize; c0] in
  reject_if (negb (IsShapeValid dst_shape)) ACL_ERROR_GE_SHAPE_INVALID $
  Ok dst_shape.

(** [std::min(Lcm(Lcm(cin_ori, cube_k) / cin_ori, Lcm(cout_ori, kCubeSize) / cout_ori), groups)] *)
Definition e_mult_of (cin_ori cout_ori cube_k groups : Z) : outcome Z :=
  l1 ← Lcm cin_ori cube_k;
  q1 ← quot_ l1 cin_ori;
  l2 ← Lcm cout_ori kCubeSize;
  q2 ← quot_ l2 cout_ori;
  l ← Lcm q1 q2;
  Ok (Z.min l groups).

Definition TransShapeToFzWithGroups (n c h w c0 groups : Z) : outcome (list Z) :=
  reject_if (c0 <? 0) ACL_ERROR_GE_DATATYPE_INVALID $
  let cin_ori := c in
  cout_ori ← quot_ n groups;
  let cube_k := c0 in
  reject_if (cout_ori =? 0) FAILED $
  e_mult ← e_mult_of cin_ori cout_ori cube_k groups;
  let cin_opt := Ceil (swrap 64 (e_mult * cin_ori)) cube_k * cube_k in
  c1_dim ← quot_ cin_opt cube_k;
  let g_dim := Ceil groups e_mult in
  let n1 := Ceil (swrap 64 (cout_ori * e_mult)) kCubeSize in
  let dst_shape := [swrap 64 (swrap 64 (swrap 64 (g_dim * c1_dim) * h) * w); n1; 16; cube_k] in
  reject_if (negb (IsShapeValid dst_shape)) ACL_ERROR_GE_SHAPE_INVALID $
  Ok dst_shape.

Definition TransShapeNchwToFz (src_shape : list Z) (dst_format : Z) : outcome (list Z) :=
  reject_if (negb (CheckShapeValid src_shape kNchwDimsNum)) ACL_ERROR_GE_SHAPE_INVALID $
  n ← at_ src_shape kNchwN;
  c ← at_ src_shape kNchwC;
  h ← at_ src_shape kNchwH;
  w ← at_ src_shape kNchwW;
  TransShapeToFz n c h w (GetC0Value dst_format).

Definition TransShapeHwcnToFz (src_shape : list Z) (dst_format : Z) : outcome (list Z) :=
  reject_if (negb (CheckShapeValid src_shape kHwcnDimsNum)) ACL_ERROR_GE_SHAPE_INVALID $
  h ← at_ src_shape kHwcnH;
  w ← at_ src_shape kHwcnW;
  c ← at_ src_shape kHwcnC;
  n ← at_ src_shape kHwcnN;
  TransShapeToFz n c h w (GetC0Value dst_format).

Definition TransShapeHwcnToFzWithGroups (src_shape : list Z) (dst_format groups : Z)
    : outcome (list Z) :=
  reject_if (negb (CheckShapeValid src_shape kHwcnDimsNum)) ACL_ERROR_GE_SHAPE_INVALID $
  h ← at_ src_shape kHwcnH;
  w ← at_ src_shape kHwcnW;
  c ← at_ src_shape kHwcnC;
  n ← at_ src_shape kHwcnN;
  TransShapeToFzWithGroups n c h w (GetC0Value dst_format) groups.

Definition TransShapeNchwToFzWithGroups (src_shape : list Z) (dst_format groups : Z)
    : outcome (list Z) :=
  reject_if (negb (CheckShapeValid src_shape kNchwDimsNum)) ACL_ERROR_GE_SHAPE_INVALID $
  n ← at_ src_shape kNchwN;
  c ← at_ src_shape kNchwC;
  h ← at_ src_shape kNchwH;
  w ← at_ src_shape kNchwW;
  TransShapeToFzWithGroups n c h w (GetC0Value dst_format) groups.

Definition TransShapeNhwcToFz (src_shape : list Z) (dst_format : Z) : outcome (list Z) :=
  reject_if (negb (CheckShapeValid src_shape kNhwcDimsNum)) ACL_ERROR_GE_SHAPE_INVALID $
  n ← at_ src_shape kNhwcN;
  h ← at_ src_shape kNhwcH;
  w ← at_ src_shape kNhwcW;
  c ← at_ src_shape kNhwcC;
  TransShapeToFz n c h w (GetC0Value dst_format).

Definition TransFormatFromNchwToFz (args : TransArgs) (result : TransResult)
    : outcome TransResult :=
  n ← at_ (src_shape args) kNchwN;
  c ← at_ (src_shape args) kNchwC;
  h ← at_ (src_shape args) kNchwH;
  w ← at_ (src_shape args) kNchwW;
  let c0 := GetC0Value (dst_format args) in
  let c1 := Ceil c c0 in
  let hw := h * w in
  let chw := c * hw in
  let nchw := n * chw in
  let hwc0 := hw * c0 in
  let hf_cnt := Ceil n kNiSize in
  let vf_cnt := c1 * hw in
  let fractal_ele_cnt := c0 * kNiSize in
  let total_ele_cnt := hf_cnt * vf_cnt * fractal_ele_cnt in
  let size := GetSizeByDataType (src_data_type args) in
  let dst_size := total_ele_cnt * size in
  if dst_size =? 0 then Ok {| res_data := res_data result; res_length := dst_size |} else
  dst ← new_bytes dst_size;
  dst ← for_range 0 vf_cnt (fun vfi =>
    let vf_base_i := vfi * hf_cnt in
    for_range 0 hf_cnt (fun hfi dst =>
      let gfi := vf_base_i + hfi in
      let src_n_offset := hfi * chw * kNiSize in
      vfi_mod ← rem_ vfi hw;
      vfi_div ← quot_ vfi hw;
      let src_f_offset := src_n_offset + vfi_mod + vfi_div * hwc0 in
      for_range 0 c0 (fun row =>
        let src_ci := vfi_div * c0 + row in
        let src_row_offset := src_f_offset + row * hw in
        for_range 0 kNiSize (fun col dst =>
          let src_ni := hfi * kNiSize + col in
          let src_offset := src_row_offset + chw * col in
          let need_pad_zero := (n <=? src_ni) || (nchw <=? src_offset) || (c <=? src_ci) in
          let idx := gfi * fractal_ele_cnt + col * c0 + row in
          let offset := idx * size in
          p ← guard_size dst_size offset;
          if need_pad_zero then memset_chk dst (Some offset) p size
          else
            reject_if (p <? size) ACL_ERROR_GE_PARAM_INVALID $
            copy_bytes dst offset (data args) (src_offset * size) size)) dst)) dst;
  Ok {| res_data := Some dst; res_length := dst_size |}.

Definition TransFormatHwcnToFzWithGroups (args : TransArgs) (result : TransResult) (groups : Z)
    : outcome TransResult :=
  h_dim ← at_ (src_shape args) kHwcnH;
  w_dim ← at_ (src_shape args) kHwcnW;
  c_dim ← at_ (src_shape args) kHwcnC;
  n_dim ← at_ (src_shape args) kHwcnN;
  let cin_ori := c_dim in
  cout_ori ← quot_ n_dim groups;
  reject_if ((cin_ori =? 0) || (cout_ori =? 0)) GRAPH_FAILED $
  let cube_k := GetC0Value (dst_format args) in
  e_mult ← e_mult_of cin_ori cout_ori cube_k groups;
  let cin_opt := Ceil (e_mult * cin_ori) cube_k * cube_k in
  let cout_opt := Ceil (e_mult * cout_ori) kCubeSize * kCubeSize in
  c1_dim ← quot_ cin_opt cube_k;
  let g_dim := Ceil groups e_mult in
  dim_cin ← quot_ cin_opt cube_k;
  let data_size := GetSizeByDataType (src_data_type args) in
  let size_output_data :=
    g_dim * kDim * dim_cin * h_dim * w_dim * cout_opt * cube_k * data_size in
  if size_output_data =? 0
  then Ok {| res_data := res_data result; res_length := size_output_data |} else
  dst ← new_bytes size_output_data;
  dst ← memset_chk dst (Some 0) size_output_data size_output_data;
  dst ← for_range 0 groups (fun g =>
    for_range 0 kDim (fun d =>
      for_range 0 c_dim (fun c =>
        for_range 0 h_dim (fun h =>
          for_range 0 w_dim (fun w =>
            for_range 0 cout_ori (fun n dst =>
              e_val ← rem_ g e_mult;
              let dst_ci := e_val * cin_ori + c in
              let dst_co := e_val * cout_ori + n in
              let src_co := g * cout_ori + n in
              tempory ← rem_ dst_ci cube_k;
              g_div ← quot_ g e_mult;
              ci_div ← quot_ dst_ci cube_k;
              let dst_inx := g_div * kDim * c1_dim * h_dim * w_dim * cout_opt * cube_k
                             + d * c1_dim * h_dim * w_dim * cout_opt * cube_k
                             + ci_div * h_dim * w_dim * cout_opt * cube_k
                             + h * w_dim * cout_opt * cube_k + w * cout_opt * cube_k
                             + dst_co * cube_k + tempory in
              let srx_inx := d * h_dim * w_dim * c_dim * n_dim + h * w_dim * c_dim * n_dim
                             + w * c_dim * n_dim + c * n_dim + src_co in
              copy_bytes dst (dst_inx * data_size) (data args)
                         (srx_inx * data_size) data_size)))))) dst;
  Ok {| res_data := Some dst; res_length := size_output_data |}.

Definition TransFormatHwcnToFz (args : TransArgs) (result : TransResult)
    : outcome TransResult :=
  h ← at_ (src_shape args) kHwcnH;
  w ← at_ (src_shape args) kHwcnW;
  c ← at_ (src_shape args) kHwcnC;
  n ← at_ (src_shape args) kHwcnN;
  let n1n0 := Ceil n kNiSize * kNiSize in
  let c0 := GetC0Value (dst_format args) in
  let c1 := Ceil c c0 in
  let cn := c * n in
  let wcn := w * cn in
  let n1n0c0 := n1n0 * c0 in
  let wn1n0c0 := w * n1n0c0 in
  let hwn1n0c0 := h * wn1n0c0 in
  let data_size := GetSizeByDataType (src_data_type args) in
  let dst_size := GetItemNumByShape (dst_shape args) * data_size in
  if dst_size =? 0 then Ok {| res_data := res_data result; res_length := dst_size |} else
  dst ← new_bytes dst_size;
  dst ← for_range 0 c1 (fun c1i =>
    for_range 0 h (fun hi =>
      for_range 0 w (fun wi =>
        for_range 0 n1n0 (fun n1n0i =>
          for_range 0 c0 (fun c0i dst =>
            let dst_idx :=
              c1i * hwn1n0c0 + hi * wn1n0c0 + wi * n1n0c0 + n1n0i * c0 + c0i in
            let dst_offset := dst_idx * data_size in
            p ← guard_size dst_size dst_offset;
            let pad_zero := (c <=? c1i * c0 + c0i) || (n <=? n1n0i) in
            if pad_zero then memset_chk dst (Some dst_offset) p data_size
            else
              reject_if (p <? data_size) ACL_ERROR_GE_PARAM_INVALID $
              let src_idx := hi * wcn + wi * cn + (c1i * c0 + c0i) * n + n1n0i in
              copy_bytes dst dst_offset (data args) (src_idx * data_size) data_size))))) dst;
  Ok {| res_data := Some dst; res_length := dst_size |}.

Definition TransFormatNhwcToFz (args : TransArgs) (result : TransResult)
    : outcome TransResult :=
  n ← at_ (src_shape args) kNhwcN;
  h ← at_ (src_shape args) kNhwcH;
  w ← at_ (src_shape args) kNhwcW;
  c ← at_ (src_shape args) kNhwcC;
  let wc := w * c in
  let hwc := h * w * c in
  let n1n0 := Ceil n kNiSize * kNiSize in
  let c0 := GetC0Value (dst_format args) in
  let c1 := Ceil c c0 in
  let n1n0c0 := n1n0 * c0 in
  let wn1n0c0 := w * n1n0c0 in
  let hwn1n0c0 := h * wn1n0c0 in
  let data_size := GetSizeByDataType (src_data_type args) in
  let dst_size := GetItemNumByShape (dst_shape args) * data_size in
  if dst_size =? 0 then Ok {| res_data := res_data result; res_length := dst_size |} else
  dst ← new_bytes dst_size;
  dst ← for_range 0 c1 (fun c1i =>
    for_range 0 h (fun hi =>
      for_range 0 w (fun wi =>
        for_range 0 n1n0 (fun n1n0i =>
          for_range 0 c0 (fun c0i dst =>
            let dst_idx :=
              c1i * hwn1n0c0 + hi * wn1n0c0 + wi * n1n0c0 + n1n0i * c0 + c0i in
            let dst_offset := dst_idx * data_size in
            p ← guard_size dst_size dst_offset;
            let pad_zero := (c <=? c1i * c0 + c0i) || (n <=? n1n0i) in
            if pad_zero then memset_chk dst (Some dst_offset) p data_size
            else
              reject_if (p <? data_size) ACL_ERROR_GE_PARAM_INVALID $
              let src_idx := n1n0i * hwc + hi * wc + wi * c + (c1i * c0 + c0i) in
              copy_bytes dst dst_offset (data args) (src_idx * data_size) data_size))))) dst;
  Ok {| res_data := Some dst; res_length := dst_size |}.

Definition TransShape (src_format : Z) (src_shape : list Z) (data_type dst_format : Z)
    : outcome (list Z) :=
  let src_primary_format := GetPrimaryFormat src_format in
  let dst_primary_format := GetPrimaryFormat dst_format in
  reject_if (negb (bool_decide (CheckDataTypeSupportForTransferFractalZ data_type = SUCCESS)))
            ACL_ERROR_GE_DATATYPE_INVALID $
  if (src_primary_format =? FORMAT_NHWC) && (dst_primary_format =? FORMAT_FRACTAL_Z) then
    TransShapeNhwcToFz src_shape dst_format
  else if (src_primary_format =? FORMAT_HWCN) && (dst_primary_format =? FORMAT_FRACTAL_Z) then
    if 1 <? GetSubFormat dst_format
    then TransShapeHwcnToFzWithGroups src_shape dst_format (GetSubFormat dst_format)
    else TransShapeHwcnToFz src_shape dst_format
  else if (src_primary_format =? FORMAT_NCHW) && (dst_primary_format =? FORMAT_FRACTAL_Z) then
    if 1 <? GetSubFormat dst_format
    then TransShapeNchwToFzWithGroups src_shape dst_format (GetSubFormat dst_format)
    else TransShapeNchwToFz src_shape dst_format
  else Err ACL_ERROR_GE_FORMAT_INVALID.

Definition TransFormat (args : TransArgs) (result : TransResult) : outcome TransResult :=
  expect_shape ← TransShape (src_format args) (src_shape args) (src_data_type args)
                            (dst_format args);
  reject_if (negb (IsTransShapeDstCorrect args expect_shape)) ACL_ERROR_GE_SHAPE_INVALID $
  if (src_primary_format args =? FORMAT_NHWC) && (dst_primary_format args =? FORMAT_FRACTAL_Z)
  then TransFormatNhwcToFz args result
  else if (src_primary_format args =? FORMAT_HWCN)
          && (dst_primary_format args =? FORMAT_FRACTAL_Z) then
    if 1 <? dst_sub_format args
    then TransFormatHwcnToFzWithGroups args result (dst_sub_format args)
    else TransFormatHwcnToFz args result
  else if (src_primary_format args =? FORMAT_NCHW)
          && (dst_primary_format args =? FORMAT_FRACTAL_Z) then
    TransFormatFromNchwToFz args result
  else Err ACL_ERROR_GE_FORMAT_INVALID.

Definition transfer : FormatTransfer :=
  {| FormatsUtils.TransFormat := TransFormat; FormatsUtils.TransShape := TransShape |}.
End model.
End FractalZ.

(** ** Shapes *)

(** [Ni * No] rows of one cube column. *)
Definition rows (n : Z) : Z := kNiSize * Ceil n kNiSize.

Lemma rows_bounds n : 0 <= n -> n <= rows n < n + kNiSize.
Proof. intros. pose proof (Ceil_bounds n kNiSize). unfold rows, kNiSize in *. lia. Qed.

Lemma fz_shape n c h w c0 s :
  0 < n -> 0 < c -> 0 < h -> 0 < w -> 0 < c0 -> h * w * c <= kShapeItemNumMAX ->
  FractalZ.TransShapeToFz n c h w c0 = Ok s ->
  GetItemNumByShape s = Ceil c c0 * h * w * rows n * c0.
Proof.
  intros Hn Hc Hh Hw Hc0 Hb Ht. unfold FractalZ.TransShapeToFz in Ht. inv_outcome.
  match goal with Hv : IsShapeValid _ = true |- _ => apply valid_item_num in Hv as [-> _] end.
  pose proof (Ceil_bounds c c0 ltac:(lia) Hc0). unfold kShapeItemNumMAX in *.
  assert (Ceil c c0 <= c) by nia.
  rewrite (swrap64_small (h * w)) by nia.
  rewrite swrap64_small by nia. unfold rows, kNiSize, prodZ. ring.
Qed.

(** ** The layout *)

(** FRACTAL_Z of weights read through [src]: entry [(c1i, hi, wi, ni, c0i)]. *)
Definition fz_spec (n c c0 size : Z) (src : Z -> Z -> Z -> Z -> Z) (d : list Z)
    : Z -> Z -> Z -> Z -> Z -> list Z := fun c1i hi wi ni c0i =>
  if (c <=? c1i * c0 + c0i) || (n <=? ni) then zero_elem size
  else elem d size (src ni (c1i * c0 + c0i) hi wi).

Section fz.
Context `{GeTypesLaws} `{SecureCLaws}.
Import FractalZ.

(** The body of the writing loops: pad or copy one element. *)
Lemma wp_pad_or_copy N size spec W buf pad src s d :
  0 < size -> size <= max_type_size -> agree N size spec W buf -> 0 <= d < N ->
  (pad = true -> spec d = zero_elem size) ->
  (pad = false -> 0 <= s /\ (s + 1) * size <= zlen src /\ spec d = elem src size s) ->
  wp (p ← guard_size (N * size) (d * size);
      if pad then memset_chk buf (Some (d * size)) p size
      else reject_if (p <? size) ACL_ERROR_GE_PARAM_INVALID $
           copy_bytes buf (d * size) (Some src) (s * size) size)
     (agree N size spec (fun e => W e \/ e = d)).
Proof.
  intros Hsz Hm Ha Hd Hp Hc. eapply wp_guard; [exact Hsz|exact Hd|done|]. intros p Hpp.
  destruct pad.
  - eapply wp_memset_elem; eauto.
  - destruct Hc as (? & ? & ?); [done|]. apply wp_reject; [lia|]. eapply wp_copy_elem; eauto.
Qed.

Lemma hwcn_fz_data args r n c h w d :
  let c0 := GetC0Value (dst_format args) in
  let size := GetSizeByDataType (src_data_type args) in
  let N := Ceil c c0 * h * w * rows n * c0 in
  src_shape args = [h; w; c; n] -> GetItemNumByShape (dst_shape args) = N ->
  0 < n -> 0 < c -> 0 < h -> 0 < w -> 0 < c0 -> 0 < size ->
  data args = Some d -> h * w * c * n * size <= zlen d -> can_alloc (N * size) = true ->
  wp (TransFormatHwcnToFz args r)
     (delivers N size (at5 h w (rows n) c0
        (fz_spec n c c0 size (fun ni ci hi wi => idx4 w c n hi wi ci ni) d))).
Proof.
  intros c0 size N Es EN Hn Hc Hh Hw Hc0 Hsz Ed Hd Hal.
  assert (Hm := type_size_bound (src_data_type args)).
  assert (Hc1 := Ceil_pos c c0 Hc Hc0). assert (Hrows := rows_bounds n ltac:(lia)).
  unfold TransFormatHwcnToFz. rewrite Es, Ed, EN. wp_dims. cbv zeta. fold c0 size.
  replace (Ceil n kNiSize * kNiSize) with (rows n) by (unfold rows; ring).
  assert (HN : 0 < N) by (unfold N; do 4 (apply Z.mul_pos_pos; [|lia]); lia).
  rewrite (proj2 (Z.eqb_neq _ 0)) by nia.
  set (spec := at5 _ _ _ _ _).
  apply (wp_new_bytes N size spec); [done|lia|done|]. intros b0 Ha0.
  apply wp_bind. eapply wp_mono.
  - wp_loop Ha0 c1i Hc1i W1 b1 Ha1. wp_loop Ha1 hi Hhi W2 b2 Ha2. wp_loop Ha2 wi Hwi W3 b3 Ha3.
    wp_loop Ha3 ni Hni W4 b4 Ha4. wp_loop Ha4 c0i Hc0i W5 b5 Ha5.
    replace (c1i * (h * _) + _ + _ + _ + c0i) with (idx5 h w (rows n) c0 c1i hi wi ni c0i)
      by (unfold idx5, idx4, pos; ring).
    replace (hi * _ + wi * _ + _ + ni) with (idx4 w c n hi wi (c1i * c0 + c0i) ni)
      by (unfold idx4, pos; ring).
    eapply wp_pad_or_copy; [done|done|exact Ha5|by apply idx5_bound|..];
      intros Hp; unfold spec; rewrite at5_idx by done; unfold fz_spec; rewrite Hp; [done|].
    apply orb_false_iff in Hp as [?%Z.leb_gt ?%Z.leb_gt].
    assert (0 <= idx4 w c n hi wi (c1i * c0 + c0i) ni < h * w * c * n)
      by (apply idx4_bound; nia).
    split_and!; [lia|nia|done].
  - intros out Ha. eapply agree_delivers; [exact Hsz|exact Ha|]. intros e He.
    destruct (idx5_surj (Ceil c c0) h w (rows n) c0 e)
      as (c1i & hi & wi & ni & c0i & (?&?&?&?&?) & ->); [lia..|done|].
    in_loops. unfold idx5, idx4, pos; ring.
Qed.

Lemma nhwc_fz_data args r n c h w d :
  let c0 := GetC0Value (dst_format args) in
  let size := GetSizeByDataType (src_data_type args) in
  let N := Ceil c c0 * h * w * rows n * c0 in
  src_shape args = [n; h; w; c] -> GetItemNumByShape (dst_shape args) = N ->
  0 < n -> 0 < c -> 0 < h -> 0 < w -> 0 < c0 -> 0 < size ->
  data args = Some d -> n * h * w * c * size <= zlen d -> can_alloc (N * size) = true ->
  wp (TransFormatNhwcToFz args r)
     (delivers N size (at5 h w (rows n) c0
        (fz_spec n c c0 size (fun ni ci hi wi => idx4 h w c ni hi wi ci) d))).
Proof.
  intros c0 size N Es EN Hn Hc Hh Hw Hc0 Hsz Ed Hd Hal.
  assert (Hm := type_size_bound (src_data_type args)).
  assert (Hc1 := Ceil_pos c c0 Hc Hc0). assert (Hrows := rows_bounds n ltac:(lia)).
  unfold TransFormatNhwcToFz. rewrite Es, Ed, EN. wp_dims. cbv zeta. fold c0 size.
  replace (Ceil n kNiSize * kNiSize) with (rows n) by (unfold rows; ring).
  assert (HN : 0 < N) by (unfold N; do 4 (apply Z.mul_pos_pos; [|lia]); lia).
  rewrite (proj2 (Z.eqb_neq _ 0)) by nia.
  set (spec := at5 _ _ _ _ _).
  apply (wp_new_bytes N size spec); [done|lia|done|]. intros b0 Ha0.
  apply wp_bind. eapply wp_mono.
  - wp_loop Ha0 c1i Hc1i W1 b1 Ha1. wp_loop Ha1 hi Hhi W2 b2 Ha2. wp_loop Ha2 wi Hwi W3 b3 Ha3.
    wp_loop Ha3 ni Hni W4 b4 Ha4. wp_loop Ha4 c0i Hc0i W5 b5 Ha5.
    replace (c1i * (h * _) + _ + _ + _ + c0i) with (idx5 h w (rows n) c0 c1i hi wi ni c0i)
      by (unfold idx5, idx4, pos; ring).
    replace (ni * _ + hi * _ + _ + _) with (idx4 h w c ni hi wi (c1i * c0 + c0i))
      by (unfold idx4, pos; ring).
    eapply wp_pad_or_copy; [done|done|exact Ha5|by apply idx5_bound|..];
      intros Hp; unfold spec; rewrite at5_idx by done; unfold fz_spec; rewrite Hp; [done|].
    apply orb_false_iff in Hp as [?%Z.leb_gt ?%Z.leb_gt].
    assert (0 <= idx4 h w c ni hi wi (c1i * c0 + c0i) < n * h * w * c)
      by (apply idx4_bound; nia).
    split_and!; [lia|nia|done].
  - intros out Ha. eapply agree_delivers; [exact Hsz|exact Ha|]. intros e He.
    destruct (idx5_surj (Ceil c c0) h w (rows n) c0 e)
      as (c1i & hi & wi & ni & c0i & (?&?&?&?&?) & ->); [lia..|done|].
    in_loops. unfold idx5, idx4, pos; ring.
Qed.

(** The pad test of the NCHW loop has a redundant disjunct. *)
Lemma nchw_pad n c hw ci ni q :
  0 < hw -> 0 <= ci -> 0 <= ni -> 0 <= q < hw ->
  (n <=? ni) || (n * (c * hw) <=? ni * (c * hw) + ci * hw + q) || (c <=? ci)
  = (c <=? ci) || (n <=? ni).
Proof.
  intros. destruct (Z.leb_spec n ni), (Z.leb_spec c ci); simpl; try done.
  - by rewrite orb_true_r.
  - rewrite orb_false_r. apply Z.leb_gt.
    assert (ci * hw + q < c * hw) by nia.
    assert ((ni + 1) * (c * hw) <= n * (c * hw)) by (apply Z.mul_le_mono_nonneg_r; nia). lia.
Qed.

(** A position within a plane, split into row and column. *)
Lemma idx4_plane b h w i j q :
  0 < w -> idx4 b h w i j (q / w) (q mod w) = pos b i j * (h * w) + q.
Proof. intros. rewrite <- (pos_of_divmod w q) at 3 by done. unfold idx4, pos. ring. Qed.

Lemma idx5_plane h w r c0 v x y :
  0 < w -> 0 < h * w ->
  idx5 h w r c0 (v / (h * w)) (v mod (h * w) / w) (v mod (h * w) mod w) x y
  = pos c0 (pos r v x) y.
Proof.
  intros Hw Hhw. unfold idx5. do 2 f_equal.
  transitivity (pos r (pos (h * w) (v / (h * w)) (v mod (h * w))) x);
    [|by rewrite pos_of_divmod].
  rewrite <- (pos_of_divmod w (v mod (h * w))) at 3 by done. unfold idx4, pos. ring.
Qed.

Lemma nchw_fz_data args r n c h w d :
  let c0 := GetC0Value (dst_format args) in
  let size := GetSizeByDataType (src_data_type args) in
  let N := Ceil c c0 * h * w * rows n * c0 in
  src_shape args = [n; c; h; w] ->
  0 < n -> 0 < c -> 0 < h -> 0 < w -> 0 < c0 -> 0 < size ->
  data args = Some d -> n * c * h * w * size <= zlen d -> can_alloc (N * size) = true ->
  wp (TransFormatFromNchwToFz args r)
     (delivers N size (at5 h w (rows n) c0 (fz_spec n c c0 size (idx4 c h w) d))).
Proof.
  intros c0 size N Es Hn Hc Hh Hw Hc0 Hsz Ed Hd Hal.
  assert (Hm := type_size_bound (src_data_type args)).
  assert (Hc1 := Ceil_pos c c0 Hc Hc0). assert (Hrows := rows_bounds n ltac:(lia)).
  assert (Hno := Ceil_pos n kNiSize Hn ltac:(done)).
  unfold TransFormatFromNchwToFz. rewrite Es, Ed. wp_dims. cbv zeta. fold c0 size.
  replace (Ceil n kNiSize * (Ceil c c0 * (h * w)) * (c0 * kNiSize)) with N
    by (unfold N, rows; ring).
  assert (HN : 0 < N) by (unfold N; do 4 (apply Z.mul_pos_pos; [|lia]); lia).
  rewrite (proj2 (Z.eqb_neq _ 0)) by nia.
  set (spec := at5 _ _ _ _ _).
  apply (wp_new_bytes N size spec); [done|lia|done|]. intros b0 Ha0.
  apply wp_bind. eapply wp_mono.
  - wp_loop Ha0 vfi Hvfi W1 b1 Ha1. wp_loop Ha1 hfi Hhfi W2 b2 Ha2.
    assert (Hq := Z.mod_pos_bound vfi (h * w) ltac:(nia)).
    assert (Hv := div_range (Ceil c c0) (h * w) vfi ltac:(nia) Hvfi).
    assert (Evfi := Z.div_mod vfi (h * w) ltac:(nia)).
    rewrite quot_nonneg, rem_nonneg by nia.
    wp_dims. cbv zeta. wp_loop Ha2 row Hrow W3 b3 Ha3. wp_loop Ha3 col Hcol W4 b4 Ha4.
    set (c1i := vfi / (h * w)) in *. set (q := vfi mod (h * w)) in *.
    assert (Hhi := div_range h w q Hw Hq). assert (Hwi := Z.mod_pos_bound q w Hw).
    assert (Eq := Z.div_mod q w ltac:(lia)).
    assert (Hni := pos_bound (Ceil n kNiSize) kNiSize hfi col Hhfi Hcol).
    replace (hfi * (c * (h * w)) * kNiSize + q + c1i * (h * w * c0) + row * (h * w)
             + c * (h * w) * col)
      with ((hfi * kNiSize + col) * (c * (h * w)) + (c1i * c0 + row) * (h * w) + q) by ring.
    rewrite nchw_pad by (unfold pos in Hni; nia).
    replace ((hfi * kNiSize + col) * (c * (h * w)) + (c1i * c0 + row) * (h * w) + q)
      with (idx4 c h w (pos kNiSize hfi col) (c1i * c0 + row) (q / w) (q mod w))
      by (rewrite idx4_plane by done; unfold pos; ring).
    replace ((vfi * Ceil n kNiSize + hfi) * (c0 * kNiSize) + col * c0 + row)
      with (idx5 h w (rows n) c0 c1i (q / w) (q mod w) (pos kNiSize hfi col) row)
      by (unfold c1i, q; rewrite idx5_plane by nia; unfold pos, rows; ring).
    assert (0 <= pos kNiSize hfi col < rows n) by (unfold rows; lia).
    eapply wp_pad_or_copy; [done|done|exact Ha4|by apply idx5_bound|..];
      intros Hp; unfold spec; rewrite at5_idx by done; unfold fz_spec; fold (pos kNiSize hfi col) in Hp;
      rewrite Hp; [done|].
    apply orb_false_iff in Hp as [?%Z.leb_gt ?%Z.leb_gt].
    assert (0 <= idx4 c h w (pos kNiSize hfi col) (c1i * c0 + row) (q / w) (q mod w)
            < n * c * h * w) by (apply idx4_bound; nia).
    split_and!; [lia|nia|done].
  - intros out Ha. eapply agree_delivers; [exact Hsz|exact Ha|]. intros e He.
    replace N with (Ceil c c0 * (h * w) * Ceil n kNiSize * kNiSize * c0) in He
      by (unfold N, rows; ring).
    destruct (idx4_surj (Ceil c c0 * (h * w)) (Ceil n kNiSize) kNiSize c0 e)
      as (vfi & hfi & col & row & (?&?&?&?) & ->); [done..|].
    right. exists vfi. split; [done|]. exists hfi. split; [done|]. exists row. split; [done|].
    exists col. split; [done|].
    rewrite idx5_plane by nia. unfold idx4, pos, rows; ring.
Qed.
End fz.

(** ** The dispatch of [TransFormat] *)

Section dispatch.
Context `{GeTypesLaws} `{SecureCLaws}.
Import FractalZ.

(** What a successful [TransShape] says about a conversion to FRACTAL_Z. *)
Definition to_fz (args : TransArgs) (f : Z) : Prop :=
  consistent args /\ GetPrimaryFormat (src_format args) = f /\
  GetPrimaryFormat (dst_format args) = FORMAT_FRACTAL_Z /\
  TransShape (src_format args) (src_shape args) (src_data_type args) (dst_format args)
  = Ok (dst_shape args).

Lemma TransFormat_to_fz args r f :
  to_fz args f ->
  0 < GetSizeByDataType (src_data_type args) /\
  TransFormat args r
  = if f =? FORMAT_NHWC then TransFormatNhwcToFz args r
    else if f =? FORMAT_HWCN then
      if 1 <? GetSubFormat (dst_format args)
      then TransFormatHwcnToFzWithGroups args r (GetSubFormat (dst_format args))
      else TransFormatHwcnToFz args r
    else if f =? FORMAT_NCHW then TransFormatFromNchwToFz args r
    else Err ACL_ERROR_GE_FORMAT_INVALID.
Proof.
  intros ((E1 & E2 & E3 & E4) & Ef & Et & Hs). split.
  - unfold TransShape in Hs. inv_outcome.
    unfold CheckDataTypeSupportForTransferFractalZ in *.
    destruct (Z.ltb_spec 0 (GetSizeByDataType (src_data_type args))); [done|congruence].
  - unfold TransFormat. rewrite Hs. simpl. rewrite dst_correct. simpl.
    by rewrite E1, E2, E4, Ef, Et, Z.eqb_refl, !andb_true_r.
Qed.

Lemma fz_formats :
  FORMAT_HWCN <> FORMAT_NHWC /\ FORMAT_NCHW <> FORMAT_NHWC /\ FORMAT_NCHW <> FORMAT_HWCN.
Proof.
  split_and!; [apply (formats_neq 7 1)|apply (formats_neq 0 1)|apply (formats_neq 0 7)]; done.
Qed.

Lemma TransShape_to_fz args f :
  to_fz args f ->
  (f = FORMAT_NHWC -> TransShapeNhwcToFz (src_shape args) (dst_format args) = Ok (dst_shape args)) /\
  (GetSubFormat (dst_format args) <= 1 ->
   (f = FORMAT_HWCN -> TransShapeHwcnToFz (src_shape args) (dst_format args) = Ok (dst_shape args)) /\
   (f = FORMAT_NCHW -> TransShapeNchwToFz (src_shape args) (dst_format args) = Ok (dst_shape args))) /\
  (1 < GetSubFormat (dst_format args) -> f = FORMAT_HWCN ->
   TransShapeHwcnToFzWithGroups (src_shape args) (dst_format args) (GetSubFormat (dst_format args))
   = Ok (dst_shape args)).
Proof.
  intros (_ & Ef & Et & Hs). destruct fz_formats as (Ha & Hb & Hc). unfold TransShape in Hs.
  apply reject_Ok in Hs as [_ Hs]. rewrite Ef, Et, Z.eqb_refl, !andb_true_r in Hs.
  clear Ef. split_and!; [intros ->|intros Hg; split; intros ->|intros Hg ->];
    repeat match type of Hs with context[?x =? ?y] =>
      first [rewrite Z.eqb_refl in Hs | rewrite (proj2 (Z.eqb_neq x y)) in Hs by congruence] end;
    repeat match type of Hs with context[1 <? ?x] =>
      first [rewrite (proj2 (Z.ltb_ge 1 x)) in Hs by lia
            |rewrite (proj2 (Z.ltb_lt 1 x)) in Hs by lia] end;
    cbv match in Hs; congruence.
Qed.
End dispatch.

Section to_fz.
Context `{GeTypesLaws} `{SecureCLaws}.
Import FractalZ.

Lemma hwcn_fz_delivers args r n c h w d :
  let c0 := GetC0Value (dst_format args) in
  let size := GetSizeByDataType (src_data_type args) in
  let N := Ceil c c0 * h * w * rows n * c0 in
  to_fz args FORMAT_HWCN -> GetSubFormat (dst_format args) <= 1 ->
  src_shape args = [h; w; c; n] -> 0 < c0 -> 0 < h * w * c * n ->
  data args = Some d -> h * w * c * n * size <= zlen d -> can_alloc (N * size) = true ->
  wp (TransFormat args r)
     (delivers N size (at5 h w (rows n) c0
        (fz_spec n c c0 size (fun ni ci hi wi => idx4 w c n hi wi ci ni) d))) /\
  (0 < n /\ 0 < c /\ 0 < h /\ 0 < w /\ 0 < size).
Proof.
  intros c0 size N Hf Hsub Es Hc0 Hpos Ed Hd Hal.
  destruct (TransFormat_to_fz args r _ Hf) as [Hsz ->].
  destruct fz_formats as (Hne & _ & _).
  rewrite (proj2 (Z.eqb_neq _ _) Hne), Z.eqb_refl, (proj2 (Z.ltb_ge _ _)) by lia.
  destruct (TransShape_to_fz _ _ Hf) as (_ & [Ht _] & _); [done|]. specialize (Ht eq_refl).
  unfold TransShapeHwcnToFz in Ht. inv_outcome.
  match goal with Hs : CheckShapeValid _ _ = true |- _ =>
    apply check4_inv in Hs as (? & ? & ? & ? & E & ? & ? & ? & ? & _ & Hmax) end.
  rewrite Es in E. injection E as <- <- <- <-. rewrite Es in *.
  repeat match goal with Ha : at_ _ _ = Ok _ |- _ => injection Ha as <- end.
  assert (0 < n /\ 0 < c /\ 0 < h /\ 0 < w) as (? & ? & ? & ?) by nia.
  split; [|done]. apply hwcn_fz_data; auto. eapply fz_shape; eauto. nia.
Qed.

Lemma nhwc_fz_delivers args r n c h w d :
  let c0 := GetC0Value (dst_format args) in
  let size := GetSizeByDataType (src_data_type args) in
  let N := Ceil c c0 * h * w * rows n * c0 in
  to_fz args FORMAT_NHWC ->
  src_shape args = [n; h; w; c] -> 0 < c0 -> 0 < n * h * w * c ->
  data args = Some d -> n * h * w * c * size <= zlen d -> can_alloc (N * size) = true ->
  wp (TransFormat args r)
     (delivers N size (at5 h w (rows n) c0
        (fz_spec n c c0 size (fun ni ci hi wi => idx4 h w c ni hi wi ci) d))) /\
  (0 < n /\ 0 < c /\ 0 < h /\ 0 < w /\ 0 < size).
Proof.
  intros c0 size N Hf Es Hc0 Hpos Ed Hd Hal.
  destruct (TransFormat_to_fz args r _ Hf) as [Hsz ->]. rewrite Z.eqb_refl.
  destruct (TransShape_to_fz _ _ Hf) as (Ht & _). specialize (Ht eq_refl).
  unfold TransShapeNhwcToFz in Ht. inv_outcome.
  match goal with Hs : CheckShapeValid _ _ = true |- _ =>
    apply check4_inv in Hs as (? & ? & ? & ? & E & ? & ? & ? & ? & _ & Hmax) end.
  rewrite Es in E. injection E as <- <- <- <-. rewrite Es in *.
  repeat match goal with Ha : at_ _ _ = Ok _ |- _ => injection Ha as <- end.
  assert (0 < n /\ 0 < c /\ 0 < h /\ 0 < w) as (? & ? & ? & ?) by nia.
  split; [|done]. apply nhwc_fz_data; auto. eapply fz_shape; eauto. nia.
Qed.

Lemma nchw_fz_delivers args r n c h w d :
  let c0 := GetC0Value (dst_format args) in
  let size := GetSizeByDataType (src_data_type args) in
  let N := Ceil c c0 * h * w * rows n * c0 in
  to_fz args FORMAT_NCHW -> GetSubFormat (dst_format args) <= 1 ->
  src_shape args = [n; c; h; w] -> 0 < c0 -> 0 < n * c * h * w ->
  data args = Some d -> n * c * h * w * size <= zlen d -> can_alloc (N * size) = true ->
  wp (TransFormat args r)
     (delivers N size (at5 h w (rows n) c0 (fz_spec n c c0 size (idx4 c h w) d))) /\
  (0 < n /\ 0 < c /\ 0 < h /\ 0 < w /\ 0 < size).
Proof.
  intros c0 size N Hf Hsub Es Hc0 Hpos Ed Hd Hal.
  destruct (TransFormat_to_fz args r _ Hf) as [Hsz ->].
  destruct fz_formats as (_ & Hne & Hne').
  rewrite (proj2 (Z.eqb_neq _ _) Hne), (proj2 (Z.eqb_neq _ _) Hne'), Z.eqb_refl.
  destruct (TransShape_to_fz _ _ Hf) as (_ & [_ Ht] & _); [done|]. specialize (Ht eq_refl).
  unfold TransShapeNchwToFz in Ht. inv_outcome.
  match goal with Hs : CheckShapeValid _ _ = true |- _ =>
    apply check4_inv in Hs as (? & ? & ? & ? & E & ? & ? & ? & ? & _ & Hmax) end.
  rewrite Es in E. injection E as <- <- <- <-. rewrite Es in *.
  assert (0 < n /\ 0 < c /\ 0 < h /\ 0 < w) as (? & ? & ? & ?) by nia.
  split; [|done]. apply nchw_fz_data; auto.
Qed.

(** Reading the FRACTAL_Z position of a weight gives the weight. *)
Lemma fz_spec_at n c h w c0 size src d ni ci hi wi :
  0 < c0 -> 0 <= ni < n -> 0 <= ci < c -> 0 <= hi < h -> 0 <= wi < w ->
  at5 h w (rows n) c0 (fz_spec n c c0 size src d) (fz_at h w (rows n) c0 ni ci hi wi)
  = elem d size (src ni ci hi wi).
Proof.
  intros Hc0 Hni Hci Hhi Hwi. pose proof (rows_bounds n ltac:(lia)). unfold fz_at.
  rewrite at5_idx; [|done|done|lia|by apply Z.mod_pos_bound]. unfold fz_spec.
  replace (ci / c0 * c0 + ci mod c0) with ci by (pose proof (Z.div_mod ci c0); lia).
  by rewrite (proj2 (Z.leb_gt _ _)), (proj2 (Z.leb_gt _ _)) by lia.
Qed.

(** Writing FRACTAL_Z and reading it back, whatever the 4D order: [src] is
    the position of weight [(ni, ci, hi, wi)] in the source, and [m1], [m2]
    are the two transfers. *)
Lemma fz_roundtrip_core m1 (m2 : list Z -> outcome TransResult) n c h w c0 size N src d
    (g : (Z -> Z -> Z -> Z -> list Z) -> Z -> list Z) :
  0 < c0 -> 0 < size -> zlen d = N * size ->
  wp m1 (delivers (Ceil c c0 * h * w * rows n * c0) size
           (at5 h w (rows n) c0 (fz_spec n c c0 size src d))) ->
  (forall bs, Ceil c c0 * h * w * rows n * c0 * size <= zlen bs ->
     wp (m2 bs) (delivers N size
       (g (fun ni ci hi wi => elem bs size (fz_at h w (rows n) c0 ni ci hi wi))))) ->
  (forall e, 0 <= e < N -> exists ni ci hi wi,
     (0 <= ni < n /\ 0 <= ci < c /\ 0 <= hi < h /\ 0 <= wi < w) /\
     e = src ni ci hi wi /\ forall k, g k e = k ni ci hi wi) ->
  exists bs,
    m1 = Ok {| res_data := Some (Some <$> bs);
               res_length := Ceil c c0 * h * w * rows n * c0 * size |} /\
    m2 bs = Ok {| res_data := Some (Some <$> d); res_length := N * size |}.
Proof.
  intros Hc0 Hsz Hd (bs & E1 & Hz & He)%delivers_eq Hm2 Hsurj. exists bs. split; [done|].
  destruct (delivers_eq _ _ _ _ (Hm2 bs ltac:(lia))) as (bs' & -> & Hz' & He').
  do 4 f_equal. apply (elem_ext _ _ N size); [done|done|done|].
  intros e Hr. rewrite He' by done.
  destruct (Hsurj e Hr) as (ni & ci & hi & wi & (?&?&?&?) & -> & ->).
  rewrite He by (by apply fz_at_bound). by apply fz_spec_at.
Qed.
End to_fz.

(** ** Groups *)

(** Grouped weights: [e] groups share a cube block, group [j] of a block
    filling rows and columns [j] of a block-diagonal matrix; everything off
    the diagonal is zero. *)
Definition grouped_spec (cin cout k e groups w n size : Z) (d : list Z)
    : Z -> Z -> Z -> Z -> Z -> Z -> list Z := fun gd c1i hi wi co c0i =>
  let ci := c1i * k + c0i in
  if (ci / cin =? co / cout) && (ci / cin <? e) && (gd * e + ci / cin <? groups)
  then elem d size (idx4 w cin n hi wi (ci mod cin) ((gd * e + ci / cin) * cout + co mod cout))
  else zero_elem size.

Section groups.
Context `{GeTypesLaws} `{SecureCLaws}.
Import FractalZ.

Lemma lcm_quot a b :
  0 < a -> 0 < b -> a * b < 2 ^ 63 ->
  exists q, (l ← Lcm a b; quot_ l a) = Ok q /\ 0 < q <= b.
Proof.
  intros Ha Hb Hab. rewrite Lcm_lcm by lia. simpl.
  destruct (Z.gcd_divide_r a b) as [m Hm].
  assert (Hg : 0 < Z.gcd a b).
  { pose proof (Z.gcd_nonneg a b). destruct (Z.eq_dec (Z.gcd a b) 0) as [E|]; [|lia].
    apply Z.gcd_eq_0_r in E. lia. }
  assert (El : Z.lcm a b = m * a).
  { unfold Z.lcm. rewrite Hm at 1. rewrite Z.div_mul by lia.
    rewrite Z.abs_eq; nia. }
  rewrite El, quot_nonneg by nia. rewrite Z.div_mul by lia. exists m. split; [done|]. nia.
Qed.

Lemma e_mult_range cin cout k groups :
  0 < cin -> 0 < cout -> 0 < k -> 0 < groups -> cin * k < 2 ^ 63 -> cout * kCubeSize < 2 ^ 63 ->
  k * kCubeSize < 2 ^ 63 ->
  exists e, e_mult_of cin cout k groups = Ok e /\ 0 < e <= groups.
Proof.
  intros Hcin Hcout Hk Hg ? ? ?. unfold e_mult_of.
  destruct (lcm_quot cin k) as (q1 & E1 & Hq1); [done..|].
  destruct (lcm_quot cout kCubeSize) as (q2 & E2 & Hq2); [done..|].
  apply bind_Ok in E1 as (l1 & -> & E1). apply bind_Ok in E2 as (l2 & -> & E2). simpl.
  rewrite E1. simpl. rewrite E2. simpl. rewrite Lcm_lcm by nia. simpl.
  eexists. split; [reflexivity|].
  assert (0 < Z.lcm q1 q2).
  { pose proof (Z.lcm_nonneg q1 q2). destruct (Z.eq_dec (Z.lcm q1 q2) 0) as [E|]; [|lia].
    apply Z.lcm_eq_0 in E. lia. }
  lia.
Qed.

Lemma divmod_add a b i : 0 <= i < a -> (b * a + i) / a = b /\ (b * a + i) mod a = i.
Proof. intros. pose proof (pos_div a b i). pose proof (pos_mod a b i). unfold pos in *. auto. Qed.

Lemma memset_all n :
  0 < n <= SECUREC_MEM_MAX_LEN ->
  memset_chk (replicate (Z.to_nat n) None) (Some 0) n n = Ok (replicate (Z.to_nat n) (Some 0)).
Proof.
  intros Hn. unfold memset_chk. rewrite size_t_small by (rewrite mem_max_len in *; lia).
  rewrite memset_s_ok by (rewrite ?zlen_replicate; lia). rewrite Z.eqb_refl. f_equal.
  unfold blit. simpl. rewrite zlen_replicate by lia. rewrite drop_ge, app_nil_r; [done|].
  rewrite length_replicate. lia.
Qed.

(** The position of weight [(hi, wi, ci, ni)] of group [g]. *)
Definition grouped_at (c1 h w co k e cin cout g ci hi wi ni : Z) : Z :=
  idx6 c1 h w co k (g / e) ((g mod e * cin + ci) / k) hi wi (g mod e * cout + ni)
       ((g mod e * cin + ci) mod k).

Context (cin cout k e groups h w n size : Z) (d : list Z).
Hypothesis (Hcin : 0 < cin) (Hcout : 0 < cout) (Hk : 0 < k) (He : 0 < e).
Let c1 := Ceil (e * cin) k.
Let co := Ceil (e * cout) kCubeSize * kCubeSize.
Let spec := at6 c1 h w co k (grouped_spec cin cout k e groups w n size d).

Lemma grouped_ranges g ci ni :
  0 <= g < groups -> 0 <= ci < cin -> 0 <= ni < cout ->
  0 <= g / e < Ceil groups e /\ 0 <= g mod e < e /\
  0 <= (g mod e * cin + ci) / k < c1 /\ 0 <= (g mod e * cin + ci) mod k < k /\
  0 <= g mod e * cout + ni < co.
Proof.
  intros Hg Hci Hni. assert (Hev := Z.mod_pos_bound g e He).
  assert (Hob := Ceil_bounds (e * cout) kCubeSize ltac:(nia) ltac:(done)). fold co in Hob.
  refine (conj _ (conj Hev (conj _ (conj _ _))));
    first [apply Ceil_div_lt; nia | apply Z.mod_pos_bound; lia | nia].
Qed.

(** The specification at a weight's position is the weight. *)
Lemma grouped_spec_at g ci hi wi ni :
  0 <= g < groups -> 0 <= ci < cin -> 0 <= hi < h -> 0 <= wi < w -> 0 <= ni < cout ->
  spec (grouped_at c1 h w co k e cin cout g ci hi wi ni)
  = elem d size (idx4 w cin n hi wi ci (g * cout + ni)).
Proof.
  intros Hg Hci Hhi Hwi Hni. destruct (grouped_ranges g ci ni) as (?&?&?&?&?); [done..|].
  assert (Eg := Z.div_mod g e ltac:(lia)).
  unfold spec, grouped_at. rewrite at6_idx by done. unfold grouped_spec. cbv zeta.
  replace ((g mod e * cin + ci) / k * k + (g mod e * cin + ci) mod k) with (g mod e * cin + ci)
    by (pose proof (Z.div_mod (g mod e * cin + ci) k); lia).
  destruct (divmod_add cin (g mod e) ci Hci) as [-> ->].
  destruct (divmod_add cout (g mod e) ni Hni) as [-> ->].
  replace (g / e * e + g mod e) with g by lia.
  by rewrite Z.eqb_refl, !(proj2 (Z.ltb_lt _ _)) by lia.
Qed.

(** Every other position is zero. *)
Lemma grouped_cover x :
  0 < c1 -> 0 < h -> 0 < w -> 0 < co -> 0 <= x < Ceil groups e * c1 * h * w * co * k ->
  spec x = zero_elem size \/
  exists g ci hi wi ni,
    (0 <= g < groups /\ 0 <= ci < cin /\ 0 <= hi < h /\ 0 <= wi < w /\ 0 <= ni < cout) /\
    x = grouped_at c1 h w co k e cin cout g ci hi wi ni.
Proof.
  intros Hc1 Hh Hw Hco Hx.
  destruct (idx6_surj (Ceil groups e) c1 h w co k x)
    as (gd & c1i & hi & wi & coi & c0i & (?&?&?&?&?&?) & ->); [lia..|].
  unfold spec. rewrite at6_idx by done. unfold grouped_spec. cbv zeta.
  set (ci := c1i * k + c0i).
  destruct (_ && _ && _) eqn:Hin; [|by left]. right.
  apply andb_true_iff in Hin as [[Hq%Z.eqb_eq He2%Z.ltb_lt]%andb_true_iff Hgr%Z.ltb_lt].
  assert (0 <= ci / cin) by (apply Z.div_pos; nia).
  assert (Em := Z.mod_pos_bound ci cin Hcin). assert (En := Z.mod_pos_bound coi cout Hcout).
  exists (gd * e + ci / cin), (ci mod cin), hi, wi, (coi mod cout). split; [split_and!; nia|].
  unfold grouped_at. destruct (divmod_add e gd (ci / cin) ltac:(lia)) as [-> ->].
  replace (ci / cin * cin + ci mod cin) with ci by (pose proof (Z.div_mod ci cin); lia).
  rewrite Hq. replace (coi / cout * cout + coi mod cout) with coi
    by (pose proof (Z.div_mod coi cout); lia).
  unfold ci. by destruct (divmod_add k c1i c0i ltac:(lia)) as [-> ->].
Qed.
End groups.

Section grouped.
Context `{GeTypesLaws} `{SecureCLaws}.
Import FractalZ.

Lemma grouped_fz_data args r n c h w d e :
  let k := GetC0Value (dst_format args) in
  let size := GetSizeByDataType (src_data_type args) in
  let groups := GetSubFormat (dst_format args) in
  let cout := n / groups in
  let c1 := Ceil (e * c) k in
  let co := Ceil (e * cout) kCubeSize * kCubeSize in
  let N := Ceil groups e * c1 * h * w * co * k in
  src_shape args = [h; w; c; n] -> e_mult_of c cout k groups = Ok e -> 0 < e <= groups ->
  0 < groups <= n -> 0 < c -> 0 < h -> 0 < w -> 0 < k -> 0 < size ->
  data args = Some d -> h * w * c * n * size <= zlen d -> can_alloc (N * size) = true ->
  N * size <= SECUREC_MEM_MAX_LEN ->
  wp (TransFormatHwcnToFzWithGroups args r groups)
     (delivers N size (at6 c1 h w co k (grouped_spec c cout k e groups w n size d))).
Proof.
  intros k size groups cout c1 co N Es Ee He Hg Hc Hh Hw Hk Hsz Ed Hd Hal Hmax.
  assert (Hcout : 0 < cout) by (apply Z.div_str_pos; lia).
  assert (Hgc : groups * cout <= n) by (apply Z.mul_div_le; lia).
  assert (Hob := Ceil_bounds (e * cout) kCubeSize ltac:(nia) ltac:(done)). fold co in Hob.
  assert (Hgd := Ceil_pos groups e ltac:(lia) ltac:(lia)).
  assert (0 < c1) by (apply Ceil_pos; nia).
  assert (HN : 0 < N) by (unfold N; do 5 (apply Z.mul_pos_pos; [|nia]); lia).
  unfold TransFormatHwcnToFzWithGroups. rewrite Es, Ed. wp_dims. cbv zeta.
  rewrite quot_nonneg by lia. wp_dims. fold cout.
  apply wp_reject; [by rewrite !(proj2 (Z.eqb_neq _ 0)) by lia|]. fold k.
  eapply wp_bind_eq; [exact Ee|]. cbv beta.
  rewrite quot_nonneg by (pose proof (Ceil_nonneg (e * c) k); nia).
  rewrite Z.div_mul by lia. wp_dims. fold c1 size co.
  replace (Ceil groups e * kDim * c1 * h * w * co * k * size) with (N * size)
    by (unfold N, kDim; ring).
  rewrite (proj2 (Z.eqb_neq _ 0)) by nia.
  unfold new_bytes. rewrite Hal. wp_dims. rewrite memset_all by nia. wp_dims.
  set (spec := at6 c1 h w co k (grouped_spec c cout k e groups w n size d)).
  apply wp_bind. eapply wp_mono.
  - assert (Ha0 := agree_zeroes N size spec Hsz ltac:(lia)).
    wp_loop Ha0 g Hgr W1 b1 Ha1. wp_loop Ha1 dd Hdd W2 b2 Ha2. wp_loop Ha2 ci Hci W3 b3 Ha3.
    wp_loop Ha3 hi Hhi W4 b4 Ha4. wp_loop Ha4 wi Hwi W5 b5 Ha5. wp_loop Ha5 ni Hni W6 b6 Ha6.
    destruct (grouped_ranges c cout k e groups Hc Hcout Hk ltac:(lia) g ci ni)
      as (?&?&?&?&?); [done..|].
    rewrite rem_nonneg by lia. wp_dims. rewrite (rem_nonneg (_ * c + ci)) by nia. wp_dims.
    rewrite !quot_nonneg by nia. wp_dims.
    assert (Hd0 : dd = 0) by (unfold kDim in Hdd; lia).
    replace (g / e * kDim * c1 * h * w * co * k + _ + _ + _ + _ + _ + _)
      with (grouped_at c1 h w co k e c cout g ci hi wi ni)
      by (rewrite Hd0; unfold grouped_at, idx6, idx5, idx4, pos, kDim; ring).
    replace (dd * h * w * c * n + _ + _ + _ + _) with (idx4 w c n hi wi ci (g * cout + ni))
      by (rewrite Hd0; unfold idx4, pos; ring).
    assert (HS : 0 <= idx4 w c n hi wi ci (g * cout + ni) < h * w * c * n)
      by (apply idx4_bound; try done; nia).
    eapply wp_copy_elem; [done|exact Ha6|by apply idx6_bound|lia|nia|].
    by apply grouped_spec_at; try done; lia.
  - intros out Ha. eapply agree_delivers; [exact Hsz|exact Ha|]. intros x Hx.
    destruct (grouped_cover c cout k e groups h w n size d Hc Hcout Hk ltac:(lia) x)
      as [Hz|(g & ci & hi & wi & ni & (?&?&?&?&?) & ->)]; [done|done|done|nia|done|by left|].
    right. exists g. split; [done|]. exists 0. split; [done|]. repeat (eexists; split; [eassumption|]). reflexivity.
Qed.
End grouped.

(** ** Theorems *)

Lemma grouped_shape_no_channels n h w c0 groups :
  0 <= c0 -> 0 < groups <= n -> FractalZ.TransShapeToFzWithGroups n 0 h w c0 groups = Fault.
Proof.
  intros Hc0 Hg. unfold FractalZ.TransShapeToFzWithGroups, FractalZ.e_mult_of.
  rewrite (proj2 (Z.ltb_ge _ _)), quot_nonneg by lia. cbn [mbind outcome_bind reject_if].
  assert (0 < n / groups) by (apply Z.div_str_pos; lia).
  rewrite (proj2 (Z.eqb_neq (n / groups) 0)) by lia. cbn [reject_if].
  destruct (Z.eq_dec c0 0) as [->|]; [done|]. by rewrite (Lcm_lcm 0 c0) by lia.
Qed.

Section theorems.
Context `{GeTypesLaws} `{SecureCLaws}.

(** C22: NCHW weights to FRACTAL_Z.  The transfer succeeds, stores every byte
    of the destination, and entry [(c1, h, w, n, c0)] of the result is
    weight [(n, c1 * C0 + c0, h, w)] of the source, or zero in the rows past
    N and the channels past C. *)
Theorem nchw_to_fractal_z_correct args r n c h w d :
  let c0 := GetC0Value (dst_format args) in
  let size := GetSizeByDataType (src_data_type args) in
  let total := Ceil c c0 * h * w * (kNiSize * Ceil n kNiSize) * c0 * size in
  to_fz args FORMAT_NCHW -> GetSubFormat (dst_format args) <= 1 ->
  src_shape args = [n; c; h; w] -> 0 < c0 -> 0 < n * c * h * w ->
  data args = Some d -> n * c * h * w * size <= zlen d -> can_alloc total = true ->
  exists bs : list Z,
    FractalZ.TransFormat args r
    = Ok {| res_data := Some (Some <$> bs); res_length := total |} /\ zlen bs = total /\
    forall c1i hi wi ni c0i,
      0 <= c1i < Ceil c c0 -> 0 <= hi < h -> 0 <= wi < w ->
      0 <= ni < kNiSize * Ceil n kNiSize -> 0 <= c0i < c0 ->
      elem bs size (idx5 h w (kNiSize * Ceil n kNiSize) c0 c1i hi wi ni c0i)
      = if (c <=? c1i * c0 + c0i) || (n <=? ni) then zero_elem size
        else elem d size (idx4 c h w ni (c1i * c0 + c0i) hi wi).
Proof.
  intros c0 size total Hf Hsub Es Hc0 Hpos Ed Hd Hal.
  apply (delivers_at5 _ size _ h w _ c0 (fz_spec n c c0 size (idx4 c h w) d)).
  by apply nchw_fz_delivers.
Qed.

(** C23: NCHW weights survive the trip through FRACTAL_Z: reading back what
    [FormatTransferFractalZ] wrote gives the source buffer. *)
Theorem nchw_fractal_z_roundtrip args1 args2 r1 r2 n c h w d :
  let c0 := GetC0Value (dst_format args1) in
  let size := GetSizeByDataType (src_data_type args1) in
  to_fz args1 FORMAT_NCHW -> GetSubFormat (dst_format args1) <= 1 ->
  src_shape args1 = [n; c; h; w] -> 0 < c0 -> 0 < n * c * h * w ->
  data args1 = Some d -> zlen d = n * c * h * w * size -> (forall k, can_alloc k = true) ->
  FracZNchw.CheckArgsForFracZToNchw args2 = Ok tt -> dst_shape args2 = [n; c; h; w] ->
  GetC0Value (src_format args2) = c0 -> src_data_type args2 = src_data_type args1 ->
  exists bs : list Z,
    FractalZ.TransFormat args1 r1
    = Ok {| res_data := Some (Some <$> bs);
            res_length := Ceil c c0 * h * w * rows n * c0 * size |} /\
    FracZNchw.TransFormat (with_data args2 bs) r2
    = Ok {| res_data := Some (Some <$> d); res_length := n * c * h * w * size |}.
Proof.
  intros c0 size Hf Hsub Es Hc0 Hpos Ed Hd Hal Hck Et Ec Edt.
  destruct (nchw_fz_delivers args1 r1 n c h w d) as [Hm1 (?&?&?&?&?)]; auto; [lia|].
  eapply (fz_roundtrip_core _ (fun bs => FracZNchw.TransFormat (with_data args2 bs) r2)
    n c h w c0 size (n * c * h * w) (idx4 c h w) d (at4 c h w)); auto.
  - intros bs Hbs. pose proof (fracz_nchw_delivers (with_data args2 bs) r2 n c h w bs) as Hm2.
    simpl src_format in Hm2. simpl src_data_type in Hm2. rewrite Ec, Edt in Hm2. by apply Hm2.
  - intros e He. destruct (idx4_surj n c h w e) as (ni & ci & hi & wi & ? & ->); [done..|].
    exists ni, ci, hi, wi. split; [done|]. split; [done|]. intros k. apply at4_idx; tauto.
Qed.

(** NHWC weights survive the trip through FRACTAL_Z. *)
Theorem nhwc_fractal_z_roundtrip args1 args2 r1 r2 n c h w d :
  let c0 := GetC0Value (dst_format args1) in
  let size := GetSizeByDataType (src_data_type args1) in
  to_fz args1 FORMAT_NHWC ->
  src_shape args1 = [n; h; w; c] -> 0 < c0 -> 0 < n * h * w * c ->
  data args1 = Some d -> zlen d = n * h * w * c * size -> (forall k, can_alloc k = true) ->
  FracZNhwc.CheckArgsForFracZToNhwc args2 = Ok tt -> dst_shape args2 = [n; h; w; c] ->
  GetC0Value (src_format args2) = c0 -> src_data_type args2 = src_data_type args1 ->
  exists bs : list Z,
    FractalZ.TransFormat args1 r1
    = Ok {| res_data := Some (Some <$> bs);
            res_length := Ceil c c0 * h * w * rows n * c0 * size |} /\
    FracZNhwc.TransFormat (with_data args2 bs) r2
    = Ok {| res_data := Some (Some <$> d); res_length := n * h * w * c * size |}.
Proof.
  intros c0 size Hf Es Hc0 Hpos Ed Hd Hal Hck Et Ec Edt.
  destruct (nhwc_fz_delivers args1 r1 n c h w d) as [Hm1 (?&?&?&?&?)]; auto; [lia|].
  eapply (fz_roundtrip_core _ (fun bs => FracZNhwc.TransFormat (with_data args2 bs) r2)
    n c h w c0 size (n * h * w * c) _ d
    (fun k => at4 h w c (fun ni hi wi ci => k ni ci hi wi))); auto.
  - exact Hm1.
  - intros bs Hbs. pose proof (fracz_nhwc_delivers (with_data args2 bs) r2 n c h w bs) as Hm2.
    simpl src_format in Hm2. simpl src_data_type in Hm2. rewrite Ec, Edt in Hm2. by apply Hm2.
  - intros e He. destruct (idx4_surj n h w c e) as (ni & hi & wi & ci & ? & ->); [done..|].
    exists ni, ci, hi, wi. split; [tauto|]. split; [done|].
    intros k. apply (at4_idx _ _ _ (fun ni hi wi ci => k ni ci hi wi)); tauto.
Qed.

(** HWCN weights survive the trip through FRACTAL_Z. *)
Theorem hwcn_fractal_z_roundtrip args1 args2 r1 r2 n c h w d :
  let c0 := GetC0Value (dst_format args1) in
  let size := GetSizeByDataType (src_data_type args1) in
  to_fz args1 FORMAT_HWCN -> GetSubFormat (dst_format args1) <= 1 ->
  src_shape args1 = [h; w; c; n] -> 0 < c0 -> 0 < h * w * c * n ->
  data args1 = Some d -> zlen d = h * w * c * n * size -> (forall k, can_alloc k = true) ->
  FracZHwcn.CheckArgsForFracZToHwcn args2 = Ok tt -> dst_shape args2 = [h; w; c; n] ->
  GetC0Value (src_format args2) = c0 -> src_data_type args2 = src_data_type args1 ->
  exists bs : list Z,
    FractalZ.TransFormat args1 r1
    = Ok {| res_data := Some (Some <$> bs);
            res_length := Ceil c c0 * h * w * rows n * c0 * size |} /\
    FracZHwcn.TransFormat (with_data args2 bs) r2
    = Ok {| res_data := Some (Some <$> d); res_length := h * w * c * n * size |}.
Proof.
  intros c0 size Hf Hsub Es Hc0 Hpos Ed Hd Hal Hck Et Ec Edt.
  destruct (hwcn_fz_delivers args1 r1 n c h w d) as [Hm1 (?&?&?&?&?)]; auto; [lia|].
  eapply (fz_roundtrip_core _ (fun bs => FracZHwcn.TransFormat (with_data args2 bs) r2)
    n c h w c0 size (h * w * c * n) _ d
    (fun k => at4 w c n (fun hi wi ci ni => k ni ci hi wi))); auto.
  - exact Hm1.
  - intros bs Hbs. pose proof (fracz_hwcn_delivers (with_data args2 bs) r2 n c h w bs) as Hm2.
    simpl src_format in Hm2. simpl src_data_type in Hm2. rewrite Ec, Edt in Hm2. by apply Hm2.
  - intros e He. destruct (idx4_surj h w c n e) as (hi & wi & ci & ni & ? & ->); [done..|].
    exists ni, ci, hi, wi. split; [tauto|]. split; [done|].
    intros k. apply (at4_idx _ _ _ (fun hi wi ci ni => k ni ci hi wi)); tauto.
Qed.

(** Grouped HWCN weights to FRACTAL_Z.  With [groups] in the sub-format
    (and the destination within securec's limit), the transfer packs [e]
    groups per cube block; entry [(block, c1, h, w, co, c0)] is the weight of
    group [block * e + j] when row [c1 * C0 + c0] and column [co] both fall
    in the [j]-th diagonal square, and zero off the diagonal. *)
Theorem hwcn_grouped_fractal_z_correct args r n c h w d :
  let k := GetC0Value (dst_format args) in
  let size := GetSizeByDataType (src_data_type args) in
  let groups := GetSubFormat (dst_format args) in
  let cout := n / groups in
  to_fz args FORMAT_HWCN -> 1 < groups <= n -> src_shape args = [h; w; c; n] ->
  0 < k <= 2 ^ 16 -> 0 < h * w * c * n ->
  data args = Some d -> h * w * c * n * size <= zlen d -> (forall m, can_alloc m = true) ->
  exists e, FractalZ.e_mult_of c cout k groups = Ok e /\ 0 < e <= groups /\
    let c1 := Ceil (e * c) k in
    let co := Ceil (e * cout) kCubeSize * kCubeSize in
    let total := Ceil groups e * c1 * h * w * co * k * size in
    (total <= SECUREC_MEM_MAX_LEN ->
     exists bs : list Z,
       FractalZ.TransFormat args r
       = Ok {| res_data := Some (Some <$> bs); res_length := total |} /\ zlen bs = total /\
       forall b c1i hi wi coi c0i,
         0 <= b < Ceil groups e -> 0 <= c1i < c1 -> 0 <= hi < h -> 0 <= wi < w ->
         0 <= coi < co -> 0 <= c0i < k ->
         elem bs size (idx6 c1 h w co k b c1i hi wi coi c0i)
         = grouped_spec c cout k e groups w n size d b c1i hi wi coi c0i).
Proof.
  intros k size groups cout Hf Hg Es Hk Hpos Ed Hd Hal.
  destruct (TransFormat_to_fz args r _ Hf) as [Hsz ->].
  destruct fz_formats as (Hne & _ & _).
  rewrite (proj2 (Z.eqb_neq _ _) Hne), Z.eqb_refl, (proj2 (Z.ltb_lt _ _)) by (fold groups; lia).
  destruct (TransShape_to_fz _ _ Hf) as (_ & _ & Ht). specialize (Ht ltac:(apply Hg) eq_refl).
  unfold FractalZ.TransShapeHwcnToFzWithGroups in Ht. apply reject_Ok in Ht as [Hck _].
  apply negb_false_iff, check4_inv in Hck as (? & ? & ? & ? & E & ? & ? & ? & ? & _ & Hmax).
  rewrite Es in E. injection E as <- <- <- <-.
  assert (0 < n /\ 0 < c /\ 0 < h /\ 0 < w) as (? & ? & ? & ?) by nia.
  assert (Hcout : 0 < cout) by (apply Z.div_str_pos; lia).
  assert (cout <= n) by (apply Z.div_le_upper_bound; nia).
  unfold kShapeItemNumMAX in Hmax. assert (c <= 2 ^ 40 /\ n <= 2 ^ 40) as [? ?] by nia.
  destruct (e_mult_range c cout k groups) as (e & Ee & He); try (unfold kCubeSize; nia).
  exists e. split; [done|]. split; [done|]. intros c1 co total Hlim.
  apply (delivers_at6 _ size _ c1 h w co k (grouped_spec c cout k e groups w n size d)).
  apply grouped_fz_data; auto; lia.
Qed.

(** The grouped shape computation divides by the channel count without
    testing it.  A shape with no channels is valid, has enough columns for
    every group, and makes [TransShapeHwcnToFzWithGroups] divide by zero. *)
Theorem grouped_shape_divides_by_zero n h w dst_format groups :
  CheckShapeValid [h; w; 0; n] kHwcnDimsNum = true ->
  0 <= GetC0Value dst_format -> 0 < groups <= n ->
  FractalZ.TransShapeHwcnToFzWithGroups [h; w; 0; n] dst_format groups = Fault.
Proof.
  intros Hv Hc0 Hg. unfold FractalZ.TransShapeHwcnToFzWithGroups. rewrite Hv.
  by apply grouped_shape_no_channels.
Qed.

(** An unspecified destination shape.  [IsTransShapeDstCorrect] accepts
    an empty [dst_shape], but the HWCN path sizes its buffer from it, as one
    element, and fails on the second one it writes. *)
Theorem hwcn_fractal_z_empty_dst_fails args r n c h w d s :
  let size := GetSizeByDataType (src_data_type args) in
  consistent args -> GetPrimaryFormat (src_format args) = FORMAT_HWCN ->
  GetPrimaryFormat (dst_format args) = FORMAT_FRACTAL_Z -> GetSubFormat (dst_format args) <= 1 ->
  FractalZ.TransShape (src_format args) (src_shape args) (src_data_type args) (dst_format args)
  = Ok s ->
  dst_shape args = [] -> src_shape args = [h; w; c; n] ->
  1 < c -> 0 < n -> 0 < h -> 0 < w -> 1 < GetC0Value (dst_format args) -> 0 < size ->
  data args = Some d -> h * w * c * n * size <= zlen d -> (forall k, can_alloc k = true) ->
  FractalZ.TransFormat args r = Err ACL_ERROR_GE_PARAM_INVALID.
Proof.
  intros size (E1 & E2 & E3 & E4) Ef Et Hsub Hs Eds Es Hc Hn Hh Hw Hc0 Hsz Ed Hd Hal.
  destruct fz_formats as (Hne & _ & _).
  assert (Hcp : 0 < Ceil c (GetC0Value (dst_format args))) by (apply Ceil_pos; lia).
  assert (Hno := Ceil_pos n kNiSize Hn ltac:(done)).
  assert (Hm := type_size_bound (src_data_type args)).
  unfold FractalZ.TransFormat. rewrite Hs. simpl. unfold IsTransShapeDstCorrect. rewrite Eds. simpl.
  rewrite E1, E2, E4, Ef, Et, Z.eqb_refl, !andb_true_r, Z.eqb_refl.
  rewrite (proj2 (Z.eqb_neq _ _) Hne), (proj2 (Z.ltb_ge _ _)) by done.
  unfold FractalZ.TransFormatHwcnToFz. rewrite Es, Eds, Ed. simpl. rewrite Z.mul_1_l.
  fold size. rewrite (proj2 (Z.eqb_neq _ 0)) by lia. unfold new_bytes. rewrite Hal. simpl.
  set (c0 := GetC0Value (dst_format args)) in *.
  erewrite for_range_err; [reflexivity|lia|].
  apply for_range_err; [lia|]. apply for_range_err; [lia|].
  apply for_range_err; [unfold kNiSize in *; lia|].
  rewrite for_range_step by lia. rewrite !Z.mul_0_l, !Z.add_0_l.
  assert (0 < h * w * c * n) by (do 3 (apply Z.mul_pos_pos; [|lia]); lia).
  assert (size <= zlen d) by nia.
  assert (Hb : agree 1 size (fun _ => elem d size 0) (fun _ => False)
                 (replicate (Z.to_nat size) None))
    by (apply agree_start; rewrite zlen_replicate; lia).
  destruct (proj1 (wp_Ok _ _) (wp_pad_or_copy 1 size (fun _ => elem d size 0) _ _
    ((c <=? 0) || (n <=? 0)) d 0 0 Hsz Hm Hb ltac:(lia)
    ltac:(intros Hp; exfalso; rewrite !(proj2 (Z.leb_gt _ _)) in Hp by lia; done)
    ltac:(intros _; split_and!; [lia|lia|done]))) as (b & Eb & _).
  rewrite Z.mul_1_l, !Z.mul_0_l in Eb. rewrite Eb. simpl.
  apply for_range_err; [lia|]. rewrite !Z.add_0_l, !Z.mul_1_l.
  unfold guard_size, protected_size. rewrite Z.sub_diag, mem_max_len. simpl.
  rewrite !(proj2 (Z.leb_gt _ _)) by lia. simpl. by rewrite (proj2 (Z.ltb_lt _ _)) by lia.
Qed.
End theorems.

(** ** Runs *)

Module RunsFractalZ.
Import Concrete Sample.

(** FORMAT_FRACTAL_Z carrying C0 = 16 and, in the sub-format, 2 groups. *)
Definition fz_c16 : Z := 4 + 5 * 2 ^ 24.
Definition fz_c16_g2 : Z := 4 + 2 * 2 ^ 8 + 5 * 2 ^ 24.
Definition weights : list Z := seqZ 1 12.

(** 2 x 3 x 1 x 2 weights of one byte, in the three orders. *)
Definition nchw_args : TransArgs := mk_args 0 fz_c16 [2; 3; 1; 2] [2; 1; 16; 16] 2 weights.
Definition nhwc_args : TransArgs := mk_args 1 fz_c16 [2; 1; 2; 3] [2; 1; 16; 16] 2 weights.
Definition hwcn_args : TransArgs := mk_args 16 fz_c16 [1; 2; 3; 2] [2; 1; 16; 16] 2 weights.

Lemma nchw_to_fractal_z_correct_run :
  exists bs, FractalZ.TransFormat nchw_args empty_result
    = Ok {| res_data := Some (Some <$> bs); res_length := 512 |}.
Proof.
  destruct (nchw_to_fractal_z_correct nchw_args empty_result 2 3 1 2 weights)
    as (bs & E & _); [run_hyp..|]. exists bs. exact E.
Defined.

Lemma nchw_fractal_z_roundtrip_run :
  exists bs, FracZNchw.TransFormat
    (with_data (mk_args fz_c16 0 [2; 1; 16; 16] [2; 3; 1; 2] 2 []) bs) empty_result
    = Ok {| res_data := Some (Some <$> weights); res_length := 12 |}.
Proof.
  destruct (nchw_fractal_z_roundtrip nchw_args
    (mk_args fz_c16 0 [2; 1; 16; 16] [2; 3; 1; 2] 2 []) empty_result empty_result 2 3 1 2 weights)
    as (bs & _ & E); [run_hyp..|]. exists bs. exact E.
Defined.

Lemma nhwc_fractal_z_roundtrip_run :
  exists bs, FracZNhwc.TransFormat
    (with_data (mk_args fz_c16 1 [2; 1; 16; 16] [2; 1; 2; 3] 2 []) bs) empty_result
    = Ok {| res_data := Some (Some <$> weights); res_length := 12 |}.
Proof.
  destruct (nhwc_fractal_z_roundtrip nhwc_args
    (mk_args fz_c16 1 [2; 1; 16; 16] [2; 1; 2; 3] 2 []) empty_result empty_result 2 3 1 2 weights)
    as (bs & _ & E); [run_hyp..|]. exists bs. exact E.
Defined.

Lemma hwcn_fractal_z_roundtrip_run :
  exists bs, FracZHwcn.TransFormat
    (with_data (mk_args fz_c16 16 [2; 1; 16; 16] [1; 2; 3; 2] 2 []) bs) empty_result
    = Ok {| res_data := Some (Some <$> weights); res_length := 12 |}.
Proof.
  destruct (hwcn_fractal_z_roundtrip hwcn_args
    (mk_args fz_c16 16 [2; 1; 16; 16] [1; 2; 3; 2] 2 []) empty_result empty_result 2 3 1 2 weights)
    as (bs & _ & E); [run_hyp..|]. exists bs. exact E.
Defined.

(** Two groups of 2 x 3 weights share one cube. *)
Lemma hwcn_grouped_fractal_z_correct_run :
  exists bs, FractalZ.TransFormat
    (mk_args 16 fz_c16_g2 [1; 1; 3; 4] [1; 1; 16; 16] 2 weights) empty_result
    = Ok {| res_data := Some (Some <$> bs); res_length := 256 |}.
Proof.
  destruct (hwcn_grouped_fractal_z_correct
    (mk_args 16 fz_c16_g2 [1; 1; 3; 4] [1; 1; 16; 16] 2 weights) empty_result 4 3 1 1 weights)
    as (e & Ee & _ & Hrun); [run_hyp..|].
  vm_compute in Ee. injection Ee as <-.
  destruct Hrun as (bs & E & _); [run_hyp|]. exists bs. exact E.
Defined.

Lemma grouped_shape_divides_by_zero_run :
  FractalZ.TransShapeHwcnToFzWithGroups [1; 1; 0; 4] fz_c16_g2 2 = Fault.
Proof. apply grouped_shape_divides_by_zero; run_hyp. Defined.

Lemma hwcn_fractal_z_empty_dst_fails_run :
  FractalZ.TransFormat (mk_args 16 fz_c16 [1; 2; 3; 2] [] 2 weights) empty_result
  = Err ACL_ERROR_GE_PARAM_INVALID.
Proof.
  apply (hwcn_fractal_z_empty_dst_fails
    (mk_args 16 fz_c16 [1; 2; 3; 2] [] 2 weights) empty_result 2 3 1 2 weights [2; 1; 16; 16]);
    run_hyp.
Defined.

(** The NCHW data path ignores the groups its own shape computation honours:
    the buffer it returns does not have the size of the destination shape. *)
Example nchw_groups_length_mismatch :
  let args := mk_args 0 fz_c16_g2 [16; 16; 1; 1] [2; 1; 16; 16] 2 (seqZ 0 256) in
  FractalZ.TransShape (src_format args) (src_shape args) 2 (dst_format args) = Ok (dst_shape args) /\
  GetItemNumByShape (dst_shape args) = 512 /\
  (r ← FractalZ.TransFormat args empty_result; Ok (res_length r)) = Ok 256.
Proof. vm_compute. done. Qed.
End RunsFractalZ.
