(* ===== verification/FormatsTranspose.v ===== *)
(** * FormatsTranspose: permuting the axes of a tensor

    [format_transfer_transpose.cc]: [Transpose] for any rank and permutation,
    walking the destination with the odometer [AddOne], and the transfers
    between NCHW, NHWC, HWCN and CHWN built on it. *)

From S2P Require Import Prelude Env FormatsUtils Transfer.

Module TransposeModel.
Section model.
Context `{GeTypes} `{SecureC}.

(** [perm_args], a map of maps. *)
Definition perm_args : list (Z * list (Z * list Z)) :=
  [(FORMAT_NCHW, [(FORMAT_NHWC, Z.of_nat <$> [kNchwN; kNchwH; kNchwW; kNchwC]);
                  (FORMAT_HWCN, Z.of_nat <$> [kNchwH; kNchwW; kNchwC; kNchwN]);
                  (FORMAT_CHWN, Z.of_nat <$> [kNchwC; kNchwH; kNchwW; kNchwN])]);
   (FORMAT_NHWC, [(FORMAT_NCHW, Z.of_nat <$> [kNhwcN; kNhwcC; kNhwcH; kNhwcW]);
                  (FORMAT_CHWN, Z.of_nat <$> [kNhwcC; kNhwcH; kNhwcW; kNhwcN]);
                  (FORMAT_HWCN, Z.of_nat <$> [kNhwcH; kNhwcW; kNhwcC; kNhwcN])]);
   (FORMAT_HWCN, [(FORMAT_NCHW, Z.of_nat <$> [kHwcnN; kHwcnC; kHwcnH; kHwcnW]);
                  (FORMAT_NHWC, Z.of_nat <$> [kHwcnN; kHwcnH; kHwcnW; kHwcnC]);
                  (FORMAT_CHWN, Z.of_nat <$> [kHwcnC; kHwcnH; kHwcnW; kHwcnN])]);
   (FORMAT_CHWN, [(FORMAT_NCHW, Z.of_nat <$> [kChwnN; kChwnC; kChwnH; kChwnW]);
                  (FORMAT_NHWC, Z.of_nat <$> [kChwnN; kChwnH; kChwnW; kChwnC]);
                  (FORMAT_HWCN, Z.of_nat <$> [kChwnH; kChwnW; kChwnC; kChwnN])])].

(** [map.find(key)]. *)
Fixpoint find_key {V} (key : Z) (m : list (Z * V)) : option V :=
  match m with
  | [] => None
  | (k, v) :: m => if k =? key then Some v else find_key key m
  end.

(** [v[i]] with a signed index cast to [size_t]. *)
Definition at_z {A} (l : list A) (i : Z) : outcome A :=
  if i <? 0 then Fault else at_ l (Z.to_nat i).

(** The loop over [perm_arg] with its [exists] counters. *)
Fixpoint perm_loop (size : Z) (exist : list Z) (perm_arg : list Z) : bool :=
  match perm_arg with
  | [] => true
  | perm :: perm_arg =>
    if ((perm <? 0) || (size <=? perm)) || (0 <? default 0 (exist !! Z.to_nat perm)) then false
    else perm_loop size (alter (Z.add 1) (Z.to_nat perm) exist) perm_arg
  end.

Definition IsShapeArgValid (src_shape perm_arg : list Z) : bool :=
  if bool_decide (src_shape = []) then false
  else if existsb (fun dim => dim <? 0) src_shape then false
  else if negb (zlen perm_arg =? zlen src_shape) then false
  else perm_loop (zlen perm_arg) (replicate (length perm_arg) 0) perm_arg.

Definition IsTransposeArgValid (src : option (list Z)) (src_shape : list Z) (src_data_type : Z)
    (perm_arg : list Z) : bool :=
  match src with
  | None => false
  | Some _ =>
    if GetSizeByDataType src_data_type <? 0 then false else IsShapeArgValid src_shape perm_arg
  end.

(** The heads are filled from the last axis to the first. *)
Fixpoint GenHeads (shape : list Z) : list Z :=
  match shape with
  | [] => []
  | _ :: rest =>
    let heads := GenHeads rest in
    match rest, heads with
    | next :: _, next_head :: _ => swrap 64 (next * next_head) :: heads
    | _, _ => [1]
    end
  end.

Fixpoint GenOffset (offsets indexes : list Z) : outcome Z :=
  match indexes, offsets with
  | [], _ => Ok 0
  | i :: indexes, o :: offsets => rest ← GenOffset offsets indexes; Ok (o * i + rest)
  | _ :: _, [] => Fault
  end.

(** [while (i > 0) { if (indexes[i] >= shape[i]) carry; else break; }] *)
Fixpoint AddOne_loop (i : nat) (shape indexes : list Z) : list Z :=
  match i with
  | O => indexes
  | S previous_i =>
    if shape !!! i <=? indexes !!! i
    then AddOne_loop previous_i shape (alter (Z.add 1) previous_i (<[i := 0]> indexes))
    else indexes
  end.

Definition AddOne (shape indexes : list Z) : list Z :=
  let i := (length indexes - 1)%nat in AddOne_loop i shape (alter (Z.add 1) i indexes).

Definition TransShapeByPerm (src_shape perm_arg : list Z) : outcome (list Z) :=
  mapM (at_z src_shape) perm_arg.

(** The null check on the allocation is missing: the null pointer reaches
    [PtrAdd] and [memcpy_s]. *)
Definition Transpose (src : option (list Z)) (src_shape : list Z) (src_data_type : Z)
    (perm_arg : list Z) (result : TransResult) : outcome TransResult :=
  reject_if (negb (IsTransposeArgValid src src_shape src_data_type perm_arg))
            ACL_ERROR_GE_PARAM_INVALID $
  dst_shape ← TransShapeByPerm src_shape perm_arg;
  let src_origin_ordered_heads := GenHeads src_shape in
  src_heads ← TransShapeByPerm src_origin_ordered_heads perm_arg;
  let dst_ele_num := GetItemNumByShape dst_shape in
  let data_size := GetSizeByDataType src_data_type in
  let dst_size := swrap 64 (data_size * dst_ele_num) in
  if dst_ele_num =? 0 then Ok {| res_data := res_data result; res_length := dst_size |} else
  let allocated := can_alloc dst_size in
  let dst := if allocated then replicate (Z.to_nat dst_size) None else [] in
  '(dst, _) ← for_range 0 dst_ele_num (fun dst_index '(dst, dst_indexes) =>
    src_index ← GenOffset src_heads dst_indexes;
    let src_offset := src_index * data_size in
    let dst_offset_bytes := dst_index * data_size in
    p ← guard_size dst_size dst_offset_bytes;
    let ptr := if allocated then PtrAdd dst_size dst_offset_bytes else None in
    dst ← memcpy_chk dst ptr p src src_offset data_size;
    Ok (dst, AddOne dst_shape dst_indexes)) (dst, replicate (length dst_shape) 0);
  Ok {| res_data := Some dst; res_length := dst_size |}.

(** A mismatch between [dst_shape] and the expected shape is only logged. *)
Definition TransposeWithShapeCheck (src : option (list Z)) (src_shape dst_shape : list Z)
    (src_data_type : Z) (perm_arg : list Z) (result : TransResult) : outcome TransResult :=
  reject_if (negb (IsTransposeArgValid src src_shape src_data_type perm_arg))
            ACL_ERROR_GE_PARAM_INVALID $
  expected_shape ← TransShapeByPerm src_shape perm_arg;
  if negb (bool_decide (dst_shape = expected_shape))
  then Transpose src src_shape src_data_type perm_arg result
  else Transpose src src_shape src_data_type perm_arg result.

Definition GetPermByForamt (src_format dst_format : Z) : outcome (list Z) :=
  match find_key src_format perm_args with
  | None => Err ACL_ERROR_GE_FORMAT_INVALID
  | Some dsts =>
    match find_key dst_format dsts with
    | None => Err ACL_ERROR_GE_FORMAT_INVALID
    | Some perm => Ok perm
    end
  end.

Definition TransShape (src_format : Z) (src_shape : list Z) (data_type dst_format : Z)
    : outcome (list Z) :=
  let src_primary_format := GetPrimaryFormat src_format in
  let dst_primary_format := GetPrimaryFormat dst_format in
  perm_arg ← GetPermByForamt src_primary_format dst_primary_format;
  reject_if (negb (IsShapeArgValid src_shape perm_arg)) ACL_ERROR_GE_SHAPE_INVALID $
  TransShapeByPerm src_shape perm_arg.

(** [perm_args[a][b]] yields an empty permutation where the map has no entry. *)
Definition TransFormat (args : TransArgs) (result : TransResult) : outcome TransResult :=
  expected_shape ← TransShape (src_format args) (src_shape args) (src_data_type args)
                              (dst_format args);
  reject_if (negb (IsTransShapeDstCorrect args expected_shape)) ACL_ERROR_GE_SHAPE_INVALID $
  let perm := default [] (find_key (dst_primary_format args)
                (default [] (find_key (src_primary_format args) perm_args))) in
  Transpose (data args) (src_shape args) (src_data_type args) perm result.

Definition transfer : FormatTransfer :=
  {| FormatsUtils.TransFormat := TransFormat; FormatsUtils.TransShape := TransShape |}.
End model.
End TransposeModel.

(** ** Multi-indices *)

Section multi_index.
Implicit Types shape idx : list Z.

Definition in_box shape idx : Prop := Forall2 (fun d i => 0 <= i < d) shape idx.

(** The row-major position of a multi-index. *)
Fixpoint lin shape idx : Z :=
  match shape, idx with
  | _ :: shape, i :: idx => i * prodZ shape + lin shape idx
  | _, _ => 0
  end.

Lemma prodZ_pos shape idx : in_box shape idx -> 0 < prodZ shape.
Proof. induction 1; simpl; nia. Qed.

Lemma lin_bound shape idx : in_box shape idx -> 0 <= lin shape idx < prodZ shape.
Proof.
  induction 1 as [|d i shape idx Hi Hb IH]; simpl; [lia|].
  pose proof (prodZ_pos _ _ Hb). nia.
Qed.

Lemma lin_inj shape idx idx' :
  in_box shape idx -> in_box shape idx' -> lin shape idx = lin shape idx' -> idx = idx'.
Proof.
  intros Hb. revert idx'. induction Hb as [|d i shape idx Hi Hb IH]; intros idx' Hb' E;
    inversion Hb' as [|? i' ? idx2 Hi' Hb2]; subst; [done|]. simpl in E.
  pose proof (lin_bound _ _ Hb). pose proof (lin_bound _ _ Hb2).
  assert (i = i') as -> by nia. f_equal. apply IH; [done|lia].
Qed.

(** The multi-index of a position. *)
Fixpoint unlin shape (e : Z) : list Z :=
  match shape with
  | [] => []
  | _ :: shape => e / prodZ shape :: unlin shape (e mod prodZ shape)
  end.

Lemma unlin_spec shape e :
  Forall (Z.le 0) shape -> 0 <= e < prodZ shape ->
  in_box shape (unlin shape e) /\ lin shape (unlin shape e) = e.
Proof.
  intros Hs. revert e. induction Hs as [|d shape Hd Hs IH]; intros e He; simpl in *.
  - split; [constructor|lia].
  - assert (0 < prodZ shape) by nia.
    destruct (IH (e mod prodZ shape)) as (Hb & E); [by apply Z.mod_pos_bound|]. split.
    + constructor; [|done]. apply div_range; [done|lia].
    + rewrite E. pose proof (Z.div_mod e (prodZ shape)). lia.
Qed.

(** ** The odometer *)

Import TransposeModel.

(** A carry out of a shorter odometer is a carry into the next axis. *)
Lemma AddOne_loop_cons n d i s0 shape i0 idx :
  (n = O \/ i0 < s0) -> (n <= length idx)%nat ->
  AddOne_loop (S n) (d :: s0 :: shape) (i :: i0 :: idx)
  = match AddOne_loop n (s0 :: shape) (i0 :: idx) with
    | j0 :: js => if s0 <=? j0 then 1 + i :: 0 :: js else i :: j0 :: js
    | [] => []
    end.
Proof.
  revert i0 idx. induction n as [|n IH]; intros i0 idx Hn Hl.
  - simpl. destruct (s0 <=? i0); done.
  - destruct Hn as [|Hlt]; [done|].
    transitivity (if (s0 :: shape) !!! S n <=? (i0 :: idx) !!! S n
      then AddOne_loop (S n) (d :: s0 :: shape)
             (i :: alter (Z.add 1) n (<[S n := 0]> (i0 :: idx)))
      else i :: i0 :: idx); [done|].
    change (AddOne_loop (S n) (s0 :: shape) (i0 :: idx))
      with (if (s0 :: shape) !!! S n <=? (i0 :: idx) !!! S n
            then AddOne_loop n (s0 :: shape) (alter (Z.add 1) n (<[S n := 0]> (i0 :: idx)))
            else i0 :: idx).
    destruct ((s0 :: shape) !!! S n <=? (i0 :: idx) !!! S n).
    + destruct n as [|n].
      * apply (IH (1 + i0) (<[O:=0]> idx)); [by left|lia].
      * change (alter (Z.add 1) (S n) (<[S (S n) := 0]> (i0 :: idx)))
          with (i0 :: alter (Z.add 1) n (<[S n := 0]> idx)).
        apply (IH i0 (alter (Z.add 1) n (<[S n:=0]> idx))); [by right|].
        rewrite length_alter, length_insert. lia.
    + by rewrite (proj2 (Z.leb_gt _ _)) by lia.
Qed.

Lemma AddOne_cons d i s0 shape i0 idx :
  i0 < s0 ->
  AddOne (d :: s0 :: shape) (i :: i0 :: idx)
  = match AddOne (s0 :: shape) (i0 :: idx) with
    | j0 :: js => if s0 <=? j0 then 1 + i :: 0 :: js else i :: j0 :: js
    | [] => []
    end.
Proof.
  intros Hlt. unfold AddOne. simpl length. rewrite !Nat.sub_succ, !Nat.sub_0_r.
  destruct idx as [|i1 idx]; simpl length.
  - apply (AddOne_loop_cons 0); simpl; auto; lia.
  - change (alter (Z.add 1) (S (S (length idx))) (i :: i0 :: i1 :: idx))
      with (i :: i0 :: alter (Z.add 1) (length idx) (i1 :: idx)).
    change (alter (Z.add 1) (S (length idx)) (i0 :: i1 :: idx))
      with (i0 :: alter (Z.add 1) (length idx) (i1 :: idx)).
    apply (AddOne_loop_cons (S (length idx)) _ _ _ _ i0 (alter (Z.add 1) (length idx) (i1 :: idx)));
      [by right|]. rewrite length_alter. simpl. lia.
Qed.

(** [AddOne] steps to the next position; only the outermost index may leave
    its range. *)
Lemma AddOne_spec d shape i idx :
  in_box (d :: shape) (i :: idx) ->
  exists j js, AddOne (d :: shape) (i :: idx) = j :: js /\ 0 <= j <= d /\ in_box shape js /\
    lin (d :: shape) (j :: js) = lin (d :: shape) (i :: idx) + 1.
Proof.
  revert d i idx. induction shape as [|s0 shape IH]; intros d i idx Hb;
    apply Forall2_cons in Hb as [Hi Hb].
  - apply Forall2_nil_inv_l in Hb as ->. exists (1 + i), []. split; [done|].
    split; [lia|]. split; [constructor|]. simpl. lia.
  - destruct idx as [|i0 idx]; [by apply Forall2_cons_nil_inv in Hb|].
    destruct (IH s0 i0 idx Hb) as (j & js & Ej & Hj & Hjs & El).
    pose proof (prodZ_pos _ _ Hb) as Hp. apply Forall2_cons in Hb as [Hi0 Hb].
    rewrite AddOne_cons, Ej by lia. destruct (Z.leb_spec s0 j).
    + exists (1 + i), (0 :: js). split; [done|]. split; [lia|]. split; [by constructor; [lia|]|].
      cbn [lin] in *. cbn [prodZ] in *. assert (j = s0) as -> by lia. lia.
    + exists i, (j :: js). split; [done|]. split; [lia|]. split; [by constructor; [lia|]|].
      cbn [lin] in *. cbn [prodZ] in *. lia.
Qed.

(** Short of the last position the index stays in the box. *)
Lemma AddOne_in_box shape idx :
  in_box shape idx -> lin shape idx + 1 < prodZ shape ->
  in_box shape (AddOne shape idx) /\ lin shape (AddOne shape idx) = lin shape idx + 1.
Proof.
  destruct shape as [|d shape]; intros Hb Hlt.
  - simpl in Hlt. apply Forall2_nil_inv_l in Hb as ->. simpl in *. lia.
  - destruct idx as [|i idx]; [by apply Forall2_cons_nil_inv in Hb|].
    destruct (AddOne_spec d shape i idx Hb) as (j & js & -> & Hj & Hjs & El). split; [|done].
    constructor; [|done]. split; [lia|]. rewrite <- El in Hlt. simpl in Hlt.
    pose proof (lin_bound _ _ Hjs). nia.
Qed.
End multi_index.

(** ** Permutations of axes *)

Definition is_perm (n : Z) (perm : list Z) : Prop := perm ≡ₚ seqZ 0 n.

(** Entry [i] of the result is entry [perm[i]] of [l]. *)
Definition permute (perm l : list Z) : list Z := (fun p => l !!! Z.to_nat p) <$> perm.

Definition sumZ (l : list Z) : Z := foldr Z.add 0 l.

Section permutations.
Import TransposeModel.

Lemma is_perm_NoDup n perm : is_perm n perm -> NoDup perm.
Proof. intros E. rewrite E. apply NoDup_seqZ. Qed.

Lemma is_perm_range n perm p : is_perm n perm -> p ∈ perm -> 0 <= p < n.
Proof. intros E. rewrite E, elem_of_seqZ. lia. Qed.

Lemma is_perm_length n perm : 0 <= n -> is_perm n perm -> zlen perm = n.
Proof. intros Hn E. unfold zlen. rewrite E, length_seqZ. lia. Qed.

Lemma perm_loop_spec size exist perm :
  Forall (Z.le 0) exist -> zlen exist = size -> perm_loop size exist perm = true ->
  NoDup perm /\ Forall (fun p => 0 <= p < size /\ exist !! Z.to_nat p = Some 0) perm.
Proof.
  revert exist. induction perm as [|p perm IH]; intros exist Hex Hl Hp; simpl in Hp.
  { split; constructor. }
  destruct ((p <? 0) || (size <=? p)) eqn:Hr; simpl in Hp; [done|].
  apply orb_false_iff in Hr as [Hr1%Z.ltb_ge Hr2%Z.leb_gt].
  destruct (lookup_lt_is_Some_2 exist (Z.to_nat p)) as [x Hx]; [unfold zlen in *; lia|].
  rewrite Hx in Hp. simpl in Hp. destruct (Z.ltb_spec 0 x) as [|Hx0]; [done|].
  assert (x = 0) as -> by (pose proof (Forall_lookup_1 _ _ _ _ Hex Hx); lia).
  destruct (IH (alter (Z.add 1) (Z.to_nat p) exist)) as [Hnd Hall]; [| |exact Hp|].
  - apply Forall_alter; [done|]. intros y Hy Hy0. lia.
  - unfold zlen in *. by rewrite length_alter.
  - assert (Hne : forall q, q ∈ perm -> q <> p /\ exist !! Z.to_nat q = Some 0 /\ 0 <= q < size).
    { intros q Hq. destruct (proj1 (Forall_forall _ _) Hall q Hq) as [Hqr Hq0].
      destruct (decide (q = p)) as [->|Hqp].
      - rewrite list_lookup_alter_eq, Hx in Hq0. done.
      - rewrite list_lookup_alter_ne in Hq0 by lia. done. }
    split; [constructor; [|done]; intros Hin; by destruct (Hne p Hin) as [? _]|].
    constructor; [done|]. apply Forall_forall. intros q Hq. destruct (Hne q Hq) as (_ & ? & ?). done.
Qed.

(** The argument check accepts permutations only. *)
Lemma IsShapeArgValid_perm shape perm :
  IsShapeArgValid shape perm = true ->
  is_perm (zlen shape) perm /\ Forall (Z.le 0) shape /\ shape <> [].
Proof.
  unfold IsShapeArgValid. destruct (bool_decide_reflect (shape = [])) as [|Hne]; [done|].
  destruct (existsb _ shape) eqn:He; [done|].
  destruct (Z.eqb_spec (zlen perm) (zlen shape)) as [El|]; simpl; [|done]. intros Hp.
  assert (Hs : Forall (Z.le 0) shape).
  { apply Forall_forall. intros d Hd.
    destruct (Z.ltb_spec d 0) as [Hlt|]; [|lia]. exfalso.
    assert (existsb (fun dim => dim <? 0) shape = true); [|congruence].
    apply existsb_exists. exists d. split; [by apply list_elem_of_In|by apply Z.ltb_lt]. }
  destruct (perm_loop_spec (zlen perm) (replicate (length perm) 0) perm) as [Hnd Hall]; [..|done|].
  - apply Forall_replicate. lia.
  - unfold zlen. by rewrite length_replicate.
  - split; [|done]. unfold is_perm. rewrite <- El. apply submseteq_length_Permutation.
    + apply NoDup_submseteq; [done|]. intros p Hp'. apply elem_of_seqZ.
      destruct (proj1 (Forall_forall _ _) Hall p Hp'). lia.
    + rewrite length_seqZ. unfold zlen. lia.
Qed.

Lemma permute_lookup perm l i p :
  perm !! i = Some p -> permute perm l !! i = Some (l !!! Z.to_nat p).
Proof. intros E. unfold permute. by rewrite list_lookup_fmap, E. Qed.

Lemma length_permute perm l : length (permute perm l) = length perm.
Proof. apply length_fmap. Qed.

Lemma permute_id l : permute (seqZ 0 (zlen l)) l = l.
Proof.
  apply list_eq. intros i. unfold permute. rewrite list_lookup_fmap.
  destruct (decide (i < length l)%nat) as [Hi|Hi].
  - rewrite lookup_seqZ_lt by (unfold zlen; lia). simpl.
    rewrite Z.add_0_l, Nat2Z.id. symmetry. by apply list_lookup_lookup_total_lt.
  - rewrite lookup_seqZ_ge, lookup_ge_None_2 by (unfold zlen; lia). done.
Qed.

(** A permuted list is a permutation of the list. *)
Lemma permute_Permutation perm l : is_perm (zlen l) perm -> permute perm l ≡ₚ l.
Proof. intros E. unfold permute. rewrite E. fold (permute (seqZ 0 (zlen l)) l). by rewrite permute_id. Qed.

Lemma at_z_ok (l : list Z) p : 0 <= p < zlen l -> at_z l p = Ok (l !!! Z.to_nat p).
Proof.
  intros Hp. unfold at_z. rewrite (proj2 (Z.ltb_ge _ _)) by lia. apply at_Ok.
  apply list_lookup_lookup_total_lt. unfold zlen in Hp. lia.
Qed.

Lemma TransShapeByPerm_ok l perm :
  is_perm (zlen l) perm -> TransShapeByPerm l perm = Ok (permute perm l).
Proof.
  intros E. assert (Hr : Forall (fun p => 0 <= p < zlen l) perm)
    by (apply Forall_forall; intros p; by apply is_perm_range).
  clear E. unfold TransShapeByPerm. induction Hr as [|p perm Hp Hr IH]; [done|].
  simpl. rewrite at_z_ok by done. simpl. rewrite IH. done.
Qed.

Lemma permute_zip_with perm l k :
  is_perm (zlen l) perm -> zlen k = zlen l ->
  zip_with Z.mul (permute perm l) (permute perm k) = permute perm (zip_with Z.mul l k).
Proof.
  intros E Hlen. assert (Hr : Forall (fun p => 0 <= p < zlen l) perm)
    by (apply Forall_forall; intros p; by apply is_perm_range).
  clear E. induction Hr as [|p perm Hp Hr IH]; [done|]. unfold permute in *.
  rewrite !fmap_cons. cbn [zip_with]. rewrite IH. f_equal. unfold zlen in *. symmetry. apply list_lookup_total_correct. rewrite lookup_zip_with.
  rewrite (list_lookup_lookup_total_lt l), (list_lookup_lookup_total_lt k) by lia. done.
Qed.

Lemma sumZ_Permutation l k : l ≡ₚ k -> sumZ l = sumZ k.
Proof. induction 1; simpl; lia. Qed.

Lemma prodZ_Permutation l k : l ≡ₚ k -> prodZ l = prodZ k.
Proof. induction 1; simpl; nia. Qed.

Lemma GenOffset_sum offsets idx :
  length offsets = length idx -> GenOffset offsets idx = Ok (sumZ (zip_with Z.mul offsets idx)).
Proof.
  revert idx. induction offsets as [|o offsets IH]; intros [|i idx] Hl; simpl in *; try done.
  rewrite IH by lia. done.
Qed.

(** On shapes whose size fits, the heads are the suffix products. *)
Lemma GenHeads_spec shape :
  Forall (Z.lt 0) shape -> prodZ shape <= kShapeItemNumMAX ->
  length (GenHeads shape) = length shape /\
  (forall d rest, shape = d :: rest -> GenHeads shape = prodZ rest :: GenHeads rest).
Proof.
  intros Hs. induction Hs as [|d shape Hd Hs IH]; intros Hb; [by split|].
  assert (Hp : 0 < prodZ shape) by (clear -Hs; induction Hs; simpl; nia).
  destruct IH as [Hl Hh]; [simpl in Hb; nia|].
  destruct shape as [|d' shape]; [split; [done|by intros ? ? [= -> <-]]|].
  assert (E : GenHeads (d :: d' :: shape) = prodZ (d' :: shape) :: GenHeads (d' :: shape)).
  { pose proof (Hh _ _ eq_refl) as E.
    transitivity (match GenHeads (d' :: shape) with
      | h :: _ => swrap 64 (d' * h) :: GenHeads (d' :: shape) | [] => [1] end); [done|].
    rewrite E at 1. rewrite swrap64_small; [done|].
    simpl in Hb, Hp. unfold kShapeItemNumMAX in Hb. nia. }
  split; [rewrite E; cbn [length] in *; lia|]. by intros ? ? [= <- <-].
Qed.

Lemma GenHeads_lin shape idx :
  Forall (Z.lt 0) shape -> prodZ shape <= kShapeItemNumMAX -> length idx = length shape ->
  sumZ (zip_with Z.mul (GenHeads shape) idx) = lin shape idx.
Proof.
  intros Hs. revert idx. induction Hs as [|d shape Hd Hs IH]; intros [|i idx] Hb Hl; try done.
  assert (Hp : 0 < prodZ shape) by (clear -Hs; induction Hs; simpl; nia).
  destruct (GenHeads_spec (d :: shape)) as [_ E]; [by constructor|done|].
  rewrite (E _ _ eq_refl). simpl in *. rewrite IH; [lia|nia|lia].
Qed.

(** The offset of a permuted index through the permuted heads. *)
Lemma permuted_offset shape perm si :
  Forall (Z.lt 0) shape -> prodZ shape <= kShapeItemNumMAX -> is_perm (zlen shape) perm ->
  length si = length shape ->
  GenOffset (permute perm (GenHeads shape)) (permute perm si) = Ok (lin shape si).
Proof.
  intros Hs Hb Hp Hl. destruct (GenHeads_spec shape Hs Hb) as [Hh _].
  rewrite GenOffset_sum by (by rewrite !length_permute). f_equal.
  assert (Hz : zlen (zip_with Z.mul (GenHeads shape) si) = zlen shape)
    by (unfold zlen; rewrite length_zip_with; lia).
  rewrite permute_zip_with; [|unfold zlen in *; by rewrite Hh|unfold zlen; lia].
  rewrite (sumZ_Permutation _ (zip_with Z.mul (GenHeads shape) si));
    [|apply permute_Permutation; by rewrite Hz].
  by apply GenHeads_lin.
Qed.

Lemma in_box_permute shape perm si :
  is_perm (zlen shape) perm -> in_box shape si -> in_box (permute perm shape) (permute perm si).
Proof.
  intros Hp Hb. apply Forall2_fmap, Forall_Forall2_diag, Forall_forall. intros p Hin.
  apply (is_perm_range _ _ _ Hp) in Hin. unfold zlen in Hin.
  pose proof (Forall2_length _ _ _ Hb) as Hl.
  eapply (Forall2_lookup_lr (fun d i => 0 <= i < d) _ _ (Z.to_nat p)); [exact Hb|..];
    apply list_lookup_lookup_total_lt; lia.
Qed.

(** Every destination index comes from a source index. *)
Lemma unpermute shape perm idx :
  is_perm (zlen shape) perm -> in_box (permute perm shape) idx ->
  exists si, in_box shape si /\ permute perm si = idx.
Proof.
  intros Hp Hb. pose proof (Forall2_length _ _ _ Hb) as Hl. rewrite length_permute in Hl.
  set (at_axis := fun p => default 0 (k ← list_find (.= p) perm; idx !! k.1)).
  assert (Hat : forall i p, perm !! i = Some p -> idx !! i = Some (at_axis p)).
  { intros i p Hi. unfold at_axis. destruct (list_find (.= p) perm) as [[j q]|] eqn:Ef.
    - apply list_find_Some in Ef as (Hj & -> & _). simpl.
      rewrite (NoDup_lookup _ _ _ _ (is_perm_NoDup _ _ Hp) Hj Hi).
      destruct (lookup_lt_is_Some_2 idx i) as [x Hx]; [|by rewrite Hx].
      rewrite <- Hl. by eapply lookup_lt_Some.
    - apply list_find_None in Ef. exfalso.
      by apply (proj1 (Forall_forall _ _) Ef p (list_elem_of_lookup_2 _ _ _ Hi)). }
  exists (at_axis <$> seqZ 0 (zlen shape)). split.
  - apply Forall2_same_length_lookup. split.
    + rewrite length_fmap, length_seqZ. unfold zlen. lia.
    + intros j d x Hd Hx. rewrite list_lookup_fmap in Hx.
      apply fmap_Some in Hx as (p & Hpj & ->). apply lookup_seqZ in Hpj as [-> Hpj].
      assert (Hin : Z.of_nat j ∈ perm) by (rewrite Hp; apply elem_of_seqZ; lia).
      apply list_elem_of_lookup_1 in Hin as [i Hi]. rewrite Z.add_0_l.
      eapply (Forall2_lookup_lr (fun d i => 0 <= i < d) _ _ i); [exact Hb| |by apply Hat].
      rewrite (permute_lookup _ _ _ _ Hi), Nat2Z.id.
      f_equal. by apply list_lookup_total_correct.
  - apply list_eq. intros i. destruct (perm !! i) as [p|] eqn:Hi.
    + rewrite (permute_lookup _ _ _ _ Hi), (Hat _ _ Hi). f_equal.
      apply list_lookup_total_correct. rewrite list_lookup_fmap.
      pose proof (is_perm_range _ _ _ Hp (list_elem_of_lookup_2 _ _ _ Hi)).
      rewrite lookup_seqZ_lt by lia. simpl. f_equal. f_equal. lia.
    + apply lookup_ge_None in Hi. rewrite !lookup_ge_None_2; [done|lia|].
      rewrite length_permute. lia.
Qed.
End permutations.

(** ** Transpose *)

Section transpose.
Context `{GeTypesLaws} `{SecureCLaws}.
Import TransposeModel.

Lemma in_box_zeroes shape : Forall (Z.lt 0) shape -> in_box shape (replicate (length shape) 0).
Proof. induction 1; simpl; constructor; [lia|done]. Qed.

Lemma lin_zeroes shape : lin shape (replicate (length shape) 0) = 0.
Proof. induction shape; simpl; lia. Qed.

Lemma prodZ_Forall_pos shape : Forall (Z.le 0) shape -> 0 < prodZ shape -> Forall (Z.lt 0) shape.
Proof.
  induction 1 as [|d shape Hd Hs IH]; simpl; intros Hp; [constructor|].
  destruct (Z.eq_dec d 0) as [->|]; [lia|]. constructor; [lia|]. apply IH. nia.
Qed.

(** The source position of element [e] of the destination. *)
Definition transpose_src (shape perm : list Z) (e : Z) : Z :=
  sumZ (zip_with Z.mul (permute perm (GenHeads shape)) (unlin (permute perm shape) e)).

Lemma transpose_src_at shape perm si :
  Forall (Z.lt 0) shape -> prodZ shape <= kShapeItemNumMAX -> is_perm (zlen shape) perm ->
  in_box shape si ->
  transpose_src shape perm (lin (permute perm shape) (permute perm si)) = lin shape si.
Proof.
  intros Hs Hb Hp Hsi. pose proof (in_box_permute _ _ _ Hp Hsi) as Hd.
  pose proof (Forall2_length _ _ _ Hsi) as Hl.
  destruct (unlin_spec (permute perm shape) (lin (permute perm shape) (permute perm si)))
    as [Hu Eu]; [|by apply lin_bound|].
  { rewrite (permute_Permutation _ _ Hp). eapply Forall_impl; [exact Hs|]. simpl. lia. }
  unfold transpose_src. rewrite (lin_inj _ _ _ Hu Hd Eu).
  pose proof (permuted_offset shape perm si Hs Hb Hp ltac:(lia)) as Ho.
  rewrite GenOffset_sum in Ho; [by injection Ho|]. by rewrite !length_permute.
Qed.

Lemma transpose_delivers d shape dt perm r :
  let size := GetSizeByDataType dt in
  let N := prodZ shape in
  IsShapeArgValid shape perm = true -> 0 < size -> 0 < N <= kShapeItemNumMAX ->
  N * size <= zlen d -> can_alloc (N * size) = true ->
  wp (Transpose (Some d) shape dt perm r)
     (delivers N size (fun e => elem d size (transpose_src shape perm e))).
Proof.
  intros size N Hv Hsz HN Hd Hal.
  destruct (IsShapeArgValid_perm _ _ Hv) as (Hp & Hs0 & Hne).
  assert (Hs := prodZ_Forall_pos shape Hs0 ltac:(fold N; lia)).
  assert (Hm := type_size_bound dt). destruct (GenHeads_spec shape Hs ltac:(fold N; lia)) as [Hh _].
  set (ds := permute perm shape). assert (Eds : ds ≡ₚ shape) by (by apply permute_Permutation).
  assert (Hds : Forall (Z.lt 0) ds) by (by rewrite Eds).
  assert (EN : prodZ ds = N) by (by apply prodZ_Permutation).
  unfold Transpose, IsTransposeArgValid. fold size.
  rewrite (proj2 (Z.ltb_ge size 0)), Hv by lia. apply wp_reject; [done|].
  eapply wp_bind_eq; [by apply TransShapeByPerm_ok|]. fold ds.
  eapply wp_bind_eq; [apply TransShapeByPerm_ok; unfold zlen in *; by rewrite Hh|]. cbv beta zeta.
  rewrite (item_num_exact ds), EN, (Z.mul_comm size N) by (lia || done).
  rewrite swrap64_small, Hal by (unfold max_type_size, kShapeItemNumMAX in *; nia).
  rewrite (proj2 (Z.eqb_neq _ 0)) by lia.
  set (spec := fun e => elem d size (transpose_src shape perm e)).
  apply wp_bind. eapply wp_mono.
  - apply (wp_for (fun k '(dst, idx) => agree N size spec (fun e => 0 <= e < k) dst /\
             (k < N -> in_box ds idx /\ lin ds idx = k))); [lia| |].
    + split; [|intros _; split; [by apply in_box_zeroes|apply lin_zeroes]].
      eapply agree_weaken; [|apply agree_start; apply zlen_replicate; nia]. simpl. lia.
    + intros k [dst idx] Hk [Ha Hidx]. destruct (Hidx ltac:(lia)) as [Hb El]. clear Hidx.
      destruct (unpermute shape perm idx Hp Hb) as (si & Hsi & Eidx). rewrite <- Eidx in *.
      pose proof (Forall2_length _ _ _ Hsi) as Hlen.
      eapply wp_bind_eq; [apply permuted_offset; (done || lia)|]. cbv zeta.
      pose proof (lin_bound _ _ Hsi) as HS.
      eapply wp_guard; [exact Hsz|exact Hk|done|]. intros p Hpp.
      apply wp_bind. eapply wp_mono.
      * eapply wp_memcpy_elem; [exact Hsz|exact Ha|exact Hk|done|by apply PtrAdd_elem|lia|nia|].
        unfold spec. by rewrite <- El, transpose_src_at by (done || lia).
      * intros dst' Ha'. simpl. split.
        -- eapply agree_weaken; [|exact Ha']. simpl. lia.
        -- intros Hlt. rewrite <- El. apply AddOne_in_box; [done|lia].
  - intros [out idx] [Ha _]. eapply agree_delivers; [exact Hsz|exact Ha|done].
Qed.
(** The element at the permuted multi-index is the source element at the
    multi-index. *)
Lemma transpose_moves d shape dt perm r :
  let size := GetSizeByDataType dt in
  let N := prodZ shape in
  IsShapeArgValid shape perm = true -> 0 < size -> 0 < N <= kShapeItemNumMAX ->
  N * size <= zlen d -> can_alloc (N * size) = true ->
  exists bs,
    Transpose (Some d) shape dt perm r
    = Ok {| res_data := Some (Some <$> bs); res_length := N * size |} /\
    zlen bs = N * size /\
    forall si, in_box shape si ->
      elem bs size (lin (permute perm shape) (permute perm si)) = elem d size (lin shape si).
Proof.
  intros size N Hv Hsz HN Hd Hal.
  destruct (IsShapeArgValid_perm _ _ Hv) as (Hp & Hs0 & _).
  destruct (delivers_eq _ _ _ _ (transpose_delivers d shape dt perm r Hv Hsz HN Hd Hal))
    as (bs & E & Hz & He). exists bs. split; [done|]. split; [done|]. intros si Hsi.
  assert (EN : prodZ (permute perm shape) = N) by (by apply prodZ_Permutation, permute_Permutation).
  pose proof (lin_bound _ _ (in_box_permute _ _ _ Hp Hsi)) as Hb.
  fold size in He. rewrite He, transpose_src_at; try done; [|fold N; lia|unfold N in *; lia].
  apply prodZ_Forall_pos; [done|]. fold N. lia.
Qed.

End transpose.

(** ** Theorems *)

Section theorems.
Context `{GeTypesLaws} `{SecureCLaws}.
Import TransposeModel.

Lemma permute_permute q perm l :
  Forall (fun p => 0 <= p < zlen perm) q -> permute q (permute perm l) = permute (permute q perm) l.
Proof.
  intros Hq. unfold permute at 1 3. unfold permute at 2. rewrite <- list_fmap_compose.
  apply list_fmap_ext. intros i p Hp. simpl.
  pose proof (Forall_lookup_1 _ _ _ _ Hq Hp) as Hr. simpl in Hr. unfold zlen in Hr.
  apply list_lookup_total_correct. apply permute_lookup.
  apply list_lookup_lookup_total_lt. lia.
Qed.

(** Transposing by a permutation and then by its inverse. *)
Lemma transpose_inverse_core d shape dt perm q r1 r2 :
  let size := GetSizeByDataType dt in
  let N := prodZ shape in
  IsShapeArgValid shape perm = true -> IsShapeArgValid (permute perm shape) q = true ->
  permute q perm = seqZ 0 (zlen shape) ->
  0 < size -> 0 < N <= kShapeItemNumMAX -> zlen d = N * size -> (forall k, can_alloc k = true) ->
  exists bs,
    Transpose (Some d) shape dt perm r1
    = Ok {| res_data := Some (Some <$> bs); res_length := N * size |} /\
    Transpose (Some bs) (permute perm shape) dt q r2
    = Ok {| res_data := Some (Some <$> d); res_length := N * size |}.
Proof.
  intros size N Hv Hv2 Hinv Hsz HN Hd Hal.
  destruct (IsShapeArgValid_perm _ _ Hv) as (Hp & Hs0 & _).
  destruct (IsShapeArgValid_perm _ _ Hv2) as (Hq & _ & _).
  pose proof (permute_Permutation _ _ Hp) as Eds.
  assert (EN : prodZ (permute perm shape) = N) by (by apply prodZ_Permutation).
  assert (Hs := prodZ_Forall_pos shape Hs0 ltac:(fold N; lia)).
  assert (Hzp : zlen (permute perm shape) = zlen perm) by (unfold zlen; by rewrite length_permute).
  assert (Hback : forall l, zlen l = zlen shape -> permute q (permute perm l) = l).
  { intros l Hl. rewrite permute_permute, Hinv, <- Hl; [apply permute_id|].
    apply Forall_forall. intros p Hin. rewrite <- Hzp. by apply (is_perm_range _ _ _ Hq). }
  destruct (delivers_eq _ _ _ _ (transpose_delivers d shape dt perm r1 Hv Hsz HN
    ltac:(fold N size; lia) (Hal _))) as (bs & E1 & Hz & He). exists bs. split; [done|].
  pose proof (transpose_delivers bs (permute perm shape) dt q r2 Hv2 Hsz) as Hd2.
  rewrite EN in Hd2.
  destruct (delivers_eq _ _ _ _ (Hd2 HN ltac:(fold N size in Hz |- *; lia) (Hal _)))
    as (bs2 & -> & Hz2 & He2).
  do 4 f_equal. apply (elem_ext _ _ N size); [done|done|done|]. intros e Hr.
  destruct (unlin_spec shape e Hs0 Hr) as [Hb El]. set (si := unlin shape e) in *.
  pose proof (Forall2_length _ _ _ Hb) as Hlen.
  fold size in He2. rewrite He2 by done.
  pose proof (in_box_permute _ _ _ Hp Hb) as Hb2.
  assert (Ee : e = lin (permute q (permute perm shape)) (permute q (permute perm si)))
    by (rewrite !Hback; unfold zlen; congruence).
  rewrite Ee at 1. rewrite transpose_src_at; [|by rewrite Eds|lia|done|done].
  rewrite He by (change (prodZ shape) with N; rewrite <- EN; by apply lin_bound).
  rewrite transpose_src_at by (done || (fold N; lia)). by rewrite El.
Qed.

(** The rows of the permutation table. *)
Definition perm_rows : list (Z * Z * list Z) :=
  [(FORMAT_NCHW, FORMAT_NHWC, [0; 2; 3; 1]); (FORMAT_NCHW, FORMAT_HWCN, [2; 3; 1; 0]);
   (FORMAT_NCHW, FORMAT_CHWN, [1; 2; 3; 0]); (FORMAT_NHWC, FORMAT_NCHW, [0; 3; 1; 2]);
   (FORMAT_NHWC, FORMAT_CHWN, [3; 1; 2; 0]); (FORMAT_NHWC, FORMAT_HWCN, [1; 2; 3; 0]);
   (FORMAT_HWCN, FORMAT_NCHW, [3; 2; 0; 1]); (FORMAT_HWCN, FORMAT_NHWC, [3; 0; 1; 2]);
   (FORMAT_HWCN, FORMAT_CHWN, [2; 0; 1; 3]); (FORMAT_CHWN, FORMAT_NCHW, [3; 0; 1; 2]);
   (FORMAT_CHWN, FORMAT_NHWC, [3; 1; 2; 0]); (FORMAT_CHWN, FORMAT_HWCN, [1; 2; 0; 3])].

Lemma find_key_In {V} (k : Z) (m : list (Z * V)) v : find_key k m = Some v -> In (k, v) m.
Proof.
  induction m as [|[k' v'] m IH]; simpl; [done|].
  destruct (Z.eqb_spec k' k) as [->|]; [intros [= ->]; by left|auto].
Qed.

Lemma GetPermByForamt_row a b p : GetPermByForamt a b = Ok p -> In (a, b, p) perm_rows.
Proof.
  unfold GetPermByForamt. destruct (find_key a perm_args) as [row|] eqn:Er; [|done].
  destruct (find_key b row) as [p'|] eqn:Ep; [|done]. intros [= <-].
  apply find_key_In in Er, Ep. simpl in Er.
  destruct Er as [[= <- <-]|[[= <- <-]|[[= <- <-]|[[= <- <-]|[]]]]]; simpl in Ep;
    destruct Ep as [[= <- <-]|[[= <- <-]|[[= <- <-]|[]]]]; unfold perm_rows; simpl; tauto.
Qed.

Lemma perm_args_inverse a b p q :
  GetPermByForamt a b = Ok p -> GetPermByForamt b a = Ok q -> permute q p = seqZ 0 4.
Proof.
  assert (FORMAT_NCHW <> FORMAT_NHWC) by (by apply (formats_neq 0 1)).
  assert (FORMAT_NCHW <> FORMAT_HWCN) by (by apply (formats_neq 0 7)).
  assert (FORMAT_NCHW <> FORMAT_CHWN) by (by apply (formats_neq 0 6)).
  assert (FORMAT_NHWC <> FORMAT_HWCN) by (by apply (formats_neq 1 7)).
  assert (FORMAT_NHWC <> FORMAT_CHWN) by (by apply (formats_neq 1 6)).
  assert (FORMAT_HWCN <> FORMAT_CHWN) by (by apply (formats_neq 7 6)).
  intros Hp%GetPermByForamt_row Hq%GetPermByForamt_row. unfold perm_rows in *. simpl in Hp, Hq.
  repeat (destruct Hp as [Hp|Hp]; [injection Hp as <- <- <-|]); [..|done];
    repeat (destruct Hq as [Hq|Hq]; [first [congruence | (injection Hq; intros; subst q; reflexivity)]|]); done.
Qed.

(** What the dispatch of [TransFormat] amounts to on consistent arguments. *)
Lemma TransFormat_Transpose args r :
  consistent args ->
  TransposeModel.TransShape (src_format args) (src_shape args) (src_data_type args)
    (dst_format args) = Ok (dst_shape args) ->
  exists p,
    GetPermByForamt (src_primary_format args) (dst_primary_format args) = Ok p /\
    IsShapeArgValid (src_shape args) p = true /\ dst_shape args = permute p (src_shape args) /\
    TransposeModel.TransFormat args r
    = Transpose (data args) (src_shape args) (src_data_type args) p r.
Proof.
  intros (E1 & E2 & _) Ht. pose proof Ht as Hs. unfold TransposeModel.TransShape in Hs.
  rewrite <- E1, <- E2 in Hs. apply bind_Ok in Hs as (p & Hp & Hs). apply reject_Ok in Hs as [Hv Hs].
  apply negb_false_iff in Hv. destruct (IsShapeArgValid_perm _ _ Hv) as (Hperm & _).
  rewrite TransShapeByPerm_ok in Hs by done. injection Hs as Hs.
  exists p. split; [done|]. split; [done|]. split; [done|].
  unfold TransposeModel.TransFormat. rewrite Ht. cbn [mbind outcome_bind].
  rewrite dst_correct. cbn [negb reject_if]. cbv zeta. revert Hp. unfold GetPermByForamt.
  destruct (find_key (src_primary_format args) perm_args) as [dsts|]; [|done]. change (default [] (Some dsts)) with dsts.
  destruct (find_key (dst_primary_format args) dsts); [|done]. by intros [= ->].
Qed.

(** C24: [Transpose] for every rank and permutation.  Whatever the argument
    check accepts is a permutation of the axes, and the element at the
    permuted multi-index of the result is the source element at the
    multi-index. *)
Theorem transpose_correct d shape dt perm r :
  let size := GetSizeByDataType dt in
  let N := prodZ shape in
  IsShapeArgValid shape perm = true -> 0 < size -> 0 < N <= kShapeItemNumMAX ->
  N * size <= zlen d -> can_alloc (N * size) = true ->
  is_perm (zlen shape) perm /\
  exists bs,
    Transpose (Some d) shape dt perm r
    = Ok {| res_data := Some (Some <$> bs); res_length := N * size |} /\
    zlen bs = N * size /\
    forall si, in_box shape si ->
      elem bs size (lin (permute perm shape) (permute perm si)) = elem d size (lin shape si).
Proof.
  intros size N Hv Hsz HN Hd Hal. split; [|by apply transpose_moves].
  by destruct (IsShapeArgValid_perm _ _ Hv).
Qed.

(** The transfers among NCHW, NHWC, HWCN and CHWN are inverse in pairs:
    converting a tensor to another of the four formats and back restores the
    source buffer. *)
Theorem transpose_formats_roundtrip args1 args2 r1 r2 d :
  let size := GetSizeByDataType (src_data_type args1) in
  let N := prodZ (src_shape args1) in
  consistent args1 -> consistent args2 ->
  dst_primary_format args1 = src_primary_format args2 ->
  dst_primary_format args2 = src_primary_format args1 ->
  src_shape args2 = dst_shape args1 -> src_data_type args2 = src_data_type args1 ->
  TransposeModel.TransShape (src_format args1) (src_shape args1) (src_data_type args1)
    (dst_format args1) = Ok (dst_shape args1) ->
  TransposeModel.TransShape (src_format args2) (src_shape args2) (src_data_type args2)
    (dst_format args2) = Ok (dst_shape args2) ->
  0 < size -> 0 < N <= kShapeItemNumMAX ->
  data args1 = Some d -> zlen d = N * size -> (forall k, can_alloc k = true) ->
  dst_shape args2 = src_shape args1 /\
  exists bs,
    TransposeModel.TransFormat args1 r1
    = Ok {| res_data := Some (Some <$> bs); res_length := N * size |} /\
    TransposeModel.TransFormat (with_data args2 bs) r2
    = Ok {| res_data := Some (Some <$> d); res_length := N * size |}.
Proof.
  intros size N Hc1 Hc2 Eab Eba Es Edt Ht1 Ht2 Hsz HN Ed Hd Hal.
  destruct (TransFormat_Transpose args1 r1 Hc1 Ht1) as (p & Hp & Hv1 & Eds & ->).
  destruct (TransFormat_Transpose args2 r2 Hc2 Ht2) as (q & Hq & Hv2 & Eds2 & _).
  rewrite Eab in Hp. rewrite Eba in Hq. pose proof (perm_args_inverse _ _ _ _ Hp Hq) as Hinv.
  rewrite Es, Eds in Hv2.
  destruct (IsShapeArgValid_perm _ _ Hv1) as (Hperm & _).
  assert (Hlen : zlen (src_shape args1) = 4).
  { rewrite <- (is_perm_length _ _ (zlen_nonneg _) Hperm).
    pose proof (f_equal length Hinv) as El. rewrite length_permute, length_seqZ in El.
    destruct (IsShapeArgValid_perm _ _ Hv2) as (Hq4 & _).
    pose proof (is_perm_length _ _ (zlen_nonneg _) Hq4) as E4. unfold zlen in *.
    rewrite length_permute in E4. lia. }
  rewrite <- Hlen in Hinv. rewrite Ed.
  destruct (transpose_inverse_core d (src_shape args1) (src_data_type args1) p q r1 r2)
    as (bs & E1 & E2); try done. split.
  - rewrite Eds2, Es, Eds, permute_permute, Hinv by
      (apply Forall_forall; intros x Hx; destruct (IsShapeArgValid_perm _ _ Hv2) as (Hq4 & _);
       pose proof (is_perm_range _ _ _ Hq4 Hx) as Hr; unfold zlen in *;
       by rewrite length_permute in Hr).
    apply permute_id.
  - exists bs. split; [done|].
    destruct (TransFormat_Transpose (with_data args2 bs) r2 Hc2 Ht2) as (q' & Hq' & _ & _ & ->).
    simpl in Hq'. rewrite Eba, Hq in Hq'. injection Hq' as <-. simpl. by rewrite Es, Eds, Edt.
Qed.
End theorems.

(** ** Runs *)

Module RunsTranspose.
Import Concrete Sample TransposeModel.

Lemma transpose_correct_run :
  exists bs, Transpose (Some (seqZ 1 24)) [2; 3; 4] 2 [2; 0; 1] empty_result
    = Ok {| res_data := Some (Some <$> bs); res_length := 24 |}.
Proof.
  destruct (transpose_correct (seqZ 1 24) [2; 3; 4] 2 [2; 0; 1] empty_result)
    as (_ & bs & E & _); [run_hyp..|]. exists bs. exact E.
Defined.

Lemma transpose_formats_roundtrip_run :
  exists bs, TransposeModel.TransFormat
    (with_data (mk_args 16 0 [2; 2; 3; 1] [1; 3; 2; 2] 1 []) bs) empty_result
    = Ok {| res_data := Some (Some <$> seqZ 1 24); res_length := 24 |}.
Proof.
  destruct (transpose_formats_roundtrip (mk_args 0 16 [1; 3; 2; 2] [2; 2; 3; 1] 1 (seqZ 1 24))
    (mk_args 16 0 [2; 2; 3; 1] [1; 3; 2; 2] 1 []) empty_result empty_result (seqZ 1 24))
    as (_ & bs & _ & E); [run_hyp..|]. exists bs. exact E.
Defined.

(** The mismatch of shapes that [TransposeWithShapeCheck] logs does not stop it. *)
Example shape_check_only_logs :
  TransposeWithShapeCheck (Some [1; 2; 3; 4; 5; 6]) [2; 3] [7; 7] 2 [1; 0] empty_result
  = Ok {| res_data := Some (Some <$> [1; 4; 2; 5; 3; 6]); res_length := 6 |}.
Proof. vm_compute. reflexivity. Qed.

(** The transposes never validate the element count: a shape whose product is
    a multiple of [2 ^ 64] passes every check and yields an empty success. *)
Example element_count_overflow :
  IsShapeArgValid [2 ^ 32; 2 ^ 32] [1; 0] = true /\ IsShapeValid [2 ^ 32; 2 ^ 32] = false /\
  Transpose (Some []) [2 ^ 32; 2 ^ 32] 2 [1; 0] empty_result = Ok empty_result.
Proof. vm_compute. done. Qed.
End RunsTranspose.
