(* ===== verification/FormatsNz.v ===== *)
(** * FormatsNz: ND to and from FRACTAL_NZ

    [format_transfer_fractal_nz.cc]: a batch of [H x W] matrices laid out as
    [W1 x H1 x H0 x W0] fractals, one row of a fractal copied at a time and
    the ragged end of each row element by element. *)

From S2P Require Import Prelude Env FormatsUtils Transfer.

Module FractalNz.
Section model.
Context `{GeTypes} `{SecureC}.

Definition kDimDValueBNdFNz : nat := 2.
Definition kFNzDimCountBackwardsW0 : nat := 1.
Definition kFNzDimCountBackwardsW0H0 : nat := 2.
Definition kFNzDimCountBackwardsW0H0H1 : nat := 3.
Definition kFNzDimCountBackwardsW0H0H1W1 : nat := 4.

Definition IsDataTypeSupportForTransShapeToFracNz (data_type : Z) : bool :=
  0 <? GetSizeByDataType data_type.

Definition CheckShapeForTransShapeToFracNz (format : Z) (shape : list Z) : bool :=
  let num_dims_4d := 4 in
  if format =? FORMAT_ND then IsShapeValid shape
  else if (format =? FORMAT_NCHW) || (format =? FORMAT_NHWC) then CheckShapeValid shape num_dims_4d
  else false.

(** [v[v.size() - k]]; the subtraction wraps below zero, past the end. *)
Definition at_back (l : list Z) (k : nat) : outcome Z :=
  if (length l <? k)%nat then Fault else at_ l (length l - k).

(** The destination shape and the [times, H, W] view of the source. *)
Definition TransShapeToFracNz (src_shape : list Z) (w0 : Z) : outcome (list Z * list Z) :=
  let h0 := kCubeSize in
  if (length src_shape =? 1)%nat then
    n ← at_ src_shape kNhwcN;
    let dst_shape := [Ceil n w0; DIM_DEFAULT_VALUE; h0; w0] in
    let hw_shape := [DIM_DEFAULT_VALUE; DIM_DEFAULT_VALUE; n] in
    reject_if (negb (IsShapeValid dst_shape)) ACL_ERROR_GE_SHAPE_INVALID $
    Ok (dst_shape, hw_shape)
  else
    w ← at_back src_shape 1;
    h ← at_back src_shape 2;
    let batch := take (length src_shape - kDimDValueBNdFNz) src_shape in
    let times := fold_left (fun times d => swrap 64 (times * d)) batch 1 in
    let dst_shape := batch ++ [Ceil w w0; Ceil h h0; h0; w0] in
    let hw_shape := [times; h; w] in
    reject_if (negb (IsShapeValid dst_shape)) ACL_ERROR_GE_SHAPE_INVALID $
    Ok (dst_shape, hw_shape).

Definition CheckShapeRelationForTransShapeToFracNz (args : TransArgs) : outcome (list Z) :=
  '(expect_src_shape, hw_shape) ← TransShapeToFracNz (dst_shape args) (src_c0_format args);
  reject_if (negb (IsTransShapeSrcCorrect args expect_src_shape)) ACL_ERROR_GE_SHAPE_INVALID $
  Ok hw_shape.

Definition TransFormatFromNdToFracNz (args : TransArgs) (result : TransResult) (hw_shape : list Z)
    : outcome TransResult :=
  let size := GetSizeByDataType (src_data_type args) in
  let dst_size := GetItemNumByShape (dst_shape args) * size in
  if dst_size =? 0 then Ok {| res_data := res_data result; res_length := dst_size |} else
  dst ← new_zeroed dst_size;
  times ← at_ hw_shape kNhwcN;
  h ← at_ hw_shape kNhwcH;
  w ← at_ hw_shape kNhwcW;
  let hw := h * w in
  w1 ← at_back (dst_shape args) kFNzDimCountBackwardsW0H0H1W1;
  h1 ← at_back (dst_shape args) kFNzDimCountBackwardsW0H0H1;
  h0 ← at_back (dst_shape args) kFNzDimCountBackwardsW0H0;
  w0 ← at_back (dst_shape args) kFNzDimCountBackwardsW0;
  let h1h0 := h1 * h0 in
  let h1h0w0 := h1h0 * w0 in
  let w1h1h0w0 := w1 * h1h0w0 in
  num_w1 ← quot_ w w0;
  dst ← for_range 0 times (fun times_idx =>
    let times_head := times_idx * w1h1h0w0 in
    let src_times_head := times_idx * hw in
    for_range 0 h (fun h1h0_idx dst =>
      let h1h0_head := times_head + h1h0_idx * w0 in
      let src_h_head := src_times_head + h1h0_idx * w in
      dst ← for_range 0 num_w1 (fun w1_idx dst =>
        let dst_offset := (h1h0_head + w1_idx * h1h0w0) * size in
        let src_offset := (src_h_head + w1_idx * w0) * size in
        p ← guard_size dst_size dst_offset;
        memcpy_chk dst (Some dst_offset) p (data args) src_offset (size * w0)) dst;
      let w1_head := num_w1 * w0 in
      for_range 0 (w - w1_head) (fun w0_idx dst =>
        let src_w_idx := w1_head + w0_idx in
        let dst_offset := (h1h0_head + num_w1 * h1h0w0 + w0_idx) * size in
        let src_offset := (src_h_head + src_w_idx) * size in
        p ← guard_size dst_size dst_offset;
        memcpy_chk dst (Some dst_offset) p (data args) src_offset size) dst)) dst;
  Ok {| res_data := Some dst; res_length := dst_size |}.

Definition TransFormatFromFracNzToNd (args : TransArgs) (result : TransResult)
    (dst_hw_shape : list Z) : outcome TransResult :=
  let size := GetSizeByDataType (src_data_type args) in
  let dst_size := GetItemNumByShape (dst_shape args) * size in
  if dst_size =? 0 then Ok {| res_data := res_data result; res_length := dst_size |} else
  dst ← new_bytes dst_size;
  times ← at_ dst_hw_shape kNhwcN;
  h ← at_ dst_hw_shape kNhwcH;
  w ← at_ dst_hw_shape kNhwcW;
  let hw := h * w in
  w1 ← at_back (src_shape args) kFNzDimCountBackwardsW0H0H1W1;
  h1 ← at_back (src_shape args) kFNzDimCountBackwardsW0H0H1;
  h0 ← at_back (src_shape args) kFNzDimCountBackwardsW0H0;
  w0 ← at_back (src_shape args) kFNzDimCountBackwardsW0;
  let h1h0 := h1 * h0 in
  let h1h0w0 := h1h0 * w0 in
  let w1h1h0w0 := w1 * h1h0w0 in
  num_w1 ← quot_ w w0;
  dst ← for_range 0 times (fun times_idx =>
    let times_head := times_idx * w1h1h0w0 in
    let dst_times_head := times_idx * hw in
    for_range 0 h (fun h1h0_idx dst =>
      let h1h0_head := times_head + h1h0_idx * w0 in
      let dst_h_head := dst_times_head + h1h0_idx * w in
      dst ← for_range 0 num_w1 (fun w1_idx dst =>
        let src_offset := (h1h0_head + w1_idx * h1h0w0) * size in
        let dst_offset := (dst_h_head + w1_idx * w0) * size in
        p ← guard_size dst_size dst_offset;
        memcpy_chk dst (Some dst_offset) p (data args) src_offset (size * w0)) dst;
      let w1_head := num_w1 * w0 in
      for_range 0 (w - w1_head) (fun w0_idx dst =>
        let dst_w_idx := w1_head + w0_idx in
        let src_offset := (h1h0_head + num_w1 * h1h0w0 + w0_idx) * size in
        let dst_offset := (dst_h_head + dst_w_idx) * size in
        p ← guard_size dst_size dst_offset;
        memcpy_chk dst (Some dst_offset) p (data args) src_offset size) dst)) dst;
  Ok {| res_data := Some dst; res_length := dst_size |}.

(** [FormatTransferFractalNz] *)
Definition TransFormat (args : TransArgs) (result : TransResult) : outcome TransResult :=
  reject_if (negb (IsDataTypeSupportForTransShapeToFracNz (src_data_type args)))
            ACL_ERROR_GE_DATATYPE_INVALID $
  reject_if (negb (CheckShapeForTransShapeToFracNz (src_primary_format args) (src_shape args))
             || negb (IsShapeValid (dst_shape args))) ACL_ERROR_GE_SHAPE_INVALID $
  let c0 := GetC0Value (dst_format args) in
  '(expect_shape, hw_shape) ← TransShapeToFracNz (src_shape args) c0;
  reject_if (negb (IsTransShapeDstCorrect args expect_shape)) ACL_ERROR_GE_SHAPE_INVALID $
  TransFormatFromNdToFracNz args result hw_shape.

Definition TransShape (src_format : Z) (src_shape : list Z) (data_type dst_format : Z)
    : outcome (list Z) :=
  let src_primary_format := GetPrimaryFormat src_format in
  reject_if (negb (IsDataTypeSupportForTransShapeToFracNz data_type))
            ACL_ERROR_GE_DATATYPE_INVALID $
  reject_if (negb (CheckShapeForTransShapeToFracNz src_primary_format src_shape))
            ACL_ERROR_GE_SHAPE_INVALID $
  let w0 := GetC0Value dst_format in
  '(dst_shape, _) ← TransShapeToFracNz src_shape w0;
  Ok dst_shape.

(** [FormatTransferFractalNzND] *)
Definition TransFormatND (args : TransArgs) (result : TransResult) : outcome TransResult :=
  reject_if (negb (IsDataTypeSupportForTransShapeToFracNz (src_data_type args)))
            ACL_ERROR_GE_DATATYPE_INVALID $
  reject_if (negb (IsShapeValid (src_shape args))
             || negb (CheckShapeForTransShapeToFracNz (dst_primary_format args) (dst_shape args)))
            ACL_ERROR_GE_SHAPE_INVALID $
  hw_shape ← CheckShapeRelationForTransShapeToFracNz args;
  TransFormatFromFracNzToNd args result hw_shape.

Definition TransShapeND (src_format : Z) (src_shape : list Z) (data_type dst_format : Z)
    : outcome (list Z) := Err ACL_ERROR_GE_FORMAT_INVALID.

Definition transfer : FormatTransfer :=
  {| FormatsUtils.TransFormat := TransFormat; FormatsUtils.TransShape := TransShape |}.
Definition transferND : FormatTransfer :=
  {| FormatsUtils.TransFormat := TransFormatND; FormatsUtils.TransShape := TransShapeND |}.
End model.
End FractalNz.

(** ** Shapes *)

Section shapes.
Context `{GeTypesLaws}.
Import FractalNz.

Lemma at_back_app l t k : (0 < k <= length t)%nat -> at_back (l ++ t) k = at_back t k.
Proof.
  intros Hk. unfold at_back. rewrite length_app.
  rewrite (proj2 (Nat.ltb_ge _ _)) by lia. rewrite (proj2 (Nat.ltb_ge _ _)) by lia.
  unfold at_. rewrite lookup_app_r by lia. by replace (length l + length t - k - length l)%nat
    with (length t - k)%nat by lia.
Qed.

Lemma split_last2 (l : list Z) : (2 <= length l)%nat -> exists b h w, l = b ++ [h; w].
Proof.
  intros Hl. destruct (drop (length l - 2) l) as [|h [|w [|x t]]] eqn:E;
    apply (f_equal length) in E as El; rewrite length_drop in El; simpl in El; try lia.
  exists (take (length l - 2) l), h, w. rewrite <- E. by rewrite take_drop.
Qed.

Lemma prodZ_app l k : prodZ (l ++ k) = prodZ l * prodZ k.
Proof. induction l; simpl; lia. Qed.

Lemma prefixes_ok_app num l k : prefixes_ok num (l ++ k) -> prefixes_ok num l.
Proof. revert num. induction l; simpl; [done|]. intros num (? & ? & ?). auto. Qed.

Lemma valid_prefixes shape : IsShapeValid shape = true -> prefixes_ok 1 shape.
Proof.
  unfold IsShapeValid. destruct shape; [done|]. by rewrite IsShapeValid_loop_spec by lia.
Qed.

Lemma CheckShape_valid f shape :
  CheckShapeForTransShapeToFracNz f shape = true -> IsShapeValid shape = true.
Proof.
  unfold CheckShapeForTransShapeToFracNz. destruct (f =? FORMAT_ND); [done|].
  destruct ((f =? FORMAT_NCHW) || (f =? FORMAT_NHWC)); [|done].
  by intros [_ ?]%CheckShapeValid_inv.
Qed.

(** A shape seen as a batch of matrices: [times], [h], [w]. *)
Definition as_matrices (shape : list Z) : option (Z * Z * Z) :=
  match rev shape with
  | [] => None
  | [w] => Some (1, 1, w)
  | w :: h :: batch => Some (prodZ (rev batch), h, w)
  end.

(** The FRACTAL_NZ shape of a batch of matrices. *)
Lemma nz_shape_inv src w0 dst hw :
  IsShapeValid src = true -> TransShapeToFracNz src w0 = Ok (dst, hw) ->
  exists batch times h w,
    hw = [times; h; w] /\ as_matrices src = Some (times, h, w) /\ (0 <= times /\ 0 <= h /\ 0 <= w) /\
    GetItemNumByShape src = times * h * w /\
    dst = batch ++ [Ceil w w0; Ceil h kCubeSize; kCubeSize; w0] /\
    GetItemNumByShape dst = times * Ceil w w0 * (Ceil h kCubeSize * kCubeSize) * w0.
Proof.
  intros Hv Ht. pose proof (valid_nonneg _ Hv) as Hn. pose proof (valid_prefixes _ Hv) as Hp.
  destruct (valid_item_num _ Hv) as [-> _]. unfold TransShapeToFracNz in Ht. cbv zeta in Ht.
  destruct (Nat.eqb_spec (length src) 1) as [E1|Hne].
  - destruct src as [|n [|]]; try done. inv_outcome.
    match goal with Ha : at_ _ _ = Ok _ |- _ => injection Ha as <- end.
    match goal with Hd : IsShapeValid _ = true |- _ => apply valid_item_num in Hd as [Ed _] end.
    apply Forall_cons in Hn as [Hn _]. exists [], 1, 1, n.
    split; [done|]. split; [done|]. split; [lia|]. split; [simpl; lia|]. split; [done|].
    rewrite Ed. unfold DIM_DEFAULT_VALUE. change (Ceil 1 kCubeSize) with 1. simpl. ring.
  - destruct src as [|x src]; [done|].
    destruct (split_last2 (x :: src)) as (b & h & w & E); [simpl in *; lia|]. rewrite E in *. clear E x src Hne.
    rewrite !at_back_app in Ht by (simpl; lia). cbn in Ht. inv_outcome.
    rewrite length_app in *. replace (length b + length [h; w] - kDimDValueBNdFNz)%nat with (length b) in *
      by (unfold kDimDValueBNdFNz; simpl; lia).
    rewrite take_app_length in *.
    match goal with Hd : IsShapeValid _ = true, Hd2 : IsShapeValid (_ ++ [Ceil _ _; _; _; _]) = true |- _ =>
      apply valid_item_num in Hd2 as [Ed _] end.
    apply prefixes_ok_app in Hp. apply prefixes_ok_prod in Hp as [Hb Eb];
      [|unfold kShapeItemNumMAX; lia].
    apply Forall_app in Hn as [_ Hn]. rewrite !Forall_cons in Hn. destruct Hn as (? & ? & _).
    exists b, (prodZ b), h, w. rewrite Eb, Z.mul_1_l. split; [done|].
    split; [unfold as_matrices; rewrite rev_app_distr; simpl; by rewrite rev_involutive|].
    split; [lia|].
    split; [rewrite prodZ_app; simpl; ring|]. split; [done|].
    rewrite Ed, prodZ_app. simpl. ring.
Qed.
End shapes.

(** ** The layout *)

(** Row [hi] of matrix [t], in a batch of [h x w] matrices. *)
Definition nd_at (h w t hi wi : Z) : Z := pos w (pos h t hi) wi.

Lemma nd_at_bound times h w t hi wi :
  0 <= t < times -> 0 <= hi < h -> 0 <= wi < w -> 0 <= nd_at h w t hi wi < times * h * w.
Proof. intros. unfold nd_at. apply pos_bound; [|done]. by apply pos_bound. Qed.

Lemma nd_at_surj times h w e :
  0 < h -> 0 < w -> 0 <= e < times * h * w ->
  exists t hi wi, (0 <= t < times /\ 0 <= hi < h /\ 0 <= wi < w) /\ e = nd_at h w t hi wi.
Proof.
  intros Hh Hw He. exists (e / w / h), (e / w mod h), (e mod w).
  assert (0 <= e / w < times * h) by (apply div_range; lia).
  split; [split; [apply div_range; lia|split; apply Z.mod_pos_bound; lia]|].
  unfold nd_at. by rewrite !pos_of_divmod by lia.
Qed.

(** A function of the matrix coordinates as a function of the position. *)
Definition nd_of {T} (h w : Z) (g : Z -> Z -> Z -> T) (e : Z) : T :=
  g (e / w / h) (e / w mod h) (e mod w).

Lemma nd_of_at {T} h w (g : Z -> Z -> Z -> T) t hi wi :
  0 <= hi < h -> 0 <= wi < w -> nd_of h w g (nd_at h w t hi wi) = g t hi wi.
Proof. intros. unfold nd_of, nd_at. by autorewrite with radix. Qed.

(** FRACTAL_NZ of a batch of matrices: entry [(t, w1i, hi, w0i)]. *)
Definition nz_spec (h w w0 size : Z) (d : list Z) : Z -> Z -> Z -> Z -> list Z :=
  fun t w1i hi w0i =>
    if (hi <? h) && (w1i * w0 + w0i <? w)
    then elem d size (nd_at h w t hi (w1i * w0 + w0i)) else zero_elem size.

(** Where FRACTAL_NZ keeps entry [(t, hi, wi)]; [H] is the padded height. *)
Definition nz_at (w1 H w0 t hi wi : Z) : Z := idx4 w1 H w0 t (wi / w0) hi (wi mod w0).

(** Stepping along a row. *)
Lemma nd_at_row h w w0 t hi a b :
  nd_at h w t hi 0 + a * w0 + b = nd_at h w t hi (a * w0 + b).
Proof. unfold nd_at, pos. ring. Qed.

Lemma nz_at_row w1 H w0 t hi a b :
  0 <= b < w0 -> nz_at w1 H w0 t hi 0 + a * (H * w0) + b = nz_at w1 H w0 t hi (a * w0 + b).
Proof.
  intros Hb. unfold nz_at. fold (pos w0 a b). rewrite pos_div, pos_mod by lia.
  rewrite Z.div_0_l, Z.mod_0_l by lia. unfold idx4, pos. ring.
Qed.

Lemma nz_at_bound times w1 H w0 w t hi wi :
  0 < w0 -> w1 = Ceil w w0 -> 0 <= t < times -> 0 <= hi < H -> 0 <= wi < w ->
  0 <= nz_at w1 H w0 t hi wi < times * w1 * H * w0.
Proof.
  intros Hw0 -> Ht Hhi Hwi.
  apply idx4_bound; auto; [by apply Ceil_div_lt|by apply Z.mod_pos_bound].
Qed.

Lemma nz_spec_at w1 h H w w0 size d t hi wi :
  0 < w0 -> w1 = Ceil w w0 -> h <= H -> 0 <= hi < h -> 0 <= wi < w ->
  at4 w1 H w0 (nz_spec h w w0 size d) (nz_at w1 H w0 t hi wi) = elem d size (nd_at h w t hi wi).
Proof.
  intros Hw0 -> HH Hhi Hwi. unfold nz_at.
  rewrite at4_idx; [|by apply Ceil_div_lt|lia|by apply Z.mod_pos_bound]. unfold nz_spec.
  replace (wi / w0 * w0 + wi mod w0) with wi by (pose proof (Z.div_mod wi w0); lia).
  by rewrite !(proj2 (Z.ltb_lt _ _)) by lia.
Qed.

Section nz.
Context `{GeTypesLaws} `{SecureCLaws}.
Import FractalNz.

Lemma nd_nz_data args r batch times h w w0 d :
  let size := GetSizeByDataType (src_data_type args) in
  let w1 := Ceil w w0 in
  let H := Ceil h kCubeSize * kCubeSize in
  let N := times * w1 * H * w0 in
  dst_shape args = batch ++ [w1; Ceil h kCubeSize; kCubeSize; w0] ->
  GetItemNumByShape (dst_shape args) = N ->
  0 < times -> 0 < h -> 0 < w -> 0 < w0 -> 0 < size -> size * w0 <= SECUREC_MEM_MAX_LEN ->
  data args = Some d -> times * h * w * size <= zlen d -> can_alloc (N * size) = true ->
  wp (TransFormatFromNdToFracNz args r [times; h; w])
     (delivers N size (at4 w1 H w0 (nz_spec h w w0 size d))).
Proof.
  intros size w1 H' N Ed EN Ht Hh Hw Hw0 Hsz Hmax Edt Hd Hal.
  assert (Hm := type_size_bound (src_data_type args)).
  assert (Hw1 := Ceil_pos w w0 Hw Hw0). fold w1 in Hw1.
  assert (HH := Ceil_bounds h kCubeSize ltac:(lia) ltac:(done)). fold H' in HH.
  assert (HN : 0 < N) by (unfold N; do 3 (apply Z.mul_pos_pos; [|lia]); lia).
  unfold TransFormatFromNdToFracNz. rewrite Edt, EN. cbv zeta. fold size.
  rewrite (proj2 (Z.eqb_neq _ 0)) by nia. unfold new_zeroed. rewrite Hal. wp_dims.
  rewrite Ed, !at_back_app by (simpl; unfold kFNzDimCountBackwardsW0, kFNzDimCountBackwardsW0H0,
    kFNzDimCountBackwardsW0H0H1, kFNzDimCountBackwardsW0H0H1W1; lia). wp_dims.
  rewrite quot_nonneg by lia. wp_dims. fold H'.
  set (spec := at4 w1 H' w0 (nz_spec h w w0 size d)).
  apply wp_bind. eapply wp_mono.
  - assert (Ha0 := agree_zeroes N size spec Hsz ltac:(lia)).
    wp_loop Ha0 t Htt W1 b1 Ha1. wp_loop Ha1 hi Hhi W2 b2 Ha2.
    apply (wp_row N size spec Hsz Some (nz_at w1 H' w0 t hi 0) (H' * w0) (nd_at h w t hi 0) w0);
      auto; try lia; try (intros x; unfold nz_at, nd_at, idx4, pos;
        rewrite ?Z.div_0_l, ?Z.mod_0_l by lia; ring).
    intros a b Ha Hb Hab.
    assert (Hwi : 0 <= a * w0 + b < w) by nia.
    assert (HS := nd_at_bound times h w t hi _ Htt Hhi Hwi).
    rewrite nz_at_row, nd_at_row by lia. split; [eapply nz_at_bound; eauto; lia|].
    split; [lia|]. split; [nia|]. apply nz_spec_at; auto; lia.
  - intros out Ha. eapply agree_delivers; [exact Hsz|exact Ha|]. intros e He.
    destruct (idx4_surj times w1 H' w0 e) as (t & a & hi & b & (?&?&?&?) & ->); [lia..|exact He|].
    destruct ((hi <? h) && (a * w0 + b <? w)) eqn:Hin.
    + apply andb_true_iff in Hin as [?%Z.ltb_lt ?%Z.ltb_lt]. right.
      exists t. split; [done|]. exists hi. split; [lia|]. exists a, b. split; [lia|].
      unfold nz_at. rewrite Z.div_0_l, Z.mod_0_l by lia. unfold idx4, pos. ring.
    + left. split; [done|]. unfold spec. rewrite at4_idx by done. unfold nz_spec. by rewrite Hin.
Qed.

Lemma nz_nd_data args r batch times h w w0 d :
  let size := GetSizeByDataType (src_data_type args) in
  let w1 := Ceil w w0 in
  let H := Ceil h kCubeSize * kCubeSize in
  let N := times * h * w in
  src_shape args = batch ++ [w1; Ceil h kCubeSize; kCubeSize; w0] ->
  GetItemNumByShape (dst_shape args) = N ->
  0 < times -> 0 < h -> 0 < w -> 0 < w0 -> 0 < size -> size * w0 <= SECUREC_MEM_MAX_LEN ->
  data args = Some d -> times * w1 * H * w0 * size <= zlen d -> can_alloc (N * size) = true ->
  wp (TransFormatFromFracNzToNd args r [times; h; w])
     (delivers N size (nd_of h w (fun t hi wi => elem d size (nz_at w1 H w0 t hi wi)))).
Proof.
  intros size w1 H' N Es EN Ht Hh Hw Hw0 Hsz Hmax Edt Hd Hal.
  assert (Hm := type_size_bound (src_data_type args)).
  assert (HH := Ceil_bounds h kCubeSize ltac:(lia) ltac:(done)). fold H' in HH.
  assert (HN : 0 < N) by (unfold N; do 2 (apply Z.mul_pos_pos; [|lia]); lia).
  unfold TransFormatFromFracNzToNd. rewrite Edt, EN. cbv zeta. fold size.
  rewrite (proj2 (Z.eqb_neq _ 0)) by nia.
  set (spec := nd_of h w (fun t hi wi => elem d size (nz_at w1 H' w0 t hi wi))).
  apply (wp_new_bytes N size spec); [done|lia|done|]. intros b0 Ha0. wp_dims.
  rewrite Es, !at_back_app by (simpl; unfold kFNzDimCountBackwardsW0, kFNzDimCountBackwardsW0H0,
    kFNzDimCountBackwardsW0H0H1, kFNzDimCountBackwardsW0H0H1W1; lia). wp_dims.
  rewrite quot_nonneg by lia. wp_dims. fold H'.
  apply wp_bind. eapply wp_mono.
  - wp_loop Ha0 t Htt W1 b1 Ha1. wp_loop Ha1 hi Hhi W2 b2 Ha2.
    apply (wp_row N size spec Hsz Some (nd_at h w t hi 0) w0 (nz_at w1 H' w0 t hi 0) (H' * w0));
      auto; try lia; try (intros x; unfold nz_at, nd_at, idx4, pos;
        rewrite ?Z.div_0_l, ?Z.mod_0_l by lia; ring).
    intros a b Ha Hb Hab.
    assert (Hwi : 0 <= a * w0 + b < w) by nia.
    assert (HS := nd_at_bound times h w t hi _ Htt Hhi Hwi).
    assert (HS2 : 0 <= nz_at w1 H' w0 t hi (a * w0 + b) < times * w1 * H' * w0)
      by (eapply nz_at_bound; eauto; lia).
    rewrite nz_at_row, nd_at_row by lia. split; [done|]. split; [lia|]. split; [nia|].
    unfold spec. by rewrite nd_of_at.
  - intros out Ha. eapply agree_delivers; [exact Hsz|exact Ha|]. intros e He.
    destruct (nd_at_surj times h w e) as (t & hi & wi & (?&?&?) & ->); [lia..|].
    right. exists t. split; [done|]. exists hi. split; [done|].
    exists (wi / w0), (wi mod w0).
    pose proof (Z.div_mod wi w0). pose proof (Z.mod_pos_bound wi w0).
    split; [split_and!; try lia; apply Z.div_pos; lia|]. unfold nd_at, pos. lia.
Qed.
End nz.

(** ** Theorems *)

Section theorems.
Context `{GeTypesLaws} `{SecureCLaws}.
Import FractalNz.

(** What the checks of the two transfers leave behind. *)
Lemma nz_TransFormat args r :
  consistent args ->
  TransShape (src_format args) (src_shape args) (src_data_type args) (dst_format args)
  = Ok (dst_shape args) ->
  let w0 := GetC0Value (dst_format args) in
  0 < GetSizeByDataType (src_data_type args) /\
  IsShapeValid (dst_shape args) = true /\
  CheckShapeForTransShapeToFracNz (src_primary_format args) (src_shape args) = true /\
  exists batch times h w,
    as_matrices (src_shape args) = Some (times, h, w) /\ (0 <= times /\ 0 <= h /\ 0 <= w) /\
    GetItemNumByShape (src_shape args) = times * h * w /\
    dst_shape args = batch ++ [Ceil w w0; Ceil h kCubeSize; kCubeSize; w0] /\
    GetItemNumByShape (dst_shape args) = times * Ceil w w0 * (Ceil h kCubeSize * kCubeSize) * w0 /\
    TransShapeToFracNz (src_shape args) w0 = Ok (dst_shape args, [times; h; w]) /\
    TransFormat args r = TransFormatFromNdToFracNz args r [times; h; w].
Proof.
  intros (E1 & E2 & _) Ht w0. unfold TransShape in Ht. rewrite <- E1 in Ht. cbv zeta in Ht.
  apply reject_Ok in Ht as [Hdt%negb_false_iff Ht]. apply reject_Ok in Ht as [Hck%negb_false_iff Ht].
  apply bind_Ok in Ht as ([ds hw] & Ht & Eds). injection Eds as ->.
  assert (Hvd : IsShapeValid (dst_shape args) = true).
  { unfold TransShapeToFracNz in Ht. cbv zeta in Ht.
    destruct (length (src_shape args) =? 1)%nat; inv_outcome; congruence. }
  pose proof Hdt as Hsz. apply Z.ltb_lt in Hsz. pose proof (CheckShape_valid _ _ Hck) as Hv.
  destruct (nz_shape_inv _ _ _ _ Hv Ht) as (batch & times & h & w & -> & Em & Hr & En & Ed & EN).
  split; [done|]. split; [done|]. split; [done|]. exists batch, times, h, w.
  split_and!; try done; try lia.
  unfold TransFormat. rewrite Hdt, Hck, Hvd. simpl. rewrite Ht. simpl. by rewrite dst_correct.
Qed.

(** C25: ND (or NCHW, NHWC) to FRACTAL_NZ.  Entry [(t, w1, h, w0)] of the
    result is element [(t, h, w1 * C0 + w0)] of the batch of matrices, or zero
    past the last row and the last column. *)
Theorem nd_to_fractal_nz_correct args r times h w d :
  let w0 := GetC0Value (dst_format args) in
  let size := GetSizeByDataType (src_data_type args) in
  let H := Ceil h kCubeSize * kCubeSize in
  let total := times * Ceil w w0 * H * w0 * size in
  consistent args ->
  FractalNz.TransShape (src_format args) (src_shape args) (src_data_type args) (dst_format args)
  = Ok (dst_shape args) ->
  as_matrices (src_shape args) = Some (times, h, w) -> 0 < times * h * w ->
  0 < w0 -> size * w0 <= SECUREC_MEM_MAX_LEN ->
  data args = Some d -> times * h * w * size <= zlen d -> can_alloc total = true ->
  exists bs : list Z,
    FractalNz.TransFormat args r
    = Ok {| res_data := Some (Some <$> bs); res_length := total |} /\ zlen bs = total /\
    forall t w1i hi w0i,
      0 <= t < times -> 0 <= w1i < Ceil w w0 -> 0 <= hi < H -> 0 <= w0i < w0 ->
      elem bs size (idx4 (Ceil w w0) H w0 t w1i hi w0i)
      = if (hi <? h) && (w1i * w0 + w0i <? w)
        then elem d size ((t * h + hi) * w + (w1i * w0 + w0i)) else zero_elem size.
Proof.
  intros w0 size H' total Hc Ht Em Hpos Hw0 Hmax Edt Hd Hal.
  destruct (nz_TransFormat args r Hc Ht)
    as (Hsz & _ & _ & batch & times' & h' & w' & Em' & Hr & En & Ed & EN & _ & ->).
  rewrite Em in Em'. injection Em' as <- <- <-.
  assert (0 < times /\ 0 < h /\ 0 < w) as (? & ? & ?) by nia.
  apply (delivers_at4 _ size times (Ceil w w0) H' w0 (nz_spec h w w0 size d)).
  by apply (nd_nz_data args r batch).
Qed.

(** A tensor survives the trip through FRACTAL_NZ: what
    [FormatTransferFractalNz] wrote, [FormatTransferFractalNzND] reads back. *)
Theorem nd_fractal_nz_roundtrip args1 args2 r1 r2 times h w d :
  let w0 := GetC0Value (dst_format args1) in
  let size := GetSizeByDataType (src_data_type args1) in
  let H := Ceil h kCubeSize * kCubeSize in
  consistent args1 ->
  FractalNz.TransShape (src_format args1) (src_shape args1) (src_data_type args1)
    (dst_format args1) = Ok (dst_shape args1) ->
  as_matrices (src_shape args1) = Some (times, h, w) -> 0 < times * h * w ->
  0 < w0 -> size * w0 <= SECUREC_MEM_MAX_LEN ->
  data args1 = Some d -> zlen d = times * h * w * size -> (forall k, can_alloc k = true) ->
  dst_primary_format args2 = src_primary_format args1 -> src_c0_format args2 = w0 ->
  src_shape args2 = dst_shape args1 -> dst_shape args2 = src_shape args1 ->
  src_data_type args2 = src_data_type args1 ->
  exists bs : list Z,
    FractalNz.TransFormat args1 r1
    = Ok {| res_data := Some (Some <$> bs); res_length := times * Ceil w w0 * H * w0 * size |} /\
    FractalNz.TransFormatND (with_data args2 bs) r2
    = Ok {| res_data := Some (Some <$> d); res_length := times * h * w * size |}.
Proof.
  intros w0 size H' Hc Ht Em Hpos Hw0 Hmax Ed1 Hd Hal Ep Ec Es2 Eds2 Edt2.
  destruct (nz_TransFormat args1 r1 Hc Ht)
    as (Hsz & Hvd & Hck & batch & times' & h' & w' & Em' & Hr & En & Ed & EN & Hts & ->).
  rewrite Em in Em'. injection Em' as <- <- <-.
  assert (0 < times /\ 0 < h /\ 0 < w) as (? & ? & ?) by nia.
  assert (HH := Ceil_bounds h kCubeSize ltac:(lia) ltac:(done)). fold H' in HH.
  destruct (delivers_eq _ _ _ _ (nd_nz_data args1 r1 batch times h w w0 d Ed EN
    ltac:(lia) ltac:(lia) ltac:(lia) Hw0 Hsz Hmax Ed1 ltac:(fold size; lia) (Hal _)))
    as (bs & E1 & Hz & He). exists bs. split; [exact E1|].
  assert (EC : FractalNz.TransFormatND (with_data args2 bs) r2
               = TransFormatFromFracNzToNd (with_data args2 bs) r2 [times; h; w]).
  { unfold TransFormatND, IsDataTypeSupportForTransShapeToFracNz,
      CheckShapeRelationForTransShapeToFracNz, IsTransShapeSrcCorrect. simpl.
    rewrite Edt2, Es2, Eds2, Ep, Ec, Hvd, Hck, (proj2 (Z.ltb_lt _ _)) by done. simpl.
    fold w0 in Hts. rewrite Hts. simpl. by rewrite bool_decide_eq_true_2. }
  rewrite EC.
  pose proof (nz_nd_data (with_data args2 bs) r2 batch times h w w0 bs) as Hd2.
  simpl src_data_type in Hd2. simpl src_shape in Hd2. simpl dst_shape in Hd2.
  rewrite Edt2, Es2, Eds2 in Hd2. fold size H' in Hd2, Hz, He.
  destruct (delivers_eq _ _ _ _ (Hd2 Ed En ltac:(lia) ltac:(lia) ltac:(lia) Hw0 Hsz Hmax eq_refl
    ltac:(lia) (Hal _))) as (bs' & -> & Hz' & He').
  do 4 f_equal. apply (elem_ext _ _ (times * h * w) size); [done|done|lia|].
  intros e Hre. rewrite He' by done.
  destruct (nd_at_surj times h w e) as (t & hi & wi & (?&?&?) & ->); [done..|].
  rewrite nd_of_at by done. rewrite He by (eapply nz_at_bound; eauto; lia).
  by rewrite nz_spec_at by lia.
Qed.
End theorems.

(** ** Runs *)

Module RunsNz.
Import Concrete Sample.

(** Two 3 x 5 matrices of bytes, FORMAT_FRACTAL_NZ carrying C0 = 16. *)
Definition nz_c16 : Z := 29 + 5 * 2 ^ 24.
Definition nd_args : TransArgs := mk_args 2 nz_c16 [2; 3; 5] [2; 1; 1; 16; 16] 2 (seqZ 1 30).

Lemma nd_to_fractal_nz_correct_run :
  exists bs, FractalNz.TransFormat nd_args empty_result
    = Ok {| res_data := Some (Some <$> bs); res_length := 512 |}.
Proof.
  destruct (nd_to_fractal_nz_correct nd_args empty_result 2 3 5 (seqZ 1 30))
    as (bs & E & _); [run_hyp..|]. exists bs. exact E.
Defined.

Lemma nd_fractal_nz_roundtrip_run :
  exists bs, FractalNz.TransFormatND
    (with_data (mk_args nz_c16 2 [2; 1; 1; 16; 16] [2; 3; 5] 2 []) bs) empty_result
    = Ok {| res_data := Some (Some <$> seqZ 1 30); res_length := 30 |}.
Proof.
  destruct (nd_fractal_nz_roundtrip nd_args (mk_args nz_c16 2 [2; 1; 1; 16; 16] [2; 3; 5] 2 [])
    empty_result empty_result 2 3 5 (seqZ 1 30)) as (bs & _ & E); [run_hyp..|].
  exists bs. exact E.
Defined.
End RunsNz.
