(* ===== verification/FormatsZz.v ===== *)
(** * FormatsZz: ND to and from FRACTAL_ZZ

    [format_transfer_fractal_zz.cc]: the row-of-fractals order
    [H1 x W1 x H0 x W0] of the same batch of matrices, with [H0 = W0 = C0]. *)

From S2P Require Import Prelude Env FormatsUtils Transfer FormatsNz.

Module FractalZz.
Section model.
Context `{GeTypes} `{SecureC}.

Definition kDimSize4D : Z := 4.
Definition kSingleDim : nat := 1.
Definition kNdDimIndexN : nat := 0.
Definition kNdDimIndexH : nat := 1.
Definition kNdDimIndexW : nat := 2.
Definition kDimDValueBNdFZz : nat := 2.
Definition kNdDimCountBackwardsW : nat := 1.
Definition kNdDimCountBackwardsWH : nat := 2.
Definition kFZzDimCountBackwardsW0 : nat := 1.
Definition kFZzDimCountBackwardsW0H0 : nat := 2.
Definition kFZzDimCountBackwardsW0H0W1 : nat := 3.
Definition kFZzDimCountBackwardsW0H0W1H1 : nat := 4.

Definition CheckDataTypeSupportForFractalZz (d_type : Z) : bool := 0 <? GetSizeByDataType d_type.

Definition CheckShape (format : Z) (shape : list Z) : bool :=
  if format =? FORMAT_ND then IsShapeValid shape
  else if (format =? FORMAT_NCHW) || (format =? FORMAT_NHWC) then CheckShapeValid shape kDimSize4D
  else false.

Definition TransShapeToFracZz (src_shape : list Z) (c0 : Z) : outcome (list Z * list Z) :=
  let w0 := c0 in
  let h0 := c0 in
  if (length src_shape =? kSingleDim)%nat then
    n ← at_ src_shape kNdDimIndexN;
    let dst_shape := [DIM_DEFAULT_VALUE; Ceil n w0; h0; w0] in
    let hw_shape := [DIM_DEFAULT_VALUE; DIM_DEFAULT_VALUE; n] in
    reject_if (negb (IsShapeValid dst_shape)) ACL_ERROR_GE_SHAPE_INVALID $
    Ok (dst_shape, hw_shape)
  else
    h ← FractalNz.at_back src_shape kNdDimCountBackwardsWH;
    w ← FractalNz.at_back src_shape kNdDimCountBackwardsW;
    let batch := take (length src_shape - kDimDValueBNdFZz) src_shape in
    let times := fold_left (fun times d => swrap 64 (times * d)) batch 1 in
    let dst_shape := batch ++ [Ceil h h0; Ceil w w0; h0; w0] in
    let hw_shape := [times; h; w] in
    reject_if (negb (IsShapeValid dst_shape)) ACL_ERROR_GE_SHAPE_INVALID $
    Ok (dst_shape, hw_shape).

Definition CheckShapeRelation (args : TransArgs) : outcome (list Z) :=
  let c0 := GetC0Value (src_format args) in
  '(expect_src_shape, hw_shape) ← TransShapeToFracZz (dst_shape args) c0;
  reject_if (negb (IsTransShapeSrcCorrect args expect_src_shape)) ACL_ERROR_GE_SHAPE_INVALID $
  Ok hw_shape.

(** The loop condition [(h0_idx < h0) && ((h0_idx + src_h1_head) < h)] bounds
    [h0_idx] by the smaller of the two. *)
Definition TransFormatFromNdToFracZz (args : TransArgs) (result : TransResult) (hw_shape : list Z)
    : outcome TransResult :=
  let size := GetSizeByDataType (src_data_type args) in
  let dst_size := GetItemNumByShape (dst_shape args) * size in
  if dst_size =? 0 then Ok {| res_data := res_data result; res_length := dst_size |} else
  dst ← new_zeroed dst_size;
  times ← at_ hw_shape kNdDimIndexN;
  h ← at_ hw_shape kNdDimIndexH;
  w ← at_ hw_shape kNdDimIndexW;
  let hw := h * w in
  h1 ← FractalNz.at_back (dst_shape args) kFZzDimCountBackwardsW0H0W1H1;
  w1 ← FractalNz.at_back (dst_shape args) kFZzDimCountBackwardsW0H0W1;
  h0 ← FractalNz.at_back (dst_shape args) kFZzDimCountBackwardsW0H0;
  w0 ← FractalNz.at_back (dst_shape args) kFZzDimCountBackwardsW0;
  let h0w0 := h0 * w0 in
  let w1h0w0 := w1 * h0w0 in
  let h1w1h0w0 := h1 * w1h0w0 in
  num_w1 ← quot_ w w0;
  dst ← for_range 0 times (fun times_idx =>
    let times_head := times_idx * h1w1h0w0 in
    let src_times_head := times_idx * hw in
    for_range 0 h1 (fun h1_idx =>
      let h1_head := times_head + h1_idx * w1h0w0 in
      let src_h1_head := h1_idx * h0 in
      for_range 0 (Z.min h0 (h - src_h1_head)) (fun h0_idx dst =>
        let h0_head := h1_head + h0_idx * w0 in
        let src_h_head := src_times_head + (src_h1_head + h0_idx) * w in
        dst ← for_range 0 num_w1 (fun w1_idx dst =>
          let src_offset := (src_h_head + w1_idx * w0) * size in
          let dst_offset := (h0_head + w1_idx * h0w0) * size in
          p ← guard_size dst_size dst_offset;
          memcpy_chk dst (PtrAdd dst_size dst_offset) p (data args) src_offset (size * w0)) dst;
        let w1_head := num_w1 * w0 in
        let w0_head := h0_head + num_w1 * h0w0 in
        let w0_range := w - w1_head in
        for_range 0 w0_range (fun w0_idx dst =>
          let src_w_idx := w1_head + w0_idx in
          let src_offset := (src_h_head + src_w_idx) * size in
          let dst_offset := (w0_head + w0_idx) * size in
          p ← guard_size dst_size dst_offset;
          memcpy_chk dst (PtrAdd dst_size dst_offset) p (data args) src_offset size) dst))) dst;
  Ok {| res_data := Some dst; res_length := dst_size |}.

Definition TransFormatFromFracZzToNd (args : TransArgs) (result : TransResult)
    (dst_hw_shape : list Z) : outcome TransResult :=
  let size := GetSizeByDataType (src_data_type args) in
  let dst_size := GetItemNumByShape (dst_shape args) * size in
  if dst_size =? 0 then Ok {| res_data := res_data result; res_length := dst_size |} else
  dst ← new_zeroed dst_size;
  times ← at_ dst_hw_shape kNdDimIndexN;
  h ← at_ dst_hw_shape kNdDimIndexH;
  w ← at_ dst_hw_shape kNdDimIndexW;
  let hw := h * w in
  h1 ← FractalNz.at_back (src_shape args) kFZzDimCountBackwardsW0H0W1H1;
  w1 ← FractalNz.at_back (src_shape args) kFZzDimCountBackwardsW0H0W1;
  h0 ← FractalNz.at_back (src_shape args) kFZzDimCountBackwardsW0H0;
  w0 ← FractalNz.at_back (src_shape args) kFZzDimCountBackwardsW0;
  let h0w0 := h0 * w0 in
  let w1h0w0 := w1 * h0w0 in
  let h1w1h0w0 := h1 * w1h0w0 in
  num_w1 ← quot_ w w0;
  dst ← for_range 0 times (fun times_idx =>
    let times_head := times_idx * h1w1h0w0 in
    let dst_times_head := times_idx * hw in
    for_range 0 h1 (fun h1_idx =>
      let h1_head := times_head + h1_idx * w1h0w0 in
      let dst_h1_head := h1_idx * h0 in
      for_range 0 (Z.min h0 (h - dst_h1_head)) (fun h0_idx dst =>
        let h0_head := h1_head + h0_idx * w0 in
        let dst_h_head := dst_times_head + (dst_h1_head + h0_idx) * w in
        dst ← for_range 0 num_w1 (fun w1_idx dst =>
          let src_offset := (h0_head + w1_idx * h0w0) * size in
          let dst_offset := (dst_h_head + w1_idx * w0) * size in
          p ← guard_size dst_size dst_offset;
          memcpy_chk dst (PtrAdd dst_size dst_offset) p (data args) src_offset (size * w0)) dst;
        let w1_head := num_w1 * w0 in
        let w0_head := h0_head + num_w1 * h0w0 in
        let w0_range := w - w1_head in
        for_range 0 w0_range (fun w0_idx dst =>
          let src_offset := (w0_head + w0_idx) * size in
          let dst_w_idx := w1_head + w0_idx in
          let dst_offset := (dst_h_head + dst_w_idx) * size in
          p ← guard_size dst_size dst_offset;
          memcpy_chk dst (PtrAdd dst_size dst_offset) p (data args) src_offset size) dst))) dst;
  Ok {| res_data := Some dst; res_length := dst_size |}.

(** [FormatTransferFractalZz] *)
Definition TransFormat (args : TransArgs) (result : TransResult) : outcome TransResult :=
  reject_if (negb (CheckDataTypeSupportForFractalZz (src_data_type args)))
            ACL_ERROR_GE_DATATYPE_INVALID $
  reject_if (negb (CheckShape (src_primary_format args) (src_shape args))
             || negb (IsShapeValid (dst_shape args))) ACL_ERROR_GE_SHAPE_INVALID $
  let c0 := GetC0Value (dst_format args) in
  '(expect_shape, hw_shape) ← TransShapeToFracZz (src_shape args) c0;
  reject_if (negb (IsTransShapeDstCorrect args expect_shape)) ACL_ERROR_GE_SHAPE_INVALID $
  TransFormatFromNdToFracZz args result hw_shape.

Definition TransShape (src_format : Z) (src_shape : list Z) (data_type dst_format : Z)
    : outcome (list Z) :=
  reject_if (negb (CheckDataTypeSupportForFractalZz data_type)) ACL_ERROR_GE_DATATYPE_INVALID $
  let src_primary_format := GetPrimaryFormat src_format in
  reject_if (negb (CheckShape src_primary_format src_shape)) ACL_ERROR_GE_SHAPE_INVALID $
  let c0 := GetC0Value dst_format in
  '(dst_shape, _) ← TransShapeToFracZz src_shape c0;
  Ok dst_shape.

(** [FormatTransferFractalZzND] *)
Definition TransFormatND (args : TransArgs) (result : TransResult) : outcome TransResult :=
  reject_if (negb (CheckDataTypeSupportForFractalZz (src_data_type args)))
            ACL_ERROR_GE_DATATYPE_INVALID $
  reject_if (negb (IsShapeValid (src_shape args))
             || negb (CheckShape (dst_primary_format args) (dst_shape args)))
            ACL_ERROR_GE_SHAPE_INVALID $
  hw_shape ← CheckShapeRelation args;
  TransFormatFromFracZzToNd args result hw_shape.

Definition TransShapeND (src_format : Z) (src_shape : list Z) (data_type dst_format : Z)
    : outcome (list Z) := Err ACL_ERROR_GE_FORMAT_INVALID.

Definition transfer : FormatTransfer :=
  {| FormatsUtils.TransFormat := TransFormat; FormatsUtils.TransShape := TransShape |}.
Definition transferND : FormatTransfer :=
  {| FormatsUtils.TransFormat := TransFormatND; FormatsUtils.TransShape := TransShapeND |}.
End model.
End FractalZz.

(** ** Shapes *)

Section shapes.
Context `{GeTypesLaws}.
Import FractalZz.

Lemma CheckShape_valid_zz f shape : CheckShape f shape = true -> IsShapeValid shape = true.
Proof.
  unfold CheckShape. destruct (f =? FORMAT_ND); [done|].
  destruct ((f =? FORMAT_NCHW) || (f =? FORMAT_NHWC)); [|done].
  by intros [_ ?]%CheckShapeValid_inv.
Qed.

(** The FRACTAL_ZZ shape of a batch of matrices. *)
Lemma zz_shape_inv src c0 dst hw :
  0 < c0 -> IsShapeValid src = true -> TransShapeToFracZz src c0 = Ok (dst, hw) ->
  exists batch times h w,
    hw = [times; h; w] /\ as_matrices src = Some (times, h, w) /\
    (0 <= times /\ 0 <= h /\ 0 <= w) /\ GetItemNumByShape src = times * h * w /\
    dst = batch ++ [Ceil h c0; Ceil w c0; c0; c0] /\
    GetItemNumByShape dst = times * Ceil h c0 * Ceil w c0 * c0 * c0.
Proof.
  intros Hc0 Hv Ht. pose proof (valid_nonneg _ Hv) as Hn. pose proof (valid_prefixes _ Hv) as Hp.
  destruct (valid_item_num _ Hv) as [-> _]. unfold TransShapeToFracZz in Ht. cbv zeta in Ht.
  destruct (Nat.eqb_spec (length src) kSingleDim) as [E1|Hne].
  - destruct src as [|n [|]]; try done. inv_outcome.
    match goal with Ha : at_ _ _ = Ok _ |- _ => injection Ha as <- end.
    match goal with Hd : IsShapeValid _ = true |- _ => apply valid_item_num in Hd as [Ed _] end.
    apply Forall_cons in Hn as [Hn _]. exists [], 1, 1, n.
    assert (E1' : Ceil 1 c0 = 1).
    { unfold Ceil. simpl. rewrite (proj2 (Z.eqb_neq c0 0)) by lia. simpl. by rewrite Z.quot_0_l by lia. }
    split; [done|]. split; [done|]. split; [lia|]. split; [simpl; lia|].
    rewrite E1'. split; [done|].
    rewrite Ed. unfold DIM_DEFAULT_VALUE. cbn [prodZ]. ring.
  - destruct src as [|x src]; [done|].
    destruct (split_last2 (x :: src)) as (b & h & w & E);
      [unfold kSingleDim in Hne; simpl in *; lia|].
    rewrite E in *. clear E x src Hne.
    rewrite !at_back_app in Ht by (simpl; unfold kNdDimCountBackwardsWH, kNdDimCountBackwardsW; lia).
    cbn in Ht. inv_outcome.
    rewrite length_app in *. replace (length b + length [h; w] - kDimDValueBNdFZz)%nat with (length b) in *
      by (unfold kDimDValueBNdFZz; simpl; lia).
    rewrite take_app_length in *.
    match goal with Hd2 : IsShapeValid (_ ++ [Ceil _ _; _; _; _]) = true |- _ =>
      apply valid_item_num in Hd2 as [Ed _] end.
    apply prefixes_ok_app in Hp. apply prefixes_ok_prod in Hp as [Hb Eb];
      [|unfold kShapeItemNumMAX; lia].
    apply Forall_app in Hn as [_ Hn]. rewrite !Forall_cons in Hn. destruct Hn as (? & ? & _).
    exists b, (prodZ b), h, w. rewrite Eb, Z.mul_1_l. split; [done|].
    split; [unfold as_matrices; rewrite rev_app_distr; simpl; by rewrite rev_involutive|].
    split; [lia|]. split; [rewrite prodZ_app; simpl; ring|]. split; [done|].
    rewrite Ed, prodZ_app. cbn [prodZ]. ring.
Qed.
End shapes.

(** ** The layout *)

(** FRACTAL_ZZ of a batch of matrices: entry [(t, h1i, w1i, h0i, w0i)]. *)
Definition zz_spec (h w c0 size : Z) (d : list Z) : Z -> Z -> Z -> Z -> Z -> list Z :=
  fun t h1i w1i h0i w0i =>
    if (h1i * c0 + h0i <? h) && (w1i * c0 + w0i <? w)
    then elem d size (nd_at h w t (h1i * c0 + h0i) (w1i * c0 + w0i)) else zero_elem size.

(** Where FRACTAL_ZZ keeps entry [(t, hi, wi)]. *)
Definition zz_at (h1 w1 c0 t hi wi : Z) : Z :=
  idx5 h1 w1 c0 c0 t (hi / c0) (wi / c0) (hi mod c0) (wi mod c0).

Lemma zz_at_bound times h w c0 t hi wi :
  0 < c0 -> 0 <= t < times -> 0 <= hi < h -> 0 <= wi < w ->
  0 <= zz_at (Ceil h c0) (Ceil w c0) c0 t hi wi < times * Ceil h c0 * Ceil w c0 * c0 * c0.
Proof.
  intros. apply idx5_bound; auto; try (by apply Ceil_div_lt); by apply Z.mod_pos_bound.
Qed.

Lemma zz_at_row h1 w1 c0 t hi a b :
  0 <= b < c0 -> zz_at h1 w1 c0 t hi 0 + a * (c0 * c0) + b = zz_at h1 w1 c0 t hi (a * c0 + b).
Proof.
  intros Hb. unfold zz_at. fold (pos c0 a b). rewrite pos_div, pos_mod by lia.
  rewrite Z.div_0_l, Z.mod_0_l by lia. unfold idx5, idx4, pos. ring.
Qed.

Lemma zz_spec_at h w c0 size d t hi wi :
  0 < c0 -> 0 <= hi < h -> 0 <= wi < w ->
  at5 (Ceil h c0) (Ceil w c0) c0 c0 (zz_spec h w c0 size d)
      (zz_at (Ceil h c0) (Ceil w c0) c0 t hi wi) = elem d size (nd_at h w t hi wi).
Proof.
  intros Hc0 Hhi Hwi. unfold zz_at.
  rewrite at5_idx; try (by apply Ceil_div_lt); try (by apply Z.mod_pos_bound). unfold zz_spec.
  replace (wi / c0 * c0 + wi mod c0) with wi by (pose proof (Z.div_mod wi c0); lia).
  replace (hi / c0 * c0 + hi mod c0) with hi by (pose proof (Z.div_mod hi c0); lia).
  by rewrite !(proj2 (Z.ltb_lt _ _)) by lia.
Qed.

(** The head of a row of fractals. *)
Lemma zz_head h1 w1 c0 t h1i h0i :
  0 <= h0i < c0 ->
  t * (h1 * (w1 * (c0 * c0))) + h1i * (w1 * (c0 * c0)) + h0i * c0
  = zz_at h1 w1 c0 t (h1i * c0 + h0i) 0.
Proof.
  intros Hb. unfold zz_at. fold (pos c0 h1i h0i). rewrite pos_div, pos_mod by lia.
  rewrite Z.div_0_l, Z.mod_0_l by lia. unfold idx5, idx4, pos. ring.
Qed.

Section zz.
Context `{GeTypesLaws} `{SecureCLaws}.
Import FractalZz.

Lemma nd_zz_data args r batch times h w c0 d :
  let size := GetSizeByDataType (src_data_type args) in
  let h1 := Ceil h c0 in
  let w1 := Ceil w c0 in
  let N := times * h1 * w1 * c0 * c0 in
  dst_shape args = batch ++ [h1; w1; c0; c0] -> GetItemNumByShape (dst_shape args) = N ->
  0 < times -> 0 < h -> 0 < w -> 0 < c0 -> 0 < size -> size * c0 <= SECUREC_MEM_MAX_LEN ->
  data args = Some d -> times * h * w * size <= zlen d -> can_alloc (N * size) = true ->
  wp (TransFormatFromNdToFracZz args r [times; h; w])
     (delivers N size (at5 h1 w1 c0 c0 (zz_spec h w c0 size d))).
Proof.
  intros size h1 w1 N Ed EN Ht Hh Hw Hc0 Hsz Hmax Edt Hd Hal.
  assert (Hm := type_size_bound (src_data_type args)).
  assert (Hw1 := Ceil_pos w c0 Hw Hc0). fold w1 in Hw1.
  assert (Hh1 := Ceil_pos h c0 Hh Hc0). fold h1 in Hh1.
  assert (HN : 0 < N) by (unfold N; do 4 (apply Z.mul_pos_pos; [|lia]); lia).
  unfold TransFormatFromNdToFracZz. rewrite Edt, EN. cbv zeta. fold size.
  rewrite (proj2 (Z.eqb_neq _ 0)) by nia. unfold new_zeroed. rewrite Hal. wp_dims.
  rewrite Ed, !at_back_app by (simpl; unfold kFZzDimCountBackwardsW0, kFZzDimCountBackwardsW0H0,
    kFZzDimCountBackwardsW0H0W1, kFZzDimCountBackwardsW0H0W1H1; lia). wp_dims.
  rewrite quot_nonneg by lia. wp_dims.
  set (spec := at5 h1 w1 c0 c0 (zz_spec h w c0 size d)).
  apply wp_bind. eapply wp_mono.
  - assert (Ha0 := agree_zeroes N size spec Hsz ltac:(lia)).
    wp_loop Ha0 t Htt W1 b1 Ha1. wp_loop Ha1 h1i Hh1i W2 b2 Ha2. wp_loop Ha2 h0i Hh0i W3 b3 Ha3.
    assert (Hhi : 0 <= h1i * c0 + h0i < h) by nia.
    rewrite (zz_head h1 w1 c0 t h1i h0i) by lia.
    apply (wp_row N size spec Hsz (PtrAdd (N * size)) (zz_at h1 w1 c0 t (h1i * c0 + h0i) 0) (c0 * c0)
             (nd_at h w t (h1i * c0 + h0i) 0) c0); auto; try lia;
      try (intros x; unfold nd_at, pos; ring); [intros; by apply PtrAdd_elem|].
    intros a b Ha Hb Hab. assert (Hwi : 0 <= a * c0 + b < w) by nia.
    assert (HS := nd_at_bound times h w t (h1i * c0 + h0i) _ Htt Hhi Hwi).
    rewrite zz_at_row, nd_at_row by lia. split; [by apply zz_at_bound|].
    split; [lia|]. split; [nia|]. by apply zz_spec_at.
  - intros out Ha. eapply agree_delivers; [exact Hsz|exact Ha|]. intros e He.
    destruct (idx5_surj times h1 w1 c0 c0 e) as (t & h1i & w1i & h0i & w0i & (?&?&?&?&?) & ->);
      [lia..|exact He|].
    destruct ((h1i * c0 + h0i <? h) && (w1i * c0 + w0i <? w)) eqn:Hin.
    + apply andb_true_iff in Hin as [?%Z.ltb_lt ?%Z.ltb_lt]. right.
      exists t. split; [done|]. exists h1i. split; [lia|]. exists h0i. split; [lia|].
      exists w1i, w0i. split; [lia|].
      rewrite zz_at_row by lia. unfold zz_at. fold (pos c0 h1i h0i) (pos c0 w1i w0i).
      by rewrite !pos_div, !pos_mod by lia.
    + left. split; [done|]. unfold spec. rewrite at5_idx by done. unfold zz_spec. by rewrite Hin.
Qed.

Lemma zz_nd_data args r batch times h w c0 d :
  let size := GetSizeByDataType (src_data_type args) in
  let h1 := Ceil h c0 in
  let w1 := Ceil w c0 in
  let N := times * h * w in
  src_shape args = batch ++ [h1; w1; c0; c0] -> GetItemNumByShape (dst_shape args) = N ->
  0 < times -> 0 < h -> 0 < w -> 0 < c0 -> 0 < size -> size * c0 <= SECUREC_MEM_MAX_LEN ->
  data args = Some d -> times * h1 * w1 * c0 * c0 * size <= zlen d -> can_alloc (N * size) = true ->
  wp (TransFormatFromFracZzToNd args r [times; h; w])
     (delivers N size (nd_of h w (fun t hi wi => elem d size (zz_at h1 w1 c0 t hi wi)))).
Proof.
  intros size h1 w1 N Es EN Ht Hh Hw Hc0 Hsz Hmax Edt Hd Hal.
  assert (Hm := type_size_bound (src_data_type args)).
  assert (HN : 0 < N) by (unfold N; do 2 (apply Z.mul_pos_pos; [|lia]); lia).
  unfold TransFormatFromFracZzToNd. rewrite Edt, EN. cbv zeta. fold size.
  rewrite (proj2 (Z.eqb_neq _ 0)) by nia. unfold new_zeroed. rewrite Hal. wp_dims.
  rewrite Es, !at_back_app by (simpl; unfold kFZzDimCountBackwardsW0, kFZzDimCountBackwardsW0H0,
    kFZzDimCountBackwardsW0H0W1, kFZzDimCountBackwardsW0H0W1H1; lia). wp_dims.
  rewrite quot_nonneg by lia. wp_dims.
  set (spec := nd_of h w (fun t hi wi => elem d size (zz_at h1 w1 c0 t hi wi))).
  apply wp_bind. eapply wp_mono.
  - assert (Ha0 := agree_zeroes N size spec Hsz ltac:(lia)).
    wp_loop Ha0 t Htt W1 b1 Ha1. wp_loop Ha1 h1i Hh1i W2 b2 Ha2. wp_loop Ha2 h0i Hh0i W3 b3 Ha3.
    assert (Hhi : 0 <= h1i * c0 + h0i < h) by nia.
    rewrite (zz_head h1 w1 c0 t h1i h0i) by lia.
    apply (wp_row N size spec Hsz (PtrAdd (N * size)) (nd_at h w t (h1i * c0 + h0i) 0) c0
             (zz_at h1 w1 c0 t (h1i * c0 + h0i) 0) (c0 * c0)); auto; try lia;
      try (intros x; unfold nd_at, pos; ring); [intros; by apply PtrAdd_elem|].
    intros a b Ha Hb Hab. assert (Hwi : 0 <= a * c0 + b < w) by nia.
    assert (HS := nd_at_bound times h w t (h1i * c0 + h0i) _ Htt Hhi Hwi).
    assert (HS2 := zz_at_bound times h w c0 t (h1i * c0 + h0i) _ Hc0 Htt Hhi Hwi). fold h1 w1 in HS2.
    rewrite zz_at_row, nd_at_row by lia. split; [done|]. split; [lia|]. split; [nia|].
    unfold spec. by rewrite nd_of_at.
  - intros out Ha. eapply agree_delivers; [exact Hsz|exact Ha|]. intros e He.
    destruct (nd_at_surj times h w e) as (t & hi & wi & (?&?&?) & ->); [lia..|].
    right. pose proof (Z.div_mod wi c0). pose proof (Z.mod_pos_bound wi c0).
    pose proof (Z.div_mod hi c0). pose proof (Z.mod_pos_bound hi c0).
    assert (0 <= hi / c0 < h1) by (by apply Ceil_div_lt).
    exists t. split; [done|]. exists (hi / c0). split; [done|].
    exists (hi mod c0). split; [lia|]. exists (wi / c0), (wi mod c0).
    split; [split_and!; try lia; apply Z.div_pos; lia|]. rewrite nd_at_row. f_equal; lia.
Qed.
End zz.

(** ** Theorems *)

Section theorems.
Context `{GeTypesLaws} `{SecureCLaws}.
Import FractalZz.

(** What the checks of the transfer leave behind. *)
Lemma zz_TransFormat args r :
  consistent args ->
  TransShape (src_format args) (src_shape args) (src_data_type args) (dst_format args)
  = Ok (dst_shape args) ->
  let c0 := GetC0Value (dst_format args) in
  0 < c0 ->
  0 < GetSizeByDataType (src_data_type args) /\
  IsShapeValid (dst_shape args) = true /\
  CheckShape (src_primary_format args) (src_shape args) = true /\
  exists batch times h w,
    as_matrices (src_shape args) = Some (times, h, w) /\ (0 <= times /\ 0 <= h /\ 0 <= w) /\
    GetItemNumByShape (src_shape args) = times * h * w /\
    dst_shape args = batch ++ [Ceil h c0; Ceil w c0; c0; c0] /\
    GetItemNumByShape (dst_shape args) = times * Ceil h c0 * Ceil w c0 * c0 * c0 /\
    TransShapeToFracZz (src_shape args) c0 = Ok (dst_shape args, [times; h; w]) /\
    TransFormat args r = TransFormatFromNdToFracZz args r [times; h; w].
Proof.
  intros (E1 & E2 & _) Ht c0 Hc0. unfold TransShape in Ht. rewrite <- E1 in Ht. cbv zeta in Ht.
  apply reject_Ok in Ht as [Hdt%negb_false_iff Ht]. apply reject_Ok in Ht as [Hck%negb_false_iff Ht].
  apply bind_Ok in Ht as ([ds hw] & Ht & Eds). injection Eds as ->.
  assert (Hvd : IsShapeValid (dst_shape args) = true).
  { unfold TransShapeToFracZz in Ht. cbv zeta in Ht.
    destruct (length (src_shape args) =? kSingleDim)%nat; inv_outcome; congruence. }
  pose proof Hdt as Hsz. apply Z.ltb_lt in Hsz. pose proof (CheckShape_valid_zz _ _ Hck) as Hv.
  destruct (zz_shape_inv _ _ _ _ Hc0 Hv Ht) as (batch & times & h & w & -> & Em & Hr & En & Ed & EN).
  split; [done|]. split; [done|]. split; [done|]. exists batch, times, h, w.
  split_and!; try done; try lia.
  unfold TransFormat. rewrite Hdt, Hck, Hvd. simpl. rewrite Ht. simpl. by rewrite dst_correct.
Qed.

(** A tensor survives the trip through FRACTAL_ZZ, and its image is the
    matrices cut into [C0 x C0] squares, rows of squares first, with zero past
    the last row and the last column. *)
Theorem nd_fractal_zz_roundtrip args1 args2 r1 r2 times h w d :
  let c0 := GetC0Value (dst_format args1) in
  let size := GetSizeByDataType (src_data_type args1) in
  let h1 := Ceil h c0 in
  let w1 := Ceil w c0 in
  consistent args1 ->
  FractalZz.TransShape (src_format args1) (src_shape args1) (src_data_type args1)
    (dst_format args1) = Ok (dst_shape args1) ->
  as_matrices (src_shape args1) = Some (times, h, w) -> 0 < times * h * w ->
  0 < c0 -> size * c0 <= SECUREC_MEM_MAX_LEN ->
  data args1 = Some d -> zlen d = times * h * w * size -> (forall k, can_alloc k = true) ->
  dst_primary_format args2 = src_primary_format args1 -> GetC0Value (src_format args2) = c0 ->
  src_shape args2 = dst_shape args1 -> dst_shape args2 = src_shape args1 ->
  src_data_type args2 = src_data_type args1 ->
  exists bs : list Z,
    FractalZz.TransFormat args1 r1
    = Ok {| res_data := Some (Some <$> bs); res_length := times * h1 * w1 * c0 * c0 * size |} /\
    (forall t h1i w1i h0i w0i,
       0 <= t < times -> 0 <= h1i < h1 -> 0 <= w1i < w1 -> 0 <= h0i < c0 -> 0 <= w0i < c0 ->
       elem bs size (idx5 h1 w1 c0 c0 t h1i w1i h0i w0i)
       = if (h1i * c0 + h0i <? h) && (w1i * c0 + w0i <? w)
         then elem d size ((t * h + (h1i * c0 + h0i)) * w + (w1i * c0 + w0i))
         else zero_elem size) /\
    FractalZz.TransFormatND (with_data args2 bs) r2
    = Ok {| res_data := Some (Some <$> d); res_length := times * h * w * size |}.
Proof.
  intros c0 size h1 w1 Hc Ht Em Hpos Hc0 Hmax Ed1 Hd Hal Ep Ec Es2 Eds2 Edt2.
  destruct (zz_TransFormat args1 r1 Hc Ht Hc0)
    as (Hsz & Hvd & Hck & batch & times' & h' & w' & Em' & Hr & En & Ed & EN & Hts & ->).
  rewrite Em in Em'. injection Em' as <- <- <-.
  assert (0 < times /\ 0 < h /\ 0 < w) as (? & ? & ?) by nia.
  destruct (delivers_eq _ _ _ _ (nd_zz_data args1 r1 batch times h w c0 d Ed EN
    ltac:(lia) ltac:(lia) ltac:(lia) Hc0 Hsz Hmax Ed1 ltac:(fold size; lia) (Hal _)))
    as (bs & E1 & Hz & He). fold h1 w1 size in Hz, He. exists bs. split; [exact E1|]. split.
  { intros. rewrite He by (by apply idx5_bound). by rewrite at5_idx. }
  assert (EC : FractalZz.TransFormatND (with_data args2 bs) r2
               = TransFormatFromFracZzToNd (with_data args2 bs) r2 [times; h; w]).
  { unfold TransFormatND, CheckDataTypeSupportForFractalZz, CheckShapeRelation,
      IsTransShapeSrcCorrect. simpl.
    rewrite Edt2, Es2, Eds2, Ep, Ec, Hvd, Hck, (proj2 (Z.ltb_lt _ _)) by done. simpl.
    fold c0 in Hts. rewrite Hts. simpl. by rewrite bool_decide_eq_true_2. }
  rewrite EC.
  pose proof (zz_nd_data (with_data args2 bs) r2 batch times h w c0 bs) as Hd2.
  simpl src_data_type in Hd2. simpl src_shape in Hd2. simpl dst_shape in Hd2.
  rewrite Edt2, Es2, Eds2 in Hd2. fold size h1 w1 in Hd2.
  destruct (delivers_eq _ _ _ _ (Hd2 Ed En ltac:(lia) ltac:(lia) ltac:(lia) Hc0 Hsz Hmax eq_refl
    ltac:(lia) (Hal _))) as (bs' & -> & Hz' & He').
  do 4 f_equal. apply (elem_ext _ _ (times * h * w) size); [done|done|lia|].
  intros e Hre. rewrite He' by done.
  destruct (nd_at_surj times h w e) as (t & hi & wi & (?&?&?) & ->); [done..|].
  rewrite nd_of_at by done. rewrite He by (by apply zz_at_bound). by apply zz_spec_at.
Qed.
End theorems.

(** ** Runs *)

Module RunsZz.
Import Concrete Sample.

Definition zz_c16 : Z := 28 + 5 * 2 ^ 24.

Lemma nd_fractal_zz_roundtrip_run :
  exists bs, FractalZz.TransFormatND
    (with_data (mk_args zz_c16 2 [2; 1; 1; 16; 16] [2; 3; 5] 2 []) bs) empty_result
    = Ok {| res_data := Some (Some <$> seqZ 1 30); res_length := 30 |}.
Proof.
  destruct (nd_fractal_zz_roundtrip
    (mk_args 2 zz_c16 [2; 3; 5] [2; 1; 1; 16; 16] 2 (seqZ 1 30))
    (mk_args zz_c16 2 [2; 1; 1; 16; 16] [2; 3; 5] 2 [])
    empty_result empty_result 2 3 5 (seqZ 1 30)) as (bs & _ & _ & E); [run_hyp..|].
  exists bs. exact E.
Defined.
End RunsZz.
