(* ===== verification/FormatsC1hwncoc0.v ===== *)
(** * FormatsC1hwncoc0: HWCN to and from C1HWNCoC0

    [format_transfer_hwcn_c1hwncoc0.cc], [format_transfer_c1hwncoc0_hwcn.cc]:
    the depthwise-convolution layout, in which each group of C0 channels of a
    weight is spread over the diagonal of a [Co x C0] square. *)

From S2P Require Import Prelude Env FormatsUtils Transfer.

Module HwcnC1hwncoc0.
Section model.
Context `{GeTypes} `{SecureC}.

Definition CheckDataTypeSupportedForTransShapeHwcnToC1hwncoc0 (data_type : Z) : bool :=
  (data_type =? DT_FLOAT) || (data_type =? DT_FLOAT16) || (data_type =? DT_INT8).

Definition TransShapeHwcnToC1hwncoc0 (src_shape : list Z) (cube_size : Z) : outcome (list Z) :=
  c ← at_ src_shape kHwcnC;
  h ← at_ src_shape kHwcnH;
  w ← at_ src_shape kHwcnW;
  n ← at_ src_shape kHwcnN;
  let dst_shape := [Ceil c cube_size; h; w; n; cube_size; cube_size] in
  reject_if (negb (CheckShapeValid dst_shape kC1hwncoc0DimsNum)) ACL_ERROR_GE_SHAPE_INVALID $
  Ok dst_shape.

Definition CheckArgsForHwcnToC1hwncoc0 (args : TransArgs) : outcome unit :=
  reject_if (negb (src_primary_format args =? FORMAT_HWCN)
             || negb (dst_primary_format args =? FORMAT_C1HWNCoC0)) ACL_ERROR_GE_FORMAT_INVALID $
  reject_if (negb (CheckDataTypeSupportedForTransShapeHwcnToC1hwncoc0 (src_data_type args)))
            ACL_ERROR_GE_DATATYPE_INVALID $
  reject_if (negb (CheckShapeValid (src_shape args) kHwcnDimsNum)) ACL_ERROR_GE_SHAPE_INVALID $
  reject_if (negb (CheckShapeValid (dst_shape args) kC1hwncoc0DimsNum))
            ACL_ERROR_GE_SHAPE_INVALID $
  let c0 := GetC0Value (dst_format args) in
  expect_dst_shape ← TransShapeHwcnToC1hwncoc0 (src_shape args) c0;
  reject_if (negb (bool_decide (dst_shape args = expect_dst_shape))) ACL_ERROR_GE_SHAPE_INVALID $
  Ok tt.

Definition GetDstDataAfterTransForTransShapeHwcnToC1hwncoc0 (args : TransArgs)
    (size total_size : Z) : outcome TransResult :=
  dst ← new_bytes total_size;
  h ← at_ (src_shape args) kHwcnH;
  w ← at_ (src_shape args) kHwcnW;
  c ← at_ (src_shape args) kHwcnC;
  n ← at_ (src_shape args) kHwcnN;
  c1 ← at_ (dst_shape args) kC1hwncoc0C1;
  c0 ← at_ (dst_shape args) kC1hwncoc0C0;
  co ← at_ (dst_shape args) kC1hwncoc0Co;
  let coc0 := co * c0 in
  let ncoc0 := n * coc0 in
  let wncoc0 := w * ncoc0 in
  let hwncoc0 := h * wncoc0 in
  let cn := c * n in
  let wcn := w * cn in
  dst ← for_range 0 c1 (fun c1_idx =>
    let c1_head_addr := c1_idx * hwncoc0 in
    for_range 0 h (fun h_idx =>
      let h_head_addr := c1_head_addr + h_idx * wncoc0 in
      for_range 0 w (fun w_idx =>
        let w_head_addr := h_head_addr + w_idx * ncoc0 in
        for_range 0 n (fun n_idx =>
          let n_head_addr := w_head_addr + n_idx * coc0 in
          for_range 0 co (fun co_idx =>
            let co_head_addr := n_head_addr + co_idx * c0 in
            for_range 0 c0 (fun c0_idx dst =>
              let dst_idx := c0_idx + co_head_addr in
              let dst_offset := dst_idx * size in
              p ← guard_size total_size dst_offset;
              let c_idx := c0_idx + c1_idx * c0 in
              if (c_idx <? c) && (c0_idx =? co_idx) then
                let src_idx := h_idx * wcn + w_idx * cn + c_idx * n + n_idx in
                let src_offset := src_idx * size in
                memcpy_chk dst (PtrAdd total_size dst_offset) p (data args) src_offset size
              else
                memset_chk dst (PtrAdd total_size dst_offset) p size)))))) dst;
  Ok {| res_data := Some dst; res_length := total_size |}.

Definition TransFormat (args : TransArgs) (result : TransResult) : outcome TransResult :=
  _ ← CheckArgsForHwcnToC1hwncoc0 args;
  let size := GetSizeByDataType (src_data_type args) in
  let total_size := GetItemNumByShape (dst_shape args) * size in
  if total_size <=? 0 then
    let src_size := GetItemNumByShape (src_shape args) in
    if (total_size =? 0) && (src_size =? 0)
    then Ok {| res_data := res_data result; res_length := total_size |}
    else Err ACL_ERROR_GE_SHAPE_INVALID
  else GetDstDataAfterTransForTransShapeHwcnToC1hwncoc0 args size total_size.

Definition TransShape (src_format : Z) (src_shape : list Z) (data_type dst_format : Z)
    : outcome (list Z) :=
  let src_primary_format := GetPrimaryFormat src_format in
  if (src_primary_format =? FORMAT_HWCN)
     && CheckDataTypeSupportedForTransShapeHwcnToC1hwncoc0 data_type then
    reject_if (negb (CheckShapeValid src_shape kHwcnDimsNum)) ACL_ERROR_GE_SHAPE_INVALID $
    TransShapeHwcnToC1hwncoc0 src_shape (GetC0Value dst_format)
  else if negb (src_primary_format =? FORMAT_HWCN) then Err ACL_ERROR_GE_FORMAT_INVALID
  else Err ACL_ERROR_GE_DATATYPE_INVALID.

Definition transfer : FormatTransfer :=
  {| FormatsUtils.TransFormat := TransFormat; FormatsUtils.TransShape := TransShape |}.
End model.
End HwcnC1hwncoc0.

Module C1hwncoc0Hwcn.
Section model.
Context `{GeTypes} `{SecureC}.

Definition CheckDataTypeSupportedForC1hwncoc0ToHwcn (data_type : Z) : bool :=
  (data_type =? DT_FLOAT) || (data_type =? DT_FLOAT16) || (data_type =? DT_INT8).

(** The division by [cube_size] comes first in the condition. *)
Definition CheckArgsForC1hwncoc0ToHwcn (args : TransArgs) : outcome unit :=
  reject_if (negb (src_primary_format args =? FORMAT_C1HWNCoC0)
             || negb (dst_primary_format args =? FORMAT_HWCN)) ACL_ERROR_GE_FORMAT_INVALID $
  reject_if (negb (CheckDataTypeSupportedForC1hwncoc0ToHwcn (src_data_type args)))
            ACL_ERROR_GE_DATATYPE_INVALID $
  reject_if (negb (CheckShapeValid (src_shape args) kC1hwncoc0DimsNum))
            ACL_ERROR_GE_SHAPE_INVALID $
  reject_if (negb (CheckShapeValid (dst_shape args) kHwcnDimsNum)) ACL_ERROR_GE_SHAPE_INVALID $
  let cube_size := GetC0Value (src_format args) in
  sc1 ← at_ (src_shape args) kC1hwncoc0C1;
  dc ← at_ (dst_shape args) kHwcnC;
  q ← quot_ (dc - 1) cube_size;
  sh ← at_ (src_shape args) kC1hwncoc0H;
  dh ← at_ (dst_shape args) kHwcnH;
  sw ← at_ (src_shape args) kC1hwncoc0W;
  dw ← at_ (dst_shape args) kHwcnW;
  sn ← at_ (src_shape args) kC1hwncoc0N;
  dn ← at_ (dst_shape args) kHwcnN;
  sco ← at_ (src_shape args) kC1hwncoc0Co;
  sc0 ← at_ (src_shape args) kC1hwncoc0C0;
  reject_if (negb (sc1 =? q + 1) || (negb (sh =? dh) || (negb (sw =? dw) || (negb (sn =? dn)
             || (negb (sco =? cube_size) || negb (sc0 =? cube_size))))))
            ACL_ERROR_GE_SHAPE_INVALID $
  Ok tt.

Definition GetDstDataAfterTransForC1hwncoc0ToHwcn (args : TransArgs) (size total_size : Z)
    : outcome TransResult :=
  dst ← new_bytes total_size;
  h ← at_ (src_shape args) kC1hwncoc0H;
  w ← at_ (src_shape args) kC1hwncoc0W;
  n ← at_ (src_shape args) kC1hwncoc0N;
  c0 ← at_ (src_shape args) kC1hwncoc0C0;
  co ← at_ (src_shape args) kC1hwncoc0Co;
  c ← at_ (dst_shape args) kHwcnC;
  let cube_size := GetC0Value (src_format args) in
  let cn := c * n in
  let wcn := w * cn in
  let coc0 := co * c0 in
  let ncoc0 := n * coc0 in
  let wncoc0 := w * ncoc0 in
  dst ← for_range 0 h (fun h_idx =>
    let h_head_addr := h_idx * wcn in
    for_range 0 w (fun w_idx =>
      let w_head_addr := h_head_addr + w_idx * cn in
      for_range 0 c (fun c_idx =>
        let c_head_addr := w_head_addr + c_idx * n in
        for_range 0 n (fun n_idx dst =>
          let dst_idx := c_head_addr + n_idx in
          c1_idx ← quot_ c_idx cube_size;
          c0_idx ← rem_ c_idx cube_size;
          let co_idx := c0_idx in
          let hwncoc0 := h * wncoc0 in
          let src_idx := c1_idx * hwncoc0 + h_idx * wncoc0 + w_idx * ncoc0 + n_idx * coc0
                         + co_idx * c0 + c0_idx in
          let src_offset := src_idx * size in
          let dst_offset := dst_idx * size in
          p ← guard_size total_size dst_offset;
          memcpy_chk dst (Some dst_offset) p (data args) src_offset size)))) dst;
  Ok {| res_data := Some dst; res_length := total_size |}.

Definition TransFormat (args : TransArgs) (result : TransResult) : outcome TransResult :=
  _ ← CheckArgsForC1hwncoc0ToHwcn args;
  let size := GetSizeByDataType (src_data_type args) in
  let total_size := GetItemNumByShape (dst_shape args) * size in
  if total_size <=? 0 then
    let src_size := GetItemNumByShape (src_shape args) in
    if (total_size =? 0) && (src_size =? 0)
    then Ok {| res_data := res_data result; res_length := total_size |}
    else Err ACL_ERROR_GE_SHAPE_INVALID
  else GetDstDataAfterTransForC1hwncoc0ToHwcn args size total_size.

Definition TransShape (src_format : Z) (src_shape : list Z) (data_type dst_format : Z)
    : outcome (list Z) := Err ACL_ERROR_GE_FORMAT_INVALID.

Definition transfer : FormatTransfer :=
  {| FormatsUtils.TransFormat := TransFormat; FormatsUtils.TransShape := TransShape |}.
End model.
End C1hwncoc0Hwcn.

(** ** The layout *)

(** Entry [(c1i, hi, wi, ni, coi, c0i)]: on the diagonal of the square, channel
    [c1i * c0 + c0i]. *)
Definition diag_spec (c w n c0 size : Z) (d : list Z) : Z -> Z -> Z -> Z -> Z -> Z -> list Z :=
  fun c1i hi wi ni coi c0i =>
    if (c1i * c0 + c0i <? c) && (c0i =? coi)
    then elem d size (idx4 w c n hi wi (c1i * c0 + c0i) ni) else zero_elem size.

(** Where the layout keeps weight [(hi, wi, ci, ni)]. *)
Definition diag_at (h w n c0 hi wi ci ni : Z) : Z :=
  idx6 h w n c0 c0 (ci / c0) hi wi ni (ci mod c0) (ci mod c0).

Lemma diag_at_bound c h w n c0 hi wi ci ni :
  0 < c0 -> 0 <= hi < h -> 0 <= wi < w -> 0 <= ci < c -> 0 <= ni < n ->
  0 <= diag_at h w n c0 hi wi ci ni < Ceil c c0 * h * w * n * c0 * c0.
Proof.
  intros. apply idx6_bound; auto; try (by apply Ceil_div_lt); by apply Z.mod_pos_bound.
Qed.

Lemma diag_spec_at c h w n c0 size d hi wi ci ni :
  0 < c0 -> 0 <= hi < h -> 0 <= wi < w -> 0 <= ci < c -> 0 <= ni < n ->
  at6 h w n c0 c0 (diag_spec c w n c0 size d) (diag_at h w n c0 hi wi ci ni)
  = elem d size (idx4 w c n hi wi ci ni).
Proof.
  intros Hc0 Hhi Hwi Hci Hni. unfold diag_at.
  rewrite at6_idx; try done; try (by apply Z.mod_pos_bound). unfold diag_spec.
  replace (ci / c0 * c0 + ci mod c0) with ci by (pose proof (Z.div_mod ci c0); lia).
  by rewrite (proj2 (Z.ltb_lt _ _)), Z.eqb_refl by lia.
Qed.

Section to_diag.
Context `{GeTypesLaws} `{SecureCLaws}.
Import HwcnC1hwncoc0.

Lemma hwcn_diag_check_inv args :
  CheckArgsForHwcnToC1hwncoc0 args = Ok tt ->
  let c0 := GetC0Value (dst_format args) in
  exists h w c n,
    src_shape args = [h; w; c; n] /\ dst_shape args = [Ceil c c0; h; w; n; c0; c0] /\
    (0 <= h /\ 0 <= w /\ 0 <= c /\ 0 <= n) /\
    GetItemNumByShape (dst_shape args) = Ceil c c0 * h * w * n * c0 * c0.
Proof.
  intros Hc. unfold CheckArgsForHwcnToC1hwncoc0, TransShapeHwcnToC1hwncoc0 in Hc.
  cbv zeta in *. inv_outcome. set (c0 := GetC0Value (dst_format args)) in *.
  match goal with Hs : CheckShapeValid (src_shape args) _ = true |- _ =>
    apply check4_inv in Hs as (h & w & c & n & E & ? & ? & ? & ? & _ & _) end.
  rewrite E in *.
  repeat match goal with Ha : at_ _ _ = Ok _ |- _ => injection Ha as <- end.
  match goal with Hs : CheckShapeValid [_; _; _; _; _; _] _ = true |- _ =>
    apply check6_inv in Hs as (? & ? & ? & ? & ? & ? & E' & ? & ? & ? & ? & ? & ? & Hi & _) end.
  injection E' as <- <- <- <- <- <-. exists h, w, c, n.
  match goal with Hd : dst_shape args = _ |- _ => rewrite Hd in * end. by split_and!.
Qed.

Lemma hwcn_diag_delivers args r h w c n d :
  let c0 := GetC0Value (dst_format args) in
  let size := GetSizeByDataType (src_data_type args) in
  let N := Ceil c c0 * h * w * n * c0 * c0 in
  CheckArgsForHwcnToC1hwncoc0 args = Ok tt -> src_shape args = [h; w; c; n] ->
  0 < c0 -> 0 < size -> 0 < h * w * c * n ->
  data args = Some d -> h * w * c * n * size <= zlen d -> can_alloc (N * size) = true ->
  wp (TransFormat args r) (delivers N size (at6 h w n c0 c0 (diag_spec c w n c0 size d))).
Proof.
  intros c0 size N Hck Es Hc0 Hsz Hpos Ed Hd Hal.
  destruct (hwcn_diag_check_inv _ Hck) as (h' & w' & c' & n' & Es' & Et & Hr & EN).
  rewrite Es in Es'. injection Es' as <- <- <- <-.
  assert (0 < n /\ 0 < c /\ 0 < h /\ 0 < w) as (Hn & Hc & Hh & Hw) by nia.
  assert (Hm := type_size_bound (src_data_type args)).
  assert (Hc1 := Ceil_pos c c0 Hc Hc0). fold c0 in Et, EN. fold N in EN.
  assert (HN : 0 < N) by (unfold N; do 5 (apply Z.mul_pos_pos; [|lia]); lia).
  unfold TransFormat. rewrite Hck. simpl. rewrite EN. fold size.
  rewrite (proj2 (Z.leb_gt _ _)) by nia.
  unfold GetDstDataAfterTransForTransShapeHwcnToC1hwncoc0. rewrite Es, Et, Ed.
  set (spec := at6 h w n c0 c0 (diag_spec c w n c0 size d)).
  apply (wp_new_bytes N size spec); [done|lia|done|]. intros b0 Ha0. wp_dims. cbv zeta.
  apply wp_bind. eapply wp_mono.
  - wp_loop Ha0 c1i Hc1i W1 b1 Ha1. wp_loop Ha1 hi Hhi W2 b2 Ha2. wp_loop Ha2 wi Hwi W3 b3 Ha3.
    wp_loop Ha3 ni Hni W4 b4 Ha4. wp_loop Ha4 coi Hcoi W5 b5 Ha5. wp_loop Ha5 c0i Hc0i W6 b6 Ha6.
    assert (HD := idx6_bound (Ceil c c0) h w n c0 c0 c1i hi wi ni coi c0i
                    Hc1i Hhi Hwi Hni Hcoi Hc0i). fold N in HD.
    replace (c0i + (c1i * _ + _ + _ + _ + _)) with (idx6 h w n c0 c0 c1i hi wi ni coi c0i)
      by (unfold idx6, idx5, idx4, pos; ring).
    eapply wp_guard; [exact Hsz|exact HD|done|]. intros p Hp. cbv zeta.
    assert (Hsp := at6_idx h w n c0 c0 (diag_spec c w n c0 size d) c1i hi wi ni coi c0i
                     Hhi Hwi Hni Hcoi Hc0i).
    unfold diag_spec at 2 in Hsp. fold spec in Hsp.
    rewrite (Z.add_comm c0i (c1i * c0)).
    destruct ((c1i * c0 + c0i <? c) && (c0i =? coi)) eqn:Hin.
    + apply andb_true_iff in Hin as [Hlt%Z.ltb_lt _].
      assert (HS : 0 <= idx4 w c n hi wi (c1i * c0 + c0i) ni < h * w * c * n)
        by (apply idx4_bound; nia).
      replace (hi * _ + _ + _ + ni) with (idx4 w c n hi wi (c1i * c0 + c0i) ni)
        by (unfold idx4, pos; ring).
      eapply wp_memcpy_elem; eauto; [by apply PtrAdd_elem|lia|nia].
    + eapply wp_memset_elem; eauto. by apply PtrAdd_elem.
  - intros out Ha. eapply agree_delivers; [exact Hsz|exact Ha|]. intros e He.
    destruct (idx6_surj (Ceil c c0) h w n c0 c0 e)
      as (c1i & hi & wi & ni & coi & c0i & (?&?&?&?&?&?) & ->); [lia..|exact He|].
    right. exists c1i. split; [done|]. exists hi. split; [done|]. exists wi. split; [done|].
    exists ni. split; [done|]. exists coi. split; [done|]. by exists c0i.
Qed.
End to_diag.

Section of_diag.
Context `{GeTypesLaws} `{SecureCLaws}.
Import C1hwncoc0Hwcn.

Lemma diag_hwcn_check_inv args :
  CheckArgsForC1hwncoc0ToHwcn args = Ok tt ->
  let c0 := GetC0Value (src_format args) in
  exists h w c n,
    dst_shape args = [h; w; c; n] /\ src_shape args = [Z.quot (c - 1) c0 + 1; h; w; n; c0; c0] /\
    (0 <= h /\ 0 <= w /\ 0 <= c /\ 0 <= n /\ 0 < c0) /\
    GetItemNumByShape (dst_shape args) = h * w * c * n.
Proof.
  intros Hc. unfold CheckArgsForC1hwncoc0ToHwcn in Hc.
  cbv zeta in *. inv_outcome. set (c0 := GetC0Value (src_format args)) in *.
  match goal with Hs : CheckShapeValid (src_shape args) _ = true |- _ =>
    apply check6_inv in Hs as (? & ? & ? & ? & ? & ? & E & ? & ? & ? & ? & ? & ? & _ & _) end.
  match goal with Hs : CheckShapeValid (dst_shape args) _ = true |- _ =>
    apply check4_inv in Hs as (h & w & c & n & E' & ? & ? & ? & ? & Hi & _) end.
  rewrite E, E' in *.
  repeat match goal with Ha : at_ _ _ = Ok _ |- _ => injection Ha as <- end.
  match goal with Hq : quot_ _ _ = Ok _ |- _ => unfold quot_ in Hq;
    destruct (Z.eqb_spec c0 0); [done|]; injection Hq as <- end. subst.
  exists h, w, c, n. split_and!; try done; lia.
Qed.

Lemma diag_hwcn_delivers args r h w c n d :
  let c0 := GetC0Value (src_format args) in
  let size := GetSizeByDataType (src_data_type args) in
  let N := h * w * c * n in
  CheckArgsForC1hwncoc0ToHwcn args = Ok tt -> dst_shape args = [h; w; c; n] ->
  0 < size -> 0 < N ->
  data args = Some d -> Ceil c c0 * h * w * n * c0 * c0 * size <= zlen d ->
  can_alloc (N * size) = true ->
  wp (TransFormat args r)
     (delivers N size (at4 w c n (fun hi wi ci ni => elem d size (diag_at h w n c0 hi wi ci ni)))).
Proof.
  intros c0 size N Hck Et Hsz Hpos Ed Hd Hal.
  destruct (diag_hwcn_check_inv _ Hck) as (h' & w' & c' & n' & Et' & Es & (?&?&?&?&Hc0) & EN).
  rewrite Et in Et'. injection Et' as <- <- <- <-. fold c0 in Es, Hc0. fold N in EN.
  assert (0 < n /\ 0 < c /\ 0 < h /\ 0 < w) as (Hn & Hc & Hh & Hw) by (unfold N in *; nia).
  assert (Hm := type_size_bound (src_data_type args)).
  unfold TransFormat. rewrite Hck. simpl. rewrite EN. fold size.
  rewrite (proj2 (Z.leb_gt _ _)) by nia.
  unfold GetDstDataAfterTransForC1hwncoc0ToHwcn. rewrite Es, Et, Ed. fold c0.
  set (spec := at4 w c n _).
  apply (wp_new_bytes N size spec); [done|lia|done|]. intros b0 Ha0. wp_dims. cbv zeta.
  apply wp_bind. eapply wp_mono.
  - wp_loop Ha0 hi Hhi W1 b1 Ha1. wp_loop Ha1 wi Hwi W2 b2 Ha2. wp_loop Ha2 ci Hci W3 b3 Ha3.
    wp_loop Ha3 ni Hni W4 b4 Ha4.
    rewrite quot_nonneg, rem_nonneg by lia. wp_dims. cbv zeta.
    assert (HD := idx4_bound h w c n hi wi ci ni Hhi Hwi Hci Hni). fold N in HD.
    replace (hi * _ + wi * _ + ci * n + ni) with (idx4 w c n hi wi ci ni)
      by (unfold idx4, pos; ring).
    assert (HS := diag_at_bound c h w n c0 hi wi ci ni Hc0 Hhi Hwi Hci Hni).
    replace (ci / c0 * _ + _ + _ + _ + _ + _) with (diag_at h w n c0 hi wi ci ni)
      by (unfold diag_at, idx6, idx5, idx4, pos; ring).
    eapply wp_guard; [exact Hsz|exact HD|done|]. intros p Hp.
    eapply wp_memcpy_elem; eauto; [lia|nia|]. unfold spec. by rewrite at4_idx.
  - intros out Ha. eapply agree_delivers; [exact Hsz|exact Ha|]. intros e He.
    destruct (idx4_surj h w c n e) as (hi & wi & ci & ni & (?&?&?&?) & ->); [done..|].
    in_loops. unfold idx4, pos; ring.
Qed.
End of_diag.

(** ** Theorems *)

Section theorems.
Context `{GeTypesLaws} `{SecureCLaws}.

(** HWCN weights survive the trip through C1HWNCoC0, and their image
    holds each weight on the diagonal of its [Co x C0] square with zero off
    the diagonal. *)
Theorem hwcn_c1hwncoc0_roundtrip args1 args2 r1 r2 h w c n d :
  let c0 := GetC0Value (dst_format args1) in
  let size := GetSizeByDataType (src_data_type args1) in
  HwcnC1hwncoc0.CheckArgsForHwcnToC1hwncoc0 args1 = Ok tt -> src_shape args1 = [h; w; c; n] ->
  0 < c0 -> 0 < size -> 0 < h * w * c * n ->
  data args1 = Some d -> zlen d = h * w * c * n * size -> (forall k, can_alloc k = true) ->
  C1hwncoc0Hwcn.CheckArgsForC1hwncoc0ToHwcn args2 = Ok tt -> dst_shape args2 = [h; w; c; n] ->
  GetC0Value (src_format args2) = c0 -> src_data_type args2 = src_data_type args1 ->
  exists bs : list Z,
    HwcnC1hwncoc0.TransFormat args1 r1
    = Ok {| res_data := Some (Some <$> bs);
            res_length := Ceil c c0 * h * w * n * c0 * c0 * size |} /\
    (forall c1i hi wi ni coi c0i,
       0 <= c1i < Ceil c c0 -> 0 <= hi < h -> 0 <= wi < w -> 0 <= ni < n -> 0 <= coi < c0 ->
       0 <= c0i < c0 ->
       elem bs size (idx6 h w n c0 c0 c1i hi wi ni coi c0i)
       = if (c1i * c0 + c0i <? c) && (c0i =? coi)
         then elem d size (idx4 w c n hi wi (c1i * c0 + c0i) ni) else zero_elem size) /\
    C1hwncoc0Hwcn.TransFormat (with_data args2 bs) r2
    = Ok {| res_data := Some (Some <$> d); res_length := h * w * c * n * size |}.
Proof.
  intros c0 size Hck1 Es1 Hc0 Hsz Hpos Ed1 Hd Hal Hck2 Et2 Ec0 Edt.
  destruct (delivers_eq _ _ _ _ (hwcn_diag_delivers args1 r1 h w c n d
    Hck1 Es1 Hc0 Hsz Hpos Ed1 ltac:(fold size; lia) (Hal _))) as (bs & E1 & Hz & He).
  fold c0 size in Hz, He. exists bs. split; [exact E1|]. split.
  { intros. rewrite He by (by apply idx6_bound). by rewrite at6_idx. }
  pose proof (diag_hwcn_delivers (with_data args2 bs) r2 h w c n bs Hck2 Et2) as Hd2.
  simpl src_format in Hd2. simpl src_data_type in Hd2. rewrite Ec0, Edt in Hd2. fold size in Hd2.
  destruct (delivers_eq _ _ _ _ (Hd2 Hsz Hpos eq_refl ltac:(lia) (Hal _))) as (bs' & -> & Hz' & He').
  do 4 f_equal. apply (elem_ext _ _ (h * w * c * n) size); [done|done|lia|].
  intros e Hr. rewrite He' by done.
  assert (0 < w /\ 0 < c /\ 0 < n) as (Hw & Hc & Hn).
  { destruct (hwcn_diag_check_inv _ Hck1) as (?&?&?&?&E&_&?&_).
    rewrite Es1 in E. injection E as <- <- <- <-. nia. }
  destruct (idx4_surj h w c n e) as (hi & wi & ci & ni & (?&?&?&?) & ->); [done..|].
  rewrite at4_idx by done. rewrite He by (by apply diag_at_bound). by apply diag_spec_at.
Qed.
End theorems.

(** ** Runs *)

Module RunsC1hwncoc0.
Import Concrete Sample.

Definition diag_c4 : Z := 25 + 3 * 2 ^ 24.

Lemma hwcn_c1hwncoc0_roundtrip_run :
  exists bs, C1hwncoc0Hwcn.TransFormat
    (with_data (mk_args diag_c4 16 [2; 1; 1; 2; 4; 4] [1; 1; 6; 2] 2 []) bs) empty_result
    = Ok {| res_data := Some (Some <$> seqZ 1 12); res_length := 12 |}.
Proof.
  destruct (hwcn_c1hwncoc0_roundtrip
    (mk_args 16 diag_c4 [1; 1; 6; 2] [2; 1; 1; 2; 4; 4] 2 (seqZ 1 12))
    (mk_args diag_c4 16 [2; 1; 1; 2; 4; 4] [1; 1; 6; 2] 2 [])
    empty_result empty_result 1 1 6 2 (seqZ 1 12)) as (bs & _ & _ & E); [run_hyp..|].
  exists bs. exact E.
Defined.
End RunsC1hwncoc0.
