(* ===== verification/Formats3D.v ===== *)
(** * Formats3D: DHWCN to FRACTAL_Z_3D and DHWNC to FRACTAL_Z_3D_TRANSPOSE

    [format_transfer_dhwcn_fractal_z_3D.cc] and
    [format_transfer_dhwnc_fractal_z_3D_transpose.cc]: FRACTAL_Z with a depth
    axis in front.  Neither checks the sign of [protected_size], nor validates
    the shape it computes. *)

From S2P Require Import Prelude Env FormatsUtils Transfer FormatsFractalZ.

Module DhwcnFractalZ3D.
Section model.
Context `{GeTypes} `{SecureC}.

Definition CheckDataTypeSupportForDhwcnFractalZ3D (dtype : Z) : Status :=
  if 0 <? GetSizeByDataType dtype then SUCCESS else UNSUPPORTED.

Definition TransShapeToFzForDhwcnFractalZ3D (d n c h w c0 : Z) : outcome (list Z) :=
  reject_if (c0 <=? 0) ACL_ERROR_GE_DATATYPE_INVALID $
  let c1 := Ceil c c0 in
  let no := Ceil n kNiSize in
  Ok [swrap 64 (swrap 64 (swrap 64 (d * c1) * h) * w); no; kNiSize; c0].

Definition TransShapeDhwckToFz3D (src_shape : list Z) (dst_format : Z) : outcome (list Z) :=
  reject_if (negb (CheckShapeValid src_shape kDhwcnDimsNum)) ACL_ERROR_GE_SHAPE_INVALID $
  d ← at_ src_shape kDhwcnD;
  h ← at_ src_shape kDhwcnH;
  w ← at_ src_shape kDhwcnW;
  c ← at_ src_shape kDhwcnC;
  n ← at_ src_shape kDhwcnN;
  TransShapeToFzForDhwcnFractalZ3D d n c h w (GetC0Value dst_format).

Definition TransFormatDhwckToFz3D (args : TransArgs) (result : TransResult)
    : outcome TransResult :=
  reject_if (negb (CheckShapeValid (src_shape args) kDhwcnDimsNum)) ACL_ERROR_GE_SHAPE_INVALID $
  d ← at_ (src_shape args) kDhwcnD;
  h ← at_ (src_shape args) kDhwcnH;
  w ← at_ (src_shape args) kDhwcnW;
  c ← at_ (src_shape args) kDhwcnC;
  n ← at_ (src_shape args) kDhwcnN;
  let n1n0 := Ceil n kNiSize * kNiSize in
  let c0 := GetC0Value (dst_format args) in
  let c1 := Ceil c c0 in
  let cn := c * n in
  let wcn := w * cn in
  let hwcn := h * wcn in
  let n1n0c0 := n1n0 * c0 in
  let wn1n0c0 := w * n1n0c0 in
  let hwn1n0c0 := h * wn1n0c0 in
  let c1hwn1n0c0 := c1 * hwn1n0c0 in
  let data_size := GetSizeByDataType (src_data_type args) in
  let dst_size := GetItemNumByShape (dst_shape args) * data_size in
  if dst_size =? 0 then Ok {| res_data := res_data result; res_length := dst_size |} else
  dst ← new_bytes dst_size;
  dst ← for_range 0 d (fun di =>
    for_range 0 c1 (fun c1i =>
      for_range 0 h (fun hi =>
        for_range 0 w (fun wi =>
          for_range 0 n1n0 (fun n1n0i =>
            for_range 0 c0 (fun c0i dst =>
              let dst_idx := di * c1hwn1n0c0 + c1i * hwn1n0c0 + hi * wn1n0c0 + wi * n1n0c0
                             + n1n0i * c0 + c0i in
              let dst_offset := dst_idx * data_size in
              let pad_zero := (c <=? c1i * c0 + c0i) || (n <=? n1n0i) in
              let p := protected_size dst_size dst_offset in
              if pad_zero then memset_chk dst (Some dst_offset) p data_size
              else
                let src_idx := di * hwcn + hi * wcn + wi * cn + (c1i * c0 + c0i) * n + n1n0i in
                memcpy_chk dst (Some dst_offset) p (data args) (src_idx * data_size)
                           data_size)))))) dst;
  Ok {| res_data := Some dst; res_length := dst_size |}.

Definition TransShape (src_format : Z) (src_shape : list Z) (data_type dst_format : Z)
    : outcome (list Z) :=
  reject_if (negb (bool_decide (CheckDataTypeSupportForDhwcnFractalZ3D data_type = SUCCESS)))
            ACL_ERROR_GE_DATATYPE_INVALID $
  let src_primary_format := GetPrimaryFormat src_format in
  let dst_primary_format := GetPrimaryFormat dst_format in
  if (src_primary_format =? FORMAT_DHWCN) && (dst_primary_format =? FORMAT_FRACTAL_Z_3D)
  then TransShapeDhwckToFz3D src_shape dst_format
  else Err ACL_ERROR_GE_FORMAT_INVALID.

Definition TransFormat (args : TransArgs) (result : TransResult) : outcome TransResult :=
  expect_shape ← TransShape (src_format args) (src_shape args) (src_data_type args)
                            (dst_format args);
  reject_if (negb (IsTransShapeDstCorrect args expect_shape)) ACL_ERROR_GE_SHAPE_INVALID $
  if (src_primary_format args =? FORMAT_DHWCN) && (dst_primary_format args =? FORMAT_FRACTAL_Z_3D)
  then TransFormatDhwckToFz3D args result
  else Err ACL_ERROR_GE_FORMAT_INVALID.

Definition transfer : FormatTransfer :=
  {| FormatsUtils.TransFormat := TransFormat; FormatsUtils.TransShape := TransShape |}.
End model.
End DhwcnFractalZ3D.

Module DhwncFractalZ3DTranspose.
Section model.
Context `{GeTypes} `{SecureC}.

Definition CheckDataTypeSupportForDhwncToFz3DT (dtype : Z) : Status :=
  if 0 <? GetSizeByDataType dtype then SUCCESS else UNSUPPORTED.

Definition TransShapeToFzForDhwncToFz3DT (d n c h w c0 : Z) : outcome (list Z) :=
  reject_if (c0 <=? 0) ACL_ERROR_GE_DATATYPE_INVALID $
  let c1 := Ceil c c0 in
  let no := Ceil n kNiSize in
  Ok [swrap 64 (swrap 64 (swrap 64 (d * c1) * h) * w); no; kNiSize; c0].

Definition TransShapeDhwncToFz3DTranspose (src_shape : list Z) (dst_format : Z)
    : outcome (list Z) :=
  reject_if (negb (CheckShapeValid src_shape kDhwncDimsNum)) ACL_ERROR_GE_SHAPE_INVALID $
  d ← at_ src_shape kDhwncD;
  h ← at_ src_shape kDhwncH;
  w ← at_ src_shape kDhwncW;
  n ← at_ src_shape kDhwncN;
  c ← at_ src_shape kDhwncC;
  TransShapeToFzForDhwncToFz3DT d c n h w (GetC0Value dst_format).

(** The roles of N and C are exchanged as the dimensions are read. *)
Definition TransFormatDhwncToFz3DTranspose (args : TransArgs) (result : TransResult)
    : outcome TransResult :=
  reject_if (negb (CheckShapeValid (src_shape args) kDhwncDimsNum)) ACL_ERROR_GE_SHAPE_INVALID $
  d ← at_ (src_shape args) kDhwncD;
  h ← at_ (src_shape args) kDhwncH;
  w ← at_ (src_shape args) kDhwncW;
  c ← at_ (src_shape args) kDhwncN;
  n ← at_ (src_shape args) kDhwncC;
  let n1n0 := Ceil n kNiSize * kNiSize in
  let c0 := GetC0Value (dst_format args) in
  let c1 := Ceil c c0 in
  let cn := c * n in
  let wcn := w * cn in
  let n1n0c0 := n1n0 * c0 in
  let wn1n0c0 := w * n1n0c0 in
  let hwn1n0c0 := h * wn1n0c0 in
  let c1hwn1n0c0 := c1 * hwn1n0c0 in
  let data_size := GetSizeByDataType (src_data_type args) in
  let dst_size := GetItemNumByShape (dst_shape args) * data_size in
  if dst_size =? 0 then Ok {| res_data := res_data result; res_length := dst_size |} else
  dst ← new_bytes dst_size;
  dst ← for_range 0 d (fun di =>
    for_range 0 c1 (fun c1i =>
      for_range 0 h (fun hi =>
        for_range 0 w (fun wi =>
          for_range 0 n1n0 (fun n1n0i =>
            for_range 0 c0 (fun c0i dst =>
              let dst_idx := di * c1hwn1n0c0 + c1i * hwn1n0c0 + hi * wn1n0c0 + wi * n1n0c0
                             + n1n0i * c0 + c0i in
              let dst_offset := dst_idx * data_size in
              let p := protected_size dst_size dst_offset in
              let pad_zero := (c <=? c1i * c0 + c0i) || (n <=? n1n0i) in
              if pad_zero then memset_chk dst (Some dst_offset) p data_size
              else
                let hwcn := h * wcn in
                let src_idx := di * hwcn + hi * wcn + wi * cn + (c1i * c0 + c0i) * n + n1n0i in
                memcpy_chk dst (Some dst_offset) p (data args) (src_idx * data_size)
                           data_size)))))) dst;
  Ok {| res_data := Some dst; res_length := dst_size |}.

Definition TransShape (src_format : Z) (src_shape : list Z) (data_type dst_format : Z)
    : outcome (list Z) :=
  reject_if (negb (bool_decide (CheckDataTypeSupportForDhwncToFz3DT data_type = SUCCESS)))
            ACL_ERROR_GE_DATATYPE_INVALID $
  let src_primary_format := GetPrimaryFormat src_format in
  let dst_primary_format := GetPrimaryFormat dst_format in
  if (src_primary_format =? FORMAT_DHWNC)
     && (dst_primary_format =? FORMAT_FRACTAL_Z_3D_TRANSPOSE)
  then TransShapeDhwncToFz3DTranspose src_shape dst_format
  else Err ACL_ERROR_GE_FORMAT_INVALID.

Definition TransFormat (args : TransArgs) (result : TransResult) : outcome TransResult :=
  expect_shape ← TransShape (src_format args) (src_shape args) (src_data_type args)
                            (dst_format args);
  reject_if (negb (IsTransShapeDstCorrect args expect_shape)) ACL_ERROR_GE_SHAPE_INVALID $
  if (src_primary_format args =? FORMAT_DHWNC)
     && (dst_primary_format args =? FORMAT_FRACTAL_Z_3D_TRANSPOSE)
  then TransFormatDhwncToFz3DTranspose args result
  else Err ACL_ERROR_GE_FORMAT_INVALID.

Definition transfer : FormatTransfer :=
  {| FormatsUtils.TransFormat := TransFormat; FormatsUtils.TransShape := TransShape |}.
End model.
End DhwncFractalZ3DTranspose.

(** ** The layout *)

(** Entry [(di, c1i, hi, wi, ni, c0i)] of the weights [d h w c n]. *)
Definition fz3d_spec (h w c n c0 size : Z) (dat : list Z) : Z -> Z -> Z -> Z -> Z -> Z -> list Z :=
  fun di c1i hi wi ni c0i =>
    if (c <=? c1i * c0 + c0i) || (n <=? ni) then zero_elem size
    else elem dat size (idx5 h w c n di hi wi (c1i * c0 + c0i) ni).

Section fz3d.
Context `{GeTypesLaws} `{SecureCLaws}.
Import DhwcnFractalZ3D.

Lemma fz3d_data args r d h w c n dat :
  let c0 := GetC0Value (dst_format args) in
  let size := GetSizeByDataType (src_data_type args) in
  let N := d * Ceil c c0 * h * w * rows n * c0 in
  CheckShapeValid (src_shape args) kDhwcnDimsNum = true ->
  src_shape args = [d; h; w; c; n] -> GetItemNumByShape (dst_shape args) = N ->
  0 < d -> 0 < n -> 0 < c -> 0 < h -> 0 < w -> 0 < c0 -> 0 < size ->
  data args = Some dat -> d * h * w * c * n * size <= zlen dat -> can_alloc (N * size) = true ->
  wp (TransFormatDhwckToFz3D args r)
     (delivers N size (at6 (Ceil c c0) h w (rows n) c0 (fz3d_spec h w c n c0 size dat))).
Proof.
  intros c0 size N Hv Es EN Hdd Hn Hc Hh Hw Hc0 Hsz Ed Hd Hal.
  assert (Hm := type_size_bound (src_data_type args)).
  assert (Hc1 := Ceil_pos c c0 Hc Hc0). assert (Hrows := rows_bounds n ltac:(lia)).
  unfold TransFormatDhwckToFz3D. rewrite Hv. simpl negb. apply wp_reject; [done|].
  rewrite Es, Ed, EN. wp_dims. cbv zeta. fold c0 size.
  replace (Ceil n kNiSize * kNiSize) with (rows n) by (unfold rows; ring).
  assert (HN : 0 < N) by (unfold N; do 5 (apply Z.mul_pos_pos; [|lia]); lia).
  rewrite (proj2 (Z.eqb_neq _ 0)) by nia. set (spec := at6 _ _ _ _ _ _).
  apply (wp_new_bytes N size spec); [done|lia|done|]. intros b0 Ha0.
  apply wp_bind. eapply wp_mono.
  - wp_loop Ha0 di Hdi W0 b Ha. wp_loop Ha c1i Hc1i W1 b1 Ha1. wp_loop Ha1 hi Hhi W2 b2 Ha2.
    wp_loop Ha2 wi Hwi W3 b3 Ha3. wp_loop Ha3 ni Hni W4 b4 Ha4. wp_loop Ha4 c0i Hc0i W5 b5 Ha5.
    replace (di * (Ceil c c0 * _) + _ + _ + _ + _ + c0i)
      with (idx6 (Ceil c c0) h w (rows n) c0 di c1i hi wi ni c0i)
      by (unfold idx6, idx5, idx4, pos; ring).
    assert (HD := idx6_bound d (Ceil c c0) h w (rows n) c0 di c1i hi wi ni c0i
                    Hdi Hc1i Hhi Hwi Hni Hc0i). fold N in HD.
    assert (Hp := protected_size_ok N size Hsz _ HD Hm).
    assert (Hsp := at6_idx (Ceil c c0) h w (rows n) c0 (fz3d_spec h w c n c0 size dat)
                     di c1i hi wi ni c0i Hc1i Hhi Hwi Hni Hc0i).
    unfold fz3d_spec at 2 in Hsp. fold spec in Hsp.
    destruct ((c <=? c1i * c0 + c0i) || (n <=? ni)) eqn:Hpad.
    + eapply wp_memset_elem; eauto.
    + apply orb_false_iff in Hpad as [?%Z.leb_gt ?%Z.leb_gt].
      replace (di * (h * _) + _ + _ + _ + ni) with (idx5 h w c n di hi wi (c1i * c0 + c0i) ni)
        by (unfold idx5, idx4, pos; ring).
      assert (0 <= idx5 h w c n di hi wi (c1i * c0 + c0i) ni < d * h * w * c * n)
        by (apply idx5_bound; nia).
      eapply wp_memcpy_elem; eauto; [lia|nia].
  - intros out Ha. eapply agree_delivers; [exact Hsz|exact Ha|]. intros e He.
    destruct (idx6_surj d (Ceil c c0) h w (rows n) c0 e)
      as (di & c1i & hi & wi & ni & c0i & (?&?&?&?&?&?) & ->); [lia..|exact He|].
    right. exists di. split; [done|]. exists c1i. split; [done|]. exists hi. split; [done|].
    exists wi. split; [done|]. exists ni. split; [done|]. by exists c0i.
Qed.

Lemma fz3d_shape d n c h w c0 s :
  TransShapeToFzForDhwcnFractalZ3D d n c h w c0 = Ok s ->
  0 < d -> 0 < n -> 0 < c -> 0 < h -> 0 < w -> d * h * w * c <= kShapeItemNumMAX ->
  0 < c0 /\
  (Ceil c c0 * d * h * w * rows n * c0 <= kShapeItemNumMAX ->
   GetItemNumByShape s = d * Ceil c c0 * h * w * rows n * c0).
Proof.
  intros Ht Hd Hn Hc Hh Hw Hb. unfold TransShapeToFzForDhwcnFractalZ3D in Ht. inv_outcome.
  split; [done|]. intros Hmax.
  pose proof (Ceil_bounds c c0 ltac:(lia) ltac:(done)). pose proof (Ceil_pos c c0 Hc ltac:(done)).
  pose proof (Ceil_pos n kNiSize Hn ltac:(done)).
  assert (Ceil c c0 <= c) by nia. unfold kShapeItemNumMAX in *.
  assert (Hdhw : 0 < d * h * w) by (do 2 (apply Z.mul_pos_pos; [|lia]); lia).
  assert (d * h * w * Ceil c c0 <= 2 ^ 40) by nia.
  assert (Hw1 : d * Ceil c c0 * h * w <= 2 ^ 40) by nia.
  assert (d * Ceil c c0 * h <= 2 ^ 40) by nia. assert (d * Ceil c c0 <= 2 ^ 40) by nia.
  rewrite (swrap64_small (d * Ceil c c0)) by nia.
  rewrite (swrap64_small (d * Ceil c c0 * h)) by nia.
  rewrite (swrap64_small (d * Ceil c c0 * h * w)) by nia.
  unfold rows in *. rewrite item_num_exact.
  - cbn [prodZ]. ring.
  - rewrite !Forall_cons. split_and!; [nia|lia|done|lia|constructor].
  - cbn [prodZ]. unfold kShapeItemNumMAX. nia.
Qed.
End fz3d.

(** ** Theorems *)

Section theorems.
Context `{GeTypesLaws} `{SecureCLaws}.

(** Both transfers run the same loop: N and C change places with the names of
    the axes only. *)
Lemma fz3d_same_loop args r :
  DhwncFractalZ3DTranspose.TransFormatDhwncToFz3DTranspose args r
  = DhwcnFractalZ3D.TransFormatDhwckToFz3D args r.
Proof. reflexivity. Qed.

(** DHWCN weights to FRACTAL_Z_3D.  When the destination stays within the
    element limit, the transfer stores every byte; entry
    [(d, c1, h, w, n, c0)] is weight [(d, h, w, c1 * C0 + c0, n)], or zero past
    the last channel and the last N. *)
Theorem dhwcn_to_fractal_z_3d_correct args r d h w c n dat :
  let c0 := GetC0Value (dst_format args) in
  let size := GetSizeByDataType (src_data_type args) in
  let nn := kNiSize * Ceil n kNiSize in
  let total := d * Ceil c c0 * h * w * nn * c0 * size in
  consistent args ->
  DhwcnFractalZ3D.TransShape (src_format args) (src_shape args) (src_data_type args)
    (dst_format args) = Ok (dst_shape args) ->
  src_shape args = [d; h; w; c; n] -> 0 < d * h * w * c * n ->
  Ceil c c0 * d * h * w * nn * c0 <= kShapeItemNumMAX ->
  data args = Some dat -> d * h * w * c * n * size <= zlen dat -> can_alloc total = true ->
  exists bs : list Z,
    DhwcnFractalZ3D.TransFormat args r
    = Ok {| res_data := Some (Some <$> bs); res_length := total |} /\ zlen bs = total /\
    forall di c1i hi wi ni c0i,
      0 <= di < d -> 0 <= c1i < Ceil c c0 -> 0 <= hi < h -> 0 <= wi < w -> 0 <= ni < nn ->
      0 <= c0i < c0 ->
      elem bs size (idx6 (Ceil c c0) h w nn c0 di c1i hi wi ni c0i)
      = if (c <=? c1i * c0 + c0i) || (n <=? ni) then zero_elem size
        else elem dat size (idx5 h w c n di hi wi (c1i * c0 + c0i) ni).
Proof.
  intros c0 size nn total (E1 & E2 & _) Ht Es Hpos Hmax Ed Hd Hal.
  pose proof Ht as Hs. unfold DhwcnFractalZ3D.TransShape in Hs. cbv zeta in Hs.
  apply reject_Ok in Hs as [Hdt Hs]. rewrite <- E1, <- E2 in Hs.
  destruct (_ && _) eqn:Hf in Hs; [|done].
  assert (Hsz : 0 < size).
  { apply negb_false_iff, bool_decide_eq_true in Hdt.
    unfold DhwcnFractalZ3D.CheckDataTypeSupportForDhwcnFractalZ3D in Hdt. fold size in Hdt.
    by destruct (Z.ltb_spec 0 size). }
  unfold DhwcnFractalZ3D.TransShapeDhwckToFz3D in Hs. apply reject_Ok in Hs as [Hv%negb_false_iff Hs].
  pose proof (check5_inv _ Hv) as (? & ? & ? & ? & ? & E & ? & ? & ? & ? & ? & _ & Hb).
  rewrite Es in E. injection E as <- <- <- <- <-. rewrite Es in Hs. inv_outcome.
  repeat match goal with Ha : at_ _ _ = Ok _ |- _ => injection Ha as <- end.
  assert (0 < d /\ 0 < n /\ 0 < c /\ 0 < h /\ 0 < w) as (? & ? & ? & ? & ?) by nia.
  destruct (fz3d_shape _ _ _ _ _ _ _ Hs) as [Hc0 EN]; [done..|nia|]. fold c0 in Hc0, EN.
  specialize (EN Hmax).
  unfold DhwcnFractalZ3D.TransFormat. rewrite Ht. simpl. rewrite dst_correct. simpl. rewrite Hf.
  apply (delivers_at6 _ size d (Ceil c c0) h w nn c0 (fz3d_spec h w c n c0 size dat)).
  by apply fz3d_data.
Qed.

(** The transposed variant on DHWNC.  On arguments its own shape
    computation accepts, it produces what the DHWCN transfer's loop produces
    with N and C exchanged: entry [(d, c1, h, w, n, c0)] is weight
    [(d, h, w, N = c1 * C0 + c0, C = n)]. *)
Theorem dhwnc_to_fractal_z_3d_transpose_correct args r d h w nd cd dat :
  let c0 := GetC0Value (dst_format args) in
  let size := GetSizeByDataType (src_data_type args) in
  let cc := kNiSize * Ceil cd kNiSize in
  let total := d * Ceil nd c0 * h * w * cc * c0 * size in
  consistent args ->
  DhwncFractalZ3DTranspose.TransShape (src_format args) (src_shape args) (src_data_type args)
    (dst_format args) = Ok (dst_shape args) ->
  src_shape args = [d; h; w; nd; cd] -> 0 < d * h * w * nd * cd ->
  Ceil nd c0 * d * h * w * cc * c0 <= kShapeItemNumMAX ->
  data args = Some dat -> d * h * w * nd * cd * size <= zlen dat -> can_alloc total = true ->
  exists bs : list Z,
    DhwncFractalZ3DTranspose.TransFormat args r
    = Ok {| res_data := Some (Some <$> bs); res_length := total |} /\ zlen bs = total /\
    forall di c1i hi wi ci c0i,
      0 <= di < d -> 0 <= c1i < Ceil nd c0 -> 0 <= hi < h -> 0 <= wi < w -> 0 <= ci < cc ->
      0 <= c0i < c0 ->
      elem bs size (idx6 (Ceil nd c0) h w cc c0 di c1i hi wi ci c0i)
      = if (nd <=? c1i * c0 + c0i) || (cd <=? ci) then zero_elem size
        else elem dat size (idx5 h w nd cd di hi wi (c1i * c0 + c0i) ci).
Proof.
  intros c0 size cc total (E1 & E2 & _) Ht Es Hpos Hmax Ed Hd Hal.
  pose proof Ht as Hs. unfold DhwncFractalZ3DTranspose.TransShape in Hs. cbv zeta in Hs.
  apply reject_Ok in Hs as [Hdt Hs]. rewrite <- E1, <- E2 in Hs.
  destruct (_ && _) eqn:Hf in Hs; [|done].
  assert (Hsz : 0 < size).
  { apply negb_false_iff, bool_decide_eq_true in Hdt.
    unfold DhwncFractalZ3DTranspose.CheckDataTypeSupportForDhwncToFz3DT in Hdt. fold size in Hdt.
    by destruct (Z.ltb_spec 0 size). }
  unfold DhwncFractalZ3DTranspose.TransShapeDhwncToFz3DTranspose in Hs.
  apply reject_Ok in Hs as [Hv%negb_false_iff Hs].
  pose proof (check5_inv _ Hv) as (? & ? & ? & ? & ? & E & ? & ? & ? & ? & ? & _ & Hb).
  rewrite Es in E. injection E as <- <- <- <- <-. rewrite Es in Hs. inv_outcome.
  repeat match goal with Ha : at_ _ _ = Ok _ |- _ => injection Ha as <- end.
  assert (0 < d /\ 0 < nd /\ 0 < cd /\ 0 < h /\ 0 < w) as (? & ? & ? & ? & ?) by nia.
  destruct (fz3d_shape d cd nd h w _ _ Hs) as [Hc0 EN]; [done..|nia|]. fold c0 in Hc0, EN.
  specialize (EN Hmax).
  unfold DhwncFractalZ3DTranspose.TransFormat. rewrite Ht. simpl. rewrite dst_correct. simpl.
  rewrite Hf, fz3d_same_loop.
  apply (delivers_at6 _ size d (Ceil nd c0) h w cc c0 (fz3d_spec h w nd cd c0 size dat)).
  by apply fz3d_data.
Qed.
End theorems.

(** ** Runs *)

Module Runs3D.
Import Concrete Sample.

Lemma dhwcn_to_fractal_z_3d_correct_run :
  exists bs, DhwcnFractalZ3D.TransFormat
    (mk_args 31 (33 + 5 * 2 ^ 24) [2; 1; 1; 3; 2] [2; 1; 16; 16] 2 (seqZ 1 12)) empty_result
    = Ok {| res_data := Some (Some <$> bs); res_length := 512 |}.
Proof.
  destruct (dhwcn_to_fractal_z_3d_correct
    (mk_args 31 (33 + 5 * 2 ^ 24) [2; 1; 1; 3; 2] [2; 1; 16; 16] 2 (seqZ 1 12)) empty_result
    2 1 1 3 2 (seqZ 1 12)) as (bs & E & _); [run_hyp..|]. exists bs. exact E.
Defined.

Lemma dhwnc_to_fractal_z_3d_transpose_correct_run :
  exists bs, DhwncFractalZ3DTranspose.TransFormat
    (mk_args 36 (37 + 5 * 2 ^ 24) [2; 1; 1; 3; 2] [2; 1; 16; 16] 2 (seqZ 1 12)) empty_result
    = Ok {| res_data := Some (Some <$> bs); res_length := 512 |}.
Proof.
  destruct (dhwnc_to_fractal_z_3d_transpose_correct
    (mk_args 36 (37 + 5 * 2 ^ 24) [2; 1; 1; 3; 2] [2; 1; 16; 16] 2 (seqZ 1 12)) empty_result
    2 1 1 3 2 (seqZ 1 12)) as (bs & E & _); [run_hyp..|]. exists bs. exact E.
Defined.
End Runs3D.
