(* ===== verification/FormatsTbe.v ===== *)
(** * FormatsTbe: two-dimensional weights to FRACTAL_Z

    [format_transfer_fractal_z_tbe.cc], the transfer registered for ND to
    FRACTAL_Z: a [c * n] matrix is laid out as the HWCN weights [1 * 1 * c * n]
    would be.  Unlike the other transfers it reports a bad shape and a failed
    memory operation as [FAILED], and a failed allocation as [PARAM_INVALID]
    ([GE_CHECK_NOTNULL]). *)

From S2P Require Import Prelude Env FormatsUtils Transfer FormatsFractalZ.

Module FractalZTbe.
Section model.
Context `{GeTypes} `{SecureC}.

Definition k2dC : nat := 0.
Definition k2dN : nat := 1.
Definition k2dDimsNum : Z := 2.

Definition TransShapeNdToFz (src_shape : list Z) (dst_format : Z) : outcome (list Z) :=
  reject_if (negb (CheckShapeValid src_shape k2dDimsNum)) FAILED $
  let c0 := GetC0Value dst_format in
  reject_if (c0 <=? 0) FAILED $
  let h := 1 in
  let w := 1 in
  c ← at_ src_shape k2dC;
  n ← at_ src_shape k2dN;
  let c1 := Ceil c c0 in
  let no := Ceil n kNiSize in
  let dst_shape := [h * w * c1; no; kNiSize; c0] in
  reject_if (negb (IsShapeValid dst_shape)) FAILED $
  Ok dst_shape.

Definition TransFormatNdToFz (args : TransArgs) (result : TransResult) : outcome TransResult :=
  let dst_size := GetItemNumByShape (dst_shape args) in
  let data_size := GetSizeByDataType (src_data_type args) in
  let dst_size := swrap 64 (dst_size * data_size) in
  if dst_size =? 0 then Ok {| res_data := res_data result; res_length := dst_size |} else
  dst ← fail_as PARAM_INVALID (new_bytes dst_size);
  c ← at_ (src_shape args) k2dC;
  n ← at_ (src_shape args) k2dN;
  let n1n0 := Ceil n kNiSize * kNiSize in
  let c0 := GetC0Value (dst_format args) in
  let c1 := Ceil c c0 in
  let hwn1n0c0 := n1n0 * c0 in
  dst ← for_range 0 c1 (fun c1i =>
    for_range 0 n1n0 (fun n1n0i =>
      for_range 0 c0 (fun c0i dst =>
        let dst_idx := c1i * hwn1n0c0 + n1n0i * c0 + c0i in
        let dst_offset := dst_idx * data_size in
        let p := protected_size dst_size dst_offset in
        let pad_zero := (c <=? c1i * c0 + c0i) || (n <=? n1n0i) in
        fail_as FAILED
          (if pad_zero then memset_chk dst (Some dst_offset) p data_size
           else
             let src_idx := (c1i * c0 + c0i) * n + n1n0i in
             memcpy_chk dst (Some dst_offset) p (data args) (src_idx * data_size) data_size)))) dst;
  Ok {| res_data := Some dst; res_length := dst_size |}.

Definition TransShape (src_format : Z) (src_shape : list Z) (data_type dst_format : Z)
    : outcome (list Z) :=
  let src_primary_format := GetPrimaryFormat src_format in
  let dst_primary_format := GetPrimaryFormat dst_format in
  reject_if (GetSizeByDataType data_type <=? 0) ACL_ERROR_GE_DATATYPE_INVALID $
  if (src_primary_format =? FORMAT_ND) && (dst_primary_format =? FORMAT_FRACTAL_Z)
  then TransShapeNdToFz src_shape dst_format
  else Err ACL_ERROR_GE_FORMAT_INVALID.

Definition TransFormat (args : TransArgs) (result : TransResult) : outcome TransResult :=
  expect_shape ← TransShape (src_format args) (src_shape args) (src_data_type args)
                            (dst_format args);
  reject_if (negb (bool_decide (dst_shape args = []))
             && negb (bool_decide (dst_shape args = expect_shape))) ACL_ERROR_GE_SHAPE_INVALID $
  TransFormatNdToFz args result.

Definition transfer : FormatTransfer :=
  {| FormatsUtils.TransFormat := TransFormat; FormatsUtils.TransShape := TransShape |}.
End model.
End FractalZTbe.

Section tbe.
Context `{GeTypesLaws} `{SecureCLaws}.
Import FractalZTbe.

Lemma tbe_shape src_shape dst_format s :
  TransShapeNdToFz src_shape dst_format = Ok s ->
  exists c n, src_shape = [c; n] /\ 0 <= c /\ 0 <= n /\ 0 < GetC0Value dst_format /\
    GetItemNumByShape s = Ceil c (GetC0Value dst_format) * rows n * GetC0Value dst_format /\
    GetItemNumByShape s <= kShapeItemNumMAX.
Proof.
  intros Ht. unfold TransShapeNdToFz in Ht. inv_outcome.
  match goal with Hs : CheckShapeValid _ _ = true |- _ => apply CheckShapeValid_inv in Hs as [Hl Hv] end.
  destruct src_shape as [|c [|n [|? ?]]]; try (unfold zlen, k2dDimsNum in Hl; simpl in Hl; lia).
  repeat match goal with Ha : at_ _ _ = Ok _ |- _ => injection Ha as <- end.
  pose proof (valid_nonneg _ Hv) as Hn. rewrite !Forall_cons in Hn.
  match goal with Hs : IsShapeValid [_; _; _; _] = true |- _ => apply valid_item_num in Hs as [E B] end.
  exists c, n. split_and!; try lia; [done|]. rewrite E. unfold rows, prodZ. ring.
Qed.

(** The loop lays the matrix out as HWCN weights with [h = w = 1]. *)
Lemma tbe_data args r c n d :
  let c0 := GetC0Value (dst_format args) in
  let size := GetSizeByDataType (src_data_type args) in
  let N := Ceil c c0 * 1 * 1 * rows n * c0 in
  src_shape args = [c; n] -> GetItemNumByShape (dst_shape args) = N -> N <= kShapeItemNumMAX ->
  0 < n -> 0 < c -> 0 < c0 -> 0 < size ->
  data args = Some d -> c * n * size <= zlen d -> can_alloc (N * size) = true ->
  wp (TransFormatNdToFz args r)
     (delivers N size (at5 1 1 (rows n) c0
        (fz_spec n c c0 size (fun ni ci hi wi => idx4 1 c n hi wi ci ni) d))).
Proof.
  intros c0 size N Es EN HNm Hn Hc Hc0 Hsz Ed Hd Hal.
  assert (Hm : size <= max_type_size) by (apply (type_size_bound (src_data_type args))).
  assert (Hc1 := Ceil_pos c c0 Hc Hc0). assert (Hrows := rows_bounds n ltac:(lia)).
  assert (HN : 0 < N) by (unfold N; do 4 (apply Z.mul_pos_pos; [|lia]); lia).
  unfold TransFormatNdToFz. rewrite Es, Ed, EN. cbv zeta. fold c0 size.
  rewrite swrap64_small by (unfold max_type_size, kShapeItemNumMAX in *; nia).
  rewrite (proj2 (Z.eqb_neq _ 0)) by nia. set (spec := at5 _ _ _ _ _).
  apply wp_bind, wp_fail_as. unfold new_bytes. rewrite Hal. cbv beta iota delta [wp]. fold @wp.
  assert (Ha0 : agree N size spec (fun _ => False) (replicate (Z.to_nat (N * size)) None))
    by (apply agree_start, zlen_replicate; nia).
  wp_dims. replace (Ceil n kNiSize * kNiSize) with (rows n) by (unfold rows; ring).
  apply wp_bind. eapply wp_mono.
  - wp_loop Ha0 c1i Hc1i W1 b1 Ha1. wp_loop Ha1 ni Hni W2 b2 Ha2. wp_loop Ha2 c0i Hc0i W3 b3 Ha3.
    replace (c1i * _ + ni * c0 + c0i) with (idx5 1 1 (rows n) c0 c1i 0 0 ni c0i)
      by (unfold idx5, idx4, pos; ring).
    replace ((c1i * c0 + c0i) * n + ni) with (idx4 1 c n 0 0 (c1i * c0 + c0i) ni)
      by (unfold idx4, pos; ring).
    assert (HD : 0 <= idx5 1 1 (rows n) c0 c1i 0 0 ni c0i < N) by (apply idx5_bound; lia).
    assert (Hp := protected_size_ok N size Hsz _ HD Hm).
    assert (Hsp := at5_idx 1 1 (rows n) c0 (fz_spec n c c0 size
      (fun ni ci hi wi => idx4 1 c n hi wi ci ni) d) c1i 0 0 ni c0i
      ltac:(lia) ltac:(lia) Hni Hc0i).
    unfold fz_spec at 2 in Hsp. fold spec in Hsp. apply wp_fail_as.
    destruct ((c <=? c1i * c0 + c0i) || (n <=? ni)) eqn:Hpad.
    + eapply wp_memset_elem; eauto.
    + apply orb_false_iff in Hpad as [?%Z.leb_gt ?%Z.leb_gt].
      assert (0 <= idx4 1 c n 0 0 (c1i * c0 + c0i) ni < 1 * 1 * c * n) by (apply idx4_bound; nia).
      eapply wp_memcpy_elem; eauto; [lia|nia].
  - intros out Ha. eapply agree_delivers; [exact Hsz|exact Ha|]. intros e He.
    destruct (idx5_surj (Ceil c c0) 1 1 (rows n) c0 e)
      as (c1i & hi & wi & ni & c0i & (?&?&?&?&?) & ->); [lia..|done|].
    replace hi with 0 by lia. replace wi with 0 by lia. in_loops. done.
Qed.

Lemma tbe_delivers args r c n d :
  let c0 := GetC0Value (dst_format args) in
  let size := GetSizeByDataType (src_data_type args) in
  let N := Ceil c c0 * 1 * 1 * rows n * c0 in
  TransShape (src_format args) (src_shape args) (src_data_type args) (dst_format args)
  = Ok (dst_shape args) ->
  src_shape args = [c; n] -> 0 < c * n ->
  data args = Some d -> c * n * size <= zlen d -> can_alloc (N * size) = true ->
  wp (TransFormat args r)
     (delivers N size (at5 1 1 (rows n) c0
        (fz_spec n c c0 size (fun ni ci hi wi => idx4 1 c n hi wi ci ni) d))) /\
  (0 < c /\ 0 < n /\ 0 < c0 /\ 0 < size).
Proof.
  intros c0 size N Ht Es Hpos Ed Hd Hal. pose proof Ht as Hs. unfold TransShape in Hs.
  apply reject_Ok in Hs as [Hsz%Z.leb_gt Hs]. destruct (_ && _) in Hs; [|done].
  apply tbe_shape in Hs as (c' & n' & E & ? & ? & Hc0 & EN & HNm).
  rewrite Es in E. injection E as <- <-. assert (0 < c /\ 0 < n) as [? ?] by nia.
  split; [|done]. unfold TransFormat. rewrite Ht. simpl.
  rewrite (bool_decide_eq_true_2 (dst_shape args = dst_shape args)) by done.
  rewrite andb_false_r. simpl. apply tbe_data; auto.
  - rewrite EN. unfold c0. ring.
  - unfold N, c0. lia.
Qed.

(** The bytes a result holds are determined by its specification. *)
Lemma delivers_unique m m' N size spec :
  0 < size -> wp m (delivers N size spec) -> wp m' (delivers N size spec) -> m = m'.
Proof.
  intros Hsz (bs & -> & Hl & He)%delivers_eq (bs' & -> & Hl' & He')%delivers_eq.
  replace bs' with bs; [done|]. eapply elem_ext; [exact Hsz|done|done|].
  intros e Hr. by rewrite He, He' by done.
Qed.

(** A [c * n] matrix converts to exactly the bytes the HWCN transfer
    produces for the weights [1 * 1 * c * n], as the comment in
    [TransShapeNdToFz] says of the shape. *)
Theorem nd_fractal_z_matches_hwcn args args' r r' c n d :
  let c0 := GetC0Value (dst_format args) in
  let size := GetSizeByDataType (src_data_type args) in
  TransShape (src_format args) (src_shape args) (src_data_type args) (dst_format args)
  = Ok (dst_shape args) ->
  src_shape args = [c; n] -> 0 < c * n ->
  data args = Some d -> c * n * size <= zlen d ->
  can_alloc (Ceil c c0 * rows n * c0 * size) = true ->
  to_fz args' FORMAT_HWCN -> GetSubFormat (dst_format args') <= 1 ->
  src_shape args' = [1; 1; c; n] -> data args' = data args ->
  src_data_type args' = src_data_type args -> GetC0Value (dst_format args') = c0 ->
  exists bs : list Z,
    zlen bs = Ceil c c0 * rows n * c0 * size /\
    TransFormat args r
    = Ok {| res_data := Some (Some <$> bs); res_length := Ceil c c0 * rows n * c0 * size |} /\
    FractalZ.TransFormat args' r' = TransFormat args r.
Proof.
  intros c0 size Ht Es Hpos Ed Hd Hal Hf Hsub Es' Ed' Edt' Ec'.
  replace (Ceil c c0 * rows n * c0) with (Ceil c c0 * 1 * 1 * rows n * c0) in * by ring.
  destruct (tbe_delivers args r c n d) as [Hm (? & ? & ? & ?)]; auto.
  destruct (hwcn_fz_delivers args' r' n c 1 1 d) as [Hm' _]; auto;
    rewrite ?Ec', ?Edt'; auto; [lia|congruence|fold size; nia|].
  rewrite Ec', Edt' in Hm'. rewrite (delivers_unique _ _ _ _ _ ltac:(done) Hm' Hm).
  apply delivers_eq in Hm as (bs & -> & Hl & _). by exists bs.
Qed.
End tbe.

Module RunsTbe.
Import Concrete Sample RunsFractalZ.

Lemma nd_fractal_z_matches_hwcn_run :
  FractalZ.TransFormat (mk_args 16 fz_c16 [1; 1; 3; 2] [1; 1; 16; 16] 2 (seqZ 1 6)) empty_result
  = FractalZTbe.TransFormat (mk_args 2 fz_c16 [3; 2] [1; 1; 16; 16] 2 (seqZ 1 6)) empty_result.
Proof.
  destruct (nd_fractal_z_matches_hwcn (mk_args 2 fz_c16 [3; 2] [1; 1; 16; 16] 2 (seqZ 1 6))
    (mk_args 16 fz_c16 [1; 1; 3; 2] [1; 1; 16; 16] 2 (seqZ 1 6)) empty_result empty_result
    3 2 (seqZ 1 6)) as (bs & _ & _ & E); [run_hyp..|]. exact E.
Defined.
End RunsTbe.
