(* ===== verification/FormatsC04.v ===== *)
(** * FormatsC04: NCHW and HWCN to FRACTAL_Z_C04, and back to HWCN

    [format_transfer_fz_c04.cc].  Weights with at most four input channels
    are padded to four, the (h, w, c) axes are flattened into rows of [C0]
    lanes, and the rows of 16 output channels are tiled.  A source that is not
    NCHW is first converted to NCHW through the public entry points of
    [formats.h]: the transfer is a client of the registry it is registered in.
    That interface is the class [FormatsApi]; the transfer's theorems are
    proved against [FormatsApiLaws], which [FormatsRegistry] discharges. *)

From S2P Require Import Prelude Env FormatsUtils Transfer FormatsFractalZ FormatsTranspose.

(** The entry points of [formats.h]. *)
Class FormatsApi := {
  IsTransFormatSupport : TransArgs -> bool;
  TransDataFormat : TransArgs -> TransResult -> outcome TransResult;
  TransTensorShape : Z -> list Z -> Z -> Z -> outcome (list Z);
}.

(** What the C04 transfer asks of them: NCHW can be reached from HWCN, by the
    transposing transfer. *)
Class FormatsApiLaws `{GeTypes} `{SecureC} `{FormatsApi} : Prop := {
  hwcn_nchw_supported : forall args,
    src_primary_format args = FORMAT_HWCN -> dst_primary_format args = FORMAT_NCHW ->
    IsTransFormatSupport args = true;
  hwcn_nchw_data : forall args d result,
    src_primary_format args = FORMAT_HWCN -> dst_primary_format args = FORMAT_NCHW ->
    data args = Some d ->
    TransDataFormat args result = TransposeModel.TransFormat args result;
  hwcn_nchw_shape : forall sf shape dt df,
    GetPrimaryFormat sf = FORMAT_HWCN -> GetPrimaryFormat df = FORMAT_NCHW ->
    TransTensorShape sf shape dt df = TransposeModel.TransShape sf shape dt df;
}.

(** The bytes behind a pointer that is handed on as a source: reading memory
    nothing was stored in has no defined result. *)
Definition buffer_of (b : option (list cell)) : outcome (option (list Z)) :=
  match b with
  | None => Ok None
  | Some l => match mapM id l with Some bs => Ok (Some bs) | None => Fault end
  end.

Lemma buffer_of_bytes (bs : list Z) : buffer_of (Some (Some <$> bs)) = Ok (Some bs).
Proof.
  unfold buffer_of. replace (mapM id (Some <$> bs)) with (Some bs); [done|].
  symmetry. apply mapM_Some. induction bs; constructor; auto.
Qed.

Module FzC04.
Section model.
Context `{GeTypes} `{SecureC} `{Metadef} `{FormatsApi}.
Import TransposeModel.

Definition kMaxDimsNumC : Z := 4.
Definition kC04 : Z := 4.
Definition kC0Size : Z := 16.
Definition kCubeK : Z := 16.

Definition CheckGroupsSupport (groups : Z) : Status :=
  if (groups =? 0) || (groups =? 1) then SUCCESS else ACL_ERROR_GE_PARAM_INVALID.

Definition CheckDataTypeSupport (data_type : Z) : Status :=
  if 0 <? GetSizeByDataType data_type then SUCCESS else UNSUPPORTED.

(** [GE_ASSERT_TRUE(!MulOverflow(a, b, r))]. *)
Definition assert_mul (a b : Z) : outcome Z :=
  let '(overflow, r) := MulOverflow a b in if overflow then Err ErrorResult else Ok r.

Definition GetTotalDataSize (shape_4d : list Z) (dtype_size : Z) : outcome Z :=
  n_o ← at_ shape_4d kNchwN;
  c_o ← at_ shape_4d kNchwC;
  h_o ← at_ shape_4d kNchwH;
  w_o ← at_ shape_4d kNchwW;
  t1 ← assert_mul h_o w_o;
  t2 ← assert_mul n_o c_o;
  total_ele_cnt ← assert_mul t1 t2;
  assert_mul total_ele_cnt dtype_size.

Definition TransShapeNchwToFzC04 (src_shape : list Z) (data_type : Z) : outcome (list Z) :=
  reject_if (negb (CheckShapeValid src_shape kNchwDimsNum)) ACL_ERROR_GE_SHAPE_INVALID $
  n ← at_ src_shape kNchwN;
  h ← at_ src_shape kNchwH;
  w ← at_ src_shape kNchwW;
  let c0 := GetCubeSizeByDataType data_type in
  reject_if (c0 <? 0) ACL_ERROR_GE_DATATYPE_INVALID $
  let chw := swrap 64 (swrap 64 (kC04 * h) * w) in
  let first_dim := Ceil chw c0 in
  let no := Ceil n kCubeK in
  let dst_shape := [first_dim; no; kCubeK; c0] in
  reject_if (negb (IsShapeValid dst_shape)) ACL_ERROR_GE_SHAPE_INVALID $
  Ok dst_shape.

(** The copy loop ends early when [protected_size] reaches zero; the boolean
    records the [break]. *)
Definition TransFormatNchwToFzC04 (args : TransArgs) (result : TransResult)
    : outcome TransResult :=
  n ← at_ (src_shape args) kNchwN;
  c ← at_ (src_shape args) kNchwC;
  h ← at_ (src_shape args) kNchwH;
  w ← at_ (src_shape args) kNchwW;
  let c0 := GetCubeSizeByDataType (src_data_type args) in
  let dtype_size := GetSizeByDataType (src_data_type args) in
  let perm_arg_1 := [0; 2; 3; 1] in
  trans_result_1 ← Transpose (data args) (src_shape args) (src_data_type args) perm_arg_1
                             {| res_data := None; res_length := 0 |};
  let sum_size := n * c * h * w * dtype_size in
  let expect_size := size_t sum_size in
  reject_if (negb (res_length trans_result_1 =? expect_size)) ACL_ERROR_GE_PARAM_INVALID $
  let tmp := h * w * c in
  let n_o := Ceil n kCubeK in
  let c_o := kCubeK in
  let h_o := Ceil tmp c0 in
  let w_o := c0 in
  let shape_o := [n_o; c_o; h_o; w_o] in
  dst_size ← fail_as ErrorResult (GetTotalDataSize shape_o dtype_size);
  if dst_size =? 0 then Ok {| res_data := res_data result; res_length := 0 |} else
  dst ← new_bytes dst_size;
  dst ← memset_chk dst (Some 0) dst_size dst_size;
  let block := c * h * w * dtype_size in
  let stride := h_o * w_o * dtype_size in
  p_start ← buffer_of (res_data trans_result_1);
  '(dst, _, _) ← for_range 0 n (fun k '(dst, protected_size, stop) =>
    if stop : bool then Ok (dst, protected_size, stop) else
    dst ← memcpy_chk dst (PtrAdd dst_size (k * stride)) protected_size p_start (k * block) block;
    let protected_size := protected_size - stride in
    Ok (dst, protected_size, protected_size =? 0)) (dst, dst_size, false);
  let perm_arg_2 := [2; 0; 1; 3] in
  p_dst ← buffer_of (Some dst);
  Transpose p_dst shape_o (src_data_type args) perm_arg_2 result.

(** The same arguments with another source. *)
Definition with_source (args : TransArgs) (d : option (list Z)) (shape : list Z) : TransArgs :=
  {| data := d; src_format := src_format args; dst_format := dst_format args;
     src_primary_format := src_primary_format args; dst_primary_format := dst_primary_format args;
     src_sub_format := src_sub_format args; dst_sub_format := dst_sub_format args;
     src_c0_format := src_c0_format args; dst_c0_format := dst_c0_format args;
     src_shape := shape; dst_shape := dst_shape args; src_data_type := src_data_type args |}.

Definition PaddingNC (args : TransArgs) : outcome TransArgs :=
  reject_if (negb (CheckShapeValid (src_shape args) kNchwDimsNum)) ACL_ERROR_GE_SHAPE_INVALID $
  n ← at_ (src_shape args) kNchwN;
  c ← at_ (src_shape args) kNchwC;
  h ← at_ (src_shape args) kNchwH;
  w ← at_ (src_shape args) kNchwW;
  reject_if (kMaxDimsNumC <? c) ACL_ERROR_GE_SHAPE_INVALID $
  let n_o := Ceil n kCubeK * kCubeK in
  let c_o := kMaxDimsNumC in
  let h_o := h in
  let w_o := w in
  let shape_o := [n_o; c_o; h_o; w_o] in
  let dtype_size := GetSizeByDataType (src_data_type args) in
  dst_size ← fail_as ErrorResult (GetTotalDataSize shape_o dtype_size);
  if dst_size =? 0 then Ok (with_source args (data args) shape_o) else
  dst ← fail_as ErrorResult (new_bytes dst_size);
  dst ← fail_as ErrorResult (memset_chk dst (Some 0) dst_size dst_size);
  let block := h * w * dtype_size in
  '(dst, _) ← for_range 0 n (fun i => for_range 0 c (fun j '(dst, protected_size) =>
    let dst_offset := (i * c_o * h_o * w_o + j * h_o * w_o) * dtype_size in
    dst ← memcpy_chk dst (PtrAdd dst_size dst_offset) protected_size (data args)
                     ((i * c * h * w + j * h * w) * dtype_size) block;
    Ok (dst, protected_size - block))) (dst, dst_size);
  p_dst ← buffer_of (Some dst);
  Ok (with_source args p_dst shape_o).

(** The multiplier of [Lcm]s; [e_mult_of] is the same expression in
    FRACTAL_Z's grouped transfer. *)
Definition TransFormatFzC04ToHwcn (args : TransArgs) (result : TransResult)
    : outcome TransResult :=
  let format_4d := dst_primary_format args in
  reject_if (negb (format_4d =? FORMAT_HWCN)) GRAPH_FAILED $
  let shape_4d := dst_shape args in
  h_dim ← at_ shape_4d kHwcnH;
  w_dim ← at_ shape_4d kHwcnW;
  c_dim ← at_ shape_4d kHwcnC;
  n_dim ← at_ shape_4d kHwcnN;
  let cin_ori := c_dim in
  let cout_ori := n_dim in
  reject_if ((cin_ori =? 0) || (cout_ori =? 0)) GRAPH_FAILED $
  let cube_k := GetCubeSizeByDataType (src_data_type args) in
  let groups := src_sub_format args in
  reject_if (negb (bool_decide (CheckGroupsSupport groups = SUCCESS)))
            ACL_ERROR_GE_PARAM_INVALID $
  let groups := if groups =? 0 then 1 else groups in
  e_mult ← FractalZ.e_mult_of cin_ori cout_ori cube_k groups;
  let cin_opt := Ceil (e_mult * cin_ori) cube_k * cube_k in
  c1 ← quot_ cin_opt cube_k;
  let n1 := Ceil (e_mult * cout_ori) kCubeSize in
  let dtype_size := GetSizeByDataType (src_data_type args) in
  dst_size ← fail_as ErrorResult (GetTotalDataSize (dst_shape args) dtype_size);
  src_size ← fail_as ErrorResult (GetTotalDataSize (src_shape args) dtype_size);
  reject_if (dst_size =? 0) GRAPH_FAILED $
  dst ← fail_as ErrorResult (new_bytes dst_size);
  dst ← fail_as ErrorResult (memset_chk dst (Some 0) dst_size dst_size);
  '(dst, _) ← for_range 0 c_dim (fun c =>
    for_range 0 h_dim (fun h =>
      for_range 0 w_dim (fun w =>
        for_range 0 n_dim (fun n '(dst, protected_size) =>
          cr ← rem_ c kC04;
          let common_factor := h * w_dim * c1 * kC04 + w * kC04 + cr in
          k1 ← quot_ common_factor cube_k;
          no ← quot_ n kNiSize;
          ni ← rem_ n kNiSize;
          k0 ← rem_ common_factor cube_k;
          let idx_fz := k1 * (cube_k * kNiSize * n1) + no * (cube_k * kNiSize)
                        + ni * cube_k + k0 in
          let idx_4d := h * w_dim * c_dim * n_dim + w * c_dim * n_dim + c * n_dim + n in
          let src := match PtrAdd src_size (idx_fz * dtype_size) with
                     | Some _ => data args | None => None end in
          dst ← fail_as ErrorResult
            (memcpy_chk dst (PtrAdd dst_size (idx_4d * dtype_size)) protected_size
                        src (idx_fz * dtype_size) dtype_size);
          Ok (dst, protected_size - dtype_size))))) (dst, dst_size);
  Ok {| res_data := Some dst; res_length := dst_size |}.

(** ** class FormatTransfer4DToFZC04 *)

Definition TransShapeFromSrcToNchw (src_format : Z) (src_shape : list Z) (data_type : Z)
    (nchw_shape : list Z) : outcome (list Z) :=
  let src_primary_format := GetPrimaryFormat src_format in
  if src_primary_format =? FORMAT_NCHW then Ok nchw_shape else
  let args := {| data := None; src_format := src_format; dst_format := FORMAT_NCHW;
                 src_primary_format := src_primary_format; dst_primary_format := FORMAT_NCHW;
                 src_sub_format := FORMAT_RESERVED; dst_sub_format := FORMAT_RESERVED;
                 src_c0_format := kC0Size; dst_c0_format := kC0Size;
                 src_shape := src_shape; dst_shape := nchw_shape; src_data_type := data_type |} in
  reject_if (negb (IsTransFormatSupport args)) ACL_ERROR_GE_FORMAT_INVALID $
  fail_as ErrorResult (TransTensorShape src_format src_shape data_type FORMAT_NCHW).

(** The arguments of the conversion to NCHW. *)
Definition src_to_nchw (a : TransArgs) (shape : list Z) : TransArgs :=
  {| data := data a; src_format := src_format a;
     dst_format := GetFormatFromSub FORMAT_NCHW (GetSubFormat (dst_sub_format a));
     src_primary_format := src_primary_format a; dst_primary_format := FORMAT_NCHW;
     src_sub_format := src_sub_format a; dst_sub_format := dst_sub_format a;
     src_c0_format := src_c0_format a; dst_c0_format := dst_c0_format a;
     src_shape := src_shape a; dst_shape := shape; src_data_type := src_data_type a |}.

Definition BuildTransArgsNchwToFzC04 (src_dst_args nchw_dst_args : TransArgs)
    : outcome TransArgs :=
  if src_primary_format src_dst_args =? FORMAT_NCHW then Ok nchw_dst_args else
  reject_if (negb (IsTransFormatSupport (src_to_nchw src_dst_args (dst_shape src_dst_args))))
            ACL_ERROR_GE_FORMAT_INVALID $
  nchw_shape ← fail_as ErrorResult
    (TransShapeFromSrcToNchw (src_format src_dst_args) (src_shape src_dst_args)
                             (src_data_type src_dst_args) []);
  nchw_result_holder ← fail_as ErrorResult
    (TransDataFormat (src_to_nchw src_dst_args nchw_shape)
                     {| res_data := None; res_length := 0 |});
  nchw_data ← buffer_of (res_data nchw_result_holder);
  Ok {| data := nchw_data; src_format := FORMAT_NCHW; dst_format := dst_format src_dst_args;
        src_primary_format := FORMAT_NCHW;
        dst_primary_format := dst_primary_format src_dst_args;
        src_sub_format := FORMAT_RESERVED; dst_sub_format := dst_sub_format src_dst_args;
        src_c0_format := kC0Size; dst_c0_format := kC0Size;
        src_shape := nchw_shape; dst_shape := [];
        src_data_type := src_data_type src_dst_args |}.

Definition TransShape (src_format : Z) (src_shape : list Z) (data_type dst_format : Z)
    : outcome (list Z) :=
  let dst_primary_format := GetPrimaryFormat dst_format in
  reject_if (negb (bool_decide (CheckDataTypeSupport data_type = SUCCESS)))
            ACL_ERROR_GE_DATATYPE_INVALID $
  nchw_shape ← fail_as ErrorResult
    (TransShapeFromSrcToNchw src_format src_shape data_type src_shape);
  if dst_primary_format =? FORMAT_FRACTAL_Z_C04
  then TransShapeNchwToFzC04 nchw_shape data_type
  else Err ACL_ERROR_GE_FORMAT_INVALID.

Definition TransFormat (args : TransArgs) (result : TransResult) : outcome TransResult :=
  reject_if (negb (bool_decide (CheckGroupsSupport (GetSubFormat (dst_format args)) = SUCCESS)))
            UNSUPPORTED $
  nchw_to_dst_args ← BuildTransArgsNchwToFzC04 args args;
  args_tmp ← PaddingNC nchw_to_dst_args;
  expect_shape ← TransShape (src_format args_tmp) (src_shape args_tmp) (src_data_type args_tmp)
                            (dst_format args_tmp);
  reject_if (negb (IsTransShapeDstCorrect args_tmp expect_shape)) ACL_ERROR_GE_SHAPE_INVALID $
  if (src_primary_format args_tmp =? FORMAT_NCHW)
     && (dst_primary_format args_tmp =? FORMAT_FRACTAL_Z_C04)
  then TransFormatNchwToFzC04 args_tmp result
  else Err ACL_ERROR_GE_FORMAT_INVALID.

Definition transfer : FormatTransfer :=
  {| FormatsUtils.TransFormat := TransFormat; FormatsUtils.TransShape := TransShape |}.

(** ** class FormatTransferFZC04To4D *)

Definition TransFormatTo4D (args : TransArgs) (result : TransResult) : outcome TransResult :=
  reject_if (negb (src_primary_format args =? FORMAT_FRACTAL_Z_C04)
             || negb (dst_primary_format args =? FORMAT_HWCN)) ACL_ERROR_GE_FORMAT_INVALID $
  expect_fzc04_shape ← fail_as ErrorResult
    (TransShape (dst_format args) (dst_shape args) (src_data_type args) (src_format args));
  reject_if (negb (bool_decide (expect_fzc04_shape = src_shape args)))
            ACL_ERROR_GE_SHAPE_INVALID $
  TransFormatFzC04ToHwcn args result.

Definition TransShapeTo4D (src_format : Z) (src_shape : list Z) (data_type dst_format : Z)
    : outcome (list Z) := Err ACL_ERROR_GE_FORMAT_INVALID.

Definition transfer_to_4d : FormatTransfer :=
  {| FormatsUtils.TransFormat := TransFormatTo4D; FormatsUtils.TransShape := TransShapeTo4D |}.
End model.
End FzC04.

(** ** Sizes, transposes and padding *)

Section c04.
Context `{GeTypesLaws} `{SecureCLaws} `{!Metadef} `{!MetadefLaws} `{!FormatsApi}.
Import TransposeModel FzC04.

Lemma assert_mul_ok a b : - 2 ^ 63 <= a * b < 2 ^ 63 -> assert_mul a b = Ok (a * b).
Proof. intros. unfold assert_mul. by rewrite MulOverflow_ok. Qed.

Lemma total_size_ok a b c d size :
  0 < a -> 0 < b -> 0 < c -> 0 < d -> 0 < size -> a * b * c * d * size < 2 ^ 63 ->
  GetTotalDataSize [a; b; c; d] size = Ok (a * b * c * d * size).
Proof.
  intros. assert (a * b * c * d < 2 ^ 63) by nia. assert (0 < a * b /\ 0 < c * d) as [? ?] by nia.
  assert (0 < a * b * c * d) by nia.
  assert (c * d <= a * b * c * d) by nia. assert (a * b <= a * b * c * d) by nia.
  unfold GetTotalDataSize. simpl.
  rewrite (assert_mul_ok c d) by lia. simpl. rewrite (assert_mul_ok a b) by lia. simpl.
  rewrite assert_mul_ok by lia. simpl. rewrite assert_mul_ok by nia. f_equal. ring.
Qed.

(** Transposing a tensor of rank four, in coordinates. *)
Lemma transpose4 d a b c e dt p q r s res :
  let size := GetSizeByDataType dt in
  let N := a * b * c * e in
  IsShapeArgValid [a; b; c; e] [p; q; r; s] = true -> 0 < size -> 0 < N <= kShapeItemNumMAX ->
  zlen d = N * size -> can_alloc (N * size) = true ->
  exists bs,
    Transpose (Some d) [a; b; c; e] dt [p; q; r; s] res
    = Ok {| res_data := Some (Some <$> bs); res_length := N * size |} /\
    zlen bs = N * size /\
    forall i j k l, 0 <= i < a -> 0 <= j < b -> 0 <= k < c -> 0 <= l < e ->
      elem bs size (lin (permute [p; q; r; s] [a; b; c; e]) (permute [p; q; r; s] [i; j; k; l]))
      = elem d size (idx4 b c e i j k l).
Proof.
  intros size N Hv Hsz HN Hd Hal.
  assert (EN : prodZ [a; b; c; e] = N) by (unfold N; simpl; ring).
  destruct (transpose_moves d [a; b; c; e] dt [p; q; r; s] res) as (bs & E & Hz & He);
    rewrite ?EN in *; try done; [fold size; lia|].
  exists bs. split; [exact E|]. split; [exact Hz|]. intros i j k l ????. rewrite He.
  - f_equal. unfold idx4, pos. simpl. ring.
  - repeat constructor; lia.
Qed.

(** A buffer the loops have filled is bytes. *)
Lemma agree_bytes N size spec W (buf : list cell) :
  0 < size -> agree N size spec W buf -> (forall e, 0 <= e < N -> W e) ->
  exists bs : list Z, buf = Some <$> bs /\ zlen bs = N * size /\
    forall e, 0 <= e < N -> elem bs size e = spec e.
Proof.
  intros Hsz Ha HW. destruct (agree_delivers _ _ _ Hsz _ _ Ha HW) as (_ & bs & E & Hz & He).
  exists bs. simpl in E. split; [congruence|]. split; done.
Qed.

(** Padding N to a multiple of 16 and C to four. *)
Definition pad_spec (n c h w size : Z) (d : list Z) : Z -> Z -> Z -> Z -> list Z := fun i j y x =>
  if (n <=? i) || (c <=? j) then zero_elem size else elem d size (idx4 c h w i j y x).

(** Plane [(i, j)] of the padded buffer is plane [i * c + j] of the source. *)
Lemma pad_plane n c h w size d i j q :
  0 <= i < n -> 0 <= j < c -> c <= 4 -> 0 < h -> 0 < w -> 0 <= q < h * w ->
  at4 4 h w (pad_spec n c h w size d) ((i * 4 + j) * (h * w) + q)
  = elem d size ((i * c + j) * (h * w) + q).
Proof.
  intros Hi Hj Hc Hh Hw Hq. pose proof (Z.div_mod q w ltac:(lia)) as Eq.
  pose proof (Z.mod_pos_bound q w Hw). pose proof (div_range h w q Hw Hq).
  replace ((i * 4 + j) * (h * w) + q) with (idx4 4 h w i j (q / w) (q mod w))
    by (unfold idx4, pos; nia).
  rewrite at4_idx by lia. unfold pad_spec.
  rewrite !(proj2 (Z.leb_gt _ _)) by lia. simpl. f_equal. unfold idx4, pos. nia.
Qed.

Lemma pad_room n n16 c P size i j :
  0 <= i < n -> 0 <= j < c -> c <= 4 -> n <= n16 -> 0 < P -> 0 < size ->
  0 <= (i * 4 + j) * P /\ (i * 4 + j) * P + P <= n16 * 4 * P /\
  0 <= (i * c + j) * P /\ (i * c + j) * P + P <= n * c * P /\
  0 <= (i * c + j) * (P * size) /\
  size * P <= n16 * 4 * P * size - (i * c + j) * (P * size).
Proof.
  intros. assert (0 <= i * c) by nia. assert (i * c + j + 1 <= n * c) by nia.
  assert (n * c <= n16 * 4) by nia. assert (0 < P * size) by nia.
  replace ((i * 4 + j) * P + P) with ((i * 4 + j + 1) * P) by ring.
  replace ((i * c + j) * P + P) with ((i * c + j + 1) * P) by ring.
  replace (n16 * 4 * P * size - (i * c + j) * (P * size))
    with ((n16 * 4 - (i * c + j)) * (P * size)) by ring.
  split_and!; try (apply Z.mul_le_mono_nonneg_r; lia); try (apply Z.mul_nonneg_nonneg; lia).
  replace (size * P) with (1 * (P * size)) by ring. apply Z.mul_le_mono_nonneg_r; lia.
Qed.

Lemma pad_ok args n c h w d :
  let size := GetSizeByDataType (src_data_type args) in
  let n16 := Ceil n kCubeK * kCubeK in
  let N := n16 * 4 * h * w in
  CheckShapeValid (src_shape args) kNchwDimsNum = true -> src_shape args = [n; c; h; w] ->
  0 < n -> 0 < c <= 4 -> 0 < h -> 0 < w -> 0 < size -> data args = Some d ->
  n * c * h * w * size <= zlen d -> can_alloc (N * size) = true ->
  N * size <= SECUREC_MEM_MAX_LEN ->
  exists bs, PaddingNC args = Ok (with_source args (Some bs) [n16; 4; h; w]) /\
    zlen bs = N * size /\
    forall i j y x, 0 <= i < n16 -> 0 <= j < 4 -> 0 <= y < h -> 0 <= x < w ->
      elem bs size (idx4 4 h w i j y x) = pad_spec n c h w size d i j y x.
Proof.
  intros size n16 N Hv Es Hn Hc Hh Hw Hsz Ed Hd Hal Hmax.
  assert (Hn16 := Ceil_bounds n kCubeK ltac:(lia) ltac:(done)). fold n16 in Hn16.
  unfold kCubeK in Hn16. assert (Hhw : 0 < h * w) by nia. assert (HN : 0 < N) by nia.
  set (spec := at4 4 h w (pad_spec n c h w size d)).
  assert (Hwp : wp (PaddingNC args) (fun a => exists bs,
    a = with_source args (Some bs) [n16; 4; h; w] /\ zlen bs = N * size /\
    forall e, 0 <= e < N -> elem bs size e = spec e)).
  2:{ apply wp_Ok in Hwp as (a & E & bs & -> & Hz & He). exists bs. split; [done|]. split; [done|].
      intros. rewrite He by (by apply idx4_bound). by apply at4_idx. }
  unfold PaddingNC. rewrite Hv. apply wp_reject; [done|]. rewrite Es, Ed. wp_dims.
  apply wp_reject; [unfold kMaxDimsNumC; lia|]. cbv zeta. fold n16 size. unfold kMaxDimsNumC.
  rewrite total_size_ok by (rewrite mem_max_len in *; unfold N in *; lia).
  fold N. simpl fail_as. wp_dims. rewrite (proj2 (Z.eqb_neq _ 0)) by nia.
  unfold new_bytes. rewrite Hal. simpl fail_as. wp_dims. rewrite memset_all by nia.
  simpl fail_as. wp_dims. assert (EN : N = n16 * 4 * (h * w)) by (unfold N; ring). clearbody N n16 size.
  set (W := fun t e => (0 <= e < N /\ spec e = zero_elem size) \/
    exists i j, 0 <= j < c /\ 0 <= i /\ i * c + j < t /\
      (i * 4 + j) * (h * w) <= e < (i * 4 + j) * (h * w) + h * w).
  set (Q := fun t '(dst, p) =>
    agree N size spec (W t) dst /\ p = N * size - t * (h * w * size)).
  apply wp_bind. apply (wp_mono _ (Q (n * c))).
  - apply (wp_for (fun i => Q (i * c))); [lia| |].
    + split; [|lia]. eapply agree_weaken; [|by apply agree_zeroes; lia].
      intros e [?|(i & j & ? & ? & ? & _)]; [done|nia].
    + intros i [dst p] Hi HQ.
      replace ((i + 1) * c) with (i * c + c) by ring.
      apply (wp_for (fun j => Q (i * c + j))); [lia|by rewrite Z.add_0_r|].
      clear dst p HQ. intros j [dst p] Hj [Ha ->].
      replace ((i * 4 * h * w + j * h * w) * size) with ((i * 4 + j) * (h * w) * size) by ring.
      replace ((i * c * h * w + j * h * w) * size) with ((i * c + j) * (h * w) * size) by ring.
      replace (h * w * size) with (size * (h * w)) at 2 by ring.
      destruct (pad_room n n16 c (h * w) size i j) as (?&?&?&?&?&?); [lia..|].
      apply wp_bind. eapply wp_mono.
      * eapply (wp_memcpy_run _ _ _ Hsz _ _ _ _ _ _ ((i * 4 + j) * (h * w)));
          [exact Ha|done|exact Hhw|by rewrite EN|..].
        -- rewrite EN in *. lia.
        -- apply PtrAdd_ok. nia.
        -- done.
        -- eapply Z.le_trans; [|exact Hd].
           replace (n * c * h * w) with (n * c * (h * w)) by ring.
           apply Z.mul_le_mono_nonneg_r; lia.
        -- intros q Hq. by apply pad_plane; try lia.
      * intros out Ha'. split; [|ring]. eapply agree_weaken; [|exact Ha'].
        intros e [?|(i' & j' & ? & ? & ? & ?)]; [by left; left|].
        destruct (decide (i' * c + j' = i * c + j)).
        -- destruct (pos_inj c i' j' i j) as [-> ->]; [done|lia|done|by right].
        -- left. right. exists i', j'. split_and!; lia.
  - intros [dst p] [Ha _].
    destruct (agree_bytes _ _ _ _ _ Hsz Ha) as (bs & -> & Hz & He).
    + intros e He. unfold W.
      destruct (idx4_surj n16 4 h w e) as (i & j & y & x & (? & ? & ? & ?) & ->); [lia..|].
      destruct ((n <=? i) || (c <=? j)) eqn:Hp.
      * left. split; [done|]. unfold spec. rewrite at4_idx by done. unfold pad_spec. by rewrite Hp.
      * apply orb_false_iff in Hp as [?%Z.leb_gt ?%Z.leb_gt]. right. exists i, j.
        unfold idx4, pos. nia.
    + rewrite buffer_of_bytes. simpl. by exists bs.
Qed.

Lemma shape4_arg_valid a b c e p :
  0 < a -> 0 < b -> 0 < c -> 0 < e -> zlen p = 4 ->
  perm_loop 4 [0; 0; 0; 0] p = true -> IsShapeArgValid [a; b; c; e] p = true.
Proof.
  intros Ha Hb Hc He Hl Hp. unfold IsShapeArgValid. rewrite bool_decide_eq_false_2 by done.
  simpl existsb. rewrite !(proj2 (Z.ltb_ge _ 0)) by lia. simpl. rewrite Hl. simpl.
  apply zlen_4 in Hl as (? & ? & ? & ? & ->). exact Hp.
Qed.

(** Copying rows of [m] elements into zeroed rows of [S] elements. *)
Definition row_spec (m S size : Z) (d : list Z) (e : Z) : list Z :=
  if m <=? e mod S then zero_elem size else elem d size (e / S * m + e mod S).

Lemma row_copy n m S size d :
  0 < n -> 0 < m <= S -> 0 < size -> n * m * size <= zlen d ->
  n * S * size <= SECUREC_MEM_MAX_LEN ->
  wp (for_range 0 n (fun k '(dst, p, stop) =>
        if stop : bool then Ok (dst, p, stop) else
        dst ← memcpy_chk dst (PtrAdd (n * S * size) (k * (S * size))) p (Some d)
                         (k * (m * size)) (m * size);
        let p := p - S * size in Ok (dst, p, p =? 0))
      (replicate (Z.to_nat (n * S * size)) (Some 0), n * S * size, false))
     (fun '(dst, _, _) => exists bs : list Z, dst = Some <$> bs /\ zlen bs = n * S * size /\
        forall e, 0 <= e < n * S -> elem bs size e = row_spec m S size d e).
Proof.
  intros Hn Hm Hsz Hd Hmax. set (spec := row_spec m S size d).
  set (W := fun t e => (0 <= e < n * S /\ spec e = zero_elem size) \/
    exists k, 0 <= k < t /\ k * S <= e < k * S + m).
  set (Q := fun t '(dst, p, stop) => agree (n * S) size spec (W t) dst /\
    p = (n - t) * (S * size) /\ stop = bool_decide (t = n)).
  eapply (wp_mono _ (Q n)).
  - apply (wp_for Q); [lia| |].
    + split_and!; [|ring|by rewrite bool_decide_eq_false_2 by lia].
      eapply agree_weaken; [|apply agree_zeroes; [done|nia]].
      intros e [?|(k & ? & _)]; [done|lia].
    + intros k [[dst p] stop] Hk (Ha & -> & ->). rewrite bool_decide_eq_false_2 by lia.
      replace (k * (S * size)) with (k * S * size) by ring.
      replace (k * (m * size)) with (k * m * size) by ring.
      replace (m * size) with (size * m) by ring.
      assert (k * S + S <= n * S) by nia. assert (k * m + m <= n * m) by nia.
      assert (0 < S * size) by nia.
      apply wp_bind. eapply wp_mono.
      * eapply (wp_memcpy_run _ _ _ Hsz _ _ _ _ _ _ (k * S)); [exact Ha|nia|lia|lia|..].
        -- split; [nia|]. eapply Z.le_trans; [|exact Hmax]. nia.
        -- apply PtrAdd_ok. nia.
        -- nia.
        -- nia.
        -- intros j Hj. unfold spec, row_spec.
           replace (k * S + j) with (pos S k j) by done.
           rewrite pos_mod, pos_div by lia. by rewrite (proj2 (Z.leb_gt _ _)) by lia.
      * intros out Ha'. split_and!.
        -- eapply agree_weaken; [|exact Ha'].
           intros e [?|(k' & ? & ?)]; [by left; left|].
           destruct (decide (k' = k)) as [->|]; [by right|]. left. right. exists k'. lia.
        -- ring.
        -- apply eq_bool_prop_intro. rewrite Is_true_true, Z.eqb_eq, bool_decide_spec. nia.
  - intros [[dst p] stop] (Ha & _).
    apply (agree_bytes _ _ _ _ _ Hsz Ha). intros e He.
    pose proof (Z.div_mod e S ltac:(lia)). pose proof (div_range n S e ltac:(lia) He).
    destruct (Z.leb_spec m (e mod S)) as [Hz|Hz].
    + left. split; [done|]. unfold spec, row_spec. by rewrite (proj2 (Z.leb_le _ _)) by lia.
    + right. exists (e / S). pose proof (Z.mod_pos_bound e S). lia.
Qed.

Lemma Ceil_multiple k m : 0 < m -> 0 <= k -> Ceil (k * m) m = k.
Proof. intros. pose proof (Ceil_bounds (k * m) m ltac:(nia) ltac:(done)). nia. Qed.

Lemma cube_pos dt : 0 < GetSizeByDataType dt -> 0 < GetCubeSizeByDataType dt.
Proof.
  intros. unfold GetCubeSizeByDataType, kCubeSize. rewrite (proj2 (Z.leb_gt _ _)) by lia.
  by destruct (_ =? 1).
Qed.

(** Lane [k] of the flattened axes is channel [k mod 4] at [(y, x)]. *)
Definition lane_spec (h w size : Z) (get : Z -> Z -> Z -> Z -> list Z) (i k : Z) : list Z :=
  if 4 * h * w <=? k then zero_elem size else get i (k mod 4) (k / 4 / w) (k / 4 mod w).

Lemma lane_index h w i k :
  0 < h -> 0 < w -> 0 <= k < 4 * h * w ->
  (0 <= k / 4 / w < h /\ 0 <= k / 4 mod w < w /\ 0 <= k mod 4 < 4) /\
  i * (4 * h * w) + k = lin [i + 1; h; w; 4] [i; k / 4 / w; k / 4 mod w; k mod 4].
Proof.
  intros Hh Hw Hk. pose proof (div_range (h * w) 4 k ltac:(lia) ltac:(lia)) as Hq.
  pose proof (div_range h w _ Hw Hq). pose proof (Z.mod_pos_bound (k / 4) w Hw).
  pose proof (Z.mod_pos_bound k 4 ltac:(lia)).
  split; [done|]. simpl. pose proof (Z.div_mod k 4 ltac:(lia)).
  pose proof (Z.div_mod (k / 4) w ltac:(lia)). nia.
Qed.

Lemma fzc04_data args r no h w d :
  let size := GetSizeByDataType (src_data_type args) in
  let c0 := GetCubeSizeByDataType (src_data_type args) in
  let ho := Ceil (4 * h * w) c0 in
  let N := ho * no * 16 * c0 in
  src_shape args = [no * 16; 4; h; w] -> data args = Some d ->
  0 < no -> 0 < h -> 0 < w -> 0 < size -> zlen d = no * 16 * 4 * h * w * size ->
  N * size <= SECUREC_MEM_MAX_LEN -> (forall k, can_alloc k = true) ->
  exists bs,
    TransFormatNchwToFzC04 args r
    = Ok {| res_data := Some (Some <$> bs); res_length := N * size |} /\
    zlen bs = N * size /\
    forall k1 n1 n0 k0, 0 <= k1 < ho -> 0 <= n1 < no -> 0 <= n0 < 16 -> 0 <= k0 < c0 ->
      elem bs size (idx4 no 16 c0 k1 n1 n0 k0)
      = lane_spec h w size (fun i j y x => elem d size (idx4 4 h w i j y x))
                  (n1 * 16 + n0) (k1 * c0 + k0).
Proof.
  intros size c0 ho N Es Ed Hno Hh Hw Hsz Hd Hmax Hal.
  assert (Hc0 : 0 < c0) by (by apply cube_pos).
  assert (Hhw : 0 < 4 * h * w) by nia.
  assert (Hb := Ceil_bounds (4 * h * w) c0 ltac:(lia) Hc0). fold ho in Hb.
  assert (Hho := Ceil_pos (4 * h * w) c0 Hhw Hc0). fold ho in Hho.
  assert (EN : N = no * 16 * (ho * c0)) by (unfold N; ring).
  assert (HN : no * 16 * (4 * h * w) <= N) by nia.
  assert (Hlt : N * size < 2 ^ 31) by (rewrite mem_max_len in Hmax; lia).
  assert (HNb : 0 < N < 2 ^ 31) by nia.
  destruct (transpose4 d (no * 16) 4 h w (src_data_type args) 0 2 3 1
    {| res_data := None; res_length := 0 |}) as (bs1 & E1 & Hz1 & He1);
    [by apply shape4_arg_valid; try lia|done|unfold kShapeItemNumMAX; nia|done|done|].
  unfold TransFormatNchwToFzC04. rewrite Es, Ed. unfold at_, kNchwN, kNchwC, kNchwH, kNchwW.
  cbn [lookup list_lookup mbind outcome_bind]. rewrite E1. cbn [mbind outcome_bind res_length res_data]. fold size c0.
  rewrite (size_t_small _) by nia. rewrite Z.eqb_refl. cbn [negb reject_if].
  replace (h * w * 4) with (4 * h * w) by ring. fold ho.
  rewrite Ceil_multiple by (unfold kCubeK; lia). unfold kCubeK.
  rewrite total_size_ok by lia. cbn [mbind outcome_bind fail_as].
  replace (no * 16 * ho * c0 * size) with (no * 16 * (ho * c0) * size) by ring.
  rewrite (proj2 (Z.eqb_neq _ 0)) by nia. unfold new_bytes. rewrite Hal.
  cbn [mbind outcome_bind]. rewrite memset_all by (rewrite <- EN; nia). cbn [mbind outcome_bind].
  rewrite buffer_of_bytes. cbn [mbind outcome_bind].
  pose proof (row_copy (no * 16) (4 * h * w) (ho * c0) size bs1 ltac:(lia) ltac:(lia) Hsz) as Hrow.
  apply wp_Ok in Hrow as ([[dst p] stop] & Eloop & bs2 & -> & Hz2 & He2);
    [|rewrite Hz1; fold size; lia|by rewrite <- EN].
  cbv zeta in Eloop. rewrite Eloop. cbn [mbind outcome_bind]. rewrite buffer_of_bytes. cbn [mbind outcome_bind].
  destruct (transpose4 bs2 no 16 ho c0 (src_data_type args) 2 0 1 3 r) as (bs3 & E3 & Hz3 & He3);
    [by apply shape4_arg_valid; try lia|done|unfold kShapeItemNumMAX; lia|rewrite Hz2; fold size; ring|done|].
  exists bs3. replace N with (no * 16 * ho * c0) by (unfold N; ring).
  split; [exact E3|]. split; [exact Hz3|]. intros k1 n1 n0 k0 Hk1 Hn1 Hn0 Hk0.
  transitivity (elem bs2 size (idx4 16 ho c0 n1 n0 k1 k0)).
  { rewrite <- He3 by done. f_equal. unfold idx4, pos. simpl. ring. }
  replace (idx4 16 ho c0 n1 n0 k1 k0) with (pos (ho * c0) (n1 * 16 + n0) (k1 * c0 + k0))
    by (unfold idx4, pos; ring).
  assert (Hk : 0 <= k1 * c0 + k0 < ho * c0) by (by apply (pos_bound ho c0 k1 k0)).
  rewrite He2 by (apply pos_bound; lia). unfold row_spec, lane_spec.
  rewrite pos_mod, pos_div by done. set (k := k1 * c0 + k0) in *.
  destruct (Z.leb_spec (4 * h * w) k); [done|].
  destruct (lane_index h w (n1 * 16 + n0) k Hh Hw ltac:(lia)) as ((? & ? & ?) & ->).
  rewrite <- He1 by lia. f_equal.
Qed.

(** ** NCHW to FRACTAL_Z_C04 *)

(** What a successful [TransShape] of NCHW weights says. *)
Lemma c04_shape sf n c h w dt df s :
  GetPrimaryFormat sf = FORMAT_NCHW -> TransShape sf [n; c; h; w] dt df = Ok s ->
  let c0 := GetCubeSizeByDataType dt in
  0 < GetSizeByDataType dt /\ GetPrimaryFormat df = FORMAT_FRACTAL_Z_C04 /\
  CheckShapeValid [n; c; h; w] kNchwDimsNum = true /\
  s = [Ceil (swrap 64 (swrap 64 (4 * h) * w)) c0; Ceil n 16; 16; c0] /\ IsShapeValid s = true.
Proof.
  intros Hf Ht c0. unfold TransShape, TransShapeFromSrcToNchw in Ht. rewrite Hf, Z.eqb_refl in Ht.
  apply reject_Ok in Ht as [Hdt Ht]. cbn [fail_as mbind outcome_bind] in Ht.
  apply negb_false_iff, bool_decide_eq_true in Hdt. unfold CheckDataTypeSupport in Hdt.
  destruct (Z.eqb_spec (GetPrimaryFormat df) FORMAT_FRACTAL_Z_C04); [|done].
  unfold TransShapeNchwToFzC04 in Ht. inv_outcome.
  repeat match goal with Ha : at_ _ _ = Ok _ |- _ => injection Ha as <- end.
  split_and!; try done. by destruct (Z.ltb_spec 0 (GetSizeByDataType dt)).
Qed.

(** The shape does not change when N and C are padded. *)
Lemma c04_shape_padded sf n c h w dt df s :
  GetPrimaryFormat sf = FORMAT_NCHW -> TransShape sf [n; c; h; w] dt df = Ok s -> 0 <= n ->
  CheckShapeValid [Ceil n 16 * 16; 4; h; w] kNchwDimsNum = true ->
  TransShape sf [Ceil n 16 * 16; 4; h; w] dt df = Ok s.
Proof.
  intros Hf Ht Hn Hv. destruct (c04_shape _ _ _ _ _ _ _ _ Hf Ht) as (Hsz & Hdf & _ & -> & Hs).
  unfold TransShape, TransShapeFromSrcToNchw, CheckDataTypeSupport.
  rewrite Hf, Hdf, !Z.eqb_refl, (proj2 (Z.ltb_lt 0 _)) by done.
  cbn [fail_as mbind outcome_bind reject_if negb].
  rewrite bool_decide_eq_true_2 by done. cbn [reject_if negb].
  unfold TransShapeNchwToFzC04. rewrite Hv. cbn [reject_if negb].
  unfold at_, kNchwN, kNchwH, kNchwW. cbn [lookup list_lookup mbind outcome_bind].
  rewrite (proj2 (Z.ltb_ge _ 0)) by (pose proof (cube_pos dt Hsz); lia). cbn [reject_if].
  unfold kC04, kCubeK. rewrite Ceil_multiple by (lia || apply Ceil_nonneg; lia).
  by rewrite Hs.
Qed.

Lemma nchw_c04 args r n c h w d s :
  let size := GetSizeByDataType (src_data_type args) in
  let c0 := GetCubeSizeByDataType (src_data_type args) in
  let ho := Ceil (4 * h * w) c0 in
  let no := Ceil n 16 in
  let N := ho * no * 16 * c0 in
  src_primary_format args = FORMAT_NCHW -> GetPrimaryFormat (src_format args) = FORMAT_NCHW ->
  dst_primary_format args = GetPrimaryFormat (dst_format args) ->
  0 <= GetSubFormat (dst_format args) <= 1 -> src_shape args = [n; c; h; w] ->
  TransShape (src_format args) (src_shape args) (src_data_type args) (dst_format args) = Ok s ->
  dst_shape args = [] \/ dst_shape args = s ->
  0 < n * c * h * w -> c <= 4 -> data args = Some d -> n * c * h * w * size <= zlen d ->
  N * size <= SECUREC_MEM_MAX_LEN -> (forall k, can_alloc k = true) ->
  exists bs,
    TransFormat args r
    = Ok {| res_data := Some (Some <$> bs); res_length := N * size |} /\
    zlen bs = N * size /\
    forall k1 n1 n0 k0, 0 <= k1 < ho -> 0 <= n1 < no -> 0 <= n0 < 16 -> 0 <= k0 < c0 ->
      elem bs size (idx4 no 16 c0 k1 n1 n0 k0)
      = lane_spec h w size (pad_spec n c h w size d) (n1 * 16 + n0) (k1 * c0 + k0).
Proof.
  intros size c0 ho no N Hsp Hsf Hdp Hsub Es Ht Hds Hpos Hc Ed Hd Hmax Hal.
  rewrite Es in Ht. destruct (c04_shape _ _ _ _ _ _ _ _ Hsf Ht) as (Hsz & Hdf & Hv & Ess & Hsv).
  destruct (check4_inv _ Hv) as (? & ? & ? & ? & E & ? & ? & ? & ? & _ & Hb).
  injection E as <- <- <- <-. assert (0 < n /\ 0 < c /\ 0 < h /\ 0 < w) as (?&?&?&?) by nia.
  assert (Hc0 : 0 < c0) by (by apply cube_pos). assert (Hno := Ceil_pos n 16 ltac:(done) ltac:(done)).
  assert (Hho := Ceil_bounds (4 * h * w) c0 ltac:(nia) Hc0). fold ho in Hho. fold no in Hno.
  assert (HN : no * 16 * (4 * h * w) <= N) by (unfold N; nia).
  assert (Hlt : N * size < 2 ^ 31) by (rewrite mem_max_len in Hmax; lia).
  assert (no * 16 * (4 * h * w) * size < 2 ^ 31) by (fold size in Hsz; nia).
  assert (Hvp : CheckShapeValid [no * 16; 4; h; w] kNchwDimsNum = true).
  { unfold CheckShapeValid. cbn [orb negb Z.leb zlen]. simpl negb. apply valid_of_prod; [done| |].
    - repeat constructor; lia.
    - simpl prodZ. unfold kShapeItemNumMAX. fold size in Hsz. nia. }
  destruct (pad_ok args n c h w d) as (bs1 & E1 & Hz1 & He1); try done; [by rewrite Es| |].
  { fold size. unfold kCubeK. fold no. rewrite mem_max_len. lia. }
  unfold kCubeK in E1, Hz1, He1. fold no in E1, Hz1, He1. fold size in Hz1, He1.
  destruct (fzc04_data (with_source args (Some bs1) [no * 16; 4; h; w]) r no h w bs1)
    as (bs & E2 & Hz2 & He2); try done. simpl src_data_type in E2, Hz2, He2.
  exists bs. split; [|split; [exact Hz2|]].
  - unfold TransFormat, CheckGroupsSupport.
    rewrite (bool_decide_eq_true_2 (_ = SUCCESS)) by
      (destruct (Z.eqb_spec (GetSubFormat (dst_format args)) 0); [done|];
       destruct (Z.eqb_spec (GetSubFormat (dst_format args)) 1); [done|lia]).
    cbn [reject_if negb]. unfold BuildTransArgsNchwToFzC04. rewrite Hsp, Z.eqb_refl.
    cbn [mbind outcome_bind]. rewrite E1. cbn [mbind outcome_bind].
    simpl src_format. simpl src_shape. simpl src_data_type. simpl dst_format.
    pose proof (c04_shape_padded _ n c h w _ _ s Hsf Ht ltac:(lia) Hvp) as Htp. fold no in Htp.
    rewrite Htp. cbn [mbind outcome_bind].
    unfold IsTransShapeDstCorrect. simpl dst_shape. simpl src_primary_format.
    simpl dst_primary_format. rewrite Hsp, Hdp, Hdf, !Z.eqb_refl.
    destruct Hds as [->| ->]; [|rewrite (bool_decide_eq_true_2 (s = s)) by done; rewrite andb_false_r];
      exact E2.
  - intros. fold size c0 ho in He2. rewrite He2 by done. unfold lane_spec.
    destruct (Z.leb_spec (4 * h * w) (k1 * c0 + k0)); [done|].
    destruct (lane_index h w 0 (k1 * c0 + k0)) as ((? & ? & ?) & _); [done..|nia|].
    by apply He1; nia.
Qed.

(** ** FRACTAL_Z_C04 to HWCN *)

Lemma idx4_inj b c d i j k l i' j' k' l' :
  0 <= j < b -> 0 <= k < c -> 0 <= l < d -> 0 <= j' < b -> 0 <= k' < c -> 0 <= l' < d ->
  idx4 b c d i j k l = idx4 b c d i' j' k' l' -> i = i' /\ j = j' /\ k = k' /\ l = l'.
Proof.
  intros ?????? E. unfold idx4 in E.
  apply pos_inj in E as [E ->]; [|done..]. apply pos_inj in E as [E ->]; [|done..].
  apply pos_inj in E as [-> ->]; done.
Qed.

(** Where weight [(hi, wi, ci, ni)] is stored. *)
Definition c04_at (w no c0 hi wi ci ni : Z) : Z :=
  let k := (hi * w + wi) * 4 + ci in
  idx4 no 16 c0 (k / c0) (ni / 16) (ni mod 16) (k mod c0).

Lemma c04_at_bound h w no c0 n hi wi ci ni :
  no = Ceil n 16 -> 0 < c0 -> 0 < h -> 0 < w -> 0 <= hi < h -> 0 <= wi < w -> 0 <= ci < 4 ->
  0 <= ni < n ->
  (0 <= ((hi * w + wi) * 4 + ci) / c0 < Ceil (4 * h * w) c0 /\ 0 <= ni / 16 < no /\
   0 <= ni mod 16 < 16 /\ 0 <= ((hi * w + wi) * 4 + ci) mod c0 < c0) /\
  0 <= c04_at w no c0 hi wi ci ni < Ceil (4 * h * w) c0 * no * 16 * c0.
Proof.
  intros -> Hc0 Hh Hw Hhi Hwi Hci Hni.
  assert (Hk : 0 <= (hi * w + wi) * 4 + ci < 4 * h * w) by nia.
  pose proof (Ceil_div_lt _ c0 _ Hk Hc0). pose proof (Ceil_div_lt _ 16 _ Hni ltac:(done)).
  pose proof (Z.mod_pos_bound ni 16 ltac:(done)). pose proof (Z.mod_pos_bound ((hi * w + wi) * 4 + ci) c0 Hc0).
  split; [done|]. by apply idx4_bound.
Qed.

Lemma e_mult_one cin cout k :
  0 < cin <= 4 -> 0 < cout -> 0 < k <= 32 -> cout < 2 ^ 40 ->
  FractalZ.e_mult_of cin cout k 1 = Ok 1.
Proof.
  intros. destruct (e_mult_range cin cout k 1) as (e & E & ?); try lia;
    [nia|unfold kCubeSize; lia..|]. rewrite E. f_equal. lia.
Qed.

Lemma c04_to_hwcn args r n c h w b :
  let size := GetSizeByDataType (src_data_type args) in
  let c0 := GetCubeSizeByDataType (src_data_type args) in
  let no := Ceil n 16 in
  let M := Ceil (4 * h * w) c0 * no * 16 * c0 in
  let N := h * w * c * n in
  dst_primary_format args = FORMAT_HWCN -> dst_shape args = [h; w; c; n] ->
  src_shape args = [Ceil (4 * h * w) c0; no; 16; c0] -> 0 <= src_sub_format args <= 1 ->
  0 < n -> 0 < c <= 4 -> 0 < h -> 0 < w -> 0 < size -> n < 2 ^ 40 ->
  data args = Some b -> M * size <= zlen b -> M * size < 2 ^ 63 ->
  N * size <= SECUREC_MEM_MAX_LEN -> (forall k, can_alloc k = true) ->
  wp (TransFormatFzC04ToHwcn args r)
     (delivers N size (at4 w c n (fun hi wi ci ni => elem b size (c04_at w no c0 hi wi ci ni)))).
Proof.
  intros size c0 no M N Hf Eds Ess Hsub Hn Hc Hh Hw Hsz Hn40 Ed Hd HM Hmax Hal.
  assert (Hc0 : 0 < c0) by (by apply cube_pos).
  assert (Hc0b : 16 <= c0 <= 32).
  { unfold c0, GetCubeSizeByDataType, kCubeSize. fold size. rewrite (proj2 (Z.leb_gt _ _)) by lia.
    destruct (_ =? 1); lia. }
  assert (Hm : size <= max_type_size) by (apply type_size_bound).
  assert (Hno : 0 < no) by (by apply Ceil_pos). assert (HN : 0 < N) by (unfold N; nia).
  assert (Hho := Ceil_pos (4 * h * w) c0 ltac:(nia) Hc0).
  set (spec := at4 w c n _). unfold TransFormatFzC04ToHwcn. rewrite Hf, Z.eqb_refl.
  apply wp_reject; [done|]. rewrite Eds, Ess, Ed. wp_dims.
  apply wp_reject; [by rewrite !(proj2 (Z.eqb_neq _ 0)) by lia|]. cbv zeta. fold c0 size.
  apply wp_reject.
  { unfold CheckGroupsSupport. destruct (Z.eqb_spec (src_sub_format args) 0); [done|].
    destruct (Z.eqb_spec (src_sub_format args) 1); [done|lia]. }
  replace (if src_sub_format args =? 0 then 1 else src_sub_format args) with 1
    by (destruct (Z.eqb_spec (src_sub_format args) 0); lia).
  rewrite e_mult_one by lia. wp_dims. rewrite !Z.mul_1_l.
  assert (Ec : Ceil c c0 = 1) by (pose proof (Ceil_bounds c c0 ltac:(lia) Hc0); nia).
  rewrite Ec, Z.mul_1_l, quot_nonneg, Z.div_same by lia. wp_dims.
  rewrite !total_size_ok by (rewrite mem_max_len in Hmax; lia). fold M N.
  cbn [fail_as]. wp_dims. apply wp_reject; [apply Z.eqb_neq; nia|].
  unfold new_bytes. rewrite Hal. cbn [fail_as]. wp_dims. rewrite memset_all by nia.
  cbn [fail_as]. wp_dims. unfold kCubeSize. fold no.
  set (W := fun t e => exists ci hi wi ni,
    (0 <= ci < c /\ 0 <= hi < h /\ 0 <= wi < w /\ 0 <= ni < n) /\
    idx4 h w n ci hi wi ni < t /\ e = idx4 w c n hi wi ci ni).
  set (Q := fun t '(dst, p) => agree N size spec (W t) dst /\ p = (N - t) * size).
  assert (HQ0 : Q 0 (replicate (Z.to_nat (N * size)) (Some 0), N * size)).
  { split; [|ring]. eapply agree_weaken; [|apply agree_start, zlen_replicate; nia].
    intros e (ci & hi & wi & ni & (? & ? & ? & ?) & Hlt0 & _).
    pose proof (idx4_bound c h w n ci hi wi ni). lia. }
  apply wp_bind. apply (wp_mono _ (Q (c * h * w * n))).
  - assert (EN : c * h * w * n = N) by (unfold N; ring).
    assert (EM : M = Ceil (4 * h * w) c0 * no * 16 * c0) by done. clearbody N M.
    apply (wp_for (fun ci => Q (ci * h * w * n))); [lia|by apply HQ0|].
    intros ci s1 Hci HQ1. replace ((ci + 1) * h * w * n) with ((ci * h + h) * w * n) by ring.
    apply (wp_for (fun hi => Q ((ci * h + hi) * w * n))); [lia|by rewrite Z.add_0_r|].
    intros hi s2 Hhi HQ2.
    replace ((ci * h + (hi + 1)) * w * n) with (((ci * h + hi) * w + w) * n) by ring.
    apply (wp_for (fun wi => Q (((ci * h + hi) * w + wi) * n))); [lia|by rewrite Z.add_0_r|].
    intros wi s3 Hwi HQ3.
    replace (((ci * h + hi) * w + (wi + 1)) * n) with (((ci * h + hi) * w + wi) * n + n) by ring.
    apply (wp_for (fun ni => Q (((ci * h + hi) * w + wi) * n + ni))); [lia|by rewrite Z.add_0_r|].
    intros ni [dst p] Hni [Ha ->].
    change (((ci * h + hi) * w + wi) * n + ni) with (idx4 h w n ci hi wi ni) in *.
    rewrite Z.add_assoc.
    change (((ci * h + hi) * w + wi) * n + ni) with (idx4 h w n ci hi wi ni) in *.
    destruct (c04_at_bound h w no c0 n hi wi ci ni) as (_ & HS); [done..|lia|done|].
    unfold kC04, kNiSize. rewrite (rem_nonneg ci) by lia. wp_dims.
    rewrite (Z.mod_small ci 4) by lia.
    replace (hi * w * 1 * 4 + wi * 4 + ci) with ((hi * w + wi) * 4 + ci) by ring.
    assert (Hk0 : 0 <= (hi * w + wi) * 4 + ci) by nia.
    rewrite !quot_nonneg, !rem_nonneg by lia. wp_dims.
    replace (_ / c0 * (c0 * 16 * no) + _ + _ + _) with (c04_at w no c0 hi wi ci ni)
      by (unfold c04_at, idx4, pos; ring).
    replace (hi * w * c * n + _ + _ + ni) with (idx4 w c n hi wi ci ni) by (unfold idx4, pos; ring).
    assert (HD : 0 <= idx4 w c n hi wi ci ni < N) by (rewrite <- EN; pose proof
      (idx4_bound h w c n hi wi ci ni Hhi Hwi Hci Hni); lia).
    assert (HT := idx4_bound c h w n ci hi wi ni Hci Hhi Hwi Hni). rewrite EN in HT.
    rewrite <- EM in HS. rewrite (PtrAdd_elem M size Hsz _ HS).
    apply wp_bind, wp_fail_as. eapply wp_mono.
    + eapply (wp_memcpy_elem N size spec Hsz); [exact Ha|exact HD|nia|by apply PtrAdd_elem|lia|nia|].
      unfold spec. by rewrite at4_idx.
    + intros out Ha'. split; [|ring]. eapply agree_weaken; [|exact Ha'].
      intros e (ci' & hi' & wi' & ni' & (? & ? & ? & ?) & Hlt0 & ->).
      destruct (decide (idx4 h w n ci' hi' wi' ni' = idx4 h w n ci hi wi ni)) as [E|].
      * apply idx4_inj in E as (-> & -> & -> & ->); [by right|done..].
      * left. exists ci', hi', wi', ni'. split; [done|]. split; [lia|done].
  - intros [dst p] [Ha _]. eapply agree_delivers; [exact Hsz|exact Ha|]. intros e He.
    destruct (idx4_surj h w c n e) as (hi & wi & ci & ni & (? & ? & ? & ?) & ->); [lia..|done|].
    exists ci, hi, wi, ni. split; [done|]. split; [|done].
    by apply idx4_bound.
Qed.
End c04.

(** ** HWCN to FRACTAL_Z_C04, through the entry points of [formats.h] *)

Section c04_hwcn.
Context `{GeTypesLaws} `{SecureCLaws} `{!Metadef} `{!MetadefLaws} `{!FormatsApi} `{!FormatsApiLaws}.
Import TransposeModel FzC04.

Lemma hwcn_nchw_ne : FORMAT_HWCN <> FORMAT_NCHW.
Proof. by apply (formats_neq 7 0). Qed.

Lemma hwcn_nchw_perm : GetPermByForamt FORMAT_HWCN FORMAT_NCHW = Ok [3; 2; 0; 1].
Proof.
  unfold GetPermByForamt, perm_args. cbn [find_key].
  rewrite (proj2 (Z.eqb_neq FORMAT_NCHW FORMAT_HWCN)) by (by apply (formats_neq 0 7)).
  rewrite (proj2 (Z.eqb_neq FORMAT_NHWC FORMAT_HWCN)) by (by apply (formats_neq 1 7)).
  rewrite Z.eqb_refl. cbn [find_key]. by rewrite Z.eqb_refl.
Qed.

Lemma perm_lookup a b p :
  GetPermByForamt a b = Ok p -> default [] (find_key b (default [] (find_key a perm_args))) = p.
Proof.
  unfold GetPermByForamt. destruct (find_key a perm_args) as [m|]; [|done]. simpl.
  destruct (find_key b m); [|done]. by intros [= ->].
Qed.

(** The transposing transfer's shape, HWCN to NCHW. *)
Lemma hwcn_nchw_trans_shape sf df h w c n dt :
  GetPrimaryFormat sf = FORMAT_HWCN -> GetPrimaryFormat df = FORMAT_NCHW ->
  0 < h -> 0 < w -> 0 < c -> 0 < n ->
  TransposeModel.TransShape sf [h; w; c; n] dt df = Ok [n; c; h; w].
Proof.
  intros Es Ed ????. unfold TransposeModel.TransShape. rewrite Es, Ed, hwcn_nchw_perm.
  cbn [mbind outcome_bind]. by rewrite shape4_arg_valid.
Qed.

(** The conversion to NCHW that precedes the transfer proper. *)
Lemma hwcn_nchw_bytes args n c h w d :
  let size := GetSizeByDataType (src_data_type args) in
  let N := h * w * c * n in
  src_primary_format args = FORMAT_HWCN -> GetPrimaryFormat (src_format args) = FORMAT_HWCN ->
  src_shape args = [h; w; c; n] -> 0 < h -> 0 < w -> 0 < c -> 0 < n -> 0 < size ->
  N <= kShapeItemNumMAX -> data args = Some d -> zlen d = N * size ->
  (forall k, can_alloc k = true) ->
  exists bs, BuildTransArgsNchwToFzC04 args args
    = Ok {| data := Some bs; src_format := FORMAT_NCHW; dst_format := dst_format args;
            src_primary_format := FORMAT_NCHW; dst_primary_format := dst_primary_format args;
            src_sub_format := FORMAT_RESERVED; dst_sub_format := dst_sub_format args;
            src_c0_format := kC0Size; dst_c0_format := kC0Size;
            src_shape := [n; c; h; w]; dst_shape := []; src_data_type := src_data_type args |} /\
    zlen bs = N * size /\
    forall hi wi ci ni, 0 <= hi < h -> 0 <= wi < w -> 0 <= ci < c -> 0 <= ni < n ->
      elem bs size (idx4 c h w ni ci hi wi) = elem d size (idx4 w c n hi wi ci ni).
Proof.
  intros size N Hsp Hsf Es Hh Hw Hc Hn Hsz HN Ed Hd Hal.
  assert (0 < N) by (unfold N; nia).
  destruct (transpose4 d h w c n (src_data_type args) 3 2 0 1
    {| res_data := None; res_length := 0 |}) as (bs & E & Hz & He);
    [by apply shape4_arg_valid|done..|].
  assert (Ets := hwcn_nchw_trans_shape (src_format args) (GetFormatFromSub FORMAT_NCHW
    (GetSubFormat (dst_sub_format args))) h w c n (src_data_type args) Hsf (primary_from_sub _)
    Hh Hw Hc Hn).
  exists bs. split; [|split; [done|]].
  - unfold BuildTransArgsNchwToFzC04. rewrite Hsp, (proj2 (Z.eqb_neq _ _) hwcn_nchw_ne).
    rewrite hwcn_nchw_supported by done. cbn [negb reject_if].
    unfold TransShapeFromSrcToNchw. rewrite Hsf, (proj2 (Z.eqb_neq _ _) hwcn_nchw_ne).
    rewrite hwcn_nchw_supported by done. cbn [negb reject_if].
    rewrite hwcn_nchw_shape by (done || apply primary_of_primary). rewrite Es.
    rewrite hwcn_nchw_trans_shape by (done || apply primary_of_primary).
    cbn [fail_as mbind outcome_bind].
    rewrite (hwcn_nchw_data _ d) by done. unfold TransposeModel.TransFormat.
    cbn [src_to_nchw src_format src_shape src_data_type dst_format dst_shape data
         src_primary_format dst_primary_format]. rewrite Es, Ets. cbn [mbind outcome_bind].
    pose proof (dst_correct (src_to_nchw args [n; c; h; w])) as Hdc. cbn [dst_shape src_to_nchw] in Hdc.
    rewrite Hdc, Hsp, Ed, (perm_lookup _ _ _ hwcn_nchw_perm). cbn [negb reject_if]. rewrite E.
    cbn [fail_as mbind outcome_bind res_data]. by rewrite buffer_of_bytes.
  - intros. rewrite <- He by done. f_equal. unfold idx4, pos. simpl. ring.
Qed.

(** HWCN weights and their NCHW transpose have the same C04 shape. *)
Lemma c04_shape_hwcn sf df df' h w c n dt :
  GetPrimaryFormat sf = FORMAT_HWCN -> GetPrimaryFormat df' = GetPrimaryFormat df ->
  0 < h -> 0 < w -> 0 < c -> 0 < n ->
  FzC04.TransShape sf [h; w; c; n] dt df = FzC04.TransShape FORMAT_NCHW [n; c; h; w] dt df'.
Proof.
  intros Hsf Hdf ????. unfold FzC04.TransShape. destruct (negb _); [done|]. cbn [reject_if].
  unfold TransShapeFromSrcToNchw at 1. rewrite Hsf, (proj2 (Z.eqb_neq _ _) hwcn_nchw_ne).
  rewrite hwcn_nchw_supported by done. cbn [negb reject_if].
  rewrite hwcn_nchw_shape, hwcn_nchw_trans_shape by (done || apply primary_of_primary).
  unfold TransShapeFromSrcToNchw. rewrite primary_of_primary, Z.eqb_refl.
  cbn [fail_as mbind outcome_bind]. by rewrite Hdf.
Qed.

Lemma hwcn_c04 args r n c h w d :
  let size := GetSizeByDataType (src_data_type args) in
  let c0 := GetCubeSizeByDataType (src_data_type args) in
  let ho := Ceil (4 * h * w) c0 in
  let no := Ceil n 16 in
  let N := ho * no * 16 * c0 in
  src_primary_format args = FORMAT_HWCN -> consistent args ->
  0 <= GetSubFormat (dst_format args) <= 1 -> src_shape args = [h; w; c; n] ->
  FzC04.TransShape (src_format args) (src_shape args) (src_data_type args) (dst_format args)
  = Ok (dst_shape args) ->
  0 < n -> 0 < c <= 4 -> 0 < h -> 0 < w -> data args = Some d -> zlen d = h * w * c * n * size ->
  N * size <= SECUREC_MEM_MAX_LEN -> (forall k, can_alloc k = true) ->
  exists bs,
    FzC04.TransFormat args r
    = Ok {| res_data := Some (Some <$> bs); res_length := N * size |} /\
    zlen bs = N * size /\
    forall hi wi ci ni, 0 <= hi < h -> 0 <= wi < w -> 0 <= ci < c -> 0 <= ni < n ->
      elem bs size (c04_at w no c0 hi wi ci ni) = elem d size (idx4 w c n hi wi ci ni).
Proof.
  intros size c0 ho no N Hsp (E1 & E2 & _) Hsub Es Ht Hn Hc Hh Hw Ed Hd Hmax Hal.
  rewrite Es in Ht. rewrite (c04_shape_hwcn _ _ (dst_format args)) in Ht by (congruence || lia).
  destruct (c04_shape _ _ _ _ _ _ _ _ primary_of_primary Ht) as (Hsz & Hdf & Hv & Eds & _).
  destruct (check4_inv _ Hv) as (? & ? & ? & ? & E & _ & _ & _ & _ & _ & Hb).
  injection E as <- <- <- <-.
  destruct (hwcn_nchw_bytes args n c h w d) as (b0 & Eb & Hz0 & He0); try done;
    [congruence|lia|nia|].
  match type of Eb with _ = Ok ?a => set (args' := a) in Eb end.
  destruct (nchw_c04 args' r n c h w b0 (dst_shape args)) as (bs & E & Hz & He); try done.
  - apply primary_of_primary.
  - by left.
  - nia.
  - lia.
  - simpl src_data_type. fold size. fold size in Hz0. rewrite Hz0. lia.
  - exists bs. split; [|split; [exact Hz|]].
    + etransitivity; [|exact E]. unfold FzC04.TransFormat at 1. rewrite Eb.
      unfold FzC04.TransFormat. change (dst_format args') with (dst_format args).
      unfold BuildTransArgsNchwToFzC04 at 1. change (src_primary_format args') with FORMAT_NCHW at 1.
      by rewrite Z.eqb_refl.
    + intros hi wi ci ni Hhi Hwi Hci Hni. unfold c04_at.
      destruct (c04_at_bound h w no c0 n hi wi ci ni) as ((? & ? & ? & ?) & _); try done;
        [by apply cube_pos|lia|]. cbv zeta.
      simpl src_data_type in He. fold size c0 ho no in He. rewrite He by done.
      rewrite (Z.mul_comm (ni / 16)), <- Z.div_mod by lia.
      rewrite (Z.mul_comm (_ / c0)), <- Z.div_mod by (pose proof (cube_pos _ Hsz); unfold c0; lia).
      unfold lane_spec. rewrite (proj2 (Z.leb_gt _ _)) by nia.
      destruct (divmod_add 4 (hi * w + wi) ci) as [-> ->]; [lia|].
      destruct (divmod_add w hi wi) as [-> ->]; [lia|]. unfold pad_spec.
      rewrite !(proj2 (Z.leb_gt _ _)) by lia. by apply He0.
Qed.
End c04_hwcn.

(** ** Theorems *)

Section c04_theorems.
Context `{GeTypesLaws} `{SecureCLaws} `{!Metadef} `{!MetadefLaws} `{!FormatsApi} `{!FormatsApiLaws}.
Import FzC04.

(** NCHW weights with at most four channels to FRACTAL_Z_C04.  The
    flattened axes run over (h, w, c) with four channels to a position; entry
    [(k1, n1, n0, k0)] of the result is weight [n1 * 16 + n0], channel [k mod 4],
    position [k / 4], for [k = k1 * C0 + k0], and zero past the last weight,
    channel or position. *)
Theorem nchw_to_fz_c04_correct args r n c h w d :
  let size := GetSizeByDataType (src_data_type args) in
  let c0 := GetCubeSizeByDataType (src_data_type args) in
  let ho := Ceil (4 * h * w) c0 in
  let no := Ceil n 16 in
  let N := ho * no * 16 * c0 in
  consistent args -> src_primary_format args = FORMAT_NCHW ->
  0 <= GetSubFormat (dst_format args) <= 1 -> src_shape args = [n; c; h; w] ->
  TransShape (src_format args) (src_shape args) (src_data_type args) (dst_format args)
  = Ok (dst_shape args) ->
  0 < n * c * h * w -> c <= 4 -> data args = Some d -> n * c * h * w * size <= zlen d ->
  N * size <= SECUREC_MEM_MAX_LEN -> (forall k, can_alloc k = true) ->
  exists bs,
    TransFormat args r
    = Ok {| res_data := Some (Some <$> bs); res_length := N * size |} /\
    zlen bs = N * size /\
    forall k1 n1 n0 k0, 0 <= k1 < ho -> 0 <= n1 < no -> 0 <= n0 < 16 -> 0 <= k0 < c0 ->
      let i := n1 * 16 + n0 in
      let k := k1 * c0 + k0 in
      elem bs size (idx4 no 16 c0 k1 n1 n0 k0)
      = if (4 * h * w <=? k) || (n <=? i) || (c <=? k mod 4) then zero_elem size
        else elem d size (idx4 c h w i (k mod 4) (k / 4 / w) (k / 4 mod w)).
Proof.
  intros size c0 ho no N (E1 & E2 & _) Hsp Hsub Es Ht Hpos Hc Ed Hd Hmax Hal.
  destruct (nchw_c04 args r n c h w d (dst_shape args)) as (bs & E & Hz & He); try done;
    [congruence|by right|].
  exists bs. split; [exact E|]. split; [exact Hz|]. intros k1 n1 n0 k0 ???? i k.
  fold size c0 ho no in He. rewrite He by done. unfold lane_spec, pad_spec.
  fold i k. by destruct (4 * h * w <=? k).
Qed.

(** HWCN weights with at most four channels survive the trip through
    FRACTAL_Z_C04, the first leg going through the public entry points. *)
Theorem hwcn_fz_c04_roundtrip args1 args2 r1 r2 n c h w d :
  let size := GetSizeByDataType (src_data_type args1) in
  let c0 := GetCubeSizeByDataType (src_data_type args1) in
  let N := Ceil (4 * h * w) c0 * Ceil n 16 * 16 * c0 in
  consistent args1 -> src_primary_format args1 = FORMAT_HWCN ->
  0 <= GetSubFormat (dst_format args1) <= 1 -> src_shape args1 = [h; w; c; n] ->
  TransShape (src_format args1) (src_shape args1) (src_data_type args1) (dst_format args1)
  = Ok (dst_shape args1) ->
  consistent args2 -> src_primary_format args2 = FORMAT_FRACTAL_Z_C04 ->
  dst_primary_format args2 = FORMAT_HWCN -> 0 <= src_sub_format args2 <= 1 ->
  src_shape args2 = dst_shape args1 -> dst_shape args2 = [h; w; c; n] ->
  src_data_type args2 = src_data_type args1 ->
  0 < n -> 0 < c <= 4 -> 0 < h -> 0 < w -> data args1 = Some d -> zlen d = h * w * c * n * size ->
  N * size <= SECUREC_MEM_MAX_LEN -> (forall k, can_alloc k = true) ->
  exists bs,
    TransFormat args1 r1 = Ok {| res_data := Some (Some <$> bs); res_length := N * size |} /\
    TransFormatTo4D (with_data args2 bs) r2
    = Ok {| res_data := Some (Some <$> d); res_length := h * w * c * n * size |}.
Proof.
  intros size c0 N Hc1 Hsp1 Hsub1 Es1 Ht Hc2 Hsp2 Hdp2 Hsub2 Es2 Ed2 Edt Hn Hc Hh Hw Ed Hd Hmax Hal.
  destruct (hwcn_c04 args1 r1 n c h w d) as (bs & E & Hz & He); try done.
  exists bs. split; [exact E|]. rewrite Es1 in Ht.
  destruct Hc1 as (Ea & _). destruct Hc2 as (Eb & Eb' & _).
  rewrite (c04_shape_hwcn _ _ (dst_format args1)) in Ht by (congruence || lia).
  destruct (c04_shape _ _ _ _ _ _ _ _ primary_of_primary Ht) as (Hsz & Hdf & Hv & Eds & _).
  fold size in Hsz. fold c0 in Eds. assert (Hc0 : 0 < c0) by (by apply cube_pos).
  assert (Hb := Ceil_bounds (4 * h * w) c0 ltac:(nia) Hc0).
  assert (Hno := Ceil_bounds n 16 ltac:(lia) ltac:(done)).
  assert (HNs : N * size < 2 ^ 31) by (rewrite mem_max_len in Hmax; lia).
  assert (HN : n * (4 * h * w) <= N) by (unfold N; nia). assert (HN31 : N < 2 ^ 31) by nia.
  assert (4 * h * w < 2 ^ 31 /\ n < 2 ^ 31) as [? ?] by nia.
  rewrite !swrap64_small in Eds by (rewrite ?swrap64_small; nia).
  unfold TransFormatTo4D. cbn [with_data src_primary_format dst_primary_format src_shape dst_shape
    src_format dst_format src_data_type]. rewrite Hsp2, Hdp2, !Z.eqb_refl. cbn [negb orb reject_if].
  rewrite Ed2, (c04_shape_hwcn _ _ (dst_format args1)), Edt, Ht by (congruence || lia).
  cbn [fail_as mbind outcome_bind].
  rewrite Es2, bool_decide_eq_true_2 by done. cbn [negb reject_if].
  pose proof (c04_to_hwcn (with_data args2 bs) r2 n c h w bs) as Hto.
  cbn [with_data src_primary_format dst_primary_format src_shape dst_shape src_sub_format
    src_data_type data] in Hto. rewrite Edt in Hto. fold size c0 in Hto.
  fold N in Hto. fold size c0 N in Hz.
  assert (Hhwn : 0 < h * w * n) by nia.
  assert (Hle : h * w * c * n <= N) by (transitivity (4 * (h * w * n)); [nia|lia]).
  assert (Hle2 : h * w * c * n * size <= SECUREC_MEM_MAX_LEN)
    by (etransitivity; [apply Z.mul_le_mono_nonneg_r; [lia|exact Hle]|exact Hmax]).
  specialize (Hto Hdp2 Ed2 ltac:(congruence) Hsub2 Hn Hc Hh Hw Hsz ltac:(lia) eq_refl
    ltac:(lia) ltac:(lia) Hle2 Hal).
  apply delivers_eq in Hto as (bs2 & E2 & Hz2 & He2).
  rewrite E2. do 3 f_equal. f_equal. eapply elem_ext; [exact Hsz|exact Hz2|done|].
  intros e Hr. rewrite He2 by done.
  destruct (idx4_surj h w c n e) as (hi & wi & ci & ni & (? & ? & ? & ?) & ->); [lia..|done|].
  rewrite at4_idx by done. by apply He.
Qed.
End c04_theorems.
