(* ===== verification/FormatsRegistry.v ===== *)
(** * FormatsRegistry: registering transfers and dispatching to them

    [register_format_transfer.cc] keeps a map of maps from the source and
    destination format to the builder of a transfer; every transfer file
    registers its class with [REGISTER_FORMAT_TRANSFER] during static
    initialisation, in an order the language leaves open; [formats.cc] looks
    the transfer up and calls it.  The FRACTAL_Z_C04 transfer calls back into
    [formats.cc]: [api depth] is the system in which such calls may nest
    [depth] deep, and [dispatch_depth] shows that two levels are all it takes. *)

From S2P Require Import Prelude Env FormatsUtils Transfer Formats5D FormatsFracZ FormatsFractalZ.
From S2P Require Import FormatsTranspose FormatsNz FormatsZz FormatsC1hwncoc0 Formats3D FormatsTbe.
From S2P Require Import FormatsC04.

(** ** register_format_transfer.cc *)

(** A builder is a nullary function; [mem] says whether [std::make_shared]
    finds memory when it runs, and the null pointer is [None]. *)
Definition FormatTransferBuilder : Type := bool -> option FormatTransfer.

(** [ge::MakeShared<TransferClass>()]: the object, or null without memory. *)
Definition MakeShared (t : FormatTransfer) : FormatTransferBuilder :=
  fun mem => if mem then Some t else None.

Module Registry.
(** [src_dst_builder]. *)
Abbreviation FormatTransferRegistry := (gmap Z (gmap Z FormatTransferBuilder)).

Definition RegisterBuilder (src dst : Z) (builder : FormatTransferBuilder)
    (src_dst_builder : FormatTransferRegistry) : FormatTransferRegistry :=
  <[src := <[dst := builder]> (default ∅ (src_dst_builder !! src))]> src_dst_builder.

Definition GenerateFormatTransfer (mem : bool) (src_dst_builder : FormatTransferRegistry)
    (src dst : Z) : option FormatTransfer :=
  match src_dst_builder !! src with
  | None => None
  | Some dst_builder =>
    match dst_builder !! dst with
    | None => None
    | Some builder => builder mem
    end
  end.

Definition IsFormatTransferExists (src_dst_builder : FormatTransferRegistry) (src dst : Z) : bool :=
  match src_dst_builder !! src with
  | None => false
  | Some dst_builder => bool_decide (is_Some (dst_builder !! dst))
  end.

(** The constructor of [FormatTransferRegister], run for a list of
    registrations. *)
Definition register (reg : FormatTransferRegistry) (r : FormatTransferBuilder * (Z * Z))
    : FormatTransferRegistry := RegisterBuilder r.2.1 r.2.2 r.1 reg.

Definition static_init (l : list (FormatTransferBuilder * (Z * Z))) : FormatTransferRegistry :=
  foldl register ∅ l.

Definition BuildFormatTransfer (mem : bool) (reg : FormatTransferRegistry) (args : TransArgs)
    : option FormatTransfer :=
  GenerateFormatTransfer mem reg (src_primary_format args) (dst_primary_format args).

Definition FormatTransferExists (reg : FormatTransferRegistry) (args : TransArgs) : bool :=
  IsFormatTransferExists reg (src_primary_format args) (dst_primary_format args).
End Registry.

(** ** formats.cc *)

Module Formats.
Import Registry.
Section model.
Context `{GeTypes} `{SecureC} `{Metadef}.

Definition TransDataFormat (mem : bool) (reg : FormatTransferRegistry) (args : TransArgs)
    (result : TransResult) : outcome TransResult :=
  match BuildFormatTransfer mem reg args with
  | None => Err ACL_ERROR_GE_FORMAT_INVALID
  | Some transfer =>
    let src_shape_size := GetItemNumByShape (src_shape args) in
    reject_if (bool_decide (data args = None) && negb (src_shape_size =? 0))
              ACL_ERROR_GE_PARAM_INVALID $
    FormatsUtils.TransFormat transfer args result
  end.

(** The fields of [args] the function leaves uninitialised are not read. *)
Definition TransTensorShape (mem : bool) (reg : FormatTransferRegistry) (src_format : Z)
    (src_shape : list Z) (data_type dst_format : Z) : outcome (list Z) :=
  let src_primary_format := GetPrimaryFormat src_format in
  let dst_primary_format := GetPrimaryFormat dst_format in
  match GenerateFormatTransfer mem reg src_primary_format dst_primary_format with
  | None => Err ACL_ERROR_GE_FORMAT_INVALID
  | Some transfer => FormatsUtils.TransShape transfer src_format src_shape data_type dst_format
  end.

Definition IsTransFormatSupport (reg : FormatTransferRegistry) (args : TransArgs) : bool :=
  FormatTransferExists reg args.

(** [GeFormatUtil::TransShape] of [ge_format_util.cc]: the getters of the
    tensor descriptor are its three arguments. *)
Definition GeFormatUtil_TransShape (mem : bool) (reg : FormatTransferRegistry)
    (GetFormat : Z) (GetDims : list Z) (GetDataType : Z) (dst_format : Z) : outcome (list Z) :=
  TransTensorShape mem reg GetFormat GetDims GetDataType dst_format.

(** Every [REGISTER_FORMAT_TRANSFER] of the transfer files; the C04 classes
    are given the entry points they call. *)
Definition registrations (api : FormatsApi) : list (FormatTransferBuilder * (Z * Z)) :=
  [(MakeShared C1hwncoc0Hwcn.transfer, (FORMAT_C1HWNCoC0, FORMAT_HWCN));
   (MakeShared DhwcnFractalZ3D.transfer, (FORMAT_DHWCN, FORMAT_FRACTAL_Z_3D));
   (MakeShared DhwncFractalZ3DTranspose.transfer, (FORMAT_DHWNC, FORMAT_FRACTAL_Z_3D_TRANSPOSE));
   (MakeShared FractalNz.transfer, (FORMAT_ND, FORMAT_FRACTAL_NZ));
   (MakeShared FractalNz.transfer, (FORMAT_NCHW, FORMAT_FRACTAL_NZ));
   (MakeShared FractalNz.transfer, (FORMAT_NHWC, FORMAT_FRACTAL_NZ));
   (MakeShared FractalNz.transferND, (FORMAT_FRACTAL_NZ, FORMAT_ND));
   (MakeShared FractalNz.transferND, (FORMAT_FRACTAL_NZ, FORMAT_NCHW));
   (MakeShared FractalNz.transferND, (FORMAT_FRACTAL_NZ, FORMAT_NHWC));
   (MakeShared FractalZ.transfer, (FORMAT_NCHW, FORMAT_FRACTAL_Z));
   (MakeShared FractalZ.transfer, (FORMAT_HWCN, FORMAT_FRACTAL_Z));
   (MakeShared FractalZ.transfer, (FORMAT_NHWC, FORMAT_FRACTAL_Z));
   (MakeShared FractalZTbe.transfer, (FORMAT_ND, FORMAT_FRACTAL_Z));
   (MakeShared FractalZz.transfer, (FORMAT_ND, FORMAT_FRACTAL_ZZ));
   (MakeShared FractalZz.transfer, (FORMAT_NCHW, FORMAT_FRACTAL_ZZ));
   (MakeShared FractalZz.transfer, (FORMAT_NHWC, FORMAT_FRACTAL_ZZ));
   (MakeShared FractalZz.transferND, (FORMAT_FRACTAL_ZZ, FORMAT_ND));
   (MakeShared FractalZz.transferND, (FORMAT_FRACTAL_ZZ, FORMAT_NCHW));
   (MakeShared FractalZz.transferND, (FORMAT_FRACTAL_ZZ, FORMAT_NHWC));
   (MakeShared FracZHwcn.transfer, (FORMAT_FRACTAL_Z, FORMAT_HWCN));
   (MakeShared FracZNchw.transfer, (FORMAT_FRACTAL_Z, FORMAT_NCHW));
   (MakeShared FracZNhwc.transfer, (FORMAT_FRACTAL_Z, FORMAT_NHWC));
   (MakeShared FzC04.transfer, (FORMAT_NCHW, FORMAT_FRACTAL_Z_C04));
   (MakeShared FzC04.transfer, (FORMAT_HWCN, FORMAT_FRACTAL_Z_C04));
   (MakeShared FzC04.transfer_to_4d, (FORMAT_FRACTAL_Z_C04, FORMAT_HWCN));
   (MakeShared HwcnC1hwncoc0.transfer, (FORMAT_HWCN, FORMAT_C1HWNCoC0));
   (MakeShared Nc1hwc0Nchw.transfer, (FORMAT_NC1HWC0, FORMAT_NCHW));
   (MakeShared Nc1hwc0Nhwc.transfer, (FORMAT_NC1HWC0, FORMAT_NHWC));
   (MakeShared NchwNc1hwc0.transfer, (FORMAT_NCHW, FORMAT_NC1HWC0));
   (MakeShared NhwcNc1hwc0.transfer, (FORMAT_NHWC, FORMAT_NC1HWC0));
   (MakeShared TransposeModel.transfer, (FORMAT_NCHW, FORMAT_NHWC));
   (MakeShared TransposeModel.transfer, (FORMAT_NCHW, FORMAT_HWCN));
   (MakeShared TransposeModel.transfer, (FORMAT_NCHW, FORMAT_CHWN));
   (MakeShared TransposeModel.transfer, (FORMAT_NHWC, FORMAT_NCHW));
   (MakeShared TransposeModel.transfer, (FORMAT_NHWC, FORMAT_CHWN));
   (MakeShared TransposeModel.transfer, (FORMAT_NHWC, FORMAT_HWCN));
   (MakeShared TransposeModel.transfer, (FORMAT_HWCN, FORMAT_NCHW));
   (MakeShared TransposeModel.transfer, (FORMAT_HWCN, FORMAT_NHWC));
   (MakeShared TransposeModel.transfer, (FORMAT_HWCN, FORMAT_CHWN));
   (MakeShared TransposeModel.transfer, (FORMAT_CHWN, FORMAT_NCHW));
   (MakeShared TransposeModel.transfer, (FORMAT_CHWN, FORMAT_NHWC));
   (MakeShared TransposeModel.transfer, (FORMAT_CHWN, FORMAT_HWCN))].

(** The entry points over one registry. *)
Definition entry_points (mem : bool) (reg : FormatTransferRegistry) : FormatsApi :=
  {| FormatsC04.IsTransFormatSupport := IsTransFormatSupport reg;
     FormatsC04.TransDataFormat := TransDataFormat mem reg;
     FormatsC04.TransTensorShape := TransTensorShape mem reg |}.

(** The system whose calls back into itself may nest [depth] deep; a call that
    nests deeper faults. *)
Fixpoint api (mem : bool) (depth : nat) : FormatsApi :=
  match depth with
  | O => {| FormatsC04.IsTransFormatSupport := fun _ => false;
            FormatsC04.TransDataFormat := fun _ _ => Fault;
            FormatsC04.TransTensorShape := fun _ _ _ _ => Fault |}
  | S depth => entry_points mem (static_init (registrations (api mem depth)))
  end.
End model.
End Formats.

(** ** Registration *)

Section registry.
Import Registry.
Implicit Types reg : FormatTransferRegistry.

(** What a lookup in the two maps finds. *)
Definition find_builder reg (src dst : Z) : option FormatTransferBuilder :=
  reg !! src ≫= fun dst_builder => dst_builder !! dst.

Lemma Generate_find mem reg src dst :
  GenerateFormatTransfer mem reg src dst = find_builder reg src dst ≫= fun b => b mem.
Proof.
  unfold GenerateFormatTransfer, find_builder. destruct (reg !! src) as [m|]; [simpl|done].
  by destruct (m !! dst).
Qed.

Lemma Exists_find reg src dst :
  IsFormatTransferExists reg src dst = bool_decide (is_Some (find_builder reg src dst)).
Proof.
  unfold IsFormatTransferExists, find_builder. destruct (reg !! src) as [m|]; [done|].
  symmetry. apply bool_decide_eq_false. by intros [].
Qed.

Lemma find_register reg b k src dst :
  find_builder (register reg (b, k)) src dst
  = if decide (k = (src, dst)) then Some b else find_builder reg src dst.
Proof.
  destruct k as [s d]. unfold find_builder, register, RegisterBuilder. cbn [fst snd].
  destruct (decide (s = src)) as [->|Hs].
  - rewrite lookup_insert_eq. cbn [mbind option_bind]. destruct (decide (d = dst)) as [->|Hd].
    + rewrite lookup_insert_eq. by rewrite decide_True.
    + rewrite lookup_insert_ne by done. rewrite decide_False by congruence.
      by destruct (reg !! src).
  - rewrite lookup_insert_ne by done. by rewrite decide_False by congruence.
Qed.

Lemma static_init_snoc l x : static_init (l ++ [x]) = register (static_init l) x.
Proof. unfold static_init. by rewrite foldl_app. Qed.

(** A lookup finds what was registered under the pair, and only that. *)
Lemma find_static_init l src dst b :
  NoDup l.*2 -> find_builder (static_init l) src dst = Some b <-> (b, (src, dst)) ∈ l.
Proof.
  induction l as [|[b' k] l IH] using rev_ind; intros Hnd.
  - split; [done|]. by intros ?%not_elem_of_nil.
  - rewrite fmap_app in Hnd. apply NoDup_app in Hnd as (Hnd & Hni & _).
    rewrite static_init_snoc, find_register, elem_of_app, list_elem_of_singleton.
    destruct (decide (k = (src, dst))) as [->|Hk].
    + split; [intros [= ->]; by right|]. intros [Hin|[= ->]]; [|done].
      exfalso. apply (Hni (src, dst)); [|simpl; by apply list_elem_of_singleton].
      apply list_elem_of_fmap. by exists (b, (src, dst)).
    + rewrite IH by done. split; [by left|]. intros [?|[= ]]; [done|congruence].
Qed.

Lemma register_comm reg x y :
  x.2 <> y.2 -> register (register reg x) y = register (register reg y) x.
Proof.
  destruct x as [b [s d]], y as [b' [s' d']]. simpl. intros Hne.
  unfold register, RegisterBuilder. cbn [fst snd]. destruct (decide (s = s')) as [->|Hs].
  - rewrite !lookup_insert_eq, !insert_insert_eq. cbn [default from_option id]. f_equal.
    apply insert_insert_ne. congruence.
  - rewrite !lookup_insert_ne by done. by apply insert_insert_ne.
Qed.

Lemma foldl_foldr_reverse {A B} (f : A -> B -> A) a l :
  foldl f a l = foldr (fun x y => f y x) a (reverse l).
Proof.
  revert a. induction l as [|x l IH]; intros a; simpl; [done|].
  rewrite IH, reverse_cons, foldr_app. done.
Qed.

Lemma static_init_Permutation l l' :
  NoDup l.*2 -> l ≡ₚ l' -> static_init l = static_init l'.
Proof.
  intros Hnd Hp. unfold static_init. rewrite !foldl_foldr_reverse.
  apply (foldr_permutation eq _ _).
  - intros i x j y m Hij Hx Hy. apply register_comm. intros E.
    assert (Hnd' : NoDup (reverse l).*2) by (by rewrite reverse_Permutation).
    apply Hij. eapply (NoDup_lookup _ _ _ _ Hnd'); rewrite list_lookup_fmap_Some; eauto.
  - by rewrite !reverse_Permutation.
Qed.

(** Registrations related pair by pair leave related builders behind. *)
Lemma find_related (P : Z * Z -> FormatTransferBuilder -> FormatTransferBuilder -> Prop) l l' src dst :
  Forall2 (fun x y => x.2 = y.2 /\ P x.2 x.1 y.1) l l' ->
  option_Forall2 (P (src, dst)) (find_builder (static_init l) src dst)
                                (find_builder (static_init l') src dst).
Proof.
  revert l'. induction l as [|[b k] l IH] using rev_ind; intros l' Hl.
  - apply Forall2_nil_inv_l in Hl as ->. constructor.
  - apply Forall2_app_inv_l in Hl as (l1 & l2 & Hl & Hx & ->).
    apply Forall2_cons_inv_l in Hx as ([b' k'] & ? & [E HP] & Hnil & ->).
    apply Forall2_nil_inv_l in Hnil as ->. simpl in E, HP. subst k'.
    rewrite !static_init_snoc, !find_register.
    destruct (decide (k = (src, dst))) as [->|]; [by constructor|by apply IH].
Qed.

(** Transfers that behave alike. *)
Definition same_transfer (t t' : FormatTransfer) : Prop :=
  (forall args r, TransFormat t args r = TransFormat t' args r) /\
  (forall sf shape dt df, TransShape t sf shape dt df = TransShape t' sf shape dt df).

Definition same_builder (b b' : FormatTransferBuilder) : Prop :=
  forall mem, option_Forall2 same_transfer (b mem) (b' mem).

#[local] Instance same_transfer_refl : Reflexive same_transfer.
Proof. by intros t. Qed.

Lemma same_builder_refl b : same_builder b b.
Proof. intros mem. by destruct (b mem); constructor. Qed.

Lemma same_MakeShared t t' : same_transfer t t' -> same_builder (MakeShared t) (MakeShared t').
Proof. by intros ? []; constructor. Qed.
End registry.

(** ** The registered pairs *)

Section registrations.
Context `{GeTypesLaws} `{SecureCLaws} `{!Metadef} `{!MetadefLaws}.
Import Registry Formats.

Definition formats : list Z :=
  [FORMAT_NCHW; FORMAT_NHWC; FORMAT_ND; FORMAT_NC1HWC0; FORMAT_FRACTAL_Z; FORMAT_FRACTAL_Z_C04;
   FORMAT_CHWN; FORMAT_HWCN; FORMAT_C1HWNCoC0; FORMAT_FRACTAL_ZZ; FORMAT_FRACTAL_NZ; FORMAT_DHWCN;
   FORMAT_DHWNC; FORMAT_FRACTAL_Z_3D; FORMAT_FRACTAL_Z_3D_TRANSPOSE].

(** The registered pairs, as places in [formats]. *)
Definition pairs : list (nat * nat) :=
  [(8, 7); (11, 13); (12, 14); (2, 10); (0, 10); (1, 10); (10, 2); (10, 0); (10, 1);
   (0, 4); (7, 4); (1, 4); (2, 4); (2, 9); (0, 9); (1, 9); (9, 2); (9, 0); (9, 1);
   (4, 7); (4, 0); (4, 1); (0, 5); (7, 5); (5, 7); (7, 8); (3, 0); (3, 1); (0, 3); (1, 3);
   (0, 1); (0, 7); (0, 6); (1, 0); (1, 6); (1, 7); (7, 0); (7, 1); (7, 6); (6, 0); (6, 1);
   (6, 7)]%nat.

Lemma registrations_pairs a :
  (registrations a).*2 = (fun '(i, j) => (formats !!! i, formats !!! j)) <$> pairs.
Proof. reflexivity. Qed.

(** No pair of formats is registered twice. *)
Lemma registrations_NoDup a : NoDup (registrations a).*2.
Proof.
  rewrite registrations_pairs. apply NoDup_fmap_2_strong.
  - assert (Hb : Forall (fun '(i, j) => (i < 15 /\ j < 15)%nat) pairs)
      by (repeat constructor; lia).
    rewrite Forall_forall in Hb.
    assert (Hinj : forall i j, (i < 15)%nat -> (j < 15)%nat -> formats !!! i = formats !!! j -> i = j).
    { intros i j Hi Hj E. apply (NoDup_lookup formats i j (formats !!! i)).
      - exact formats_distinct.
      - by apply list_lookup_lookup_total_lt.
      - rewrite E. by apply list_lookup_lookup_total_lt. }
    intros [i j] [i' j'] Hx%Hb Hy%Hb [= E1 E2]. f_equal; apply Hinj; tauto.
  - apply (bool_decide_unpack _). vm_compute. exact I.
Qed.

(** What is registered under a pair does not depend on the entry points unless
    the pair belongs to a C04 class. *)
Lemma registrations_nchw a a' src :
  find_builder (static_init (registrations a)) src FORMAT_NCHW
  = find_builder (static_init (registrations a')) src FORMAT_NCHW.
Proof.
  assert (FORMAT_FRACTAL_Z_C04 <> FORMAT_NCHW) by (by apply (formats_neq 5 0)).
  assert (FORMAT_HWCN <> FORMAT_NCHW) by (by apply (formats_neq 7 0)).
  pose proof (find_related (fun k b b' => k.2 = FORMAT_NCHW -> b = b')
    (registrations a) (registrations a') src FORMAT_NCHW) as Hf.
  destruct Hf as [b b' Hb|]; [|by rewrite Hb|done].
  repeat (apply Forall2_cons; split; [split; [reflexivity|simpl; (reflexivity || congruence)]|]).
  constructor.
Qed.
End registrations.

(** ** The C04 classes as clients of the entry points *)

Section c04_client.
Context `{GeTypesLaws} `{SecureCLaws} `{!Metadef} `{!MetadefLaws}.

(** Entry points that answer alike when asked for NCHW. *)
Record same_to_nchw (a a' : FormatsApi) : Prop := {
  same_support : forall args, dst_primary_format args = FORMAT_NCHW ->
    @IsTransFormatSupport a args = @IsTransFormatSupport a' args;
  same_data : forall args r, dst_primary_format args = FORMAT_NCHW ->
    @TransDataFormat a args r = @TransDataFormat a' args r;
  same_shape : forall sf shape dt,
    @TransTensorShape a sf shape dt FORMAT_NCHW = @TransTensorShape a' sf shape dt FORMAT_NCHW;
}.

(** The C04 classes ask for nothing else. *)
Lemma c04_shape_same a a' sf shape dt df :
  same_to_nchw a a' ->
  @FzC04.TransShape _ _ a sf shape dt df = @FzC04.TransShape _ _ a' sf shape dt df.
Proof.
  intros [Hs _ Ht]. unfold FzC04.TransShape, FzC04.TransShapeFromSrcToNchw.
  destruct (negb _); [done|]. cbn [reject_if].
  destruct (GetPrimaryFormat sf =? FORMAT_NCHW); [done|]. by rewrite Hs, Ht.
Qed.

Lemma c04_same a a' :
  same_to_nchw a a' ->
  same_transfer (@FzC04.transfer _ _ _ a) (@FzC04.transfer _ _ _ a') /\
  same_transfer (@FzC04.transfer_to_4d _ _ _ a) (@FzC04.transfer_to_4d _ _ _ a').
Proof.
  intros Ha. pose proof Ha as [Hs Hd Ht]. split; (split; [intros args r|done || by intros; apply c04_shape_same]).
  - change (@FzC04.TransFormat _ _ _ a args r = @FzC04.TransFormat _ _ _ a' args r).
    assert (Eb : @FzC04.BuildTransArgsNchwToFzC04 _ _ a args args
                 = @FzC04.BuildTransArgsNchwToFzC04 _ _ a' args args).
    { unfold FzC04.BuildTransArgsNchwToFzC04, FzC04.TransShapeFromSrcToNchw.
      destruct (src_primary_format args =? FORMAT_NCHW); [done|]. rewrite Hs by done.
      destruct (negb _); [done|]. cbn [reject_if]. rewrite Hs, Ht by done.
      match goal with |- ?m ≫= _ = _ => destruct m; [|done..] end. simpl. by rewrite Hd. }
    unfold FzC04.TransFormat. rewrite Eb. destruct (negb _); [done|]. cbn [reject_if].
    match goal with |- ?m ≫= _ = _ => destruct m as [a1| |]; [|done..] end. simpl.
    destruct (FzC04.PaddingNC a1); [|done..]. simpl. by rewrite (c04_shape_same a a').
  - change (@FzC04.TransFormatTo4D _ _ _ a args r = @FzC04.TransFormatTo4D _ _ _ a' args r).
    unfold FzC04.TransFormatTo4D. by rewrite (c04_shape_same a a').
Qed.
End c04_client.

(** ** Dispatch *)

Section dispatch.
Context `{GeTypesLaws} `{SecureCLaws} `{!Metadef} `{!MetadefLaws}.
Import Registry.

Lemma find_registered a t src dst :
  (MakeShared t, (src, dst)) ∈ Formats.registrations a ->
  find_builder (static_init (Formats.registrations a)) src dst = Some (MakeShared t).
Proof. intros Hin. by apply find_static_init; [apply registrations_NoDup|]. Qed.

Lemma find_unregistered a src dst :
  (src, dst) ∉ (Formats.registrations a).*2 ->
  find_builder (static_init (Formats.registrations a)) src dst = None.
Proof.
  intros Hni. destruct (find_builder _ _ _) as [b|] eqn:E; [|done]. exfalso. apply Hni.
  apply find_static_init in E; [|apply registrations_NoDup]. apply list_elem_of_fmap.
  by exists (b, (src, dst)).
Qed.

(** Any depth from one on answers alike when asked for NCHW. *)
Lemma api_same_to_nchw mem d d' :
  same_to_nchw (Formats.api mem (S d)) (Formats.api mem (S d')).
Proof.
  pose proof (registrations_nchw (Formats.api mem d) (Formats.api mem d')) as Hf. split.
  - intros args Ed. simpl. unfold Formats.IsTransFormatSupport, FormatTransferExists.
    by rewrite !Exists_find, Ed, Hf.
  - intros args r Ed. simpl. unfold Formats.TransDataFormat, BuildFormatTransfer.
    by rewrite !Generate_find, Ed, Hf.
  - intros. simpl. unfold Formats.TransTensorShape.
    by rewrite !Generate_find, primary_of_primary, Hf.
Qed.

Lemma registrations_same a a' :
  same_to_nchw a a' ->
  Forall2 (fun x y => x.2 = y.2 /\ same_builder x.1 y.1)
    (Formats.registrations a) (Formats.registrations a').
Proof.
  intros [Hto Hback]%c04_same.
  repeat (apply Forall2_cons; split; [split; [reflexivity|
    simpl; first [apply same_builder_refl | by apply same_MakeShared]]|]). constructor.
Qed.

#[export] Instance api_laws depth : @FormatsApiLaws _ _ (Formats.api true (S depth)).
Proof.
  assert (Hin : forall a, (MakeShared TransposeModel.transfer, (FORMAT_HWCN, FORMAT_NCHW))
                          ∈ Formats.registrations a)
    by (intros a; by apply (list_elem_of_lookup_2 _ 36)).
  specialize (Hin (Formats.api true depth)). apply find_registered in Hin. split.
  - intros args Es Ed. simpl. unfold Formats.IsTransFormatSupport, FormatTransferExists.
    by rewrite Exists_find, Es, Ed, Hin.
  - intros args d r Es Ed Hd. simpl. unfold Formats.TransDataFormat, BuildFormatTransfer.
    by rewrite Generate_find, Es, Ed, Hin, Hd.
  - intros sf shape dt df Es Ed. simpl. unfold Formats.TransTensorShape.
    by rewrite Generate_find, Es, Ed, Hin.
Qed.

(** Static initialisation may run the registrations in any order; the
    registry is the same. *)
Theorem registration_order_irrelevant a l :
  l ≡ₚ Formats.registrations a -> static_init l = static_init (Formats.registrations a).
Proof.
  intros Hp. symmetry. apply static_init_Permutation; [apply registrations_NoDup|done].
Qed.

(** C32: dispatch.  A pair of formats some class is registered for reaches that
    class, data and shape alike, a null source being accepted for an empty
    tensor only; every other pair is refused with
    [ACL_ERROR_GE_FORMAT_INVALID], by both entry points; and
    [IsTransFormatSupport] says which of the two it is. *)
Theorem dispatch_registered a mem args r :
  let reg := static_init (Formats.registrations a) in
  let k := (src_primary_format args, dst_primary_format args) in
  (forall t, (MakeShared t, k) ∈ Formats.registrations a ->
     Formats.TransDataFormat true reg args r
     = (if bool_decide (data args = None) && negb (GetItemNumByShape (src_shape args) =? 0)
        then Err ACL_ERROR_GE_PARAM_INVALID else TransFormat t args r) /\
     (consistent args ->
      Formats.TransTensorShape true reg (src_format args) (src_shape args) (src_data_type args)
        (dst_format args)
      = TransShape t (src_format args) (src_shape args) (src_data_type args) (dst_format args))) /\
  (k ∉ (Formats.registrations a).*2 ->
   Formats.TransDataFormat mem reg args r = Err ACL_ERROR_GE_FORMAT_INVALID /\
   forall src_format shape data_type dst_format, (GetPrimaryFormat src_format, GetPrimaryFormat dst_format) = k ->
     Formats.TransTensorShape mem reg src_format shape data_type dst_format = Err ACL_ERROR_GE_FORMAT_INVALID) /\
  Formats.IsTransFormatSupport reg args = bool_decide (k ∈ (Formats.registrations a).*2).
Proof.
  intros reg k. unfold Formats.TransDataFormat, Formats.TransTensorShape, BuildFormatTransfer,
    Formats.IsTransFormatSupport, FormatTransferExists.
  rewrite !Generate_find, Exists_find. split_and!.
  - intros t Hin%find_registered. fold reg in Hin. rewrite Hin. split; [done|].
    intros (E1 & E2 & _). by rewrite <- E1, <- E2, Hin.
  - intros Hni%find_unregistered. fold reg in Hni. rewrite Hni. split; [done|].
    intros sf shape dt df Ek. injection Ek as Ek1 Ek2. by rewrite Ek1, Ek2, !Generate_find, Hni.
  - apply bool_decide_ext. split.
    + intros [b Hb]. apply find_static_init in Hb; [|apply registrations_NoDup].
      apply list_elem_of_fmap. by exists (b, k).
    + intros ([b k'] & E & Hin)%list_elem_of_fmap. simpl in E. subst k'. exists b.
      apply find_static_init; [apply registrations_NoDup|done].
Qed.

(** The C04 classes call back into the entry points, and no further: from
    two levels on, the nesting bound does not matter, for any arguments. *)
Theorem dispatch_depth mem depth args r sf shape dt df :
  let api := Formats.api mem in
  @FormatsC04.TransDataFormat (api (2 + depth)%nat) args r
  = @FormatsC04.TransDataFormat (api 2%nat) args r /\
  @FormatsC04.TransTensorShape (api (2 + depth)%nat) sf shape dt df
  = @FormatsC04.TransTensorShape (api 2%nat) sf shape dt df /\
  @FormatsC04.IsTransFormatSupport (api (2 + depth)%nat) args
  = @FormatsC04.IsTransFormatSupport (api 2%nat) args.
Proof.
  intros api. pose proof (registrations_same _ _ (api_same_to_nchw mem depth 0)) as Hr.
  assert (Hf := fun s d => find_related (fun _ => same_builder) _ _ s d Hr).
  change (api (2 + depth)%nat) with
    (Formats.entry_points mem (static_init (Formats.registrations (api (S depth))))).
  change (api 2%nat) with
    (Formats.entry_points mem (static_init (Formats.registrations (api 1%nat)))).
  cbn [Formats.entry_points FormatsC04.TransDataFormat FormatsC04.TransTensorShape
       FormatsC04.IsTransFormatSupport].
  unfold Formats.TransDataFormat, Formats.TransTensorShape, Formats.IsTransFormatSupport,
    BuildFormatTransfer, FormatTransferExists. rewrite !Generate_find, !Exists_find.
  unfold api. split_and!.
  - destruct (Hf (src_primary_format args) (dst_primary_format args)) as [b b' Hb|]; [|done].
    simpl. destruct (Hb mem) as [t t' [Ht _]|]; [|done]. by rewrite Ht.
  - destruct (Hf (GetPrimaryFormat sf) (GetPrimaryFormat df)) as [b b' Hb|]; [|done].
    simpl. destruct (Hb mem) as [t t' [_ Ht]|]; [|done]. by rewrite Ht.
  - destruct (Hf (src_primary_format args) (dst_primary_format args)); [|done].
    by rewrite !bool_decide_eq_true_2 by done.
Qed.
End dispatch.

(** ** Runs *)

Module RunsRegistry.
Import Concrete Sample.

#[local] Instance formats_api : FormatsApi := Formats.api true 2.

Definition c04_args : TransArgs := mk_args 0 13 [1; 2; 1; 2] [1; 1; 16; 16] 1 (seqZ 1 8).

Lemma nchw_to_fz_c04_correct_run :
  exists bs, FzC04.TransFormat c04_args empty_result
             = Ok {| res_data := Some (Some <$> bs); res_length := 512 |}.
Proof.
  destruct (nchw_to_fz_c04_correct c04_args empty_result 1 2 1 2 (seqZ 1 8)) as (bs & E & _);
    [run_hyp..|]. exists bs. exact E.
Defined.

Lemma hwcn_fz_c04_roundtrip_run :
  exists bs,
    FzC04.TransFormatTo4D (with_data (mk_args 13 16 [1; 1; 16; 16] [1; 2; 3; 2] 1 []) bs)
      empty_result
    = Ok {| res_data := Some (Some <$> seqZ 1 24); res_length := 24 |}.
Proof.
  destruct (hwcn_fz_c04_roundtrip (mk_args 16 13 [1; 2; 3; 2] [1; 1; 16; 16] 1 (seqZ 1 24))
    (mk_args 13 16 [1; 1; 16; 16] [1; 2; 3; 2] 1 []) empty_result empty_result
    2 3 1 2 (seqZ 1 24)) as (bs & _ & E); [run_hyp..|]. exists bs. exact E.
Defined.

Lemma registration_order_irrelevant_run :
  Registry.static_init (reverse (Formats.registrations formats_api))
  = Registry.static_init (Formats.registrations formats_api).
Proof. apply (registration_order_irrelevant formats_api), reverse_Permutation. Defined.

Definition nchw_nhwc_args : TransArgs := mk_args 0 1 [1; 2; 1; 2] [1; 1; 2; 2] 2 (seqZ 1 4).
Definition nd_chwn_args : TransArgs := mk_args 2 14 [4] [4] 2 (seqZ 1 4).

Lemma nd_chwn_unregistered i j :
  (i, j) ∈ pairs -> ~ (2 = formats !!! i /\ 14 = formats !!! j).
Proof.
  intros Hin. assert (Hall : Forall (fun p => ~ (2 = formats !!! p.1 /\ 14 = formats !!! p.2)) pairs)
    by (repeat constructor; by intros [? ?]).
  rewrite Forall_forall in Hall. apply (Hall _ Hin).
Qed.

Lemma dispatch_registered_run :
  Formats.TransDataFormat true (Registry.static_init (Formats.registrations formats_api))
    nchw_nhwc_args empty_result
  = TransposeModel.TransFormat nchw_nhwc_args empty_result /\
  Formats.TransDataFormat true (Registry.static_init (Formats.registrations formats_api))
    nd_chwn_args empty_result
  = Err ACL_ERROR_GE_FORMAT_INVALID /\
  Formats.TransTensorShape true (Registry.static_init (Formats.registrations formats_api))
    (src_format nd_chwn_args) (src_shape nd_chwn_args) (src_data_type nd_chwn_args) (dst_format nd_chwn_args)
  = Err ACL_ERROR_GE_FORMAT_INVALID.
Proof.
  destruct (dispatch_registered formats_api true nchw_nhwc_args empty_result) as (Hin & _).
  destruct (dispatch_registered formats_api true nd_chwn_args empty_result) as (_ & Hout & _).
  split.
  - destruct (Hin TransposeModel.transfer) as [E _]; [by apply (list_elem_of_lookup_2 _ 30)|].
    rewrite E. reflexivity.
  - destruct Hout as [E1 E2].
    { rewrite registrations_pairs, list_elem_of_fmap.
      intros ([i j] & E & Hin2). apply nd_chwn_unregistered in Hin2. apply Hin2. by injection E. }
    split; [exact E1|]. apply E2. reflexivity.
Defined.

Lemma dispatch_depth_run :
  @FormatsC04.TransDataFormat (Formats.api true 7) c04_args empty_result
  = @FormatsC04.TransDataFormat formats_api c04_args empty_result.
Proof.
  destruct (dispatch_depth true 5 c04_args empty_result 0 [] 0 0) as (E & _). exact E.
Defined.

(** The way back from FRACTAL_Z_C04 accepts five channels, which the way there
    refuses, and reads the fifth from the place of the first. *)
Example c04_back_aliases_channels :
  FzC04.TransFormat (mk_args 16 13 [1; 1; 5; 1] [1; 1; 16; 32] 2 (seqZ 1 5)) empty_result
  = Err ACL_ERROR_GE_SHAPE_INVALID /\
  FzC04.TransFormatTo4D (mk_args 13 16 [1; 1; 16; 32] [1; 1; 5; 1] 2 (seqZ 1 512)) empty_result
  = Ok {| res_data := Some (Some <$> [1; 2; 3; 4; 1]); res_length := 5 |}.
Proof. vm_compute. done. Qed.

(** An empty tensor fails on the way back, where the comment in
    [TransFormatFzC04ToHwcn] says that it succeeds. *)
Example c04_back_empty_fails :
  FzC04.TransFormatTo4D (mk_args 13 16 [0; 1; 16; 32] [0; 1; 1; 1] 2 []) empty_result
  = Err GRAPH_FAILED.
Proof. vm_compute. reflexivity. Qed.
End RunsRegistry.
