(* ===== verification/MemLink.v ===== *)
(** * MemLink: the intrusive doubly linked list of the memory pools

    [runtime/v2/kernel/memory/util/link.h] and [link_node.h].  A [Link] owns a
    chain [head_] that sits at the address [sentinel()] reinterprets as an
    element, so the list is a ring through the sentinel.  The heap maps an
    address to the two pointers of the chain stored there; the operations read
    and write it in the order of the source, and following the null pointer or
    a dangling one is a [Fault].  The specification is a list of addresses. *)

From S2P Require Import Prelude.

#[local] Set Warnings "-clear-no-such-hyp".

(** An address, and a pointer: [None] is null. *)
Abbreviation addr := positive.
Abbreviation pointer := (option positive).

(** ** link_node.h *)

Record Chain := { next_ : pointer; prev_ : pointer }.

Abbreviation heap := (gmap addr Chain).

(** [p->link_.next_], [p->link_.prev_] and the assignments to them. *)
Definition get_next (p : pointer) (h : heap) : outcome pointer :=
  match p ≫= (fun a => h !! a) with Some c => Ok (next_ c) | None => Fault end.
Definition get_prev (p : pointer) (h : heap) : outcome pointer :=
  match p ≫= (fun a => h !! a) with Some c => Ok (prev_ c) | None => Fault end.
Definition set_next (p q : pointer) (h : heap) : outcome heap :=
  match p with
  | Some a => match h !! a with
              | Some c => Ok (<[a := {| next_ := q; prev_ := prev_ c |}]> h)
              | None => Fault end
  | None => Fault
  end.
Definition set_prev (p q : pointer) (h : heap) : outcome heap :=
  match p with
  | Some a => match h !! a with
              | Some c => Ok (<[a := {| next_ := next_ c; prev_ := q |}]> h)
              | None => Fault end
  | None => Fault
  end.

Module LinkNode.
(** The constructor leaves a node unlinked. *)
Definition fresh : Chain := {| next_ := None; prev_ := None |}.

Definition remove (this : pointer) (h : heap) : outcome heap :=
  p ← get_prev this h;
  n ← get_next this h;
  h ← set_next p n h;
  n ← get_next this h;
  p ← get_prev this h;
  set_prev n p h.

Definition next (this : pointer) (h : heap) : outcome pointer := get_next this h.
Definition prev (this : pointer) (h : heap) : outcome pointer := get_prev this h.
End LinkNode.

(** ** link.h *)

(** [head_] is the chain at [sentinel] in the heap. *)
Record Link := { sentinel : addr; num_ : Z }.

Module LinkOps.
(** [Iterator] keeps the element and its successor; [ReverseIterator] the
    element and its predecessor. *)
Record Iterator := { elem_ : pointer; it_next_ : pointer }.

Definition next_of (elem : pointer) (h : heap) : outcome pointer :=
  match elem with None => Ok None | Some _ => get_next elem h end.
Definition prev_of (elem : pointer) (h : heap) : outcome pointer :=
  match elem with None => Ok None | Some _ => get_prev elem h end.

Definition mk_iterator (elem : pointer) (h : heap) : outcome Iterator :=
  n ← next_of elem h; Ok {| elem_ := elem; it_next_ := n |}.
Definition mk_reverse (elem : pointer) (h : heap) : outcome Iterator :=
  n ← prev_of elem h; Ok {| elem_ := elem; it_next_ := n |}.

(** [operator==] compares the elements only. *)
Definition it_eq (i j : Iterator) : bool := bool_decide (elem_ i = elem_ j).

Definition it_incr (i : Iterator) (h : heap) : outcome Iterator := mk_iterator (it_next_ i) h.
Definition rit_incr (i : Iterator) (h : heap) : outcome Iterator := mk_reverse (it_next_ i) h.

Definition reset (this : Link) (h : heap) : outcome (Link * heap) :=
  h ← set_next (Some (sentinel this)) (Some (sentinel this)) h;
  h ← set_prev (Some (sentinel this)) (Some (sentinel this)) h;
  Ok ({| sentinel := sentinel this; num_ := 0 |}, h).

Definition empty (this : Link) (h : heap) : outcome bool :=
  n ← get_next (Some (sentinel this)) h; Ok (bool_decide (n = Some (sentinel this))).

Definition size (this : Link) : Z := num_ this.

Definition begin_ (this : Link) (h : heap) : outcome Iterator :=
  n ← get_next (Some (sentinel this)) h; mk_iterator n h.
Definition end_ (this : Link) (h : heap) : outcome Iterator :=
  mk_iterator (Some (sentinel this)) h.
Definition rbegin (this : Link) (h : heap) : outcome Iterator :=
  p ← get_prev (Some (sentinel this)) h; mk_reverse p h.
Definition rend (this : Link) (h : heap) : outcome Iterator :=
  mk_reverse (Some (sentinel this)) h.

(** [Link::next_of(Iterator &)]. *)
Definition next_iterator (this : Link) (i : Iterator) (h : heap) : outcome Iterator :=
  e ← end_ this h; if it_eq i e then Ok e else it_incr i h.

Definition is_back (this : Link) (elem : pointer) (h : heap) : outcome bool :=
  p ← get_prev (Some (sentinel this)) h; Ok (bool_decide (elem = p)).
Definition is_front (this : Link) (elem : pointer) (h : heap) : outcome bool :=
  n ← get_next (Some (sentinel this)) h; Ok (bool_decide (elem = n)).

Definition front (this : Link) (h : heap) : outcome pointer :=
  e ← empty this h; if e : bool then Ok None else get_next (Some (sentinel this)) h.
Definition back (this : Link) (h : heap) : outcome pointer :=
  e ← empty this h; if e : bool then Ok None else get_prev (Some (sentinel this)) h.

Definition add_num (this : Link) (n : Z) : Link :=
  {| sentinel := sentinel this; num_ := uwrap 64 (num_ this + n) |}.

Definition push_back (this : Link) (elem : addr) (h : heap) : outcome (Link * heap) :=
  let s := Some (sentinel this) in
  h ← set_next (Some elem) s h;
  p ← get_prev s h;
  h ← set_prev (Some elem) p h;
  p ← get_prev s h;
  h ← set_next p (Some elem) h;
  h ← set_prev s (Some elem) h;
  Ok (add_num this 1, h).

Definition push_front (this : Link) (elem : addr) (h : heap) : outcome (Link * heap) :=
  let s := Some (sentinel this) in
  h ← set_prev (Some elem) s h;
  n ← get_next s h;
  h ← set_next (Some elem) n h;
  n ← get_next s h;
  h ← set_prev n (Some elem) h;
  h ← set_next s (Some elem) h;
  Ok (add_num this 1, h).

Definition remove (this : Link) (elem : pointer) (h : heap) : outcome (Link * heap) :=
  h ← LinkNode.remove elem h; Ok (add_num this (-1), h).

Definition erase (this : Link) (elem : Iterator) (h : heap) : outcome (Link * heap) :=
  match elem_ elem with None => Ok (this, h) | Some _ => remove this (elem_ elem) h end.

Definition pop_front (this : Link) (h : heap) : outcome (pointer * (Link * heap)) :=
  i ← begin_ this h;
  e ← end_ this h;
  if it_eq i e then Ok (None, (this, h)) else
  s ← erase this i h;
  Ok (elem_ i, s).

(** [while (pop_front() != nullptr) {}]; a loop that outlives its fuel is a
    [Fault]. *)
Fixpoint clear (fuel : nat) (this : Link) (h : heap) : outcome (Link * heap) :=
  match fuel with
  | O => Fault
  | S fuel =>
    '(p, (this, h)) ← pop_front this h;
    match p with None => Ok (this, h) | Some _ => clear fuel this h end
  end.

Definition concat (this other : Link) (h : heap) : outcome (Link * Link * heap) :=
  let s := Some (sentinel this) in
  let o := Some (sentinel other) in
  e ← empty other h;
  if e : bool then Ok (this, other, h) else
  p ← get_prev o h;
  h ← set_next p s h;
  n ← get_next o h;
  h ← set_prev n s h;
  p ← get_prev s h;
  n ← get_next o h;
  h ← set_next p n h;
  p ← get_prev o h;
  h ← set_prev s p h;
  let this := add_num this (size other) in
  '(other, h) ← reset other h;
  Ok (this, other, h).

(** Move assignment: [if (this != &other) { reset(); concat(other); }]. *)
Definition move_assign (this other : Link) (h : heap) : outcome (Link * Link * heap) :=
  if bool_decide (sentinel this = sentinel other) then Ok (this, other, h) else
  '(this, h) ← reset this h;
  concat this other h.
End LinkOps.

(** ** Rings *)

Section rings.
Implicit Types (h : heap) (a b s x y : addr) (l p : list addr).

Definition nxt h a : pointer := h !! a ≫= next_.
Definition prv h a : pointer := h !! a ≫= prev_.

(** Adjacent nodes. *)
Definition joined h a b : Prop := nxt h a = Some b /\ prv h b = Some a.

Fixpoint path h p : Prop :=
  match p with
  | a :: (b :: _) as p' => joined h a b /\ path h p'
  | _ => True
  end.

(** The list [l] hangs off the sentinel [s]. *)
Definition ring h s l : Prop := NoDup (s :: l) /\ path h (s :: l ++ [s]).

Lemma path_app h p a q : path h (p ++ a :: q) <-> path h (p ++ [a]) /\ path h (a :: q).
Proof.
  induction p as [|b p IH]; simpl; [tauto|]. destruct p as [|c p]; simpl in *; [tauto|].
  rewrite IH. tauto.
Qed.

(** A path reads the successors of all its nodes but the last and the
    predecessors of all but the first. *)
Lemma path_frame h h' a p :
  path h (a :: p) ->
  (forall y, y ∈ removelast (a :: p) -> nxt h' y = nxt h y) ->
  (forall y, y ∈ p -> prv h' y = prv h y) -> path h' (a :: p).
Proof.
  revert a. induction p as [|b p IH]; intros a; [done|].
  cbn [path]. intros [[Hn Hp] Hq] Hnx Hpv. split; [split|].
  - rewrite Hnx; [done|]. simpl. by left.
  - rewrite Hpv; [done|]. by left.
  - apply IH; [done| |].
    + intros y Hy. apply Hnx. simpl in *. by right.
    + intros y Hy. apply Hpv. by right.
Qed.

Lemma removelast_snoc {A} (q : list A) z : removelast (q ++ [z]) = q.
Proof. induction q as [|c q IH]; simpl; [done|]. rewrite IH. by destruct q. Qed.

(** Replacing what lies between [a], the last node of [s :: l1], and [b], the
    first of [l2 ++ [s]]. *)
Lemma ring_splice h h' s l1 mid l2 q a b p :
  NoDup (s :: l1 ++ mid ++ l2) -> s :: l1 = q ++ [a] -> l2 ++ [s] = b :: p ->
  path h (s :: l1) -> path h (l2 ++ [s]) -> path h' (a :: mid ++ [b]) ->
  (forall y, y <> a -> y ∉ mid -> nxt h' y = nxt h y) ->
  (forall y, y <> b -> y ∉ mid -> prv h' y = prv h y) ->
  ring h' s (l1 ++ mid ++ l2).
Proof.
  intros Hnd Ea Eb H1 H2 Hmid Hn Hp. split; [done|].
  assert (Hnd' : NoDup (s :: l1 ++ mid ++ l2)) by done.
  apply NoDup_cons in Hnd as [Hs Hnd]. apply NoDup_app in Hnd as (Hnd1 & Hd1 & Hnd2).
  apply NoDup_app in Hnd2 as (Hndm & Hdm & Hnd2).
  assert (Hnda : NoDup (q ++ [a])).
  { rewrite <- Ea. apply NoDup_cons. split; [set_solver|done]. }
  assert (Hndb : NoDup (b :: p)).
  { rewrite <- Eb. apply NoDup_app. split_and!; [done|set_solver|apply NoDup_singleton]. }
  apply NoDup_app in Hnda as (_ & Hqa & _). apply NoDup_cons in Hndb as [Hbp _].
  assert (Ha : a ∈ s :: l1) by (rewrite Ea; set_solver).
  assert (Hb : b ∈ l2 ++ [s]) by (rewrite Eb; set_solver).
  assert (El : s :: (l1 ++ mid ++ l2) ++ [s] = q ++ a :: mid ++ b :: p).
  { transitivity ((s :: l1) ++ mid ++ l2 ++ [s]); [simpl; by rewrite <- !app_assoc|].
    by rewrite Ea, Eb, <- app_assoc. }
  rewrite El.
  apply path_app. split; [|apply (path_app _ (a :: mid)); split; [done|]].
  - rewrite <- Ea. apply (path_frame h); [done| |].
    + rewrite Ea, removelast_snoc. intros y Hy. apply Hn; [intros ->; by apply (Hqa a Hy); set_solver|].
      assert (y ∈ s :: l1) by (rewrite Ea; set_solver). set_solver.
    + intros y Hy. apply Hp; [intros ->|]; set_solver.
  - rewrite <- Eb. rewrite Eb in H2 |- *. apply (path_frame h); [done| |].
    + rewrite <- Eb, removelast_snoc. intros y Hy. apply Hn; [intros ->|]; set_solver.
    + intros y Hy. assert (y ∈ l2 ++ [s]) by (rewrite Eb; set_solver).
      apply Hp; [congruence|set_solver].
Qed.
End rings.

(** ** Heap updates *)

Section updates.
Implicit Types (h : heap) (a b s x y z : addr) (l p : list addr) (q : pointer).

Definition valid h a : Prop := is_Some (h !! a).

Definition upd_next a q h : heap := alter (fun c => {| next_ := q; prev_ := prev_ c |}) a h.
Definition upd_prev a q h : heap := alter (fun c => {| next_ := next_ c; prev_ := q |}) a h.

Lemma get_next_ok h a : valid h a -> get_next (Some a) h = Ok (nxt h a).
Proof. intros [c Hc]. unfold get_next, nxt. simpl. by rewrite Hc. Qed.

Lemma get_prev_ok h a : valid h a -> get_prev (Some a) h = Ok (prv h a).
Proof. intros [c Hc]. unfold get_prev, prv. simpl. by rewrite Hc. Qed.

Lemma set_next_ok h a q : valid h a -> set_next (Some a) q h = Ok (upd_next a q h).
Proof.
  intros [c Hc]. unfold set_next, upd_next. rewrite Hc. f_equal. apply map_eq. intros y.
  destruct (decide (y = a)) as [->|].
  - by rewrite lookup_insert_eq, lookup_alter_eq, Hc.
  - by rewrite lookup_insert_ne, lookup_alter_ne.
Qed.

Lemma set_prev_ok h a q : valid h a -> set_prev (Some a) q h = Ok (upd_prev a q h).
Proof.
  intros [c Hc]. unfold set_prev, upd_prev. rewrite Hc. f_equal. apply map_eq. intros y.
  destruct (decide (y = a)) as [->|].
  - by rewrite lookup_insert_eq, lookup_alter_eq, Hc.
  - by rewrite lookup_insert_ne, lookup_alter_ne.
Qed.

Lemma valid_upd_next h a q y : valid (upd_next a q h) y <-> valid h y.
Proof. unfold valid, upd_next. rewrite lookup_alter_is_Some. done. Qed.

Lemma valid_upd_prev h a q y : valid (upd_prev a q h) y <-> valid h y.
Proof. unfold valid, upd_prev. rewrite lookup_alter_is_Some. done. Qed.

Lemma nxt_upd_next_eq h a q : valid h a -> nxt (upd_next a q h) a = q.
Proof. intros [c Hc]. unfold nxt, upd_next. by rewrite lookup_alter_eq, Hc. Qed.

Lemma nxt_upd_next_ne h a q y : y <> a -> nxt (upd_next a q h) y = nxt h y.
Proof. intros. unfold nxt, upd_next. by rewrite lookup_alter_ne. Qed.

Lemma prv_upd_next h a q y : prv (upd_next a q h) y = prv h y.
Proof.
  unfold prv, upd_next. destruct (decide (y = a)) as [->|]; [|by rewrite lookup_alter_ne].
  rewrite lookup_alter_eq. by destruct (h !! a).
Qed.

Lemma prv_upd_prev_eq h a q : valid h a -> prv (upd_prev a q h) a = q.
Proof. intros [c Hc]. unfold prv, upd_prev. by rewrite lookup_alter_eq, Hc. Qed.

Lemma prv_upd_prev_ne h a q y : y <> a -> prv (upd_prev a q h) y = prv h y.
Proof. intros. unfold prv, upd_prev. by rewrite lookup_alter_ne. Qed.

Lemma nxt_upd_prev h a q y : nxt (upd_prev a q h) y = nxt h y.
Proof.
  unfold nxt, upd_prev. destruct (decide (y = a)) as [->|]; [|by rewrite lookup_alter_ne].
  rewrite lookup_alter_eq. by destruct (h !! a).
Qed.

(** Nothing outside [l] changed. *)
Definition only l h h' : Prop :=
  (forall y, y ∉ l -> h' !! y = h !! y) /\ (forall y, valid h' y <-> valid h y).

Lemma only_refl l h : only l h h.
Proof. done. Qed.

Lemma only_upd_next l h h' a q : a ∈ l -> only l h h' -> only l h (upd_next a q h').
Proof.
  intros Ha [Ho Hv]. split.
  - intros y Hy. unfold upd_next. rewrite lookup_alter_ne by congruence. by apply Ho.
  - intros y. rewrite valid_upd_next. apply Hv.
Qed.

Lemma only_upd_prev l h h' a q : a ∈ l -> only l h h' -> only l h (upd_prev a q h').
Proof.
  intros Ha [Ho Hv]. split.
  - intros y Hy. unfold upd_prev. rewrite lookup_alter_ne by congruence. by apply Ho.
  - intros y. rewrite valid_upd_prev. apply Hv.
Qed.

(** A ring depends on its own nodes only. *)
Lemma only_ring l h h' s l' :
  only l h h' -> (forall y, y ∈ s :: l' -> y ∉ l) -> ring h s l' -> ring h' s l'.
Proof.
  intros [Ho _] Hd [Hnd Hp]. split; [done|]. apply (path_frame h); [done| |].
  - intros y Hy. unfold nxt. rewrite Ho; [done|]. apply Hd.
    rewrite app_comm_cons, removelast_snoc in Hy. done.
  - intros y Hy. unfold prv. rewrite Ho; [done|]. apply Hd. set_solver.
Qed.

Lemma joined_valid h a b : joined h a b -> valid h a /\ valid h b.
Proof.
  unfold joined, nxt, prv, valid. destruct (h !! a), (h !! b); simpl; naive_solver.
Qed.

Lemma path_valid h a p : path h (a :: p) -> p <> [] -> Forall (valid h) (a :: p).
Proof.
  revert a. induction p as [|b p IH]; intros a Hp Hne; [done|]. cbn [path] in Hp.
  destruct Hp as [[Ha Hb]%joined_valid Hp]. constructor; [done|].
  destruct p; [by repeat constructor|]. by apply IH.
Qed.

Lemma ring_valid h s l y : ring h s l -> y ∈ s :: l -> valid h y.
Proof.
  intros [_ Hp]%id Hy. apply path_valid in Hp; [|by destruct l].
  rewrite Forall_forall in Hp. apply Hp. set_solver.
Qed.

(** The two ends of a ring. *)
Lemma ring_first h s l b p : ring h s l -> l ++ [s] = b :: p -> joined h s b /\ path h (l ++ [s]).
Proof. intros [_ Hp] E. change (s :: l ++ [s]) with ([s] ++ l ++ [s]) in Hp. rewrite E in *. apply Hp. Qed.

Lemma ring_last h s l a p : ring h s l -> s :: l = p ++ [a] -> joined h a s /\ path h (s :: l).
Proof.
  intros [_ Hp] E. change (s :: l ++ [s]) with ((s :: l) ++ [s]) in Hp. rewrite E in *.
  rewrite <- app_assoc in Hp. apply path_app in Hp as [Hq Hp]. split; [apply Hp|done].
Qed.

Lemma snoc_of (s : addr) l : exists p a, s :: l = p ++ [a].
Proof. destruct l as [|x l] using rev_ind; [by exists [], s|]. by exists (s :: l), x. Qed.

Lemma cons_of (s : addr) l : exists b p, l ++ [s] = b :: p.
Proof. destruct l as [|x l]; [by exists s, []|]. by exists x, (l ++ [s]). Qed.
End updates.

#[export] Hint Resolve only_refl only_upd_next only_upd_prev : ge_db.

(** ** Running heap programs *)

Ltac heap_valid := repeat first [rewrite valid_upd_next | rewrite valid_upd_prev]; done.

(** Values read after writes elsewhere. *)
Ltac heap_simp :=
  repeat first
    [ rewrite prv_upd_next | rewrite nxt_upd_prev
    | rewrite nxt_upd_next_eq by heap_valid | rewrite prv_upd_prev_eq by heap_valid
    | rewrite nxt_upd_next_ne by congruence | rewrite prv_upd_prev_ne by congruence ].

(** Step through reads and writes; [rw] rewrites the values read. *)
Ltac heap_run rw :=
  repeat (first
    [ rewrite get_next_ok by heap_valid | rewrite get_prev_ok by heap_valid
    | rewrite set_next_ok by heap_valid | rewrite set_prev_ok by heap_valid ];
    heap_simp; rw; cbn [mbind outcome_bind]).

Ltac only_tac :=
  repeat first [apply only_upd_prev; [set_solver|] | apply only_upd_next; [set_solver|]]; done.

(** ** Operations *)

(** [L] holds the elements [l]; the counter is a [size_t]. *)
Definition is_link (h : heap) (L : Link) (l : list addr) : Prop :=
  ring h (sentinel L) l /\ num_ L = uwrap 64 (zlen l).

Section operations.
Implicit Types (h : heap) (x y : addr) (l : list addr) (L : Link).
Import LinkOps.

Lemma uwrap_add n k : uwrap 64 (uwrap 64 n + k) = uwrap 64 (n + k).
Proof. unfold uwrap. apply Zplus_mod_idemp_l. Qed.

Lemma push_back_ok h L l x :
  is_link h L l -> x ∉ sentinel L :: l -> valid h x ->
  wp (push_back L x h) (fun '(L', h') =>
    sentinel L' = sentinel L /\ is_link h' L' (l ++ [x]) /\ only (x :: sentinel L :: l) h h').
Proof.
  intros [Hr Hnum] Hx Hvx. set (s := sentinel L) in *.
  destruct (snoc_of s l) as (p & a & Ea). destruct (ring_last _ _ _ _ _ Hr Ea) as [[Hna Hpa] Hp].
  assert (Hvs : valid h s) by (eapply ring_valid; [done|]; by left).
  assert (Ha : a ∈ s :: l) by (rewrite Ea; set_solver).
  assert (Hva : valid h a) by (by eapply ring_valid).
  assert (x <> s /\ x <> a) as [Hxs Hxa] by (split; intros ->; done || set_solver).
  unfold push_back. fold s. heap_run ltac:(rewrite ?Hpa).
  apply wp_ret. cbv beta iota. split; [done|]. split; [split|].
  - apply (ring_splice h _ s l [x] [] p a s []); try done.
    + apply NoDup_cons. destruct Hr as [[Hs Hnd]%NoDup_cons _]. split; [set_solver|].
      apply NoDup_app. split_and!; [done|set_solver|apply NoDup_singleton].
    + split; [split|split; [split|done]]; by heap_simp.
    + intros y Hya Hy. heap_simp. rewrite nxt_upd_next_ne by set_solver. by heap_simp.
    + intros y Hys Hy. heap_simp. rewrite prv_upd_prev_ne by set_solver. by heap_simp.
  - simpl. by rewrite Hnum, uwrap_add, zlen_app.
  - only_tac.
Qed.

Lemma push_front_ok h L l x :
  is_link h L l -> x ∉ sentinel L :: l -> valid h x ->
  wp (push_front L x h) (fun '(L', h') =>
    sentinel L' = sentinel L /\ is_link h' L' (x :: l) /\ only (x :: sentinel L :: l) h h').
Proof.
  intros [Hr Hnum] Hx Hvx. set (s := sentinel L) in *.
  destruct (cons_of s l) as (b & p & Eb). destruct (ring_first _ _ _ _ _ Hr Eb) as [[Hnb Hpb] Hp].
  assert (Hvs : valid h s) by (eapply ring_valid; [done|]; by left).
  assert (Hb : b ∈ s :: l) by (assert (b ∈ l ++ [s]) by (rewrite Eb; set_solver); set_solver).
  assert (Hvb : valid h b) by (by eapply ring_valid).
  assert (x <> s /\ x <> b) as [Hxs Hxb] by (split; intros ->; done || set_solver).
  unfold push_front. fold s. heap_run ltac:(rewrite ?Hnb).
  apply wp_ret. cbv beta iota. split; [done|]. split; [split|].
  - apply (ring_splice h _ s [] [x] l [] s b p); try done.
    + destruct Hr as [[Hs Hnd]%NoDup_cons _].
      apply NoDup_cons. split; [set_solver|]. apply NoDup_cons. split; [set_solver|done].
    + split; [split|split; [split|done]]; by heap_simp.
    + intros y Hys Hy. heap_simp. rewrite nxt_upd_next_ne by set_solver. by heap_simp.
    + intros y Hyb Hy. heap_simp. rewrite prv_upd_prev_ne by set_solver. by heap_simp.
  - simpl. rewrite Hnum, uwrap_add. f_equal. unfold zlen. simpl. lia.
  - only_tac.
Qed.

(** Unlinking an element. *)
Lemma remove_ok h L l1 x l2 :
  is_link h L (l1 ++ x :: l2) ->
  wp (remove L (Some x) h) (fun '(L', h') =>
    sentinel L' = sentinel L /\ is_link h' L' (l1 ++ l2) /\
    only (sentinel L :: l1 ++ x :: l2) h h').
Proof.
  intros [Hr Hnum]. set (s := sentinel L) in *.
  destruct (snoc_of s l1) as (q & a & Ea). destruct (cons_of s l2) as (b & p & Eb).
  pose proof Hr as [Hnd Hpath].
  assert (Hpath' : path h ((s :: l1) ++ x :: l2 ++ [s]))
    by (by rewrite <- app_comm_cons; rewrite <- app_assoc in Hpath).
  rewrite Ea, Eb, <- app_assoc in Hpath'. apply path_app in Hpath' as [H1 [[Hna Hpx] [[Hnx Hpb] H2]]].
  rewrite <- Ea in H1. rewrite <- Eb in H2.
  assert (Ha : a ∈ s :: l1) by (rewrite Ea; set_solver).
  assert (Hb : b ∈ l2 ++ [s]) by (rewrite Eb; set_solver).
  rewrite NoDup_cons, NoDup_app, NoDup_cons in Hnd. destruct Hnd as (Hs & Hnd1 & Hd & Hx & Hnd2).
  assert (x <> s) by set_solver. assert (x ∉ l1) by set_solver.
  assert (x <> a /\ x <> b) as [Hxa Hxb] by (split; intros ->; set_solver).
  assert (Hv : forall y, y ∈ s :: l1 ++ x :: l2 -> valid h y) by (intros; by eapply ring_valid).
  assert (Hva : valid h a) by (apply Hv; set_solver). assert (Hvb : valid h b) by (apply Hv; set_solver).
  assert (Hvx : valid h x) by (apply Hv; set_solver).
  unfold remove, LinkNode.remove. heap_run ltac:(rewrite ?Hpx, ?Hnx).
  apply wp_ret. cbv beta iota. split; [done|]. split; [split|].
  - apply (ring_splice h _ s l1 [] l2 q a b p); try done.
    + simpl. rewrite NoDup_cons, NoDup_app. split_and!; [set_solver|done|set_solver|done].
    + split; [split|done]; by heap_simp.
    + intros y Hya _. by heap_simp.
    + intros y Hyb _. by heap_simp.
  - simpl. rewrite Hnum, uwrap_add. f_equal. rewrite !zlen_app. unfold zlen. simpl. lia.
  - only_tac.
Qed.
End operations.

(** ** Reading a list *)

Section reading.
Implicit Types (h : heap) (x y : addr) (l : list addr) (L : Link).
Import LinkOps.

Lemma link_valid h L l y : is_link h L l -> y ∈ sentinel L :: l -> valid h y.
Proof. intros [Hr _]. by apply ring_valid. Qed.

Lemma link_notin h L l : is_link h L l -> sentinel L ∉ l.
Proof. by intros [[[? _]%NoDup_cons _] _]. Qed.

Lemma link_NoDup h L l : is_link h L l -> NoDup l.
Proof. by intros [[[_ ?]%NoDup_cons _] _]. Qed.

(** The successor of a node is the next one, or the sentinel. *)
Lemma link_next h L l1 x l2 :
  is_link h L (l1 ++ x :: l2) -> nxt h x = Some (default (sentinel L) (head l2)).
Proof.
  intros [[_ Hp] _]. rewrite <- app_assoc, app_comm_cons in Hp.
  apply path_app in Hp as [_ Hp]. destruct l2; apply Hp.
Qed.

Lemma link_prev h L l1 x l2 :
  is_link h L (l1 ++ x :: l2) -> prv h x = Some (default (sentinel L) (last l1)).
Proof.
  intros [[_ Hp] _]. rewrite <- app_assoc, app_comm_cons in Hp.
  destruct l1 as [|y l1 _] using rev_ind; [apply Hp|].
  rewrite app_comm_cons, <- app_assoc in Hp. apply path_app in Hp as [_ [[_ Hy] _]].
  by rewrite last_snoc.
Qed.

Lemma link_front h L l : is_link h L l -> nxt h (sentinel L) = Some (default (sentinel L) (head l)).
Proof. intros [[_ Hp] _]. destruct l; apply Hp. Qed.

Lemma link_back h L l : is_link h L l -> prv h (sentinel L) = Some (default (sentinel L) (last l)).
Proof.
  intros [Hr _]. destruct (snoc_of (sentinel L) l) as (p & a & Ea).
  destruct (ring_last _ _ _ _ _ Hr Ea) as [[_ Hp] _]. rewrite Hp. f_equal.
  destruct l as [|y l _] using rev_ind; [by destruct p as [|? []]; simplify_eq/=|].
  rewrite app_comm_cons in Ea. apply app_inj_tail in Ea as [_ <-]. by rewrite last_snoc.
Qed.

Lemma empty_ok h L l : is_link h L l -> empty L h = Ok (bool_decide (l = [])).
Proof.
  intros Hl. unfold empty. rewrite get_next_ok by (eapply link_valid; [done|]; by left).
  rewrite (link_front _ _ _ Hl). cbn [mbind outcome_bind]. f_equal. apply bool_decide_ext.
  destruct l as [|x l]; simpl; [done|]. split; [|done]. intros [= ->].
  by apply link_notin in Hl; set_solver.
Qed.

Lemma front_ok h L l : is_link h L l -> front L h = Ok (head l).
Proof.
  intros Hl. unfold front. rewrite (empty_ok _ _ _ Hl). cbn [mbind outcome_bind].
  destruct l as [|x l]; [done|]. rewrite bool_decide_eq_false_2 by done.
  rewrite get_next_ok by (eapply link_valid; [done|]; by left). by rewrite (link_front _ _ _ Hl).
Qed.

Lemma back_ok h L l : is_link h L l -> back L h = Ok (last l).
Proof.
  intros Hl. unfold back. rewrite (empty_ok _ _ _ Hl). cbn [mbind outcome_bind].
  destruct l as [|x l _] using rev_ind; [done|]. rewrite bool_decide_eq_false_2 by (by destruct l).
  rewrite get_prev_ok by (eapply link_valid; [done|]; by left).
  rewrite (link_back _ _ _ Hl). by rewrite last_snoc.
Qed.

(** [pop_front] takes the first element, or reports an empty list. *)
Lemma pop_front_ok h L l :
  is_link h L l ->
  wp (pop_front L h) (fun '(p, (L', h')) =>
    p = head l /\ sentinel L' = sentinel L /\ is_link h' L' (tail l) /\ only (sentinel L :: l) h h').
Proof.
  intros Hl. unfold pop_front, begin_, end_, mk_iterator.
  assert (Hvs : valid h (sentinel L)) by (eapply link_valid; [done|]; by left).
  rewrite get_next_ok by done. rewrite (link_front _ _ _ Hl). cbn [mbind outcome_bind next_of].
  assert (Hv : valid h (default (sentinel L) (head l)))
    by (eapply link_valid; [done|]; destruct l; set_solver).
  rewrite !get_next_ok by done. cbn [mbind outcome_bind]. unfold it_eq. cbn [elem_].
  destruct l as [|x l]; simpl default.
  - rewrite bool_decide_eq_true_2 by done. simpl. done.
  - rewrite bool_decide_eq_false_2
      by (intros [= ->]; by apply link_notin in Hl; set_solver).
    unfold erase. cbn [elem_]. apply wp_bind. eapply wp_mono; [by apply (remove_ok h L [] x l)|].
    intros [L' h'] (? & ? & ?). simpl. done.
Qed.

Lemma clear_ok fuel h L l :
  is_link h L l -> (length l < fuel)%nat ->
  wp (clear fuel L h) (fun '(L', h') =>
    sentinel L' = sentinel L /\ is_link h' L' [] /\ only (sentinel L :: l) h h').
Proof.
  revert h L l. induction fuel as [|fuel IH]; intros h L l Hl Hf; [lia|]. cbn [clear].
  apply wp_bind. eapply wp_mono; [by apply pop_front_ok|].
  intros [p [L1 h1]] (-> & Es & Hl1 & Ho). destruct l as [|x l]; simpl head; [done|].
  eapply wp_mono; [apply (IH h1 L1 l); [done|simpl in Hf; lia]|].
  intros [L2 h2] (Es2 & Hl2 & Ho2). split; [congruence|]. split; [done|].
  destruct Ho as [Ho Hv], Ho2 as [Ho2 Hv2]. rewrite Es in Ho2. split.
  - intros y Hy. rewrite Ho2, Ho; set_solver.
  - intros y. rewrite Hv2. apply Hv.
Qed.

(** [for (i = from; i != to; ++i)], the elements met. *)
Fixpoint visit (incr : Iterator -> heap -> outcome Iterator) (fuel : nat) (i to : Iterator)
    (h : heap) : outcome (list pointer) :=
  match fuel with
  | O => Fault
  | S fuel =>
    if it_eq i to then Ok [] else
    j ← incr i h; rest ← visit incr fuel j to h; Ok (elem_ i :: rest)
  end.

Lemma visit_forward fuel h L l1 l2 :
  is_link h L (l1 ++ l2) -> (length l2 < fuel)%nat ->
  (i ← mk_iterator (Some (default (sentinel L) (head l2))) h;
   e ← end_ L h; visit it_incr fuel i e h) = Ok (Some <$> l2).
Proof.
  revert l1 l2. induction fuel as [|fuel IH]; intros l1 l2 Hl Hf; [lia|].
  assert (Hvs : valid h (sentinel L)) by (eapply link_valid; [done|]; by left).
  unfold end_, mk_iterator, next_of. destruct l2 as [|x l2].
  - simpl default. rewrite !get_next_ok by done. cbn [mbind outcome_bind visit]. unfold it_eq.
    by rewrite bool_decide_eq_true_2 by done.
  - simpl default. rewrite (get_next_ok _ x) by (eapply link_valid; [done|]; set_solver).
    rewrite get_next_ok by done. cbn [mbind outcome_bind visit]. unfold it_eq. cbn [elem_].
    rewrite bool_decide_eq_false_2 by (intros [= ->]; apply link_notin in Hl; set_solver).
    change (it_incr _ h) with (mk_iterator (nxt h x) h). rewrite (link_next _ _ _ _ _ Hl).
    specialize (IH (l1 ++ [x]) l2). rewrite <- app_assoc in IH. specialize (IH Hl).
    unfold end_, mk_iterator, next_of in IH |- *. simpl in Hf. specialize (IH ltac:(lia)).
    destruct (get_next (Some (default (sentinel L) (head l2))) h) as [n| |]; [|done..].
    cbn [mbind outcome_bind] in *. rewrite get_next_ok in IH by done.
    cbn [mbind outcome_bind] in IH. rewrite IH. done.
Qed.

Lemma visit_backward fuel h L l1 l2 :
  is_link h L (l1 ++ l2) -> (length l1 < fuel)%nat ->
  (i ← mk_reverse (Some (default (sentinel L) (last l1))) h;
   e ← rend L h; visit rit_incr fuel i e h) = Ok (Some <$> reverse l1).
Proof.
  revert l1 l2. induction fuel as [|fuel IH]; intros l1 l2 Hl Hf; [lia|].
  assert (Hvs : valid h (sentinel L)) by (eapply link_valid; [done|]; by left).
  unfold rend, mk_reverse, prev_of. destruct l1 as [|x l1 _] using rev_ind.
  - simpl default. rewrite !get_prev_ok by done. cbn [mbind outcome_bind visit]. unfold it_eq.
    by rewrite bool_decide_eq_true_2 by done.
  - rewrite last_snoc. simpl default. rewrite <- app_assoc in Hl. simpl in Hl.
    rewrite (get_prev_ok _ x) by (eapply link_valid; [done|]; set_solver).
    rewrite get_prev_ok by done. cbn [mbind outcome_bind visit]. unfold it_eq. cbn [elem_].
    rewrite bool_decide_eq_false_2 by (intros [= ->]; apply link_notin in Hl; set_solver).
    change (rit_incr _ h) with (mk_reverse (prv h x) h). rewrite (link_prev _ _ _ _ _ Hl).
    specialize (IH l1 (x :: l2) Hl). rewrite length_app in Hf. simpl in Hf.
    unfold rend, mk_reverse, prev_of in IH |- *. specialize (IH ltac:(lia)).
    destruct (get_prev (Some (default (sentinel L) (last l1))) h) as [n| |]; [|done..].
    cbn [mbind outcome_bind] in *. rewrite get_prev_ok in IH by done.
    cbn [mbind outcome_bind] in IH. rewrite IH, reverse_snoc. done.
Qed.
End reading.

(** ** Moving a list *)

Section moving.
Implicit Types (h : heap) (x y : addr) (l : list addr) (L : Link).
Import LinkOps.

Lemma reset_ok h L :
  valid h (sentinel L) ->
  wp (reset L h) (fun '(L', h') =>
    sentinel L' = sentinel L /\ is_link h' L' [] /\ only [sentinel L] h h').
Proof.
  intros Hv. unfold reset. heap_run idtac. apply wp_ret. cbv beta iota. split; [done|].
  split; [split|].
  - split; [apply NoDup_singleton|]. split; [split|done]; by heap_simp.
  - done.
  - apply only_upd_prev; [by left|]. apply only_upd_next; [by left|]. done.
Qed.

(** Taking over all elements of another list, from an empty one. *)
Lemma concat_empty_ok h L M l :
  is_link h L [] -> is_link h M l -> sentinel L ∉ sentinel M :: l ->
  wp (concat L M h) (fun '(L', M', h') =>
    sentinel L' = sentinel L /\ sentinel M' = sentinel M /\ is_link h' L' l /\ is_link h' M' [] /\
    only (sentinel L :: sentinel M :: l) h h').
Proof.
  intros HL HM Hd. unfold concat. rewrite (empty_ok _ _ _ HM). cbn [mbind outcome_bind].
  destruct l as [|x l]; [by rewrite bool_decide_eq_true_2|].
  rewrite bool_decide_eq_false_2 by done.
  set (s := sentinel L) in *. set (o := sentinel M) in *.
  pose proof HM as [HrM HnM]. pose proof HL as [HrL HnL]. fold o in HrM. fold s in HrL.
  destruct (snoc_of x l) as (q & z & Ez).
  destruct (ring_first _ _ _ x (l ++ [o]) HrM eq_refl) as [[Hno Hpx] Hp].
  assert (Hz : o :: x :: l = (o :: q) ++ [z]) by (rewrite Ez; done).
  destruct (ring_last _ _ _ _ _ HrM Hz) as [[Hnz Hpo] _].
  destruct HrL as [_ [[Hns Hps] _]].
  assert (Hzin : z ∈ x :: l) by (rewrite Ez; set_solver).
  assert (Hv : forall y, y ∈ o :: x :: l -> valid h y) by (intros; by eapply ring_valid).
  assert (Hvo : valid h o) by (apply Hv; by left). assert (Hvx : valid h x) by (apply Hv; set_solver).
  assert (Hvz : valid h z) by (apply Hv; set_solver).
  assert (Hvs : valid h s) by (eapply link_valid; [exact HL|]; by left).
  destruct HrM as [HndM HpM]. apply NoDup_cons in HndM as [HoM HndM].
  assert (s <> o /\ s <> x /\ s <> z /\ o <> x /\ o <> z) as (?&?&?&?&?)
    by (split_and!; intros ->; set_solver).
  heap_run ltac:(rewrite ?Hpo, ?Hno, ?Hps). unfold reset. cbn [add_num sentinel].
  fold o. heap_run idtac. apply wp_ret. cbv beta iota. split; [done|]. split; [done|].
  match goal with |- is_link ?g _ _ /\ _ => set (h' := g) end.
  assert (Hn' : forall y, y <> z -> y <> s -> y <> o -> nxt h' y = nxt h y)
    by (intros; unfold h'; by heap_simp).
  assert (Hp' : forall y, y <> x -> y <> s -> y <> o -> prv h' y = prv h y)
    by (intros; unfold h'; by heap_simp).
  assert (Hends : nxt h' z = Some s /\ prv h' x = Some s /\ nxt h' s = Some x /\ prv h' s = Some z /\
    nxt h' o = Some o /\ prv h' o = Some o)
    by (unfold h'; split_and!; by heap_simp).
  destruct Hends as (Hz1 & Hx1 & Hs1 & Hs2 & Ho1 & Ho2).
  split_and!.
  - split; [split|].
    + apply NoDup_cons. split; [set_solver|done].
    + split; [by split|]. change (path h' ((x :: l) ++ [s])). rewrite Ez, <- app_assoc.
      apply path_app. split; [|by split; [split|]]. rewrite <- Ez.
      apply (path_frame h).
      * change ((x :: l) ++ [o]) with (x :: l ++ [o]) in Hp. rewrite app_comm_cons, Ez, <- app_assoc in Hp.
        apply path_app in Hp as [Hp _]. by rewrite <- Ez in Hp.
      * rewrite Ez, removelast_snoc. intros y Hy.
        assert (y ∈ x :: l) by (rewrite Ez; set_solver).
        rewrite Ez in HndM. apply NoDup_app in HndM as (_ & HndM & _).
        apply Hn'; intros ->; set_solver.
      * intros y Hy. apply NoDup_cons in HndM as [Hxl _]. apply Hp'; intros ->; set_solver.
    + unfold size. cbn [add_num num_]. rewrite HnM, HnL, Z.add_comm, uwrap_add.
      by f_equal.
  - split; [|done]. split; [apply NoDup_singleton|]. by split; [split|].
  - unfold h'. only_tac.
Qed.

Lemma move_assign_ok h L M l0 l :
  is_link h L l0 -> is_link h M l -> sentinel L ∉ sentinel M :: l -> 
  wp (move_assign L M h) (fun '(L', M', h') =>
    sentinel L' = sentinel L /\ is_link h' L' l /\ is_link h' M' [] /\
    only (sentinel L :: sentinel M :: l) h h').
Proof.
  intros HL HM Hd. unfold move_assign. rewrite bool_decide_eq_false_2 by set_solver.
  apply wp_bind. eapply wp_mono; [apply reset_ok; eapply link_valid; [exact HL|]; by left|].
  intros [L1 h1] (Es & HL1 & Ho1). cbv beta iota.
  assert (HM1 : is_link h1 M l).
  { split; [|apply HM]. eapply only_ring; [exact Ho1| |apply HM]. set_solver. }
  eapply wp_mono; [apply (concat_empty_ok h1 L1 M l HL1 HM1); by rewrite Es|].
  intros [[L2 M2] h2] (Es2 & _ & HL2 & HM2 & [Ho2 Hv2]). split; [congruence|].
  split; [done|]. split; [done|]. destruct Ho1 as [Ho1 Hv1]. rewrite Es in Ho2. split.
  - intros y Hy. rewrite Ho2, Ho1; set_solver.
  - intros y. rewrite Hv2. apply Hv1.
Qed.
End moving.

(** ** Refinement *)

(** The mutating interface, as commands. *)
Inductive link_op :=
  | PushBack (x : addr)
  | PushFront (x : addr)
  | PopFront
  | Remove (x : addr)
  | Clear.

(** A command run on the heap; [clear]'s loop is given one turn for every
    chain of the heap and one more. *)
Definition link_exec (op : link_op) (L : Link) (h : heap) : outcome (pointer * (Link * heap)) :=
  match op with
  | PushBack x => s ← LinkOps.push_back L x h; Ok (None, s)
  | PushFront x => s ← LinkOps.push_front L x h; Ok (None, s)
  | PopFront => LinkOps.pop_front L h
  | Remove x => s ← LinkOps.remove L (Some x) h; Ok (None, s)
  | Clear => s ← LinkOps.clear (S (size h)) L h; Ok (None, s)
  end.

Fixpoint link_run (ops : list link_op) (L : Link) (h : heap)
    : outcome (list pointer * (Link * heap)) :=
  match ops with
  | [] => Ok ([], (L, h))
  | op :: ops =>
    '(r, (L, h)) ← link_exec op L h;
    '(rs, s) ← link_run ops L h;
    Ok (r :: rs, s)
  end.

(** The same on a list; [None] is a caller's mistake: linking an element twice,
    unlinking one that is not in the list. *)
Definition spec_exec (op : link_op) (l : list addr) : option (pointer * list addr) :=
  match op with
  | PushBack x => if decide (x ∈ l) then None else Some (None, l ++ [x])
  | PushFront x => if decide (x ∈ l) then None else Some (None, x :: l)
  | PopFront => Some (head l, tail l)
  | Remove x => if decide (x ∈ l) then Some (None, filter (fun y => y <> x) l) else None
  | Clear => Some (None, [])
  end.

Fixpoint spec_run (ops : list link_op) (l : list addr) : option (list pointer * list addr) :=
  match ops with
  | [] => Some ([], l)
  | op :: ops =>
    '(r, l) ← spec_exec op l;
    '(rs, l) ← spec_run ops l;
    Some (r :: rs, l)
  end.

(** The elements a command may link are live and none is the sentinel. *)
Definition op_ok (h : heap) (L : Link) (op : link_op) : Prop :=
  match op with
  | PushBack x | PushFront x => valid h x /\ x <> sentinel L
  | _ => True
  end.

Section refinement.
Implicit Types (h : heap) (x y : addr) (l : list addr) (L : Link).

Lemma filter_remove l1 x l2 :
  NoDup (l1 ++ x :: l2) -> filter (fun y => y <> x) (l1 ++ x :: l2) = l1 ++ l2.
Proof.
  intros (Hnd1 & Hd & [Hx Hnd2]%NoDup_cons)%NoDup_app.
  assert (Hid : forall l, x ∉ l -> filter (fun y => y <> x) l = l).
  { intros l. induction l as [|y l IH]; intros Hl; [done|].
    rewrite filter_cons_True by set_solver. f_equal. set_solver. }
  rewrite filter_app, filter_cons_False by tauto. rewrite !Hid; set_solver.
Qed.

Lemma NoDup_length_size h l : NoDup l -> (forall y, y ∈ l -> valid h y) -> (length l <= size h)%nat.
Proof.
  intros Hnd Hv. rewrite <- size_dom, <- (size_list_to_set (C := gset addr) l) by done.
  apply subseteq_size. intros y Hy%elem_of_list_to_set. by apply elem_of_dom, Hv.
Qed.

Definition same_valid h h' : Prop := forall y, valid h' y <-> valid h y.

Lemma link_exec_refines op h L l r l' :
  is_link h L l -> op_ok h L op -> spec_exec op l = Some (r, l') ->
  wp (link_exec op L h) (fun '(r', (L', h')) =>
    r' = r /\ sentinel L' = sentinel L /\ is_link h' L' l' /\ same_valid h h').
Proof.
  intros Hl Hok Hs. pose proof (link_NoDup _ _ _ Hl) as Hnd. destruct op as [x|x| |x|];
    cbn [link_exec spec_exec op_ok] in *.
  - destruct (decide (x ∈ l)); [done|]. injection Hs as <- <-. destruct Hok as [Hv Hne].
    apply wp_bind. eapply wp_mono; [apply (push_back_ok h L l x); [done|set_solver|done]|].
    intros [L' h'] (? & ? & [_ ?]). done.
  - destruct (decide (x ∈ l)); [done|]. injection Hs as <- <-. destruct Hok as [Hv Hne].
    apply wp_bind. eapply wp_mono; [apply (push_front_ok h L l x); [done|set_solver|done]|].
    intros [L' h'] (? & ? & [_ ?]). done.
  - injection Hs as <- <-. eapply wp_mono; [by apply pop_front_ok|].
    intros [p [L' h']] (-> & ? & ? & [_ ?]). done.
  - destruct (decide (x ∈ l)) as [Hx|]; [|done]. injection Hs as <- <-.
    apply list_elem_of_split in Hx as (l1 & l2 & ->). rewrite filter_remove by done.
    apply wp_bind. eapply wp_mono; [by apply remove_ok|].
    intros [L' h'] (? & ? & [_ ?]). done.
  - injection Hs as <- <-. apply wp_bind. eapply wp_mono; [apply (clear_ok _ h L l); [done|]|].
    + apply Nat.lt_succ_r, NoDup_length_size; [done|]. intros y Hy.
      eapply link_valid; [done|]. by right.
    + intros [L' h'] (? & ? & [_ ?]). done.
Qed.

(** C8: [Link] implements a list.  Whatever sequence of operations is legal on
    the abstract list runs on the linked nodes without following a bad pointer,
    returns the same elements, and leaves a ring that holds the same list, in
    order, with the counter at its length. *)
Theorem link_refines_list ops h L l rs l' :
  is_link h L l -> Forall (op_ok h L) ops -> spec_run ops l = Some (rs, l') ->
  exists L' h', link_run ops L h = Ok (rs, (L', h')) /\ sentinel L' = sentinel L /\
    is_link h' L' l'.
Proof.
  revert h L l rs l'. induction ops as [|op ops IH]; intros h L l rs l' Hl Hok Hs; simpl in Hs.
  - injection Hs as <- <-. by exists L, h.
  - apply bind_Some in Hs as ([r l1] & Hs1 & Hs).
    apply bind_Some in Hs as ([rs1 l2] & Hs2 & [= <- <-]).
    apply Forall_cons in Hok as [Hop Hok].
    pose proof (link_exec_refines _ _ _ _ _ _ Hl Hop Hs1)
      as ([r' [L1 h1]] & E1 & -> & Es & Hl1 & Hv)%wp_Ok.
    destruct (IH h1 L1 l1 rs1 l2) as (L2 & h2 & E2 & Es2 & Hl2); [done| |done|].
    { eapply Forall_impl; [exact Hok|]. intros []; simpl; rewrite ?Es; try done;
        intros [? ?]; (split; [by apply Hv|done]). }
    exists L2, h2. cbn [link_run]. rewrite E1. cbn [mbind outcome_bind]. rewrite E2.
    split; [done|]. split; [congruence|done].
Qed.

(** Iteration.  [begin()] to [end()] meets the elements in order and
    [rbegin()] to [rend()] in reverse order; [front], [back], [empty] and
    [size] agree. *)
Theorem link_iteration h L l fuel :
  is_link h L l -> (length l < fuel)%nat -> zlen l < 2 ^ 64 ->
  (i ← LinkOps.begin_ L h; e ← LinkOps.end_ L h; visit LinkOps.it_incr fuel i e h)
    = Ok (Some <$> l) /\
  (i ← LinkOps.rbegin L h; e ← LinkOps.rend L h; visit LinkOps.rit_incr fuel i e h)
    = Ok (Some <$> reverse l) /\
  LinkOps.front L h = Ok (head l) /\ LinkOps.back L h = Ok (last l) /\
  LinkOps.empty L h = Ok (bool_decide (l = [])) /\ LinkOps.size L = zlen l.
Proof.
  intros Hl Hf Hn. assert (Hvs : valid h (sentinel L)) by (eapply link_valid; [done|]; by left).
  split_and!.
  - unfold LinkOps.begin_. rewrite get_next_ok by done. rewrite (link_front _ _ _ Hl).
    cbn [mbind outcome_bind]. by apply (visit_forward fuel h L [] l).
  - unfold LinkOps.rbegin. rewrite get_prev_ok by done. rewrite (link_back _ _ _ Hl).
    cbn [mbind outcome_bind]. apply (visit_backward fuel h L l []); [by rewrite app_nil_r|done].
  - by apply front_ok.
  - by apply back_ok.
  - by apply empty_ok.
  - destruct Hl as [_ Hnum]. unfold LinkOps.size. rewrite Hnum. apply Z.mod_small. split; [apply zlen_nonneg|done].
Qed.

(** Move assignment.  The target, whatever it held, ends up with the
    elements of the source in order; the source is left empty and usable; no
    chain other than theirs is touched. *)
Theorem link_move_assign h L M l0 l :
  is_link h L l0 -> is_link h M l -> sentinel L <> sentinel M -> sentinel L ∉ l ->
  exists L' M' h', LinkOps.move_assign L M h = Ok (L', M', h') /\
    is_link h' L' l /\ is_link h' M' [] /\
    forall y, y <> sentinel L -> y <> sentinel M -> y ∉ l -> h' !! y = h !! y.
Proof.
  intros HL HM Hne Hni. assert (Hd : sentinel L ∉ sentinel M :: l) by set_solver.
  pose proof (move_assign_ok h L M l0 l HL HM Hd)
    as ([[L' M'] h'] & E & _ & HL' & HM' & [Ho _])%wp_Ok. exists L', M', h'. split_and!; try done. intros y ???. apply Ho. set_solver.
Qed.
End refinement.

(** ** Runs *)

Module RunsLink.
(** Two links with sentinels 1 and 2, and five unlinked nodes. *)
Definition heap0 : heap :=
  list_to_map [(1, {| next_ := Some 1; prev_ := Some 1 |}); (2, {| next_ := Some 2; prev_ := Some 2 |});
               (11, LinkNode.fresh); (12, LinkNode.fresh); (13, LinkNode.fresh);
               (14, LinkNode.fresh); (15, LinkNode.fresh)]%positive.
Definition A : Link := {| sentinel := 1; num_ := 0 |}.
Definition B : Link := {| sentinel := 2; num_ := 0 |}.

Lemma A_empty : is_link heap0 A [].
Proof. split; [|done]. split; [apply NoDup_singleton|]. vm_compute. done. Qed.
Lemma B_empty : is_link heap0 B [].
Proof. split; [|done]. split; [apply NoDup_singleton|]. vm_compute. done. Qed.

Definition script : list link_op :=
  [PushBack 11; PushFront 12; PushBack 13; Remove 11; PopFront]%positive.

Lemma link_refines_list_run :
  exists L' h', link_run script A heap0 = Ok ([None; None; None; None; Some 12%positive], (L', h')) /\
    sentinel L' = sentinel A /\ is_link h' L' [13%positive].
Proof.
  apply (link_refines_list script heap0 A []); [apply A_empty| |reflexivity].
  unfold script. rewrite !Forall_cons, Forall_nil. unfold op_ok, valid.
  split_and!; first [by eexists | done].
Defined.

(** The same links holding 11, 12, 13 and 14, 15. *)
Definition heap2 : heap :=
  list_to_map [(1, {| next_ := Some 11; prev_ := Some 13 |}); (11, {| next_ := Some 12; prev_ := Some 1 |});
               (12, {| next_ := Some 13; prev_ := Some 11 |}); (13, {| next_ := Some 1; prev_ := Some 12 |});
               (2, {| next_ := Some 14; prev_ := Some 15 |}); (14, {| next_ := Some 15; prev_ := Some 2 |});
               (15, {| next_ := Some 2; prev_ := Some 14 |})]%positive.
Definition A3 : Link := {| sentinel := 1; num_ := 3 |}.
Definition B2 : Link := {| sentinel := 2; num_ := 2 |}.

Lemma A3_link : is_link heap2 A3 [11; 12; 13]%positive.
Proof. split; [|done]. split; [by apply (bool_decide_unpack _)|]. vm_compute. done. Qed.
Lemma B2_link : is_link heap2 B2 [14; 15]%positive.
Proof. split; [|done]. split; [by apply (bool_decide_unpack _)|]. vm_compute. done. Qed.

Lemma link_iteration_run :
  (i ← LinkOps.rbegin A3 heap2; e ← LinkOps.rend A3 heap2; visit LinkOps.rit_incr 4 i e heap2)
    = Ok [Some 13; Some 12; Some 11]%positive /\
  LinkOps.front A3 heap2 = Ok (Some 11%positive) /\ LinkOps.size A3 = 3.
Proof.
  destruct (link_iteration heap2 A3 [11; 12; 13]%positive 4) as (_ & Hr & Hf & _ & _ & Hs);
    [apply A3_link|simpl; lia|reflexivity|]. split; [exact Hr|]. split; [exact Hf|exact Hs].
Defined.

Lemma link_move_assign_run :
  exists L' M' h', LinkOps.move_assign A3 B2 heap2 = Ok (L', M', h') /\
    is_link h' L' [14; 15]%positive /\ is_link h' M' [].
Proof.
  destruct (link_move_assign heap2 A3 B2 [11; 12; 13]%positive [14; 15]%positive)
    as (L' & M' & h' & E & HL & HM & _); [apply A3_link|apply B2_link|done|by apply (bool_decide_unpack _)|].
  exists L', M', h'. split; [exact E|]. split; [exact HL|exact HM].
Defined.

(** [concat] onto a list that is not empty points the first moved element back
    at the sentinel: walking backwards stops there, and unlinking that element
    drops the elements the list had before, while the counter still counts
    them. *)
Example concat_breaks_back_links :
  ('(_, (A1, h)) ← link_run [PushBack 11; PushBack 12]%positive A heap0;
   '(_, (B1, h)) ← link_run [PushBack 13; PushBack 14]%positive B h;
   '(A2, _, h) ← LinkOps.concat A1 B1 h;
   i ← LinkOps.begin_ A2 h; e ← LinkOps.end_ A2 h; fwd ← visit LinkOps.it_incr 9 i e h;
   i ← LinkOps.rbegin A2 h; e ← LinkOps.rend A2 h; bwd ← visit LinkOps.rit_incr 9 i e h;
   '(A3, h) ← LinkOps.remove A2 (Some 13%positive) h;
   i ← LinkOps.begin_ A3 h; e ← LinkOps.end_ A3 h; left ← visit LinkOps.it_incr 9 i e h;
   Ok (fwd, bwd, left, LinkOps.size A3))
  = Ok (Some <$> [11; 12; 13; 14]%positive, Some <$> [14; 13]%positive, Some <$> [14]%positive, 3).
Proof. vm_compute. reflexivity. Qed.
End RunsLink.
