(* ===== verification/MemPool.v ===== *)
(** * MemPool: the object pool of the memory library

    [runtime/v2/kernel/memory/util/object_allocator.h]: a free list of element
    buffers, threaded through the buffers themselves ([union Element] overlays
    the list node with the object), refilled with [new (std::nothrow)] when it
    runs dry.  While an object is live its chain holds whatever the object
    stores there. *)

From S2P Require Import Prelude MemLink.

#[local] Set Warnings "-clear-no-such-hyp".

(** The address [new (std::nothrow) Element()] returns, null without memory. *)
Class ElementHeap := { new_address : heap -> option addr }.
Class ElementHeapLaws `{ElementHeap} : Prop := {
  new_address_fresh : forall h a, new_address h = Some a -> h !! a = None;
}.

Module ObjectAllocator.
Section model.
Context `{ElementHeap}.

(** [new (std::nothrow) Element()]: nothing initialises the union. *)
Definition new_element (garbage : Chain) (h : heap) : pointer * heap :=
  match new_address h with
  | Some a => (Some a, <[a := garbage]> h)
  | None => (None, h)
  end.

(** The constructor's loop over [capacity]. *)
Fixpoint construct (capacity : nat) (garbage : Chain) (elems : Link) (h : heap)
    : outcome (Link * heap) :=
  match capacity with
  | O => Ok (elems, h)
  | S capacity =>
    match new_element garbage h with
    | (Some a, h) =>
      '(elems, h) ← LinkOps.push_back elems a h;
      construct capacity garbage elems h
    | (None, h) => construct capacity garbage elems h
    end
  end.

(** The destructor: pop and [delete] until the list is empty. *)
Fixpoint destroy (fuel : nat) (elems : Link) (h : heap) : outcome (Link * heap) :=
  match fuel with
  | O => Fault
  | S fuel =>
    e ← LinkOps.empty elems h;
    if e : bool then Ok (elems, h) else
    '(p, (elems, h)) ← LinkOps.pop_front elems h;
    match p with
    | Some a => destroy fuel elems (delete a h)
    | None => destroy fuel elems h
    end
  end.

Definition Alloc (garbage : Chain) (elems : Link) (h : heap) : outcome (pointer * (Link * heap)) :=
  '(elem, (elems, h)) ← LinkOps.pop_front elems h;
  match elem with
  | Some _ => Ok (elem, (elems, h))
  | None => let '(p, h) := new_element garbage h in Ok (p, (elems, h))
  end.

(** [AllocMem] differs in asserting that [new] succeeded; the assertion
    returns a null pointer. *)
Definition AllocMem (garbage : Chain) (elems : Link) (h : heap)
    : outcome (pointer * (Link * heap)) :=
  '(elem, (elems, h)) ← LinkOps.pop_front elems h;
  match elem with
  | Some _ => Ok (elem, (elems, h))
  | None =>
    let '(p, h) := new_element garbage h in
    match p with
    | None => Ok (None, (elems, h))
    | Some _ => Ok (p, (elems, h))
    end
  end.

Definition FreeMem (elem : addr) (elems : Link) (h : heap) : outcome (Link * heap) :=
  LinkOps.push_front elems elem h.

(** The object's destructor leaves [junk] where its chain is. *)
Definition Free (junk : Chain) (elem : addr) (elems : Link) (h : heap) : outcome (Link * heap) :=
  match h !! elem with
  | None => Fault
  | Some _ => FreeMem elem elems (<[elem := junk]> h)
  end.

(** [New]: constructing at the null pointer has no meaning; the object's
    constructor stores [contents] over the chain. *)
Definition New (garbage contents : Chain) (elems : Link) (h : heap)
    : outcome (pointer * (Link * heap)) :=
  '(p, (elems, h)) ← AllocMem garbage elems h;
  match p with
  | None => Fault
  | Some a => Ok (p, (elems, <[a := contents]> h))
  end.

Definition GetAvailableSize (elems : Link) : Z := LinkOps.size elems.
End model.
End ObjectAllocator.

(** ** Owned objects *)

Section pool.
Context `{ElementHeapLaws}.
Import ObjectAllocator.
Implicit Types (h : heap) (L : Link) (l live own : list addr) (g : Chain).

(** The pool holds [l]; [live] is what its clients hold. *)
Record pool h L l live : Prop := {
  pool_link : is_link h L l;
  pool_nodup : NoDup (l ++ live);
  pool_valid : forall y, y ∈ live -> valid h y;
  pool_sentinel : sentinel L ∉ live;
}.

(** From [h] to [h'] the pool and its clients, who had [own], took [fresh] from
    the system and touched nothing else. *)
Record grows (s : addr) h own h' own' fresh : Prop := {
  grows_own : own' ≡ₚ fresh ++ own;
  grows_valid : forall y, valid h' y <-> valid h y \/ y ∈ fresh;
  grows_fresh : forall y, y ∈ fresh -> ~ valid h y;
  grows_frame : forall y, valid h y -> y ∉ s :: own -> h' !! y = h !! y;
}.

Lemma valid_insert h a g y : valid (<[a := g]> h) y <-> y = a \/ valid h y.
Proof. unfold valid. rewrite lookup_insert_is_Some'. naive_solver. Qed.

Lemma grows_trans s h own h1 own1 f1 h2 own2 f2 :
  grows s h own h1 own1 f1 -> grows s h1 own1 h2 own2 f2 -> grows s h own h2 own2 (f2 ++ f1).
Proof.
  intros [O1 V1 F1 R1] [O2 V2 F2 R2]. split.
  - by rewrite O2, O1, app_assoc.
  - intros y. rewrite V2, V1, elem_of_app. tauto.
  - intros y [Hy|Hy]%elem_of_app Hv; [|by apply (F1 y)]. apply (F2 y Hy), V1. by left.
  - intros y Hv Hy. rewrite R2, R1; try done; [apply V1; by left|]. rewrite O1.
    specialize (F1 y). set_solver.
Qed.

Lemma grows_refl s h own : grows s h own h own [].
Proof. split; [done| | |done]; set_solver. Qed.

(** Steps that take nothing from the system. *)
Lemma grows_only s h own own' h' l :
  only l h h' -> (forall y, y ∈ l -> y ∈ s :: own) -> own' ≡ₚ own -> grows s h own h' own' [].
Proof.
  intros [Ho Hv] Hl Hp. split; [done| |set_solver|].
  - intros y. rewrite Hv. set_solver.
  - intros y _ Hy. apply Ho. set_solver.
Qed.

Lemma grows_write s h own x g : x ∈ own -> valid h x -> grows s h own (<[x := g]> h) own [].
Proof.
  intros Hx Hv. apply (grows_only _ _ _ _ _ [x]); [|set_solver|done]. split.
  - intros y Hy. rewrite lookup_insert_ne; [done|]. set_solver.
  - intros y. rewrite valid_insert. naive_solver.
Qed.

Lemma grows_new s h own a g : ~ valid h a -> grows s h own (<[a := g]> h) (a :: own) [a].
Proof.
  intros Ha. split; [done| | |].
  - intros y. rewrite valid_insert. set_solver.
  - set_solver.
  - intros y Hy _. rewrite lookup_insert_ne; [done|]. by intros ->.
Qed.

Lemma ring_insert h a g s l : a ∉ s :: l -> ring h s l -> ring (<[a := g]> h) s l.
Proof.
  intros Ha [Hnd Hp]. split; [done|]. apply (path_frame h); [done| |].
  - rewrite app_comm_cons, removelast_snoc. intros y Hy. unfold nxt.
    rewrite lookup_insert_ne; [done|]. intros ->. done.
  - intros y Hy. unfold prv. rewrite lookup_insert_ne; [done|]. set_solver.
Qed.

Lemma ring_delete h a s l : a ∉ s :: l -> ring h s l -> ring (delete a h) s l.
Proof.
  intros Ha [Hnd Hp]. split; [done|]. apply (path_frame h); [done| |].
  - rewrite app_comm_cons, removelast_snoc. intros y Hy. unfold nxt.
    rewrite lookup_delete_ne; [done|]. intros ->. done.
  - intros y Hy. unfold prv. rewrite lookup_delete_ne; [done|]. set_solver.
Qed.

Lemma link_insert h a g L l : a ∉ sentinel L :: l -> is_link h L l -> is_link (<[a := g]> h) L l.
Proof. intros Ha [Hr Hn]. split; [by apply ring_insert|done]. Qed.

(** An operation keeps the pool and gives [p] to its caller. *)
Definition step_ok h L l live (st : pointer * (Link * heap)) : Prop :=
  let '(p, (L', h')) := st in
  let live' := match p with Some a => a :: live | None => live end in
  sentinel L' = sentinel L /\
  exists l' fresh, pool h' L' l' live' /\ grows (sentinel L) h (l ++ live) h' (l' ++ live') fresh /\
    (fresh <> [] -> l = []) /\ (p = None -> l = []).

(** Memory the pool has, or memory the system hands out. *)
Lemma new_element_ok h L live g :
  pool h L [] live ->
  let '(p, h') := new_element g h in step_ok h L [] live (p, (L, h')).
Proof.
  intros [Hl Hnd Hv Hs]. unfold new_element. destruct (new_address h) as [a|] eqn:Ea.
  - apply new_address_fresh in Ea.
    assert (Hnv : ~ valid h a) by (unfold valid; rewrite Ea; by intros []).
    assert (a ∉ live) by (intros Hin; by apply Hnv, Hv).
    assert (a <> sentinel L) by (intros ->; apply Hnv; eapply link_valid; [exact Hl|]; by left).
    split; [done|]. exists [], [a]. split_and!; [|by apply grows_new|done|done]. split.
    + apply link_insert; [|done]. set_solver.
    + by apply NoDup_cons.
    + intros y [->|Hy]%elem_of_cons; rewrite valid_insert; [by left|right]. by apply Hv.
    + set_solver.
  - split; [done|]. exists [], []. split_and!; [done|apply grows_refl|done|done].
Qed.

Lemma pool_pop h L x l live : pool h L (x :: l) live ->
  forall L' h', sentinel L' = sentinel L -> is_link h' L' l -> only (sentinel L :: x :: l) h h' ->
  step_ok h L (x :: l) live (Some x, (L', h')).
Proof.
  intros [Hl Hnd Hv Hs] L' h' Es Hl' Ho. assert (Hval := proj2 Ho). split; [done|].
  exists l, []. split_and!; [|eapply grows_only; [exact Ho|set_solver|]|done|done]; [split|].
  - done.
  - by rewrite <- Permutation_middle.
  - intros y [->|Hy]%elem_of_cons; apply Hval; [|by apply Hv].
    eapply link_valid; [exact Hl|]. set_solver.
  - rewrite Es. apply link_notin in Hl. set_solver.
  - by rewrite <- Permutation_middle.
Qed.

Lemma pool_empty h L live : pool h L [] live ->
  forall L' h', sentinel L' = sentinel L -> is_link h' L' [] -> only [sentinel L] h h' ->
  pool h' L' [] live /\ grows (sentinel L) h live h' live [].
Proof.
  intros [Hl Hnd Hv Hs] L' h' Es Hl' Ho. assert (Hval := proj2 Ho). split.
  - split; [done|done| |by rewrite Es]. intros y Hy. by apply Hval, Hv.
  - eapply grows_only; [exact Ho|set_solver|done].
Qed.

Lemma step_ok_trans h L live h1 L1 st :
  sentinel L1 = sentinel L -> grows (sentinel L) h live h1 live [] ->
  step_ok h1 L1 [] live st -> step_ok h L [] live st.
Proof.
  destruct st as [p [L2 h2]]. intros Es Hg (Es2 & l' & fresh & Hp & Hg2 & Hf & Hn).
  split; [congruence|]. rewrite Es in Hg2. exists l', fresh. split_and!; [done| |done|done].
  rewrite <- (app_nil_r fresh). exact (grows_trans _ _ _ _ _ _ _ _ _ Hg Hg2).
Qed.

Lemma Alloc_ok h L l live g : pool h L l live -> wp (Alloc g L h) (step_ok h L l live).
Proof.
  intros Hp. unfold Alloc. apply wp_bind. eapply wp_mono; [apply pop_front_ok, Hp|].
  intros [p [L1 h1]] (-> & Es & Hl1 & Ho). destruct l as [|x l]; simpl head.
  - destruct (pool_empty _ _ _ Hp L1 h1) as [Hp1 Hg]; [done..|].
    pose proof (new_element_ok h1 L1 live g Hp1) as Hn. destruct (new_element g h1) as [p h2].
    by apply (step_ok_trans _ _ _ h1 L1).
  - by apply pool_pop.
Qed.

Lemma AllocMem_Alloc g L h : AllocMem g L h = Alloc g L h.
Proof.
  unfold AllocMem, Alloc. destruct (LinkOps.pop_front L h) as [[[a|] [L1 h1]]| |]; try done.
  simpl. by destruct (new_element g h1) as [[a|] h2].
Qed.

(** A live object goes back to the front of the pool, whatever its chain holds. *)
Lemma FreeMem_ok h L l live1 x live2 :
  pool h L l (live1 ++ x :: live2) ->
  wp (FreeMem x L h) (fun '(L', h') =>
    sentinel L' = sentinel L /\ pool h' L' (x :: l) (live1 ++ live2) /\
    grows (sentinel L) h (l ++ live1 ++ x :: live2) h' (x :: l ++ live1 ++ live2) []).
Proof.
  intros [Hl Hnd Hv Hs]. unfold FreeMem.
  assert (HP : x :: l ++ live1 ++ live2 ≡ₚ l ++ live1 ++ x :: live2)
    by (rewrite <- !Permutation_middle; done).
  assert (Hnd' : NoDup (x :: l ++ live1 ++ live2)) by by rewrite HP.
  apply NoDup_cons in Hnd' as [Hx Hnd'].
  eapply wp_mono; [apply push_front_ok; [done|set_solver|apply Hv; set_solver]|].
  intros [L' h'] (Es & Hl' & Ho). split; [done|]. assert (Hval := proj2 Ho).
  split; [split|eapply grows_only; [exact Ho|set_solver|done]].
  - done.
  - simpl. by apply NoDup_cons.
  - intros y Hy. apply Hval, Hv. set_solver.
  - rewrite Es. set_solver.
Qed.

(** The owner of an object may store anything in it. *)
Lemma pool_write h L l live x g :
  pool h L l live -> x ∈ live ->
  pool (<[x := g]> h) L l live /\ grows (sentinel L) h (l ++ live) (<[x := g]> h) (l ++ live) [].
Proof.
  intros [Hl Hnd Hv Hs] Hx. split; [split|apply grows_write; [set_solver|by apply Hv]]; try done.
  - apply link_insert; [|done]. apply NoDup_app in Hnd as (_ & Hd & _).
    intros [->|Hin]%elem_of_cons; [done|]. by apply (Hd x).
  - intros y Hy. rewrite valid_insert. right. by apply Hv.
Qed.

(** ** Client programs *)

(** What clients do: allocate, store into an object they hold, give one back
    with or without running its destructor.  Objects are named by their
    position in the list of live ones, the latest first. *)
Inductive pool_op :=
  | PAlloc (garbage : Chain)
  | PAllocMem (garbage : Chain)
  | PStore (i : nat) (contents : Chain)
  | PFree (i : nat) (junk : Chain)
  | PFreeMem (i : nat).

Definition pool_exec (op : pool_op) (live : list addr) (L : Link) (h : heap)
    : outcome (list addr * (Link * heap)) :=
  match op with
  | PAlloc g =>
    '(p, s) ← Alloc g L h; Ok (match p with Some a => a :: live | None => live end, s)
  | PAllocMem g =>
    '(p, s) ← AllocMem g L h; Ok (match p with Some a => a :: live | None => live end, s)
  | PStore i c =>
    match live !! i with
    | Some x => Ok (live, (L, <[x := c]> h))
    | None => Ok (live, (L, h))
    end
  | PFree i j =>
    match live !! i with
    | Some x => s ← Free j x L h; Ok (delete i live, s)
    | None => Ok (live, (L, h))
    end
  | PFreeMem i =>
    match live !! i with
    | Some x => s ← FreeMem x L h; Ok (delete i live, s)
    | None => Ok (live, (L, h))
    end
  end.

Fixpoint pool_run (ops : list pool_op) (live : list addr) (L : Link) (h : heap)
    : outcome (list addr * (Link * heap)) :=
  match ops with
  | [] => Ok (live, (L, h))
  | op :: ops => '(live, (L, h)) ← pool_exec op live L h; pool_run ops live L h
  end.

(** What a run from a pool [l] with clients holding [live] reaches. *)
Definition reaches h L l live (st : list addr * (Link * heap)) : Prop :=
  let '(live', (L', h')) := st in
  sentinel L' = sentinel L /\
  exists l' fresh, pool h' L' l' live' /\ grows (sentinel L) h (l ++ live) h' (l' ++ live') fresh.

Lemma reaches_stay h L l live : pool h L l live -> reaches h L l live (live, (L, h)).
Proof. intros Hp. split; [done|]. exists l, []. split; [done|apply grows_refl]. Qed.

Lemma reaches_free h L l live i x :
  pool h L l live -> live !! i = Some x ->
  wp (FreeMem x L h) (fun s => reaches h L l live (delete i live, s)).
Proof.
  intros Hp Hi. rewrite delete_take_drop. rewrite <- (take_drop_middle live i x) in Hp |- * by done.
  assert (Hlen : length (take i live) = i)
    by (rewrite length_take_le; [done|]; apply lookup_lt_Some in Hi; lia).
  rewrite take_app_length', drop_app_ge by lia. rewrite Hlen.
  replace (S i - i)%nat with 1%nat by lia. simpl drop. rewrite drop_0.
  eapply wp_mono; [by apply FreeMem_ok|]. intros [L' h'] (Es & Hp' & Hg).
  split; [done|]. eexists _, []. done.
Qed.

Lemma pool_exec_ok op h L l live :
  pool h L l live -> wp (pool_exec op live L h) (reaches h L l live).
Proof.
  intros Hp. destruct op as [g|g|i c|i j|i]; cbn [pool_exec].
  1-2: rewrite ?AllocMem_Alloc; apply wp_bind; eapply wp_mono; [by apply Alloc_ok|];
    intros [p [L' h']] (Es & l' & fresh & Hp' & Hg & _); split; [done|by exists l', fresh].
  all: destruct (live !! i) as [x|] eqn:Ei; [|by apply reaches_stay].
  - apply wp_ret. split; [done|]. eexists _, []. apply pool_write; [done|by eapply list_elem_of_lookup_2].
  - apply wp_bind. unfold Free. assert (x ∈ live) by (by eapply list_elem_of_lookup_2).
    destruct (pool_valid _ _ _ _ Hp x) as [c ->]; [done|].
    destruct (pool_write _ _ _ _ x j Hp) as [Hp1 Hg1]; [done|].
    eapply wp_mono; [by apply reaches_free|]. intros [L' h'] (Es & l' & fresh & Hp' & Hg).
    split; [done|]. exists l', (fresh ++ []). split; [done|]. by eapply grows_trans.
  - apply wp_bind. eapply wp_mono; [by apply reaches_free|]. done.
Qed.

Lemma pool_run_ok ops h L l live :
  pool h L l live -> wp (pool_run ops live L h) (reaches h L l live).
Proof.
  revert h L l live. induction ops as [|op ops IH]; intros h L l live Hp; cbn [pool_run].
  - by apply reaches_stay.
  - apply wp_bind. eapply wp_mono; [by apply pool_exec_ok|].
    intros [live1 [L1 h1]] (Es & l1 & f1 & Hp1 & Hg1). eapply wp_mono; [by apply IH|].
    intros [live2 [L2 h2]] (Es2 & l2 & f2 & Hp2 & Hg2). split; [congruence|].
    exists l2, (f2 ++ f1). split; [done|]. rewrite Es in Hg2. by eapply grows_trans.
Qed.

(** ** Construction and destruction *)

Lemma construct_ok n g h L l :
  pool h L l [] ->
  wp (construct n g L h) (fun '(L', h') => reaches h L l [] ([], (L', h'))).
Proof.
  revert h L l. induction n as [|n IH]; intros h L l Hp; [by apply reaches_stay|].
  cbn [construct]. unfold new_element. destruct (new_address h) as [a|] eqn:Ea; [|by apply IH].
  apply new_address_fresh in Ea.
  assert (Hnv : ~ valid h a) by (unfold valid; rewrite Ea; by intros []).
  destruct Hp as [Hl Hnd _ _].
  assert (Ha : a ∉ sentinel L :: l) by (intros Hin; by apply Hnv; eapply link_valid).
  apply wp_bind. eapply wp_mono; [apply (push_back_ok _ L l a); [by apply link_insert|done|]|].
  { rewrite valid_insert. by left. }
  intros [L1 h1] (Es & Hl1 & Ho). eapply wp_mono; [apply (IH h1 L1 (l ++ [a]))|].
  - split; [done| |by intros y ?%not_elem_of_nil|apply not_elem_of_nil]. rewrite app_nil_r in *.
    apply NoDup_app. split_and!; [done|set_solver|apply NoDup_singleton].
  - intros [L2 h2] (Es2 & l2 & f2 & Hp2 & Hg2). split; [congruence|].
    exists l2, (f2 ++ [] ++ [a]). split; [done|]. eapply grows_trans; [|by rewrite Es in Hg2].
    eapply grows_trans; [by apply grows_new|].
    eapply grows_only; [exact Ho|set_solver|]. rewrite !app_nil_r. by rewrite Permutation_app_comm.
Qed.

(** The destructor releases the pooled elements and nothing else. *)
Lemma destroy_ok fuel h L l :
  is_link h L l -> (length l < fuel)%nat ->
  wp (destroy fuel L h) (fun '(L', h') =>
    sentinel L' = sentinel L /\ is_link h' L' [] /\
    (forall y, valid h' y <-> valid h y /\ y ∉ l) /\
    (forall y, y ∉ sentinel L :: l -> h' !! y = h !! y)).
Proof.
  revert h L l. induction fuel as [|fuel IH]; intros h L l Hl Hf; [lia|]. cbn [destroy].
  eapply wp_bind_eq; [by apply empty_ok|]. destruct l as [|x l].
  - rewrite bool_decide_eq_true_2 by done. apply wp_ret. set_solver.
  - rewrite bool_decide_eq_false_2 by done. apply wp_bind.
    eapply wp_mono; [by apply pop_front_ok|].
    intros [p [L1 h1]] (-> & Es & Hl1 & [Ho Hv]). cbn [head tail] in *.
    assert (Hx : x ∉ sentinel L :: l).
    { pose proof (link_NoDup _ _ _ Hl) as [? _]%NoDup_cons. apply link_notin in Hl. set_solver. }
    eapply wp_mono; [apply (IH (delete x h1) L1 l); [|simpl in Hf; lia]|].
    + destruct Hl1 as [Hr Hn]. split; [|done]. apply ring_delete; [by rewrite Es|done].
    + intros [L2 h2] (Es2 & Hl2 & Hv2 & Ho2). split_and!; [congruence|done| |].
      * intros y. rewrite Hv2. unfold valid at 1. rewrite lookup_delete_is_Some.
        fold (valid h1 y). rewrite Hv. set_solver.
      * intros y Hy. rewrite Ho2 by (rewrite Es; set_solver).
        rewrite lookup_delete_ne by set_solver. apply Ho. set_solver.
Qed.

(** C30: the object pool is a sound allocator.  Whatever its clients do with the
    objects they hold, overwriting the list node that shares their memory
    included, no operation follows a bad pointer; the objects handed out are
    distinct from each other and from the pooled ones; the pool and its clients
    together have exactly what they had plus what the system gave, which was
    nobody's; and nobody else's memory changes. *)
Theorem pool_sound ops h L l live :
  pool h L l live ->
  exists live' L' h' l' fresh,
    pool_run ops live L h = Ok (live', (L', h')) /\
    pool h' L' l' live' /\ GetAvailableSize L' = uwrap 64 (zlen l') /\
    l' ++ live' ≡ₚ fresh ++ l ++ live /\
    (forall y, y ∈ fresh -> ~ valid h y) /\
    (forall y, valid h y -> y ∉ sentinel L :: l ++ live -> h' !! y = h !! y).
Proof.
  intros Hp. pose proof (pool_run_ok ops h L l live Hp)
    as ([live' [L' h']] & E & _ & l' & fresh & Hp' & [Hown _ Hfr Hframe])%wp_Ok.
  exists live', L', h', l', fresh. split_and!; try done. apply Hp'.
Qed.

(** The life of a pool: construction, client operations, destruction. *)
Definition lifetime (capacity : nat) (g : Chain) (ops : list pool_op) (L : Link) (h : heap)
    : outcome (list addr * (Link * heap)) :=
  '(L, h) ← construct capacity g L h;
  '(live, (L, h)) ← pool_run ops [] L h;
  s ← destroy (S (size h)) L h;
  Ok (live, s).

(** C40: No leak.  A pool that is constructed, used in any way and destroyed
    ends, and has returned to the system everything it ever took except the
    objects clients still hold; those were not in use before. *)
Theorem pool_no_leak capacity g ops h L :
  is_link h L [] ->
  exists live L' h', lifetime capacity g ops L h = Ok (live, (L', h')) /\
    is_link h' L' [] /\ NoDup live /\
    (forall y, y ∈ live -> ~ valid h y) /\
    (forall y, valid h' y <-> valid h y \/ y ∈ live) /\
    (forall y, valid h y -> y <> sentinel L -> h' !! y = h !! y).
Proof.
  intros Hl. assert (Hp : pool h L [] []).
  { split; [done|apply NoDup_nil_2|by intros y ?%not_elem_of_nil|apply not_elem_of_nil]. }
  pose proof (construct_ok capacity g h L [] Hp) as ([L1 h1] & E1 & Es1 & l1 & f1 & Hp1 & Hg1)%wp_Ok.
  pose proof (pool_run_ok ops h1 L1 l1 [] Hp1)
    as ([live [L2 h2]] & E2 & Es2 & l2 & f2 & Hp2 & Hg2)%wp_Ok.
  rewrite Es1 in Hg2. destruct (grows_trans _ _ _ _ _ _ _ _ _ Hg1 Hg2) as [Hown Hval Hfr Hframe].
  destruct Hp2 as [Hl2 (Hnd2 & Hd & Hnd)%NoDup_app Hv2 _].
  assert (Hf : (length l2 < S (size h2))%nat).
  { apply Nat.lt_succ_r, NoDup_length_size; [done|]. intros y Hy. eapply link_valid; [done|]. by right. }
  pose proof (destroy_ok _ h2 L2 l2 Hl2 Hf) as ([L3 h3] & E3 & _ & Hl3 & Hv3 & Ho3)%wp_Ok.
  simpl in Hown. rewrite app_nil_r in Hown.
  assert (Hin : forall y, y ∈ f2 ++ f1 <-> y ∈ l2 \/ y ∈ live) by (intros y; rewrite <- Hown; set_solver).
  exists live, L3, h3. split_and!; try done.
  - unfold lifetime. rewrite E1. cbn [mbind outcome_bind]. rewrite E2. cbn [mbind outcome_bind].
    by rewrite E3.
  - intros y Hy. apply Hfr, Hin. by right.
  - intros y. rewrite Hv3, Hval, Hin. specialize (Hd y). specialize (Hfr y). rewrite Hin in Hfr. tauto.
  - intros y Hy Hne. rewrite Ho3; [apply Hframe; set_solver|].
    rewrite Es2, Es1. intros [->|Hy2]%elem_of_cons; [done|]. apply (Hfr y); [apply Hin; by left|done].
Qed.
End pool.

(** ** Runs *)

Module RunsPool.
(** A system with addresses from 100 up to a limit. *)
Definition bump : ElementHeap := {| new_address h :=
  let a := fresh (dom h ∪ list_to_set (Pos.of_nat <$> seq 1 99) : gset addr) in
  if decide (a <= 103)%positive then Some a else None |}.
#[local] Existing Instance bump.

Lemma bump_laws : ElementHeapLaws.
Proof.
  constructor. intros h a. simpl. case_decide; [|done]. intros [= <-].
  apply not_elem_of_dom. pose proof (is_fresh (dom h ∪ list_to_set (Pos.of_nat <$> seq 1 99) : gset addr)).
  set_solver.
Qed.

Definition heap1 : heap := {[ 1%positive := {| next_ := Some 1; prev_ := Some 1 |}%positive ]}.
Definition junk : Chain := {| next_ := Some 77; prev_ := None |}%positive.
Definition A : Link := {| sentinel := 1; num_ := 0 |}.

Lemma pool_link_empty : is_link heap1 A [].
Proof. split; [|done]. split; [apply NoDup_singleton|]. vm_compute. done. Qed.

Definition script : list pool_op :=
  [PAlloc junk; PAllocMem junk; PStore 0 junk; PFree 1 junk; PAlloc junk; PFreeMem 0; PAlloc junk; PAlloc junk].

Lemma pool_start : pool heap1 A [] [].
Proof. split; [apply pool_link_empty|apply NoDup_nil_2|by intros y ?%not_elem_of_nil|apply not_elem_of_nil]. Qed.

Lemma pool_sound_run :
  exists live' L' h' l' fresh,
    pool_run script [] A heap1 = Ok (live', (L', h')) /\ pool h' L' l' live' /\
    l' ++ live' ≡ₚ fresh ++ [].
Proof.
  destruct (@pool_sound bump bump_laws script heap1 A [] [] pool_start)
    as (live' & L' & h' & l' & fresh & E & Hp & _ & Ho & _).
  exists live', L', h', l', fresh. split; [exact E|]. split; [exact Hp|exact Ho].
Defined.

Lemma pool_no_leak_run :
  exists live L' h', lifetime 2 junk script A heap1 = Ok (live, (L', h')) /\
    is_link h' L' [] /\ forall y, valid h' y <-> valid heap1 y \/ y ∈ live.
Proof.
  destruct (@pool_no_leak bump bump_laws 2 junk script heap1 A pool_link_empty)
    as (live & L' & h' & E & Hl & _ & _ & Hv & _).
  exists live, L', h'. split; [exact E|]. split; [exact Hl|exact Hv].
Defined.

(** The script ends with three objects live. *)
Example script_live :
  ('(live, _) ← lifetime 2 junk script A heap1; Ok live) = Ok [102; 100; 101]%positive.
Proof. vm_compute. reflexivity. Qed.

(** [Alloc] and [AllocMem] report an exhausted system with a null pointer;
    [New] constructs the object there. *)
Example new_without_memory_faults :
  let ops := replicate 4 (PAlloc junk) in
  ('(_, (L, h)) ← pool_run ops [] A heap1; '(p, _) ← ObjectAllocator.Alloc junk L h; Ok p) = Ok None /\
  ('(_, (L, h)) ← pool_run ops [] A heap1; ObjectAllocator.New junk junk L h) = Fault.
Proof. vm_compute. split; reflexivity. Qed.
End RunsPool.
