(* ===== verification/MemSpan.v ===== *)
(** * MemSpan: page spans, their buddies, and the layers of idle spans

    [runtime/v2/kernel/memory/span]: [page_span], [span_buddy_link],
    [span_layer], [span_layer_lut.h] and [span_layer_id.h].  A span is a run of
    device pages; spans cut from the same block are linked as buddies in
    address order.  Idle spans of [n] pages wait in layer [n]; a lookup table
    knows which layers are worth looking at.

    The lists of spans are [Link]s: by [link_refines_list] they behave as lists
    of addresses, and that is how they appear here.  Linking an element twice
    and unlinking one that is not there have no meaning. *)

From Stdlib Require Import Sorting.Sorted.
From S2P Require Import Prelude MemLink.

#[local] Set Warnings "-clear-no-such-hyp".

(** ** span_layer_id.h *)

Definition PageLen_GetLenFromSize (size page_idem_num : Z) : Z :=
  uwrap 32 (Z.shiftr size page_idem_num).
Definition PageLen_GetMemSize (page_len page_idem_num : Z) : Z :=
  uwrap 64 (Z.shiftl page_len page_idem_num).
Definition PageLen_ForwardAddr (page_len page_idem_num addr : Z) : Z :=
  addr + PageLen_GetMemSize page_len page_idem_num.
Definition SpanLayerId_GetIdFromSize (size page_idem_num : Z) : Z :=
  PageLen_GetLenFromSize size page_idem_num.
Definition SPAN_LAYER_ID_INVALID : Z := 2 ^ 32 - 1.

(** ** ge::MemBlock

    The base class of a span comes from the public headers of the runtime: an
    address, a size and a reference counter. *)
Class MemBlockApi := {
  initial_count : Z;
  AddCount : Z -> Z;
  SubCount : Z -> Z;
}.
Class MemBlockLaws `{MemBlockApi} : Prop := {
  initial_count_nonneg : 0 <= initial_count;
  AddCount_pos : 0 < AddCount 0;
  SubCount_pred : forall n, 0 < n -> SubCount n = n - 1;
}.

Record MemBlock := { mb_addr : Z; mb_size : Z; mb_count : Z }.

(** ** span_buddy_link.h *)

Record SpanBuddyLink := { buddy_prev : pointer; buddy_next : pointer }.

Definition IsEmptyBuddy (l : SpanBuddyLink) : bool :=
  bool_decide (buddy_prev l = None) && bool_decide (buddy_next l = None).
Definition IsHeader (l : SpanBuddyLink) : bool := bool_decide (buddy_prev l = None).

(** ** page_span.h *)

(** A device block, [ge::MemBlock *]; null for a span that does not start one. *)
Abbreviation BlockAddr := (option positive).

Record PageSpan := MkSpan {
  mem_block : MemBlock;
  block_addr_ : BlockAddr;
  page_len_ : Z;
  try_split_page_len_ : Z;
  buddy_link_ : SpanBuddyLink;
  pa_list_ : list Z;
  real_size_ : Z;
  ref_span_ : pointer;
  new_va_span_ : bool;
  splitable_ : bool;
}.

Definition with_block m s : PageSpan :=
  MkSpan m (block_addr_ s) (page_len_ s) (try_split_page_len_ s) (buddy_link_ s) (pa_list_ s)
    (real_size_ s) (ref_span_ s) (new_va_span_ s) (splitable_ s).
Definition with_page_len n s : PageSpan :=
  MkSpan (mem_block s) (block_addr_ s) n (try_split_page_len_ s) (buddy_link_ s) (pa_list_ s)
    (real_size_ s) (ref_span_ s) (new_va_span_ s) (splitable_ s).
Definition with_try_split n s : PageSpan :=
  MkSpan (mem_block s) (block_addr_ s) (page_len_ s) n (buddy_link_ s) (pa_list_ s)
    (real_size_ s) (ref_span_ s) (new_va_span_ s) (splitable_ s).
Definition with_buddy l s : PageSpan :=
  MkSpan (mem_block s) (block_addr_ s) (page_len_ s) (try_split_page_len_ s) l (pa_list_ s)
    (real_size_ s) (ref_span_ s) (new_va_span_ s) (splitable_ s).

Definition SetPaList l s : PageSpan :=
  MkSpan (mem_block s) (block_addr_ s) (page_len_ s) (try_split_page_len_ s) (buddy_link_ s) l
    (real_size_ s) (ref_span_ s) (new_va_span_ s) (splitable_ s).
Definition SetRealSize n s : PageSpan :=
  MkSpan (mem_block s) (block_addr_ s) (page_len_ s) (try_split_page_len_ s) (buddy_link_ s)
    (pa_list_ s) n (ref_span_ s) (new_va_span_ s) (splitable_ s).
Definition SetRefSpan p s : PageSpan :=
  MkSpan (mem_block s) (block_addr_ s) (page_len_ s) (try_split_page_len_ s) (buddy_link_ s)
    (pa_list_ s) (real_size_ s) p (new_va_span_ s) (splitable_ s).
Definition SetNewVaSpan b s : PageSpan :=
  MkSpan (mem_block s) (block_addr_ s) (page_len_ s) (try_split_page_len_ s) (buddy_link_ s)
    (pa_list_ s) (real_size_ s) (ref_span_ s) b (splitable_ s).
Definition SetSplitable b s : PageSpan :=
  MkSpan (mem_block s) (block_addr_ s) (page_len_ s) (try_split_page_len_ s) (buddy_link_ s)
    (pa_list_ s) (real_size_ s) (ref_span_ s) (new_va_span_ s) b.

Definition GetAddr (s : PageSpan) : Z := mb_addr (mem_block s).
Definition GetCount (s : PageSpan) : Z := mb_count (mem_block s).
Definition set_count (n : Z) (s : PageSpan) : PageSpan :=
  with_block {| mb_addr := GetAddr s; mb_size := mb_size (mem_block s); mb_count := n |} s.
Definition SetPrev (p : pointer) (s : PageSpan) : PageSpan :=
  with_buddy {| buddy_prev := p; buddy_next := buddy_next (buddy_link_ s) |} s.
Definition SetNext (p : pointer) (s : PageSpan) : PageSpan :=
  with_buddy {| buddy_prev := buddy_prev (buddy_link_ s); buddy_next := p |} s.
Definition GetPrevBuddy (s : PageSpan) : pointer := buddy_prev (buddy_link_ s).
Definition GetNextBuddy (s : PageSpan) : pointer := buddy_next (buddy_link_ s).

Definition HasSplited (s : PageSpan) : bool := negb (IsEmptyBuddy (buddy_link_ s)).
Definition IsBuddyHeader (s : PageSpan) : bool := IsHeader (buddy_link_ s).

(** The spans in existence, by the address of the object. *)
Abbreviation span_heap := (gmap addr PageSpan).

Definition get_span (a : addr) (h : span_heap) : outcome PageSpan :=
  match h !! a with Some s => Ok s | None => Fault end.
Definition update_span (f : PageSpan -> PageSpan) (a : addr) (h : span_heap) : outcome span_heap :=
  s ← get_span a h; Ok (<[a := f s]> h).

Module PageSpanOps.
Section model.
Context `{MemBlockApi} (page_idem_num : Z).

(** The constructor. *)
Definition construct (block_addr : BlockAddr) (address mem_size : Z) : PageSpan :=
  {| mem_block := {| mb_addr := address; mb_size := mem_size; mb_count := initial_count |};
     block_addr_ := block_addr; page_len_ := 0; try_split_page_len_ := 0;
     buddy_link_ := {| buddy_prev := None; buddy_next := None |};
     pa_list_ := []; real_size_ := 0; ref_span_ := None;
     new_va_span_ := false; splitable_ := false |}.

Definition GetSize (s : PageSpan) : Z := PageLen_GetMemSize (page_len_ s) page_idem_num.

(** [SetPageLen]: the length and, through [SetSize], the size of the block. *)
Definition SetPageLen (page_len : Z) (s : PageSpan) : PageSpan :=
  let s := with_page_len page_len s in
  with_block {| mb_addr := GetAddr s; mb_size := GetSize s; mb_count := GetCount s |} s.

Definition Alloc (page_len : Z) (s : PageSpan) : PageSpan :=
  let s := SetPageLen page_len s in
  if GetCount s =? 0 then set_count (AddCount (GetCount s)) s else s.

Definition SetBuddy (this buddy_span : addr) (h : span_heap) : outcome span_heap :=
  s ← get_span this h;
  let next_buddy := GetNextBuddy s in
  h ← match next_buddy with
      | Some n => update_span (SetPrev (Some buddy_span)) n h
      | None => Ok h
      end;
  h ← update_span (SetNext (Some buddy_span)) this h;
  h ← update_span (SetNext next_buddy) buddy_span h;
  update_span (SetPrev (Some this)) buddy_span h.

Definition MergeBuddy (this buddy_span : addr) (h : span_heap) : outcome span_heap :=
  s ← get_span this h;
  b ← get_span buddy_span h;
  if bool_decide (GetNextBuddy s = Some buddy_span) && bool_decide (GetPrevBuddy b = Some this) then
    let next_of_buddy := GetNextBuddy b in
    h ← match next_of_buddy with
        | Some n => update_span (SetPrev (Some this)) n h
        | None => Ok h
        end;
    h ← update_span (SetNext next_of_buddy) this h;
    b ← get_span buddy_span h;
    h ← update_span (fun s => with_page_len (uwrap 32 (page_len_ s + page_len_ b)) s) this h;
    s ← get_span this h;
    if IsEmptyBuddy (buddy_link_ s) then update_span (with_try_split 0) this h else Ok h
  else Ok h.

(** [kDelaySplitRatio] is the double next to 0.01, above it by less than half
    of the last place, so the rounded product has the floor of a division by
    100 for every 32 bit length. *)
Definition IsSplitable (page_len : Z) (s : PageSpan) : bool * PageSpan :=
  if splitable_ s || HasSplited s then (true, s) else
  let s := with_try_split (uwrap 32 (try_split_page_len_ s + page_len)) s in
  let split_thresold := page_len_ s / 100 in
  (split_thresold <? try_split_page_len_ s, s).
End model.
End PageSpanOps.

(** ** span_layer.h *)

Record SpanLayer := { layer_id_ : Z; span_capacity_ : Z; free_link_ : list addr }.

Module SpanLayerOps.
Definition with_free (l : list addr) (layer : SpanLayer) : SpanLayer :=
  {| layer_id_ := layer_id_ layer; span_capacity_ := span_capacity_ layer; free_link_ := l |}.

Definition PushSpan (span : addr) (layer : SpanLayer) : outcome SpanLayer :=
  if decide (span ∈ free_link_ layer) then Fault
  else Ok (with_free (span :: free_link_ layer) layer).

Definition PopSpan (layer : SpanLayer) : pointer * SpanLayer :=
  (head (free_link_ layer), with_free (tail (free_link_ layer)) layer).

Definition Remove (span : addr) (layer : SpanLayer) : outcome SpanLayer :=
  if decide (span ∈ free_link_ layer)
  then Ok (with_free (filter (fun a => a <> span) (free_link_ layer)) layer)
  else Fault.

Definition GetSize (layer : SpanLayer) : Z := uwrap 64 (zlen (free_link_ layer)).
Definition IsEmpty (layer : SpanLayer) : bool := GetSize layer =? 0.
Definition GetPageSize (layer : SpanLayer) : Z := uwrap 64 (GetSize layer * layer_id_ layer).
End SpanLayerOps.

(** ** span_layer_lut.h *)

(** [std::set<SpanLayerId>]: the ids in increasing order. *)
Module IdSet.
Fixpoint emplace (x : Z) (l : list Z) : list Z :=
  match l with
  | [] => [x]
  | y :: l' => if x <? y then x :: l else if x =? y then l else y :: emplace x l'
  end.

Definition erase (x : Z) (l : list Z) : list Z := filter (fun y => y <> x) l.

(** The iterator [lower_bound] returns: what is left to visit from it on. *)
Fixpoint lower_bound (x : Z) (l : list Z) : list Z :=
  match l with
  | [] => []
  | y :: l' => if y <? x then lower_bound x l' else l
  end.
End IdSet.

(** The class of the table. *)
Inductive SpanLayerLut := QuickLut | SeqLut.

(** [std::vector<SpanLayer *>]. *)
Abbreviation span_layers := (list (option SpanLayer)).

Definition layer_at (layers : span_layers) (id : Z) : outcome (option SpanLayer) :=
  at_ layers (Z.to_nat id).

(** [(id < span_layers_.size()) && (span_layers_[id] != nullptr)]. *)
Definition known_layer (layers : span_layers) (id : Z) : option SpanLayer :=
  mjoin (layers !! Z.to_nat id).

Module Lut.
Definition OnLayerCreated (lut : SpanLayerLut) (layer : SpanLayer) (ids : list Z) : list Z :=
  match lut with SeqLut => IdSet.emplace (layer_id_ layer) ids | QuickLut => ids end.

Definition OnLayerAddSpan (lut : SpanLayerLut) (layer : SpanLayer) (ids : list Z) : list Z :=
  match lut with
  | SeqLut => ids
  | QuickLut =>
    if SpanLayerOps.GetSize layer =? 1 then IdSet.emplace (layer_id_ layer) ids else ids
  end.

Definition OnLayerRemoveSpan (lut : SpanLayerLut) (layer : SpanLayer) (ids : list Z) : list Z :=
  match lut with
  | SeqLut => ids
  | QuickLut => if SpanLayerOps.IsEmpty layer then IdSet.erase (layer_id_ layer) ids else ids
  end.

(** The loop of the sequential table: at most [lift] ids are looked at. *)
Fixpoint seq_search (layers : span_layers) (lift : Z) (it : list Z) : Z :=
  match it with
  | [] => SPAN_LAYER_ID_INVALID
  | id :: it =>
    if lift <=? 0 then SPAN_LAYER_ID_INVALID else
    match known_layer layers id with
    | Some layer => if SpanLayerOps.IsEmpty layer then seq_search layers (lift - 1) it else id
    | None => seq_search layers (lift - 1) it
    end
  end.

Definition FindFitLayerId (lut : SpanLayerLut) (layers : span_layers) (ids : list Z)
    (page_len max_lift_level : Z) : Z :=
  if max_lift_level =? 0 then SPAN_LAYER_ID_INVALID else
  match lut with
  | QuickLut =>
    match IdSet.lower_bound page_len ids with
    | [] => SPAN_LAYER_ID_INVALID
    | id :: _ => id
    end
  | SeqLut => seq_search layers max_lift_level (IdSet.lower_bound page_len ids)
  end.
End Lut.

(** ** Sorted id sets *)

Section id_set.
Implicit Types (l : list Z) (x y : Z).

Abbreviation sorted := (StronglySorted Z.lt).

Lemma elem_of_emplace x y l : y ∈ IdSet.emplace x l <-> y = x \/ y ∈ l.
Proof.
  induction l as [|z l IH]; simpl; [set_solver|].
  destruct (Z.ltb_spec x z); [set_solver|]. destruct (Z.eqb_spec x z) as [->|]; set_solver.
Qed.

Lemma emplace_sorted x l : sorted l -> sorted (IdSet.emplace x l).
Proof.
  induction 1 as [|z l Hs IH Hz]; simpl; [by repeat constructor|].
  destruct (Z.ltb_spec x z).
  - constructor; [by constructor|]. constructor; [done|].
    eapply Forall_impl; [exact Hz|]. simpl. lia.
  - destruct (Z.eqb_spec x z) as [->|]; [by constructor|]. constructor; [done|].
    apply Forall_forall. intros y [->|Hy]%elem_of_emplace; [lia|].
    rewrite Forall_forall in Hz. by apply Hz.
Qed.

Lemma elem_of_erase x y l : y ∈ IdSet.erase x l <-> y <> x /\ y ∈ l.
Proof. unfold IdSet.erase. by rewrite list_elem_of_filter. Qed.

Lemma erase_sorted x l : sorted l -> sorted (IdSet.erase x l).
Proof.
  unfold IdSet.erase. induction 1 as [|z l Hs IH Hz]; [constructor|].
  rewrite filter_cons. case_decide; [|done]. constructor; [done|].
  apply Forall_forall. intros y [_ Hy]%list_elem_of_filter. rewrite Forall_forall in Hz. by apply Hz.
Qed.

Lemma erase_absent x l : x ∉ l -> IdSet.erase x l = l.
Proof.
  unfold IdSet.erase. induction l as [|y l IH]; intros Hx; [done|].
  rewrite filter_cons_True by set_solver. f_equal. set_solver.
Qed.

(** [lower_bound] stops at the least id that is not below its argument. *)
Lemma lower_bound_spec x l :
  sorted l ->
  match IdSet.lower_bound x l with
  | [] => forall y, y ∈ l -> y < x
  | i :: _ => i ∈ l /\ x <= i /\ forall y, y ∈ l -> x <= y -> i <= y
  end.
Proof.
  induction 1 as [|z l Hs IH Hz]; simpl; [by intros y ?%not_elem_of_nil|].
  rewrite Forall_forall in Hz. destruct (Z.ltb_spec z x).
  - destruct (IdSet.lower_bound x l) as [|i it].
    + intros y [->|Hy]%elem_of_cons; auto.
    + destruct IH as (Hi & Hxi & Hmin). split; [by right|]. split; [done|].
      intros y [->|Hy]%elem_of_cons ?; [lia|auto].
  - split; [by left|]. split; [done|]. intros y [->|Hy]%elem_of_cons ?; [lia|].
    specialize (Hz y Hy). lia.
Qed.

Lemma elem_of_lower_bound x y l : sorted l -> y ∈ IdSet.lower_bound x l <-> y ∈ l /\ x <= y.
Proof.
  induction 1 as [|z l Hs IH Hz]; simpl; [set_solver|]. rewrite Forall_forall in Hz.
  destruct (Z.ltb_spec z x).
  - rewrite IH, elem_of_cons. naive_solver lia.
  - rewrite elem_of_cons. split; [|naive_solver]. intros [->|Hy]; [naive_solver|].
    split; [by right|]. specialize (Hz y Hy). lia.
Qed.

Lemma lower_bound_sorted x l : sorted l -> sorted (IdSet.lower_bound x l).
Proof.
  induction 1 as [|z l Hs IH Hz]; simpl; [constructor|]. destruct (z <? x); [done|by constructor].
Qed.
End id_set.

(** ** The tables find the best fit *)

Section lut.
Implicit Types (layers : span_layers) (ids : list Z) (layer : SpanLayer).

(** Layer [i] exists and has an idle span. *)
Definition stocked layers (i : Z) : bool :=
  match known_layer layers i with
  | Some layer => negb (bool_decide (free_link_ layer = []))
  | None => false
  end.

(** What a table is for: the shortest stocked layer of at least [n] pages. *)
Definition best_fit layers (n : Z) : Z :=
  match filter (stocked layers) (seqZ n (zlen layers - n)) with
  | i :: _ => i
  | [] => SPAN_LAYER_ID_INVALID
  end.

(** The quick table lists the stocked layers, the sequential one all layers. *)
Definition lut_ok (lut : SpanLayerLut) layers ids : Prop :=
  StronglySorted Z.lt ids /\
  forall i, i ∈ ids <->
    0 <= i /\ match lut with
              | QuickLut => stocked layers i = true
              | SeqLut => is_Some (known_layer layers i)
              end.

(** No list of spans is as long as the address space. *)
Definition sizes_ok layers : Prop :=
  forall i layer, known_layer layers i = Some layer -> zlen (free_link_ layer) < 2 ^ 64.

Lemma zlen_zero {A} (l : list A) : zlen l = 0 <-> l = [].
Proof. destruct l; unfold zlen; simpl; split; (done || lia). Qed.

Lemma IsEmpty_spec layer :
  zlen (free_link_ layer) < 2 ^ 64 -> SpanLayerOps.IsEmpty layer = bool_decide (free_link_ layer = []).
Proof.
  intros Hl. unfold SpanLayerOps.IsEmpty, SpanLayerOps.GetSize, uwrap.
  rewrite Z.mod_small by (split; [apply zlen_nonneg|done]).
  case_bool_decide as He; [by rewrite He|]. apply Z.eqb_neq. by rewrite zlen_zero.
Qed.

Lemma stocked_known layers i : stocked layers i = true -> is_Some (known_layer layers i).
Proof. unfold stocked. by destruct (known_layer layers i). Qed.

Lemma known_bound layers i : 0 <= i -> is_Some (known_layer layers i) -> i < zlen layers.
Proof.
  unfold known_layer. intros Hi [layer Hl]. destruct (layers !! Z.to_nat i) as [l|] eqn:E; [|done].
  apply lookup_lt_Some in E. unfold zlen. lia.
Qed.

Lemma filter_none (P : Z -> bool) l : (forall j, j ∈ l -> P j = false) -> filter P l = [].
Proof.
  induction l as [|z l IH]; intros HP; [done|]. rewrite filter_cons_False; [set_solver|].
  rewrite HP by (by left). by intros [].
Qed.

(** [best_fit] is the least stocked id. *)
Lemma best_fit_spec layers n i :
  0 <= n -> stocked layers i = true -> n <= i ->
  (forall j, n <= j -> stocked layers j = true -> i <= j) -> best_fit layers n = i.
Proof.
  intros Hn Hi Hni Hmin. pose proof (known_bound layers i ltac:(lia) (stocked_known _ _ Hi)) as Hb.
  unfold best_fit. replace (zlen layers - n) with ((i - n) + (zlen layers - i)) by lia.
  rewrite seqZ_app by lia. rewrite filter_app.
  rewrite filter_none.
  - rewrite (seqZ_cons (n + (i - n))) by lia. replace (n + (i - n)) with i by lia.
    simpl app. rewrite filter_cons_True by (by rewrite Hi). done.
  - intros j Hj%elem_of_seqZ. apply not_true_is_false. intros Hs. specialize (Hmin j ltac:(lia) Hs). lia.
Qed.

Lemma best_fit_none layers n :
  0 <= n -> (forall j, n <= j -> stocked layers j = false) -> best_fit layers n = SPAN_LAYER_ID_INVALID.
Proof.
  intros Hn Hmin. unfold best_fit. rewrite filter_none; [done|].
  intros j Hj%elem_of_seqZ. apply Hmin. lia.
Qed.

Lemma seq_search_spec layers lift it :
  sizes_ok layers -> zlen it <= lift ->
  Lut.seq_search layers lift it = default SPAN_LAYER_ID_INVALID (head (filter (stocked layers) it)).
Proof.
  intros Hz. revert lift. induction it as [|i it IH]; intros lift Hl; [done|].
  cbn [Lut.seq_search]. assert (Hp : 0 < lift) by (unfold zlen in Hl; simpl in Hl; lia).
  rewrite (proj2 (Z.leb_gt lift 0)) by done.
  assert (Hit : zlen it <= lift - 1) by (unfold zlen in *; simpl in Hl; lia).
  destruct (stocked layers i) eqn:Es; pose proof Es as Es'; unfold stocked in Es';
    destruct (known_layer layers i) as [layer|] eqn:E; try done.
  - rewrite filter_cons_True by (by rewrite Es). rewrite (IsEmpty_spec layer) by (by eapply Hz).
    by case_bool_decide.
  - rewrite filter_cons_False by (rewrite Es; by intros []). rewrite (IsEmpty_spec layer) by (by eapply Hz).
    case_bool_decide; [|done]. by rewrite IH.
  - rewrite filter_cons_False by (rewrite Es; by intros []). by rewrite IH.
Qed.

Lemma head_filter_sorted (P : Z -> bool) it i :
  StronglySorted Z.lt it -> head (filter P it) = Some i ->
  i ∈ it /\ P i = true /\ forall j, j ∈ it -> P j = true -> i <= j.
Proof.
  induction 1 as [|z it Hs IH Hz]; [done|]. rewrite filter_cons. rewrite Forall_forall in Hz.
  case_decide as HP; simpl.
  - intros [= <-]. apply Is_true_true in HP. split; [by left|]. split; [done|].
    intros j [->|Hj]%elem_of_cons _; [lia|]. specialize (Hz j Hj). lia.
  - intros Hi. destruct (IH Hi) as (H1 & H2 & H3). split; [by right|]. split; [done|].
    intros j [->|Hj]%elem_of_cons Hp; [|auto]. exfalso. apply HP. by rewrite Hp.
Qed.

Lemma seq_fit layers ids n lift :
  lut_ok SeqLut layers ids -> sizes_ok layers -> 0 <= n -> zlen ids <= lift ->
  Lut.seq_search layers lift (IdSet.lower_bound n ids) = best_fit layers n.
Proof.
  intros [Hs Hids] Hz Hn Hl.
  assert (Hlen : zlen (IdSet.lower_bound n ids) <= zlen ids).
  { clear. unfold zlen. induction ids as [|i ids IH]; simpl; [lia|]. destruct (i <? n); simpl; lia. }
  rewrite seq_search_spec by (done || lia).
  destruct (head (filter _ _)) as [i|] eqn:E; simpl.
  - apply head_filter_sorted in E as (Hi & Hsi & Hmin); [|by apply lower_bound_sorted].
    apply elem_of_lower_bound in Hi as [Hi Hni]; [|done]. symmetry. apply best_fit_spec; try done.
    intros j Hj Hsj. apply Hmin; [|done]. apply elem_of_lower_bound; [done|]. split; [|done].
    apply Hids. split; [lia|by apply stocked_known].
  - symmetry. apply best_fit_none; [done|]. intros j Hj. apply not_true_is_false. intros Hsj.
    assert (Hin : j ∈ filter (stocked layers) (IdSet.lower_bound n ids)).
    { apply list_elem_of_filter. split; [by rewrite Hsj|]. apply elem_of_lower_bound; [done|].
      split; [|done]. apply Hids. split; [lia|by apply stocked_known]. }
    destruct (filter _ _); [by apply not_elem_of_nil in Hin|done].
Qed.

Lemma quick_fit layers ids n :
  lut_ok QuickLut layers ids -> 0 <= n ->
  match IdSet.lower_bound n ids with [] => SPAN_LAYER_ID_INVALID | i :: _ => i end = best_fit layers n.
Proof.
  intros [Hs Hids] Hn. pose proof (lower_bound_spec n ids Hs) as Hb.
  destruct (IdSet.lower_bound n ids) as [|i it].
  - symmetry. apply best_fit_none; [done|]. intros j Hj. apply not_true_is_false. intros Hsj.
    specialize (Hb j). rewrite Hids in Hb. specialize (Hb ltac:(split; [lia|done])). lia.
  - destruct Hb as (Hi & Hni & Hmin). apply Hids in Hi as [H0 Hsi]. symmetry.
    apply best_fit_spec; try done. intros j Hj Hsj. apply Hmin; [|done]. apply Hids. split; [lia|done].
Qed.

(** Both lookup tables compute the best fit.  Whether only stocked layers
    are recorded or all existing ones are searched, the id returned is the
    shortest layer of at least the wanted length that has an idle span, or the
    invalid id when there is none. *)
Theorem lut_finds_best_fit lut layers ids n lift :
  lut_ok lut layers ids -> sizes_ok layers -> 0 <= n -> 0 < lift -> zlen ids <= lift ->
  Lut.FindFitLayerId lut layers ids n lift = best_fit layers n.
Proof.
  intros Hok Hz Hn Hp Hl. unfold Lut.FindFitLayerId. rewrite (proj2 (Z.eqb_neq lift 0)) by lia.
  destruct lut; [by apply quick_fit|by apply (seq_fit layers ids)].
Qed.
End lut.
