(* ===== verification/MemScalable.v ===== *)
(** * MemScalable: the page span allocator

    [runtime/v2/kernel/memory/allocator/scalable_allocator.cc] with
    [span_layer.cc], [device_allocator.cc] and the parts of
    [span_layer_lut.h] that run over the layers.  The allocator serves
    requests from idle spans of the right length, splits a longer span, or
    takes a new block from the device; a freed span merges with its idle
    buddies and waits in the layer of its length.

    The code threads one object through every call: it becomes a state monad
    over [outcome].  References to layers are positions, references to spans
    are addresses.  [ExpandableActiveMemoryAllocatorImp], which backs a
    reserved range of virtual addresses with physical pages, is an interface
    here, as are the device's memory and the object pools. *)

From S2P Require Import Prelude MemLink MemSpan.

(** ** Interfaces *)

(** Host memory: the objects behind [span_allocator_] and [layer_allocator_].
    Constructing at the null pointer is undefined, so running dry is a
    [Fault].  [freed_next h a] is what [link_.next_] reads as in the span at [a]
    after it was freed, [h] being the spans that are left. *)
Class HostMemory := {
  span_new : span_heap -> pointer;
  layer_new : span_layers -> bool;
  freed_next : span_heap -> addr -> outcome pointer;
}.

(** [DeviceMemAllocator]: the blocks handed out, with address and size. *)
Abbreviation device_blocks := (gmap positive (Z * Z)).
Class DeviceMem := {
  dev_alloc : device_blocks -> Z -> option (positive * Z);
  dev_free : device_blocks -> positive -> bool;
}.

(** [ExpandableActiveMemoryAllocatorImp] and its physical allocator. *)
Class ExpandableApi := {
  Expandable : Type;
  IsValidVirtualAddr : Expandable -> Z -> bool;
  MallocPhysicalMemory : Z -> Z -> Expandable -> Z * Z * Expandable;
  MallocPhysicalMemoryPa : Z -> list Z -> bool -> Expandable -> Z * Expandable;
  FreePhysicalMemory : Z -> Z -> bool -> bool -> Expandable -> Expandable;
  FreePhysicalMemoryPa : Z -> list Z -> bool -> bool -> Expandable -> Expandable;
  GetPaList : Expandable -> list Z;
  ReserveMemAddress : Z -> Expandable -> option Z * Expandable;
  ReleaseMemAddress : Z -> Z -> Expandable -> Expandable;
  ReserveVirtualMemory : Z -> Expandable -> option Z * Z * Expandable;
  ReleaseVirtualMemory : Expandable -> Expandable;
  ActiveMemorySize : Expandable -> Z;
  SetTheorySize : Z -> Expandable -> Expandable;
  SetTheoryMinSize : Z -> Expandable -> Expandable;
}.

Definition RET_SUCCESS : Z := 0.
Definition PHYSICAL_MEM_USING : Z := 2.
Definition NEW_VA : Z := 3.
Definition kLargePageSizeBits : Z := 23.
Definition kLargePageSize : Z := Z.shiftl 1 kLargePageSizeBits.
Definition kLargePageSizeMask : Z := kLargePageSize - 1.
Definition kSafeTryCount : nat := 1000.

(** ** scalable_config.h, mem_size.h *)

Record ScalableConfig := {
  page_idem_num : Z;
  page_mem_size_total_threshold : Z;
  span_count_in_layer_threshold : Z;
  span_layer_lift_max : Z;
  uncacheable_size_threshold : Z;
  enable_quick_layer_mode : bool;
}.

Definition MemSize_GetAlignedOf (size alignSize : Z) : Z :=
  Z.land (uwrap 64 (size + alignSize - 1)) (uwrap 64 (Z.lnot (alignSize - 1))).

(** ** device_allocator.h *)

Record DeviceAllocator := {
  occupied_size_ : Z;
  alloc_count_ : Z;
  free_count_ : Z;
  blocks_ : device_blocks;
}.

Module DeviceAllocatorOps.
Section model.
Context `{DeviceMem}.

Definition Alloc (size : Z) (d : DeviceAllocator) : BlockAddr * DeviceAllocator :=
  let n := uwrap 64 (alloc_count_ d + 1) in
  match dev_alloc (blocks_ d) size with
  | Some (b, address) =>
    (Some b, {| occupied_size_ := uwrap 64 (occupied_size_ d + size); alloc_count_ := n;
                free_count_ := free_count_ d; blocks_ := <[b := (address, size)]> (blocks_ d) |})
  | None =>
    (None, {| occupied_size_ := occupied_size_ d; alloc_count_ := n;
              free_count_ := free_count_ d; blocks_ := blocks_ d |})
  end.

Definition Free (block : BlockAddr) (d : DeviceAllocator) : outcome DeviceAllocator :=
  let n := uwrap 64 (free_count_ d + 1) in
  let counted := {| occupied_size_ := occupied_size_ d; alloc_count_ := alloc_count_ d;
                    free_count_ := n; blocks_ := blocks_ d |} in
  match block with
  | None => Ok counted
  | Some b =>
    match blocks_ d !! b with
    | None => Fault
    | Some (_, size) =>
      if dev_free (blocks_ d) b then
        Ok {| occupied_size_ :=
                if size <=? occupied_size_ d then occupied_size_ d - size else occupied_size_ d;
              alloc_count_ := alloc_count_ d; free_count_ := n;
              blocks_ := delete b (blocks_ d) |}
      else Ok counted
    end
  end.
End model.
End DeviceAllocatorOps.

(** ** The state of the allocator *)

Record NewVaLayers := {
  new_span_layers_ : span_layers;
  new_span_layer_ids_ : list Z;
  new_va_size_ : Z;
}.

Record Counters := MkCounters {
  recycle_count_ : Z;
  alloc_succ_count_ : Z;
  free_succ_count_ : Z;
  max_occupied_size_ : Z;
  base_addr_ : Z;
  theory_size_ : Z;
  theory_min_size_ : Z;
  real_theory_size_ : Z;
  real_theory_min_size_ : Z;
  try_count_ : Z;
  is_fix_sized_ : bool;
}.

Definition set_try_count_ : Z := 10.

Section state.
Context `{ExpandableApi}.

Record Scalable := MkScalable {
  spans : span_heap;
  occupied_spans_ : list addr;
  span_layers_ : span_layers;
  span_layer_ids_ : list Z;
  new_va_ : NewVaLayers;
  expandable_ : Expandable;
  device_ : DeviceAllocator;
  counters_ : Counters;
}.

Definition set_spans h s := MkScalable h (occupied_spans_ s) (span_layers_ s) (span_layer_ids_ s)
  (new_va_ s) (expandable_ s) (device_ s) (counters_ s).
Definition set_occupied l s := MkScalable (spans s) l (span_layers_ s) (span_layer_ids_ s)
  (new_va_ s) (expandable_ s) (device_ s) (counters_ s).
Definition set_layers l s := MkScalable (spans s) (occupied_spans_ s) l (span_layer_ids_ s)
  (new_va_ s) (expandable_ s) (device_ s) (counters_ s).
Definition set_ids l s := MkScalable (spans s) (occupied_spans_ s) (span_layers_ s) l
  (new_va_ s) (expandable_ s) (device_ s) (counters_ s).
Definition set_new_va v s := MkScalable (spans s) (occupied_spans_ s) (span_layers_ s)
  (span_layer_ids_ s) v (expandable_ s) (device_ s) (counters_ s).
Definition set_expandable e s := MkScalable (spans s) (occupied_spans_ s) (span_layers_ s)
  (span_layer_ids_ s) (new_va_ s) e (device_ s) (counters_ s).
Definition set_device d s := MkScalable (spans s) (occupied_spans_ s) (span_layers_ s)
  (span_layer_ids_ s) (new_va_ s) (expandable_ s) d (counters_ s).
Definition set_counters c s := MkScalable (spans s) (occupied_spans_ s) (span_layers_ s)
  (span_layer_ids_ s) (new_va_ s) (expandable_ s) (device_ s) c.

Definition M (A : Type) : Type := Scalable -> outcome (A * Scalable).

#[global] Instance M_ret : MRet M := fun A a s => Ok (a, s).
#[global] Instance M_bind : MBind M := fun A B f m s => '(a, s) ← m s; f a s.

Definition gets {A} (f : Scalable -> A) : M A := fun s => Ok (f s, s).
Definition modify (f : Scalable -> Scalable) : M unit := fun s => Ok (tt, f s).
Definition lift {A} (o : outcome A) : M A := fun s => a ← o; Ok (a, s).
Definition fault {A} : M A := fun _ => Fault.

Definition modify_expandable (f : Expandable -> Expandable) : M unit :=
  modify (fun s => set_expandable (f (expandable_ s)) s).
Definition modify_counters (f : Counters -> Counters) : M unit :=
  modify (fun s => set_counters (f (counters_ s)) s).

Definition deref (a : addr) : M PageSpan := h ← gets spans; lift (get_span a h).
Definition on_span (f : PageSpan -> PageSpan) (a : addr) : M unit :=
  h ← gets spans; h ← lift (update_span f a h); modify (set_spans h).

(** A layer of [span_layers_] or of [new_span_layers_]. *)
Inductive layer_ref := Plain (id : Z) | NewVa (id : Z).

Definition deref_layer (r : layer_ref) : M SpanLayer :=
  l ← match r with
      | Plain id => ls ← gets span_layers_; lift (layer_at ls id)
      | NewVa id => v ← gets new_va_; lift (layer_at (new_span_layers_ v) id)
      end;
  match l with Some layer => mret layer | None => fault end.

Definition put_layer (r : layer_ref) (layer : option SpanLayer) : M unit :=
  modify (fun s =>
    match r with
    | Plain id => set_layers (<[Z.to_nat id := layer]> (span_layers_ s)) s
    | NewVa id =>
      set_new_va {| new_span_layers_ := <[Z.to_nat id := layer]> (new_span_layers_ (new_va_ s));
                    new_span_layer_ids_ := new_span_layer_ids_ (new_va_ s);
                    new_va_size_ := new_va_size_ (new_va_ s) |} s
    end).

(** [span_layers_[id]], null or not. *)
Definition plain_layer (id : Z) : M (option SpanLayer) :=
  ls ← gets span_layers_; lift (layer_at ls id).
End state.
Arguments M {_} _.

Module ScalableAllocator.
Section model.
Context `{MemBlockApi} `{HostMemory} `{DeviceMem} `{ExpandableApi} (cfg : ScalableConfig).

(** The fields the constructor computes. *)
Definition idem : Z := page_idem_num cfg.
Definition page_mem_size_ : Z := PageLen_GetMemSize 1 idem.
Definition span_layer_capacity_ : Z :=
  uwrap 32 (1 + SpanLayerId_GetIdFromSize (page_mem_size_total_threshold cfg) idem).
Definition uncacheable_layer_start_ : Z :=
  SpanLayerId_GetIdFromSize (uncacheable_size_threshold cfg) idem.
Definition span_layer_page_capacity_ : Z :=
  PageLen_GetLenFromSize (page_mem_size_total_threshold cfg) idem.
Definition lut : SpanLayerLut := if enable_quick_layer_mode cfg then QuickLut else SeqLut.

Definition construct (e : Expandable) : Scalable :=
  {| spans := ∅; occupied_spans_ := [];
     span_layers_ := replicate (Z.to_nat span_layer_capacity_) None;
     span_layer_ids_ := [];
     new_va_ := {| new_span_layers_ := replicate (Z.to_nat span_layer_capacity_) None;
                   new_span_layer_ids_ := []; new_va_size_ := 0 |};
     expandable_ := e;
     device_ := {| occupied_size_ := 0; alloc_count_ := 0; free_count_ := 0; blocks_ := ∅ |};
     counters_ := MkCounters 0 0 0 0 0 0 0 0 0 0 false |}.

Definition GetSize (s : PageSpan) : Z := PageSpanOps.GetSize idem s.

Definition GetAllocSize (size : Z) : Z :=
  if size <? page_mem_size_ then page_mem_size_ else MemSize_GetAlignedOf size page_mem_size_.

Definition GetlayerSpanCapacity (layer_id : Z) : Z :=
  if (uncacheable_layer_start_ <=? layer_id) || (layer_id =? 0) then 0
  else Z.min (span_layer_page_capacity_ / layer_id) (uwrap 32 (span_count_in_layer_threshold cfg)).

Definition IsLayerCacheable (layer_id : Z) : bool := layer_id <? uncacheable_layer_start_.

Definition GetOccupiedSize : M Z :=
  gets (fun s => uwrap 64 (occupied_size_ (device_ s) + ActiveMemorySize (expandable_ s))).

Definition IsThresholdExceeded (size : Z) : M bool :=
  o ← GetOccupiedSize; mret (uwrap 64 (page_mem_size_total_threshold cfg - size) <? o).

(** [span_allocator_.Free]: the destructor and back to the pool. *)
Definition free_object (span : addr) : M unit :=
  _ ← deref span; modify (fun s => set_spans (delete span (spans s)) s).

(** *** Layers and the lists of spans *)

Definition PopSpanFromLayer (id : Z) : M pointer :=
  layer ← deref_layer (Plain id);
  let '(span, layer) := SpanLayerOps.PopSpan layer in
  _ ← put_layer (Plain id) (Some layer);
  _ ← modify (fun s => set_ids (Lut.OnLayerRemoveSpan lut layer (span_layer_ids_ s)) s);
  mret span.

Definition PushSpanToLayer (id : Z) (span : addr) : M unit :=
  layer ← deref_layer (Plain id);
  layer ← lift (SpanLayerOps.PushSpan span layer);
  _ ← put_layer (Plain id) (Some layer);
  modify (fun s => set_ids (Lut.OnLayerAddSpan lut layer (span_layer_ids_ s)) s).

Definition RemoveFromLayer (id : Z) (span : addr) : M unit :=
  layer ← deref_layer (Plain id);
  layer ← lift (SpanLayerOps.Remove span layer);
  _ ← put_layer (Plain id) (Some layer);
  modify (fun s => set_ids (Lut.OnLayerRemoveSpan lut layer (span_layer_ids_ s)) s).

(** [occupied_spans_.push_front] and [occupied_spans_.remove]. *)
Definition push_occupied (span : addr) : M unit :=
  l ← gets occupied_spans_;
  if decide (span ∈ l) then fault else modify (set_occupied (span :: l)).
Definition remove_occupied (span : addr) : M unit :=
  l ← gets occupied_spans_;
  if decide (span ∈ l) then modify (set_occupied (filter (fun a => a <> span) l)) else fault.

Definition OccupySpan (span : addr) (page_len : Z) : M unit :=
  _ ← on_span (PageSpanOps.Alloc idem page_len) span;
  _ ← push_occupied span;
  modify_counters (fun c =>
    MkCounters (recycle_count_ c) (uwrap 64 (alloc_succ_count_ c + 1)) (free_succ_count_ c)
      (max_occupied_size_ c) (base_addr_ c) (theory_size_ c) (theory_min_size_ c)
      (real_theory_size_ c) (real_theory_min_size_ c) (try_count_ c) (is_fix_sized_ c)).

Definition FetchLayerSpan (layer_id : Z) : M pointer :=
  ls ← gets span_layers_;
  if bool_decide (ls = []) then mret None else
  l ← plain_layer layer_id;
  match l with
  | None => mret None
  | Some _ =>
    span ← PopSpanFromLayer layer_id;
    match span with
    | Some a => _ ← OccupySpan a layer_id; mret span
    | None => mret span
    end
  end.

Definition FetchSpanLayer (layer_id : Z) : M (option Z) :=
  ls ← gets span_layers_;
  if bool_decide (ls = []) || (span_layer_capacity_ <=? layer_id) then mret None else
  l ← plain_layer layer_id;
  match l with
  | Some _ => mret (Some layer_id)
  | None =>
    if layer_new ls then
      let newLayer := {| layer_id_ := layer_id; span_capacity_ := GetlayerSpanCapacity layer_id;
                         free_link_ := [] |} in
      _ ← put_layer (Plain layer_id) (Some newLayer);
      _ ← modify (fun s => set_ids (Lut.OnLayerCreated lut newLayer (span_layer_ids_ s)) s);
      mret (Some layer_id)
    else fault
  end.

Definition FetchNewVaLayerSpan (layer_id : Z) : M pointer :=
  v ← gets new_va_;
  if bool_decide (new_span_layers_ v = []) || (span_layer_capacity_ <=? layer_id) then mret None else
  l ← lift (layer_at (new_span_layers_ v) layer_id);
  match l with
  | None => mret None
  | Some layer =>
    let '(span, layer) := SpanLayerOps.PopSpan layer in
    _ ← put_layer (NewVa layer_id) (Some layer);
    match span with
    | Some a => _ ← OccupySpan a layer_id; mret span
    | None => mret span
    end
  end.

Definition FetchNewVaSpanLayer (layer_id : Z) : M (option Z) :=
  v ← gets new_va_;
  if bool_decide (new_span_layers_ v = []) || (span_layer_capacity_ <=? layer_id) then mret None else
  l ← lift (layer_at (new_span_layers_ v) layer_id);
  match l with
  | Some _ => mret (Some layer_id)
  | None =>
    if layer_new (new_span_layers_ v) then
      _ ← put_layer (NewVa layer_id)
            (Some {| layer_id_ := layer_id; span_capacity_ := GetlayerSpanCapacity layer_id;
                     free_link_ := [] |});
      _ ← modify (fun s => set_new_va
            {| new_span_layers_ := new_span_layers_ (new_va_ s);
               new_span_layer_ids_ := IdSet.emplace layer_id (new_span_layer_ids_ (new_va_ s));
               new_va_size_ := new_va_size_ (new_va_ s) |} s);
      mret (Some layer_id)
    else fault
  end.

(** *** Buddies *)

Definition PickOutBuddy (buddy_span : pointer) : M pointer :=
  ls ← gets span_layers_;
  match buddy_span with
  | None => mret None
  | Some b =>
    if bool_decide (ls = []) then mret None else
    s ← deref b;
    if negb (GetCount s =? 0) then mret None else
    let page_len := page_len_ s in
    if span_layer_capacity_ <=? page_len then mret None else
    l ← plain_layer page_len;
    match l with
    | None => mret None
    | Some _ => _ ← RemoveFromLayer page_len b; mret (Some b)
    end
  end.

Definition TryMergePrev (span : addr) : M addr :=
  s ← deref span;
  prev_buddy ← PickOutBuddy (GetPrevBuddy s);
  match prev_buddy with
  | None => mret span
  | Some p =>
    h ← gets spans; h ← lift (PageSpanOps.MergeBuddy p span h); _ ← modify (set_spans h);
    _ ← free_object span;
    mret p
  end.

Definition TryMergeNext (span : addr) : M addr :=
  s ← deref span;
  next_buddy ← PickOutBuddy (GetNextBuddy s);
  match next_buddy with
  | None => mret span
  | Some n =>
    h ← gets spans; h ← lift (PageSpanOps.MergeBuddy span n h); _ ← modify (set_spans h);
    _ ← free_object n;
    mret span
  end.

Definition FreeSpan (span : addr) : M unit :=
  s ← deref span;
  if new_va_span_ s then
    layer ← FetchNewVaSpanLayer (page_len_ s);
    match layer with
    | Some id => l ← deref_layer (NewVa id); l ← lift (SpanLayerOps.PushSpan span l);
                 put_layer (NewVa id) (Some l)
    | None => mret tt
    end
  else
    layer ← FetchSpanLayer (page_len_ s);
    match layer with
    | None => mret tt
    | Some id =>
      _ ← PushSpanToLayer id span;
      modify_counters (fun c =>
        MkCounters (recycle_count_ c) (alloc_succ_count_ c) (uwrap 64 (free_succ_count_ c + 1))
          (max_occupied_size_ c) (base_addr_ c) (theory_size_ c) (theory_min_size_ c)
          (real_theory_size_ c) (real_theory_min_size_ c) (try_count_ c) (is_fix_sized_ c))
    end.

(** [while (span->GetCount() > 0U) { span->SubCount(); }]. *)
Fixpoint drop_count (fuel : nat) (n : Z) : outcome Z :=
  if 0 <? n then match fuel with O => Fault | S fuel => drop_count fuel (SubCount n) end else Ok n.
Definition DropReferences (span : addr) : M unit :=
  s ← deref span;
  n ← lift (drop_count (Z.to_nat (GetCount s)) (GetCount s));
  on_span (set_count n) span.

(** Taking a span out of use: off the occupied list, merged with idle buddies. *)
Definition Unoccupy (span : addr) : M addr :=
  _ ← remove_occupied span;
  span ← TryMergeNext span;
  TryMergePrev span.

Definition FreeSpanEx (span : addr) : M unit :=
  _ ← DropReferences span;
  span ← Unoccupy span;
  FreeSpan span.

(** *** Queries *)

Definition GetIdleSpanCountOfLayer (s : Scalable) (layer_id : Z) : Z :=
  if span_layer_capacity_ <=? layer_id then 0 else
  match known_layer (span_layers_ s) layer_id with
  | Some layer => SpanLayerOps.GetSize layer | None => 0 end.

Definition GetIdlePageCountOfLayer (s : Scalable) (layer_id : Z) : Z :=
  if span_layer_capacity_ <=? layer_id then 0 else
  match known_layer (span_layers_ s) layer_id with
  | Some layer => SpanLayerOps.GetPageSize layer | None => 0 end.

(** The count is converted to the 32 bits of [PageLen] on the way. *)
Definition GetIdleMemSizeOfLayer (s : Scalable) (layer_id : Z) : Z :=
  PageLen_GetMemSize (uwrap 32 (GetIdlePageCountOfLayer s layer_id)) idem.

Definition sum_layers (f : Z -> Z) (ids : list Z) : Z :=
  foldl (fun acc id => uwrap 64 (acc + f id)) 0 ids.
Definition GetIdleSpanCount (s : Scalable) : Z :=
  sum_layers (GetIdleSpanCountOfLayer s) (span_layer_ids_ s).
Definition GetIdlePageCount (s : Scalable) : Z :=
  sum_layers (GetIdlePageCountOfLayer s) (span_layer_ids_ s).
Definition GetIdleMemSize (s : Scalable) : Z :=
  sum_layers (GetIdleMemSizeOfLayer s) (span_layer_ids_ s).

Definition GetOccupiedSpanCount (s : Scalable) : Z := uwrap 64 (zlen (occupied_spans_ s)).
Definition GetOccupiedPageCount (s : Scalable) : outcome Z :=
  foldl (fun acc a => n ← acc; p ← get_span a (spans s); Ok (uwrap 64 (n + page_len_ p)))
    (Ok 0) (occupied_spans_ s).
Definition GetOccupiedMemSize (s : Scalable) : outcome Z :=
  n ← GetOccupiedPageCount s; Ok (PageLen_GetMemSize (uwrap 32 n) idem).
Definition GetRecycleCount (s : Scalable) : Z := recycle_count_ (counters_ s).

(** *** New spans *)

Definition DevAlloc (size : Z) : M BlockAddr :=
  d ← gets device_;
  let '(b, d) := DeviceAllocatorOps.Alloc size d in
  _ ← modify (set_device d);
  mret b.
Definition DevFree (block : BlockAddr) : M unit :=
  d ← gets device_; d ← lift (DeviceAllocatorOps.Free block d); modify (set_device d).

(** [block->GetAddr()]. *)
Definition block_address (b : positive) : M Z :=
  d ← gets device_; match blocks_ d !! b with Some (a, _) => mret a | None => fault end.

Definition BlockAlloc (block_addr : BlockAddr) (address size : Z) : M pointer :=
  h ← gets spans;
  match span_new h with
  | None => fault
  | Some a => _ ← modify (set_spans (<[a := PageSpanOps.construct block_addr address size]> h));
              mret (Some a)
  end.

Definition FetchNewSpan (size page_len : Z) : M pointer :=
  exceeded ← IsThresholdExceeded size;
  idle ← gets GetIdleMemSize;
  if exceeded && (0 <? idle) then mret None else
  block ← DevAlloc size;
  match block with
  | None => mret None
  | Some b =>
    address ← block_address b;
    span ← BlockAlloc block address size;
    match span with
    | None => _ ← DevFree block; mret None
    | Some a => _ ← OccupySpan a page_len; mret span
    end
  end.

Definition SplitSpan (fix_layer_id fit_layer_id : Z) (span : pointer) (size : Z) : M pointer :=
  match span with
  | None => mret None
  | Some a =>
    let left_page_len := uwrap 32 (fit_layer_id - fix_layer_id) in
    s ← deref a;
    let buddy_addr := PageLen_ForwardAddr left_page_len idem (GetAddr s) in
    buddy_span ← BlockAlloc None buddy_addr size;
    match buddy_span with
    | None => mret None
    | Some b =>
      h ← gets spans; h ← lift (PageSpanOps.SetBuddy a b h); _ ← modify (set_spans h);
      _ ← on_span (PageSpanOps.SetPageLen idem left_page_len) a;
      layer ← FetchSpanLayer left_page_len;
      match layer with
      | None => _ ← free_object a; mret None
      | Some id =>
        _ ← PushSpanToLayer id a;
        _ ← OccupySpan b fix_layer_id;
        mret buddy_span
      end
    end
  end.

Definition IsSplitable (page_len : Z) (a : addr) : M bool :=
  s ← deref a;
  let '(b, s) := PageSpanOps.IsSplitable page_len s in
  _ ← on_span (fun _ => s) a; mret b.

(** The span and the new value of [ret]. *)
Definition FetchSplitedSpan (fix_layer_id fit_layer_id size ret : Z) : M (pointer * Z) :=
  ls ← gets span_layers_;
  if bool_decide (ls = []) || (fit_layer_id <=? fix_layer_id) then mret (None, ret) else
  l ← plain_layer fit_layer_id;
  match l with
  | None => mret (None, ret)
  | Some _ =>
    span ← PopSpanFromLayer fit_layer_id;
    match span with
    | None => mret (None, ret)
    | Some a =>
      s ← deref a;
      c ← gets counters_;
      if (set_try_count_ <? try_count_ c) && negb (GetAddr s =? base_addr_ c) then
        _ ← OccupySpan a fit_layer_id;
        _ ← modify_counters (fun c =>
              MkCounters (recycle_count_ c) (alloc_succ_count_ c) (free_succ_count_ c)
                (max_occupied_size_ c) (base_addr_ c) (theory_size_ c) (theory_min_size_ c)
                (real_theory_size_ c) (real_theory_min_size_ c) 0 (is_fix_sized_ c));
        mret (span, PHYSICAL_MEM_USING)
      else
        e ← gets expandable_;
        keep ← (if IsValidVirtualAddr e (GetAddr s) then mret false
                else b ← IsSplitable fix_layer_id a; mret (negb b));
        if keep : bool then
          layer ← FetchSpanLayer fit_layer_id;
          _ ← match layer with Some id => PushSpanToLayer id a | None => mret tt end;
          p ← FetchNewSpan size fix_layer_id;
          mret (p, ret)
        else
          p ← SplitSpan fix_layer_id fit_layer_id span size;
          mret (p, ret)
    end
  end.

(** *** Spans over physical pages that are mapped a second time *)

(** The loop that looks for a reusable span: the one found, and those that
    must go back. *)
Fixpoint try_reuse (tries : nat) (fix_layer_id : Z) (tried : list addr) : M (pointer * list addr) :=
  match tries with
  | O => mret (None, tried)
  | S tries =>
    span ← FetchNewVaLayerSpan fix_layer_id;
    match span with
    | None => mret (None, tried)
    | Some a =>
      s ← deref a;
      e ← gets expandable_;
      let '(ret, e) := MallocPhysicalMemoryPa (GetAddr s) (pa_list_ s) false e in
      _ ← modify (set_expandable e);
      if ret =? RET_SUCCESS then mret (span, tried)
      else try_reuse tries fix_layer_id (tried ++ [a])
    end
  end.

Fixpoint free_all (l : list addr) : M unit :=
  match l with [] => mret tt | a :: l => _ ← FreeSpanEx a; free_all l end.

Definition FetchNewVaSpan (pa_list : list Z) : M pointer :=
  let alloc_size := uwrap 64 (Z.shiftl (zlen pa_list) kLargePageSizeBits) in
  let fix_layer_id := SpanLayerId_GetIdFromSize alloc_size idem in
  '(span, tried) ← try_reuse kSafeTryCount fix_layer_id [];
  _ ← free_all tried;
  match span with
  | Some a =>
    s ← deref a;
    _ ← modify_expandable (FreePhysicalMemoryPa (GetAddr s) pa_list false false);
    mret span
  | None =>
    e ← gets expandable_;
    let '(address, e) := ReserveMemAddress alloc_size e in
    _ ← modify (set_expandable e);
    match address with
    | None => mret None
    | Some address =>
      _ ← modify (fun s => set_new_va
            {| new_span_layers_ := new_span_layers_ (new_va_ s);
               new_span_layer_ids_ := new_span_layer_ids_ (new_va_ s);
               new_va_size_ := uwrap 64 (new_va_size_ (new_va_ s) + alloc_size) |} s);
      span ← BlockAlloc None address alloc_size;
      match span with
      | None => _ ← modify_expandable (ReleaseMemAddress address alloc_size); mret None
      | Some a =>
        _ ← on_span (fun s => SetPaList (pa_list ++ pa_list_ s) s) a;
        s ← deref a;
        e ← gets expandable_;
        let '(ret, e) := MallocPhysicalMemoryPa (GetAddr s) (pa_list_ s) true e in
        _ ← modify (set_expandable e);
        if negb (ret =? RET_SUCCESS) then
          _ ← free_object a;
          _ ← modify_expandable (ReleaseMemAddress address alloc_size);
          mret None
        else _ ← OccupySpan a fix_layer_id; mret span
      end
    end
  end.

Definition ProcessNewVaSpan (span : addr) (size reuse_size alloc_size : Z) : M pointer :=
  _ ← DropReferences span;
  span ← Unoccupy span;
  let free_size := Z.land reuse_size kLargePageSizeMask in
  s ← deref span;
  let split_tail := (kLargePageSize <? reuse_size) && (0 <? free_size) in
  free_span ← (if split_tail then
                 SplitSpan (SpanLayerId_GetIdFromSize free_size idem)
                   (SpanLayerId_GetIdFromSize (GetSize s) idem) (Some span) free_size
               else mret None);
  if split_tail && bool_decide (free_span = None) then mret None else
  let free_size := if split_tail then free_size else 0 in
  let using_size := uwrap 64 (reuse_size - free_size) in
  s ← deref span;
  let using_fix_layer_id := SpanLayerId_GetIdFromSize using_size idem in
  let using_fit_layer_id := SpanLayerId_GetIdFromSize (GetSize s) idem in
  span ← match free_span with
         | Some _ => PopSpanFromLayer using_fit_layer_id
         | None => mret (Some span)
         end;
  using_span ← SplitSpan using_fix_layer_id using_fit_layer_id span using_size;
  _ ← match free_span with Some f => FreeSpanEx f | None => mret tt end;
  match using_span with
  | None => mret None
  | Some u =>
    e ← gets expandable_;
    new_va_span ← FetchNewVaSpan (GetPaList e);
    match new_va_span with
    | None => _ ← FreeSpanEx u; mret None
    | Some n =>
      _ ← on_span (fun s => SetRefSpan using_span (SetRealSize size (SetNewVaSpan true s))) n;
      mret new_va_span
    end
  end.

Definition ProcessPaUsingSpan (span : addr) (size reuse_size alloc_size : Z) : M pointer :=
  if 0 <? reuse_size then
    _ ← DropReferences span;
    span ← Unoccupy span;
    s ← deref span;
    p ← SplitSpan (SpanLayerId_GetIdFromSize reuse_size idem)
          (SpanLayerId_GetIdFromSize (GetSize s) idem) (Some span) reuse_size;
    match p with
    | None => mret None
    | Some a => _ ← on_span (SetRealSize reuse_size) a; mret p
    end
  else _ ← on_span (SetRealSize size) span; mret (Some span).

(** *** Alloc and Free *)

(** The two stages of [AllocImp]: a span is found, then its pages are backed
    with physical memory. *)
Definition AllocImp_fetch (alloc_size fix_layer_id ret : Z) : M (pointer * Z) :=
  span ← FetchLayerSpan fix_layer_id;
  match span with
  | Some _ => mret (span, ret)
  | None =>
    s ← gets id;
    let fit_layer_id := Lut.FindFitLayerId lut (span_layers_ s) (span_layer_ids_ s)
                          (uwrap 32 (fix_layer_id + 1)) (span_layer_lift_max cfg) in
    if span_layer_capacity_ <=? fit_layer_id
    then p ← FetchNewSpan alloc_size fix_layer_id; mret (p, ret)
    else FetchSplitedSpan fix_layer_id fit_layer_id alloc_size ret
  end.

Definition AllocImp_back (size alloc_size : Z) (span : pointer) (ret : Z) : M (pointer * Z) :=
  match span with
  | None => mret (span, ret)
  | Some a =>
    if ret =? PHYSICAL_MEM_USING then _ ← on_span (SetRealSize size) a; mret (span, ret) else
    s ← deref a;
    e ← gets expandable_;
    let '(ret, reuse_size, e) := MallocPhysicalMemory (GetAddr s) alloc_size e in
    _ ← modify (set_expandable e);
    if negb (ret =? RET_SUCCESS) then
      if ret =? NEW_VA then
        p ← ProcessNewVaSpan a size reuse_size alloc_size; mret (p, RET_SUCCESS)
      else if ret =? PHYSICAL_MEM_USING then
        p ← ProcessPaUsingSpan a size reuse_size alloc_size; mret (p, ret)
      else _ ← FreeSpanEx a; mret (None, ret)
    else _ ← on_span (SetRealSize size) a; mret (span, ret)
  end.

Definition AllocImp (size ret : Z) : M (pointer * Z) :=
  _ ← modify_counters (fun c =>
        MkCounters (recycle_count_ c) (alloc_succ_count_ c) (free_succ_count_ c)
          (max_occupied_size_ c) (base_addr_ c) (theory_size_ c) (theory_min_size_ c)
          (real_theory_size_ c) (real_theory_min_size_ c) (uwrap 64 (try_count_ c + 1))
          (is_fix_sized_ c));
  let alloc_size := GetAllocSize size in
  let fix_layer_id := SpanLayerId_GetIdFromSize alloc_size idem in
  if span_layer_capacity_ <=? fix_layer_id then mret (None, ret) else
  '(span, ret) ← AllocImp_fetch alloc_size fix_layer_id ret;
  AllocImp_back size alloc_size span ret.

(** The retry loop: the last span, and the ones to give back. *)
Fixpoint alloc_loop (tries : nat) (size : Z) (span : pointer) (tried : list addr)
    : M (pointer * list addr) :=
  match tries with
  | O => mret (span, tried)
  | S tries =>
    '(span, ret) ← AllocImp size RET_SUCCESS;
    if negb (ret =? PHYSICAL_MEM_USING) then mret (span, tried) else
    alloc_loop tries size span (match span with Some a => tried ++ [a] | None => tried end)
  end.

Definition Alloc (size : Z) : M pointer :=
  if page_mem_size_total_threshold cfg <? size then mret None else
  _ ← modify_counters (fun c =>
        MkCounters (recycle_count_ c) (alloc_succ_count_ c) (free_succ_count_ c)
          (max_occupied_size_ c) (base_addr_ c) (theory_size_ c) (theory_min_size_ c)
          (real_theory_size_ c) (real_theory_min_size_ c) 0 (is_fix_sized_ c));
  '(span, tried) ← alloc_loop kSafeTryCount size None [];
  _ ← free_all tried;
  match span with
  | None => mret None
  | Some a =>
    s ← deref a;
    c ← gets counters_;
    let theory_size := uwrap 64 (theory_size_ c + GetSize s) in
    let real_theory_size := uwrap 64 (real_theory_size_ c + real_size_ s) in
    _ ← modify_expandable (SetTheorySize theory_size);
    _ ← (if theory_min_size_ c <? theory_size
         then modify_expandable (SetTheoryMinSize theory_size) else mret tt);
    occupied ← GetOccupiedSize;
    _ ← modify_counters (fun c =>
          MkCounters (recycle_count_ c) (alloc_succ_count_ c) (free_succ_count_ c)
            (if (max_occupied_size_ c <? occupied) || new_va_span_ s
             then occupied else max_occupied_size_ c)
            (base_addr_ c) theory_size (Z.max (theory_min_size_ c) theory_size)
            real_theory_size (Z.max (real_theory_min_size_ c) real_theory_size)
            (try_count_ c) (is_fix_sized_ c));
    mret span
  end.

Definition Free (block : pointer) : M unit :=
  match block with
  | None => mret tt
  | Some span =>
    s ← deref span;
    c ← gets counters_;
    _ ← (if real_size_ s <=? theory_size_ c then
           let theory_size := uwrap 64 (theory_size_ c - GetSize s) in
           _ ← modify_counters (fun c =>
                 MkCounters (recycle_count_ c) (alloc_succ_count_ c) (free_succ_count_ c)
                   (max_occupied_size_ c) (base_addr_ c) theory_size (theory_min_size_ c)
                   (uwrap 64 (real_theory_size_ c - real_size_ s)) (real_theory_min_size_ c)
                   (try_count_ c) (is_fix_sized_ c));
           modify_expandable (SetTheorySize theory_size)
         else mret tt);
    _ ← (if new_va_span_ s
         then modify_expandable (FreePhysicalMemoryPa (GetAddr s) (pa_list_ s) true false)
         else modify_expandable (FreePhysicalMemory (GetAddr s) (GetSize s) true false));
    _ ← match ref_span_ s with
        | Some r => _ ← FreeSpanEx r; on_span (SetRefSpan None) span
        | None => mret tt
        end;
    span ← Unoccupy span;
    FreeSpan span
  end.

Definition ConvertToRootBlock (span : addr) : M BlockAddr :=
  s ← deref span;
  if HasSplited s then mret None else
  let root_block := block_addr_ s in
  _ ← remove_occupied span;
  _ ← free_object span;
  mret root_block.

(** *** span_layer.cc *)

(** [free_link_.remove] on the layer being recycled. *)
Definition remove_from_link (r : layer_ref) (span : addr) : M unit :=
  layer ← deref_layer r; layer ← lift (SpanLayerOps.Remove span layer); put_layer r (Some layer).

(** One turn of [SpanLayer::Recycle]'s loop. *)
Definition RecycleSpan (r : layer_ref) (span : addr) : M unit :=
  s ← deref span;
  e ← gets expandable_;
  if new_va_span_ s then
    _ ← modify_expandable (FreePhysicalMemoryPa (GetAddr s) (pa_list_ s) false true);
    _ ← remove_from_link r span;
    free_object span
  else if IsValidVirtualAddr e (GetAddr s) then
    modify_expandable (FreePhysicalMemory (GetAddr s) (GetSize s) false true)
  else if negb (HasSplited s) then
    _ ← remove_from_link r span;
    _ ← DevFree (block_addr_ s);
    free_object span
  else mret tt.

(** [Iterator] of [free_link_]: an element and the one behind it, [None] being
    the sentinel.  A span that is in no list any more was freed. *)
Record SpanIterator := MkIter { it_elem : pointer; it_next : pointer }.

Fixpoint link_next (l : list addr) (a : addr) : pointer :=
  match l with [] => None | b :: l => if decide (b = a) then head l else link_next l a end.

Definition next_of (r : layer_ref) (elem : pointer) : M pointer :=
  layer ← deref_layer r;
  match elem with
  | None => mret (head (free_link_ layer))
  | Some a =>
    if decide (a ∈ free_link_ layer) then mret (link_next (free_link_ layer) a) else
    h ← gets spans; match h !! a with Some _ => fault | None => lift (freed_next h a) end
  end.

Definition mk_iterator (r : layer_ref) (elem : pointer) : M SpanIterator := n ← next_of r elem; mret (MkIter elem n).
Definition link_begin (r : layer_ref) : M SpanIterator := e ← next_of r None; mk_iterator r e.
(** [++] *)
Definition it_incr (r : layer_ref) (it : SpanIterator) : M SpanIterator := mk_iterator r (it_next it).

(** The loop of [SpanLayer::Recycle]: [tmp_span] is advanced after the span
    [span] names may have been freed. *)
Fixpoint recycle_loop (fuel : nat) (r : layer_ref) (span tmp_span : SpanIterator) : M unit :=
  match fuel with
  | O => fault
  | S fuel =>
    match it_elem span with
    | None => mret tt
    | Some a => _ ← RecycleSpan r a; next ← it_incr r tmp_span; recycle_loop fuel r tmp_span next
    end
  end.
Definition LayerRecycle (r : layer_ref) : M unit :=
  layer ← deref_layer r;
  span ← link_begin r;
  tmp_span ← link_begin r;
  tmp_span ← it_incr r tmp_span;
  recycle_loop (S (length (free_link_ layer))) r span tmp_span.

(** One turn of [SpanLayer::Release]'s loop, the span already off the list. *)
Definition ReleaseSpan (span : addr) : M unit :=
  s ← deref span;
  e ← gets expandable_;
  _ ← (if IsBuddyHeader s then
         if new_va_span_ s
         then modify_expandable (FreePhysicalMemoryPa (GetAddr s) (pa_list_ s) true true)
         else if IsValidVirtualAddr e (GetAddr s)
         then modify_expandable (FreePhysicalMemory (GetAddr s) (GetSize s) true true)
         else DevFree (block_addr_ s)
       else mret tt);
  free_object span.

Fixpoint release_spans (l : list addr) : M unit :=
  match l with [] => mret tt | a :: l => _ ← ReleaseSpan a; release_spans l end.
Definition LayerRelease (r : layer_ref) : M unit :=
  layer ← deref_layer r;
  _ ← put_layer r (Some (SpanLayerOps.with_free [] layer));
  release_spans (free_link_ layer).

(** *** span_layer_lut.h, over all layers *)

(** [SpanLayerQuickLut::Recycle]: an id whose layer does not exist makes the
    loop spin on the same iterator. *)
Fixpoint quick_recycle (it : list Z) : M unit :=
  match it with
  | [] => mret tt
  | id :: it =>
    ls ← gets span_layers_;
    match known_layer ls id with
    | None => fault
    | Some _ =>
      _ ← LayerRecycle (Plain id);
      layer ← deref_layer (Plain id);
      _ ← (if SpanLayerOps.IsEmpty layer
           then modify (fun s => set_ids (IdSet.erase id (span_layer_ids_ s)) s) else mret tt);
      quick_recycle it
    end
  end.

(** The loops of [SpanLayerSeqLut]. *)
Fixpoint for_known (body : layer_ref -> M unit) (it : list Z) : M unit :=
  match it with
  | [] => mret tt
  | id :: it =>
    ls ← gets span_layers_;
    _ ← match known_layer ls id with Some _ => body (Plain id) | None => mret tt end;
    for_known body it
  end.

Definition LutRecycle : M unit :=
  ids ← gets span_layer_ids_;
  match lut with QuickLut => quick_recycle ids | SeqLut => for_known LayerRecycle ids end.

Definition LutRelease : M unit :=
  match lut with
  | QuickLut =>
    ls ← gets span_layers_;
    _ ← for_known LayerRelease (seqZ 0 (zlen ls));
    modify (set_ids [])
  | SeqLut => ids ← gets span_layer_ids_; for_known LayerRelease ids
  end.

(** *** Recycle and Finalize *)

Fixpoint for_new_va (body : layer_ref -> M unit) (ids : list Z) : M unit :=
  match ids with
  | [] => mret tt
  | id :: ids =>
    layer ← FetchNewVaSpanLayer id;
    _ ← match layer with Some i => body (NewVa i) | None => mret tt end;
    for_new_va body ids
  end.

Definition Recycle : M unit :=
  v ← gets new_va_;
  _ ← (if 0 <? new_va_size_ v then for_new_va LayerRecycle (new_span_layer_ids_ v) else mret tt);
  _ ← LutRecycle;
  modify_counters (fun c =>
    MkCounters (uwrap 64 (recycle_count_ c + 1)) (alloc_succ_count_ c) (free_succ_count_ c)
      (max_occupied_size_ c) (base_addr_ c) (theory_size_ c) (theory_min_size_ c)
      (real_theory_size_ c) (real_theory_min_size_ c) (try_count_ c) (is_fix_sized_ c)).

Definition Finalize : M Status :=
  occupied ← gets occupied_spans_;
  if negb (bool_decide (occupied = [])) then mret FAILED else
  v ← gets new_va_;
  _ ← for_new_va LayerRelease (new_span_layer_ids_ v);
  _ ← modify (fun s => set_new_va
        {| new_span_layers_ := []; new_span_layer_ids_ := [];
           new_va_size_ := new_va_size_ (new_va_ s) |} s);
  ls ← gets span_layers_;
  if bool_decide (ls = []) then mret SUCCESS else
  _ ← modify (set_occupied []);
  _ ← LutRelease;
  _ ← modify (fun s => set_layers (replicate (length (span_layers_ s)) None) s);
  _ ← modify_expandable ReleaseVirtualMemory;
  mret SUCCESS.

(** *** Initial spans *)

Definition set_base (address : Z) (fixed : bool) : M unit :=
  modify_counters (fun c =>
    MkCounters (recycle_count_ c) (alloc_succ_count_ c) (free_succ_count_ c)
      (max_occupied_size_ c) address (theory_size_ c) (theory_min_size_ c)
      (real_theory_size_ c) (real_theory_min_size_ c) (try_count_ c) fixed).

Definition InitExpandableAllocator : M unit :=
  let virtual_memory_size := uwrap 64 (page_mem_size_total_threshold cfg - kLargePageSize) in
  e ← gets expandable_;
  let '(address, virtual_memory_size, e) := ReserveVirtualMemory virtual_memory_size e in
  _ ← modify (set_expandable e);
  match address with
  | None => mret tt
  | Some address =>
    span ← BlockAlloc None address virtual_memory_size;
    match span with
    | Some a =>
      c ← gets counters_;
      _ ← set_base address (is_fix_sized_ c);
      _ ← DropReferences a;
      let fit_layer_id := SpanLayerId_GetIdFromSize virtual_memory_size idem in
      layer ← FetchSpanLayer fit_layer_id;
      match layer with
      | Some id => PushSpanToLayer id a
      | None => _ ← free_object a; modify_expandable ReleaseVirtualMemory
      end
    | None => modify_expandable ReleaseVirtualMemory
    end
  end.

Definition InitFixSizedAllocator (base_addr size : Z) : M Status :=
  c ← gets counters_;
  _ ← set_base (base_addr_ c) true;
  span ← BlockAlloc None base_addr size;
  match span with
  | None => mret FAILED
  | Some a =>
    _ ← on_span (SetSplitable true) a;
    _ ← set_base base_addr true;
    _ ← DropReferences a;
    let fit_layer_id := SpanLayerId_GetIdFromSize size idem in
    layer ← FetchSpanLayer fit_layer_id;
    match layer with
    | Some id => _ ← PushSpanToLayer id a; mret SUCCESS
    | None => _ ← free_object a; mret FAILED
    end
  end.
End model.
End ScalableAllocator.
