(* ===== verification/MemFiling.v ===== *)
(** * MemFiling: where every span is kept

    The allocator files its spans: one with references is on the occupied
    list, an idle one is in the layer of its length, and the lookup table
    follows the layers.  [filing] states this about a map [v] from spans to
    their reference count and length; a span the code has in its hands is
    simply not in [v]. *)

From Stdlib Require Import Sorting.Sorted.
From S2P Require Import Prelude MemLink MemSpan.

#[local] Set Warnings "-clear-no-such-hyp".

Abbreviation span_view := (gmap addr (Z * Z)).

Section filing.
Context (lut : SpanLayerLut) (cap : Z).
Implicit Types (v : span_view) (layers : span_layers) (ids : list Z) (occ : list addr).

Record filing v occ layers ids : Prop := {
  fil_len : zlen layers = cap;
  fil_addr : forall a, is_Some (v !! a) -> Z.pos a < 2 ^ 64;
  fil_range : forall a c n, v !! a = Some (c, n) -> 0 <= c /\ 0 <= n < cap;
  fil_occ_nodup : NoDup occ;
  fil_occ : forall a, a ∈ occ <-> exists c n, v !! a = Some (c, n) /\ 0 < c;
  fil_layer : forall i layer, 0 <= i -> known_layer layers i = Some layer ->
    layer_id_ layer = i /\ NoDup (free_link_ layer) /\
    forall a, a ∈ free_link_ layer <-> v !! a = Some (0, i);
  fil_idle : forall a n, v !! a = Some (0, n) -> is_Some (known_layer layers n);
  fil_lut : lut_ok lut layers ids;
}.

(** *** Vectors of layers *)

Lemma known_insert layers i j o :
  0 <= i < zlen layers -> 0 <= j ->
  known_layer (<[Z.to_nat i := o]> layers) j = if decide (i = j) then o else known_layer layers j.
Proof.
  unfold known_layer, zlen. intros Hi Hj. case_decide as E.
  - subst j. rewrite list_lookup_insert_eq by lia. by destruct o.
  - rewrite list_lookup_insert_ne by lia. done.
Qed.

Lemma stocked_insert layers i j layer :
  0 <= i < zlen layers -> 0 <= j ->
  stocked (<[Z.to_nat i := Some layer]> layers) j =
  if decide (i = j) then negb (bool_decide (free_link_ layer = [])) else stocked layers j.
Proof. intros Hi Hj. unfold stocked. rewrite known_insert by done. by case_decide. Qed.

Lemma layer_at_known layers i :
  0 <= i < zlen layers -> layer_at layers i = Ok (known_layer layers i).
Proof.
  intros Hi. unfold layer_at, at_, known_layer.
  destruct (layers !! Z.to_nat i) eqn:E; [done|]. apply lookup_ge_None in E. unfold zlen in Hi. lia.
Qed.

Lemma layer_at_None layers i : layer_at layers i = Ok None -> known_layer layers i = None.
Proof. unfold layer_at, at_, known_layer. destruct (layers !! Z.to_nat i); naive_solver. Qed.

Lemma known_range layers i layer : 0 <= i -> known_layer layers i = Some layer -> 0 <= i < zlen layers.
Proof. intros Hi Hk. split; [done|]. by apply known_bound. Qed.

Lemma short_list (l : list addr) :
  NoDup l -> (forall a, a ∈ l -> Z.pos a < 2 ^ 64) -> zlen l < 2 ^ 64.
Proof.
  intros Hnd Hb. assert (Hl : (length (Z.pos <$> l) <= length (seqZ 1 (2 ^ 64 - 1)))%nat).
  { apply submseteq_length, NoDup_submseteq; [by apply (NoDup_fmap_2 _)|].
    intros z (a & -> & Ha)%list_elem_of_fmap. apply elem_of_seqZ. specialize (Hb a Ha). lia. }
  rewrite length_fmap, length_seqZ in Hl. unfold zlen. lia.
Qed.

(** *** The tables follow the layers *)

Lemma lut_remove layers ids i layer layer' :
  0 <= i -> known_layer layers i = Some layer -> layer_id_ layer' = i ->
  zlen (free_link_ layer') < 2 ^ 64 -> (free_link_ layer' <> [] -> free_link_ layer <> []) ->
  lut_ok lut layers ids ->
  lut_ok lut (<[Z.to_nat i := Some layer']> layers) (Lut.OnLayerRemoveSpan lut layer' ids).
Proof.
  intros Hi Hk Hid Hz Hne [Hs Hids]. pose proof (known_range _ _ _ Hi Hk) as Hr. subst i.
  set (i := layer_id_ layer') in *. unfold Lut.OnLayerRemoveSpan. rewrite (IsEmpty_spec layer') by done.
  split; [destruct lut; [case_bool_decide; [by apply erase_sorted|]|]; done|]. intros j.
  destruct lut; simpl.
  - case_bool_decide as He; [rewrite elem_of_erase|]; rewrite Hids.
    + split; [intros (Hj & Hj0 & Hst)|intros (Hj0 & Hst)]; rewrite (stocked_insert layers i j) in *
        by done; case_decide as E; subst; try done. rewrite He in Hst. done.
    + split; intros (Hj0 & Hst); (split; [done|]); rewrite (stocked_insert layers i j) in * by done;
        case_decide as E; subst; try done.
      * by rewrite bool_decide_eq_false_2.
      * unfold stocked. rewrite Hk. by rewrite bool_decide_eq_false_2 by auto.
  - rewrite Hids. split; intros (Hj0 & Hst); (split; [done|]); rewrite known_insert in * by done;
      case_decide; subst; [by eexists|done|by rewrite Hk; eexists|done].
Qed.

Lemma lut_add layers ids i layer a :
  0 <= i -> known_layer layers i = Some layer -> layer_id_ layer = i ->
  zlen (a :: free_link_ layer) < 2 ^ 64 -> lut_ok lut layers ids ->
  let layer' := SpanLayerOps.with_free (a :: free_link_ layer) layer in
  lut_ok lut (<[Z.to_nat i := Some layer']> layers) (Lut.OnLayerAddSpan lut layer' ids).
Proof.
  intros Hi Hk Hid Hz [Hs Hids] layer'. pose proof (known_range _ _ _ Hi Hk) as Hr.
  unfold Lut.OnLayerAddSpan. split.
  { destruct lut; [destruct (_ =? _); [by apply emplace_sorted|]|]; done. }
  intros j. destruct lut; simpl layer_id_.
  - assert (Hst' : 0 <= j -> stocked (<[Z.to_nat i:=Some layer']> layers) j = true <->
      j = i \/ stocked layers j = true).
    { intros Hj. rewrite stocked_insert by done. case_decide; subst; naive_solver. }
    unfold SpanLayerOps.GetSize, uwrap. rewrite Z.mod_small by (split; [apply zlen_nonneg|done]).
    simpl free_link_. destruct (Z.eqb_spec (zlen (a :: free_link_ layer)) 1) as [E|E].
    + rewrite elem_of_emplace, Hids, Hid. split; [intros [->|[? ?]]; split; try done; apply Hst'; auto|].
      intros [Hj Hst]. apply Hst' in Hst; naive_solver.
    + rewrite Hids. split; intros [Hj Hst]; (split; [done|]); apply Hst' in Hst || apply Hst'; auto.
      destruct Hst as [->|?]; [|done]. unfold stocked. rewrite Hk.
      rewrite bool_decide_eq_false_2; [done|]. intros E'. rewrite E' in E. by unfold zlen in E.
  - rewrite Hids. split; intros (Hj0 & Hst); (split; [done|]); rewrite known_insert in * by done;
      case_decide; subst; [by eexists|done|by rewrite Hk; eexists|done].
Qed.

Lemma lut_create layers ids i layer :
  0 <= i < zlen layers -> known_layer layers i = None -> layer_id_ layer = i -> free_link_ layer = [] ->
  lut_ok lut layers ids ->
  lut_ok lut (<[Z.to_nat i := Some layer]> layers) (Lut.OnLayerCreated lut layer ids).
Proof.
  intros Hi Hk Hid Hf [Hs Hids]. split; [destruct lut; [done|by apply emplace_sorted]|].
  intros j. destruct lut; simpl.
  - rewrite Hids. split; intros (Hj & Hst); (split; [done|]); rewrite stocked_insert in * by done;
      case_decide; subst; try done; [|by rewrite Hf in Hst].
    unfold stocked in Hst. by rewrite Hk in Hst.
  - rewrite elem_of_emplace, Hids, Hid. split.
    + intros [->|[Hj Hst]]; (split; [lia|]); rewrite known_insert by lia; case_decide; try done; by eexists.
    + intros (Hj & Hst). rewrite known_insert in Hst by done. case_decide; [by left|right]. done.
Qed.

(** *** Moving a span *)

Lemma fil_zlen v occ layers ids i layer :
  filing v occ layers ids -> 0 <= i -> known_layer layers i = Some layer ->
  zlen (free_link_ layer) < 2 ^ 64.
Proof.
  intros Hf Hi Hk. destruct (fil_layer _ _ _ _ Hf i layer Hi Hk) as (_ & Hnd & Ha).
  apply short_list; [done|]. intros a Hin. apply (fil_addr _ _ _ _ Hf). exists (0, i). by apply Ha.
Qed.

Lemma fil_sizes v occ layers ids :
  filing v occ layers ids -> forall i layer, 0 <= i -> known_layer layers i = Some layer ->
  zlen (free_link_ layer) < 2 ^ 64.
Proof. intros Hf i layer. by apply (fil_zlen v occ layers ids). Qed.

(** An idle span leaves its layer. *)
Lemma filing_remove v occ layers ids i layer a l' :
  filing v occ layers ids -> 0 <= i -> known_layer layers i = Some layer ->
  v !! a = Some (0, i) -> NoDup l' -> (forall x, x ∈ l' <-> x <> a /\ x ∈ free_link_ layer) ->
  let layer' := SpanLayerOps.with_free l' layer in
  filing (delete a v) occ (<[Z.to_nat i := Some layer']> layers) (Lut.OnLayerRemoveSpan lut layer' ids).
Proof.
  intros Hf Hi Hk Ha Hnd' Hl' layer'. pose proof (known_range _ _ _ Hi Hk) as Hr.
  pose proof (fil_zlen _ _ _ _ _ _ Hf Hi Hk) as Hz.
  destruct Hf as [Hlen Haddr Hrange Hond Hocc Hlayer Hidle Hlut].
  destruct (Hlayer i layer Hi Hk) as (Hid & Hnd & Hin). split.
  - unfold zlen. by rewrite length_insert.
  - intros x [y Hx]. apply lookup_delete_Some in Hx as [_ Hx]. apply Haddr. by exists y.
  - intros x c n [_ Hx]%lookup_delete_Some. by eapply Hrange.
  - done.
  - intros x. rewrite Hocc. split.
    + intros (c & n & Hx & Hc). exists c, n. split; [|done]. apply lookup_delete_Some. split; [|done].
      intros <-. rewrite Ha in Hx. injection Hx as <- <-. lia.
    + intros (c & n & [_ Hx]%lookup_delete_Some & Hc). by exists c, n.
  - intros j ly Hj. rewrite known_insert by done. case_decide as E.
    + subst j. intros [= <-]. split; [done|]. split; [done|]. intros x. simpl. rewrite Hl', Hin.
      rewrite lookup_delete_Some. naive_solver.
    + intros Hky. destruct (Hlayer j ly Hj Hky) as (Hidj & Hndj & Hinj). split; [done|]. split; [done|].
      intros x. rewrite Hinj, lookup_delete_Some. split; [|naive_solver]. intros Hx. split; [|done].
      intros <-. rewrite Ha in Hx. congruence.
  - intros x n [_ Hx]%lookup_delete_Some. rewrite known_insert; [|done|by eapply Hrange].
    case_decide; [by eexists|]. by eapply Hidle.
  - apply (lut_remove layers ids i layer); try done.
    + apply (Z.le_lt_trans _ (zlen (free_link_ layer))); [|done]. unfold zlen. simpl.
      apply Nat2Z.inj_le, submseteq_length, NoDup_submseteq; [done|]. intros x Hx. apply Hl', Hx.
    + simpl. intros Hne He. destruct l' as [|x l']; [done|].
      assert (x ∈ free_link_ layer) as Hx by (apply Hl'; by left). rewrite He in Hx. by apply not_elem_of_nil in Hx.
Qed.

(** A span in hand becomes idle in its layer. *)
Lemma filing_push v occ layers ids i layer a :
  filing v occ layers ids -> 0 <= i -> known_layer layers i = Some layer ->
  v !! a = None -> Z.pos a < 2 ^ 64 ->
  let layer' := SpanLayerOps.with_free (a :: free_link_ layer) layer in
  (a ∉ free_link_ layer) /\
  filing (<[a := (0, i)]> v) occ (<[Z.to_nat i := Some layer']> layers)
    (Lut.OnLayerAddSpan lut layer' ids).
Proof.
  intros Hf Hi Hk Ha Hab layer'. pose proof (known_range _ _ _ Hi Hk) as Hr.
  destruct Hf as [Hlen Haddr Hrange Hond Hocc Hlayer Hidle Hlut].
  destruct (Hlayer i layer Hi Hk) as (Hid & Hnd & Hin).
  assert (Hna : a ∉ free_link_ layer) by (rewrite Hin, Ha; done). split; [done|].
  assert (Hv : forall x y, v !! x = Some y -> (<[a := (0, i)]> v) !! x = Some y).
  { intros x y Hx. rewrite lookup_insert_ne; [done|]. intros <-. congruence. }
  split.
  - unfold zlen. by rewrite length_insert.
  - intros x. rewrite lookup_insert_is_Some'. intros [<-|Hx]; [done|by apply Haddr].
  - intros x c n [[<- [= <- <-]]|[_ Hx]]%lookup_insert_Some; [lia|by eapply Hrange].
  - done.
  - intros x. rewrite Hocc. split.
    + intros (c & n & Hx & Hc). exists c, n. auto.
    + intros (c & n & [[<- [= <- <-]]|[_ Hx]]%lookup_insert_Some & Hc); [lia|]. by exists c, n.
  - intros j ly Hj. rewrite known_insert by done. case_decide as E.
    + subst j. intros [= <-]. split; [done|]. split; [by apply NoDup_cons|]. intros x. simpl.
      rewrite elem_of_cons, Hin, lookup_insert_Some. destruct (decide (x = a)); naive_solver.
    + intros Hky. destruct (Hlayer j ly Hj Hky) as (Hidj & Hndj & Hinj). split; [done|]. split; [done|].
      intros x. rewrite Hinj, lookup_insert_Some. destruct (decide (x = a)); naive_solver.
  - intros x n [[<- [= <-]]|[_ Hx]]%lookup_insert_Some.
    + rewrite known_insert by done. case_decide; [by eexists|done].
    + rewrite known_insert; [|done|by eapply Hrange]. case_decide; [by eexists|]. by eapply Hidle.
  - apply (lut_add layers ids i layer); try done.
    apply short_list; [by apply NoDup_cons|]. intros x [->|Hx]%elem_of_cons; [done|].
    apply Haddr. exists (0, i). by apply Hin.
Qed.

(** A layer that does not exist yet is created empty. *)
Lemma filing_create v occ layers ids i layer :
  filing v occ layers ids -> 0 <= i < cap -> known_layer layers i = None ->
  layer_id_ layer = i -> free_link_ layer = [] ->
  filing v occ (<[Z.to_nat i := Some layer]> layers) (Lut.OnLayerCreated lut layer ids).
Proof.
  intros [Hlen Haddr Hrange Hond Hocc Hlayer Hidle Hlut] Hi Hk Hid Hfree.
  rewrite <- Hlen in Hi. split; try done.
  - unfold zlen. by rewrite length_insert.
  - intros j ly Hj. rewrite known_insert by done. case_decide as E; [|by apply Hlayer].
    subst j. intros [= <-]. split; [done|]. rewrite Hfree. split; [apply NoDup_nil_2|].
    intros x. split; [by intros ?%not_elem_of_nil|]. intros Hx. apply Hidle in Hx as [? Hx]. congruence.
  - intros x n Hx. rewrite known_insert; [|done|by eapply Hrange].
    case_decide; [by eexists|]. by eapply Hidle.
  - by apply lut_create.
Qed.

(** A span in hand goes on the occupied list, and comes off it. *)
Lemma filing_occupy v occ layers ids a c n :
  filing v occ layers ids -> v !! a = None -> Z.pos a < 2 ^ 64 -> 0 < c -> 0 <= n < cap ->
  (a ∉ occ) /\ filing (<[a := (c, n)]> v) (a :: occ) layers ids.
Proof.
  intros [Hlen Haddr Hrange Hond Hocc Hlayer Hidle Hlut] Ha Hab Hc Hn.
  assert (Hna : a ∉ occ) by (rewrite Hocc, Ha; naive_solver). split; [done|]. split; try done.
  - intros x. rewrite lookup_insert_is_Some'. intros [<-|Hx]; [done|by apply Haddr].
  - intros x c' n' [[<- [= <- <-]]|[_ Hx]]%lookup_insert_Some; [lia|by eapply Hrange].
  - by apply NoDup_cons.
  - intros x. rewrite elem_of_cons, Hocc. setoid_rewrite lookup_insert_Some.
    destruct (decide (x = a)) as [->|]; naive_solver.
  - intros j ly Hj Hk. destruct (Hlayer j ly Hj Hk) as (Hidj & Hndj & Hinj). split; [done|]. split; [done|].
    intros x. rewrite Hinj, lookup_insert_Some. destruct (decide (x = a)) as [->|]; [|naive_solver].
    rewrite Ha. split; [done|]. intros [[_ [= ->]]|[? _]]; [lia|done].
  - intros x n' [[<- [= -> ->]]|[_ Hx]]%lookup_insert_Some; [lia|by eapply Hidle].
Qed.

Lemma filing_unoccupy v occ layers ids a c n :
  filing v occ layers ids -> v !! a = Some (c, n) -> 0 < c ->
  a ∈ occ /\ filing (delete a v) (filter (fun x => x <> a) occ) layers ids.
Proof.
  intros [Hlen Haddr Hrange Hond Hocc Hlayer Hidle Hlut] Ha Hc.
  assert (Hin : a ∈ occ) by (apply Hocc; naive_solver). split; [done|]. split; try done.
  - intros x [y [_ Hx]%lookup_delete_Some]. apply Haddr. by exists y.
  - intros x c' n' [_ Hx]%lookup_delete_Some. by eapply Hrange.
  - by apply NoDup_filter.
  - intros x. rewrite list_elem_of_filter, Hocc. setoid_rewrite lookup_delete_Some. naive_solver.
  - intros j ly Hj Hk. destruct (Hlayer j ly Hj Hk) as (Hidj & Hndj & Hinj). split; [done|]. split; [done|].
    intros x. rewrite Hinj, lookup_delete_Some. split; [|naive_solver]. intros Hx. split; [|done].
    intros <-. rewrite Ha in Hx. injection Hx as -> ->. lia.
  - intros x n' [_ Hx]%lookup_delete_Some. by eapply Hidle.
Qed.
End filing.

Arguments fil_len {_ _ _ _ _ _}.
Arguments fil_addr {_ _ _ _ _ _}.
Arguments fil_range {_ _ _ _ _ _}.
Arguments fil_occ_nodup {_ _ _ _ _ _}.
Arguments fil_occ {_ _ _ _ _ _}.
Arguments fil_layer {_ _ _ _ _ _}.
Arguments fil_idle {_ _ _ _ _ _}.
Arguments fil_lut {_ _ _ _ _ _}.
