(* ===== verification/MemTiling.v ===== *)
(** * MemTiling: buddy spans tile the device blocks

    The spans cut from one device block are linked as buddies and cover the
    block in address order without a gap.  [tiling] states this about the
    geometry of the spans; splitting a span inserts a neighbour, merging
    removes one. *)

From S2P Require Import Prelude MemLink MemSpan.

#[local] Set Warnings "-clear-no-such-hyp".

(** What of a span says where it lies. *)
Record Geom := MkGeom { g_addr : Z; g_len : Z; g_buddy : SpanBuddyLink; g_block : BlockAddr }.

Definition geom (s : PageSpan) : Geom :=
  MkGeom (GetAddr s) (page_len_ s) (buddy_link_ s) (block_addr_ s).

Definition re_prev (p : pointer) (k : Geom) : Geom :=
  MkGeom (g_addr k) (g_len k) {| buddy_prev := p; buddy_next := buddy_next (g_buddy k) |} (g_block k).
Definition re_next (n : Z) (p : pointer) (k : Geom) : Geom :=
  MkGeom (g_addr k) n {| buddy_prev := buddy_prev (g_buddy k); buddy_next := p |} (g_block k).

(** A device block the allocator holds. *)
Record arena := { ar_block : positive; ar_base : Z; ar_pages : Z }.

Section tiling.
Context (page : Z) (Hpage : 0 < page) (cap : Z).
Implicit Types (g : gmap addr Geom) (l : list addr) (p : pointer).

Definition first p l : pointer := match l with [] => p | a :: _ => Some a end.
Definition final p l : pointer := match last l with Some a => Some a | None => p end.

(** From [start] to [stop], coming from buddy [prev] and going on to [next]. *)
Fixpoint chain g (prev : pointer) (start : Z) l (next : pointer) (stop : Z) : Prop :=
  match l with
  | [] => start = stop
  | a :: l => exists k, g !! a = Some k /\
      g_buddy k = {| buddy_prev := prev; buddy_next := first next l |} /\
      g_addr k = start /\ 0 < g_len k /\ chain g (Some a) (start + g_len k * page) l next stop
  end.

Lemma chain_frame g g' prev start l next stop :
  (forall x, x ∈ l -> g' !! x = g !! x) -> chain g prev start l next stop -> chain g' prev start l next stop.
Proof.
  revert prev start. induction l as [|a l IH]; intros prev start Hg; [done|].
  intros (k & Hk & Hb & Ha & Hl & Hc). exists k. rewrite Hg by (by left). split_and!; try done.
  apply IH; [|done]. intros x Hx. apply Hg. by right.
Qed.

Lemma final_cons p a l : final p (a :: l) = final (Some a) l.
Proof.
  unfold final. destruct l as [|b l _] using rev_ind; [done|].
  by rewrite app_comm_cons, !last_snoc.
Qed.

Lemma first_app p l1 l2 : first p (l1 ++ l2) = first (first p l2) l1.
Proof. by destruct l1. Qed.

Lemma chain_app g prev start l1 l2 next stop :
  chain g prev start (l1 ++ l2) next stop <->
  exists m, chain g prev start l1 (first next l2) m /\ chain g (final prev l1) m l2 next stop.
Proof.
  revert prev start. induction l1 as [|a l1 IH]; intros prev start; simpl.
  - unfold final. simpl. naive_solver.
  - setoid_rewrite IH. setoid_rewrite final_cons. setoid_rewrite first_app. naive_solver.
Qed.

Lemma chain_le g prev start l next stop : chain g prev start l next stop -> start <= stop.
Proof.
  revert prev start. induction l as [|a l IH]; intros prev start; simpl; [lia|].
  intros (k & _ & _ & _ & Hl & Hc%IH). nia.
Qed.

Lemma chain_lookup g prev start l next stop a :
  chain g prev start l next stop -> a ∈ l ->
  exists k, g !! a = Some k /\ 0 < g_len k /\ start <= g_addr k /\ g_addr k + g_len k * page <= stop.
Proof.
  revert prev start. induction l as [|b l IH]; intros prev start; [by intros _ ?%not_elem_of_nil|].
  intros (k & Hk & _ & Ha & Hl & Hc) [->|Hin]%elem_of_cons.
  - exists k. pose proof (chain_le _ _ _ _ _ _ Hc). split_and!; try done; lia.
  - destruct (IH _ _ Hc Hin) as (k' & ? & ? & ? & ?). exists k'. split_and!; try done. nia.
Qed.

(** Two spans of a chain do not overlap. *)
Definition apart (k k' : Geom) : Prop :=
  g_addr k + g_len k * page <= g_addr k' \/ g_addr k' + g_len k' * page <= g_addr k.

Lemma chain_apart g prev start l next stop a b ka kb :
  chain g prev start l next stop -> a ∈ l -> b ∈ l -> a <> b ->
  g !! a = Some ka -> g !! b = Some kb -> apart ka kb.
Proof.
  revert prev start. induction l as [|c l IH]; intros prev start; [by intros _ ?%not_elem_of_nil|].
  intros (k & Hk & _ & Hka & Hl & Hc) Ha Hb Hne Ea Eb.
  apply elem_of_cons in Ha as [->|Ha], Hb as [->|Hb]; [done| | |by eapply IH].
  - destruct (chain_lookup _ _ _ _ _ _ _ Hc Hb) as (k' & ? & ? & ? & ?). left. simplify_eq. lia.
  - destruct (chain_lookup _ _ _ _ _ _ _ Hc Ha) as (k' & ? & ? & ? & ?). right. simplify_eq. lia.
Qed.

(** The part of a chain behind a changed span. *)
Lemma chain_reprev g g' p q start l next stop :
  chain g p start l next stop -> NoDup l ->
  (forall c, first None l = Some c -> g' !! c = re_prev q <$> g !! c) ->
  (forall x, x ∈ l -> first None l <> Some x -> g' !! x = g !! x) ->
  chain g' q start l next stop.
Proof.
  destruct l as [|c l]; [done|]. intros (k & Hk & Hb & Ha & Hl & Hc) [Hc' _]%NoDup_cons H1 H2.
  exists (re_prev q k). rewrite (H1 c eq_refl), Hk. split_and!; try done.
  - simpl. by rewrite Hb.
  - apply (chain_frame g); [|done]. intros x Hx. apply H2; [by right|]. intros [= ->]. done.
Qed.

(** *** Tilings *)

Definition arena_ok g (x : arena * list addr) : Prop :=
  0 < ar_pages x.1 < cap /\
  chain g None (ar_base x.1) x.2 None (ar_base x.1 + ar_pages x.1 * page) /\
  exists a k, head x.2 = Some a /\ g !! a = Some k /\ g_block k = Some (ar_block x.1).

Record tiling g (ars : list (arena * list addr)) : Prop := {
  til_nodup : NoDup (ars ≫= snd);
  til_dom : forall a, is_Some (g !! a) <-> a ∈ ars ≫= snd;
  til_arena : Forall (arena_ok g) ars;
}.

Implicit Types ars : list (arena * list addr).

Lemma tiling_frame g ars :
  tiling g ars -> forall g', g' = g -> tiling g' ars.
Proof. by intros ? ? ->. Qed.

Lemma locate g ars a :
  tiling g ars -> is_Some (g !! a) ->
  exists A1 ar l1 l2 A2, ars = A1 ++ (ar, l1 ++ a :: l2) :: A2.
Proof.
  intros Ht Ha. apply (til_dom _ _ Ht) in Ha. apply list_elem_of_bind in Ha as ([ar l] & Hal & Hin).
  apply list_elem_of_split in Hin as (A1 & A2 & ->). simpl in Hal.
  apply list_elem_of_split in Hal as (l1 & l2 & ->). by exists A1, ar, l1, l2, A2.
Qed.

Lemma tiling_len g ars a k : tiling g ars -> g !! a = Some k -> 0 < g_len k < cap.
Proof.
  intros Ht Hk. destruct (locate g ars a Ht) as (A1 & ar & l1 & l2 & A2 & E); [by eexists|].
  destruct Ht as [_ _ Har]. rewrite E, Forall_app, Forall_cons in Har.
  destruct Har as (_ & (Hp & Hc & _) & _). simpl in *.
  destruct (chain_lookup _ _ _ _ _ _ a Hc) as (k' & ? & ? & ? & ?); [set_solver|]. simplify_eq. nia.
Qed.

(** The spans of an arena replaced, the other arenas left alone. *)
Lemma tiling_arena g g' A1 ar l l' A2 :
  tiling g (A1 ++ (ar, l) :: A2) ->
  (forall x, x ∉ l -> x ∉ l' -> g' !! x = g !! x) ->
  NoDup l' -> (forall x, x ∈ l' -> x ∈ l \/ g !! x = None) ->
  (forall x, x ∈ l' -> is_Some (g' !! x)) -> (forall x, x ∈ l -> x ∉ l' -> g' !! x = None) ->
  arena_ok g' (ar, l') -> tiling g' (A1 ++ (ar, l') :: A2).
Proof.
  intros [Hnd Hdom Har] Hg Hndl' Hl' Hin Hout Hok.
  rewrite bind_app, bind_cons in Hnd, Hdom. simpl in Hnd, Hdom.
  assert (Hfresh : forall x, x ∈ l' -> x ∉ (A1 ≫= snd) ++ (A2 ≫= snd)).
  { apply NoDup_app in Hnd as (_ & Hd1 & (_ & Hd2 & _)%NoDup_app). intros x Hx.
    destruct (Hl' x Hx) as [Hxl|Hx0].
    - intros [Hx1|Hx2]%elem_of_app; [apply (Hd1 x Hx1); set_solver|by apply (Hd2 x Hxl)].
    - assert (x ∉ (A1 ≫= snd) ++ l ++ (A2 ≫= snd)) by (rewrite <- Hdom, Hx0; by intros []). set_solver. }
  split.
  - rewrite bind_app, bind_cons. simpl. apply NoDup_app in Hnd as (Hn1 & Hd1 & (_ & Hd2 & Hn2)%NoDup_app).
    apply NoDup_app. split_and!; [done| |apply NoDup_app; split_and!; try done].
    + intros x Hx [Hx'|Hx']%elem_of_app; [|apply (Hd1 x Hx); set_solver].
      apply (Hfresh x Hx'). set_solver.
    + intros x Hx Hx2. apply (Hfresh x Hx). set_solver.
  - intros x. rewrite bind_app, bind_cons. simpl. destruct (decide (x ∈ l')) as [Hx|Hx].
    + split; [set_solver|]. intros _. by apply Hin.
    + destruct (decide (x ∈ l)) as [Hxl|Hxl].
      * rewrite (Hout x) by done. split; [by intros []|]. apply NoDup_app in Hnd as (_ & Hd1 & (_ & Hd2 & _)%NoDup_app).
        specialize (Hd1 x). specialize (Hd2 x Hxl). set_solver.
      * rewrite Hg by done. rewrite Hdom. set_solver.
  - rewrite Forall_app, Forall_cons in Har |- *. destruct Har as (H1 & _ & H2).
    apply NoDup_app in Hnd as (_ & Hd1 & (_ & Hd2 & _)%NoDup_app).
    assert (Hother : forall y, y ∈ A1 \/ y ∈ A2 -> arena_ok g y -> arena_ok g' y).
    { intros [ar' m] Hy (Hp & Hc & a & k & Hh & Hk & Hb).
      assert (Hm : forall x, x ∈ m -> g' !! x = g !! x).
      { intros x Hx. assert (Hxb : x ∈ A1 ≫= snd \/ x ∈ A2 ≫= snd).
        { rewrite !list_elem_of_bind. destruct Hy; [left|right]; by exists (ar', m). }
        apply Hg.
        - intros Hxl. destruct Hxb as [Hx1|Hx2]; [apply (Hd1 x Hx1); set_solver|by apply (Hd2 x Hxl)].
        - intros Hxl. apply (Hfresh x Hxl). set_solver. }
      split; [done|]. split; [by apply (chain_frame g)|]. exists a, k. split_and!; try done.
      rewrite Hm; [done|]. simpl in Hh. destruct m; [done|]. injection Hh as ->. by left. }
    split_and!; [|done|].
    + apply Forall_forall. intros y Hy. apply Hother; [by left|]. rewrite Forall_forall in H1. by apply H1.
    + apply Forall_forall. intros y Hy. apply Hother; [by right|]. rewrite Forall_forall in H2. by apply H2.
Qed.

(** The place of a span in its chain. *)
Lemma tiling_at g A1 ar l1 a l2 A2 :
  tiling g (A1 ++ (ar, l1 ++ a :: l2) :: A2) ->
  NoDup (l1 ++ a :: l2) /\ 0 < ar_pages ar < cap /\
  exists k, g !! a = Some k /\ 0 < g_len k /\
    g_buddy k = {| buddy_prev := final None l1; buddy_next := first None l2 |} /\
    chain g None (ar_base ar) l1 (Some a) (g_addr k) /\
    chain g (Some a) (g_addr k + g_len k * page) l2 None (ar_base ar + ar_pages ar * page).
Proof.
  intros [Hnd _ Har]. rewrite bind_app, bind_cons in Hnd. simpl in Hnd.
  apply NoDup_app in Hnd as (_ & _ & (Hnd & _)%NoDup_app). split; [done|].
  rewrite Forall_app, Forall_cons in Har. destruct Har as (_ & (Hp & Hc & _) & _). simpl in *.
  split; [done|]. apply chain_app in Hc as (m & H1 & k & Hk & Hb & <- & Hl & H2). by exists k.
Qed.

(** The block of an arena is kept in its first span. *)
Lemma arena_head g A1 ar l A2 :
  tiling g (A1 ++ (ar, l) :: A2) ->
  exists a k, head l = Some a /\ g !! a = Some k /\ g_block k = Some (ar_block ar).
Proof.
  intros [_ _ Har]. rewrite Forall_app, Forall_cons in Har. by destruct Har as (_ & (_ & _ & ?) & _).
Qed.

Lemma head_app_cons l1 (a : addr) l2 l2' : head (l1 ++ a :: l2) = head (l1 ++ a :: l2').
Proof. by destruct l1. Qed.

Lemma tiling_split g g' A1 ar l1 a l2 A2 b k n blk :
  tiling g (A1 ++ (ar, l1 ++ a :: l2) :: A2) -> g !! a = Some k -> 0 < n < g_len k -> g !! b = None ->
  g' !! a = Some (re_next n (Some b) k) ->
  g' !! b = Some (MkGeom (g_addr k + n * page) (g_len k - n)
                    {| buddy_prev := Some a; buddy_next := buddy_next (g_buddy k) |} blk) ->
  (forall c, buddy_next (g_buddy k) = Some c -> g' !! c = re_prev (Some b) <$> g !! c) ->
  (forall x, x <> a -> x <> b -> buddy_next (g_buddy k) <> Some x -> g' !! x = g !! x) ->
  tiling g' (A1 ++ (ar, l1 ++ a :: b :: l2) :: A2).
Proof.
  intros Ht Hk Hn Hb Ha' Hb' Hc' Hx'. destruct (tiling_at _ _ _ _ _ _ _ Ht) as (Hnd & Hp & k' & Hk' & Hl & Hbud & H1 & H2).
  assert (k' = k) as -> by congruence. clear Hk'. rewrite Hbud in *. simpl in Hb', Hc', Hx'.
  assert (Hbl : b ∉ l1 ++ a :: l2).
  { intros Hin. assert (is_Some (g !! b)) as [? ?]; [|congruence].
    apply (til_dom _ _ Ht). rewrite bind_app, bind_cons. simpl. set_solver. }
  assert (Hlk : forall x, x ∈ l1 ++ a :: l2 -> x <> a -> is_Some (g' !! x)).
  { intros x Hx Hxa. assert (Hxg : is_Some (g !! x)).
    { apply (til_dom _ _ Ht). rewrite bind_app, bind_cons. simpl. set_solver. }
    destruct (decide (first None l2 = Some x)) as [E|E]; [rewrite (Hc' x E); by apply fmap_is_Some|].
    rewrite Hx'; [done|done|by intros ->|done]. }
  pose proof Hnd as (Hnd1 & Hd & [Ha2 Hnd2]%NoDup_cons)%NoDup_app.
  assert (Hf : forall c, first None l2 = Some c -> c ∈ l2) by (intros c; destruct l2; [done|]; intros [= ->]; by left).
  eapply tiling_arena; [exact Ht|..].
  - intros x Hx1 Hx2. apply Hx'; [set_solver..|]. intros E%Hf. set_solver.
  - apply NoDup_app. split_and!; [done|set_solver|]. apply NoDup_cons. split; [set_solver|].
    apply NoDup_cons. split; [set_solver|done].
  - intros x Hx. destruct (decide (x = b)) as [->|]; [by right|left; set_solver].
  - intros x Hx. destruct (decide (x = a)) as [->|]; [by eexists|].
    destruct (decide (x = b)) as [->|]; [by eexists|]. apply Hlk; [set_solver|done].
  - intros x Hx Hx2. set_solver.
  - split; [done|]. simpl. split.
    + apply chain_app. exists (g_addr k). split.
      * apply (chain_frame g); [|exact H1]. intros x Hx. apply Hx'; [set_solver..|].
        intros E%Hf. apply (Hd x Hx). set_solver.
      * exists (re_next n (Some b) k). simpl. rewrite Hbud. split_and!; try done; [lia|].
        eexists. split; [exact Hb'|]. simpl. split_and!; try done; [lia|].
        replace (g_addr k + n * page + (g_len k - n) * page) with (g_addr k + g_len k * page) by lia.
        eapply chain_reprev; [exact H2|done|exact Hc'|]. intros x Hx E. apply Hx'; [set_solver..|done].
    + destruct (arena_head _ _ _ _ _ Ht) as (h & kh & Hh & Hkh & Hbk).
      exists h. rewrite (head_app_cons _ _ _ l2).
      destruct (decide (h = a)) as [->|Hha].
      * exists (re_next n (Some b) k). assert (kh = k) as -> by congruence. done.
      * exists kh. split; [done|]. split; [|done].
        assert (Hh1 : h ∈ l1) by (destruct l1; simpl in Hh; [congruence|injection Hh as ->; by left]).
        rewrite Hx'; [done|done|set_solver|]. intros E%Hf. apply (Hd h Hh1). set_solver.
Qed.

Lemma tiling_merge g g' A1 ar l1 a b l2 A2 ka kb :
  tiling g (A1 ++ (ar, l1 ++ a :: b :: l2) :: A2) -> g !! a = Some ka -> g !! b = Some kb ->
  g' !! a = Some (re_next (g_len ka + g_len kb) (buddy_next (g_buddy kb)) ka) -> g' !! b = None ->
  (forall c, buddy_next (g_buddy kb) = Some c -> g' !! c = re_prev (Some a) <$> g !! c) ->
  (forall x, x <> a -> x <> b -> buddy_next (g_buddy kb) <> Some x -> g' !! x = g !! x) ->
  tiling g' (A1 ++ (ar, l1 ++ a :: l2) :: A2).
Proof.
  intros Ht Hka Hkb Ha' Hb' Hc' Hx'.
  destruct (tiling_at _ _ _ _ _ _ _ Ht) as (Hnd & Hp & k' & Hk' & Hla & Hbud & H1 & H2).
  destruct H2 as (kb' & Hkb' & Hbb & Hbad & Hlb & H2). assert (k' = ka) as -> by congruence.
  assert (kb' = kb) as -> by congruence. clear Hk' Hkb'. rewrite Hbb in *. simpl in Ha', Hc', Hx'.
  pose proof Hnd as (Hnd1 & Hd & [Ha2 [Hb2 Hnd2]%NoDup_cons]%NoDup_cons)%NoDup_app.
  assert (Hf : forall c, first None l2 = Some c -> c ∈ l2) by (intros c; destruct l2; [done|]; intros [= ->]; by left).
  eapply tiling_arena; [exact Ht|..].
  - intros x Hx1 Hx2. apply Hx'; [set_solver..|]. intros E%Hf. set_solver.
  - apply NoDup_app. split_and!; [done|set_solver|]. apply NoDup_cons. split; [set_solver|done].
  - intros x Hx. left. set_solver.
  - intros x Hx. destruct (decide (x = a)) as [->|]; [by eexists|].
    assert (Hxg : is_Some (g !! x)).
    { apply (til_dom _ _ Ht). rewrite bind_app, bind_cons. simpl. set_solver. }
    destruct (decide (first None l2 = Some x)) as [E|E]; [rewrite (Hc' x E); by apply fmap_is_Some|].
    rewrite Hx'; [done|done|set_solver|done].
  - intros x Hx Hx2. assert (x = b) as -> by set_solver. done.
  - split; [done|]. simpl. split.
    + apply chain_app. exists (g_addr ka). split.
      * apply (chain_frame g); [|exact H1]. intros x Hx. apply Hx'; [set_solver..|].
        intros E%Hf. apply (Hd x Hx). set_solver.
      * eexists. split; [exact Ha'|]. simpl. rewrite Hbud. split_and!; try done; [lia|].
        replace (g_addr ka + (g_len ka + g_len kb) * page)
          with (g_addr ka + g_len ka * page + g_len kb * page) by lia.
        eapply chain_reprev; [exact H2|done|exact Hc'|]. intros x Hx E. apply Hx'; [set_solver..|done].
    + destruct (arena_head _ _ _ _ _ Ht) as (h & kh & Hh & Hkh & Hbk).
      exists h. rewrite (head_app_cons _ _ _ (b :: l2)).
      destruct (decide (h = a)) as [->|Hha].
      * eexists. split; [done|]. split; [exact Ha'|]. assert (kh = ka) as -> by congruence. done.
      * exists kh. split; [done|]. split; [|done].
        assert (Hh1 : h ∈ l1) by (destruct l1; simpl in Hh; [congruence|injection Hh as ->; by left]).
        rewrite Hx'; [done|done|set_solver|]. intros E%Hf. apply (Hd h Hh1). set_solver.
Qed.

(** A new block, whole. *)
Lemma tiling_new g ars ar a k :
  tiling g ars -> g !! a = None -> 0 < ar_pages ar < cap ->
  k = MkGeom (ar_base ar) (ar_pages ar) {| buddy_prev := None; buddy_next := None |} (Some (ar_block ar)) ->
  tiling (<[a := k]> g) ((ar, [a]) :: ars).
Proof.
  intros [Hnd Hdom Har] Ha Hp ->. split.
  - rewrite bind_cons. simpl. apply NoDup_cons. split; [|done]. rewrite <- Hdom, Ha. by intros [].
  - intros x. rewrite bind_cons, lookup_insert_is_Some', Hdom. simpl. set_solver.
  - apply Forall_cons. split.
    + split; [done|]. simpl. split.
      * eexists. rewrite lookup_insert_eq. split; [done|]. simpl. split_and!; try done; lia.
      * exists a. eexists. rewrite lookup_insert_eq. done.
    + apply Forall_forall. rewrite Forall_forall in Har. intros [ar' m] Hy.
      destruct (Har _ Hy) as (Hp' & Hc & h & kh & Hh & Hk & Hb). simpl in *.
      assert (Hm : forall x, x ∈ m -> x <> a).
      { intros x Hx ->. assert (is_Some (g !! a)) as [? ?]; [|congruence]. apply Hdom, list_elem_of_bind.
        by exists (ar', m). }
      split; [done|]. split.
      * simpl. apply (chain_frame g); [|done]. intros x Hx. rewrite lookup_insert_ne; [done|]. intros <-.
        by apply (Hm a).
      * exists h, kh. split_and!; try done. rewrite lookup_insert_ne; [done|]. intros <-.
        apply (Hm a); [|done]. destruct m; [done|]. injection Hh as ->. by left.
Qed.

(** A block given up, when one span covers it. *)
Lemma tiling_drop g A1 ar a A2 :
  tiling g (A1 ++ (ar, [a]) :: A2) -> tiling (delete a g) (A1 ++ A2).
Proof.
  intros [Hnd Hdom Har]. rewrite bind_app, bind_cons in Hnd, Hdom. simpl in Hnd, Hdom.
  rewrite <- Permutation_middle in Hnd. apply NoDup_cons in Hnd as [Ha Hnd]. split.
  - by rewrite bind_app.
  - intros x. rewrite bind_app. destruct (decide (x = a)) as [->|Hx].
    + rewrite lookup_delete_eq. split; [by intros []|done].
    + rewrite lookup_delete_ne, Hdom by done. set_solver.
  - rewrite Forall_app, Forall_cons in Har. destruct Har as (H1 & _ & H2).
    assert (Har : Forall (arena_ok g) (A1 ++ A2)) by (by apply Forall_app).
    rewrite Forall_forall in Har |- *. intros [ar' m] Hy.
    destruct (Har _ Hy) as (Hp' & Hc & h & kh & Hh & Hk & Hb). simpl in *.
    assert (Hm : forall x, x ∈ m -> x <> a).
    { intros x Hx ->. apply Ha. rewrite <- bind_app. apply list_elem_of_bind. by exists (ar', m). }
    split; [done|]. split.
    + simpl. apply (chain_frame g); [|done]. intros x Hx. rewrite lookup_delete_ne; [done|]. intros <-.
      by apply (Hm a).
    + exists h, kh. split_and!; try done. rewrite lookup_delete_ne; [done|]. intros <-.
      apply (Hm a); [|done]. destruct m; [done|]. injection Hh as ->. by left.
Qed.

Lemma tiling_nil : tiling ∅ [].
Proof. split; [apply NoDup_nil_2| |done]. intros a. rewrite lookup_empty. split; [by intros []|by intros ?%not_elem_of_nil]. Qed.

(** *** Blocks of the device *)

Definition blocks_apart (blocks : gmap positive (Z * Z)) : Prop :=
  forall b b' a n a' n', b <> b' -> blocks !! b = Some (a, n) -> blocks !! b' = Some (a', n') ->
    a + n <= a' \/ a' + n' <= a.

(** Every arena is a block of the device, and no two are the same; when the
    device takes all blocks back ([frees]), it holds no others. *)
Record backed (frees : Prop) ars (blocks : gmap positive (Z * Z)) : Prop := {
  bk_block : Forall (fun x => blocks !! ar_block x.1 = Some (ar_base x.1, ar_pages x.1 * page)) ars;
  bk_nodup : NoDup (ar_block ∘ fst <$> ars);
  bk_apart : blocks_apart blocks;
  bk_owned : frees -> forall b, is_Some (blocks !! b) -> b ∈ ar_block ∘ fst <$> ars;
}.

Lemma tiling_within frees g ars blocks a k :
  tiling g ars -> backed frees ars blocks -> g !! a = Some k ->
  exists b base n, blocks !! b = Some (base, n) /\ base <= g_addr k /\ g_addr k + g_len k * page <= base + n.
Proof.
  intros Ht Hb Hk. destruct (locate g ars a Ht) as (A1 & ar & l1 & l2 & A2 & ->); [by eexists|].
  destruct (tiling_at _ _ _ _ _ _ _ Ht) as (_ & _ & k' & Hk' & Hl & _ & H1%chain_le & H2%chain_le). simplify_eq.
  destruct Hb as [Hb _ _ _]. rewrite Forall_app, Forall_cons in Hb. destruct Hb as (_ & Hb & _).
  by exists (ar_block ar), (ar_base ar), (ar_pages ar * page).
Qed.

(** No two spans overlap. *)
Lemma tiling_apart frees g ars blocks a b ka kb :
  tiling g ars -> backed frees ars blocks -> a <> b -> g !! a = Some ka -> g !! b = Some kb -> apart ka kb.
Proof.
  intros Ht Hbk Hne Ha Hb.
  assert (Ha' : is_Some (g !! a)) by (by eexists). assert (Hb' : is_Some (g !! b)) by (by eexists).
  apply (til_dom _ _ Ht), list_elem_of_bind in Ha' as ([ar l] & Hal & Har).
  apply (til_dom _ _ Ht), list_elem_of_bind in Hb' as ([br m] & Hbm & Hbr). simpl in *.
  pose proof (til_arena _ _ Ht) as Hok. rewrite Forall_forall in Hok.
  destruct (Hok _ Har) as (_ & Hc & _), (Hok _ Hbr) as (_ & Hc' & _). simpl in *.
  apply list_elem_of_lookup in Har as [i Hi], Hbr as [j Hj].
  destruct (decide (i = j)) as [->|Hij].
  - rewrite Hi in Hj. injection Hj as <- <-.
    exact (chain_apart _ _ _ _ _ _ _ _ _ _ Hc Hal Hbm Hne Ha Hb).
  - destruct (chain_lookup _ _ _ _ _ _ a Hc Hal) as (? & ? & _ & ? & ?).
    destruct (chain_lookup _ _ _ _ _ _ b Hc' Hbm) as (? & ? & _ & ? & ?). simplify_eq.
    destruct Hbk as [Hb1 Hb2 Hb3 _]. rewrite Forall_lookup in Hb1.
    pose proof (Hb1 _ _ Hi) as E1. pose proof (Hb1 _ _ Hj) as E2. simpl in *.
    assert (Hdiff : ar_block ar <> ar_block br).
    { intros E. apply Hij. apply (NoDup_lookup _ i j (ar_block ar) Hb2); rewrite list_lookup_fmap;
        [rewrite Hi|rewrite Hj; simpl; rewrite <- E]; done. }
    destruct (Hb3 _ _ _ _ _ _ Hdiff E1 E2); [left|right]; lia.
Qed.
End tiling.

(** A block given up. *)
Lemma backed_drop page frees A1 ar l A2 blocks (gone : bool) :
  backed page frees (A1 ++ (ar, l) :: A2) blocks -> (frees -> gone = true) ->
  backed page frees (A1 ++ A2) (if gone then delete (ar_block ar) blocks else blocks).
Proof.
  intros [Hb Hnd Hap Hown] Hg. rewrite fmap_app, fmap_cons in Hnd, Hown.
  rewrite <- Permutation_middle in Hnd. apply NoDup_cons in Hnd as [Hne Hnd].
  split.
  - apply Forall_app. rewrite Forall_app, Forall_cons in Hb. destruct Hb as (H1 & _ & H2).
    assert (Hall : Forall (fun x => blocks !! ar_block x.1 = Some (ar_base x.1, ar_pages x.1 * page)) (A1 ++ A2))
      by (by apply Forall_app).
    apply Forall_app. rewrite Forall_forall in Hall |- *. intros x Hx. rewrite <- (Hall x Hx).
    destruct gone; [|done]. apply lookup_delete_ne. intros E. apply Hne. rewrite <- fmap_app.
    apply list_elem_of_fmap. exists x. split; [|done]. done.
  - by rewrite fmap_app.
  - intros b b' x n x' n' Hbb Hb1 Hb2. destruct gone; [|by eapply Hap].
    apply lookup_delete_Some in Hb1 as [_ Hb1], Hb2 as [_ Hb2]. by eapply Hap.
  - intros Hf b Hb'. rewrite (Hg Hf) in Hb'. destruct Hb' as [x [Hbne Hx]%lookup_delete_Some].
    specialize (Hown Hf b ltac:(by eexists)). rewrite fmap_app. set_solver.
Qed.

(** Without spans there are no blocks. *)
Lemma no_spans_no_blocks page cap (frees : Prop) ars blocks :
  tiling page cap ∅ ars -> backed page frees ars blocks -> frees -> blocks = ∅.
Proof.
  intros [_ _ Har] [_ _ _ Hown] Hf. apply map_empty. intros b. destruct (blocks !! b) eqn:Hb; [|done]. exfalso.
  pose proof (Hown Hf b ltac:(by eexists)) as ([ar l] & _ & Hin)%list_elem_of_fmap.
  rewrite Forall_forall in Har. by destruct (Har _ Hin) as (_ & _ & a & k & _ & Hk & _).
Qed.

(** ** Neighbours *)

(** [y] follows [x] in a block. *)
Definition adjacent (ars : list (arena * list addr)) (x y : addr) : Prop :=
  exists ar l1 l2, (ar, l1 ++ x :: y :: l2) ∈ ars.

(** Where a pair of neighbours other than [a] lies. *)
Lemma pair_split (l1 l2 m1 m2 : list addr) a x y :
  l1 ++ a :: l2 = m1 ++ x :: y :: m2 -> x <> a -> y <> a ->
  (exists n, l1 = m1 ++ x :: y :: n) \/ (exists n, l2 = n ++ x :: y :: m2).
Proof.
  revert m1. induction l1 as [|b l1 IH]; intros m1 E Hx Hy; simpl in E.
  - destruct m1 as [|c m1]; simplify_eq/=. right. by exists m1.
  - destruct m1 as [|c m1]; simplify_eq/=.
    + destruct l1 as [|d l1]; simplify_eq/=. left. by exists l1.
    + destruct (IH m1) as [[n ->]|[n ->]]; [done..| |]; [left; by exists n|right; by exists n].
Qed.

(** Neighbours other than [a] and [b] stay neighbours when [l1 ++ a :: l2]
    stands for [l1 ++ a :: b :: l2] and the other way round. *)
Lemma adjacent_arena A1 ar l1 a l2 A2 r1 r2 x y :
  adjacent (A1 ++ (ar, l1 ++ a :: l2) :: A2) x y -> x <> a -> y <> a ->
  (exists q, r1 = q ++ l1) -> (exists q, r2 = q ++ l2) -> forall m,
  adjacent (A1 ++ (ar, r1 ++ m ++ r2) :: A2) x y.
Proof.
  intros (ar' & m1 & m2 & Hin) Hx Hy [q1 ->] [q2 ->] m.
  apply elem_of_app in Hin as [Hin|[Hin|Hin]%elem_of_cons].
  - exists ar', m1, m2. set_solver.
  - injection Hin as -> E. destruct (pair_split _ _ _ _ _ _ _ (eq_sym E) Hx Hy) as [[n ->]|[n ->]].
    + exists ar, (q1 ++ m1), (n ++ m ++ q2 ++ l2). rewrite <- !app_assoc. simpl. set_solver.
    + exists ar, (((q1 ++ l1) ++ m ++ q2) ++ n), m2. rewrite <- !app_assoc. simpl. set_solver.
  - exists ar', m1, m2. set_solver.
Qed.

Lemma adjacent_self page cap g A1 ar l1 a l2 A2 :
  tiling page cap g (A1 ++ (ar, l1 ++ a :: l2) :: A2) -> forall y,
  adjacent (A1 ++ (ar, l1 ++ a :: l2) :: A2) a y \/ adjacent (A1 ++ (ar, l1 ++ a :: l2) :: A2) y a ->
  first None l2 = Some y \/ final None l1 = Some y.
Proof.
  intros Ht y Hadj. pose proof (til_nodup _ _ _ _ Ht) as Hnd.
  set (ars := A1 ++ (ar, l1 ++ a :: l2) :: A2) in *.
  assert (Hin0 : (ar, l1 ++ a :: l2) ∈ ars) by (unfold ars; set_solver).
  assert (Huniq : forall ar' l', (ar', l') ∈ ars -> a ∈ l' -> l' = l1 ++ a :: l2).
  { intros ar' l' Hin Hal. apply list_elem_of_lookup in Hin as [i Hi'], Hin0 as [j Hj].
    destruct (decide (i = j)) as [->|Hij]; [rewrite Hi' in Hj; congruence|].
    exfalso. clear -Hnd Hi' Hj Hij Hal. assert (Haj : a ∈ l1 ++ a :: l2) by set_solver.
    revert i j Hi' Hj Hij. induction ars as [|[x m] ars IH]; intros i j Hi Hj Hij; [done|].
    rewrite bind_cons in Hnd. apply NoDup_app in Hnd as (_ & Hd & Hnd). simpl in *.
    destruct i as [|i], j as [|j]; simplify_eq/=; [| |eapply (IH Hnd i j); [done|done|congruence]].
    - apply (Hd a Hal). apply list_elem_of_bind. exists (ar, l1 ++ a :: l2).
      split; [done|]. by eapply list_elem_of_lookup_2.
    - apply (Hd a Haj). apply list_elem_of_bind. exists (ar', l').
      split; [done|]. by eapply list_elem_of_lookup_2. }
  destruct (tiling_at _ _ _ _ _ _ _ _ _ Ht) as (Hnda & _).
  assert (Hpos : forall m1 m2, l1 ++ a :: l2 = m1 ++ a :: m2 -> l1 = m1 /\ l2 = m2).
  { intros m1 m2 E. apply NoDup_app in Hnda as (_ & Hd & [Hal2 _]%NoDup_cons). clear -E Hd Hal2.
    revert m1 E. induction l1 as [|b l1 IH]; intros m1 E.
    - destruct m1 as [|c m1]; simplify_eq/=; [done|]. set_solver.
    - destruct m1 as [|c m1]; simplify_eq/=.
      + exfalso. apply (Hd a); set_solver.
      + destruct (IH ltac:(set_solver) m1) as [-> ->]; done. }
  destruct Hadj as [(ar' & m1 & m2 & Hin)|(ar' & m1 & m2 & Hin)].
  - assert (E := Huniq _ _ Hin ltac:(set_solver)). symmetry in E. apply Hpos in E as [-> ->]. by left.
  - assert (E := Huniq _ _ Hin ltac:(set_solver)). symmetry in E.
    change (y :: a :: m2) with ([y] ++ a :: m2) in E. rewrite app_assoc in E.
    apply Hpos in E as [-> ->]. right. unfold final. by rewrite last_snoc.
Qed.

(** ** What [SetBuddy] and [MergeBuddy] write *)

Section buddies.
Implicit Types (h : span_heap) (p q : PageSpan).

Lemma update_span_ok f a p h : h !! a = Some p -> update_span f a h = Ok (<[a := f p]> h).
Proof. intros Ha. unfold update_span, get_span. by rewrite Ha. Qed.

Lemma get_span_ok a p h : h !! a = Some p -> get_span a h = Ok p.
Proof. intros Ha. unfold get_span. by rewrite Ha. Qed.

(** The neighbour's back pointer. *)
Lemma update_next (n q : pointer) h (a b : addr) :
  (forall c, n = Some c -> is_Some (h !! c) /\ c <> a /\ c <> b) ->
  exists h', match n with Some c => update_span (SetPrev q) c h | None => Ok h end = Ok h' /\
    h' !! a = h !! a /\ h' !! b = h !! b /\
    (forall c, n = Some c -> h' !! c = SetPrev q <$> h !! c) /\
    forall x, n <> Some x -> h' !! x = h !! x.
Proof.
  destruct n as [c|]; intros Hc; [|by exists h].
  destruct (Hc c eq_refl) as ([pc Hpc] & Hca & Hcb). eexists. split; [by apply update_span_ok|].
  split; [by rewrite lookup_insert_ne by congruence|]. split; [by rewrite lookup_insert_ne by congruence|].
  split.
  - intros c' [= <-]. by rewrite lookup_insert_eq, Hpc.
  - intros x Hx. rewrite lookup_insert_ne; [done|]. congruence.
Qed.

Lemma SetBuddy_ok a b pa pb h :
  h !! a = Some pa -> h !! b = Some pb -> a <> b ->
  (forall c, GetNextBuddy pa = Some c -> is_Some (h !! c) /\ c <> a /\ c <> b) ->
  exists h', PageSpanOps.SetBuddy a b h = Ok h' /\
    h' !! a = Some (SetNext (Some b) pa) /\
    h' !! b = Some (SetPrev (Some a) (SetNext (GetNextBuddy pa) pb)) /\
    (forall c, GetNextBuddy pa = Some c -> h' !! c = SetPrev (Some b) <$> h !! c) /\
    (forall x, x <> a -> x <> b -> GetNextBuddy pa <> Some x -> h' !! x = h !! x).
Proof.
  intros Ha Hb Hab Hc. unfold PageSpanOps.SetBuddy. rewrite (get_span_ok _ _ _ Ha). cbn [mbind outcome_bind].
  destruct (update_next (GetNextBuddy pa) (Some b) h a b Hc) as (h1 & E & H1a & H1b & H1c & H1x).
  rewrite E. cbn [mbind outcome_bind]. rewrite Ha in H1a. rewrite Hb in H1b.
  rewrite (update_span_ok _ _ _ _ H1a). cbn [mbind outcome_bind].
  assert (H2b : (<[a:=SetNext (Some b) pa]> h1) !! b = Some pb) by (by rewrite lookup_insert_ne).
  rewrite (update_span_ok _ _ _ _ H2b). cbn [mbind outcome_bind].
  rewrite (update_span_ok _ b (SetNext (GetNextBuddy pa) pb)) by apply lookup_insert_eq.
  eexists. split; [done|]. rewrite insert_insert_eq.
  split; [by rewrite lookup_insert_ne, lookup_insert_eq|]. split; [by rewrite lookup_insert_eq|]. split.
  - intros c E'. destruct (Hc c E') as (_ & Hca & Hcb). by rewrite !lookup_insert_ne, H1c.
  - intros x Hxa Hxb Hx. by rewrite !lookup_insert_ne, H1x.
Qed.

Definition merged (t : Z) pa pb : PageSpan :=
  with_try_split t (with_page_len (page_len_ pa + page_len_ pb) (SetNext (GetNextBuddy pb) pa)).

Lemma MergeBuddy_ok a b pa pb h :
  h !! a = Some pa -> h !! b = Some pb -> a <> b ->
  GetNextBuddy pa = Some b -> GetPrevBuddy pb = Some a ->
  0 <= page_len_ pa + page_len_ pb < 2 ^ 32 ->
  (forall c, GetNextBuddy pb = Some c -> is_Some (h !! c) /\ c <> a /\ c <> b) ->
  exists h' t, PageSpanOps.MergeBuddy a b h = Ok h' /\
    h' !! a = Some (merged t pa pb) /\ h' !! b = Some pb /\
    (forall c, GetNextBuddy pb = Some c -> h' !! c = SetPrev (Some a) <$> h !! c) /\
    (forall x, x <> a -> x <> b -> GetNextBuddy pb <> Some x -> h' !! x = h !! x).
Proof.
  intros Ha Hb Hab En Ep Hl Hc. unfold PageSpanOps.MergeBuddy.
  rewrite (get_span_ok _ _ _ Ha). cbn [mbind outcome_bind].
  rewrite (get_span_ok _ _ _ Hb). cbn [mbind outcome_bind].
  rewrite En, Ep, !bool_decide_eq_true_2 by done. cbn [andb].
  destruct (update_next (GetNextBuddy pb) (Some a) h a b Hc) as (h1 & E & H1a & H1b & H1c & H1x).
  rewrite E. cbn [mbind outcome_bind]. rewrite Ha in H1a. rewrite Hb in H1b.
  rewrite (update_span_ok _ _ _ _ H1a). cbn [mbind outcome_bind].
  rewrite (get_span_ok b pb) by (by rewrite lookup_insert_ne). cbn [mbind outcome_bind].
  rewrite (update_span_ok _ a (SetNext (GetNextBuddy pb) pa)) by apply lookup_insert_eq.
  cbn [mbind outcome_bind]. rewrite insert_insert_eq.
  change (page_len_ (SetNext (GetNextBuddy pb) pa)) with (page_len_ pa).
  replace (uwrap 32 (page_len_ pa + page_len_ pb)) with (page_len_ pa + page_len_ pb)
    by (symmetry; by apply Z.mod_small).
  rewrite (get_span_ok a (with_page_len (page_len_ pa + page_len_ pb) (SetNext (GetNextBuddy pb) pa)))
    by apply lookup_insert_eq. cbn [mbind outcome_bind].
  assert (Hrest : forall (p' : PageSpan), (forall c, GetNextBuddy pb = Some c -> (<[a := p']> h1) !! c = SetPrev (Some a) <$> h !! c) /\
    (forall x, x <> a -> x <> b -> GetNextBuddy pb <> Some x -> (<[a := p']> h1) !! x = h !! x) /\
    (<[a := p']> h1) !! b = Some pb).
  { intros p'. split_and!.
    - intros c E'. destruct (Hc c E') as (_ & Hca & _). by rewrite lookup_insert_ne, H1c.
    - intros x Hxa Hxb Hx. by rewrite lookup_insert_ne, H1x.
    - by rewrite lookup_insert_ne. }
  destruct (IsEmptyBuddy _).
  - rewrite (update_span_ok _ a (with_page_len (page_len_ pa + page_len_ pb) (SetNext (GetNextBuddy pb) pa)))
      by apply lookup_insert_eq. rewrite insert_insert_eq. eexists _, 0. split; [done|].
    destruct (Hrest (merged 0 pa pb)) as (? & ? & ?). split; [apply lookup_insert_eq|done].
  - eexists _, (try_split_page_len_ pa). split; [done|].
    destruct (Hrest (merged (try_split_page_len_ pa) pa pb)) as (? & ? & ?).
    split; [|done]. rewrite lookup_insert_eq. by destruct pa.
Qed.
End buddies.
