(* ===== verification/MemScalableSound.v ===== *)
(** * MemScalableSound: the page span allocator is correct

    Theorems about [MemScalable] as it runs without a reserved virtual range
    (the default): requests are served from device blocks, which [MemTiling]
    and [MemFiling] describe.  The invariant [inv] joins the two; every
    operation is shown to keep it. *)

From Stdlib Require Import Sorting.Sorted.
From S2P Require Import Prelude MemLink MemSpan MemScalable MemFiling MemTiling.

#[local] Set Warnings "-clear-no-such-hyp".

(** ** What the interfaces promise *)

(** Objects are new and lie in the address space; [host_limit] of them fit.  The
    storage of a freed span can be read: [ObjectAllocator::Free] keeps it in its
    list ([MemPool]). *)
Class HostMemoryLaws `{HostMemory} (host_limit : nat) : Prop := {
  span_new_fresh : forall h a, span_new h = Some a -> h !! a = None /\ Z.pos a < 2 ^ 64;
  span_new_room : forall h : span_heap, (size h < host_limit)%nat -> is_Some (span_new h);
  layer_new_room : forall ls, layer_new ls = true;
  freed_next_kept : forall (h : span_heap) a p, h !! a = Some p -> exists q, freed_next (delete a h) a = Ok q;
}.

(** A new device block does not overlap the blocks handed out before. *)
Class DeviceMemLaws `{DeviceMem} : Prop := {
  dev_alloc_fresh : forall m n b a, dev_alloc m n = Some (b, a) ->
    m !! b = None /\
    forall b' a' n', m !! b' = Some (a', n') -> a + n <= a' \/ a' + n' <= a;
}.

(** It takes every block back. *)
Definition dev_frees `{DeviceMem} : Prop := forall m b, dev_free m b = true.

(** [ExpandableActiveMemoryAllocatorImp] before [ReserveVirtualMemory]: no
    address is in its range, and its operations return at once. *)
Class ExpandableLaws `{ExpandableApi} (unreserved : Expandable -> Prop) : Prop := {
  unreserved_addr : forall e a, unreserved e -> IsValidVirtualAddr e a = false;
  unreserved_malloc : forall e a n, unreserved e -> MallocPhysicalMemory a n e = (RET_SUCCESS, 0, e);
  unreserved_free : forall e a n r f, unreserved e -> FreePhysicalMemory a n r f e = e;
  unreserved_theory : forall e n, unreserved e -> unreserved (SetTheorySize n e);
  unreserved_theory_min : forall e n, unreserved e -> unreserved (SetTheoryMinSize n e);
}.

(** A configuration whose sizes fit their types. *)
Record config_ok (cfg : ScalableConfig) : Prop := {
  cfg_idem : 0 <= page_idem_num cfg < 64;
  cfg_threshold : 0 <= page_mem_size_total_threshold cfg;
  cfg_size : page_mem_size_total_threshold cfg + 2 ^ page_idem_num cfg <= 2 ^ 64;
  cfg_layers : page_mem_size_total_threshold cfg / 2 ^ page_idem_num cfg + 1 < 2 ^ 32;
  cfg_lift : page_mem_size_total_threshold cfg / 2 ^ page_idem_num cfg + 1 <= span_layer_lift_max cfg;
}.

(** ** Running the monad *)

Section run.
Context `{ExpandableApi}.

(** [m] run in [s] succeeds, with a result and a state that satisfy [Q]. *)
Definition run {A} (m : M A) (s : Scalable) (Q : A -> Scalable -> Prop) : Prop :=
  wp (m s) (fun '(a, s') => Q a s').

Lemma run_ret {A} (a : A) s (Q : A -> Scalable -> Prop) : Q a s -> run (mret a) s Q.
Proof. done. Qed.

Lemma run_bind {A B} (m : M A) (f : A -> M B) s Q :
  run m s (fun a s' => run (f a) s' Q) -> run (m ≫= f) s Q.
Proof. unfold run, mbind, M_bind. intros Hm. apply wp_bind. eapply wp_mono; [exact Hm|]. by intros [a s']. Qed.

Lemma run_mono {A} (m : M A) s (P Q : A -> Scalable -> Prop) :
  run m s P -> (forall a s', P a s' -> Q a s') -> run m s Q.
Proof. intros Hm HPQ. eapply wp_mono; [exact Hm|]. intros [a s']. apply HPQ. Qed.

Lemma run_gets {A B} (f : Scalable -> A) (k : A -> M B) s Q :
  run (k (f s)) s Q -> run (gets f ≫= k) s Q.
Proof. done. Qed.

Lemma run_modify {B} f (k : unit -> M B) s Q : run (k tt) (f s) Q -> run (modify f ≫= k) s Q.
Proof. done. Qed.

Lemma run_lift {A B} (o : outcome A) a (k : A -> M B) s Q :
  o = Ok a -> run (k a) s Q -> run (lift o ≫= k) s Q.
Proof. by intros ->. Qed.

Lemma run_deref {B} a p (k : PageSpan -> M B) s Q :
  spans s !! a = Some p -> run (k p) s Q -> run (deref a ≫= k) s Q.
Proof. intros Ha Hk. apply run_bind, run_gets. unfold run, lift, get_span. by rewrite Ha. Qed.

Lemma run_on_span {B} f a p (k : unit -> M B) s Q :
  spans s !! a = Some p -> run (k tt) (set_spans (<[a := f p]> (spans s)) s) Q ->
  run (on_span f a ≫= k) s Q.
Proof.
  intros Ha Hk. apply run_bind, run_gets, run_bind. unfold run, lift, update_span, get_span. by rewrite Ha.
Qed.

Lemma run_Ok {A} (m : M A) s Q :
  run m s Q -> exists a s', m s = Ok (a, s') /\ Q a s'.
Proof. unfold run. intros ([a s'] & E & HQ)%wp_Ok. by exists a, s'. Qed.
End run.

(** ** The invariant *)

Section sound.
Context `{HMB : MemBlockApi} `{HHM : HostMemory} `{HDM : DeviceMem} `{HEA : ExpandableApi}.
Context (unreserved : Expandable -> Prop) (cfg : ScalableConfig).
Import ScalableAllocator.

Abbreviation page := (2 ^ page_idem_num cfg).
Abbreviation cap := (span_layer_capacity_ cfg).

(** Reference count and length, by span. *)
Definition view (h : span_heap) : span_view := (fun p => (GetCount p, page_len_ p)) <$> h.

(** Idle spans among those in [v]. *)
Definition idle (v : span_view) (x : addr) : Prop := exists n, v !! x = Some (0, n).

(** Nothing is left to merge. *)
Definition maximal (ars : list (arena * list addr)) (v : span_view) : Prop :=
  forall x y, adjacent ars x y -> idle v x -> idle v y -> False.

Lemma maximal_delete ars v a : maximal ars v -> maximal ars (delete a v).
Proof.
  intros Hm x y Hxy [n [_ Hx]%lookup_delete_Some] [n' [_ Hy]%lookup_delete_Some].
  eapply Hm; [exact Hxy| |]; by eexists.
Qed.

Lemma idle_insert v a c n x : idle (<[a := (c, n)]> v) x <-> (x = a /\ c = 0) \/ (x <> a /\ idle v x).
Proof. unfold idle. setoid_rewrite lookup_insert_Some. naive_solver. Qed.

Lemma maximal_busy ars v a c n : 0 < c -> maximal ars v -> maximal ars (<[a := (c, n)]> v).
Proof.
  intros Hc Hm x y Hxy [[_ ?]|[_ Hx]]%idle_insert [[_ ?]|[_ Hy]]%idle_insert; try lia. by eapply Hm.
Qed.

Lemma maximal_idle ars v a n :
  maximal ars v -> ~ adjacent ars a a ->
  (forall y, adjacent ars a y \/ adjacent ars y a -> ~ idle v y) -> maximal ars (<[a := (0, n)]> v).
Proof.
  intros Hm Haa Ha x y Hxy [[-> _]|[Hxa Hx]]%idle_insert [[-> _]|[Hya Hy]]%idle_insert; [done| | |].
  - apply (Ha y); auto.
  - apply (Ha x); auto.
  - by eapply Hm.
Qed.

(** The spans tile the device blocks; those in [v] are filed. *)
Record inv (s : Scalable) (ars : list (arena * list addr)) (v : span_view) : Prop := {
  inv_tiling : tiling page cap (geom <$> spans s) ars;
  inv_backed : backed page dev_frees ars (blocks_ (device_ s));
  inv_filing : filing (lut cfg) cap v (occupied_spans_ s) (span_layers_ s) (span_layer_ids_ s);
  inv_maximal : maximal ars v;
  inv_plain : forall a p, spans s !! a = Some p ->
    new_va_span_ p = false /\ ref_span_ p = None /\ Z.pos a < 2 ^ 64;
  inv_unreserved : unreserved (expandable_ s);
  inv_new_va : new_va_size_ (new_va_ s) = 0 /\ new_span_layer_ids_ (new_va_ s) = [];
}.

(** Only the filing differs. *)
Record refiled (s s' : Scalable) : Prop := {
  rf_spans : spans s' = spans s;
  rf_new_va : new_va_ s' = new_va_ s;
  rf_expandable : expandable_ s' = expandable_ s;
  rf_device : device_ s' = device_ s;
  rf_counters : counters_ s' = counters_ s;
}.

Lemma inv_refile s ars v s' v' :
  inv s ars v -> refiled s s' ->
  filing (lut cfg) cap v' (occupied_spans_ s') (span_layers_ s') (span_layer_ids_ s') ->
  maximal ars v' -> inv s' ars v'.
Proof. intros [? ? ? ? ? ? ?] [E1 E2 E3 E4 _] Hf Hm. split; rewrite ?E1, ?E2, ?E3, ?E4; done. Qed.

Lemma refiled_refl s : refiled s s.
Proof. done. Qed.

Lemma refiled_trans s1 s2 s3 : refiled s1 s2 -> refiled s2 s3 -> refiled s1 s3.
Proof. intros [] []. split; congruence. Qed.

(** The filing alone, for the moments when a span is being cut in two. *)
Definition filed (s : Scalable) (v : span_view) : Prop :=
  filing (lut cfg) cap v (occupied_spans_ s) (span_layers_ s) (span_layer_ids_ s).

(** *** Layers *)

Lemma run_plain_layer {B} id (k : option SpanLayer -> M B) s Q :
  0 <= id < zlen (span_layers_ s) -> run (k (known_layer (span_layers_ s) id)) s Q ->
  run (plain_layer id ≫= k) s Q.
Proof.
  intros Hid Hk. unfold plain_layer. apply run_bind, run_gets.
  unfold run, lift. by rewrite layer_at_known.
Qed.

Lemma run_deref_layer {B} id layer (k : SpanLayer -> M B) s Q :
  0 <= id -> known_layer (span_layers_ s) id = Some layer -> run (k layer) s Q ->
  run (deref_layer (Plain id) ≫= k) s Q.
Proof.
  intros Hid Hl Hk. unfold deref_layer. apply run_bind, run_bind, run_gets.
  unfold run, lift. rewrite layer_at_known by (by eapply known_range). simpl. by rewrite Hl.
Qed.

Lemma PopSpanFromLayer_run s ars v id :
  inv s ars v -> 0 <= id -> is_Some (known_layer (span_layers_ s) id) ->
  run (PopSpanFromLayer cfg id) s (fun p s' =>
    refiled s s' /\ occupied_spans_ s' = occupied_spans_ s /\
    (forall i, 0 <= i -> is_Some (known_layer (span_layers_ s') i) <-> is_Some (known_layer (span_layers_ s) i)) /\
    match p with
    | Some a => v !! a = Some (0, id) /\ inv s' ars (delete a v)
    | None => (forall a, v !! a <> Some (0, id)) /\ inv s' ars v
    end).
Proof.
  intros Hi Hid [layer Hl]. pose proof (inv_filing _ _ _ Hi) as Hf.
  pose proof (known_range _ _ _ Hid Hl) as Hr.
  destruct (fil_layer Hf id layer Hid Hl) as (Hlid & Hnd & Hin).
  unfold PopSpanFromLayer. apply (run_deref_layer _ layer); try done.
  unfold SpanLayerOps.PopSpan. apply run_modify, run_modify, run_ret. simpl.
  split; [done|]. split; [done|]. split.
  { intros i Hi0. rewrite known_insert by done. case_decide; subst; [|done]. rewrite Hl. split; by eexists. }
  destruct (free_link_ layer) as [|a rest] eqn:Efree; simpl head.
  - split.
    + intros a Ha. apply Hin in Ha. by apply not_elem_of_nil in Ha.
    + eapply inv_refile; [exact Hi|done| |apply (inv_maximal _ _ _ Hi)]. simpl.
      assert (Ew : SpanLayerOps.with_free [] layer = layer) by (destruct layer; simpl in *; by subst).
      rewrite Ew. rewrite list_insert_id.
      * unfold Lut.OnLayerRemoveSpan. destruct (lut cfg) eqn:El; [|done].
        rewrite IsEmpty_spec, bool_decide_eq_true_2; [|done|by rewrite Efree].
        rewrite erase_absent; [done|]. intros Hy.
        pose proof (fil_lut Hf) as Hlut. destruct Hlut as [_ Hids]. apply Hids in Hy as [_ Hst]. rewrite Hlid in Hst.
        unfold stocked in Hst. rewrite Hl, Efree in Hst. done.
      * unfold known_layer in Hl. destruct (_ !! _); simpl in Hl; by subst.
  - assert (Ha : v !! a = Some (0, id)) by (apply Hin; by left).
    split; [done|]. eapply inv_refile; [exact Hi|done| |apply maximal_delete, (inv_maximal _ _ _ Hi)]. simpl.
    apply NoDup_cons in Hnd as [Hna Hnd].
    apply (filing_remove (lut cfg) cap v _ _ _ id layer a rest); try done.
    intros x. rewrite Efree. set_solver.
Qed.

Lemma RemoveFromLayer_run s ars v id a :
  inv s ars v -> 0 <= id -> is_Some (known_layer (span_layers_ s) id) -> v !! a = Some (0, id) ->
  run (RemoveFromLayer cfg id a) s (fun _ s' =>
    refiled s s' /\ occupied_spans_ s' = occupied_spans_ s /\ inv s' ars (delete a v)).
Proof.
  intros Hi Hid [layer Hl] Ha. pose proof (inv_filing _ _ _ Hi) as Hf.
  destruct (fil_layer Hf id layer Hid Hl) as (Hlid & Hnd & Hin).
  unfold RemoveFromLayer. apply (run_deref_layer _ layer); try done.
  assert (Hal : a ∈ free_link_ layer) by (by apply Hin).
  unfold SpanLayerOps.Remove. rewrite decide_True by done.
  apply (run_lift _ _ _ _ _ eq_refl), run_modify. split; [done|]. split; [done|].
  eapply inv_refile; [exact Hi|done| |apply maximal_delete, (inv_maximal _ _ _ Hi)]. simpl.
  apply (filing_remove (lut cfg) cap v _ _ _ id layer a); try done; [by apply NoDup_filter|].
  intros x. by rewrite list_elem_of_filter.
Qed.

Lemma PushSpanToLayer_filed s v id a :
  filed s v -> 0 <= id -> is_Some (known_layer (span_layers_ s) id) ->
  v !! a = None -> Z.pos a < 2 ^ 64 ->
  run (PushSpanToLayer cfg id a) s (fun _ s' =>
    refiled s s' /\ occupied_spans_ s' = occupied_spans_ s /\ filed s' (<[a := (0, id)]> v)).
Proof.
  intros Hf Hid [layer Hl] Ha Hab.
  destruct (filing_push _ _ _ _ _ _ _ _ a Hf Hid Hl Ha Hab) as [Hna Hf'].
  unfold PushSpanToLayer. apply (run_deref_layer _ layer); try done.
  unfold SpanLayerOps.PushSpan. rewrite decide_False by done.
  by apply (run_lift _ _ _ _ _ eq_refl), run_modify.
Qed.

Lemma PushSpanToLayer_run s ars v id a :
  inv s ars v -> 0 <= id -> is_Some (known_layer (span_layers_ s) id) ->
  v !! a = None -> Z.pos a < 2 ^ 64 -> maximal ars (<[a := (0, id)]> v) ->
  run (PushSpanToLayer cfg id a) s (fun _ s' =>
    refiled s s' /\ occupied_spans_ s' = occupied_spans_ s /\ inv s' ars (<[a := (0, id)]> v)).
Proof.
  intros Hi Hid Hl Ha Hab Hm.
  eapply run_mono; [apply (PushSpanToLayer_filed s v); try done; apply (inv_filing _ _ _ Hi)|].
  intros _ s' (Hr & Ho & Hf). split_and!; try done. by eapply inv_refile.
Qed.

Lemma filed_layers s v : filed s v -> zlen (span_layers_ s) = cap.
Proof. intros Hf. apply (fil_len Hf). Qed.

Lemma filed_nonempty s v : filed s v -> 0 < cap -> bool_decide (span_layers_ s = []) = false.
Proof.
  intros Hf Hc. apply bool_decide_eq_false_2. intros E. pose proof (filed_layers _ _ Hf) as Hl.
  rewrite E in Hl. change (zlen (@nil (option SpanLayer))) with 0 in Hl. lia.
Qed.

Lemma cap_layers s ars v : inv s ars v -> zlen (span_layers_ s) = cap.
Proof. intros Hi. apply (filed_layers _ v), (inv_filing _ _ _ Hi). Qed.

Lemma layers_nonempty s ars v : inv s ars v -> 0 < cap -> bool_decide (span_layers_ s = []) = false.
Proof. intros Hi. apply (filed_nonempty _ v), (inv_filing _ _ _ Hi). Qed.

Context (host_limit : nat) `{HHL : !HostMemoryLaws host_limit}.

Lemma FetchSpanLayer_filed s v id :
  filed s v -> 0 <= id < cap ->
  run (FetchSpanLayer cfg id) s (fun r s' =>
    r = Some id /\ refiled s s' /\ occupied_spans_ s' = occupied_spans_ s /\
    filed s' v /\ is_Some (known_layer (span_layers_ s') id)).
Proof.
  intros Hf Hid. unfold FetchSpanLayer. apply run_gets.
  rewrite (filed_nonempty _ _ Hf), (proj2 (Z.leb_gt _ _)) by lia. simpl.
  apply run_plain_layer; [by rewrite (filed_layers _ _ Hf)|].
  destruct (known_layer (span_layers_ s) id) as [layer|] eqn:El.
  - apply run_ret. by rewrite El.
  - rewrite layer_new_room. apply run_modify, run_modify, run_ret.
    split; [done|]. split; [done|]. split; [done|]. split.
    + by apply filing_create.
    + simpl. rewrite known_insert; [|by rewrite (filed_layers _ _ Hf)|lia]. rewrite decide_True by done.
      by eexists.
Qed.

Lemma FetchSpanLayer_run s ars v id :
  inv s ars v -> 0 <= id < cap ->
  run (FetchSpanLayer cfg id) s (fun r s' =>
    r = Some id /\ refiled s s' /\ occupied_spans_ s' = occupied_spans_ s /\
    inv s' ars v /\ is_Some (known_layer (span_layers_ s') id)).
Proof.
  intros Hi Hid. eapply run_mono; [apply (FetchSpanLayer_filed s v); [apply (inv_filing _ _ _ Hi)|done]|].
  intros r s' (-> & Hr & Ho & Hf & Hk). split_and!; try done.
  eapply inv_refile; [exact Hi|done|done|apply (inv_maximal _ _ _ Hi)].
Qed.

(** *** The occupied list *)

Lemma push_occupied_filed s v a c n :
  filed s v -> v !! a = None -> Z.pos a < 2 ^ 64 -> 0 < c -> 0 <= n < cap ->
  run (push_occupied a) s (fun _ s' =>
    refiled s s' /\ occupied_spans_ s' = a :: occupied_spans_ s /\ filed s' (<[a := (c, n)]> v)).
Proof.
  intros Hf Ha Hab Hc Hn. destruct (filing_occupy _ _ _ _ _ _ a c n Hf Ha Hab Hc Hn) as [Hna Hf'].
  unfold push_occupied. apply run_gets. by rewrite decide_False by done.
Qed.

Lemma remove_occupied_run s ars v a c n :
  inv s ars v -> v !! a = Some (c, n) -> 0 < c ->
  run (remove_occupied a) s (fun _ s' =>
    refiled s s' /\ occupied_spans_ s' = filter (fun x => x <> a) (occupied_spans_ s) /\
    inv s' ars (delete a v)).
Proof.
  intros Hi Ha Hc.
  destruct (filing_unoccupy _ _ _ _ _ _ a c n (inv_filing _ _ _ Hi) Ha Hc) as [Hin Hf].
  unfold remove_occupied. apply run_gets. rewrite decide_True by done.
  split; [done|]. split; [done|].
  eapply inv_refile; [exact Hi|done..|]. apply maximal_delete, (inv_maximal _ _ _ Hi).
Qed.

(** *** Merging *)

(** What of a span its owner sees. *)
Definition core (p : PageSpan) : Z * Z * Z * Z := (GetAddr p, page_len_ p, GetCount p, real_size_ p).

(** Spans in use, [l] apart, are not disturbed. *)
Definition keeps (l : list addr) (h h' : span_heap) : Prop :=
  forall x p, h !! x = Some p -> 0 < GetCount p -> x ∉ l ->
    exists p', h' !! x = Some p' /\ core p' = core p.

Lemma keeps_refl l h : keeps l h h.
Proof. intros x p Hx _ _. by exists p. Qed.

Lemma keeps_trans l h1 h2 h3 : keeps l h1 h2 -> keeps l h2 h3 -> keeps l h1 h3.
Proof.
  intros H1 H2 x p Hx Hc Hl. destruct (H1 x p Hx Hc Hl) as (p2 & Hx2 & E2).
  destruct (H2 x p2 Hx2) as (p3 & Hx3 & E3); [unfold core in E2; congruence|done|]. exists p3. by rewrite E3.
Qed.

Lemma keeps_weaken l l' h h' : (forall x, x ∈ l -> x ∈ l') -> keeps l h h' -> keeps l' h h'.
Proof. intros Hl Hk x p Hx Hc Hn. apply Hk; auto. Qed.

(** Outside the spans and their filing nothing differs. *)
Record same_env (s s' : Scalable) : Prop := {
  se_new_va : new_va_ s' = new_va_ s;
  se_expandable : expandable_ s' = expandable_ s;
  se_device : device_ s' = device_ s;
}.

Lemma same_env_refl s : same_env s s.
Proof. done. Qed.
Lemma same_env_trans s1 s2 s3 : same_env s1 s2 -> same_env s2 s3 -> same_env s1 s3.
Proof. intros [] []. split; congruence. Qed.
Lemma refiled_env s s' : refiled s s' -> same_env s s'.
Proof. by intros []. Qed.

Lemma backed_same ars ars' blocks :
  ars'.*1 = ars.*1 -> backed page dev_frees ars blocks -> backed page dev_frees ars' blocks.
Proof.
  intros E [Hb Hn Ha Ho]. split; [| |done|].
  - rewrite Forall_forall in Hb |- *. intros [ar l] Hin.
    assert (Har : ar ∈ ars.*1) by (rewrite <- E; apply list_elem_of_fmap; by exists (ar, l)).
    apply list_elem_of_fmap in Har as ([ar' l'] & -> & Hin'). by apply (Hb _ Hin').
  - rewrite list_fmap_compose in Hn |- *. by rewrite E.
  - intros Hf b Hb'. specialize (Ho Hf b Hb'). rewrite list_fmap_compose in Ho |- *. by rewrite E.
Qed.

Lemma view_lookup h x : view h !! x = (fun p => (GetCount p, page_len_ p)) <$> h !! x.
Proof. apply lookup_fmap. Qed.

Hypothesis Hcfg : config_ok cfg.

Lemma page_pos : 0 < page.
Proof. apply Z.pow_pos_nonneg; [lia|apply Hcfg]. Qed.

Lemma cap_eq : cap = 1 + page_mem_size_total_threshold cfg / page.
Proof.
  destruct Hcfg as [H1 H2 H3 H4 _]. pose proof page_pos.
  unfold span_layer_capacity_, SpanLayerId_GetIdFromSize, PageLen_GetLenFromSize, idem, uwrap.
  rewrite Z.shiftr_div_pow2 by lia.
  assert (Hq : 0 <= page_mem_size_total_threshold cfg / page) by (apply Z.div_pos; lia).
  set (q := page_mem_size_total_threshold cfg / page) in *. clearbody q.
  rewrite (Z.mod_small q), Z.mod_small by lia. done.
Qed.

Lemma cap_range : 0 < cap < 2 ^ 32.
Proof.
  rewrite cap_eq. destruct Hcfg as [H1 H2 H3 H4 _].
  assert (Hq : 0 <= page_mem_size_total_threshold cfg / page) by (apply Z.div_pos; [lia|apply page_pos]).
  set (q := page_mem_size_total_threshold cfg / page) in *. clearbody q. lia.
Qed.

Lemma inv_chain s A1 ar l1 a l2 A2 v p :
  inv s (A1 ++ (ar, l1 ++ a :: l2) :: A2) v -> spans s !! a = Some p ->
  NoDup (l1 ++ a :: l2) /\ 0 < page_len_ p < cap /\
  GetPrevBuddy p = final None l1 /\ GetNextBuddy p = first None l2 /\
  forall x, x ∈ l1 ++ a :: l2 -> exists q, spans s !! x = Some q.
Proof.
  intros Hi Hp. pose proof (inv_tiling _ _ _ Hi) as Ht.
  assert (Hg : (geom <$> spans s) !! a = Some (geom p)) by (by rewrite lookup_fmap, Hp).
  destruct (tiling_at _ _ _ _ _ _ _ _ _ Ht) as (Hnd & _ & k & Hk & Hl & Hb & _ & _).
  pose proof (tiling_len _ page_pos _ _ _ _ _ Ht Hg) as Hlen. simplify_eq. simpl in *.
  split; [done|]. split; [done|]. unfold GetPrevBuddy, GetNextBuddy. rewrite Hb. split; [done|]. split; [done|].
  intros x Hx. assert (Hs : is_Some ((geom <$> spans s) !! x)).
  { apply (til_dom _ _ _ _ Ht). rewrite bind_app, bind_cons. simpl. set_solver. }
  rewrite lookup_fmap in Hs. apply fmap_is_Some in Hs as [q Hq]. by exists q.
Qed.

(** What is known after [b], behind [a], was merged into [a]. *)
Record merge_post s s' A1 ar l1 a b l2 A2 pa pb : Prop := {
  mp_inv : inv s' (A1 ++ (ar, l1 ++ a :: l2) :: A2) (delete a (view (spans s')));
  mp_span : exists t, spans s' !! a = Some (merged t pa pb);
  mp_view : forall x, x <> a -> x <> b -> view (spans s') !! x = view (spans s) !! x;
  mp_env : same_env s s';
  mp_occ : occupied_spans_ s' = occupied_spans_ s;
  mp_keeps : keeps [a; b] (spans s) (spans s');
  mp_size : (size (spans s') <= size (spans s))%nat;
}.

Lemma core_SetPrev q p : core (SetPrev q p) = core p.
Proof. done. Qed.

Lemma merge_heap h A1 ar l1 a b l2 A2 pa pb :
  tiling page cap (geom <$> h) (A1 ++ (ar, l1 ++ a :: b :: l2) :: A2) ->
  h !! a = Some pa -> h !! b = Some pb ->
  exists h' t, PageSpanOps.MergeBuddy a b h = Ok h' /\
    h' !! a = Some (merged t pa pb) /\ h' !! b = Some pb /\
    (forall x, x <> a -> x <> b -> exists q, h' !! x = q <$> h !! x /\
       forall p, core (q p) = core p /\ new_va_span_ (q p) = new_va_span_ p /\ ref_span_ (q p) = ref_span_ p) /\
    tiling page cap (geom <$> delete b h') (A1 ++ (ar, l1 ++ a :: l2) :: A2).
Proof.
  intros Ht Ha Hb. pose proof page_pos as Hpg.
  assert (Hga : (geom <$> h) !! a = Some (geom pa)) by (by rewrite lookup_fmap, Ha).
  assert (Hgb : (geom <$> h) !! b = Some (geom pb)) by (by rewrite lookup_fmap, Hb).
  assert (Ht' : tiling page cap (geom <$> h) (A1 ++ (ar, (l1 ++ [a]) ++ b :: l2) :: A2))
    by (by rewrite <- app_assoc).
  destruct (tiling_at _ _ _ _ _ _ _ _ _ Ht) as (Hnd & _ & ka & Hka & Hla & Hba & _ & _).
  destruct (tiling_at _ _ _ _ _ _ _ _ _ Ht') as (_ & _ & kb & Hkb & Hlb & Hbb & _ & _).
  pose proof (tiling_at _ _ _ _ _ _ _ _ _ Ht) as (_ & Hpages & k0 & Hk0 & _ & _ & _ & Hchain).
  simplify_eq. simpl in *. destruct Hchain as (k1 & Hk1 & _ & _ & _ & Hchain). rewrite Hgb in Hk1.
  injection Hk1 as <-. simpl in *.
  apply NoDup_app in Hnd as (Hnd1 & Hd & [Hna [Hnb Hnd2]%NoDup_cons]%NoDup_cons).
  assert (Hne : a <> b) by set_solver.
  assert (Hlen : page_len_ pa + page_len_ pb < cap).
  { pose proof (tiling_at _ _ _ _ _ _ _ _ _ Ht) as (_ & _ & k2 & Hk2 & _ & _ & H1%chain_le & _); [|done].
    rewrite Hga in Hk2. injection Hk2 as <-. simpl in *. apply chain_le in Hchain; [|done]. nia. }
  assert (Hnb' : GetNextBuddy pb = first None l2) by (unfold GetNextBuddy; by rewrite Hbb).
  assert (Hc : forall c, GetNextBuddy pb = Some c -> is_Some (h !! c) /\ c <> a /\ c <> b).
  { intros c E. rewrite Hnb' in E. assert (Hc : c ∈ l2) by (destruct l2; [done|]; injection E as ->; by left).
    split; [|split; intros ->; set_solver].
    assert (Hs : is_Some ((geom <$> h) !! c)).
    { apply (til_dom _ _ _ _ Ht). rewrite bind_app, bind_cons. simpl. set_solver. }
    rewrite lookup_fmap in Hs. by apply fmap_is_Some in Hs. }
  destruct (MergeBuddy_ok a b pa pb h Ha Hb Hne) as (h' & t & E & H'a & H'b & H'c & H'x); [| | |done|].
  - unfold GetNextBuddy. by rewrite Hba.
  - unfold GetPrevBuddy. rewrite Hbb. unfold final. by rewrite last_snoc.
  - pose proof cap_range. lia.
  - exists h', t. split_and!; try done.
    + intros x Hxa Hxb. destruct (decide (GetNextBuddy pb = Some x)) as [En|En].
      * exists (SetPrev (Some a)). split; [by apply H'c|done].
      * exists id. rewrite H'x by done. split; [by rewrite option_fmap_id|done].
    + eapply (tiling_merge page Hpg cap); [exact Ht|exact Hga|exact Hgb| | | |].
      * rewrite lookup_fmap, lookup_delete_ne, H'a by done. done.
      * by rewrite lookup_fmap, lookup_delete_eq.
      * intros c Ec. destruct (Hc c Ec) as (_ & Hca & Hcb).
        rewrite !lookup_fmap, lookup_delete_ne, (H'c c Ec) by done. by destruct (h !! c).
      * intros x Hxa Hxb Hx. rewrite !lookup_fmap, lookup_delete_ne, H'x by done. done.
Qed.

Lemma merge_run {B} s A1 ar l1 a b l2 A2 pa pb (k : M B) Q :
  inv s (A1 ++ (ar, l1 ++ a :: b :: l2) :: A2) (delete b (delete a (view (spans s)))) ->
  spans s !! a = Some pa -> spans s !! b = Some pb ->
  (forall s', merge_post s s' A1 ar l1 a b l2 A2 pa pb -> run k s' Q) ->
  run (h ← gets spans; h ← lift (PageSpanOps.MergeBuddy a b h); _ ← modify (set_spans h);
       _ ← free_object b; k) s Q.
Proof.
  intros Hi Ha Hb Hk. destruct Hi as [Ht Hbk Hf Hm Hpl Hu Hn].
  destruct (merge_heap _ _ _ _ _ _ _ _ _ _ Ht Ha Hb) as (h' & t & E & H'a & H'b & H'x & Ht').
  assert (Hne : a <> b).
  { intros ->. destruct (tiling_at _ _ _ _ _ _ _ _ _ Ht) as (Hnd & _).
    apply NoDup_app in Hnd as (_ & _ & [Hnb _]%NoDup_cons). set_solver. }
  apply run_gets, (run_lift _ _ _ _ _ E), run_modify. unfold free_object.
  apply run_bind, (run_deref _ pb); [done|]. apply Hk.
  assert (Hv : forall x, x <> a -> x <> b -> view (delete b h') !! x = view (spans s) !! x).
  { intros x Hxa Hxb. rewrite !view_lookup, lookup_delete_ne by done.
    destruct (H'x x Hxa Hxb) as (q & -> & Hq). destruct (spans s !! x) as [p|]; [|done]. simpl.
    destruct (Hq p) as (Hq' & _). unfold core in Hq'. do 2 f_equal; congruence. }
  assert (Hvv : delete a (view (delete b h')) = delete b (delete a (view (spans s)))).
  { apply map_eq. intros x. destruct (decide (x = a)) as [->|Hxa].
    { by rewrite lookup_delete_eq, lookup_delete_ne, lookup_delete_eq. }
    rewrite lookup_delete_ne by done. destruct (decide (x = b)) as [->|Hxb].
    { by rewrite lookup_delete_eq, view_lookup, lookup_delete_eq. }
    by rewrite !lookup_delete_ne, Hv. }
  split; simpl; try done.
  - split; simpl; try done.
    + eapply backed_same; [|exact Hbk]. by rewrite !fmap_app, !fmap_cons.
    + by rewrite Hvv.
    + rewrite Hvv. intros x y Hxy Hx Hy.
      assert (Hxa : x <> a) by (intros ->; destruct Hx as [? Hx]; by rewrite lookup_delete_ne, lookup_delete_eq in Hx).
      assert (Hya : y <> a) by (intros ->; destruct Hy as [? Hy]; by rewrite lookup_delete_ne, lookup_delete_eq in Hy).
      apply (Hm x y); [|done..].
      apply (adjacent_arena _ _ _ _ _ _ l1 l2 _ _ Hxy Hxa Hya) with (m := [a; b]); by exists [].
    + intros x p [Hxb Hx]%lookup_delete_Some. destruct (decide (x = a)) as [->|Hxa].
      * rewrite H'a in Hx. injection Hx as <-. by apply (Hpl a pa).
      * destruct (H'x x Hxa ltac:(done)) as (q & Eq & Hq). rewrite Eq in Hx.
        apply fmap_Some in Hx as (p0 & Hp0 & ->). destruct (Hq p0) as (_ & -> & ->). by apply Hpl.
  - exists t. by rewrite lookup_delete_ne.
  - intros x p Hx Hc Hl. assert (x <> a /\ x <> b) as [Hxa Hxb] by set_solver.
    destruct (H'x x Hxa Hxb) as (q & Eq & Hq). rewrite Hx in Eq. exists (q p).
    rewrite lookup_delete_ne by done. split; [done|]. by destruct (Hq p).
  - rewrite <- !size_dom. apply subseteq_size. intros x. rewrite !elem_of_dom.
    intros [p [Hxb Hx]%lookup_delete_Some]. destruct (decide (x = a)) as [->|Hxa]; [by eexists|].
    destruct (H'x x Hxa ltac:(done)) as (q & Eq & Hq). rewrite Eq in Hx. apply fmap_Some in Hx as (p0 & Hp0 & _). by eexists.
Qed.

Lemma PickOutBuddy_run s ars v q :
  inv s ars v ->
  (forall b, q = Some b -> exists p, spans s !! b = Some p /\ v !! b = Some (GetCount p, page_len_ p)) ->
  run (PickOutBuddy cfg q) s (fun r s' =>
    match r with
    | None => s' = s /\ forall b, q = Some b -> ~ idle v b
    | Some b => q = Some b /\ refiled s s' /\ occupied_spans_ s' = occupied_spans_ s /\
                idle v b /\ inv s' ars (delete b v)
    end).
Proof.
  intros Hi Hq. unfold PickOutBuddy. apply run_gets. destruct q as [b|]; [|by apply run_ret].
  destruct (Hq b eq_refl) as (p & Hp & Hv). rewrite (layers_nonempty _ _ _ Hi) by apply cap_range.
  apply (run_deref _ p); [done|]. destruct (Z.eqb_spec (GetCount p) 0) as [E|E]; simpl.
  - rewrite E in Hv. pose proof (inv_filing _ _ _ Hi) as Hf.
    destruct (fil_range Hf _ _ _ Hv) as [_ Hr]. rewrite (proj2 (Z.leb_gt _ _)) by lia.
    apply run_plain_layer; [by rewrite (cap_layers _ _ _ Hi)|].
    destruct (fil_idle Hf _ _ Hv) as [layer Hl]. rewrite Hl. apply run_bind.
    eapply run_mono; [apply (RemoveFromLayer_run s ars v); first [done|lia|by eexists]|].
    intros _ s' (Hr' & Ho & Hi'). apply run_ret. split_and!; try done. by eexists.
  - apply run_ret. split; [done|]. intros b' [= <-] [n Hn]. rewrite Hv in Hn. congruence.
Qed.

(** A span in hand, between [l1] and [l2] of its block. *)
Definition in_hand s A1 ar l1 a l2 A2 p : Prop :=
  inv s (A1 ++ (ar, l1 ++ a :: l2) :: A2) (delete a (view (spans s))) /\ spans s !! a = Some p.

Lemma in_hand_view s A1 ar l1 a l2 A2 p x :
  in_hand s A1 ar l1 a l2 A2 p -> x ∈ l1 ++ a :: l2 -> x <> a ->
  exists q, spans s !! x = Some q /\ delete a (view (spans s)) !! x = Some (GetCount q, page_len_ q).
Proof.
  intros [Hi Hp] Hx Hxa. destruct (inv_chain _ _ _ _ _ _ _ _ _ Hi Hp) as (_ & _ & _ & _ & Hall).
  destruct (Hall x Hx) as [q Hq]. exists q. split; [done|].
  by rewrite lookup_delete_ne, view_lookup, Hq by done.
Qed.

Lemma idle_delete v a x : idle (delete a v) x <-> x <> a /\ idle v x.
Proof. unfold idle. setoid_rewrite lookup_delete_Some. naive_solver. Qed.

Lemma idle_view_eq v v' x : v !! x = v' !! x -> idle v x <-> idle v' x.
Proof. intros E. unfold idle. by rewrite E. Qed.

(** What merging with one neighbour leaves. *)
Definition merge_done s s' r A1 ar l1 l2 A2 : Prop :=
  exists p, in_hand s' A1 ar l1 r l2 A2 p /\ GetCount p = 0 /\
  same_env s s' /\ occupied_spans_ s' = occupied_spans_ s /\ (size (spans s') <= size (spans s))%nat.

Lemma TryMergeNext_run s A1 ar l1 a l2 A2 p :
  in_hand s A1 ar l1 a l2 A2 p -> GetCount p = 0 ->
  run (TryMergeNext cfg a) s (fun r s' => r = a /\ exists l2',
    merge_done s s' a A1 ar l1 l2' A2 /\ keeps [] (spans s) (spans s') /\
    (forall c, first None l2' = Some c -> ~ idle (view (spans s')) c)).
Proof.
  intros Hh Hc0. pose proof Hh as [Hi Hp].
  destruct (inv_chain _ _ _ _ _ _ _ _ _ Hi Hp) as (Hnd & _ & _ & Hnext & _).
  apply NoDup_app in Hnd as (_ & _ & [Ha Hnd2]%NoDup_cons).
  unfold TryMergeNext. apply (run_deref _ p); [done|]. apply run_bind.
  eapply run_mono; [apply (PickOutBuddy_run s _ _ _ Hi)|].
  { intros b Hb. rewrite Hnext in Hb. assert (b ∈ l2) by (destruct l2; [done|]; injection Hb as ->; by left).
    eapply in_hand_view; [exact Hh|set_solver|]. intros ->. done. }
  intros [b|] s1; simpl.
  - intros (Hb & Hrf & Hocc & Hidle & Hi1). rewrite Hnext in Hb.
    destruct l2 as [|b' l2]; [done|]. injection Hb as ->.
    assert (Hsp : spans s1 = spans s) by apply Hrf.
    destruct (in_hand_view _ _ _ _ _ _ _ _ b Hh) as (pb & Hpb & Hvb); [set_solver|set_solver|].
    eapply (merge_run s1 A1 ar l1 a b l2 A2 p pb); [by rewrite Hsp|by rewrite Hsp..|].
    intros s2 [Mi [t Mp] Mv Me Mo Mk Ms]. apply run_ret. split; [done|]. exists l2.
    rewrite Hsp in *. split_and!.
    + exists (merged t p pb). split_and!; try done; [|congruence].
      eapply same_env_trans; [by apply refiled_env|done].
    + intros x q Hx Hcx _. apply Mk; [done..|]. intros [->|[->|?%not_elem_of_nil]%elem_of_cons]%elem_of_cons; [| |done].
      * rewrite Hp in Hx. injection Hx as <-. lia.
      * rewrite Hpb in Hx. injection Hx as <-. destruct Hidle as [n Hn]. rewrite Hvb in Hn. injection Hn as Hn _. lia.
    + intros c Hc. assert (Hcin : c ∈ l2) by (destruct l2; [done|]; injection Hc as ->; by left).
      apply NoDup_cons in Hnd2 as [Hb2 _].
      assert (c <> a /\ c <> b) as [Hca Hcb] by (split; intros ->; set_solver).
      rewrite (idle_view_eq _ (view (spans s))) by (by apply Mv). intros Hic.
      apply (inv_maximal _ _ _ Hi b c); [|done|by apply idle_delete].
      destruct l2 as [|c' l2]; [done|]. injection Hc as ->.
      exists ar, (l1 ++ [a]), l2. rewrite <- app_assoc. simpl. set_solver.
  - intros (-> & Hnidle). apply run_ret. split; [done|]. exists l2. split_and!.
    + exists p. by split_and!.
    + apply keeps_refl.
    + intros c Hc Hic. apply (Hnidle c); [by rewrite Hnext|]. apply idle_delete. split; [|done].
      intros ->. destruct l2; [done|]. injection Hc as ->. set_solver.
Qed.

Lemma TryMergePrev_run s A1 ar l1 a l2 A2 p :
  in_hand s A1 ar l1 a l2 A2 p -> GetCount p = 0 ->
  (forall c, first None l2 = Some c -> ~ idle (view (spans s)) c) ->
  run (TryMergePrev cfg a) s (fun r s' => exists l1',
    merge_done s s' r A1 ar l1' l2 A2 /\ keeps [] (spans s) (spans s') /\
    (forall c, first None l2 = Some c -> ~ idle (view (spans s')) c) /\
    (forall c, final None l1' = Some c -> ~ idle (view (spans s')) c)).
Proof.
  intros Hh Hc0 Hnx. pose proof Hh as [Hi Hp].
  destruct (inv_chain _ _ _ _ _ _ _ _ _ Hi Hp) as (Hnd & _ & Hprev & _ & _).
  pose proof Hnd as (Hnd1 & Hd & [Ha Hnd2]%NoDup_cons)%NoDup_app.
  assert (Hfin : forall c, final None l1 = Some c -> exists l0, l1 = l0 ++ [c]).
  { intros c. destruct l1 as [|z l0 _] using rev_ind; [done|]. unfold final. rewrite last_snoc.
    intros [= ->]. by exists l0. }
  unfold TryMergePrev. apply (run_deref _ p); [done|]. apply run_bind.
  eapply run_mono; [apply (PickOutBuddy_run s _ _ _ Hi)|].
  { intros b Hb. rewrite Hprev in Hb. apply Hfin in Hb as [l0 ->].
    eapply in_hand_view; [exact Hh|set_solver|]. intros ->. apply (Hd a); set_solver. }
  intros [b|] s1; simpl.
  - intros (Hb & Hrf & Hocc & Hidle & Hi1). rewrite Hprev in Hb. apply Hfin in Hb as [l0 ->].
    assert (Hsp : spans s1 = spans s) by apply Hrf.
    destruct (in_hand_view _ _ _ _ _ _ _ _ b Hh) as (pb & Hpb & Hvb); [set_solver|intros ->; apply (Hd a); set_solver|].
    assert (Hcb : GetCount pb = 0).
    { destruct Hidle as [n Hn]. rewrite Hvb in Hn. by injection Hn. }
    rewrite <- app_assoc in Hi1. simpl in Hi1. rewrite delete_delete in Hi1.
    eapply (merge_run s1 A1 ar l0 b a l2 A2 pb p); [by rewrite Hsp|by rewrite Hsp..|].
    intros s2 [Mi [t Mp] Mv Me Mo Mk Ms]. apply run_ret. exists l0.
    rewrite Hsp in *. split_and!.
    + exists (merged t pb p). split_and!; try done; [|congruence].
      eapply same_env_trans; [by apply refiled_env|done].
    + intros x q Hx Hcx _. apply Mk; [done..|]. intros [->|[->|?%not_elem_of_nil]%elem_of_cons]%elem_of_cons; [| |done].
      * rewrite Hpb in Hx. injection Hx as <-. lia.
      * rewrite Hp in Hx. injection Hx as <-. lia.
    + intros c Hc. assert (Hcin : c ∈ l2) by (destruct l2; [done|]; injection Hc as ->; by left).
      rewrite (idle_view_eq _ (view (spans s))); [by apply Hnx|]. apply Mv; intros ->; [|done].
      apply (Hd b); set_solver.
    + intros c Hc. destruct l0 as [|z l0 _] using rev_ind; [done|]. unfold final in Hc. rewrite last_snoc in Hc.
      injection Hc as ->. apply NoDup_app in Hnd1 as (Hnd0 & Hd0 & _).
      rewrite (idle_view_eq _ (view (spans s))).
      * intros Hic. apply (inv_maximal _ _ _ Hi c b); [|apply idle_delete; split; [|done]|done].
        -- exists ar, l0, (a :: l2). rewrite <- !app_assoc. simpl. set_solver.
        -- intros ->. apply (Hd a); set_solver.
      * apply Mv; intros ->; [apply (Hd0 b); set_solver|apply (Hd a); set_solver].
  - intros (-> & Hnidle). apply run_ret. exists l1. split_and!.
    + exists p. by split_and!.
    + apply keeps_refl.
    + done.
    + intros c Hc Hic. apply (Hnidle c); [by rewrite Hprev|]. apply idle_delete. split; [|done].
      intros ->. apply Hfin in Hc as [l0 ->]. apply (Hd a); set_solver.
Qed.

(** Everything is filed. *)
Definition inv0 s ars : Prop := inv s ars (view (spans s)).

Lemma inv_counters s ars v c : inv s ars v -> inv (set_counters c s) ars v.
Proof. by intros []. Qed.

(** [a] is on the occupied list but has no references any more. *)
Record released s ars a p : Prop := {
  rel_span : spans s !! a = Some p;
  rel_count : GetCount p = 0;
  rel_inv : exists v c n, inv s ars v /\ v !! a = Some (c, n) /\ 0 < c /\ delete a v = delete a (view (spans s));
}.

(** Between its neighbours, which are in use. *)
Definition settled s A1 ar l1 a l2 A2 p : Prop :=
  in_hand s A1 ar l1 a l2 A2 p /\ GetCount p = 0 /\
  (forall c, first None l2 = Some c -> ~ idle (view (spans s)) c) /\
  (forall c, final None l1 = Some c -> ~ idle (view (spans s)) c).

Lemma Unoccupy_run s ars a p :
  released s ars a p ->
  run (Unoccupy cfg a) s (fun r s' => exists A1 ar l1 l2 A2 p',
    settled s' A1 ar l1 r l2 A2 p' /\ same_env s s' /\ keeps [] (spans s) (spans s') /\
    occupied_spans_ s' = filter (fun x => x <> a) (occupied_spans_ s) /\
    (size (spans s') <= size (spans s))%nat).
Proof.
  intros [Hp Hc0 (v & c & n & Hi & Hva & Hc & Hdel)]. unfold Unoccupy. apply run_bind.
  eapply run_mono; [by apply (remove_occupied_run s ars v a c n)|]. intros _ s1 (Hrf & Ho1 & Hi1).
  assert (Hsp : spans s1 = spans s) by apply Hrf.
  destruct (locate page cap (geom <$> spans s1) ars a (inv_tiling _ _ _ Hi1)) as (A1 & ar & l1 & l2 & A2 & ->).
  { rewrite lookup_fmap, Hsp, Hp. by eexists. }
  assert (Hh : in_hand s1 A1 ar l1 a l2 A2 p) by (split; [by rewrite Hsp, <- Hdel|by rewrite Hsp]).
  apply run_bind. eapply run_mono; [by apply (TryMergeNext_run s1 A1 ar l1 a l2 A2 p)|].
  intros r2 s2 (-> & l2' & (p2 & Hh2 & Hc2 & He2 & Ho2 & Hz2) & Hk2 & Hn2).
  eapply run_mono; [by apply (TryMergePrev_run s2 A1 ar l1 a l2' A2 p2)|].
  intros r3 s3 (l1' & (p3 & Hh3 & Hc3 & He3 & Ho3 & Hz3) & Hk3 & Hn3 & Hp3).
  exists A1, ar, l1', l2', A2, p3. rewrite Hsp in *. split_and!; try done.
  - eapply same_env_trans; [by apply refiled_env|]. by eapply same_env_trans.
  - by eapply keeps_trans.
  - congruence.
  - lia.
Qed.

Lemma view_insert h a p : view (<[a := p]> h) = <[a := (GetCount p, page_len_ p)]> (view h).
Proof. unfold view. by rewrite fmap_insert. Qed.

Lemma settled_refiled s s' A1 ar l1 a l2 A2 p :
  settled s A1 ar l1 a l2 A2 p -> refiled s s' ->
  inv s' (A1 ++ (ar, l1 ++ a :: l2) :: A2) (delete a (view (spans s))) -> settled s' A1 ar l1 a l2 A2 p.
Proof. intros ([_ Hp] & H0 & Hn & Hpv) [E _ _ _ _] Hi. unfold settled, in_hand. by rewrite E. Qed.

(** A settled span goes to its layer. *)
Lemma settled_push s A1 ar l1 a l2 A2 p :
  settled s A1 ar l1 a l2 A2 p -> is_Some (known_layer (span_layers_ s) (page_len_ p)) ->
  run (PushSpanToLayer cfg (page_len_ p) a) s (fun _ s' =>
    inv0 s' (A1 ++ (ar, l1 ++ a :: l2) :: A2) /\ refiled s s' /\ occupied_spans_ s' = occupied_spans_ s).
Proof.
  intros ([Hi Hp] & Hc0 & Hn & Hpv) Hk.
  destruct (inv_chain _ _ _ _ _ _ _ _ _ Hi Hp) as (Hnd & Hlen & _).
  destruct (inv_plain _ _ _ Hi a p Hp) as (_ & _ & Hab).
  eapply run_mono; [apply (PushSpanToLayer_run s _ _ (page_len_ p) a Hi); try done; [lia|by rewrite lookup_delete_eq|]|].
  - rewrite insert_delete_eq. rewrite <- (insert_delete_eq (view _)).
    assert (Hadj := adjacent_self _ _ _ _ _ _ _ _ _ (inv_tiling _ _ _ Hi)).
    apply maximal_idle; [apply (inv_maximal _ _ _ Hi)| |].
    + intros Haa. apply NoDup_app in Hnd as (_ & Hd & [Hal _]%NoDup_cons).
      destruct (Hadj a (or_introl Haa)) as [E|E].
      * destruct l2; [done|]. injection E as ->. set_solver.
      * destruct l1 as [|z l0 _] using rev_ind; [done|]. unfold final in E. rewrite last_snoc in E.
        injection E as ->. apply (Hd a); set_solver.
    + intros y Hy. destruct (Hadj y Hy) as [E|E]; intros [Hya Hiy]%idle_delete; [by apply (Hn y)|by apply (Hpv y)].
  - intros _ s' (Hrf & Ho & Hi'). split_and!; try done. unfold inv0. rewrite (rf_spans _ _ Hrf).
    rewrite insert_delete_eq, insert_id in Hi'; [done|]. by rewrite view_lookup, Hp, <- Hc0.
Qed.

Lemma settled_layer s A1 ar l1 a l2 A2 p :
  settled s A1 ar l1 a l2 A2 p ->
  run (FetchSpanLayer cfg (page_len_ p)) s (fun r s' => r = Some (page_len_ p) /\ refiled s s' /\
    occupied_spans_ s' = occupied_spans_ s /\ settled s' A1 ar l1 a l2 A2 p /\
    is_Some (known_layer (span_layers_ s') (page_len_ p))).
Proof.
  intros Hs. pose proof Hs as ([Hi Hp] & _). destruct (inv_chain _ _ _ _ _ _ _ _ _ Hi Hp) as (_ & Hlen & _).
  eapply run_mono; [apply (FetchSpanLayer_run s _ _ _ Hi); lia|].
  intros r s' (-> & Hrf & Ho & Hi' & Hk). split_and!; try done. by eapply settled_refiled.
Qed.

Lemma FreeSpan_run s A1 ar l1 a l2 A2 p :
  settled s A1 ar l1 a l2 A2 p ->
  run (FreeSpan cfg a) s (fun _ s' => inv0 s' (A1 ++ (ar, l1 ++ a :: l2) :: A2) /\
    spans s' = spans s /\ same_env s s' /\ occupied_spans_ s' = occupied_spans_ s).
Proof.
  intros Hs. pose proof Hs as ([Hi Hp] & _). destruct (inv_plain _ _ _ Hi a p Hp) as (Hva & _ & _).
  unfold FreeSpan. apply (run_deref _ p); [done|]. rewrite Hva. apply run_bind.
  eapply run_mono; [by apply (settled_layer s)|].
  intros r s1 (-> & Hrf1 & Ho1 & Hs1 & Hk1). apply run_bind.
  eapply run_mono; [by apply (settled_push s1)|].
  intros _ s2 (Hi2 & Hrf2 & Ho2). pose proof (refiled_trans _ _ _ Hrf1 Hrf2) as [E1 E2 E3 E4 _].
  unfold modify_counters. split_and!; try done; [|simpl; congruence].
  unfold inv0. by apply inv_counters.
Qed.

(** *** Free *)

Context `{HML : !MemBlockLaws} `{HEL : !ExpandableLaws unreserved}.

Lemma drop_count_ok n : 0 <= n -> drop_count (Z.to_nat n) n = Ok 0.
Proof.
  intros Hn. rewrite <- (Z2Nat.id n) at 2 by done. generalize (Z.to_nat n). clear n Hn.
  intros k. induction k as [|k IH]; [done|]. cbn [drop_count].
  rewrite (proj2 (Z.ltb_lt _ _)) by lia. rewrite SubCount_pred by lia.
  by replace (Z.of_nat (S k) - 1) with (Z.of_nat k) by lia.
Qed.

Lemma run_DropReferences {B} a p (k : unit -> M B) s Q :
  spans s !! a = Some p -> 0 <= GetCount p ->
  run (k tt) (set_spans (<[a := set_count 0 p]> (spans s)) s) Q -> run (DropReferences a ≫= k) s Q.
Proof.
  intros Hp Hc Hk. unfold DropReferences. apply run_bind, (run_deref _ p); [done|].
  apply (run_lift _ 0); [by apply drop_count_ok|].
  unfold run, on_span, gets, lift, update_span, get_span, mbind, M_bind. simpl. by rewrite Hp.
Qed.

Lemma geom_insert (h : span_heap) a p p' : h !! a = Some p -> geom p' = geom p -> geom <$> <[a := p']> h = geom <$> h.
Proof.
  intros Hp E. rewrite fmap_insert, E. apply insert_id. by rewrite lookup_fmap, Hp.
Qed.

(** A span is updated without moving it or giving it flags. *)
Lemma inv_update s ars v a p p' :
  inv s ars v -> spans s !! a = Some p -> geom p' = geom p ->
  new_va_span_ p' = new_va_span_ p -> ref_span_ p' = ref_span_ p ->
  inv (set_spans (<[a := p']> (spans s)) s) ars v.
Proof.
  intros [Ht Hb Hf Hm Hpl Hu Hn] Hp Eg E1 E2. split; simpl; try done.
  - by rewrite (geom_insert _ _ _ _ Hp Eg).
  - intros x q [[<- <-]|[_ Hx]]%lookup_insert_Some; [rewrite E1, E2|]; by apply Hpl.
Qed.

Lemma inv0_count s ars a p : inv0 s ars -> spans s !! a = Some p -> 0 <= GetCount p.
Proof.
  intros Hi Hp. apply (fil_range (inv_filing _ _ _ Hi) a _ (page_len_ p)). by rewrite view_lookup, Hp.
Qed.

Lemma inv0_occupied s ars a :
  inv0 s ars -> a ∈ occupied_spans_ s <-> exists p, spans s !! a = Some p /\ 0 < GetCount p.
Proof.
  intros Hi. rewrite (fil_occ (inv_filing _ _ _ Hi)). setoid_rewrite view_lookup. split.
  - intros (c & n & (p & Hp & [= -> ->])%fmap_Some & Hc). by exists p.
  - intros (p & Hp & Hc). exists (GetCount p), (page_len_ p). by rewrite Hp.
Qed.

Lemma released_drop s ars a p :
  inv0 s ars -> spans s !! a = Some p -> 0 < GetCount p ->
  released (set_spans (<[a := set_count 0 p]> (spans s)) s) ars a (set_count 0 p).
Proof.
  intros Hi Hp Hc. split; simpl; [apply lookup_insert_eq|done|].
  exists (view (spans s)), (GetCount p), (page_len_ p). split_and!.
  - by apply (inv_update _ _ _ _ p).
  - by rewrite view_lookup, Hp.
  - done.
  - by rewrite view_insert, delete_insert_eq.
Qed.

Lemma released_env s ars a p e c :
  released s ars a p -> unreserved e -> released (set_counters c (set_expandable e s)) ars a p.
Proof. intros [Hp H0 (v & c' & n & [] & ? & ? & ?)] He. split; [done..|]. by exists v, c', n. Qed.

(** What putting a span away comes to. *)
Record freed s s' a : Prop := {
  fr_inv : exists ars', inv0 s' ars';
  fr_occ : occupied_spans_ s' = filter (fun x => x <> a) (occupied_spans_ s);
  fr_keeps : keeps [] (spans s) (spans s');
  fr_size : (size (spans s') <= size (spans s))%nat;
  fr_device : device_ s' = device_ s;
}.

Lemma put_away s ars a p :
  released s ars a p -> run (r ← Unoccupy cfg a; FreeSpan cfg r) s (fun _ s' => freed s s' a).
Proof.
  intros Hr. apply run_bind. eapply run_mono; [by apply (Unoccupy_run s ars a p)|].
  intros r s1 (A1 & ar & l1 & l2 & A2 & p1 & Hs & He & Hk & Ho & Hz).
  eapply run_mono; [by apply (FreeSpan_run s1 A1 ar l1 r l2 A2 p1)|].
  intros _ s2 (Hi & Hsp & He2 & Ho2). split.
  - by eexists.
  - congruence.
  - by rewrite Hsp.
  - by rewrite Hsp.
  - destruct He, He2. congruence.
Qed.

Lemma Free_run s ars a p :
  released s ars a p -> run (Free cfg (Some a)) s (fun _ s' => freed s s' a).
Proof.
  intros Hr. pose proof Hr as [Hp Hc0 (v & c & n & Hi & _)].
  destruct (inv_plain _ _ _ Hi a p Hp) as (Hva & Href & _).
  pose proof (inv_unreserved _ _ _ Hi) as Hu. unfold Free. apply (run_deref _ p); [done|]. apply run_gets.
  assert (Hgo : forall e c', unreserved e ->
    run (_ ← (if new_va_span_ p
              then modify_expandable (FreePhysicalMemoryPa (GetAddr p) (pa_list_ p) true false)
              else modify_expandable (FreePhysicalMemory (GetAddr p) (GetSize cfg p) true false));
         _ ← match ref_span_ p with
             | Some r => _ ← FreeSpanEx cfg r; on_span (SetRefSpan None) a
             | None => mret tt
             end;
         span ← Unoccupy cfg a; FreeSpan cfg span)
      (set_counters c' (set_expandable e s)) (fun _ s' => freed s s' a)).
  { intros e c' He. rewrite Hva, Href. apply run_modify. apply run_bind, run_ret. simpl.
    rewrite unreserved_free by done.
    change (set_expandable e (set_counters c' (set_expandable e s))) with (set_counters c' (set_expandable e s)).
    eapply run_mono; [eapply put_away, released_env; [exact Hr|exact He]|].
    intros _ s' [[ars' H1] H2 H3 H4 H5]. split; [by exists ars'|done..]. }
  destruct (real_size_ p <=? theory_size_ (counters_ s)).
  - apply run_bind, run_modify. simpl. refine (Hgo _ _ _). by apply unreserved_theory.
  - apply run_bind, run_ret. destruct s. exact (Hgo _ _ Hu).
Qed.

(** The last reference goes and the block is freed. *)
Definition release (a : addr) : M unit := _ ← DropReferences a; Free cfg (Some a).

Lemma release_run s ars a p :
  inv0 s ars -> spans s !! a = Some p -> 0 < GetCount p ->
  run (release a) s (fun _ s' =>
    (exists ars', inv0 s' ars') /\ occupied_spans_ s' = filter (fun x => x <> a) (occupied_spans_ s) /\
    keeps [a] (spans s) (spans s') /\ (size (spans s') <= size (spans s))%nat /\ device_ s' = device_ s).
Proof.
  intros Hi Hp Hc. apply (run_DropReferences _ p); [done|lia|].
  eapply run_mono; [eapply Free_run, released_drop; done|].
  intros _ s' [H1 H2 H3 H4 H5]. simpl in *. split_and!; try done.
  - intros x q Hx Hcx Hl. assert (x <> a) by set_solver.
    apply (H3 x q); [by rewrite lookup_insert_ne|done|by apply not_elem_of_nil].
  - by rewrite map_size_insert_Some in H4 by by eexists.
Qed.
End sound.
