(* ===== verification/MemScalableAlloc.v ===== *)
(** * MemScalableAlloc: serving requests

    [Alloc] of the page span allocator keeps the invariant of
    [MemScalableSound] on each of its ways: an idle span of the right length,
    a longer one cut in two, or a new device block. *)

From S2P Require Import Prelude MemLink MemSpan MemScalable MemFiling MemTiling MemScalableSound.

#[local] Set Warnings "-clear-no-such-hyp".

#[local] Arguments inv_tiling {_ _ _ _ _ _ _} _.
#[local] Arguments inv_backed {_ _ _ _ _ _ _} _.
#[local] Arguments inv_filing {_ _ _ _ _ _ _} _.
#[local] Arguments inv_maximal {_ _ _ _ _ _ _} _.
#[local] Arguments inv_plain {_ _ _ _ _ _ _} _.
#[local] Arguments inv_unreserved {_ _ _ _ _ _ _} _.

Section alloc.
Context `{HMB : MemBlockApi} `{HHM : HostMemory} `{HDM : DeviceMem} `{HEA : ExpandableApi}.
Context (unreserved : Expandable -> Prop) (cfg : ScalableConfig) (host_limit : nat).
Context `{HML : !MemBlockLaws} `{HHL : !HostMemoryLaws host_limit} `{HDL : !DeviceMemLaws}
  `{HEL : !ExpandableLaws unreserved}.
Hypothesis Hcfg : config_ok cfg.
Import ScalableAllocator.

Abbreviation page := (2 ^ page_idem_num cfg).
Abbreviation cap := (span_layer_capacity_ cfg).
Abbreviation inv := (inv unreserved cfg).
Abbreviation inv0 := (inv0 unreserved cfg).
Abbreviation filed := (filed cfg).

(** ** Outcomes *)

(** [a], of [n] pages, was taken into use. *)
Record taken s s' n a : Prop := {
  tk_inv : exists ars, inv0 s' ars;
  tk_occ : occupied_spans_ s' = a :: occupied_spans_ s;
  tk_fresh : a ∉ occupied_spans_ s;
  tk_span : exists p, spans s' !! a = Some p /\ page_len_ p = n;
  tk_keeps : keeps [] (spans s) (spans s');
  tk_size : (size (spans s') <= S (size (spans s)))%nat;
  tk_blocks : blocks_ (device_ s) ⊆ blocks_ (device_ s');
}.

(** Nothing was. *)
Record declined s s' : Prop := {
  dc_inv : exists ars, inv0 s' ars;
  dc_occ : occupied_spans_ s' = occupied_spans_ s;
  dc_keeps : keeps [] (spans s) (spans s');
  dc_size : (size (spans s') <= S (size (spans s)))%nat;
  dc_blocks : blocks_ (device_ s) ⊆ blocks_ (device_ s');
}.

Definition answered s s' n (r : pointer) : Prop :=
  match r with Some a => taken s s' n a | None => declined s s' end.

(** ** Taking a span into use *)

Lemma Alloc_count n p : 0 <= GetCount p -> 0 < GetCount (PageSpanOps.Alloc (idem cfg) n p).
Proof.
  intros Hc. unfold PageSpanOps.Alloc.
  change (GetCount (PageSpanOps.SetPageLen (idem cfg) n p)) with (GetCount p).
  destruct (Z.eqb_spec (GetCount p) 0) as [->|Hne]; [apply AddCount_pos|].
  change (0 < GetCount p). lia.
Qed.

Lemma Alloc_geom n p :
  geom (PageSpanOps.Alloc (idem cfg) n p) = MkGeom (GetAddr p) n (buddy_link_ p) (block_addr_ p).
Proof. unfold PageSpanOps.Alloc. by destruct (_ =? _). Qed.

Lemma Alloc_fields n p :
  page_len_ (PageSpanOps.Alloc (idem cfg) n p) = n /\
  new_va_span_ (PageSpanOps.Alloc (idem cfg) n p) = new_va_span_ p /\
  ref_span_ (PageSpanOps.Alloc (idem cfg) n p) = ref_span_ p.
Proof. unfold PageSpanOps.Alloc. by destruct (_ =? _). Qed.

Lemma OccupySpan_filed s v a p n :
  filed s v -> v !! a = None -> Z.pos a < 2 ^ 64 -> spans s !! a = Some p ->
  0 <= GetCount p -> 0 <= n < cap ->
  run (OccupySpan cfg a n) s (fun _ s' =>
    let p' := PageSpanOps.Alloc (idem cfg) n p in
    spans s' = <[a := p']> (spans s) /\ occupied_spans_ s' = a :: occupied_spans_ s /\
    same_env s s' /\ filed s' (<[a := (GetCount p', n)]> v)).
Proof.
  intros Hf Ha Hab Hp Hc Hn. unfold OccupySpan. apply (run_on_span _ _ p); [done|].
  apply run_bind. eapply run_mono.
  { apply (push_occupied_filed cfg _ v a (GetCount (PageSpanOps.Alloc (idem cfg) n p)) n); try done.
    by apply Alloc_count. }
  intros _ s' (Hrf & Ho & Hf'). split_and!; try done.
  - apply (rf_spans _ _ Hrf).
  - destruct (refiled_env _ _ Hrf) as [E1 E2 E3]. by split.
Qed.

(** A span in no list, whose length is [n] already, is taken. *)
Lemma OccupySpan_run s ars a p n :
  inv s ars (delete a (view (spans s))) -> spans s !! a = Some p ->
  page_len_ p = n -> 0 <= GetCount p ->
  run (OccupySpan cfg a n) s (fun _ s' => taken s s' n a /\ device_ s' = device_ s).
Proof.
  intros Hi Hp Hl Hc. destruct (inv_plain Hi a p Hp) as (Hva & Href & Hab).
  assert (Hlen : 0 < page_len_ p < cap).
  { apply (tiling_len page (page_pos cfg Hcfg) cap _ _ a (geom p) (inv_tiling Hi)). by rewrite lookup_fmap, Hp. }
  eapply run_mono; [apply (OccupySpan_filed s _ a p n (inv_filing Hi)); try done; [apply lookup_delete_eq|lia]|].
  simpl. intros _ s' (Hsp & Ho & [En Ee Ed] & Hf).
  destruct (Alloc_fields n p) as (El & Ev & Er).
  rewrite insert_delete_eq in Hf.
  assert (Hi' : inv0 s' ars).
  { split; rewrite ?Hsp, ?En, ?Ee, ?Ed.
    - rewrite (geom_insert _ _ p); [apply (inv_tiling Hi)|done|]. rewrite Alloc_geom. subst n. by destruct p.
    - apply (inv_backed Hi).
    - rewrite view_insert, El. exact Hf.
    - rewrite view_insert, <- (insert_delete_eq (view _)).
      apply maximal_busy; [by apply Alloc_count|apply (inv_maximal Hi)].
    - intros x q [[<- <-]|[_ Hx]]%lookup_insert_Some; [by rewrite Ev, Er|by apply (inv_plain Hi)].
    - apply (inv_unreserved Hi).
    - apply (inv_new_va _ _ _ _ _ Hi). }
  split; [|done]. split; try done.
  - by exists ars.
  - intros Hin. apply (fil_occ (inv_filing Hi)) in Hin as (c & m & Hin & _). by rewrite lookup_delete_eq in Hin.
  - rewrite Hsp, lookup_insert_eq. by eexists.
  - intros x q Hx Hcx _. rewrite Hsp. destruct (decide (x = a)) as [->|Hne].
    + rewrite Hp in Hx. injection Hx as <-. rewrite lookup_insert_eq. eexists. split; [done|].
      unfold PageSpanOps.Alloc. change (GetCount (PageSpanOps.SetPageLen (idem cfg) n p)) with (GetCount p).
      rewrite (proj2 (Z.eqb_neq _ _)) by lia. subst n. by destruct p.
    + rewrite lookup_insert_ne by done. by exists q.
  - rewrite Hsp, map_size_insert_Some by done. lia.
  - by rewrite Ed.
Qed.

(** What [PopSpanFromLayer] hands over: the span lies in its block, its
    neighbours are in use. *)
Lemma pop_settled s s' ars a id :
  inv0 s ars -> refiled s s' -> inv s' ars (delete a (view (spans s))) -> view (spans s) !! a = Some (0, id) ->
  exists A1 ar l1 l2 A2 p, ars = A1 ++ (ar, l1 ++ a :: l2) :: A2 /\
    settled unreserved cfg s' A1 ar l1 a l2 A2 p /\ page_len_ p = id.
Proof.
  intros Hi Hrf Hi' Ha. pose proof (rf_spans _ _ Hrf) as Hsp.
  rewrite view_lookup in Ha. apply fmap_Some in Ha as (p & Hp & [= Hc ->]).
  destruct (locate page cap _ ars a (inv_tiling Hi)) as (A1 & ar & l1 & l2 & A2 & ->).
  { rewrite lookup_fmap, Hp. by eexists. }
  exists A1, ar, l1, l2, A2, p. split; [done|]. split; [|done].
  assert (Hia : idle (view (spans s)) a) by (exists (page_len_ p); by rewrite view_lookup, Hp, Hc).
  split; [by split; rewrite Hsp|]. split; [done|]. rewrite Hsp. split; intros c Hc' Hic.
  - apply (inv_maximal Hi a c); [|done..]. destruct l2 as [|c' l2]; [done|]. injection Hc' as ->.
    exists ar, l1, l2. set_solver.
  - apply (inv_maximal Hi c a); [|done..]. destruct l1 as [|z l0 _] using rev_ind; [done|].
    unfold final in Hc'. rewrite last_snoc in Hc'. injection Hc' as ->.
    exists ar, l0, l2. rewrite <- app_assoc. set_solver.
Qed.

(** Steps that no owner of a span notices. *)
Record quiet s s' : Prop := {
  qt_occ : occupied_spans_ s' = occupied_spans_ s;
  qt_keeps : keeps [] (spans s) (spans s');
  qt_size : (size (spans s') <= size (spans s))%nat;
  qt_device : device_ s' = device_ s;
}.

Lemma refiled_quiet s s' : refiled s s' -> occupied_spans_ s' = occupied_spans_ s -> quiet s s'.
Proof. intros [E1 _ E2 E3 _] E4. split; rewrite ?E1; try done. apply keeps_refl. Qed.

Lemma quiet_trans s1 s2 s3 : quiet s1 s2 -> quiet s2 s3 -> quiet s1 s3.
Proof. intros [] []. split; try congruence; [by eapply keeps_trans|lia]. Qed.

Lemma quiet_declined s s' ars : quiet s s' -> inv0 s' ars -> declined s s'.
Proof. intros [? ? ? E] Hi. split; try done; [by exists ars|lia|by rewrite E]. Qed.

Lemma quiet_answered s s1 s' n r : quiet s s1 -> answered s1 s' n r -> answered s s' n r.
Proof.
  intros [E1 Hk Hz E3]. destruct r as [a|]; intros [].
  - split; rewrite <- ?E1, <- ?E3; try done; [by eapply keeps_trans|lia].
  - split; rewrite <- ?E1, <- ?E3; try done; [by eapply keeps_trans|lia].
Qed.

Lemma declined_refl s ars : inv0 s ars -> declined s s.
Proof. intros Hi. split; [by exists ars|done|apply keeps_refl|lia|done]. Qed.

Lemma inv0_refiled s s' ars : refiled s s' -> inv s' ars (view (spans s)) -> inv0 s' ars.
Proof. intros [E _ _ _ _] Hi. unfold MemScalableSound.inv0. by rewrite E. Qed.

Lemma FetchLayerSpan_run s ars id :
  inv0 s ars -> 0 <= id < cap ->
  run (FetchLayerSpan cfg id) s (fun r s' =>
    match r with
    | Some a => taken s s' id a /\ view (spans s) !! a = Some (0, id) /\ device_ s' = device_ s
    | None => refiled s s' /\ occupied_spans_ s' = occupied_spans_ s /\ inv0 s' ars /\
              forall a, view (spans s) !! a <> Some (0, id)
    end).
Proof.
  intros Hi Hid. unfold FetchLayerSpan. apply run_gets.
  rewrite (layers_nonempty _ _ _ _ _ Hi) by lia. simpl.
  apply run_plain_layer; [by rewrite (cap_layers _ _ _ _ _ Hi)|].
  destruct (known_layer (span_layers_ s) id) as [layer|] eqn:El.
  - apply run_bind. eapply run_mono; [eapply PopSpanFromLayer_run; [exact Hi|lia|by rewrite El]|].
    intros [a|] s1 (Hrf & Ho & _ & Hp).
    + destruct Hp as [Ha Hi1].
      destruct (pop_settled _ _ _ _ _ Hi Hrf Hi1 Ha) as (A1 & ar & l1 & l2 & A2 & p & -> & ([Hi2 Hp] & Hc & _) & Hl).
      apply run_bind. eapply run_mono; [apply (OccupySpan_run s1 _ a p id Hi2 Hp Hl); lia|].
      intros _ s2 (Ht & Ed). apply run_ret. split_and!; [|done|rewrite Ed; apply Hrf].
      by eapply (quiet_answered s s1 s2 id (Some a)); [apply refiled_quiet|].
    + destruct Hp as [Hno Hi1]. apply run_ret. split_and!; try done. by eapply inv0_refiled.
  - apply run_ret. split_and!; try done. intros a Ha.
    destruct (fil_idle (inv_filing Hi) _ _ Ha) as [layer Hl]. congruence.
Qed.

(** ** New objects *)

Lemma run_BlockAlloc {B} blk address n s (k : pointer -> M B) Q :
  (size (spans s) < host_limit)%nat ->
  (forall a, spans s !! a = None -> Z.pos a < 2 ^ 64 ->
     run (k (Some a)) (set_spans (<[a := PageSpanOps.construct blk address n]> (spans s)) s) Q) ->
  run (BlockAlloc blk address n ≫= k) s Q.
Proof.
  intros Hlim Hk. unfold BlockAlloc. apply run_bind, run_gets.
  destruct (span_new_room (spans s) Hlim) as [a Ea]. rewrite Ea.
  destruct (span_new_fresh _ _ Ea) as [Ha Hab]. apply run_modify, run_ret. by apply Hk.
Qed.

Lemma pages_small n : 0 <= n < cap -> 0 <= n * page < 2 ^ 64.
Proof.
  intros Hn. pose proof (page_pos cfg Hcfg) as Hp. rewrite (cap_eq cfg Hcfg) in Hn.
  destruct Hcfg as [_ Ht Hs _ _].
  pose proof (Z.mul_div_le (page_mem_size_total_threshold cfg) page Hp). nia.
Qed.

Lemma GetMemSize_eq n : 0 <= n < cap -> PageLen_GetMemSize n (idem cfg) = n * page.
Proof.
  intros Hn. unfold PageLen_GetMemSize, uwrap, idem. rewrite Z.shiftl_mul_pow2 by apply Hcfg.
  apply Z.mod_small. by apply pages_small.
Qed.

(** ** Cutting a span in two *)

(** The heap after [SetBuddy] and [SetPageLen]: [a] keeps [n] pages, [b]
    follows it. *)
Lemma split_heap h A1 ar l1 a l2 A2 b p q :
  tiling page cap (geom <$> h) (A1 ++ (ar, l1 ++ a :: l2) :: A2) ->
  h !! a = Some p -> h !! b = None ->
  exists h1, PageSpanOps.SetBuddy a b (<[b := q]> h) = Ok h1 /\
    h1 !! a = Some (SetNext (Some b) p) /\
    h1 !! b = Some (SetPrev (Some a) (SetNext (GetNextBuddy p) q)) /\
    (forall c, GetNextBuddy p = Some c -> h1 !! c = SetPrev (Some b) <$> h !! c) /\
    (forall x, x <> a -> x <> b -> GetNextBuddy p <> Some x -> h1 !! x = h !! x) /\
    a <> b /\ (forall c, GetNextBuddy p = Some c -> c <> a /\ c <> b).
Proof.
  intros Ht Hp Hb.
  assert (Hab : a <> b) by (intros ->; congruence).
  destruct (tiling_at _ _ _ _ _ _ _ _ _ Ht) as (Hnd & _ & k & Hk & _ & Hbud & _ & _).
  rewrite lookup_fmap, Hp in Hk. injection Hk as <-. simpl in Hbud.
  assert (Hn : forall c, GetNextBuddy p = Some c -> is_Some (h !! c) /\ c <> a /\ c <> b).
  { intros c E. unfold GetNextBuddy in E. rewrite Hbud in E. simpl in E.
    assert (Hc : c ∈ l2) by (destruct l2; [done|]; injection E as ->; by left).
    assert (Hs : is_Some (h !! c)).
    { rewrite <- (fmap_is_Some geom), <- lookup_fmap. apply (til_dom _ _ _ _ Ht).
      rewrite bind_app, bind_cons. simpl. set_solver. }
    split_and!; [done| |intros ->; rewrite Hb in Hs; by destruct Hs].
    intros ->. apply NoDup_app in Hnd as (_ & _ & [Ha _]%NoDup_cons). done. }
  destruct (SetBuddy_ok a b p q (<[b := q]> h)) as (h1 & E & Ha & Hb' & Hc & Hx).
  - by rewrite lookup_insert_ne.
  - apply lookup_insert_eq.
  - done.
  - intros c Ec. destruct (Hn c Ec) as (Hs & Hca & Hcb). by rewrite lookup_insert_ne.
  - exists h1. split_and!; try done.
    + intros c Ec. destruct (Hn c Ec) as (_ & _ & Hcb). rewrite (Hc c Ec). by rewrite lookup_insert_ne.
    + intros x Hxa Hxb En. rewrite Hx by done. by rewrite lookup_insert_ne.
    + intros c Ec. by destruct (Hn c Ec) as (_ & ? & ?).
Qed.

(** The neighbours of the new pair. *)
Lemma split_maximal g A1 ar l1 a b l2 A2 v n c m :
  tiling page cap g (A1 ++ (ar, l1 ++ a :: b :: l2) :: A2) ->
  maximal (A1 ++ (ar, l1 ++ a :: l2) :: A2) (delete a v) -> v !! b = None -> 0 < c ->
  (forall y, final None l1 = Some y -> ~ idle v y) ->
  maximal (A1 ++ (ar, l1 ++ a :: b :: l2) :: A2) (<[b := (c, m)]> (<[a := (0, n)]> (delete a v))).
Proof.
  intros Ht Hm Hb Hc Hpv.
  assert (Hadj := adjacent_self page cap _ _ _ _ _ _ _ Ht).
  destruct (tiling_at _ _ _ _ _ _ _ _ _ Ht) as (Hnd & _).
  pose proof Hnd as (_ & Hd & [Ha _]%NoDup_cons)%NoDup_app.
  assert (Hfin : forall y, final None l1 = Some y -> y ∈ l1).
  { intros y. destruct l1 as [|z l0 _] using rev_ind; [done|]. unfold final. rewrite last_snoc.
    intros [= ->]. set_solver. }
  assert (Hbi : ~ idle (delete a v) b) by (intros [_ [k Hk]]%idle_delete; congruence).
  apply maximal_busy; [done|]. apply maximal_idle.
  - intros x y Hxy Hx Hy. apply (Hm x y); [|done..].
    replace (l1 ++ a :: b :: l2) with ((l1 ++ [a]) ++ b :: l2) in Hxy by (by rewrite <- app_assoc).
    replace (l1 ++ a :: l2) with ((l1 ++ [a]) ++ [] ++ l2) by (by rewrite <- app_assoc).
    eapply adjacent_arena; [exact Hxy|by intros ->|by intros ->|by exists []|by exists []].
  - intros Haa. destruct (Hadj a (or_introl Haa)) as [E|E%Hfin].
    + injection E as ->. set_solver.
    + apply (Hd a E). set_solver.
  - intros y Hy. destruct (Hadj y Hy) as [E|E].
    + injection E as <-. done.
    + intros [_ Hiy]%idle_delete. by apply (Hpv y).
Qed.

Lemma forward_eq n address : 0 <= n < cap -> PageLen_ForwardAddr n (idem cfg) address = address + n * page.
Proof. intros Hn. unfold PageLen_ForwardAddr. by rewrite GetMemSize_eq. Qed.

(** The new half, and what both look like; the rest is as before. *)
Definition second_half a p n size : PageSpan :=
  SetPrev (Some a) (SetNext (GetNextBuddy p) (PageSpanOps.construct None (GetAddr p + n * page) size)).

Record halves (h h' : span_heap) a b p n m size : Prop := {
  hv_first : h' !! a = Some (PageSpanOps.SetPageLen (idem cfg) n (SetNext (Some b) p));
  hv_second : h' !! b = Some (PageSpanOps.Alloc (idem cfg) m (second_half a p n size));
  hv_next : forall c, GetNextBuddy p = Some c -> h' !! c = SetPrev (Some b) <$> h !! c;
  hv_rest : forall x, x <> a -> x <> b -> GetNextBuddy p <> Some x -> h' !! x = h !! x;
  hv_ne : a <> b;
}.

Lemma halves_view h h' a b p n m size :
  halves h h' a b p n m size -> GetCount p = 0 ->
  view h' = <[b := (GetCount (PageSpanOps.Alloc (idem cfg) m (second_half a p n size)), m)]>
              (<[a := (0, n)]> (delete a (view h))).
Proof.
  intros [Ha Hb Hc Hx Hab] H0. apply map_eq. intros x. rewrite view_lookup.
  destruct (decide (x = b)) as [->|Hxb].
  { rewrite Hb, lookup_insert_eq. simpl. by destruct (Alloc_fields m (second_half a p n size)) as (-> & _). }
  rewrite lookup_insert_ne by done. destruct (decide (x = a)) as [->|Hxa].
  { rewrite Ha, lookup_insert_eq. simpl. by rewrite <- H0. }
  rewrite lookup_insert_ne, lookup_delete_ne, view_lookup by done.
  destruct (decide (GetNextBuddy p = Some x)) as [E|E]; [|by rewrite Hx].
  rewrite (Hc x E). by destruct (h !! x).
Qed.

Lemma halves_tiling h h' A1 ar l1 a l2 A2 b p n m size :
  halves h h' a b p n m size ->
  tiling page cap (geom <$> h) (A1 ++ (ar, l1 ++ a :: l2) :: A2) -> h !! a = Some p -> h !! b = None ->
  0 < n -> 0 < m -> page_len_ p = n + m ->
  tiling page cap (geom <$> h') (A1 ++ (ar, l1 ++ a :: b :: l2) :: A2).
Proof.
  intros [Ha Hb Hc Hx Hab] Ht Hp Hb0 H1 H2 Hl.
  eapply (tiling_split page (page_pos cfg Hcfg) cap _ _ _ _ _ _ _ _ b (geom p) n None); [exact Ht|..].
  - by rewrite lookup_fmap, Hp.
  - simpl. lia.
  - by rewrite lookup_fmap, Hb0.
  - by rewrite lookup_fmap, Ha.
  - rewrite lookup_fmap, Hb. simpl. rewrite Alloc_geom. simpl. do 2 f_equal. lia.
  - intros c Ec. rewrite !lookup_fmap, (Hc c Ec). by destruct (h !! c).
  - intros x Hxa Hxb Ex. by rewrite !lookup_fmap, Hx.
Qed.

(** Every other span is there still, the back pointer of the next one apart. *)
Lemma halves_other h h' a b p n m size x :
  halves h h' a b p n m size -> x <> a -> x <> b ->
  h' !! x = h !! x \/ h' !! x = SetPrev (Some b) <$> h !! x.
Proof.
  intros [Ha Hb Hc Hx Hab] Hxa Hxb.
  destruct (decide (GetNextBuddy p = Some x)) as [E|E]; [right; by apply Hc|left; by apply Hx].
Qed.

Lemma halves_keeps h h' a b p n m size l :
  halves h h' a b p n m size -> h !! a = Some p -> GetCount p = 0 -> h !! b = None -> keeps l h h'.
Proof.
  intros Hh Hp H0 Hb0 x q Hq Hcq _.
  assert (Hxa : x <> a) by (intros ->; rewrite Hp in Hq; injection Hq as <-; lia).
  assert (Hxb : x <> b) by (intros ->; congruence).
  destruct (halves_other _ _ _ _ _ _ _ _ x Hh Hxa Hxb) as [E|E]; rewrite E, Hq; by eexists.
Qed.

Lemma halves_plain h h' a b p n m size :
  halves h h' a b p n m size -> h !! a = Some p -> Z.pos b < 2 ^ 64 ->
  (forall x q, h !! x = Some q -> new_va_span_ q = false /\ ref_span_ q = None /\ Z.pos x < 2 ^ 64) ->
  forall x q, h' !! x = Some q -> new_va_span_ q = false /\ ref_span_ q = None /\ Z.pos x < 2 ^ 64.
Proof.
  intros Hh Hp Hbb Hpl x q Hq.
  destruct (decide (x = a)) as [->|Hxa].
  { rewrite (hv_first _ _ _ _ _ _ _ _ Hh) in Hq. injection Hq as <-. by apply (Hpl a p). }
  destruct (decide (x = b)) as [->|Hxb].
  { rewrite (hv_second _ _ _ _ _ _ _ _ Hh) in Hq. injection Hq as <-.
    by destruct (Alloc_fields m (second_half a p n size)) as (_ & -> & ->). }
  destruct (halves_other _ _ _ _ _ _ _ _ x Hh Hxa Hxb) as [E|E]; rewrite E in Hq; [by apply Hpl|].
  apply fmap_Some in Hq as (q0 & Hq0 & ->). by apply (Hpl x q0).
Qed.

Lemma halves_size h h' a b p n m size0 :
  halves h h' a b p n m size0 -> h !! a = Some p -> (size h' <= S (size h))%nat.
Proof.
  intros Hh Hp. rewrite <- !size_dom. transitivity (size ({[b]} ∪ dom h)).
  - apply subseteq_size. intros x. rewrite elem_of_union, elem_of_singleton, !elem_of_dom. intros [q Hq].
    destruct (decide (x = b)) as [|Hxb]; [by left|]. right.
    destruct (decide (x = a)) as [->|Hxa]; [by eexists|].
    destruct (halves_other _ _ _ _ _ _ _ _ x Hh Hxa Hxb) as [E|E]; rewrite E in Hq; [by eexists|].
    apply fmap_Some in Hq as (q0 & ? & _). by eexists.
  - rewrite size_union_alt, size_singleton. pose proof (subseteq_size (dom h ∖ {[b]}) (dom h) ltac:(set_solver)). lia.
Qed.

Lemma split_taken s s' A1 ar l1 a l2 A2 b p n m size0 :
  settled unreserved cfg s A1 ar l1 a l2 A2 p -> spans s !! b = None -> Z.pos b < 2 ^ 64 ->
  0 < n -> 0 < m -> page_len_ p = n + m -> halves (spans s) (spans s') a b p n m size0 ->
  filed s' (view (spans s')) -> occupied_spans_ s' = b :: occupied_spans_ s -> same_env s s' ->
  taken s s' m b.
Proof.
  intros ([Hi Hp] & H0 & Hnx & Hpv) Hb Hbb Hn Hm Hl Hh Hf Ho [En Ee Ed].
  assert (Hc : 0 < GetCount (PageSpanOps.Alloc (idem cfg) m (second_half a p n size0)))
    by (apply Alloc_count; apply initial_count_nonneg).
  pose proof (halves_tiling _ _ _ _ _ _ _ _ _ _ _ _ _ Hh (inv_tiling Hi) Hp Hb Hn Hm Hl) as Ht.
  split; try done.
  - exists (A1 ++ (ar, l1 ++ a :: b :: l2) :: A2). split; rewrite ?En, ?Ee, ?Ed; try done.
    + eapply backed_same; [|apply (inv_backed Hi)]. by rewrite !fmap_app, !fmap_cons.
    + rewrite (halves_view _ _ _ _ _ _ _ _ Hh H0).
      eapply split_maximal; [exact Ht|apply (inv_maximal Hi)|by rewrite view_lookup, Hb|done..].
    + eapply halves_plain; [exact Hh|exact Hp|done|apply (inv_plain Hi)].
    + apply (inv_unreserved Hi).
    + apply (inv_new_va _ _ _ _ _ Hi).
  - intros Hin. apply (fil_occ (inv_filing Hi)) in Hin as (c & k & [_ Hin]%lookup_delete_Some & _).
    by rewrite view_lookup, Hb in Hin.
  - rewrite (hv_second _ _ _ _ _ _ _ _ Hh). eexists. split; [done|]. apply Alloc_fields.
  - by eapply halves_keeps.
  - by eapply halves_size.
  - by rewrite Ed.
Qed.

Lemma SplitSpan_run s A1 ar l1 a l2 A2 p m fit size0 :
  settled unreserved cfg s A1 ar l1 a l2 A2 p -> page_len_ p = fit -> 0 < m < fit ->
  (size (spans s) < host_limit)%nat ->
  run (SplitSpan cfg m fit (Some a) size0) s (fun r s' => exists b, r = Some b /\ taken s s' m b).
Proof.
  intros Hs Hl Hm Hlim. pose proof Hs as ([Hi Hp] & H0 & _).
  assert (Hfit : 0 < page_len_ p < cap).
  { apply (tiling_len page (page_pos cfg Hcfg) cap _ _ a (geom p) (inv_tiling Hi)). by rewrite lookup_fmap, Hp. }
  pose proof (cap_range cfg Hcfg) as Hcap. unfold SplitSpan. cbv zeta.
  replace (uwrap 32 (fit - m)) with (fit - m) by (symmetry; apply Z.mod_small; lia).
  set (n := fit - m). apply (run_deref _ p); [done|]. rewrite forward_eq by lia.
  apply run_BlockAlloc; [done|]. intros b Hb Hbb. apply run_gets. simpl spans.
  destruct (split_heap _ _ _ _ _ _ _ b p (PageSpanOps.construct None (GetAddr p + n * page) size0) (inv_tiling Hi) Hp Hb)
    as (h1 & E & H1a & H1b & H1c & H1x & Hab & Hnn).
  apply (run_lift _ _ _ _ _ E), run_modify.
  apply (run_on_span _ _ (SetNext (Some b) p)); [done|]. simpl.
  apply run_bind. eapply run_mono.
  { apply (FetchSpanLayer_filed cfg host_limit _ (delete a (view (spans s)))); [exact (inv_filing Hi)|lia]. }
  intros r s1 (-> & Hrf1 & Ho1 & Hf1 & Hk1). apply run_bind. eapply run_mono.
  { apply (PushSpanToLayer_filed cfg s1 _ n a Hf1); [lia|done|apply lookup_delete_eq|].
    by apply (inv_plain Hi a p). }
  intros _ s2 (Hrf2 & Ho2 & Hf2).
  assert (Hsp2 : spans s2 = <[a := PageSpanOps.SetPageLen (idem cfg) n (SetNext (Some b) p)]> h1).
  { rewrite (rf_spans _ _ Hrf2), (rf_spans _ _ Hrf1). done. }
  apply run_bind. eapply run_mono.
  { eapply (OccupySpan_filed s2 _ b _ m Hf2); [|done|by rewrite Hsp2, lookup_insert_ne|apply initial_count_nonneg|lia].
    by rewrite lookup_insert_ne, lookup_delete_ne, view_lookup, Hb. }
  simpl. intros _ s3 (Hsp3 & Ho3 & He3 & Hf3). apply run_ret. exists b. split; [done|].
  assert (Hh : halves (spans s) (spans s3) a b p n m size0).
  { rewrite Hsp3, Hsp2. split; try done.
    - by rewrite lookup_insert_ne, lookup_insert_eq.
    - rewrite lookup_insert_eq. done.
    - intros c Ec. destruct (Hnn c Ec). by rewrite !lookup_insert_ne, H1c.
    - intros x Hxa Hxb Ex. by rewrite !lookup_insert_ne, H1x. }
  apply (split_taken s s3 A1 ar l1 a l2 A2 b p n m size0); try done; [lia..| | |].
  - by rewrite (halves_view _ _ _ _ _ _ _ _ Hh H0).
  - rewrite Ho3, Ho2, Ho1. done.
  - eapply same_env_trans; [|exact He3]. eapply same_env_trans; [|by apply refiled_env].
    destruct (refiled_env _ _ Hrf1) as [E1 E2 E3]. by split.
Qed.

(** ** A new block from the device *)

Lemma backed_new ars blocks b address n l :
  backed page dev_frees ars blocks -> dev_alloc blocks (n * page) = Some (b, address) ->
  backed page dev_frees (({| ar_block := b; ar_base := address; ar_pages := n |}, l) :: ars)
    (<[b := (address, n * page)]> blocks).
Proof.
  intros [Hb Hnd Hap Hown] Ea. destruct (dev_alloc_fresh _ _ _ _ Ea) as [Hfresh Hapart].
  assert (Hne : forall x, x ∈ ars -> ar_block x.1 <> b).
  { intros x Hx E. rewrite Forall_forall in Hb. specialize (Hb x Hx). simpl in Hb. congruence. }
  split.
  - apply Forall_cons. simpl. rewrite lookup_insert_eq. split; [done|].
    rewrite Forall_forall in Hb |- *. intros x Hx. rewrite lookup_insert_ne by (intros E; by apply (Hne x Hx)). by apply Hb.
  - rewrite fmap_cons. apply NoDup_cons. split; [|done]. simpl.
    intros (x & -> & Hx)%list_elem_of_fmap. by apply (Hne x).
  - intros b1 b2 a1 n1 a2 n2 Hb12 [[<- [= <- <-]]|[_ H1]]%lookup_insert_Some [[E [= <- <-]]|[_ H2]]%lookup_insert_Some.
    + done.
    + by apply (Hapart b2).
    + destruct (Hapart b1 a1 n1 H1); auto.
    + by apply (Hap b1 b2).
  - intros Hf b'. rewrite lookup_insert_is_Some', fmap_cons. simpl.
    intros [<-|Hb']; [by left|]. right. by apply Hown.
Qed.

Lemma inv_new s s' ars a b address n size0 :
  inv0 s ars -> dev_alloc (blocks_ (device_ s)) (n * page) = Some (b, address) ->
  spans s !! a = None -> Z.pos a < 2 ^ 64 -> 0 < n < cap ->
  let p := PageSpanOps.Alloc (idem cfg) n (PageSpanOps.construct (Some b) address size0) in
  spans s' = <[a := p]> (spans s) -> filed s' (<[a := (GetCount p, n)]> (view (spans s))) ->
  new_va_ s' = new_va_ s -> expandable_ s' = expandable_ s ->
  blocks_ (device_ s') = <[b := (address, n * page)]> (blocks_ (device_ s)) ->
  inv0 s' (({| ar_block := b; ar_base := address; ar_pages := n |}, [a]) :: ars).
Proof.
  intros Hi Ea Ha Hab Hn p Hsp Hf En Ee Ed.
  destruct (Alloc_fields n (PageSpanOps.construct (Some b) address size0)) as (El & Ev & Er).
  assert (Hc : 0 < GetCount p) by (apply Alloc_count; apply initial_count_nonneg).
  split; rewrite ?Hsp, ?En, ?Ee, ?Ed.
  - rewrite fmap_insert. apply tiling_new; [apply (page_pos cfg Hcfg)|apply (inv_tiling Hi)|by rewrite lookup_fmap, Ha|done|].
    unfold p. by rewrite Alloc_geom.
  - apply backed_new; [apply (inv_backed Hi)|done].
  - rewrite view_insert. unfold p at 2. by rewrite El.
  - rewrite view_insert. apply maximal_busy; [done|].
    intros x y (ar & l1 & l2 & [E|Hin]%elem_of_cons) Hx Hy; [|by apply (inv_maximal Hi x y); [exists ar, l1, l2|..]].
    injection E as _ E. destruct l1 as [|? [|]]; simplify_eq.
  - intros x q [[<- <-]|[_ Hx]]%lookup_insert_Some; [|by apply (inv_plain Hi)].
    unfold p. by rewrite Ev, Er.
  - apply (inv_unreserved Hi).
  - apply (inv_new_va _ _ _ _ _ Hi).
Qed.

Lemma FetchNewSpan_run s ars n :
  inv0 s ars -> 0 < n < cap -> (size (spans s) < host_limit)%nat ->
  run (FetchNewSpan cfg (n * page) n) s (fun r s' => answered s s' n r).
Proof.
  intros Hi Hn Hlim. unfold FetchNewSpan, IsThresholdExceeded, GetOccupiedSize.
  apply run_bind, run_gets, run_ret, run_gets.
  destruct (_ && _); [apply run_ret; by eapply declined_refl|].
  unfold DevAlloc, DeviceAllocatorOps.Alloc. apply run_bind, run_gets.
  destruct (dev_alloc (blocks_ (device_ s)) (n * page)) as [[b address]|] eqn:Ea.
  - apply run_modify, run_ret. unfold block_address. apply run_bind, run_gets. simpl.
    rewrite lookup_insert_eq. apply run_ret. apply run_BlockAlloc; [done|]. simpl. intros a Ha Hab.
    apply run_bind. eapply run_mono.
    { eapply (OccupySpan_filed _ (view (spans s)) a _ n);
        [exact (inv_filing Hi)|by rewrite view_lookup, Ha|done|apply lookup_insert_eq|apply initial_count_nonneg|lia]. }
    simpl. intros _ s' (Hsp & Ho & [En Ee Ed] & Hf). rewrite insert_insert_eq in Hsp. apply run_ret. split.
    + eexists. eapply (inv_new s s'); try done. by rewrite Ed.
    + done.
    + intros Hin. apply (fil_occ (inv_filing Hi)) in Hin as (c & k & Hin & _).
      by rewrite view_lookup, Ha in Hin.
    + rewrite Hsp, lookup_insert_eq. eexists. split; [done|]. apply Alloc_fields.
    + intros x q Hx _ _. rewrite Hsp, lookup_insert_ne by congruence. by exists q.
    + by rewrite Hsp, map_size_insert_None.
    + rewrite Ed. simpl. apply insert_subseteq. by destruct (dev_alloc_fresh _ _ _ _ Ea).
  - apply run_modify, run_ret, run_ret. split; try done; [|apply keeps_refl|simpl; lia].
    exists ars. destruct Hi. by split.
Qed.

(** ** Serving a request from a longer span *)

(** [IsSplitable] only counts. *)
Lemma IsSplitable_fields n p :
  let p' := (PageSpanOps.IsSplitable n p).2 in
  geom p' = geom p /\ GetCount p' = GetCount p /\ new_va_span_ p' = new_va_span_ p /\ ref_span_ p' = ref_span_ p.
Proof. unfold PageSpanOps.IsSplitable. by destruct (_ || _). Qed.

Lemma settled_update s A1 ar l1 a l2 A2 p p' :
  settled unreserved cfg s A1 ar l1 a l2 A2 p ->
  geom p' = geom p -> GetCount p' = GetCount p -> new_va_span_ p' = new_va_span_ p -> ref_span_ p' = ref_span_ p ->
  let s' := set_spans (<[a := p']> (spans s)) s in
  settled unreserved cfg s' A1 ar l1 a l2 A2 p' /\ quiet s s'.
Proof.
  intros ([Hi Hp] & H0 & Hn & Hpv) Eg Ec E1 E2. simpl.
  assert (El : page_len_ p' = page_len_ p) by (by injection Eg).
  assert (Hv : view (<[a := p']> (spans s)) = view (spans s)).
  { rewrite view_insert, Ec, El. apply insert_id. by rewrite view_lookup, Hp. }
  split.
  - split_and!; [split; simpl|by rewrite Ec|simpl; by rewrite Hv..].
    + rewrite Hv. by eapply inv_update.
    + apply lookup_insert_eq.
  - split; try done; simpl.
    + intros x q Hx Hcx _. rewrite lookup_insert_ne; [by exists q|]. intros <-.
      rewrite Hp in Hx. injection Hx as <-. lia.
    + by rewrite map_size_insert_Some.
Qed.

Lemma FetchSplitedSpan_run s ars n fit ret :
  inv0 s ars -> 0 < n < cap -> 0 <= fit < cap -> try_count_ (counters_ s) <= set_try_count_ ->
  (size (spans s) < host_limit)%nat ->
  run (FetchSplitedSpan cfg n fit (n * page) ret) s (fun r s' => r.2 = ret /\ answered s s' n r.1).
Proof.
  intros Hi Hn Hfit Htry Hlim. unfold FetchSplitedSpan. apply run_gets.
  rewrite (layers_nonempty _ _ _ _ _ Hi) by lia. simpl.
  destruct (Z.leb_spec fit n); [apply run_ret; split; [done|by eapply declined_refl]|].
  apply run_plain_layer; [by rewrite (cap_layers _ _ _ _ _ Hi)|].
  destruct (known_layer (span_layers_ s) fit) as [layer|] eqn:El;
    [|apply run_ret; split; [done|by eapply declined_refl]].
  apply run_bind. eapply run_mono; [eapply PopSpanFromLayer_run; [exact Hi|lia|by rewrite El]|].
  intros [a|] s1 (Hrf & Ho & _ & Hp).
  - destruct Hp as [Ha Hi1].
    destruct (pop_settled _ _ _ _ _ Hi Hrf Hi1 Ha) as (A1 & ar & l1 & l2 & A2 & p & -> & Hs & Hl).
    pose proof (refiled_quiet _ _ Hrf Ho) as Hq1. pose proof Hs as ([Hi2 Hp] & _).
    apply (run_deref _ p); [done|]. apply run_gets.
    rewrite (rf_counters _ _ Hrf), (proj2 (Z.ltb_ge _ _)) by done. simpl. apply run_gets.
    rewrite unreserved_addr by apply (inv_unreserved Hi2). unfold IsSplitable.
    apply run_bind, run_bind, (run_deref _ p); [done|].
    destruct (IsSplitable_fields n p) as (Eg & Ec & Ev & Er).
    destruct (PageSpanOps.IsSplitable n p) as [b p'] eqn:Esp. cbn [snd] in *.
    apply (run_on_span _ _ p); [done|]. apply run_ret, run_ret.
    destruct (settled_update _ _ _ _ _ _ _ _ p' Hs Eg Ec Ev Er) as [Hs' Hq2].
    assert (Hl' : page_len_ p' = fit) by (injection Eg; congruence).
    set (s2 := set_spans (<[a := p']> (spans s1)) s1) in *.
    pose proof (quiet_trans _ _ _ Hq1 Hq2) as Hq. pose proof (qt_size _ _ Hq) as Hz.
    destruct b; cbn [negb].
    + apply run_bind. eapply run_mono; [eapply (SplitSpan_run s2); [exact Hs'|done|lia|lia]|].
      intros r s3 (b & -> & Ht). apply run_ret. split; [done|].
      by eapply (quiet_answered s s2 s3 n (Some b)).
    + rewrite <- Hl'. apply run_bind. eapply run_mono; [eapply settled_layer; [done..|exact Hs']|].
      intros r s3 (-> & Hrf3 & Ho3 & Hs3 & Hk3). apply run_bind.
      eapply run_mono; [eapply settled_push; [done..|exact Hs3|exact Hk3]|].
      intros _ s4 (Hi4 & Hrf4 & Ho4).
      assert (Hq4 : quiet s s4).
      { eapply quiet_trans; [exact Hq|]. apply refiled_quiet; [by eapply refiled_trans|congruence]. }
      apply run_bind. eapply run_mono; [eapply (FetchNewSpan_run s4); [exact Hi4|done|]|].
      { pose proof (qt_size _ _ Hq4). lia. }
      intros r s5 Hr. apply run_ret. split; [done|]. by eapply quiet_answered.
  - destruct Hp as [Hno Hi1]. apply run_ret. split; [done|].
    eapply (quiet_declined s s1); [by apply refiled_quiet|by eapply inv0_refiled].
Qed.

(** ** Sizes in pages *)

(** The pages a request comes to. *)
Definition pages (size : Z) : Z := Z.max 1 ((size + page - 1) / page).

Lemma align_eq x : 0 <= x < 2 ^ 64 -> Z.land x (uwrap 64 (Z.lnot (page - 1))) = x / page * page.
Proof.
  intros Hx. unfold uwrap. rewrite <- Z.land_ones by done.
  replace (page - 1) with (Z.ones (page_idem_num cfg)) by (rewrite Z.ones_equiv; lia).
  rewrite (Z.land_comm (Z.lnot _)), Z.land_assoc, Z.land_ones, (Z.mod_small x) by done.
  rewrite <- Z.ldiff_land, Z.ldiff_ones_r by apply Hcfg.
  by rewrite Z.shiftl_mul_pow2, Z.shiftr_div_pow2 by apply Hcfg.
Qed.

Lemma pages_range size : 0 <= size <= page_mem_size_total_threshold cfg ->
  1 <= pages size <= cap /\ size <= pages size * page.
Proof.
  intros Hs. pose proof (page_pos cfg Hcfg) as Hp. rewrite (cap_eq cfg Hcfg). unfold pages.
  set (T := page_mem_size_total_threshold cfg) in *. set (pg := page) in *. clearbody pg T.
  assert (H1 : (size + pg - 1) / pg <= 1 + T / pg).
  { replace (1 + T / pg) with ((T + 1 * pg) / pg) by (rewrite Z.div_add by lia; lia).
    apply Z.div_le_mono; lia. }
  assert (H2 : 0 <= T / pg) by (apply Z.div_pos; lia).
  pose proof (Z.div_mod (size + pg - 1) pg ltac:(lia)) as Hdm.
  pose proof (Z.mod_pos_bound (size + pg - 1) pg Hp). split; [lia|]. nia.
Qed.

Lemma GetAllocSize_eq size :
  0 <= size <= page_mem_size_total_threshold cfg -> GetAllocSize cfg size = pages size * page.
Proof.
  intros Hs. pose proof (page_pos cfg Hcfg) as Hp. pose proof (cfg_size _ Hcfg) as Hc.
  assert (Epage : page_mem_size_ cfg = page).
  { unfold page_mem_size_, PageLen_GetMemSize, uwrap, idem. rewrite Z.shiftl_mul_pow2 by apply Hcfg.
    rewrite Z.mul_1_l. apply Z.mod_small. destruct (cfg_idem _ Hcfg). split; [lia|]. apply Z.pow_lt_mono_r; lia. }
  unfold GetAllocSize, MemSize_GetAlignedOf. rewrite Epage.
  destruct (Z.ltb_spec size page) as [Hlt|Hge].
  - assert ((size + page - 1) / page <= 1); [|unfold pages; rewrite Z.max_l by done; lia].
    assert ((size + page - 1) / page < 2); [|lia]. apply Z.div_lt_upper_bound; lia.
  - replace (uwrap 64 (size + page - 1)) with (size + page - 1) by (symmetry; apply Z.mod_small; lia).
    rewrite align_eq by lia. unfold pages. rewrite Z.max_r; [done|].
    apply Z.div_le_lower_bound; lia.
Qed.

Lemma layer_of_pages n : 0 <= n < 2 ^ 32 -> SpanLayerId_GetIdFromSize (n * page) (idem cfg) = n.
Proof.
  intros Hn. unfold SpanLayerId_GetIdFromSize, PageLen_GetLenFromSize, idem, uwrap.
  rewrite Z.shiftr_div_pow2 by apply Hcfg. pose proof (page_pos cfg Hcfg).
  rewrite Z.div_mul by lia. by apply Z.mod_small.
Qed.

Lemma FindFit_nonneg s ars n lift :
  inv0 s ars -> 0 <= Lut.FindFitLayerId (lut cfg) (span_layers_ s) (span_layer_ids_ s) n lift.
Proof.
  intros Hi. destruct (fil_lut (inv_filing Hi)) as [_ Hids].
  assert (Hpos : forall i, i ∈ span_layer_ids_ s -> 0 <= i) by (intros i Hin; by apply Hids in Hin as [? _]).
  unfold Lut.FindFitLayerId. destruct (lift =? 0); [done|].
  assert (Hlb : forall i, i ∈ IdSet.lower_bound n (span_layer_ids_ s) -> 0 <= i).
  { intros i Hin. apply Hpos. clear -Hin. induction (span_layer_ids_ s) as [|j l IH]; [done|].
    simpl in Hin. destruct (j <? n); [right; auto|done]. }
  destruct (lut cfg).
  - destruct (IdSet.lower_bound n _) as [|i it]; [done|]. apply Hlb. by left.
  - induction (IdSet.lower_bound n _) as [|i it IH] in lift, Hlb |- *; [done|]. simpl.
    destruct (_ <=? _); [done|].
    assert (Hit : 0 <= Lut.seq_search (span_layers_ s) (lift - 1) it) by (apply IH; intros j Hj; apply Hlb; by right).
    destruct (known_layer _ _); [|done]. destruct (SpanLayerOps.IsEmpty _); [done|]. apply Hlb. by left.
Qed.

(** ** Alloc *)

(** An idle span of the right length is used when there is one. *)
Definition reused s s' n (r : pointer) : Prop :=
  forall b, view (spans s) !! b = Some (0, n) -> exists a, r = Some a /\
    view (spans s) !! a = Some (0, n) /\ device_ s' = device_ s.

(** A request of [size] bytes got [r]. *)
Record served s s' size r : Prop := {
  sv_answer : answered s s' (pages size) r;
  sv_real : forall a, r = Some a -> exists p, spans s' !! a = Some p /\ real_size_ p = size;
  sv_reuse : reused s s' (pages size) r;
}.

Lemma AllocImp_fetch_run s ars n :
  inv0 s ars -> 0 < n < cap -> try_count_ (counters_ s) <= set_try_count_ ->
  (size (spans s) < host_limit)%nat ->
  run (AllocImp_fetch cfg (n * page) n RET_SUCCESS) s (fun r s' =>
    r.2 = RET_SUCCESS /\ answered s s' n r.1 /\ reused s s' n r.1).
Proof.
  intros Hi Hn Htry Hlim. unfold AllocImp_fetch.
  apply run_bind. eapply run_mono; [apply (FetchLayerSpan_run s ars n Hi); lia|].
  intros [a|] s1; simpl.
  - intros (Ht & Ha & Ed). apply run_ret. split_and!; try done. intros b Hb. by exists a.
  - intros (Hrf & Ho & Hi1 & Hno). pose proof (refiled_quiet _ _ Hrf Ho) as Hq.
    pose proof (qt_size _ _ Hq) as Hz. apply run_gets. cbv zeta.
    assert (Hre : forall s' r, reused s s' n r) by (intros s' r b Hb; by apply Hno in Hb).
    destruct (Z.leb_spec cap (Lut.FindFitLayerId (lut cfg) (span_layers_ (id s1)) (span_layer_ids_ (id s1))
      (uwrap 32 (n + 1)) (span_layer_lift_max cfg))) as [|Hfit].
    + apply run_bind. eapply run_mono; [apply (FetchNewSpan_run s1 ars n Hi1); [done|lia]|].
      intros r s' Hr. apply run_ret. split_and!; try done. by eapply quiet_answered.
    + eapply run_mono; [apply (FetchSplitedSpan_run s1 ars n _ RET_SUCCESS Hi1)|]; [done| | |lia|].
      * split; [by eapply FindFit_nonneg|done].
      * by rewrite (rf_counters _ _ Hrf).
      * intros r s' [-> Hr]. split_and!; try done. by eapply quiet_answered.
Qed.

Lemma inv0_real s ars a p size :
  inv0 s ars -> spans s !! a = Some p -> inv0 (set_spans (<[a := SetRealSize size p]> (spans s)) s) ars.
Proof.
  intros Hi Hp. unfold MemScalableSound.inv0. simpl. rewrite view_insert, (insert_id (view _)).
  - by eapply inv_update.
  - by rewrite view_lookup, Hp.
Qed.

Lemma taken_real s ars s1 n a p size :
  inv0 s ars -> taken s s1 n a -> spans s1 !! a = Some p ->
  taken s (set_spans (<[a := SetRealSize size p]> (spans s1)) s1) n a.
Proof.
  intros Hi0 [[ars' Hi] Ho Hfr (p' & Hp' & Hl) Hk Hz Hb] Hp. split; try done; simpl.
  - exists ars'. by apply inv0_real.
  - rewrite lookup_insert_eq. exists (SetRealSize size p). split; [done|]. by simplify_eq.
  - intros x q Hx Hcx Hn. rewrite lookup_insert_ne; [by eapply Hk|]. intros <-.
    apply Hfr, (inv0_occupied _ _ _ _ _ Hi0). by exists q.
  - by rewrite map_size_insert_Some.
Qed.

(** The physical side has nothing to do. *)
Lemma AllocImp_back_run s ars s1 size alloc_size r :
  inv0 s ars -> answered s s1 (pages size) r -> reused s s1 (pages size) r ->
  run (AllocImp_back cfg size alloc_size r RET_SUCCESS) s1 (fun r' s' =>
    r'.2 = RET_SUCCESS /\ served s s' size r'.1).
Proof.
  intros Hi Ha Hre. unfold AllocImp_back. destruct r as [a|]; [|by apply run_ret].
  pose proof Ha as [[ars' Hi'] _ _ (p & Hp & _) _ _ _].
  change (RET_SUCCESS =? PHYSICAL_MEM_USING) with false. cbv iota.
  apply (run_deref _ p); [done|]. apply run_gets. rewrite unreserved_malloc by apply (inv_unreserved Hi').
  apply run_modify. simpl. apply (run_on_span _ _ p); [done|]. apply run_ret. split; [done|].
  destruct s1. split.
  - by apply (taken_real s ars).
  - intros b [= <-]. simpl. rewrite lookup_insert_eq. by eexists.
  - exact Hre.
Qed.

Lemma AllocImp_run s ars size :
  inv0 s ars -> 0 <= size <= page_mem_size_total_threshold cfg -> try_count_ (counters_ s) = 0 ->
  (base.size (spans s) < host_limit)%nat ->
  run (AllocImp cfg size RET_SUCCESS) s (fun r s' => r.2 = RET_SUCCESS /\ served s s' size r.1).
Proof.
  intros Hi Hs Htry Hlim. destruct (pages_range size Hs) as [Hn _]. pose proof (cap_range cfg Hcfg) as Hcap.
  unfold AllocImp. apply run_modify. cbv zeta. rewrite (GetAllocSize_eq size Hs), layer_of_pages, Htry by lia.
  set (s0 := set_counters _ s). assert (Hi0 : inv0 s0 ars) by (by apply inv_counters).
  assert (Htr : forall s' n r, answered s0 s' n r -> answered s s' n r).
  { intros s' n [a|] []; by split. }
  destruct (Z.leb_spec cap (pages size)) as [Hbig|Hfit].
  { apply run_ret. split; [done|]. split; [by eapply Htr, declined_refl|done|]. intros b Hb.
    destruct (fil_range (inv_filing Hi) _ _ _ Hb) as [_ ?]. lia. }
  apply run_bind. eapply run_mono; [apply (AllocImp_fetch_run s0 ars _ Hi0); [lia|done|done]|].
  intros [r ret] s1 ([= ->] & Ha & Hre). apply (AllocImp_back_run s ars); [done|by apply Htr|done].
Qed.

(** Without a reserved range the first try decides. *)
Lemma alloc_loop_run tries s ars size :
  inv0 s ars -> 0 <= size <= page_mem_size_total_threshold cfg -> try_count_ (counters_ s) = 0 ->
  (base.size (spans s) < host_limit)%nat -> (0 < tries)%nat ->
  run (alloc_loop cfg tries size None []) s (fun r s' => r.2 = [] /\ served s s' size r.1).
Proof.
  intros Hi Hs Htry Hlim Ht. destruct tries as [|tries]; [lia|]. cbn [alloc_loop].
  apply run_bind. eapply run_mono; [by apply (AllocImp_run s ars)|].
  intros [r ret] s' [[= ->] Hr]. change (RET_SUCCESS =? PHYSICAL_MEM_USING) with false. by apply run_ret.
Qed.

(** Bookkeeping after the span was found. *)
Lemma inv_env s ars v e c : inv s ars v -> unreserved e -> inv (set_counters c (set_expandable e s)) ars v.
Proof. intros [] He. by split. Qed.

Lemma served_env s s' size r e c :
  served s s' size r -> unreserved e -> served s (set_counters c (set_expandable e s')) size r.
Proof.
  intros [Ha Hr Hre] He. split; [|done..].
  destruct r as [a|]; destruct Ha as [[ars Hi] ? ? ?]; split; try done; exists ars; by apply inv_env.
Qed.

Lemma Alloc_run s ars size :
  inv0 s ars -> 0 <= size -> (base.size (spans s) < host_limit)%nat ->
  run (Alloc cfg size) s (fun r s' =>
    if page_mem_size_total_threshold cfg <? size then r = None /\ s' = s else served s s' size r).
Proof.
  intros Hi Hs Hlim. unfold Alloc. destruct (Z.ltb_spec (page_mem_size_total_threshold cfg) size); [done|].
  apply run_modify. set (s0 := set_counters _ s).
  assert (Hi0 : inv0 s0 ars) by (by apply inv_counters).
  apply run_bind. eapply run_mono; [apply (alloc_loop_run kSafeTryCount s0 ars size Hi0); [lia|done|done|]|].
  { apply Nat.ltb_lt. reflexivity. }
  intros [r l] s1 [[= ->] Hsv]. simpl free_all. apply run_bind, run_ret.
  assert (Hsv' : served s s1 size r).
  { destruct Hsv as [Ha Hr Hre]. split; [|done..]. destruct r as [a|]; destruct Ha; by split. }
  destruct r as [a|]; [|by apply run_ret].
  destruct (sv_answer _ _ _ _ Hsv) as [[ars' Hi'] _ _ (p & Hp & _) _ _ _].
  pose proof (inv_unreserved Hi') as Hu.
  apply (run_deref _ p); [done|]. apply run_gets. cbv zeta. apply run_modify.
  assert (Hfin : forall e, unreserved e -> run (occupied ← GetOccupiedSize;
    _ ← modify_counters (fun c =>
      MkCounters (recycle_count_ c) (alloc_succ_count_ c) (free_succ_count_ c)
        (if (max_occupied_size_ c <? occupied) || new_va_span_ p then occupied else max_occupied_size_ c)
        (base_addr_ c) (uwrap 64 (theory_size_ (counters_ s1) + GetSize cfg p))
        (Z.max (theory_min_size_ c) (uwrap 64 (theory_size_ (counters_ s1) + GetSize cfg p)))
        (uwrap 64 (real_theory_size_ (counters_ s1) + real_size_ p))
        (Z.max (real_theory_min_size_ c) (uwrap 64 (real_theory_size_ (counters_ s1) + real_size_ p)))
        (try_count_ c) (is_fix_sized_ c)); mret (Some a)) (set_expandable e s1) (fun r s' => served s s' size r)).
  { intros e He. unfold GetOccupiedSize, modify_counters. apply run_gets, run_modify, run_ret. by apply served_env. }
  destruct (_ <? _).
  - apply run_modify. simpl. apply (Hfin (SetTheoryMinSize _ (SetTheorySize _ (expandable_ s1)))).
    by apply unreserved_theory_min, unreserved_theory.
  - apply run_bind, run_ret. simpl. apply (Hfin (SetTheorySize _ (expandable_ s1))). by apply unreserved_theory.
Qed.
End alloc.
