(* ===== verification/MemScalableRecycle.v ===== *)
(** * MemScalableRecycle: giving idle blocks back

    [Recycle] of the page span allocator returns to the device every idle
    block that is in one piece.  While a layer is recycled the lookup table
    is not told which spans leave it; the invariant then holds of the ids the
    table ought to have. *)

From Stdlib Require Import Sorting.Sorted.
From S2P Require Import Prelude MemLink MemSpan MemScalable MemFiling MemTiling MemScalableSound.

#[local] Set Warnings "-clear-no-such-hyp".

#[local] Arguments inv_tiling {_ _ _ _ _ _ _} _.
#[local] Arguments inv_backed {_ _ _ _ _ _ _} _.
#[local] Arguments inv_filing {_ _ _ _ _ _ _} _.
#[local] Arguments inv_maximal {_ _ _ _ _ _ _} _.
#[local] Arguments inv_plain {_ _ _ _ _ _ _} _.
#[local] Arguments inv_unreserved {_ _ _ _ _ _ _} _.

Section recycle.
Context `{HMB : MemBlockApi} `{HHM : HostMemory} `{HDM : DeviceMem} `{HEA : ExpandableApi}.
Context (unreserved : Expandable -> Prop) (cfg : ScalableConfig).
Context (host_limit : nat) `{HHL : !HostMemoryLaws host_limit} `{HEL : !ExpandableLaws unreserved}.
Hypothesis Hcfg : config_ok cfg.
Import ScalableAllocator.

Abbreviation page := (2 ^ page_idem_num cfg).
Abbreviation cap := (span_layer_capacity_ cfg).
Abbreviation inv := (inv unreserved cfg).
Abbreviation inv0 := (inv0 unreserved cfg).

(** ** A table that lags behind *)

(** [g] are the ids the table ought to have. *)
Definition lagging (id : Z) (g ids : list Z) : Prop := g = ids \/ g = IdSet.erase id ids.

Lemma lagging_remove id g ids layer :
  lagging id g ids -> layer_id_ layer = id -> lagging id (Lut.OnLayerRemoveSpan (lut cfg) layer g) ids.
Proof.
  intros Hg <-. unfold Lut.OnLayerRemoveSpan. destruct (lut cfg); [|done].
  destruct (SpanLayerOps.IsEmpty layer); [|done]. right.
  destruct Hg as [->| ->]; [done|]. apply erase_absent. rewrite elem_of_erase. by intros [? _].
Qed.

(** The table after [quick_recycle] has looked at the layer. *)
Lemma lagging_settle s ars id g layer :
  inv0 (set_ids g s) ars -> lagging id g (span_layer_ids_ s) -> 0 <= id ->
  known_layer (span_layers_ s) id = Some layer ->
  g = match lut cfg with
      | QuickLut => if SpanLayerOps.IsEmpty layer then IdSet.erase id (span_layer_ids_ s) else span_layer_ids_ s
      | SeqLut => span_layer_ids_ s
      end.
Proof.
  intros Hi Hg Hid Hl. pose proof (inv_filing Hi) as Hf. destruct (fil_lut Hf) as [_ Hids].
  pose proof (fil_zlen _ _ _ _ _ _ _ _ Hf Hid Hl) as Hz. simpl in Hids.
  assert (Hgone : g = IdSet.erase id (span_layer_ids_ s) -> id ∉ g).
  { intros ->. rewrite elem_of_erase. by intros [? _]. }
  specialize (Hids id). destruct (lut cfg).
  - rewrite (IsEmpty_spec layer Hz). unfold stocked in Hids. rewrite Hl in Hids.
    case_bool_decide as E; simpl in Hids.
    + destruct Hg as [->|]; [|done]. rewrite erase_absent; [done|]. intros Hin. by apply Hids in Hin as [_ ?].
    + destruct Hg as [|Hg]; [done|]. destruct (Hgone Hg). by apply Hids.
  - destruct Hg as [|Hg]; [done|]. destruct (Hgone Hg). apply Hids. split; [done|]. by rewrite Hl.
Qed.

(** ** One span *)

(** Idle spans may go, nothing else happens. *)
Record recycled (s s' : Scalable) : Prop := {
  rc_sub : spans s' ⊆ spans s;
  rc_used : forall x p, spans s !! x = Some p -> 0 < GetCount p -> spans s' !! x = Some p;
  rc_occ : occupied_spans_ s' = occupied_spans_ s;
  rc_known : forall i, 0 <= i -> is_Some (known_layer (span_layers_ s') i) <-> is_Some (known_layer (span_layers_ s) i);
  rc_blocks : blocks_ (device_ s') ⊆ blocks_ (device_ s);
}.

Lemma recycled_refl s : recycled s s.
Proof. by split. Qed.

Lemma recycled_trans s1 s2 s3 : recycled s1 s2 -> recycled s2 s3 -> recycled s1 s3.
Proof.
  intros [A1 B1 C1 D1 E1] [A2 B2 C2 D2 E2]. split; [by etrans|auto|congruence| |by etrans].
  intros i Hi. by rewrite D2, D1.
Qed.

(** A span that was never cut is alone in its block. *)
Lemma whole_span h ars frees blocks a p :
  tiling page cap (geom <$> h) ars -> backed page frees ars blocks -> h !! a = Some p -> HasSplited p = false ->
  exists A1 ar A2, ars = A1 ++ (ar, [a]) :: A2 /\ block_addr_ p = Some (ar_block ar) /\
    is_Some (blocks !! ar_block ar).
Proof.
  intros Ht [Hbk _ _ _] Hp Hs.
  destruct (locate _ _ _ _ a Ht) as (A1 & ar & l1 & l2 & A2 & ->); [rewrite lookup_fmap, Hp; by eexists|].
  destruct (tiling_at _ _ _ _ _ _ _ _ _ Ht) as (_ & _ & k & Hk & _ & Hb & _).
  rewrite lookup_fmap, Hp in Hk. injection Hk as <-. simpl in Hb.
  unfold HasSplited in Hs. rewrite Hb in Hs. unfold IsEmptyBuddy in Hs. simpl in Hs.
  apply negb_false_iff, andb_true_iff in Hs as [H1%bool_decide_eq_true H2%bool_decide_eq_true].
  assert (l2 = []) as -> by (by destruct l2).
  assert (l1 = []) as ->.
  { destruct l1 as [|z l0 _] using rev_ind; [done|]. unfold final in H1. by rewrite last_snoc in H1. }
  exists A1, ar, A2. split; [done|].
  destruct (arena_head _ _ _ _ _ _ _ Ht) as (h0 & k & [= <-] & Hk & Hblk).
  rewrite lookup_fmap, Hp in Hk. injection Hk as <-. split; [done|].
  rewrite Forall_app, Forall_cons in Hbk. destruct Hbk as (_ & Hbk & _). simpl in Hbk. by rewrite Hbk.
Qed.

Lemma DevFree_run s b :
  is_Some (blocks_ (device_ s) !! b) ->
  run (DevFree (Some b)) s (fun _ s' => exists d, s' = set_device d s /\
    blocks_ d = if dev_free (blocks_ (device_ s)) b then delete b (blocks_ (device_ s)) else blocks_ (device_ s)).
Proof.
  intros [[a n] Hb]. unfold DevFree. apply run_gets. unfold DeviceAllocatorOps.Free. rewrite Hb.
  destruct (dev_free _ _); eapply (run_lift _ _ _ _ _ eq_refl); eexists; done.
Qed.

Lemma set_ids_same s : set_ids (span_layer_ids_ s) s = s.
Proof. by destruct s. Qed.

(** The idle spans of a layer. *)
Definition link_of (ls : span_layers) (id : Z) : list addr := default [] (free_link_ <$> known_layer ls id).

Lemma remove_from_link_run s ars v id a g :
  inv (set_ids g s) ars v -> lagging id g (span_layer_ids_ s) -> 0 <= id -> v !! a = Some (0, id) ->
  run (remove_from_link (Plain id) a) s (fun _ s' => exists g' ls,
    s' = set_layers ls s /\ lagging id g' (span_layer_ids_ s) /\ inv (set_ids g' s') ars (delete a v) /\
    link_of ls id = filter (fun x => x <> a) (link_of (span_layers_ s) id) /\
    forall i, 0 <= i -> is_Some (known_layer ls i) <-> is_Some (known_layer (span_layers_ s) i)).
Proof.
  intros Hi Hg Hid Ha. pose proof (inv_filing Hi) as Hf.
  destruct (fil_idle Hf _ _ Ha) as [layer Hl]. simpl in Hl.
  destruct (fil_layer Hf id layer Hid Hl) as (Hlid & Hnd & Hin).
  pose proof (known_range _ _ _ Hid Hl) as Hr. simpl in Hr.
  unfold remove_from_link. apply (run_deref_layer _ layer); [done..|].
  unfold SpanLayerOps.Remove. rewrite decide_True by (by apply Hin).
  apply (run_lift _ _ _ _ _ eq_refl).
  set (layer' := SpanLayerOps.with_free _ layer). eexists (Lut.OnLayerRemoveSpan (lut cfg) layer' g), _.
  split_and!; [done|by apply lagging_remove| | |].
  - eapply inv_refile; [exact Hi|done| |apply maximal_delete, (inv_maximal Hi)]. simpl.
    apply (filing_remove (lut cfg) cap v _ _ _ id layer a); try done; [by apply NoDup_filter|].
    intros x. by rewrite list_elem_of_filter.
  - unfold link_of. rewrite known_insert, decide_True by done. by rewrite Hl.
  - intros i Hi0. rewrite known_insert by done. case_decide; [|done]. subst i. rewrite Hl. split; by eexists.
Qed.

(** The object and its block are gone. *)
Lemma inv_drop s s' A1 ar a A2 g d :
  inv (set_ids g s) (A1 ++ (ar, [a]) :: A2) (delete a (view (spans s))) ->
  s' = set_spans (delete a (spans s)) (set_device d s) ->
  blocks_ d = (if dev_free (blocks_ (device_ s)) (ar_block ar)
               then delete (ar_block ar) (blocks_ (device_ s)) else blocks_ (device_ s)) ->
  inv0 (set_ids g s') (A1 ++ A2).
Proof.
  intros Hi -> Ed.
  assert (Hv : view (delete a (spans s)) = delete a (view (spans s))) by (unfold view; by rewrite fmap_delete).
  split; simpl.
  - rewrite fmap_delete. eapply tiling_drop; [apply (page_pos cfg Hcfg)|apply (inv_tiling Hi)].
  - rewrite Ed. eapply backed_drop; [apply (inv_backed Hi)|]. intros Hf. apply Hf.
  - rewrite Hv. apply (inv_filing Hi).
  - rewrite Hv. intros x y (ar' & l1 & l2 & Hin) Hx Hy. apply (inv_maximal Hi x y); [|done..].
    exists ar', l1, l2. set_solver.
  - intros x p [_ Hx]%lookup_delete_Some. by apply (inv_plain Hi).
  - apply (inv_unreserved Hi).
  - apply (inv_new_va _ _ _ _ _ Hi).
Qed.

Lemma RecycleSpan_run s ars id a g :
  inv0 (set_ids g s) ars -> lagging id g (span_layer_ids_ s) -> 0 <= id -> view (spans s) !! a = Some (0, id) ->
  run (RecycleSpan cfg (Plain id) a) s (fun _ s' => exists ars' g',
    inv0 (set_ids g' s') ars' /\ lagging id g' (span_layer_ids_ s') /\ recycled s s' /\
    span_layer_ids_ s' = span_layer_ids_ s /\
    (spans s' = delete a (spans s) /\ link_of (span_layers_ s') id = filter (fun x => x <> a) (link_of (span_layers_ s) id) \/
     s' = s /\ forall p, spans s !! a = Some p -> HasSplited p = true)).
Proof.
  intros Hi Hg Hid Ha. rewrite view_lookup in Ha. pose proof Ha as (p & Hp & [= Hc Hl])%fmap_Some.
  rewrite <- view_lookup in Ha. destruct (inv_plain Hi a p Hp) as (Hva & _ & _).
  unfold RecycleSpan. apply (run_deref _ p); [done|]. apply run_gets.
  rewrite Hva, unreserved_addr by apply (inv_unreserved Hi).
  destruct (HasSplited p) eqn:Hsp; simpl.
  { apply run_ret. exists ars, g. split_and!; try done. right. split; [done|].
    intros q Hq. rewrite Hp in Hq. by injection Hq as <-. }
  destruct (whole_span _ _ _ _ _ _ (inv_tiling Hi) (inv_backed Hi) Hp Hsp) as (A1 & ar & A2 & -> & Hblk & Hdev).
  apply run_bind. eapply run_mono; [by apply (remove_from_link_run s _ _ id a g Hi)|].
  intros _ s1 (g' & ls & -> & Hg' & Hi' & Hlk & Hk). rewrite Hblk. apply run_bind.
  eapply run_mono; [by apply DevFree_run|]. intros _ s2 (d & -> & Ed). simpl in Ed.
  unfold free_object. apply (run_deref _ p); [done|]. unfold run. simpl.
  exists (A1 ++ A2), g'. split_and!; try done; [| |by left].
  - by eapply (inv_drop (set_layers ls s)).
  - split; simpl; try done.
    + apply delete_subseteq.
    + intros x q Hx Hcx. rewrite lookup_delete_ne; [done|]. intros <-. rewrite Hp in Hx. injection Hx as <-. lia.
    + rewrite Ed. destruct (dev_free _ _); [apply delete_subseteq|done].
Qed.

(** ** Layers *)

Lemma link_next_app (l1 : list addr) a l2 : a ∉ l1 -> link_next (l1 ++ a :: l2) a = head l2.
Proof.
  induction l1 as [|b l1 IH]; intros Ha; simpl; [by rewrite decide_True|]. rewrite decide_False by set_solver. apply IH. set_solver.
Qed.

Lemma filter_ne (l : list addr) a : a ∉ l -> filter (fun x => x <> a) l = l.
Proof.
  induction l as [|b l IH]; intros Ha; [done|]. rewrite filter_cons_True by set_solver. f_equal. apply IH. set_solver.
Qed.

(** The list of a layer that is known. *)
Definition linked (s : Scalable) (id : Z) (l : list addr) : Prop :=
  exists layer, known_layer (span_layers_ s) id = Some layer /\ free_link_ layer = l.

Lemma next_of_run {B} id l e (k : pointer -> M B) s Q :
  0 <= id -> linked s id l -> (forall a, e = Some a -> a ∈ l) ->
  run (k (match e with None => head l | Some a => link_next l a end)) s Q -> run (next_of (Plain id) e ≫= k) s Q.
Proof.
  intros Hid (layer & Hl & <-) He Hk. apply run_bind. unfold next_of. apply (run_deref_layer _ layer); [done..|].
  destruct e as [a|]; [rewrite decide_True by (by apply He)|]; by apply run_ret.
Qed.

Lemma freed_next_run {B} id l a p (k : pointer -> M B) s h Q :
  0 <= id -> linked s id l -> a ∉ l -> spans s = delete a h -> h !! a = Some p -> (forall q, run (k q) s Q) ->
  run (next_of (Plain id) (Some a) ≫= k) s Q.
Proof.
  intros Hid (layer & Hl & <-) Ha Hs Hp Hk. apply run_bind. unfold next_of. apply (run_deref_layer _ layer); [done..|].
  rewrite decide_False by done. apply run_gets. rewrite Hs, lookup_delete_eq.
  destruct (freed_next_kept h a p Hp) as [q Hq]. unfold run, lift. rewrite Hq. apply Hk.
Qed.

Lemma inv_linked s ars id g :
  inv0 (set_ids g s) ars -> 0 <= id -> is_Some (known_layer (span_layers_ s) id) ->
  linked s id (link_of (span_layers_ s) id) /\ NoDup (link_of (span_layers_ s) id) /\
  forall a, a ∈ link_of (span_layers_ s) id <-> view (spans s) !! a = Some (0, id).
Proof.
  intros Hi Hid [layer Hl]. destruct (fil_layer (inv_filing Hi) id layer Hid Hl) as (_ & Hnd & Hin).
  unfold link_of. rewrite Hl. split; [by exists layer|done].
Qed.

(** [tmp_span] is one element ahead, and knows the one behind it: at the end of
    the list that is the first span still in it. *)
Definition ahead (todo l : list addr) (tmp : SpanIterator) : Prop :=
  it_elem tmp = head (tail todo) /\ it_next tmp = match todo with _ :: _ :: rest => head rest | _ => head l end.

Lemma ahead_step {B} id surv a rest tmp (k : SpanIterator -> M B) s1 Q (freed : bool) h :
  0 <= id -> NoDup (surv ++ a :: rest) -> ahead (a :: rest) (surv ++ a :: rest) tmp ->
  linked s1 id (surv ++ (if freed then rest else a :: rest)) ->
  (freed = true -> spans s1 = delete a h /\ is_Some (h !! a)) ->
  (forall next, (rest <> [] -> ahead rest (surv ++ (if freed then rest else a :: rest)) next) -> run (k next) s1 Q) ->
  run (it_incr (Plain id) tmp ≫= k) s1 Q.
Proof.
  intros Hid Hnd [He Hn] Hl Hfr Hk. unfold it_incr, mk_iterator. apply run_bind. destruct rest as [|b [|c rest]].
  - simpl in Hn. rewrite Hn. destruct surv as [|z surv].
    + destruct freed; simpl.
      * destruct (Hfr eq_refl) as [Hs [p Hp]]. eapply (freed_next_run id _ a p); try done; [by apply not_elem_of_nil|]. intros q. apply run_ret. by apply Hk.
      * eapply next_of_run; [done|exact Hl|intros ? [= <-]; set_solver|]. apply run_ret. by apply Hk.
    + simpl. eapply next_of_run; [done|exact Hl|intros ? [= <-]; set_solver|]. apply run_ret. by apply Hk.
  - simpl in Hn. rewrite Hn. eapply next_of_run; [done|exact Hl|done|]. apply run_ret. apply Hk. intros _. split; [done|]. by destruct freed.
  - simpl in Hn. rewrite Hn. eapply next_of_run; [done|exact Hl|intros ? [= <-]; destruct freed; set_solver|]. apply run_ret. apply Hk. intros _.
    split; [done|]. simpl. rewrite NoDup_app, !NoDup_cons in Hnd. destruct freed.
    + replace (surv ++ b :: c :: rest) with ((surv ++ [b]) ++ c :: rest) by (by rewrite <- app_assoc). apply link_next_app. set_solver.
    + replace (surv ++ a :: b :: c :: rest) with ((surv ++ [a; b]) ++ c :: rest) by (by rewrite <- app_assoc). apply link_next_app. set_solver.
Qed.

Lemma recycle_loop_run fuel todo surv span tmp s ars id g :
  inv0 (set_ids g s) ars -> lagging id g (span_layer_ids_ s) -> 0 <= id -> linked s id (surv ++ todo) -> (length todo < fuel)%nat ->
  it_elem span = head todo -> (todo <> [] -> ahead todo (surv ++ todo) tmp) ->
  run (recycle_loop cfg fuel (Plain id) span tmp) s (fun _ s' => exists ars' g',
    inv0 (set_ids g' s') ars' /\ lagging id g' (span_layer_ids_ s') /\ recycled s s' /\
    span_layer_ids_ s' = span_layer_ids_ s /\
    forall a p, a ∈ todo -> spans s' !! a = Some p -> HasSplited p = true).
Proof.
  revert todo surv span tmp s ars g. induction fuel as [|fuel IH]; intros todo surv span tmp s ars g Hi Hg Hid Hl Hf Hspan Htmp; [lia|].
  cbn [recycle_loop]. rewrite Hspan. destruct todo as [|a rest]; cbn [head].
  { apply run_ret. exists ars, g. split_and!; try done. by intros a p ?%not_elem_of_nil. }
  assert (Hk : is_Some (known_layer (span_layers_ s) id)) by (destruct Hl as (layer & -> & _); by eexists).
  destruct (inv_linked s ars id g Hi Hid Hk) as (_ & Hnd & Hin).
  assert (El : link_of (span_layers_ s) id = surv ++ a :: rest) by (destruct Hl as (layer & Hl & <-); unfold link_of; by rewrite Hl).
  rewrite El in Hnd, Hin. assert (Ha : view (spans s) !! a = Some (0, id)) by (apply Hin; set_solver).
  apply run_bind. eapply run_mono; [by apply (RecycleSpan_run s ars id a g)|].
  intros _ s1 (ars1 & g1 & Hi1 & Hg1 & Hr1 & Eids & Hout).
  assert (Hk1 : is_Some (known_layer (span_layers_ s1) id)) by (by apply (rc_known _ _ Hr1)).
  destruct (inv_linked s1 ars1 id g1 Hi1 Hid Hk1) as (Hl1 & _ & _).
  assert (exists freed : bool, link_of (span_layers_ s1) id = surv ++ (if freed then rest else a :: rest) /\
    (freed = true -> spans s1 = delete a (spans s)) /\ (freed = false -> s1 = s)) as (freed & E1 & Hfr & Hno).
  { destruct Hout as [[Hsp Hlk]|[-> _]]; [|exists false; rewrite El; done]. exists true. split_and!; [|done|done].
    rewrite Hlk, El. by apply filter_remove. }
  rewrite E1 in Hl1. apply (ahead_step id surv a rest tmp _ s1 _ freed (spans s)); try done; [by apply Htmp| |].
  { intros Hfreed. split; [by apply Hfr|]. rewrite view_lookup in Ha. by destruct (spans s !! a); [eexists|]. }
  intros next Hnext. set (surv1 := if freed then surv else surv ++ [a]).
  assert (Es : surv ++ (if freed then rest else a :: rest) = surv1 ++ rest) by (unfold surv1; destruct freed; [done|by rewrite <- app_assoc]).
  rewrite Es in *. simpl in Hf. destruct (Htmp ltac:(done)) as [He _].
  eapply run_mono; [apply (IH rest surv1 tmp next s1 ars1 g1); [done..|lia|done|done]|].
  intros _ s2 (ars2 & g2 & Hi2 & Hg2 & Hr2 & Eids2 & Hdone).
  exists ars2, g2. split_and!; try done; [by eapply recycled_trans|congruence|].
  intros x p [->|Hx]%elem_of_cons Hp; [|by eapply Hdone].
  pose proof (lookup_weaken _ _ _ _ Hp (rc_sub _ _ Hr2)) as Hp1.
  destruct Hout as [[Hsp _]|[-> Hsplit]]; [|by apply Hsplit].
  by rewrite Hsp, lookup_delete_eq in Hp1.
Qed.

(** Idle spans of these lengths that are left were cut. *)
Definition clean (s : Scalable) (ids : list Z) : Prop :=
  forall a p, spans s !! a = Some p -> GetCount p = 0 -> page_len_ p ∈ ids -> HasSplited p = true.

Lemma clean_recycled s s' ids : clean s ids -> recycled s s' -> clean s' ids.
Proof. intros Hc Hr a p Hp. eapply Hc, lookup_weaken; [exact Hp|apply Hr]. Qed.

Lemma LayerRecycle_run s ars id :
  inv0 s ars -> 0 <= id -> is_Some (known_layer (span_layers_ s) id) ->
  run (LayerRecycle cfg (Plain id)) s (fun _ s' => exists ars' g',
    inv0 (set_ids g' s') ars' /\ lagging id g' (span_layer_ids_ s') /\ recycled s s' /\
    span_layer_ids_ s' = span_layer_ids_ s /\ clean s' [id]).
Proof.
  intros Hi Hid [layer Hl]. destruct (fil_layer (inv_filing Hi) id layer Hid Hl) as (_ & Hnd & Hin).
  assert (Hlk : linked s id (free_link_ layer)) by (by exists layer).
  unfold LayerRecycle. apply (run_deref_layer _ layer); [done..|]. revert Hnd Hin Hlk. generalize (free_link_ layer) as l. intros l Hnd Hin Hlk.
  assert (Hfirst : forall a, head l = Some a -> a ∈ l) by (intros a; destruct l; [done|]; intros [= ->]; by left).
  assert (Hbegin : forall {B} (k : SpanIterator -> M B) Q,
    run (k (MkIter (head l) (match head l with None => head l | Some a => link_next l a end))) s Q -> run (link_begin (Plain id) ≫= k) s Q).
  { intros B k Q Hk. apply run_bind. unfold link_begin. eapply next_of_run; [done|exact Hlk|done|]. unfold mk_iterator.
    eapply next_of_run; [done|exact Hlk|done|]. by apply run_ret. }
  apply Hbegin, Hbegin. unfold it_incr, mk_iterator. cbn [it_next]. apply run_bind.
  set (n := match head l with None => head l | Some a => link_next l a end).
  assert (Hn : n = head (tail l)).
  { unfold n. destruct l as [|a l]; [done|]. simpl. by rewrite decide_True. }
  eapply next_of_run; [done|exact Hlk|rewrite Hn; destruct l as [|a [|b l]]; set_solver|]. apply run_ret.
  eapply run_mono; [apply (recycle_loop_run _ l [] _ _ s ars id (span_layer_ids_ s)); try done|].
  - by rewrite set_ids_same.
  - by left.
  - lia.
  - intros Hne. split; [done|]. cbn [it_next]. rewrite Hn. destruct l as [|a [|b rest]]; [done..|]. simpl.
    rewrite NoDup_cons in Hnd. rewrite decide_False by set_solver. by rewrite decide_True.
  - intros _ s' (ars' & g' & Hi' & Hg' & Hr & E & Hdone). exists ars', g'. split_and!; try done.
    intros a p Hp Hc E1%list_elem_of_singleton. eapply Hdone; [|exact Hp].
    apply Hin. rewrite view_lookup, (lookup_weaken _ _ _ _ Hp (rc_sub _ _ Hr)). simpl. by rewrite Hc, E1.
Qed.

Lemma quick_recycle_run it s ars :
  lut cfg = QuickLut -> inv0 s ars -> NoDup it -> (forall i, i ∈ it -> i ∈ span_layer_ids_ s) ->
  run (quick_recycle cfg it) s (fun _ s' => exists ars', inv0 s' ars' /\ recycled s s' /\ clean s' it).
Proof.
  intros Hq. revert s ars. induction it as [|id it IH]; intros s ars Hi Hnd Hin; simpl.
  { exists ars. split_and!; try done. by intros a p _ _ ?%not_elem_of_nil. }
  apply NoDup_cons in Hnd as [Hna Hnd]. destruct (fil_lut (inv_filing Hi)) as [_ Hids].
  assert (Hid : id ∈ span_layer_ids_ s) by (apply Hin; by left). apply Hids in Hid as [Hid Hst]. rewrite Hq in Hst.
  pose proof (stocked_known _ _ Hst) as [layer Hl]. apply run_gets. rewrite Hl.
  apply run_bind. eapply run_mono; [apply (LayerRecycle_run s ars id Hi Hid); by rewrite Hl|].
  intros _ s1 (ars1 & g1 & Hi1 & Hg1 & Hr1 & Eids & Hcl1).
  destruct (proj2 (rc_known _ _ Hr1 id Hid)) as [layer1 Hl1]; [by rewrite Hl|].
  apply (run_deref_layer _ layer1); [done..|].
  pose proof (lagging_settle _ _ _ _ _ Hi1 Hg1 Hid Hl1) as Eg. rewrite Hq in Eg.
  set (s2 := set_ids g1 s1).
  assert (Hstep : run (quick_recycle cfg it) s2
    (fun _ s' => exists ars', inv0 s' ars' /\ recycled s s' /\ clean s' (id :: it))).
  { eapply run_mono; [apply (IH s2 ars1 Hi1 Hnd)|].
    - intros i Hi'. assert (Hi0 : i ∈ span_layer_ids_ s1) by (rewrite Eids; apply Hin; by right).
      change (i ∈ g1). destruct Hg1 as [->| ->]; [done|]. apply elem_of_erase. split; [by intros ->|done].
    - intros _ s3 (ars3 & Hi3 & Hr3 & Hcl3). exists ars3.
      assert (Hr13 : recycled s1 s3) by (destruct Hr3; by split).
      split_and!; [done|by eapply recycled_trans|].
      intros a p Hp Hc [E|Hl']%elem_of_cons; [|by eapply Hcl3].
      eapply (clean_recycled _ _ _ Hcl1 Hr13); [exact Hp|done|]. rewrite E. by left. }
  destruct (SpanLayerOps.IsEmpty layer1); apply run_bind.
  - unfold run, modify. simpl. by rewrite <- Eg.
  - apply run_ret. assert (Es : s2 = s1) by (unfold s2; rewrite Eg; apply set_ids_same). by rewrite <- Es.
Qed.

Lemma seq_recycle_run it s ars :
  lut cfg = SeqLut -> inv0 s ars -> (forall i, i ∈ it -> i ∈ span_layer_ids_ s) ->
  run (for_known (LayerRecycle cfg) it) s (fun _ s' => exists ars', inv0 s' ars' /\ recycled s s' /\ clean s' it).
Proof.
  intros Hq. revert s ars. induction it as [|id it IH]; intros s ars Hi Hin; simpl.
  { exists ars. split_and!; try done. by intros a p _ _ ?%not_elem_of_nil. }
  destruct (fil_lut (inv_filing Hi)) as [_ Hids].
  assert (Hid : id ∈ span_layer_ids_ s) by (apply Hin; by left). apply Hids in Hid as [Hid Hk].
  rewrite Hq in Hk. destruct Hk as [layer Hl]. apply run_gets. rewrite Hl.
  apply run_bind. eapply run_mono; [apply (LayerRecycle_run s ars id Hi Hid); by rewrite Hl|].
  intros _ s1 (ars1 & g1 & Hi1 & Hg1 & Hr1 & Eids & Hcl1).
  destruct (proj2 (rc_known _ _ Hr1 id Hid)) as [layer1 Hl1]; [by rewrite Hl|].
  pose proof (lagging_settle _ _ _ _ _ Hi1 Hg1 Hid Hl1) as Eg. rewrite Hq in Eg.
  rewrite Eg, set_ids_same in Hi1. eapply run_mono; [apply (IH s1 ars1 Hi1)|].
  - intros i Hi'. rewrite Eids. apply Hin. by right.
  - intros _ s3 (ars3 & Hi3 & Hr3 & Hcl3). exists ars3. split_and!; [done|by eapply recycled_trans|].
    intros a p Hp Hc [E|Hl']%elem_of_cons; [|by eapply Hcl3].
    eapply (clean_recycled _ _ _ Hcl1 Hr3); [exact Hp|done|]. rewrite E. by left.
Qed.

(** No idle block in one piece is left. *)
Lemma Recycle_run s ars :
  inv0 s ars ->
  run (Recycle cfg) s (fun _ s' => (exists ars', inv0 s' ars') /\ recycled s s' /\
    forall a p, spans s' !! a = Some p -> GetCount p = 0 -> HasSplited p = true).
Proof.
  intros Hi. destruct (inv_new_va _ _ _ _ _ Hi) as [Hv _]. unfold Recycle. apply run_gets.
  rewrite Hv. simpl. apply run_bind, run_ret. destruct (fil_lut (inv_filing Hi)) as [Hs Hids].
  assert (Hgo : forall m, run m s (fun (_ : unit) s' => exists ars', inv0 s' ars' /\ recycled s s' /\ clean s' (span_layer_ids_ s)) ->
    run (_ ← m; modify_counters (fun c =>
      MkCounters (uwrap 64 (recycle_count_ c + 1)) (alloc_succ_count_ c) (free_succ_count_ c)
        (max_occupied_size_ c) (base_addr_ c) (theory_size_ c) (theory_min_size_ c)
        (real_theory_size_ c) (real_theory_min_size_ c) (try_count_ c) (is_fix_sized_ c))) s
      (fun _ s' => (exists ars', inv0 s' ars') /\ recycled s s' /\
         forall a p, spans s' !! a = Some p -> GetCount p = 0 -> HasSplited p = true)).
  { intros m Hm. apply run_bind. eapply run_mono; [exact Hm|]. intros _ s' (ars' & Hi' & Hr & Hcl).
    unfold run, modify_counters, modify. simpl. split_and!.
    - exists ars'. by apply inv_counters.
    - destruct Hr; by split.
    - intros a p Hp Hc. apply (Hcl a p Hp Hc).
      assert (Hv0 : view (spans s) !! a = Some (0, page_len_ p)).
      { rewrite view_lookup, (lookup_weaken _ _ _ _ Hp (rc_sub _ _ Hr)). simpl. by rewrite Hc. }
      destruct (fil_idle (inv_filing Hi) _ _ Hv0) as [layer Hl].
      destruct (fil_range (inv_filing Hi) _ _ _ Hv0) as [_ [Hp0 _]].
      destruct (fil_layer (inv_filing Hi) _ _ Hp0 Hl) as (_ & _ & Hin). apply Hin in Hv0.
      apply Hids. split; [done|]. destruct (lut cfg); [|by rewrite Hl].
      unfold stocked. rewrite Hl. by destruct (free_link_ layer); [apply not_elem_of_nil in Hv0|]. }
  apply Hgo. unfold LutRecycle. apply run_gets. destruct (lut cfg) eqn:Hq.
  - apply (quick_recycle_run _ s ars); [done..| |done]. clear -Hs.
    induction Hs as [|x l Hs IH Hx]; constructor; [|done]. intros Hin. rewrite Forall_forall in Hx. specialize (Hx x Hin). lia.
  - by apply (seq_recycle_run _ s ars).
Qed.
End recycle.
