(* ===== verification/MemScalableClient.v ===== *)
(** * MemScalableClient: what users of the page span allocator rely on

    A client takes blocks, gives them back and recycles in any order.
    [serve] runs such a sequence from a new allocator; the theorems say what
    holds after every sequence. *)

From S2P Require Import Prelude MemLink MemSpan MemScalable MemFiling MemTiling MemScalableSound.
From S2P Require Import MemScalableAlloc MemScalableRecycle.

#[local] Set Warnings "-clear-no-such-hyp".

(** ** Clients *)

(** [CFree i] gives the last reference to the [i]th live block up. *)
Inductive request := CAlloc (size : Z) | CFree (i : nat) | CRecycle.

(** Sizes are [size_t]. *)
Definition request_ok (q : request) : bool :=
  match q with CAlloc size => (0 <=? size) && (size <? 2 ^ 64) | _ => true end.

Section client.
Context `{HMB : MemBlockApi} `{HHM : HostMemory} `{HDM : DeviceMem} `{HEA : ExpandableApi} (cfg : ScalableConfig).
Import ScalableAllocator.

(** The live blocks with the sizes asked for, newest first. *)
Definition serve1 (q : request) (live : list (addr * Z)) : M (list (addr * Z)) :=
  match q with
  | CAlloc size =>
    r ← Alloc cfg size; mret (match r with Some a => (a, size) :: live | None => live end)
  | CFree i =>
    match live !! i with
    | Some (a, _) => _ ← release cfg a; mret (filter (fun x => x.1 <> a) live)
    | None => mret live
    end
  | CRecycle => _ ← Recycle cfg; mret live
  end.

Fixpoint serve (qs : list request) (live : list (addr * Z)) : M (list (addr * Z)) :=
  match qs with [] => mret live | q :: qs => live ← serve1 q live; serve qs live end.

Context (unreserved : Expandable -> Prop) (host_limit : nat).
Context `{HML : !MemBlockLaws} `{HHL : !HostMemoryLaws host_limit} `{HDL : !DeviceMemLaws}
  `{HEL : !ExpandableLaws unreserved}.
Hypothesis Hcfg : config_ok cfg.

Abbreviation page := (2 ^ page_idem_num cfg).
Abbreviation inv0 := (inv0 unreserved cfg).

(** ** The invariant of a client's run *)

Record accounted (s : Scalable) (live : list (addr * Z)) : Prop := {
  ac_inv : exists ars, inv0 s ars;
  ac_occ : occupied_spans_ s = live.*1;
  ac_live : forall a size, (a, size) ∈ live -> exists p, spans s !! a = Some p /\
    page_len_ p = pages cfg size /\ real_size_ p = size /\ 0 <= size <= page_mem_size_total_threshold cfg;
}.

Lemma accounted_used s live a size p :
  accounted s live -> (a, size) ∈ live -> spans s !! a = Some p -> 0 < GetCount p.
Proof.
  intros [[ars Hi] Ho _] Hin Hp.
  assert (Ha : a ∈ occupied_spans_ s) by (rewrite Ho; apply list_elem_of_fmap; by exists (a, size)).
  apply (inv0_occupied _ _ _ _ _ Hi) in Ha as (q & Hq & Hc). congruence.
Qed.

(** Live blocks survive what others do. *)
Lemma live_kept s s' live (live' : list (addr * Z)) l :
  accounted s live -> keeps l (spans s) (spans s') ->
  (forall x, x ∈ live' -> x ∈ live /\ x.1 ∉ l) ->
  forall a size, (a, size) ∈ live' -> exists p, spans s' !! a = Some p /\
    page_len_ p = pages cfg size /\ real_size_ p = size /\ 0 <= size <= page_mem_size_total_threshold cfg.
Proof.
  intros Hacc Hk Hsub a size Hin. destruct (Hsub _ Hin) as [Hin' Hl].
  destruct (ac_live _ _ Hacc a size Hin') as (p & Hp & E1 & E2 & Hs).
  destruct (Hk a p Hp (accounted_used _ _ _ _ _ Hacc Hin' Hp) Hl) as (p' & Hp' & [= _ E3 _ E4]).
  exists p'. split_and!; [done|congruence|congruence|lia|lia].
Qed.

Lemma alloc_step s live size :
  accounted s live -> 0 <= size -> (base.size (spans s) < host_limit)%nat ->
  run (serve1 (CAlloc size) live) s (fun live' s' =>
    accounted s' live' /\ (base.size (spans s') <= S (base.size (spans s)))%nat).
Proof.
  intros Hacc Hs Hlim. pose proof (ac_inv _ _ Hacc) as [ars Hi]. simpl. apply run_bind.
  eapply run_mono; [by apply (Alloc_run unreserved cfg host_limit Hcfg s ars size)|].
  intros r s'. destruct (Z.ltb_spec (page_mem_size_total_threshold cfg) size) as [|Hfit].
  { intros [-> ->]. apply run_ret. split; [done|lia]. }
  intros [Ha Hr _]. apply run_ret. destruct r as [a|].
  - destruct Ha as [Hi' Ho _ (p & Hp & Hl) Hk Hz _]. split; [|done]. split; [done|simpl; by rewrite Ho, (ac_occ _ _ Hacc)|].
    intros b n [[= -> ->]|Hin]%elem_of_cons.
    + destruct (Hr a eq_refl) as (q & Hq & Hreal). simplify_eq. by exists p.
    + eapply (live_kept s s' live live []); [done..| |exact Hin]. intros x Hx. split; [done|by apply not_elem_of_nil].
  - destruct Ha as [Hi' Ho Hk Hz _]. split; [|done]. split; [done|by rewrite Ho, (ac_occ _ _ Hacc)|].
    eapply (live_kept s s' live live []); [done..|]. intros x Hx. split; [done|by apply not_elem_of_nil].
Qed.

Lemma fmap_filter_fst (a : addr) (live : list (addr * Z)) :
  (filter (fun x => x.1 <> a) live).*1 = filter (fun x => x <> a) live.*1.
Proof.
  induction live as [|[b n] live IH]; [done|]. rewrite fmap_cons. simpl.
  destruct (decide (b = a)) as [->|Hne].
  - by rewrite !filter_cons_False by (intros []; done).
  - rewrite !filter_cons_True by done. by rewrite fmap_cons, IH.
Qed.

Lemma free_step s live i :
  accounted s live ->
  run (serve1 (CFree i) live) s (fun live' s' =>
    accounted s' live' /\ (base.size (spans s') <= base.size (spans s))%nat).
Proof.
  intros Hacc. simpl. destruct (live !! i) as [[a n]|] eqn:Ei; [|apply run_ret; split; [done|lia]].
  pose proof (list_elem_of_lookup_2 _ _ _ Ei) as Hin.
  destruct (ac_live _ _ Hacc a n Hin) as (p & Hp & _). pose proof (accounted_used _ _ _ _ _ Hacc Hin Hp) as Hc.
  pose proof (ac_inv _ _ Hacc) as [ars Hi]. apply run_bind.
  eapply run_mono; [by apply (release_run unreserved cfg host_limit Hcfg s ars a p)|].
  intros _ s' (Hi' & Ho & Hk & Hz & _). apply run_ret. split; [|done]. split; [done| |].
  - by rewrite Ho, (ac_occ _ _ Hacc), fmap_filter_fst.
  - eapply (live_kept s s' live _ [a]); [done..|]. intros x [Hx Hx']%list_elem_of_filter. set_solver.
Qed.

Lemma recycle_step s live :
  accounted s live ->
  run (serve1 CRecycle live) s (fun live' s' =>
    accounted s' live' /\ (base.size (spans s') <= base.size (spans s))%nat).
Proof.
  intros Hacc. pose proof (ac_inv _ _ Hacc) as [ars Hi]. simpl. apply run_bind.
  eapply run_mono; [by apply (Recycle_run unreserved cfg host_limit Hcfg s ars)|].
  intros _ s' (Hi' & [Hsub Hused Ho _ _] & _). apply run_ret. split.
  - split; [done|by rewrite Ho, (ac_occ _ _ Hacc)|].
    eapply (live_kept s s' live live []); [done| |intros x Hx; split; [done|by apply not_elem_of_nil]].
    intros x p Hp Hc _. exists p. split; [by apply Hused|done].
  - rewrite <- !size_dom. apply subseteq_size, subseteq_dom. done.
Qed.

Lemma serve_run qs live s :
  accounted s live -> forallb request_ok qs = true -> (base.size (spans s) + length qs <= host_limit)%nat ->
  run (serve qs live) s (fun live' s' =>
    accounted s' live' /\ (base.size (spans s') <= base.size (spans s) + length qs)%nat).
Proof.
  revert live s. induction qs as [|q qs IH]; intros live s Hacc Hok Hlim;
    [apply run_ret; split; [done|lia]|].
  simpl in Hok, Hlim. apply andb_true_iff in Hok as [Hq Hok]. cbn [serve]. apply run_bind.
  eapply run_mono with (P := fun live' s' =>
    accounted s' live' /\ (base.size (spans s') <= S (base.size (spans s)))%nat).
  - destruct q as [size|i|].
    + simpl in Hq. apply andb_true_iff in Hq as [Hq%Z.leb_le _]. apply alloc_step; [done|lia|lia].
    + eapply run_mono; [by apply free_step|]. intros l s' [? ?]. split; [done|lia].
    + eapply run_mono; [by apply recycle_step|]. intros l s' [? ?]. split; [done|lia].
  - intros l s' [Hacc' Hz]. eapply run_mono; [apply IH; [done..|lia]|].
    intros l' s'' [? ?]. split; [done|simpl; lia].
Qed.

(** A new allocator has no spans and no layers. *)
Lemma accounted_construct e : unreserved e -> accounted (construct cfg e) [].
Proof.
  intros He. pose proof (cap_range cfg Hcfg) as Hcap.
  assert (Hnone : forall i, known_layer (span_layers_ (construct cfg e)) i = None).
  { intros i. unfold known_layer. simpl. destruct (replicate _ _ !! _) as [o|] eqn:E; [|done].
    apply lookup_replicate in E as [-> _]. done. }
  split; [|done|by intros a size ?%not_elem_of_nil]. exists []. split; simpl; try done.
  - rewrite fmap_empty. apply tiling_nil.
  - split; [done|apply NoDup_nil_2|done|]. intros _ b. rewrite lookup_empty. by intros [].
  - unfold view. rewrite fmap_empty. split; try done.
    + unfold zlen. rewrite length_replicate. lia.
    + intros a. rewrite lookup_empty. by intros [].
    + apply NoDup_nil_2.
    + intros a. split; [by intros ?%not_elem_of_nil|]. by intros (c & n & Hl & _).
    + intros i layer _ Hl. by rewrite Hnone in Hl.
    + split; [constructor|]. intros i. split; [by intros ?%not_elem_of_nil|]. intros [_ Hi].
      destruct (lut cfg); [unfold stocked in Hi|]; rewrite Hnone in Hi; [done|by destruct Hi].
  - by intros x y (? & ? & ? & ?%not_elem_of_nil).
Qed.

Lemma serve_construct qs e :
  unreserved e -> forallb request_ok qs = true -> (length qs <= host_limit)%nat ->
  exists live s, serve qs [] (construct cfg e) = Ok (live, s) /\ accounted s live /\
    (base.size (spans s) <= length qs)%nat.
Proof.
  intros He Hok Hlim. apply run_Ok. eapply run_mono; [apply serve_run; [by apply accounted_construct|done|]|];
    simpl; by rewrite map_size_empty.
Qed.

Lemma serve_accounted qs e live s :
  unreserved e -> forallb request_ok qs = true -> (length qs <= host_limit)%nat ->
  serve qs [] (construct cfg e) = Ok (live, s) ->
  accounted s live /\ (base.size (spans s) <= length qs)%nat.
Proof.
  intros He Hok Hlim E. destruct (serve_construct qs e He Hok Hlim) as (l & s' & E' & Hacc). rewrite E in E'. by injection E' as -> ->.
Qed.

(** The bytes of a span. *)
Lemma span_bytes s ars a p :
  inv0 s ars -> spans s !! a = Some p -> GetSize cfg p = page_len_ p * page.
Proof.
  intros Hi Hp. unfold GetSize, PageSpanOps.GetSize. apply (GetMemSize_eq cfg Hcfg).
  pose proof (tiling_len page (page_pos cfg Hcfg) _ _ ars a (geom p) (inv_tiling _ _ _ _ _ Hi)) as Hl.
  rewrite lookup_fmap, Hp in Hl. specialize (Hl eq_refl). simpl in Hl. lia.
Qed.

(** ** Theorems *)

(** C1: the allocator without a reserved virtual range ([unreserved]) is safe to
    use.  No sequence of allocations, frees and recycles, in any order and of any
    sizes, makes it dereference a null pointer or a span that is not there, link
    a span twice or unlink one that is not linked, as long as the host has room
    for the span objects and keeps the storage of freed ones: the iterator of
    [SpanLayer::Recycle] reads the link of the span it freed last
    ([freed_next], [recycle_reads_freed_span]).  Afterwards the list of occupied
    spans is the list of live blocks, without duplicates, and the bytes of
    different live blocks do not overlap. *)
Theorem scalable_allocator_safe qs e :
  unreserved e -> forallb request_ok qs = true -> (length qs <= host_limit)%nat ->
  exists live s, serve qs [] (construct cfg e) = Ok (live, s) /\
    occupied_spans_ s = live.*1 /\ NoDup live.*1 /\
    forall a b, a ∈ live.*1 -> b ∈ live.*1 -> a <> b -> exists p q,
      spans s !! a = Some p /\ spans s !! b = Some q /\
      (GetAddr p + GetSize cfg p <= GetAddr q \/ GetAddr q + GetSize cfg q <= GetAddr p).
Proof.
  intros He Hok Hlim. destruct (serve_construct qs e He Hok Hlim) as (live & s & E & Hacc & _).
  pose proof Hacc as [[ars Hi] Ho Hlive]. exists live, s. split_and!; try done.
  - rewrite <- Ho. apply (fil_occ_nodup (inv_filing _ _ _ _ _ Hi)).
  - intros a b ([a' n] & -> & Ha)%list_elem_of_fmap ([b' m] & -> & Hb)%list_elem_of_fmap Hne. simpl in *.
    destruct (Hlive _ _ Ha) as (p & Hp & _), (Hlive _ _ Hb) as (q & Hq & _). exists p, q. split_and!; try done.
    rewrite (span_bytes s ars a' p Hi Hp), (span_bytes s ars b' q Hi Hq).
    refine (tiling_apart page (page_pos cfg Hcfg) _ _ _ _ _ a' b' (geom p) (geom q)
      (inv_tiling _ _ _ _ _ Hi) (inv_backed _ _ _ _ _ Hi) Hne _ _); by rewrite lookup_fmap, ?Hp, ?Hq.
Qed.

(** C31: without a reserved virtual range a live block is large enough and in
    bounds.  It has references, it
    covers the bytes asked for and at most one page more, and it lies inside a
    block the device handed out. *)
Theorem scalable_allocator_bounds qs e live s a size :
  unreserved e -> forallb request_ok qs = true -> (length qs <= host_limit)%nat ->
  serve qs [] (construct cfg e) = Ok (live, s) -> (a, size) ∈ live ->
  exists p b base n, spans s !! a = Some p /\ 0 < GetCount p /\
    size <= GetSize cfg p <= size + page /\
    blocks_ (device_ s) !! b = Some (base, n) /\ base <= GetAddr p /\ GetAddr p + GetSize cfg p <= base + n.
Proof.
  intros He Hok Hlim E Hin. destruct (serve_accounted _ _ _ _ He Hok Hlim E) as [Hacc _].
  pose proof Hacc as [[ars Hi] Ho Hlive]. destruct (Hlive a size Hin) as (p & Hp & Hl & _ & Hs).
  assert (Hg : (geom <$> spans s) !! a = Some (geom p)) by (by rewrite lookup_fmap, Hp).
  destruct (tiling_within page (page_pos cfg Hcfg) _ _ _ _ _ a (geom p)
    (inv_tiling _ _ _ _ _ Hi) (inv_backed _ _ _ _ _ Hi) Hg) as (b & base & n & Hb & Hlo & Hhi).
  exists p, b, base, n. rewrite (span_bytes s ars a p Hi Hp). simpl in *.
  pose proof (page_pos cfg Hcfg) as Hpg. destruct (pages_range cfg Hcfg size Hs) as [_ Hfit].
  split_and!; try done; [by eapply accounted_used|by rewrite Hl|]. rewrite Hl. unfold pages.
  pose proof (Z.mul_div_le (size + page - 1) page Hpg).
  destruct (Z.max_spec 1 ((size + page - 1) / page)) as [[_ ->]|[_ ->]]; lia.
Qed.

(** Freed memory is used again.  While an idle span of the length a
    request comes to exists, the request is served with such a span and the
    device is left alone. *)
Theorem scalable_allocator_reuses qs e live s size b p :
  unreserved e -> forallb request_ok qs = true -> (length qs < host_limit)%nat ->
  serve qs [] (construct cfg e) = Ok (live, s) -> 0 <= size <= page_mem_size_total_threshold cfg ->
  spans s !! b = Some p -> GetCount p = 0 -> page_len_ p = pages cfg size ->
  exists a q s', Alloc cfg size s = Ok (Some a, s') /\ spans s !! a = Some q /\ GetCount q = 0 /\
    page_len_ q = pages cfg size /\ device_ s' = device_ s.
Proof.
  intros He Hok Hlim E Hs Hp Hc Hl.
  destruct (serve_accounted _ _ _ _ He Hok ltac:(lia) E) as [[[ars Hi] _ _] Hz].
  destruct (run_Ok _ _ _ (Alloc_run unreserved cfg host_limit Hcfg s ars size Hi ltac:(lia) ltac:(lia))) as (r & s' & E' & Hr).
  rewrite (proj2 (Z.ltb_ge _ _)) in Hr by lia.
  destruct (sv_reuse _ _ _ _ _ _ Hr b) as (a & -> & Ha & Ed); [by rewrite view_lookup, Hp, <- Hc, <- Hl|].
  rewrite view_lookup in Ha. apply fmap_Some in Ha as (q & Hq & [= Hq1 Hq2]). by exists a, q, s'.
Qed.

(** All blocks free: every span is a whole block. *)
Lemma idle_whole s ars a p :
  inv0 s ars -> occupied_spans_ s = [] -> spans s !! a = Some p -> GetCount p = 0 /\ HasSplited p = false.
Proof.
  intros Hi Ho Hp.
  assert (Hall : forall x q, spans s !! x = Some q -> GetCount q = 0).
  { intros x q Hq. pose proof (inv0_count _ _ _ _ _ _ Hi Hq). destruct (decide (GetCount q = 0)); [done|].
    assert (Hx : x ∈ occupied_spans_ s) by (apply (inv0_occupied _ _ _ _ _ Hi); exists q; split; [done|lia]).
    rewrite Ho in Hx. by apply not_elem_of_nil in Hx. }
  split; [by eapply Hall|]. pose proof (inv_tiling _ _ _ _ _ Hi) as Ht.
  destruct (locate _ _ _ _ a Ht) as (A1 & ar & l1 & l2 & A2 & ->); [rewrite lookup_fmap, Hp; by eexists|].
  destruct (inv_chain _ _ _ Hcfg _ _ _ _ _ _ _ _ _ Hi Hp) as (_ & _ & Hprev & Hnext & Hin).
  assert (Hidle : forall x, x ∈ l1 ++ a :: l2 -> idle (view (spans s)) x).
  { intros x Hx. destruct (Hin x Hx) as [q Hq]. exists (page_len_ q).
    by rewrite view_lookup, Hq, <- (Hall x q Hq). }
  assert (Hl2 : l2 = []).
  { destruct l2 as [|c l2]; [done|]. exfalso. apply (inv_maximal _ _ _ _ _ Hi a c); [|apply Hidle; set_solver..].
    exists ar, l1, l2. set_solver. }
  assert (Hl1 : l1 = []).
  { destruct l1 as [|c l0 _] using rev_ind; [done|]. exfalso.
    apply (inv_maximal _ _ _ _ _ Hi c a); [|apply Hidle; set_solver..].
    exists ar, l0, l2. rewrite <- app_assoc. set_solver. }
  subst. unfold HasSplited, IsEmptyBuddy, GetPrevBuddy, GetNextBuddy in *. by rewrite Hprev, Hnext.
Qed.

(** C27: without a reserved virtual range nothing leaks.  Once every block has been freed, one [Recycle] leaves
    no span behind, whatever was split and merged before; and a device that
    takes blocks back has all of them again.  The host keeps the storage of the
    spans freed on the way ([freed_next]). *)
Theorem scalable_allocator_no_leak qs e s :
  unreserved e -> forallb request_ok qs = true -> (length qs <= host_limit)%nat ->
  serve qs [] (construct cfg e) = Ok ([], s) ->
  exists s', Recycle cfg s = Ok (tt, s') /\ spans s' = ∅ /\ (dev_frees -> blocks_ (device_ s') = ∅).
Proof.
  intros He Hok Hlim E. destruct (serve_accounted _ _ _ _ He Hok Hlim E) as [[[ars Hi] Ho _] _].
  destruct (run_Ok _ _ _ (Recycle_run unreserved cfg host_limit Hcfg s ars Hi)) as ([] & s' & E' & [ars' Hi'] & Hr & Hcl).
  exists s'. assert (Hempty : spans s' = ∅).
  { apply map_empty. intros a. destruct (spans s' !! a) as [p|] eqn:Hp; [|done].
    destruct (idle_whole s' ars' a p Hi') as [Hc Hw]; [by rewrite (rc_occ _ _ Hr), Ho|done|].
    specialize (Hcl a p Hp Hc). congruence. }
  split_and!; [done..|]. intros Hf. eapply no_spans_no_blocks; [|apply (inv_backed _ _ _ _ _ Hi')|done].
  pose proof (inv_tiling _ _ _ _ _ Hi') as Ht. rewrite Hempty, fmap_empty in Ht. exact Ht.
Qed.
End client.
