(* ===== verification/MemScalableFinal.v ===== *)
(** * MemScalableFinal: shutting the page span allocator down

    [Finalize] refuses while blocks are in use; otherwise it empties every
    layer, destroys the spans and returns their blocks. *)

From S2P Require Import Prelude MemLink MemSpan MemScalable MemFiling MemTiling MemScalableSound MemScalableAlloc MemScalableRecycle MemScalableClient.

#[local] Set Warnings "-clear-no-such-hyp".

Section final.
Context `{HMB : MemBlockApi} `{HHM : HostMemory} `{HDM : DeviceMem} `{HEA : ExpandableApi} (cfg : ScalableConfig).
Context (unreserved : Expandable -> Prop) (host_limit : nat).
Context `{HML : !MemBlockLaws} `{HHL : !HostMemoryLaws host_limit} `{HDL : !DeviceMemLaws}
  `{HEL : !ExpandableLaws unreserved}.
Hypothesis Hcfg : config_ok cfg.
Import ScalableAllocator.

Abbreviation page := (2 ^ page_idem_num cfg).
Abbreviation cap := (span_layer_capacity_ cfg).
Abbreviation inv0 := (inv0 unreserved cfg).

(** ** While layers are emptied *)

(** The spans left are whole blocks; those of [id] pages are [pend], off
    their layer already, the others are in theirs. *)
Record closing (s : Scalable) (ars : list (arena * list addr)) (id : Z) (pend : list addr) : Prop := {
  cl_tiling : tiling page cap (geom <$> spans s) ars;
  cl_backed : backed page dev_frees ars (blocks_ (device_ s));
  cl_plain : forall a p, spans s !! a = Some p -> new_va_span_ p = false;
  cl_unreserved : unreserved (expandable_ s);
  cl_whole : forall a p, spans s !! a = Some p -> HasSplited p = false;
  cl_pend : forall a, a ∈ pend <-> exists p, spans s !! a = Some p /\ page_len_ p = id;
  cl_layer : forall i layer, 0 <= i -> i <> id -> known_layer (span_layers_ s) i = Some layer ->
    NoDup (free_link_ layer) /\
    forall a, a ∈ free_link_ layer <-> exists p, spans s !! a = Some p /\ page_len_ p = i;
}.

(** A whole span is alone in its block. *)
Lemma closing_arena s ars id pend a p :
  closing s ars id pend -> spans s !! a = Some p ->
  exists A1 ar A2, ars = A1 ++ (ar, [a]) :: A2 /\ block_addr_ p = Some (ar_block ar) /\
    is_Some (blocks_ (device_ s) !! ar_block ar) /\ IsBuddyHeader p = true.
Proof.
  intros Hc Hp. pose proof (cl_whole _ _ _ _ Hc a p Hp) as Hw.
  destruct (whole_span cfg (spans s) ars _ _ a p (cl_tiling _ _ _ _ Hc) (cl_backed _ _ _ _ Hc) Hp Hw)
    as (A1 & ar & A2 & E & Hb & Hd).
  exists A1, ar, A2. split_and!; try done.
  unfold HasSplited, IsEmptyBuddy in Hw. apply negb_false_iff, andb_true_iff in Hw as [Hw _]. exact Hw.
Qed.

Lemma ReleaseSpan_run s ars id a pend :
  closing s ars id (a :: pend) -> a ∉ pend ->
  run (ReleaseSpan cfg a) s (fun _ s' => (exists ars', closing s' ars' id pend) /\
    spans s' = delete a (spans s) /\ span_layers_ s' = span_layers_ s).
Proof.
  intros Hc Hna. assert (Ha : a ∈ a :: pend) by (by left).
  apply (cl_pend _ _ _ _ Hc) in Ha as (p & Hp & Hl).
  destruct (closing_arena _ _ _ _ _ _ Hc Hp) as (A1 & ar & A2 & -> & Hblk & Hdev & Hh).
  unfold ReleaseSpan. apply (run_deref _ p); [done|]. apply run_gets.
  rewrite Hh, (cl_plain _ _ _ _ Hc a p Hp), unreserved_addr by apply (cl_unreserved _ _ _ _ Hc).
  rewrite Hblk. apply run_bind. eapply run_mono; [by apply DevFree_run|].
  intros _ s1 (d & -> & Ed). unfold free_object. apply (run_deref _ p); [done|].
  split_and!; try done. exists (A1 ++ A2). split; simpl.
  - rewrite fmap_delete. eapply tiling_drop; [apply (page_pos cfg Hcfg)|apply (cl_tiling _ _ _ _ Hc)].
  - rewrite Ed. eapply backed_drop; [apply (cl_backed _ _ _ _ Hc)|]. intros Hf. apply Hf.
  - intros x q [_ Hx]%lookup_delete_Some. by apply (cl_plain _ _ _ _ Hc x).
  - apply (cl_unreserved _ _ _ _ Hc).
  - intros x q [_ Hx]%lookup_delete_Some. by apply (cl_whole _ _ _ _ Hc x).
  - intros x. setoid_rewrite lookup_delete_Some.
    pose proof (cl_pend _ _ _ _ Hc x) as Hx. rewrite elem_of_cons in Hx. split.
    + intros Hin. destruct (proj1 Hx (or_intror Hin)) as (q & ? & ?). exists q. split_and!; try done.
      intros ->. done.
    + intros (q & [Hne Hq] & Hlq). destruct (proj2 Hx) as [->|]; [by exists q|done..].
  - intros i layer Hi Hne Hk. destruct (cl_layer _ _ _ _ Hc i layer Hi Hne Hk) as [Hnd Hin]. split; [done|].
    intros x. rewrite Hin. setoid_rewrite lookup_delete_Some. split.
    + intros (q & Hq & Hlq). exists q. split_and!; try done. intros ->. simplify_eq.
    + intros (q & [_ Hq] & Hlq). by exists q.
Qed.

Lemma release_spans_run l s ars id :
  closing s ars id l -> NoDup l ->
  run (release_spans cfg l) s (fun _ s' => (exists ars', closing s' ars' id []) /\
    spans s' ⊆ spans s /\ span_layers_ s' = span_layers_ s).
Proof.
  revert s ars. induction l as [|a l IH]; intros s ars Hc Hnd; simpl.
  { split_and!; try done. by exists ars. }
  apply NoDup_cons in Hnd as [Hna Hnd]. apply run_bind.
  eapply run_mono; [by apply (ReleaseSpan_run s ars id a l)|].
  intros _ s1 ([ars1 Hc1] & Hsp & Hls). eapply run_mono; [by apply (IH s1 ars1)|].
  intros _ s2 (Hc2 & Hsub & Hls2). split_and!; [done| |congruence].
  rewrite Hsp in Hsub. etrans; [exact Hsub|]. apply delete_subseteq.
Qed.

(** Between layers. *)
Definition between s ars : Prop := closing s ars (-1) [].

Lemma LayerRelease_run s ars id :
  between s ars -> 0 <= id -> is_Some (known_layer (span_layers_ s) id) ->
  run (LayerRelease cfg (Plain id)) s (fun _ s' => (exists ars', between s' ars') /\ spans s' ⊆ spans s /\
    (forall a p, spans s' !! a = Some p -> page_len_ p <> id) /\
    forall i, 0 <= i -> is_Some (known_layer (span_layers_ s') i) <-> is_Some (known_layer (span_layers_ s) i)).
Proof.
  intros Hc Hid [layer Hl]. pose proof (known_range _ _ _ Hid Hl) as Hr.
  destruct (cl_layer _ _ _ _ Hc id layer Hid ltac:(lia) Hl) as [Hnd Hin].
  unfold LayerRelease. apply (run_deref_layer _ layer); [done..|]. apply run_modify.
  eapply run_mono; [apply (release_spans_run (free_link_ layer) _ ars id); [|done]|].
  - destruct Hc as [H1 H2 H3 H4 H5 H6 H7]. split; simpl; try done.
    intros i ly Hi Hne. rewrite known_insert by done. rewrite decide_False by congruence.
    apply H7; [done|lia].
  - simpl. intros _ s' ([ars' Hc'] & Hsub & Hls).
    assert (Hgone : forall a p, spans s' !! a = Some p -> page_len_ p <> id).
    { intros a p Hp E. assert (Ha : a ∈ @nil addr) by (apply (cl_pend _ _ _ _ Hc'); by exists p).
      by apply not_elem_of_nil in Ha. }
    split_and!; try done.
    + exists ars'. pose proof Hc' as [H1 H2 H3 H4 H5 H6 H7]. split; try done.
      * intros a. split; [by intros ?%not_elem_of_nil|]. intros (p & Hp & E). exfalso.
        pose proof (tiling_len page (page_pos cfg Hcfg) _ _ _ a (geom p) H1) as Hlen.
        rewrite lookup_fmap, Hp in Hlen. specialize (Hlen eq_refl). simpl in Hlen. lia.
      * intros i ly Hi _ Hk. destruct (decide (i = id)) as [->|Hne]; [|by apply H7].
        rewrite Hls, known_insert, decide_True in Hk by done. injection Hk as <-. simpl.
        split; [apply NoDup_nil_2|]. intros a. split; [by intros ?%not_elem_of_nil|].
        intros (p & Hp & E). by apply Hgone in Hp.
    + intros i Hi. rewrite Hls, known_insert by done. case_decide; [|done]. subst i. rewrite Hl. split; by eexists.
Qed.

Lemma release_layers_run it s ars :
  between s ars -> (forall i, i ∈ it -> 0 <= i) ->
  run (for_known (LayerRelease cfg) it) s (fun _ s' => (exists ars', between s' ars') /\ spans s' ⊆ spans s /\
    forall a p, spans s' !! a = Some p -> page_len_ p ∈ it -> ~ is_Some (known_layer (span_layers_ s) (page_len_ p))).
Proof.
  revert s ars. induction it as [|id it IH]; intros s ars Hc Hpos; simpl.
  { split_and!; try done; [by exists ars|]. by intros a p _ ?%not_elem_of_nil. }
  assert (Hid : 0 <= id) by (apply Hpos; by left).
  assert (Hpos' : forall i, i ∈ it -> 0 <= i) by (intros i Hi; apply Hpos; by right).
  apply run_gets. destruct (known_layer (span_layers_ s) id) as [layer|] eqn:El; apply run_bind.
  - eapply run_mono; [apply (LayerRelease_run s ars id Hc Hid); by rewrite El|].
    intros _ s1 ([ars1 Hc1] & Hsub & Hgone & Hkn). eapply run_mono; [by apply (IH s1 ars1)|].
    intros _ s2 (Hc2 & Hsub2 & Hdone). split_and!; [done|by etrans|].
    intros a p Hp [E|Hin]%elem_of_cons Hk.
    + apply (Hgone a p); [|done]. by eapply lookup_weaken.
    + apply (Hdone a p Hp Hin), Hkn; [by apply Hpos'|done].
  - apply run_ret. eapply run_mono; [by apply (IH s ars)|]. intros _ s2 (Hc2 & Hsub2 & Hdone).
    split_and!; try done. intros a p Hp [->|Hin]%elem_of_cons; [rewrite El; by intros []|by apply (Hdone a)].
Qed.

Lemma between_start s ars :
  inv0 s ars -> occupied_spans_ s = [] -> between s ars.
Proof.
  intros Hi Ho. pose proof (fun a p => idle_whole cfg unreserved host_limit Hcfg s ars a p Hi Ho) as Hw.
  split.
  - apply (inv_tiling _ _ _ _ _ Hi).
  - apply (inv_backed _ _ _ _ _ Hi).
  - intros a p Hp. by apply (inv_plain _ _ _ _ _ Hi a).
  - apply (inv_unreserved _ _ _ _ _ Hi).
  - intros a p Hp. by apply (Hw a p).
  - intros a. split; [by intros ?%not_elem_of_nil|]. intros (p & Hp & E). exfalso.
    pose proof (tiling_len page (page_pos cfg Hcfg) _ _ _ a (geom p) (inv_tiling _ _ _ _ _ Hi)) as Hlen.
    rewrite lookup_fmap, Hp in Hlen. specialize (Hlen eq_refl). simpl in Hlen. lia.
  - intros i layer Hi0 _ Hk. destruct (fil_layer (inv_filing _ _ _ _ _ Hi) i layer Hi0 Hk) as (_ & Hnd & Hin).
    split; [done|]. intros a. rewrite Hin, view_lookup. split.
    + intros (p & Hp & [= _ ->])%fmap_Some. by exists p.
    + intros (p & Hp & <-). destruct (Hw a p Hp) as [<- _]. by rewrite Hp.
Qed.

(** Every length a span has is visited. *)
Lemma LutRelease_run s ars s1 :
  inv0 s ars -> occupied_spans_ s = [] -> spans s1 = spans s -> device_ s1 = device_ s ->
  expandable_ s1 = expandable_ s -> span_layers_ s1 = span_layers_ s -> span_layer_ids_ s1 = span_layer_ids_ s ->
  run (LutRelease cfg) s1 (fun _ s' => spans s' = ∅ /\ (dev_frees -> blocks_ (device_ s') = ∅)).
Proof.
  intros Hi Ho E1 E2 E3 E4 E5. destruct (fil_lut (inv_filing _ _ _ _ _ Hi)) as [_ Hids].
  assert (Hb : between s1 ars).
  { destruct (between_start s ars Hi Ho) as [H1 H2 H3 H4 H5 H6 H7].
    split; rewrite ?E1, ?E2, ?E3, ?E4; done. }
  assert (Hvis : forall a p, spans s1 !! a = Some p -> 0 <= page_len_ p < cap /\
    is_Some (known_layer (span_layers_ s1) (page_len_ p))).
  { intros a p Hp. rewrite E1 in Hp. rewrite E4.
    destruct (idle_whole cfg unreserved host_limit Hcfg s ars a p Hi Ho Hp) as [Hc _].
    assert (Hv : view (spans s) !! a = Some (0, page_len_ p)) by (by rewrite view_lookup, Hp, <- Hc).
    split; [apply (fil_range (inv_filing _ _ _ _ _ Hi) _ _ _ Hv)|apply (fil_idle (inv_filing _ _ _ _ _ Hi) _ _ Hv)]. }
  assert (Hend : forall (it : list Z) s', (exists ars', between s' ars') -> spans s' ⊆ spans s1 ->
    (forall a p, spans s' !! a = Some p -> page_len_ p ∈ it -> ~ is_Some (known_layer (span_layers_ s1) (page_len_ p))) ->
    (forall a p, spans s1 !! a = Some p -> page_len_ p ∈ it) ->
    spans s' = ∅ /\ (dev_frees -> blocks_ (device_ s') = ∅)).
  { intros it s' [ars' Hb'] Hsub Hdone Hit. assert (Hempty : spans s' = ∅).
    { apply map_empty. intros a. destruct (spans s' !! a) as [p|] eqn:Hp; [|done]. exfalso.
      pose proof (lookup_weaken _ _ _ _ Hp Hsub) as Hp1.
      apply (Hdone a p Hp (Hit a p Hp1)), (Hvis a p Hp1). }
    split; [done|]. intros Hf. eapply no_spans_no_blocks; [|apply (cl_backed _ _ _ _ Hb')|done].
    pose proof (cl_tiling _ _ _ _ Hb') as Ht. rewrite Hempty, fmap_empty in Ht. exact Ht. }
  unfold LutRelease. destruct (lut cfg) eqn:El.
  - apply run_gets, run_bind.
    eapply run_mono; [apply (release_layers_run (seqZ 0 (zlen (span_layers_ s1))) s1 ars Hb)|].
    { intros i Hi0%elem_of_seqZ. lia. }
    intros _ s' (Hb' & Hsub & Hdone). unfold run, modify. simpl.
    eapply (Hend _ s' Hb' Hsub Hdone). intros a p Hp. destruct (Hvis a p Hp) as [Hr _].
    apply elem_of_seqZ. rewrite E4, (fil_len (inv_filing _ _ _ _ _ Hi)). lia.
  - apply run_gets. eapply run_mono; [apply (release_layers_run _ s1 ars Hb)|].
    { intros i Hi0. rewrite E5 in Hi0. by apply Hids in Hi0 as [? _]. }
    intros _ s' (Hb' & Hsub & Hdone). eapply (Hend _ s' Hb' Hsub Hdone). intros a p Hp.
    destruct (Hvis a p Hp) as [Hr Hk]. rewrite E5. apply Hids. split; [lia|]. by rewrite <- E4.
Qed.

(** Shutting down.  [Finalize] fails and changes nothing exactly when
    blocks are still in use; otherwise it succeeds, no span object survives,
    and a device that takes blocks back has all of them again. *)
Theorem scalable_allocator_finalize qs e live s :
  unreserved e -> forallb request_ok qs = true -> (length qs <= host_limit)%nat ->
  serve cfg qs [] (construct cfg e) = Ok (live, s) ->
  exists s', Finalize cfg s = Ok (if bool_decide (live = []) then SUCCESS else FAILED, s') /\
    if bool_decide (live = []) then spans s' = ∅ /\ (dev_frees -> blocks_ (device_ s') = ∅) else s' = s.
Proof.
  intros He Hok Hlim E.
  destruct (serve_accounted cfg unreserved host_limit Hcfg _ _ _ _ He Hok Hlim E) as [[[ars Hi] Ho _] _].
  case_bool_decide as Hlive.
  - subst live. simpl in Ho.
    assert (Hrun : run (Finalize cfg) s (fun r s' => r = SUCCESS /\ spans s' = ∅ /\ (dev_frees -> blocks_ (device_ s') = ∅))).
    { unfold Finalize. apply run_gets. rewrite Ho. simpl. apply run_gets.
      destruct (inv_new_va _ _ _ _ _ Hi) as [_ Hv]. rewrite Hv. simpl. apply run_bind, run_ret.
      apply run_modify, run_gets. simpl. rewrite (layers_nonempty _ _ _ _ _ Hi) by apply (cap_range cfg Hcfg).
      apply run_modify. apply run_bind. eapply run_mono; [by apply (LutRelease_run s ars)|].
      intros _ s' [Hs Hb]. apply run_modify, run_modify, run_ret. done. }
    destruct (run_Ok _ _ _ Hrun) as (r & s' & E' & -> & Hs). by exists s'.
  - exists s. split; [|done]. unfold Finalize.
    assert (Hocc : occupied_spans_ s <> []) by (rewrite Ho; by destruct live).
    unfold mbind, M_bind, gets. simpl. rewrite bool_decide_eq_false_2 by done. done.
Qed.
End final.

(** * The page span allocator on concrete machines

    A host with room for sixty-four span objects, a device of 512 bytes handed
    out from the bottom up, and no reserved virtual range.  The theorems about
    the allocator are applied to runs on it; two further machines show what
    happens at the edges. *)

Module RunsScalable.
Import ScalableAllocator.

(** ** The machine *)

Definition mb : MemBlockApi := {| initial_count := 1; AddCount n := n + 1; SubCount n := n - 1 |}.

Definition places : list addr := Pos.of_succ_nat <$> seq 0 64.
Definition hm : HostMemory := {|
  span_new h := head (filter (fun a => h !! a = None) places);
  layer_new _ := true;
  freed_next _ _ := Ok None;
|}.

Definition top (m : device_blocks) : Z :=
  foldr (fun x acc => Z.max (x.2.1 + x.2.2) acc) 4096 (map_to_list m).
Definition dm : DeviceMem := {|
  dev_alloc m n := if top m + n <=? 4096 + 512 then Some (fresh (dom m), top m) else None;
  dev_free _ _ := true;
|}.

Definition ex : ExpandableApi := {|
  Expandable := unit;
  IsValidVirtualAddr _ _ := false;
  MallocPhysicalMemory _ _ e := (RET_SUCCESS, 0, e);
  MallocPhysicalMemoryPa _ _ _ e := (RET_SUCCESS, e);
  FreePhysicalMemory _ _ _ _ e := e;
  FreePhysicalMemoryPa _ _ _ _ e := e;
  GetPaList _ := [];
  ReserveMemAddress _ e := (None, e);
  ReleaseMemAddress _ _ e := e;
  ReserveVirtualMemory n e := (None, n, e);
  ReleaseVirtualMemory e := e;
  ActiveMemorySize _ := 0;
  SetTheorySize _ e := e;
  SetTheoryMinSize _ e := e;
|}.

#[local] Existing Instances mb hm dm ex.

Definition cfg : ScalableConfig := {|
  page_idem_num := 4; page_mem_size_total_threshold := 512; span_count_in_layer_threshold := 100;
  span_layer_lift_max := 2 ^ 32 - 1; uncacheable_size_threshold := 256; enable_quick_layer_mode := true;
|}.

Definition never (e : @Expandable ex) : Prop := True.

#[local] Instance mb_laws : MemBlockLaws.
Proof. split; simpl; [lia..|]. intros n Hn. lia. Qed.

Lemma places_range a : a ∈ places -> Z.pos a < 2 ^ 64.
Proof.
  unfold places. intros (n & -> & [_ Hn]%elem_of_seq)%list_elem_of_fmap. lia.
Qed.

Lemma places_room (h : span_heap) : (size h < 64)%nat -> filter (fun a => h !! a = None) places <> [].
Proof.
  intros Hs E. assert (Hsub : places ⊆+ elements (dom h)).
  { apply NoDup_submseteq; [apply (NoDup_fmap_2 _), NoDup_seq|]. intros a Ha. apply elem_of_elements, elem_of_dom.
    destruct (h !! a) eqn:El; [by eexists|]. exfalso.
    assert (Hin : a ∈ filter (fun a => h !! a = None) places) by (by apply list_elem_of_filter).
    rewrite E in Hin. by apply not_elem_of_nil in Hin. }
  apply submseteq_length in Hsub. rewrite <- size_dom in Hs. unfold size, set_size in Hs. simpl in Hs.
  change (length places) with 64%nat in Hsub. lia.
Qed.

#[local] Instance hm_laws : HostMemoryLaws 64.
Proof.
  split; simpl; [| |done|].
  - intros h a Ha. assert (Hin : a ∈ filter (fun a => h !! a = None) places).
    { destruct (filter _ _); [done|]. injection Ha as ->. by left. }
    apply list_elem_of_filter in Hin as [H1 H2]. split; [done|by apply places_range].
  - intros h Hh%places_room. destruct (filter _ _); [done|by eexists].
  - intros _ _ _ _. by exists None.
Qed.

Lemma top_above (m : device_blocks) b a n : m !! b = Some (a, n) -> a + n <= top m.
Proof.
  intros Hb%elem_of_map_to_list. unfold top. induction (map_to_list m) as [|x l IH]; [by apply not_elem_of_nil in Hb|].
  apply elem_of_cons in Hb as [<-|Hb]; simpl; [lia|]. specialize (IH Hb). lia.
Qed.

#[local] Instance dm_laws : DeviceMemLaws.
Proof.
  split. simpl. intros m n b a. destruct (_ <=? _); [|done]. intros [= <- <-]. split.
  - apply not_elem_of_dom, is_fresh.
  - intros b' a' n' Hb. right. by eapply top_above.
Qed.

#[local] Instance ex_laws : ExpandableLaws never.
Proof. by split. Qed.

Lemma cfg_is_ok : config_ok cfg.
Proof. split; vm_compute; (done || (split; done)). Qed.

Lemma never_tt : never tt.
Proof. exact I. Qed.

(** Blocks are split, merged, reused and recycled. *)
Definition busy : list request :=
  [CAlloc 100; CAlloc 20; CFree 1; CAlloc 10; CAlloc 30; CFree 2; CRecycle; CAlloc 600; CAlloc 400].
Definition drained : list request := busy ++ [CFree 0; CFree 0; CFree 0; CFree 0].

(** Where a run ends. *)
Definition final_of (qs : list request) : list (addr * Z) * Scalable :=
  match serve cfg qs [] (construct cfg tt) with Ok r => r | _ => ([], construct cfg tt) end.

Example busy_live : (final_of busy).1 = [(2%positive, 400); (4%positive, 30); (3%positive, 10)].
Proof. vm_compute. reflexivity. Qed.

(** Four layers, two of them stocked. *)
Definition shelves : span_layers :=
  let layer n l := Some {| layer_id_ := n; span_capacity_ := 10; free_link_ := l |} in
  [None; layer 1 [5%positive]; layer 2 []; layer 3 [7%positive; 9%positive]].

Lemma shelves_stocked i : 0 <= i -> stocked shelves i = true -> i = 1 \/ i = 3.
Proof.
  intros Hi Hs. pose proof (known_bound shelves i Hi (stocked_known _ _ Hs)) as Hb. change (zlen shelves) with 4 in Hb.
  assert (i = 0 \/ i = 1 \/ i = 2 \/ i = 3) as [-> |[-> |[-> | ->]]] by lia; vm_compute in Hs; auto; discriminate.
Qed.

Lemma lut_finds_best_fit_run :
  lut_ok QuickLut shelves [1; 3] /\ Lut.FindFitLayerId QuickLut shelves [1; 3] 2 5 = best_fit shelves 2 /\
  best_fit shelves 2 = 3.
Proof.
  assert (Hok : lut_ok QuickLut shelves [1; 3]).
  { split; [repeat constructor|]. intros i. split.
    - intros [-> |[-> |[]%not_elem_of_nil]%elem_of_cons]%elem_of_cons; vm_compute; split; done.
    - intros [Hi Hs]. destruct (shelves_stocked i Hi Hs) as [-> | ->]; set_solver. }
  assert (Hz : sizes_ok shelves).
  { intros i layer Hl. unfold known_layer in Hl.
    destruct (Z.to_nat i) as [|[|[|[|n]]]]; simpl in Hl; try discriminate Hl; injection Hl as <-; vm_compute; reflexivity. }
  split; [exact Hok|]. split; [|vm_compute; reflexivity].
  apply (lut_finds_best_fit QuickLut shelves [1; 3] 2 5 Hok Hz); [lia|lia|vm_compute; discriminate].
Defined.

Lemma scalable_allocator_safe_run :
  exists live s, serve cfg busy [] (construct cfg tt) = Ok (live, s) /\
    occupied_spans_ s = live.*1 /\ NoDup live.*1.
Proof.
  destruct (scalable_allocator_safe cfg never 64 cfg_is_ok busy tt never_tt) as (live & s & E & Ho & Hn & _);
    [vm_compute; reflexivity|vm_compute; lia|].
  exists live, s. split; [exact E|]. split; [exact Ho|exact Hn].
Defined.

Lemma scalable_allocator_bounds_run :
  exists p b base n, spans (final_of busy).2 !! 4%positive = Some p /\ 30 <= GetSize cfg p <= 46 /\
    blocks_ (device_ (final_of busy).2) !! b = Some (base, n) /\
    base <= GetAddr p /\ GetAddr p + GetSize cfg p <= base + n.
Proof.
  destruct (scalable_allocator_bounds cfg never 64 cfg_is_ok busy tt (final_of busy).1 (final_of busy).2 4%positive 30 never_tt)
    as (p & b & base & n & Hp & _ & Hs & Hb & Hlo & Hhi);
    [vm_compute; reflexivity|vm_compute; lia|vm_compute; reflexivity|vm_compute; by right; left|].
  exists p, b, base, n. split; [exact Hp|]. split; [exact Hs|]. split; [exact Hb|]. split; [exact Hlo|exact Hhi].
Defined.

(** A request of four pages gets the four idle pages in front of block 4. *)
Lemma scalable_allocator_reuses_run :
  exists a q s', Alloc cfg 50 (final_of busy).2 = Ok (Some a, s') /\
    spans (final_of busy).2 !! a = Some q /\ page_len_ q = 4 /\ device_ s' = device_ (final_of busy).2.
Proof.
  destruct (spans (final_of busy).2 !! 1%positive) as [p|] eqn:Hp; [|vm_compute in Hp; discriminate Hp].
  destruct (scalable_allocator_reuses cfg never 64 cfg_is_ok busy tt (final_of busy).1 (final_of busy).2 50 1%positive p never_tt)
    as (a & q & s' & E & Hq & _ & Hl & Hd);
    [vm_compute; reflexivity|vm_compute; lia|vm_compute; reflexivity|vm_compute; split; discriminate|exact Hp| | |].
  - vm_compute in Hp. injection Hp as <-. reflexivity.
  - vm_compute in Hp. injection Hp as <-. reflexivity.
  - exists a, q, s'. split; [exact E|]. split; [exact Hq|]. split; [|exact Hd]. rewrite Hl. vm_compute. reflexivity.
Defined.

Lemma scalable_allocator_no_leak_run :
  exists s', Recycle cfg (final_of drained).2 = Ok (tt, s') /\ spans s' = ∅ /\ blocks_ (device_ s') = ∅.
Proof.
  destruct (scalable_allocator_no_leak cfg never 64 cfg_is_ok drained tt (final_of drained).2 never_tt)
    as (s' & E & Hs & Hb); [vm_compute; reflexivity|vm_compute; lia|vm_compute; reflexivity|].
  exists s'. split; [exact E|]. split; [exact Hs|]. apply Hb. intros m b. reflexivity.
Defined.

Lemma scalable_allocator_finalize_run :
  (exists s', Finalize cfg (final_of drained).2 = Ok (SUCCESS, s') /\ spans s' = ∅) /\
  Finalize cfg (final_of busy).2 = Ok (FAILED, (final_of busy).2).
Proof.
  split.
  - destruct (scalable_allocator_finalize cfg never 64 cfg_is_ok drained tt [] (final_of drained).2 never_tt)
      as (s' & E & Hs & _); [vm_compute; reflexivity|vm_compute; lia|vm_compute; reflexivity|].
    exists s'. split; [exact E|exact Hs].
  - destruct (scalable_allocator_finalize cfg never 64 cfg_is_ok busy tt (final_of busy).1 (final_of busy).2 never_tt)
      as (s' & E & Hs); [vm_compute; reflexivity|vm_compute; lia|vm_compute; reflexivity|].
    rewrite busy_live in E, Hs. simpl in E, Hs. rewrite E, Hs. reflexivity.
Defined.
End RunsScalable.

(** ** At the edges *)

Module RunsEdges.
Import RunsScalable ScalableAllocator.
#[local] Existing Instances mb hm dm.

(** Physical pages that are always in use. *)
Definition in_use : ExpandableApi := {|
  Expandable := unit;
  IsValidVirtualAddr _ _ := false;
  MallocPhysicalMemory _ _ e := (PHYSICAL_MEM_USING, 0, e);
  MallocPhysicalMemoryPa _ _ _ e := (RET_SUCCESS, e);
  FreePhysicalMemory _ _ _ _ e := e;
  FreePhysicalMemoryPa _ _ _ _ e := e;
  GetPaList _ := [];
  ReserveMemAddress _ e := (None, e);
  ReleaseMemAddress _ _ e := e;
  ReserveVirtualMemory n e := (None, n, e);
  ReleaseVirtualMemory e := e;
  ActiveMemorySize _ := 0;
  SetTheorySize _ e := e;
  SetTheoryMinSize _ e := e;
|}.

(** When the tries of [Alloc]'s loop run out, the span it goes on to return is
    also the last of those it frees first. *)
Example exhausted_tries_free_the_result :
  let m := ('(span, tried) ← @alloc_loop mb hm dm in_use cfg 3 10 None [];
            _ ← @free_all mb hm in_use cfg tried;
            occupied ← gets occupied_spans_;
            mret (span, tried, occupied)) : @M in_use _ in
  ('(r, _) ← m (@construct in_use cfg tt); Ok r) = Ok (Some 3, [1; 2; 3], [])%positive.
Proof. vm_compute. reflexivity. Qed.

(** A fixed-size allocator that recycles before its first allocation loses its
    arena: the same request is served without [Recycle] and refused after it. *)
Definition no_device : DeviceMem := {| dev_alloc _ _ := None; dev_free _ _ := true |}.

Example recycle_loses_fixed_arena :
  let init := @InitFixSizedAllocator mb hm ex cfg 4096 256 in
  let ask := @Alloc mb hm no_device ex cfg 32 in
  ('(r, _) ← (_ ← init; ask : @M ex _) (@construct ex cfg tt); Ok r) = Ok (Some 2%positive) /\
  ('(r, _) ← (_ ← init; _ ← @Recycle hm no_device ex cfg; ask : @M ex _) (@construct ex cfg tt); Ok r) = Ok None.
Proof. vm_compute. split; reflexivity. Qed.
(** A host that does not keep the storage of freed spans.  When a layer is
    emptied, the iterator of [SpanLayer::Recycle] reads the link of the span
    freed last: what it reads is not used, but the storage has to be there. *)
Definition forgetful : HostMemory := {| span_new := @span_new hm; layer_new := @layer_new hm; freed_next _ _ := Fault |}.

Example recycle_reads_freed_span :
  let use host := (b ← @Alloc mb host dm ex cfg 32; _ ← @Free mb host ex cfg b; @Recycle host dm ex cfg : @M ex _) in
  ('(r, s) ← use hm (@construct ex cfg tt); Ok (map_to_list (spans s))) = Ok [] /\
  ('(r, s) ← use forgetful (@construct ex cfg tt); Ok (map_to_list (spans s))) = Fault.
Proof. vm_compute. split; reflexivity. Qed.
End RunsEdges.
