(* ===== verification/ExecMpmc.v ===== *)
(** * ExecMpmc: the bounded queue of the task workers

    [runtime/v2/core/executor/multi_thread_topological/executor/schedule/queue/
    lock_free/mpmc_queue.h]: producers and consumers claim tickets by
    compare-and-swap on [tail_] and [head_]; each cell carries a sequence
    number that says whose turn it is.

    A thread inside [Push] or [Pop] is where it stands in the code.  A step is
    one access to memory that other threads see; a schedule says which thread
    moves, and whether its weak compare-and-swap fails for no reason.  Steps
    are interleaved: the sequence number orders the accesses to a cell, and
    its acquire loads and release stores are what the code relies on for
    that. *)

From S2P Require Import Prelude.

#[local] Set Warnings "-clear-no-such-hyp".

Section mpmc.
Context {T : Type}.

(** ** The queue *)

Record Item := MkItem { seq_ : Z; data_ : T }.
Record MpmcQueue := MkQueue { size_ : Z; mask_ : Z; items_ : list Item; head_ : Z; tail_ : Z }.

(** The constructor; [junk] is what a new cell holds. *)
Definition MpmcQueue_new (sizeLog2 : Z) (junk : T) : MpmcQueue :=
  let size := uwrap 32 (Z.shiftl 1 sizeLog2) in
  MkQueue size (uwrap 32 (size - 1)) ((fun i => MkItem i junk) <$> seqZ 0 size) 0 0.

Definition item_at (q : MpmcQueue) (pos : Z) : outcome Item :=
  at_ (items_ q) (Z.to_nat (Z.land pos (mask_ q))).
Definition set_item (q : MpmcQueue) (pos : Z) (it : Item) : MpmcQueue :=
  MkQueue (size_ q) (mask_ q) (<[Z.to_nat (Z.land pos (mask_ q)) := it]> (items_ q)) (head_ q) (tail_ q).
Definition set_tail (q : MpmcQueue) (t : Z) : MpmcQueue :=
  MkQueue (size_ q) (mask_ q) (items_ q) (head_ q) t.
Definition set_head (q : MpmcQueue) (h : Z) : MpmcQueue :=
  MkQueue (size_ q) (mask_ q) (items_ q) h (tail_ q).

Definition GetSize (q : MpmcQueue) : Z := uwrap 32 (tail_ q - head_ q).
Definition GetCapacity (q : MpmcQueue) : Z := size_ q.
Definition IsEmpty (q : MpmcQueue) : bool := head_ q =? tail_ q.
Definition IsFull (q : MpmcQueue) : bool := GetCapacity q <=? GetSize q.

(** ** Push and Pop, one access at a time *)

(** [PushLoad] and [PopLoad] are the loads of [tail_] and [head_] before the
    loop and in it. *)
Inductive PushPc :=
  | PushLoad
  | PushSeq (pos : Z)
  | PushCas (pos : Z)
  | PushWrite (pos : Z)
  | PushPublish (pos : Z).
Inductive PopPc :=
  | PopLoad
  | PopSeq (pos : Z)
  | PopCas (pos : Z)
  | PopRead (pos : Z)
  | PopRelease (pos : Z) (v : T).

(** What an observer sees: tickets claimed, cells published, and returns.
    [Pub] is [Push] returning true, [PushFull] false; [Ret] is [Pop] returning
    true, [PopEmpty] false. *)
Inductive event :=
  | Enq (x : T)
  | Pub (pos : Z)
  | PushFull
  | Deq (pos : Z)
  | Ret (pos : Z) (v : T)
  | PopEmpty.

(** The next place in the code, [None] after a return. *)
Definition Push_step (flaky : bool) (x : T) (pc : PushPc) (q : MpmcQueue)
    : outcome (option PushPc * MpmcQueue * option event) :=
  match pc with
  | PushLoad => Ok (Some (PushSeq (tail_ q)), q, None)
  | PushSeq pos =>
    item ← item_at q pos;
    let diff := seq_ item - pos in
    if diff =? 0 then Ok (Some (PushCas pos), q, None)
    else if diff <? 0 then Ok (None, q, Some PushFull)
    else Ok (Some PushLoad, q, None)
  | PushCas pos =>
    if negb flaky && (tail_ q =? pos)
    then Ok (Some (PushWrite pos), set_tail q (uwrap 32 (pos + 1)), Some (Enq x))
    else Ok (Some (PushSeq (tail_ q)), q, None)
  | PushWrite pos =>
    item ← item_at q pos;
    Ok (Some (PushPublish pos), set_item q pos (MkItem (seq_ item) x), None)
  | PushPublish pos =>
    item ← item_at q pos;
    Ok (None, set_item q pos (MkItem (uwrap 32 (pos + 1)) (data_ item)), Some (Pub pos))
  end.

Definition Pop_step (flaky : bool) (pc : PopPc) (q : MpmcQueue)
    : outcome (option PopPc * MpmcQueue * option event) :=
  match pc with
  | PopLoad => Ok (Some (PopSeq (head_ q)), q, None)
  | PopSeq pos =>
    item ← item_at q pos;
    let diff := seq_ item - uwrap 32 (pos + 1) in
    if diff =? 0 then Ok (Some (PopCas pos), q, None)
    else if diff <? 0 then Ok (None, q, Some PopEmpty)
    else Ok (Some PopLoad, q, None)
  | PopCas pos =>
    if negb flaky && (head_ q =? pos)
    then Ok (Some (PopRead pos), set_head q (uwrap 32 (pos + 1)), Some (Deq pos))
    else Ok (Some (PopSeq (head_ q)), q, None)
  | PopRead pos =>
    item ← item_at q pos;
    Ok (Some (PopRelease pos (data_ item)), q, None)
  | PopRelease pos v =>
    item ← item_at q pos;
    Ok (None, set_item q pos (MkItem (uwrap 32 (pos + mask_ q + 1)) (data_ item)), Some (Ret pos v))
  end.

(** ** Threads *)

(** A thread inside a call. *)
Inductive Pc := InPush (x : T) (pc : PushPc) | InPop (pc : PopPc).

Definition step (flaky : bool) (pc : Pc) (q : MpmcQueue) : outcome (option Pc * MpmcQueue * option event) :=
  match pc with
  | InPush x pc => r ← Push_step flaky x pc q; Ok (option_map (InPush x) r.1.1, r.1.2, r.2)
  | InPop pc => r ← Pop_step flaky pc q; Ok (option_map InPop r.1.1, r.1.2, r.2)
  end.

Record config := MkConfig { queue : MpmcQueue; threads : gmap nat Pc }.

(** [Call t (Some x)] enters [Push], [Call t None] enters [Pop]. *)
Inductive action := Call (t : nat) (arg : option T) | Run (t : nat) (flaky : bool).

Definition entry (arg : option T) : Pc :=
  match arg with Some x => InPush x PushLoad | None => InPop PopLoad end.

Definition resume (t : nat) (pc : option Pc) (ts : gmap nat Pc) : gmap nat Pc :=
  match pc with Some pc => <[t := pc]> ts | None => delete t ts end.

(** A thread inside a call cannot start another, one outside has nothing to
    run. *)
Definition act (a : action) (c : config) : outcome (option event * config) :=
  match a with
  | Call t arg =>
    match threads c !! t with
    | Some _ => Ok (None, c)
    | None => Ok (None, MkConfig (queue c) (<[t := entry arg]> (threads c)))
    end
  | Run t flaky =>
    match threads c !! t with
    | None => Ok (None, c)
    | Some pc => r ← step flaky pc (queue c); Ok (r.2, MkConfig r.1.2 (resume t r.1.1 (threads c)))
    end
  end.

Fixpoint run (acts : list action) (c : config) : outcome (list event * config) :=
  match acts with
  | [] => Ok ([], c)
  | a :: acts =>
    '(e, c) ← act a c;
    '(es, c) ← run acts c;
    Ok (match e with Some e => e :: es | None => es end, c)
  end.

Definition start (sizeLog2 : Z) (junk : T) : config := MkConfig (MpmcQueue_new sizeLog2 junk) ∅.

(** ** What the queue promises *)

(** Values wait in the order of their tickets; [writing] are tickets whose
    value is not published yet, [out] the values consumers have claimed. *)
Record Fifo := MkFifo { waiting : list T; deqs : Z; writing : gset Z; out : gmap Z T }.
Definition enqs (f : Fifo) : Z := deqs f + zlen (waiting f).

Inductive fifo (cap : Z) (f : Fifo) : event -> Fifo -> Prop :=
  | fifo_enq x :
      zlen (waiting f) < cap ->
      fifo cap f (Enq x) (MkFifo (waiting f ++ [x]) (deqs f) ({[ enqs f ]} ∪ writing f) (out f))
  | fifo_pub pos :
      pos ∈ writing f ->
      fifo cap f (Pub pos) (MkFifo (waiting f) (deqs f) (writing f ∖ {[ pos ]}) (out f))
  | fifo_deq v w :
      waiting f = v :: w -> deqs f ∉ writing f ->
      fifo cap f (Deq (deqs f)) (MkFifo w (deqs f + 1) (writing f) (<[deqs f := v]> (out f)))
  | fifo_ret pos v :
      out f !! pos = Some v ->
      fifo cap f (Ret pos v) (MkFifo (waiting f) (deqs f) (writing f) (delete pos (out f)))
  | fifo_full :
      zlen (waiting f) = cap \/ is_Some (out f !! (enqs f - cap)) -> fifo cap f PushFull f
  | fifo_empty :
      waiting f = [] \/ deqs f ∈ writing f -> fifo cap f PopEmpty f.

Inductive fifo_run (cap : Z) : Fifo -> list event -> Fifo -> Prop :=
  | fifo_done f : fifo_run cap f [] f
  | fifo_step f e f' es f'' : fifo cap f e f' -> fifo_run cap f' es f'' -> fifo_run cap f (e :: es) f''.

Definition fifo_init : Fifo := MkFifo [] 0 ∅ ∅.
End mpmc.
Arguments Pc : clear implicits.
Arguments PopPc : clear implicits.
Arguments event : clear implicits.
Arguments action : clear implicits.
Arguments config : clear implicits.
Arguments Fifo : clear implicits.
Arguments Item : clear implicits.
Arguments MpmcQueue : clear implicits.
