(* ===== verification/ExecMpmcFifo.v ===== *)
(** * ExecMpmcFifo: the bounded queue is a queue

    Every interleaving of [ExecMpmc]'s threads is an execution of the
    first-in-first-out specification [fifo], and a thread that is left alone
    finishes. *)

From S2P Require Import Prelude ExecMpmc.

#[local] Set Warnings "-clear-no-such-hyp".

Section sound.
Context {T : Type} (k : Z) (Hk : 1 <= k <= 30).
Abbreviation n := (2 ^ k).
Implicit Types (q : MpmcQueue T) (f : Fifo T) (it : Item T) (pos : Z).

(** ** Arithmetic of tickets *)

Lemma n_range : 2 <= n <= 2 ^ 30.
Proof.
  split; [|apply Z.pow_le_mono_r; lia]. change 2 with (2 ^ 1) at 1. apply Z.pow_le_mono_r; lia.
Qed.

Lemma land_mask pos : Z.land pos (n - 1) = pos mod n.
Proof. replace (n - 1) with (Z.ones k) by (rewrite Z.ones_equiv; lia). apply Z.land_ones. lia. Qed.

(** Tickets for the same cell differ by a multiple of the size. *)
Lemma same_cell a b : a mod n = b mod n -> exists m, a = b + m * n.
Proof.
  intros E. pose proof n_range. exists (a / n - b / n).
  rewrite (Z.div_mod a n), (Z.div_mod b n) at 1 by lia. rewrite E. lia.
Qed.

Lemma same_ticket a b : a mod n = b mod n -> - n < a - b < n -> a = b.
Proof. intros [m ->]%same_cell Hd. pose proof n_range. assert (m = 0) as -> by nia. lia. Qed.

Lemma turn_back m : m * n < 0 -> m * n <= - n.
Proof. pose proof n_range. intros Hm. assert (m <= -1) by nia. nia. Qed.

Lemma turn_ahead m : 0 < m * n -> n <= m * n.
Proof. pose proof n_range. intros Hm. assert (1 <= m) by nia. nia. Qed.

Lemma not_next a : (a + 1) mod n <> a mod n.
Proof. intros E. pose proof n_range. apply same_ticket in E; lia. Qed.

(** ** The invariant *)

(** The value of a ticket that has been claimed and not returned. *)
Definition val f (c : Z) : option T :=
  if c <? deqs f then out f !! c else waiting f !! Z.to_nat (c - deqs f).

(** A cell is free for ticket [c], being written for it, or holds its value. *)
Inductive cell f it (c : Z) : Prop :=
  | cell_free : seq_ it = c -> enqs f <= c < deqs f + n -> out f !! (c - n) = None -> cell f it c
  | cell_writing : seq_ it = c -> deqs f <= c < enqs f -> c ∈ writing f -> cell f it c
  | cell_full : seq_ it = c + 1 -> enqs f - n <= c < enqs f -> c ∉ writing f ->
      val f c = Some (data_ it) -> cell f it c.

Definition cell_at q f pos : Prop :=
  exists it c, item_at q pos = Ok it /\ 0 <= c /\ c mod n = pos mod n /\ cell f it c.

Definition seq_at q pos s : Prop := exists it, item_at q pos = Ok it /\ seq_ it = s.
Definition data_at q pos v : Prop := exists it, item_at q pos = Ok it /\ data_ it = v.

(** What a thread knows where it stands. *)
Definition pc_ok q f (pc : Pc T) : Prop :=
  match pc with
  | InPush x PushLoad => True
  | InPush x (PushSeq pos) => 0 <= pos <= enqs f
  | InPush x (PushCas pos) => 0 <= pos <= enqs f /\ (pos < enqs f \/ seq_at q pos pos)
  | InPush x (PushWrite pos) => pos ∈ writing f /\ val f pos = Some x
  | InPush x (PushPublish pos) => pos ∈ writing f /\ val f pos = Some x /\ data_at q pos x
  | InPop PopLoad => True
  | InPop (PopSeq pos) => 0 <= pos <= deqs f
  | InPop (PopCas pos) => 0 <= pos <= deqs f /\ (pos < deqs f \/ seq_at q pos (pos + 1))
  | InPop (PopRead pos) => is_Some (out f !! pos)
  | InPop (PopRelease pos v) => out f !! pos = Some v
  end.

(** The ticket a thread holds, and on which side. *)
Definition ticket (pc : Pc T) : option (bool * Z) :=
  match pc with
  | InPush _ (PushWrite pos) | InPush _ (PushPublish pos) => Some (true, pos)
  | InPop (PopRead pos) | InPop (PopRelease pos _) => Some (false, pos)
  | _ => None
  end.

Record shared q f : Prop := {
  sh_size : size_ q = n;
  sh_mask : mask_ q = n - 1;
  sh_head : head_ q = deqs f;
  sh_tail : tail_ q = enqs f;
  sh_pos : 0 <= deqs f;
  sh_cap : zlen (waiting f) <= n;
  sh_cell : forall pos, 0 <= pos -> cell_at q f pos;
  sh_writing : forall pos, pos ∈ writing f -> deqs f <= pos < enqs f;
  sh_out : forall pos, is_Some (out f !! pos) -> 0 <= pos /\ enqs f - n <= pos < deqs f;
}.

Record inv c f : Prop := {
  iv_shared : shared (queue c) f;
  iv_pc : forall t pc, threads c !! t = Some pc -> pc_ok (queue c) f pc;
  iv_unique : forall t t' pc pc' z, threads c !! t = Some pc -> threads c !! t' = Some pc' ->
    ticket pc = Some z -> ticket pc' = Some z -> t = t';
}.

Lemma enqs_deqs f : deqs f <= enqs f.
Proof. unfold enqs. pose proof (zlen_nonneg (waiting f)). lia. Qed.

(** *** Cells *)

(** Which cells an access meets. *)
Lemma item_set q pos it pos' :
  mask_ q = n - 1 -> 0 <= pos -> 0 <= pos' -> (exists it0, item_at q pos = Ok it0) ->
  item_at (set_item q pos it) pos' =
  if decide (pos' mod n = pos mod n) then Ok it else item_at q pos'.
Proof.
  intros Hm Hp Hp' [it0 Hi]. unfold item_at, set_item, at_ in *. simpl. rewrite Hm, !land_mask in *.
  pose proof n_range. pose proof (Z.mod_pos_bound pos n). pose proof (Z.mod_pos_bound pos' n).
  case_decide as E.
  - rewrite E. destruct (items_ q !! Z.to_nat (pos mod n)) eqn:El; [|done].
    apply lookup_lt_Some in El. by rewrite list_lookup_insert_eq.
  - rewrite list_lookup_insert_ne; [done|]. lia.
Qed.

(** The cell of a ticket that is being written, and of one claimed by a
    consumer. *)
Lemma writing_cell q f pos :
  shared q f -> pos ∈ writing f -> exists it, item_at q pos = Ok it /\ seq_ it = pos.
Proof.
  intros Hs Hw. pose proof n_range. pose proof (sh_writing _ _ Hs _ Hw) as Hr. pose proof (sh_pos _ _ Hs). pose proof (sh_cap _ _ Hs) as Hc.
  destruct (sh_cell _ _ Hs pos ltac:(lia)) as (it & c & Hi & Hc0 & Hmod & Hcell). exists it. split; [done|].
  unfold enqs in *. destruct Hcell as [Hq Hcr _|Hq Hcr _|Hq Hcr Hnw _]; unfold enqs in *.
  - assert (c = pos) by (apply same_ticket; [done|lia]). lia.
  - rewrite Hq. apply same_ticket; [done|lia].
  - assert (c = pos) as -> by (apply same_ticket; [done|lia]). done.
Qed.

Lemma out_cell q f pos v :
  shared q f -> out f !! pos = Some v ->
  exists it, item_at q pos = Ok it /\ seq_ it = pos + 1 /\ data_ it = v.
Proof.
  intros Hs Ho. pose proof n_range. pose proof (zlen_nonneg (waiting f)). destruct (sh_out _ _ Hs pos) as [Hp Hr]; [by eexists|]. pose proof (sh_cap _ _ Hs) as Hc.
  destruct (sh_cell _ _ Hs pos Hp) as (it & c & Hi & Hc0 & Hmod & Hcell). exists it. split; [done|].
  destruct Hcell as [Hq Hcr Hno|Hq Hcr _|Hq Hcr Hnw Hv]; unfold enqs in *.
  - destruct (same_cell _ _ Hmod) as [m ->]. pose proof n_range. assert (m = 1) as -> by nia.
    replace (pos + 1 * n - n) with pos in Hno by lia. congruence.
  - assert (c = pos) by (apply same_ticket; [done|lia]). lia.
  - assert (c = pos) as -> by (apply same_ticket; [done|lia]). split; [done|].
    unfold val in Hv. rewrite (proj2 (Z.ltb_lt _ _)) in Hv by lia. congruence.
Qed.

(** ** Claiming a ticket to push *)

Definition enq x f : Fifo T := MkFifo (waiting f ++ [x]) (deqs f) ({[ enqs f ]} ∪ writing f) (out f).

Lemma zlen_snoc {A} (l : list A) x : zlen (l ++ [x]) = zlen l + 1.
Proof. unfold zlen. rewrite length_app. simpl. lia. Qed.

Lemma enqs_enq x f : enqs (enq x f) = enqs f + 1.
Proof. unfold enqs. simpl. rewrite zlen_snoc. lia. Qed.

Lemma val_enq x f c : c < enqs f -> val (enq x f) c = val f c.
Proof.
  intros Hc. unfold val. simpl. destruct (Z.ltb_spec c (deqs f)); [done|].
  apply lookup_app_l. unfold enqs, zlen in Hc. lia.
Qed.

Lemma val_enq_new x f : val (enq x f) (enqs f) = Some x.
Proof.
  unfold val. simpl. pose proof (enqs_deqs f). rewrite (proj2 (Z.ltb_ge _ _)) by lia.
  apply list_lookup_middle. unfold enqs, zlen. lia.
Qed.

(** The cell of the next ticket, when its number says so. *)
Lemma next_free q f :
  shared q f -> seq_at q (enqs f) (enqs f) -> zlen (waiting f) < n /\ out f !! (enqs f - n) = None.
Proof.
  intros Hs (it0 & Hi0 & Hq0). pose proof (sh_pos _ _ Hs). pose proof (enqs_deqs f).
  destruct (sh_cell _ _ Hs (enqs f) ltac:(lia)) as (it & c & Hi & _ & Hmod & Hcell).
  assert (it = it0) as -> by congruence.
  destruct Hcell as [Hq Hcr Hno|Hq Hcr _|Hq Hcr _ _].
  - assert (c = enqs f) as -> by congruence. split; [unfold enqs in *; lia|done].
  - lia.
  - destruct (not_next c). congruence.
Qed.

Lemma enq_shared q f x :
  shared q f -> seq_at q (enqs f) (enqs f) -> enqs f + 1 < 2 ^ 32 ->
  shared (set_tail q (uwrap 32 (enqs f + 1))) (enq x f).
Proof.
  intros Hs Hsq Hb. destruct (next_free _ _ Hs Hsq) as [Hroom Hgone]. pose proof (sh_pos _ _ Hs). pose proof (enqs_deqs f).
  pose proof n_range. split; simpl; try apply Hs.
  - rewrite enqs_enq. apply Z.mod_small. lia.
  - rewrite zlen_snoc. lia.
  - intros pos Hp. destruct (sh_cell _ _ Hs pos Hp) as (it & c & Hi & Hc & Hmod & Hcell).
    exists it, c. split_and!; try done. destruct (decide (c = enqs f)) as [->|Hne].
    + apply cell_writing; [|rewrite enqs_enq; simpl; lia|simpl; set_solver].
      destruct Hcell as [|? ?|? ?]; [done|lia..].
    + destruct Hcell as [Hq Hcr Hno|Hq Hcr Hw|Hq Hcr Hw Hv].
      * apply cell_free; [done|rewrite enqs_enq; simpl; lia|done].
      * apply cell_writing; [done|rewrite enqs_enq; simpl; lia|simpl; set_solver].
      * apply cell_full; [done| |simpl; set_solver|rewrite val_enq by lia; done].
        rewrite enqs_enq. split; [|lia]. assert (c <> enqs f - n); [|lia]. intros ->.
        destruct Hsq as (it0 & Hi0 & Hq0). assert (pos mod n = enqs f mod n) as E.
        { rewrite <- Hmod. replace (enqs f) with (enqs f - n + 1 * n) at 2 by lia. by rewrite Z.mod_add by lia. }
        assert (item_at q pos = item_at q (enqs f)) as E' by (unfold item_at; rewrite (sh_mask _ _ Hs), !land_mask, E; done).
        assert (it = it0) as -> by congruence. lia.
  - intros pos [->%elem_of_singleton|Hw]%elem_of_union; rewrite enqs_enq; [lia|].
    pose proof (sh_writing _ _ Hs pos Hw). lia.
  - intros pos Ho. destruct (sh_out _ _ Hs pos Ho) as [? ?]. rewrite enqs_enq. split; [done|].
    assert (pos <> enqs f - n) by (intros ->; rewrite Hgone in Ho; by destruct Ho). lia.
Qed.

Lemma enq_pc q f x t pc : shared q f -> pc_ok q f pc -> pc_ok (set_tail q t) (enq x f) pc.
Proof.
  intros Hs. destruct pc as [y [|pos|pos|pos|pos]|[|pos|pos|pos|pos v]]; simpl; try done; rewrite ?enqs_enq.
  - lia.
  - intros [? [?|?]]; (split; [lia|]); [left; lia|by right].
  - intros [Hw Hv]. rewrite val_enq by (pose proof (sh_writing _ _ Hs pos Hw); lia). set_solver.
  - intros (Hw & Hv & Hd). rewrite val_enq by (pose proof (sh_writing _ _ Hs pos Hw); lia). set_solver.
Qed.

(** ** Writing and publishing a value *)

(** A cell is overwritten: the others are as they were. *)
Lemma set_shared q f f' pos it c :
  shared q f -> 0 <= pos -> c mod n = pos mod n -> 0 <= c -> cell f' it c ->
  deqs f' = deqs f -> waiting f' = waiting f ->
  (forall it' c', cell f it' c' -> c' mod n <> pos mod n -> cell f' it' c') ->
  (forall p, p ∈ writing f' -> p ∈ writing f) -> (forall p, is_Some (out f' !! p) -> is_Some (out f !! p)) ->
  shared (set_item q pos it) f'.
Proof.
  intros Hs Hp Hmod Hc Hcell Ed Ew Hother Hwr Hou.
  assert (Ee : enqs f' = enqs f) by (unfold enqs; by rewrite Ed, Ew).
  destruct (sh_cell _ _ Hs pos Hp) as (it0 & c0 & Hi0 & _).
  split; simpl; rewrite ?Ed, ?Ee, ?Ew; try apply Hs.
  - intros pos' Hp'. unfold cell_at. rewrite (item_set _ _ _ _ (sh_mask _ _ Hs)) by (done || by exists it0).
    case_decide as E; [exists it, c; split_and!; congruence|].
    destruct (sh_cell _ _ Hs pos' Hp') as (it' & c' & Hi' & Hc' & Hmod' & Hcell').
    exists it', c'. split_and!; try done. apply Hother; [done|congruence].
  - intros p Hw%Hwr. by apply (sh_writing _ _ Hs).
  - intros p Ho%Hou. by apply (sh_out _ _ Hs).
Qed.

Lemma writing_pos q f pos : shared q f -> pos ∈ writing f -> 0 <= pos.
Proof. intros Hs Hw. pose proof (sh_writing _ _ Hs pos Hw). pose proof (sh_pos _ _ Hs). lia. Qed.

Lemma write_shared q f pos it x :
  shared q f -> pos ∈ writing f -> item_at q pos = Ok it -> shared (set_item q pos (MkItem (seq_ it) x)) f.
Proof.
  intros Hs Hw Hi. destruct (writing_cell _ _ _ Hs Hw) as (it' & Hi' & Hq). assert (it' = it) as -> by congruence.
  pose proof (writing_pos _ _ _ Hs Hw).
  eapply (set_shared q f f pos _ pos); try done. apply cell_writing; [done|by apply (sh_writing _ _ Hs)|done].
Qed.

(** What others know of their cells when the one of [pos] changes. *)
Lemma set_seq_at q f pos it pos' s :
  shared q f -> 0 <= pos -> 0 <= pos' -> seq_at q pos' s ->
  (pos' mod n = pos mod n -> seq_at q pos s -> seq_ it = s) -> seq_at (set_item q pos it) pos' s.
Proof.
  intros Hs Hp Hp' (it' & Hi' & Hq') Hsame. unfold seq_at.
  destruct (sh_cell _ _ Hs pos Hp) as (it0 & c0 & Hi0 & _).
  rewrite (item_set _ _ _ _ (sh_mask _ _ Hs)) by (done || by exists it0).
  case_decide as E; [|by exists it']. exists it. split; [done|]. apply Hsame; [done|].
  exists it'. split; [|done]. unfold item_at in *. rewrite (sh_mask _ _ Hs), !land_mask in *. by rewrite <- E.
Qed.

Lemma set_data_at q f pos it pos' v :
  shared q f -> 0 <= pos -> pos' mod n <> pos mod n -> 0 <= pos' -> data_at q pos' v ->
  data_at (set_item q pos it) pos' v.
Proof.
  intros Hs Hp Hne Hp' (it' & Hi' & Hq'). unfold data_at.
  destruct (sh_cell _ _ Hs pos Hp) as (it0 & c0 & Hi0 & _).
  rewrite (item_set _ _ _ _ (sh_mask _ _ Hs)) by (done || by exists it0).
  rewrite decide_False by done. by exists it'.
Qed.

(** Tickets in writing have cells of their own. *)
Lemma writing_apart q f pos pos' :
  shared q f -> pos ∈ writing f -> pos' ∈ writing f -> pos' mod n = pos mod n -> pos' = pos.
Proof.
  intros Hs Hw Hw' E. pose proof (sh_writing _ _ Hs _ Hw). pose proof (sh_writing _ _ Hs _ Hw').
  pose proof (sh_cap _ _ Hs). apply same_ticket; [done|]. unfold enqs in *. lia.
Qed.

Lemma write_pc q f pos it x pc :
  shared q f -> pos ∈ writing f -> item_at q pos = Ok it -> ticket pc <> Some (true, pos) ->
  pc_ok q f pc -> pc_ok (set_item q pos (MkItem (seq_ it) x)) f pc.
Proof.
  intros Hs Hw Hi Ht. pose proof (writing_pos _ _ _ Hs Hw) as Hp.
  assert (Hseq : forall pos' s, 0 <= pos' -> seq_at q pos' s -> seq_at (set_item q pos (MkItem (seq_ it) x)) pos' s).
  { intros pos' s Hp' Hs'. apply (set_seq_at q f); try done. intros _ (it' & Hi' & <-). simpl. congruence. }
  destruct pc as [y [|pos'|pos'|pos'|pos']|[|pos'|pos'|pos'|pos' v]]; simpl; try done.
  - intros [? [?|?]]; (split; [done|]); [by left|right; apply Hseq; [lia|done]].
  - intros (Hw' & Hv & Hd). split_and!; try done. apply (set_data_at q f); try done; [|by eapply writing_pos].
    intros E. apply Ht. simpl. by rewrite (writing_apart q f pos pos').
  - intros [? [?|?]]; (split; [done|]); [by left|right; apply Hseq; [lia|done]].
Qed.

Definition pub pos f : Fifo T := MkFifo (waiting f) (deqs f) (writing f ∖ {[ pos ]}) (out f).

Lemma pub_shared q f pos it x :
  shared q f -> pos ∈ writing f -> val f pos = Some x -> data_ it = x -> seq_ it = pos + 1 ->
  shared (set_item q pos it) (pub pos f).
Proof.
  intros Hs Hw Hv Hd Hq. pose proof (writing_pos _ _ _ Hs Hw) as Hp.
  pose proof (sh_writing _ _ Hs _ Hw) as Hr. pose proof (sh_cap _ _ Hs). pose proof (enqs_deqs f).
  eapply (set_shared q f _ pos _ pos); try done.
  - apply cell_full; [done| |simpl; set_solver|by rewrite Hd]. change (enqs (pub pos f)) with (enqs f).
    unfold enqs in *. lia.
  - intros it' c' [Hq' Hc' Ho'|Hq' Hc' Hw'|Hq' Hc' Hw' Hv'] Hne.
    + by apply cell_free.
    + apply cell_writing; [done..|]. simpl. assert (c' <> pos) by (by intros ->). set_solver.
    + apply cell_full; [done..|simpl; set_solver|done].
  - simpl. set_solver.
Qed.

Lemma pub_pc q f pos it pc :
  shared q f -> pos ∈ writing f -> ticket pc <> Some (true, pos) -> pc_ok q f pc ->
  pc_ok (set_item q pos it) (pub pos f) pc.
Proof.
  intros Hs Hw Ht. pose proof (writing_pos _ _ _ Hs Hw) as Hp.
  destruct (writing_cell _ _ _ Hs Hw) as (it0 & Hi0 & Hq0).
  pose proof (sh_writing _ _ Hs _ Hw) as Hr.
  destruct pc as [y [|pos'|pos'|pos'|pos']|[|pos'|pos'|pos'|pos' v]]; simpl; try done.
  - change (enqs (pub pos f)) with (enqs f). intros [? [?|Hsq]]; (split; [done|]); [by left|].
    destruct (decide (pos' = pos)) as [->|Hne]; [left; lia|right].
    apply (set_seq_at q f); [done|done|lia|done|]. intros _ (it' & Hi' & <-). congruence.
  - intros [Hw' Hv]. split; [|done]. assert (pos' <> pos) by (intros ->; done). set_solver.
  - intros (Hw' & Hv & Hd). assert (Hne : pos' <> pos) by (intros ->; done). split_and!; [set_solver|done|].
    apply (set_data_at q f); try done; [|by eapply writing_pos]. intros E. by apply Hne, (writing_apart q f).
  - intros [? [?|Hsq]]; (split; [done|]); [by left|right].
    apply (set_seq_at q f); [done|done|lia|done|]. intros E (it' & Hi' & Hq').
    assert (pos = pos' + 1) as E' by congruence. destruct (not_next pos'). congruence.
Qed.

(** ** Claiming a value to pop *)

Definition deq v w f : Fifo T := MkFifo w (deqs f + 1) (writing f) (<[deqs f := v]> (out f)).

Lemma enqs_deq v w f : waiting f = v :: w -> enqs (deq v w f) = enqs f.
Proof. intros E. unfold enqs. simpl. rewrite E. unfold zlen. simpl. lia. Qed.

Lemma val_deq v w f c : waiting f = v :: w -> val (deq v w f) c = val f c.
Proof.
  intros E. unfold val. simpl. rewrite E.
  destruct (Z.ltb_spec c (deqs f + 1)), (Z.ltb_spec c (deqs f)); try lia.
  - rewrite lookup_insert_ne by lia. done.
  - assert (c = deqs f) as -> by lia. by rewrite lookup_insert_eq, Z.sub_diag.
  - replace (Z.to_nat (c - deqs f)) with (S (Z.to_nat (c - (deqs f + 1)))) by lia. done.
Qed.

(** The cell of the next value, when its number says so. *)
Lemma next_full q f :
  shared q f -> seq_at q (deqs f) (deqs f + 1) ->
  exists v w, waiting f = v :: w /\ deqs f ∉ writing f.
Proof.
  intros Hs (it0 & Hi0 & Hq0). pose proof (sh_pos _ _ Hs). pose proof (enqs_deqs f).
  destruct (sh_cell _ _ Hs (deqs f) ltac:(lia)) as (it & c & Hi & _ & Hmod & Hcell).
  assert (it = it0) as -> by congruence.
  destruct Hcell as [Hq Hcr Hno|Hq Hcr _|Hq Hcr Hw _].
  - destruct (not_next (deqs f)). congruence.
  - destruct (not_next (deqs f)). congruence.
  - assert (c = deqs f) as -> by lia. unfold enqs in Hcr.
    destruct (waiting f) as [|v w]; [unfold zlen in Hcr; simpl in Hcr; lia|]. by exists v, w.
Qed.

Lemma deq_shared q f v w :
  shared q f -> waiting f = v :: w -> deqs f ∉ writing f -> enqs f < 2 ^ 32 ->
  shared (set_head q (uwrap 32 (deqs f + 1))) (deq v w f).
Proof.
  intros Hs Ew Hnw Hb. pose proof (sh_pos _ _ Hs). pose proof (sh_cap _ _ Hs) as Hcap. pose proof (enqs_deqs f).
  assert (El : zlen (waiting f) = zlen w + 1) by (rewrite Ew; unfold zlen; simpl; lia).
  pose proof (zlen_nonneg w). pose proof n_range.
  split; rewrite ?enqs_deq by done; simpl; try solve [apply Hs|lia].
  - apply Z.mod_small. unfold enqs in *. lia.
  - intros pos Hp. destruct (sh_cell _ _ Hs pos Hp) as (it & c & Hi & Hc & Hmod & Hcell).
    exists it, c. split_and!; try done. destruct Hcell as [Hq Hcr Hno|Hq Hcr Hw|Hq Hcr Hw Hv].
    + apply cell_free; rewrite ?enqs_deq by done; simpl; [done|lia|]. by rewrite lookup_insert_ne by lia.
    + apply cell_writing; rewrite ?enqs_deq by done; simpl; try done.
      assert (c <> deqs f) by (by intros ->). lia.
    + apply cell_full; rewrite ?enqs_deq, ?val_deq by done; done.
  - intros pos Hw. pose proof (sh_writing _ _ Hs pos Hw). assert (pos <> deqs f) by (by intros ->). lia.
  - intros pos [<-|[Hne Ho]]%lookup_insert_is_Some; [unfold enqs in *; lia|].
    pose proof (sh_out _ _ Hs pos Ho). lia.
Qed.

Lemma deq_pc q f v w h pc :
  shared q f -> waiting f = v :: w -> pc_ok q f pc -> pc_ok (set_head q h) (deq v w f) pc.
Proof.
  intros Hs Ew. destruct pc as [y [|pos|pos|pos|pos]|[|pos|pos|pos|pos u]]; simpl; try done;
    rewrite ?enqs_deq, ?val_deq by done; try done.
  - lia.
  - intros [? [?|?]]; (split; [lia|]); [left; lia|by right].
  - intros Ho. apply lookup_insert_is_Some'. by right.
  - intros Ho. rewrite lookup_insert_ne; [done|].
    destruct (sh_out _ _ Hs pos) as [_ ?]; [by eexists|lia].
Qed.

(** ** Taking the value and releasing its cell *)

Definition ret pos f : Fifo T := MkFifo (waiting f) (deqs f) (writing f) (delete pos (out f)).

Lemma ret_shared q f pos v it :
  shared q f -> out f !! pos = Some v -> seq_ it = pos + n -> shared (set_item q pos it) (ret pos f).
Proof.
  intros Hs Ho Hq. destruct (sh_out _ _ Hs pos) as [Hp Hr]; [by eexists|]. pose proof n_range.
  pose proof (enqs_deqs f). pose proof (sh_cap _ _ Hs).
  eapply (set_shared q f _ pos _ (pos + n)); try done; try lia.
  - replace (pos + n) with (pos + 1 * n) by lia. apply Z.mod_add. lia.
  - apply cell_free; [done|simpl; change (enqs (ret pos f)) with (enqs f); lia|].
    simpl. replace (pos + n - n) with pos by lia. apply lookup_delete_eq.
  - intros it' c' [Hq' Hc' Ho'|Hq' Hc' Hw'|Hq' Hc' Hw' Hv'] Hne.
    + apply cell_free; [done..|]. simpl. apply lookup_delete_None. by right.
    + by apply cell_writing.
    + apply cell_full; [done..|]. unfold val in *. simpl. case_match; [|done].
      rewrite lookup_delete_ne; [done|]. by intros ->.
  - simpl. intros p. rewrite lookup_delete_is_Some. tauto.
Qed.

(** A cell claimed by a consumer is not the one of a ticket still in writing,
    nor of another consumer. *)
Lemma out_apart q f pos pos' :
  shared q f -> is_Some (out f !! pos) -> is_Some (out f !! pos') -> pos' mod n = pos mod n -> pos' = pos.
Proof.
  intros Hs Ho Ho' E. pose proof (sh_out _ _ Hs _ Ho). pose proof (sh_out _ _ Hs _ Ho').
  pose proof (enqs_deqs f). apply same_ticket; [done|]. lia.
Qed.

Lemma out_writing_apart q f pos pos' :
  shared q f -> is_Some (out f !! pos) -> pos' ∈ writing f -> pos' mod n <> pos mod n.
Proof.
  intros Hs Ho Hw E. pose proof (sh_out _ _ Hs _ Ho). pose proof (sh_writing _ _ Hs _ Hw).
  pose proof (enqs_deqs f). apply same_ticket in E; lia.
Qed.

Lemma ret_pc q f pos v it pc :
  shared q f -> out f !! pos = Some v -> ticket pc <> Some (false, pos) -> pc_ok q f pc ->
  pc_ok (set_item q pos it) (ret pos f) pc.
Proof.
  intros Hs Ho Ht. assert (Ho' : is_Some (out f !! pos)) by by eexists.
  destruct (sh_out _ _ Hs pos Ho') as [Hp Hr]. destruct (out_cell _ _ _ _ Hs Ho) as (it0 & Hi0 & Hq0 & _).
  assert (Hval : forall c, c ∈ writing f -> val (ret pos f) c = val f c).
  { intros c Hw. pose proof (sh_writing _ _ Hs c Hw). unfold val. simpl. case_match; [lia|done]. }
  destruct pc as [y [|pos'|pos'|pos'|pos']|[|pos'|pos'|pos'|pos' u]]; simpl; try done.
  - change (enqs (ret pos f)) with (enqs f). intros [? [?|Hsq]]; (split; [done|]); [by left|right].
    apply (set_seq_at q f); [done|done|lia|done|]. intros E (it' & Hi' & Hq').
    destruct (not_next pos). congruence.
  - intros [Hw Hv]. by rewrite Hval.
  - intros (Hw & Hv & Hd). rewrite Hval by done. split_and!; try done.
    apply (set_data_at q f); try done; [|by eapply writing_pos]. by apply (out_writing_apart q f).
  - intros [? [?|Hsq]]; (split; [done|]); [by left|].
    destruct (decide (pos' = pos)) as [->|Hne]; [left; lia|right].
    apply (set_seq_at q f); [done|done|lia|done|]. intros _ (it' & Hi' & Hq'). assert (it' = it0) as -> by congruence. lia.
  - intros Ho1. apply lookup_delete_is_Some. split; [|done]. intros ->. by apply Ht.
  - intros Ho1. rewrite lookup_delete_ne; [done|]. intros ->. by apply Ht.
Qed.

(** ** Steps *)

(** What a step of a thread at [pc] may do: what others know stays true, and a
    ticket it now holds is one it had or one that nobody has. *)
Record moves q f (pc : Pc T) (pc' : option (Pc T)) q' (e : option (event T)) f' : Prop := {
  mv_shared : shared q' f';
  mv_others : forall p, pc_ok q f p -> (forall z, ticket pc = Some z -> ticket p <> Some z) -> pc_ok q' f' p;
  mv_own : forall p, pc' = Some p -> pc_ok q' f' p;
  mv_ticket : forall p z, pc' = Some p -> ticket p = Some z ->
    ticket pc = Some z \/ forall p', pc_ok q f p' -> ticket p' <> Some z;
  mv_event : match e with Some e => fifo n f e f' | None => f' = f end;
  mv_grow : enqs f' <= enqs f + 1;
}.

(** Steps that change nothing others see. *)
Lemma moves_local q f pc p :
  shared q f -> pc_ok q f p -> ticket p = None \/ ticket p = ticket pc -> moves q f pc (Some p) q None f.
Proof.
  intros Hs Hp Ht. split; try done; [by intros ? [= <-]| |lia].
  intros ? z [= <-] Hz. destruct Ht; [congruence|left; congruence].
Qed.

Lemma moves_return q f pc e : shared q f -> fifo n f e f -> moves q f pc None q (Some e) f.
Proof. intros Hs He. split; try done. lia. Qed.

(** The number of a cell is behind a ticket for it only while its last value
    is there. *)
Lemma push_full q f pos it :
  shared q f -> 0 <= pos <= enqs f -> item_at q pos = Ok it -> seq_ it < pos -> fifo n f PushFull f.
Proof.
  intros Hs Hp Hi Hlt. pose proof n_range. pose proof (sh_cap _ _ Hs). pose proof (enqs_deqs f).
  destruct (sh_cell _ _ Hs pos ltac:(lia)) as (it' & c & Hi' & Hc & Hmod & Hcell).
  assert (it' = it) as -> by congruence. destruct (same_cell _ _ Hmod) as [m ->].
  apply fifo_full. destruct Hcell as [Hq Hcr _|Hq Hcr _|Hq Hcr _ Hv]; [lia| |].
  - pose proof (turn_back m ltac:(lia)). left. unfold enqs in *. lia.
  - pose proof (turn_back m ltac:(lia)). assert (Hm : pos + m * n = enqs f - n) by lia.
    destruct (decide (deqs f <= pos + m * n)); [left; unfold enqs in *; lia|right].
    unfold val in Hv. rewrite (proj2 (Z.ltb_lt _ _)) in Hv by lia. rewrite <- Hm. by eexists.
Qed.

Lemma pop_empty q f pos it :
  shared q f -> 0 <= pos <= deqs f -> item_at q pos = Ok it -> seq_ it < pos + 1 -> fifo n f PopEmpty f.
Proof.
  intros Hs Hp Hi Hlt. pose proof n_range. pose proof (sh_cap _ _ Hs). pose proof (enqs_deqs f).
  assert (Hnil : enqs f = deqs f -> waiting f = []).
  { unfold enqs, zlen. destruct (waiting f); simpl; [done|lia]. }
  destruct (sh_cell _ _ Hs pos ltac:(lia)) as (it' & c & Hi' & Hc & Hmod & Hcell).
  assert (it' = it) as -> by congruence. destruct (same_cell _ _ Hmod) as [m ->].
  apply fifo_empty. destruct Hcell as [Hq Hcr _|Hq Hcr Hw|Hq Hcr _ Hv].
  - left. apply Hnil. lia.
  - right. by assert (pos + m * n = deqs f) as <- by lia.
  - pose proof (turn_back m ltac:(lia)). left. apply Hnil. lia.
Qed.

(** The number is never ahead of the ticket to be claimed next. *)
Lemma push_not_ahead q f it : shared q f -> item_at q (enqs f) = Ok it -> seq_ it <= enqs f.
Proof.
  intros Hs Hi. pose proof n_range. pose proof (sh_pos _ _ Hs). pose proof (enqs_deqs f).
  destruct (sh_cell _ _ Hs (enqs f) ltac:(lia)) as (it' & c & Hi' & Hc & Hmod & Hcell).
  assert (it' = it) as -> by congruence. destruct (same_cell _ _ Hmod) as [m ->].
  destruct Hcell as [Hq Hcr _|Hq Hcr _|Hq Hcr _ _]; [|lia..].
  destruct (decide (0 < m * n)) as [Hm|]; [apply turn_ahead in Hm|]; lia.
Qed.

Lemma pop_not_ahead q f it : shared q f -> item_at q (deqs f) = Ok it -> seq_ it <= deqs f + 1.
Proof.
  intros Hs Hi. pose proof n_range. pose proof (sh_pos _ _ Hs). pose proof (enqs_deqs f). pose proof (sh_cap _ _ Hs).
  destruct (sh_cell _ _ Hs (deqs f) ltac:(lia)) as (it' & c & Hi' & Hc & Hmod & Hcell).
  assert (it' = it) as -> by congruence. destruct (same_cell _ _ Hmod) as [m ->].
  destruct (decide (0 < m * n)) as [Hm|]; [apply turn_ahead in Hm|];
    destruct Hcell as [Hq Hcr _|Hq Hcr _|Hq Hcr _ _]; unfold enqs in *; lia.
Qed.

Lemma ticket_pc q f pc b pos :
  shared q f -> pc_ok q f pc -> ticket pc = Some (b, pos) -> pos < if b then enqs f else deqs f.
Proof.
  intros Hs Hpc Ht. destruct pc as [y [| | |p|p]|[| | |p|p v]]; simplify_eq/=.
  - by apply (sh_writing _ _ Hs), Hpc.
  - by apply (sh_writing _ _ Hs), Hpc.
  - by apply (sh_out _ _ Hs).
  - apply (sh_out _ _ Hs). by eexists.
Qed.

Lemma item_of q f pos : shared q f -> 0 <= pos -> exists it, item_at q pos = Ok it.
Proof. intros Hs Hp. destruct (sh_cell _ _ Hs pos Hp) as (it & c & Hi & _). by exists it. Qed.

Definition steps q f (pc : Pc T) (r : outcome (option (Pc T) * MpmcQueue T * option (event T))) : Prop :=
  exists pc' q' e f', r = Ok (pc', q', e) /\ moves q f pc pc' q' e f'.

Lemma push_sound flaky x pc q f :
  shared q f -> pc_ok q f (InPush x pc) -> enqs f + n < 2 ^ 32 ->
  steps q f (InPush x pc) (step flaky (InPush x pc) q).
Proof.
  intros Hs Hpc Hb. pose proof n_range. pose proof (sh_pos _ _ Hs). pose proof (enqs_deqs f).
  unfold steps. destruct pc as [|pos|pos|pos|pos]; simpl in *.
  - do 4 eexists. split; [done|]. apply moves_local; [done| |by left]. simpl. rewrite (sh_tail _ _ Hs). lia.
  - destruct (item_of _ _ pos Hs) as [it Hi]; [lia|]. rewrite Hi. simpl.
    destruct (Z.eqb_spec (seq_ it - pos) 0); [|destruct (Z.ltb_spec (seq_ it - pos) 0)].
    + do 4 eexists. split; [done|]. apply moves_local; [done| |by left]. split; [done|right].
      exists it. split; [done|lia].
    + do 4 eexists. split; [done|]. apply moves_return; [done|]. apply (push_full q f pos it); done || lia.
    + do 4 eexists. split; [done|]. by apply moves_local; [done| |left].
  - destruct Hpc as [Hp Hsq]. rewrite (sh_tail _ _ Hs). destruct (negb flaky && (enqs f =? pos)) eqn:E; simpl.
    + apply andb_true_iff in E as [_ <-%Z.eqb_eq]. destruct Hsq as [|Hsq]; [lia|].
      do 4 eexists. split; [done|]. split.
      * apply (enq_shared q f x); done || lia.
      * intros p Hp' _. by apply enq_pc.
      * intros ? [= <-]. split; [simpl; set_solver|apply val_enq_new].
      * intros ? z [= <-] [= <-]. right. intros p' Hp' Ht. pose proof (ticket_pc _ _ _ _ _ Hs Hp' Ht). simpl in *. lia.
      * apply fifo_enq. by apply (next_free q).
      * rewrite enqs_enq. lia.
    + do 4 eexists. split; [done|]. apply moves_local; [done| |by left]. simpl. lia.
  - destruct Hpc as [Hw Hv]. destruct (item_of _ _ pos Hs) as [it Hi]; [by eapply writing_pos|]. rewrite Hi. simpl.
    pose proof (write_shared _ _ _ _ x Hs Hw Hi) as Hs'.
    do 4 eexists. split; [done|]. split; [done| | | |done|lia].
    + intros p Hp Ht. apply write_pc; try done. by apply Ht.
    + intros ? [= <-]. split_and!; try done. exists (MkItem (seq_ it) x). split; [|done].
      rewrite (item_set _ _ _ _ (sh_mask _ _ Hs)) by (by eapply writing_pos || by exists it).
      by rewrite decide_True.
    + intros ? z [= <-] Hz. by left.
  - destruct Hpc as (Hw & Hv & it & Hi & Hd). rewrite Hi. simpl. pose proof (sh_writing _ _ Hs _ Hw).
    do 4 eexists. split; [done|]. split; [| |done|done|by apply fifo_pub|].
    + eapply pub_shared; [done..|]. simpl. apply Z.mod_small. lia.
    + intros p Hp Ht. apply pub_pc; try done. by apply Ht.
    + change (enqs (pub pos f)) with (enqs f). simpl. unfold enqs. simpl. lia.
Qed.

Lemma pop_sound flaky pc q f :
  shared q f -> pc_ok q f (InPop pc) -> enqs f + n < 2 ^ 32 -> steps q f (InPop pc) (step flaky (InPop pc) q).
Proof.
  intros Hs Hpc Hb. pose proof n_range. pose proof (sh_pos _ _ Hs). pose proof (enqs_deqs f).
  unfold steps. destruct pc as [|pos|pos|pos|pos v]; simpl in *.
  - do 4 eexists. split; [done|]. apply moves_local; [done| |by left]. simpl. rewrite (sh_head _ _ Hs). lia.
  - destruct (item_of _ _ pos Hs) as [it Hi]; [lia|]. rewrite Hi. simpl.
    replace (uwrap 32 (pos + 1)) with (pos + 1) by (symmetry; apply Z.mod_small; lia).
    destruct (Z.eqb_spec (seq_ it - (pos + 1)) 0); [|destruct (Z.ltb_spec (seq_ it - (pos + 1)) 0)].
    + do 4 eexists. split; [done|]. apply moves_local; [done| |by left]. split; [done|right].
      exists it. split; [done|lia].
    + do 4 eexists. split; [done|]. apply moves_return; [done|]. apply (pop_empty q f pos it); done || lia.
    + do 4 eexists. split; [done|]. by apply moves_local; [done| |left].
  - destruct Hpc as [Hp Hsq]. rewrite (sh_head _ _ Hs). destruct (negb flaky && (deqs f =? pos)) eqn:E; simpl.
    + apply andb_true_iff in E as [_ <-%Z.eqb_eq]. destruct Hsq as [|Hsq]; [lia|].
      destruct (next_full _ _ Hs Hsq) as (v & w & Ew & Hnw).
      do 3 eexists. exists (deq v w f). split; [done|]. split.
      * apply (deq_shared q f v w); done || lia.
      * intros p Hp' _. by apply deq_pc.
      * intros ? [= <-]. simpl. apply lookup_insert_is_Some'. by left.
      * intros ? z [= <-] [= <-]. right. intros p' Hp' Ht. pose proof (ticket_pc _ _ _ _ _ Hs Hp' Ht). simpl in *. lia.
      * by apply fifo_deq.
      * rewrite enqs_deq by done. lia.
    + do 4 eexists. split; [done|]. apply moves_local; [done| |by left]. simpl. lia.
  - destruct Hpc as [v Hv]. destruct (out_cell _ _ _ _ Hs Hv) as (it & Hi & _ & Hd). rewrite Hi. simpl.
    do 4 eexists. split; [done|]. apply moves_local; [done| |by right]. simpl. by rewrite Hd.
  - destruct (out_cell _ _ _ _ Hs Hpc) as (it & Hi & _ & Hd). rewrite Hi. simpl.
    destruct (sh_out _ _ Hs pos) as [? ?]; [by eexists|].
    do 4 eexists. split; [done|]. split; [| |done|done|by apply fifo_ret|].
    + eapply ret_shared; [done..|]. simpl. rewrite (sh_mask _ _ Hs). replace (pos + (n - 1) + 1) with (pos + n) by lia.
      apply Z.mod_small. lia.
    + intros p Hp Ht. eapply ret_pc; try done. by apply Ht.
    + unfold enqs. simpl. lia.
Qed.

(** ** Schedules *)

Lemma step_sound flaky pc q f :
  shared q f -> pc_ok q f pc -> enqs f + n < 2 ^ 32 -> steps q f pc (step flaky pc q).
Proof. destruct pc; [apply push_sound|apply pop_sound]. Qed.

Lemma inv_move c f t pc pc' q' e f' :
  inv c f -> threads c !! t = Some pc -> moves (queue c) f pc pc' q' e f' ->
  inv (MkConfig q' (resume t pc' (threads c))) f'.
Proof.
  intros Hi Ht Hm.
  assert (Hlk : forall t' p, resume t pc' (threads c) !! t' = Some p ->
    t' = t /\ pc' = Some p \/ t' <> t /\ threads c !! t' = Some p).
  { intros t' p. destruct pc' as [p'|]; simpl.
    - rewrite lookup_insert_Some. naive_solver.
    - rewrite lookup_delete_Some. naive_solver. }
  assert (Hnew : forall t' p p' z, pc' = Some p -> ticket p = Some z -> t' <> t ->
    threads c !! t' = Some p' -> ticket p' = Some z -> False).
  { intros t' p p' z Hp Hz Hne Hp' Hz'. destruct (mv_ticket _ _ _ _ _ _ _ Hm p z Hp Hz) as [Ho|Hn].
    - apply Hne. by eapply (iv_unique _ _ Hi t' t).
    - eapply Hn; [|done]. by eapply (iv_pc _ _ Hi). }
  split; simpl.
  - apply Hm.
  - intros t' p [[-> Hp]|[Hne Hp]]%Hlk; [by eapply mv_own|].
    eapply (mv_others _ _ _ _ _ _ _ Hm); [by eapply (iv_pc _ _ Hi)|].
    intros z Hz Hz'. apply Hne. by eapply (iv_unique _ _ Hi t' t).
  - intros t1 t2 p1 p2 z [[-> H1]|[N1 H1]]%Hlk [[-> H2]|[N2 H2]]%Hlk Hz1 Hz2; [done| | |].
    + by destruct (Hnew t2 p1 p2 z).
    + by destruct (Hnew t1 p2 p1 z).
    + by eapply (iv_unique _ _ Hi t1 t2).
Qed.

Lemma inv_call c f t arg :
  inv c f -> threads c !! t = None -> inv (MkConfig (queue c) (<[t := entry arg]> (threads c))) f.
Proof.
  intros Hi Ht. assert (Hn : ticket (@entry T arg) = None) by by destruct arg.
  split; simpl; [apply Hi| |].
  - intros t' p [[<- <-]|[_ Hp]]%lookup_insert_Some; [by destruct arg|by eapply (iv_pc _ _ Hi)].
  - intros t1 t2 p1 p2 z [[<- <-]|[_ H1]]%lookup_insert_Some [[<- <-]|[_ H2]]%lookup_insert_Some Hz1 Hz2; try congruence.
    by eapply (iv_unique _ _ Hi t1 t2).
Qed.

Lemma act_sound a c f :
  inv c f -> enqs f + n < 2 ^ 32 ->
  exists e c' f', act a c = Ok (e, c') /\ inv c' f' /\ enqs f' <= enqs f + 1 /\
    match e with Some e => fifo n f e f' | None => f' = f end.
Proof.
  intros Hi Hb. assert (Hstay : exists e c' f', Ok (None, c) = Ok (e, c') /\ inv c' f' /\ enqs f' <= enqs f + 1 /\
    match e with Some e => fifo n f e f' | None => f' = f end) by (exists None, c, f; split_and!; done || lia).
  destruct a as [t arg|t flaky]; simpl; destruct (threads c !! t) as [pc|] eqn:Ht; try done.
  - exists None, (MkConfig (queue c) (<[t := entry arg]> (threads c))), f.
    split_and!; [done|by apply inv_call|lia|done].
  - destruct (step_sound flaky pc (queue c) f) as (pc' & q' & e & f' & E & Hm); [apply Hi|by eapply (iv_pc _ _ Hi)|done|].
    rewrite E. simpl. exists e, (MkConfig q' (resume t pc' (threads c))), f'.
    split_and!; [done|by eapply inv_move|apply Hm|apply Hm].
Qed.

Lemma run_sound acts : forall c f,
  inv c f -> enqs f + zlen acts + n <= 2 ^ 32 ->
  exists es c' f', run acts c = Ok (es, c') /\ inv c' f' /\ enqs f' <= enqs f + zlen acts /\ fifo_run n f es f'.
Proof.
  induction acts as [|a acts IH]; intros c f Hi Hb.
  - exists [], c, f. split_and!; [done|done|unfold zlen; simpl; lia|constructor].
  - assert (El : zlen (a :: acts) = zlen acts + 1) by (unfold zlen; simpl; lia). pose proof (zlen_nonneg acts).
    destruct (act_sound a c f Hi) as (e & c1 & f1 & E1 & Hi1 & Hg1 & He); [lia|].
    destruct (IH c1 f1 Hi1) as (es & c2 & f2 & E2 & Hi2 & Hg2 & Hr); [lia|].
    simpl. rewrite E1. simpl. rewrite E2. simpl.
    exists (match e with Some e => e :: es | None => es end), c2, f2. split_and!; [done|done|lia|].
    destruct e as [e|]; [by eapply fifo_step|by subst].
Qed.

Lemma start_inv junk : inv (start k junk) fifo_init.
Proof.
  pose proof n_range. assert (Esz : uwrap 32 (Z.shiftl 1 k) = n).
  { rewrite Z.shiftl_1_l. apply Z.mod_small. lia. }
  unfold start. split; simpl; [|by intros; rewrite lookup_empty in *|by intros; rewrite lookup_empty in *].
  unfold MpmcQueue_new. rewrite Esz.
  split; simpl; try done; try lia.
  - apply Z.mod_small. lia.
  - unfold zlen. simpl. lia.
  - intros pos Hp. pose proof (Z.mod_pos_bound pos n ltac:(lia)).
    exists (MkItem (pos mod n) junk), (pos mod n). split_and!; [|lia|by rewrite Z.mod_mod by lia|].
    + unfold item_at, at_. simpl. replace (uwrap 32 (n - 1)) with (n - 1) by (symmetry; apply Z.mod_small; lia).
      rewrite land_mask, list_lookup_fmap, lookup_seqZ_lt by lia. simpl. do 2 f_equal. lia.
    + apply cell_free; simpl; [done|unfold enqs, zlen; simpl; lia|apply lookup_empty].
  - intros pos [? Ho]. by rewrite lookup_empty in Ho.
Qed.

(** ** A thread left alone *)

(** Steps it still takes at most: a claim that is out of date costs one more
    round. *)
Definition left_pc q (pc : Pc T) : nat :=
  match pc with
  | InPush _ PushLoad | InPop PopLoad => 5
  | InPush _ (PushSeq pos) => if pos =? tail_ q then 4 else 6
  | InPop (PopSeq pos) => if pos =? head_ q then 4 else 6
  | InPush _ (PushCas pos) => if pos =? tail_ q then 3 else 5
  | InPop (PopCas pos) => if pos =? head_ q then 3 else 5
  | InPush _ (PushWrite _) | InPop (PopRead _) => 2
  | InPush _ (PushPublish _) | InPop (PopRelease _ _) => 1
  end.

Definition nearer q (pc : Pc T) (r : outcome (option (Pc T) * MpmcQueue T * option (event T))) : Prop :=
  forall pc' q' e, r = Ok (Some pc', q', e) -> (left_pc q' pc' < left_pc q pc)%nat.

Lemma push_nearer x pc q f : shared q f -> pc_ok q f (InPush x pc) -> nearer q (InPush x pc) (step false (InPush x pc) q).
Proof.
  intros Hs Hpc pc' q' e. destruct pc as [|pos|pos|pos|pos]; simpl.
  - intros [= <- <- <-]. simpl. rewrite Z.eqb_refl. lia.
  - destruct (item_at q pos) as [it| |] eqn:Hi; simpl; [|done..].
    destruct (Z.eqb_spec (seq_ it - pos) 0); [|destruct (Z.ltb_spec (seq_ it - pos) 0)]; simpl; intros [= <- <- <-]; simpl.
    + destruct (pos =? tail_ q); lia.
    + destruct (Z.eqb_spec pos (tail_ q)) as [->|]; [|lia].
      rewrite (sh_tail _ _ Hs) in *. pose proof (push_not_ahead _ _ _ Hs Hi). lia.
  - rewrite (Z.eqb_sym (tail_ q)). destruct (pos =? tail_ q) eqn:E; simpl; intros [= <- <- <-]; simpl; [lia|].
    rewrite Z.eqb_refl. lia.
  - destruct (item_at q pos); simpl; [|done..]. intros [= <- <- <-]. simpl. lia.
  - by destruct (item_at q pos).
Qed.

Lemma pop_nearer pc q f :
  shared q f -> pc_ok q f (InPop pc) -> enqs f + n < 2 ^ 32 -> nearer q (InPop pc) (step false (InPop pc) q).
Proof.
  intros Hs Hpc Hb pc' q' e. pose proof n_range. pose proof (enqs_deqs f). pose proof (sh_pos _ _ Hs).
  destruct pc as [|pos|pos|pos|pos v]; simpl in *.
  - intros [= <- <- <-]. simpl. rewrite Z.eqb_refl. lia.
  - destruct (item_at q pos) as [it| |] eqn:Hi; simpl; [|done..].
    replace (uwrap 32 (pos + 1)) with (pos + 1) by (symmetry; apply Z.mod_small; lia).
    destruct (Z.eqb_spec (seq_ it - (pos + 1)) 0); [|destruct (Z.ltb_spec (seq_ it - (pos + 1)) 0)];
      simpl; intros [= <- <- <-]; simpl.
    + destruct (pos =? head_ q); lia.
    + destruct (Z.eqb_spec pos (head_ q)) as [->|]; [|lia].
      rewrite (sh_head _ _ Hs) in *. pose proof (pop_not_ahead _ _ _ Hs Hi). lia.
  - rewrite (Z.eqb_sym (head_ q)). destruct (pos =? head_ q) eqn:E; simpl; intros [= <- <- <-]; simpl; [lia|].
    rewrite Z.eqb_refl. lia.
  - destruct (item_at q pos); simpl; [|done..]. intros [= <- <- <-]. simpl. lia.
  - by destruct (item_at q pos).
Qed.

Lemma step_nearer pc q f :
  shared q f -> pc_ok q f pc -> enqs f + n < 2 ^ 32 -> nearer q pc (step false pc q).
Proof. destruct pc; intros Hs Hpc Hb; [by eapply push_nearer|by eapply pop_nearer]. Qed.

(** A thread outside a call stays outside. *)
Lemma run_idle t m (c : config T) : threads c !! t = None -> run (repeat (Run t false) m) c = Ok ([], c).
Proof. intros Ht. induction m as [|m IH]; simpl; [done|]. rewrite Ht. simpl. rewrite IH. done. Qed.

Lemma solo t m : forall (c : config T) f pc,
  inv c f -> threads c !! t = Some pc -> (left_pc (queue c) pc <= m)%nat -> enqs f + Z.of_nat m + n <= 2 ^ 32 ->
  exists es c', run (repeat (Run t false) m) c = Ok (es, c') /\ threads c' = delete t (threads c).
Proof.
  induction m as [|m IH]; intros c f pc Hi Ht Hl Hb.
  { destruct pc as [y [|pos|pos|pos|pos]|[|pos|pos|pos|pos v]]; simpl in Hl; try case_match; lia. }
  assert (Hs : shared (queue c) f) by apply Hi. assert (Hpc : pc_ok (queue c) f pc) by by eapply (iv_pc _ _ Hi).
  destruct (step_sound false pc (queue c) f Hs Hpc) as (pc' & q' & e & f' & E & Hm); [lia|].
  pose proof (inv_move c f t pc pc' q' e f' Hi Ht Hm) as Hi'.
  pose proof (step_nearer pc (queue c) f Hs Hpc ltac:(lia)) as Hn. rewrite E in Hn.
  simpl. rewrite Ht, E. simpl. destruct pc' as [p|]; simpl in *.
  - pose proof (Hn _ _ _ eq_refl) as Hlt. pose proof (mv_grow _ _ _ _ _ _ _ Hm).
    destruct (IH (MkConfig q' (<[t := p]> (threads c))) f' p Hi') as (es & c' & Er & Ec); simpl; [apply lookup_insert_eq|lia|lia|].
    rewrite Er. simpl. exists (match e with Some e => e :: es | None => es end), c'. split; [done|].
    rewrite Ec. simpl. apply delete_insert_eq.
  - rewrite (run_idle t m) by (simpl; apply lookup_delete_eq). simpl. by eexists _, _.
Qed.
End sound.

(** ** What clients see *)

Section view.
Context {T : Type}.
Implicit Types (f : Fifo T) (e : event T) (es : list (event T)).





End view.

(** ** The queue is a queue *)


(** C33: in a run short enough for the 32-bit counters not to wrap (all accesses
    of all threads, six more and the capacity are at most 2^32), a thread inside
    [Push] or [Pop] that runs alone, its compare-and-swaps not failing by
    themselves, returns within six accesses wherever it and the others stand: it
    never waits for another thread.  At the wrap [Pop] can spin for ever
    ([pop_spins_at_the_wrap]). *)
Theorem mpmc_solo_returns {T} (sizeLog2 : Z) (junk : T) (acts : list (action T)) es c t pc :
  1 <= sizeLog2 <= 30 -> zlen acts + 6 + 2 ^ sizeLog2 <= 2 ^ 32 ->
  run acts (start sizeLog2 junk) = Ok (es, c) -> threads c !! t = Some pc ->
  exists es' c', run (repeat (Run t false) 6) c = Ok (es', c') /\ threads c' = delete t (threads c).
Proof.
  intros Hk Hb Hr Ht.
  destruct (run_sound sizeLog2 Hk acts _ _ (start_inv sizeLog2 Hk junk)) as (es0 & c0 & f & E & Hi & Hg & _);
    [change (enqs fifo_init) with 0; lia|].
  rewrite Hr in E. injection E as <- <-. change (enqs fifo_init) with 0 in Hg.
  apply (solo sizeLog2 Hk t 6 c f pc); [done|done| |simpl; lia].
  destruct pc as [y [|pos|pos|pos|pos]|[|pos|pos|pos|pos v]]; simpl; try case_match; lia.
Qed.

(** * Runs of the bounded queue

    The theorems of [ExecMpmcFifo] at a concrete schedule, and what happens
    outside their bounds: at the end of the 32-bit counters, and with a single
    cell. *)

Module RunsMpmc.

(** Two producers and two consumers on two cells: thread 1 claims its ticket
    first and publishes last, thread 2 is done in between, thread 3 finds the
    oldest value unpublished and fails, then pops it. *)
Definition contended : list (action Z) :=
  [Call 1 (Some 11); Call 2 (Some 22); Run 1 false; Run 2 false; Run 1 false; Run 2 false;
   Run 1 true; Run 1 false; Run 1 false; Run 2 false; Run 2 false; Run 2 false; Run 2 false; Run 2 false;
   Call 3 None; Run 3 false; Run 3 false;
   Run 1 false; Run 1 false;
   Call 3 None; Call 4 None; Run 3 false; Run 4 false; Run 3 false; Run 4 false; Run 4 false; Run 3 false;
   Run 4 false; Run 3 false; Run 3 false; Run 3 false; Run 4 false; Run 3 false].

Example contended_events :
  ('(es, _) ← run contended (start 1 0); Ok es) =
  Ok [Enq 11; Enq 22; Pub 1; PopEmpty; Pub 0; Deq 0; Deq 1; Ret 0 11; Ret 1 22].
Proof. vm_compute. reflexivity. Qed.


(** Thread 2 stands before a compare-and-swap whose ticket thread 1 has taken,
    and thread 1 before its write. *)
Definition half_done : list (action Z) := take 9 contended.
Definition half_done_config : config Z :=
  match run half_done (start 1 0) with Ok (_, c) => c | _ => start 1 0 end.

Lemma mpmc_solo_returns_run :
  threads half_done_config !! 2%nat = Some (InPush 22 (PushCas 0)) /\
  exists es c, run (repeat (Run 2 false) 6) half_done_config = Ok (es, c) /\
    threads c = delete 2%nat (threads half_done_config).
Proof.
  assert (Ht : threads half_done_config !! 2%nat = Some (InPush 22 (PushCas 0))) by (vm_compute; reflexivity).
  split; [exact Ht|].
  refine (mpmc_solo_returns 1 0 half_done [Enq 11] half_done_config 2 _ _ _ _ Ht).
  - split; discriminate.
  - vm_compute. discriminate.
  - vm_compute. reflexivity.
Defined.
End RunsMpmc.

Module RunsMpmcEdges.

(** The state after 2^32 - 1 pushes and as many pops on two cells, a consumer
    entering the empty queue. *)
Definition worn : MpmcQueue Z :=
  MkQueue 2 1 [MkItem 0 0; MkItem (2 ^ 32 - 1) 0] (2 ^ 32 - 1) (2 ^ 32 - 1).

(** [pos + 1] wraps to 0 in 32 bits and the difference is taken in 64: the
    number of the cell seems ahead, and [Pop] goes round for ever instead of
    returning false. *)
Example pop_spins_at_the_wrap m :
  run (repeat (Run 0 false) (2 * m)) (MkConfig worn {[ 0%nat := InPop PopLoad ]}) =
  Ok ([], MkConfig worn {[ 0%nat := InPop PopLoad ]}).
Proof.
  set (c := MkConfig worn {[ 0%nat := InPop PopLoad ]}).
  set (c' := MkConfig worn {[ 0%nat := InPop (PopSeq (2 ^ 32 - 1)) ]}).
  assert (E : act (Run 0 false) c = Ok (None, c')) by (vm_compute; reflexivity).
  assert (E' : act (Run 0 false) c' = Ok (None, c)) by (vm_compute; reflexivity).
  induction m as [|m IH]; [reflexivity|].
  replace (2 * S m)%nat with (S (S (2 * m))) by lia. cbn [repeat run].
  rewrite E. cbn [mbind outcome_bind]. rewrite E'. cbn [mbind outcome_bind]. rewrite IH. reflexivity.
Qed.

(** With a single cell a published number is also the next free one: the second
    [Push] overwrites the first value, and [Pop] goes round. *)
Example single_cell_overwrites :
  let push v := Call 0 (Some v) :: repeat (Run 0 false) 5 in
  let pop := Call 0 None :: repeat (Run 0 false) 5 in
  ('(es, _) ← run (push 1 ++ push 2 ++ pop) (start 0 0); Ok es) =
  Ok [Enq 1; Pub 0; Enq 2; Pub 1].
Proof. vm_compute. reflexivity. Qed.
End RunsMpmcEdges.
