(* ===== verification/MemStream.v ===== *)
(** * MemStream: device memory shared by several streams

    [runtime/v2/kernel/memory]: [mif.h], [multi_stream_mem_block.h] and [.cc],
    [multi_stream_mem_block_pool.h], [ref_object_pool.h], [version_blocks.h],
    [borrow_allocator.cc], [multi_stream_l2_allocator.h] and [.cc], and the
    event kernels of [runtime/v2/kernel/common_kernel_impl/event.cc] that
    carry recycling messages between streams.

    A stream id is an index; a negative id, which fails the same checks, is
    represented by one that is too large.  Block objects live in a heap,
    pointers to them are its keys; an allocator is its stream's index in the
    vector of allocators every one of them holds.  The second level memory
    pools and the device runtime are interfaces. *)

From S2P Require Import Prelude.

(** ** Interfaces *)

(** [L2MemPool], one per stream, and the pool of wrapped tensor data.  The
    memory blocks they hand out are pointers; [pool_Free] is the block's own
    [Free]. *)
Class L2MemPool := {
  Pool : Type;
  pool_Malloc : nat -> Z -> Pool -> option positive * Pool;
  pool_Share : nat -> Z -> Pool -> option positive * Pool;
  pool_Free : positive -> Pool -> Pool;
  pool_Recycle : nat -> Pool -> Pool;
  pool_MoveL2ToL1 : nat -> positive -> Pool -> option positive * Pool;
  pool_GetSize : positive -> Pool -> Z;
}.

(** The device runtime's events: whether a call succeeds. *)
Class Rts := {
  aclrtRecordEvent : nat -> bool;
  rtStreamWaitEvent : nat -> bool;
}.

(** The order in which an unordered set of blocks is iterated. *)
Class SetOrder := { set_order : gset positive -> list positive }.

(** ** Bits per stream *)

(** [mif.h]: for every observing stream, the streams that occupy the block as
    far as it knows. *)
Definition kDefaultMaxStreamNum : nat := 8.

Module Mif.
Definition ToBit (stream_id : nat) : Z := uwrap 64 (Z.shiftl 1 (Z.of_nat stream_id)).
Definition ReInit (stream_num : nat) : list Z := replicate stream_num 0.
Definition Set_ (maintained stream : nat) (m : list Z) : outcome (list Z) :=
  bits ← at_ m maintained; Ok (<[maintained := Z.lor bits (ToBit stream)]> m).
Definition SetAll (stream : nat) (m : list Z) : list Z := (fun bits => Z.lor bits (ToBit stream)) <$> m.
Definition SetMaintainedAll (maintained : nat) (m : list Z) : outcome (list Z) :=
  _ ← at_ m maintained; Ok (<[maintained := uwrap 64 (ToBit (length m) - 1)]> m).
Definition Clear (maintained stream : nat) (m : list Z) : outcome (list Z) :=
  bits ← at_ m maintained; Ok (<[maintained := Z.land bits (uwrap 64 (Z.lnot (ToBit stream)))]> m).
Definition MergeClearedFrom (src dst : nat) (m : list Z) : outcome (list Z) :=
  d ← at_ m dst; s ← at_ m src; Ok (<[dst := Z.land d s]> m).
Definition IsSet (maintained stream : nat) (m : list Z) : outcome bool :=
  bits ← at_ m maintained; Ok (negb (Z.land bits (ToBit stream) =? 0)).
Definition IsAnySet (maintained : nat) (m : list Z) : outcome bool :=
  bits ← at_ m maintained; Ok (negb (bits =? 0)).
End Mif.

(** ** Data *)

Inductive MainType := kTensorDataWrapped | kNorm | kEnd.
#[global] Instance MainType_eq_dec : EqDecision MainType.
Proof. solve_decision. Defined.

(** [birth_allocator_] is the stream of the allocator, [None] the null
    pointer. *)
Record MultiStreamMemBlock := MkBlock {
  mem_block_ : option positive;
  version_ : Z;
  birth_allocator_ : option nat;
  alloc_type_ : MainType;
  occupy_mif_ : list Z;
  stream_ids_to_occupy_count_ : list Z;
}.
Definition set_mem_block_ v b :=
  MkBlock v (version_ b) (birth_allocator_ b) (alloc_type_ b) (occupy_mif_ b) (stream_ids_to_occupy_count_ b).
Definition set_version_ v b :=
  MkBlock (mem_block_ b) v (birth_allocator_ b) (alloc_type_ b) (occupy_mif_ b) (stream_ids_to_occupy_count_ b).
Definition set_birth_allocator_ v b :=
  MkBlock (mem_block_ b) (version_ b) v (alloc_type_ b) (occupy_mif_ b) (stream_ids_to_occupy_count_ b).
Definition set_alloc_type_ v b :=
  MkBlock (mem_block_ b) (version_ b) (birth_allocator_ b) v (occupy_mif_ b) (stream_ids_to_occupy_count_ b).
Definition set_occupy_mif_ v b :=
  MkBlock (mem_block_ b) (version_ b) (birth_allocator_ b) (alloc_type_ b) v (stream_ids_to_occupy_count_ b).
Definition set_counts v b :=
  MkBlock (mem_block_ b) (version_ b) (birth_allocator_ b) (alloc_type_ b) (occupy_mif_ b) v.

Record VersionBlock := MkVersionBlock { version : Z; block : positive }.
#[global] Instance VersionBlock_eq_dec : EqDecision VersionBlock.
Proof. solve_decision. Defined.
Record StreamedVersionBlock := MkStreamed { version_block : VersionBlock; sent_flags : Z }.

(** [MultiStreamL2Allocator] of one stream, with its [BorrowAllocator] and its
    pool of block objects: [holder_] has the segments, [free_] the stack of
    free objects. *)
Record L2Allocator := MkAllocator {
  holder_ : list (list positive);
  free_ : list positive;
  local_recycle_blocks_ : list StreamedVersionBlock;
  size_to_borrow_block : gmap Z (gset positive);
  stream_to_borrow_block : gmap nat (gset positive);
}.
Definition set_pool_ h f a :=
  MkAllocator h f (local_recycle_blocks_ a) (size_to_borrow_block a) (stream_to_borrow_block a).
Definition set_local l a := MkAllocator (holder_ a) (free_ a) l (size_to_borrow_block a) (stream_to_borrow_block a).
Definition set_borrow z s a := MkAllocator (holder_ a) (free_ a) (local_recycle_blocks_ a) z s.

(** [gert_event.h] *)
Record GertEvent := MkEvent {
  logic_src_stream : nat;
  logic_dst_stream : nat;
  block_free_by_src_stream : list VersionBlock;
  block_need_return_birth : list positive;
}.
Definition set_space fs bs e := MkEvent (logic_src_stream e) (logic_dst_stream e) fs bs.

Section stream.
Context `{L2MemPool}.

Record World := MkWorld {
  blocks : gmap positive MultiStreamMemBlock;
  next_block : positive;
  allocators : list L2Allocator;
  events : list GertEvent;
  pool : Pool;
}.
Definition set_blocks v w := MkWorld v (next_block w) (allocators w) (events w) (pool w).
Definition set_next_block v w := MkWorld (blocks w) v (allocators w) (events w) (pool w).
Definition set_allocators v w := MkWorld (blocks w) (next_block w) v (events w) (pool w).
Definition set_events v w := MkWorld (blocks w) (next_block w) (allocators w) v (pool w).
Definition set_pool v w := MkWorld (blocks w) (next_block w) (allocators w) (events w) v.

Definition W (A : Type) : Type := World -> outcome (A * World).
#[global] Instance W_ret : MRet W := fun A a w => Ok (a, w).
#[global] Instance W_bind : MBind W := fun A B f m w => '(a, w) ← m w; f a w.
Definition getw {A} (f : World -> A) : W A := fun w => Ok (f w, w).
Definition putw (f : World -> World) : W unit := fun w => Ok (tt, f w).
Definition liftw {A} (o : outcome A) : W A := fun w => a ← o; Ok (a, w).

Definition deref (b : positive) : W MultiStreamMemBlock :=
  h ← getw blocks; liftw (match h !! b with Some k => Ok k | None => Fault end).
Definition store (b : positive) (k : MultiStreamMemBlock) : W unit :=
  putw (fun w => set_blocks (<[b := k]> (blocks w)) w).
Definition allocator (s : nat) : W L2Allocator := l ← getw allocators; liftw (at_ l s).
Definition store_allocator (s : nat) (a : L2Allocator) : W unit :=
  putw (fun w => set_allocators (<[s := a]> (allocators w)) w).
Definition on_pool (f : Pool -> option positive * Pool) : W (option positive) :=
  p ← getw pool; let '(r, p) := f p in _ ← putw (set_pool p); mret r.

(** [GE_ASSERT_SUCCESS(m)] in front of the rest. *)
Definition must (m : W Status) (k : W Status) : W Status :=
  st ← m; if decide (st = SUCCESS) then k else mret GRAPH_FAILED.
Definition assert_true (c : bool) (k : W Status) : W Status := if c then k else mret GRAPH_FAILED.

End stream.
Arguments World _ : clear implicits.

(** ** MultiStreamMemBlock *)

Module MemBlock.
Section ops.
Context `{L2MemPool}.

Definition construct : MultiStreamMemBlock :=
  MkBlock None 0 None kEnd [] (replicate kDefaultMaxStreamNum 0).
Definition IsStreamIdValid (stream_id : nat) (k : MultiStreamMemBlock) : bool :=
  (stream_id <? length (stream_ids_to_occupy_count_ k))%nat.
Definition GetSize (k : MultiStreamMemBlock) : W Z :=
  match mem_block_ k with
  | None => mret 0
  | Some m => getw (fun w => pool_GetSize m (pool w))
  end.
Definition GetBirthStreamId (k : MultiStreamMemBlock) : W nat :=
  liftw (match birth_allocator_ k with Some s => Ok s | None => Fault end).

Definition AddCount (stream_id : nat) (b : positive) : W Z :=
  k ← deref b;
  if negb (IsStreamIdValid stream_id k) then mret 0 else
  c ← liftw (at_ (stream_ids_to_occupy_count_ k) stream_id);
  let c := uwrap 64 (c + 1) in
  _ ← store b (set_counts (<[stream_id := c]> (stream_ids_to_occupy_count_ k)) k);
  mret c.
Definition SubCount (stream_id : nat) (b : positive) : W Z :=
  k ← deref b;
  if negb (IsStreamIdValid stream_id k) then mret 0 else
  c ← liftw (at_ (stream_ids_to_occupy_count_ k) stream_id);
  let c := uwrap 64 (c - 1) in
  _ ← store b (set_counts (<[stream_id := c]> (stream_ids_to_occupy_count_ k)) k);
  mret c.
Definition GetCount (stream_id : nat) (b : positive) : W Z :=
  k ← deref b;
  if negb (IsStreamIdValid stream_id k) then mret 0
  else liftw (at_ (stream_ids_to_occupy_count_ k) stream_id).

Definition PlusVersion (b : positive) : W unit := k ← deref b; store b (set_version_ (version_ k + 1) k).
Definition ClearMemBlock (b : positive) : W unit := k ← deref b; store b (set_mem_block_ None k).

(** [birth_allocator_->GetStreamNum()] is the size of the vector of
    allocators. *)
Definition ReInitMifs (b : positive) : W unit :=
  k ← deref b;
  _ ← GetBirthStreamId k;
  n ← getw (fun w => length (allocators w));
  store b (set_counts (replicate n 0) (set_occupy_mif_ (Mif.ReInit n) k)).

Definition NewAccessStream (src_stream dst_stream : nat) (b : positive) : W Status :=
  k ← deref b;
  assert_true (IsStreamIdValid src_stream k) (
  assert_true (IsStreamIdValid dst_stream k) (
  c ← liftw (at_ (stream_ids_to_occupy_count_ k) dst_stream);
  _ ← store b (set_occupy_mif_ (Mif.SetAll dst_stream (occupy_mif_ k))
        (set_counts (<[dst_stream := uwrap 64 (c + 1)]> (stream_ids_to_occupy_count_ k)) k));
  mret SUCCESS)).

Definition ReInit (birth_allocator : nat) (m : positive) (alloc_type : MainType) (b : positive) : W Status :=
  k ← deref b;
  let k := set_birth_allocator_ (Some birth_allocator) k in
  _ ← store b k;
  match mem_block_ k with
  | Some _ => mret PARAM_INVALID
  | None =>
    _ ← store b (set_alloc_type_ alloc_type (set_mem_block_ (Some m) k));
    _ ← ReInitMifs b;
    NewAccessStream birth_allocator birth_allocator b
  end.

Definition CanGlobalRecycle (stream_id : nat) (b : positive) : W bool :=
  k ← deref b; any ← liftw (Mif.IsAnySet stream_id (occupy_mif_ k)); mret (negb any).
Definition UpdateLocalRecycleMif (stream_id : nat) (b : positive) : W unit :=
  k ← deref b; m ← liftw (Mif.Clear stream_id stream_id (occupy_mif_ k)); store b (set_occupy_mif_ m k).
End ops.
End MemBlock.

(** ** The pool of block objects *)

Definition kPoolSize : nat := 1000.

Module BlockPool.
Section ops.
Context `{L2MemPool}.

Definition Extend (s : nat) : W unit :=
  a ← allocator s;
  p ← getw next_block;
  let seg := (fun i => Pos.of_nat (Pos.to_nat p + i)) <$> seq 0 kPoolSize in
  _ ← putw (fun w => set_next_block (Pos.of_nat (Pos.to_nat p + kPoolSize))
        (set_blocks (list_to_map ((fun b => (b, MemBlock.construct)) <$> seg) ∪ blocks w) w));
  store_allocator s (set_pool_ (holder_ a ++ [seg]) (free_ a ++ seg) a).

Definition pop_back (l : list positive) : option (positive * list positive) :=
  match last l with Some x => Some (x, take (length l - 1) l) | None => None end.

Definition Acquire (s : nat) (m : positive) (alloc_type : MainType) : W (option positive) :=
  a ← allocator s;
  _ ← (if decide (free_ a = []) then Extend s else mret ());
  a ← allocator s;
  match pop_back (free_ a) with
  | None => mret None
  | Some (element, rest) =>
    _ ← store_allocator s (set_pool_ (holder_ a) rest a);
    st ← MemBlock.ReInit s m alloc_type element;
    mret (if decide (st = SUCCESS) then Some element else None)
  end.

(** [GetMemBlock()->Free()] has no check for null. *)
Definition Release (s : nat) (b : positive) : W unit :=
  k ← deref b;
  m ← liftw (match mem_block_ k with Some m => Ok m | None => Fault end);
  _ ← putw (fun w => set_pool (pool_Free m (pool w)) w);
  _ ← MemBlock.PlusVersion b;
  _ ← MemBlock.ClearMemBlock b;
  a ← allocator s;
  store_allocator s (set_pool_ (holder_ a) (free_ a ++ [b]) a).
End ops.
End BlockPool.

(** ** Borrowed blocks *)

Module Borrow.
Section ops.
Context `{L2MemPool, SetOrder}.

(** [std::map::lower_bound]: the least key that is not below [size]. *)
Definition lower_bound (size : Z) (m : gmap Z (gset positive)) : option Z :=
  foldr (fun k r => if size <=? k then Some (match r with Some k' => Z.min k k' | None => k end) else r)
    None (elements (dom m)).

(** [erase(size)] erases the key that was asked for, which need not be the one
    that was found. *)
Definition Alloc (s : nat) (size : Z) : W (option positive) :=
  a ← allocator s;
  match lower_bound size (size_to_borrow_block a) with
  | None => mret None
  | Some key =>
    let found := default ∅ (size_to_borrow_block a !! key) in
    b ← liftw (match set_order found with b :: _ => Ok b | [] => Fault end);
    k ← deref b;
    birth ← MemBlock.GetBirthStreamId k;
    let found := found ∖ {[ b ]} in
    let by_stream := default ∅ (stream_to_borrow_block a !! birth) ∖ {[ b ]} in
    let by_size := <[key := found]> (size_to_borrow_block a) in
    _ ← store_allocator s (set_borrow (if decide (found = ∅) then delete size by_size else by_size)
          (<[birth := by_stream]> (stream_to_borrow_block a)) a);
    mret (Some b)
  end.

Definition Free (s : nat) (b : positive) : W unit :=
  k ← deref b;
  size ← MemBlock.GetSize k;
  birth ← MemBlock.GetBirthStreamId k;
  a ← allocator s;
  store_allocator s (set_borrow
    (<[size := {[ b ]} ∪ default ∅ (size_to_borrow_block a !! size)]> (size_to_borrow_block a))
    (<[birth := {[ b ]} ∪ default ∅ (stream_to_borrow_block a !! birth)]> (stream_to_borrow_block a)) a).

(** The loop over the blocks of a birth stream. *)
Fixpoint clear_sizes (s : nat) (bs : list positive) : W unit :=
  match bs with
  | [] => mret ()
  | b :: bs =>
    k ← deref b;
    size ← MemBlock.GetSize k;
    a ← allocator s;
    _ ← (match size_to_borrow_block a !! size with
         | None => mret ()
         | Some found =>
           let found := found ∖ {[ b ]} in
           store_allocator s (set_borrow
             (if decide (found = ∅) then delete size (size_to_borrow_block a)
              else <[size := found]> (size_to_borrow_block a)) (stream_to_borrow_block a) a)
         end);
    clear_sizes s bs
  end.

Definition GetAndClearBorrowBlocks (s stream_id : nat) : W (list positive) :=
  a ← allocator s;
  match stream_to_borrow_block a !! stream_id with
  | None => mret []
  | Some bs =>
    if decide (bs = ∅) then mret [] else
    let target_blocks := set_order bs in
    _ ← clear_sizes s target_blocks;
    a ← allocator s;
    _ ← store_allocator s (set_borrow (size_to_borrow_block a) (delete stream_id (stream_to_borrow_block a)) a);
    mret target_blocks
  end.
End ops.
End Borrow.

(** ** The allocator of a stream *)

Module L2.
Section ops.
Context `{L2MemPool, SetOrder}.

Definition construct : L2Allocator := MkAllocator [] [] [] ∅ ∅.

Definition Malloc (s : nat) (size : Z) : W (option positive) :=
  m ← on_pool (pool_Malloc s size);
  match m with
  | Some m => BlockPool.Acquire s m kNorm
  | None =>
    b ← Borrow.Alloc s size;
    match b with
    | None => mret None
    | Some b => _ ← MemBlock.NewAccessStream s s b; mret (Some b)
    end
  end.

(** [TiGtdAllocator::ShareFromTensorData]: the block object of the new tensor
    data. *)
Definition ShareFromTensorData (s : nat) (td : Z) : W (option positive) :=
  m ← on_pool (pool_Share s td);
  match m with
  | None => mret None
  | Some m => BlockPool.Acquire s m kTensorDataWrapped
  end.

Definition BirthRecycle (s : nat) (b : positive) : W Status :=
  k ← deref b;
  match mem_block_ k with
  | None => mret GRAPH_FAILED
  | Some _ =>
    birth ← MemBlock.GetBirthStreamId k;
    assert_true (bool_decide (s = birth)) (_ ← BlockPool.Release s b; mret SUCCESS)
  end.

Definition BorrowRecycle (s : nat) (b : positive) : W unit :=
  _ ← Borrow.Free s b;
  _ ← MemBlock.PlusVersion b;
  MemBlock.ReInitMifs b.

Definition LocalRecycle (s : nat) (b : positive) : W unit :=
  k ← deref b;
  a ← allocator s;
  store_allocator s (set_local (local_recycle_blocks_ a ++ [MkStreamed (MkVersionBlock (version_ k) b) 0]) a).

Definition Free (s : nat) (b : positive) : W unit :=
  count ← MemBlock.GetCount s b;
  need_recycle ← (if 0 <? count then
                    count ← MemBlock.SubCount s b;
                    if count =? 0 then _ ← MemBlock.UpdateLocalRecycleMif s b; mret true
                    else mret false
                  else mret false);
  global ← MemBlock.CanGlobalRecycle s b;
  if (global : bool) then
    k ← deref b;
    birth ← MemBlock.GetBirthStreamId k;
    if decide (birth = s) then _ ← BirthRecycle s b; mret () else BorrowRecycle s b
  else if (need_recycle : bool) then LocalRecycle s b
  else mret ().

Definition FreeAt (stream_id : nat) (b : positive) : W Status := _ ← Free stream_id b; mret SUCCESS.

Definition MoveL2ToL1 (s : nat) (b : positive) : W Status :=
  k ← deref b;
  if decide (alloc_type_ k = kTensorDataWrapped) then mret SUCCESS else
  match mem_block_ k with
  | None => mret GRAPH_FAILED
  | Some m =>
    l1 ← on_pool (pool_MoveL2ToL1 s m);
    match l1 with
    | None => mret GRAPH_FAILED
    | Some m' => k ← deref b; _ ← store b (set_mem_block_ (Some m') k); mret SUCCESS
    end
  end.

Definition RecycleFreeMem (s : nat) : W Status := _ ← putw (fun w => set_pool (pool_Recycle s (pool w)) w); mret SUCCESS.

(** The destructor: what is not in the free list goes back by force. *)
Fixpoint recycle_by_force (s : nat) (free_set : list positive) (all_blocks : list positive) : W unit :=
  match all_blocks with
  | [] => mret ()
  | b :: all_blocks =>
    _ ← (if decide (b ∈ free_set) then mret () else _ ← BirthRecycle s b; mret ());
    recycle_by_force s free_set all_blocks
  end.
Definition destroy (s : nat) : W unit :=
  a ← allocator s;
  recycle_by_force s (free_ a) (mjoin (holder_ a)).

(** *** The block's operations that go through an allocator *)

Definition MemBlock_Free (stream_id : nat) (b : positive) : W unit :=
  k ← deref b;
  match mem_block_ k with
  | None => mret ()
  | Some _ =>
    if negb (MemBlock.IsStreamIdValid stream_id k) then mret () else
    _ ← MemBlock.GetBirthStreamId k;
    _ ← FreeAt stream_id b;
    mret ()
  end.

(** A C++ comparison of two flags. *)
Definition geb (a b : bool) : bool := a || negb b.

Definition SyncLocalRecycleStatus (src_stream dst_stream : nat) (b : positive) : W Status :=
  k ← deref b;
  assert_true (MemBlock.IsStreamIdValid src_stream k) (
  assert_true (MemBlock.IsStreamIdValid dst_stream k) (
  sd ← liftw (Mif.IsSet src_stream dst_stream (occupy_mif_ k));
  dd ← liftw (Mif.IsSet dst_stream dst_stream (occupy_mif_ k));
  assert_true (geb sd dd) (
  ds ← liftw (Mif.IsSet dst_stream src_stream (occupy_mif_ k));
  ss ← liftw (Mif.IsSet src_stream src_stream (occupy_mif_ k));
  assert_true (geb ds ss) (
  m ← liftw (Mif.MergeClearedFrom src_stream dst_stream (occupy_mif_ k));
  _ ← store b (set_occupy_mif_ m k);
  any ← liftw (Mif.IsAnySet dst_stream m);
  _ ← (if (any : bool) then mret () else MemBlock_Free dst_stream b);
  mret SUCCESS)))).

Fixpoint sync_all (dst_stream : nat) (b : positive) (stream_ids : list nat) : W unit :=
  match stream_ids with
  | [] => mret ()
  | stream_id :: stream_ids =>
    if decide (stream_id = dst_stream) then sync_all dst_stream b stream_ids else
    k ← deref b;
    m ← liftw (Mif.MergeClearedFrom stream_id dst_stream (occupy_mif_ k));
    _ ← store b (set_occupy_mif_ m k);
    any ← liftw (Mif.IsAnySet dst_stream m);
    if (any : bool) then sync_all dst_stream b stream_ids else MemBlock_Free dst_stream b
  end.

(** [stream_ids_to_occupy_count_] keeps its length while the loop runs, but
    for the last turn, which leaves it. *)
Definition SyncAllLocalRecycleStatus (dst_stream : nat) (b : positive) : W Status :=
  k ← deref b;
  assert_true (MemBlock.IsStreamIdValid dst_stream k) (
  _ ← sync_all dst_stream b (seq 0 (length (stream_ids_to_occupy_count_ k)));
  mret SUCCESS).
End ops.
End L2.

(** ** Walking the locally recycled blocks *)

Module VersionBlocks.
Section ops.
Context `{L2MemPool}.

Definition ToBit := Mif.ToBit.
Definition ToAllBit (stream_num stream_id : nat) : Z :=
  Z.land (uwrap 64 (ToBit stream_num - 1)) (uwrap 64 (Z.lnot (ToBit stream_id))).

(** One turn of the search loops: the entry is erased, passed over, or marked
    and returned. *)
Inductive verdict := Drop | Skip | Visit.
Definition FindNext (dst_stream_bit all_sent_bits : Z) (current : Z) (e : StreamedVersionBlock) : verdict :=
  if negb (version (version_block e) =? current) then Drop
  else if sent_flags e =? all_sent_bits then Drop
  else if negb (Z.land (sent_flags e) dst_stream_bit =? 0) then Skip
  else Visit.
Definition FindNextForAll (dst_stream_bit all_sent_bits : Z) (current : Z) (e : StreamedVersionBlock) : verdict :=
  if negb (version (version_block e) =? current) then Drop
  else if sent_flags e =? all_sent_bits then Drop
  else Visit.

(** [for (iter = Begin(); iter != End(); Next(iter)) body], [i] being where the
    iterator stands. *)
Fixpoint walk (fuel : nat) (policy : Z -> Z -> Z -> StreamedVersionBlock -> verdict) (dst_stream_bit all_sent_bits : Z)
    (s : nat) (body : VersionBlock -> W Status) (i : nat) : W Status :=
  match fuel with
  | O => liftw Fault
  | S fuel =>
    a ← allocator s;
    match local_recycle_blocks_ a !! i with
    | None => mret SUCCESS
    | Some e =>
      k ← deref (block (version_block e));
      match policy dst_stream_bit all_sent_bits (version_ k) e with
      | Drop =>
        _ ← store_allocator s (set_local (delete i (local_recycle_blocks_ a)) a);
        walk fuel policy dst_stream_bit all_sent_bits s body i
      | Skip => walk fuel policy dst_stream_bit all_sent_bits s body (S i)
      | Visit =>
        let e := MkStreamed (version_block e) (Z.lor (sent_flags e) dst_stream_bit) in
        _ ← store_allocator s (set_local (<[i := e]> (local_recycle_blocks_ a)) a);
        must (body (version_block e)) (walk fuel policy dst_stream_bit all_sent_bits s body (S i))
      end
    end
  end.
Definition walk_all policy dst_stream_bit all_sent_bits s body : W Status :=
  a ← allocator s;
  walk (S (length (local_recycle_blocks_ a))) policy dst_stream_bit all_sent_bits s body 0.
End ops.
End VersionBlocks.

(** ** Events between streams *)

Module Event.
Section ops.
Context `{L2MemPool, SetOrder, Rts}.

Definition event (e : nat) : W GertEvent := l ← getw events; liftw (at_ l e).
Definition store_event (e : nat) (v : GertEvent) : W unit :=
  putw (fun w => set_events (<[e := v]> (events w)) w).

Definition CreateGertEvents (infos : list (nat * nat)) : list GertEvent :=
  (fun '(src, dst) => MkEvent src dst [] []) <$> infos.

Definition CallRtsSendEvent (e : nat) : W Status := mret (if aclrtRecordEvent e then SUCCESS else GRAPH_FAILED).
Definition CallRtsWaitEvent (e : nat) : W Status := mret (if rtStreamWaitEvent e then SUCCESS else GRAPH_FAILED).

Definition SendEvent (s : nat) (e : nat) : W Status :=
  ev ← event e;
  n ← getw (fun w => length (allocators w));
  _ ← VersionBlocks.walk_all VersionBlocks.FindNext (VersionBlocks.ToBit (logic_dst_stream ev))
        (VersionBlocks.ToAllBit n s) s
        (fun vb => ev ← event e;
                   _ ← store_event e (set_space (block_free_by_src_stream ev ++ [vb]) (block_need_return_birth ev) ev);
                   mret SUCCESS);
  migration_blocks ← Borrow.GetAndClearBorrowBlocks s (logic_dst_stream ev);
  ev ← event e;
  _ ← store_event e (set_space (block_free_by_src_stream ev) (block_need_return_birth ev ++ migration_blocks) ev);
  CallRtsSendEvent e.

Fixpoint sync_blocks (src dst : nat) (vbs : list VersionBlock) : W Status :=
  match vbs with
  | [] => mret SUCCESS
  | vb :: vbs =>
    k ← deref (block vb);
    if negb (version vb =? version_ k) then sync_blocks src dst vbs
    else must (L2.SyncLocalRecycleStatus src dst (block vb)) (sync_blocks src dst vbs)
  end.

Fixpoint recycle_blocks (s : nat) (bs : list positive) : W Status :=
  match bs with
  | [] => mret SUCCESS
  | b :: bs => must (L2.BirthRecycle s b) (recycle_blocks s bs)
  end.

Definition WaitEvent (s : nat) (e : nat) : W Status :=
  must (CallRtsWaitEvent e) (
  ev ← event e;
  must (sync_blocks (logic_src_stream ev) (logic_dst_stream ev) (block_free_by_src_stream ev)) (
  _ ← store_event e (set_space [] (block_need_return_birth ev) ev);
  must (recycle_blocks s (block_need_return_birth ev)) (
  _ ← store_event e (set_space [] [] ev);
  mret SUCCESS))).

(** [DoEvents]: the events of a kernel, [rt_events] the number of runtime
    events it was given. *)
Fixpoint do_each (func : nat -> W Status) (event_ids : list nat) : W Status :=
  match event_ids with
  | [] => mret SUCCESS
  | event_id :: event_ids =>
    n ← getw (fun w => length (events w));
    if (n <=? event_id)%nat then mret GRAPH_FAILED else
    must (func event_id) (do_each func event_ids)
  end.
Definition DoEvents (func : nat -> W Status) (rt_events : nat) (event_ids : list nat) : W Status :=
  n ← getw (fun w => length (events w));
  if (rt_events <? n)%nat then mret GRAPH_FAILED else do_each func event_ids.

Definition SendEvents (s : nat) := DoEvents (SendEvent s).
Definition WaitEvents (s : nat) := DoEvents (WaitEvent s).
Definition LastSendEvents := DoEvents CallRtsSendEvent.

(** *** The end of a run *)

Fixpoint recycle_at_birth (bs : list positive) : W Status :=
  match bs with
  | [] => mret SUCCESS
  | b :: bs =>
    k ← deref b;
    birth ← MemBlock.GetBirthStreamId k;
    must (L2.BirthRecycle birth b) (recycle_at_birth bs)
  end.
Fixpoint return_borrowed (src_stream_id : nat) (dst_stream_ids : list nat) : W Status :=
  match dst_stream_ids with
  | [] => mret SUCCESS
  | dst :: dst_stream_ids =>
    bs ← Borrow.GetAndClearBorrowBlocks src_stream_id dst;
    must (recycle_at_birth bs) (return_borrowed src_stream_id dst_stream_ids)
  end.
Fixpoint recycle_streams (stream_num : nat) (src_stream_ids : list nat) : W Status :=
  match src_stream_ids with
  | [] => mret SUCCESS
  | src :: src_stream_ids =>
    let all := VersionBlocks.ToAllBit stream_num src in
    must (VersionBlocks.walk_all VersionBlocks.FindNextForAll all all src
            (fun vb => k ← deref (block vb);
                       birth ← MemBlock.GetBirthStreamId k;
                       L2.SyncAllLocalRecycleStatus birth (block vb))) (
    must (return_borrowed src (seq 0 stream_num))
      (recycle_streams stream_num src_stream_ids))
  end.
Fixpoint recycle_free (streams : list nat) : W Status :=
  match streams with
  | [] => mret SUCCESS
  | s :: streams => must (L2.RecycleFreeMem s) (recycle_free streams)
  end.

Definition LastWaitEvents (rt_events : nat) (event_ids : list nat) : W Status :=
  must (DoEvents CallRtsWaitEvent rt_events event_ids) (
  stream_num ← getw (fun w => length (allocators w));
  assert_true (0 <? stream_num)%nat (
  must (recycle_streams stream_num (seq 0 stream_num))
    (recycle_free (seq 0 stream_num)))).
End ops.
End Event.
