(* ===== verification/MemStreamInv.v ===== *)
(** * MemStreamInv: who holds a block, and where the others are

    The invariant of the multi-stream allocators: every block object is in one
    place, the bits of a block in use agree with its reference counts, and what
    a stream has not been told is on its way. *)

From S2P Require Import Prelude MemStream.

#[local] Set Warnings "-clear-no-such-hyp".

(** ** What the interfaces promise *)

(** Memory blocks handed out are the ones in use so far and a new one, and keep
    their sizes. *)
Definition same_sizes `{L2MemPool} (X : gset positive) (p p' : Pool) : Prop :=
  forall m, m ∈ X -> pool_GetSize m p' = pool_GetSize m p.

Class L2Laws `{L2MemPool} := {
  pool_live : Pool -> gset positive;
  law_Malloc s z p :
    match pool_Malloc s z p with
    | (Some m, p') => (m ∉ pool_live p) /\ pool_live p' = {[ m ]} ∪ pool_live p /\ z <= pool_GetSize m p' /\
        same_sizes (pool_live p) p p'
    | (None, p') => pool_live p' = pool_live p /\ same_sizes (pool_live p) p p'
    end;
  law_Share s td p :
    match pool_Share s td p with
    | (Some m, p') => (m ∉ pool_live p) /\ pool_live p' = {[ m ]} ∪ pool_live p /\ same_sizes (pool_live p) p p'
    | (None, p') => pool_live p' = pool_live p /\ same_sizes (pool_live p) p p'
    end;
  law_Free m p : m ∈ pool_live p ->
    pool_live (pool_Free m p) = pool_live p ∖ {[ m ]} /\ same_sizes (pool_live p ∖ {[ m ]}) p (pool_Free m p);
  law_Recycle s p : pool_live (pool_Recycle s p) = pool_live p /\ same_sizes (pool_live p) p (pool_Recycle s p);
  law_Move s m p : m ∈ pool_live p ->
    match pool_MoveL2ToL1 s m p with
    | (Some m', p') => (m' ∉ pool_live p ∖ {[ m ]}) /\ pool_live p' = {[ m' ]} ∪ (pool_live p ∖ {[ m ]}) /\
        same_sizes (pool_live p ∖ {[ m ]}) p p'
    | (None, p') => pool_live p' = pool_live p /\ same_sizes (pool_live p) p p'
    end;
}.

Class OrderLaws `{SetOrder} := { law_order X : set_order X ≡ₚ elements X }.

(** ** Bits *)

Lemma ToBit_pow s : (s < 64)%nat -> Mif.ToBit s = 2 ^ Z.of_nat s.
Proof.
  intros Hs. unfold Mif.ToBit, uwrap. rewrite Z.shiftl_1_l. apply Z.mod_small. split; [lia|].
  apply Z.pow_lt_mono_r; lia.
Qed.

Lemma ToBit_testbit s j : (s < 64)%nat -> 0 <= j -> Z.testbit (Mif.ToBit s) j = bool_decide (j = Z.of_nat s).
Proof. intros Hs Hj. rewrite ToBit_pow by done. rewrite Z.pow2_bits_eqb by lia. case_bool_decide; lia. Qed.

(** A row of bits over [S] streams. *)
Definition row (S : nat) (r : Z) : Prop := 0 <= r < 2 ^ Z.of_nat S.

Lemma row_bits S r j : row S r -> Z.testbit r (Z.of_nat j) = true -> (j < S)%nat.
Proof.
  intros [H0 H1] Hb. destruct (decide (j < S)%nat); [done|]. rewrite Z.bits_above_log2 in Hb; [done|lia|].
  destruct (decide (r = 0)) as [->|]; [by rewrite Z.bits_0 in Hb|].
  apply Z.log2_lt_pow2; [lia|]. eapply Z.lt_le_trans; [done|]. apply Z.pow_le_mono_r; lia.
Qed.

(** Rows are equal when their bits are. *)
Lemma row_zero S r : row S r -> (forall j, (j < S)%nat -> Z.testbit r (Z.of_nat j) = false) -> r = 0.
Proof.
  intros Hr Hz. apply Z.bits_inj_0. intros j. destruct (decide (0 <= j)); [|apply Z.testbit_neg_r; lia].
  destruct (Z.testbit r j) eqn:E; [|done]. rewrite <- (Z2Nat.id j) in E by done.
  rewrite Hz in E; [done|]. by eapply row_bits.
Qed.

Lemma row_nonzero S r : row S r -> r <> 0 -> exists j, (j < S)%nat /\ Z.testbit r (Z.of_nat j) = true.
Proof.
  intros Hr Hn. pose proof (Z.log2_nonneg r). assert (Hb : Z.testbit r (Z.of_nat (Z.to_nat (Z.log2 r))) = true).
  { rewrite Z2Nat.id by done. apply Z.bit_log2. destruct Hr. lia. }
  eexists. split; [by eapply row_bits|done].
Qed.

Lemma uwrap_nonneg w v : 0 <= w -> 0 <= uwrap w v.
Proof. intros. apply Z.mod_pos_bound. apply Z.pow_pos_nonneg; lia. Qed.

Section rows.
Context (S : nat) (HS : (S <= 63)%nat).

Lemma row_0 : row S 0.
Proof. unfold row. lia. Qed.

Lemma bits_row r : 0 <= r -> (forall j, Z.testbit r (Z.of_nat j) = true -> (j < S)%nat) -> row S r.
Proof.
  intros Hr Hb. split; [done|]. destruct (decide (r = 0)) as [->|]; [lia|]. apply Z.log2_lt_pow2; [lia|].
  pose proof (Z.log2_nonneg r). specialize (Hb (Z.to_nat (Z.log2 r))). rewrite Z2Nat.id in Hb by done.
  rewrite Z.bit_log2 in Hb by lia. specialize (Hb eq_refl). lia.
Qed.

Lemma row_land_l a b : row S a -> 0 <= b -> row S (Z.land a b).
Proof.
  intros Ha Hb. apply bits_row; [apply Z.land_nonneg; destruct Ha; lia|]. intros j.
  rewrite Z.land_spec. intros [Hj _]%andb_true_iff. by eapply row_bits.
Qed.

Lemma lor_bit a s j :
  (s < S)%nat -> Z.testbit (Z.lor a (Mif.ToBit s)) (Z.of_nat j) = Z.testbit a (Z.of_nat j) || bool_decide (j = s).
Proof.
  intros Hs. rewrite Z.lor_spec, ToBit_testbit by lia. f_equal. apply bool_decide_ext. lia.
Qed.

Lemma row_lor a s : row S a -> (s < S)%nat -> row S (Z.lor a (Mif.ToBit s)).
Proof.
  intros Ha Hs. apply bits_row; [apply Z.lor_nonneg; rewrite ToBit_pow by lia; destruct Ha; lia|]. intros j.
  rewrite lor_bit by done. intros [Hj| ->%bool_decide_eq_true]%orb_true_iff; [by eapply row_bits|done].
Qed.

Lemma clear_bit a s j :
  (s < S)%nat -> row S a ->
  Z.testbit (Z.land a (uwrap 64 (Z.lnot (Mif.ToBit s)))) (Z.of_nat j) = Z.testbit a (Z.of_nat j) && bool_decide (j <> s).
Proof.
  intros Hs Ha. rewrite Z.land_spec. unfold uwrap. destruct (Z.testbit a (Z.of_nat j)) eqn:E; [|done]. simpl.
  pose proof (row_bits _ _ _ Ha E). rewrite Z.mod_pow2_bits_low, Z.lnot_spec, ToBit_testbit by lia.
  rewrite <- bool_decide_not. apply bool_decide_ext. lia.
Qed.

Lemma is_set r s : (s < S)%nat -> negb (Z.land r (Mif.ToBit s) =? 0) = Z.testbit r (Z.of_nat s).
Proof.
  intros Hs. destruct (Z.testbit r (Z.of_nat s)) eqn:E.
  - apply negb_true_iff, Z.eqb_neq. intros E0.
    assert (Z.testbit (Z.land r (Mif.ToBit s)) (Z.of_nat s) = false) as Hz by (rewrite E0; apply Z.bits_0).
    rewrite Z.land_spec, E, ToBit_testbit in Hz by lia. by rewrite bool_decide_true in Hz.
  - apply negb_false_iff, Z.eqb_eq, Z.bits_inj_0. intros j. rewrite Z.land_spec.
    destruct (decide (0 <= j)); [|rewrite (Z.testbit_neg_r r) by lia; done].
    rewrite ToBit_testbit by lia. case_bool_decide; [subst; by rewrite E|by rewrite andb_false_r].
Qed.
End rows.

(** ** Places and references *)

(** Where a block object is: in the free list of a stream, in use, in the
    borrow pool of a stream, on its way home with an event, or in the hand of
    the code that moves it: left by all streams just now ([PHand]), or out of
    one of the lists ([PRest]). *)
Inductive Place := PFree (s : nat) | PUse | PBorrow (s : nat) | PEvent (e : nat) | PHand | PRest.
#[global] Instance Place_eq_dec : EqDecision Place.
Proof. solve_decision. Defined.

(** The references clients hold, each on a stream. *)
Definition refs (b : positive) (s : nat) (hs : list (positive * nat)) : Z :=
  zlen (filter (fun h => h = (b, s)) hs).
Definition unheld (b : positive) (hs : list (positive * nat)) : Prop := forall s, (b, s) ∉ hs.

Definition bit (k : MultiStreamMemBlock) (m s : nat) : bool :=
  match occupy_mif_ k !! m with Some r => Z.testbit r (Z.of_nat s) | None => false end.
Definition cnt (k : MultiStreamMemBlock) (s : nat) : Z := default 0 (stream_ids_to_occupy_count_ k !! s).

Section inv.
Context `{HP : L2MemPool, HL : !L2Laws} (n : nat) (X : positive -> Prop).
Implicit Types (b : positive) (k : MultiStreamMemBlock) (s t e : nat) (hs : list (positive * nat))
  (pl : gmap positive Place) (w : World _) (a : L2Allocator) (ev : GertEvent).

Record shaped k : Prop := {
  sp_mem : is_Some (mem_block_ k);
  sp_birth : exists t, birth_allocator_ k = Some t /\ (t < n)%nat;
  sp_mif : length (occupy_mif_ k) = n;
  sp_counts : length (stream_ids_to_occupy_count_ k) = n;
}.

(** A stream's own bit says whether it has references; the others may be late
    to learn that it has none, never that it has some. *)
Record used hs b k : Prop := {
  us_row : forall m r, occupy_mif_ k !! m = Some r -> row n r /\ r <> 0;
  us_count : forall s, (s < n)%nat -> cnt k s = refs b s hs;
  us_own : forall s, (s < n)%nat -> bit k s s = (0 <? cnt k s);
  us_late : forall m s, (m < n)%nat -> (s < n)%nat -> bit k s s = true -> bit k m s = true;
  us_streams : forall s, (b, s) ∈ hs -> (s < n)%nat;
}.

Definition block_ok hs b k (p : Place) : Prop :=
  match p with
  | PFree s => (s < n)%nat /\ mem_block_ k = None /\ unheld b hs
  | PUse => shaped k /\ used hs b k
  | PBorrow s => (s < n)%nat /\ shaped k /\ unheld b hs /\
      occupy_mif_ k = replicate n 0 /\ stream_ids_to_occupy_count_ k = replicate n 0
  | PEvent _ | PHand | PRest => shaped k /\ unheld b hs
  end.

(** *** Blocks and their memory *)
Record blocks_ok hs pl w : Prop := {
  bo_dom : forall b, is_Some (blocks w !! b) <-> is_Some (pl !! b);
  bo_next : forall b, is_Some (blocks w !! b) -> (b < next_block w)%positive;
  bo_block : forall b k p, blocks w !! b = Some k -> pl !! b = Some p -> block_ok hs b k p;
  bo_held : forall b s, (b, s) ∈ hs -> pl !! b = Some PUse;
  bo_live : forall m, m ∈ pool_live (pool w) <-> exists b k, blocks w !! b = Some k /\ mem_block_ k = Some m;
  bo_apart : forall b b' k k' m, blocks w !! b = Some k -> blocks w !! b' = Some k' ->
    mem_block_ k = Some m -> mem_block_ k' = Some m -> b = b';
}.

(** *** The lists agree with the places *)

(** The size and the birth stream of a block. *)
Definition size_is w b (z : Z) : Prop :=
  exists k m, blocks w !! b = Some k /\ mem_block_ k = Some m /\ pool_GetSize m (pool w) = z.
Definition birth_is w b t : Prop := exists k, blocks w !! b = Some k /\ birth_allocator_ k = Some t.

Record allocator_ok pl w s a : Prop := {
  ao_free : NoDup (free_ a) /\ forall b, b ∈ free_ a <-> pl !! b = Some (PFree s);
  ao_size : forall b z, b ∈ default ∅ (size_to_borrow_block a !! z) <-> pl !! b = Some (PBorrow s) /\ size_is w b z;
  ao_some : forall z X, size_to_borrow_block a !! z = Some X -> X <> ∅;
  ao_stream : forall b t, b ∈ default ∅ (stream_to_borrow_block a !! t) <-> pl !! b = Some (PBorrow s) /\ birth_is w b t;
}.

Record event_ok pl w e ev : Prop := {
  eo_streams : (logic_src_stream ev < n)%nat /\ (logic_dst_stream ev < n)%nat /\ logic_src_stream ev <> logic_dst_stream ev;
  eo_return : NoDup (block_need_return_birth ev) /\ forall b, b ∈ block_need_return_birth ev <-> pl !! b = Some (PEvent e);
  eo_birth : forall b, b ∈ block_need_return_birth ev -> birth_is w b (logic_dst_stream ev);
}.

Record lists_ok pl w : Prop := {
  lo_len : length (allocators w) = n;
  lo_alloc : forall s a, allocators w !! s = Some a -> allocator_ok pl w s a;
  lo_event : forall e ev, events w !! e = Some ev -> event_ok pl w e ev;
  lo_placed : forall b e, pl !! b = Some (PEvent e) -> is_Some (events w !! e);
}.

(** *** Messages *)

(** A message about a block is out of date or the block is in use. *)
Definition message_ok pl w (vb : VersionBlock) : Prop :=
  exists k, blocks w !! block vb = Some k /\ version vb <= version_ k /\
    (version vb = version_ k -> pl !! block vb = Some PUse \/ pl !! block vb = Some PHand).

Record messages_ok pl w : Prop := {
  mo_local : forall s a en, allocators w !! s = Some a -> en ∈ local_recycle_blocks_ a -> message_ok pl w (version_block en);
  mo_event : forall e ev vb, events w !! e = Some ev -> vb ∈ block_free_by_src_stream ev -> message_ok pl w vb;
}.

(** What stream [t] has not learnt from [s] about version [v] of [b] is still
    to be sent or received. *)
Definition pending w b (v : Z) s t : Prop :=
  (exists a en, allocators w !! s = Some a /\ en ∈ local_recycle_blocks_ a /\
     version_block en = MkVersionBlock v b /\ Z.testbit (sent_flags en) (Z.of_nat t) = false) \/
  (exists e ev, events w !! e = Some ev /\ logic_src_stream ev = s /\ logic_dst_stream ev = t /\
     MkVersionBlock v b ∈ block_free_by_src_stream ev).

(** [X] are blocks about which messages are being exchanged just now. *)
Definition told pl w : Prop :=
  forall b k s t, ~ X b -> blocks w !! b = Some k -> pl !! b = Some PUse -> birth_allocator_ k = Some t ->
    (s < n)%nat -> s <> t -> bit k t s = true -> bit k s s = false -> pending w b (version_ k) s t.

Record inv hs pl w : Prop := {
  iv_blocks : blocks_ok hs pl w;
  iv_lists : lists_ok pl w;
  iv_messages : messages_ok pl w;
  iv_told : told pl w;
}.
End inv.
