(* ===== verification/MemStreamMoves.v ===== *)
(** * MemStreamMoves: changes of the world that keep the invariant

    One lemma per change the operations of [MemStream] make: a block's bits and
    counts, its place, the messages about it. *)

From S2P Require Import Prelude MemStream MemStreamInv.

#[local] Set Warnings "-clear-no-such-hyp".

Definition upd_block `{L2MemPool} (b : positive) (k : MultiStreamMemBlock) (w : World _) : World _ :=
  set_blocks (<[b := k]> (blocks w)) w.
Definition upd_alloc `{L2MemPool} (s : nat) (a : L2Allocator) (w : World _) : World _ :=
  set_allocators (<[s := a]> (allocators w)) w.
Definition upd_event `{L2MemPool} (e : nat) (v : GertEvent) (w : World _) : World _ :=
  set_events (<[e := v]> (events w)) w.

(** ** References *)

Lemma refs_nonneg b s hs : 0 <= refs b s hs.
Proof. apply zlen_nonneg. Qed.

Lemma refs_cons b s h hs : refs b s (h :: hs) = (if decide (h = (b, s)) then 1 else 0) + refs b s hs.
Proof. unfold refs. rewrite filter_cons. case_decide; unfold zlen; simpl; lia. Qed.

Lemma refs_pos b s hs : (b, s) ∈ hs <-> 0 < refs b s hs.
Proof.
  induction hs as [|h hs IH].
  - split; [by intros ?%elem_of_nil|unfold refs, zlen; simpl; lia].
  - rewrite elem_of_cons, refs_cons, IH. pose proof (refs_nonneg b s hs). case_decide; naive_solver lia.
Qed.

Lemma refs_zero b s hs : (b, s) ∉ hs <-> refs b s hs = 0.
Proof. rewrite refs_pos. pose proof (refs_nonneg b s hs). lia. Qed.

Lemma refs_le b s hs : refs b s hs <= zlen hs.
Proof. unfold refs, zlen. pose proof (length_filter (fun h => h = (b, s)) hs). lia. Qed.

(** References to blocks other than [b] are the same. *)
Definition off (b : positive) (hs hs' : list (positive * nat)) : Prop :=
  forall b' s, b' <> b -> refs b' s hs' = refs b' s hs.

Lemma off_refl b hs : off b hs hs.
Proof. done. Qed.

Lemma off_in b hs hs' b' s : off b hs hs' -> b' <> b -> (b', s) ∈ hs' <-> (b', s) ∈ hs.
Proof. intros Ho Hne. by rewrite !refs_pos, Ho. Qed.

Lemma off_cons b s hs : off b hs ((b, s) :: hs).
Proof. intros b' s' Hne. rewrite refs_cons, decide_False by congruence. lia. Qed.

(** One reference less. *)
Definition gives_up (b : positive) (s : nat) (hs hs' : list (positive * nat)) : Prop :=
  off b hs hs' /\ refs b s hs' = refs b s hs - 1 /\ forall j, j <> s -> refs b j hs' = refs b j hs.

Lemma gives_up_delete b s i hs : hs !! i = Some (b, s) -> gives_up b s hs (delete i hs).
Proof.
  intros Hi. assert (Hr : forall b' s', refs b' s' hs = (if decide ((b, s) = (b', s')) then 1 else 0) + refs b' s' (delete i hs)).
  { intros b' s'. rewrite <- refs_cons. unfold refs, zlen. apply (f_equal Z.of_nat), Permutation_length.
    by rewrite (delete_Permutation hs i (b, s)) at 1. }
  split_and!.
  - intros b' s' Hne. rewrite (Hr b' s'), decide_False by congruence. lia.
  - rewrite (Hr b s), decide_True by done. lia.
  - intros j Hj. rewrite (Hr b j), decide_False by congruence. lia.
Qed.

Lemma gives_up_streams b s hs hs' j : gives_up b s hs hs' -> (b, j) ∈ hs' -> (b, j) ∈ hs.
Proof.
  intros (_ & Hs & Hj). rewrite !refs_pos. destruct (decide (j = s)) as [->|Hne]; [lia|]. by rewrite Hj.
Qed.

(** ** Maps of sets, and several keys at once *)

(** Adding to one of the sets of a map, and taking away. *)
Lemma in_added `{Countable K} (M : gmap K (gset positive)) i b j b' :
  b' ∈ default ∅ (<[i := {[ b ]} ∪ default ∅ (M !! i)]> M !! j) <-> b' = b /\ j = i \/ b' ∈ default ∅ (M !! j).
Proof.
  destruct (decide (j = i)) as [->|Hne].
  - rewrite lookup_insert_eq. simpl. set_solver.
  - rewrite lookup_insert_ne by done. naive_solver.
Qed.

Lemma in_removed `{Countable K} (M : gmap K (gset positive)) i b j b' :
  (b ∈ default ∅ (M !! j) -> j = i) ->
  b' ∈ default ∅ (<[i := default ∅ (M !! i) ∖ {[ b ]}]> M !! j) <-> b' <> b /\ b' ∈ default ∅ (M !! j).
Proof.
  intros Hi. destruct (decide (j = i)) as [->|Hne].
  - rewrite lookup_insert_eq. simpl. set_solver.
  - rewrite lookup_insert_ne by done. split; [|naive_solver]. intros Hin. split; [|done]. naive_solver.
Qed.

(** Dropping a set that has become empty. *)
Lemma in_pruned `{Countable K} (M : gmap K (gset positive)) i (F : gset positive) j b' :
  b' ∈ default ∅ ((if decide (F = ∅) then delete i (<[i := F]> M) else <[i := F]> M) !! j) <->
  b' ∈ default ∅ (<[i := F]> M !! j).
Proof.
  case_decide as E; [|done]. destruct (decide (j = i)) as [->|Hne].
  - rewrite lookup_delete_eq, lookup_insert_eq. simpl. set_solver.
  - by rewrite lookup_delete_ne.
Qed.

Lemma some_pruned `{Countable K} (M : gmap K (gset positive)) i (F : gset positive) j Y :
  (forall j Y, M !! j = Some Y -> Y <> ∅) ->
  (if decide (F = ∅) then delete i (<[i := F]> M) else <[i := F]> M) !! j = Some Y -> Y <> ∅.
Proof.
  intros HM. case_decide as E.
  - rewrite delete_insert_eq. intros [_ ?]%lookup_delete_Some. by eapply HM.
  - intros [[_ <-]|[_ ?]]%lookup_insert_Some; [done|by eapply HM].
Qed.

Lemma lookup_new {A} (seg : list positive) (c : A) (m : gmap positive A) b :
  NoDup seg -> (list_to_map ((fun b => (b, c)) <$> seg) ∪ m) !! b = if decide (b ∈ seg) then Some c else m !! b.
Proof.
  intros Hnd. case_decide as E.
  - apply lookup_union_Some_l, elem_of_list_to_map_1.
    + rewrite <- list_fmap_compose. simpl. by rewrite list_fmap_id.
    + apply list_elem_of_fmap. by exists b.
  - rewrite lookup_union_r; [done|]. apply not_elem_of_list_to_map_1.
    rewrite <- list_fmap_compose. simpl. by rewrite list_fmap_id.
Qed.

Definition park (p : Place) (bs : list positive) (pl : gmap positive Place) : gmap positive Place := foldr (fun b => insert b p) pl bs.

Lemma lookup_park p bs pl b : park p bs pl !! b = if decide (b ∈ bs) then Some p else pl !! b.
Proof.
  induction bs as [|b' bs IH].
  - rewrite decide_False; [done|by intros ?%elem_of_nil].
  - change (park p (b' :: bs) pl) with (<[b' := p]> (park p bs pl)). destruct (decide (b = b')) as [->|Hne].
    + rewrite lookup_insert_eq, decide_True; [done|by left].
    + rewrite lookup_insert_ne, IH by done. destruct (decide (b ∈ bs)).
      * rewrite decide_True; [done|by right].
      * rewrite decide_False; [done|]. by intros [?|?]%elem_of_cons.
Qed.

(** Between operations nothing is in hand. *)
Definition still (p : Place) : Prop := p <> PHand /\ p <> PRest.
Definition calm (pl : gmap positive Place) : Prop := forall b p, pl !! b = Some p -> still p.

Lemma calm_insert b p pl : calm pl -> still p -> calm (<[b := p]> pl).
Proof. intros Hc Hp b' p' [[<- <-]|[_ ?]]%lookup_insert_Some; [done|by eapply Hc]. Qed.

Lemma calm_over b p q pl : calm pl -> still p -> calm (<[b := p]> (<[b := q]> pl)).
Proof. rewrite insert_insert_eq. apply calm_insert. Qed.

Section moves.
Context `{HP : L2MemPool, HL : !L2Laws} (n : nat) (X : positive -> Prop).
Implicit Types (b : positive) (k : MultiStreamMemBlock) (s t e : nat) (hs : list (positive * nat))
  (pl : gmap positive Place) (w : World _) (a : L2Allocator) (ev : GertEvent).

Lemma unheld_off b hs hs' b' : off b hs hs' -> b' <> b -> unheld b' hs -> unheld b' hs'.
Proof. intros Ho Hne Hu s. rewrite (off_in _ _ _ _ _ Ho Hne). apply Hu. Qed.

Lemma block_ok_off b hs hs' b' k p :
  off b hs hs' -> b' <> b -> block_ok n hs b' k p -> block_ok n hs' b' k p.
Proof.
  intros Ho Hne. destruct p; simpl.
  - intros (? & ? & ?). split_and!; try done. by eapply unheld_off.
  - intros [Hs [Hr Hc Hown Hlate Hst]]. split; [done|]. split; try done.
    + intros s Hs'. rewrite Ho by done. by apply Hc.
    + intros s. rewrite (off_in _ _ _ _ _ Ho Hne). apply Hst.
  - intros (? & ? & ? & ? & ?). split_and!; try done. by eapply unheld_off.
  - intros [? ?]. split; [done|]. by eapply unheld_off.
  - intros [? ?]. split; [done|]. by eapply unheld_off.
  - intros [? ?]. split; [done|]. by eapply unheld_off.
Qed.

(** ** Blocks *)

(** One block changes, with the memory it has. *)
Lemma blocks_ok_change hs hs' pl w b k k' p' q :
  blocks_ok n hs pl w -> blocks w !! b = Some k -> off b hs hs' -> block_ok n hs' b k' p' ->
  (forall s, (b, s) ∈ hs' -> p' = PUse) ->
  (forall x, x ∈ pool_live q <-> mem_block_ k' = Some x \/ x ∈ pool_live (pool w) /\ mem_block_ k <> Some x) ->
  (forall x, mem_block_ k' = Some x -> x ∈ pool_live (pool w) -> mem_block_ k = Some x) ->
  blocks_ok n hs' (<[b := p']> pl) (set_pool q (upd_block b k' w)).
Proof.
  intros [Hdom Hnext Hblk Hheld Hlive Hap] Hb Ho Hok Hh Hq Hnew.
  assert (Hin : forall b0 k0 x, blocks w !! b0 = Some k0 -> mem_block_ k0 = Some x -> x ∈ pool_live (pool w)).
  { intros b0 k0 x H0 Hx. apply Hlive. by exists b0, k0. }
  split; simpl.
  - intros b'. destruct (decide (b' = b)) as [->|Hne].
    + rewrite !lookup_insert_eq. split; intros _; by eexists.
    + rewrite !lookup_insert_ne by done. apply Hdom.
  - intros b' [k0 [[<- _]|[_ H0]]%lookup_insert_Some]; apply Hnext; [rewrite Hb|rewrite H0]; by eexists.
  - intros b' k0 p [[<- <-]|[Hne H0]]%lookup_insert_Some.
    + rewrite lookup_insert_eq. by intros [= <-].
    + rewrite lookup_insert_ne by done. intros Hp. eapply block_ok_off; [done|done|by eapply Hblk].
  - intros b' s Hin'. destruct (decide (b' = b)) as [->|Hne].
    + rewrite lookup_insert_eq. f_equal. by eapply Hh.
    + rewrite lookup_insert_ne by done. eapply Hheld. by apply (off_in _ _ _ _ _ Ho Hne).
  - intros x. rewrite Hq, Hlive. split.
    + intros [Hx|[(b0 & k0 & H0 & Hx) Hn]]; [exists b, k'; by rewrite lookup_insert_eq|].
      exists b0, k0. split; [|done]. rewrite lookup_insert_ne; [done|]. intros <-. congruence.
    + intros (b0 & k0 & [[<- <-]|[Hne H0]]%lookup_insert_Some & Hx); [by left|right].
      split; [by exists b0, k0|]. intros Hx'. apply Hne. by eapply (Hap b b0).
  - intros b1 b2 k1 k2 x [[<- <-]|[N1 H1]]%lookup_insert_Some [[<- <-]|[N2 H2]]%lookup_insert_Some Hx1 Hx2; [done| | |].
    + apply (Hap b b2 k k2 x); try done. eapply Hnew; [done|by eapply Hin].
    + symmetry. apply (Hap b b1 k k1 x); try done. eapply Hnew; [done|by eapply Hin].
    + by eapply (Hap b1 b2).
Qed.

(** Its memory stays what it was. *)
Lemma blocks_ok_keep hs hs' pl w b k k' p' :
  blocks_ok n hs pl w -> blocks w !! b = Some k -> off b hs hs' -> block_ok n hs' b k' p' ->
  (forall s, (b, s) ∈ hs' -> p' = PUse) -> mem_block_ k' = mem_block_ k ->
  blocks_ok n hs' (<[b := p']> pl) (upd_block b k' w).
Proof.
  intros Hbo Hb Ho Hok Hh Hm. change (upd_block b k' w) with (set_pool (pool w) (upd_block b k' w)).
  eapply blocks_ok_change; try done.
  - intros x. rewrite Hm. split; [|intros [Hx|[? _]]; [|done]].
    + intros Hx. destruct (decide (mem_block_ k = Some x)); [by left|by right].
    + apply (bo_live _ _ _ _ Hbo). by exists b, k.
  - intros x. by rewrite Hm.
Qed.

(** ** Lists *)

(** Places that are not in a list do not matter to it. *)
Lemma allocator_ok_frame pl pl' w w' s a :
  allocator_ok pl w s a ->
  (forall b, pl' !! b = Some (PFree s) <-> pl !! b = Some (PFree s)) ->
  (forall b, pl' !! b = Some (PBorrow s) <-> pl !! b = Some (PBorrow s)) ->
  (forall b z, pl !! b = Some (PBorrow s) -> size_is w' b z <-> size_is w b z) ->
  (forall b t, pl !! b = Some (PBorrow s) -> birth_is w' b t <-> birth_is w b t) ->
  allocator_ok pl' w' s a.
Proof.
  intros [[Hnd Hf] Hz Hne Hs] HF HB Hsz Hbi. split.
  - split; [done|]. intros b. by rewrite HF.
  - intros b z. rewrite HB, Hz. naive_solver.
  - done.
  - intros b t. rewrite HB, Hs. naive_solver.
Qed.

Lemma event_ok_frame pl pl' w w' e ev :
  event_ok n pl w e ev ->
  (forall b, pl' !! b = Some (PEvent e) <-> pl !! b = Some (PEvent e)) ->
  (forall b t, pl !! b = Some (PEvent e) -> birth_is w b t -> birth_is w' b t) ->
  event_ok n pl' w' e ev.
Proof.
  intros [Hst [Hnd Hr] Hbi] HE Hb. split; [done| |].
  - split; [done|]. intros b. by rewrite HE.
  - intros b Hin. apply Hb; [by apply Hr|by apply Hbi].
Qed.

Lemma allocator_ok_same pl w w' s a :
  blocks w' = blocks w -> pool w' = pool w -> allocator_ok pl w s a -> allocator_ok pl w' s a.
Proof.
  intros Eb Ep Ha. eapply allocator_ok_frame; [done|done|done|..]; intros; unfold size_is, birth_is; by rewrite Eb, ?Ep.
Qed.

Lemma event_ok_same pl w w' e ev : blocks w' = blocks w -> event_ok n pl w e ev -> event_ok n pl w' e ev.
Proof. intros Eb He. eapply event_ok_frame; [done|done|]. intros b t _. unfold birth_is. by rewrite Eb. Qed.

(** Messages may be about blocks that are in use or were just left; blocks in
    hand are in no list either. *)
Definition loose (p : Place) : Prop := p = PUse \/ p = PHand.
Definition unlisted (p : Place) : Prop := match p with PUse | PHand | PRest => True | _ => False end.

Lemma size_is_upd w b k b' z : b' <> b -> size_is (upd_block b k w) b' z <-> size_is w b' z.
Proof. intros Hne. unfold size_is. simpl. by setoid_rewrite lookup_insert_ne. Qed.

Lemma birth_is_upd w b k b' t : b' <> b -> birth_is (upd_block b k w) b' t <-> birth_is w b' t.
Proof. intros Hne. unfold birth_is. simpl. by setoid_rewrite lookup_insert_ne. Qed.

Lemma lists_ok_loose pl w b k' p p' :
  lists_ok n pl w -> pl !! b = Some p -> unlisted p -> unlisted p' -> lists_ok n (<[b := p']> pl) (upd_block b k' w).
Proof.
  intros [Hlen Ha He Hpl] Hp Hl Hl'.
  assert (HP' : forall b' q, ~ unlisted q -> <[b := p']> pl !! b' = Some q <-> pl !! b' = Some q).
  { intros b' q Hq. destruct (decide (b' = b)) as [->|Hne]; [|by rewrite lookup_insert_ne].
    rewrite lookup_insert_eq, Hp. split; intros [= ->]; by destruct Hq. }
  assert (Hoff : forall b' q, ~ unlisted q -> pl !! b' = Some q -> b' <> b) by (intros b' q Hq H1 ->; congruence).
  split; simpl; [done| | |].
  - intros s a Hs. eapply allocator_ok_frame; [by apply Ha|..].
    + intros b'. apply HP'. by intros [].
    + intros b'. apply HP'. by intros [].
    + intros b' z Hb'. apply size_is_upd. eapply Hoff; [|done]. by intros [].
    + intros b' t Hb'. apply birth_is_upd. eapply Hoff; [|done]. by intros [].
  - intros e ev Hev. eapply event_ok_frame; [by apply He|..].
    + intros b'. apply HP'. by intros [].
    + intros b' t Hb'. apply birth_is_upd. eapply Hoff; [|done]. by intros [].
  - intros b' e Hb'. eapply Hpl. apply HP'; [by intros []|done].
Qed.

(** ** Messages *)

(** Messages only get out of date. *)
Lemma message_ok_change pl w w' b k k' p' vb :
  message_ok pl w vb -> blocks w !! b = Some k -> blocks w' = <[b := k']> (blocks w) ->
  version_ k <= version_ k' -> (version_ k' = version_ k -> loose p' \/ exists p, pl !! b = Some p /\ ~ loose p) ->
  message_ok (<[b := p']> pl) w' vb.
Proof.
  intros (k0 & H0 & Hv & Hcur) Hb Hbl Hle Hl. unfold message_ok. rewrite Hbl. destruct (decide (block vb = b)) as [E|Hne].
  - subst b. assert (k0 = k) as -> by congruence. rewrite !lookup_insert_eq. exists k'. split_and!; [done|lia|].
    intros E. destruct Hl as [[-> | ->]|(p & Hp & Hno)]; [lia|by left|by right|]. destruct Hno.
    destruct Hcur as [Hc|Hc]; [lia|left; congruence|right; congruence].
  - rewrite !lookup_insert_ne by done. by exists k0.
Qed.

Lemma messages_ok_change pl w b k k' p' :
  messages_ok pl w -> blocks w !! b = Some k -> version_ k <= version_ k' ->
  (version_ k' = version_ k -> loose p' \/ exists p, pl !! b = Some p /\ ~ loose p) -> messages_ok (<[b := p']> pl) (upd_block b k' w).
Proof.
  intros [Hl He] Hb Hle Hp. split; simpl.
  - intros s a en Ha Hin. eapply message_ok_change; [by eapply Hl|done..].
  - intros e ev vb Hev Hin. eapply message_ok_change; [by eapply He|done..].
Qed.

(** What is on its way stays on its way while the lists only grow. *)
Definition carries w w' : Prop :=
  (forall s a, allocators w !! s = Some a ->
     exists a', allocators w' !! s = Some a' /\ local_recycle_blocks_ a ⊆ local_recycle_blocks_ a') /\
  (forall e ev, events w !! e = Some ev -> exists ev', events w' !! e = Some ev' /\
     logic_src_stream ev' = logic_src_stream ev /\ logic_dst_stream ev' = logic_dst_stream ev /\
     block_free_by_src_stream ev ⊆ block_free_by_src_stream ev').

Lemma carries_same w w' : allocators w' = allocators w -> events w' = events w -> carries w w'.
Proof. intros Ea Ee. split; intros; rewrite ?Ea, ?Ee; eexists; split_and!; done. Qed.

Lemma pending_carries w w' b v s t : carries w w' -> pending w b v s t -> pending w' b v s t.
Proof.
  intros [Ha He] [(a & en & H1 & H2 & H3 & H4)|(e & ev & H1 & H2 & H3 & H4)].
  - destruct (Ha s a H1) as (a' & ? & Hsub). left. exists a', en. split_and!; try done. by apply Hsub.
  - destruct (He e ev H1) as (ev' & ? & E1 & E2 & Hsub). right. exists e, ev'. split_and!; [done|congruence|congruence|].
    by apply Hsub.
Qed.

(** The blocks other than [b]. *)
Lemma told_change pl w w' b k' p' :
  told n X pl w -> carries w w' -> blocks w' = <[b := k']> (blocks w) ->
  (p' = PUse -> ~ X b -> forall s t, birth_allocator_ k' = Some t -> (s < n)%nat -> s <> t -> bit k' t s = true ->
     bit k' s s = false -> pending w' b (version_ k') s t) ->
  told n X (<[b := p']> pl) w'.
Proof.
  intros Ht Hc Hbl Hb b0 k0 s t. rewrite Hbl. destruct (decide (b0 = b)) as [->|Hne].
  - rewrite !lookup_insert_eq. intros HX [= <-] [= ->]. by apply Hb.
  - rewrite !lookup_insert_ne by done. intros. eapply pending_carries; [done|]. by eapply Ht.
Qed.

(** ** A block in use *)

(** Its bits and counts change, and who holds it. *)
Lemma inv_block_update hs hs' pl w b k k' :
  inv n X hs pl w -> blocks w !! b = Some k -> pl !! b = Some PUse -> off b hs hs' ->
  mem_block_ k' = mem_block_ k -> version_ k' = version_ k -> shaped n k' -> used n hs' b k' ->
  (~ X b -> forall s t, birth_allocator_ k' = Some t -> (s < n)%nat -> s <> t -> bit k' t s = true ->
     bit k' s s = false -> pending w b (version_ k) s t) ->
  inv n X hs' pl (upd_block b k' w).
Proof.
  intros [Hbo Hlo Hmo Hto] Hb Hp Ho Hm Hv Hs Hu Ht.
  assert (E : <[b := PUse]> pl = pl) by by apply insert_id. rewrite <- E. split.
  - eapply blocks_ok_keep; try done.
  - by eapply lists_ok_loose.
  - eapply messages_ok_change; try done; [lia|]. intros _. left. by left.
  - eapply told_change; [done|by apply carries_same|done|]. intros _ HX s t. rewrite Hv. by apply Ht.
Qed.

(** It is left by everybody. *)
Lemma inv_drain hs hs' pl w b k k' :
  inv n X hs pl w -> blocks w !! b = Some k -> pl !! b = Some PUse -> off b hs hs' ->
  mem_block_ k' = mem_block_ k -> version_ k' = version_ k -> shaped n k' -> unheld b hs' ->
  inv n X hs' (<[b := PHand]> pl) (upd_block b k' w).
Proof.
  intros [Hbo Hlo Hmo Hto] Hb Hp Ho Hm Hv Hs Hu. split.
  - eapply blocks_ok_keep; try done. intros s Hin. by destruct (Hu s).
  - by eapply lists_ok_loose.
  - eapply messages_ok_change; try done; [lia|]. intros _. left. by right.
  - eapply told_change; [done|by apply carries_same|done|done].
Qed.

(** A message about a block in use is added. *)
Lemma lists_ok_local pl w s a l :
  lists_ok n pl w -> allocators w !! s = Some a -> lists_ok n pl (upd_alloc s (set_local l a) w).
Proof.
  intros [Hlen Ha He Hpl] Hs. split; simpl; try done.
  - by rewrite length_insert.
  - intros s' a' [[<- [<- _]]|[_ H']]%list_lookup_insert_Some; (eapply (allocator_ok_same pl w); [done..|]); [|by apply Ha].
    destruct (Ha s a Hs) as [Hf Hz Hne Hst]. by split.
  - intros e ev Hev. eapply (event_ok_same pl w); [done|by apply He].
Qed.

Lemma inv_push hs pl w b k s a :
  inv n X hs pl w -> blocks w !! b = Some k -> pl !! b = Some PUse -> allocators w !! s = Some a ->
  let en := MkStreamed (MkVersionBlock (version_ k) b) 0 in
  let w' := upd_alloc s (set_local (local_recycle_blocks_ a ++ [en]) a) w in
  inv n X hs pl w' /\ carries w w' /\ forall t, pending w' b (version_ k) s t.
Proof.
  intros [Hbo Hlo Hmo Hto] Hb Hp Hs en w'.
  assert (Hlk : allocators w' !! s = Some (set_local (local_recycle_blocks_ a ++ [en]) a)).
  { simpl. apply list_lookup_insert_eq. by eapply lookup_lt_Some. }
  assert (Hc : carries w w').
  { split; [|intros; by eexists; split_and!]. intros s' a'. destruct (decide (s' = s)) as [->|Hne].
    - rewrite Hs. intros [= <-]. eexists. split; [done|]. simpl. set_solver.
    - intros H'. exists a'. simpl. by rewrite list_lookup_insert_ne. }
  split_and!; [|done|].
  - split.
    + by destruct Hbo.
    + by apply lists_ok_local.
    + destruct Hmo as [Hl He]. split; [|done]. intros s' a' en' [[<- [<- _]]|[_ H']]%list_lookup_insert_Some Hin; [|by eapply Hl].
      simpl in Hin. apply elem_of_app in Hin as [Hin| ->%list_elem_of_singleton]; [by eapply Hl|].
      exists k. split_and!; [done|done|by left].
    + intros b0 k0 s0 t0 H0 H1 H2 H3 H4 H5 H6 H7. eapply pending_carries; [done|]. by eapply Hto.
  - intros t. left. eexists _, en. split_and!; [done|simpl; set_solver|done|apply Z.bits_0].
Qed.

(** ** Parking a block *)

(** The memory of other blocks keeps its size. *)
Definition sizes_off k w (q : Pool) : Prop :=
  forall x, x ∈ pool_live (pool w) -> mem_block_ k <> Some x -> pool_GetSize x q = pool_GetSize x (pool w).

Lemma size_is_off hs pl w w' b k k' q b' z :
  blocks_ok n hs pl w -> blocks w !! b = Some k -> sizes_off k w q -> b' <> b ->
  blocks w' = <[b := k']> (blocks w) -> pool w' = q -> size_is w' b' z <-> size_is w b' z.
Proof.
  intros Hbo Hb Hq Hne Eb <-. unfold size_is. rewrite Eb. setoid_rewrite lookup_insert_ne; [|done].
  assert (Hx : forall k0 x, blocks w !! b' = Some k0 -> mem_block_ k0 = Some x ->
    pool_GetSize x (pool w') = pool_GetSize x (pool w)).
  { intros k0 x H0 Hm. apply Hq; [apply (bo_live _ _ _ _ Hbo); by exists b', k0|].
    intros Hm'. apply Hne. by eapply (bo_apart _ _ _ _ Hbo b' b). }
  split; intros (k0 & x & H0 & Hm & Hz); exists k0, x; (split_and!; [done|done|]); by rewrite <- Hz, (Hx k0 x).
Qed.

Definition move b k' (q : Pool) s a' w : World _ := upd_alloc s a' (set_pool q (upd_block b k' w)).

Lemma birth_is_move b k' q s a' w b' t : b' <> b -> birth_is (move b k' q s a' w) b' t <-> birth_is w b' t.
Proof. apply (birth_is_upd w b k'). Qed.

Lemma size_is_move hs pl w b k k' q s a' b' z :
  blocks_ok n hs pl w -> blocks w !! b = Some k -> sizes_off k w q -> b' <> b ->
  size_is (move b k' q s a' w) b' z <-> size_is w b' z.
Proof. intros. by eapply (size_is_off hs pl). Qed.

(** A block moves from or to a list of allocator [s]. *)
Lemma lists_ok_move hs pl w b k k' q p p' s a' :
  blocks_ok n hs pl w -> lists_ok n pl w -> blocks w !! b = Some k -> pl !! b = Some p -> sizes_off k w q ->
  (forall t, t <> s -> p <> PFree t /\ p <> PBorrow t /\ p' <> PFree t /\ p' <> PBorrow t) ->
  (forall e, p <> PEvent e /\ p' <> PEvent e) ->
  is_Some (allocators w !! s) -> allocator_ok (<[b := p']> pl) (move b k' q s a' w) s a' ->
  lists_ok n (<[b := p']> pl) (move b k' q s a' w).
Proof.
  intros Hbo [Hlen Ha He Hpl] Hb Hp Hq Hps Hpe Hs Ha'.
  assert (Hpl' : forall b' r, r <> p -> r <> p' -> <[b := p']> pl !! b' = Some r <-> pl !! b' = Some r).
  { intros b' r H1 H2. destruct (decide (b' = b)) as [->|Hne]; [|by rewrite lookup_insert_ne].
    rewrite lookup_insert_eq, Hp. split; congruence. }
  assert (Hne : forall b' r, r <> p -> pl !! b' = Some r -> b' <> b) by (intros b' r H1 H2 ->; congruence).
  split; simpl.
  - by rewrite length_insert.
  - intros t a [[<- [<- _]]|[Hts H']]%list_lookup_insert_Some; [done|].
    destruct (Hps t) as (H1 & H2 & H3 & H4); [done|].
    eapply (allocator_ok_frame pl); [by apply Ha|..].
    + intros b'. by apply Hpl'.
    + intros b'. by apply Hpl'.
    + intros b' z Hb'. eapply (size_is_off hs pl); try done. by eapply Hne.
    + intros b' t' Hb'. apply birth_is_upd. by eapply Hne.
  - intros e ev Hev. destruct (Hpe e) as [H1 H2]. eapply (event_ok_frame pl); [by apply He|..].
    + intros b'. by apply Hpl'.
    + intros b' t' Hb'. apply birth_is_upd. by eapply Hne.
  - intros b' e Hb'. destruct (Hpe e). eapply Hpl. by apply Hpl'.
Qed.

(** Messages are about versions. *)
Lemma messages_ok_move pl w b k k' q p' s a a' :
  messages_ok pl w -> blocks w !! b = Some k -> allocators w !! s = Some a ->
  local_recycle_blocks_ a' = local_recycle_blocks_ a ->
  version_ k <= version_ k' -> (version_ k' = version_ k -> loose p' \/ exists p, pl !! b = Some p /\ ~ loose p) ->
  messages_ok (<[b := p']> pl) (move b k' q s a' w).
Proof.
  intros [Hl He] Hb Hs El Hle Hp. split; simpl.
  - intros s' a0 en [[<- [<- _]]|[_ H']]%list_lookup_insert_Some Hin;
      (eapply (message_ok_change pl w); [|done|done|done|done]); [rewrite El in Hin|]; by eapply Hl.
  - intros e ev vb Hev Hin. eapply (message_ok_change pl w); [by eapply He|done..].
Qed.

Lemma carries_move w b k' q s a a' :
  allocators w !! s = Some a -> local_recycle_blocks_ a' = local_recycle_blocks_ a -> carries w (move b k' q s a' w).
Proof.
  intros Hs El. split; [|intros; by eexists; split_and!]. intros s' a0 H0. simpl.
  destruct (decide (s' = s)) as [->|Hne].
  - rewrite list_lookup_insert_eq by by eapply lookup_lt_Some. eexists. split; [done|]. rewrite El.
    by assert (a0 = a) as -> by congruence.
  - rewrite list_lookup_insert_ne by done. by eexists.
Qed.

(** A block in hand is released: its memory goes back and it is free at
    home. *)
Lemma inv_release hs pl w b k p x s a :
  inv n X hs pl w -> blocks w !! b = Some k -> pl !! b = Some p -> p = PHand \/ p = PRest -> mem_block_ k = Some x ->
  allocators w !! s = Some a ->
  inv n X hs (<[b := PFree s]> pl)
    (move b (set_mem_block_ None (set_version_ (version_ k + 1) k)) (pool_Free x (pool w)) s
       (set_pool_ (holder_ a) (free_ a ++ [b]) a) w).
Proof.
  intros [Hbo Hlo Hmo Hto] Hb Hp Hph Hm Hs.
  assert (Hun : unheld b hs) by (pose proof (bo_block _ _ _ _ Hbo b k _ Hb Hp); naive_solver).
  assert (Hx : x ∈ pool_live (pool w)) by (apply (bo_live _ _ _ _ Hbo); by exists b, k).
  destruct (law_Free x (pool w) Hx) as [Hlv Hsz].
  assert (Hsn : (s < n)%nat) by (rewrite <- (lo_len _ _ _ Hlo); by eapply lookup_lt_Some).
  assert (Hoff : sizes_off k w (pool_Free x (pool w))).
  { intros y Hy Hne. apply Hsz. rewrite elem_of_difference, elem_of_singleton. split; [done|congruence]. }
  set (k' := set_mem_block_ None (set_version_ (version_ k + 1) k)).
  set (a' := set_pool_ (holder_ a) (free_ a ++ [b]) a). split.
  - assert (Hc : blocks_ok n hs (<[b := PFree s]> pl) (set_pool (pool_Free x (pool w)) (upd_block b k' w))).
    { eapply blocks_ok_change; try done.
      - intros s' Hin. by destruct (Hun s').
      - intros y. rewrite Hlv, Hm. rewrite elem_of_difference, elem_of_singleton. simpl. naive_solver. }
    by destruct Hc.
  - eapply (lists_ok_move hs pl w b k k'); try done.
    { intros t Ht. split_and!; naive_solver. }
    { intros e. split; naive_solver. }
    destruct (lo_alloc _ _ _ Hlo s a Hs) as [[Hnd Hf] Hz Hne Hst]. split; simpl.
    + split.
      * apply NoDup_app. split_and!; [done| |apply NoDup_singleton].
        intros b' Hin ->%list_elem_of_singleton. apply Hf in Hin. naive_solver.
      * intros b'. rewrite elem_of_app, list_elem_of_singleton, Hf. destruct (decide (b' = b)) as [->|Hn].
        -- rewrite lookup_insert_eq. naive_solver.
        -- rewrite lookup_insert_ne by done. naive_solver.
    + intros b' z. rewrite Hz. destruct (decide (b' = b)) as [->|Hn].
      * rewrite lookup_insert_eq, Hp. naive_solver.
      * rewrite lookup_insert_ne by done. apply and_iff_compat_l. symmetry. by apply (size_is_off hs pl w _ b k k' (pool_Free x (pool w))).
    + done.
    + intros b' t. rewrite Hst. destruct (decide (b' = b)) as [->|Hn].
      * rewrite lookup_insert_eq, Hp. naive_solver.
      * rewrite lookup_insert_ne by done. apply and_iff_compat_l. symmetry. by apply birth_is_upd.
  - eapply messages_ok_move; try done; simpl; lia.
  - eapply told_change; [done|by eapply carries_move|done|done].
Qed.

Lemma sizes_off_same k w : sizes_off k w (pool w).
Proof. by intros x. Qed.

Lemma size_is_fun w b z z' : size_is w b z -> size_is w b z' -> z = z'.
Proof. intros (k & x & H1 & H2 & H3) (k' & x' & H1' & H2' & H3'). congruence. Qed.

Lemma birth_is_fun w b t t' : birth_is w b t -> birth_is w b t' -> t = t'.
Proof. intros (k & H1 & H2) (k' & H1' & H2'). congruence. Qed.

(** A block in hand goes to the borrow pool of stream [s]. *)
Lemma inv_borrow hs pl w b k x t s a k' :
  inv n X hs pl w -> blocks w !! b = Some k -> pl !! b = Some PHand -> mem_block_ k = Some x ->
  birth_allocator_ k = Some t -> allocators w !! s = Some a ->
  k' = set_counts (replicate n 0) (set_occupy_mif_ (replicate n 0) (set_version_ (version_ k + 1) k)) ->
  let z := pool_GetSize x (pool w) in
  inv n X hs (<[b := PBorrow s]> pl)
    (move b k' (pool w) s
       (set_borrow (<[z := {[ b ]} ∪ default ∅ (size_to_borrow_block a !! z)]> (size_to_borrow_block a))
          (<[t := {[ b ]} ∪ default ∅ (stream_to_borrow_block a !! t)]> (stream_to_borrow_block a)) a) w).
Proof.
  intros [Hbo Hlo Hmo Hto] Hb Hp Hm Ht Hs -> z. pose proof (bo_block _ _ _ _ Hbo b k _ Hb Hp) as [Hsh Hun].
  assert (Hsn : (s < n)%nat) by (rewrite <- (lo_len _ _ _ Hlo); by eapply lookup_lt_Some).
  set (k' := set_counts _ _). set (a' := set_borrow _ _ a).
  assert (Hsz : size_is (move b k' (pool w) s a' w) b z).
  { exists k', x. simpl. by rewrite lookup_insert_eq. }
  assert (Hbi : birth_is (move b k' (pool w) s a' w) b t).
  { exists k'. simpl. by rewrite lookup_insert_eq. }
  split.
  - assert (Hc : blocks_ok n hs (<[b := PBorrow s]> pl) (upd_block b k' w)).
    { eapply blocks_ok_keep; try done.
      - split_and!; try done. destruct Hsh as [H1 H2 H3 H4]. split; simpl; [done|done|by rewrite length_replicate..].
      - intros s' Hin. by destruct (Hun s'). }
    by destruct Hc.
  - eapply (lists_ok_move hs pl w b k k'); try done.
    { intros t' Ht'. split_and!; congruence. }
    destruct (lo_alloc _ _ _ Hlo s a Hs) as [[Hnd Hf] Hz Hne Hst].
    assert (Hnb : forall z', b ∉ default ∅ (size_to_borrow_block a !! z')) by (intros z' [? _]%Hz; congruence).
    split; simpl.
    + split; [done|]. intros b'. rewrite Hf. destruct (decide (b' = b)) as [->|Hn].
      * rewrite lookup_insert_eq, Hp. naive_solver.
      * by rewrite lookup_insert_ne.
    + intros b' z'. rewrite in_added, Hz. destruct (decide (b' = b)) as [->|Hn].
      * rewrite lookup_insert_eq, Hp. split; [|intros [_ Hz']; left; split; [done|by eapply size_is_fun]].
        intros [[_ ->]|[? _]]; [done|congruence].
      * rewrite lookup_insert_ne by done. split.
        -- intros [[? _]|[? ?]]; [done|]. split; [done|]. by apply (size_is_off hs pl w _ b k k' (pool w)).
        -- intros [? Hz']. right. split; [done|]. by apply (size_is_off hs pl w _ b k k' (pool w)) in Hz'.
    + intros z' Y [[<- <-]|[_ HY]]%lookup_insert_Some; [set_solver|by eapply Hne].
    + intros b' t'. rewrite in_added, Hst. destruct (decide (b' = b)) as [->|Hn].
      * rewrite lookup_insert_eq, Hp. split; [|intros [_ Hz']; left; split; [done|by eapply birth_is_fun]].
        intros [[_ ->]|[? _]]; [done|congruence].
      * rewrite lookup_insert_ne by done. split.
        -- intros [[? _]|[? ?]]; [done|]. split; [done|]. by apply birth_is_move.
        -- intros [? Hb']. right. split; [done|]. by apply birth_is_move in Hb'.
  - eapply messages_ok_move; try done; simpl; lia.
  - eapply told_change; [done|by eapply carries_move|done|done].
Qed.

(** A block is taken out of the borrow pool. *)
Lemma inv_unborrow hs pl w b k z t s a :
  inv n X hs pl w -> blocks w !! b = Some k -> pl !! b = Some (PBorrow s) -> size_is w b z -> birth_is w b t ->
  allocators w !! s = Some a ->
  let found := default ∅ (size_to_borrow_block a !! z) ∖ {[ b ]} in
  let by_size := <[z := found]> (size_to_borrow_block a) in
  inv n X hs (<[b := PRest]> pl)
    (move b k (pool w) s
       (set_borrow (if decide (found = ∅) then delete z by_size else by_size)
          (<[t := default ∅ (stream_to_borrow_block a !! t) ∖ {[ b ]}]> (stream_to_borrow_block a)) a) w).
Proof.
  intros [Hbo Hlo Hmo Hto] Hb Hp Hz Ht Hs found by_size.
  pose proof (bo_block _ _ _ _ Hbo b k _ Hb Hp) as (Hsn & Hsh & Hun & _).
  set (a' := set_borrow _ _ a). split.
  - assert (Hc : blocks_ok n hs (<[b := PRest]> pl) (upd_block b k w)).
    { eapply blocks_ok_keep; try done. intros s' Hin. by destruct (Hun s'). }
    by destruct Hc.
  - eapply (lists_ok_move hs pl w b k k); try done.
    { intros t' Ht'. split_and!; congruence. }
    destruct (lo_alloc _ _ _ Hlo s a Hs) as [[Hnd Hf] Hsz Hne Hst]. split; simpl.
    + split; [done|]. intros b'. rewrite Hf. destruct (decide (b' = b)) as [->|Hn].
      * rewrite lookup_insert_eq, Hp. naive_solver.
      * by rewrite lookup_insert_ne.
    + intros b' z'. unfold by_size. rewrite in_pruned. unfold found. rewrite in_removed.
      2: { intros [_ Hz']%Hsz. by eapply size_is_fun. }
      rewrite Hsz. destruct (decide (b' = b)) as [->|Hn].
      * rewrite lookup_insert_eq. naive_solver.
      * rewrite lookup_insert_ne by done. rewrite (size_is_move hs pl w b k) by done. naive_solver.
    + intros z' Y. by apply some_pruned.
    + intros b' t'. rewrite in_removed.
      2: { intros [_ Hz']%Hst. by eapply birth_is_fun. }
      rewrite Hst. destruct (decide (b' = b)) as [->|Hn].
      * rewrite lookup_insert_eq. naive_solver.
      * rewrite lookup_insert_ne by done. rewrite birth_is_move by done. naive_solver.
  - eapply messages_ok_move; try done. intros _. right. eexists. split; [done|]. by intros [|].
  - eapply told_change; [done|by eapply carries_move|done|done].
Qed.

(** ** A stream accesses a block *)

Definition access s k : MultiStreamMemBlock :=
  set_occupy_mif_ (Mif.SetAll s (occupy_mif_ k))
    (set_counts (<[s := uwrap 64 (cnt k s + 1)]> (stream_ids_to_occupy_count_ k)) k).

Lemma bit_access s k m j :
  (n <= 63)%nat -> (s < n)%nat -> (m < length (occupy_mif_ k))%nat ->
  bit (access s k) m j = bit k m j || bool_decide (j = s).
Proof.
  intros Hn Hs Hm. unfold bit, access. simpl. unfold Mif.SetAll. rewrite list_lookup_fmap.
  destruct (lookup_lt_is_Some_2 (occupy_mif_ k) m Hm) as [r Hr]. rewrite Hr. simpl. by apply (lor_bit n).
Qed.

Lemma cnt_access s k j :
  (s < length (stream_ids_to_occupy_count_ k))%nat ->
  cnt (access s k) j = if decide (j = s) then uwrap 64 (cnt k s + 1) else cnt k j.
Proof.
  intros Hs. unfold access. unfold cnt at 1. simpl. case_decide as E; [subst|].
  - by rewrite list_lookup_insert_eq.
  - by rewrite list_lookup_insert_ne.
Qed.

Lemma shaped_access s k : shaped n k -> shaped n (access s k).
Proof. intros [H1 H2 H3 H4]. split; simpl; [done|done|unfold Mif.SetAll; by rewrite length_fmap|by rewrite length_insert]. Qed.

(** Seen as in [used], but for rows that may be empty. *)
Lemma used_access hs b s k :
  (n <= 63)%nat -> (s < n)%nat -> zlen hs + 1 < 2 ^ 64 -> shaped n k ->
  (forall m r, occupy_mif_ k !! m = Some r -> row n r) ->
  (forall s, (s < n)%nat -> cnt k s = refs b s hs) ->
  (forall s, (s < n)%nat -> bit k s s = (0 <? cnt k s)) ->
  (forall m s, (m < n)%nat -> (s < n)%nat -> bit k s s = true -> bit k m s = true) ->
  (forall s, (b, s) ∈ hs -> (s < n)%nat) ->
  used n ((b, s) :: hs) b (access s k).
Proof.
  intros Hn Hs Hlen [_ _ Hm Hc] Hrow Hcnt Hown Hlate Hst.
  assert (Hcnt' : forall j, (j < n)%nat -> cnt (access s k) j = refs b j ((b, s) :: hs)).
  { intros j Hj. rewrite cnt_access by lia. rewrite refs_cons. pose proof (refs_nonneg b s hs). pose proof (refs_le b s hs).
    case_decide as E; [subst; rewrite decide_True by done|rewrite decide_False by congruence].
    - rewrite Hcnt by done. unfold uwrap. rewrite Z.mod_small; lia.
    - rewrite Hcnt by done. lia. }
  split.
  - intros m r. simpl. unfold Mif.SetAll. rewrite list_lookup_fmap. intros (r0 & Hr0 & ->)%fmap_Some.
    split; [by apply row_lor; [|apply (Hrow m)|]|]. intros E.
    assert (Z.testbit (Z.lor r0 (Mif.ToBit s)) (Z.of_nat s) = false) as Hz by (rewrite E; apply Z.bits_0).
    rewrite (lor_bit n) in Hz by done. rewrite bool_decide_true, orb_true_r in Hz by done. done.
  - done.
  - intros j Hj. rewrite bit_access by (done || lia). rewrite Hcnt', refs_cons, Hown, Hcnt by done.
    pose proof (refs_nonneg b j hs). case_bool_decide as E; case_decide as E'; try congruence.
    + rewrite orb_true_r. symmetry. apply Z.ltb_lt. lia.
    + by rewrite orb_false_r.
  - intros m j Hm' Hj. rewrite !bit_access by (done || lia). intros [Hb|Hb]%orb_true_iff; apply orb_true_iff; [left|by right].
    by apply Hlate.
  - intros j [[= ->]|Hin]%elem_of_cons; [done|by apply Hst].
Qed.

Lemma pending_access w k s v b :
  (n <= 63)%nat -> (s < n)%nat -> shaped n k ->
  (forall j t, birth_allocator_ k = Some t -> (j < n)%nat -> j <> t -> bit k t j = true -> bit k j j = false ->
     pending w b v j t) ->
  forall j t, birth_allocator_ (access s k) = Some t -> (j < n)%nat -> j <> t -> bit (access s k) t j = true ->
     bit (access s k) j j = false -> pending w b v j t.
Proof.
  intros Hn Hs [_ (t0 & Ht0 & Hlt) Hm Hc] Hp j t Ht Hj Hne. simpl in Ht. rewrite !bit_access by (done || lia || (rewrite Hm; congruence || (injection Ht; lia))).
  intros Hb [Hb' Hjs]%orb_false_iff. rewrite Hjs, orb_false_r in Hb. by apply Hp.
Qed.

(** A stream gets a reference to a block in use. *)
Lemma inv_access hs pl w b k s :
  (n <= 63)%nat -> (s < n)%nat -> zlen hs + 1 < 2 ^ 64 ->
  inv n X hs pl w -> blocks w !! b = Some k -> pl !! b = Some PUse ->
  inv n X ((b, s) :: hs) pl (upd_block b (access s k) w).
Proof.
  intros Hn Hs Hlen Hi Hb Hp. destruct (bo_block _ _ _ _ (iv_blocks _ _ _ _ _ Hi) b k _ Hb Hp) as [Hsh Hu].
  eapply (inv_block_update hs); try done; [apply off_cons|by apply shaped_access| |].
  - destruct Hu as [Hr Hc Ho Hl Hst]. apply used_access; try done. intros m r Hmr. by apply (Hr m).
  - intros HX. apply pending_access; try done. intros j t Ht Hj Hne. by apply (iv_told _ _ _ _ _ Hi b k).
Qed.

Lemma bit_zeros k m s : occupy_mif_ k = replicate n 0 -> bit k m s = false.
Proof.
  intros E. unfold bit. rewrite E. destruct (replicate n 0 !! m) as [r|] eqn:Er; [|done].
  apply lookup_replicate in Er as [-> _]. apply Z.bits_0.
Qed.

Lemma cnt_zeros k s : stream_ids_to_occupy_count_ k = replicate n 0 -> cnt k s = 0.
Proof.
  intros E. unfold cnt. rewrite E. destruct (replicate n 0 !! s) as [r|] eqn:Er; [|done].
  by apply lookup_replicate in Er as [-> _].
Qed.

(** A stream gets the first reference to a block in hand. *)
Lemma inv_adopt hs pl w b k s :
  (n <= 63)%nat -> (s < n)%nat -> zlen hs + 1 < 2 ^ 64 ->
  inv n X hs pl w -> blocks w !! b = Some k -> pl !! b = Some PRest ->
  occupy_mif_ k = replicate n 0 -> stream_ids_to_occupy_count_ k = replicate n 0 ->
  inv n X ((b, s) :: hs) (<[b := PUse]> pl) (upd_block b (access s k) w).
Proof.
  intros Hn Hs Hlen [Hbo Hlo Hmo Hto] Hb Hp Hmz Hcz.
  destruct (bo_block _ _ _ _ Hbo b k _ Hb Hp) as [Hsh Hun].
  assert (Hr0 : forall j, refs b j hs = 0) by (intros j; apply refs_zero, Hun). split.
  - eapply blocks_ok_keep; try done; [apply off_cons|]. split; [by apply shaped_access|].
    apply used_access; try done.
    + rewrite Hmz. intros m r [-> _]%lookup_replicate. by apply row_0.
    + intros j Hj. by rewrite cnt_zeros, Hr0.
    + intros j Hj. by rewrite bit_zeros, cnt_zeros.
    + intros m j _ _. by rewrite (bit_zeros k j j).
    + intros j Hin. by destruct (Hun j).
  - by eapply lists_ok_loose.
  - eapply messages_ok_change; try done. intros _. left. by left.
  - eapply told_change; [done|by apply carries_same|done|]. intros _ _ j t Ht Hj Hne.
    destruct Hsh as [_ (t0 & Ht0 & Hlt) Hm Hc]. simpl in Ht. assert (t = t0) as -> by congruence.
    rewrite !bit_access by (done || lia). rewrite !bit_zeros by done. simpl. congruence.
Qed.

(** A free block is taken, with new memory. *)
Lemma inv_take hs pl w b k x q ty s a rest :
  inv n X hs pl w -> blocks w !! b = Some k -> allocators w !! s = Some a -> free_ a = rest ++ [b] ->
  x ∉ pool_live (pool w) -> pool_live q = {[ x ]} ∪ pool_live (pool w) -> same_sizes (pool_live (pool w)) (pool w) q ->
  inv n X hs (<[b := PRest]> pl)
    (move b (MkBlock (Some x) (version_ k) (Some s) ty (replicate n 0) (replicate n 0)) q s
       (set_pool_ (holder_ a) rest a) w).
Proof.
  intros [Hbo Hlo Hmo Hto] Hb Hs Ef Hx Hq Hsz. destruct (lo_alloc _ _ _ Hlo s a Hs) as [[Hnd Hf] Hz Hne Hst].
  assert (Hp : pl !! b = Some (PFree s)) by (apply Hf; rewrite Ef; set_solver).
  pose proof (bo_block _ _ _ _ Hbo b k _ Hb Hp) as (Hsn & Hnone & Hun).
  set (k' := MkBlock _ _ _ _ _ _). set (a' := set_pool_ _ _ a).
  assert (Hoff : sizes_off k w q) by (intros y Hy _; by apply Hsz). split.
  - assert (Hc : blocks_ok n hs (<[b := PRest]> pl) (set_pool q (upd_block b k' w))).
    { eapply blocks_ok_change; try done.
      - split; [|done]. split; simpl; [by eexists|by exists s|by rewrite length_replicate..].
      - intros s' Hin. by destruct (Hun s').
      - intros y. rewrite Hq, Hnone. simpl. set_solver.
      - simpl. naive_solver. }
    by destruct Hc.
  - eapply (lists_ok_move hs pl w b k k'); try done.
    { intros t' Ht'. split_and!; congruence. }
    rewrite Ef in Hnd. apply NoDup_app in Hnd as (Hnd & Hnb & _). split; simpl.
    + split; [done|]. intros b'. destruct (decide (b' = b)) as [->|Hn'].
      * rewrite lookup_insert_eq. split; [intros Hin; exfalso; apply (Hnb b Hin); set_solver|done].
      * rewrite lookup_insert_ne, <- Hf, Ef by done. set_solver.
    + intros b' z. rewrite Hz. destruct (decide (b' = b)) as [->|Hn'].
      * rewrite lookup_insert_eq, Hp. naive_solver.
      * rewrite lookup_insert_ne by done. by rewrite (size_is_move hs pl w b k).
    + done.
    + intros b' t. rewrite Hst. destruct (decide (b' = b)) as [->|Hn'].
      * rewrite lookup_insert_eq, Hp. naive_solver.
      * rewrite lookup_insert_ne by done. by rewrite birth_is_move.
  - eapply messages_ok_move; try done. intros _. right. eexists. split; [done|]. by intros [|].
  - eapply told_change; [done|by eapply carries_move|done|done].
Qed.

(** ** The pools change behind the blocks *)

Lemma inv_pool hs pl w q :
  inv n X hs pl w -> pool_live q = pool_live (pool w) -> same_sizes (pool_live (pool w)) (pool w) q ->
  inv n X hs pl (set_pool q w).
Proof.
  intros [Hbo Hlo Hmo Hto] Hq Hsz.
  assert (Hz : forall b z, size_is (set_pool q w) b z <-> size_is w b z).
  { intros b z. unfold size_is. simpl. split; intros (k & x & H1 & H2 & H3); exists k, x; (split_and!; [done|done|]);
      rewrite <- H3; [symmetry|]; apply Hsz, (bo_live _ _ _ _ Hbo); by exists b, k. }
  split.
  - destruct Hbo as [H1 H2 H3 H4 H5 H6]. split; try done. intros x. simpl. rewrite Hq. apply H5.
  - destruct Hlo as [H1 H2 H3 H4]. split; try done.
    + intros s a Hs. eapply allocator_ok_frame; [by apply H2|done..].
    + intros e ev He. eapply (event_ok_same pl w); [done|by apply H3].
  - by destruct Hmo.
  - done.
Qed.

(** The memory of a block in use is moved. *)
Lemma inv_remem hs pl w b k x x' q s a :
  inv n X hs pl w -> blocks w !! b = Some k -> pl !! b = Some PUse -> mem_block_ k = Some x ->
  allocators w !! s = Some a ->
  x' ∉ pool_live (pool w) ∖ {[ x ]} -> pool_live q = {[ x' ]} ∪ (pool_live (pool w) ∖ {[ x ]}) ->
  same_sizes (pool_live (pool w) ∖ {[ x ]}) (pool w) q ->
  inv n X hs pl (set_pool q (upd_block b (set_mem_block_ (Some x') k) w)).
Proof.
  intros [Hbo Hlo Hmo Hto] Hb Hp Hm Hs Hx Hq Hsz.
  destruct (bo_block _ _ _ _ Hbo b k _ Hb Hp) as [Hsh Hu].
  assert (E : <[b := PUse]> pl = pl) by by apply insert_id. rewrite <- E.
  set (k' := set_mem_block_ (Some x') k).
  assert (Hoff : sizes_off k w q).
  { intros y Hy Hne. apply Hsz. rewrite elem_of_difference, elem_of_singleton. split; [done|congruence]. }
  assert (Ew : set_pool q (upd_block b k' w) = move b k' q s a w).
  { unfold move, upd_alloc, set_allocators. simpl. by rewrite list_insert_id. }
  split.
  - eapply blocks_ok_change; try done.
    + split; [|by destruct Hu]. destruct Hsh as [H1 H2 H3 H4]. split; try done.
    + intros y. rewrite Hq, Hm. simpl. rewrite elem_of_union, elem_of_difference, !elem_of_singleton. naive_solver.
    + simpl. intros y [= <-] Hy. rewrite Hm. f_equal. destruct (decide (x' = x)); [done|]. set_solver.
  - rewrite Ew. eapply (lists_ok_move hs pl w b k k'); try done.
    destruct (lo_alloc _ _ _ Hlo s a Hs) as [[Hnd Hf] Hz Hne Hst]. rewrite E.
    assert (Hn : forall b', pl !! b' = Some (PBorrow s) -> b' <> b) by (intros b' ? ->; congruence).
    split; [done| |done|].
    + intros b' z. rewrite Hz. split; intros [? ?]; (split; [done|]); apply (size_is_move hs pl w b k k' q s a); try done; by apply Hn.
    + intros b' t. rewrite Hst. split; intros [? ?]; (split; [done|]); apply (birth_is_move b k' q s a); try done; by apply Hn.
  - rewrite Ew. eapply messages_ok_move; try done. intros _. left. by left.
  - rewrite Ew. eapply told_change; [done|by eapply carries_move|done|]. intros _ HX j t Ht Hj Hne H1 H2.
    eapply pending_carries; [by eapply carries_move|]. by apply (Hto b k).
Qed.

(** ** A stream gives up a reference *)

Definition lower s k : MultiStreamMemBlock :=
  set_counts (<[s := cnt k s - 1]> (stream_ids_to_occupy_count_ k)) k.

Lemma cnt_lower s k j :
  (s < length (stream_ids_to_occupy_count_ k))%nat -> cnt (lower s k) j = if decide (j = s) then cnt k s - 1 else cnt k j.
Proof.
  intros Hs. unfold lower, cnt at 1. simpl. case_decide as E; [subst; by rewrite list_lookup_insert_eq|by rewrite list_lookup_insert_ne].
Qed.

(** The counts after giving up a reference, whatever the bits are. *)
Lemma lower_count hs hs' b s k j :
  shaped n k -> used n hs b k -> gives_up b s hs hs' -> (s < n)%nat -> (j < n)%nat -> cnt (lower s k) j = refs b j hs'.
Proof.
  intros Hsh Hu (_ & Hs & Hj) Hsn Hjn. rewrite cnt_lower by (rewrite (sp_counts _ _ Hsh); done).
  case_decide as E; [subst|]; rewrite (us_count _ _ _ _ Hu) by done; [done|by rewrite Hj].
Qed.

(** It keeps others. *)
Lemma inv_lower hs hs' pl w b k s :
  inv n X hs pl w -> blocks w !! b = Some k -> pl !! b = Some PUse -> gives_up b s hs hs' -> (s < n)%nat ->
  1 < cnt k s -> inv n X hs' pl (upd_block b (lower s k) w).
Proof.
  intros Hi Hb Hp Hg Hs Hc. destruct (bo_block _ _ _ _ (iv_blocks _ _ _ _ _ Hi) b k _ Hb Hp) as [Hsh Hu].
  eapply (inv_block_update hs); try done.
  - apply Hg.
  - destruct Hsh as [H1 H2 H3 H4]. split; try done. simpl. by rewrite length_insert.
  - destruct Hu as [Hr Hct Hown Hlate Hst] eqn:EHu. split; try done.
    + intros j Hj. by eapply lower_count.
    + intros j Hj. rewrite cnt_lower by (rewrite (sp_counts _ _ Hsh); done). change (bit (lower s k)) with (bit k).
      rewrite Hown by done. case_decide as E; [subst|done].
      rewrite !(proj2 (Z.ltb_lt _ _)) by lia. done.
    + intros j Hin. apply Hst. by eapply gives_up_streams.
  - intros HX j t Ht Hj Hne. by apply (iv_told _ _ _ _ _ Hi b k).
Qed.

(** It was the last: the stream's own bit goes. *)
Definition clear_row s (m : list Z) : list Z :=
  <[s := Z.land (default 0 (m !! s)) (uwrap 64 (Z.lnot (Mif.ToBit s)))]> m.
Definition quit s k : MultiStreamMemBlock := set_occupy_mif_ (clear_row s (occupy_mif_ k)) (lower s k).

Section rows.
Context (hs : list (positive * nat)) (b : positive) (k : MultiStreamMemBlock).
Context (Hn : (n <= 63)%nat) (Hsh : shaped n k) (Hu : used n hs b k).

Lemma mif_row m : (m < n)%nat -> exists r, occupy_mif_ k !! m = Some r /\ row n r /\ r <> 0.
Proof.
  intros Hm. destruct (lookup_lt_is_Some_2 (occupy_mif_ k) m) as [r Hr]; [by rewrite (sp_mif _ _ Hsh)|].
  exists r. split; [done|]. by apply (us_row _ _ _ _ Hu m).
Qed.

Lemma bit_quit s m j :
  (s < n)%nat -> (m < n)%nat -> bit (quit s k) m j = bit k m j && negb (bool_decide (m = s) && bool_decide (j = s)).
Proof.
  intros Hs Hm. unfold bit, quit, clear_row. simpl. destruct (decide (m = s)) as [->|Hne].
  - destruct (mif_row s Hs) as (r & Er & Hr & _). rewrite list_lookup_insert_eq by (rewrite (sp_mif _ _ Hsh); done).
    rewrite Er. simpl. rewrite (clear_bit n), (bool_decide_true (s = s)) by done. by rewrite bool_decide_not.
  - rewrite list_lookup_insert_ne by done. by rewrite (bool_decide_false (m = s)), andb_true_r.
Qed.

Lemma shaped_quit s : shaped n (quit s k).
Proof. destruct Hsh as [H1 H2 H3 H4]. split; try done; simpl; unfold clear_row; by rewrite length_insert. Qed.

Lemma own_quit s j : (s < n)%nat -> (j < n)%nat -> cnt k s = 1 -> bit (quit s k) j j = (0 <? cnt (lower s k) j).
Proof.
  intros Hs Hj H1. rewrite bit_quit, cnt_lower by (done || (rewrite (sp_counts _ _ Hsh); done)).
  rewrite (us_own _ _ _ _ Hu) by done. case_bool_decide as E; case_decide as E'; try congruence; simpl.
  - rewrite H1, andb_false_r. done.
  - by rewrite andb_true_r.
Qed.

Lemma late_quit s m j :
  (s < n)%nat -> (m < n)%nat -> (j < n)%nat -> bit (quit s k) j j = true -> bit (quit s k) m j = true.
Proof.
  intros Hs Hm Hj. rewrite !bit_quit by done. intros [Hb Hne]%andb_true_iff.
  rewrite (us_late _ _ _ _ Hu m j Hm Hj Hb). simpl. destruct (bool_decide (j = s)); simpl in *; [done|by rewrite andb_false_r].
Qed.

Lemma row_quit s m r : (s < n)%nat -> occupy_mif_ (quit s k) !! m = Some r -> row n r /\ (m <> s -> r <> 0).
Proof.
  intros Hs. simpl. unfold clear_row. intros [[<- [<- _]]|[Hne Hr]]%list_lookup_insert_Some.
  - destruct (mif_row s Hs) as (r & -> & Hr & _). simpl. split; [|done]. apply (row_land_l n); try done. by apply uwrap_nonneg.
  - destruct (us_row _ _ _ _ Hu m r Hr). done.
Qed.

(** An empty row means that nobody has references. *)
Lemma empty_row k' hs' m :
  shaped n k' -> (m < n)%nat -> occupy_mif_ k' !! m = Some 0 ->
  (forall j, (j < n)%nat -> cnt k' j = refs b j hs') ->
  (forall j, (j < n)%nat -> bit k' j j = (0 <? cnt k' j)) ->
  (forall m j, (m < n)%nat -> (j < n)%nat -> bit k' j j = true -> bit k' m j = true) ->
  (forall j, (b, j) ∈ hs' -> (j < n)%nat) -> unheld b hs'.
Proof.
  intros Hsh' Hm Hz Hc Ho Hl Hst j Hin. pose proof (Hst j Hin) as Hj. apply refs_pos in Hin. rewrite <- Hc in Hin by done.
  assert (Hb : bit k' j j = true) by (rewrite Ho by done; by apply Z.ltb_lt).
  apply (Hl m) in Hb; [|done|done]. unfold bit in Hb. rewrite Hz in Hb. by rewrite Z.bits_0 in Hb.
Qed.
End rows.

(** Others may still use it: a message goes out. *)
Lemma inv_quit_keep hs hs' pl w b k s a :
  (n <= 63)%nat -> inv n X hs pl w -> blocks w !! b = Some k -> pl !! b = Some PUse -> gives_up b s hs hs' -> (s < n)%nat ->
  cnt k s = 1 -> occupy_mif_ (quit s k) !! s <> Some 0 -> allocators w !! s = Some a ->
  let en := MkStreamed (MkVersionBlock (version_ k) b) 0 in
  inv n X hs' pl (upd_block b (quit s k) (upd_alloc s (set_local (local_recycle_blocks_ a ++ [en]) a) w)).
Proof.
  intros Hn Hi Hb Hp Hg Hs H1 Hnz Ha en. destruct (bo_block _ _ _ _ (iv_blocks _ _ _ _ _ Hi) b k _ Hb Hp) as [Hsh Hu].
  destruct (inv_push hs pl w b k s a Hi Hb Hp Ha) as (Hi' & Hc & Hpend).
  eapply (inv_block_update hs); try done.
  - apply Hg.
  - by apply (shaped_quit k Hsh).
  - split.
    + intros m r Hr. destruct (row_quit hs b k Hn Hsh Hu s m r Hs Hr) as [Hrow Hz]. split; [done|].
      destruct (decide (m = s)) as [->|Hne]; [congruence|by apply Hz].
    + intros j Hj. by eapply lower_count.
    + intros j Hj. by apply (own_quit hs b k).
    + intros m j Hm Hj. by apply (late_quit hs b k).
    + intros j Hin. apply (us_streams _ _ _ _ Hu). by eapply gives_up_streams.
  - intros HX j t Ht Hj Hne. pose proof (sp_birth _ _ Hsh) as (t0 & Ht0 & Hlt). simpl in Ht. assert (t = t0) as -> by congruence.
    rewrite !(bit_quit hs b k) by done. intros [Hb1 _]%andb_true_iff Hb2.
    destruct (decide (j = s)) as [->|Hjs]; [apply Hpend|].
    eapply pending_carries; [done|]. apply (iv_told _ _ _ _ _ Hi b k); try done.
    rewrite (bool_decide_false (j = s)), andb_true_r in Hb2 by done. done.
Qed.

(** Nobody uses it any more. *)
Lemma inv_quit_drain hs hs' pl w b k s :
  (n <= 63)%nat -> inv n X hs pl w -> blocks w !! b = Some k -> pl !! b = Some PUse -> gives_up b s hs hs' -> (s < n)%nat ->
  cnt k s = 1 -> occupy_mif_ (quit s k) !! s = Some 0 ->
  inv n X hs' (<[b := PHand]> pl) (upd_block b (quit s k) w).
Proof.
  intros Hn Hi Hb Hp Hg Hs H1 Hz. destruct (bo_block _ _ _ _ (iv_blocks _ _ _ _ _ Hi) b k _ Hb Hp) as [Hsh Hu].
  eapply (inv_drain hs); try done.
  - apply Hg.
  - by apply (shaped_quit k Hsh).
  - eapply (empty_row b (quit s k) hs' s); try done.
    + by apply (shaped_quit k Hsh).
    + intros j Hj. by eapply lower_count.
    + intros j Hj. by apply (own_quit hs b k).
    + intros m j Hm Hj. by apply (late_quit hs b k).
    + intros j Hin. apply (us_streams _ _ _ _ Hu). by eapply gives_up_streams.
Qed.

(** ** A stream learns from another *)

Definition merge_rows src dst (m : list Z) : list Z :=
  <[dst := Z.land (default 0 (m !! dst)) (default 0 (m !! src))]> m.
Definition learn src dst k : MultiStreamMemBlock := set_occupy_mif_ (merge_rows src dst (occupy_mif_ k)) k.

Lemma shaped_learn src dst k : shaped n k -> shaped n (learn src dst k).
Proof. intros [H1 H2 H3 H4]. split; try done. simpl. unfold merge_rows. by rewrite length_insert. Qed.

(** The bits after [learn], over a list of sources at once. *)
Lemma bit_learn src dst k m j :
  shaped n k -> (src < n)%nat -> (dst < n)%nat -> (m < n)%nat ->
  bit (learn src dst k) m j = bit k m j && (negb (bool_decide (m = dst)) || bit k src j).
Proof.
  intros Hsh Hs Hd Hm. unfold bit, learn, merge_rows. simpl. destruct (decide (m = dst)) as [->|Hne].
  - rewrite list_lookup_insert_eq by (rewrite (sp_mif _ _ Hsh); done). rewrite bool_decide_true by done. simpl.
    destruct (lookup_lt_is_Some_2 (occupy_mif_ k) dst) as [d Ed]; [by rewrite (sp_mif _ _ Hsh)|].
    destruct (lookup_lt_is_Some_2 (occupy_mif_ k) src) as [r Er]; [by rewrite (sp_mif _ _ Hsh)|].
    rewrite Ed, Er. simpl. apply Z.land_spec.
  - rewrite list_lookup_insert_ne by done. rewrite bool_decide_false by done. by rewrite andb_true_r.
Qed.

Section learn.
Context (hs : list (positive * nat)) (b : positive) (k : MultiStreamMemBlock) (src dst : nat).
Context (Hn : (n <= 63)%nat) (Hsh : shaped n k) (Hu : used n hs b k) (Hsrc : (src < n)%nat) (Hdst : (dst < n)%nat).

Lemma own_learn j : (j < n)%nat -> bit (learn src dst k) j j = bit k j j.
Proof.
  intros Hj. rewrite bit_learn by done. destruct (bit k j j) eqn:E; [|done]. simpl.
  case_bool_decide; [|done]. simpl. by apply (us_late _ _ _ _ Hu).
Qed.

Lemma late_learn m j :
  (m < n)%nat -> (j < n)%nat -> bit (learn src dst k) j j = true -> bit (learn src dst k) m j = true.
Proof.
  intros Hm Hj. rewrite own_learn by done. intros Hb. rewrite bit_learn by done.
  rewrite (us_late _ _ _ _ Hu m j), (us_late _ _ _ _ Hu src j) by done. by rewrite orb_true_r.
Qed.

Lemma row_learn m r : occupy_mif_ (learn src dst k) !! m = Some r -> row n r /\ (m <> dst -> r <> 0).
Proof.
  simpl. unfold merge_rows. intros [[<- [<- _]]|[Hne Hr]]%list_lookup_insert_Some.
  - destruct (mif_row hs b k Hsh Hu dst Hdst) as (d & -> & Hd & _).
    destruct (mif_row hs b k Hsh Hu src Hsrc) as (r & -> & Hr & _). simpl. split; [|done].
    apply (row_land_l n); try done. by destruct Hr.
  - destruct (us_row _ _ _ _ Hu m r Hr). done.
Qed.

Lemma used_learn : occupy_mif_ (learn src dst k) !! dst <> Some 0 -> used n hs b (learn src dst k).
Proof.
  intros Hnz. split.
  - intros m r Hr. destruct (row_learn m r Hr) as [Hrow Hz]. split; [done|].
    destruct (decide (m = dst)) as [->|Hne]; [congruence|by apply Hz].
  - apply (us_count _ _ _ _ Hu).
  - intros j Hj. rewrite own_learn by done. by apply (us_own _ _ _ _ Hu).
  - intros m j. apply late_learn.
  - apply (us_streams _ _ _ _ Hu).
Qed.

Lemma unheld_learn : occupy_mif_ (learn src dst k) !! dst = Some 0 -> unheld b hs.
Proof.
  intros Hz. eapply (empty_row b (learn src dst k) hs dst); try done.
  - by apply shaped_learn.
  - apply (us_count _ _ _ _ Hu).
  - intros j Hj. rewrite own_learn by done. by apply (us_own _ _ _ _ Hu).
  - intros m j. apply late_learn.
  - apply (us_streams _ _ _ _ Hu).
Qed.
End learn.

Lemma inv_learn hs pl w b k src dst :
  (n <= 63)%nat -> inv n X hs pl w -> blocks w !! b = Some k -> pl !! b = Some PUse -> (src < n)%nat -> (dst < n)%nat ->
  inv n X hs (if decide (occupy_mif_ (learn src dst k) !! dst = Some 0) then <[b := PHand]> pl else pl)
    (upd_block b (learn src dst k) w).
Proof.
  intros Hn Hi Hb Hp Hs Hd. destruct (bo_block _ _ _ _ (iv_blocks _ _ _ _ _ Hi) b k _ Hb Hp) as [Hsh Hu].
  case_decide as E.
  - eapply (inv_drain hs); try done; [by apply shaped_learn|by apply (unheld_learn hs b k src dst)].
  - eapply (inv_block_update hs); try done; [by apply shaped_learn|by apply used_learn|].
    intros HX j t Ht Hj Hne. pose proof (sp_birth _ _ Hsh) as (t0 & Ht0 & Hlt). simpl in Ht. assert (t = t0) as -> by congruence.
    rewrite (own_learn hs b k) by done. rewrite bit_learn by done. intros [Hb1 _]%andb_true_iff Hb2.
    by apply (iv_told _ _ _ _ _ Hi b k).
Qed.

(** ** Several blocks at once *)

(** Places where a block rests without references. *)
Definition resting (p : Place) : Prop := match p with PBorrow _ | PEvent _ | PRest => True | _ => False end.

Lemma blocks_ok_park hs pl w w' bs p' :
  blocks_ok n hs pl w -> (forall b, b ∈ bs -> exists p, pl !! b = Some p /\ resting p) ->
  p' = PRest \/ (exists e, p' = PEvent e) ->
  blocks w' = blocks w -> next_block w' = next_block w -> pool w' = pool w ->
  blocks_ok n hs (park p' bs pl) w'.
Proof.
  intros [H1 H2 H3 H4 H5 H6] Hbs Hp' Eb En Ep.
  assert (Hun : forall b s, b ∈ bs -> (b, s) ∈ hs -> False).
  { intros b s Hin Hh. destruct (Hbs b Hin) as (p & Hp & Hr). rewrite (H4 b s Hh) in Hp. by injection Hp as <-. }
  split; rewrite ?Eb, ?En, ?Ep; try done.
  - intros b. rewrite lookup_park, H1. case_decide as E; [|done].
    destruct (Hbs b E) as (p & -> & _). split; intros _; by eexists.
  - intros b k p Hb. rewrite lookup_park. case_decide as E; [|by apply H3].
    intros [= <-]. destruct (Hbs b E) as (p & Hp & Hr). pose proof (H3 b k p Hb Hp) as Hok.
    assert (Hg : shaped n k /\ unheld b hs) by (destruct p; try done; simpl in Hok; naive_solver).
    destruct Hp' as [->|[e ->]]; done.
  - intros b s Hh. rewrite lookup_park, decide_False; [by eapply H4|]. intros Hin. by eapply Hun.
Qed.

Lemma message_ok_park pl w w' bs p' vb :
  message_ok pl w vb -> (forall b, b ∈ bs -> exists p, pl !! b = Some p /\ resting p) -> blocks w' = blocks w ->
  message_ok (park p' bs pl) w' vb.
Proof.
  intros (k & Hb & Hle & Hcur) Hbs Eb. exists k. rewrite Eb, !lookup_park. split_and!; [done|done|]. intros E.
  case_decide as Hin; [|by apply Hcur]. destruct (Hbs _ Hin) as (p & Hp & Hr). destruct (Hcur E) as [Hc|Hc]; rewrite Hp in Hc; by injection Hc as ->.
Qed.

Lemma told_park pl w w' bs p' :
  told n X pl w -> p' <> PUse -> (forall b, b ∈ bs -> pl !! b <> Some PUse) -> blocks w' = blocks w -> carries w w' ->
  told n X (park p' bs pl) w'.
Proof.
  intros Ht Hp' Hbs Eb Hc b k s t HX. rewrite Eb, lookup_park. case_decide; [congruence|]. intros.
  eapply pending_carries; [done|]. by eapply Ht.
Qed.

(** Borrowed blocks born on stream [t] are taken out. *)
Lemma inv_take_borrowed hs pl w s a t bs M :
  inv n X hs pl w -> allocators w !! s = Some a -> (forall b, b ∈ bs <-> b ∈ default ∅ (stream_to_borrow_block a !! t)) ->
  (forall b z, b ∈ default ∅ (M !! z) <-> (b ∈ default ∅ (size_to_borrow_block a !! z)) /\ b ∉ bs) ->
  (forall z Y, M !! z = Some Y -> Y <> ∅) ->
  inv n X hs (park PRest bs pl) (upd_alloc s (set_borrow M (delete t (stream_to_borrow_block a)) a) w).
Proof.
  intros [Hbo Hlo Hmo Hto] Hs Hbs HM HMne. set (a' := set_borrow _ _ a).
  destruct (lo_alloc _ _ _ Hlo s a Hs) as [[Hnd Hf] Hz Hne Hst].
  assert (Hin : forall b, b ∈ bs -> pl !! b = Some (PBorrow s) /\ birth_is w b t) by (intros b Hb; by apply Hst, Hbs).
  assert (Hr : forall b, b ∈ bs -> exists p, pl !! b = Some p /\ resting p).
  { intros b Hb. destruct (Hin b Hb) as [Hp _]. by exists (PBorrow s). }
  assert (Hc : carries w (upd_alloc s a' w)).
  { by apply (carries_move w 1 MemBlock.construct (pool w) s a a'). }
  assert (Hpk : forall b p, p <> PBorrow s -> p <> PRest -> park PRest bs pl !! b = Some p <-> pl !! b = Some p).
  { intros b p H1 H2. rewrite lookup_park. case_decide as E; [|done]. destruct (Hin b E) as [Hp _]. rewrite Hp. split; congruence. }
  split.
  - eapply blocks_ok_park; try done. by left.
  - destruct Hlo as [L1 L2 L3 L4]. split; simpl.
    + by rewrite length_insert.
    + intros s' a0 [[<- [<- _]]|[Hs' H0]]%list_lookup_insert_Some.
      * split; simpl; [split; [done|]| |done|].
        -- intros b. rewrite Hf. symmetry. by apply Hpk.
        -- intros b z. rewrite HM, Hz, lookup_park. case_decide as E; [naive_solver|]. naive_solver.
        -- intros b t'. rewrite lookup_park. destruct (decide (t' = t)) as [->|Ht'].
           ++ rewrite lookup_delete_eq. simpl. case_decide as E; [set_solver|].
              split; [set_solver|]. intros Hb. destruct E. by apply Hbs, Hst.
           ++ rewrite lookup_delete_ne, Hst by done. case_decide as E; [|done].
              destruct (Hin b E) as [_ Hb]. split; [|naive_solver]. intros [_ Hb']. destruct Ht'. by eapply birth_is_fun.
      * eapply (allocator_ok_frame pl); [by apply L2| | |done|done]; intros b; apply Hpk; congruence.
    + intros e ev He. eapply (event_ok_frame pl); [by apply L3| |done]. intros b. by apply Hpk.
    + intros b e Hb. eapply L4. by apply Hpk in Hb.
  - destruct Hmo as [M1 M2]. split; simpl.
    + intros s' a0 en [[<- [<- _]]|[_ H0]]%list_lookup_insert_Some He; (eapply message_ok_park; [|done|done]); by eapply M1.
    + intros e ev vb He Hvb. eapply message_ok_park; [by eapply M2|done|done].
  - eapply told_park; try done. intros b Hb. destruct (Hin b Hb) as [-> _]. done.
Qed.

(** *** Events *)

Lemma carries_event w e ev ev' :
  events w !! e = Some ev -> logic_src_stream ev' = logic_src_stream ev -> logic_dst_stream ev' = logic_dst_stream ev ->
  block_free_by_src_stream ev ⊆ block_free_by_src_stream ev' -> carries w (upd_event e ev' w).
Proof.
  intros He E1 E2 Hsub. split; [intros; by eexists|]. intros e' ev0 H0. simpl. destruct (decide (e' = e)) as [->|Hne].
  - rewrite list_lookup_insert_eq by by eapply lookup_lt_Some. assert (ev0 = ev) as -> by congruence. by exists ev'.
  - rewrite list_lookup_insert_ne by done. by exists ev0.
Qed.

(** Blocks leave or join the event's list of returns. *)
Lemma inv_event_returns hs pl w e ev bs p p' rs :
  inv n X hs pl w -> events w !! e = Some ev ->
  (forall b, b ∈ bs -> pl !! b = Some p) -> p = PRest /\ p' = PEvent e \/ p = PEvent e /\ p' = PRest ->
  (forall b, b ∈ bs -> birth_is w b (logic_dst_stream ev)) ->
  NoDup rs -> (forall b, b ∈ rs <-> park p' bs pl !! b = Some (PEvent e)) ->
  inv n X hs (park p' bs pl) (upd_event e (set_space (block_free_by_src_stream ev) rs ev) w).
Proof.
  intros [Hbo Hlo Hmo Hto] He Hbs Hpp Hbi Hnd Hrs. set (ev' := set_space _ _ ev).
  assert (Hr : forall b, b ∈ bs -> exists q, pl !! b = Some q /\ resting q).
  { intros b Hb. exists p. split; [by apply Hbs|]. by destruct Hpp as [[-> _]|[-> _]]. }
  assert (Hpk : forall b q, q <> PRest -> q <> PEvent e -> park p' bs pl !! b = Some q <-> pl !! b = Some q).
  { intros b q H1 H2. rewrite lookup_park. case_decide as E; [|done]. rewrite (Hbs b E). naive_solver. }
  split.
  - eapply blocks_ok_park; try done. destruct Hpp as [[_ ->]|[_ ->]]; [right; by eexists|by left].
  - destruct Hlo as [L1 L2 L3 L4]. split; simpl; [done| | |].
    + intros s a Hs. eapply (allocator_ok_frame pl); [by apply L2| | |done|done]; intros b; by apply Hpk.
    + intros e' ev0 [[<- [<- _]]|[Hne H0]]%list_lookup_insert_Some.
      * destruct (L3 e ev He) as [E1 [E2 E3] E4]. split; simpl; [done|done|]. intros b Hb%Hrs.
        rewrite lookup_park in Hb. case_decide as E; [by apply Hbi|]. by apply E4, E3.
      * eapply (event_ok_frame pl); [by apply L3| |done]. intros b. apply Hpk; congruence.
    + intros b e' Hb. destruct (decide (e' = e)) as [->|Hne].
      * rewrite list_lookup_insert_eq by by eapply lookup_lt_Some. by eexists.
      * rewrite list_lookup_insert_ne by done. eapply L4. apply Hpk in Hb; [done|done|congruence].
  - destruct Hmo as [M1 M2]. split; simpl.
    + intros s a en Ha Hen. eapply message_ok_park; [by eapply M1|done|done].
    + intros e' ev0 vb [[<- [<- _]]|[_ H0]]%list_lookup_insert_Some Hvb; (eapply message_ok_park; [|done|done]); by eapply M2.
  - eapply told_park; try done.
    + by destruct Hpp as [[_ ->]|[_ ->]].
    + intros b Hb. rewrite (Hbs b Hb). by destruct Hpp as [[-> _]|[-> _]].
    + by eapply carries_event.
Qed.

(** What the receiver has learnt of may be dropped from the event. *)
Definition settled pl w (vb : VersionBlock) src dst : Prop :=
  ~ X (block vb) -> forall k, blocks w !! block vb = Some k -> version vb = version_ k -> pl !! block vb = Some PUse ->
    birth_allocator_ k = Some dst -> bit k dst src = true -> bit k src src = true.

Lemma inv_event_spaces hs pl w e ev fs :
  inv n X hs pl w -> events w !! e = Some ev ->
  (forall vb, vb ∈ fs -> message_ok pl w vb) ->
  (forall vb, vb ∈ block_free_by_src_stream ev -> vb ∉ fs -> settled pl w vb (logic_src_stream ev) (logic_dst_stream ev)) ->
  inv n X hs pl (upd_event e (set_space fs (block_need_return_birth ev) ev) w).
Proof.
  intros [Hbo Hlo Hmo Hto] He Hfs Hset. split.
  - by destruct Hbo.
  - destruct Hlo as [L1 L2 L3 L4]. split; simpl; [done| | |].
    + intros s a Hs. eapply (allocator_ok_same pl w); [done|done|by apply L2].
    + intros e' ev0 [[<- [<- _]]|[Hne H0]]%list_lookup_insert_Some.
      * by destruct (L3 e ev He).
      * eapply (event_ok_same pl w); [done|by apply L3].
    + intros b e' Hb. destruct (L4 b e' Hb) as [ev0 H0]. apply lookup_lt_is_Some. rewrite length_insert.
      by eapply lookup_lt_Some.
  - destruct Hmo as [M1 M2]. split; simpl.
    + intros s a en Ha Hen. by eapply M1.
    + intros e' ev0 vb [[<- [<- _]]|[_ H0]]%list_lookup_insert_Some Hvb; [by apply Hfs|by eapply M2].
  - intros b k s t HX Hb Hp Ht Hs Hne H1 H2. destruct (Hto b k s t HX Hb Hp Ht Hs Hne H1 H2) as [Hl|(e' & ev0 & H0 & E1 & E2 & Hin)].
    + by left.
    + destruct (decide (e' = e)) as [->|Hee].
      * assert (ev0 = ev) as -> by congruence. destruct (decide (MkVersionBlock (version_ k) b ∈ fs)) as [Hf|Hf].
        -- right. exists e, (set_space fs (block_need_return_birth ev) ev). simpl. split_and!; try done.
           apply list_lookup_insert_eq. by eapply lookup_lt_Some.
        -- exfalso. subst s t. specialize (Hset _ Hin Hf HX k Hb eq_refl Hp Ht H1). congruence.
      * right. exists e', ev0. simpl. by rewrite list_lookup_insert_ne.
Qed.

(** *** The list of local recycles *)

(** Entries go when they are out of date or have been sent to all, and are
    marked when they are sent to [dst]. *)
Lemma inv_local hs pl w s a l :
  inv n X hs pl w -> allocators w !! s = Some a ->
  (forall en, en ∈ l -> message_ok pl w (version_block en)) ->
  (forall en k t, en ∈ local_recycle_blocks_ a -> ~ X (block (version_block en)) -> blocks w !! block (version_block en) = Some k ->
     version (version_block en) = version_ k -> pl !! block (version_block en) = Some PUse ->
     birth_allocator_ k = Some t -> t <> s -> (t < n)%nat -> Z.testbit (sent_flags en) (Z.of_nat t) = false ->
     pending (upd_alloc s (set_local l a) w) (block (version_block en)) (version_ k) s t) ->
  inv n X hs pl (upd_alloc s (set_local l a) w).
Proof.
  intros [Hbo Hlo Hmo Hto] Hs Hl Hpend. split.
  - by destruct Hbo.
  - by apply lists_ok_local.
  - destruct Hmo as [M1 M2]. split; simpl.
    + intros s' a0 en [[<- [<- _]]|[_ H0]]%list_lookup_insert_Some Hin; [by apply Hl|by eapply M1].
    + intros e ev vb He Hvb. by eapply M2.
  - intros b k s' t HX Hb Hp Ht Hs' Hne H1 H2. pose proof (bo_block _ _ _ _ Hbo b k _ Hb Hp) as [Hsh _].
    destruct (sp_birth _ _ Hsh) as (t0 & Ht0 & Hlt). assert (t0 = t) as -> by congruence.
    destruct (Hto b k s' t HX Hb Hp Ht Hs' Hne H1 H2) as [(a0 & en & Ha0 & Hin & Evb & Hfl)|Hev]; [|by right].
    destruct (decide (s' = s)) as [->|Hss].
    + assert (a0 = a) as -> by congruence. specialize (Hpend en k t Hin). rewrite Evb in Hpend. simpl in Hpend. by apply Hpend.
    + left. exists a0, en. simpl. by rewrite list_lookup_insert_ne.
Qed.

(** ** New block objects *)

Lemma inv_extend hs pl w s a seg nxt :
  inv n X hs pl w -> allocators w !! s = Some a -> NoDup seg ->
  (forall b, b ∈ seg -> (next_block w <= b < nxt)%positive) -> (next_block w <= nxt)%positive ->
  inv n X hs (list_to_map ((fun b => (b, PFree s)) <$> seg) ∪ pl)
    (upd_alloc s (set_pool_ (holder_ a ++ [seg]) (free_ a ++ seg) a)
       (set_next_block nxt (set_blocks (list_to_map ((fun b => (b, MemBlock.construct)) <$> seg) ∪ blocks w) w))).
Proof.
  intros [Hbo Hlo Hmo Hto] Hs Hnd Hseg Hnx. set (w' := upd_alloc _ _ _). set (pl' := _ ∪ pl).
  destruct Hbo as [H1 H2 H3 H4 H5 H6].
  assert (Hold : forall b k, blocks w !! b = Some k -> b ∉ seg).
  { intros b k Hb Hin. pose proof (Hseg b Hin). pose proof (H2 b ltac:(by eexists)). lia. }
  assert (Hpl : forall b p, pl !! b = Some p -> b ∉ seg).
  { intros b p Hb. destruct (proj2 (H1 b)) as [k Hk]; [by eexists|]. by eapply Hold. }
  assert (Lb : forall b, blocks w' !! b = if decide (b ∈ seg) then Some MemBlock.construct else blocks w !! b)
    by (intros b; by apply lookup_new).
  assert (Lp : forall b, pl' !! b = if decide (b ∈ seg) then Some (PFree s) else pl !! b) by (intros b; by apply lookup_new).
  assert (Hsn : (s < n)%nat) by (rewrite <- (lo_len _ _ _ Hlo); by eapply lookup_lt_Some).
  assert (Lp' : forall b p, p <> PFree s -> pl' !! b = Some p <-> pl !! b = Some p).
  { intros b p Hp. rewrite Lp. case_decide as E; [|done]. split; [congruence|]. by intros ?%Hpl. }
  assert (Hsz : forall b z, b ∉ seg -> size_is w' b z <-> size_is w b z).
  { intros b z Hb. unfold size_is. rewrite Lb, decide_False by done. done. }
  assert (Hbi : forall b t, b ∉ seg -> birth_is w' b t <-> birth_is w b t).
  { intros b t Hb. unfold birth_is. rewrite Lb, decide_False by done. done. }
  split.
  - split.
    + intros b. rewrite Lb, Lp. case_decide; [split; intros _; by eexists|apply H1].
    + intros b. rewrite Lb. simpl. case_decide as E; [intros _; by apply Hseg|]. intros Hb. pose proof (H2 b Hb). lia.
    + intros b k p. rewrite Lb, Lp. case_decide as E; [|apply H3]. intros [= <-] [= <-]. split_and!; [done|done|].
      intros s' Hh. by apply H4, Hpl in Hh.
    + intros b s' Hh. apply Lp'; [done|]. by eapply H4.
    + intros x. simpl. rewrite H5. split; intros (b & k & Hb & Hx); exists b, k.
      * rewrite Lb, decide_False by by eapply Hold. done.
      * rewrite Lb in Hb. case_decide; [|done]. injection Hb as <-. done.
    + intros b b' k k' x. rewrite !Lb. repeat case_decide; try naive_solver.
  - destruct Hlo as [L1 L2 L3 L4]. split; simpl.
    + by rewrite length_insert.
    + intros s' a0 [[<- [<- _]]|[Hne H0]]%list_lookup_insert_Some.
      * destruct (L2 s a Hs) as [[Hnf Hf] Hz Hzne Hst]. split; simpl; [split| |done|].
        -- apply NoDup_app. split_and!; [done| |done]. intros b Hb%Hf. by eapply Hpl.
        -- intros b. rewrite elem_of_app, Hf, Lp. case_decide; naive_solver.
        -- intros b z. rewrite Hz, Lp' by done. split; intros [Hp Hb]; (split; [done|]); apply Hsz in Hb || apply Hsz; try done; by eapply Hpl.
        -- intros b t. rewrite Hst, Lp' by done. split; intros [Hp Hb]; (split; [done|]); apply Hbi in Hb || apply Hbi; try done; by eapply Hpl.
      * eapply (allocator_ok_frame pl); [by apply L2|..].
        -- intros b. apply Lp'. congruence.
        -- intros b. by apply Lp'.
        -- intros b z Hb. apply Hsz. by eapply Hpl.
        -- intros b t Hb. apply Hbi. by eapply Hpl.
    + intros e ev He. eapply (event_ok_frame pl); [by apply L3|..].
      * intros b. by apply Lp'.
      * intros b t Hb. apply Hbi. by eapply Hpl.
    + intros b e Hb. eapply L4. by apply Lp' in Hb.
  - assert (Hm : forall vb, message_ok pl w vb -> message_ok pl' w' vb).
    { intros vb (k & Hb & Hle & Hcur). exists k. rewrite Lb, decide_False by by eapply Hold. split_and!; [done|done|].
      intros E. destruct (Hcur E) as [Hc|Hc]; [left|right]; by apply Lp'. }
    destruct Hmo as [M1 M2]. split; simpl.
    + intros s' a0 en [[<- [<- _]]|[_ H0]]%list_lookup_insert_Some Hin; apply Hm; by eapply M1.
    + intros e ev vb He Hvb. apply Hm. by eapply M2.
  - intros b k s' t HX Hb Hp. apply Lp' in Hp; [|done]. rewrite Lb, decide_False in Hb by by eapply Hpl. intros.
    eapply (pending_carries w); [|by eapply Hto].
    destruct (carries_move w 1 MemBlock.construct (pool w) s a (set_pool_ (holder_ a ++ [seg]) (free_ a ++ seg) a) Hs eq_refl)
      as [C1 C2]. by split.
Qed.
End moves.
