(* ===== verification/MemStreamSound.v ===== *)
(** * MemStreamSound: the operations on shared blocks keep the invariant

    Each operation of [MemStream] is one of the changes of [MemStreamMoves]. *)

From S2P Require Import Prelude MemStream MemStreamInv MemStreamMoves.

#[local] Set Warnings "-clear-no-such-hyp".

(** ** Running the model *)

Section eqs.
Context `{L2MemPool}.
Implicit Types (w : World _) (b : positive) (s : nat).

Lemma bind_eq {A B} (m : W A) (f : A -> W B) w a w' : m w = Ok (a, w') -> (m ≫= f) w = f a w'.
Proof. intros E. unfold mbind, W_bind. by rewrite E. Qed.

Lemma deref_eq b k w : blocks w !! b = Some k -> deref b w = Ok (k, w).
Proof. intros E. unfold deref, mbind, W_bind, getw, liftw. simpl. by rewrite E. Qed.

Lemma allocator_eq s a w : allocators w !! s = Some a -> allocator s w = Ok (a, w).
Proof. intros E. unfold allocator, mbind, W_bind, getw, liftw, at_. simpl. by rewrite E. Qed.

Lemma birth_eq k t w : birth_allocator_ k = Some t -> MemBlock.GetBirthStreamId k w = Ok (t, w).
Proof. intros E. unfold MemBlock.GetBirthStreamId. by rewrite E. Qed.

Lemma lift_eq {A} (o : outcome A) a w : o = Ok a -> liftw o w = Ok (a, w).
Proof. by intros ->. Qed.

Lemma lookup_upd b k w : blocks (upd_block b k w) !! b = Some k.
Proof. apply lookup_insert_eq. Qed.

Lemma lookup_alloc s a a' w : allocators w !! s = Some a -> allocators (upd_alloc s a' w) !! s = Some a'.
Proof. intros E. apply list_lookup_insert_eq. by eapply lookup_lt_Some. Qed.

Lemma must_eq (m k : W Status) w w' : m w = Ok (SUCCESS, w') -> must m k w = k w'.
Proof. intros E. unfold must. by rewrite (bind_eq _ _ _ _ _ E). Qed.

Lemma at_eq {A} (l : list A) i a : l !! i = Some a -> at_ l i = Ok a.
Proof. intros E. unfold at_. by rewrite E. Qed.

Lemma upd_block_twice b k k' w : upd_block b k' (upd_block b k w) = upd_block b k' w.
Proof. unfold upd_block, set_blocks. simpl. by rewrite insert_insert_eq. Qed.
End eqs.

(** Run the next operation of a bind; the side condition says what it does. *)
Ltac run := erewrite bind_eq by
  first [reflexivity | by eapply deref_eq | by eapply allocator_eq | by eapply birth_eq | by apply lift_eq
        | eassumption | by apply deref_eq, lookup_upd].

Section sound.
Context `{HP : L2MemPool, HL : !L2Laws, HO : SetOrder, !OrderLaws} (n : nat) (X : positive -> Prop) (Hn : (n <= 63)%nat).
Implicit Types (b : positive) (k : MultiStreamMemBlock) (s t e : nat) (hs : list (positive * nat))
  (pl : gmap positive Place) (w : World _) (a : L2Allocator) (ev : GertEvent).

(** ** Recycling *)

Lemma Release_eq s b k x a w :
  blocks w !! b = Some k -> mem_block_ k = Some x -> allocators w !! s = Some a ->
  BlockPool.Release s b w =
  Ok ((), move b (set_mem_block_ None (set_version_ (version_ k + 1) k)) (pool_Free x (pool w)) s
            (set_pool_ (holder_ a) (free_ a ++ [b]) a) w).
Proof.
  intros Hb Hm Hs. unfold BlockPool.Release. run. rewrite Hm. run. run.
  unfold MemBlock.PlusVersion, MemBlock.ClearMemBlock.
  set (w1 := set_pool _ w). assert (H1 : blocks w1 !! b = Some k) by done.
  erewrite (bind_eq _ _ w1) by (run; reflexivity). cbv beta.
  erewrite bind_eq by (run; reflexivity). cbv beta.
  run. unfold store_allocator, putw, move. do 2 f_equal.
  unfold upd_alloc, set_allocators, set_blocks, upd_block, set_pool. simpl. by rewrite insert_insert_eq.
Qed.

Definition released b k x s a w : World _ :=
  move b (set_mem_block_ None (set_version_ (version_ k + 1) k)) (pool_Free x (pool w)) s
    (set_pool_ (holder_ a) (free_ a ++ [b]) a) w.

Lemma BirthRecycle_eq b k x s a w :
  blocks w !! b = Some k -> mem_block_ k = Some x -> birth_allocator_ k = Some s -> allocators w !! s = Some a ->
  L2.BirthRecycle s b w = Ok (SUCCESS, released b k x s a w).
Proof.
  intros Hb Hx Hbi Hs. unfold L2.BirthRecycle. run. rewrite Hx. run. rewrite bool_decide_true by done. simpl.
  erewrite bind_eq by by eapply Release_eq. done.
Qed.

Lemma BirthRecycle_spec hs pl w b k p s a :
  inv n X hs pl w -> blocks w !! b = Some k -> pl !! b = Some p -> p = PHand \/ p = PRest ->
  birth_allocator_ k = Some s -> allocators w !! s = Some a ->
  exists x, mem_block_ k = Some x /\
    L2.BirthRecycle s b w = Ok (SUCCESS, released b k x s a w) /\ inv n X hs (<[b := PFree s]> pl) (released b k x s a w).
Proof.
  intros Hi Hb Hp Hph Hbi Hs.
  assert (Hsh : shaped n k) by (pose proof (bo_block _ _ _ _ (iv_blocks _ _ _ _ _ Hi) b k p Hb Hp); naive_solver).
  destruct (sp_mem _ _ Hsh) as [x Hx]. exists x. split; [done|]. split; [by apply BirthRecycle_eq|by eapply inv_release].
Qed.

Definition borrowed k : MultiStreamMemBlock :=
  set_counts (replicate n 0) (set_occupy_mif_ (replicate n 0) (set_version_ (version_ k + 1) k)).
Definition lend b (z : Z) t a : L2Allocator :=
  set_borrow (<[z := {[ b ]} ∪ default ∅ (size_to_borrow_block a !! z)]> (size_to_borrow_block a))
    (<[t := {[ b ]} ∪ default ∅ (stream_to_borrow_block a !! t)]> (stream_to_borrow_block a)) a.

Lemma BorrowRecycle_spec hs pl w b k s t a :
  inv n X hs pl w -> blocks w !! b = Some k -> pl !! b = Some PHand ->
  birth_allocator_ k = Some t -> allocators w !! s = Some a ->
  exists x, let w' := move b (borrowed k) (pool w) s (lend b (pool_GetSize x (pool w)) t a) w in
  L2.BorrowRecycle s b w = Ok ((), w') /\ inv n X hs (<[b := PBorrow s]> pl) w'.
Proof.
  intros Hi Hb Hp Hbi Hs.
  destruct (bo_block _ _ _ _ (iv_blocks _ _ _ _ _ Hi) b k _ Hb Hp) as [Hsh _].
  destruct (sp_mem _ _ Hsh) as [x Hx]. exists x. split; [|by eapply inv_borrow].
  assert (E : Borrow.Free s b w = Ok ((), upd_alloc s (lend b (pool_GetSize x (pool w)) t a) w)).
  { unfold Borrow.Free. run. unfold MemBlock.GetSize. rewrite Hx. run. run. run. done. }
  unfold L2.BorrowRecycle. erewrite bind_eq by exact E.
  unfold MemBlock.PlusVersion, MemBlock.ReInitMifs. set (w1 := upd_alloc s _ w).
  assert (H1 : blocks w1 !! b = Some k) by done.
  erewrite (bind_eq _ _ w1) by (run; reflexivity). cbv beta.
  run. run. run. unfold store, putw, move. do 2 f_equal.
  unfold set_blocks. simpl. rewrite insert_insert_eq, length_insert, (lo_len _ _ _ (iv_lists _ _ _ _ _ Hi)). done.
Qed.

(** ** Free *)

(** The part of [Free] after the counts, for a block that nobody uses. *)
Definition global_recycle s b : W unit :=
  k ← deref b;
  birth ← MemBlock.GetBirthStreamId k;
  if decide (birth = s) then _ ← L2.BirthRecycle s b; mret () else L2.BorrowRecycle s b.

(** What such a step leaves alone. *)
Record quiet b w w' : Prop := {
  qt_blocks : forall b', b' <> b -> blocks w' !! b' = blocks w !! b';
  qt_local : local_recycle_blocks_ <$> allocators w' = local_recycle_blocks_ <$> allocators w;
  qt_events : events w' = events w;
}.

Lemma quiet_move b k' q s a a' w :
  allocators w !! s = Some a -> local_recycle_blocks_ a' = local_recycle_blocks_ a -> quiet b w (move b k' q s a' w).
Proof.
  intros Hs E. split; simpl; [|by rewrite list_fmap_insert, list_insert_id by (by rewrite list_lookup_fmap, Hs, E)|done].
  intros b' Hne. by rewrite lookup_insert_ne.
Qed.

Lemma global_recycle_spec hs pl w b k s :
  inv n X hs pl w -> blocks w !! b = Some k -> pl !! b = Some PHand -> (s < n)%nat ->
  exists p w', global_recycle s b w = Ok ((), w') /\ inv n X hs (<[b := p]> pl) w' /\ quiet b w w' /\
    p <> PUse /\ (p = PFree s \/ p = PBorrow s /\ birth_allocator_ k <> Some s).
Proof.
  intros Hi Hb Hp Hs.
  destruct (bo_block _ _ _ _ (iv_blocks _ _ _ _ _ Hi) b k _ Hb Hp) as [Hsh _].
  destruct (sp_birth _ _ Hsh) as (t & Ht & _).
  destruct (lookup_lt_is_Some_2 (allocators w) s) as [a Ha]; [by rewrite (lo_len _ _ _ (iv_lists _ _ _ _ _ Hi))|].
  unfold global_recycle. run. run. case_decide as E.
  - subst t. destruct (BirthRecycle_spec hs pl w b k PHand s a) as (x & _ & E & Hi'); try done; [by left|].
    erewrite bind_eq by exact E. eexists _, _. split_and!; [done|done|by eapply quiet_move|done|by left].
  - destruct (BorrowRecycle_spec hs pl w b k s t a) as (x & E' & Hi'); try done.
    eexists _, _. split_and!; [exact E'|done|by eapply quiet_move|done|right; split; [done|congruence]].
Qed.

(** [Free] by a stream with no references left, when the last has gone. *)
Lemma Free_idle_eq s b k w :
  blocks w !! b = Some k -> (s < length (stream_ids_to_occupy_count_ k))%nat -> cnt k s = 0 ->
  occupy_mif_ k !! s = Some 0 -> L2.Free s b w = global_recycle s b w.
Proof.
  intros Hb Hs Hc Hz. unfold L2.Free, MemBlock.GetCount.
  destruct (lookup_lt_is_Some_2 _ _ Hs) as [c Ec].
  assert (c = 0) as -> by (unfold cnt in Hc; by rewrite Ec in Hc).
  erewrite bind_eq.
  2: { run. unfold MemBlock.IsStreamIdValid. rewrite (proj2 (Nat.ltb_lt _ _)) by done. simpl. by apply lift_eq, at_eq. }
  simpl. run. unfold MemBlock.CanGlobalRecycle, Mif.IsAnySet.
  erewrite bind_eq. 2: { run. rewrite (at_eq _ _ _ Hz). simpl. run. done. }
  done.
Qed.

Lemma GetCount_eq s b k w :
  blocks w !! b = Some k -> (s < length (stream_ids_to_occupy_count_ k))%nat -> MemBlock.GetCount s b w = Ok (cnt k s, w).
Proof.
  intros Hb Hs. unfold MemBlock.GetCount. destruct (lookup_lt_is_Some_2 _ _ Hs) as [c Ec].
  run. unfold MemBlock.IsStreamIdValid. rewrite (proj2 (Nat.ltb_lt _ _)) by done. simpl.
  unfold cnt. rewrite Ec. by apply lift_eq, at_eq.
Qed.

Lemma SubCount_eq s b k w :
  blocks w !! b = Some k -> (s < length (stream_ids_to_occupy_count_ k))%nat -> 0 < cnt k s <= 2 ^ 64 ->
  MemBlock.SubCount s b w = Ok (cnt k s - 1, upd_block b (lower s k) w).
Proof.
  intros Hb Hs Hc. unfold MemBlock.SubCount. destruct (lookup_lt_is_Some_2 _ _ Hs) as [c Ec].
  assert (Ecnt : cnt k s = c) by (unfold cnt; by rewrite Ec).
  run. unfold MemBlock.IsStreamIdValid. rewrite (proj2 (Nat.ltb_lt _ _)) by done. cbn [negb].
  rewrite (at_eq _ _ _ Ec). run.
  assert (Ew : uwrap 64 (c - 1) = cnt k s - 1) by (unfold uwrap; rewrite Z.mod_small; lia).
  rewrite Ew. run. done.
Qed.

Lemma UpdateLocalRecycleMif_eq s b k w :
  blocks w !! b = Some k -> (s < length (occupy_mif_ k))%nat ->
  MemBlock.UpdateLocalRecycleMif s b w = Ok ((), upd_block b (set_occupy_mif_ (clear_row s (occupy_mif_ k)) k) w).
Proof.
  intros Hb Hs. unfold MemBlock.UpdateLocalRecycleMif, Mif.Clear, clear_row.
  destruct (lookup_lt_is_Some_2 _ _ Hs) as [r Er]. run. rewrite (at_eq _ _ _ Er), Er. simpl. run. done.
Qed.

Lemma CanGlobalRecycle_eq s b k r w :
  blocks w !! b = Some k -> occupy_mif_ k !! s = Some r -> MemBlock.CanGlobalRecycle s b w = Ok (r =? 0, w).
Proof.
  intros Hb Hr. unfold MemBlock.CanGlobalRecycle, Mif.IsAnySet. run. rewrite (at_eq _ _ _ Hr). simpl. run.
  by rewrite negb_involutive.
Qed.

Lemma Free_spec hs hs' pl w b k s :
  inv n X hs pl w -> blocks w !! b = Some k -> pl !! b = Some PUse -> gives_up b s hs hs' -> (b, s) ∈ hs ->
  zlen hs < 2 ^ 64 -> calm pl ->
  exists pl' w', L2.Free s b w = Ok ((), w') /\ inv n X hs' pl' w' /\ events w' = events w /\ calm pl'.
Proof.
  intros Hi Hb Hp Hg Hin Hlen Hcalm.
  destruct (bo_block _ _ _ _ (iv_blocks _ _ _ _ _ Hi) b k _ Hb Hp) as [Hsh Hu].
  pose proof (us_streams _ _ _ _ Hu s Hin) as Hs. apply refs_pos in Hin. pose proof (refs_le b s hs).
  rewrite <- (us_count _ _ _ _ Hu) in * by done.
  pose proof (sp_mif _ _ Hsh) as Lm. pose proof (sp_counts _ _ Hsh) as Lc.
  destruct (lookup_lt_is_Some_2 (allocators w) s) as [a Ha]; [by rewrite (lo_len _ _ _ (iv_lists _ _ _ _ _ Hi))|].
  unfold L2.Free. erewrite bind_eq by (eapply GetCount_eq; [done|by rewrite Lc]).
  rewrite (proj2 (Z.ltb_lt _ _)) by done.
  destruct (decide (cnt k s = 1)) as [H1|H1].
  - erewrite bind_eq.
    2: { erewrite bind_eq by (eapply SubCount_eq; [done|by rewrite Lc|lia]). rewrite H1. simpl.
         erewrite bind_eq by (eapply UpdateLocalRecycleMif_eq; [apply lookup_upd|simpl; by rewrite Lm]). done. }
    rewrite upd_block_twice. change (set_occupy_mif_ _ (lower s k)) with (quit s k).
    destruct (lookup_lt_is_Some_2 (occupy_mif_ (quit s k)) s) as [r Hr].
    { rewrite (sp_mif _ _ (shaped_quit n k Hsh s)). done. }
    erewrite bind_eq by (eapply CanGlobalRecycle_eq; [apply lookup_upd|exact Hr]).
    destruct (Z.eqb_spec r 0) as [->|Hnz].
    + pose proof (inv_quit_drain n X hs hs' pl w b k s Hn Hi Hb Hp Hg Hs H1 Hr) as Hi'.
      destruct (global_recycle_spec _ _ _ b (quit s k) s Hi') as (p & w' & E & Hi'' & Hq & Hpp);
        [apply lookup_upd|apply lookup_insert_eq|done|].
      eexists _, w'. split_and!; [exact E|exact Hi''|apply Hq|]. apply calm_over; [done|split; naive_solver].
    + unfold L2.LocalRecycle. run. run. eexists _, _. split_and!; [done| |done|done].
      by apply (inv_quit_keep n X hs hs' pl w b k s a); try done; rewrite Hr; congruence.
  - erewrite bind_eq.
    2: { erewrite bind_eq by (eapply SubCount_eq; [done|by rewrite Lc|lia]).
         rewrite (proj2 (Z.eqb_neq _ _)) by lia. done. }
    destruct (mif_row n hs b k Hsh Hu s Hs) as (r & Hr & _ & Hnz).
    erewrite bind_eq by (eapply CanGlobalRecycle_eq; [apply lookup_upd|exact Hr]).
    rewrite (proj2 (Z.eqb_neq _ _)) by done.
    eexists pl, _. split_and!; [done| |done|done]. eapply inv_lower; try done. lia.
Qed.

Lemma valid_stream s k : shaped n k -> (s < n)%nat -> MemBlock.IsStreamIdValid s k = true.
Proof. intros Hsh Hs. unfold MemBlock.IsStreamIdValid. apply Nat.ltb_lt. by rewrite (sp_counts _ _ Hsh). Qed.

Lemma MemBlock_Free_eq s b k w w' :
  blocks w !! b = Some k -> shaped n k -> (s < n)%nat -> L2.Free s b w = Ok ((), w') -> L2.MemBlock_Free s b w = Ok ((), w').
Proof.
  intros Hb Hsh Hs E. unfold L2.MemBlock_Free. run. destruct (sp_mem _ _ Hsh) as [x Hx]. rewrite Hx.
  rewrite (valid_stream s k Hsh Hs). simpl. destruct (sp_birth _ _ Hsh) as (t & Ht & _). run.
  erewrite bind_eq; [done|]. unfold L2.FreeAt. by erewrite bind_eq by exact E.
Qed.

(** ** Learning from another stream *)

Lemma merge_eq src dst k r :
  shaped n k -> (src < n)%nat -> (dst < n)%nat -> r = merge_rows src dst (occupy_mif_ k) ->
  Mif.MergeClearedFrom src dst (occupy_mif_ k) = Ok r.
Proof.
  intros Hsh Hs Hd ->. unfold Mif.MergeClearedFrom, merge_rows. rewrite <- (sp_mif _ _ Hsh) in *.
  destruct (lookup_lt_is_Some_2 (occupy_mif_ k) dst Hd) as [d Ed]. destruct (lookup_lt_is_Some_2 (occupy_mif_ k) src Hs) as [r Er].
  rewrite (at_eq _ _ _ Ed), (at_eq _ _ _ Er), Ed, Er. done.
Qed.

Lemma any_eq m (l : list Z) r : l !! m = Some r -> Mif.IsAnySet m l = Ok (negb (r =? 0)).
Proof. intros E. unfold Mif.IsAnySet. by rewrite (at_eq _ _ _ E). Qed.

Lemma IsSet_eq k m s : shaped n k -> (m < n)%nat -> (s < n)%nat -> Mif.IsSet m s (occupy_mif_ k) = Ok (bit k m s).
Proof.
  intros Hsh Hm Hs. unfold Mif.IsSet, bit. rewrite <- (sp_mif _ _ Hsh) in Hm.
  destruct (lookup_lt_is_Some_2 (occupy_mif_ k) m Hm) as [r Er]. rewrite (at_eq _ _ _ Er), Er. simpl. by rewrite (is_set n).
Qed.

(** A row is merged, and the block recycled when the row is empty. *)
Lemma learn_spec hs pl w b k src dst :
  inv n X hs pl w -> blocks w !! b = Some k -> pl !! b = Some PUse -> (src < n)%nat -> (dst < n)%nat ->
  let w1 := upd_block b (learn src dst k) w in
  exists r, occupy_mif_ (learn src dst k) !! dst = Some r /\
  if r =? 0 then
    exists p w', L2.MemBlock_Free dst b w1 = Ok ((), w') /\ inv n X hs (<[b := p]> pl) w' /\ quiet b w w' /\
      (p = PFree dst \/ p = PBorrow dst /\ birth_allocator_ k <> Some dst)
  else inv n X hs pl w1.
Proof.
  intros Hi Hb Hp Hs Hd w1. destruct (bo_block _ _ _ _ (iv_blocks _ _ _ _ _ Hi) b k _ Hb Hp) as [Hsh Hu].
  pose proof (shaped_learn n src dst k Hsh) as Hsh'.
  destruct (lookup_lt_is_Some_2 (occupy_mif_ (learn src dst k)) dst) as [r Hr]; [by rewrite (sp_mif _ _ Hsh')|].
  exists r. split; [done|]. pose proof (inv_learn n X hs pl w b k src dst Hn Hi Hb Hp Hs Hd) as Hi'. rewrite Hr in Hi'.
  destruct (Z.eqb_spec r 0) as [->|Hnz]; [|by rewrite decide_False in Hi' by congruence].
  rewrite decide_True in Hi' by done.
  destruct (global_recycle_spec _ _ w1 b (learn src dst k) dst Hi') as (p & w' & E & Hi'' & Hq & _ & Hpp);
    [apply lookup_upd|apply lookup_insert_eq|done|].
  exists p, w'. split_and!.
  - eapply MemBlock_Free_eq; [apply lookup_upd|done|done|]. erewrite Free_idle_eq; [exact E|apply lookup_upd| | |done].
    + by rewrite (sp_counts _ _ Hsh').
    + change (cnt k dst = 0). rewrite (us_count _ _ _ _ Hu) by done. apply refs_zero. by apply (unheld_learn n hs b k src dst).
  - by rewrite insert_insert_eq in Hi''.
  - destruct Hq as [Q1 Q2 Q3]. split; [|done|done]. intros b' Hne. rewrite Q1 by done. simpl. by rewrite lookup_insert_ne.
  - done.
Qed.

Lemma quiet_upd b k w : quiet b w (upd_block b k w).
Proof. split; [|done|done]. intros b' Hne. simpl. by rewrite lookup_insert_ne. Qed.

Lemma SyncLocalRecycleStatus_spec hs pl w b k src dst :
  inv n X hs pl w -> blocks w !! b = Some k -> pl !! b = Some PUse -> (src < n)%nat -> (dst < n)%nat ->
  exists p w', L2.SyncLocalRecycleStatus src dst b w = Ok (SUCCESS, w') /\ inv n X hs (<[b := p]> pl) w' /\ quiet b w w' /\
    (p = PUse -> blocks w' !! b = Some (learn src dst k)) /\ still p.
Proof.
  intros Hi Hb Hp Hs Hd. destruct (bo_block _ _ _ _ (iv_blocks _ _ _ _ _ Hi) b k _ Hb Hp) as [Hsh Hu].
  assert (Hge : forall m j, (m < n)%nat -> (j < n)%nat -> L2.geb (bit k m j) (bit k j j) = true).
  { intros m j Hm Hj. unfold L2.geb. destruct (bit k j j) eqn:E; [|by rewrite orb_true_r].
    by rewrite (us_late _ _ _ _ Hu m j Hm Hj E). }
  unfold L2.SyncLocalRecycleStatus. run. rewrite !valid_stream by done. simpl.
  rewrite !IsSet_eq by done. run. run. rewrite Hge by done. simpl. run. run. rewrite Hge by done. simpl.
  erewrite (merge_eq src dst k) by done. run. run.
  destruct (learn_spec hs pl w b k src dst Hi Hb Hp Hs Hd) as (r & Hr & Hcase). simpl in Hr.
  rewrite (any_eq _ _ _ Hr). run. destruct (Z.eqb_spec r 0) as [->|Hnz]; simpl.
  - destruct Hcase as (p & w' & E & Hi' & Hq & Hpp). erewrite bind_eq by exact E.
    exists p, w'. split_and!; [done|done|done|..]; destruct Hpp as [->|[-> _]]; done.
  - run. exists PUse, (upd_block b (learn src dst k) w). split_and!; [done|by rewrite insert_id|apply quiet_upd| |done].
    intros _. apply lookup_upd.
Qed.

Lemma quiet_then b w w' w'' : quiet b w w' -> quiet b w' w'' -> quiet b w w''.
Proof.
  intros [A1 A2 A3] [B1 B2 B3]. split; [|by rewrite B2|by rewrite B3]. intros b' Hne. by rewrite B1, A1.
Qed.

(** Stream [dst] knows of the streams [ids] whether they are done. *)
Definition knows k dst (ids : list nat) : Prop :=
  forall j, j ∈ ids -> j <> dst -> bit k dst j = true -> bit k j j = true.

Lemma sync_all_spec dst b ids : forall hs pl w k known,
  inv n X hs pl w -> blocks w !! b = Some k -> pl !! b = Some PUse -> (dst < n)%nat -> birth_allocator_ k = Some dst ->
  (forall j, j ∈ ids -> (j < n)%nat) -> (forall j, j ∈ known -> (j < n)%nat) -> knows k dst known ->
  exists p w', L2.sync_all dst b ids w = Ok ((), w') /\ inv n X hs (<[b := p]> pl) w' /\ quiet b w w' /\
    (p = PFree dst \/ p = PUse /\ exists k', blocks w' !! b = Some k' /\ birth_allocator_ k' = birth_allocator_ k /\ knows k' dst (known ++ ids)).
Proof.
  induction ids as [|j ids IH]; intros hs pl w k known Hi Hb Hp Hd Hbi Hids Hkn Hk; simpl.
  - exists PUse, w. split_and!; [done|by rewrite insert_id|done|]. right. split; [done|]. exists k.
    rewrite app_nil_r. done.
  - assert (Hj : (j < n)%nat) by (apply Hids; by left). assert (Hids' : forall j, j ∈ ids -> (j < n)%nat) by (intros; apply Hids; by right).
    destruct (bo_block _ _ _ _ (iv_blocks _ _ _ _ _ Hi) b k _ Hb Hp) as [Hsh Hu].
    assert (Hkn' : forall i, i ∈ known ++ [j] -> (i < n)%nat) by set_solver.
    replace (known ++ j :: ids) with ((known ++ [j]) ++ ids) by by rewrite <- app_assoc.
    case_decide as E.
    + subst j. apply IH; try done. intros i [Hin| ->%list_elem_of_singleton]%elem_of_app; [by apply Hk|done].
    + run. erewrite (merge_eq j dst k) by done. run. run.
      destruct (learn_spec hs pl w b k j dst Hi Hb Hp Hj Hd) as (r & Hr & Hcase). simpl in Hr.
      rewrite (any_eq _ _ _ Hr). run. destruct (Z.eqb_spec r 0) as [->|Hnz]; simpl.
      * destruct Hcase as (p & w' & E' & Hi' & Hq & Hpp). exists p, w'. split_and!; [done|done|done|].
        destruct Hpp as [->|[_ ?]]; [by left|done].
      * destruct (IH hs pl (upd_block b (learn j dst k) w) (learn j dst k) (known ++ [j])) as (p & w' & E' & Hi' & Hq & Hpp);
          try done; [apply lookup_upd| |].
        { intros i Hin Hne. rewrite (own_learn n hs b k) by (done || by apply Hkn'). rewrite (bit_learn n) by done.
          rewrite bool_decide_true by done. simpl. intros [Hb1 Hb2]%andb_true_iff.
          apply elem_of_app in Hin as [Hin| ->%list_elem_of_singleton]; [by apply Hk|done]. }
        exists p, w'. split_and!; [done|done| |done]. eapply quiet_then; [apply quiet_upd|done].
Qed.

Lemma SyncAllLocalRecycleStatus_spec hs pl w b k t :
  inv n X hs pl w -> blocks w !! b = Some k -> pl !! b = Some PUse -> birth_allocator_ k = Some t ->
  exists p w', L2.SyncAllLocalRecycleStatus t b w = Ok (SUCCESS, w') /\ inv n X hs (<[b := p]> pl) w' /\ quiet b w w' /\
    (p = PFree t \/ p = PUse /\ exists k', blocks w' !! b = Some k' /\ birth_allocator_ k' = birth_allocator_ k /\ knows k' t (seq 0 n)).
Proof.
  intros Hi Hb Hp Ht. destruct (bo_block _ _ _ _ (iv_blocks _ _ _ _ _ Hi) b k _ Hb Hp) as [Hsh Hu].
  assert (Htn : (t < n)%nat) by (destruct (sp_birth _ _ Hsh) as (t0 & ? & ?); congruence).
  unfold L2.SyncAllLocalRecycleStatus. run. rewrite valid_stream by done. simpl. rewrite (sp_counts _ _ Hsh).
  destruct (sync_all_spec t b (seq 0 n) hs pl w k []) as (p & w' & E & Hi' & Hq & Hpp); try done.
  - intros j ?%elem_of_seq. lia.
  - by intros j ?%elem_of_nil.
  - by intros j ?%elem_of_nil.
  - erewrite bind_eq by exact E. by exists p, w'.
Qed.

(** ** Getting references *)

Lemma NewAccessStream_eq src dst b k w :
  blocks w !! b = Some k -> shaped n k -> (src < n)%nat -> (dst < n)%nat ->
  MemBlock.NewAccessStream src dst b w = Ok (SUCCESS, upd_block b (access dst k) w).
Proof.
  intros Hb Hsh Hs Hd. unfold MemBlock.NewAccessStream. run. rewrite !valid_stream by done. simpl.
  rewrite <- (sp_counts _ _ Hsh) in Hd. destruct (lookup_lt_is_Some_2 _ _ Hd) as [c Ec].
  rewrite (at_eq _ _ _ Ec). run. run. unfold access, cnt. by rewrite Ec.
Qed.

Lemma NewAccessStream_spec hs pl w b k src dst :
  inv n X hs pl w -> blocks w !! b = Some k -> pl !! b = Some PUse -> (src < n)%nat -> (dst < n)%nat -> zlen hs + 1 < 2 ^ 64 ->
  exists w', MemBlock.NewAccessStream src dst b w = Ok (SUCCESS, w') /\ inv n X ((b, dst) :: hs) pl w' /\ events w' = events w.
Proof.
  intros Hi Hb Hp Hs Hd Hlen. destruct (bo_block _ _ _ _ (iv_blocks _ _ _ _ _ Hi) b k _ Hb Hp) as [Hsh Hu].
  eexists. split_and!; [by eapply NewAccessStream_eq|by apply inv_access|done].
Qed.

(** One more reference on a stream that has some. *)
Lemma AddCount_spec hs pl w b k s :
  inv n X hs pl w -> blocks w !! b = Some k -> pl !! b = Some PUse -> (b, s) ∈ hs -> zlen hs + 1 < 2 ^ 64 ->
  exists c w', MemBlock.AddCount s b w = Ok (c, w') /\ inv n X ((b, s) :: hs) pl w' /\ events w' = events w.
Proof.
  intros Hi Hb Hp Hin Hlen. destruct (bo_block _ _ _ _ (iv_blocks _ _ _ _ _ Hi) b k _ Hb Hp) as [Hsh Hu].
  pose proof (us_streams _ _ _ _ Hu s Hin) as Hs. apply refs_pos in Hin. pose proof (refs_le b s hs).
  assert (Hs' : (s < length (stream_ids_to_occupy_count_ k))%nat) by by rewrite (sp_counts _ _ Hsh).
  destruct (lookup_lt_is_Some_2 _ _ Hs') as [c Ec].
  assert (Ecnt : cnt k s = c) by (unfold cnt; by rewrite Ec).
  assert (Hc : c = refs b s hs) by by rewrite <- Ecnt, (us_count _ _ _ _ Hu).
  unfold MemBlock.AddCount. run. rewrite valid_stream by done. simpl. rewrite (at_eq _ _ _ Ec). run. run.
  assert (Ew : uwrap 64 (c + 1) = c + 1) by (unfold uwrap; rewrite Z.mod_small; lia). rewrite Ew.
  eexists _, _. split_and!; [done| |done]. set (k' := set_counts _ k).
  assert (Hcnt : forall j, (j < n)%nat -> cnt k' j = refs b j ((b, s) :: hs)).
  { intros j Hj. unfold cnt, k'. simpl. rewrite refs_cons. destruct (decide (j = s)) as [->|Hne].
    - rewrite list_lookup_insert_eq, decide_True by done. simpl. lia.
    - rewrite list_lookup_insert_ne, decide_False by congruence. by apply (us_count _ _ _ _ Hu). }
  apply (inv_block_update n X hs _ pl w b k); try done; [apply off_cons| | |].
  - destruct Hsh as [H1 H2 H3 H4]. split; try done. simpl. by rewrite length_insert.
  - destruct Hu as [Hr Hct Hown Hlate Hst]. split; try done.
    + intros j Hj. rewrite Hcnt, refs_cons by done. change (bit k' j j) with (bit k j j). rewrite Hown, Hct by done.
      pose proof (refs_nonneg b j hs). case_decide as E; [|by replace (0 + refs b j hs) with (refs b j hs) by lia].
      injection E as <-. rewrite !(proj2 (Z.ltb_lt _ _)) by lia. done.
    + intros j [[= ->]|Hj]%elem_of_cons; [done|by apply Hst].
  - intros HX j t Ht Hj Hne. by apply (iv_told _ _ _ _ _ Hi b k).
Qed.

(** ** Allocation *)

Definition extended s a w : World _ :=
  let seg := (fun i => Pos.of_nat (Pos.to_nat (next_block w) + i)) <$> seq 0 kPoolSize in
  upd_alloc s (set_pool_ (holder_ a ++ [seg]) (free_ a ++ seg) a)
    (set_next_block (Pos.of_nat (Pos.to_nat (next_block w) + kPoolSize))
       (set_blocks (list_to_map ((fun b => (b, MemBlock.construct)) <$> seg) ∪ blocks w) w)).

Lemma Extend_spec hs pl w s a q :
  inv n X hs pl w -> allocators w !! s = Some a ->
  BlockPool.Extend s (set_pool q w) = Ok ((), set_pool q (extended s a w)) /\
  exists pl', inv n X hs pl' (extended s a w) /\ (calm pl -> calm pl').
Proof.
  intros Hi Hs. split.
  - unfold BlockPool.Extend. run. run. run. done.
  - assert (Hnd : NoDup ((fun i => Pos.of_nat (Pos.to_nat (next_block w) + i)) <$> seq 0 kPoolSize)).
    { apply NoDup_fmap_2; [|apply NoDup_seq]. intros i j E. lia. }
    eexists. split; [apply inv_extend; try done|].
    + intros b (i & -> & Hin%elem_of_seq)%list_elem_of_fmap. lia.
    + lia.
    + intros Hc b p. rewrite lookup_new by done. case_decide; [by intros [= <-]|by apply Hc].
Qed.

Lemma pop_back_last l : l <> [] -> exists rest b, BlockPool.pop_back l = Some (b, rest) /\ l = rest ++ [b].
Proof.
  intros Hne. destruct l as [|b rest _] using rev_ind; [done|]. exists rest, b. split; [|done].
  unfold BlockPool.pop_back. rewrite last_snoc, length_app. simpl.
  replace (length rest + 1 - 1)%nat with (length rest) by lia. by rewrite take_app_length.
Qed.

(** A free block object is initialised for new memory and referenced once. *)
Lemma ReInit_eq s x ty b k w :
  blocks w !! b = Some k -> mem_block_ k = None -> length (allocators w) = n -> (s < n)%nat ->
  MemBlock.ReInit s x ty b w =
  Ok (SUCCESS, upd_block b (access s (MkBlock (Some x) (version_ k) (Some s) ty (replicate n 0) (replicate n 0))) w).
Proof.
  intros Hb Hm Hl Hs. unfold MemBlock.ReInit. run. run. simpl. rewrite Hm. run.
  set (k1 := set_alloc_type_ _ _). set (w1 := set_blocks _ _). assert (Hb1 : blocks w1 !! b = Some k1) by apply lookup_insert_eq.
  unfold MemBlock.ReInitMifs. erewrite (bind_eq _ _ w1).
  2: { run. erewrite bind_eq by by apply (birth_eq k1 s). run. reflexivity. }
  change (length (allocators w1)) with (length (allocators w)). rewrite Hl.
  rewrite (NewAccessStream_eq s s b (set_counts (replicate n 0) (set_occupy_mif_ (Mif.ReInit n) k1)));
    [|apply lookup_insert_eq|split; simpl; [by eexists|by exists s|apply length_replicate..]|done|done].
  do 2 f_equal. unfold upd_block, set_blocks. simpl. by rewrite !insert_insert_eq.
Qed.

Lemma Acquire_spec hs pl w s x ty q :
  inv n X hs pl w -> calm pl -> (s < n)%nat -> zlen hs + 1 < 2 ^ 64 ->
  x ∉ pool_live (pool w) -> pool_live q = {[ x ]} ∪ pool_live (pool w) -> same_sizes (pool_live (pool w)) (pool w) q ->
  exists b k pl' w', BlockPool.Acquire s x ty (set_pool q w) = Ok (Some b, w') /\ inv n X ((b, s) :: hs) pl' w' /\ calm pl' /\
    unheld b hs /\ events w' = events w /\ pool w' = q /\ blocks w' !! b = Some k /\ mem_block_ k = Some x.
Proof.
  intros Hi Hcalm Hs Hlen Hx Hq Hsz.
  destruct (lookup_lt_is_Some_2 (allocators w) s) as [a Ha]; [by rewrite (lo_len _ _ _ (iv_lists _ _ _ _ _ Hi))|].
  unfold BlockPool.Acquire. run.
  assert (Hext : exists w1 pl1 a1, (if decide (free_ a = []) then BlockPool.Extend s else mret ()) (set_pool q w) = Ok ((), set_pool q w1) /\
    inv n X hs pl1 w1 /\ calm pl1 /\ pool w1 = pool w /\ events w1 = events w /\ allocators w1 !! s = Some a1 /\ free_ a1 <> []).
  { case_decide as E.
    - destruct (Extend_spec hs pl w s a q Hi Ha) as [Ee (pl' & Hi' & Hc')]. exists (extended s a w), pl'. eexists.
      split_and!; [done|done|by apply Hc'|done|done|by eapply lookup_alloc|simpl; by rewrite E].
    - exists w, pl, a. done. }
  destruct Hext as (w1 & pl1 & a1 & E1 & Hi1 & Hc1 & Ep & Ee & Ha1 & Hne). erewrite bind_eq by exact E1. run.
  destruct (pop_back_last _ Hne) as (rest & b & Epop & Efree). rewrite Epop. run.
  assert (Hpb : pl1 !! b = Some (PFree s)).
  { apply (ao_free _ _ _ _ (lo_alloc _ _ _ (iv_lists _ _ _ _ _ Hi1) s a1 Ha1)). rewrite Efree. set_solver. }
  destruct (proj2 (bo_dom _ _ _ _ (iv_blocks _ _ _ _ _ Hi1) b)) as [k Hb]; [by rewrite Hpb|].
  destruct (bo_block _ _ _ _ (iv_blocks _ _ _ _ _ Hi1) b k _ Hb Hpb) as (_ & Hnone & Hun).
  erewrite bind_eq. 2: { eapply (ReInit_eq s x ty b k); try done. simpl. by rewrite length_insert, (lo_len _ _ _ (iv_lists _ _ _ _ _ Hi1)). }
  rewrite decide_True by done.
  set (k0 := MkBlock (Some x) (version_ k) (Some s) ty (replicate n 0) (replicate n 0)).
  rewrite <- Ep in Hx, Hq, Hsz.
  pose proof (inv_take n X hs pl1 w1 b k x q ty s a1 rest Hi1 Hb Ha1 Efree Hx Hq Hsz) as Hi2. fold k0 in Hi2.
  assert (Hb0 : blocks (move b k0 q s (set_pool_ (holder_ a1) rest a1) w1) !! b = Some k0) by apply lookup_insert_eq.
  pose proof (inv_adopt n X hs _ _ b k0 s Hn Hs Hlen Hi2 Hb0 (lookup_insert_eq _ _ _) eq_refl eq_refl) as Hi3.
  assert (Ew : upd_block b (access s k0) (move b k0 q s (set_pool_ (holder_ a1) rest a1) w1) =
    upd_block b (access s k0) (set_allocators (<[s := set_pool_ (holder_ a1) rest a1]> (allocators w1)) (set_pool q w1))).
  { unfold upd_block, move, upd_alloc, set_blocks, set_allocators, set_pool. simpl. by rewrite insert_insert_eq. }
  rewrite Ew in Hi3. exists b, (access s k0).
  eexists _, _. split_and!; [done|exact Hi3|by apply calm_over|done|done|done|apply lookup_insert_eq|done].
Qed.

Lemma borrow_lower_bound z (M : gmap Z (gset positive)) key :
  Borrow.lower_bound z M = Some key -> is_Some (M !! key) /\ z <= key.
Proof.
  unfold Borrow.lower_bound. intros E.
  assert (G : key ∈ elements (dom M) /\ z <= key).
  { revert key E. induction (elements (dom M)) as [|i l IH]; simpl; [done|]. intros key.
    destruct (Z.leb_spec z i); [|intros [? ?]%IH; set_solver].
    destruct (foldr _ None l) as [j|]; intros [= <-]; [|set_solver].
    destruct (IH j eq_refl). destruct (Z.min_spec i j) as [[_ ->]|[_ ->]]; set_solver. }
  split; [|apply G]. apply elem_of_dom. set_solver.
Qed.

(** A block of the very size asked for is borrowed. *)
Lemma Borrow_Alloc_spec hs pl w s a z :
  inv n X hs pl w -> calm pl -> allocators w !! s = Some a -> Borrow.lower_bound z (size_to_borrow_block a) = Some z ->
  zlen hs + 1 < 2 ^ 64 ->
  exists b k pl' w1 w', Borrow.Alloc s z w = Ok (Some b, w1) /\
    MemBlock.NewAccessStream s s b w1 = Ok (SUCCESS, w') /\ inv n X ((b, s) :: hs) pl' w' /\ calm pl' /\ unheld b hs /\
    events w' = events w /\ pool w' = pool w /\ blocks w' !! b = Some k /\ size_is w' b z.
Proof.
  intros Hi Hcalm Ha Hlb Hlen. destruct (borrow_lower_bound _ _ _ Hlb) as [[Y HY] _].
  pose proof (lo_alloc _ _ _ (iv_lists _ _ _ _ _ Hi) s a Ha) as [_ Hz Hne Hst].
  destruct (set_order Y) as [|b rest] eqn:Eo.
  { destruct (Hne z Y HY). apply leibniz_equiv, elements_empty_inv, Permutation_nil_r. by rewrite <- law_order, Eo. }
  assert (Hin : b ∈ Y) by (apply elem_of_elements; rewrite <- law_order, Eo; by left).
  destruct (proj1 (Hz b z)) as [Hp Hsz]; [by rewrite HY|]. pose proof Hsz as (k & x & Hb & Hm & Hxz).
  destruct (bo_block _ _ _ _ (iv_blocks _ _ _ _ _ Hi) b k _ Hb Hp) as (Hs & Hsh & Hun & Hmz & Hcz).
  destruct (sp_birth _ _ Hsh) as (t & Ht & _). assert (Hbi : birth_is w b t) by by exists k.
  pose proof (inv_unborrow n X hs pl w b k z t s a Hi Hb Hp Hsz Hbi Ha) as Hi1.
  cbv zeta in Hi1. set (a' := set_borrow _ _ a) in Hi1. assert (Eb : <[b := k]> (blocks w) = blocks w) by by apply insert_id.
  assert (Ew : move b k (pool w) s a' w = upd_alloc s a' w).
  { unfold move, upd_alloc, upd_block, set_allocators, set_pool, set_blocks. simpl. by rewrite Eb. }
  rewrite Ew in Hi1.
  pose proof (inv_adopt n X hs _ _ b k s Hn Hs Hlen Hi1 Hb (lookup_insert_eq _ _ _) Hmz Hcz) as Hi2.
  exists b, (access s k). eexists _, (upd_alloc s a' w), _. split_and!; [|by eapply NewAccessStream_eq|exact Hi2|by apply calm_over|done|done|done|apply lookup_insert_eq|].
  - unfold Borrow.Alloc. run. rewrite Hlb, HY. simpl. rewrite Eo. run. run. run. run. unfold a'. by rewrite HY.
  - exists (access s k), x. split_and!; [apply lookup_insert_eq|done|done].
Qed.

(** What a successful allocation gives. *)
Definition allocated hs w s b w' : Prop :=
  exists pl' k x, inv n X ((b, s) :: hs) pl' w' /\ calm pl' /\ unheld b hs /\ events w' = events w /\
    blocks w' !! b = Some k /\ mem_block_ k = Some x.

Lemma Malloc_spec hs pl w s z :
  inv n X hs pl w -> calm pl -> (s < n)%nat -> zlen hs + 1 < 2 ^ 64 ->
  ((pool_Malloc s z (pool w)).1 = None -> forall a key, allocators w !! s = Some a ->
     Borrow.lower_bound z (size_to_borrow_block a) = Some key -> key = z) ->
  exists r w', L2.Malloc s z w = Ok (r, w') /\
    match r with
    | Some b => allocated hs w s b w' /\ exists z', size_is w' b z' /\ z <= z'
    | None => inv n X hs pl w' /\ events w' = events w
    end.
Proof.
  intros Hi Hcalm Hs Hlen Hex. unfold L2.Malloc, on_pool. pose proof (law_Malloc s z (pool w)) as Hlaw.
  destruct (pool_Malloc s z (pool w)) as [m q] eqn:Em. erewrite bind_eq. 2: { run. rewrite Em. run. done. }
  destruct m as [x|]; simpl.
  - destruct Hlaw as (Hx & Hq & Hz & Hsz).
    destruct (Acquire_spec hs pl w s x kNorm q Hi Hcalm Hs Hlen Hx Hq Hsz) as (b & k & pl' & w' & E & Hi' & Hc' & Hun & Ee & Ep & Hb & Hm).
    exists (Some b), w'. split; [done|]. split; [by exists pl', k, x|]. exists (pool_GetSize x q). split; [|done].
    exists k, x. by rewrite Ep.
  - destruct Hlaw as [Hq Hsz]. pose proof (inv_pool n X hs pl w q Hi Hq Hsz) as Hi1.
    destruct (lookup_lt_is_Some_2 (allocators w) s) as [a Ha]; [by rewrite (lo_len _ _ _ (iv_lists _ _ _ _ _ Hi))|].
    destruct (Borrow.lower_bound z (size_to_borrow_block a)) as [key|] eqn:Elb.
    + rewrite (Hex eq_refl a key Ha Elb) in Elb.
      destruct (Borrow_Alloc_spec hs pl (set_pool q w) s a z Hi1 Hcalm Ha Elb Hlen) as (b & k & pl' & w1 & w' & E1 & E2 & Hi' & Hc' & Hun & Ee & Ep & Hb & Hsz').
      erewrite bind_eq by exact E1. cbv beta iota. erewrite bind_eq by exact E2. exists (Some b), w'. split; [done|].
      split; [|by exists z]. destruct Hsz' as (k' & x & Hb' & Hm & _). by exists pl', k', x.
    + exists None, (set_pool q w). split; [|done].
      assert (E : Borrow.Alloc s z (set_pool q w) = Ok (None, set_pool q w)) by (unfold Borrow.Alloc; run; by rewrite Elb).
      by erewrite bind_eq by exact E.
Qed.

Lemma ShareFromTensorData_spec hs pl w s td :
  inv n X hs pl w -> calm pl -> (s < n)%nat -> zlen hs + 1 < 2 ^ 64 ->
  exists r w', L2.ShareFromTensorData s td w = Ok (r, w') /\
    match r with
    | Some b => allocated hs w s b w'
    | None => inv n X hs pl w' /\ events w' = events w
    end.
Proof.
  intros Hi Hcalm Hs Hlen. unfold L2.ShareFromTensorData, on_pool. pose proof (law_Share s td (pool w)) as Hlaw.
  destruct (pool_Share s td (pool w)) as [m q] eqn:Em. erewrite bind_eq. 2: { run. rewrite Em. run. done. }
  destruct m as [x|]; simpl.
  - destruct Hlaw as (Hx & Hq & Hsz).
    destruct (Acquire_spec hs pl w s x kTensorDataWrapped q Hi Hcalm Hs Hlen Hx Hq Hsz) as (b & k & pl' & w' & E & Hi' & Hc' & Hun & Ee & Ep & Hb & Hm).
    exists (Some b), w'. split; [done|]. by exists pl', k, x.
  - destruct Hlaw as [Hq Hsz]. exists None, (set_pool q w). split; [done|]. split; [|done]. by apply inv_pool.
Qed.

Lemma MoveL2ToL1_spec hs pl w s b k :
  inv n X hs pl w -> blocks w !! b = Some k -> pl !! b = Some PUse -> (s < n)%nat ->
  exists st w', L2.MoveL2ToL1 s b w = Ok (st, w') /\ inv n X hs pl w' /\ events w' = events w.
Proof.
  intros Hi Hb Hp Hs. destruct (bo_block _ _ _ _ (iv_blocks _ _ _ _ _ Hi) b k _ Hb Hp) as [Hsh Hu].
  destruct (sp_mem _ _ Hsh) as [x Hx].
  destruct (lookup_lt_is_Some_2 (allocators w) s) as [a Ha]; [by rewrite (lo_len _ _ _ (iv_lists _ _ _ _ _ Hi))|].
  unfold L2.MoveL2ToL1, on_pool. run. case_decide; [by exists SUCCESS, w|]. rewrite Hx.
  assert (Hlv : x ∈ pool_live (pool w)) by (apply (bo_live _ _ _ _ (iv_blocks _ _ _ _ _ Hi)); by exists b, k).
  pose proof (law_Move s x (pool w) Hlv) as Hlaw. destruct (pool_MoveL2ToL1 s x (pool w)) as [m q] eqn:Em.
  erewrite bind_eq. 2: { run. rewrite Em. run. done. }
  destruct m as [x'|]; simpl.
  - destruct Hlaw as (H1 & H2 & H3). run. run. eexists _, _. split_and!; [done| |done].
    by apply (inv_remem n X hs pl w b k x x' q s a).
  - destruct Hlaw as [H1 H2]. eexists _, _. split_and!; [done| |done]. by apply inv_pool.
Qed.

Lemma RecycleFreeMem_spec hs pl w s :
  inv n X hs pl w -> exists w', L2.RecycleFreeMem s w = Ok (SUCCESS, w') /\ inv n X hs pl w' /\ events w' = events w /\
    pool_live (pool w') = pool_live (pool w).
Proof.
  intros Hi. destruct (law_Recycle s (pool w)) as [H1 H2].
  eexists. split_and!; [done|by apply inv_pool|done|done].
Qed.
End sound.
