(* ===== verification/MemStreamEvents.v ===== *)
(** * MemStreamEvents: events carry recycled blocks between streams

    Sending and waiting keep the invariant of [MemStreamInv]; at the end of a
    run everything that nobody holds goes home. *)

From S2P Require Import Prelude MemStream MemStreamInv MemStreamMoves MemStreamSound.

#[local] Set Warnings "-clear-no-such-hyp".

Definition none (b : positive) : Prop := False.

(** Messages about one block may be in flux for a while. *)
Section flux.
Context `{HP : L2MemPool, HL : !L2Laws} (n : nat).

Lemma inv_flux hs pl w b : inv n none hs pl w -> inv n (fun b' => b' = b) hs pl w.
Proof. intros [H1 H2 H3 H4]. split; try done. intros b' k s t _. apply (H4 b' k s t). by intros []. Qed.

Lemma inv_settle hs pl w b :
  inv n (fun b' => b' = b) hs pl w ->
  (forall k t, blocks w !! b = Some k -> pl !! b = Some PUse -> birth_allocator_ k = Some t -> knows k t (seq 0 n)) ->
  inv n none hs pl w.
Proof.
  intros [H1 H2 H3 H4] Hk. split; try done. intros b' k s t _ Hb Hp Ht Hs Hne Hb1 Hb2.
  destruct (decide (b' = b)) as [->|Hb']; [|by eapply H4]. specialize (Hk k t Hb Hp Ht s).
  rewrite Hk in Hb2; [done|apply elem_of_seq; lia|done|done].
Qed.
End flux.

(** ** All streams but one *)

Lemma ToAllBit_bit n s t :
  (n <= 63)%nat -> (s < n)%nat -> (t < n)%nat -> t <> s -> Z.testbit (VersionBlocks.ToAllBit n s) (Z.of_nat t) = true.
Proof.
  intros Hn Hs Ht Hne. unfold VersionBlocks.ToAllBit, VersionBlocks.ToBit. rewrite Z.land_spec. unfold uwrap.
  rewrite !Z.mod_pow2_bits_low by lia. rewrite Z.lnot_spec, ToBit_testbit, bool_decide_false by lia.
  rewrite ToBit_pow by lia. replace (2 ^ Z.of_nat n - 1) with (Z.ones (Z.of_nat n)) by (rewrite Z.ones_equiv; lia).
  by rewrite Z.ones_spec_low by lia.
Qed.

Section events.
Context `{HP : L2MemPool, HL : !L2Laws, HO : SetOrder, !OrderLaws} (n : nat) (Hn : (n <= 63)%nat).
Implicit Types (b : positive) (k : MultiStreamMemBlock) (s t e : nat) (hs : list (positive * nat))
  (pl : gmap positive Place) (w : World _) (a : L2Allocator) (ev : GertEvent).
Abbreviation inv := (inv n none).

(** ** The borrow pool is emptied *)

Lemma set_borrow_id a : set_borrow (size_to_borrow_block a) (stream_to_borrow_block a) a = a.
Proof. by destruct a. Qed.

Lemma upd_alloc_id s a w : allocators w !! s = Some a -> upd_alloc s a w = w.
Proof. intros Hs. unfold upd_alloc, set_allocators. rewrite list_insert_id by done. by destruct w. Qed.

Lemma upd_alloc_twice s a a' w : upd_alloc s a' (upd_alloc s a w) = upd_alloc s a' w.
Proof. unfold upd_alloc, set_allocators. simpl. by rewrite list_insert_insert_eq. Qed.

Lemma clear_sizes_spec s a w st bs : forall M,
  allocators w !! s = Some a ->
  (forall b, b ∈ bs -> exists z, size_is w b z /\ forall z', b ∈ default ∅ (M !! z') -> z' = z) ->
  (forall z Y, M !! z = Some Y -> Y <> ∅) ->
  exists M', Borrow.clear_sizes s bs (upd_alloc s (set_borrow M st a) w) = Ok ((), upd_alloc s (set_borrow M' st a) w) /\
    (forall b z, b ∈ default ∅ (M' !! z) <-> (b ∈ default ∅ (M !! z)) /\ b ∉ bs) /\
    (forall z Y, M' !! z = Some Y -> Y <> ∅).
Proof.
  induction bs as [|b bs IH]; intros M Hs Hbs Hne; simpl.
  - exists M. split_and!; [done| |done]. intros b z. set_solver.
  - destruct (Hbs b) as (z & (k & x & Hb & Hm & Hz) & Huniq); [by left|].
    assert (Hs' : allocators (upd_alloc s (set_borrow M st a) w) !! s = Some (set_borrow M st a)) by by eapply lookup_alloc.
    run. unfold MemBlock.GetSize. rewrite Hm. run. run. simpl. rewrite Hz.
    set (F := default ∅ (M !! z) ∖ {[ b ]}).
    set (M1 := match M !! z with None => M | Some _ => if decide (F = ∅) then delete z (<[z := F]> M) else <[z := F]> M end).
    assert (HM1 : forall b' z', b' ∈ default ∅ (M1 !! z') <-> (b' <> b) /\ b' ∈ default ∅ (M !! z')).
    { intros b' z'. unfold M1. destruct (M !! z) as [Y|] eqn:EY.
      - rewrite in_pruned. unfold F. rewrite <- EY. by apply in_removed, Huniq.
      - split; [|naive_solver]. intros Hin. split; [|done]. intros ->. pose proof (Huniq z' Hin) as ->. by rewrite EY in Hin. }
    assert (Hne1 : forall z' Y, M1 !! z' = Some Y -> Y <> ∅).
    { intros z' Y. unfold M1. destruct (M !! z); [by apply some_pruned|apply Hne]. }
    destruct (IH M1 Hs) as (M' & E & HM' & Hne').
    { intros b' Hin. destruct (Hbs b') as (z' & ? & Hu'); [by right|]. exists z'. split; [done|].
      intros z'' [_ ?]%HM1. by apply Hu'. }
    { done. }
    exists M'. split_and!; [| |done].
    + rewrite (bind_eq _ _ _ () (upd_alloc s (set_borrow M1 st a) w)); [exact E|]. unfold M1. destruct (M !! z) as [Y|] eqn:EY; [|done].
      unfold F, store_allocator, putw, upd_alloc, set_allocators. simpl. by rewrite list_insert_insert_eq, delete_insert_eq.
    + intros b' z'. rewrite HM', HM1. set_solver.
Qed.

Lemma GetAndClear_spec hs pl w s t a :
  inv hs pl w -> allocators w !! s = Some a ->
  exists bs a', Borrow.GetAndClearBorrowBlocks s t w = Ok (bs, upd_alloc s a' w) /\
    inv hs (park PRest bs pl) (upd_alloc s a' w) /\ NoDup bs /\
    local_recycle_blocks_ a' = local_recycle_blocks_ a /\
    (forall b, b ∈ bs <-> pl !! b = Some (PBorrow s) /\ birth_is w b t).
Proof.
  intros Hi Hs. pose proof (lo_alloc _ _ _ (iv_lists _ _ _ _ _ Hi) s a Hs) as [_ Hz Hne Hst].
  assert (Hnone : (forall b, b ∉ default ∅ (stream_to_borrow_block a !! t)) ->
    inv hs (park PRest [] pl) (upd_alloc s a w) /\ NoDup (@nil positive) /\
    local_recycle_blocks_ a = local_recycle_blocks_ a /\
    (forall b, b ∈ [] <-> pl !! b = Some (PBorrow s) /\ birth_is w b t)).
  { intros Hno. rewrite upd_alloc_id by done. split_and!; [done|constructor|done|]. intros b. rewrite <- Hst. set_solver. }
  unfold Borrow.GetAndClearBorrowBlocks. run. destruct (stream_to_borrow_block a !! t) as [F|] eqn:EF.
  2: { exists [], a. split; [by rewrite upd_alloc_id|]. apply Hnone. set_solver. }
  case_decide as E; [exists [], a; split; [by rewrite upd_alloc_id|]; apply Hnone; set_solver|].
  assert (Hord : forall b, b ∈ set_order F <-> b ∈ F) by (intros b; by rewrite law_order, elem_of_elements).
  destruct (clear_sizes_spec s a w (stream_to_borrow_block a) (set_order F) (size_to_borrow_block a) Hs) as (M' & Ec & HM' & Hne').
  { intros b Hin%Hord. destruct (proj1 (Hst b t)) as [Hp _]; [by rewrite EF|].
    destruct (proj2 (bo_dom _ _ _ _ (iv_blocks _ _ _ _ _ Hi) b)) as [k Hb]; [by rewrite Hp|].
    destruct (bo_block _ _ _ _ (iv_blocks _ _ _ _ _ Hi) b k _ Hb Hp) as (_ & Hsh & _).
    destruct (sp_mem _ _ Hsh) as [x Hx]. exists (pool_GetSize x (pool w)).
    assert (Hsz : size_is w b (pool_GetSize x (pool w))) by by exists k, x. split; [done|].
    intros z' [_ Hsz']%Hz. by eapply size_is_fun. }
  { done. }
  rewrite set_borrow_id, upd_alloc_id in Ec by done. erewrite bind_eq by exact Ec.
  erewrite bind_eq by by eapply allocator_eq, lookup_alloc. run.
  exists (set_order F), (set_borrow M' (delete t (stream_to_borrow_block a)) a). split_and!.
  - unfold mret, W_ret. do 2 f_equal. apply (upd_alloc_twice s).
  - apply inv_take_borrowed; try done. intros b. by rewrite EF, Hord.
  - rewrite law_order. apply NoDup_elements.
  - done.
  - intros b. by rewrite Hord, <- Hst, EF.
Qed.

(** ** Sending *)

(** Events keep their streams. *)
Definition shape w : list (nat * nat) := (fun ev => (logic_src_stream ev, logic_dst_stream ev)) <$> events w.

Lemma shape_event w e ev ev' :
  events w !! e = Some ev -> logic_src_stream ev' = logic_src_stream ev -> logic_dst_stream ev' = logic_dst_stream ev ->
  shape (upd_event e ev' w) = shape w.
Proof.
  intros He E1 E2. unfold shape. simpl. rewrite list_fmap_insert. apply list_insert_id.
  rewrite list_lookup_fmap, He. simpl. by rewrite E1, E2.
Qed.

Lemma in_delete {A} (l : list A) i x y :
  l !! i = Some x -> y ∈ delete i l -> y ∈ l.
Proof. intros Hi Hy. rewrite (delete_Permutation l i x) by done. by right. Qed.

Lemma in_delete_ne {A} (l : list A) i j x y : l !! i = Some x -> l !! j = Some y -> j <> i -> y ∈ delete i l.
Proof.
  intros Hi Hj Hne. apply list_elem_of_lookup. destruct (decide (j < i)%nat).
  - exists j. by rewrite list_lookup_delete_lt.
  - exists (j - 1)%nat. rewrite list_lookup_delete_ge by lia. rewrite <- Hj. f_equal. lia.
Qed.

(** One entry is dropped. *)
Lemma walk_drop hs pl w s a i en k all :
  inv hs pl w -> (s < n)%nat -> all = VersionBlocks.ToAllBit n s ->
  allocators w !! s = Some a -> local_recycle_blocks_ a !! i = Some en ->
  blocks w !! block (version_block en) = Some k -> version (version_block en) <> version_ k \/ sent_flags en = all ->
  inv hs pl (upd_alloc s (set_local (delete i (local_recycle_blocks_ a)) a) w).
Proof.
  intros Hi Hs -> Ha Hen Hk Hwhy. apply inv_local; try done.
  - intros en' Hin. eapply (mo_local _ _ (iv_messages _ _ _ _ _ Hi)); [done|]. by eapply in_delete.
  - intros en' k' t Hin _ Hk' Hv Hp Ht Hne Htn Hfl. left. eexists _, en'.
    split_and!; [by eapply lookup_alloc| |by destruct (version_block en'); simpl in *; rewrite Hv|done].
    simpl. apply list_elem_of_lookup in Hin as [j Hj]. destruct (decide (j = i)) as [->|Hji].
    + exfalso. assert (en' = en) as -> by congruence. assert (k' = k) as -> by congruence.
      destruct Hwhy as [?|Hall]; [done|]. rewrite Hall, ToAllBit_bit in Hfl by done. done.
    + by eapply in_delete_ne.
Qed.

(** One entry is marked as sent to [d] and put into the event. *)
Lemma walk_mark hs pl w s a i en e ev :
  inv hs pl w -> allocators w !! s = Some a -> local_recycle_blocks_ a !! i = Some en ->
  events w !! e = Some ev -> logic_src_stream ev = s ->
  let d := logic_dst_stream ev in
  let en' := MkStreamed (version_block en) (Z.lor (sent_flags en) (Mif.ToBit d)) in
  inv hs pl (upd_event e (set_space (block_free_by_src_stream ev ++ [version_block en]) (block_need_return_birth ev) ev)
               (upd_alloc s (set_local (<[i := en']> (local_recycle_blocks_ a)) a) w)).
Proof.
  intros Hi Ha Hen He Hsrc d en'.
  set (ev' := set_space _ _ ev). pose proof (iv_messages _ _ _ _ _ Hi) as Hmo.
  destruct (lo_event _ _ _ (iv_lists _ _ _ _ _ Hi) e ev He) as [(_ & Hd & _) _ _]. fold d in Hd.
  assert (Hin : en ∈ local_recycle_blocks_ a) by (apply list_elem_of_lookup; by exists i).
  assert (Hi1 : inv hs pl (upd_event e ev' w)).
  { apply inv_event_spaces; try done.
    - intros vb [Hvb| ->%list_elem_of_singleton]%elem_of_app; [by eapply (mo_event _ _ Hmo)|by eapply (mo_local _ _ Hmo)].
    - intros vb Hvb Hno. destruct Hno. apply elem_of_app. by left. }
  change (inv hs pl (upd_alloc s (set_local (<[i := en']> (local_recycle_blocks_ a)) a) (upd_event e ev' w))).
  apply inv_local; try done.
  - intros en0 [j Hj]%list_elem_of_lookup. apply list_lookup_insert_Some in Hj as [(_ & <- & _)|[_ Hj]].
    + by apply (mo_local _ _ (iv_messages _ _ _ _ _ Hi1) s a en).
    + eapply (mo_local _ _ (iv_messages _ _ _ _ _ Hi1)); [done|]. apply list_elem_of_lookup. by exists j.
  - intros en0 k t Hin0 _ Hk Hv Hp Ht Hne Htn Hfl.
    assert (Evb : version_block en0 = MkVersionBlock (version_ k) (block (version_block en0))).
    { destruct (version_block en0). simpl in *. by rewrite Hv. }
    apply list_elem_of_lookup in Hin0 as [j Hj].
    assert (Hlk : allocators (upd_alloc s (set_local (<[i := en']> (local_recycle_blocks_ a)) a) (upd_event e ev' w)) !! s =
      Some (set_local (<[i := en']> (local_recycle_blocks_ a)) a)) by by eapply lookup_alloc.
    destruct (decide (j = i)) as [->|Hji].
    + assert (en0 = en) as -> by congruence. destruct (decide (t = d)) as [->|Htd].
      * right. exists e, ev'. split_and!; [|done|done|].
        -- simpl. apply list_lookup_insert_eq. by eapply lookup_lt_Some.
        -- simpl. rewrite <- Evb. set_solver.
      * left. eexists _, en'. split_and!; [exact Hlk| |done|].
        -- simpl. apply list_elem_of_lookup. exists i. apply list_lookup_insert_eq. by eapply lookup_lt_Some.
        -- simpl. rewrite (lor_bit n) by done. by rewrite Hfl, bool_decide_false.
    + left. eexists _, en0. split_and!; [exact Hlk| |done|done].
      simpl. apply list_elem_of_lookup. exists j. by rewrite list_lookup_insert_ne.
Qed.

Definition send_body e (vb : VersionBlock) : W Status :=
  ev ← Event.event e;
  _ ← Event.store_event e (set_space (block_free_by_src_stream ev ++ [vb]) (block_need_return_birth ev) ev);
  mret SUCCESS.

Lemma event_eq e ev w : events w !! e = Some ev -> Event.event e w = Ok (ev, w).
Proof. intros E. unfold Event.event, mbind, W_bind, getw, liftw, at_. simpl. by rewrite E. Qed.

Lemma walk_send_spec s e fuel : forall i hs pl w a ev,
  inv hs pl w -> (s < n)%nat -> allocators w !! s = Some a -> events w !! e = Some ev -> logic_src_stream ev = s ->
  (length (local_recycle_blocks_ a) - i < fuel)%nat ->
  exists w' ev', VersionBlocks.walk fuel VersionBlocks.FindNext (VersionBlocks.ToBit (logic_dst_stream ev))
      (VersionBlocks.ToAllBit n s) s (send_body e) i w = Ok (SUCCESS, w') /\ inv hs pl w' /\
    events w' !! e = Some ev' /\ logic_src_stream ev' = s /\ logic_dst_stream ev' = logic_dst_stream ev /\
    block_need_return_birth ev' = block_need_return_birth ev /\ shape w' = shape w /\ blocks w' = blocks w.
Proof.
  induction fuel as [|fuel IH]; intros i hs pl w a ev Hi Hs Ha He Hsrc Hf; [lia|]. simpl. run.
  destruct (local_recycle_blocks_ a !! i) as [en|] eqn:Hen; [|by exists w, ev].
  pose proof (lookup_lt_Some _ _ _ Hen) as Hlt.
  assert (Hmsg : message_ok pl w (version_block en)).
  { eapply (mo_local _ _ (iv_messages _ _ _ _ _ Hi)); [done|]. apply list_elem_of_lookup. by exists i. }
  destruct Hmsg as (k & Hk & Hle & Hcur). run. unfold VersionBlocks.FindNext at 1.
  assert (Hdrop : version (version_block en) <> version_ k \/ sent_flags en = VersionBlocks.ToAllBit n s ->
    inv hs pl (upd_alloc s (set_local (delete i (local_recycle_blocks_ a)) a) w)) by (intros; by eapply walk_drop).
  assert (Hnext : forall j w1 a1 ev1, inv hs pl w1 -> allocators w1 !! s = Some a1 -> events w1 !! e = Some ev1 ->
      logic_src_stream ev1 = s -> logic_dst_stream ev1 = logic_dst_stream ev ->
      block_need_return_birth ev1 = block_need_return_birth ev -> shape w1 = shape w -> blocks w1 = blocks w ->
      (length (local_recycle_blocks_ a1) - j < fuel)%nat ->
    exists w' ev', VersionBlocks.walk fuel VersionBlocks.FindNext (VersionBlocks.ToBit (logic_dst_stream ev))
      (VersionBlocks.ToAllBit n s) s (send_body e) j w1 = Ok (SUCCESS, w') /\ inv hs pl w' /\
      events w' !! e = Some ev' /\ logic_src_stream ev' = s /\ logic_dst_stream ev' = logic_dst_stream ev /\
      block_need_return_birth ev' = block_need_return_birth ev /\ shape w' = shape w /\ blocks w' = blocks w).
  { intros j w1 a1 ev1 H1 H2 H3 H4 H5 H6 H7 H8 H9.
    destruct (IH j hs pl w1 a1 ev1) as (w' & ev' & E & R); try done. rewrite H5 in *. exists w', ev'. split; [done|].
    rewrite H6, H7, H8 in R. done. }
  destruct (Z.eqb_spec (version (version_block en)) (version_ k)) as [Ev|Ev]; simpl.
  2: { run. eapply Hnext; try done; [apply Hdrop; by left|by eapply lookup_alloc|simpl; rewrite length_delete by (by eexists); lia]. }
  destruct (Z.eqb_spec (sent_flags en) (VersionBlocks.ToAllBit n s)) as [Ef|Ef]; simpl.
  { run. eapply Hnext; try done; [apply Hdrop; by right|by eapply lookup_alloc|simpl; rewrite length_delete by (by eexists); lia]. }
  destruct (Z.land (sent_flags en) (VersionBlocks.ToBit (logic_dst_stream ev)) =? 0); simpl.
  2: { eapply Hnext; try done. lia. }
  run. erewrite must_eq.
  2: { unfold send_body. erewrite bind_eq by by eapply event_eq. run. done. }
  eapply Hnext; [by eapply walk_mark|by eapply lookup_alloc|..]; simpl.
  - apply list_lookup_insert_eq. by eapply lookup_lt_Some.
  - done.
  - done.
  - done.
  - exact (shape_event w e ev (set_space _ _ ev) He eq_refl eq_refl).
  - done.
  - rewrite length_insert. lia.
Qed.

Lemma SendEvent_spec `{HR : Rts} hs pl w s e ev :
  inv hs pl w -> calm pl -> events w !! e = Some ev -> logic_src_stream ev = s ->
  exists pl' w', Event.SendEvent s e w = Ok (if aclrtRecordEvent e then SUCCESS else GRAPH_FAILED, w') /\
    inv hs pl' w' /\ calm pl' /\ shape w' = shape w.
Proof.
  intros Hi Hcalm He Hsrc.
  destruct (lo_event _ _ _ (iv_lists _ _ _ _ _ Hi) e ev He) as [(Hsn & Hd & Hne) _ _]. rewrite Hsrc in Hsn.
  destruct (lookup_lt_is_Some_2 (allocators w) s) as [a Ha]; [by rewrite (lo_len _ _ _ (iv_lists _ _ _ _ _ Hi))|].
  unfold Event.SendEvent. erewrite bind_eq by by eapply event_eq. run.
  rewrite (lo_len _ _ _ (iv_lists _ _ _ _ _ Hi)).
  destruct (walk_send_spec s e (S (length (local_recycle_blocks_ a))) 0 hs pl w a ev)
    as (w1 & ev1 & E1 & Hi1 & He1 & Hs1 & Hd1 & Hr1 & Hsh1 & _); try done; [lia|].
  erewrite bind_eq. 2: { unfold VersionBlocks.walk_all. run. exact E1. }
  destruct (lookup_lt_is_Some_2 (allocators w1) s) as [a1 Ha1]; [by rewrite (lo_len _ _ _ (iv_lists _ _ _ _ _ Hi1))|].
  destruct (GetAndClear_spec hs pl w1 s (logic_dst_stream ev) a1 Hi1 Ha1) as (bs & a2 & E2 & Hi2 & Hnd & _ & Hbs).
  erewrite bind_eq by exact E2.
  erewrite bind_eq by by apply (event_eq e ev1). erewrite bind_eq by reflexivity.
  exists (park (PEvent e) bs (park PRest bs pl)). eexists. split_and!; [done| | |].
  2: { intros b p. rewrite !lookup_park. case_decide; [by intros [= <-]|by apply Hcalm]. }
  2: { rewrite <- Hsh1. exact (shape_event w1 e ev1 (set_space _ _ ev1) He1 eq_refl eq_refl). }
  destruct (lo_event _ _ _ (iv_lists _ _ _ _ _ Hi1) e ev1 He1) as [_ [Hndr Hret] _].
  apply (inv_event_returns n none hs (park PRest bs pl) (upd_alloc s a2 w1) e ev1 bs PRest (PEvent e)); try done.
  - intros b Hb. by rewrite lookup_park, decide_True.
  - by left.
  - intros b Hb. rewrite Hd1. by apply Hbs.
  - apply NoDup_app. split_and!; [done| |done]. intros b Hb%Hret [Hp _]%Hbs. congruence.
  - intros b. rewrite elem_of_app, Hret, !lookup_park. destruct (decide (b ∈ bs)); naive_solver.
Qed.

(** ** Waiting *)

(** What has been settled stays so when another message is processed. *)
Lemma settled_sync hs pl w w' b k p src dst vb :
  inv hs pl w -> blocks w !! b = Some k -> pl !! b = Some PUse -> (src < n)%nat -> (dst < n)%nat ->
  quiet b w w' -> (p = PUse -> blocks w' !! b = Some (learn src dst k)) ->
  settled none pl w vb src dst -> settled none (<[b := p]> pl) w' vb src dst.
Proof.
  intros Hi Hb Hp Hs Hd Hq Hl Hset HX k'. destruct (decide (block vb = b)) as [E|Hne].
  - rewrite E, lookup_insert_eq. intros Hk' Hv [= ->]. rewrite Hl in Hk' by done. injection Hk' as <-. simpl. intros Hbi.
    destruct (bo_block _ _ _ _ (iv_blocks _ _ _ _ _ Hi) b k _ Hb Hp) as [Hsh Hu].
    rewrite (own_learn n hs b k) by done. rewrite (bit_learn n) by done. intros [Hb1 _]%andb_true_iff.
    apply Hset; try done; by rewrite E.
  - rewrite lookup_insert_ne by done. rewrite (qt_blocks _ _ _ Hq) by done. by apply Hset.
Qed.

Lemma sync_blocks_spec `{HR : Rts} src dst vbs : forall hs pl w done_,
  inv hs pl w -> (src < n)%nat -> (dst < n)%nat ->
  (forall vb, vb ∈ vbs -> exists e ev, events w !! e = Some ev /\ vb ∈ block_free_by_src_stream ev) ->
  calm pl ->
  (forall vb, vb ∈ done_ -> settled none pl w vb src dst) ->
  exists pl' w', Event.sync_blocks src dst vbs w = Ok (SUCCESS, w') /\ inv hs pl' w' /\ calm pl' /\ events w' = events w /\
    (forall vb, vb ∈ done_ ++ vbs -> settled none pl' w' vb src dst).
Proof.
  induction vbs as [|vb vbs IH]; intros hs pl w done_ Hi Hs Hd Hvbs Hnh Hdone; simpl.
  - exists pl, w. rewrite app_nil_r. done.
  - destruct (Hvbs vb) as (e & ev & He & Hin); [by left|].
    destruct (mo_event _ _ (iv_messages _ _ _ _ _ Hi) e ev vb He Hin) as (k & Hk & Hle & Hcur). run.
    replace (done_ ++ vb :: vbs) with ((done_ ++ [vb]) ++ vbs) by by rewrite <- app_assoc.
    destruct (Z.eqb_spec (version vb) (version_ k)) as [Ev|Ev]; simpl.
    + assert (Hp : pl !! block vb = Some PUse) by (destruct (Hcur Ev) as [?|?]; [done|by destruct (Hnh (block vb) PHand)]).
      destruct (SyncLocalRecycleStatus_spec n none Hn hs pl w (block vb) k src dst Hi Hk Hp Hs Hd) as (p & w1 & E & Hi1 & Hq & Hl & Hst).
      erewrite must_eq by exact E.
      destruct (bo_block _ _ _ _ (iv_blocks _ _ _ _ _ Hi) (block vb) k _ Hk Hp) as [Hsh Hu].
      destruct (IH hs (<[block vb := p]> pl) w1 (done_ ++ [vb])) as (pl' & w' & E' & Hi' & Hc' & Ee & Hset); try done.
      * intros vb' Hin'. rewrite (qt_events _ _ _ Hq). apply Hvbs. by right.
      * by apply calm_insert.
      * intros vb' [Hin'| ->%list_elem_of_singleton]%elem_of_app; [by eapply settled_sync; [..|apply Hdone]|].
        intros _ k' Hk' Hv'. rewrite lookup_insert_eq. intros [= ->] Hbi. rewrite Hl in Hk' by done. injection Hk' as <-.
        rewrite (own_learn n hs (block vb) k) by done. rewrite (bit_learn n), bool_decide_true by done. simpl.
        by intros [_ ?]%andb_true_iff.
      * exists pl', w'. split_and!; [done|done|done|by rewrite Ee, (qt_events _ _ _ Hq)|done].
    + destruct (IH hs pl w (done_ ++ [vb])) as (pl' & w' & E' & Hi' & Hc' & Ee & Hset); try done.
      * intros vb' Hin'. apply Hvbs. by right.
      * intros vb' [Hin'| ->%list_elem_of_singleton]%elem_of_app; [by apply Hdone|].
        intros _ k' Hk'. assert (k' = k) as -> by congruence. done.
      * by exists pl', w'.
Qed.

(** The blocks of an event go home; the invariant is that of the world in which
    the event has let go of them. *)
Lemma recycle_blocks_spec `{HR : Rts} s e ev0 bs : forall hs pl w,
  inv hs pl (upd_event e ev0 w) -> (s < n)%nat -> NoDup bs ->
  (forall b, b ∈ bs -> pl !! b = Some PRest /\ birth_is w b s) -> (forall b p, pl !! b = Some p -> b ∉ bs -> still p) ->
  exists pl' w', Event.recycle_blocks s bs w = Ok (SUCCESS, w') /\ inv hs pl' (upd_event e ev0 w') /\ calm pl' /\
    events w' = events w.
Proof.
  induction bs as [|b bs IH]; intros hs pl w Hi Hs Hnd Hbs Hc; simpl.
  - exists pl, w. split_and!; [done|done| |done]. intros b p Hp. eapply Hc; [done|]. by intros ?%elem_of_nil.
  - apply NoDup_cons in Hnd as [Hnb Hnd]. destruct (Hbs b) as [Hp (k & Hb & Hbi)]; [by left|].
    destruct (lookup_lt_is_Some_2 (allocators w) s) as [a Ha]; [by rewrite (lo_len _ _ _ (iv_lists _ _ _ _ _ Hi) : length (allocators w) = n)|].
    destruct (bo_block _ _ _ _ (iv_blocks _ _ _ _ _ Hi) b k _ Hb Hp) as [Hsh _]. destruct (sp_mem _ _ Hsh) as [x Hx].
    erewrite must_eq by by apply (BirthRecycle_eq b k x s a).
    pose proof (inv_release n none hs pl (upd_event e ev0 w) b k PRest x s a Hi Hb Hp (or_intror eq_refl) Hx Ha) as Hi1.
    destruct (IH hs (<[b := PFree s]> pl) (released b k x s a w)) as (pl' & w' & E & Hi' & Hc' & Ee); try done.
    + intros b' Hin. assert (b' <> b) by (by intros ->). rewrite lookup_insert_ne by done.
      destruct (Hbs b') as [Hp' Hb']; [by right|]. split; [done|]. by apply birth_is_move.
    + intros b' p [[<- <-]|[Hne Hp']]%lookup_insert_Some Hnin; [done|]. eapply Hc; [done|]. intros [->|?]%elem_of_cons; done.
    + by exists pl', w'.
Qed.

Lemma WaitEvent_spec `{HR : Rts} hs pl w e ev :
  inv hs pl w -> calm pl -> events w !! e = Some ev -> rtStreamWaitEvent e = true ->
  exists pl' w', Event.WaitEvent (logic_dst_stream ev) e w = Ok (SUCCESS, w') /\ inv hs pl' w' /\ calm pl' /\
    events w' = <[e := set_space [] [] ev]> (events w).
Proof.
  intros Hi Hcalm He Hrt.
  destruct (lo_event _ _ _ (iv_lists _ _ _ _ _ Hi) e ev He) as [(Hsn & Hd & Hne) _ _].
  unfold Event.WaitEvent. erewrite must_eq by (unfold Event.CallRtsWaitEvent; by rewrite Hrt).
  erewrite bind_eq by by eapply event_eq.
  destruct (sync_blocks_spec (logic_src_stream ev) (logic_dst_stream ev) (block_free_by_src_stream ev) hs pl w [])
    as (pl1 & w1 & E1 & Hi1 & Hc1 & Ee1 & Hset); try done.
  { intros vb Hvb. by exists e, ev. }
  { by intros vb ?%elem_of_nil. }
  erewrite must_eq by exact E1. assert (He1 : events w1 !! e = Some ev) by by rewrite Ee1.
  destruct (lo_event _ _ _ (iv_lists _ _ _ _ _ Hi1) e ev He1) as [_ [Hnd Hret] Hbi].
  assert (Hi2 : inv hs pl1 (upd_event e (set_space [] (block_need_return_birth ev) ev) w1)).
  { apply inv_event_spaces; try done; [by intros vb ?%elem_of_nil|]. intros vb Hvb _. by apply Hset. }
  erewrite bind_eq by reflexivity. set (w2 := upd_event e _ w1) in Hi2.
  assert (He2 : events w2 !! e = Some (set_space [] (block_need_return_birth ev) ev)).
  { apply list_lookup_insert_eq. by eapply lookup_lt_Some. }
  assert (Hi3 : inv hs (park PRest (block_need_return_birth ev) pl1) (upd_event e (set_space [] [] ev) w2)).
  { apply (inv_event_returns n none hs pl1 w2 e _ (block_need_return_birth ev) (PEvent e) PRest [] Hi2 He2); try done.
    - intros b Hb. by apply Hret.
    - by right.
    - constructor.
    - intros b. rewrite lookup_park. case_decide as E; [set_solver|]. rewrite <- Hret. set_solver. }
  destruct (recycle_blocks_spec (logic_dst_stream ev) e (set_space [] [] ev) (block_need_return_birth ev) hs _ w2 Hi3 Hd Hnd)
    as (pl' & w3 & E3 & Hi' & Hc' & Ee3).
  { intros b Hb. rewrite lookup_park, decide_True by done. split; [done|]. by apply Hbi. }
  { intros b p. rewrite lookup_park. case_decide; [done|]. intros Hp _. by eapply Hc1. }
  erewrite must_eq by exact E3. erewrite bind_eq by reflexivity.
  exists pl', (upd_event e (set_space [] [] ev) w3). split_and!; [done|done|done|].
  simpl. rewrite Ee3. simpl. by rewrite list_insert_insert_eq, Ee1.
Qed.

(** ** The end of a run *)

Definition locals w : list (list StreamedVersionBlock) := local_recycle_blocks_ <$> allocators w.

Lemma locals_lookup w s a : allocators w !! s = Some a -> locals w !! s = Some (local_recycle_blocks_ a).
Proof. intros E. unfold locals. by rewrite list_lookup_fmap, E. Qed.

Lemma locals_alloc w s l : locals w !! s = Some l -> exists a, allocators w !! s = Some a /\ local_recycle_blocks_ a = l.
Proof. unfold locals. rewrite list_lookup_fmap. intros (a & E & ->)%fmap_Some. by exists a. Qed.

Lemma locals_upd w s a a' :
  allocators w !! s = Some a -> locals (upd_alloc s a' w) = <[s := local_recycle_blocks_ a']> (locals w).
Proof. intros E. unfold locals. simpl. by rewrite list_fmap_insert. Qed.

(** An entry has been sent to all the others. *)
Definition sent s (en : StreamedVersionBlock) : Prop :=
  forall t, (t < n)%nat -> t <> s -> Z.testbit (sent_flags en) (Z.of_nat t) = true.

Definition borrows_shrink pl pl' : Prop := forall b s, pl' !! b = Some (PBorrow s) -> pl !! b = Some (PBorrow s).

Lemma borrows_shrink_insert b p pl : (forall s, p <> PBorrow s) -> borrows_shrink pl (<[b := p]> pl).
Proof. intros Hp b' s [[<- ->]|[_ ?]]%lookup_insert_Some; [by destruct (Hp s)|done]. Qed.

(** One entry is marked and its block's birth stream told everything. *)
Lemma visit_all hs pl w s a i en :
  inv hs pl w -> calm pl -> (s < n)%nat -> allocators w !! s = Some a -> local_recycle_blocks_ a !! i = Some en ->
  (exists k, blocks w !! block (version_block en) = Some k /\ version (version_block en) = version_ k) ->
  let all := VersionBlocks.ToAllBit n s in
  let en' := MkStreamed (version_block en) (Z.lor (sent_flags en) all) in
  let w1 := upd_alloc s (set_local (<[i := en']> (local_recycle_blocks_ a)) a) w in
  let body vb := k ← deref (block vb); birth ← MemBlock.GetBirthStreamId k; L2.SyncAllLocalRecycleStatus birth (block vb) in
  exists pl' w', body (version_block en) w1 = Ok (SUCCESS, w') /\ inv hs pl' w' /\ calm pl' /\ events w' = events w /\
    locals w' = <[s := <[i := en']> (local_recycle_blocks_ a)]> (locals w) /\ borrows_shrink pl pl'.
Proof.
  intros Hi Hcalm Hs Ha Hen (k & Hk & Hv) all en' w1 body.
  set (b := block (version_block en)) in *. pose proof (iv_messages _ _ _ _ _ Hi) as Hmo.
  assert (Hin : en ∈ local_recycle_blocks_ a) by (apply list_elem_of_lookup; by exists i).
  destruct (mo_local _ _ Hmo s a en Ha Hin) as (k0 & Hk0 & _ & Hcur). assert (k0 = k) as -> by (unfold b in *; congruence).
  assert (Hp : pl !! b = Some PUse) by (destruct (Hcur Hv) as [?|Hh]; [done|by destruct (Hcalm _ _ Hh)]).
  destruct (bo_block _ _ _ _ (iv_blocks _ _ _ _ _ Hi) b k _ Hk Hp) as [Hsh Hu].
  destruct (sp_birth _ _ Hsh) as (t & Ht & Htn).
  assert (Hi1 : MemStreamInv.inv n (fun b' => b' = b) hs pl w1).
  { apply inv_local; [by apply inv_flux|done|..].
    - intros en0 [j Hj]%list_elem_of_lookup. apply list_lookup_insert_Some in Hj as [(_ & <- & _)|[_ Hj]].
      + by apply (mo_local _ _ Hmo s a en).
      + eapply (mo_local _ _ Hmo); [done|]. apply list_elem_of_lookup. by exists j.
    - intros en0 k0 t0 [j Hj]%list_elem_of_lookup Hne Hk0' Hv0 Hp0 Ht0 _ _ Hfl. left. eexists _, en0.
      split_and!; [by eapply lookup_alloc| |by destruct (version_block en0); simpl in *; rewrite Hv0|done].
      simpl. apply list_elem_of_lookup. exists j. rewrite list_lookup_insert_ne; [done|]. intros <-.
      assert (en0 = en) as -> by congruence. done. }
  destruct (SyncAllLocalRecycleStatus_spec n (fun b' => b' = b) Hn hs pl w1 b k t Hi1 Hk Hp Ht) as (p & w' & E & Hi' & Hq & Hpp).
  exists (<[b := p]> pl), w'. split_and!.
  - unfold body. run. run. exact E.
  - eapply inv_settle; [done|]. rewrite lookup_insert_eq. intros k' t' Hk' [= ->] Ht'.
    destruct Hpp as [?|(_ & k1 & Hk1 & Hb1 & Hkn)]; [done|]. assert (k1 = k') as -> by congruence.
    by assert (t' = t) as -> by congruence.
  - apply calm_insert; [done|]. destruct Hpp as [->|[-> _]]; done.
  - apply (qt_events _ _ _ Hq).
  - unfold locals. rewrite (qt_local _ _ _ Hq). by apply (locals_upd w s a).
  - apply borrows_shrink_insert. destruct Hpp as [->|[-> _]]; done.
Qed.

Definition sync_body (vb : VersionBlock) : W Status :=
  k ← deref (block vb); birth ← MemBlock.GetBirthStreamId k; L2.SyncAllLocalRecycleStatus birth (block vb).

Lemma borrows_shrink_trans pl pl' pl'' : borrows_shrink pl pl' -> borrows_shrink pl' pl'' -> borrows_shrink pl pl''.
Proof. intros H1 H2 b s Hb. by apply H1, H2. Qed.

Lemma walk_all_spec s fuel : forall i hs pl w a,
  inv hs pl w -> calm pl -> (s < n)%nat -> allocators w !! s = Some a ->
  (forall j en, (j < i)%nat -> local_recycle_blocks_ a !! j = Some en -> sent s en) ->
  (length (local_recycle_blocks_ a) - i < fuel)%nat ->
  let all := VersionBlocks.ToAllBit n s in
  exists pl' w' l, VersionBlocks.walk fuel VersionBlocks.FindNextForAll all all s sync_body i w = Ok (SUCCESS, w') /\
    inv hs pl' w' /\ calm pl' /\ events w' = events w /\ locals w' = <[s := l]> (locals w) /\ borrows_shrink pl pl' /\
    forall en, en ∈ l -> sent s en.
Proof.
  intros i hs. revert i. induction fuel as [|fuel IH]; intros i pl w a Hi Hcalm Hs Ha Hsent Hf all; [lia|].
  simpl. run. destruct (local_recycle_blocks_ a !! i) as [en|] eqn:Hen.
  2: { exists pl, w, (local_recycle_blocks_ a). split_and!; try done.
       - symmetry. apply list_insert_id. by apply locals_lookup.
       - by intros b s'.
       - intros en [j Hj]%list_elem_of_lookup. apply (Hsent j); [|done]. apply lookup_ge_None in Hen.
         apply lookup_lt_Some in Hj. lia. }
  pose proof (lookup_lt_Some _ _ _ Hen) as Hlt.
  assert (Hin : en ∈ local_recycle_blocks_ a) by (apply list_elem_of_lookup; by exists i).
  destruct (mo_local _ _ (iv_messages _ _ _ _ _ Hi) s a en Ha Hin) as (k & Hk & _ & _).
  run. unfold VersionBlocks.FindNextForAll at 1.
  assert (Hdrop : version (version_block en) <> version_ k \/ sent_flags en = all ->
    exists pl' w' l, VersionBlocks.walk fuel VersionBlocks.FindNextForAll all all s sync_body i
        (upd_alloc s (set_local (delete i (local_recycle_blocks_ a)) a) w) = Ok (SUCCESS, w') /\
      inv hs pl' w' /\ calm pl' /\ events w' = events w /\ locals w' = <[s := l]> (locals w) /\ borrows_shrink pl pl' /\
      forall en, en ∈ l -> sent s en).
  { intros Hwhy. destruct (IH i pl (upd_alloc s (set_local (delete i (local_recycle_blocks_ a)) a) w)
      (set_local (delete i (local_recycle_blocks_ a)) a)) as (pl' & w' & l & E & Hi' & Hc' & Ee & El & Hsh & Hl); try done.
    - by eapply walk_drop.
    - by eapply lookup_alloc.
    - simpl. intros j en0 Hj. rewrite list_lookup_delete_lt by done. by apply Hsent.
    - simpl. rewrite length_delete by (by eexists). lia.
    - exists pl', w', l. split_and!; try done. rewrite El, (locals_upd w s a) by done. by rewrite list_insert_insert_eq. }
  destruct (Z.eqb_spec (version (version_block en)) (version_ k)) as [Ev|Ev]; simpl; [|run; apply Hdrop; by left].
  destruct (Z.eqb_spec (sent_flags en) all) as [Ef|Ef]; simpl; [run; apply Hdrop; by right|].
  run. destruct (visit_all hs pl w s a i en) as (pl1 & w1 & E1 & Hi1 & Hc1 & Ee1 & El1 & Hsh1); try done; [by exists k|].
  erewrite must_eq by exact E1.
  destruct (locals_alloc w1 s (<[i := MkStreamed (version_block en) (Z.lor (sent_flags en) all)]> (local_recycle_blocks_ a))) as (a1 & Ha1 & Ela).
  { rewrite El1. apply list_lookup_insert_eq. unfold locals. rewrite length_fmap. by eapply lookup_lt_Some. }
  destruct (IH (S i) pl1 w1 a1) as (pl' & w' & l & E & Hi' & Hc' & Ee & El & Hsh & Hl); try done.
  - rewrite Ela. intros j en0 Hj Hj0. apply list_lookup_insert_Some in Hj0 as [(<- & <- & _)|[Hne Hj0]].
    + intros t Ht Hts. simpl. unfold all. by rewrite Z.lor_spec, ToAllBit_bit, orb_true_r.
    + apply (Hsent j); [lia|done].
  - rewrite Ela, length_insert. lia.
  - exists pl', w', l. split_and!; [done|done|done|by rewrite Ee|by rewrite El, El1, list_insert_insert_eq| |done].
    by eapply borrows_shrink_trans.
Qed.

(** Borrowed blocks go home. *)
Lemma recycle_at_birth_spec `{HR : Rts} bs : forall hs pl w,
  inv hs pl w -> NoDup bs -> (forall b, b ∈ bs -> pl !! b = Some PRest) ->
  exists pl' w', Event.recycle_at_birth bs w = Ok (SUCCESS, w') /\ inv hs pl' w' /\ events w' = events w /\
    locals w' = locals w /\ (forall b, b ∉ bs -> pl' !! b = pl !! b) /\ (forall b, b ∈ bs -> exists s, pl' !! b = Some (PFree s)) /\
    (forall b t, birth_is w' b t <-> birth_is w b t).
Proof.
  induction bs as [|b bs IH]; intros hs pl w Hi Hnd Hbs; simpl.
  - exists pl, w. split_and!; try done. by intros b ?%elem_of_nil.
  - apply NoDup_cons in Hnd as [Hnb Hnd]. pose proof (Hbs b ltac:(by left)) as Hp.
    destruct (proj2 (bo_dom _ _ _ _ (iv_blocks _ _ _ _ _ Hi) b)) as [k Hb]; [by rewrite Hp|].
    destruct (bo_block _ _ _ _ (iv_blocks _ _ _ _ _ Hi) b k _ Hb Hp) as [Hsh _]. destruct (sp_birth _ _ Hsh) as (s & Hbi & Hs).
    destruct (lookup_lt_is_Some_2 (allocators w) s) as [a Ha]; [by rewrite (lo_len _ _ _ (iv_lists _ _ _ _ _ Hi))|].
    run. run. destruct (BirthRecycle_spec n none hs pl w b k PRest s a) as (x & Hx & E & Hi1); try done; [by right|].
    erewrite must_eq by exact E.
    destruct (IH hs (<[b := PFree s]> pl) (released b k x s a w)) as (pl' & w' & E' & Hi' & Ee & El & Hoff & Hon & Hbi'); try done.
    + intros b' Hin. rewrite lookup_insert_ne by (by intros ->). apply Hbs. by right.
    + exists pl', w'. split_and!; [done|done|done| | | |].
      * rewrite El. unfold released, move. etrans; [by apply (locals_upd _ s a)|].
        apply list_insert_id. by apply (locals_lookup w s a).
      * intros b' Hnin. rewrite Hoff by set_solver. rewrite lookup_insert_ne; [done|]. set_solver.
      * intros b' [->|Hin]%elem_of_cons; [|by apply Hon]. exists s. rewrite Hoff by done. apply lookup_insert_eq.
      * intros b' t. rewrite Hbi'. destruct (decide (b' = b)) as [->|Hne]; [|by apply birth_is_move].
        unfold birth_is. simpl. rewrite lookup_insert_eq, Hb. split; intros (k' & [= <-] & Ht); eexists; (split; [done|]); done.
Qed.

Lemma return_borrowed_spec `{HR : Rts} src dsts : forall hs pl w,
  inv hs pl w -> calm pl -> (src < n)%nat ->
  exists pl' w', Event.return_borrowed src dsts w = Ok (SUCCESS, w') /\ inv hs pl' w' /\ calm pl' /\ events w' = events w /\
    locals w' = locals w /\ borrows_shrink pl pl' /\
    (forall b t, pl' !! b = Some (PBorrow src) -> birth_is w' b t -> t ∉ dsts) /\
    (forall b t, birth_is w' b t <-> birth_is w b t).
Proof.
  induction dsts as [|d dsts IH]; intros hs pl w Hi Hcalm Hs; simpl.
  - exists pl, w. split_and!; try done; [by intros b s'|]. by intros b t _ _ ?%elem_of_nil.
  - destruct (lookup_lt_is_Some_2 (allocators w) src) as [a Ha]; [by rewrite (lo_len _ _ _ (iv_lists _ _ _ _ _ Hi))|].
    destruct (GetAndClear_spec hs pl w src d a Hi Ha) as (bs & a' & E1 & Hi1 & Hnd & El1 & Hbs). erewrite bind_eq by exact E1.
    destruct (recycle_at_birth_spec bs hs _ _ Hi1 Hnd) as (pl2 & w2 & E2 & Hi2 & Ee2 & El2 & Hoff & Hon & Hbi2).
    { intros b Hb. by rewrite lookup_park, decide_True. }
    erewrite must_eq by exact E2.
    assert (Hc2 : calm pl2).
    { intros b p Hp. destruct (decide (b ∈ bs)) as [Hin|Hin].
      - destruct (Hon b Hin) as [s' Hs']. rewrite Hp in Hs'. by injection Hs' as ->.
      - rewrite Hoff, lookup_park, decide_False in Hp by done. by eapply Hcalm. }
    assert (Hsh2 : borrows_shrink pl pl2).
    { intros b s' Hp. destruct (decide (b ∈ bs)) as [Hin|Hin].
      - destruct (Hon b Hin) as [s'' Hs']. congruence.
      - by rewrite Hoff, lookup_park, decide_False in Hp by done. }
    destruct (IH hs pl2 w2 Hi2 Hc2 Hs) as (pl' & w' & E & Hi' & Hc' & Ee & El & Hsh & Hb' & Hbi').
    exists pl', w'. split_and!; [done|done|done|by rewrite Ee, Ee2| |by eapply borrows_shrink_trans| |].
    + rewrite El, El2, (locals_upd w src a), El1 by done. apply list_insert_id. by apply locals_lookup.
    + intros b t Hp Hb. apply not_elem_of_cons. split; [|by eapply Hb'].
      intros ->. apply Hsh in Hp. destruct (decide (b ∈ bs)) as [Hin|Hin].
      * destruct (Hon b Hin) as [s'' Hs']. congruence.
      * rewrite Hoff, lookup_park, decide_False in Hp by done. destruct Hin. apply Hbs.
        split; [done|]. by apply Hbi', Hbi2 in Hb.
    + intros b t. rewrite Hbi', Hbi2. done.
Qed.

(** Stream [s] has nothing left to tell or to return. *)
Definition finished pl w s : Prop :=
  (forall b, pl !! b <> Some (PBorrow s)) /\ (forall l en, locals w !! s = Some l -> en ∈ l -> sent s en).

Lemma recycle_streams_spec `{HR : Rts} srcs : forall hs pl w before,
  inv hs pl w -> calm pl -> (forall s, s ∈ srcs -> (s < n)%nat) -> (forall s, s ∈ before -> finished pl w s) ->
  exists pl' w', Event.recycle_streams n srcs w = Ok (SUCCESS, w') /\ inv hs pl' w' /\ calm pl' /\ events w' = events w /\
    forall s, s ∈ before ++ srcs -> finished pl' w' s.
Proof.
  induction srcs as [|src srcs IH]; intros hs pl w before Hi Hcalm Hsrcs Hbef; simpl.
  - exists pl, w. rewrite app_nil_r. done.
  - pose proof (Hsrcs src ltac:(by left)) as Hs.
    destruct (lookup_lt_is_Some_2 (allocators w) src) as [a Ha]; [by rewrite (lo_len _ _ _ (iv_lists _ _ _ _ _ Hi))|].
    destruct (walk_all_spec src (S (length (local_recycle_blocks_ a))) 0 hs pl w a) as (pl1 & w1 & l & E1 & Hi1 & Hc1 & Ee1 & El1 & Hsh1 & Hl);
      try done; [lia|lia|].
    erewrite must_eq. 2: { unfold VersionBlocks.walk_all. run. exact E1. }
    destruct (return_borrowed_spec src (seq 0 n) hs pl1 w1 Hi1 Hc1 Hs) as (pl2 & w2 & E2 & Hi2 & Hc2 & Ee2 & El2 & Hsh2 & Hb2 & _).
    erewrite must_eq by exact E2.
    assert (Hsl : (src < length (locals w))%nat) by (unfold locals; rewrite length_fmap; by eapply lookup_lt_Some).
    destruct (IH hs pl2 w2 (before ++ [src])) as (pl' & w' & E & Hi' & Hc' & Ee & Hfin); try done.
    + intros s Hin. apply Hsrcs. by right.
    + intros s [Hin| ->%list_elem_of_singleton]%elem_of_app.
      * destruct (Hbef s Hin) as [F1 F2]. split.
        -- intros b Hb. apply (F1 b). by apply Hsh1, Hsh2.
        -- intros l' en. rewrite El2, El1. intros [(<- & <- & _)|[_ Hl']]%list_lookup_insert_Some; [by apply Hl|by apply F2].
      * split.
        -- intros b Hb. destruct (proj2 (bo_dom _ _ _ _ (iv_blocks _ _ _ _ _ Hi2) b)) as [k Hk]; [by rewrite Hb|].
           destruct (bo_block _ _ _ _ (iv_blocks _ _ _ _ _ Hi2) b k _ Hk Hb) as (_ & Hsh & _).
           destruct (sp_birth _ _ Hsh) as (t & Ht & Htn). apply (Hb2 b t Hb); [by exists k|]. apply elem_of_seq. lia.
        -- intros l' en. rewrite El2, El1, list_lookup_insert_eq by done. intros [= <-]. apply Hl.
    + exists pl', w'. split_and!; [done|done|done|by rewrite Ee, Ee2, Ee1|]. by rewrite <- app_assoc in Hfin.
Qed.

Lemma recycle_free_spec `{HR : Rts} ss : forall hs pl w,
  inv hs pl w -> exists w', Event.recycle_free ss w = Ok (SUCCESS, w') /\ inv hs pl w' /\ events w' = events w /\
    allocators w' = allocators w /\ blocks w' = blocks w.
Proof.
  induction ss as [|s ss IH]; intros hs pl w Hi; simpl; [by exists w|].
  destruct (law_Recycle s (pool w)) as [H1 H2].
  erewrite must_eq by reflexivity. destruct (IH hs pl (set_pool (pool_Recycle s (pool w)) w)) as (w' & E & Hi' & Ee & Ea & Eb).
  - by apply inv_pool.
  - by exists w'.
Qed.

(** Kernels that only call the runtime. *)
Lemma do_each_rts (f : nat -> W Status) (ok : nat -> bool) ids w :
  (forall e, e ∈ ids -> (e < length (events w))%nat) ->
  (forall e, f e w = Ok (if ok e then SUCCESS else GRAPH_FAILED, w)) ->
  Event.do_each f ids w = Ok (if forallb ok ids then SUCCESS else GRAPH_FAILED, w).
Proof.
  intros Hids Hf. induction ids as [|e ids IH]; simpl; [done|]. run.
  rewrite (proj2 (Nat.leb_gt _ _)) by (apply Hids; by left). unfold must. erewrite bind_eq by exact (Hf e).
  destruct (ok e); simpl; [|done]. apply IH. intros; apply Hids; by right.
Qed.

Lemma DoEvents_rts (f : nat -> W Status) (ok : nat -> bool) rt ids w :
  (length (events w) <= rt)%nat -> (forall e, e ∈ ids -> (e < length (events w))%nat) ->
  (forall e, f e w = Ok (if ok e then SUCCESS else GRAPH_FAILED, w)) ->
  Event.DoEvents f rt ids w = Ok (if forallb ok ids then SUCCESS else GRAPH_FAILED, w).
Proof.
  intros Hrt Hids Hf. unfold Event.DoEvents. run. rewrite (proj2 (Nat.ltb_ge _ _)) by done. by apply do_each_rts.
Qed.

Lemma LastWaitEvents_fails `{HR : Rts} w rt ids :
  (length (events w) <= rt)%nat -> (forall e, e ∈ ids -> (e < length (events w))%nat) ->
  forallb rtStreamWaitEvent ids = false -> Event.LastWaitEvents rt ids w = Ok (GRAPH_FAILED, w).
Proof.
  intros Hrt Hids Hok. unfold Event.LastWaitEvents, must at 1.
  erewrite bind_eq by by apply (DoEvents_rts _ rtStreamWaitEvent). by rewrite Hok.
Qed.

Lemma LastWaitEvents_spec `{HR : Rts} hs pl w rt ids :
  (0 < n)%nat -> inv hs pl w -> calm pl -> (length (events w) <= rt)%nat ->
  (forall e, e ∈ ids -> (e < length (events w))%nat) -> forallb rtStreamWaitEvent ids = true ->
  exists pl' w', Event.LastWaitEvents rt ids w = Ok (SUCCESS, w') /\ inv hs pl' w' /\ calm pl' /\ events w' = events w /\
    forall s, (s < n)%nat -> finished pl' w' s.
Proof.
  intros Hn0 Hi Hcalm Hrt Hids Hok. unfold Event.LastWaitEvents. erewrite must_eq.
  2: { rewrite (DoEvents_rts _ rtStreamWaitEvent) by done. by rewrite Hok. }
  run. rewrite (lo_len _ _ _ (iv_lists _ _ _ _ _ Hi)). rewrite (proj2 (Nat.ltb_lt _ _)) by done. simpl.
  destruct (recycle_streams_spec (seq 0 n) hs pl w []) as (pl1 & w1 & E1 & Hi1 & Hc1 & Ee1 & Hfin); try done.
  { intros s Hs%elem_of_seq. lia. }
  { by intros s Hs%elem_of_nil. }
  erewrite must_eq by exact E1.
  destruct (recycle_free_spec (seq 0 n) hs pl1 w1 Hi1) as (w' & E & Hi' & Ee & Ea & Eb).
  exists pl1, w'. split_and!; [done|done|done|by rewrite Ee|]. intros s Hs.
  assert (Hf : finished pl1 w1 s) by (apply Hfin, elem_of_seq; lia). unfold finished, locals in *. by rewrite Ea.
Qed.

(** Nothing is held, nothing is on its way, every stream has finished: all the
    memory is back. *)
Lemma all_home pl w :
  inv [] pl w -> calm pl -> (forall s, (s < n)%nat -> finished pl w s) ->
  (forall e ev, events w !! e = Some ev -> block_free_by_src_stream ev = [] /\ block_need_return_birth ev = []) ->
  (forall b k, blocks w !! b = Some k -> mem_block_ k = None) /\ pool_live (pool w) = ∅.
Proof.
  intros Hi Hcalm Hfin Hev. pose proof (iv_blocks _ _ _ _ _ Hi) as Hbo.
  assert (Hall : forall b k, blocks w !! b = Some k -> mem_block_ k = None).
  { intros b k Hb. destruct (proj1 (bo_dom _ _ _ _ Hbo b)) as [p Hp]; [by rewrite Hb|].
    pose proof (bo_block _ _ _ _ Hbo b k p Hb Hp) as Hok. destruct p as [s| |s|e| |]; simpl in Hok.
    - apply Hok.
    - exfalso. destruct Hok as [Hsh Hu]. destruct (sp_birth _ _ Hsh) as (t & Ht & Htn).
      assert (Hown : forall s, (s < n)%nat -> bit k s s = false).
      { intros s Hs. rewrite (us_own _ _ _ _ Hu), (us_count _ _ _ _ Hu) by done. done. }
      destruct (mif_row n [] b k Hsh Hu t Htn) as (r & Er & Hrow & Hnz).
      destruct (row_nonzero n r Hrow Hnz) as (s & Hs & Hbit).
      assert (Hb1 : bit k t s = true) by (unfold bit; by rewrite Er).
      assert (s <> t) by (intros ->; by rewrite Hown in Hb1).
      destruct (iv_told _ _ _ _ _ Hi b k s t) as [(a & en & Ha & Hin & _ & Hfl)|(e & ev & He & _ & _ & Hin)]; try done.
      + by intros [].
      + by apply Hown.
      + destruct (Hfin s Hs) as [_ Hsent]. rewrite (Hsent _ en (locals_lookup w s a Ha) Hin t Htn) in Hfl by done. done.
      + destruct (Hev e ev He) as [E _]. rewrite E in Hin. by apply elem_of_nil in Hin.
    - destruct Hok as (Hs & _). by destruct (proj1 (Hfin s Hs) b).
    - destruct (lo_placed _ _ _ (iv_lists _ _ _ _ _ Hi) b e Hp) as [ev He]. destruct (Hev e ev He) as [_ E].
      apply (eo_return _ _ _ _ _ (lo_event _ _ _ (iv_lists _ _ _ _ _ Hi) e ev He)) in Hp. rewrite E in Hp. by apply elem_of_nil in Hp.
    - by destruct (Hcalm b PHand Hp).
    - by destruct (Hcalm b PRest Hp). }
  split; [done|]. apply leibniz_equiv, elem_of_equiv_empty. intros x (b & k & Hb & Hm)%(bo_live _ _ _ _ Hbo).
  rewrite (Hall b k Hb) in Hm. done.
Qed.
End events.
