(* ===== verification/MemStreamClient.v ===== *)
(** * MemStreamClient: what users of the multi-stream allocators rely on

    Kernels take blocks, share them, wander them to other streams, give them up
    and exchange events, in any order.  [perform] is one such step on the
    references the kernels hold; the theorems say what holds after every
    sequence of steps. *)

From S2P Require Import Prelude MemStream MemStreamInv MemStreamMoves MemStreamSound MemStreamEvents.

#[local] Set Warnings "-clear-no-such-hyp".

(** ** Kernels *)

(** References are named by their positions: [AShare], [AWander] and [AFree]
    are [GertTensorData::ShareFrom], [WanderFrom] and [Free] of the tensor data
    that holds the [i]th one. *)
Inductive Action :=
  | AMalloc (s : nat) (size : Z)
  | AShareTd (s : nat) (td : Z)
  | AShare (i : nat)
  | AWander (i dst : nat)
  | AFree (i : nat)
  | AMove (s i : nat)
  | ARecycle (s : nat)
  | ASend (s : nat) (event_ids : list nat)
  | AWait (s : nat) (event_ids : list nat)
  | ALastSend (event_ids : list nat)
  | ALastWait (event_ids : list nat).

Section client.
Context `{HP : L2MemPool, HO : SetOrder, HR : Rts}.

(** The references held, each on a stream, and the allocators. *)
Definition Kernels : Type := list (positive * nat) * World _.

Definition start (n : nat) (infos : list (nat * nat)) (p : Pool) : Kernels :=
  ([], MkWorld ∅ 1%positive (replicate n L2.construct) (Event.CreateGertEvents infos) p).

(** [allowed]: a kernel asks the allocator of one of the streams, on references
    it holds, and its events belong to its stream; and [lends_exactly]: when a
    stream's own pool fails, no larger block is lent to the stream that would
    serve the request ([borrowing_leaves_an_empty_set] is what happens then). *)
Definition event_at (w : World _) (ok : GertEvent -> bool) (e : nat) : bool :=
  match events w !! e with Some ev => ok ev | None => false end.
Definition lends_exactly (s : nat) (size : Z) (w : World _) : bool :=
  match (pool_Malloc s size (pool w)).1, allocators w !! s with
  | None, Some a => match Borrow.lower_bound size (size_to_borrow_block a) with Some key => key =? size | None => true end
  | _, _ => true
  end.
Definition allowed (x : Action) (c : Kernels) : bool :=
  let '(hs, w) := c in
  let valid s := (s <? length (allocators w))%nat in
  let held i := (i <? length hs)%nat in
  match x with
  | AMalloc s size => valid s && lends_exactly s size w
  | AShareTd s _ | ARecycle s => valid s
  | AShare i | AFree i => held i
  | AWander i dst => held i && valid dst
  | AMove s i => valid s && held i
  | ASend s ids => forallb (event_at w (fun ev => (logic_src_stream ev =? s)%nat)) ids
  | AWait s ids => forallb (event_at w (fun ev => (logic_dst_stream ev =? s)%nat)) ids
  | ALastSend ids | ALastWait ids => forallb (event_at w (fun _ => true)) ids
  end.

(** The status is that of the operation; a null block is a failure. *)
Definition perform (x : Action) (c : Kernels) : outcome (Status * Kernels) :=
  let '(hs, w) := c in
  let took s (m : W (option positive)) :=
    '(r, w) ← m w; Ok (match r with Some b => (SUCCESS, ((b, s) :: hs, w)) | None => (GRAPH_FAILED, (hs, w)) end) in
  let stays (m : W Status) := '(st, w) ← m w; Ok (st, (hs, w)) in
  let on i (f : positive -> nat -> outcome (Status * Kernels)) :=
    '(b, s) ← at_ hs i; f b s in
  match x with
  | AMalloc s size => took s (L2.Malloc s size)
  | AShareTd s td => took s (L2.ShareFromTensorData s td)
  | AShare i => on i (fun b s => '(_, w) ← MemBlock.AddCount s b w; Ok (SUCCESS, ((b, s) :: hs, w)))
  | AWander i dst => on i (fun b s => '(st, w) ← MemBlock.NewAccessStream s dst b w; Ok (st, ((b, dst) :: hs, w)))
  | AFree i => on i (fun b s => '(_, w) ← L2.MemBlock_Free s b w; Ok (SUCCESS, (delete i hs, w)))
  | AMove s i => on i (fun b _ => '(st, w) ← L2.MoveL2ToL1 s b w; Ok (st, (hs, w)))
  | ARecycle s => stays (L2.RecycleFreeMem s)
  | ASend s ids => stays (Event.SendEvents s (length (events w)) ids)
  | AWait s ids => stays (Event.WaitEvents s (length (events w)) ids)
  | ALastSend ids => stays (Event.LastSendEvents (length (events w)) ids)
  | ALastWait ids => stays (Event.LastWaitEvents (length (events w)) ids)
  end.

Fixpoint serve_kernels (xs : list Action) (c : Kernels) : outcome Kernels :=
  match xs with [] => Ok c | x :: xs => '(_, c) ← perform x c; serve_kernels xs c end.

(** Every step is allowed where it is done. *)
Fixpoint orderly (xs : list Action) (c : Kernels) : bool :=
  match xs with
  | [] => true
  | x :: xs => allowed x c && match perform x c with Ok (_, c) => orderly xs c | _ => true end
  end.
End client.

Section reliable.
Context `{HP : L2MemPool, HL : !L2Laws, HO : SetOrder, !OrderLaws, HR : Rts} (n : nat) (Hn : (1 <= n <= 63)%nat).
Implicit Types (b : positive) (k : MultiStreamMemBlock) (s t e : nat) (hs : list (positive * nat))
  (pl : gmap positive Place) (w : World _) (c : Kernels) (x : Action).
Abbreviation inv := (inv n none).

(** ** Every step keeps the invariant *)

Definition steady (sh : list (nat * nat)) hs w : Prop := exists pl, inv hs pl w /\ calm pl /\ shape w = sh.

Definition reported (ok : bool) (st : Status) : Prop := ok = true -> st = SUCCESS.

Lemma shape_same w w' : events w' = events w -> shape w' = shape w.
Proof. unfold shape. by intros ->. Qed.

Lemma shape_length w w' : shape w' = shape w -> length (events w') = length (events w).
Proof. intros E%(f_equal length). unfold shape in E. by rewrite !length_map in E. Qed.

Lemma shape_lookup w w' e ev :
  shape w' = shape w -> events w !! e = Some ev ->
  exists ev', events w' !! e = Some ev' /\ logic_src_stream ev' = logic_src_stream ev /\ logic_dst_stream ev' = logic_dst_stream ev.
Proof.
  intros E He. assert (Hl : shape w' !! e = Some (logic_src_stream ev, logic_dst_stream ev)).
  { rewrite E. unfold shape. by rewrite list_lookup_fmap, He. }
  unfold shape in Hl. rewrite list_lookup_fmap in Hl. destruct (events w' !! e) as [ev'|]; [|done].
  exists ev'. by inversion Hl.
Qed.

Lemma event_at_shape w w' f e :
  shape w' = shape w -> event_at w (fun ev => f (logic_src_stream ev) (logic_dst_stream ev)) e = true ->
  exists ev, events w' !! e = Some ev /\ f (logic_src_stream ev) (logic_dst_stream ev) = true.
Proof.
  intros E. unfold event_at. destruct (events w !! e) as [ev|] eqn:He; [|done]. intros Hf.
  destruct (shape_lookup w w' e ev E He) as (ev' & He' & E1 & E2). exists ev'. by rewrite E1, E2.
Qed.

(** The events of a kernel, one after the other. *)
Lemma do_each_spec (f : nat -> W Status) (ok : nat -> bool) sh hs ids :
  (forall e w, e ∈ ids -> steady sh hs w -> (e < length (events w))%nat /\
     exists w', f e w = Ok (if ok e then SUCCESS else GRAPH_FAILED, w') /\ steady sh hs w') ->
  forall w, steady sh hs w ->
  exists w', Event.do_each f ids w = Ok (if forallb ok ids then SUCCESS else GRAPH_FAILED, w') /\ steady sh hs w'.
Proof.
  induction ids as [|e ids IH]; intros Hf w Hw; simpl; [by exists w|].
  destruct (Hf e w) as (He & w1 & E1 & Hw1); [by left|done|]. run. rewrite (proj2 (Nat.leb_gt _ _)) by done.
  unfold must. erewrite bind_eq by exact E1. destruct (ok e); simpl; [|by exists w1].
  apply IH; [|done]. intros e' w' He'. apply Hf. by right.
Qed.

Lemma DoEvents_spec (f : nat -> W Status) (ok : nat -> bool) sh hs ids w :
  (forall e w, e ∈ ids -> steady sh hs w -> (e < length (events w))%nat /\
     exists w', f e w = Ok (if ok e then SUCCESS else GRAPH_FAILED, w') /\ steady sh hs w') ->
  steady sh hs w ->
  exists w', Event.DoEvents f (length (events w)) ids w = Ok (if forallb ok ids then SUCCESS else GRAPH_FAILED, w') /\ steady sh hs w'.
Proof.
  intros Hf Hw. unfold Event.DoEvents. run. rewrite (proj2 (Nat.ltb_ge _ _)) by done. by apply do_each_spec.
Qed.

Lemma send_steady sh hs s e w :
  steady sh hs w -> event_at w (fun ev => (logic_src_stream ev =? s)%nat) e = true ->
  (e < length (events w))%nat /\
  exists w', Event.SendEvent s e w = Ok (if aclrtRecordEvent e then SUCCESS else GRAPH_FAILED, w') /\ steady sh hs w'.
Proof.
  intros (pl & Hi & Hc & Hsh) Hat. destruct (event_at_shape w w (fun src _ => (src =? s)%nat) e eq_refl Hat) as (ev & He & Hs%Nat.eqb_eq).
  split; [by eapply lookup_lt_Some|].
  destruct (SendEvent_spec n ltac:(lia) hs pl w s e ev) as (pl' & w' & E & Hi' & Hc' & Hsh'); try done.
  exists w'. split; [done|]. exists pl'. by rewrite Hsh'.
Qed.

Lemma wait_steady sh hs s e w :
  steady sh hs w -> event_at w (fun ev => (logic_dst_stream ev =? s)%nat) e = true ->
  (e < length (events w))%nat /\
  exists w', Event.WaitEvent s e w = Ok (if rtStreamWaitEvent e then SUCCESS else GRAPH_FAILED, w') /\ steady sh hs w'.
Proof.
  intros (pl & Hi & Hc & Hsh) Hat. destruct (event_at_shape w w (fun _ dst => (dst =? s)%nat) e eq_refl Hat) as (ev & He & Hs%Nat.eqb_eq).
  split; [by eapply lookup_lt_Some|]. destruct (rtStreamWaitEvent e) eqn:Er.
  - destruct (WaitEvent_spec n ltac:(lia) hs pl w e ev) as (pl' & w' & E & Hi' & Hc' & Hev'); try done.
    rewrite Hs in E. exists w'. split; [done|]. exists pl'. split_and!; [done|done|]. rewrite <- Hsh.
    unfold shape. rewrite Hev'. by apply (shape_event w e ev (set_space [] [] ev)).
  - exists w. split; [|by exists pl]. unfold Event.WaitEvent, must. erewrite bind_eq. 2: { unfold Event.CallRtsWaitEvent. by rewrite Er. }
    done.
Qed.

(** Every kernel's step returns, keeps the invariant and fails only where the
    memory pool or the runtime does. *)
Definition surely x : bool :=
  match x with
  | AMalloc _ _ | AShareTd _ _ | AMove _ _ => false
  | ASend _ ids | ALastSend ids => forallb aclrtRecordEvent ids
  | AWait _ ids | ALastWait ids => forallb rtStreamWaitEvent ids
  | _ => true
  end.

Definition stepped (sh : list (nat * nat)) x c : Prop :=
  exists st c', perform x c = Ok (st, c') /\ steady sh c'.1 c'.2 /\ zlen c'.1 <= zlen c.1 + 1 /\ reported (surely x) st.

Lemma held_block hs pl w i b s :
  inv hs pl w -> hs !! i = Some (b, s) ->
  exists k, blocks w !! b = Some k /\ pl !! b = Some PUse /\ (s < n)%nat /\ (b, s) ∈ hs.
Proof.
  intros Hi Hh%list_elem_of_lookup_2. pose proof (iv_blocks _ _ _ _ _ Hi) as Hbo.
  pose proof (bo_held _ _ _ _ Hbo b s Hh) as Hp. destruct (proj2 (bo_dom _ _ _ _ Hbo b)) as [k Hk]; [by rewrite Hp|].
  exists k. split_and!; try done. destruct (bo_block _ _ _ _ Hbo b k PUse Hk Hp) as [_ Hu]. by apply (us_streams _ _ _ _ Hu).
Qed.

Lemma held_index {A} (l : list A) i : (i <? length l)%nat = true -> exists y, l !! i = Some y.
Proof. intros Hi%Nat.ltb_lt. by apply lookup_lt_is_Some_2. Qed.

Lemma on_held {B} hs i b s (f : positive * nat -> outcome B) : hs !! i = Some (b, s) -> (y ← at_ hs i; f y) = f (b, s).
Proof. intros E. by rewrite (at_eq _ _ _ E). Qed.

(** A step that takes a block, or gets none. *)
Lemma stepped_took sh hs pl w s x r w' :
  calm pl -> shape w = sh -> surely x = false ->
  perform x (hs, w) = Ok (match r with Some b => (SUCCESS, ((b, s) :: hs, w')) | None => (GRAPH_FAILED, (hs, w')) end) ->
  match r with Some b => allocated n none hs w s b w' | None => inv hs pl w' /\ events w' = events w end ->
  stepped sh x (hs, w).
Proof.
  intros Hc Hsh Hx E Hr. unfold stepped, reported. rewrite Hx, E. destruct r as [b|].
  - destruct Hr as (pl' & k & m & Hi' & Hc' & _ & Ee & _). exists SUCCESS, ((b, s) :: hs, w').
    split_and!; [done| |unfold zlen; simpl; lia|done]. exists pl'. simpl. by rewrite (shape_same w w').
  - destruct Hr as [Hi' Ee]. exists GRAPH_FAILED, (hs, w'). split_and!; [done| |simpl; lia|done].
    exists pl. simpl. by rewrite (shape_same w w').
Qed.

Lemma allowed_malloc hs pl w s z :
  inv hs pl w -> allowed (AMalloc s z) (hs, w) = true ->
  (s < n)%nat /\ ((pool_Malloc s z (pool w)).1 = None -> forall a key, allocators w !! s = Some a ->
     Borrow.lower_bound z (size_to_borrow_block a) = Some key -> key = z).
Proof.
  simpl. intros Hi. rewrite (lo_len _ _ _ (iv_lists _ _ _ _ _ Hi)). intros [Hs%Nat.ltb_lt Hex]%andb_true_iff. split; [done|].
  intros En a key Ha Hlb. unfold lends_exactly in Hex. rewrite En, Ha, Hlb in Hex. by apply Z.eqb_eq.
Qed.

Lemma stepped_malloc sh hs w s z :
  steady sh hs w -> zlen hs + 1 < 2 ^ 64 -> allowed (AMalloc s z) (hs, w) = true -> stepped sh (AMalloc s z) (hs, w).
Proof.
  intros (pl & Hi & Hc & Hsh) Hlen Hal. destruct (allowed_malloc hs pl w s z Hi Hal) as [Hs Hex].
  destruct (Malloc_spec n none ltac:(lia) hs pl w s z Hi Hc Hs Hlen Hex) as (r & w' & E & Hr).
  apply (stepped_took sh hs pl w s _ r w'); try done; [simpl; by rewrite E|]. destruct r; [apply Hr|done].
Qed.

Lemma stepped_share_td sh hs w s td :
  steady sh hs w -> zlen hs + 1 < 2 ^ 64 -> (s < n)%nat -> stepped sh (AShareTd s td) (hs, w).
Proof.
  intros (pl & Hi & Hc & Hsh) Hlen Hs.
  destruct (ShareFromTensorData_spec n none ltac:(lia) hs pl w s td Hi Hc Hs Hlen) as (r & w' & E & Hr).
  apply (stepped_took sh hs pl w s _ r w'); try done. simpl. by rewrite E.
Qed.

(** A step after which the references are [hs']. *)
Lemma stepped_to sh hs hs' pl w x st w' :
  perform x (hs, w) = Ok (st, (hs', w')) -> inv hs' pl w' -> calm pl -> shape w' = sh -> zlen hs' <= zlen hs + 1 ->
  reported (surely x) st -> stepped sh x (hs, w).
Proof. intros E Hi Hc Hsh Hl Hst. exists st, (hs', w'). split_and!; try done. by exists pl. Qed.

Lemma stepped_held sh hs w x :
  steady sh hs w -> zlen hs + 1 < 2 ^ 64 -> allowed x (hs, w) = true ->
  match x with AShare _ | AWander _ _ | AFree _ | AMove _ _ | ARecycle _ => True | _ => False end -> stepped sh x (hs, w).
Proof.
  intros (pl & Hi & Hc & Hsh) Hlen Hal Hx. pose proof (lo_len _ _ _ (iv_lists _ _ _ _ _ Hi)) as Hl.
  destruct x as [| |i|i dst|i|s i|s| | | |]; try done; simpl in Hal.
  - apply held_index in Hal as [[b s] Hh]. destruct (held_block hs pl w i b s Hi Hh) as (k & Hk & Hp & Hs & Hin).
    destruct (AddCount_spec n none ltac:(lia) hs pl w b k s) as (c & w' & E & Hi' & Ee); try done.
    apply (stepped_to sh hs ((b, s) :: hs) pl w _ SUCCESS w'); try done; [|by rewrite (shape_same w w')|unfold zlen; simpl; lia].
    simpl. rewrite (on_held hs i b s _ Hh). by rewrite E.
  - apply andb_true_iff in Hal as [Hi0 Hd%Nat.ltb_lt]. rewrite Hl in Hd.
    apply held_index in Hi0 as [[b s] Hh]. destruct (held_block hs pl w i b s Hi Hh) as (k & Hk & Hp & Hs & Hin).
    destruct (NewAccessStream_spec n none ltac:(lia) hs pl w b k s dst) as (w' & E & Hi' & Ee); try done.
    apply (stepped_to sh hs ((b, dst) :: hs) pl w _ SUCCESS w'); try done; [|by rewrite (shape_same w w')|unfold zlen; simpl; lia].
    simpl. rewrite (on_held hs i b s _ Hh). by rewrite E.
  - apply held_index in Hal as [[b s] Hh]. destruct (held_block hs pl w i b s Hi Hh) as (k & Hk & Hp & Hs & Hin).
    destruct (Free_spec n none ltac:(lia) hs (delete i hs) pl w b k s) as (pl' & w' & E & Hi' & Ee & Hc'); try done.
    { by apply gives_up_delete. }
    { lia. }
    apply (stepped_to sh hs (delete i hs) pl' w _ SUCCESS w'); try done; [|by rewrite (shape_same w w')|].
    + simpl. rewrite (on_held hs i b s _ Hh). erewrite MemBlock_Free_eq; [done|exact Hk| |done|done].
      apply (bo_block _ _ _ _ (iv_blocks _ _ _ _ _ Hi) b k PUse Hk Hp).
    + unfold zlen. rewrite length_delete by done. lia.
  - apply andb_true_iff in Hal as [Hs'%Nat.ltb_lt Hi0]. rewrite Hl in Hs'.
    apply held_index in Hi0 as [[b t] Hh]. destruct (held_block hs pl w i b t Hi Hh) as (k & Hk & Hp & Hs & Hin).
    destruct (MoveL2ToL1_spec n none hs pl w s b k) as (st & w' & E & Hi' & Ee); try done.
    apply (stepped_to sh hs hs pl w _ st w'); try done; [|by rewrite (shape_same w w')|lia].
    simpl. rewrite (on_held hs i b t _ Hh). by rewrite E.
  - destruct (RecycleFreeMem_spec n none hs pl w s Hi) as (w' & E & Hi' & Ee & _).
    apply (stepped_to sh hs hs pl w _ SUCCESS w'); try done; [|by rewrite (shape_same w w')|lia].
    unfold perform. by rewrite E.
Qed.

Lemma stepped_events sh hs w x (m : W Status) (ok : bool) w' :
  perform x (hs, w) = ('(st, w) ← m w; Ok (st, (hs, w))) -> surely x = ok ->
  m w = Ok (if ok then SUCCESS else GRAPH_FAILED, w') -> steady sh hs w' -> stepped sh x (hs, w).
Proof.
  intros E Hok Em Hw'. exists (if ok then SUCCESS else GRAPH_FAILED), (hs, w'). rewrite E, Em, Hok.
  split_and!; [done|done|simpl; lia|by intros ->].
Qed.

Lemma in_forallb {A} (f : A -> bool) l y : forallb f l = true -> y ∈ l -> f y = true.
Proof. intros Hf Hy. rewrite forallb_forall in Hf. by apply Hf, list_elem_of_In. Qed.

Lemma in_events w e f : event_at w f e = true -> (e < length (events w))%nat.
Proof. unfold event_at. destruct (events w !! e) eqn:He; [|done]. intros _. by eapply lookup_lt_Some. Qed.

Lemma LastWait_steady sh hs w ids :
  steady sh hs w -> (forall e, e ∈ ids -> (e < length (events w))%nat) ->
  exists w', Event.LastWaitEvents (length (events w)) ids w = Ok (if forallb rtStreamWaitEvent ids then SUCCESS else GRAPH_FAILED, w') /\
    steady sh hs w'.
Proof.
  intros (pl & Hi & Hc & Hsh) Hids. destruct (forallb rtStreamWaitEvent ids) eqn:Eok.
  - destruct (LastWaitEvents_spec n ltac:(lia) hs pl w (length (events w)) ids) as (pl' & w' & E & Hi' & Hc' & Ee & _); try done; [lia|].
    exists w'. split; [done|]. exists pl'. by rewrite (shape_same w w').
  - exists w. split; [by apply LastWaitEvents_fails|by exists pl].
Qed.

Lemma stepped_rts sh hs w x :
  steady sh hs w -> allowed x (hs, w) = true ->
  match x with ASend _ _ | AWait _ _ | ALastSend _ | ALastWait _ => True | _ => False end -> stepped sh x (hs, w).
Proof.
  intros Hw Hal Hx. destruct x as [| | | | | | |s ids|s ids|ids|ids]; try done; simpl in Hal.
  - destruct (DoEvents_spec (Event.SendEvent s) aclrtRecordEvent sh hs ids w) as (w' & E & Hw'); [|done|by eapply stepped_events].
    intros e w1 He Hw1. apply send_steady; [done|]. pose proof (in_forallb _ _ e Hal He) as Hat.
    destruct Hw as (_ & _ & _ & Hsh), Hw1 as (_ & _ & _ & Hsh1).
    destruct (event_at_shape w w1 (fun src _ => (src =? s)%nat) e) as (ev & He' & Hs); [by rewrite Hsh1|done|].
    unfold event_at. by rewrite He'.
  - destruct (DoEvents_spec (Event.WaitEvent s) rtStreamWaitEvent sh hs ids w) as (w' & E & Hw'); [|done|by eapply stepped_events].
    intros e w1 He Hw1. apply wait_steady; [done|]. pose proof (in_forallb _ _ e Hal He) as Hat.
    destruct Hw as (_ & _ & _ & Hsh), Hw1 as (_ & _ & _ & Hsh1).
    destruct (event_at_shape w w1 (fun _ dst => (dst =? s)%nat) e) as (ev & He' & Hs); [by rewrite Hsh1|done|].
    unfold event_at. by rewrite He'.
  - eapply stepped_events; [done|done| |done]. apply DoEvents_rts; [done| |done].
    intros e He. eapply in_events, in_forallb; done.
  - destruct (LastWait_steady sh hs w ids Hw) as (w' & E & Hw'); [|by eapply stepped_events].
    intros e He. eapply in_events, in_forallb; done.
Qed.

Lemma perform_spec sh hs w x :
  steady sh hs w -> zlen hs + 1 < 2 ^ 64 -> allowed x (hs, w) = true -> stepped sh x (hs, w).
Proof.
  intros Hw Hlen Hal. destruct x; try (by apply stepped_held); try (by apply stepped_rts); [by apply stepped_malloc|].
  apply stepped_share_td; [done|done|]. destruct Hw as (pl & Hi & _). simpl in Hal.
  rewrite (lo_len _ _ _ (iv_lists _ _ _ _ _ Hi)) in Hal. by apply Nat.ltb_lt.
Qed.

Lemma serve_spec sh xs : forall hs w,
  steady sh hs w -> zlen hs + zlen xs < 2 ^ 64 -> orderly xs (hs, w) = true ->
  exists hs' w', serve_kernels xs (hs, w) = Ok (hs', w') /\ steady sh hs' w' /\ zlen hs' <= zlen hs + zlen xs.
Proof.
  induction xs as [|x xs IH]; intros hs w Hw Hlen Ho; cbn [serve_kernels].
  { exists hs, w. split_and!; try done. unfold zlen. simpl. lia. }
  assert (zlen (x :: xs) = 1 + zlen xs) as E by (unfold zlen; simpl; lia). pose proof (zlen_nonneg xs). rewrite E in *.
  cbn [orderly] in Ho. apply andb_true_iff in Ho as [Hal Ho].
  destruct (perform_spec sh hs w x) as (st & [hs1 w1] & E1 & Hw1 & Hl1 & _); [done|lia|done|]. rewrite E1 in *. cbn [fst snd] in Hw1, Hl1.
  destruct (IH hs1 w1) as (hs' & w' & E' & Hw' & Hl'); [done|lia|done|]. exists hs', w'. split_and!; try done. lia.
Qed.

(** ** The beginning *)

Definition infos_ok (infos : list (nat * nat)) : Prop :=
  Forall (fun i => (i.1 < n)%nat /\ (i.2 < n)%nat /\ i.1 <> i.2) infos.

Lemma lookup_events infos e ev :
  infos_ok infos -> Event.CreateGertEvents infos !! e = Some ev ->
  (logic_src_stream ev < n)%nat /\ (logic_dst_stream ev < n)%nat /\ logic_src_stream ev <> logic_dst_stream ev /\
  block_free_by_src_stream ev = [] /\ block_need_return_birth ev = [].
Proof.
  intros Hok He. unfold Event.CreateGertEvents in He. rewrite list_lookup_fmap in He.
  destruct (infos !! e) as [[src dst]|] eqn:Ei; [|done]. simpl in He. simplify_eq. simpl.
  destruct (Forall_lookup_1 _ _ _ _ Hok Ei) as (? & ? & ?). done.
Qed.

Lemma steady_start infos p :
  infos_ok infos -> pool_live p = ∅ -> steady infos (start n infos p).1 (start n infos p).2.
Proof.
  intros Hok Hp. exists ∅. split_and!; [split|by intros b q|].
  - split; simpl; try done.
    + intros b. by rewrite !lookup_empty.
    + intros b [k Hk]. by rewrite lookup_empty in Hk.
    + by intros b s ?%elem_of_nil.
    + intros m. rewrite Hp. split; [done|]. by intros (b & k & Hb & _).
  - split; simpl; try done.
    + apply length_replicate.
    + intros s a [-> _]%lookup_replicate. split; simpl.
      * split; [constructor|]. intros b. rewrite lookup_empty. by split; [intros ?%elem_of_nil|].
      * intros b z. rewrite !lookup_empty. simpl. by split; [intros ?%not_elem_of_empty|intros [? _]].
      * intros z Y. by rewrite lookup_empty.
      * intros b t. rewrite !lookup_empty. simpl. by split; [intros ?%not_elem_of_empty|intros [? _]].
    + intros e ev He. destruct (lookup_events infos e ev Hok He) as (H1 & H2 & H3 & H4 & H5). split; [done| |].
      * rewrite H5. split; [constructor|]. intros b. rewrite lookup_empty. by split; [intros ?%elem_of_nil|].
      * intros b. rewrite H5. by intros ?%elem_of_nil.
  - split; simpl.
    + intros s a en [-> _]%lookup_replicate. by intros ?%elem_of_nil.
    + intros e ev vb He. destruct (lookup_events infos e ev Hok He) as (_ & _ & _ & -> & _). by intros ?%elem_of_nil.
  - intros b k s t _ Hb. simpl in Hb. by rewrite lookup_empty in Hb.
  - unfold shape. simpl. unfold Event.CreateGertEvents. rewrite <- list_fmap_compose. rewrite <- (list_fmap_id infos) at 2.
    apply list_fmap_ext. by intros i [src dst] _.
Qed.

(** ** What the kernels can rely on *)

(** Every reference is to a block with memory of its own, which knows how many
    references each stream has. *)
Definition served c : Prop :=
  let '(hs, w) := c in
  (forall b s, (b, s) ∈ hs -> (s < n)%nat /\ exists k m, blocks w !! b = Some k /\ mem_block_ k = Some m /\
     m ∈ pool_live (pool w) /\ cnt k s = refs b s hs) /\
  (forall b b' s s' k k' m, (b, s) ∈ hs -> (b', s') ∈ hs -> blocks w !! b = Some k -> blocks w !! b' = Some k' ->
     mem_block_ k = Some m -> mem_block_ k' = Some m -> b = b').

Lemma steady_served sh hs w : steady sh hs w -> served (hs, w).
Proof.
  intros (pl & Hi & _). pose proof (iv_blocks _ _ _ _ _ Hi) as Hbo. split.
  - intros b s [i Hin]%list_elem_of_lookup. destruct (held_block hs pl w i b s Hi Hin) as (k & Hk & Hp & Hs & _). split; [done|].
    destruct (bo_block _ _ _ _ Hbo b k PUse Hk Hp) as [[[m Hm] _ _ _] Hu]. exists k, m. split_and!; try done.
    + apply (bo_live _ _ _ _ Hbo). by exists b, k.
    + by apply (us_count _ _ _ _ Hu).
  - intros b b' s s' k k' m _ _ Hk Hk' Hm Hm'. by apply (bo_apart _ _ _ _ Hbo b b' k k' m).
Qed.

(** A block taken is one nobody has, with the memory asked for. *)
Definition fresh_block hs w s (size : Z) c' : Prop :=
  exists b k m, c'.1 = (b, s) :: hs /\ unheld b hs /\ blocks c'.2 !! b = Some k /\ mem_block_ k = Some m /\
    size <= pool_GetSize m (pool c'.2).

Lemma malloc_fresh sh hs w s z c' :
  steady sh hs w -> zlen hs + 1 < 2 ^ 64 -> allowed (AMalloc s z) (hs, w) = true ->
  perform (AMalloc s z) (hs, w) = Ok (SUCCESS, c') -> fresh_block hs w s z c'.
Proof.
  intros (pl & Hi & Hc & Hsh) Hlen Hal. destruct (allowed_malloc hs pl w s z Hi Hal) as [Hs Hex].
  destruct (Malloc_spec n none ltac:(lia) hs pl w s z Hi Hc Hs Hlen Hex) as (r & w' & E & Hr).
  simpl. rewrite E. destruct r as [b|]; simpl; [|done]. intros [= <-].
  destruct Hr as [(pl' & k & m & _ & _ & Hun & _) (z' & (k' & m' & Hb & Hm & <-) & Hz)]. by exists b, k', m'.
Qed.
End reliable.

Section theorems.
Context `{HP : L2MemPool, HL : !L2Laws, HO : SetOrder, !OrderLaws, HR : Rts}.

(** C2: kernels on up to 63 streams allocate, share, wander to other streams, give
    up, move and recycle blocks they hold and exchange events of their streams, in
    any order in which no request is served by a larger lent block ([orderly]).
    They never run into a null or dangling pointer or an index out of range.  At any time every reference is to a block whose memory is in use
    and belongs to no other block that is held, and the block counts the
    references of every stream.  The next step fails only where the memory pool
    or the runtime fails, so no consistency check of the code is hit, and an
    allocation returns a block nobody holds, at least as large as asked for. *)
Theorem multi_stream_safe n infos p xs :
  (1 <= n <= 63)%nat -> infos_ok n infos -> pool_live p = ∅ -> zlen xs + 1 < 2 ^ 64 -> orderly xs (start n infos p) = true ->
  exists hs w, serve_kernels xs (start n infos p) = Ok (hs, w) /\ served n (hs, w) /\
    (forall x, allowed x (hs, w) = true -> exists st c', perform x (hs, w) = Ok (st, c') /\ served n c' /\
       (surely x = true -> st = SUCCESS)) /\
    (forall s size c', allowed (AMalloc s size) (hs, w) = true -> perform (AMalloc s size) (hs, w) = Ok (SUCCESS, c') ->
       fresh_block hs w s size c').
Proof.
  intros Hn Hok Hp Hlen Ho. destruct (serve_spec n Hn infos xs [] (start n infos p).2) as (hs & w & E & Hw & Hl).
  { by apply steady_start. }
  { unfold zlen at 1. simpl. lia. }
  { exact Ho. }
  change (zlen []) with 0 in Hl. exists hs, w. split_and!; [done|by eapply steady_served| |].
  - intros x Hal. destruct (perform_spec n Hn infos hs w x) as (st & [hs' w'] & Ex & Hw' & _ & Hst); [done|lia|done|].
    exists st, (hs', w'). split_and!; [done|by eapply steady_served|done].
  - intros s size c' Hal Ex. eapply malloc_fresh; [exact Hn|exact Hw|lia|exact Hal|exact Ex].
Qed.

(** C26: when the kernels hold nothing any more and no event carries blocks,
    waiting for the last events gives all the memory back: every block object
    is free and the memory pool has nothing in use, however the blocks have
    been shared, lent and recycled before, as long as no request was served by a
    larger lent block ([orderly]). *)
Theorem multi_stream_no_leak n infos p xs w ids :
  (1 <= n <= 63)%nat -> infos_ok n infos -> pool_live p = ∅ -> zlen xs < 2 ^ 64 -> orderly xs (start n infos p) = true ->
  serve_kernels xs (start n infos p) = Ok ([], w) ->
  (forall ev, ev ∈ events w -> block_free_by_src_stream ev = [] /\ block_need_return_birth ev = []) ->
  Forall (fun e => (e < length infos)%nat) ids -> forallb rtStreamWaitEvent ids = true ->
  exists w', Event.LastWaitEvents (length infos) ids w = Ok (SUCCESS, w') /\
    pool_live (pool w') = ∅ /\ forall b k, blocks w' !! b = Some k -> mem_block_ k = None.
Proof.
  intros Hn Hok Hp Hlen Ho E Hev Hids Hrt. destruct (serve_spec n Hn infos xs [] (start n infos p).2) as (hs & w1 & E1 & Hw & _).
  { by apply steady_start. }
  { unfold zlen at 1. simpl. lia. }
  { exact Ho. }
  assert ((hs, w1) = ([], w)) as [= -> ->] by (unfold start in *; simpl in E1; congruence).
  destruct Hw as (pl & Hi & Hc & Hsh).
  assert (El : length (events w) = length infos) by (rewrite <- Hsh; unfold shape; by rewrite length_map).
  rewrite Forall_forall in Hids.
  destruct (LastWaitEvents_spec n ltac:(lia) [] pl w (length infos) ids) as (pl' & w' & Ew & Hi' & Hc' & Ee & Hfin); try done.
  { lia. }
  { lia. }
  { intros e He. rewrite El. by apply Hids. }
  exists w'. split; [done|]. destruct (all_home n pl' w') as [H1 H2]; try done.
  intros e ev He. apply Hev. rewrite <- Ee. by eapply list_elem_of_lookup_2.
Qed.
End theorems.

(** * Runs of the multi-stream allocators

    A memory pool, a runtime and an iteration order that keep the promises of
    the interfaces, the theorems of [MemStreamClient] at a concrete sequence of
    kernels, and two sequences that go wrong. *)

Module RunsStream.

(** ** A pool of so many bytes *)

Record BytePool := MkBytePool { room : Z; sizes : gmap positive Z }.
Definition byte_Malloc (s : nat) (z : Z) (p : BytePool) : option positive * BytePool :=
  if z <=? room p then
    let m := fresh (dom (sizes p)) in (Some m, MkBytePool (room p - z) (<[m := z]> (sizes p)))
  else (None, p).
Definition byte_Share (s : nat) (td : Z) (p : BytePool) : option positive * BytePool :=
  let m := fresh (dom (sizes p)) in (Some m, MkBytePool (room p) (<[m := td]> (sizes p))).
Definition byte_GetSize (m : positive) (p : BytePool) : Z := default 0 (sizes p !! m).
Definition byte_Free (m : positive) (p : BytePool) : BytePool :=
  MkBytePool (room p + byte_GetSize m p) (delete m (sizes p)).
Definition byte_Move (s : nat) (m : positive) (p : BytePool) : option positive * BytePool :=
  let m' := fresh (dom (sizes p)) in
  (Some m', MkBytePool (room p) (<[m' := byte_GetSize m p]> (delete m (sizes p)))).

#[local] Instance byte_pool : L2MemPool := {|
  Pool := BytePool; pool_Malloc := byte_Malloc; pool_Share := byte_Share; pool_Free := byte_Free;
  pool_Recycle := fun _ p => p; pool_MoveL2ToL1 := byte_Move; pool_GetSize := byte_GetSize |}.

Lemma sizes_new (p : BytePool) r m z :
  m ∉ dom (sizes p) -> same_sizes (dom (sizes p)) p (MkBytePool r (<[m := z]> (sizes p))).
Proof. intros Hm m' Hm'. simpl. unfold byte_GetSize. simpl. rewrite lookup_insert_ne; [done|]. by intros ->. Qed.

#[local] Instance byte_laws : L2Laws.
Proof.
  refine {| pool_live := fun p : Pool => dom (sizes p) |}.
  - intros s z p. simpl. unfold byte_Malloc. destruct (Z.leb_spec z (room p)); [|done].
    pose proof (is_fresh (dom (sizes p))) as Hf. split_and!; [done|by simpl; rewrite dom_insert_L| |by apply sizes_new].
    simpl. unfold byte_GetSize. simpl. by rewrite lookup_insert_eq.
  - intros s td p. simpl. unfold byte_Share. pose proof (is_fresh (dom (sizes p))) as Hf.
    split_and!; [done|by simpl; rewrite dom_insert_L|by apply sizes_new].
  - intros m p Hm. split; [by simpl; rewrite dom_delete_L|]. intros m' [_ Hm']%elem_of_difference. simpl.
    unfold byte_GetSize. simpl. rewrite lookup_delete_ne; [done|]. intros ->. by apply Hm', elem_of_singleton.
  - done.
  - intros s m p Hm. simpl. unfold byte_Move. pose proof (is_fresh (dom (sizes p))) as Hf.
    split_and!; [set_solver|by simpl; rewrite dom_insert_L, dom_delete_L|].
    intros m' [Hin Hm']%elem_of_difference. simpl. unfold byte_GetSize. simpl.
    rewrite lookup_insert_ne by (intros <-; by apply Hf). rewrite lookup_delete_ne; [done|]. intros ->. by apply Hm', elem_of_singleton.
Defined.

#[local] Instance in_order : SetOrder := {| set_order := elements |}.
#[local] Instance in_order_laws : OrderLaws.
Proof. by split. Qed.

(** A runtime that always succeeds. *)
#[local] Instance fine : Rts := {| aclrtRecordEvent := fun _ => true; rtStreamWaitEvent := fun _ => true |}.

Definition bytes (room : Z) : BytePool := MkBytePool room ∅.

(** ** A block goes round *)

(** Events from 0 to 1, 1 to 0, 1 to 2 and 2 to 0. *)
Definition infos : list (nat * nat) := [(0, 1); (1, 0); (1, 2); (2, 0)]%nat.

(** 16 bytes are all there is.  The block of stream 0 goes to stream 1, is
    given up there last and lent; stream 1 takes it from its borrowed blocks,
    shares it with stream 2, both give it up, and an event takes it home. *)
Definition lending : list Action :=
  [AMalloc 0 16; AWander 0 1; AFree 1; ASend 0 [0%nat]; AWait 1 [0%nat]; AFree 0].
Definition round : list Action :=
  lending ++ [AMalloc 1 16; AShare 0; AWander 0 2; AFree 1; AFree 1; ASend 1 [2%nat]; AWait 2 [2%nat]; AFree 0;
              ASend 2 [3%nat]; AWait 0 [3%nat]; AMalloc 0 8; AMove 0 0].

Definition held_after (n : nat) (xs : list Action) : outcome (list nat * list (option (option positive))) :=
  '(hs, w) ← serve_kernels xs (start n infos (bytes 16));
  Ok (hs.*2, (fun h => mem_block_ <$> blocks w !! h.1) <$> hs).

Example lending_lends :
  (fun '(_, w) => (fun a => map_to_list (size_to_borrow_block a)) <$> allocators w) <$>
    match serve_kernels lending (start 3 infos (bytes 16)) with Ok c => Some c | _ => None end =
  Some [[]; [(16, {[ 1000%positive ]})]; []].
Proof. vm_compute. reflexivity. Qed.

Example round_held : held_after 3 round = Ok ([0%nat], [Some (Some 2%positive)]).
Proof. vm_compute. reflexivity. Qed.

Lemma round_orderly : orderly round (start 3 infos (bytes 16)) = true.
Proof. vm_compute. reflexivity. Qed.

Lemma multi_stream_safe_run :
  ((1 <= 3 <= 63)%nat /\ infos_ok 3 infos /\ pool_live (bytes 16) = ∅ /\ zlen round + 1 < 2 ^ 64 /\ orderly round (start 3 infos (bytes 16)) = true) /\
  exists hs w, serve_kernels round (start 3 infos (bytes 16)) = Ok (hs, w) /\ served 3 (hs, w) /\
    (forall x, allowed x (hs, w) = true -> exists st c', perform x (hs, w) = Ok (st, c') /\ served 3 c' /\
       (surely x = true -> st = SUCCESS)) /\
    (forall s size c', allowed (AMalloc s size) (hs, w) = true -> perform (AMalloc s size) (hs, w) = Ok (SUCCESS, c') ->
       fresh_block hs w s size c').
Proof.
  assert (H1 : (1 <= 3 <= 63)%nat) by lia.
  assert (H2 : infos_ok 3 infos) by (repeat constructor; simpl; lia).
  assert (H3 : pool_live (bytes 16) = ∅) by reflexivity.
  assert (H4 : zlen round + 1 < 2 ^ 64) by reflexivity.
  assert (H5 : orderly round (start 3 infos (bytes 16)) = true) by exact round_orderly.
  split; [exact (conj H1 (conj H2 (conj H3 (conj H4 H5))))|]. exact (multi_stream_safe 3 infos (bytes 16) round H1 H2 H3 H4 H5).
Defined.

(** The block is given up by all, some of it known to stream 0 only. *)
Definition done_with : list Action := round ++ [AWander 0 2; AFree 1; AFree 0].
Definition final : World _ :=
  match serve_kernels done_with (start 3 infos (bytes 16)) with Ok (_, w) => w | _ => (start 3 infos (bytes 16)).2 end.

Example memory_still_out : elements (pool_live (pool final)) = [2%positive].
Proof. vm_compute. reflexivity. Qed.

Lemma multi_stream_no_leak_run :
  (serve_kernels done_with (start 3 infos (bytes 16)) = Ok ([], final) /\ events final = Event.CreateGertEvents infos) /\
  exists w', Event.LastWaitEvents (length infos) [] final = Ok (SUCCESS, w') /\
    pool_live (pool w') = ∅ /\ forall b k, blocks w' !! b = Some k -> mem_block_ k = None.
Proof.
  assert (H : serve_kernels done_with (start 3 infos (bytes 16)) = Ok ([], final)) by (vm_compute; reflexivity).
  assert (He : events final = Event.CreateGertEvents infos) by (vm_compute; reflexivity).
  split; [by split|]. refine (multi_stream_no_leak 3 infos (bytes 16) done_with final [] _ _ _ _ _ H _ _ _).
  - lia.
  - repeat constructor; simpl; lia.
  - reflexivity.
  - reflexivity.
  - vm_compute. reflexivity.
  - rewrite He. apply Forall_forall. unfold Event.CreateGertEvents, infos. simpl. repeat constructor.
  - constructor.
  - reflexivity.
Defined.

(** ** Where it goes wrong *)

Definition after (infos : list (nat * nat)) (xs : list Action) : Kernels :=
  match serve_kernels xs (start 3 infos (bytes 16)) with Ok c => c | _ => start 3 infos (bytes 16) end.

(** A lent block of 16 bytes serves a request of 8: the set of blocks of 16
    bytes is empty now, but it is the one of 8 bytes that is erased.  The next
    request takes the first element of the empty set. *)
Example borrowing_leaves_an_empty_set :
  ('(st, c) ← perform (AMalloc 1 8) (after infos lending); Ok st) = Ok SUCCESS /\
  ('(_, c) ← perform (AMalloc 1 8) (after infos lending); '(st, _) ← perform (AMalloc 1 8) c; Ok st) = Fault.
Proof. split; vm_compute; reflexivity. Qed.

(** The streams whose giving up is ordered before what a stream does next: its
    own, and those its events had seen when they were sent. *)
Definition update {A} (i : nat) (v : A) (f : nat -> A) : nat -> A := fun j => if decide (j = i) then v else f j.
Fixpoint ordered (xs : list Action) (c : Kernels) (seen sent : nat -> list nat) : nat -> list nat :=
  match xs with
  | [] => seen
  | x :: xs =>
    let '(seen, sent) :=
      match x with
      | AFree i => match c.1 !! i with Some (_, s) => (update s (s :: seen s) seen, sent) | None => (seen, sent) end
      | ASend s es => (seen, foldr (fun e => update e (seen s)) sent es)
      | AWait s es => (update s (mjoin (sent <$> es) ++ seen s) seen, sent)
      | _ => (seen, sent)
      end in
    match perform x c with Ok (_, c) => ordered xs c seen sent | _ => seen end
  end.

(** Streams 1 and 2 use a block of stream 0.  Stream 1 gives it up and sends to
    0; stream 2 gives it up and sends to 1, which waits for it; then 0 waits
    for the event of 1.  The bits stream 1 has learnt after it sent count, and
    the memory goes back although nothing orders it behind stream 2's use. *)
Definition overtaken : list Action :=
  [AMalloc 0 16; AWander 0 1; AWander 1 2; AFree 2; AFree 1; ASend 1 [0%nat]; AFree 0; ASend 2 [1%nat]; AWait 1 [1%nat]; AWait 0 [0%nat]].

Example recycled_while_in_use :
  let c := start 3 [(1, 0); (2, 1)]%nat (bytes 16) in
  elements (pool_live (pool (after [(1, 0); (2, 1)]%nat overtaken).2)) = [] /\
  ordered overtaken c (fun _ => []) (fun _ => []) 0%nat = [1; 0]%nat.
Proof. split; vm_compute; reflexivity. Qed.
End RunsStream.
