(* ===== verification/NumBits.v ===== *)
(** * NumBits: loops and bits of machine integers

    The [while] loops of the number formats, with the lemma that runs them on a
    measure, and shifts, masks and wraps as arithmetic. *)

From S2P Require Import Prelude.

(** ** Unsigned types *)

Definition u8 (v : Z) : Z := uwrap 8 v.
Definition u16 (v : Z) : Z := uwrap 16 v.
Definition u32 (v : Z) : Z := uwrap 32 v.
Definition u64 (v : Z) : Z := uwrap 64 v.

(** [x << n] in an unsigned type, [~x] and negation follow from the wrap. *)
Definition shl (w x n : Z) : Z := uwrap w (Z.shiftl x n).

(** ** While loops *)

(** A loop that does not end within its fuel has no continuation. *)
Fixpoint while {A} (fuel : nat) (cond : A -> bool) (body : A -> A) (s : A) : outcome A :=
  match fuel with
  | O => Fault
  | S fuel => if cond s then while fuel cond body (body s) else Ok s
  end.

(** An invariant and a measure below the fuel. *)
Lemma wp_while {A} (I : A -> Prop) (mu : A -> Z) cond body (P : A -> Prop) fuel s :
  I s -> mu s < Z.of_nat fuel ->
  (forall s, I s -> cond s = true -> I (body s) /\ 0 <= mu (body s) < mu s) ->
  (forall s, I s -> cond s = false -> P s) ->
  (0 < fuel)%nat ->
  wp (while fuel cond body s) P.
Proof.
  intros Hs Hmu Hstep Hend. revert s Hs Hmu. induction fuel as [|fuel IH]; intros s Hs Hmu Hf; [lia|]. simpl.
  destruct (cond s) eqn:E; [|by apply Hend]. destruct (Hstep s Hs E) as [Hi Hm].
  apply IH; [done|lia|lia].
Qed.

(** ** Bits as arithmetic *)

Lemma land_ones_mod x n : 0 <= n -> Z.land x (Z.ones n) = x mod 2 ^ n.
Proof. apply Z.land_ones. Qed.

(** A single bit under a mask. *)
Lemma land_pow2 x n : 0 <= n -> Z.land x (2 ^ n) = 2 ^ n * ((x / 2 ^ n) mod 2).
Proof.
  intros Hn. assert (Hb : Z.b2z (Z.testbit x n) = (x / 2 ^ n) mod 2) by (by apply Z.testbit_spec').
  rewrite <- Hb. apply Z.bits_inj'. intros i Hi. rewrite Z.land_spec, Z.pow2_bits_eqb by done.
  rewrite (Z.mul_comm (2 ^ n)), Z.mul_pow2_bits by done. destruct (Z.eqb_spec n i) as [->|Hne].
  - rewrite Z.sub_diag, andb_true_r. by destruct (Z.testbit x i).
  - rewrite andb_false_r. destruct (decide (i < n)); [by rewrite Z.testbit_neg_r by lia|].
    destruct (Z.testbit x n); simpl; [|by rewrite Z.bits_0]. symmetry.
    apply (Z.bits_above_log2 1); [lia|]. change (Z.log2 1) with 0. lia.
Qed.

(** A disjoint or is a sum. *)
Lemma lor_low a b n : 0 <= n -> 0 <= b < 2 ^ n -> Z.lor (a * 2 ^ n) b = a * 2 ^ n + b.
Proof.
  intros Hn Hb. assert (H0 : Z.land (a * 2 ^ n) b = 0).
  { apply Z.bits_inj'. intros i Hi. rewrite Z.land_spec, Z.mul_pow2_bits, Z.bits_0 by done.
    destruct (decide (i < n)); [by rewrite Z.testbit_neg_r by lia|]. rewrite andb_comm.
    rewrite <- (Z.mod_small b (2 ^ n)) by done. by rewrite Z.mod_pow2_bits_high by lia. }
  rewrite <- Z.lxor_lor by done. symmetry. by apply Z.add_nocarry_lxor.
Qed.

(** A field of [n] bits at position [k]. *)
Lemma land_field x n k : 0 <= n -> 0 <= k -> Z.land x (Z.ones n * 2 ^ k) = (x / 2 ^ k mod 2 ^ n) * 2 ^ k.
Proof.
  intros Hn Hk. apply Z.bits_inj'. intros i Hi. rewrite Z.land_spec, !Z.mul_pow2_bits by done.
  destruct (decide (i < k)); [by rewrite !(Z.testbit_neg_r _ (i - k)), andb_false_r by lia|].
  rewrite <- Z.land_ones, Z.land_spec, <- Z.shiftr_div_pow2, Z.shiftr_spec by lia. by rewrite Z.sub_add.
Qed.

Lemma shiftr_div x n : 0 <= n -> Z.shiftr x n = x / 2 ^ n.
Proof. apply Z.shiftr_div_pow2. Qed.
Lemma shiftl_mul x n : 0 <= n -> Z.shiftl x n = x * 2 ^ n.
Proof. apply Z.shiftl_mul_pow2. Qed.

Lemma uwrap_small w v : 0 <= v < 2 ^ w -> uwrap w v = v.
Proof. apply Z.mod_small. Qed.
