(* ===== verification/NumFp16.v ===== *)
(** * NumFp16: half precision floats in software

    [base/common/fp16_t]: [fp16_t.h] and [fp16_t.cc].  A half is its 16 bits;
    a [float] or a [double] is its 32 or 64 bits, which is all the source looks
    at.  Every function computes in the integer types of the source; loops are
    [while] with the fuel [loop_fuel]. *)

From S2P Require Import Prelude NumBits.

(** ** Parameters of the formats *)

Definition kFp16ExpBias := 15.
Definition kFp16ManLen := 10.
Definition kFp16SignIndex := 15.
Definition kFp16SignMask := 0x8000.
Definition kFp16ExpMask := 0x7C00.
Definition kFp16ManMask := 0x3FF.
Definition kFp16ManHideBit := 0x400.
Definition kFp16Max := 0x7BFF.
Definition kFp16AbsMax := 0x7FFF.
Definition kFp16MaxExp := 0x1F.
Definition kFp16MaxMan := 0x3FF.
Definition kFp32ExpBias := 127.
Definition kFp32ManLen := 23.
Definition kFp32SignIndex := 31.
Definition kFp32SignMask := 0x80000000.
Definition kFp32ExpMask := 0x7F800000.
Definition kFp32ManMask := 0x7FFFFF.
Definition kFp32ManHideBit := 0x800000.
Definition kFp32AbsMax := 0x7FFFFFFF.
Definition kFp64ExpBias := 1023.
Definition kFp64ManLen := 52.
Definition kFp64SignIndex := 63.
Definition kFp64SignMask := 0x8000000000000000.
Definition kFp64ExpMask := 0x7FF0000000000000.
Definition kFp64ManMask := 0xFFFFFFFFFFFFF.
Definition kFp64ManHideBit := 0x10000000000000.
Definition kInt8Max := 0x7F.
Definition kInt16Max := 0x7FFF.
Definition kBitLen8Max := 0xFF.
Definition kBitLen16Max := 0xFFFF.
Definition kBitLen32Max := 0xFFFFFFFF.

(** No loop of the library takes more turns. *)
Definition loop_fuel : nat := 64.

(** ** Taking halves apart *)

Definition Fp16ExtracSign (x : Z) : Z := Z.land (Z.shiftr x 15) 1.
Definition Fp16ExtracExp (x : Z) : Z := Z.land (Z.shiftr x 10) kFp16MaxExp.
Definition Fp16ExtracMan (x : Z) : Z :=
  let result := if 0 <? Z.land (Z.shiftr x 10) 0x1F then 1 else 0 in
  u16 (Z.lor (Z.land (Z.shiftr x 0) 0x3FF) (result * 0x400)).
Definition Fp16Constructor (s e m : Z) : Z :=
  Z.lor (Z.lor (shl 16 s kFp16SignIndex) (shl 16 e kFp16ManLen)) (Z.land m kFp16MaxMan).
Definition Fp16IsZero (x : Z) : bool := Z.land x kFp16AbsMax =? 0.
Definition Fp16IsDenorm (x : Z) : bool := Z.land x kFp16ExpMask =? 0.
Definition Fp16IsInvalid (x : Z) : bool := Z.land x kFp16ExpMask =? kFp16ExpMask.
Definition Fp32Constructor (s e m : Z) : Z :=
  Z.lor (Z.lor (shl 32 s kFp32SignIndex) (shl 32 e kFp32ManLen)) (Z.land m 0x7FFFFF).

(** ** Mantissas of [w] bits *)

Definition ReverseMan (w : Z) (negative : bool) (man : Z) : Z :=
  if negative then uwrap w (uwrap w (Z.lnot man) + 1) else man.
(** The sign bit stays where it is. *)
Definition RightShift (w man shift : Z) : Z :=
  Nat.iter (Z.to_nat shift) (fun man => Z.lor (Z.land man (2 ^ (w - 1))) (Z.shiftr man 1)) man.
Definition GetManSum (w e_a m_a e_b m_b : Z) : Z :=
  if negb (e_a =? e_b) then
    let e_tmp := Z.abs (e_a - e_b) in
    if e_b <? e_a then uwrap w (m_a + RightShift w m_b e_tmp)
    else uwrap w (RightShift w m_a e_tmp + m_b)
  else uwrap w (m_a + m_b).
Definition ManRoundToNearest (w : Z) (bit0 bit1 bitLeft : bool) (man shift : Z) : Z :=
  let mark := if bit1 && (bitLeft || bit0) then 1 else 0 in
  uwrap w (u32 (Z.shiftr man shift) + mark).
Definition GetManBitLength (man : Z) : outcome Z :=
  '(man, len) ← while loop_fuel (fun '(man, len) => negb (man =? 0)) (fun '(man, len) => (Z.shiftr man 1, len + 1)) (man, 0);
  Ok len.

(** [g_round_mode] is [kRoundToNearest]. *)
Definition ExtractFp16 (val : Z) : Z * Z * Z :=
  let e := Fp16ExtracExp val in
  (Fp16ExtracSign val, if e =? 0 then 1 else e, Fp16ExtracMan val).

Definition Fp16IsRoundOne (man trunc_len : Z) : bool :=
  let shift_out := u16 (trunc_len - 2) in
  let mask0 := shl 64 4 shift_out in
  let mask1 := shl 64 2 shift_out in
  let mask2 := mask1 - 1 in
  let last_bit := 0 <? Z.land man mask0 in
  let trunc_high := 0 <? Z.land man mask1 in
  let trunc_left := 0 <? Z.land man mask2 in
  trunc_high && (trunc_left || last_bit).

Definition Fp16NormalizeVal (exp_val man : Z) : Z * Z :=
  if kFp16MaxExp <=? exp_val then (kFp16MaxExp, kFp16MaxMan)
  else if (exp_val =? 0) && (man =? kFp16ManHideBit) then (exp_val + 1, 0)
  else (exp_val, man).

(** ** To [float] and [double] *)

(** The loop that moves a denormal's leading one to the hidden bit. *)
Definition normalize_man (hf_exp hf_man : Z) : outcome (Z * Z) :=
  while loop_fuel (fun '(e, m) => negb (m =? 0) && (Z.land m kFp16ManHideBit =? 0)) (fun '(e, m) => (e - 1, shl 16 m 1))
    (hf_exp, hf_man).

Definition Fp16ToFloatVal (fp_val : Z) : outcome Z :=
  let '(hf_sign, hf_exp, hf_man) := ExtractFp16 fp_val in
  '(hf_exp, hf_man) ← normalize_man hf_exp hf_man;
  let '(e_ret, m_ret) :=
    if hf_man =? 0 then (0, 0)
    else (u32 (u32 (u32 hf_exp - kFp16ExpBias) + kFp32ExpBias),
          shl 32 (Z.land hf_man kFp16ManMask) (kFp32ManLen - kFp16ManLen)) in
  Ok (Fp32Constructor hf_sign e_ret m_ret).

Definition Fp16ToDouble (fp_val : Z) : outcome Z :=
  let '(hf_sign, hf_exp, hf_man) := ExtractFp16 fp_val in
  '(hf_exp, hf_man) ← normalize_man hf_exp hf_man;
  let '(e_ret, m_ret) :=
    if hf_man =? 0 then (0, 0)
    else (u64 (u64 (u64 hf_exp - kFp16ExpBias) + kFp64ExpBias),
          shl 64 (Z.land hf_man kFp16ManMask) (kFp64ManLen - kFp16ManLen)) in
  Ok (Z.lor (Z.lor (shl 64 hf_sign kFp64SignIndex) (shl 64 e_ret kFp64ManLen)) m_ret).

(** ** To integers *)

Record Scaled := MkScaled { hf_e : Z; long_int_m : Z; shift_out : Z; overflow_flag : bool }.

(** [while (hf_e != kFp16ExpBias)]: [over] is the test after a left shift, with
    the value the mantissa is cut to before the loop is left. *)
Definition scale (over : Z -> option Z) (e m : Z) : outcome Scaled :=
  while loop_fuel (fun s => negb (overflow_flag s) && negb (hf_e s =? kFp16ExpBias))
    (fun s => if kFp16ExpBias <? hf_e s then
                let m := shl 64 (long_int_m s) 1 in
                match over m with
                | Some cut => MkScaled (hf_e s - 1) cut (shift_out s) true
                | None => MkScaled (hf_e s - 1) m (shift_out s) false
                end
              else MkScaled (hf_e s + 1) (long_int_m s) (shift_out s + 1) false)
    (MkScaled e m 0 false).
Definition never (m : Z) : option Z := None.

Definition GetUint8ValByMan (s_ret long_int_m shift_out : Z) : Z :=
  let need_round := Fp16IsRoundOne long_int_m (shift_out + kFp16ManLen) in
  let m_ret := Z.land (Z.shiftr long_int_m (kFp16ManLen + shift_out)) kBitLen8Max in
  let need_round := need_round && (((s_ret =? 0) && (m_ret <? kInt8Max)) || ((s_ret =? 1) && (m_ret <=? kInt8Max))) in
  let m_ret := if need_round then u8 (m_ret + 1) else m_ret in
  let m_ret := if negb (s_ret =? 0) then u8 (u8 (Z.lnot m_ret) + 1) else m_ret in
  let s_ret := if m_ret =? 0 then 0 else s_ret in
  Z.lor (shl 8 s_ret 7) m_ret.

Definition Fp16ToInt8 (fp_val : Z) : outcome Z :=
  let s_ret := Fp16ExtracSign fp_val in
  if Fp16IsDenorm fp_val then Ok 0 else
  let over m :=
    if (s_ret =? 1) && (0x20000 <=? m) then Some 0x20000
    else if negb (s_ret =? 1) && (0x1FFFF <=? m) then Some 0x1FFFF else None in
  s ← (if Fp16IsInvalid fp_val then Ok (MkScaled (Fp16ExtracExp fp_val) (Fp16ExtracMan fp_val) 0 true)
       else scale over (Fp16ExtracExp fp_val) (Fp16ExtracMan fp_val));
  let ret_v := if overflow_flag s then u8 (kInt8Max + s_ret)
               else GetUint8ValByMan s_ret (long_int_m s) (shift_out s) in
  Ok (swrap 8 ret_v).

Definition Fp16ToUInt8 (fp_val : Z) : outcome Z :=
  let s_ret := Fp16ExtracSign fp_val in
  if Fp16IsDenorm fp_val then Ok 0 else
  m_ret ← (if Fp16IsInvalid fp_val then Ok kBitLen8Max else
           s ← scale (fun m => if 0x40000 <=? m then Some 0x3FFFF else None) (Fp16ExtracExp fp_val) (Fp16ExtracMan fp_val);
           Ok (if overflow_flag s then kBitLen8Max else
               let need_round := Fp16IsRoundOne (long_int_m s) (shift_out s + kFp16ManLen) in
               let m_ret := Z.land (Z.shiftr (long_int_m s) (kFp16ManLen + shift_out s)) kBitLen8Max in
               if need_round && negb (m_ret =? kBitLen8Max) then m_ret + 1 else m_ret));
  Ok (if s_ret =? 1 then 0 else m_ret).

Definition GetUint16ValByMan (s_ret long_int_m shift_out : Z) : Z :=
  let need_round := Fp16IsRoundOne long_int_m (shift_out + kFp16ManLen) in
  let m_ret := Z.land (Z.shiftr long_int_m (kFp16ManLen + shift_out)) kBitLen16Max in
  let m_ret := if need_round && (m_ret <? kInt16Max) then u16 (m_ret + 1) else m_ret in
  let m_ret := if negb (s_ret =? 0) then u16 (u16 (Z.lnot m_ret) + 1) else m_ret in
  let s_ret := if m_ret =? 0 then 0 else s_ret in
  Z.lor (shl 16 s_ret 15) m_ret.

Definition Fp16ToInt16 (fp_val : Z) : outcome Z :=
  let s_ret := Fp16ExtracSign fp_val in
  if Fp16IsDenorm fp_val then Ok 0 else
  let over m :=
    if (s_ret =? 1) && (0x2000000 <? m) then Some 0x2000000
    else if negb (s_ret =? 1) && (0x1FFFFFF <=? m) then Some 0x1FFFFFF else None in
  s ← (if Fp16IsInvalid fp_val then Ok (MkScaled (Fp16ExtracExp fp_val) (Fp16ExtracMan fp_val) 0 true)
       else scale over (Fp16ExtracExp fp_val) (Fp16ExtracMan fp_val));
  let ret_v := if overflow_flag s then u16 (kInt16Max + s_ret)
               else GetUint16ValByMan s_ret (long_int_m s) (shift_out s) in
  Ok (swrap 16 ret_v).

Definition Fp16ToUInt16 (fp_val : Z) : outcome Z :=
  let s_ret := Fp16ExtracSign fp_val in
  if Fp16IsDenorm fp_val then Ok 0 else
  m_ret ← (if Fp16IsInvalid fp_val then Ok kBitLen8Max else
           s ← scale never (Fp16ExtracExp fp_val) (Fp16ExtracMan fp_val);
           let need_round := Fp16IsRoundOne (long_int_m s) (shift_out s + kFp16ManLen) in
           let m_ret := Z.land (Z.shiftr (long_int_m s) (kFp16ManLen + shift_out s)) kBitLen16Max in
           Ok (if need_round && negb (m_ret =? kBitLen16Max) then m_ret + 1 else m_ret));
  Ok (if s_ret =? 1 then 0 else m_ret).

Definition Fp16ToInt32 (fp_val : Z) : outcome Z :=
  let s_ret := Fp16ExtracSign fp_val in
  ret_v ← (if Fp16IsInvalid fp_val then Ok (u32 (s_ret + 0x7FFFFFFF)) else
           s ← scale never (Fp16ExtracExp fp_val) (Fp16ExtracMan fp_val);
           let need_round := Fp16IsRoundOne (long_int_m s) (shift_out s + kFp16ManLen) in
           let m_ret := Z.land (Z.shiftr (long_int_m s) (kFp16ManLen + shift_out s)) kBitLen32Max in
           let m_ret := if need_round && (m_ret <? 0x7FFFFFFF) then m_ret + 1 else m_ret in
           let m_ret := if s_ret =? 1 then u32 (u32 (Z.lnot m_ret) + 1) else m_ret in
           let s_ret := if m_ret =? 0 then 0 else s_ret in
           Ok (Z.lor (shl 32 s_ret 31) m_ret));
  Ok (swrap 32 ret_v).

Definition Fp16ToUInt32 (fp_val : Z) : outcome Z :=
  let s_ret := Fp16ExtracSign fp_val in
  if Fp16IsDenorm fp_val then Ok 0 else
  m_ret ← (if Fp16IsInvalid fp_val then Ok kBitLen8Max else
           s ← scale never (Fp16ExtracExp fp_val) (Fp16ExtracMan fp_val);
           let need_round := Fp16IsRoundOne (long_int_m s) (shift_out s + kFp16ManLen) in
           let m_ret := Z.land (u32 (Z.shiftr (long_int_m s) (kFp16ManLen + shift_out s))) kBitLen32Max in
           Ok (if need_round && negb (m_ret =? kBitLen32Max) then m_ret + 1 else m_ret));
  Ok (if s_ret =? 1 then 0 else m_ret).

(** ** Arithmetic *)

(** The bits cut off a mantissa, left aligned in 32 bits. *)
Definition trunc_high (m_trunc : Z) : bool := 0 <? Z.land m_trunc kFp32SignMask.
Definition trunc_left (m_trunc : Z) : bool := 0 <? Z.land m_trunc kFp32AbsMax.
(** One bit moves from the mantissa to the bits cut off. *)
Definition cut_bit (m m_trunc : Z) : Z := Z.lor (Z.shiftr m_trunc 1) (kFp32SignMask * Z.land m 1).

Definition Fp16AddCalVal (s_ret e_ret m_ret m_trunc shift_out : Z) : outcome Z :=
  let m_min := shl 16 kFp16ManHideBit shift_out in
  let m_max := shl 16 m_min 1 in
  '(e_ret, m_ret, m_trunc) ← while loop_fuel (fun '(e, m, t) => (m <? m_min) && (0 <? e))
    (fun '(e, m, t) => (e - 1, u16 (shl 16 m 1 + Z.shiftr (Z.land kFp32SignMask t) kFp32SignIndex), shl 32 t 1))
    (e_ret, m_ret, m_trunc);
  '(e_ret, m_ret, m_trunc) ← while loop_fuel (fun '(e, m, t) => m_max <=? m)
    (fun '(e, m, t) => (e + 1, Z.shiftr m 1, cut_bit m t)) (e_ret, m_ret, m_trunc);
  let b_last_bit := 0 <? Z.land m_ret 1 in
  let m_ret := ManRoundToNearest 16 b_last_bit (trunc_high m_trunc) (trunc_left m_trunc) m_ret shift_out in
  '(e_ret, m_ret) ← while loop_fuel (fun '(e, m) => m_max <=? m) (fun '(e, m) => (e + 1, Z.shiftr m 1)) (e_ret, m_ret);
  let m_ret := if (e_ret =? 0) && (m_ret <=? m_max) then Z.shiftr m_ret 1 else m_ret in
  let '(e_ret, m_ret) := Fp16NormalizeVal e_ret m_ret in
  Ok (Fp16Constructor s_ret (u16 e_ret) m_ret).

Definition Fp16Add (v_1 v_2 : Z) : outcome Z :=
  let '(s_a, e_a, m_a) := ExtractFp16 v_1 in
  let '(s_b, e_b, m_b) := ExtractFp16 v_2 in
  let '(sum, s_ret, m_a, m_b) :=
    if negb (s_a =? s_b) then
      let m_a := ReverseMan 32 (0 <? s_a) m_a in
      let m_b := ReverseMan 32 (0 <? s_b) m_b in
      let sum := u16 (GetManSum 32 e_a m_a e_b m_b) in
      let s_ret := Z.shiftr (Z.land sum kFp16SignMask) kFp16SignIndex in
      (sum, s_ret, ReverseMan 32 (0 <? s_ret) m_a, ReverseMan 32 (0 <? s_ret) m_b)
    else (u16 (GetManSum 32 e_a m_a e_b m_b), s_a, m_a, m_b) in
  let '(shift_out, m_a, m_b) := if sum =? 0 then (3, shl 32 m_a 3, shl 32 m_b 3) else (0, m_a, m_b) in
  let e_ret := Z.max e_a e_b in
  let e_tmp := Z.abs (e_a - e_b) in
  let '(m_trunc, m_a, m_b) :=
    if e_b <? e_a then (shl 32 m_b (32 - e_tmp), m_a, RightShift 32 m_b e_tmp)
    else if e_a <? e_b then (shl 32 m_a (32 - e_tmp), RightShift 32 m_a e_tmp, m_b)
    else (0, m_a, m_b) in
  Fp16AddCalVal s_ret e_ret (u16 (m_a + m_b)) m_trunc shift_out.

Definition Fp16Sub (v_1 v_2 : Z) : outcome Z :=
  let tmp := Z.lor (Z.land (u16 (Z.lnot v_2)) kFp16SignMask) (Z.land v_2 kFp16AbsMax) in
  Fp16Add v_1 tmp.

Definition Fp16Mul (v_1 v_2 : Z) : outcome Z :=
  let '(s_a, e_a, m_a) := ExtractFp16 v_1 in
  let '(s_b, e_b, m_b) := ExtractFp16 v_2 in
  let e_ret := e_a + e_b - kFp16ExpBias - 10 in
  let mul_m := u32 (m_a * m_b) in
  let s_ret := Z.lxor s_a s_b in
  let m_min := kFp16ManHideBit in
  let m_max := shl 16 m_min 1 in
  '(e_ret, mul_m) ← while loop_fuel (fun '(e, m) => (m <? m_min) && (1 <? e)) (fun '(e, m) => (e - 1, shl 32 m 1)) (e_ret, mul_m);
  '(e_ret, mul_m, m_trunc) ← while loop_fuel (fun '(e, m, t) => (m_max <=? m) || (e <? 1))
    (fun '(e, m, t) => (e + 1, Z.shiftr m 1, cut_bit m t)) (e_ret, mul_m, 0);
  let b_last_bit := 0 <? Z.land mul_m 1 in
  let mul_m := ManRoundToNearest 32 b_last_bit (trunc_high m_trunc) (trunc_left m_trunc) mul_m 0 in
  '(e_ret, mul_m) ← while loop_fuel (fun '(e, m) => (m_max <=? m) || (e <? 0)) (fun '(e, m) => (e + 1, Z.shiftr m 1)) (e_ret, mul_m);
  let e_ret := if (e_ret =? 1) && (mul_m <? kFp16ManHideBit) then 0 else e_ret in
  let '(e_ret, m_ret) := Fp16NormalizeVal e_ret (u16 mul_m) in
  Ok (Fp16Constructor s_ret (u16 e_ret) m_ret).

(** ** Comparison *)

Definition fp16_eq (lhs rhs : Z) : bool :=
  if Fp16IsZero lhs && Fp16IsZero rhs then true
  else Z.land lhs kBitLen16Max =? Z.land rhs kBitLen16Max.

Definition fp16_gt (lhs rhs : Z) : bool :=
  let '(s_a, s_b) := (Fp16ExtracSign lhs, Fp16ExtracSign rhs) in
  let '(e_a, e_b) := (Fp16ExtracExp lhs, Fp16ExtracExp rhs) in
  let '(m_a, m_b) := (Fp16ExtracMan lhs, Fp16ExtracMan rhs) in
  if (s_a =? 0) && (0 <? s_b) then negb (Fp16IsZero lhs && Fp16IsZero rhs)
  else if (s_a =? 0) && (s_b =? 0) then
    if e_b <? e_a then true else if e_a =? e_b then m_b <? m_a else false
  else if (0 <? s_a) && (0 <? s_b) then
    if e_a <? e_b then true else if e_a =? e_b then m_a <? m_b else false
  else false.

Definition fp16_ge (lhs rhs : Z) : bool := if fp16_gt lhs rhs then true else if fp16_eq lhs rhs then true else false.
Definition fp16_le (lhs rhs : Z) : bool := if fp16_gt lhs rhs then false else true.

(** ** From [float], [double] and [int32_t] *)

Definition of_float (f_val : Z) : Z :=
  let s_ret := Z.shiftr (Z.land f_val kFp32SignMask) kFp32SignIndex in
  let e_f := Z.shiftr (Z.land f_val kFp32ExpMask) kFp32ManLen in
  let m_f := Z.land f_val kFp32ManMask in
  let m_len_delta := kFp32ManLen - kFp16ManLen in
  let '(e_ret, m_ret) :=
    if 0x8F <? e_f then (kFp16MaxExp - 1, kFp16MaxMan)
    else if e_f <=? 0x70 then
      (0, if 0x67 <=? e_f then
            let m_f := Z.lor m_f kFp32ManHideBit in
            let m_tmp := shl 64 m_f (e_f - 0x67) in
            let need_round := Fp16IsRoundOne m_tmp kFp32ManLen in
            let m_ret := u16 (Z.shiftr m_tmp kFp32ManLen) in
            if need_round then u16 (m_ret + 1) else m_ret
          else if (e_f =? 0x66) && (0 <? m_f) then 1 else 0)
    else
      let e_ret := e_f - 0x70 in
      let need_round := Fp16IsRoundOne m_f m_len_delta in
      let m_ret := u16 (Z.shiftr m_f m_len_delta) in
      let m_ret := if need_round then u16 (m_ret + 1) else m_ret in
      (if negb (Z.land m_ret kFp16ManHideBit =? 0) then e_ret + 1 else e_ret, m_ret) in
  let '(e_ret, m_ret) := Fp16NormalizeVal e_ret m_ret in
  Fp16Constructor s_ret (u16 e_ret) m_ret.

Definition of_double (d_val : Z) : Z :=
  let s_ret := Z.shiftr (Z.land d_val kFp64SignMask) kFp64SignIndex in
  let e_d := Z.shiftr (Z.land d_val kFp64ExpMask) kFp64ManLen in
  let m_d := Z.land d_val kFp64ManMask in
  let m_len_delta := kFp64ManLen - kFp16ManLen in
  let '(e_ret, m_ret) :=
    if 0x410 <=? e_d then (kFp16MaxExp - 1, kFp16MaxMan)
    else if e_d <=? 0x3F0 then
      (0, if 0x3E7 <=? e_d then
            let m_d := Z.lor kFp64ManHideBit m_d in
            let m_tmp := shl 64 m_d (e_d - 0x3E7) in
            let need_round := Fp16IsRoundOne m_tmp kFp64ManLen in
            let m_ret := u16 (Z.shiftr m_tmp kFp64ManLen) in
            if need_round then u16 (m_ret + 1) else m_ret
          else if (e_d =? 0x3E6) && (0 <? m_d) then 1 else 0)
    else
      let e_ret := e_d - 0x3F0 in
      let need_round := Fp16IsRoundOne m_d m_len_delta in
      let m_ret := u16 (Z.shiftr m_d m_len_delta) in
      let m_ret := if need_round then u16 (m_ret + 1) else m_ret in
      (if negb (Z.land m_ret kFp16ManHideBit =? 0) then e_ret + 1 else e_ret, m_ret) in
  let '(e_ret, m_ret) := Fp16NormalizeVal e_ret m_ret in
  Fp16Constructor s_ret (u16 e_ret) m_ret.

Definition SetValByUint32Val (input_val sign : Z) : outcome Z :=
  let m_tmp := Z.land input_val kFp32AbsMax in
  len ← GetManBitLength m_tmp;
  '(e_ret, m_tmp) ←
    (if 11 <? len then
       let e_tmp := len - 11 in
       let trunc_mask := Nat.iter (Z.to_nat (e_tmp - 1)) (fun t => u32 (shl 32 t 1 + 1)) 1 in
       let m_trunc := shl 32 (Z.land m_tmp trunc_mask) (32 - e_tmp) in
       let '(e_ret, m_tmp) :=
         Nat.iter (Z.to_nat e_tmp) (fun '(e, m) => (e + 1, Z.shiftr m 1)) (kFp16ExpBias + kFp16ManLen, m_tmp) in
       let b_last_bit := 0 <? Z.land m_tmp 1 in
       let m_tmp := ManRoundToNearest 32 b_last_bit (trunc_high m_trunc) (trunc_left m_trunc) m_tmp 0 in
       let m_max := shl 32 kFp16ManHideBit 1 in
       '(e_ret, m_tmp) ← while loop_fuel (fun '(e, m) => (m_max <=? m) || (e <? 0)) (fun '(e, m) => (e + 1, Z.shiftr m 1)) (e_ret, m_tmp);
       Ok (if kFp16MaxExp <=? e_ret then (kFp16MaxExp - 1, kFp16MaxMan) else (e_ret, m_tmp))
     else Ok (kFp16ExpBias + (len - 1), shl 32 m_tmp (11 - len)));
  Ok (Fp16Constructor sign (u16 e_ret) (u16 m_tmp)).

(** [-i_val] of the least integer has no defined result. *)
Definition of_int32 (i_val : Z) : outcome Z :=
  if i_val =? 0 then Ok 0 else
  let ui_val := u32 i_val in
  let s_ret := u16 (Z.shiftr ui_val 31) in
  if negb (s_ret =? 0) then
    if i_val =? - 2 ^ 31 then Fault else SetValByUint32Val (u32 (- i_val)) s_ret
  else SetValByUint32Val ui_val s_ret.
