(* ===== verification/NumFp16Value.v ===== *)
(** * NumFp16Value: what halves mean, and rounding

    The magnitude of a finite half is an integer number of units of 2^-24.
    [nearest] is the rounding rule of IEEE 754, nearest with ties to even, said
    of all finite halves; [rne] is rounding on a grid, which the code computes
    one way or the other.  [grid_rounded] links the two. *)

From S2P Require Import Prelude NumBits NumFp16.

(** ** Rounding on a grid *)

(** [n / 2^j], to the nearest integer, ties to even. *)
Definition rne (n j : Z) : Z :=
  let q := n / 2 ^ j in
  let r := n mod 2 ^ j in
  if (2 ^ j <? 2 * r) || ((2 * r =? 2 ^ j) && Z.odd q) then q + 1 else q.

Lemma rne_cases n j : 0 <= j ->
  (rne n j = n / 2 ^ j /\ (2 * (n mod 2 ^ j) < 2 ^ j \/ 2 * (n mod 2 ^ j) = 2 ^ j /\ Z.even (n / 2 ^ j) = true)) \/
  (rne n j = n / 2 ^ j + 1 /\ (2 ^ j < 2 * (n mod 2 ^ j) \/ 2 * (n mod 2 ^ j) = 2 ^ j /\ Z.even (n / 2 ^ j) = false)).
Proof.
  intros Hj. unfold rne. rewrite <- Z.negb_even. destruct (Z.ltb_spec (2 ^ j) (2 * (n mod 2 ^ j))); simpl; [right; lia|].
  destruct (Z.eqb_spec (2 * (n mod 2 ^ j)) (2 ^ j)); simpl; [|left; lia].
  destruct (Z.even (n / 2 ^ j)); simpl; [left|right]; lia.
Qed.

Lemma rne_scale n j c : 0 <= j -> 0 <= c -> rne (n * 2 ^ c) (j + c) = rne n j.
Proof.
  intros Hj Hc. unfold rne. rewrite Z.pow_add_r by done. pose proof (Z.pow_pos_nonneg 2 c ltac:(lia) Hc) as Hp.
  pose proof (Z.pow_pos_nonneg 2 j ltac:(lia) Hj) as Hpj.
  rewrite Z.div_mul_cancel_r, Z.mul_mod_distr_r by lia.
  replace (2 ^ j * 2 ^ c <? 2 * (n mod 2 ^ j * 2 ^ c)) with (2 ^ j <? 2 * (n mod 2 ^ j)).
  2: { destruct (Z.ltb_spec (2 ^ j) (2 * (n mod 2 ^ j))), (Z.ltb_spec (2 ^ j * 2 ^ c) (2 * (n mod 2 ^ j * 2 ^ c))); try done; nia. }
  replace (2 * (n mod 2 ^ j * 2 ^ c) =? 2 ^ j * 2 ^ c) with (2 * (n mod 2 ^ j) =? 2 ^ j); [done|].
  destruct (Z.eqb_spec (2 * (n mod 2 ^ j)) (2 ^ j)), (Z.eqb_spec (2 * (n mod 2 ^ j * 2 ^ c)) (2 ^ j * 2 ^ c)); try done; nia.
Qed.

(** The same number in two scales rounds to the same. *)
Lemma rne_same n j x i c d :
  0 <= j -> 0 <= i -> 0 <= c -> 0 <= d -> n * 2 ^ c = x * 2 ^ d -> j + c = i + d -> rne n j = rne x i.
Proof. intros Hj Hi Hc Hd E1 E2. rewrite <- (rne_scale n j c), <- (rne_scale x i d) by done. by rewrite E1, E2. Qed.

Lemma rne_0 n : rne n 0 = n.
Proof. unfold rne. rewrite Z.pow_0_r, Z.div_1_r, Z.mod_1_r. done. Qed.

Lemma rne_range n j lo hi : 0 <= j -> lo * 2 ^ j <= n < hi * 2 ^ j -> lo <= rne n j <= hi.
Proof.
  intros Hj Hn. pose proof (Z.pow_pos_nonneg 2 j ltac:(lia) Hj) as Hp.
  assert (lo <= n / 2 ^ j) by (apply Z.div_le_lower_bound; lia).
  assert (n / 2 ^ j < hi) by (apply Z.div_lt_upper_bound; lia).
  destruct (rne_cases n j Hj) as [[-> _]|[-> _]]; lia.
Qed.

(** The test the code makes on the bits it drops. *)
Lemma bit_at x n : 0 <= n -> (0 <? Z.land x (2 ^ n)) = ((x / 2 ^ n) mod 2 =? 1).
Proof.
  intros Hn. rewrite land_pow2 by done. pose proof (Z.pow_pos_nonneg 2 n ltac:(lia) Hn).
  pose proof (Z.mod_pos_bound (x / 2 ^ n) 2 ltac:(lia)).
  destruct (Z.ltb_spec 0 (2 ^ n * ((x / 2 ^ n) mod 2))), (Z.eqb_spec ((x / 2 ^ n) mod 2) 1); try done; nia.
Qed.

Lemma low_bits x n : 0 <= n -> (0 <? Z.land x (Z.ones n)) = (0 <? x mod 2 ^ n).
Proof. intros Hn. by rewrite Z.land_ones. Qed.

(** High bit, lower bits and last kept bit decide as [rne] does. *)
Lemma rne_bits x t : 1 <= t ->
  rne x t = x / 2 ^ t +
    (if ((x / 2 ^ (t - 1)) mod 2 =? 1) && ((0 <? x mod 2 ^ (t - 1)) || ((x / 2 ^ t) mod 2 =? 1)) then 1 else 0).
Proof.
  intros Ht. set (d := 2 ^ (t - 1)). assert (Hd : 0 < d) by (apply Z.pow_pos_nonneg; lia).
  assert (E : 2 ^ t = 2 * d) by (unfold d; rewrite <- Z.pow_succ_r by lia; f_equal; lia).
  unfold rne. rewrite E. rewrite Zodd_mod. replace (x / (2 * d)) with (x / d / 2) by (rewrite Z.div_div by lia; f_equal; lia).
  pose proof (Z.div_mod x d ltac:(lia)) as E1. pose proof (Z.mod_pos_bound x d Hd) as B1.
  set (q := x / d) in *. set (r := x mod d) in *.
  pose proof (Z.div_mod q 2 ltac:(lia)) as E2. pose proof (Z.mod_pos_bound q 2 ltac:(lia)) as B2.
  assert (E3 : x mod (2 * d) = d * (q mod 2) + r).
  { symmetry. apply (Z.mod_unique_pos x (2 * d) (q / 2)); nia. }
  rewrite E3.
  destruct (Z.eqb_spec (q mod 2) 1) as [Eb|Eb]; simpl.
  - rewrite Eb. destruct (Z.ltb_spec 0 r), (Z.ltb_spec (2 * d) (2 * (d * 1 + r))); simpl; try lia.
    assert (r = 0) as -> by lia. rewrite (proj2 (Z.eqb_eq _ _)) by lia. simpl. destruct (_ =? 1); lia.
  - assert (q mod 2 = 0) as -> by lia. destruct (Z.ltb_spec (2 * d) (2 * (d * 0 + r))); [lia|].
    destruct (Z.eqb_spec (2 * (d * 0 + r)) (2 * d)); [lia|]. simpl. lia.
Qed.

Lemma IsRoundOne_rne man t :
  2 <= t <= 60 -> man / 2 ^ t + (if Fp16IsRoundOne man t then 1 else 0) = rne man t.
Proof.
  intros Ht. assert (Hs : u16 (t - 2) = t - 2) by (apply uwrap_small; lia).
  assert (Hb : 0 < 2 ^ t <= 2 ^ 60) by (split; [apply Z.pow_pos_nonneg|apply Z.pow_le_mono_r]; lia).
  assert (E0 : 4 * 2 ^ (t - 2) = 2 ^ t) by (change 4 with (2 ^ 2); rewrite <- Z.pow_add_r by lia; f_equal; lia).
  assert (E1 : 2 * 2 ^ (t - 2) = 2 ^ (t - 1)) by (rewrite <- Z.pow_succ_r by lia; f_equal; lia).
  unfold Fp16IsRoundOne, shl. rewrite Hs, !shiftl_mul by lia.
  rewrite (uwrap_small 64 (4 * _)), (uwrap_small 64 (2 * _)) by lia. rewrite E0, E1.
  rewrite !bit_at by lia. replace (2 ^ (t - 1) - 1) with (Z.ones (t - 1)) by (rewrite Z.ones_equiv; lia).
  rewrite low_bits, rne_bits by lia. done.
Qed.

(** The bits a mantissa has lost, in a word of 32 bits. *)
Lemma trunc_high_eq t : trunc_high t = ((t / 2 ^ 31) mod 2 =? 1).
Proof. unfold trunc_high. by apply (bit_at t 31). Qed.
Lemma trunc_left_eq t : trunc_left t = (0 <? t mod 2 ^ 31).
Proof. unfold trunc_left. by apply (low_bits t 31). Qed.
Lemma last_bit_eq m : (0 <? Z.land m 1) = (m mod 2 =? 1).
Proof. change (Z.land m 1) with (Z.land m (2 ^ 0)). rewrite bit_at by done. by rewrite Z.pow_0_r, Z.div_1_r. Qed.

Lemma ManRound_rne w m t :
  0 <= t < 2 ^ 32 -> 0 <= m < 2 ^ 15 -> 16 <= w ->
  ManRoundToNearest w (0 <? Z.land m 1) (trunc_high t) (trunc_left t) m 0 = rne (m * 2 ^ 32 + t) 32.
Proof.
  intros Ht Hm Hw. unfold ManRoundToNearest, u32. rewrite Z.shiftr_0_r, (uwrap_small 32) by lia.
  assert (2 ^ 16 <= 2 ^ w) by (apply Z.pow_le_mono_r; lia).
  rewrite uwrap_small by (destruct (_ && _); lia).
  rewrite trunc_high_eq, trunc_left_eq, last_bit_eq, rne_bits by lia. change (32 - 1) with 31.
  rewrite (Z.div_add_l m (2 ^ 32) t), (Z.div_small t (2 ^ 32)) by lia. rewrite Z.add_0_r. f_equal.
  replace (m * 2 ^ 32 + t) with (t + (2 * m) * 2 ^ 31) by lia. rewrite Z.div_add, Z.mod_add by lia.
  by rewrite (Z.mul_comm 2 m), Z.mod_add by lia.
Qed.

(** ** The fields of a half *)

Lemma extract_fields s e f :
  0 <= s < 2 -> 0 <= e < 32 -> 0 <= f < 1024 ->
  let v := s * 32768 + e * 1024 + f in
  Fp16ExtracSign v = s /\ Fp16ExtracExp v = e /\ Fp16ExtracMan v = (if e =? 0 then f else 1024 + f).
Proof.
  intros Hs He Hf v. unfold Fp16ExtracSign, Fp16ExtracExp, Fp16ExtracMan, kFp16MaxExp. rewrite !shiftr_div by lia.
  change 1 with (Z.ones 1) at 1. change 0x1F with (Z.ones 5). change 0x3FF with (Z.ones 10). rewrite !Z.land_ones by lia.
  assert (E1 : v / 2 ^ 15 = s) by (symmetry; apply (Z.div_unique_pos v (2 ^ 15) s (e * 1024 + f)); unfold v; lia).
  assert (E2 : v / 2 ^ 10 = s * 32 + e) by (symmetry; apply (Z.div_unique_pos v (2 ^ 10) (s * 32 + e) f); unfold v; lia).
  rewrite E1, E2, Z.pow_0_r, Z.div_1_r.
  replace ((s * 32 + e) mod 2 ^ 5) with e by (apply (Z.mod_unique_pos _ (2 ^ 5) s); lia).
  replace (v mod 2 ^ 10) with f by (apply (Z.mod_unique_pos v (2 ^ 10) (s * 32 + e)); unfold v; lia).
  split_and!; [apply Z.mod_small; lia|done|]. destruct (Z.ltb_spec 0 e), (Z.eqb_spec e 0); try lia.
  - rewrite Z.lor_comm. change (1 * 0x400) with (1 * 2 ^ 10). rewrite lor_low by lia. unfold u16. rewrite uwrap_small; lia.
  - rewrite Z.mul_0_l, Z.lor_0_r. unfold u16. rewrite uwrap_small; lia.
Qed.

Lemma half_fields v : 0 <= v < 2 ^ 16 ->
  exists s e f, 0 <= s < 2 /\ 0 <= e < 32 /\ 0 <= f < 1024 /\ v = s * 32768 + e * 1024 + f.
Proof.
  intros Hv. exists (v / 32768), (v / 1024 mod 32), (v mod 1024).
  pose proof (Z.div_mod v 1024 ltac:(lia)). pose proof (Z.div_mod (v / 1024) 32 ltac:(lia)).
  pose proof (Z.mod_pos_bound v 1024 ltac:(lia)). pose proof (Z.mod_pos_bound (v / 1024) 32 ltac:(lia)).
  rewrite Z.div_div in * by lia. change (1024 * 32) with 32768 in *. lia.
Qed.

Lemma construct_fields s e m :
  0 <= s < 2 -> 0 <= e < 32 -> 0 <= m -> Fp16Constructor s e m = s * 32768 + e * 1024 + m mod 1024.
Proof.
  intros Hs He Hm. unfold Fp16Constructor, shl, kFp16SignIndex, kFp16ManLen, kFp16MaxMan.
  rewrite !shiftl_mul by lia. rewrite !uwrap_small by lia. change 0x3FF with (Z.ones 10). rewrite Z.land_ones by lia.
  rewrite lor_low by lia. pose proof (Z.mod_pos_bound m (2 ^ 10) ltac:(lia)).
  replace (s * 2 ^ 15 + e * 2 ^ 10) with ((s * 32 + e) * 2 ^ 10) by lia. rewrite lor_low by lia.
  change (2 ^ 10) with 1024. lia.
Qed.

Lemma invalid_fields s e f :
  0 <= s < 2 -> 0 <= e < 32 -> 0 <= f < 1024 ->
  Fp16IsInvalid (s * 32768 + e * 1024 + f) = (e =? 31) /\ Fp16IsDenorm (s * 32768 + e * 1024 + f) = (e =? 0) /\
  Fp16IsZero (s * 32768 + e * 1024 + f) = (e * 1024 + f =? 0).
Proof.
  intros Hs He Hf. set (v := s * 32768 + e * 1024 + f).
  assert (Em : Z.land v kFp16ExpMask = e * 1024).
  { change kFp16ExpMask with (Z.ones 5 * 2 ^ 10). rewrite land_field by lia. f_equal.
    symmetry. apply (Z.mod_unique_pos _ (2 ^ 5) s); [lia|]. symmetry.
    apply (Z.div_unique_pos v (2 ^ 10) (2 ^ 5 * s + e) f); unfold v; lia. }
  assert (Ea : Z.land v kFp16AbsMax = e * 1024 + f).
  { change kFp16AbsMax with (Z.ones 15). rewrite Z.land_ones by lia. symmetry.
    apply (Z.mod_unique_pos v (2 ^ 15) s); unfold v; lia. }
  unfold Fp16IsInvalid, Fp16IsDenorm, Fp16IsZero. rewrite Em, Ea. unfold kFp16ExpMask. split_and!; [| |done].
  - destruct (Z.eqb_spec (e * 1024) 0x7C00), (Z.eqb_spec e 31); lia.
  - destruct (Z.eqb_spec (e * 1024) 0), (Z.eqb_spec e 0); lia.
Qed.

(** ** Magnitudes *)

(** The magnitude of the half with the bits [p] below the sign, in units of
    2^-24. *)
Definition mag (p : Z) : Z :=
  let e := p / 1024 in
  if e =? 0 then p mod 1024 else (1024 + p mod 1024) * 2 ^ (e - 1).

(** A finite half as a signed number of units. *)
Definition finite (v : Z) : Prop := 0 <= v < 2 ^ 16 /\ Fp16IsInvalid v = false.
Definition signed (v : Z) : Z := if v <? 32768 then mag v else - mag (v - 32768).

Lemma mag_pattern e m :
  1 <= e -> 0 <= m <= 2048 -> e = 1 \/ 1024 <= m -> mag ((e - 1) * 1024 + m) = m * 2 ^ (e - 1).
Proof.
  intros He Hm Hc. unfold mag. set (p := (e - 1) * 1024 + m).
  assert (Hcase : m < 1024 \/ 1024 <= m < 2048 \/ m = 2048) by lia. destruct Hcase as [H|[H| ->]].
  - assert (e = 1) as -> by lia. assert (p = m) as -> by (unfold p; lia). rewrite Z.div_small, Z.mod_small by lia. simpl. lia.
  - assert (Ed : p / 1024 = e) by (symmetry; apply (Z.div_unique_pos p 1024 e (m - 1024)); unfold p; lia).
    assert (Em : p mod 1024 = m - 1024) by (symmetry; apply (Z.mod_unique_pos p 1024 e); unfold p; lia).
    rewrite Ed, Em. rewrite (proj2 (Z.eqb_neq _ _)) by lia. f_equal. lia.
  - assert (Ed : p / 1024 = e + 1) by (symmetry; apply (Z.div_unique_pos p 1024 (e + 1) 0); unfold p; lia).
    assert (Em : p mod 1024 = 0) by (symmetry; apply (Z.mod_unique_pos p 1024 (e + 1)); unfold p; lia).
    rewrite Ed, Em. rewrite (proj2 (Z.eqb_neq _ _)) by lia.
    replace (e + 1 - 1) with (Z.succ (e - 1)) by lia. rewrite Z.pow_succ_r by lia. lia.
Qed.

(** Every pattern is one of these. *)
Lemma pattern_cell p : 0 <= p -> exists e m, 1 <= e /\ 0 <= m < 2048 /\ (e = 1 \/ 1024 <= m) /\ p = (e - 1) * 1024 + m.
Proof.
  intros Hp. destruct (decide (p < 2048)); [exists 1, p; lia|].
  exists (p / 1024), (p mod 1024 + 1024). pose proof (Z.div_mod p 1024 ltac:(lia)).
  pose proof (Z.mod_pos_bound p 1024 ltac:(lia)). lia.
Qed.

Lemma mag_step p : 0 <= p -> mag p < mag (p + 1).
Proof.
  intros Hp. destruct (pattern_cell p Hp) as (e & m & He & Hm & Hc & ->).
  replace ((e - 1) * 1024 + m + 1) with ((e - 1) * 1024 + (m + 1)) by lia. rewrite !mag_pattern by lia.
  pose proof (Z.pow_pos_nonneg 2 (e - 1) ltac:(lia) ltac:(lia)). lia.
Qed.

Lemma mag_mono p q : 0 <= p -> p <= q -> mag p <= mag q.
Proof.
  intros Hp Hpq. replace q with (p + Z.of_nat (Z.to_nat (q - p))) by lia. induction (Z.to_nat (q - p)) as [|n IH].
  - by rewrite Z.add_0_r.
  - rewrite Nat2Z.inj_succ. unfold Z.succ. rewrite Z.add_assoc. pose proof (mag_step (p + Z.of_nat n) ltac:(lia)). lia.
Qed.

Lemma mag_mono_lt p q : 0 <= p -> p < q -> mag p < mag q.
Proof. intros Hp Hpq. pose proof (mag_step p Hp). pose proof (mag_mono (p + 1) q ltac:(lia) ltac:(lia)). lia. Qed.

Lemma mag_inj p q : 0 <= p -> 0 <= q -> mag p = mag q -> p = q.
Proof.
  intros Hp Hq E. destruct (Z.lt_trichotomy p q) as [H|[H|H]]; [|done|]; apply mag_mono_lt in H; lia.
Qed.

Lemma mag_nonneg p : 0 <= p -> 0 <= mag p.
Proof. intros Hp. pose proof (mag_mono 0 p ltac:(lia) Hp) as H. change (mag 0) with 0 in H. lia. Qed.

(** ** Nearest halves *)

(** [p] is the finite half nearest to [N] units of 2^-(24+k), the even one when
    two are equally near. *)
Definition nearest (k N p : Z) : Prop :=
  0 <= p <= kFp16Max /\ forall q, 0 <= q <= kFp16Max ->
    Z.abs (mag p * 2 ^ k - N) < Z.abs (mag q * 2 ^ k - N) \/
    (Z.abs (mag p * 2 ^ k - N) = Z.abs (mag q * 2 ^ k - N) /\ (q = p \/ Z.even p = true)).

(** There is only one: between two that are equally near there would be a
    nearer one. *)
Lemma nearest_not_lt k N p p' : 0 <= k -> nearest k N p -> nearest k N p' -> ~ p < p'.
Proof.
  intros Hk [Hp H] [Hp' H'] Hlt. pose proof (Z.pow_pos_nonneg 2 k ltac:(lia) Hk) as Hpk.
  destruct (H p' Hp') as [?|[E [?|Ev]]]; [|lia|]; (destruct (H' p Hp) as [?|[? [?|Ev']]]; [lia|lia|]); [lia|].
  destruct (decide (p' = p + 1)) as [Es|].
  { by rewrite Es, Z.add_1_r, Z.even_succ, <- Z.negb_even, Ev in Ev'. }
  pose proof (mag_mono_lt p (p + 1) ltac:(lia) ltac:(lia)). pose proof (mag_mono_lt (p + 1) p' ltac:(lia) ltac:(lia)).
  destruct (H (p + 1) ltac:(lia)) as [Hd|[Hd _]]; nia.
Qed.

Lemma nearest_unique k N p p' : 0 <= k -> nearest k N p -> nearest k N p' -> p = p'.
Proof.
  intros Hk H H'. pose proof (nearest_not_lt k N p p' Hk H H'). pose proof (nearest_not_lt k N p' p Hk H' H). lia.
Qed.

(** Overflow: from here on the nearest would be 2^16. *)
Definition overflow_bound (k : Z) : Z := 4095 * 2 ^ (28 + k).

Section grid.
Context (k N e : Z) (Hk : 0 <= k) (HN : 0 <= N) (He : 1 <= e).
Let lo := N / 2 ^ (k + e - 1).
Hypothesis Hcell : lo < 2048 /\ (e = 1 \/ 1024 <= lo).
Let m := rne N (k + e - 1).
Let D := 2 ^ (k + e - 1).
Let p := (e - 1) * 1024 + m.

Lemma grid_facts :
  0 < D /\ N = lo * D + N mod D /\ 0 <= N mod D < D /\ 0 <= lo /\ D = 2 ^ (e - 1) * 2 ^ k /\
  (m = lo /\ (2 * (N mod D) < D \/ 2 * (N mod D) = D /\ Z.even lo = true) \/
   m = lo + 1 /\ (D < 2 * (N mod D) \/ 2 * (N mod D) = D /\ Z.even lo = false)).
Proof.
  assert (HD : 0 < D) by (apply Z.pow_pos_nonneg; lia).
  split_and!; [done| |apply Z.mod_pos_bound; lia|apply Z.mod_pos_bound; lia|apply Z.div_pos; lia| |].
  - rewrite (Z.div_mod N D) at 1 by lia. unfold lo, D. lia.
  - unfold D. rewrite <- Z.pow_add_r by lia. f_equal. lia.
  - apply (rne_cases N (k + e - 1)). lia.
Qed.

Lemma grid_nearest q : 0 <= q ->
  Z.abs (mag p * 2 ^ k - N) < Z.abs (mag q * 2 ^ k - N) \/
  (Z.abs (mag p * 2 ^ k - N) = Z.abs (mag q * 2 ^ k - N) /\ (q = p \/ Z.even p = true)).
Proof.
  intros Hq. destruct grid_facts as (HD & EN & Hr & Hlo & ED & Hm). destruct Hcell as [Hlo2 Hc].
  assert (Hp0 : 0 <= p) by (unfold p; lia).
  assert (Emag : mag p * 2 ^ k = m * D) by (unfold p; rewrite mag_pattern by lia; rewrite ED; lia).
  assert (Hside : mag q * 2 ^ k <= lo * D \/ (lo + 1) * D <= mag q * 2 ^ k).
  { pose proof (Z.pow_pos_nonneg 2 k ltac:(lia) Hk). destruct (decide (q <= (e - 1) * 1024 + lo)).
    - left. pose proof (mag_mono q ((e - 1) * 1024 + lo) Hq ltac:(lia)) as H1. rewrite mag_pattern in H1 by lia. rewrite ED. nia.
    - right. pose proof (mag_mono ((e - 1) * 1024 + (lo + 1)) q ltac:(lia) ltac:(lia)) as H1. rewrite mag_pattern in H1 by lia. rewrite ED. nia. }
  assert (Heven : Z.even p = Z.even m).
  { unfold p. rewrite Z.even_add, Z.even_mul. change (Z.even 1024) with true. rewrite orb_true_r. by destruct (Z.even m). }
  assert (Hsame : mag q * 2 ^ k = m * D -> q = p).
  { intros Es. rewrite <- Emag in Es. pose proof (Z.pow_pos_nonneg 2 k ltac:(lia) Hk). apply mag_inj; [done|done|nia]. }
  rewrite Heven, Emag.
  destruct Hm as [[Em Hm]|[Em Hm]]; rewrite Em in *.
  - destruct (decide (mag q * 2 ^ k = lo * D)) as [Es|Ns]; [right; rewrite Es; split; [done|left; by apply Hsame]|].
    destruct Hside as [Hs|Hs]; [left; lia|]. destruct Hm as [Hm|[Hm Hev]]; [left; lia|]. rewrite Hev.
    destruct (decide (mag q * 2 ^ k = (lo + 1) * D)); [right; split; [lia|by right]|left; lia].
  - destruct (decide (mag q * 2 ^ k = (lo + 1) * D)) as [Es|Ns]; [right; rewrite Es; split; [done|left; by apply Hsame]|].
    destruct Hside as [Hs|Hs]; [|left; lia]. destruct Hm as [Hm|[Hm Hev]]; [left; lia|].
    rewrite Z.add_1_r, Z.even_succ, <- Z.negb_even, Hev. simpl.
    destruct (decide (mag q * 2 ^ k = lo * D)); [right; split; [lia|by right]|left; lia].
Qed.

(** The pattern of the rounded mantissa is the nearest half, unless there is
    none. *)
Lemma grid_rounded :
  (p < 0x7C00 /\ N < overflow_bound k /\ nearest k N p) \/ (0x7C00 <= p /\ overflow_bound k <= N).
Proof.
  destruct grid_facts as (HD & EN & Hr & Hlo & ED & Hm). destruct Hcell as [Hlo2 Hc].
  assert (Hmr : m <= 2048) by lia. unfold overflow_bound.
  set (B := 2 ^ (28 + k)). assert (HB : 0 < B) by (apply Z.pow_pos_nonneg; lia).
  assert (Hcase : e <= 29 \/ e = 30 \/ 31 <= e) by lia. destruct Hcase as [H|[H|H]].
  - left. assert (Hp : p < 0x7C00) by (unfold p; lia). split_and!; [done| |].
    + assert (D <= B) by (apply Z.pow_le_mono_r; lia). nia.
    + split; [unfold kFp16Max, p in *; lia|]. intros q Hq. apply grid_nearest. lia.
  - assert (D = 2 * B) as E2 by (unfold D, B; rewrite <- Z.pow_succ_r by lia; f_equal; lia).
    destruct (decide (m = 2048)) as [E|E].
    + right. split; [unfold p; lia|]. nia.
    + left. split_and!; [unfold p; lia| |].
      * destruct Hm as [[Em Hm]|[Em Hm]]; [|nia]. destruct (decide (lo = 2047)) as [El|]; [|nia].
        destruct Hm as [Hm|[_ Hev]]; [nia|]. by rewrite El in Hev.
      * split; [unfold kFp16Max, p in *; lia|]. intros q Hq. apply grid_nearest. lia.
  - right. assert (4 * B <= D) by (replace (4 * B) with (2 ^ (30 + k)) by (unfold B; change 4 with (2 ^ 2); rewrite <- Z.pow_add_r by lia; f_equal; lia);
      apply Z.pow_le_mono_r; lia). split; [unfold p; lia|nia].
Qed.
End grid.

(** ** A half as sign, exponent and mantissa *)

Record is_half (v s e m : Z) : Prop := {
  ih_extract : ExtractFp16 v = (s, e, m);
  ih_sign : 0 <= s < 2;
  ih_exp : 1 <= e <= 31;
  ih_man : 0 <= m < 2048;
  ih_norm : e = 1 \/ 1024 <= m;
  ih_pattern : v = s * 32768 + ((e - 1) * 1024 + m);
  ih_invalid : Fp16IsInvalid v = (e =? 31);
  ih_denorm : Fp16IsDenorm v = (m <? 1024);
  ih_field : Fp16ExtracExp v = (if m <? 1024 then 0 else e);
  ih_zero : Fp16IsZero v = ((e =? 1) && (m =? 0));
}.

Lemma half_parts v : 0 <= v < 2 ^ 16 -> exists s e m, is_half v s e m.
Proof.
  intros Hv. destruct (half_fields v Hv) as (s & e & f & Hs & He & Hf & Ev).
  destruct (extract_fields s e f Hs He Hf) as (E1 & E2 & E3). destruct (invalid_fields s e f Hs He Hf) as (E4 & E5 & E6).
  rewrite <- Ev in *. exists s, (if e =? 0 then 1 else e), (if e =? 0 then f else 1024 + f).
  split; [unfold ExtractFp16; by rewrite E1, E2, E3|done|..]; rewrite ?E2, ?E4, ?E5, ?E6; destruct (Z.eqb_spec e 0); try lia.
  - destruct (Z.ltb_spec f 1024); lia.
  - destruct (Z.ltb_spec (1024 + f) 1024); lia.
Qed.

Lemma half_value v s e m : is_half v s e m -> signed v = (if s =? 0 then m * 2 ^ (e - 1) else - (m * 2 ^ (e - 1))).
Proof.
  intros [_ Hs He Hm Hn -> _ _ _ _]. unfold signed. assert (Hp : (e - 1) * 1024 + m < 32768) by lia.
  rewrite <- (mag_pattern e m) by lia. destruct (Z.eqb_spec s 0) as [->|].
  - by rewrite (proj2 (Z.ltb_lt _ _)) by lia.
  - rewrite (proj2 (Z.ltb_ge _ _)) by lia. do 2 f_equal. lia.
Qed.

Lemma finite_parts v : finite v -> exists s e m, is_half v s e m /\ e <= 30.
Proof.
  intros [Hv Hi]. destruct (half_parts v Hv) as (s & e & m & H). exists s, e, m. split; [done|].
  rewrite (ih_invalid _ _ _ _ H) in Hi. apply Z.eqb_neq in Hi. pose proof (ih_exp _ _ _ _ H). lia.
Qed.

(** A magnitude that is a half is nearest to itself. *)
Lemma nearest_exact k p : 0 <= k -> 0 <= p <= kFp16Max -> nearest k (mag p * 2 ^ k) p.
Proof.
  intros Hk Hp. split; [done|]. intros q Hq. rewrite Z.sub_diag. destruct (decide (q = p)) as [->|Hne]; [right; rewrite Z.sub_diag; auto|].
  left. pose proof (Z.pow_pos_nonneg 2 k ltac:(lia) Hk). assert (mag q <> mag p) by (intros E; apply Hne, mag_inj; lia).
  assert (mag q * 2 ^ k <> mag p * 2 ^ k) by (intros E; apply Z.mul_cancel_r in E; lia). lia.
Qed.

Lemma finite_below_overflow k p : 0 <= k -> 0 <= p <= kFp16Max -> mag p * 2 ^ k < overflow_bound k.
Proof.
  intros Hk Hp. pose proof (mag_mono p kFp16Max ltac:(lia) ltac:(lia)) as Hm. change (mag kFp16Max) with (2047 * 2 ^ 29) in Hm.
  unfold overflow_bound. rewrite Z.pow_add_r by lia. pose proof (Z.pow_pos_nonneg 2 k ltac:(lia) Hk). nia.
Qed.
