(* ===== verification/NumFp16Convert.v ===== *)
(** * NumFp16Convert: conversions between halves and other number types

    Conversions to a half round to nearest; conversions to [float] and [double]
    are exact; conversions to integers round to nearest and saturate. *)

From S2P Require Import Prelude NumBits NumFp16 NumFp16Value.

(** ** From wider floats *)

(** Magnitude of a float with a mantissa of [ML] bits, in units of its least
    denormal. *)
Definition wide_mag (ML e m : Z) : Z := if e =? 0 then m else (2 ^ ML + m) * 2 ^ (e - 1).

(** The common part of the conversions from [float] ([ML] = 23, [B] = 112) and
    [double] ([ML] = 52, [B] = 1008). *)
Definition narrow (ML B e m : Z) : Z * Z :=
  if B + 31 <? e then (kFp16MaxExp - 1, kFp16MaxMan)
  else if e <=? B then
    (0, if B - 9 <=? e then
          let m_tmp := shl 64 (2 ^ ML + m) (e - (B - 9)) in
          let m_ret := u16 (Z.shiftr m_tmp ML) in
          if Fp16IsRoundOne m_tmp ML then u16 (m_ret + 1) else m_ret
        else if (e =? B - 10) && (0 <? m) then 1 else 0)
  else
    let m_ret := u16 (Z.shiftr m (ML - 10)) in
    let m_ret := if Fp16IsRoundOne m (ML - 10) then u16 (m_ret + 1) else m_ret in
    (if negb (Z.land m_ret kFp16ManHideBit =? 0) then e - B + 1 else e - B, m_ret).

(** The code's increments are [rne]. *)
Lemma round_up_rne x t :
  2 <= t <= 60 -> 0 <= x -> rne x t < 2 ^ 16 ->
  (if Fp16IsRoundOne x t then u16 (u16 (Z.shiftr x t) + 1) else u16 (Z.shiftr x t)) = rne x t.
Proof.
  intros Ht Hx Hr. rewrite shiftr_div by lia. pose proof (IsRoundOne_rne x t Ht) as E.
  assert (0 <= x / 2 ^ t) by (apply Z.div_pos; [done|apply Z.pow_pos_nonneg; lia]).
  destruct (Fp16IsRoundOne x t).
  - unfold u16. rewrite (uwrap_small 16 (x / 2 ^ t)) by lia. rewrite uwrap_small; lia.
  - unfold u16. rewrite uwrap_small; lia.
Qed.

Lemma rne_shift_even x j a : 1 <= j -> Z.even a = true -> rne (a * 2 ^ j + x) j = a + rne x j.
Proof.
  intros Hj Ha. unfold rne. rewrite Z.div_add_l by (apply Z.pow_nonzero; lia).
  rewrite Z.add_comm, (Z.mod_add x a) by (apply Z.pow_nonzero; lia). rewrite Z.odd_add, <- (Z.negb_even a), Ha. simpl.
  destruct (_ || _); lia.
Qed.

(** The pattern, once the exponent has been checked. *)
Definition pack (s : Z) (em : Z * Z) : Z :=
  let '(e, m) := Fp16NormalizeVal em.1 em.2 in Fp16Constructor s (u16 e) m.

Lemma pack_denormal s m : 0 <= s < 2 -> 0 <= m <= 1024 -> pack s (0, m) = s * 32768 + m.
Proof.
  intros Hs Hm. unfold pack, Fp16NormalizeVal. simpl. destruct (Z.eqb_spec m kFp16ManHideBit) as [->|Hne].
  - change (u16 (0 + 1)) with 1. rewrite construct_fields by lia. unfold kFp16ManHideBit. change (0 mod 1024) with 0. lia.
  - unfold kFp16ManHideBit in Hne. change (u16 0) with 0. rewrite construct_fields, Z.mod_small by lia. lia.
Qed.

Lemma pack_normal s e m : 0 <= s < 2 -> 1 <= e <= 30 -> 0 <= m -> pack s (e, m) = s * 32768 + e * 1024 + m mod 1024.
Proof.
  intros Hs He Hm. unfold pack, Fp16NormalizeVal. cbn [fst snd]. rewrite (proj2 (Z.leb_gt _ _)) by (unfold kFp16MaxExp; lia).
  rewrite (proj2 (Z.eqb_neq e 0)) by lia. simpl. unfold u16. rewrite (uwrap_small 16 e) by lia. by apply construct_fields; lia.
Qed.

Lemma pack_overflow s e m : 0 <= s < 2 -> 31 <= e -> pack s (e, m) = s * 32768 + 0x7FFF.
Proof.
  intros Hs He. unfold pack, Fp16NormalizeVal. cbn [fst snd]. rewrite (proj2 (Z.leb_le _ _)) by (unfold kFp16MaxExp; lia).
  change (u16 kFp16MaxExp) with 31. change kFp16MaxMan with 1023. rewrite construct_fields by lia. change (1023 mod 1024) with 1023. lia.
Qed.

(** What a rounding operation returns: the nearest half, or [over] where there
    is none. *)
Definition rounded (over s k N r : Z) : Prop :=
  (N < overflow_bound k /\ exists p, nearest k N p /\ r = s * 32768 + p) \/
  (overflow_bound k <= N /\ r = s * 32768 + over).

(** A rounded mantissa without its hidden bit, in the cell of exponent [e]. *)
Lemma pack_cell s k N e m :
  0 <= s < 2 -> 0 <= k -> 0 <= N -> 1 <= e <= 31 -> 1024 <= N / 2 ^ (k + e - 1) < 2048 -> rne N (k + e - 1) = 1024 + m -> 0 <= m <= 1024 ->
  rounded 0x7FFF s k N (pack s (if negb (Z.land m kFp16ManHideBit =? 0) then e + 1 else e, m)).
Proof.
  intros Hs Hk HN He Hcell Hm Hmr. change kFp16ManHideBit with (2 ^ 10). rewrite land_pow2 by lia.
  destruct (grid_rounded k N e Hk HN (proj1 He)) as [(Hp & Hb & Hnear)|[Hp Hb]]; [lia|left|right]; rewrite Hm in *; (split; [done|]).
  - exists ((e - 1) * 1024 + (1024 + m)). split; [done|]. destruct (decide (m = 1024)) as [->|Hne].
    + simpl. rewrite pack_normal by lia. change (1024 mod 1024) with 0. lia.
    + rewrite (Z.div_small m) by lia. simpl. rewrite pack_normal, Z.mod_small by lia. lia.
  - destruct (decide (m = 1024)) as [->|Hne]; [simpl; rewrite pack_overflow by lia; lia|].
    rewrite (Z.div_small m) by lia. simpl. rewrite pack_overflow by lia. lia.
Qed.

Lemma pack_denormal_cell s k N m :
  0 <= s < 2 -> 0 <= k -> 0 <= N -> N / 2 ^ k < 1024 -> rne N k = m -> rounded 0x7FFF s k N (pack s (0, m)).
Proof.
  intros Hs Hk HN Hcell Hm. assert (Hp : 0 < 2 ^ k) by (apply Z.pow_pos_nonneg; lia).
  assert (0 <= N / 2 ^ k) by (apply Z.div_pos; lia).
  assert (0 <= m <= 1024) by (destruct (rne_cases N k Hk) as [[E _]|[E _]]; lia).
  destruct (grid_rounded k N 1 Hk HN ltac:(lia)) as [(_ & Hb & Hnear)|[Hge _]].
  - replace (k + 1 - 1) with k by lia. lia.
  - left. split; [done|]. replace (k + 1 - 1) with k in Hnear by lia. rewrite Hm in Hnear. exists m. split; [by rewrite Z.mul_0_l in Hnear|].
    by rewrite pack_denormal.
  - replace (k + 1 - 1) with k in Hge by lia. lia.
Qed.

Section narrow.
Context (ML B e m s : Z) (HML : 12 <= ML <= 53) (HB : 11 <= B) (He : 0 <= e) (Hm : 0 <= m < 2 ^ ML) (Hs : 0 <= s < 2).
Let k := B + ML - 10.
Let N := wide_mag ML e m.

Lemma narrow_nonneg : 0 <= N /\ (1 <= e -> N = (2 ^ ML + m) * 2 ^ (e - 1)).
Proof.
  unfold N, wide_mag. pose proof (Z.pow_pos_nonneg 2 ML ltac:(lia) ltac:(lia)). destruct (Z.eqb_spec e 0); [lia|].
  pose proof (Z.pow_pos_nonneg 2 (e - 1) ltac:(lia) ltac:(lia)). split; [nia|done].
Qed.

(** Normal results. *)
Lemma narrow_regular : B < e <= B + 31 -> rounded 0x7FFF s k N (pack s (narrow ML B e m)).
Proof.
  intros Hr. destruct narrow_nonneg as [HN EN]. specialize (EN ltac:(lia)). unfold narrow.
  rewrite (proj2 (Z.ltb_ge _ _)), (proj2 (Z.leb_gt _ _)) by lia.
  assert (E2 : 2 ^ ML = 1024 * 2 ^ (ML - 10)) by (change 1024 with (2 ^ 10); rewrite <- Z.pow_add_r by lia; f_equal; lia).
  pose proof (Z.pow_pos_nonneg 2 (ML - 10) ltac:(lia) ltac:(lia)) as Hp.
  assert (Hrne : 0 <= rne m (ML - 10) <= 1024) by (apply rne_range; lia).
  rewrite round_up_rne by lia. apply pack_cell; try lia.
  - replace (k + (e - B) - 1) with ((ML - 10) + (e - 1)) by (unfold k; lia). rewrite EN, Z.pow_add_r by lia.
    rewrite Z.div_mul_cancel_r by (apply Z.pow_nonzero; lia).
    split; [apply Z.div_le_lower_bound; lia|apply Z.div_lt_upper_bound; lia].
  - replace (k + (e - B) - 1) with ((ML - 10) + (e - 1)) by (unfold k; lia). rewrite EN, rne_scale by lia.
    rewrite E2. by rewrite rne_shift_even by (lia || done).
Qed.

(** Results below the least normal half. *)
Lemma narrow_small : e <= B -> rounded 0x7FFF s k N (pack s (narrow ML B e m)).
Proof.
  intros Hr. destruct narrow_nonneg as [HN EN]. unfold narrow.
  rewrite (proj2 (Z.ltb_ge _ _)), (proj2 (Z.leb_le _ _)) by lia.
  pose proof (Z.pow_pos_nonneg 2 ML ltac:(lia) ltac:(lia)) as HpM.
  assert (Hlo : N / 2 ^ k < 1024).
  { apply Z.div_lt_upper_bound; [apply Z.pow_pos_nonneg; lia|]. change 1024 with (2 ^ 10). rewrite <- Z.pow_add_r by lia.
    destruct (decide (e = 0)) as [E0|].
    - unfold N, wide_mag. rewrite E0. simpl. eapply Z.lt_le_trans; [apply Hm|]. apply Z.pow_le_mono_r; lia.
    - rewrite EN by lia. assert (2 ^ (e - 1) <= 2 ^ (B - 1)) by (apply Z.pow_le_mono_r; lia).
      replace (k + 10) with ((ML + 1) + (B - 1)) by (unfold k; lia). rewrite Z.pow_add_r by lia.
      rewrite (Z.pow_add_r 2 ML 1) by lia. nia. }
  apply pack_denormal_cell; try done; [unfold k; lia|]. destruct (Z.leb_spec (B - 9) e).
  - assert (Hsh : 0 < 2 ^ (e - (B - 9)) <= 2 ^ 9) by (split; [apply Z.pow_pos_nonneg|apply Z.pow_le_mono_r]; lia).
    assert (2 ^ ML <= 2 ^ 53) by (apply Z.pow_le_mono_r; lia).
    assert (Em : shl 64 (2 ^ ML + m) (e - (B - 9)) = (2 ^ ML + m) * 2 ^ (e - (B - 9))).
    { unfold shl. rewrite shiftl_mul by lia. apply uwrap_small. nia. }
    rewrite Em. set (x := (2 ^ ML + m) * 2 ^ (e - (B - 9))) in *.
    assert (0 <= rne x ML <= 1024) by (apply rne_range; unfold x; nia).
    rewrite round_up_rne by (try lia; unfold x; nia). apply (rne_same N k x ML 0 (B - 10)); try lia.
    rewrite EN by lia. unfold x. rewrite Z.pow_0_r, Z.mul_1_r, <- Z.mul_assoc, <- Z.pow_add_r by lia. do 2 f_equal. lia.
  - assert (E2 : 2 ^ k = 2 * (2 ^ ML * 2 ^ (B - 11))).
    { rewrite <- Z.pow_add_r, <- Z.pow_succ_r by lia. f_equal. unfold k. lia. }
    pose proof (Z.pow_pos_nonneg 2 (B - 11) ltac:(lia) ltac:(lia)) as HpB.
    assert (Hlt : N < 2 ^ k /\ (e <> B - 10 \/ m = 0 -> 2 * N <= 2 ^ k) /\ (e = B - 10 -> 0 < m -> 2 ^ k < 2 * N)).
    { rewrite E2. destruct (decide (e = 0)) as [E0|Hne].
      - unfold N, wide_mag. rewrite E0. simpl. split_and!; [nia|nia|lia].
      - rewrite EN by lia. destruct (decide (e = B - 10)) as [->|].
        + replace (B - 10 - 1) with (B - 11) by lia. split_and!; [nia|intros [?| ->]; [done|nia]|nia].
        + assert (2 * 2 ^ (e - 1) <= 2 ^ (B - 11)) by (rewrite <- Z.pow_succ_r by lia; apply Z.pow_le_mono_r; lia).
          split_and!; [nia|intros _; nia|lia]. }
    destruct Hlt as (Hlt & Hle & Hgt). unfold rne. rewrite Z.div_small, Z.mod_small by lia. rewrite andb_false_r, orb_false_r.
    destruct (Z.eqb_spec e (B - 10)) as [Ee|], (Z.ltb_spec 0 m); simpl.
    + rewrite (proj2 (Z.ltb_lt _ _)); [done|by apply Hgt].
    + rewrite (proj2 (Z.ltb_ge _ _)); [done|apply Hle; right; lia].
    + rewrite (proj2 (Z.ltb_ge _ _)); [done|apply Hle; by left].
    + rewrite (proj2 (Z.ltb_ge _ _)); [done|apply Hle; by left].
Qed.

(** From 2^17 on the exponent is cut off and the result is the largest half. *)
Lemma narrow_large : B + 31 < e -> pack s (narrow ML B e m) = s * 32768 + kFp16Max /\ 2 ^ (41 + k) <= N.
Proof.
  intros Hr. destruct narrow_nonneg as [HN EN]. split.
  - unfold narrow. rewrite (proj2 (Z.ltb_lt _ _)) by lia. change (kFp16MaxExp - 1, kFp16MaxMan) with (30, 1023). rewrite pack_normal by lia.
    unfold kFp16Max. change (1023 mod 1024) with 1023. lia.
  - rewrite EN by lia. assert (2 ^ (B + 31) <= 2 ^ (e - 1)) by (apply Z.pow_le_mono_r; lia).
    replace (41 + k) with (ML + (B + 31)) by (unfold k; lia). rewrite Z.pow_add_r by lia.
    pose proof (Z.pow_pos_nonneg 2 ML ltac:(lia) ltac:(lia)). nia.
Qed.

Lemma narrow_bound : e <= B + 31 -> N < 2 ^ (41 + k).
Proof.
  intros Hr. destruct narrow_nonneg as [HN EN]. pose proof (Z.pow_pos_nonneg 2 ML ltac:(lia) ltac:(lia)).
  replace (41 + k) with ((ML + 1) + (B + 30)) by (unfold k; lia). rewrite Z.pow_add_r, (Z.pow_add_r 2 ML) by lia.
  destruct (decide (e = 0)) as [E0|].
  - unfold N, wide_mag. rewrite E0. simpl. pose proof (Z.pow_pos_nonneg 2 (B + 30) ltac:(lia) ltac:(lia)). nia.
  - rewrite EN by lia. assert (2 ^ (e - 1) <= 2 ^ (B + 30)) by (apply Z.pow_le_mono_r; lia). nia.
Qed.
End narrow.

(** The fields of a float with [ML] mantissa and [EL] exponent bits. *)
Lemma field_at x n k : 0 <= n -> 0 <= k -> Z.shiftr (Z.land x (Z.ones n * 2 ^ k)) k = x / 2 ^ k mod 2 ^ n.
Proof.
  intros Hn Hk. rewrite land_field, shiftr_div by done. apply Z.div_mul. apply Z.pow_nonzero; lia.
Qed.

Definition f32_sign (f : Z) : Z := f / 2 ^ 31 mod 2.
Definition f32_exp (f : Z) : Z := f / 2 ^ 23 mod 2 ^ 8.
Definition f32_man (f : Z) : Z := f mod 2 ^ 23.
Definition f32_mag (f : Z) : Z := wide_mag 23 (f32_exp f) (f32_man f).
Definition f64_sign (d : Z) : Z := d / 2 ^ 63 mod 2.
Definition f64_exp (d : Z) : Z := d / 2 ^ 52 mod 2 ^ 11.
Definition f64_man (d : Z) : Z := d mod 2 ^ 52.
Definition f64_mag (d : Z) : Z := wide_mag 52 (f64_exp d) (f64_man d).

Lemma of_float_eq f : of_float f = pack (f32_sign f) (narrow 23 112 (f32_exp f) (f32_man f)).
Proof.
  unfold of_float, pack, narrow. change kFp32SignMask with (Z.ones 1 * 2 ^ 31). change kFp32ExpMask with (Z.ones 8 * 2 ^ 23).
  unfold kFp32SignIndex, kFp32ManLen. rewrite !field_at by lia. change kFp32ManMask with (Z.ones 23). rewrite Z.land_ones by lia.
  change (f / 2 ^ 31 mod 2 ^ 1) with (f32_sign f). fold (f32_exp f). fold (f32_man f).
  replace (Z.lor (f32_man f) kFp32ManHideBit) with (2 ^ 23 + f32_man f).
  2: { rewrite Z.lor_comm. change kFp32ManHideBit with (1 * 2 ^ 23). rewrite lor_low by (try apply Z.mod_pos_bound; lia). lia. }
  change (112 + 31) with 0x8F. change (112 - 9) with 0x67. change (112 - 10) with 0x66. change 112 with 0x70.
  change (23 - kFp16ManLen) with (23 - 10). destruct (0x8F <? f32_exp f); [done|]. destruct (f32_exp f <=? 0x70); [done|].
  by destruct (negb _).
Qed.

Lemma of_double_eq d : of_double d = pack (f64_sign d) (narrow 52 1008 (f64_exp d) (f64_man d)).
Proof.
  unfold of_double, pack, narrow. change kFp64SignMask with (Z.ones 1 * 2 ^ 63). change kFp64ExpMask with (Z.ones 11 * 2 ^ 52).
  unfold kFp64SignIndex, kFp64ManLen. rewrite !field_at by lia. change kFp64ManMask with (Z.ones 52). rewrite Z.land_ones by lia.
  change (d / 2 ^ 63 mod 2 ^ 1) with (f64_sign d). fold (f64_exp d). fold (f64_man d).
  replace (Z.lor kFp64ManHideBit (f64_man d)) with (2 ^ 52 + f64_man d).
  2: { change kFp64ManHideBit with (1 * 2 ^ 52). rewrite lor_low by (try apply Z.mod_pos_bound; lia). lia. }
  change (1008 - 9) with 0x3E7. change (1008 - 10) with 0x3E6. change (1008 + 31) with 1039. change 1008 with 0x3F0.
  replace (0x410 <=? f64_exp d) with (1039 <? f64_exp d) by (destruct (Z.leb_spec 0x410 (f64_exp d)), (Z.ltb_spec 1039 (f64_exp d)); lia).
  change (52 - kFp16ManLen) with (52 - 10). destruct (1039 <? f64_exp d); [done|]. destruct (f64_exp d <=? 0x3F0); [done|].
  by destruct (negb _).
Qed.

(** The outcome of a conversion from a wider float: nearest, a NaN pattern from
    65520 on, the largest half from 2^17 on. *)
Definition narrowed (s k N r : Z) : Prop :=
  (N < 2 ^ (41 + k) /\ rounded 0x7FFF s k N r) \/ (2 ^ (41 + k) <= N /\ r = s * 32768 + kFp16Max).

Lemma narrow_correct ML B e m s :
  12 <= ML <= 53 -> 11 <= B -> 0 <= e -> 0 <= m < 2 ^ ML -> 0 <= s < 2 ->
  narrowed s (B + ML - 10) (wide_mag ML e m) (pack s (narrow ML B e m)).
Proof.
  intros HML HB He Hm Hs. destruct (decide (e <= B + 31)) as [Hle|].
  - left. split; [by apply narrow_bound|]. destruct (decide (e <= B)); [by apply narrow_small|]. apply narrow_regular; try done. lia.
  - right. destruct (narrow_large ML B e m s) as [H1 H2]; try done. lia.
Qed.

Lemma of_float_narrowed f : narrowed (f32_sign f) 125 (f32_mag f) (of_float f).
Proof.
  rewrite of_float_eq. apply (narrow_correct 23 112); try lia; apply Z.mod_pos_bound; lia.
Qed.

Lemma of_double_narrowed d : narrowed (f64_sign d) 1050 (f64_mag d) (of_double d).
Proof.
  rewrite of_double_eq. apply (narrow_correct 52 1008); try lia; apply Z.mod_pos_bound; lia.
Qed.

(** ** To wider floats *)

(** A half of exponent [e] and mantissa [m] has its leading one moved up. *)
Lemma normalize_man_spec e m :
  -16 <= e <= 32 -> 0 <= m < 2048 ->
  wp (normalize_man e m) (fun '(e', m') =>
    (m = 0 /\ m' = 0) \/ (1024 <= m' < 2048 /\ e - 10 <= e' <= e /\ m * 2 ^ (e + 26) = m' * 2 ^ (e' + 26))).
Proof.
  intros He Hm. unfold normalize_man. destruct (decide (m = 0)) as [->|Hne].
  { simpl. by left. }
  apply (wp_while (fun '(e', m') => 0 < m' < 2048 /\ e - 10 <= e' <= e /\ m' * 2 ^ (e' - (e - 10)) = m * 2 ^ 10 /\
      m * 2 ^ (e + 26) = m' * 2 ^ (e' + 26)) (fun '(e', m') => e' - (e - 11))).
  - replace (e - (e - 10)) with 10 by lia. split_and!; lia.
  - unfold loop_fuel. lia.
  - intros [e' m'] (Hm' & He' & Ei & Ev) [Hn0 Hb]%andb_true_iff.
    change kFp16ManHideBit with (2 ^ 10) in Hb. rewrite land_pow2 in Hb by lia. apply Z.eqb_eq in Hb.
    assert (m' < 1024).
    { destruct (decide (m' < 1024)); [done|]. assert (m' / 2 ^ 10 = 1) as E1 by (symmetry; apply (Z.div_unique_pos m' (2 ^ 10) 1 (m' - 1024)); lia).
      rewrite E1 in Hb. done. }
    assert (e - 10 < e').
    { destruct (decide (e' = e - 10)) as [->|]; [|lia]. rewrite Z.sub_diag, Z.pow_0_r in Ei. lia. }
    assert (Es : shl 16 m' 1 = 2 * m') by (unfold shl; rewrite shiftl_mul by lia; rewrite uwrap_small; lia). rewrite Es.
    assert (forall c, 0 <= c -> 2 * m' * 2 ^ c = m' * 2 ^ (c + 1)) as Hd by (intros c Hc; rewrite Z.pow_add_r by lia; lia).
    split_and!; try lia.
    + rewrite Hd by lia. rewrite <- Ei. do 2 f_equal. lia.
    + rewrite Hd by lia. rewrite Ev. do 2 f_equal. lia.
  - intros [e' m'] (Hm' & He' & Ei & Ev) Hc. right. split_and!; try lia.
    rewrite (proj2 (Z.eqb_neq m' 0)) in Hc by lia. simpl in Hc. change kFp16ManHideBit with (2 ^ 10) in Hc.
    rewrite land_pow2 in Hc by lia. apply Z.eqb_neq in Hc. destruct (decide (1024 <= m')); [done|]. rewrite Z.div_small in Hc by lia. done.
  - unfold loop_fuel. lia.
Qed.

(** Putting a float together and taking it apart. *)
Lemma wide_fields ML EL s e m x :
  0 <= ML -> 0 <= EL -> 0 <= s < 2 -> 0 <= e < 2 ^ EL -> 0 <= m < 2 ^ ML -> x = (s * 2 ^ EL + e) * 2 ^ ML + m ->
  x / 2 ^ (ML + EL) mod 2 = s /\ x / 2 ^ ML mod 2 ^ EL = e /\ x mod 2 ^ ML = m.
Proof.
  intros HML HEL Hs He Hm ->. pose proof (Z.pow_pos_nonneg 2 ML ltac:(lia) HML). pose proof (Z.pow_pos_nonneg 2 EL ltac:(lia) HEL).
  rewrite Z.pow_add_r, <- Z.div_div by lia. rewrite Z.div_add_l, (Z.div_small m), Z.add_0_r by lia.
  rewrite Z.div_add_l, (Z.div_small e), Z.add_0_r by lia. split_and!.
  - by apply Z.mod_small.
  - rewrite Z.add_comm, Z.mod_add by lia. by apply Z.mod_small.
  - rewrite Z.add_comm, Z.mod_add by lia. by apply Z.mod_small.
Qed.

Lemma wide_lor w ML EL s e m :
  0 <= ML -> 0 <= EL -> w = ML + EL + 1 -> 0 <= s < 2 -> 0 <= e < 2 ^ EL -> 0 <= m < 2 ^ ML ->
  Z.lor (Z.lor (shl w s (ML + EL)) (shl w e ML)) m = (s * 2 ^ EL + e) * 2 ^ ML + m.
Proof.
  intros HML HEL -> Hs He Hm. pose proof (Z.pow_pos_nonneg 2 ML ltac:(lia) HML). pose proof (Z.pow_pos_nonneg 2 EL ltac:(lia) HEL).
  unfold shl. rewrite !shiftl_mul by lia. rewrite !Z.pow_add_r by lia. rewrite !uwrap_small.
  2-3: rewrite !Z.pow_add_r, Z.pow_1_r by lia; nia.
  rewrite <- (lor_low _ m) by done. f_equal. rewrite (Z.mul_comm (2 ^ ML)), Z.mul_assoc, <- !(Z.shiftl_mul_pow2 _ ML), <- Z.shiftl_lor by lia.
  f_equal. by apply lor_low.
Qed.

(** What both conversions compute from the normalised mantissa. *)
Lemma widen_value ML BI e m e' m' :
  10 <= ML -> 30 <= BI -> 1 <= e -> -10 <= e' -> 1024 <= m' < 2048 -> m * 2 ^ (e + 26) = m' * 2 ^ (e' + 26) ->
  wide_mag ML (e' - 15 + BI) (m' mod 1024 * 2 ^ (ML - 10)) = m * 2 ^ (e - 1) * 2 ^ (BI - 15 + ML - 10).
Proof.
  intros HML HBI He He' Hm' Ev. unfold wide_mag. rewrite (proj2 (Z.eqb_neq _ _)) by lia.
  replace (m' mod 1024) with (m' - 1024) by (apply (Z.mod_unique_pos m' 1024 1); lia).
  replace (2 ^ ML) with (1024 * 2 ^ (ML - 10)) by (change 1024 with (2 ^ 10); rewrite <- Z.pow_add_r by lia; f_equal; lia).
  replace (1024 * 2 ^ (ML - 10) + (m' - 1024) * 2 ^ (ML - 10)) with (m' * 2 ^ (ML - 10)) by lia.
  rewrite <- !Z.mul_assoc, <- !Z.pow_add_r by lia.
  apply (Z.mul_cancel_r _ _ (2 ^ 26)); [lia|]. rewrite <- !Z.mul_assoc, <- !Z.pow_add_r by lia.
  match goal with |- m' * 2 ^ ?a = m * 2 ^ ?b =>
    replace a with ((e' + 26) + (ML - 10 + BI - 16)) by lia; replace b with ((e + 26) + (ML - 10 + BI - 16)) by lia end.
  rewrite (Z.pow_add_r 2 (e' + 26)), (Z.pow_add_r 2 (e + 26)), !Z.mul_assoc by lia. by rewrite Ev.
Qed.

Definition widened (s p k : Z) (sign mag' : Z) : Prop := sign = s /\ mag' = mag p * 2 ^ k.

Lemma ToFloat_spec v s e m :
  is_half v s e m ->
  exists F, Fp16ToFloatVal v = Ok F /\ 0 <= F < 2 ^ 32 /\ widened s ((e - 1) * 1024 + m) 125 (f32_sign F) (f32_mag F).
Proof.
  intros [Ex Hs He Hm Hn Ev _ _ _ _]. unfold Fp16ToFloatVal. rewrite Ex. pose proof (normalize_man_spec e m ltac:(lia) Hm) as Hnm.
  destruct (normalize_man e m) as [[e' m']| |]; [|done|done]. simpl in Hnm. cbn [mbind outcome_bind].
  destruct Hnm as [[-> ->]|(Hm' & He2 & Eq)].
  - simpl. assert (e = 1) as -> by lia. unfold Fp32Constructor.
    eexists. split; [done|]. change (shl 32 0 kFp32ManLen) with 0. change (Z.land 0 8388607) with 0. rewrite !Z.lor_0_r.
    assert (E : shl 32 s kFp32SignIndex = (s * 2 ^ 8 + 0) * 2 ^ 23 + 0).
    { unfold shl, kFp32SignIndex. rewrite shiftl_mul by lia. rewrite uwrap_small; lia. }
    destruct (wide_fields 23 8 s 0 0 _ ltac:(lia) ltac:(lia) Hs ltac:(lia) ltac:(lia) E) as (F1 & F2 & F3).
    split; [rewrite E; lia|]. split; [done|]. unfold f32_mag, f32_exp, f32_man. by rewrite F2, F3.
  - rewrite (proj2 (Z.eqb_neq m' 0)) by lia. unfold Fp32Constructor, kFp32SignIndex, kFp32ManLen, kFp16ManLen.
    change kFp16ManMask with (Z.ones 10). change 0x7FFFFF with (Z.ones 23). rewrite !Z.land_ones by lia.
    pose proof (Z.mod_pos_bound m' (2 ^ 10) ltac:(lia)).
    assert (E1 : shl 32 (m' mod 2 ^ 10) (23 - 10) = m' mod 2 ^ 10 * 2 ^ 13) by (unfold shl; rewrite shiftl_mul by lia; apply uwrap_small; lia).
    assert (E2 : u32 (u32 (u32 e' - kFp16ExpBias) + kFp32ExpBias) = e' - 15 + 127).
    { unfold u32, uwrap, kFp16ExpBias, kFp32ExpBias. rewrite Zminus_mod_idemp_l, Zplus_mod_idemp_l. apply Z.mod_small. lia. }
    rewrite E1, E2, (Z.mod_small (m' mod 2 ^ 10 * 2 ^ 13)) by lia.
    rewrite (wide_lor 32 23 8 s (e' - 15 + 127)) by lia. eexists. split; [done|].
    destruct (wide_fields 23 8 s (e' - 15 + 127) (m' mod 2 ^ 10 * 2 ^ 13) _ ltac:(lia) ltac:(lia) Hs ltac:(lia) ltac:(lia) eq_refl) as (F1 & F2 & F3).
    split; [lia|]. split; [done|]. unfold f32_mag, f32_exp, f32_man. rewrite F2, F3. rewrite mag_pattern by lia.
    exact (widen_value 23 127 e m e' m' ltac:(lia) ltac:(lia) ltac:(lia) ltac:(lia) Hm' Eq).
Qed.

Lemma ToDouble_spec v s e m :
  is_half v s e m ->
  exists F, Fp16ToDouble v = Ok F /\ 0 <= F < 2 ^ 64 /\ widened s ((e - 1) * 1024 + m) 1050 (f64_sign F) (f64_mag F).
Proof.
  intros [Ex Hs He Hm Hn Ev _ _ _ _]. unfold Fp16ToDouble. rewrite Ex. pose proof (normalize_man_spec e m ltac:(lia) Hm) as Hnm.
  destruct (normalize_man e m) as [[e' m']| |]; [|done|done]. simpl in Hnm. cbn [mbind outcome_bind].
  destruct Hnm as [[-> ->]|(Hm' & He2 & Eq)].
  - simpl. assert (e = 1) as -> by lia.
    eexists. split; [done|]. change (shl 64 0 kFp64ManLen) with 0. rewrite !Z.lor_0_r.
    assert (E : shl 64 s kFp64SignIndex = (s * 2 ^ 11 + 0) * 2 ^ 52 + 0).
    { unfold shl, kFp64SignIndex. rewrite shiftl_mul by lia. rewrite uwrap_small; lia. }
    destruct (wide_fields 52 11 s 0 0 _ ltac:(lia) ltac:(lia) Hs ltac:(lia) ltac:(lia) E) as (F1 & F2 & F3).
    split; [rewrite E; lia|]. split; [done|]. unfold f64_mag, f64_exp, f64_man. by rewrite F2, F3.
  - rewrite (proj2 (Z.eqb_neq m' 0)) by lia. unfold kFp64SignIndex, kFp64ManLen, kFp16ManLen.
    change kFp16ManMask with (Z.ones 10). rewrite !Z.land_ones by lia.
    pose proof (Z.mod_pos_bound m' (2 ^ 10) ltac:(lia)).
    assert (E1 : shl 64 (m' mod 2 ^ 10) (52 - 10) = m' mod 2 ^ 10 * 2 ^ 42) by (unfold shl; rewrite shiftl_mul by lia; apply uwrap_small; lia).
    assert (E2 : u64 (u64 (u64 e' - kFp16ExpBias) + kFp64ExpBias) = e' - 15 + 1023).
    { unfold u64, uwrap, kFp16ExpBias, kFp64ExpBias. rewrite Zminus_mod_idemp_l, Zplus_mod_idemp_l. apply Z.mod_small. lia. }
    rewrite E1, E2. rewrite (wide_lor 64 52 11 s (e' - 15 + 1023)) by lia. eexists. split; [done|].
    destruct (wide_fields 52 11 s (e' - 15 + 1023) (m' mod 2 ^ 10 * 2 ^ 42) _ ltac:(lia) ltac:(lia) Hs ltac:(lia) ltac:(lia) eq_refl) as (F1 & F2 & F3).
    split; [lia|]. split; [done|]. unfold f64_mag, f64_exp, f64_man. rewrite F2, F3. rewrite mag_pattern by lia.
    exact (widen_value 52 1023 e m e' m' ltac:(lia) ltac:(lia) ltac:(lia) ltac:(lia) Hm' Eq).
Qed.
