(* ===== verification/NumFp16Int.v ===== *)
(** * NumFp16Int: halves and integers

    Conversions to integers round to the nearest integer, ties to even, and
    saturate at the bounds of the type; the conversion from [int32_t] rounds to
    the nearest half. *)

From S2P Require Import Prelude NumBits NumFp16 NumFp16Value NumFp16Convert.

(** ** Rounding and signs *)

Lemma rne_opp n j : 0 <= j -> rne (- n) j = - rne n j.
Proof.
  intros Hj. pose proof (Z.pow_pos_nonneg 2 j ltac:(lia) Hj) as Hp. set (d := 2 ^ j) in *.
  pose proof (Z.div_mod n d ltac:(lia)) as E. pose proof (Z.mod_pos_bound n d Hp) as B. unfold rne. fold d.
  destruct (decide (n mod d = 0)) as [E0|N0].
  - rewrite Z.div_opp_l_z, Z.mod_opp_l_z, E0 by lia. rewrite Z.mul_0_r, (proj2 (Z.ltb_ge d 0)), (proj2 (Z.eqb_neq 0 d)) by lia. simpl. lia.
  - rewrite Z.div_opp_l_nz, Z.mod_opp_l_nz by lia. rewrite <- (Z.odd_opp (- _ - 1)). replace (- (- (n / d) - 1)) with (n / d + 1) by lia.
    rewrite Z.add_1_r, Z.odd_succ, <- Z.negb_odd.
    destruct (Z.ltb_spec d (2 * (d - n mod d))), (Z.ltb_spec d (2 * (n mod d))); simpl; try lia.
    + rewrite (proj2 (Z.eqb_neq (2 * (n mod d)) d)) by lia. simpl. lia.
    + rewrite (proj2 (Z.eqb_neq (2 * (d - n mod d)) d)) by lia. simpl. lia.
    + rewrite (proj2 (Z.eqb_eq (2 * (n mod d)) d)), (proj2 (Z.eqb_eq (2 * (d - n mod d)) d)) by lia. simpl. destruct (Z.odd (n / d)); simpl; lia.
Qed.

Definition clamp (lo hi x : Z) : Z := Z.max lo (Z.min hi x).

(** The integer a half is rounded to. *)
Definition to_integer (v : Z) : Z := rne (signed v) 24.

Lemma to_integer_half v s e m : is_half v s e m -> to_integer v = (if s =? 0 then rne (m * 2 ^ (e - 1)) 24 else - rne (m * 2 ^ (e - 1)) 24).
Proof. intros H. unfold to_integer. rewrite (half_value v s e m H). destruct (s =? 0); [done|]. by apply rne_opp. Qed.

(** ** Two's complement *)

(** The end of the signed conversions, for a type of [w] bits. *)
Definition twos (w s m : Z) : Z :=
  let m := if negb (s =? 0) then uwrap w (uwrap w (Z.lnot m) + 1) else m in
  let s := if m =? 0 then 0 else s in
  Z.lor (shl w s (w - 1)) m.

Lemma twos_value w s m :
  1 <= w -> 0 <= s < 2 -> 0 <= m <= 2 ^ (w - 1) -> (s = 0 -> m < 2 ^ (w - 1)) -> swrap w (twos w s m) = (if s =? 0 then m else - m).
Proof.
  intros Hw Hs Hm Hp. pose proof (Z.pow_pos_nonneg 2 (w - 1) ltac:(lia) ltac:(lia)) as Hh.
  assert (Ew : 2 ^ w = 2 * 2 ^ (w - 1)) by (rewrite <- Z.pow_succ_r by lia; f_equal; lia). unfold twos, swrap.
  destruct (Z.eqb_spec s 0) as [->|Hne]; simpl.
  - replace (if m =? 0 then 0 else 0) with 0 by (by destruct (m =? 0)). unfold shl. rewrite Z.shiftl_0_l. unfold uwrap.
    specialize (Hp eq_refl).
    rewrite Z.mod_0_l, Z.lor_0_l, Z.mod_small by lia. lia.
  - assert (s = 1) as -> by lia. assert (El : uwrap w (uwrap w (Z.lnot m) + 1) = (- m) mod 2 ^ w).
    { unfold uwrap. rewrite Zplus_mod_idemp_l. f_equal. unfold Z.lnot. lia. }
    rewrite El. destruct (decide (m = 0)) as [->|Hm0].
    + change (- 0) with 0. rewrite (Z.mod_0_l (2 ^ w)) by lia. cbn [Z.eqb]. unfold shl, uwrap.
      rewrite Z.shiftl_0_l, (Z.mod_0_l (2 ^ w)), Z.lor_0_l, Z.mod_small by lia. lia.
    + assert (En : (- m) mod 2 ^ w = 1 * 2 ^ (w - 1) + (2 ^ (w - 1) - m)) by (symmetry; apply (Z.mod_unique_pos _ _ (-1)); lia).
      rewrite En, (proj2 (Z.eqb_neq _ 0)) by lia. rewrite <- lor_low by lia. unfold shl. rewrite shiftl_mul, uwrap_small by lia.
      rewrite Z.lor_assoc, Z.lor_diag, lor_low by lia.
      replace (1 * 2 ^ (w - 1) + (2 ^ (w - 1) - m) + 2 ^ (w - 1)) with (2 ^ (w - 1) - m + 1 * 2 ^ w) by lia.
      rewrite Z.mod_add, Z.mod_small by lia. lia.
Qed.

(** ** Scaling *)

Lemma scale_down over e m : 0 <= e <= 15 -> scale over e m = Ok (MkScaled 15 m (15 - e) false).
Proof.
  intros He. enough (Hw : wp (scale over e m) (fun s => s = MkScaled 15 m (15 - e) false)).
  { apply wp_Ok in Hw as (? & -> & ->). done. }
  apply (wp_while (fun s => exists i, 0 <= i <= 15 - e /\ s = MkScaled (e + i) m i false) (fun s => 15 - hf_e s)).
  - exists 0. split; [lia|]. f_equal. lia.
  - simpl. unfold loop_fuel. lia.
  - intros ? (i & Hi & ->) Hc. simpl in Hc. unfold kFp16ExpBias in *. apply negb_true_iff, Z.eqb_neq in Hc. simpl.
    rewrite (proj2 (Z.ltb_ge _ _)) by lia. split; [|simpl; lia]. exists (i + 1). split; [lia|]. f_equal. lia.
  - intros ? (i & Hi & ->) Hc. simpl in Hc. unfold kFp16ExpBias in *. apply negb_false_iff, Z.eqb_eq in Hc. f_equal; lia.
  - unfold loop_fuel. lia.
Qed.

(** [over] stops the loop from [T] on. *)
Definition stops (over : Z -> option Z) (T : Z) : Prop := forall x, 0 <= x < 2 ^ 27 -> is_Some (over x) <-> T <= x.

Lemma scale_up over T e m :
  stops over T -> 2048 <= T -> 15 <= e <= 30 -> 0 <= m < 2048 ->
  wp (scale over e m) (fun s => if T <=? m * 2 ^ (e - 15) then overflow_flag s = true else s = MkScaled 15 (m * 2 ^ (e - 15)) 0 false).
Proof.
  intros Hst HT He Hm.
  assert (Hpow : forall i, 0 <= i <= 15 -> m * 2 ^ i <= m * 2 ^ 15 < 2 ^ 27) by (intros i Hi; pose proof (Z.pow_le_mono_r 2 i 15); nia).
  apply (wp_while (fun s => 15 <= hf_e s <= e /\
    if overflow_flag s then T <= m * 2 ^ (e - 15) else shift_out s = 0 /\ long_int_m s = m * 2 ^ (e - hf_e s) /\ long_int_m s < T)
    (fun s => if overflow_flag s then 0 else hf_e s - 14)).
  - simpl. rewrite Z.sub_diag, Z.pow_0_r. lia.
  - simpl. unfold loop_fuel. lia.
  - intros [h l sh fl] [Hh Hi] Hc. simpl in *. destruct fl; [done|]. simpl in Hc. unfold kFp16ExpBias in *.
    apply negb_true_iff, Z.eqb_neq in Hc. destruct Hi as (-> & -> & HlT). rewrite (proj2 (Z.ltb_lt _ _)) by lia.
    assert (Es : shl 64 (m * 2 ^ (e - h)) 1 = m * 2 ^ (e - (h - 1))).
    { unfold shl. rewrite shiftl_mul by lia. replace (e - (h - 1)) with (e - h + 1) by lia. rewrite Z.pow_add_r, Z.mul_assoc by lia.
      apply uwrap_small. pose proof (Hpow (e - h + 1) ltac:(lia)). rewrite Z.pow_add_r in * by lia. pose proof (Z.pow_pos_nonneg 2 (e - h)). nia. }
    rewrite Es. pose proof (Hpow (e - (h - 1)) ltac:(lia)). assert (0 <= m * 2 ^ (e - (h - 1))) by (pose proof (Z.pow_pos_nonneg 2 (e - (h - 1))); nia).
    pose proof (Hst (m * 2 ^ (e - (h - 1))) ltac:(lia)) as Hx. destruct (over _) as [c|]; simpl.
    + split; [|lia]. split; [lia|]. apply proj1 in Hx. specialize (Hx ltac:(done)). pose proof (Z.pow_le_mono_r 2 (e - (h - 1)) (e - 15) ltac:(lia) ltac:(lia)). nia.
    + split; [|lia]. split_and!; try lia. destruct (decide (T <= m * 2 ^ (e - (h - 1)))) as [Hle|]; [|lia]. by destruct (proj2 Hx Hle).
  - intros [h l sh fl] [Hh Hi] Hc. simpl in *. destruct fl; simpl in *.
    + by rewrite (proj2 (Z.leb_le _ _)).
    + unfold kFp16ExpBias in Hc. apply negb_false_iff, Z.eqb_eq in Hc. destruct Hi as (-> & -> & HlT). subst h. by rewrite (proj2 (Z.leb_gt _ _)).
  - unfold loop_fuel. lia.
Qed.

(** What the conversions find after the loop: an integer part, and whether to
    round up to [R]. *)
Record scaled_to (T R : Z) (s : Scaled) (x : Z) (up : bool) : Prop := {
  sc_flag : overflow_flag s = false;
  sc_int : Z.shiftr (long_int_m s) (kFp16ManLen + shift_out s) = x;
  sc_up : Fp16IsRoundOne (long_int_m s) (shift_out s + kFp16ManLen) = up;
  sc_round : x + (if up then 1 else 0) = R;
  sc_range : 0 <= x /\ x * 1024 < T;
  sc_small : up = false \/ x < 1024;
}.

Lemma scaled_intro T R long sh :
  0 <= long < 2 ^ 27 -> 0 <= sh <= 15 -> (long / 2 ^ (10 + sh)) * 1024 < T -> rne long (10 + sh) = R ->
  rne long (10 + sh) * 2 ^ (10 + sh) = long \/ long / 2 ^ (10 + sh) < 1024 ->
  exists x up, scaled_to T R (MkScaled 15 long sh false) x up.
Proof.
  intros Hl Hsh HT HR Hs. exists (long / 2 ^ (10 + sh)), (Fp16IsRoundOne long (sh + 10)).
  pose proof (IsRoundOne_rne long (sh + 10) ltac:(lia)) as E. rewrite (Z.add_comm sh 10) in *.
  assert (0 < 2 ^ (10 + sh)) by (apply Z.pow_pos_nonneg; lia). assert (0 <= long / 2 ^ (10 + sh)) by (apply Z.div_pos; lia).
  split; simpl; try done.
  - unfold kFp16ManLen. by rewrite shiftr_div by lia.
  - unfold kFp16ManLen. by rewrite (Z.add_comm sh 10).
  - by rewrite E.
  - destruct Hs as [Hs|Hs]; [left|by right]. destruct (Fp16IsRoundOne long (10 + sh)); [|done].
    rewrite <- E in Hs. pose proof (Z.mul_succ_div_gt long (2 ^ (10 + sh)) ltac:(lia)). lia.
Qed.

Lemma scale_spec over T e m :
  stops over T -> 2048 <= T -> 1 <= e <= 30 -> 1024 <= m < 2048 ->
  wp (scale over e m) (fun s =>
    if T <=? m * 2 ^ (e - 15) then overflow_flag s = true /\ T <= m * 2 ^ (e - 15) /\ 15 <= e
    else exists x up, scaled_to T (rne (m * 2 ^ (e - 1)) 24) s x up).
Proof.
  intros Hst HT He Hm. destruct (decide (e < 15)) as [Hlt|Hge].
  - rewrite scale_down by lia. simpl. rewrite (Z.pow_neg_r 2 (e - 15)), Z.mul_0_r, (proj2 (Z.leb_gt _ _)) by lia.
    assert (Ed : m / 2 ^ (10 + (15 - e)) = 0) by (apply Z.div_small; pose proof (Z.pow_le_mono_r 2 11 (10 + (15 - e)) ltac:(lia) ltac:(lia)); lia).
    apply scaled_intro; try lia. apply (rne_same m (10 + (15 - e)) (m * 2 ^ (e - 1)) 24 (e - 1) 0); lia.
  - eapply wp_mono; [apply (scale_up over T e m); try done; lia|]. intros s. simpl. destruct (Z.leb_spec T (m * 2 ^ (e - 15))) as [|Hl]; [intros; split_and!; [done|lia|lia]|].
    intros ->. assert (Hp : 0 < 2 ^ (e - 15) <= 2 ^ 15) by (split; [apply Z.pow_pos_nonneg|apply Z.pow_le_mono_r]; lia).
    assert (ER : rne (m * 2 ^ (e - 15)) 10 = rne (m * 2 ^ (e - 1)) 24).
    { apply (rne_same _ 10 _ 24 14 0); try lia. rewrite <- Z.mul_assoc, <- Z.pow_add_r, Z.mul_1_r by lia. do 2 f_equal. lia. }
    apply scaled_intro; try lia.
    + nia.
    + change (10 + 0) with 10. pose proof (Z.mul_div_le (m * 2 ^ (e - 15)) (2 ^ 10) ltac:(lia)). lia.
    + done.
    + change (10 + 0) with 10. destruct (decide (e < 25)) as [H25|H25].
      * right. assert (2 ^ (e - 15) <= 2 ^ 9) by (apply Z.pow_le_mono_r; lia). apply Z.div_lt_upper_bound; nia.
      * left. assert (E10 : m * 2 ^ (e - 15) = (m * 2 ^ (e - 25)) * 2 ^ 10) by (rewrite <- Z.mul_assoc, <- Z.pow_add_r by lia; do 2 f_equal; lia).
        rewrite E10. replace 10 with (0 + 10) at 2 by lia. by rewrite rne_scale, rne_0 by lia.
Qed.

(** Overflow is past the largest integer. *)
Lemma overflow_rne T e m hi : T <= m * 2 ^ (e - 15) -> 15 <= e -> hi * 2 ^ 10 <= T + 512 -> 0 <= hi -> Z.even hi = true -> hi <= rne (m * 2 ^ (e - 1)) 24.
Proof.
  intros HT He Hhi H0 Hev. assert (E : m * 2 ^ (e - 1) = m * 2 ^ (e - 15) * 2 ^ 14) by (rewrite <- Z.mul_assoc, <- Z.pow_add_r by lia; do 2 f_equal; lia).
  rewrite E. change 24 with (10 + 14). rewrite rne_scale by lia. set (n := m * 2 ^ (e - 15)) in *.
  pose proof (Z.div_mod n (2 ^ 10) ltac:(lia)). pose proof (Z.mod_pos_bound n (2 ^ 10) ltac:(lia)).
  destruct (rne_cases n 10 ltac:(lia)) as [[-> Hr]|[-> Hr]]; [|lia]. destruct (decide (hi <= n / 2 ^ 10)); [done|].
  destruct Hr as [Hr|[Hr Hq]]; [lia|]. assert (n / 2 ^ 10 = hi - 1) as Eq by lia. rewrite Eq in Hq.
  by rewrite Z.sub_1_r, Z.even_pred, <- Z.negb_even, Hev in Hq.
Qed.

(** ** The conversions *)

Lemma mask_small x n mask : mask = Z.ones n -> 0 <= n -> 0 <= x < 2 ^ n -> Z.land x mask = x.
Proof. intros -> Hn Hx. rewrite Z.land_ones by done. by apply Z.mod_small. Qed.

Lemma small_to_zero v s e m : is_half v s e m -> m < 1024 -> to_integer v = 0.
Proof.
  intros H Hlt. rewrite (to_integer_half v s e m H). destruct (ih_norm _ _ _ _ H) as [->|?]; [|lia].
  pose proof (ih_man _ _ _ _ H). rewrite Z.sub_diag, Z.pow_0_r, Z.mul_1_r. unfold rne. rewrite Z.div_small, Z.mod_small by lia.
  rewrite (proj2 (Z.ltb_ge _ _)), (proj2 (Z.eqb_neq (2 * m) (2 ^ 24))) by lia. by destruct (s =? 0).
Qed.

(** Finite halves, split as the conversions do. *)
Lemma finite_cases v : finite v -> exists s e m, is_half v s e m /\ 1 <= e <= 30 /\
  Fp16ExtracSign v = s /\ Fp16ExtracMan v = m /\ Fp16IsInvalid v = false /\
  ((Fp16IsDenorm v = true /\ m < 1024 /\ Fp16ExtracExp v = 0) \/ (Fp16IsDenorm v = false /\ 1024 <= m /\ Fp16ExtracExp v = e)).
Proof.
  intros Hf. destruct (finite_parts v Hf) as (s & e & m & H & He). exists s, e, m.
  pose proof (ih_extract _ _ _ _ H) as Ex. unfold ExtractFp16 in Ex. injection Ex as E1 _ E3.
  pose proof (ih_exp _ _ _ _ H). split_and!; try done; try lia; [apply Hf|].
  rewrite (ih_denorm _ _ _ _ H), (ih_field _ _ _ _ H). destruct (Z.ltb_spec m 1024); [left|right]; auto.
Qed.

Definition over8 (s : Z) (m : Z) : option Z :=
  if (s =? 1) && (0x20000 <=? m) then Some 0x20000
  else if negb (s =? 1) && (0x1FFFF <=? m) then Some 0x1FFFF else None.
Definition over16 (s : Z) (m : Z) : option Z :=
  if (s =? 1) && (0x2000000 <? m) then Some 0x2000000
  else if negb (s =? 1) && (0x1FFFFFF <=? m) then Some 0x1FFFFFF else None.

(** A test against a bound stops there. *)
Lemma stops_at (over : Z -> option Z) (T c : Z) (test : Z -> bool) :
  (forall x, over x = if test x then Some c else None) -> (forall x, test x = true <-> T <= x) -> stops over T.
Proof. intros Ho Ht x _. rewrite Ho, <- Ht. destruct (test x); split; try done; by intros []. Qed.

Lemma over8_stops s : stops (over8 s) (if s =? 1 then 0x20000 else 0x1FFFF).
Proof.
  unfold over8. destruct (s =? 1); simpl.
  - apply (stops_at _ _ 0x20000 (fun x => 0x20000 <=? x)); [done|]. intros x. apply Z.leb_le.
  - apply (stops_at _ _ 0x1FFFF (fun x => 0x1FFFF <=? x)); [done|]. intros x. apply Z.leb_le.
Qed.
Lemma over16_stops s : stops (over16 s) (if s =? 1 then 0x2000001 else 0x1FFFFFF).
Proof.
  unfold over16. destruct (s =? 1); simpl.
  - apply (stops_at _ _ 0x2000000 (fun x => 0x2000000 <? x)).
    + intros x. by destruct (_ <? _).
    + intros x. rewrite Z.ltb_lt. lia.
  - apply (stops_at _ _ 0x1FFFFFF (fun x => 0x1FFFFFF <=? x)); [done|]. intros x. apply Z.leb_le.
Qed.
Lemma overu8_stops : stops (fun m => if 0x40000 <=? m then Some 0x3FFFF else None) 0x40000.
Proof. apply (stops_at _ _ 0x3FFFF (fun x => 0x40000 <=? x)); [done|]. intros x. apply Z.leb_le. Qed.
Lemma never_stops : stops never (2 ^ 27).
Proof. intros x Hx. split; [by intros []|lia]. Qed.

Lemma GetUint8_twos s l sh x up :
  Z.shiftr l (kFp16ManLen + sh) = x -> Fp16IsRoundOne l (sh + kFp16ManLen) = up -> 0 <= x < 256 ->
  GetUint8ValByMan s l sh = twos 8 s (if up && (((s =? 0) && (x <? 127)) || ((s =? 1) && (x <=? 127))) then u8 (x + 1) else x).
Proof.
  intros E1 E2 Hx. unfold GetUint8ValByMan. rewrite E1, E2. rewrite (mask_small x 8) by (done || lia). done.
Qed.
Lemma GetUint16_twos s l sh x up :
  Z.shiftr l (kFp16ManLen + sh) = x -> Fp16IsRoundOne l (sh + kFp16ManLen) = up -> 0 <= x < 2 ^ 16 ->
  GetUint16ValByMan s l sh = twos 16 s (if up && (x <? 32767) then u16 (x + 1) else x).
Proof.
  intros E1 E2 Hx. unfold GetUint16ValByMan. rewrite E1, E2. rewrite (mask_small x 16) by (done || lia). done.
Qed.

Lemma ToInt8_spec v : finite v -> Fp16ToInt8 v = Ok (clamp (-128) 127 (to_integer v)).
Proof.
  intros Hf. destruct (finite_cases v Hf) as (s & e & m & H & He & Es & Em & Ei & Hc).
  unfold Fp16ToInt8. destruct Hc as [(-> & Hm & _)|(-> & Hm & Ee)]; [by rewrite (small_to_zero v s e m H Hm)|].
  rewrite Es, Em, Ei, Ee. fold (over8 s). pose proof (ih_man _ _ _ _ H). pose proof (ih_sign _ _ _ _ H).
  pose proof (scale_spec (over8 s) _ e m (over8_stops s) ltac:(destruct (s =? 1); lia) He ltac:(lia)) as Hw.
  apply wp_Ok in Hw as (sc & -> & Hw). cbn [mbind outcome_bind]. rewrite (to_integer_half v s e m H). set (R := rne (m * 2 ^ (e - 1)) 24) in *.
  f_equal. destruct (Z.leb_spec (if s =? 1 then 0x20000 else 0x1FFFF) (m * 2 ^ (e - 15))).
  - destruct Hw as (-> & HT & H15). assert (128 <= R) by (apply (overflow_rne _ e m 128 HT H15); try done; destruct (s =? 1); lia).
    assert (s = 0 \/ s = 1) as [-> | ->] by lia; unfold clamp.
    + change (swrap 8 (u8 (kInt8Max + 0))) with 127. cbn [Z.eqb]. lia.
    + change (swrap 8 (u8 (kInt8Max + 1))) with (-128). cbn [Z.eqb]. lia.
  - destruct Hw as (x & up & [Hfl Hx Hup HR Hr Hs]). rewrite Hfl, (GetUint8_twos s _ _ x up Hx Hup) by (destruct (s =? 1); lia).
    assert (s = 0 \/ s = 1) as [-> | ->] by lia; cbn [Z.eqb Pos.eqb andb orb negb] in *; rewrite ?andb_true_r, ?orb_false_r in *.
    + assert (E : (if up && (x <? 127) then u8 (x + 1) else x) = Z.min 127 R).
      { destruct up; simpl; [|lia]. destruct (Z.ltb_spec x 127); [|lia]. unfold u8. rewrite uwrap_small; lia. }
      rewrite E, (twos_value 8 0) by (change (2 ^ (8 - 1)) with 128; destruct up; lia). unfold clamp. cbn [Z.eqb]. destruct up; lia.
    + assert (E : (if up && (x <=? 127) then u8 (x + 1) else x) = R /\ R <= 128).
      { destruct up; simpl; [|lia]. rewrite (proj2 (Z.leb_le _ _)) by lia. unfold u8. rewrite uwrap_small; lia. }
      destruct E as [-> HR128]. rewrite (twos_value 8 1) by (change (2 ^ (8 - 1)) with 128; destruct up; lia). unfold clamp. cbn [Z.eqb]. destruct up; lia.
Qed.

Lemma ToInt16_spec v : finite v -> Fp16ToInt16 v = Ok (clamp (-32768) 32767 (to_integer v)).
Proof.
  intros Hf. destruct (finite_cases v Hf) as (s & e & m & H & He & Es & Em & Ei & Hc).
  unfold Fp16ToInt16. destruct Hc as [(-> & Hm & _)|(-> & Hm & Ee)]; [by rewrite (small_to_zero v s e m H Hm)|].
  rewrite Es, Em, Ei, Ee. fold (over16 s). pose proof (ih_man _ _ _ _ H). pose proof (ih_sign _ _ _ _ H).
  pose proof (scale_spec (over16 s) _ e m (over16_stops s) ltac:(destruct (s =? 1); lia) He ltac:(lia)) as Hw.
  apply wp_Ok in Hw as (sc & -> & Hw). cbn [mbind outcome_bind]. rewrite (to_integer_half v s e m H). set (R := rne (m * 2 ^ (e - 1)) 24) in *.
  f_equal. destruct (Z.leb_spec (if s =? 1 then 0x2000001 else 0x1FFFFFF) (m * 2 ^ (e - 15))).
  - destruct Hw as (-> & HT & H15). assert (32768 <= R) by (apply (overflow_rne _ e m 32768 HT H15); try done; destruct (s =? 1); lia).
    assert (s = 0 \/ s = 1) as [-> | ->] by lia; unfold clamp.
    + change (swrap 16 (u16 (kInt16Max + 0))) with 32767. cbn [Z.eqb]. lia.
    + change (swrap 16 (u16 (kInt16Max + 1))) with (-32768). cbn [Z.eqb]. lia.
  - destruct Hw as (x & up & [Hfl Hx Hup HR Hr Hs]). rewrite Hfl, (GetUint16_twos s _ _ x up Hx Hup) by (destruct (s =? 1); lia).
    assert (E : (if up && (x <? 32767) then u16 (x + 1) else x) = R).
    { destruct up; simpl; [|lia]. destruct Hs as [?|Hs]; [done|]. rewrite (proj2 (Z.ltb_lt _ _)) by lia. unfold u16. rewrite uwrap_small; lia. }
    assert (HRm : R <= 32768 /\ (s = 0 -> R < 32768)) by (destruct up, (Z.eqb_spec s 1), Hs; lia || done).
    rewrite E, (twos_value 16 s) by (change (2 ^ (16 - 1)) with 32768; destruct up; lia). unfold clamp. destruct (Z.eqb_spec s 0); destruct up; lia.
Qed.

Lemma scale_never_spec e m :
  1 <= e <= 30 -> 1024 <= m < 2048 ->
  exists sc x up, scale never e m = Ok sc /\ scaled_to (2 ^ 26) (rne (m * 2 ^ (e - 1)) 24) sc x up.
Proof.
  intros He Hm. assert (Hw : wp (scale never e m) (fun sc => exists x up, scaled_to (2 ^ 27) (rne (m * 2 ^ (e - 1)) 24) sc x up)).
  { eapply wp_mono; [apply (scale_spec never (2 ^ 27) e m never_stops); lia|]. intros sc. simpl.
    rewrite (proj2 (Z.leb_gt _ _)); [done|]. destruct (decide (e < 15)); [rewrite Z.pow_neg_r; lia|].
    assert (2 ^ (e - 15) <= 2 ^ 15) by (apply Z.pow_le_mono_r; lia). nia. }
  apply wp_Ok in Hw as (sc & E & x & up & [Hfl Hx Hup HR Hr Hs]). exists sc, x, up. split; [done|]. constructor; try done. split; [lia|].
  assert (rne (m * 2 ^ (e - 1)) 24 < 2 ^ 16).
  { assert (2 ^ (e - 1) <= 2 ^ 29) by (apply Z.pow_le_mono_r; lia). pose proof (rne_range (m * 2 ^ (e - 1)) 24 0 (2047 * 32 + 1) ltac:(lia)) as Hb.
    pose proof (Z.pow_pos_nonneg 2 (e - 1) ltac:(lia) ltac:(lia)). assert (m * 2 ^ (e - 1) < (2047 * 32 + 1) * 2 ^ 24) by nia. nia. }
  destruct up; lia.
Qed.

Lemma ToInt32_spec v : finite v -> Fp16ToInt32 v = Ok (clamp (- 2 ^ 31) (2 ^ 31 - 1) (to_integer v)).
Proof.
  intros Hf. destruct (finite_cases v Hf) as (s & e & m & H & He & Es & Em & Ei & Hc).
  unfold Fp16ToInt32. rewrite Es, Em, Ei. pose proof (ih_man _ _ _ _ H). pose proof (ih_sign _ _ _ _ H).
  assert (Hw : wp (scale never (Fp16ExtracExp v) m) (fun sc => exists x up, scaled_to (2 ^ 26) (rne (m * 2 ^ (e - 1)) 24) sc x up)).
  { destruct Hc as [(_ & Hm & ->)|(_ & Hm & ->)].
    - rewrite scale_down by lia. simpl. apply scaled_intro; try lia.
      + rewrite Z.div_small by lia. lia.
      + pose proof (small_to_zero v s e m H Hm) as E0. rewrite (to_integer_half v s e m H) in E0.
        assert (rne (m * 2 ^ (e - 1)) 24 = 0) as -> by (destruct (s =? 0); lia).
        unfold rne. rewrite Z.div_small, Z.mod_small by lia. rewrite (proj2 (Z.ltb_ge _ _)), (proj2 (Z.eqb_neq _ _)) by lia. done.
      + right. rewrite Z.div_small by lia. lia.
    - destruct (scale_never_spec e m He ltac:(lia)) as (sc & x & up & -> & Hsc). by exists x, up. }
  apply wp_Ok in Hw as (sc & -> & x & up & [Hfl Hx Hup HR Hr Hs]). cbn [mbind outcome_bind]. rewrite Hx, Hup.
  rewrite (to_integer_half v s e m H). set (R := rne (m * 2 ^ (e - 1)) 24) in *. rewrite (mask_small x 32) by (done || lia).
  assert (E : (if up && (x <? 2147483647) then x + 1 else x) = R).
  { destruct up; simpl; [|lia]. rewrite (proj2 (Z.ltb_lt _ _)) by lia. lia. }
  rewrite E. f_equal. assert (HRm : 0 <= R <= 2 ^ 17) by (destruct up; lia).
  assert (s = 0 \/ s = 1) as [-> | ->] by lia.
  - pose proof (twos_value 32 0 R ltac:(lia) ltac:(lia) ltac:(change (2 ^ (32 - 1)) with (2 ^ 31); lia) ltac:(change (2 ^ (32 - 1)) with (2 ^ 31); lia)) as Et. cbn [Z.eqb] in *. unfold clamp. etrans; [exact Et|]. lia.
  - pose proof (twos_value 32 1 R ltac:(lia) ltac:(lia) ltac:(change (2 ^ (32 - 1)) with (2 ^ 31); lia) ltac:(lia)) as Et. cbn [Z.eqb Pos.eqb] in *. unfold clamp. etrans; [exact Et|]. lia.
Qed.

(** The unsigned conversions end alike. *)
Lemma unsigned_end s R hi x (up : bool) :
  0 <= s < 2 -> 0 <= x <= hi -> x + (if up then 1 else 0) = R ->
  (if s =? 1 then 0 else if up && negb (x =? hi) then x + 1 else x) = clamp 0 hi (if s =? 0 then R else - R).
Proof.
  intros Hs Hx HR. unfold clamp. assert (s = 0 \/ s = 1) as [-> | ->] by lia; cbn [Z.eqb Pos.eqb]; [|destruct up; lia].
  destruct up; simpl; [|lia]. destruct (Z.eqb_spec x hi); simpl; lia.
Qed.

Lemma ToUInt8_spec v : finite v -> Fp16ToUInt8 v = Ok (clamp 0 255 (to_integer v)).
Proof.
  intros Hf. destruct (finite_cases v Hf) as (s & e & m & H & He & Es & Em & Ei & Hc).
  unfold Fp16ToUInt8. destruct Hc as [(-> & Hm & _)|(-> & Hm & Ee)]; [by rewrite (small_to_zero v s e m H Hm)|].
  rewrite Es, Em, Ei, Ee. pose proof (ih_man _ _ _ _ H). pose proof (ih_sign _ _ _ _ H).
  pose proof (scale_spec _ _ e m overu8_stops ltac:(lia) He ltac:(lia)) as Hw.
  apply wp_Ok in Hw as (sc & -> & Hw). cbn [mbind outcome_bind]. rewrite (to_integer_half v s e m H). set (R := rne (m * 2 ^ (e - 1)) 24) in *.
  destruct (Z.leb_spec 0x40000 (m * 2 ^ (e - 15))).
  - destruct Hw as (-> & HT & H15). assert (256 <= R) by (apply (overflow_rne _ e m 256 HT H15); done || lia).
    f_equal. assert (s = 0 \/ s = 1) as [-> | ->] by lia; unfold clamp, kBitLen8Max; cbn [Z.eqb Pos.eqb]; lia.
  - destruct Hw as (x & up & [Hfl Hx Hup HR Hr Hs]). rewrite Hfl, Hx, Hup, (mask_small x 8) by (done || lia).
    f_equal. apply unsigned_end; lia.
Qed.

Lemma ToUInt16_spec v : finite v -> Fp16ToUInt16 v = Ok (clamp 0 65535 (to_integer v)).
Proof.
  intros Hf. destruct (finite_cases v Hf) as (s & e & m & H & He & Es & Em & Ei & Hc).
  unfold Fp16ToUInt16. destruct Hc as [(-> & Hm & _)|(-> & Hm & Ee)]; [by rewrite (small_to_zero v s e m H Hm)|].
  rewrite Es, Em, Ei, Ee. pose proof (ih_man _ _ _ _ H). pose proof (ih_sign _ _ _ _ H).
  destruct (scale_never_spec e m He ltac:(lia)) as (sc & x & up & -> & [Hfl Hx Hup HR Hr Hs]). cbn [mbind outcome_bind].
  rewrite Hx, Hup, (mask_small x 16) by (done || lia). rewrite (to_integer_half v s e m H). f_equal. apply unsigned_end; lia.
Qed.

Lemma ToUInt32_spec v : finite v -> Fp16ToUInt32 v = Ok (clamp 0 (2 ^ 32 - 1) (to_integer v)).
Proof.
  intros Hf. destruct (finite_cases v Hf) as (s & e & m & H & He & Es & Em & Ei & Hc).
  unfold Fp16ToUInt32. destruct Hc as [(-> & Hm & _)|(-> & Hm & Ee)]; [by rewrite (small_to_zero v s e m H Hm)|].
  rewrite Es, Em, Ei, Ee. pose proof (ih_man _ _ _ _ H). pose proof (ih_sign _ _ _ _ H).
  destruct (scale_never_spec e m He ltac:(lia)) as (sc & x & up & -> & [Hfl Hx Hup HR Hr Hs]). cbn [mbind outcome_bind].
  rewrite Hx, Hup. unfold u32. rewrite uwrap_small by lia. rewrite (mask_small x 32) by (done || lia).
  rewrite (to_integer_half v s e m H). f_equal. apply unsigned_end; lia.
Qed.

(** ** From integers *)

Lemma GetManBitLength_spec x : 0 < x < 2 ^ 32 -> GetManBitLength x = Ok (Z.log2 x + 1).
Proof.
  intros Hx. unfold GetManBitLength. pose proof (Z.log2_nonneg x). pose proof (proj1 (Z.log2_lt_pow2 x 32 ltac:(lia)) ltac:(lia)).
  enough (Hw : wp (while loop_fuel (fun '(man, len) => negb (man =? 0)) (fun '(man, len) => (Z.shiftr man 1, len + 1)) (x, 0))
                 (fun '(man, len) => len = Z.log2 x + 1)).
  { apply wp_Ok in Hw as ([man len] & -> & ->). done. }
  pose proof (Z.log2_spec x ltac:(lia)) as Hl. unfold Z.succ in Hl.
  apply (wp_while (fun '(man, len) => 0 <= len <= Z.log2 x + 1 /\ man = x / 2 ^ len) (fun '(man, len) => Z.log2 x + 1 - len)).
  - rewrite Z.pow_0_r, Z.div_1_r. lia.
  - unfold loop_fuel. lia.
  - intros [man len] [Hlen ->] Hc. apply negb_true_iff, Z.eqb_neq in Hc.
    assert (len <> Z.log2 x + 1) by (intros ->; apply Hc, Z.div_small; lia). split; [|lia]. split; [lia|].
    rewrite shiftr_div, Z.div_div by (try apply Z.pow_pos_nonneg; lia). by rewrite <- Z.pow_add_r by lia.
  - intros [man len] [Hlen ->] Hc. apply negb_false_iff, Z.eqb_eq in Hc. apply Z.div_small_iff in Hc; [|apply Z.pow_nonzero; lia].
    destruct Hc as [Hc|Hc]; [|lia]. destruct (decide (len = Z.log2 x + 1)); [done|].
    pose proof (Z.pow_le_mono_r 2 len (Z.log2 x) ltac:(lia) ltac:(lia)). lia.
  - unfold loop_fuel. lia.
Qed.

Lemma trunc_mask_eq n : (n < 31)%nat -> Nat.iter n (fun t => u32 (shl 32 t 1 + 1)) 1 = Z.ones (Z.of_nat n + 1).
Proof.
  rewrite Z.ones_equiv. induction n as [|n IH]; intros Hn; [done|]. simpl Nat.iter. rewrite IH by lia.
  rewrite !Nat2Z.inj_succ. replace (Z.succ (Z.of_nat n) + 1) with (Z.succ (Z.of_nat n + 1)) by lia. rewrite Z.pow_succ_r by lia.
  assert (0 < 2 ^ (Z.of_nat n + 1) <= 2 ^ 30) by (split; [apply Z.pow_pos_nonneg|apply Z.pow_le_mono_r]; lia).
  unfold u32, shl. rewrite shiftl_mul by lia. rewrite (uwrap_small 32 (Z.pred _ * _)) by lia. rewrite uwrap_small; lia.
Qed.

Lemma shift_loop_eq n e x : Nat.iter n (fun '(e, m) => (e + 1, Z.shiftr m 1)) (e, x) = (e + Z.of_nat n, x / 2 ^ Z.of_nat n).
Proof.
  induction n as [|n IH]; simpl Nat.iter; [by rewrite Z.pow_0_r, Z.div_1_r, Z.add_0_r|]. rewrite IH, Nat2Z.inj_succ, Z.pow_succ_r by lia.
  rewrite shiftr_div by lia. rewrite Z.div_div by (try apply Z.pow_pos_nonneg; lia). f_equal; [lia|]. f_equal. lia.
Qed.

(** A mantissa rounded up to 2048 moves to the next exponent. *)
Lemma carry_loop (cond : Z * Z -> bool) e m :
  (forall e' m', 0 <= e' -> cond (e', m') = (2048 <=? m')) -> 0 <= e -> 0 <= m <= 2048 ->
  while loop_fuel cond (fun '(e, m) => (e + 1, Z.shiftr m 1)) (e, m) = Ok (if m =? 2048 then (e + 1, 1024) else (e, m)).
Proof.
  intros Hc He Hm. change loop_fuel with (S (S 62)). cbn [while]. rewrite Hc by lia. destruct (Z.eqb_spec m 2048) as [->|Hne].
  - cbn [Z.leb Z.compare Pos.compare Pos.compare_cont]. rewrite Hc by lia. done.
  - by rewrite (proj2 (Z.leb_gt _ _)) by lia.
Qed.

(** The end of the conversion, for a mantissa [R] rounded at exponent [e]. *)
Lemma SetVal_end s e R :
  0 <= s < 2 -> 1 <= e <= 100 -> 1024 <= R <= 2048 ->
  ('(e_ret, m_tmp) ← ('(e_ret, m_tmp) ← Ok (if R =? 2048 then (e + 1, 1024) else (e, R));
     Ok (if kFp16MaxExp <=? e_ret then (kFp16MaxExp - 1, kFp16MaxMan) else (e_ret, m_tmp)));
   Ok (Fp16Constructor s (u16 e_ret) (u16 m_tmp))) =
  Ok (s * 32768 + (if (e - 1) * 1024 + R <? 0x7C00 then (e - 1) * 1024 + R else kFp16Max)).
Proof.
  intros Hs He HR. set (e' := if R =? 2048 then e + 1 else e). set (m' := if R =? 2048 then 1024 else R).
  replace (if R =? 2048 then (e + 1, 1024) else (e, R)) with (e', m') by (unfold e', m'; by destruct (R =? 2048)).
  cbn [mbind outcome_bind]. assert (Hp : e' * 1024 + m' mod 1024 = (e - 1) * 1024 + R /\ e <= e' <= e + 1 /\ 1024 <= m' < 2048).
  { unfold e', m'. destruct (Z.eqb_spec R 2048) as [->|]; [change (1024 mod 1024) with 0; lia|].
    replace (R mod 1024) with (R - 1024) by (apply (Z.mod_unique_pos _ 1024 1); lia). lia. }
  destruct Hp as (Hp & He' & Hm'). pose proof (Z.mod_pos_bound m' 1024 ltac:(lia)). unfold kFp16MaxExp.
  destruct (Z.leb_spec 31 e') as [Hle|Hlt]; cbn [mbind outcome_bind]; f_equal.
  - change (u16 (31 - 1)) with 30. change (u16 kFp16MaxMan) with 1023. rewrite construct_fields by lia. unfold kFp16Max.
    change (1023 mod 1024) with 1023. destruct (Z.ltb_spec ((e - 1) * 1024 + R) 0x7C00); lia.
  - unfold u16. rewrite !uwrap_small by lia. rewrite construct_fields by lia. destruct (Z.ltb_spec ((e - 1) * 1024 + R) 0x7C00); lia.
Qed.

(** Integers of more than eleven bits lose the lowest ones. *)
Lemma SetVal_long x s :
  2 ^ 11 <= x < 2 ^ 31 -> 0 <= s < 2 -> exists r, SetValByUint32Val x s = Ok r /\ rounded kFp16Max s 0 (x * 2 ^ 24) r.
Proof.
  intros Hx Hs. unfold SetValByUint32Val. rewrite (mask_small x 31) by (done || lia). rewrite GetManBitLength_spec by lia.
  cbn [mbind outcome_bind]. pose proof (Z.log2_spec x ltac:(lia)) as Hl. unfold Z.succ in Hl.
  pose proof (proj1 (Z.log2_lt_pow2 x 31 ltac:(lia)) ltac:(lia)). pose proof (proj1 (Z.log2_le_pow2 x 11 ltac:(lia)) ltac:(lia)).
  set (l := Z.log2 x) in *. rewrite (proj2 (Z.ltb_lt _ _)) by lia.
  set (t := l + 1 - 11). assert (Ht : 1 <= t <= 20) by (unfold t; lia). rewrite trunc_mask_eq by lia.
  replace (Z.of_nat (Z.to_nat (t - 1)) + 1) with t by lia. rewrite Z.land_ones, shift_loop_eq by lia. rewrite Z2Nat.id by lia.
  assert (Hp : 0 < 2 ^ t) by (apply Z.pow_pos_nonneg; lia). pose proof (Z.mod_pos_bound x (2 ^ t) Hp) as Hmod.
  assert (Epow : 2 ^ (32 - t) * 2 ^ t = 2 ^ 32) by (rewrite <- Z.pow_add_r by lia; f_equal; lia).
  assert (Hp2 : 0 < 2 ^ (32 - t)) by (apply Z.pow_pos_nonneg; lia).
  assert (Esh : shl 32 (x mod 2 ^ t) (32 - t) = x mod 2 ^ t * 2 ^ (32 - t)) by (unfold shl; rewrite shiftl_mul by lia; apply uwrap_small; nia).
  assert (El : 2 ^ l = 1024 * 2 ^ t) by (change 1024 with (2 ^ 10); rewrite <- Z.pow_add_r by lia; f_equal; unfold t; lia).
  rewrite Z.pow_add_r, El in Hl by lia.
  assert (Hd : 1024 <= x / 2 ^ t < 2048) by (split; [apply Z.div_le_lower_bound|apply Z.div_lt_upper_bound]; lia).
  rewrite Esh, ManRound_rne by (try lia; nia).
  assert (ER : rne (x / 2 ^ t * 2 ^ 32 + x mod 2 ^ t * 2 ^ (32 - t)) 32 = rne x t).
  { apply (rne_same _ 32 x t 0 (32 - t)); try lia. pose proof (Z.div_mod x (2 ^ t) ltac:(lia)). rewrite <- Epow. nia. }
  rewrite ER. assert (HR : 1024 <= rne x t <= 2048) by (destruct (rne_cases x t ltac:(lia)) as [[-> _]|[-> _]]; lia).
  change (kFp16ExpBias + kFp16ManLen) with 25.
  rewrite (carry_loop _ (25 + t)) by (try lia; intros e' m' He'; rewrite (proj2 (Z.ltb_ge _ _)), orb_false_r by lia; done).
  rewrite SetVal_end by lia. eexists. split; [done|].
  assert (EN1 : rne (x * 2 ^ 24) (0 + (25 + t) - 1) = rne x t) by (replace (0 + (25 + t) - 1) with (t + 24) by lia; apply rne_scale; lia).
  assert (EN2 : x * 2 ^ 24 / 2 ^ (0 + (25 + t) - 1) = x / 2 ^ t).
  { replace (0 + (25 + t) - 1) with (t + 24) by lia. rewrite Z.pow_add_r by lia. apply Z.div_mul_cancel_r; lia. }
  destruct (grid_rounded 0 (x * 2 ^ 24) (25 + t) ltac:(lia) ltac:(lia) ltac:(lia)) as [(Hlt & Hb & Hn)|[Hge Hb]]; [by rewrite EN2; lia|left|right].
  all: rewrite EN1 in *; split; [done|].
  - rewrite (proj2 (Z.ltb_lt _ _)) by done. by eexists.
  - by rewrite (proj2 (Z.ltb_ge _ _)).
Qed.

(** Shorter ones are exact. *)
Lemma SetVal_short x s :
  0 < x < 2 ^ 11 -> 0 <= s < 2 -> exists r, SetValByUint32Val x s = Ok r /\ rounded kFp16Max s 0 (x * 2 ^ 24) r.
Proof.
  intros Hx Hs. unfold SetValByUint32Val. rewrite (mask_small x 31) by (done || lia). rewrite GetManBitLength_spec by lia.
  cbn [mbind outcome_bind]. pose proof (Z.log2_spec x ltac:(lia)) as Hl. unfold Z.succ in Hl. pose proof (Z.log2_nonneg x).
  pose proof (proj1 (Z.log2_lt_pow2 x 11 ltac:(lia)) ltac:(lia)). set (l := Z.log2 x) in *. rewrite (proj2 (Z.ltb_ge _ _)) by lia.
  cbn [mbind outcome_bind]. eexists. split; [done|]. left.
  assert (Hp : 0 < 2 ^ (10 - l)) by (apply Z.pow_pos_nonneg; lia). replace (11 - (l + 1)) with (10 - l) by lia.
  assert (E10 : 2 ^ l * 2 ^ (10 - l) = 1024) by (rewrite <- Z.pow_add_r by lia; replace (l + (10 - l)) with 10 by lia; done).
  rewrite Z.pow_add_r in Hl by lia. assert (Hr : 1024 <= x * 2 ^ (10 - l) < 2048) by nia.
  unfold shl, u16. rewrite shiftl_mul by lia. set (y := x * 2 ^ (10 - l)) in *.
  set (e := kFp16ExpBias + (l + 1 - 1)). assert (He : 15 <= e <= 25) by (unfold e, kFp16ExpBias; lia).
  rewrite (uwrap_small 16 e), (uwrap_small 32 y), (uwrap_small 16 y) by lia.
  assert (Em : mag ((e - 1) * 1024 + y) = x * 2 ^ 24).
  { rewrite mag_pattern by lia. unfold y. rewrite <- Z.mul_assoc, <- Z.pow_add_r by (unfold e, kFp16ExpBias; lia). do 2 f_equal. unfold e, kFp16ExpBias. lia. }
  pose proof (nearest_exact 0 ((e - 1) * 1024 + y) ltac:(lia) ltac:(unfold kFp16Max; lia)) as Hn.
  pose proof (finite_below_overflow 0 ((e - 1) * 1024 + y) ltac:(lia) ltac:(unfold kFp16Max; lia)) as Hb.
  rewrite Em, Z.mul_1_r in *. split; [done|]. exists ((e - 1) * 1024 + y). split; [done|]. rewrite construct_fields by lia.
  replace (y mod 1024) with (y - 1024) by (apply (Z.mod_unique_pos _ 1024 1); lia). lia.
Qed.

(** [int32_t] to a half: nearest, and the largest half from 65520 on. *)
Lemma of_int32_spec i :
  - 2 ^ 31 < i < 2 ^ 31 ->
  exists r, of_int32 i = Ok r /\ rounded kFp16Max (if i <? 0 then 1 else 0) 0 (Z.abs i * 2 ^ 24) r.
Proof.
  intros Hi. unfold of_int32. destruct (Z.eqb_spec i 0) as [->|Hne].
  { exists 0. split; [done|]. left. split; [done|]. exists 0. split; [|done]. by apply (nearest_exact 0 0). }
  assert (Hset : forall x s, 0 < x < 2 ^ 31 -> 0 <= s < 2 -> exists r, SetValByUint32Val x s = Ok r /\ rounded kFp16Max s 0 (x * 2 ^ 24) r).
  { intros x s Hx Hs. destruct (decide (x < 2 ^ 11)); [apply SetVal_short|apply SetVal_long]; lia. }
  unfold u16, u32. rewrite shiftr_div by lia. destruct (Z.ltb_spec i 0).
  - assert (E : uwrap 32 i = i + 2 ^ 32) by (symmetry; apply (Z.mod_unique_pos _ _ (-1)); lia).
    assert (Es : uwrap 32 i / 2 ^ 31 = 1) by (rewrite E; symmetry; apply (Z.div_unique_pos _ _ 1 (i + 2 ^ 31)); lia).
    rewrite Es. change (uwrap 16 1) with 1. cbn [Z.eqb negb]. rewrite (proj2 (Z.eqb_neq _ _)) by lia.
    rewrite (uwrap_small 32 (- i)), Z.abs_neq by lia. apply Hset; lia.
  - rewrite (uwrap_small 32 i) by lia. rewrite (Z.div_small i) by lia. change (uwrap 16 0) with 0. cbn [Z.eqb negb]. rewrite Z.abs_eq by lia. apply Hset; lia.
Qed.
