(* ===== verification/NumFp16Arith.v ===== *)
(** * NumFp16Arith: addition, subtraction, multiplication and comparison

    Every operation on finite halves returns the half nearest to the exact
    result, or a NaN pattern where that is 65520 or more. *)

From S2P Require Import Prelude NumBits NumFp16 NumFp16Value NumFp16Convert NumFp16Int.

(** The 16 bits of a half.  The operations do not tell infinities and NaNs from
    numbers: the exponent 31 is one more exponent to them, as it is to
    [signed]. *)
Definition half (v : Z) : Prop := 0 <= v < 2 ^ 16.

(** ** The bits cut off *)

(** Moving a bit from the mantissa to the word of cut off bits halves the
    number both stand for, when no bit falls off the end. *)
Lemma cut_bit_spec m t :
  0 <= m -> 0 <= t < 2 ^ 32 -> t mod 2 = 0 -> Z.shiftr m 1 * 2 ^ 32 + cut_bit m t = (m * 2 ^ 32 + t) / 2 /\ 0 <= cut_bit m t < 2 ^ 32.
Proof.
  intros Hm Ht Hev. unfold cut_bit. rewrite !shiftr_div by lia. change (Z.land m 1) with (Z.land m (Z.ones 1)). rewrite Z.land_ones by lia.
  change (2 ^ 1) with 2. pose proof (Z.div_mod m 2 ltac:(lia)). pose proof (Z.mod_pos_bound m 2 ltac:(lia)).
  pose proof (Z.div_mod t 2 ltac:(lia)). rewrite Z.lor_comm. replace (kFp32SignMask * (m mod 2)) with (m mod 2 * 2 ^ 31) by (unfold kFp32SignMask; lia).
  rewrite lor_low by lia. split; [|lia]. apply (Z.div_unique_pos _ 2 _ 0); lia.
Qed.

(** ** Multiplication *)

(** The mantissa is moved to its place: [x] and the cut off bits are the
    product scaled by 2^32, with [c] bits cut off. *)
Record aligned (N e m t : Z) : Prop := {
  al_low : -23 <= e <= 100;
  al_man : 0 <= m < 2 ^ 22;
  al_trunc : 0 <= t < 2 ^ 32;
  al_value : (m * 2 ^ 32 + t) * 2 ^ (e + 23) = N * 2 ^ 32;
}.

Lemma mul_up_loop N e m :
  aligned N e m 0 -> e <= 40 ->
  wp (while loop_fuel (fun '(e, m) => (m <? 1024) && (1 <? e)) (fun '(e, m) => (e - 1, shl 32 m 1)) (e, m))
     (fun '(e', m') => (aligned N e' m' 0 /\ e' <= 40) /\ (e' <= 1 \/ 1024 <= m')).
Proof.
  intros Ha He40. apply (wp_while (fun '(e, m) => aligned N e m 0 /\ e <= 40) (fun '(e, m) => Z.max 0 (e - 1))); [done| | | |unfold loop_fuel; lia].
  - pose proof (al_low _ _ _ _ Ha). unfold loop_fuel. lia.
  - intros [e' m'] [[Hl Hm _ Hv] Hle] [H1%Z.ltb_lt H2%Z.ltb_lt]%andb_true_iff. split; [|lia]. split; [|lia].
    assert (E : shl 32 m' 1 = 2 * m') by (unfold shl; rewrite shiftl_mul by lia; rewrite uwrap_small; lia). rewrite E. split; try lia.
    rewrite <- Hv. replace (e' + 23) with (e' - 1 + 23 + 1) by lia. rewrite (Z.pow_add_r _ _ 1) by lia. lia.
  - intros [e' m'] Ha' Hc. split; [done|]. apply andb_false_iff in Hc as [?%Z.ltb_ge|?%Z.ltb_ge]; lia.
Qed.

Lemma mul_down_loop N e0 m0 :
  aligned N e0 m0 0 /\ e0 <= 40 -> e0 <= 1 \/ 1024 <= m0 ->
  wp (while loop_fuel (fun '(e, m, t) => (2048 <=? m) || (e <? 1)) (fun '(e, m, t) => (e + 1, Z.shiftr m 1, cut_bit m t)) (e0, m0, 0))
     (fun '(e, m, t) => aligned N e m t /\ 1 <= e /\ m < 2048 /\ (e = 1 \/ 1024 <= m)).
Proof.
  intros [Ha He40] H0. pose proof (al_low _ _ _ _ Ha). pose proof (al_man _ _ _ _ Ha). pose proof (al_value _ _ _ _ Ha) as HN.
  apply (wp_while (fun '(e, m, t) => e0 <= e <= e0 + 24 /\ 0 <= m /\ 0 <= t < 2 ^ 32 /\ (e <= 1 \/ 1024 <= m) /\
      (m * 2 ^ 32 + t) * 2 ^ (e - e0) = m0 * 2 ^ 32) (fun '(e, m, t) => 25 - (e - e0))); [| | | |unfold loop_fuel; lia].
  - rewrite Z.sub_diag, Z.pow_0_r. lia.
  - unfold loop_fuel. lia.
  - intros [[e m] t] (He & Hm & Ht & Hn & Hv) Hc.
    assert (Hlt : e - e0 < 24).
    { apply orb_true_iff in Hc as [Hc%Z.leb_le|Hc%Z.ltb_lt]; [|lia]. destruct (decide (e - e0 < 24)); [done|].
      pose proof (Z.pow_le_mono_r 2 11 (e - e0) ltac:(lia) ltac:(lia)). nia. }
    assert (Hp : 0 < 2 ^ (e - e0)) by (apply Z.pow_pos_nonneg; lia).
    assert (Ex : m * 2 ^ 32 + t = 2 * (m0 * 2 ^ (31 - (e - e0)))).
    { apply (Z.mul_cancel_r _ _ (2 ^ (e - e0))); [lia|]. rewrite Hv, <- !Z.mul_assoc, <- Z.pow_add_r by lia.
      replace (31 - (e - e0) + (e - e0)) with 31 by lia. lia. }
    assert (Hev : t mod 2 = 0).
    { symmetry. apply (Z.mod_unique_pos _ _ (m0 * 2 ^ (31 - (e - e0)) - m * 2 ^ 31)); lia. }
    destruct (cut_bit_spec m t Hm Ht Hev) as [Ec Hct]. rewrite Ex, (Z.mul_comm 2), Z.div_mul in Ec by lia.
    assert (Hv' : (Z.shiftr m 1 * 2 ^ 32 + cut_bit m t) * 2 ^ (e + 1 - e0) = m0 * 2 ^ 32).
    { rewrite Ec, <- Z.mul_assoc, <- Z.pow_add_r by lia. do 2 f_equal. lia. }
    assert (Hn' : e + 1 <= 1 \/ 1024 <= Z.shiftr m 1).
    { rewrite shiftr_div by lia. apply orb_true_iff in Hc as [Hc%Z.leb_le|Hc%Z.ltb_lt]; [right; apply Z.div_le_lower_bound; lia|lia]. }
    assert (0 <= Z.shiftr m 1) by (rewrite shiftr_div by lia; apply Z.div_pos; lia). split; [split_and!; first [done|lia]|lia].
  - intros [[e m] t] (He & Hm & Ht & Hn & Hv) [Hc1%Z.leb_gt Hc2%Z.ltb_ge]%orb_false_iff. split_and!; try lia. split; try lia.
    rewrite <- HN, Z.add_0_r. replace (e + 23) with (e - e0 + (e0 + 23)) by lia. rewrite Z.pow_add_r, Z.mul_assoc, Hv by lia. done.
Qed.

Lemma half_abs v s e m : is_half v s e m -> Z.abs (signed v) = m * 2 ^ (e - 1).
Proof.
  intros H. rewrite (half_value v s e m H). pose proof (ih_man _ _ _ _ H). pose proof (ih_exp _ _ _ _ H).
  pose proof (Z.pow_pos_nonneg 2 (e - 1) ltac:(lia) ltac:(lia)). destruct (s =? 0); nia.
Qed.

Lemma half_sign v s e m : is_half v s e m -> Fp16ExtracSign v = s.
Proof. intros H. pose proof (ih_extract _ _ _ _ H) as E. by injection E. Qed.

(** The end of an operation whose mantissa is rounded to [R] in the cell of
    exponent [e]: the hidden bit is dropped, or the exponent. *)
Lemma pack_rounded s k N e :
  0 <= s < 2 -> 0 <= k -> 0 <= N -> 1 <= e <= 1000 -> N / 2 ^ (k + e - 1) < 2048 -> e = 1 \/ 1024 <= N / 2 ^ (k + e - 1) ->
  let R := rne N (k + e - 1) in
  rounded 0x7FFF s k N (pack s (if R =? 2048 then (e + 1, 1024) else if (e =? 1) && (R <? 1024) then (0, R) else (e, R))).
Proof.
  intros Hs Hk HN He Hlo Hc R. assert (Hp : 0 < 2 ^ (k + e - 1)) by (apply Z.pow_pos_nonneg; lia).
  assert (0 <= N / 2 ^ (k + e - 1)) by (apply Z.div_pos; lia).
  assert (HR : 0 <= R <= 2048 /\ (e = 1 \/ 1024 <= R)) by (unfold R; destruct (rne_cases N (k + e - 1) ltac:(lia)) as [[-> _]|[-> _]]; lia).
  assert (Ep : let p := (e - 1) * 1024 + R in
    pack s (if R =? 2048 then (e + 1, 1024) else if (e =? 1) && (R <? 1024) then (0, R) else (e, R)) =
    s * 32768 + (if p <? 0x7C00 then p else 0x7FFF)).
  { clearbody R. cbv zeta. destruct (Z.eqb_spec R 2048) as [->|Hne].
    - destruct (Z.ltb_spec ((e - 1) * 1024 + 2048) 31744); [rewrite pack_normal by lia; change (1024 mod 1024) with 0; lia|by rewrite pack_overflow by lia].
    - destruct (Z.eqb_spec e 1) as [->|], (Z.ltb_spec R 1024); simpl; try lia.
      + rewrite pack_denormal, (proj2 (Z.ltb_lt _ _)) by lia. lia.
      + rewrite pack_normal, (proj2 (Z.ltb_lt _ _)) by lia. replace (R mod 1024) with (R - 1024) by (apply (Z.mod_unique_pos _ 1024 1); lia). lia.
      + destruct (Z.ltb_spec ((e - 1) * 1024 + R) 31744); [|by rewrite pack_overflow by lia].
        rewrite pack_normal by lia. replace (R mod 1024) with (R - 1024) by (apply (Z.mod_unique_pos _ 1024 1); lia). lia. }
  rewrite Ep. destruct (grid_rounded k N e Hk HN ltac:(lia) ltac:(lia)) as [(Hlt & Hb & Hn)|[Hge Hb]]; [left|right]; (split; [done|]).
  - fold R in Hlt, Hn. rewrite (proj2 (Z.ltb_lt _ _)) by done. by eexists.
  - fold R in Hge. by rewrite (proj2 (Z.ltb_ge _ _)).
Qed.

Lemma Fp16Mul_spec a b :
  half a -> half b ->
  exists r, Fp16Mul a b = Ok r /\
    rounded 0x7FFF (Z.lxor (Fp16ExtracSign a) (Fp16ExtracSign b)) 24 (Z.abs (signed a) * Z.abs (signed b)) r.
Proof.
  intros Ha Hb. destruct (half_parts a Ha) as (sa & ea & ma & HA). destruct (half_parts b Hb) as (sb & eb & mb & HB).
  unfold Fp16Mul. rewrite (ih_extract _ _ _ _ HA), (ih_extract _ _ _ _ HB), (half_sign _ _ _ _ HA), (half_sign _ _ _ _ HB),
    (half_abs _ _ _ _ HA), (half_abs _ _ _ _ HB).
  destruct HA as [_ Hsa Hea1 Hma _ _ _ _ _ _], HB as [_ Hsb Heb1 Hmb _ _ _ _ _ _].
  set (s := Z.lxor sa sb). assert (Hs : 0 <= s < 2).
  { unfold s. assert (sa = 0 \/ sa = 1) as [-> | ->] by lia; assert (sb = 0 \/ sb = 1) as [-> | ->] by lia; by vm_compute. }
  set (N := ma * 2 ^ (ea - 1) * (mb * 2 ^ (eb - 1))).
  assert (Hmul : u32 (ma * mb) = ma * mb) by (apply uwrap_small; nia). rewrite Hmul. unfold kFp16ExpBias.
  change kFp16ManHideBit with 1024. change (shl 16 1024 1) with 2048.
  assert (Hal : aligned N (ea + eb - 15 - 10) (ma * mb) 0).
  { split; [lia|nia|lia|]. rewrite Z.add_0_r. unfold N. replace (ea + eb - 15 - 10 + 23) with (ea - 1 + (eb - 1)) by lia. rewrite Z.pow_add_r by lia. lia. }
  pose proof (mul_up_loop _ _ _ Hal ltac:(lia)) as Hw. apply wp_Ok in Hw as ([e1 m1] & E1 & Hal1 & Hc1). rewrite E1. cbn [mbind outcome_bind].
  pose proof (mul_down_loop _ _ _ Hal1 Hc1) as Hw. apply wp_Ok in Hw as ([[e2 m2] t2] & E2 & [Hl2 Hm2 Ht2 Hv2] & He2 & Hm2' & Hc2). rewrite E2. cbn [mbind outcome_bind].
  rewrite ManRound_rne by lia.
  assert (Hp : 0 < 2 ^ (e2 + 23)) by (apply Z.pow_pos_nonneg; lia).
  assert (EN : rne N (24 + e2 - 1) = rne (m2 * 2 ^ 32 + t2) 32) by (apply (rne_same _ _ _ _ 32 (e2 + 23)); try lia; done).
  assert (Elo : N / 2 ^ (24 + e2 - 1) = m2).
  { replace (24 + e2 - 1) with (e2 + 23) by lia. symmetry. apply (Z.div_unique_pos _ _ _ (N - 2 ^ (e2 + 23) * m2)); nia. }
  assert (HN : 0 <= N) by (unfold N; pose proof (Z.pow_pos_nonneg 2 (ea - 1)); pose proof (Z.pow_pos_nonneg 2 (eb - 1)); nia).
  rewrite <- EN. set (R := rne N (24 + e2 - 1)) in *.
  assert (HR : 0 <= R <= 2048) by (unfold R; destruct (rne_cases N (24 + e2 - 1) ltac:(lia)) as [[-> _]|[-> _]]; lia).
  rewrite (carry_loop _ e2 R) by (try lia; intros e' m' He'; rewrite (proj2 (Z.ltb_ge _ _)), orb_false_r by lia; done).
  pose proof (pack_rounded s 24 N e2 Hs ltac:(lia) HN ltac:(lia) ltac:(lia) ltac:(lia)) as Hr. fold R in Hr.
  eexists. split; [|exact Hr]. unfold pack. destruct (Z.eqb_spec R 2048) as [E|Hne]; cbn [mbind outcome_bind fst snd].
  - rewrite (proj2 (Z.eqb_neq (e2 + 1) 1)) by lia. simpl. by destruct (Fp16NormalizeVal _ _).
  - unfold u16 at 1. rewrite (uwrap_small 16 R) by lia. unfold kFp16ManHideBit. destruct ((e2 =? 1) && (R <? 1024)); cbn [fst snd]; by destruct (Fp16NormalizeVal _ _).
Qed.

(** ** Addition *)

(** Mantissas are two's complement numbers of 32 bits. *)
Lemma ReverseMan_wrap (b : bool) x : ReverseMan 32 b (u32 x) = u32 (if b then - x else x).
Proof.
  unfold ReverseMan. destruct b; [|done]. unfold u32, uwrap, Z.lnot. rewrite Zplus_mod_idemp_l.
  replace (Z.pred (- (x mod 2 ^ 32)) + 1) with (0 - x mod 2 ^ 32) by lia. rewrite Zminus_mod_idemp_r. f_equal.
Qed.

Lemma RightShift_step x : - 2 ^ 31 <= x < 2 ^ 31 -> Z.lor (Z.land (u32 x) (2 ^ (32 - 1))) (Z.shiftr (u32 x) 1) = u32 (x / 2).
Proof.
  intros Hx. change (32 - 1) with 31. rewrite land_pow2, shiftr_div by lia. change (2 ^ 1) with 2.
  pose proof (Z.div_mod x 2 ltac:(lia)). pose proof (Z.mod_pos_bound x 2 ltac:(lia)). destruct (decide (0 <= x)).
  - unfold u32. rewrite !uwrap_small by lia. rewrite (Z.div_small x) by lia. simpl (0 mod 2). by rewrite Z.mul_0_r, Z.lor_0_l.
  - assert (E : u32 x = x + 2 ^ 32) by (symmetry; apply (Z.mod_unique_pos _ _ (-1)); lia). rewrite E.
    assert (E1 : (x + 2 ^ 32) / 2 ^ 31 = 1) by (symmetry; apply (Z.div_unique_pos _ _ 1 (x + 2 ^ 31)); lia). rewrite E1.
    assert (E2 : (x + 2 ^ 32) / 2 = x / 2 + 2 ^ 31) by (symmetry; apply (Z.div_unique_pos _ _ _ (x mod 2)); lia). rewrite E2.
    change (2 ^ 31 * (1 mod 2)) with (1 * 2 ^ 31). replace (x / 2 + 2 ^ 31) with (1 * 2 ^ 31 + (x / 2)) by lia.
    assert (Hh : - 2 ^ 30 <= x / 2 < 0) by lia. unfold u32.
    replace (1 * 2 ^ 31 + x / 2) with (1 * 2 ^ 30 + (x / 2 + 2 ^ 30)) by lia. rewrite <- (lor_low 1 (x / 2 + 2 ^ 30)) by lia.
    rewrite (lor_low 1 (x / 2 + 2 ^ 30)) by lia. rewrite lor_low by lia. apply (Z.mod_unique_pos _ _ (-1)); lia.
Qed.

Lemma RightShift_div x d : - 2 ^ 31 <= x < 2 ^ 31 -> 0 <= d -> RightShift 32 (u32 x) d = u32 (x / 2 ^ d).
Proof.
  intros Hx Hd. unfold RightShift. rewrite <- (Z2Nat.id d) at 2 by done. generalize (Z.to_nat d) as n. clear d Hd.
  induction n as [|n IH]; [simpl; by rewrite Z.div_1_r|]. simpl Nat.iter. rewrite IH, Nat2Z.inj_succ, Z.pow_succ_r by lia.
  assert (0 < 2 ^ Z.of_nat n) by (apply Z.pow_pos_nonneg; lia).
  rewrite (Z.mul_comm 2), <- Z.div_div by lia. apply RightShift_step.
  split; [apply Z.div_le_lower_bound; nia|apply Z.div_lt_upper_bound; nia].
Qed.

(** The sum of two mantissas at the larger exponent, rounded down, and what is
    left of the smaller operand. *)
Definition floor_sum (ea x eb y : Z) : Z := x / 2 ^ (Z.max ea eb - ea) + y / 2 ^ (Z.max ea eb - eb).
Definition rest (ea x eb y : Z) : Z :=
  if eb <? ea then y mod 2 ^ (ea - eb) * 2 ^ (32 - (ea - eb))
  else if ea <? eb then x mod 2 ^ (eb - ea) * 2 ^ (32 - (eb - ea)) else 0.

Lemma GetManSum_wrap ea x eb y :
  - 2 ^ 31 <= x < 2 ^ 31 -> - 2 ^ 31 <= y < 2 ^ 31 -> GetManSum 32 ea (u32 x) eb (u32 y) = u32 (floor_sum ea x eb y).
Proof.
  intros Hx Hy. unfold GetManSum, floor_sum, u32, uwrap. destruct (Z.eqb_spec ea eb) as [->|Hne]; simpl.
  - rewrite Z.max_id, Z.sub_diag, Z.pow_0_r, !Z.div_1_r. by rewrite <- Zplus_mod.
  - destruct (Z.ltb_spec eb ea).
    + fold (uwrap 32 y). fold (u32 y). rewrite RightShift_div by lia. unfold u32, uwrap. rewrite <- Zplus_mod.
      rewrite Z.max_l, Z.abs_eq, Z.sub_diag, Z.pow_0_r, Z.div_1_r by lia. done.
    + fold (uwrap 32 x). fold (u32 x). rewrite RightShift_div by lia. unfold u32, uwrap. rewrite <- Zplus_mod.
      rewrite Z.max_r, Z.abs_neq, Z.sub_diag, Z.pow_0_r, Z.div_1_r by lia. do 4 f_equal. lia.
Qed.

(** Shifting left keeps the low bits. *)
Lemma trunc_shift y d : 0 <= d <= 32 -> shl 32 (u32 y) (32 - d) = y mod 2 ^ d * 2 ^ (32 - d).
Proof.
  intros Hd. unfold shl, u32, uwrap. rewrite shiftl_mul by lia. rewrite Zmult_mod_idemp_l.
  replace (2 ^ 32) with (2 ^ d * 2 ^ (32 - d)) by (rewrite <- Z.pow_add_r by lia; f_equal; lia).
  apply Z.mul_mod_distr_r; apply Z.pow_nonzero; lia.
Qed.

Lemma rest_bound ea x eb y : Z.abs (ea - eb) <= 32 -> 0 <= rest ea x eb y < 2 ^ 32.
Proof.
  intros Hd. unfold rest.
  assert (H : forall v d, 0 <= d <= 32 -> 0 <= v mod 2 ^ d * 2 ^ (32 - d) < 2 ^ 32).
  { intros v d Hd'. assert (0 < 2 ^ d) by (apply Z.pow_pos_nonneg; lia). pose proof (Z.mod_pos_bound v (2 ^ d) ltac:(lia)).
    assert (0 < 2 ^ (32 - d)) by (apply Z.pow_pos_nonneg; lia).
    replace (2 ^ 32) with (2 ^ d * 2 ^ (32 - d)) by (rewrite <- Z.pow_add_r by lia; f_equal; lia). nia. }
  destruct (Z.ltb_spec eb ea), (Z.ltb_spec ea eb); try lia; apply H; lia.
Qed.

(** Nothing is lost. *)
Lemma exact_sum ea x eb y :
  1 <= ea <= 31 -> 1 <= eb <= 31 ->
  floor_sum ea x eb y * 2 ^ 32 + rest ea x eb y = (x * 2 ^ (ea - 1) + y * 2 ^ (eb - 1)) * 2 ^ (33 - Z.max ea eb).
Proof.
  intros Ha Hb. unfold floor_sum, rest.
  assert (H : forall hi lo v w, 1 <= lo < hi -> hi <= 31 ->
    (v + w / 2 ^ (hi - lo)) * 2 ^ 32 + w mod 2 ^ (hi - lo) * 2 ^ (32 - (hi - lo)) = (v * 2 ^ (hi - 1) + w * 2 ^ (lo - 1)) * 2 ^ (33 - hi)).
  { intros hi lo v w Hlo Hhi. rewrite (Z.mul_add_distr_r (v * _)), <- !(Z.mul_assoc _ (2 ^ (_ - 1))), <- !Z.pow_add_r by lia.
    replace (hi - 1 + (33 - hi)) with 32 by lia. replace (lo - 1 + (33 - hi)) with (32 - (hi - lo)) by lia.
    pose proof (Z.div_mod w (2 ^ (hi - lo)) ltac:(apply Z.pow_nonzero; lia)) as E.
    assert (E32 : 2 ^ (hi - lo) * 2 ^ (32 - (hi - lo)) = 2 ^ 32) by (rewrite <- Z.pow_add_r by lia; f_equal; lia). rewrite <- E32. nia. }
  destruct (Z.ltb_spec eb ea); [|destruct (Z.ltb_spec ea eb)].
  - rewrite Z.max_l, Z.sub_diag, Z.pow_0_r, Z.div_1_r by lia. apply H; lia.
  - rewrite Z.max_r, Z.sub_diag, Z.pow_0_r, Z.div_1_r by lia. rewrite (Z.add_comm (x / _)), (Z.add_comm (x * _)). apply H; lia.
  - assert (ea = eb) as -> by lia. rewrite Z.max_id, Z.sub_diag, Z.pow_0_r, !Z.div_1_r, Z.add_0_r, <- Z.mul_add_distr_r, <- Z.mul_assoc, <- Z.pow_add_r by lia.
    f_equal. f_equal. lia.
Qed.

(** Mantissa and cut off bits are the sum at exponent [e]. *)
Definition summed (N e m t : Z) : Prop := 0 <= m /\ 0 <= t < 2 ^ 32 /\ m * 2 ^ 32 + t = N * 2 ^ (33 - e).

Lemma add_up_loop N e0 m0 t0 :
  summed N e0 m0 t0 -> m0 < 4096 -> 0 <= e0 <= 31 ->
  wp (while loop_fuel (fun '(e, m, t) => (m <? 1024) && (0 <? e))
        (fun '(e, m, t) => (e - 1, u16 (shl 16 m 1 + Z.shiftr (Z.land kFp32SignMask t) kFp32SignIndex), shl 32 t 1)) (e0, m0, t0))
     (fun '(e, m, t) => summed N e m t /\ m < 4096 /\ 0 <= e <= 31 /\ (e = 0 \/ 1024 <= m) /\ (e = 0 -> e0 = 0 \/ m < 2048)).
Proof.
  intros Hs Hm He. apply (wp_while (fun '(e, m, t) => summed N e m t /\ m < 4096 /\ 0 <= e <= 31 /\ (e = e0 \/ m < 2048)) (fun '(e, m, t) => e)); [|unfold loop_fuel; lia| | |unfold loop_fuel; lia].
  - split_and!; try done; lia.
  - intros [[e m] t] ((Hm0 & Ht & Hv) & Hlt & Hle & _) [H1%Z.ltb_lt H2%Z.ltb_lt]%andb_true_iff. split; [|lia].
    rewrite Z.land_comm. change kFp32SignMask with (2 ^ 31). rewrite land_pow2, shiftr_div by (unfold kFp32SignIndex; lia).
    unfold kFp32SignIndex. rewrite (Z.mul_comm (2 ^ 31)), Z.div_mul by lia. unfold shl, u16. rewrite !shiftl_mul by lia. change (2 ^ 1) with 2.
    pose proof (Z.div_mod t (2 ^ 31) ltac:(lia)) as Ed. pose proof (Z.mod_pos_bound t (2 ^ 31) ltac:(lia)) as Hd.
    assert (Hb : 0 <= t / 2 ^ 31 < 2) by lia. rewrite (Z.mod_small (t / 2 ^ 31) 2) by done.
    rewrite (uwrap_small 16 (m * 2)), uwrap_small by lia.
    assert (Et : uwrap 32 (t * 2) = t mod 2 ^ 31 * 2) by (unfold uwrap; symmetry; apply (Z.mod_unique_pos _ _ (t / 2 ^ 31)); lia). rewrite Et.
    split_and!; try lia. split_and!; try lia. replace (33 - (e - 1)) with (Z.succ (33 - e)) by lia. rewrite Z.pow_succ_r by lia. lia.
  - intros [[e m] t] (Hs' & Hlt & Hle & Hc) H. split_and!; try done; try lia.
Qed.

Lemma add_down_loop N e m t :
  summed N e m t -> m < 4096 -> 0 <= e <= 31 ->
  exists e' m' t', while loop_fuel (fun '(e, m, t) => 2048 <=? m) (fun '(e, m, t) => (e + 1, Z.shiftr m 1, cut_bit m t)) (e, m, t) = Ok (e', m', t') /\
    summed N e' m' t' /\ m' < 2048 /\ (e' = e /\ m' = m /\ t' = t \/ e' = e + 1 /\ 1024 <= m').
Proof.
  intros Hs Hm He. change loop_fuel with (S (S 62)). cbn [while]. destruct (Z.leb_spec 2048 m) as [Hge|Hlt].
  - destruct Hs as (Hm0 & Ht & Hv).
    assert (Hx : m * 2 ^ 32 + t = 2 * (N * 2 ^ (32 - e))).
    { rewrite Hv. replace (33 - e) with (Z.succ (32 - e)) by lia. rewrite Z.pow_succ_r by lia. lia. }
    assert (Hev : t mod 2 = 0) by (symmetry; apply (Z.mod_unique_pos _ _ (N * 2 ^ (32 - e) - m * 2 ^ 31)); lia).
    destruct (cut_bit_spec m t Hm0 Ht Hev) as [Ec Hct]. rewrite Hx, (Z.mul_comm 2), Z.div_mul in Ec by lia.
    assert (Hr : 1024 <= Z.shiftr m 1 < 2048) by (rewrite shiftr_div by lia; split; [apply Z.div_le_lower_bound|apply Z.div_lt_upper_bound]; lia).
    rewrite (proj2 (Z.leb_gt _ _)) by lia. eexists _, _, _. split; [done|]. split_and!; try lia. split_and!; try lia.
    rewrite Ec. do 2 f_equal. lia.
  - eexists _, _, _. split; [done|]. split_and!; try done; lia.
Qed.

(** The end of an addition whose sum is not zero. *)
Lemma AddCalVal_spec s e m t N :
  0 <= s < 2 -> summed N e m t -> m < 4096 -> 1 <= e <= 31 -> 0 <= N ->
  exists r, Fp16AddCalVal s e m t 0 = Ok r /\ rounded 0x7FFF s 0 N r.
Proof.
  intros Hs Hsum Hm He HN. unfold Fp16AddCalVal. change (shl 16 kFp16ManHideBit 0) with 1024. change (shl 16 1024 1) with 2048.
  pose proof (add_up_loop N e m t Hsum Hm ltac:(lia)) as Hw. apply wp_Ok in Hw as ([[e1 m1] t1] & E1 & Hs1 & Hm1 & He1 & Hc1 & Hd1). rewrite E1. cbn [mbind outcome_bind].
  destruct (add_down_loop N e1 m1 t1 Hs1 Hm1 He1) as (e2 & m2 & t2 & E2 & (Hm20 & Ht2 & Hv2) & Hm2 & Hc2). rewrite E2. cbn [mbind outcome_bind].
  rewrite ManRound_rne by lia.
  assert (He2 : e2 = 0 \/ 1 <= e2 <= 32) by lia. destruct He2 as [->|He2].
  - assert (E : m2 = 2 * N /\ t2 = 0) by (change (33 - 0) with 33 in Hv2; lia). destruct E as [-> ->].
    assert (ER : rne (2 * N * 2 ^ 32 + 0) 32 = 2 * N).
    { rewrite Z.add_0_r. change 32 with (0 + 32) at 2. rewrite rne_scale by lia. apply rne_0. }
    rewrite ER, (carry_loop _ 0 (2 * N)) by (try lia; done). rewrite (proj2 (Z.eqb_neq _ _)) by lia. cbn [mbind outcome_bind].
    rewrite (proj2 (Z.leb_le _ _)) by lia. cbn [Z.eqb andb]. rewrite shiftr_div by lia. change (2 ^ 1) with 2. rewrite (Z.mul_comm 2), Z.div_mul by lia.
    eexists. split; [|apply (pack_denormal_cell s 0 N N); try lia; [rewrite Z.div_1_r; lia|apply rne_0]]. unfold pack. cbn [fst snd]. by destruct (Fp16NormalizeVal 0 N).
  - assert (EN : rne N (0 + e2 - 1) = rne (m2 * 2 ^ 32 + t2) 32) by (apply (rne_same _ _ _ _ (33 - e2) 0); try lia).
    assert (Elo : N / 2 ^ (0 + e2 - 1) = m2).
    { pose proof (Z.pow_pos_nonneg 2 (33 - e2) ltac:(lia) ltac:(lia)). rewrite <- (Z.div_mul_cancel_r N (2 ^ (0 + e2 - 1)) (2 ^ (33 - e2))) by (try apply Z.pow_nonzero; lia).
      rewrite <- Hv2, <- Z.pow_add_r by lia. replace (0 + e2 - 1 + (33 - e2)) with 32 by lia. rewrite Z.div_add_l by lia. rewrite Z.div_small by lia. lia. }
    rewrite <- EN. pose proof (pack_rounded s 0 N e2 Hs ltac:(lia) HN ltac:(lia) ltac:(lia) ltac:(lia)) as Hr. cbv zeta in Hr.
    set (R := rne N (0 + e2 - 1)) in *.
    assert (HR : 1024 <= R <= 2048) by (unfold R; destruct (rne_cases N (0 + e2 - 1) ltac:(lia)) as [[-> _]|[-> _]]; lia).
    rewrite (carry_loop _ e2 R) by (try lia; done). eexists. split; [|exact Hr]. unfold pack. destruct (Z.eqb_spec R 2048); cbn [mbind outcome_bind fst snd].
    + rewrite (proj2 (Z.eqb_neq (e2 + 1) 0)) by lia. cbn [andb]. by destruct (Fp16NormalizeVal _ _).
    + rewrite (proj2 (Z.eqb_neq e2 0)), (proj2 (Z.ltb_ge R 1024)), andb_false_r by lia. cbn [andb fst snd]. by destruct (Fp16NormalizeVal _ _).
Qed.

(** The two mantissas brought to the larger exponent, with what is cut off. *)
Definition cut_parts (e_a m_a e_b m_b : Z) : Z * Z * Z :=
  let e_tmp := Z.abs (e_a - e_b) in
  if e_b <? e_a then (shl 32 m_b (32 - e_tmp), m_a, RightShift 32 m_b e_tmp)
  else if e_a <? e_b then (shl 32 m_a (32 - e_tmp), RightShift 32 m_a e_tmp, m_b)
  else (0, m_a, m_b).

Lemma u16_sum a b : u16 (u32 a + u32 b) = u16 (a + b).
Proof.
  unfold u16, u32, uwrap. rewrite (Z.mod_eq a (2 ^ 32)), (Z.mod_eq b (2 ^ 32)) by lia.
  replace (_ + _) with (a + b + (- (2 ^ 16 * (a / 2 ^ 32)) - 2 ^ 16 * (b / 2 ^ 32)) * 2 ^ 16) by lia. apply Z.mod_add. lia.
Qed.

Lemma cut_parts_wrap ea x eb y :
  - 2 ^ 31 <= x < 2 ^ 31 -> - 2 ^ 31 <= y < 2 ^ 31 -> 1 <= ea <= 31 -> 1 <= eb <= 31 ->
  cut_parts ea (u32 x) eb (u32 y) = (rest ea x eb y, u32 (x / 2 ^ (Z.max ea eb - ea)), u32 (y / 2 ^ (Z.max ea eb - eb))).
Proof.
  intros Hx Hy Ha Hb. unfold cut_parts, rest. destruct (Z.ltb_spec eb ea); [|destruct (Z.ltb_spec ea eb)].
  - rewrite Z.abs_eq, Z.max_l, Z.sub_diag, Z.pow_0_r, Z.div_1_r, trunc_shift, RightShift_div by lia. done.
  - rewrite Z.abs_neq, Z.opp_sub_distr, Z.add_comm, Z.add_opp_r, Z.max_r, Z.sub_diag, Z.pow_0_r, Z.div_1_r, trunc_shift, RightShift_div by lia. done.
  - assert (ea = eb) as -> by lia. by rewrite Z.max_id, Z.sub_diag, Z.pow_0_r, !Z.div_1_r.
Qed.

Lemma floor_sum_bound ea x eb y : Z.abs x < 2048 -> Z.abs y < 2048 -> - 4096 <= floor_sum ea x eb y < 4096.
Proof.
  intros Hx Hy. unfold floor_sum.
  assert (H : forall v d, Z.abs v < 2048 -> 0 <= d -> -2048 <= v / 2 ^ d < 2048).
  { intros v d Hv Hd. pose proof (Z.pow_pos_nonneg 2 d ltac:(lia) Hd). split; [apply Z.div_le_lower_bound|apply Z.div_lt_upper_bound]; nia. }
  pose proof (H x (Z.max ea eb - ea) Hx ltac:(lia)). pose proof (H y (Z.max ea eb - eb) Hy ltac:(lia)). lia.
Qed.

(** The exact sum, and its sign. *)
Definition exact (ea x eb y : Z) : Z := x * 2 ^ (ea - 1) + y * 2 ^ (eb - 1).

Lemma exact_floor ea x eb y :
  1 <= ea <= 31 -> 1 <= eb <= 31 -> (exact ea x eb y < 0 <-> floor_sum ea x eb y < 0) /\ (exact ea x eb y = 0 -> floor_sum ea x eb y = 0).
Proof.
  intros Ha Hb. pose proof (exact_sum ea x eb y Ha Hb) as E. fold (exact ea x eb y) in E. pose proof (rest_bound ea x eb y ltac:(lia)).
  pose proof (Z.pow_pos_nonneg 2 (33 - Z.max ea eb) ltac:(lia) ltac:(lia)). nia.
Qed.

(** Adding what is left after the signs have been settled. *)
Lemma add_tail s ea x eb y :
  0 <= s < 2 -> Z.abs x < 2048 -> Z.abs y < 2048 -> 1 <= ea <= 31 -> 1 <= eb <= 31 -> 0 <= exact ea x eb y ->
  exists r, (let '(m_trunc, m_a, m_b) := cut_parts ea (u32 x) eb (u32 y) in Fp16AddCalVal s (Z.max ea eb) (u16 (m_a + m_b)) m_trunc 0) = Ok r /\
    rounded 0x7FFF s 0 (exact ea x eb y) r.
Proof.
  intros Hs Hx Hy Ha Hb HS. rewrite cut_parts_wrap by lia. rewrite u16_sum. fold (floor_sum ea x eb y).
  pose proof (floor_sum_bound ea x eb y Hx Hy). destruct (exact_floor ea x eb y Ha Hb) as [Hneg _].
  unfold u16. rewrite (uwrap_small 16 (floor_sum _ _ _ _)) by lia.
  apply AddCalVal_spec; try lia. split_and!; [lia|apply rest_bound; lia..|by apply exact_sum].
Qed.

(** A sum whose mantissa is zero at the larger exponent: the operands cancel,
    or only the last bit of the smaller one is left. *)
Definition cancel_ok (s e : Z) : bool :=
  match Fp16AddCalVal s e 0 0 3 with Ok r => r =? s * 32768 | _ => false end &&
  ((e <? 2) || match Fp16AddCalVal s e 4 0 3 with
   | Ok r => let p := r - s * 32768 in (0 <=? p) && (p <=? kFp16Max) && (mag p =? 2 ^ (e - 2)) | _ => false end).

Lemma cancel_table s e : 0 <= s < 2 -> 1 <= e <= 31 -> cancel_ok s e = true.
Proof.
  intros Hs He. assert (H : forallb (fun e => cancel_ok 0 e && cancel_ok 1 e) (seqZ 1 31) = true) by (by vm_compute).
  rewrite forallb_forall in H. specialize (H e). rewrite <- list_elem_of_In, elem_of_seqZ, andb_true_iff in H. specialize (H ltac:(lia)).
  assert (s = 0 \/ s = 1) as [-> | ->] by lia; apply H.
Qed.

Lemma zero_sum_cases ea x eb y :
  1 <= ea <= 31 -> 1 <= eb <= 31 -> Z.abs x < 2048 -> Z.abs y < 2048 -> ea = 1 \/ 1024 <= Z.abs x -> eb = 1 \/ 1024 <= Z.abs y ->
  floor_sum ea x eb y = 0 ->
  (ea = eb /\ x + y = 0) \/ (ea = eb + 1 /\ x = 1024 /\ y = -2047) \/ (eb = ea + 1 /\ y = 1024 /\ x = -2047).
Proof.
  intros Ha Hb Hx Hy Hna Hnb Hz. unfold floor_sum in Hz.
  assert (H : forall v w d, 1 <= d -> Z.abs w < 2048 -> 1024 <= Z.abs v -> v + w / 2 ^ d = 0 -> d = 1 /\ v = 1024 /\ w = -2047).
  { intros v w d Hd Hw Hv E. pose proof (Z.div_mod w (2 ^ d) ltac:(apply Z.pow_nonzero; lia)) as Ew.
    pose proof (Z.mod_pos_bound w (2 ^ d) ltac:(apply Z.pow_pos_nonneg; lia)) as Hm. destruct (decide (d = 1)) as [->|].
    - change (2 ^ 1) with 2 in *. lia.
    - pose proof (Z.pow_le_mono_r 2 2 d ltac:(lia) ltac:(lia)). change (2 ^ 2) with 4 in *. nia. }
  destruct (Z.lt_trichotomy ea eb) as [?|[->|?]].
  - rewrite Z.max_r, Z.sub_diag, Z.pow_0_r, Z.div_1_r in Hz by lia. pose proof (H y x (eb - ea)). lia.
  - rewrite Z.max_id, Z.sub_diag, Z.pow_0_r, !Z.div_1_r in Hz. by left.
  - rewrite Z.max_l, Z.sub_diag, Z.pow_0_r, Z.div_1_r in Hz by lia. pose proof (H x y (ea - eb)). lia.
Qed.

Lemma shl3 x : shl 32 (u32 x) 3 = u32 (8 * x).
Proof. unfold shl, u32, uwrap. rewrite shiftl_mul by lia. rewrite Zmult_mod_idemp_l. f_equal. lia. Qed.

Lemma rounded_exact s k p : 0 <= k -> 0 <= p <= kFp16Max -> rounded 0x7FFF s k (mag p * 2 ^ k) (s * 32768 + p).
Proof. intros Hk Hp. left. split; [by apply finite_below_overflow|]. exists p. split; [by apply nearest_exact|done]. Qed.

Lemma cancel_last s e t m N :
  0 <= s < 2 -> 2 <= e <= 31 -> t = 0 -> m = 4 -> N = 2 ^ (e - 2) -> exists r, Fp16AddCalVal s e (u16 m) t 3 = Ok r /\ rounded 0x7FFF s 0 N r.
Proof.
  intros Hs He -> -> ->. pose proof (cancel_table s e Hs ltac:(lia)) as H. unfold cancel_ok in H. rewrite (proj2 (Z.ltb_ge e 2)) in H by lia.
  apply andb_true_iff in H as [_ H]. change (u16 4) with 4. destruct (Fp16AddCalVal s e 4 0 3) as [r| |]; try done. simpl in H.
  apply andb_true_iff in H as [[H1%Z.leb_le H2%Z.leb_le]%andb_true_iff H3%Z.eqb_eq]. eexists. split; [done|].
  rewrite <- H3, <- (Z.mul_1_r (mag _)). change 1 with (2 ^ 0). replace r with (s * 32768 + (r - s * 32768)) at 2 by lia. by apply rounded_exact.
Qed.

Lemma cancel_tail s ea x eb y :
  0 <= s < 2 -> 1 <= ea <= 31 -> 1 <= eb <= 31 -> Z.abs x < 2048 -> Z.abs y < 2048 -> ea = 1 \/ 1024 <= Z.abs x -> eb = 1 \/ 1024 <= Z.abs y ->
  floor_sum ea x eb y = 0 ->
  exists r, (let '(m_trunc, m_a, m_b) := cut_parts ea (shl 32 (u32 x) 3) eb (shl 32 (u32 y) 3) in
             Fp16AddCalVal s (Z.max ea eb) (u16 (m_a + m_b)) m_trunc 3) = Ok r /\
    rounded 0x7FFF s 0 (exact ea x eb y) r.
Proof.
  intros Hs Ha Hb Hx Hy Hna Hnb Hz. rewrite !shl3, cut_parts_wrap, u16_sum by lia.
  destruct (zero_sum_cases ea x eb y Ha Hb Hx Hy Hna Hnb Hz) as [[-> E]|[(-> & -> & ->)|(-> & -> & ->)]].
  - pose proof (cancel_table s eb Hs Hb) as H. unfold cancel_ok in H. apply andb_true_iff in H as [H _]. unfold rest. rewrite Z.ltb_irrefl.
    rewrite Z.max_id, Z.sub_diag, Z.pow_0_r, !Z.div_1_r. replace (8 * x + 8 * y) with 0 by lia. change (u16 0) with 0.
    destruct (Fp16AddCalVal s eb 0 0 3) as [r| |]; try done. apply Z.eqb_eq in H as ->. eexists. split; [done|].
    replace (exact eb x eb y) with (mag 0 * 2 ^ 0) by (unfold exact; rewrite <- Z.mul_add_distr_r, E; done).
    replace (s * 32768) with (s * 32768 + 0) by lia. apply rounded_exact; [done|unfold kFp16Max; lia].
  - rewrite Z.max_l by lia. apply (cancel_last s (eb + 1)); [done|lia|..].
    + unfold rest. rewrite (proj2 (Z.ltb_lt _ _)) by lia. by replace (eb + 1 - eb) with 1 by lia.
    + replace (eb + 1 - (eb + 1)) with 0 by lia. by replace (eb + 1 - eb) with 1 by lia.
    + unfold exact. replace (eb + 1 - 1) with (Z.succ (eb - 1)) by lia. rewrite Z.pow_succ_r by lia. replace (eb + 1 - 2) with (eb - 1) by lia. lia.
  - rewrite Z.max_r by lia. apply (cancel_last s (ea + 1)); [done|lia|..].
    + unfold rest. rewrite (proj2 (Z.ltb_ge _ _)), (proj2 (Z.ltb_lt _ _)) by lia. by replace (ea + 1 - ea) with 1 by lia.
    + replace (ea + 1 - (ea + 1)) with 0 by lia. by replace (ea + 1 - ea) with 1 by lia.
    + unfold exact. replace (ea + 1 - 1) with (Z.succ (ea - 1)) by lia. rewrite Z.pow_succ_r by lia. replace (ea + 1 - 2) with (ea - 1) by lia. lia.
Qed.

Lemma sum_bits z : - 4096 <= z < 4096 ->
  Z.shiftr (Z.land (u16 (u32 z)) kFp16SignMask) kFp16SignIndex = (if z <? 0 then 1 else 0) /\ (u16 (u32 z) =? 0) = (z =? 0).
Proof.
  intros Hz. pose proof (u16_sum z 0) as E. change (u32 0) with 0 in E. rewrite !Z.add_0_r in E. rewrite E.
  change kFp16SignMask with (2 ^ 15). unfold kFp16SignIndex. rewrite land_pow2, shiftr_div, (Z.mul_comm (2 ^ 15)), Z.div_mul by lia.
  unfold u16, uwrap. destruct (Z.ltb_spec z 0).
  - replace (z mod 2 ^ 16) with (z + 2 ^ 16) by (apply (Z.mod_unique_pos _ _ (-1)); lia).
    replace ((z + 2 ^ 16) / 2 ^ 15) with 1 by (apply (Z.div_unique_pos _ _ 1 (z + 2 ^ 15)); lia). split; [done|].
    destruct (Z.eqb_spec (z + 2 ^ 16) 0), (Z.eqb_spec z 0); lia.
  - rewrite (Z.mod_small z), Z.div_small by lia. done.
Qed.

(** The sign of a sum: that of the operands, or of the exact result, and plus
    for operands that cancel. *)
Definition sum_sign (a b : Z) : Z :=
  if Fp16ExtracSign a =? Fp16ExtracSign b then Fp16ExtracSign a else if signed a + signed b <? 0 then 1 else 0.

(** [Fp16Add] with its last part named. *)
Lemma add_unfold a b :
  Fp16Add a b =
  (let '(s_a, e_a, m_a) := ExtractFp16 a in
   let '(s_b, e_b, m_b) := ExtractFp16 b in
   let '(sum, s_ret, m_a, m_b) :=
     if negb (s_a =? s_b) then
       let m_a := ReverseMan 32 (0 <? s_a) m_a in
       let m_b := ReverseMan 32 (0 <? s_b) m_b in
       let sum := u16 (GetManSum 32 e_a m_a e_b m_b) in
       let s_ret := Z.shiftr (Z.land sum kFp16SignMask) kFp16SignIndex in
       (sum, s_ret, ReverseMan 32 (0 <? s_ret) m_a, ReverseMan 32 (0 <? s_ret) m_b)
     else (u16 (GetManSum 32 e_a m_a e_b m_b), s_a, m_a, m_b) in
   let '(shift_out, m_a, m_b) := if sum =? 0 then (3, shl 32 m_a 3, shl 32 m_b 3) else (0, m_a, m_b) in
   let '(m_trunc, m_a, m_b) := cut_parts e_a m_a e_b m_b in
   Fp16AddCalVal s_ret (Z.max e_a e_b) (u16 (m_a + m_b)) m_trunc shift_out).
Proof. done. Qed.

Lemma Fp16Add_spec a b :
  half a -> half b -> exists r, Fp16Add a b = Ok r /\ rounded 0x7FFF (sum_sign a b) 0 (Z.abs (signed a + signed b)) r.
Proof.
  intros Ha Hb. destruct (half_parts a Ha) as (sa & ea & ma & HA). destruct (half_parts b Hb) as (sb & eb & mb & HB).
  assert (Ea : ExtractFp16 a = (sa, ea, u32 ma)) by (unfold u32; rewrite uwrap_small; [apply HA|pose proof (ih_man _ _ _ _ HA); lia]).
  assert (Eb : ExtractFp16 b = (sb, eb, u32 mb)) by (unfold u32; rewrite uwrap_small; [apply HB|pose proof (ih_man _ _ _ _ HB); lia]).
  unfold sum_sign. rewrite add_unfold, Ea, Eb, (half_sign _ _ _ _ HA), (half_sign _ _ _ _ HB),
    (half_value _ _ _ _ HA), (half_value _ _ _ _ HB).
  destruct HA as [_ Hsa Hea1 Hma Hna _ _ _ _ _], HB as [_ Hsb Heb1 Hmb Hnb _ _ _ _ _]. clear Ha Hb.
  pose proof (Z.pow_pos_nonneg 2 (ea - 1) ltac:(lia) ltac:(lia)) as Hpa. pose proof (Z.pow_pos_nonneg 2 (eb - 1) ltac:(lia) ltac:(lia)) as Hpb.
  destruct (Z.eqb_spec sa sb) as [->|Hne]; cbn [negb].
  - rewrite GetManSum_wrap by lia. pose proof (floor_sum_bound ea ma eb mb ltac:(lia) ltac:(lia)) as Hz. destruct (sum_bits _ Hz) as [_ ->].
    replace (Z.abs _) with (exact ea ma eb mb) by (unfold exact; destruct (sb =? 0); nia).
    destruct (Z.eqb_spec (floor_sum ea ma eb mb) 0); [apply cancel_tail; lia|]. apply add_tail; try lia. unfold exact; nia.
  - rewrite !ReverseMan_wrap.
    set (x := if 0 <? sa then - ma else ma). set (y := if 0 <? sb then - mb else mb).
    replace (_ + _) with (exact ea x eb y) by (unfold exact, x, y; destruct (Z.eqb_spec sa 0), (Z.ltb_spec 0 sa), (Z.eqb_spec sb 0), (Z.ltb_spec 0 sb); lia).
    assert (Hx : Z.abs x = ma) by (unfold x; destruct (0 <? sa); lia). assert (Hy : Z.abs y = mb) by (unfold y; destruct (0 <? sb); lia).
    rewrite GetManSum_wrap by lia. pose proof (floor_sum_bound ea x eb y ltac:(lia) ltac:(lia)) as Hz.
    destruct (sum_bits _ Hz) as [-> ->]. destruct (exact_floor ea x eb y ltac:(lia) ltac:(lia)) as [Hneg Hzero].
    destruct (Z.eqb_spec (floor_sum ea x eb y) 0) as [E0|Hn0].
    + rewrite (proj2 (Z.ltb_ge (floor_sum ea x eb y) 0)), (proj2 (Z.ltb_ge (exact ea x eb y) 0)), Z.abs_eq by lia. cbn [Z.ltb Z.compare]. apply cancel_tail; lia.
    + destruct (Z.ltb_spec (floor_sum ea x eb y) 0).
      * rewrite (proj2 (Z.ltb_lt (exact ea x eb y) 0)), Z.abs_neq by lia. cbn [Z.ltb Z.compare].
        replace (- exact ea x eb y) with (exact ea (- x) eb (- y)) by (unfold exact; lia). apply add_tail; try lia. unfold exact in *; lia.
      * rewrite (proj2 (Z.ltb_ge (exact ea x eb y) 0)), Z.abs_eq by lia. cbn [Z.ltb Z.compare]. apply add_tail; lia.
Qed.

(** ** Subtraction *)

Lemma Fp16Sub_spec a b :
  half a -> half b -> exists c, half c /\ signed c = - signed b /\ Fp16ExtracSign c = 1 - Fp16ExtracSign b /\ Fp16Sub a b = Fp16Add a c.
Proof.
  intros _ Hb. destruct (half_parts b Hb) as (s & e & m & HB). set (c := (1 - s) * 32768 + ((e - 1) * 1024 + m)).
  pose proof (ih_sign _ _ _ _ HB). pose proof (ih_exp _ _ _ _ HB). pose proof (ih_man _ _ _ _ HB). pose proof (ih_norm _ _ _ _ HB).
  assert (Hc : 0 <= c < 2 ^ 16) by (unfold c; lia). destruct (half_parts c Hc) as (s' & e' & m' & HC).
  pose proof (ih_pattern _ _ _ _ HC) as Ec. pose proof (ih_sign _ _ _ _ HC). pose proof (ih_exp _ _ _ _ HC). pose proof (ih_man _ _ _ _ HC). pose proof (ih_norm _ _ _ _ HC).
  assert (E : s' = 1 - s /\ e' = e /\ m' = m) by (unfold c in Ec; lia). destruct E as (-> & -> & ->).
  exists c. rewrite (half_value _ _ _ _ HB), (half_value _ _ _ _ HC), (half_sign _ _ _ _ HB), (half_sign _ _ _ _ HC). split_and!; [|..|].
  - done.
  - destruct (Z.eqb_spec (1 - s) 0), (Z.eqb_spec s 0); lia.
  - done.
  - unfold Fp16Sub. f_equal. unfold c. rewrite (ih_pattern _ _ _ _ HB). set (p := (e - 1) * 1024 + m). assert (0 <= p < 32768) by (unfold p; lia).
    change kFp16SignMask with (2 ^ 15). change kFp16AbsMax with (Z.ones 15). rewrite land_pow2, Z.land_ones by lia.
    assert (Em : (s * 32768 + p) mod 2 ^ 15 = p) by (symmetry; apply (Z.mod_unique_pos _ _ s); lia). rewrite Em.
    assert (En : u16 (Z.lnot (s * 32768 + p)) = (1 - s) * 32768 + (32767 - p)) by (unfold u16, uwrap, Z.lnot; symmetry; apply (Z.mod_unique_pos _ _ (-1)); lia).
    rewrite En. assert (Ed : ((1 - s) * 32768 + (32767 - p)) / 2 ^ 15 = 1 - s) by (symmetry; apply (Z.div_unique_pos _ _ _ (32767 - p)); lia). rewrite Ed.
    rewrite (Z.mod_small (1 - s)), Z.mul_comm by lia. rewrite lor_low by lia. lia.
Qed.

(** ** Comparison *)

Lemma pattern_order ea ma eb mb :
  1 <= ea -> 1 <= eb -> 0 <= ma < 2048 -> 0 <= mb < 2048 -> ea = 1 \/ 1024 <= ma -> eb = 1 \/ 1024 <= mb ->
  let fa := if ma <? 1024 then 0 else ea in
  let fb := if mb <? 1024 then 0 else eb in
  (if fb <? fa then true else if fa =? fb then mb <? ma else false) = (mb * 2 ^ (eb - 1) <? ma * 2 ^ (ea - 1)).
Proof.
  intros Ha Hb Hma Hmb Hna Hnb. cbv zeta. rewrite <- (mag_pattern ea ma), <- (mag_pattern eb mb) by lia.
  set (pa := (ea - 1) * 1024 + ma). set (pb := (eb - 1) * 1024 + mb).
  assert (E : (mag pb <? mag pa) = (pb <? pa)).
  { destruct (Z.ltb_spec pb pa) as [H|H].
    - apply Z.ltb_lt, mag_mono_lt; [unfold pb; lia|done].
    - apply Z.ltb_ge, mag_mono; [unfold pa; lia|done]. }
  rewrite E. unfold pa, pb. destruct (Z.ltb_spec ma 1024), (Z.ltb_spec mb 1024).
  all: repeat case_match; lia.
Qed.

Lemma fp16_gt_spec a b : half a -> half b -> fp16_gt a b = (signed b <? signed a).
Proof.
  intros Ha Hb. destruct (half_parts a Ha) as (sa & ea & ma & HA). destruct (half_parts b Hb) as (sb & eb & mb & HB).
  assert (Hman : forall v s e m, is_half v s e m -> Fp16ExtracMan v = m).
  { intros v s e m H. pose proof (ih_extract _ _ _ _ H) as E. by injection E. }
  unfold fp16_gt. rewrite (half_sign _ _ _ _ HA), (half_sign _ _ _ _ HB), (ih_field _ _ _ _ HA), (ih_field _ _ _ _ HB),
    (Hman _ _ _ _ HA), (Hman _ _ _ _ HB), (ih_zero _ _ _ _ HA), (ih_zero _ _ _ _ HB), (half_value _ _ _ _ HA), (half_value _ _ _ _ HB).
  destruct HA as [_ Hsa Hea1 Hma Hna _ _ _ _ _], HB as [_ Hsb Heb1 Hmb Hnb _ _ _ _ _].
  pose proof (Z.pow_pos_nonneg 2 (ea - 1) ltac:(lia) ltac:(lia)) as Hpa. pose proof (Z.pow_pos_nonneg 2 (eb - 1) ltac:(lia) ltac:(lia)) as Hpb.
  assert (sa = 0 \/ sa = 1) as [-> | ->] by lia; assert (sb = 0 \/ sb = 1) as [-> | ->] by lia; cbn [Z.eqb Z.ltb Z.compare andb].
  - by rewrite pattern_order by lia.
  - destruct (Z.ltb_spec (- (mb * 2 ^ (eb - 1))) (ma * 2 ^ (ea - 1))), (Z.eqb_spec ma 0), (Z.eqb_spec mb 0), (Z.eqb_spec ea 1), (Z.eqb_spec eb 1); simpl; try done; nia.
  - symmetry. apply Z.ltb_ge. nia.
  - pose proof (pattern_order eb mb ea ma ltac:(lia) ltac:(lia) ltac:(lia) ltac:(lia) ltac:(lia) ltac:(lia)) as E. cbv zeta in E. rewrite Z.eqb_sym, E.
    destruct (Z.ltb_spec (ma * 2 ^ (ea - 1)) (mb * 2 ^ (eb - 1))), (Z.ltb_spec (- (mb * 2 ^ (eb - 1))) (- (ma * 2 ^ (ea - 1)))); lia.
Qed.

Lemma fp16_eq_spec a b : half a -> half b -> fp16_eq a b = (signed a =? signed b).
Proof.
  intros Ha Hb. destruct (half_parts a Ha) as (sa & ea & ma & HA). destruct (half_parts b Hb) as (sb & eb & mb & HB).
  unfold fp16_eq. change kBitLen16Max with (Z.ones 16). rewrite !Z.land_ones, !Z.mod_small by (unfold half in *; lia).
  rewrite (ih_zero _ _ _ _ HA), (ih_zero _ _ _ _ HB), (half_value _ _ _ _ HA), (half_value _ _ _ _ HB).
  destruct HA as [_ Hsa Hea1 Hma Hna -> _ _ _ _], HB as [_ Hsb Heb1 Hmb Hnb -> _ _ _ _].
  rewrite <- (mag_pattern ea ma), <- (mag_pattern eb mb) by lia. set (pa := (ea - 1) * 1024 + ma). set (pb := (eb - 1) * 1024 + mb).
  assert (0 <= pa < 32768) by (unfold pa; lia). assert (0 <= pb < 32768) by (unfold pb; lia).
  replace ((ea =? 1) && (ma =? 0)) with (pa =? 0) by (unfold pa; destruct (Z.eqb_spec ea 1), (Z.eqb_spec ma 0); simpl; lia).
  replace ((eb =? 1) && (mb =? 0)) with (pb =? 0) by (unfold pb; destruct (Z.eqb_spec eb 1), (Z.eqb_spec mb 0); simpl; lia).
  clearbody pa pb. pose proof (mag_inj pa pb). pose proof (mag_inj pa 0). pose proof (mag_inj pb 0). change (mag 0) with 0 in *.
  pose proof (mag_nonneg pa). pose proof (mag_nonneg pb). assert (pa = pb -> mag pa = mag pb) by (intros ->; done).
  destruct (Z.eqb_spec pa 0) as [->|], (Z.eqb_spec pb 0) as [->|]; cbn [andb]; change (mag 0) with 0 in *.
  all: destruct (Z.eqb_spec sa 0), (Z.eqb_spec sb 0); try done.
  all: match goal with |- _ = (?v =? ?w) => destruct (Z.eqb_spec v w) end; lia.
Qed.
