(* ===== verification/NumFp16Correct.v ===== *)
(** * NumFp16Correct: what the half precision library promises

    Arithmetic and conversions as correctly rounded operations on numbers,
    integers that saturate, comparisons that order by value, and the closure of
    the 16 bits under all of it. *)

From S2P Require Import Prelude NumBits NumFp16 NumFp16Value NumFp16Convert NumFp16Int NumFp16Arith.

(** The sign of a difference. *)
Definition diff_sign (a b : Z) : Z :=
  if Fp16ExtracSign a =? 1 - Fp16ExtracSign b then Fp16ExtracSign a else if signed a - signed b <? 0 then 1 else 0.

Lemma sign_bit v : half v -> 0 <= Fp16ExtracSign v < 2.
Proof. intros Hv. destruct (half_parts v Hv) as (s & e & m & H). rewrite (half_sign _ _ _ _ H). apply H. Qed.

Lemma rounded_half over s k N r : 0 <= over < 32768 -> 0 <= s < 2 -> rounded over s k N r -> half r.
Proof.
  intros Ho Hs [(_ & p & [Hp _] & ->)|[_ ->]]; unfold half, kFp16Max in *; lia.
Qed.

(** The numbers that overflow a half are below the limit of the conversions. *)
Lemma overflow_below_limit k : 0 <= k -> overflow_bound k < 2 ^ (41 + k).
Proof.
  intros Hk. unfold overflow_bound. replace (41 + k) with (13 + (28 + k)) by lia. rewrite (Z.pow_add_r 2 13) by lia.
  pose proof (Z.pow_pos_nonneg 2 (28 + k) ltac:(lia) ltac:(lia)). lia.
Qed.

(** What a conversion from a wider float gives for a magnitude that a half has. *)
Lemma narrowed_exact s k p r : 0 <= k -> 0 <= p <= kFp16Max -> narrowed s k (mag p * 2 ^ k) r -> r = s * 32768 + p.
Proof.
  intros Hk Hp H. pose proof (finite_below_overflow k p Hk Hp) as Hlt. pose proof (overflow_below_limit k Hk).
  destruct H as [[_ [(_ & q & Hq & ->)|[Hge _]]]|[Hge _]]; [|lia|lia].
  f_equal. by apply (nearest_unique k (mag p * 2 ^ k)), nearest_exact.
Qed.

(** C13: addition and subtraction of any two halves return, and what they return
    is the half nearest to the exact sum or difference (ties to the even one),
    with the IEEE sign of the result, or the pattern 0x7FFF with that sign from
    65520 on. *)
Theorem fp16_add_correct a b :
  half a -> half b ->
  (exists r, Fp16Add a b = Ok r /\ rounded 0x7FFF (sum_sign a b) 0 (Z.abs (signed a + signed b)) r) /\
  (exists r, Fp16Sub a b = Ok r /\ rounded 0x7FFF (diff_sign a b) 0 (Z.abs (signed a - signed b)) r).
Proof.
  intros Ha Hb. split; [by apply Fp16Add_spec|].
  destruct (Fp16Sub_spec a b Ha Hb) as (c & Hc & Ec & Es & ->). destruct (Fp16Add_spec a c Ha Hc) as (r & Er & H).
  exists r. split; [done|]. unfold sum_sign, diff_sign in *. rewrite Ec, Es, Z.add_opp_r in H. done.
Qed.

(** C14: multiplication of any two halves returns the half nearest to the exact
    product, ties to even, with the exclusive or of the signs, or 0x7FFF with
    that sign from 65520 on; denormal operands and results included. *)
Theorem fp16_mul_correct a b :
  half a -> half b ->
  exists r, Fp16Mul a b = Ok r /\
    rounded 0x7FFF (Z.lxor (Fp16ExtracSign a) (Fp16ExtracSign b)) 24 (Z.abs (signed a) * Z.abs (signed b)) r.
Proof. apply Fp16Mul_spec. Qed.

(** Below 65520 the conversions have nothing to do with overflow. *)
Lemma rounded_below over s k N r :
  N < overflow_bound k -> rounded over s k N r -> exists p, nearest k N p /\ r = s * 32768 + p.
Proof. intros HN [[_ H]|[Hge _]]; [done|lia]. Qed.

Lemma narrowed_below s k N r :
  0 <= k -> N < overflow_bound k -> narrowed s k N r -> exists p, nearest k N p /\ r = s * 32768 + p.
Proof.
  intros Hk HN [[_ H]|[Hge _]]; [by eapply rounded_below|]. pose proof (overflow_below_limit k Hk). lia.
Qed.

(** C38: assignment from a [float], a [double] or an [int32_t] whose magnitude
    is below 65520 gives the nearest half, ties to even, with the operand's
    sign; every such number has one, and the result is finite. Larger numbers,
    infinities and NaNs are not part of the statement. *)
Theorem fp16_of_number_correct f d i :
  f32_mag f < overflow_bound 125 -> f64_mag d < overflow_bound 1050 -> Z.abs i < 65520 ->
  (exists p, nearest 125 (f32_mag f) p /\ of_float f = f32_sign f * 32768 + p) /\
  (exists p, nearest 1050 (f64_mag d) p /\ of_double d = f64_sign d * 32768 + p) /\
  (exists p, nearest 0 (Z.abs i * 2 ^ 24) p /\ of_int32 i = Ok ((if i <? 0 then 1 else 0) * 32768 + p)).
Proof.
  intros Hf Hd Hi. split_and!.
  - eapply narrowed_below, of_float_narrowed; [lia|done].
  - eapply narrowed_below, of_double_narrowed; [lia|done].
  - destruct (of_int32_spec i) as (r & -> & Hr); [lia|].
    apply rounded_below in Hr as (p & Hp & ->); [by exists p|unfold overflow_bound; lia].
Qed.

(** What becomes of all other numbers: from 65520 on the result is the NaN
    pattern for floats below 131072, and the largest finite half for larger
    floats, infinities, NaNs and integers. *)
Theorem fp16_of_large_number f d i :
  - 2 ^ 31 < i < 2 ^ 31 ->
  narrowed (f32_sign f) 125 (f32_mag f) (of_float f) /\
  narrowed (f64_sign d) 1050 (f64_mag d) (of_double d) /\
  (exists r, of_int32 i = Ok r /\ rounded kFp16Max (if i <? 0 then 1 else 0) 0 (Z.abs i * 2 ^ 24) r).
Proof. intros Hi. split_and!; [apply of_float_narrowed|apply of_double_narrowed|by apply of_int32_spec]. Qed.

(** C39: a finite half converts to [float] and [double] exactly, sign of zero
    included, and either converts back to the half it came from. *)
Theorem fp16_widen_roundtrip v :
  finite v ->
  exists F D, Fp16ToFloatVal v = Ok F /\ Fp16ToDouble v = Ok D /\
    f32_mag F = Z.abs (signed v) * 2 ^ 125 /\ f64_mag D = Z.abs (signed v) * 2 ^ 1050 /\
    f32_sign F = Fp16ExtracSign v /\ f64_sign D = Fp16ExtracSign v /\
    of_float F = v /\ of_double D = v.
Proof.
  intros Hv. destruct (finite_parts v Hv) as (s & e & m & H & He).
  pose proof (ih_exp _ _ _ _ H). pose proof (ih_man _ _ _ _ H). pose proof (ih_norm _ _ _ _ H). pose proof (ih_pattern _ _ _ _ H) as Ev.
  destruct (ToFloat_spec v s e m H) as (F & EF & _ & Es & Em). destruct (ToDouble_spec v s e m H) as (D & ED & _ & Es' & Em').
  exists F, D. rewrite (half_abs _ _ _ _ H), (half_sign _ _ _ _ H), <- (mag_pattern e m) by lia.
  pose proof (of_float_narrowed F) as HF. rewrite Es, Em in HF. apply narrowed_exact in HF; [|lia|unfold kFp16Max; lia].
  pose proof (of_double_narrowed D) as HD. rewrite Es', Em' in HD. apply narrowed_exact in HD; [|lia|unfold kFp16Max; lia].
  split_and!; try done; by rewrite Ev.
Qed.

(** A finite half converts to each integer type as the nearest integer,
    ties to even, cut to the range of the type. *)
Theorem fp16_to_integer_saturates v :
  finite v ->
  Fp16ToInt8 v = Ok (clamp (-128) 127 (to_integer v)) /\ Fp16ToUInt8 v = Ok (clamp 0 255 (to_integer v)) /\
  Fp16ToInt16 v = Ok (clamp (-32768) 32767 (to_integer v)) /\ Fp16ToUInt16 v = Ok (clamp 0 65535 (to_integer v)) /\
  Fp16ToInt32 v = Ok (clamp (- 2 ^ 31) (2 ^ 31 - 1) (to_integer v)) /\ Fp16ToUInt32 v = Ok (clamp 0 (2 ^ 32 - 1) (to_integer v)).
Proof.
  intros Hv. split_and!; [by apply ToInt8_spec|by apply ToUInt8_spec|by apply ToInt16_spec|by apply ToUInt16_spec|by apply ToInt32_spec|by apply ToUInt32_spec].
Qed.

(** Infinities and NaNs become the extreme value of the signed types on
    the side of their sign, and zero or, in all three unsigned types, 255. *)
Theorem fp16_invalid_to_integer v :
  half v -> Fp16IsInvalid v = true ->
  let neg := Fp16ExtracSign v =? 1 in
  Fp16ToInt8 v = Ok (if neg then -128 else 127) /\ Fp16ToInt16 v = Ok (if neg then -32768 else 32767) /\
  Fp16ToInt32 v = Ok (if neg then - 2 ^ 31 else 2 ^ 31 - 1) /\
  Fp16ToUInt8 v = Ok (if neg then 0 else 255) /\ Fp16ToUInt16 v = Ok (if neg then 0 else 255) /\ Fp16ToUInt32 v = Ok (if neg then 0 else 255).
Proof.
  intros Hv Hi neg. pose proof (sign_bit v Hv) as Hs.
  assert (Hd : Fp16IsDenorm v = false) by (unfold Fp16IsInvalid, Fp16IsDenorm in *; apply Z.eqb_eq in Hi; by rewrite Hi).
  unfold Fp16ToInt8, Fp16ToInt16, Fp16ToInt32, Fp16ToUInt8, Fp16ToUInt16, Fp16ToUInt32. rewrite Hd, Hi. unfold neg.
  assert (Fp16ExtracSign v = 0 \/ Fp16ExtracSign v = 1) as [-> | ->] by lia; by vm_compute.
Qed.

(** The four comparisons are the comparisons of the values, the two zeros
    being equal; patterns of exponent 31 are compared as numbers too. *)
Theorem fp16_compare_correct a b :
  half a -> half b ->
  fp16_eq a b = (signed a =? signed b) /\ fp16_gt a b = (signed b <? signed a) /\
  fp16_ge a b = (signed b <=? signed a) /\ fp16_le a b = (signed a <=? signed b).
Proof.
  intros Ha Hb. unfold fp16_ge, fp16_le. rewrite !fp16_gt_spec, !fp16_eq_spec by done. split_and!; try done.
  - destruct (Z.ltb_spec (signed b) (signed a)), (Z.eqb_spec (signed a) (signed b)), (Z.leb_spec (signed b) (signed a)); lia.
  - destruct (Z.ltb_spec (signed b) (signed a)), (Z.leb_spec (signed a) (signed b)); lia.
Qed.

(** The 16 bits are closed under every operation, whatever the operands:
    sums, differences, products and conversions from floats return, and return
    16 bits; conversions to floats return 32 and 64. *)
Theorem fp16_closed a b f d :
  half a -> half b ->
  (exists r, Fp16Add a b = Ok r /\ half r) /\ (exists r, Fp16Sub a b = Ok r /\ half r) /\ (exists r, Fp16Mul a b = Ok r /\ half r) /\
  half (of_float f) /\ half (of_double d) /\
  (exists F, Fp16ToFloatVal a = Ok F /\ 0 <= F < 2 ^ 32) /\ (exists D, Fp16ToDouble a = Ok D /\ 0 <= D < 2 ^ 64).
Proof.
  intros Ha Hb.
  assert (Hadd : forall c, half c -> exists r, Fp16Add a c = Ok r /\ half r).
  { intros c Hc. destruct (Fp16Add_spec a c Ha Hc) as (r & Er & Hr). exists r. split; [done|]. eapply rounded_half; [| |exact Hr]; [lia|].
    unfold sum_sign. pose proof (sign_bit a Ha). repeat case_match; lia. }
  assert (Hnar : forall s k N r, 0 <= s < 2 -> narrowed s k N r -> half r).
  { intros s k N r Hs [[_ H]|[_ ->]]; [by apply (rounded_half 0x7FFF s k N)|unfold half, kFp16Max; lia]. }
  destruct (half_parts a Ha) as (s & e & m & H).
  split_and!; [by apply Hadd| | | | | |].
  - destruct (Fp16Sub_spec a b Ha Hb) as (c & Hc & _ & _ & ->). by apply Hadd.
  - destruct (Fp16Mul_spec a b Ha Hb) as (r & Er & Hr). exists r. split; [done|]. eapply rounded_half; [| |exact Hr]; [lia|].
    pose proof (sign_bit a Ha). pose proof (sign_bit b Hb).
    assert (Fp16ExtracSign a = 0 \/ Fp16ExtracSign a = 1) as [-> | ->] by lia; assert (Fp16ExtracSign b = 0 \/ Fp16ExtracSign b = 1) as [-> | ->] by lia; by vm_compute.
  - apply (Hnar (f32_sign f) 125 (f32_mag f)); [apply Z.mod_pos_bound; lia|apply of_float_narrowed].
  - apply (Hnar (f64_sign d) 1050 (f64_mag d)); [apply Z.mod_pos_bound; lia|apply of_double_narrowed].
  - destruct (ToFloat_spec a s e m H) as (F & EF & HF & _). by exists F.
  - destruct (ToDouble_spec a s e m H) as (D & ED & HD & _). by exists D.
Qed.

(** * Halves, evaluated

    Applications of the theorems to concrete halves, and what the code does
    with infinities, NaNs and results that are too large. *)

Module RunsFp16.

(** 1, the least denormal, 1 + 2^-10, -1 + 2^-11, 65504 and minus zero. *)
Definition one := 0x3C00.
Definition least := 0x0001.
Definition one_up := 0x3C01.
Definition one_down := 0xBBFF.
Definition largest := 0x7BFF.
Definition minus_zero := 0x8000.

(** 1 - (1 - 2^-11): only the last bit of the smaller operand is left. *)
Lemma fp16_add_correct_run :
  ((exists r, Fp16Add one one_down = Ok r /\ rounded 0x7FFF (sum_sign one one_down) 0 (Z.abs (signed one + signed one_down)) r) /\
   (exists r, Fp16Sub one one_down = Ok r /\ rounded 0x7FFF (diff_sign one one_down) 0 (Z.abs (signed one - signed one_down)) r)) /\
  Fp16Add one one_down = Ok 0x1000 /\ signed 0x1000 * 2 ^ 11 = 2 ^ 24 /\ Fp16Add one least = Ok one.
Proof.
  split; [apply (fp16_add_correct one one_down); unfold half, one, one_down; lia|]. split_and!; by vm_compute.
Defined.

Lemma fp16_mul_correct_run :
  (exists r, Fp16Mul one_up one_down = Ok r /\
     rounded 0x7FFF (Z.lxor (Fp16ExtracSign one_up) (Fp16ExtracSign one_down)) 24 (Z.abs (signed one_up) * Z.abs (signed one_down)) r) /\
  Fp16Mul one_up one_down = Ok 0xBC00.
Proof. split; [apply (fp16_mul_correct one_up one_down); unfold half, one_up, one_down; lia|by vm_compute]. Defined.

(** 65519.996f, which is the float before the bound, -1.0 and -2049, a tie. *)
Lemma fp16_of_number_correct_run :
  ((exists p, nearest 125 (f32_mag 0x477FEFFF) p /\ of_float 0x477FEFFF = f32_sign 0x477FEFFF * 32768 + p) /\
   (exists p, nearest 1050 (f64_mag 0xBFF0000000000000) p /\
      of_double 0xBFF0000000000000 = f64_sign 0xBFF0000000000000 * 32768 + p) /\
   (exists p, nearest 0 (Z.abs (-2049) * 2 ^ 24) p /\ of_int32 (-2049) = Ok ((if -2049 <? 0 then 1 else 0) * 32768 + p))) /\
  of_float 0x477FEFFF = largest /\ of_double 0xBFF0000000000000 = 32768 + one /\ of_int32 (-2049) = of_int32 (-2048).
Proof.
  split; [apply fp16_of_number_correct; [by vm_compute|by vm_compute|lia]|split_and!; by vm_compute].
Defined.

Lemma fp16_of_large_number_run :
  (narrowed (f32_sign 0x48000000) 125 (f32_mag 0x48000000) (of_float 0x48000000) /\
   narrowed (f64_sign 0x40EFFE0000000000) 1050 (f64_mag 0x40EFFE0000000000) (of_double 0x40EFFE0000000000) /\
   (exists r, of_int32 (-70000) = Ok r /\ rounded kFp16Max (if -70000 <? 0 then 1 else 0) 0 (Z.abs (-70000) * 2 ^ 24) r)) /\
  of_int32 (-70000) = Ok (32768 + largest).
Proof. split; [apply fp16_of_large_number; lia|by vm_compute]. Defined.

Lemma fp16_widen_roundtrip_run :
  (exists F D, Fp16ToFloatVal least = Ok F /\ Fp16ToDouble least = Ok D /\
    f32_mag F = Z.abs (signed least) * 2 ^ 125 /\ f64_mag D = Z.abs (signed least) * 2 ^ 1050 /\
    f32_sign F = Fp16ExtracSign least /\ f64_sign D = Fp16ExtracSign least /\ of_float F = least /\ of_double D = least) /\
  Fp16ToFloatVal minus_zero = Ok 0x80000000.
Proof. split; [apply fp16_widen_roundtrip; split; [unfold least; lia|by vm_compute]|by vm_compute]. Defined.

(** 300.0 *)
Lemma fp16_to_integer_saturates_run :
  (Fp16ToInt8 0x5CB0 = Ok (clamp (-128) 127 (to_integer 0x5CB0)) /\ Fp16ToUInt8 0x5CB0 = Ok (clamp 0 255 (to_integer 0x5CB0)) /\
   Fp16ToInt16 0x5CB0 = Ok (clamp (-32768) 32767 (to_integer 0x5CB0)) /\ Fp16ToUInt16 0x5CB0 = Ok (clamp 0 65535 (to_integer 0x5CB0)) /\
   Fp16ToInt32 0x5CB0 = Ok (clamp (- 2 ^ 31) (2 ^ 31 - 1) (to_integer 0x5CB0)) /\ Fp16ToUInt32 0x5CB0 = Ok (clamp 0 (2 ^ 32 - 1) (to_integer 0x5CB0))) /\
  Fp16ToInt8 0x5CB0 = Ok 127 /\ Fp16ToUInt16 0x5CB0 = Ok 300.
Proof. split; [apply fp16_to_integer_saturates; split; [lia|by vm_compute]|split; by vm_compute]. Defined.

(** Infinity is 255 as an unsigned integer of any width. *)
Lemma fp16_invalid_to_integer_run :
  Fp16ToInt8 0x7C00 = Ok 127 /\ Fp16ToInt16 0x7C00 = Ok 32767 /\ Fp16ToInt32 0x7C00 = Ok (2 ^ 31 - 1) /\
  Fp16ToUInt8 0x7C00 = Ok 255 /\ Fp16ToUInt16 0x7C00 = Ok 255 /\ Fp16ToUInt32 0x7C00 = Ok 255.
Proof. apply (fp16_invalid_to_integer 0x7C00); [unfold half; lia|by vm_compute]. Defined.

Lemma fp16_compare_correct_run :
  (fp16_eq minus_zero 0 = (signed minus_zero =? signed 0) /\ fp16_gt minus_zero 0 = (signed 0 <? signed minus_zero) /\
   fp16_ge minus_zero 0 = (signed 0 <=? signed minus_zero) /\ fp16_le minus_zero 0 = (signed minus_zero <=? signed 0)) /\
  fp16_eq minus_zero 0 = true /\ fp16_gt one_up one = true.
Proof. split; [apply (fp16_compare_correct minus_zero 0); unfold half, minus_zero; lia|split; by vm_compute]. Defined.

Lemma fp16_closed_run :
  (exists r, Fp16Add 0x7C00 0xFC00 = Ok r /\ half r) /\ (exists r, Fp16Sub 0x7C00 0xFC00 = Ok r /\ half r) /\
  (exists r, Fp16Mul 0x7C00 0xFC00 = Ok r /\ half r) /\ half (of_float 0x7F800000) /\ half (of_double 0x7FF0000000000000) /\
  (exists F, Fp16ToFloatVal 0x7C00 = Ok F /\ 0 <= F < 2 ^ 32) /\ (exists D, Fp16ToDouble 0x7C00 = Ok D /\ 0 <= D < 2 ^ 64).
Proof. apply (fp16_closed 0x7C00 0xFC00 0x7F800000 0x7FF0000000000000); unfold half; lia. Defined.

End RunsFp16.

(** ** At the edges *)

Module RunsFp16Edges.

(** 65520.0f becomes a NaN pattern, 131072.0f and infinity the largest finite
    half: conversion is not monotone. *)
Example large_floats :
  of_float 0x477FF000 = 0x7FFF /\ of_float 0x47FFFFFF = 0x7FFF /\ of_float 0x48000000 = kFp16Max /\ of_float 0x7F800000 = kFp16Max /\
  of_double 0x40EFFE0000000000 = 0x7FFF /\ of_double 0x4100000000000000 = kFp16Max.
Proof. split_and!; by vm_compute. Qed.

(** A NaN [float] becomes 65504. *)
Example nan_float : of_float 0x7FC00000 = kFp16Max.
Proof. by vm_compute. Qed.

(** Infinity becomes 65536.0f, and infinity minus infinity is zero. *)
Example infinity_is_a_number : Fp16ToFloatVal 0x7C00 = Ok 0x47800000 /\ Fp16Add 0x7C00 0xFC00 = Ok 0 /\ fp16_eq 0x7E00 0x7E00 = true.
Proof. split_and!; by vm_compute. Qed.

(** Sums and products too large for a half are NaN patterns. *)
Example overflow_is_nan : Fp16Add kFp16Max kFp16Max = Ok 0x7FFF /\ Fp16Mul kFp16Max 0x4000 = Ok 0x7FFF.
Proof. split; by vm_compute. Qed.

(** The least [int32_t] has no negation. *)
Example least_int32 : of_int32 (- 2 ^ 31) = Fault.
Proof. by vm_compute. Qed.

End RunsFp16Edges.
