(* ===== verification/NumMath.v ===== *)
(** * NumMath: checked integer arithmetic

    [base/common/math/math_util.h]: the tests that say whether an operation
    would overflow, and the macros that return from the caller when it would.
    The tests compute in the types the language promotes their operands to;
    signed arithmetic that leaves its type has no defined result, so that a test
    that overflows itself is a [Fault].  [SUCCESS] is [Ok tt].  The tests of
    [float] and [double] look at results of the hardware and are left out. *)

From S2P Require Import Prelude NumBits NumFp16.

(** ** Integer types *)

Definition INT8_MIN := -128.
Definition INT8_MAX := 127.
Definition INT16_MIN := -32768.
Definition INT16_MAX := 32767.
Definition INT32_MIN := -2147483648.
Definition INT32_MAX := 2147483647.
Definition INT64_MIN := -9223372036854775808.
Definition INT64_MAX := 9223372036854775807.
Definition UINT8_MAX := 255.
Definition UINT16_MAX := 65535.
Definition UINT32_MAX := 4294967295.
Definition UINT64_MAX := 18446744073709551615.

(** A result of signed arithmetic in [w] bits. *)
Definition sint (w v : Z) : outcome Z := if (- 2 ^ (w - 1) <=? v) && (v <? 2 ^ (w - 1)) then Ok v else Fault.
Definition sdiv (w a b : Z) : outcome Z := if b =? 0 then Fault else sint w (Z.quot a b).
Definition fail_if (b : bool) : outcome unit := if b then Err FAILED else Ok tt.

(** [a && b] and [a || b] do not evaluate [b] when [a] decides. *)
Definition and_then (a : bool) (b : outcome bool) : outcome bool := if a then b else Ok false.
Definition or_else (a b : outcome bool) : outcome bool := a ≫= fun v : bool => if v then Ok true else b.

(** ** Tests whose bodies differ only in their type *)

(** [p] is the width of the arithmetic, [lo] and [hi] the limits of the type. *)
Definition signed_add_check (p lo hi a b : Z) : outcome unit :=
  bad ← or_else (and_then (0 <? b) (h ← sint p (hi - b); Ok (h <? a)))
                (and_then (b <? 0) (l ← sint p (lo - b); Ok (a <? l)));
  fail_if bad.
Definition signed_sub_check (p lo hi a b : Z) : outcome unit :=
  bad ← or_else (and_then (0 <? b) (l ← sint p (lo + b); Ok (a <? l)))
                (and_then (b <? 0) (h ← sint p (hi + b); Ok (h <? a)));
  fail_if bad.
Definition signed_mul_check (p lo hi a b : Z) : outcome unit :=
  if 0 <? a then
    if 0 <? b then h ← sdiv p hi b; fail_if (h <? a)
    else l ← sdiv p lo a; fail_if (b <? l)
  else
    if 0 <? b then l ← sdiv p lo b; fail_if (a <? l)
    else if a =? 0 then Ok tt
    else h ← sdiv p hi a; fail_if (b <? h).
(** Unsigned types of 8 and 16 bits are converted to [int32_t], the wider ones
    compute modulo their size. *)
Definition small_add_check (hi a b : Z) : outcome unit := h ← sint 32 (hi - b); fail_if (h <? a).
Definition unsigned_add_check (w hi a b : Z) : outcome unit := fail_if (uwrap w (hi - b) <? a).
Definition unsigned_sub_check (a b : Z) : outcome unit := fail_if (a <? b).
Definition small_mul_check (hi a b : Z) : outcome unit :=
  if (a =? 0) || (b =? 0) then Ok tt else h ← sdiv 32 hi b; fail_if (h <? a).
Definition unsigned_mul_check (hi a b : Z) : outcome unit :=
  if (a =? 0) || (b =? 0) then Ok tt else h ← quot_ hi b; fail_if (h <? a).
Definition signed_div_check (lo a b : Z) : outcome unit := fail_if ((b =? 0) || ((a =? lo) && (b =? -1))).

(** ** The tests *)

Definition CheckIntAddOverflow (a b : Z) := signed_add_check 32 INT32_MIN INT32_MAX a b.
Definition CheckInt8AddOverflow (a b : Z) := signed_add_check 32 INT8_MIN INT8_MAX a b.
Definition CheckInt16AddOverflow (a b : Z) := signed_add_check 32 INT16_MIN INT16_MAX a b.
Definition CheckInt32AddOverflow (a b : Z) := signed_add_check 32 INT32_MIN INT32_MAX a b.
Definition CheckInt64AddOverflow (a b : Z) := signed_add_check 64 INT64_MIN INT64_MAX a b.
Definition CheckUint8AddOverflow (a b : Z) := small_add_check UINT8_MAX a b.
Definition CheckUint16AddOverflow (a b : Z) := small_add_check UINT16_MAX a b.
Definition CheckUint32AddOverflow (a b : Z) := unsigned_add_check 32 UINT32_MAX a b.
Definition CheckUint64AddOverflow (a b : Z) := unsigned_add_check 64 UINT64_MAX a b.
Definition CheckSizeTAddOverflow (a b : Z) := unsigned_add_check 64 UINT64_MAX a b.
Definition CheckFp16AddOverflow (a b : Z) : outcome unit := result ← Fp16Add a b; fail_if (Fp16IsInvalid result).

Definition CheckIntSubOverflow (a b : Z) := signed_sub_check 32 INT32_MIN INT32_MAX a b.
Definition CheckInt8SubOverflow (a b : Z) := signed_sub_check 32 INT8_MIN INT8_MAX a b.
Definition CheckInt16SubOverflow (a b : Z) := signed_sub_check 32 INT16_MIN INT16_MAX a b.
Definition CheckInt32SubOverflow (a b : Z) := signed_sub_check 32 INT32_MIN INT32_MAX a b.
Definition CheckInt64SubOverflow (a b : Z) := signed_sub_check 64 INT64_MIN INT64_MAX a b.
Definition CheckUint8SubOverflow (a b : Z) := unsigned_sub_check a b.
Definition CheckUint16SubOverflow (a b : Z) := unsigned_sub_check a b.
Definition CheckUint32SubOverflow (a b : Z) := unsigned_sub_check a b.
Definition CheckUint64SubOverflow (a b : Z) := unsigned_sub_check a b.
Definition CheckSizeTSubOverflow (a b : Z) := unsigned_sub_check a b.
Definition CheckFp16SubOverflow (a b : Z) : outcome unit := result ← Fp16Sub a b; fail_if (Fp16IsInvalid result).

Definition CheckIntMulOverflow (a b : Z) := signed_mul_check 32 INT32_MIN INT32_MAX a b.
Definition CheckInt8MulOverflow (a b : Z) := signed_mul_check 32 INT8_MIN INT8_MAX a b.
Definition CheckInt16MulOverflow (a b : Z) := signed_mul_check 32 INT16_MIN INT16_MAX a b.
Definition CheckInt32MulOverflow (a b : Z) := signed_mul_check 32 INT32_MIN INT32_MAX a b.
Definition CheckInt64Int32MulOverflow (a b : Z) := signed_mul_check 64 INT64_MIN INT64_MAX a b.
Definition CheckInt64MulOverflow (a b : Z) := signed_mul_check 64 INT64_MIN INT64_MAX a b.
Definition CheckInt64Uint32MulOverflow (a b : Z) : outcome unit :=
  if (a =? 0) || (b =? 0) then Ok tt
  else if 0 <? a then h ← sdiv 64 INT64_MAX b; fail_if (h <? a)
  else l ← sdiv 64 INT64_MIN b; fail_if (a <? l).
Definition CheckUint8MulOverflow (a b : Z) := small_mul_check UINT8_MAX a b.
Definition CheckUint16MulOverflow (a b : Z) := small_mul_check UINT16_MAX a b.
Definition CheckUint32MulOverflow (a b : Z) := unsigned_mul_check UINT32_MAX a b.
Definition CheckUint64MulOverflow (a b : Z) := unsigned_mul_check UINT64_MAX a b.
Definition CheckSizeTMulOverflow (a b : Z) := unsigned_mul_check UINT64_MAX a b.
Definition CheckFp16MulOverflow (a b : Z) : outcome unit := result ← Fp16Mul a b; fail_if (Fp16IsInvalid result).

Definition CheckIntDivOverflow (a b : Z) := signed_div_check INT32_MIN a b.
Definition CheckInt32DivOverflow (a b : Z) := signed_div_check INT32_MIN a b.

(** [size_t] arithmetic; [sizeof(uintptr_t)] is 8. *)
Definition MemSizeAlign (bytes aligns : Z) : Z :=
  let align_size := if aligns =? 0 then 8 else aligns in
  u64 (u64 (u64 (bytes + align_size) - 1) / align_size * align_size).

(** ** The macros *)

(** The operands are converted, a failure makes the caller return. *)
Definition fmk (cast_a cast_b : Z -> Z) (check : Z -> Z -> outcome unit) (a b : Z) : outcome unit :=
  match check (cast_a a) (cast_b b) with Err _ => Err INTERNAL_ERROR | r => r end.

Definition FMK_INT_ADDCHECK := fmk (swrap 32) (swrap 32) CheckIntAddOverflow.
Definition FMK_INT8_ADDCHECK := fmk (swrap 8) (swrap 8) CheckInt8AddOverflow.
Definition FMK_INT16_ADDCHECK := fmk (swrap 16) (swrap 16) CheckInt16AddOverflow.
Definition FMK_INT32_ADDCHECK := fmk (swrap 32) (swrap 32) CheckInt32AddOverflow.
Definition FMK_INT64_ADDCHECK := fmk (swrap 64) (swrap 64) CheckInt64AddOverflow.
Definition FMK_UINT8_ADDCHECK := fmk u8 u8 CheckUint8AddOverflow.
Definition FMK_UINT16_ADDCHECK := fmk u16 u16 CheckUint16AddOverflow.
Definition FMK_UINT32_ADDCHECK := fmk u32 u32 CheckUint32AddOverflow.
Definition FMK_UINT64_ADDCHECK := fmk u64 u64 CheckUint64AddOverflow.
Definition FMK_SIZET_ADDCHECK := fmk u64 u64 CheckSizeTAddOverflow.
Definition FMK_FP16_ADDCHECK := fmk id id CheckFp16AddOverflow.

Definition FMK_INT_SUBCHECK := fmk (swrap 32) (swrap 32) CheckIntSubOverflow.
Definition FMK_INT8_SUBCHECK := fmk (swrap 8) (swrap 8) CheckInt8SubOverflow.
Definition FMK_INT16_SUBCHECK := fmk (swrap 16) (swrap 16) CheckInt16SubOverflow.
Definition FMK_INT32_SUBCHECK := fmk (swrap 32) (swrap 32) CheckInt32SubOverflow.
Definition FMK_INT64_SUBCHECK := fmk (swrap 64) (swrap 64) CheckInt64SubOverflow.
Definition FMK_UINT8_SUBCHECK := fmk u8 u8 CheckUint8SubOverflow.
Definition FMK_UINT16_SUBCHECK := fmk u16 u16 CheckUint16SubOverflow.
Definition FMK_UINT32_SUBCHECK := fmk u32 u32 CheckUint32SubOverflow.
Definition FMK_UINT64_SUBCHECK := fmk u64 u64 CheckUint64SubOverflow.
Definition FMK_SIZET_SUBCHECK := fmk u64 u64 CheckSizeTSubOverflow.
Definition FMK_FP16_SUBCHECK := fmk id id CheckFp16SubOverflow.

Definition FMK_INT_MULCHECK := fmk (swrap 32) (swrap 32) CheckIntMulOverflow.
Definition FMK_INT8_MULCHECK := fmk (swrap 8) (swrap 8) CheckInt8MulOverflow.
Definition FMK_INT16_MULCHECK := fmk (swrap 16) (swrap 16) CheckInt16MulOverflow.
Definition FMK_INT32_MULCHECK := fmk (swrap 32) (swrap 32) CheckInt32MulOverflow.
Definition FMK_INT64_MULCHECK := fmk (swrap 64) (swrap 64) CheckInt64MulOverflow.
Definition FMK_UINT8_MULCHECK := fmk u8 u8 CheckUint8MulOverflow.
Definition FMK_UINT16_MULCHECK := fmk u16 u16 CheckUint16MulOverflow.
Definition FMK_UINT32_MULCHECK := fmk u32 u32 CheckUint32MulOverflow.
Definition FMK_UINT64_MULCHECK := fmk u64 u64 CheckUint64MulOverflow.
Definition FMK_SIZET_MULCHECK := fmk u64 u64 CheckSizeTMulOverflow.
Definition FMK_FP16_MULCHECK := fmk id id CheckFp16MulOverflow.

Definition FMK_INT_DIVCHECK := fmk (swrap 32) (swrap 32) CheckIntDivOverflow.
Definition FMK_INT32_DIVCHECK := fmk (swrap 32) (swrap 32) CheckInt32DivOverflow.
(** The first operand too is converted to [uint32_t]. *)
Definition FMK_INT64_UINT32_MULCHECK := fmk u32 u32 CheckInt64Uint32MulOverflow.
