(* ===== verification/NumMathCorrect.v ===== *)
(** * NumMathCorrect: the overflow tests are exact

    Every test on integers returns without overflowing itself, and succeeds
    exactly when the result of the operation fits its type; the tests on halves
    succeed exactly when the exact result is below 65520. *)

From S2P Require Import Prelude NumBits NumFp16 NumFp16Value NumFp16Convert NumFp16Int NumFp16Arith NumMath.

(** [check] decides whether [op] stays within [lo] and [hi]. *)
Definition verdict (ok : bool) : outcome unit := if ok then Ok tt else Err FAILED.
Definition within (lo hi v : Z) : bool := (lo <=? v) && (v <=? hi).
Definition decides (op : Z -> Z -> Z) (t : Z * Z * (Z -> Z -> outcome unit)) : Prop :=
  let '(lo, hi, check) := t in
  forall a b, lo <= a <= hi -> lo <= b <= hi -> check a b = verdict (within lo hi (op a b)).

Lemma sint_ok w v : - 2 ^ (w - 1) <= v < 2 ^ (w - 1) -> sint w v = Ok v.
Proof. intros Hv. unfold sint. by rewrite (proj2 (Z.leb_le _ _)), (proj2 (Z.ltb_lt _ _)) by lia. Qed.

Lemma fail_verdict (b c : bool) : b = negb c -> fail_if b = verdict c.
Proof. intros ->. by destruct c. Qed.

(** A quotient by a positive divisor, compared. *)
Lemma div_lt x d y : 0 <= x -> 0 < d -> (x / d < y <-> x < y * d).
Proof. intros Hx Hd. pose proof (Z.div_mod x d ltac:(lia)). pose proof (Z.mod_pos_bound x d Hd). split; nia. Qed.

Section signed_types.
Context (p lo hi : Z) (Hlo : lo = - hi - 1) (Hhi : 0 < hi < 2 ^ (p - 1)).

Lemma signed_add_exact : decides Z.add (lo, hi, signed_add_check p lo hi).
Proof using Hlo Hhi.
  intros a b Ha Hb. unfold signed_add_check, or_else, and_then, within. destruct (Z.ltb_spec 0 b), (Z.ltb_spec b 0); try lia.
  - rewrite sint_ok by lia. cbn [mbind outcome_bind]. destruct (Z.ltb_spec (hi - b) a); apply fail_verdict; simpl; lia.
  - rewrite sint_ok by lia. cbn [mbind outcome_bind]. apply fail_verdict. lia.
  - cbn [mbind outcome_bind]. apply fail_verdict. lia.
Qed.

Lemma signed_sub_exact : decides Z.sub (lo, hi, signed_sub_check p lo hi).
Proof using Hlo Hhi.
  intros a b Ha Hb. unfold signed_sub_check, or_else, and_then, within. destruct (Z.ltb_spec 0 b), (Z.ltb_spec b 0); try lia.
  - rewrite sint_ok by lia. cbn [mbind outcome_bind]. destruct (Z.ltb_spec a (lo + b)); apply fail_verdict; simpl; lia.
  - rewrite sint_ok by lia. cbn [mbind outcome_bind]. apply fail_verdict. lia.
  - cbn [mbind outcome_bind]. apply fail_verdict. lia.
Qed.

Lemma sdiv_pos x d : 0 <= x <= hi -> 0 < d -> sdiv p x d = Ok (x / d).
Proof using Hhi.
  intros Hx Hd. unfold sdiv. rewrite (proj2 (Z.eqb_neq _ _)), Z.quot_div_nonneg by lia.
  assert (0 <= x / d) by (apply Z.div_pos; lia). assert (x / d <= x) by (apply Z.div_le_upper_bound; nia). apply sint_ok. lia.
Qed.

Lemma sdiv_lo d : 0 < d -> sdiv p lo d = Ok (- ((- lo) / d)).
Proof using Hlo Hhi.
  intros Hd. unfold sdiv. rewrite (proj2 (Z.eqb_neq _ _)) by lia.
  replace (Z.quot lo d) with (- ((- lo) / d)) by (rewrite <- Z.quot_div_nonneg, Z.quot_opp_l by lia; lia).
  assert (0 <= (- lo) / d) by (apply Z.div_pos; lia). assert ((- lo) / d <= - lo) by (apply Z.div_le_upper_bound; nia). apply sint_ok. lia.
Qed.

Lemma sdiv_hi_neg d : d < 0 -> sdiv p hi d = Ok (- (hi / (- d))).
Proof using Hhi.
  intros Hd. unfold sdiv. rewrite (proj2 (Z.eqb_neq _ _)) by lia.
  replace (Z.quot hi d) with (- (hi / (- d))) by (rewrite <- Z.quot_div_nonneg, Z.quot_opp_r by lia; lia).
  assert (0 <= hi / (- d)) by (apply Z.div_pos; lia). assert (hi / (- d) <= hi) by (apply Z.div_le_upper_bound; nia). apply sint_ok. lia.
Qed.

Lemma signed_mul_exact a b : lo <= a <= hi -> lo <= b <= hi -> signed_mul_check p lo hi a b = verdict (within lo hi (a * b)).
Proof using Hlo Hhi.
  intros Ha Hb. unfold signed_mul_check, within. destruct (Z.ltb_spec 0 a), (Z.ltb_spec 0 b).
  - rewrite sdiv_pos by lia. cbn [mbind outcome_bind]. apply fail_verdict. pose proof (div_lt hi b a ltac:(lia) ltac:(lia)). nia.
  - rewrite sdiv_lo by lia. cbn [mbind outcome_bind]. apply fail_verdict. pose proof (div_lt (- lo) a (- b) ltac:(lia) ltac:(lia)). nia.
  - rewrite sdiv_lo by lia. cbn [mbind outcome_bind]. apply fail_verdict. pose proof (div_lt (- lo) b (- a) ltac:(lia) ltac:(lia)). nia.
  - destruct (Z.eqb_spec a 0) as [->|]; [unfold verdict; rewrite Z.mul_0_l; destruct (Z.leb_spec lo 0), (Z.leb_spec 0 hi); try lia; done|].
    rewrite sdiv_hi_neg by lia. cbn [mbind outcome_bind]. apply fail_verdict. pose proof (div_lt hi (- a) (- b) ltac:(lia) ltac:(lia)). nia.
Qed.
End signed_types.

Lemma unsigned_add_exact w hi : hi = 2 ^ w - 1 -> decides Z.add (0, hi, unsigned_add_check w hi).
Proof.
  intros -> a b Ha Hb. unfold unsigned_add_check, within. rewrite uwrap_small by lia. apply fail_verdict. lia.
Qed.
Lemma small_add_exact hi : 0 < hi < 2 ^ 31 -> decides Z.add (0, hi, small_add_check hi).
Proof. intros Hhi a b Ha Hb. unfold small_add_check, within. rewrite sint_ok by lia. cbn [mbind outcome_bind]. apply fail_verdict. lia. Qed.
Lemma unsigned_sub_exact hi : decides Z.sub (0, hi, unsigned_sub_check).
Proof. intros a b Ha Hb. unfold unsigned_sub_check, within. apply fail_verdict. lia. Qed.
Lemma unsigned_mul_exact hi : decides Z.mul (0, hi, unsigned_mul_check hi).
Proof.
  intros a b Ha Hb. unfold unsigned_mul_check, within, quot_. destruct (Z.eqb_spec a 0) as [->|], (Z.eqb_spec b 0) as [->|]; simpl.
  1-3: unfold verdict; destruct (Z.leb_spec (0 * 0) hi); rewrite ?Z.mul_0_r, ?Z.mul_0_l; simpl; destruct (Z.leb_spec 0 hi); try done; lia.
  rewrite Z.quot_div_nonneg by lia. apply fail_verdict. pose proof (div_lt hi b a ltac:(lia) ltac:(lia)). nia.
Qed.
Lemma small_mul_exact hi : 0 < hi < 2 ^ 31 -> decides Z.mul (0, hi, small_mul_check hi).
Proof.
  intros Hhi a b Ha Hb. rewrite <- (unsigned_mul_exact hi a b Ha Hb). unfold small_mul_check, unsigned_mul_check, quot_.
  destruct (Z.eqb_spec a 0), (Z.eqb_spec b 0); simpl; try done.
  rewrite (sdiv_pos 32 hi), Z.quot_div_nonneg by (try change (2 ^ (32 - 1)) with (2 ^ 31); lia). done.
Qed.

(** ** All of them *)

Definition add_checks : list (Z * Z * (Z -> Z -> outcome unit)) :=
  [(INT32_MIN, INT32_MAX, CheckIntAddOverflow); (INT8_MIN, INT8_MAX, CheckInt8AddOverflow); (INT16_MIN, INT16_MAX, CheckInt16AddOverflow);
   (INT32_MIN, INT32_MAX, CheckInt32AddOverflow); (INT64_MIN, INT64_MAX, CheckInt64AddOverflow); (0, UINT8_MAX, CheckUint8AddOverflow);
   (0, UINT16_MAX, CheckUint16AddOverflow); (0, UINT32_MAX, CheckUint32AddOverflow); (0, UINT64_MAX, CheckUint64AddOverflow);
   (0, UINT64_MAX, CheckSizeTAddOverflow)].
Definition sub_checks : list (Z * Z * (Z -> Z -> outcome unit)) :=
  [(INT32_MIN, INT32_MAX, CheckIntSubOverflow); (INT8_MIN, INT8_MAX, CheckInt8SubOverflow); (INT16_MIN, INT16_MAX, CheckInt16SubOverflow);
   (INT32_MIN, INT32_MAX, CheckInt32SubOverflow); (INT64_MIN, INT64_MAX, CheckInt64SubOverflow); (0, UINT8_MAX, CheckUint8SubOverflow);
   (0, UINT16_MAX, CheckUint16SubOverflow); (0, UINT32_MAX, CheckUint32SubOverflow); (0, UINT64_MAX, CheckUint64SubOverflow);
   (0, UINT64_MAX, CheckSizeTSubOverflow)].
Definition mul_checks : list (Z * Z * (Z -> Z -> outcome unit)) :=
  [(INT32_MIN, INT32_MAX, CheckIntMulOverflow); (INT8_MIN, INT8_MAX, CheckInt8MulOverflow); (INT16_MIN, INT16_MAX, CheckInt16MulOverflow);
   (INT32_MIN, INT32_MAX, CheckInt32MulOverflow); (INT64_MIN, INT64_MAX, CheckInt64MulOverflow); (0, UINT8_MAX, CheckUint8MulOverflow);
   (0, UINT16_MAX, CheckUint16MulOverflow); (0, UINT32_MAX, CheckUint32MulOverflow); (0, UINT64_MAX, CheckUint64MulOverflow);
   (0, UINT64_MAX, CheckSizeTMulOverflow)].
(** Operands of two types: the limits are those of the first and of the second. *)
Definition mixed_mul_checks : list (Z * Z * (Z -> Z -> outcome unit)) :=
  [(INT32_MIN, INT32_MAX, CheckInt64Int32MulOverflow); (0, UINT32_MAX, CheckInt64Uint32MulOverflow)].
Definition div_checks : list (Z -> Z -> outcome unit) := [CheckIntDivOverflow; CheckInt32DivOverflow].

Lemma int64_uint32_exact a b :
  INT64_MIN <= a <= INT64_MAX -> 0 <= b <= UINT32_MAX -> CheckInt64Uint32MulOverflow a b = verdict (within INT64_MIN INT64_MAX (a * b)).
Proof.
  intros Ha Hb. rewrite <- (signed_mul_exact 64 INT64_MIN INT64_MAX) by (unfold INT64_MIN, INT64_MAX, UINT32_MAX in *; done || lia).
  unfold CheckInt64Uint32MulOverflow, signed_mul_check.
  destruct (Z.eqb_spec a 0) as [->|]; simpl; [destruct (Z.ltb_spec 0 b); [|done]; rewrite (sdiv_lo 64 INT64_MIN INT64_MAX) by (done || lia); simpl|].
  { unfold fail_if. rewrite (proj2 (Z.ltb_ge _ _)); [done|]. pose proof (Z.div_pos (- INT64_MIN) b). unfold INT64_MIN in *. lia. }
  destruct (Z.eqb_spec b 0) as [->|]; [|by rewrite (proj2 (Z.ltb_lt 0 b)) by lia]. simpl. destruct (Z.ltb_spec 0 a).
  - rewrite (sdiv_lo 64 INT64_MIN INT64_MAX) by (done || lia). simpl. unfold fail_if. rewrite (proj2 (Z.ltb_ge _ _)); [done|].
    pose proof (Z.div_pos (- INT64_MIN) a). unfold INT64_MIN in *. lia.
  - rewrite (sdiv_hi_neg 64 INT64_MAX) by (done || lia). simpl. unfold fail_if. rewrite (proj2 (Z.ltb_ge _ _)); [done|].
    pose proof (Z.div_pos INT64_MAX (- a)). unfold INT64_MAX in *. lia.
Qed.

Ltac in_limits := unfold INT8_MIN, INT8_MAX, INT16_MIN, INT16_MAX, INT32_MIN, INT32_MAX, INT64_MIN, INT64_MAX, UINT8_MAX, UINT16_MAX, UINT32_MAX, UINT64_MAX in *; lia.

Lemma signed_div_exact a b :
  INT32_MIN <= a <= INT32_MAX -> INT32_MIN <= b <= INT32_MAX ->
  signed_div_check INT32_MIN a b = verdict (negb (b =? 0) && within INT32_MIN INT32_MAX (Z.quot a b)).
Proof.
  intros Ha Hb. apply fail_verdict. unfold within. destruct (Z.eqb_spec b 0) as [->|Hn0]; [done|]. simpl.
  destruct (Z.eqb_spec b (-1)) as [->|Hn1].
  - replace (Z.quot a (-1)) with (- a) by (change (-1) with (- (1)); rewrite Z.quot_opp_r, Z.quot_1_r by lia; lia). in_limits.
  - rewrite andb_false_r. pose proof (Z.quot_abs a b Hn0) as E. rewrite Z.quot_div_nonneg in E by lia.
    assert (Hq : Z.abs (Z.quot a b) <= Z.abs a /\ (b <> 1 -> Z.abs (Z.quot a b) <= 2 ^ 30) /\ (b = 1 -> Z.quot a b = a)).
    { rewrite <- E. split_and!; [apply Z.div_le_upper_bound; nia|intros; apply Z.div_le_upper_bound; in_limits|intros ->; apply Z.quot_1_r]. }
    in_limits.
Qed.

Lemma checks_exact : Forall (decides Z.add) add_checks /\ Forall (decides Z.sub) sub_checks /\ Forall (decides Z.mul) mul_checks.
Proof.
  split_and!; repeat constructor.
  all: try apply signed_add_exact; try apply signed_sub_exact; try apply unsigned_sub_exact; try apply unsigned_mul_exact.
  all: try done; try apply unsigned_add_exact; try apply small_add_exact; try apply small_mul_exact.
  all: try (unfold decides; intros a b Ha Hb; apply signed_mul_exact); try in_limits.
Qed.

(** C29: each of the thirty tests of one type of integer returns, without an
    overflow or a division by zero of its own, and says whether the exact sum,
    difference or product of two values of the type is a value of the type; the
    tests of mixed products say so of 64 bit results, those of divisions whether
    the quotient exists and is a value of the type. *)
Theorem int_checks_exact :
  Forall (decides Z.add) add_checks /\ Forall (decides Z.sub) sub_checks /\ Forall (decides Z.mul) mul_checks /\
  Forall (fun '(lo, hi, check) => forall a b, INT64_MIN <= a <= INT64_MAX -> lo <= b <= hi ->
            check a b = verdict (within INT64_MIN INT64_MAX (a * b))) mixed_mul_checks /\
  Forall (fun check => forall a b, INT32_MIN <= a <= INT32_MAX -> INT32_MIN <= b <= INT32_MAX ->
            check a b = verdict (negb (b =? 0) && within INT32_MIN INT32_MAX (Z.quot a b))) div_checks.
Proof.
  destruct checks_exact as (H1 & H2 & H3). split_and!; [done..| |]; repeat constructor.
  - intros a b Ha Hb. apply signed_mul_exact; in_limits.
  - exact int64_uint32_exact.
  - exact signed_div_exact.
  - exact signed_div_exact.
Qed.

(** ** Halves *)

Lemma sum_sign_bit a b : half a -> 0 <= sum_sign a b < 2.
Proof.
  intros Ha. destruct (half_parts a Ha) as (s & e & m & H). unfold sum_sign. rewrite (half_sign _ _ _ _ H). pose proof (ih_sign _ _ _ _ H).
  repeat case_match; lia.
Qed.

Lemma lxor_sign_bit a b : half a -> half b -> 0 <= Z.lxor (Fp16ExtracSign a) (Fp16ExtracSign b) < 2.
Proof.
  intros Ha Hb. destruct (half_parts a Ha) as (s & e & m & H). destruct (half_parts b Hb) as (s' & e' & m' & H').
  rewrite (half_sign _ _ _ _ H), (half_sign _ _ _ _ H'). pose proof (ih_sign _ _ _ _ H). pose proof (ih_sign _ _ _ _ H').
  assert (s = 0 \/ s = 1) as [-> | ->] by lia; assert (s' = 0 \/ s' = 1) as [-> | ->] by lia; by vm_compute.
Qed.

(** What is rounded is no number exactly when it is too large. *)
Lemma rounded_invalid s k N r : 0 <= s < 2 -> rounded 0x7FFF s k N r -> Fp16IsInvalid r = (overflow_bound k <=? N).
Proof.
  intros Hs [(Hlt & p & [Hp _] & ->)|[Hge ->]].
  - rewrite (proj2 (Z.leb_gt _ _)) by done. unfold kFp16Max in Hp.
    pose proof (Z.div_mod p 1024 ltac:(lia)). pose proof (Z.mod_pos_bound p 1024 ltac:(lia)).
    destruct (invalid_fields s (p / 1024) (p mod 1024) Hs ltac:(lia) ltac:(lia)) as [E _].
    replace (s * 32768 + p) with (s * 32768 + p / 1024 * 1024 + p mod 1024) by lia. rewrite E. apply Z.eqb_neq. lia.
  - rewrite (proj2 (Z.leb_le _ _)) by done. destruct (invalid_fields s 31 1023 Hs ltac:(lia) ltac:(lia)) as [E _].
    replace (s * 32768 + 32767) with (s * 32768 + 31 * 1024 + 1023) by lia. by rewrite E.
Qed.

(** The tests of halves, for any two halves, succeed exactly when the exact
    result is below 65520 in magnitude, from which on the operation returns a
    pattern that is no number. *)
Theorem fp16_checks_exact a b :
  half a -> half b ->
  CheckFp16AddOverflow a b = verdict (Z.abs (signed a + signed b) <? overflow_bound 0) /\
  CheckFp16SubOverflow a b = verdict (Z.abs (signed a - signed b) <? overflow_bound 0) /\
  CheckFp16MulOverflow a b = verdict (Z.abs (signed a) * Z.abs (signed b) <? overflow_bound 24).
Proof.
  intros Ha Hb. unfold CheckFp16AddOverflow, CheckFp16SubOverflow, CheckFp16MulOverflow.
  destruct (Fp16Sub_spec a b Ha Hb) as (c & Hc & Ec & Es & ->).
  destruct (Fp16Add_spec a b Ha Hb) as (r1 & -> & H1). destruct (Fp16Add_spec a c Ha Hc) as (r2 & -> & H2). destruct (Fp16Mul_spec a b Ha Hb) as (r3 & -> & H3).
  cbn [mbind outcome_bind]. rewrite Ec, Z.add_opp_r in H2. split_and!; apply fail_verdict; rewrite Z.ltb_antisym, negb_involutive.
  - by apply (rounded_invalid (sum_sign a b) 0 _ _ (sum_sign_bit a b Ha)).
  - by apply (rounded_invalid (sum_sign a c) 0 _ _ (sum_sign_bit a c Ha)).
  - by apply (rounded_invalid _ 24 _ _ (lxor_sign_bit a b Ha Hb)).
Qed.

(** ** The macros *)

Definition macro_decides (op : Z -> Z -> Z) (t : Z * Z * (Z -> Z -> outcome unit)) : Prop :=
  let '(lo, hi, macro) := t in
  forall a b, lo <= a <= hi -> lo <= b <= hi -> macro a b = (if within lo hi (op a b) then Ok tt else Err INTERNAL_ERROR).

Definition add_macros : list (Z * Z * (Z -> Z -> outcome unit)) :=
  [(INT32_MIN, INT32_MAX, FMK_INT_ADDCHECK); (INT8_MIN, INT8_MAX, FMK_INT8_ADDCHECK); (INT16_MIN, INT16_MAX, FMK_INT16_ADDCHECK);
   (INT32_MIN, INT32_MAX, FMK_INT32_ADDCHECK); (INT64_MIN, INT64_MAX, FMK_INT64_ADDCHECK); (0, UINT8_MAX, FMK_UINT8_ADDCHECK);
   (0, UINT16_MAX, FMK_UINT16_ADDCHECK); (0, UINT32_MAX, FMK_UINT32_ADDCHECK); (0, UINT64_MAX, FMK_UINT64_ADDCHECK);
   (0, UINT64_MAX, FMK_SIZET_ADDCHECK)].
Definition sub_macros : list (Z * Z * (Z -> Z -> outcome unit)) :=
  [(INT32_MIN, INT32_MAX, FMK_INT_SUBCHECK); (INT8_MIN, INT8_MAX, FMK_INT8_SUBCHECK); (INT16_MIN, INT16_MAX, FMK_INT16_SUBCHECK);
   (INT32_MIN, INT32_MAX, FMK_INT32_SUBCHECK); (INT64_MIN, INT64_MAX, FMK_INT64_SUBCHECK); (0, UINT8_MAX, FMK_UINT8_SUBCHECK);
   (0, UINT16_MAX, FMK_UINT16_SUBCHECK); (0, UINT32_MAX, FMK_UINT32_SUBCHECK); (0, UINT64_MAX, FMK_UINT64_SUBCHECK);
   (0, UINT64_MAX, FMK_SIZET_SUBCHECK)].
Definition mul_macros : list (Z * Z * (Z -> Z -> outcome unit)) :=
  [(INT32_MIN, INT32_MAX, FMK_INT_MULCHECK); (INT8_MIN, INT8_MAX, FMK_INT8_MULCHECK); (INT16_MIN, INT16_MAX, FMK_INT16_MULCHECK);
   (INT32_MIN, INT32_MAX, FMK_INT32_MULCHECK); (INT64_MIN, INT64_MAX, FMK_INT64_MULCHECK); (0, UINT8_MAX, FMK_UINT8_MULCHECK);
   (0, UINT16_MAX, FMK_UINT16_MULCHECK); (0, UINT32_MAX, FMK_UINT32_MULCHECK); (0, UINT64_MAX, FMK_UINT64_MULCHECK);
   (0, UINT64_MAX, FMK_SIZET_MULCHECK)].

(** A macro around a test. *)
Definition wraps (c m : Z * Z * (Z -> Z -> outcome unit)) : Prop :=
  let '(lo, hi, check) := c in
  let '(lo', hi', macro) := m in
  lo = lo' /\ hi = hi' /\ exists cast, macro = fmk cast cast check /\ forall v, lo <= v <= hi -> cast v = v.

Lemma macros_exact op cs ms : Forall (decides op) cs -> Forall2 wraps cs ms -> Forall (macro_decides op) ms.
Proof.
  intros Hc Hw. induction Hw as [|[[lo hi] c] [[lo' hi'] m] cs ms (<- & <- & cast & -> & Hcast) _ IH]; [done|].
  inversion_clear Hc as [|? ? Hd Hcs]. constructor; [|by apply IH]. intros a b Ha Hb. unfold fmk. rewrite !Hcast, Hd by done. by destruct (within _ _ _).
Qed.

Lemma cast_signed w v : 0 < w -> - 2 ^ (w - 1) <= v <= 2 ^ (w - 1) - 1 -> swrap w v = v.
Proof.
  intros Hw Hv. unfold swrap. replace (2 ^ w) with (2 * 2 ^ (w - 1)) by (rewrite <- Z.pow_succ_r by lia; f_equal; lia). rewrite Z.mod_small by lia. lia.
Qed.

Ltac solve_wraps :=
  repeat constructor; eexists; (split; [reflexivity|]); intros v Hv;
  first [apply cast_signed; in_limits | unfold u8, u16, u32, u64; apply uwrap_small; in_limits].

(** With operands of their type the macros for integers of one type let the
    caller go on when the result fits, and otherwise return [INTERNAL_ERROR]. *)
Theorem fmk_checks_exact :
  Forall (macro_decides Z.add) add_macros /\ Forall (macro_decides Z.sub) sub_macros /\ Forall (macro_decides Z.mul) mul_macros.
Proof.
  destruct checks_exact as (H1 & H2 & H3). split_and!; [apply (macros_exact _ add_checks)|apply (macros_exact _ sub_checks)|apply (macros_exact _ mul_checks)]; try done; solve_wraps.
Qed.

(** ** Rounding sizes up *)

Lemma MemSizeAlign_spec bytes aligns :
  0 <= bytes -> 0 <= aligns -> let a := if aligns =? 0 then 8 else aligns in bytes + a <= 2 ^ 64 - 1 ->
  MemSizeAlign bytes aligns mod a = 0 /\ bytes <= MemSizeAlign bytes aligns < bytes + a.
Proof.
  intros Hb Ha a Hlt. unfold MemSizeAlign. fold a. assert (Hpos : 0 < a) by (unfold a; destruct (Z.eqb_spec aligns 0); lia). unfold u64.
  rewrite (uwrap_small 64 (bytes + a)), (uwrap_small 64 (bytes + a - 1)) by lia.
  pose proof (Z.div_mod (bytes + a - 1) a ltac:(lia)). pose proof (Z.mod_pos_bound (bytes + a - 1) a Hpos).
  assert (0 <= (bytes + a - 1) / a) by (apply Z.div_pos; lia).
  rewrite uwrap_small by lia. rewrite Z.mod_mul by lia. lia.
Qed.
