(* ===== verification/NumHif8.v ===== *)
(** * NumHif8: eight bit floats with a tapered mantissa

    [base/common/math/hif8_t.cc]: the conversions between [HiF8] and the bits
    of [float] and [fp16_t].  Below the sign a [HiF8] has a prefix, the dot,
    that says how many bits the exponent takes; the mantissa has what is left,
    from three bits down to one, and the smallest numbers none. *)

From S2P Require Import Prelude NumBits NumFp16.

(** ** Tables *)

Definition kHiF8ExpToMantissaWidth : list Z :=
  [3; 3; 3; 3; 2; 2; 2; 2; 1; 1; 1; 1; 1; 1; 1; 1; 0; 0; 0; 0; 0; 0; 0; 255].
Definition kHiF8ExpToDot : list Z := [1; 2; 4; 4; 8; 8; 8; 8; 12; 12; 12; 12; 12; 12; 12; 12].
Definition kHiF8DmlExpMax := -16.
Definition kHiF8DmlExpBias := 23.
Definition kHiF8DotOffset := 3.
Definition kHiF8NmlExpMax := 15.
Definition kHiF8DmlExpMin := -22.
Definition kHiF8SignMask := 0x80.
Definition kIeeeFp32ExpBits := 8.
Definition kIeeeFp32ManBits := 23.
Definition kIeeeFp16ExpBits := 5.
Definition kIeeeFp16ManBits := 10.

(** ** Bit fields *)

Definition Extract32 (v width offset : Z) : Z := Z.land (Z.shiftr v offset) (shl 32 1 width - 1).
Definition Deposit32 (v width offset value : Z) : Z :=
  let mask := shl 32 1 width - 1 in
  Z.lor (Z.land v (u32 (Z.lnot (shl 32 mask offset)))) (shl 32 (Z.land value mask) offset).
(** [__builtin_clz] of a positive word. *)
Definition clz (m : Z) : Z := 31 - Z.log2 m.

(** ** Encoding *)

(** The most significant bit of the magnitude gives way to the sign. *)
Definition encode_em (m se_bit : Z) : Z :=
  if m =? 0 then 0 else u8 (Deposit32 m 1 (7 - (clz m - 24)) se_bit).

Definition EncodeHiF8 (exp mantissa : Z) : outcome Z :=
  if exp <=? kHiF8DmlExpMax then Ok (u8 (exp + kHiF8DmlExpBias)) else
  let mag := u8 (if exp <? 0 then - exp else exp) in
  if negb (mag <? 16) then Err FAILED else
  dot ← at_ kHiF8ExpToDot (Z.to_nat mag);
  width ← at_ kHiF8ExpToMantissaWidth (Z.to_nat mag);
  Ok (Z.lor (Z.lor (shl 8 dot kHiF8DotOffset) (shl 8 (encode_em mag (if exp <? 0 then 1 else 0)) width)) mantissa).

Inductive IeeeType := kZero | kNaN | kInf | kOrdinary.

(** The outputs keep their initial zeros for a zero. *)
Definition UnpackIeeeFp (exp_bits mantissa_bits bits : Z) : IeeeType * Z * Z * Z :=
  let ieee_sign_bit := shl 32 1 (exp_bits + mantissa_bits) in
  let bias := swrap 8 (shl 32 1 (exp_bits - 1) - 1) in
  if Z.land bits (u32 (Z.lnot ieee_sign_bit)) =? 0 then (kZero, 0, 0, 0) else
  let sign_bit := if negb (Z.land bits ieee_sign_bit =? 0) then kHiF8SignMask else 0 in
  let exp := swrap 8 (swrap 8 (Extract32 bits exp_bits mantissa_bits) - bias) in
  let mantissa := Extract32 bits mantissa_bits 0 in
  if u8 exp =? shl 32 1 (exp_bits - 1) then
    (if negb (mantissa =? 0) then kNaN else kInf, sign_bit, exp, mantissa)
  else if (exp =? - bias) && negb (mantissa =? 0) then
    let shift := u8 (mantissa_bits - (32 - clz mantissa) + 1) in
    (kOrdinary, sign_bit, swrap 8 (- bias + 1 - shift), Extract32 (shl 32 mantissa shift) mantissa_bits 0)
  else (kOrdinary, sign_bit, exp, mantissa).

(** The rounded mantissa, and whether it ran over. *)
Definition RoundMantissa (mantissa_bits mantissa probe_bit : Z) : Z * bool :=
  let tmp := u32 (mantissa + probe_bit) in
  (Extract32 tmp mantissa_bits 0, negb (Z.land tmp (shl 32 1 mantissa_bits) =? 0)).

Definition HiF8FromIeeeBits (exp_bits mantissa_bits bits : Z) : outcome Z :=
  let '(type, sign_bit, exp, mantissa) := UnpackIeeeFp exp_bits mantissa_bits bits in
  let ordinary := match type with kOrdinary => true | _ => false end in
  if match type with kZero => true | _ => false end || (ordinary && (exp <? kHiF8DmlExpMin - 1)) then Ok 0
  else if match type with kNaN => true | _ => false end then Ok 0x80
  else if match type with kInf => true | _ => false end || (ordinary && (kHiF8NmlExpMax <? exp)) then Ok (Z.lor sign_bit 0x6F)
  else
    width ← at_ kHiF8ExpToMantissaWidth (Z.to_nat (Z.abs exp));
    let bits_to_discard := u8 (mantissa_bits - width) in
    let '(mantissa, carry) := RoundMantissa mantissa_bits mantissa (shl 32 1 (bits_to_discard - 1)) in
    let exp := if carry then swrap 8 (exp + 1) else exp in
    if carry && (kHiF8NmlExpMax <? exp) then Ok (Z.lor sign_bit 0x6F)
    else code ← EncodeHiF8 exp (u8 (Z.shiftr mantissa bits_to_discard)); Ok (Z.lor sign_bit code).

Definition BitsFromFp32 (f32 : Z) : outcome Z := HiF8FromIeeeBits kIeeeFp32ExpBits kIeeeFp32ManBits f32.
Definition BitsFromFp16 (f16 : Z) : outcome Z := HiF8FromIeeeBits kIeeeFp16ExpBits kIeeeFp16ManBits f16.

(** ** Decoding *)

Definition IsNaN (u : Z) : bool := u =? kHiF8SignMask.
Definition IsInf (u : Z) : bool := Z.land u (u8 (Z.lnot kHiF8SignMask)) =? 0x6F.

Definition kHiF8DmlMask := 0x78.
Definition kHiF8DmlFlag := 255.
Definition kDotTable : list (Z * Z) :=
  [(kHiF8DmlFlag, 4); (0, 4); (1, 3); (1, 3); (2, 2); (2, 2); (2, 2); (2, 2); (3, 2); (3, 2); (3, 2); (3, 2); (4, 2); (4, 2); (4, 2); (4, 2)].

(** The exponent, from [d] bits of it. *)
Definition ei (mantissa_width d raw : Z) : Z :=
  if d =? 0 then 0 else
  let em := u8 (Extract32 raw d mantissa_width) in
  let se := Z.land em (shl 8 1 (d - 1)) in
  let mag := u8 (Deposit32 em 1 (d - 1) 1) in
  (if negb (se =? 0) then -1 else 1) * swrap 8 mag.

(** The sum of 2^-(width - n) over the bits [n] that are set, in units of
    2^-width. *)
Definition mantissa_value (mantissa_width u : Z) : Z :=
  foldl (fun v n => if Z.land u (shl 8 1 n) =? 0 then v else v + 2 ^ n) 0 (seqZ 0 mantissa_width).

(** The magnitude in units of 2^-22, the least of all.  The source adds and
    multiplies powers of two as [float]s; no intermediate value has more than
    four significant bits, so that nothing is rounded. *)
Definition units (u : Z) : outcome Z :=
  '(dot, width) ← at_ kDotTable (Z.to_nat (Z.shiftr (Z.land u kHiF8DmlMask) kHiF8DotOffset));
  if dot =? kHiF8DmlFlag then
    let dml_exp := Z.land u (u8 (Z.lnot (Z.lor kHiF8SignMask kHiF8DmlMask))) in
    Ok (if dml_exp =? 0 then 0 else 2 ^ (dml_exp - kHiF8DmlExpBias + 22))
  else
    let mantissa_width := 7 - (dot + width) in
    Ok (2 ^ (ei mantissa_width dot u + 22 - mantissa_width) * (2 ^ mantissa_width + mantissa_value mantissa_width u)).

(** The bits of the [float] of [n] units of 2^-22, for an [n] that fits. *)
Definition float_bits (negative : bool) (n : Z) : Z :=
  if n =? 0 then 0 else
  (if negative then 2 ^ 31 else 0) + (kFp32ExpBias - 22 + Z.log2 n) * 2 ^ 23 + (n * 2 ^ 23 / 2 ^ Z.log2 n - 2 ^ 23).

Definition to_float (u : Z) : outcome Z :=
  let negative := negb (Z.land u kHiF8SignMask =? 0) in
  if IsNaN u then Ok 0x7FC00000
  else if IsInf u then Ok (if negative then 0xFF800000 else 0x7F800000)
  else n ← units u; Ok (float_bits negative n).

Definition to_fp16 (u : Z) : outcome Z :=
  if IsNaN u then Ok (Fp16Constructor 0 kFp16MaxExp 1)
  else f ← to_float u; Ok (of_float f).
