(* ===== verification/NumHif8Correct.v ===== *)
(** * NumHif8Correct: HiF8 conversions round to nearest

    Encoding returns the nearest of the 128 magnitudes, the larger one of two
    equally near; all 256 patterns survive decoding and encoding. *)

From S2P Require Import Prelude NumBits NumFp16 NumFp16Value NumFp16Convert NumFp16Int NumFp16Arith NumHif8.

(** ** Magnitudes *)

(** The magnitude of a pattern below the sign, in units of 2^-22; infinity
    stands where its pattern would be a number, at 49152. *)
Definition level (p : Z) : Z := match units p with Ok n => n | _ => 0 end.

(** [p] is nearest to [N] units of 2^-(22+k), ties away from zero. *)
Definition nearest_away (k N p : Z) : Prop :=
  0 <= p < 128 /\ forall q, 0 <= q < 128 ->
    Z.abs (level p * 2 ^ k - N) < Z.abs (level q * 2 ^ k - N) \/
    (Z.abs (level p * 2 ^ k - N) = Z.abs (level q * 2 ^ k - N) /\ level q <= level p).

(** The sign goes with every result but zero. *)
Definition encoded (s k N r : Z) : Prop := exists p, nearest_away k N p /\ r = (if p =? 0 then 0 else s * 128 + p).

(** It is enough to compare with the midpoints. *)
Lemma nearest_midpoints k N p :
  0 <= k -> 0 <= p < 128 ->
  (forall q, 0 <= q < 128 -> (level p < level q -> 2 * N < (level p + level q) * 2 ^ k) /\
                             (level q < level p -> (level p + level q) * 2 ^ k <= 2 * N)) ->
  nearest_away k N p.
Proof.
  intros Hk Hp H. pose proof (Z.pow_pos_nonneg 2 k ltac:(lia) Hk) as Hpos. split; [done|]. intros q Hq. destruct (H q Hq) as [Hup Hdown].
  destruct (Z.lt_trichotomy (level p) (level q)) as [Hlt|[Heq|Hgt]].
  - specialize (Hup Hlt). left. nia.
  - right. rewrite Heq. lia.
  - specialize (Hdown Hgt). assert (level q * 2 ^ k < level p * 2 ^ k) by nia. destruct (decide ((level p + level q) * 2 ^ k = 2 * N)); [right|left]; lia.
Qed.

(** ** The grid of one exponent *)

Definition width_at (e : Z) : Z := nth (Z.to_nat (Z.abs e)) kHiF8ExpToMantissaWidth 0.

(** The pattern for the exponent [e] and the mantissa [q], which may have run
    over. *)
Definition code (e q : Z) : outcome Z :=
  if q =? 2 ^ width_at e then (if 15 <? e + 1 then Ok 0x6F else EncodeHiF8 (e + 1) 0) else EncodeHiF8 e q.

Definition levels : list Z := Eval vm_compute in map level (seqZ 0 128).

Lemma level_in x : 0 <= x < 128 -> In (level x) levels.
Proof.
  intros Hx. assert (E : levels = map level (seqZ 0 128)) by (by vm_compute). rewrite E. apply in_map. apply list_elem_of_In, elem_of_seqZ. lia.
Qed.

(** Everything that rounds to [q] at the exponent [e] is nearest to it. *)
Definition grid_ok (e q : Z) : bool :=
  let w := width_at e in
  let lo := 2 ^ (w + 1) + Z.max 0 (2 * q - 1) in
  let hi := 2 ^ (w + 1) + Z.min (2 ^ (w + 1)) (2 * q + 1) in
  match code e q with
  | Ok p => (0 <? p) && (p <? 128) &&
      (let lp := level p in
       forallb (fun lx => implb (lp <? lx) (hi * 2 ^ (e + 22 - w) <=? lp + lx) &&
                          implb (lx <? lp) (lp + lx <=? lo * 2 ^ (e + 22 - w))) levels)
  | _ => false
  end.

Lemma grid_table e q : -22 <= e <= 15 -> 0 <= q <= 2 ^ width_at e -> grid_ok e q = true.
Proof.
  intros He Hq. assert (H : forallb (fun e => forallb (grid_ok e) (seqZ 0 (2 ^ width_at e + 1))) (seqZ (-22) 38) = true) by (by vm_compute).
  rewrite forallb_forall in H. specialize (H e). rewrite <- list_elem_of_In, elem_of_seqZ, forallb_forall in H. specialize (H ltac:(lia) q).
  rewrite <- list_elem_of_In, elem_of_seqZ in H. apply H. lia.
Qed.

Lemma width_range e : -22 <= e <= 15 -> 0 <= width_at e <= 3 /\ 0 <= e + 22 - width_at e.
Proof.
  intros He. assert (H : forallb (fun e => (0 <=? width_at e) && (width_at e <=? 3) && (0 <=? e + 22 - width_at e)) (seqZ (-22) 38) = true) by (by vm_compute).
  rewrite forallb_forall in H. specialize (H e). rewrite <- list_elem_of_In, elem_of_seqZ in H. specialize (H ltac:(lia)).
  apply andb_true_iff in H as [[?%Z.leb_le ?%Z.leb_le]%andb_true_iff ?%Z.leb_le]. lia.
Qed.

Lemma at_width e : -23 <= e <= 15 -> at_ kHiF8ExpToMantissaWidth (Z.to_nat (Z.abs e)) = Ok (width_at e).
Proof.
  intros He. unfold at_, width_at.
  assert (Hl : (Z.to_nat (Z.abs e) < length kHiF8ExpToMantissaWidth)%nat) by (simpl; lia).
  destruct (lookup_lt_is_Some_2 _ _ Hl) as [w Hw]. rewrite Hw. f_equal. symmetry. by apply nth_lookup_Some.
Qed.

Section grid.
Context (mb e : Z) (Hmb : 4 <= mb <= 28) (He : -22 <= e <= 15).
Let w := width_at e.

Lemma grid_half : 2 ^ (mb - w) = 2 * 2 ^ (mb - w - 1) /\ 0 < 2 ^ (mb - w - 1) /\ 2 ^ mb = 2 ^ w * 2 ^ (mb - w).
Proof using Hmb He.
  pose proof (width_range e He) as Hw. fold w in Hw. split_and!.
  - rewrite <- Z.pow_succ_r by lia. f_equal. lia.
  - apply Z.pow_pos_nonneg; lia.
  - rewrite <- Z.pow_add_r by lia. f_equal. lia.
Qed.

Context (m : Z) (Hm : 0 <= m < 2 ^ mb).
Let q := (m + 2 ^ (mb - w - 1)) / 2 ^ (mb - w).

Lemma grid_q : 0 <= q <= 2 ^ w /\ (2 * q - 1) * 2 ^ (mb - w - 1) <= m < (2 * q + 1) * 2 ^ (mb - w - 1).
Proof using Hmb He Hm.
  destruct grid_half as (E & Hp & Emb). unfold q. rewrite E. set (d := 2 ^ (mb - w - 1)) in *.
  pose proof (Z.div_mod (m + d) (2 * d) ltac:(lia)) as Ed. pose proof (Z.mod_pos_bound (m + d) (2 * d) ltac:(lia)) as Hr.
  assert (0 <= (m + d) / (2 * d)) by (apply Z.div_pos; lia). assert ((m + d) / (2 * d) < 2 ^ w + 1) by (apply Z.div_lt_upper_bound; nia).
  nia.
Qed.

Context (k c N : Z) (Hk : 0 <= k) (Hc : 0 <= c).
Context (Hscale : 0 <= e + 22 + k - mb + c) (HN : N * 2 ^ c = (2 ^ mb + m) * 2 ^ (e + 22 + k - mb + c)).

Lemma grid_rounds : exists p, code e q = Ok p /\ 0 < p < 128 /\ nearest_away k N p.
Proof using Hmb Hk Hc He Hm Hscale HN.
  destruct grid_q as [Hq Hmq]. destruct grid_half as (E & Hp & Emb). pose proof (width_range e He) as [Hw Hw2]. fold w in Hw, Hw2.
  pose proof (grid_table e q He Hq) as T. unfold grid_ok in T. fold w in T. destruct (code e q) as [p| |]; try done. exists p. split; [done|].
  apply andb_true_iff in T as [[H1%Z.ltb_lt H2%Z.ltb_lt]%andb_true_iff T]. split; [lia|]. apply nearest_midpoints; [done|lia|]. intros x Hx.
  cbv zeta in T. rewrite forallb_forall in T. specialize (T (level x) (level_in x Hx)). apply andb_true_iff in T as [T1 T2].
  set (d := 2 ^ (mb - w - 1)) in *. set (F := 2 ^ (e + 22 - w)) in *.
  assert (HF : 0 < F) by (apply Z.pow_pos_nonneg; lia). assert (Hkc : 0 < 2 ^ k * 2 ^ c) by (rewrite <- Z.pow_add_r by lia; apply Z.pow_pos_nonneg; lia).
  assert (Hc' : 0 < 2 ^ c) by (apply Z.pow_pos_nonneg; lia).
  set (M := 2 ^ k * 2 ^ c) in *.
  assert (E2 : 2 * N * (2 ^ c * d) = (2 ^ mb + m) * F * M).
  { replace (2 * N * (2 ^ c * d)) with (N * 2 ^ c * (2 * d)) by lia. rewrite HN, <- E, <- !Z.mul_assoc. unfold F, M. rewrite <- !Z.pow_add_r by lia. do 2 f_equal. lia. }
  assert (E3 : 2 ^ mb = 2 ^ (w + 1) * d) by (rewrite Z.pow_add_r by lia; lia).
  assert (E4 : (level p + level x) * 2 ^ k * (2 ^ c * d) = (level p + level x) * d * M) by (unfold M; lia).
  assert (Hcd : 0 < 2 ^ c * d) by (apply Z.mul_pos_pos; lia).
  split; intros Hcmp.
  - rewrite (proj2 (Z.ltb_lt _ _) Hcmp) in T1. simpl in T1. apply Z.leb_le in T1.
    assert (Hx1 : 2 ^ mb + m < (2 ^ (w + 1) + Z.min (2 ^ (w + 1)) (2 * q + 1)) * d) by lia.
    apply (Z.mul_lt_mono_pos_r (2 ^ c * d)); [done|]. rewrite E2, E4. apply Z.mul_lt_mono_pos_r; [done|].
    eapply Z.lt_le_trans; [apply Z.mul_lt_mono_pos_r; [done|exact Hx1]|]. rewrite <- Z.mul_assoc, (Z.mul_comm d), Z.mul_assoc. apply Z.mul_le_mono_nonneg_r; lia.
  - rewrite (proj2 (Z.ltb_lt _ _) Hcmp) in T2. simpl in T2. apply Z.leb_le in T2.
    assert (Hx1 : (2 ^ (w + 1) + Z.max 0 (2 * q - 1)) * d <= 2 ^ mb + m) by lia.
    apply (Z.mul_le_mono_pos_r _ _ (2 ^ c * d)); [done|]. rewrite E2, E4. apply Z.mul_le_mono_pos_r; [done|].
    eapply Z.le_trans; [|apply Z.mul_le_mono_nonneg_r; [lia|exact Hx1]]. rewrite <- Z.mul_assoc, (Z.mul_comm d F), Z.mul_assoc. apply Z.mul_le_mono_nonneg_r; lia.
Qed.
End grid.

(** ** Rounding the mantissa *)

Lemma Extract32_eq v w o : 0 <= w <= 31 -> 0 <= o -> Extract32 v w o = (v / 2 ^ o) mod 2 ^ w.
Proof.
  intros Hw Ho. unfold Extract32, shl. rewrite shiftl_mul, Z.mul_1_l by lia.
  assert (2 ^ w <= 2 ^ 31) by (apply Z.pow_le_mono_r; lia). assert (0 < 2 ^ w) by (apply Z.pow_pos_nonneg; lia).
  rewrite uwrap_small, shiftr_div by lia. rewrite <- Z.land_ones, Z.ones_equiv by lia. done.
Qed.

Lemma shl_one w : 0 <= w <= 31 -> shl 32 1 w = 2 ^ w.
Proof.
  intros Hw. unfold shl. rewrite shiftl_mul, Z.mul_1_l by lia. apply uwrap_small. split; [apply Z.pow_nonneg; lia|apply Z.pow_lt_mono_r; lia].
Qed.

(** The part of the conversion after the special cases. *)
Definition tail (mb s e m : Z) : outcome Z :=
  width ← at_ kHiF8ExpToMantissaWidth (Z.to_nat (Z.abs e));
  let bits_to_discard := u8 (mb - width) in
  let '(m, carry) := RoundMantissa mb m (shl 32 1 (bits_to_discard - 1)) in
  let e := if carry then swrap 8 (e + 1) else e in
  if carry && (kHiF8NmlExpMax <? e) then Ok (Z.lor s 0x6F)
  else code ← EncodeHiF8 e (u8 (Z.shiftr m bits_to_discard)); Ok (Z.lor s code).

Lemma RoundMantissa_eq mb m p :
  0 <= mb <= 28 -> 0 <= m < 2 ^ mb -> 0 <= p <= 2 ^ mb -> RoundMantissa mb m p = ((m + p) mod 2 ^ mb, 2 ^ mb <=? m + p).
Proof.
  intros Hmb Hm Hp. assert (2 ^ mb <= 2 ^ 28) by (apply Z.pow_le_mono_r; lia). unfold RoundMantissa, u32.
  rewrite (uwrap_small 32 (m + p)), Extract32_eq, shl_one, Z.pow_0_r, Z.div_1_r, land_pow2 by lia. f_equal. destruct (Z.leb_spec (2 ^ mb) (m + p)).
  - replace ((m + p) / 2 ^ mb) with 1 by (apply (Z.div_unique_pos _ _ 1 (m + p - 2 ^ mb)); lia). change (1 mod 2) with 1. rewrite (proj2 (Z.eqb_neq _ _)) by lia. done.
  - rewrite Z.div_small by lia. by rewrite Z.mul_0_r.
Qed.

Lemma tail_code mb s e m :
  4 <= mb <= 28 -> -22 <= e <= 15 -> 0 <= m < 2 ^ mb ->
  tail mb s e m = (p ← code e ((m + 2 ^ (mb - width_at e - 1)) / 2 ^ (mb - width_at e)); Ok (Z.lor s p)).
Proof.
  intros Hmb He Hm. destruct (grid_q mb e Hmb He m Hm) as [Hq Hmq]. destruct (grid_half mb e Hmb He) as (E & Hp & Emb).
  pose proof (width_range e He) as [Hw _]. unfold tail. rewrite at_width by lia. cbn [mbind outcome_bind].
  set (w := width_at e) in *. set (q := (m + 2 ^ (mb - w - 1)) / 2 ^ (mb - w)) in *.
  assert (Hd : u8 (mb - w) = mb - w) by (apply uwrap_small; lia). rewrite Hd. rewrite shl_one by lia.
  assert (Hpw : 1 <= 2 ^ w) by (pose proof (Z.pow_pos_nonneg 2 w); lia).
  assert (Hdm : 2 ^ (mb - w - 1) <= 2 ^ mb) by nia. rewrite RoundMantissa_eq by lia.
  assert (Hswrap : swrap 8 (e + 1) = e + 1) by (unfold swrap; rewrite Z.mod_small; lia). rewrite Hswrap.
  unfold code. fold w. unfold kHiF8NmlExpMax. destruct (Z.leb_spec (2 ^ mb) (m + 2 ^ (mb - w - 1))) as [Hge|Hlt].
  - assert (q = 2 ^ w) as -> by nia. rewrite Z.eqb_refl. simpl. destruct (15 <? e + 1); [done|].
    replace ((m + 2 ^ (mb - w - 1)) mod 2 ^ mb) with (m + 2 ^ (mb - w - 1) - 2 ^ mb) by (apply (Z.mod_unique_pos _ _ 1); lia).
    rewrite shiftr_div, Z.div_small by lia. done.
  - assert (Hne : q <> 2 ^ w) by (intros E'; rewrite E' in Hmq; nia). rewrite (proj2 (Z.eqb_neq _ _) Hne). rewrite (Z.mod_small (m + _)) by lia. simpl. rewrite shiftr_div by lia. fold q.
    assert (2 ^ w <= 2 ^ 3) by (apply Z.pow_le_mono_r; lia). unfold u8. rewrite uwrap_small by lia. done.
Qed.

Lemma sign_lor s p : 0 <= s < 2 -> 0 <= p < 128 -> Z.lor (s * 128) p = s * 128 + p.
Proof. intros Hs Hp. change 128 with (2 ^ 7). by apply lor_low. Qed.

Lemma level_table x : 0 <= x < 128 -> (x = 0 \/ 1 <= level x) /\ (x = 0 \/ x = 1 \/ 2 <= level x) /\ level x <= 3 * 2 ^ 36 /\ (x = 0x6F \/ level x <= 2 ^ 37).
Proof.
  intros Hx. assert (H : forallb (fun x => ((x =? 0) || (1 <=? level x)) && ((x =? 0) || (x =? 1) || (2 <=? level x)) && (level x <=? 3 * 2 ^ 36) &&
    ((x =? 0x6F) || (level x <=? 2 ^ 37))) (seqZ 0 128) = true) by (by vm_compute).
  rewrite forallb_forall in H. specialize (H x). rewrite <- list_elem_of_In, elem_of_seqZ in H. specialize (H ltac:(lia)). lia.
Qed.

(** What is too small, what lies below the least number, what is too large. *)
Lemma encoded_zero s k N : 0 <= k -> 0 <= N -> 2 * N < 2 ^ k -> encoded s k N 0.
Proof.
  intros Hk HN Hlt. exists 0. split; [|done]. apply nearest_midpoints; [done|lia|]. intros q Hq. change (level 0) with 0.
  destruct (level_table q Hq) as [[->|H] _]; [change (level 0) with 0; lia|nia].
Qed.
Lemma encoded_least s k N : 0 <= k -> 2 ^ k <= 2 * N -> N < 2 ^ k -> encoded s k N (s * 128 + 1).
Proof.
  intros Hk H1 H2. exists 1. split; [|done]. apply nearest_midpoints; [done|lia|]. intros q Hq. change (level 1) with 1.
  destruct (level_table q Hq) as (_ & [->|[->|H]] & _); [change (level 0) with 0; lia|change (level 1) with 1; lia|nia].
Qed.
Lemma encoded_large s k N : 0 <= k -> 2 ^ 38 * 2 ^ k <= N -> encoded s k N (s * 128 + 0x6F).
Proof.
  intros Hk H1. exists 0x6F. split; [|done]. apply nearest_midpoints; [done|lia|]. intros q Hq. change (level 0x6F) with (3 * 2 ^ 36).
  pose proof (Z.pow_pos_nonneg 2 k ltac:(lia) Hk). destruct (level_table q Hq) as (_ & _ & Hmax & _). split; intros; [lia|nia].
Qed.

(** A number of exponent [e] and mantissa [m]. *)
Definition from_parts (mb s e m : Z) : outcome Z :=
  if e <? -23 then Ok 0 else if 15 <? e then Ok (Z.lor s 0x6F) else tail mb s e m.

Lemma from_parts_encoded mb s k c e m N :
  4 <= mb <= 28 -> 0 <= s < 2 -> 0 <= k -> 0 <= c -> 0 <= m < 2 ^ mb -> 0 <= e + 22 + k - mb + c -> N * 2 ^ c = (2 ^ mb + m) * 2 ^ (e + 22 + k - mb + c) ->
  exists r, from_parts mb (s * 128) e m = Ok r /\ encoded s k N r.
Proof.
  intros Hmb Hs Hk Hc Hm Hsc HN. unfold from_parts.
  pose proof (Z.pow_pos_nonneg 2 c ltac:(lia) Hc) as Hpc. pose proof (Z.pow_pos_nonneg 2 mb ltac:(lia) ltac:(lia)) as Hpm.
  pose proof (Z.pow_pos_nonneg 2 (e + 22 + k - mb + c) ltac:(lia) Hsc) as Hps. pose proof (Z.pow_pos_nonneg 2 k ltac:(lia) Hk) as Hpk.
  (* [N] lies between two powers of two *)
  assert (Hlo : 2 ^ (e + 22 + k + c) <= N * 2 ^ c).
  { rewrite HN. replace (e + 22 + k + c) with (mb + (e + 22 + k - mb + c)) by lia. rewrite (Z.pow_add_r 2 mb) by lia. nia. }
  assert (Hhi : N * 2 ^ c < 2 ^ (e + 23 + k + c)).
  { rewrite HN. replace (e + 23 + k + c) with (mb + 1 + (e + 22 + k - mb + c)) by lia. rewrite (Z.pow_add_r 2 (mb + 1)), (Z.pow_add_r 2 mb 1) by lia. change (2 ^ 1) with 2. nia. }
  destruct (Z.ltb_spec e (-23)); [|destruct (Z.ltb_spec 15 e)].
  - eexists. split; [done|]. apply encoded_zero; [done|nia|].
    assert (2 ^ (e + 23 + k + c) * 2 <= 2 ^ k * 2 ^ c); [|nia]. rewrite <- Z.pow_add_r by lia. rewrite Z.mul_comm, <- Z.pow_succ_r by lia. apply Z.pow_le_mono_r; lia.
  - eexists. split; [done|]. rewrite sign_lor by lia. apply encoded_large; [done|].
    assert (2 ^ 38 * 2 ^ k * 2 ^ c <= 2 ^ (e + 22 + k + c)); [|nia]. rewrite <- !Z.pow_add_r by lia. apply Z.pow_le_mono_r; lia.
  - destruct (decide (e = -23)) as [->|].
    + exists (s * 128 + 1). split.
      * unfold tail. rewrite at_width by lia. change (width_at (-23)) with 255. cbn [mbind outcome_bind].
        assert (E : u8 (mb - 255) = mb + 1) by (unfold u8, uwrap; symmetry; apply (Z.mod_unique_pos _ _ (-1)); lia). rewrite E.
        replace (mb + 1 - 1) with mb by lia. rewrite shl_one, RoundMantissa_eq, (proj2 (Z.leb_le _ _)) by lia.
        change (swrap 8 (-23 + 1)) with (-22). cbn [andb]. change (kHiF8NmlExpMax <? -22) with false. cbv iota.
        change (EncodeHiF8 (-22) ?x) with (Ok 1). cbn [mbind outcome_bind]. by rewrite sign_lor.
      * replace (-23 + 22 + k + c) with (k + c - 1) in Hlo by lia. replace (-23 + 23 + k + c) with (k + c) in Hhi by lia.
        assert (E2 : 2 ^ (k + c) = 2 * 2 ^ (k + c - 1)) by (rewrite <- Z.pow_succ_r by lia; f_equal; lia). rewrite Z.pow_add_r in * by lia. apply encoded_least; [done|nia|nia].
    + rewrite tail_code by lia. destruct (grid_rounds mb e Hmb ltac:(lia) m Hm k c N Hk Hc Hsc HN) as (p & -> & Hp & Hn).
      exists (s * 128 + p). cbn [mbind outcome_bind]. rewrite sign_lor by lia. split; [done|]. exists p. split; [done|]. by rewrite (proj2 (Z.eqb_neq _ _)) by lia.
Qed.

(** ** Taking the wider float apart *)

Section unpack.
Context (eb mb : Z) (Heb : 2 <= eb <= 8) (Hmb : 4 <= mb <= 28) (Hsum : eb + mb <= 31).
Context (s E m : Z) (Hs : 0 <= s < 2) (HE : 0 <= E < 2 ^ eb) (Hm : 0 <= m < 2 ^ mb).
Let bits := (s * 2 ^ eb + E) * 2 ^ mb + m.
Let P := 2 ^ (eb - 1).
Let bias := P - 1.

Lemma unpack_sizes : 2 ^ eb = 2 * P /\ 2 <= P <= 128 /\ 2 ^ (eb + mb) = 2 ^ eb * 2 ^ mb /\ 0 < 2 ^ mb <= 2 ^ 28 /\ 2 ^ (eb + mb) <= 2 ^ 31.
Proof using Heb Hmb Hsum.
  clear bits bias. unfold P. split_and!.
  - rewrite <- Z.pow_succ_r by lia. f_equal. lia.
  - change 2 with (2 ^ 1) at 1. apply Z.pow_le_mono_r; lia.
  - change 128 with (2 ^ 7). apply Z.pow_le_mono_r; lia.
  - by rewrite Z.pow_add_r by lia.
  - apply Z.pow_pos_nonneg; lia.
  - apply Z.pow_le_mono_r; lia.
  - apply Z.pow_le_mono_r; lia.
Qed.

Lemma unpack_bits :
  Z.land bits (2 ^ (eb + mb)) = s * 2 ^ (eb + mb) /\ Z.land bits (u32 (Z.lnot (2 ^ (eb + mb)))) = E * 2 ^ mb + m /\
  Extract32 bits eb mb = E /\ Extract32 bits mb 0 = m.
Proof using Heb Hmb Hsum Hs HE Hm.
  destruct unpack_sizes as (Eeb & HP & Ep & Hpm & Hpn). assert (Hpe : 0 < 2 ^ eb) by lia.
  assert (Hlow : 0 <= E * 2 ^ mb + m < 2 ^ (eb + mb)) by nia.
  assert (Eb : bits = s * 2 ^ (eb + mb) + (E * 2 ^ mb + m)) by (unfold bits; lia).
  assert (Esign : Z.land bits (2 ^ (eb + mb)) = s * 2 ^ (eb + mb)).
  { rewrite land_pow2 by lia. replace (bits / 2 ^ (eb + mb)) with s by (apply (Z.div_unique_pos _ _ s (E * 2 ^ mb + m)); lia). rewrite Z.mod_small by lia. lia. }
  split_and!; [done| | |].
  - unfold u32, uwrap. rewrite <- Z.land_ones by lia. rewrite Z.land_assoc, <- Z.ldiff_land.
    assert (Ed : Z.ldiff bits (2 ^ (eb + mb)) = bits - Z.land bits (2 ^ (eb + mb))).
    { rewrite Z.sub_nocarry_ldiff; [by rewrite Z.ldiff_land, Z.ldiff_land, Z.lnot_land, Z.land_lor_distr_r, Z.land_lnot_diag, Z.lor_0_l|].
      apply Z.bits_inj'. intros i Hi. rewrite Z.ldiff_spec, Z.land_spec, Z.bits_0. by destruct (Z.testbit bits i), (Z.testbit _ i). }
    rewrite Ed, Esign, Z.land_ones, Z.mod_small by lia. lia.
  - rewrite Extract32_eq by lia. replace (bits / 2 ^ mb) with (s * 2 ^ eb + E) by (apply (Z.div_unique_pos _ _ _ m); unfold bits; lia).
    symmetry. apply (Z.mod_unique_pos _ _ s); lia.
  - rewrite Extract32_eq, Z.pow_0_r, Z.div_1_r by lia. symmetry. apply (Z.mod_unique_pos _ _ (s * 2 ^ eb + E)); unfold bits; lia.
Qed.

(** The biased exponent, in 8 bits. *)
Lemma unpack_exp : E < 2 ^ eb - 1 -> swrap 8 (swrap 8 E - bias) = E - bias.
Proof using Heb Hmb Hsum HE.
  clear bits. destruct unpack_sizes as (Eeb & HP & _). unfold bias. intros HE'.
  assert (Hsw : swrap 8 E = E \/ swrap 8 E = E - 256).
  { unfold swrap. change (2 ^ (8 - 1)) with 128. change (2 ^ 8) with 256. destruct (decide (E < 128)); [left|right].
    - rewrite Z.mod_small; lia.
    - replace ((E + 128) mod 256) with (E + 128 - 256) by (apply (Z.mod_unique_pos _ _ 1); lia). lia. }
  unfold swrap at 1. change (2 ^ (8 - 1)) with 128. change (2 ^ 8) with 256. destruct Hsw as [-> | ->].
  - rewrite Z.mod_small; lia.
  - replace ((E - 256 - (P - 1) + 128) mod 256) with (E - (P - 1) + 128) by (apply (Z.mod_unique_pos _ _ (-1)); lia). lia.
Qed.

Lemma unpack_head :
  UnpackIeeeFp eb mb bits =
  if E * 2 ^ mb + m =? 0 then (kZero, 0, 0, 0) else
  let exp := swrap 8 (swrap 8 E - bias) in
  if u8 exp =? P then (if negb (m =? 0) then kNaN else kInf, s * 128, exp, m)
  else if (exp =? - bias) && negb (m =? 0) then
    let shift := u8 (mb - (32 - clz m) + 1) in
    (kOrdinary, s * 128, swrap 8 (- bias + 1 - shift), Extract32 (shl 32 m shift) mb 0)
  else (kOrdinary, s * 128, exp, m).
Proof using Heb Hmb Hsum Hs HE Hm.
  destruct unpack_sizes as (Eeb & HP & Ep & Hpm & Hpn). destruct unpack_bits as (E1 & E2 & E3 & E4).
  unfold UnpackIeeeFp. rewrite !shl_one by lia. rewrite E1, E2, E3, E4. fold P.
  assert (Eb : swrap 8 (P - 1) = bias) by (unfold swrap, bias; rewrite Z.mod_small; lia). rewrite Eb.
  assert (Es : (if negb (s * 2 ^ (eb + mb) =? 0) then kHiF8SignMask else 0) = s * 128).
  { assert (s = 0 \/ s = 1) as [-> | ->] by lia; [done|]. rewrite (proj2 (Z.eqb_neq _ _)) by lia. done. }
  rewrite Es. done.
Qed.

Lemma unpack_normal : 0 < E < 2 ^ eb - 1 -> HiF8FromIeeeBits eb mb bits = from_parts mb (s * 128) (E - bias) m.
Proof using Heb Hmb Hsum Hs HE Hm.
  intros HE'. destruct unpack_sizes as (Eeb & HP & Ep & Hpm & Hpn). unfold HiF8FromIeeeBits. rewrite unpack_head. cbv zeta. rewrite unpack_exp by lia.
  rewrite (proj2 (Z.eqb_neq (E * 2 ^ mb + m) 0)) by nia.
  assert (Hu : u8 (E - bias) <> P).
  { unfold u8, uwrap, bias. change (2 ^ 8) with 256. destruct (decide (P - 1 <= E)); [rewrite Z.mod_small; lia|].
    replace ((E - (P - 1)) mod 256) with (E - (P - 1) + 256) by (apply (Z.mod_unique_pos _ _ (-1)); lia). lia. }
  rewrite (proj2 (Z.eqb_neq _ _) Hu), (proj2 (Z.eqb_neq (E - bias) (- bias))) by lia. done.
Qed.

Lemma unpack_zero : E = 0 -> m = 0 -> HiF8FromIeeeBits eb mb bits = Ok 0.
Proof using Heb Hmb Hsum Hs HE Hm. intros HE0 Hm0. unfold HiF8FromIeeeBits. rewrite unpack_head, HE0, Hm0. done. Qed.

Lemma unpack_inf : E = 2 ^ eb - 1 -> m = 0 -> HiF8FromIeeeBits eb mb bits = Ok (Z.lor (s * 128) 0x6F).
Proof using Heb Hmb Hsum Hs HE Hm.
  intros HEx Hm0. destruct unpack_sizes as (Eeb & HP & Ep & Hpm & Hpn). unfold HiF8FromIeeeBits. rewrite unpack_head. cbv zeta.
  rewrite (proj2 (Z.eqb_neq (E * 2 ^ mb + m) 0)) by nia.
  assert (Hu : u8 (swrap 8 (swrap 8 E - bias)) = P).
  { unfold bias. rewrite HEx, Eeb. assert (HPc : exists j, 1 <= j <= 7 /\ P = 2 ^ j) by (exists (eb - 1); split; [lia|done]). destruct HPc as (j & Hj & ->).
    assert (Hj' : j = 1 \/ j = 2 \/ j = 3 \/ j = 4 \/ j = 5 \/ j = 6 \/ j = 7) by lia. by repeat destruct Hj' as [-> | Hj']; subst; vm_compute. }
  rewrite Hu, Z.eqb_refl, Hm0. done.
Qed.

(** Below the normal numbers; the exponent wraps in 8 bits. *)
Lemma unpack_subnormal :
  E = 0 -> 0 < m ->
  HiF8FromIeeeBits eb mb bits = from_parts mb (s * 128) (swrap 8 (1 - bias - (mb - Z.log2 m))) (m * 2 ^ (mb - Z.log2 m) - 2 ^ mb) /\
  0 <= m * 2 ^ (mb - Z.log2 m) - 2 ^ mb < 2 ^ mb /\ 0 <= Z.log2 m < mb.
Proof using Heb Hmb Hsum Hs HE Hm.
  intros HE0 Hm0. destruct unpack_sizes as (Eeb & HP & Ep & Hpm & Hpn).
  pose proof (Z.log2_spec m Hm0) as Hl. unfold Z.succ in Hl. pose proof (Z.log2_nonneg m) as Hl0.
  assert (Hl1 : Z.log2 m < mb) by (apply Z.log2_lt_pow2; lia).
  assert (El : 2 ^ mb = 2 ^ Z.log2 m * 2 ^ (mb - Z.log2 m)) by (rewrite <- Z.pow_add_r by lia; f_equal; lia).
  assert (Hd : 0 < 2 ^ (mb - Z.log2 m)) by (apply Z.pow_pos_nonneg; lia). rewrite Z.pow_add_r in Hl by lia. change (2 ^ 1) with 2 in Hl.
  assert (Hr : 0 <= m * 2 ^ (mb - Z.log2 m) - 2 ^ mb < 2 ^ mb) by nia. split; [|lia].
  unfold HiF8FromIeeeBits. rewrite unpack_head. cbv zeta. rewrite unpack_exp by lia. rewrite (proj2 (Z.eqb_neq (E * 2 ^ mb + m) 0)) by nia.
  assert (Hu : u8 (E - bias) <> P).
  { unfold u8, uwrap, bias. change (2 ^ 8) with 256. replace ((E - (P - 1)) mod 256) with (E - (P - 1) + 256) by (apply (Z.mod_unique_pos _ _ (-1)); lia). lia. }
  rewrite (proj2 (Z.eqb_neq _ _) Hu), (proj2 (Z.eqb_eq (E - bias) (- bias))), (proj2 (Z.eqb_neq m 0)) by lia. cbn [andb negb].
  assert (Esh : u8 (mb - (32 - clz m) + 1) = mb - Z.log2 m) by (unfold clz, u8; rewrite uwrap_small; lia). rewrite Esh.
  assert (Em : Extract32 (shl 32 m (mb - Z.log2 m)) mb 0 = m * 2 ^ (mb - Z.log2 m) - 2 ^ mb).
  { unfold shl. rewrite shiftl_mul, uwrap_small, Extract32_eq, Z.pow_0_r, Z.div_1_r by lia. symmetry. apply (Z.mod_unique_pos _ _ 1); lia. }
  rewrite Em. replace (- bias + 1 - (mb - Z.log2 m)) with (1 - bias - (mb - Z.log2 m)) by lia. done.
Qed.
End unpack.

(** ** The two formats *)

Lemma f32_fields f : 0 <= f < 2 ^ 32 ->
  f = (f32_sign f * 2 ^ 8 + f32_exp f) * 2 ^ 23 + f32_man f /\ 0 <= f32_sign f < 2 /\ 0 <= f32_exp f < 2 ^ 8 /\ 0 <= f32_man f < 2 ^ 23.
Proof.
  intros Hf. unfold f32_sign, f32_exp, f32_man. pose proof (Z.div_mod f (2 ^ 23) ltac:(lia)). pose proof (Z.mod_pos_bound f (2 ^ 23) ltac:(lia)).
  pose proof (Z.div_mod (f / 2 ^ 23) (2 ^ 8) ltac:(lia)). pose proof (Z.mod_pos_bound (f / 2 ^ 23) (2 ^ 8) ltac:(lia)).
  replace (f / 2 ^ 31) with (f / 2 ^ 23 / 2 ^ 8) by (rewrite Z.div_div by lia; done). rewrite (Z.mod_small (_ / _ / _) 2) by lia. lia.
Qed.

Lemma fp32_encoded f :
  0 <= f < 2 ^ 32 -> f32_mag f <= f32_mag 0x7F800000 -> f32_mag f = 0 \/ 2 ^ 21 <= f32_mag f ->
  exists r, BitsFromFp32 f = Ok r /\ encoded (f32_sign f) 127 (f32_mag f) r.
Proof.
  intros Hf. destruct (f32_fields f Hf) as (Ef & Hs & HE & Hm). 
  assert (EB : BitsFromFp32 f = HiF8FromIeeeBits 8 23 ((f32_sign f * 2 ^ 8 + f32_exp f) * 2 ^ 23 + f32_man f)) by (by rewrite <- Ef).
  rewrite EB. change (f32_mag f) with (if f32_exp f =? 0 then f32_man f else (2 ^ 23 + f32_man f) * 2 ^ (f32_exp f - 1)).
  set (s := f32_sign f) in *. set (E := f32_exp f) in *. set (m := f32_man f) in *. clearbody s E m. clear EB Ef Hf f.
  change (f32_mag 0x7F800000) with (2 ^ 23 * 2 ^ 254). intros Hinf Hsub. destruct (Z.eqb_spec E 0) as [->|HE0].
  - destruct (decide (m = 0)) as [->|Hm0].
    { rewrite unpack_zero by lia. exists 0. split; [done|]. apply encoded_zero; lia. }
    destruct (unpack_subnormal 8 23 ltac:(lia) ltac:(lia) ltac:(lia) s 0 m Hs ltac:(lia) Hm eq_refl ltac:(lia)) as (-> & _ & Hl).
    assert (Hl' : 21 <= Z.log2 m) by (apply Z.log2_le_pow2; lia). exists 0. split; [|apply encoded_zero; lia]. unfold from_parts.
    assert (Z.log2 m = 21 \/ Z.log2 m = 22) as [-> | ->] by lia; done.
  - destruct (decide (E = 255)) as [->|HE1].
    + change (2 ^ (255 - 1)) with (2 ^ 254) in Hinf. assert (m = 0) as -> by lia. rewrite unpack_inf by lia. eexists. split; [done|]. rewrite sign_lor by lia.
      apply encoded_large; [lia|]. change (255 - 1) with 254. lia.
    + rewrite unpack_normal by lia. change (2 ^ (8 - 1) - 1) with 127.
      apply (from_parts_encoded 23 s 127 0 (E - 127) m); try lia. rewrite Z.pow_0_r, Z.mul_1_r. do 2 f_equal. lia.
Qed.

Lemma fp16_encoded v :
  half v -> Z.abs (signed v) <= signed 0x7C00 ->
  exists r, BitsFromFp16 v = Ok r /\ encoded (Fp16ExtracSign v) 2 (Z.abs (signed v)) r.
Proof.
  intros Hv. destruct (half_fields v Hv) as (s & E & m & Hs & HE & Hm & Ev). destruct (extract_fields s E m Hs HE Hm) as (Es & _).
  assert (Ea : Z.abs (signed v) = if E =? 0 then m else (1024 + m) * 2 ^ (E - 1)).
  { destruct (half_parts v Hv) as (s' & e' & m' & H). pose proof (ih_pattern _ _ _ _ H). pose proof (ih_sign _ _ _ _ H). pose proof (ih_man _ _ _ _ H). pose proof (ih_exp _ _ _ _ H). pose proof (ih_norm _ _ _ _ H).
    rewrite (half_abs _ _ _ _ H). destruct (Z.eqb_spec E 0) as [->|].
    - assert (e' = 1 /\ m' = m) as [-> ->] by lia. simpl. lia.
    - assert (e' = E /\ m' = 1024 + m) as [-> ->] by lia. done. }
  rewrite Ea. rewrite Ev, Es. change (signed 0x7C00) with (1024 * 2 ^ 30).
  unfold BitsFromFp16. change kIeeeFp16ExpBits with 5. change kIeeeFp16ManBits with 10.
  replace (s * 32768 + E * 1024 + m) with ((s * 2 ^ 5 + E) * 2 ^ 10 + m) by lia. intros Hinf. destruct (Z.eqb_spec E 0) as [->|HE0].
  - destruct (decide (m = 0)) as [->|Hm0].
    { rewrite unpack_zero by lia. exists 0. split; [done|]. apply encoded_zero; lia. }
    destruct (unpack_subnormal 5 10 ltac:(lia) ltac:(lia) ltac:(lia) s 0 m Hs ltac:(lia) ltac:(lia) eq_refl ltac:(lia)) as (-> & Hr & Hl).
    change (2 ^ (5 - 1) - 1) with 15. replace (swrap 8 (1 - 15 - (10 - Z.log2 m))) with (Z.log2 m - 24) by (unfold swrap; rewrite Z.mod_small; lia).
    apply (from_parts_encoded 10 s 2 10 (Z.log2 m - 24) _ m); try lia.
    replace (2 ^ 10 + (m * 2 ^ (10 - Z.log2 m) - 2 ^ 10)) with (m * 2 ^ (10 - Z.log2 m)) by lia. rewrite <- Z.mul_assoc, <- Z.pow_add_r by lia. do 2 f_equal. lia.
  - destruct (decide (E = 31)) as [->|HE1].
    + assert (m = 0) as -> by lia. rewrite unpack_inf by lia. eexists. split; [done|]. rewrite sign_lor by lia. apply encoded_large; lia.
    + rewrite unpack_normal by lia. change (2 ^ (5 - 1) - 1) with 15.
      apply (from_parts_encoded 10 s 2 0 (E - 15) m); try lia. rewrite Z.pow_0_r, Z.mul_1_r. do 2 f_equal. lia.
Qed.

(** ** Theorems *)

(** C28: converting a [float] that is zero or at least 2^-128 in magnitude and no
    NaN, and any half that is no NaN, returns the [HiF8] nearest to it, the
    larger of two equally near, with its sign unless it is zero; from 40960 on
    that is infinity.  What becomes of the smaller subnormal floats is
    [hif8_tiny_floats_are_infinite]. *)
Theorem hif8_encode_nearest f v :
  0 <= f < 2 ^ 32 -> f32_mag f <= f32_mag 0x7F800000 -> f32_mag f = 0 \/ 2 ^ 21 <= f32_mag f ->
  half v -> Z.abs (signed v) <= signed 0x7C00 ->
  (exists r, BitsFromFp32 f = Ok r /\ encoded (f32_sign f) 127 (f32_mag f) r) /\
  (exists r, BitsFromFp16 v = Ok r /\ encoded (Fp16ExtracSign v) 2 (Z.abs (signed v)) r).
Proof. intros Hf Hinf Hsub Hv Hvinf. split; [by apply fp32_encoded|by apply fp16_encoded]. Qed.

(** The remaining subnormal [float]s, all below 2^-128, become infinities:
    the exponent wraps in the 8 bits it is kept in. *)
Theorem hif8_tiny_floats_are_infinite f :
  0 <= f < 2 ^ 32 -> 0 < f32_mag f < 2 ^ 21 -> BitsFromFp32 f = Ok (f32_sign f * 128 + 0x6F).
Proof.
  intros Hf. destruct (f32_fields f Hf) as (Ef & Hs & HE & Hm).
  assert (EB : BitsFromFp32 f = HiF8FromIeeeBits 8 23 ((f32_sign f * 2 ^ 8 + f32_exp f) * 2 ^ 23 + f32_man f)) by (by rewrite <- Ef).
  rewrite EB. change (f32_mag f) with (if f32_exp f =? 0 then f32_man f else (2 ^ 23 + f32_man f) * 2 ^ (f32_exp f - 1)).
  set (s := f32_sign f) in *. set (E := f32_exp f) in *. set (m := f32_man f) in *. clearbody s E m. clear EB Ef Hf f.
  destruct (Z.eqb_spec E 0) as [->|HE0]; intros Htiny; [|pose proof (Z.pow_pos_nonneg 2 (E - 1)); nia].
  destruct (unpack_subnormal 8 23 ltac:(lia) ltac:(lia) ltac:(lia) s 0 m Hs ltac:(lia) Hm eq_refl ltac:(lia)) as (-> & _ & Hl).
  assert (Hl' : Z.log2 m < 21) by (apply Z.log2_lt_pow2; lia). change (2 ^ (8 - 1) - 1) with 127.
  replace (swrap 8 (1 - 127 - (23 - Z.log2 m))) with (107 + Z.log2 m).
  2: { unfold swrap. change (2 ^ (8 - 1)) with 128. change (2 ^ 8) with 256. replace ((1 - 127 - (23 - Z.log2 m) + 128) mod 256) with (235 + Z.log2 m) by (apply (Z.mod_unique_pos _ _ (-1)); lia). lia. }
  unfold from_parts. rewrite (proj2 (Z.ltb_ge _ _)), (proj2 (Z.ltb_lt _ _)) by lia. by rewrite sign_lor.
Qed.

(** Each of the 256 patterns, infinities and NaN included, is what its
    conversion to [float], and to a half, converts back to. *)
Theorem hif8_roundtrip u :
  0 <= u < 256 -> (f ← to_float u; BitsFromFp32 f) = Ok u /\ (h ← to_fp16 u; BitsFromFp16 h) = Ok u.
Proof.
  intros Hu. assert (H : forallb (fun u => bool_decide ((f ← to_float u; BitsFromFp32 f) = Ok u) && bool_decide ((h ← to_fp16 u; BitsFromFp16 h) = Ok u))
    (seqZ 0 256) = true) by (by vm_compute).
  rewrite forallb_forall in H. specialize (H u). rewrite <- list_elem_of_In, elem_of_seqZ in H. specialize (H ltac:(lia)).
  apply andb_true_iff in H as [H1 H2]. by apply bool_decide_eq_true in H1, H2.
Qed.
