(* ===== verification/NumMathRuns.v ===== *)
(** * NumMathRuns: checked arithmetic and HiF8, evaluated

    Applications of the theorems at concrete numbers, and where the tests and
    conversions go wrong. *)

From S2P Require Import Prelude NumBits NumFp16 NumFp16Value NumFp16Convert NumFp16Arith NumMath NumMathCorrect NumHif8 NumHif8Correct.

Module RunsMath.

(** 65504 + 1 is rounded down to 65504, 65504 + 16 is too large. *)
Lemma fp16_checks_exact_run :
  (CheckFp16AddOverflow 0x7BFF 0x4C00 = verdict (Z.abs (signed 0x7BFF + signed 0x4C00) <? overflow_bound 0) /\
   CheckFp16SubOverflow 0x7BFF 0x4C00 = verdict (Z.abs (signed 0x7BFF - signed 0x4C00) <? overflow_bound 0) /\
   CheckFp16MulOverflow 0x7BFF 0x4C00 = verdict (Z.abs (signed 0x7BFF) * Z.abs (signed 0x4C00) <? overflow_bound 24)) /\
  CheckFp16AddOverflow 0x7BFF 0x4C00 = Err FAILED /\ CheckFp16AddOverflow 0x7BFF 0x3C00 = Ok tt.
Proof. split; [apply fp16_checks_exact; unfold half; lia|split; by vm_compute]. Defined.

(** 1.0f and 1.0; 1.125 is kept, 1.0625 lies between 1 and 1.125. *)
Lemma hif8_encode_nearest_run :
  ((exists r, BitsFromFp32 0x3F800000 = Ok r /\ encoded (f32_sign 0x3F800000) 127 (f32_mag 0x3F800000) r) /\
   (exists r, BitsFromFp16 0x3C40 = Ok r /\ encoded (Fp16ExtracSign 0x3C40) 2 (Z.abs (signed 0x3C40)) r)) /\
  BitsFromFp32 0x3F800000 = Ok 8 /\ BitsFromFp16 0x3C40 = Ok 9.
Proof.
  split; [|split; by vm_compute].
  apply hif8_encode_nearest; [lia|by vm_compute|right; by vm_compute|unfold half; lia|by vm_compute].
Defined.

(** 2^-129 *)
Lemma hif8_tiny_floats_are_infinite_run : BitsFromFp32 0x00100000 = Ok (f32_sign 0x00100000 * 128 + 0x6F).
Proof. apply hif8_tiny_floats_are_infinite; [lia|split; by vm_compute]. Defined.

Lemma hif8_roundtrip_run : (f ← to_float 0x80; BitsFromFp32 f) = Ok 0x80 /\ (h ← to_fp16 0x80; BitsFromFp16 h) = Ok 0x80.
Proof. apply (hif8_roundtrip 0x80). lia. Defined.

End RunsMath.

(** ** At the edges *)

Module RunsMathEdges.

(** The macro for mixed products looks at the low half of its first operand. *)
Example mixed_macro_misses_overflow :
  FMK_INT64_UINT32_MULCHECK (2 ^ 62) 8 = Ok tt /\ within INT64_MIN INT64_MAX (2 ^ 62 * 8) = false /\ CheckInt64Uint32MulOverflow (2 ^ 62) 8 = Err FAILED.
Proof. split_and!; by vm_compute. Qed.

(** And it refuses negative numbers whose product fits. *)
Example mixed_macro_refuses_negative : FMK_INT64_UINT32_MULCHECK (-1) (2 ^ 31 + 1) = Err INTERNAL_ERROR /\ within INT64_MIN INT64_MAX (-1 * (2 ^ 31 + 1)) = true.
Proof. split; by vm_compute. Qed.

(** Rounding up the largest sizes wraps to zero. *)
Example align_wraps : MemSizeAlign (2 ^ 64 - 1) 32 = 0.
Proof. by vm_compute. Qed.

End RunsMathEdges.
