(* ===== verification/ExecReady.v ===== *)
(** * ExecReady: the ready queues of the executors

    [runtime/v2/core/ring_queue_impl.h] and [priority_queue_impl.h] with their
    constructors in [builder/executor_builder.c].  Both are arrays of pointers to
    nodes behind a header; a node is known by its number.  An access outside the
    array, or through a slot nothing was stored in, is a [Fault].  [ReadyQueue]
    is what the executors use of either, [ReadyLaws] what they rely on. *)

From S2P Require Import Prelude.

#[local] Open Scope nat_scope.

Definition kStatusSuccess : Z := 0.
Definition kStatusFailed : Z := 0xFFFFFFFF.
Definition kStatusQueueFull : Z := 1.

(** ** Arrays of pointers *)

Abbreviation cells := (list (option nat)).

Definition load (d : cells) (i : nat) : outcome (option nat) := at_ d i.
Definition store (d : cells) (i : nat) (v : option nat) : outcome cells := if decide (i < length d) then Ok (<[i := v]> d) else Fault.
Definition deref (p : option nat) : outcome nat := match p with Some n => Ok n | None => Fault end.

(** ** The ring *)

Record RingQueue := MkRing { r_cap : nat; r_front : nat; r_back : nat; r_data : cells }.

Module Ring.

Definition Create (cap : nat) : RingQueue := let cap := cap + 1 in MkRing cap 0 0 (replicate cap None).

Definition IsQueueEmpty (que : RingQueue) : bool := bool_decide (r_front que = r_back que).

Definition PopQueue (que : RingQueue) : outcome (option nat * RingQueue) :=
  if IsQueueEmpty que then Ok (None, que) else
  ret ← load (r_data que) (r_front que);
  let front := r_front que + 1 in
  let front := if bool_decide (front = r_cap que) then 0 else front in
  Ok (ret, MkRing (r_cap que) front (r_back que) (r_data que)).

Definition PushQueue (element : nat) (que : RingQueue) : outcome (Z * RingQueue) :=
  let next_back := r_back que + 1 in
  let next_back := if bool_decide (next_back = r_cap que) then 0 else next_back in
  if bool_decide (next_back = r_front que) then Ok (kStatusQueueFull, que) else
  data ← store (r_data que) (r_back que) (Some element);
  Ok (kStatusSuccess, MkRing (r_cap que) (r_front que) next_back data).

End Ring.

(** ** The heap *)

(** Slot 0 is not used. *)
Record PriorityQueue := MkHeap { h_cap : nat; h_size : nat; h_data : cells }.

Module Heap.
Section heap.
(** The field [priority] at the head of a node. *)
Context (priority : nat -> Z).

Definition Create (capacity : nat) : PriorityQueue := MkHeap capacity 0 (replicate (capacity + 1) None).

Definition IsQueueEmpty (que : PriorityQueue) : bool := bool_decide (h_size que = 0).

Definition Swap (d : cells) (pos1 pos2 : nat) : outcome cells :=
  tmp ← load d pos1;
  v ← load d pos2;
  d ← store d pos1 v;
  store d pos2 tmp.

(** [que->data[pos]->priority] *)
Definition priority_at (d : cells) (pos : nat) : outcome Z := p ← load d pos; n ← deref p; Ok (priority n).

Fixpoint sift_down (fuel size element_pos : nat) (d : cells) : outcome cells :=
  match fuel with
  | O => Fault
  | S fuel =>
      let child_pos := element_pos * 2 in
      if decide (child_pos <= size) then
        child_pos ← (if decide (child_pos < size) then
                       right ← priority_at d (child_pos + 1);
                       left ← priority_at d child_pos;
                       Ok (if (right <? left)%Z then child_pos + 1 else child_pos)
                     else Ok child_pos);
        e ← priority_at d element_pos;
        c ← priority_at d child_pos;
        if (e <=? c)%Z then Ok d else
        d ← Swap d element_pos child_pos;
        sift_down fuel size child_pos d
      else Ok d
  end.

Definition PopQueue (que : PriorityQueue) : outcome (option nat * PriorityQueue) :=
  if IsQueueEmpty que then Ok (None, que) else
  result ← load (h_data que) 1;
  last ← load (h_data que) (h_size que);
  d ← store (h_data que) 1 last;
  let size := h_size que - 1 in
  d ← sift_down (S size) size 1 d;
  Ok (result, MkHeap (h_cap que) size d).

Fixpoint sift_up (fuel element_pos : nat) (d : cells) : outcome cells :=
  match fuel with
  | O => Fault
  | S fuel =>
      if decide (1 < element_pos) then
        let parent_pos := element_pos / 2 in
        p ← priority_at d parent_pos;
        e ← priority_at d element_pos;
        if (p <=? e)%Z then Ok d else
        d ← Swap d element_pos parent_pos;
        sift_up fuel parent_pos d
      else Ok d
  end.

Definition PushQueue (element : nat) (que : PriorityQueue) : outcome (Z * PriorityQueue) :=
  if decide (h_cap que <= h_size que) then Ok (kStatusQueueFull, que) else
  let element_pos := h_size que + 1 in
  d ← store (h_data que) element_pos (Some element);
  d ← sift_up (S element_pos) element_pos d;
  Ok (kStatusSuccess, MkHeap (h_cap que) element_pos d).

End heap.
End Heap.

(** ** What the executors use *)

Class ReadyQueue (Q : Type) := {
  pop : Q -> outcome (option nat * Q);
  push : nat -> Q -> outcome (Z * Q);
  slots : Q -> nat;
}.

#[export] Instance ring_ready : ReadyQueue RingQueue :=
  {| pop := Ring.PopQueue; push := Ring.PushQueue; slots := r_cap |}.
Definition heap_ready (priority : nat -> Z) : ReadyQueue PriorityQueue :=
  {| pop := Heap.PopQueue priority; push := Heap.PushQueue priority; slots := h_cap |}.

(** [holds q l]: the queue has the nodes [l], in an order of its own; [picks x
    l]: [x] is one that may come first; [room] how many it can take. *)
Class ReadyLaws (Q : Type) `{ReadyQueue Q} := {
  holds : Q -> list nat -> Prop;
  picks : nat -> list nat -> Prop;
  room : Q -> nat;
  pop_nil q : holds q [] -> pop q = Ok (None, q);
  pop_cons q l : holds q l -> l <> [] ->
    exists x l' q', pop q = Ok (Some x, q') /\ l ≡ₚ x :: l' /\ holds q' l' /\ picks x l /\ room q' = room q /\ slots q' = slots q;
  push_room q l x : holds q l -> length l < room q ->
    exists l' q', push x q = Ok (kStatusSuccess, q') /\ l' ≡ₚ x :: l /\ holds q' l' /\ room q' = room q /\ slots q' = slots q;
  holds_room q l : holds q l -> length l <= room q;
  room_slots q : room q <= slots q;
}.

(** ** The ring is a queue *)

(** The nodes [l] lie from [front] on, around the end. *)
Record ring_holds (q : RingQueue) (l : list nat) : Prop := {
  rh_len : length (r_data q) = r_cap q;
  rh_front : r_front q < r_cap q;
  rh_room : length l < r_cap q;
  rh_back : r_back q = (r_front q + length l) mod r_cap q;
  rh_data i x : l !! i = Some x -> r_data q !! ((r_front q + i) mod r_cap q) = Some (Some x);
}.

Lemma mod_next a c : a < c -> (if bool_decide (a + 1 = c) then 0 else a + 1) = (a + 1) mod c.
Proof. intros Ha. case_bool_decide as E; [subst; by rewrite Nat.Div0.mod_same|rewrite Nat.mod_small; lia]. Qed.

Lemma mod_neq a i j c : i < c -> j < c -> i <> j -> (a + i) mod c <> (a + j) mod c.
Proof.
  intros Hi Hj Hne E. pose proof (Nat.div_mod_eq (a + i) c). pose proof (Nat.div_mod_eq (a + j) c). rewrite E in *.
  assert ((a + i) / c = (a + j) / c \/ (a + i) / c < (a + j) / c \/ (a + j) / c < (a + i) / c) as [?|[?|?]] by lia; nia.
Qed.

Lemma ring_create cap : ring_holds (Ring.Create cap) [].
Proof. split; simpl; rewrite ?length_replicate; try lia; [rewrite Nat.mod_small; lia|done]. Qed.

Lemma ring_pop_nil q : ring_holds q [] -> Ring.PopQueue q = Ok (None, q).
Proof.
  intros [_ Hf _ Hb _]. unfold Ring.PopQueue, Ring.IsQueueEmpty. simpl in Hb. rewrite Nat.add_0_r, Nat.mod_small in Hb by done.
  by rewrite bool_decide_eq_true_2.
Qed.

Lemma ring_pop q x l : ring_holds q (x :: l) -> exists q', Ring.PopQueue q = Ok (Some x, q') /\ ring_holds q' l /\ r_cap q' = r_cap q.
Proof.
  intros [Hl Hf Hr Hb Hd]. unfold Ring.PopQueue, Ring.IsQueueEmpty. simpl in Hr, Hb.
  assert (Hne : r_front q <> r_back q).
  { rewrite Hb. pose proof (mod_neq (r_front q) 0 (S (length l)) (r_cap q)) as Hn. rewrite Nat.add_0_r, (Nat.mod_small (r_front q)) in Hn by done. lia. }
  rewrite bool_decide_eq_false_2 by done. pose proof (Hd 0 x eq_refl) as H0. rewrite Nat.add_0_r, Nat.mod_small in H0 by done.
  unfold load, at_. rewrite H0. cbn [mbind outcome_bind]. rewrite mod_next by done. eexists. split; [done|]. split; [|done]. split; simpl; try lia.
  - apply Nat.mod_upper_bound. lia.
  - rewrite Nat.Div0.add_mod_idemp_l, Hb. f_equal. lia.
  - intros i y Hi. rewrite Nat.Div0.add_mod_idemp_l. rewrite <- (Hd (S i) y Hi). do 2 f_equal. lia.
Qed.

Lemma ring_push q l x :
  ring_holds q l -> length l + 1 < r_cap q -> exists q', Ring.PushQueue x q = Ok (kStatusSuccess, q') /\ ring_holds q' (l ++ [x]) /\ r_cap q' = r_cap q.
Proof.
  intros [Hl Hf Hr Hb Hd] Hlt. unfold Ring.PushQueue.
  assert (Hbl : r_back q < r_cap q) by (rewrite Hb; apply Nat.mod_upper_bound; lia). rewrite mod_next by done.
  assert (Enext : (r_back q + 1) mod r_cap q = (r_front q + (length l + 1)) mod r_cap q) by (rewrite Hb, Nat.Div0.add_mod_idemp_l; f_equal; lia).
  assert (Hne : (r_back q + 1) mod r_cap q <> r_front q).
  { rewrite Enext. pose proof (mod_neq (r_front q) (length l + 1) 0 (r_cap q)) as Hn. rewrite Nat.add_0_r, (Nat.mod_small (r_front q)) in Hn by done. lia. }
  rewrite bool_decide_eq_false_2 by done. unfold store. rewrite decide_True by lia. cbn [mbind outcome_bind]. eexists. split; [done|]. split; [|done].
  split; simpl; rewrite ?length_insert, ?length_app; simpl; try done; try lia.
  intros i y Hi. destruct (decide (i < length l)) as [Hil|].
  - rewrite lookup_app_l in Hi by done. rewrite list_lookup_insert_ne; [by apply Hd|]. rewrite Hb. apply mod_neq; lia.
  - rewrite lookup_app_r in Hi by lia. assert (i = length l) as ->. { apply lookup_lt_Some in Hi. simpl in Hi. lia. }
    rewrite Nat.sub_diag in Hi. injection Hi as <-. rewrite <- Hb. by rewrite list_lookup_insert_eq by lia.
Qed.

#[export] Program Instance ring_laws : ReadyLaws RingQueue :=
  {| holds := ring_holds; picks := fun x l => head l = Some x; room := fun q => r_cap q - 1 |}.
Next Obligation. apply ring_pop_nil. Qed.
Next Obligation.
  intros q [|x l] H Hne; [done|]. destruct (ring_pop q x l H) as (q' & E & Hq & Hc). exists x, l, q'. split_and!; try done. by rewrite Hc.
Qed.
Next Obligation.
  intros q l x H Hlt. simpl in *. destruct (ring_push q l x H ltac:(lia)) as (q' & E & Hq & Hc). exists (l ++ [x]), q'. split_and!; try done; [|by rewrite Hc].
  by rewrite Permutation_app_comm.
Qed.
Next Obligation. intros q l H. pose proof (rh_room _ _ H). simpl. lia. Qed.
Next Obligation. intros q. simpl. lia. Qed.

(** ** The heap is a priority queue *)

(** Storing at one place swaps one element of the multiset. *)
Lemma insert_swap {A} (l : list A) i a b : l !! i = Some a -> a :: <[i := b]> l ≡ₚ b :: l.
Proof.
  revert i. induction l as [|c l IH]; intros [|i] Hi; simplify_eq/=; [by constructor|].
  rewrite (Permutation_swap c a). rewrite IH by done. apply Permutation_swap.
Qed.

Lemma swap_perm {A} (l : list A) i j a b :
  l !! i = Some a -> l !! j = Some b -> <[j := a]> (<[i := b]> l) ≡ₚ l.
Proof.
  intros Hi Hj. destruct (decide (i = j)) as [->|Hne].
  - rewrite Hi in Hj. injection Hj as <-. by rewrite list_insert_insert_eq, list_insert_id.
  - apply (Permutation_cons_inv (a := b)). rewrite (insert_swap _ j b a) by (by rewrite list_lookup_insert_ne). by apply insert_swap.
Qed.

Section heap_laws.
Context (priority : nat -> Z).
Implicit Types (d : cells) (p n : nat).

(** The slots in use, and the priority in a slot. *)
Definition used (n : nat) d : cells := take n (drop 1 d).
Definition key d p : Z := match d !! p with Some (Some x) => priority x | _ => 0%Z end.
Definition filled (n : nat) d : Prop := n < length d /\ forall p, 1 <= p <= n -> exists x, d !! p = Some (Some x).

Lemma used_lookup n d p : 1 <= p <= n -> used n d !! (p - 1) = d !! p.
Proof. intros Hp. unfold used. rewrite lookup_take_lt by lia. rewrite lookup_drop. f_equal. lia. Qed.

Lemma used_insert n d p v : 1 <= p <= n -> used n (<[p := v]> d) = <[p - 1 := v]> (used n d).
Proof.
  intros Hp. unfold used. destruct p as [|p]; [lia|]. destruct d as [|x d]; [simpl; by rewrite !take_nil|]. simpl. rewrite !drop_0, Nat.sub_0_r. apply take_insert_lt. lia.
Qed.

Lemma priority_at_ok n d p : filled n d -> 1 <= p <= n -> Heap.priority_at priority d p = Ok (key d p).
Proof.
  intros [_ Hf] Hp. destruct (Hf p Hp) as [x Hx]. unfold Heap.priority_at, key, load, at_. by rewrite Hx.
Qed.

(** A swap moves two priorities. *)
Lemma swap_ok n d p (q : nat) :
  filled n d -> 1 <= p <= n -> 1 <= q <= n -> p <> q ->
  exists d', Heap.Swap d p q = Ok d' /\ length d' = length d /\ filled n d' /\ used n d' ≡ₚ used n d /\
    key d' p = key d q /\ key d' q = key d p /\ (forall i, i <> p -> i <> q -> key d' i = key d i).
Proof.
  intros [Hlen Hf] Hp Hq Hne. destruct (Hf p Hp) as [x Hx], (Hf q Hq) as [y Hy].
  unfold Heap.Swap, load, store, at_. rewrite Hx, Hy. cbn [mbind outcome_bind]. rewrite decide_True by lia. cbn [mbind outcome_bind].
  rewrite length_insert, decide_True by lia. eexists. split; [done|]. rewrite !length_insert. split; [done|].
  assert (Hl : forall i, <[q := Some x]> (<[p := Some y]> d) !! i = if decide (i = q) then Some (Some x) else if decide (i = p) then Some (Some y) else d !! i).
  { intros i. destruct (decide (i = q)) as [->|]; [by rewrite list_lookup_insert_eq by (rewrite length_insert; lia)|].
    rewrite list_lookup_insert_ne by done. destruct (decide (i = p)) as [->|]; [by rewrite list_lookup_insert_eq by lia|by rewrite list_lookup_insert_ne]. }
  split_and!.
  - split; [rewrite !length_insert; lia|]. intros i Hi. rewrite Hl. repeat case_decide; eauto.
  - rewrite !used_insert by lia. apply swap_perm; by rewrite used_lookup.
  - unfold key. rewrite Hl, decide_False, decide_True by done. by rewrite Hy.
  - unfold key. rewrite Hl, decide_True by done. by rewrite Hx.
  - intros i Hi1 Hi2. unfold key. by rewrite Hl, !decide_False by done.
Qed.

(** In order, but for the slot [p] against its children ([below]) or its parent
    ([above]). *)
Definition heap n d : Prop := forall i, 2 <= i <= n -> (key d (i / 2) <= key d i)%Z.
Definition below p n d : Prop :=
  (forall i, 2 <= i <= n -> i / 2 <> p -> (key d (i / 2) <= key d i)%Z) /\
  (forall i, 2 <= i <= n -> i / 2 = p -> 2 <= p -> (key d (p / 2) <= key d i)%Z).
Definition above p n d : Prop :=
  (forall i, 2 <= i <= n -> i <> p -> (key d (i / 2) <= key d i)%Z) /\
  (forall i, 2 <= i <= n -> i / 2 = p -> 2 <= p -> (key d (p / 2) <= key d i)%Z).

Lemma half_lt i : 2 <= i -> 1 <= i / 2 < i.
Proof. intros Hi. split; [apply (Nat.div_le_lower_bound i 2 1); lia|apply Nat.div_lt; lia]. Qed.

Lemma half_children i p : 1 <= p -> 2 <= i -> i / 2 = p <-> i = p * 2 \/ i = p * 2 + 1.
Proof. intros Hp Hi. pose proof (Nat.div_mod_eq i 2). pose proof (Nat.mod_upper_bound i 2). split; intros; [lia|]. symmetry. apply (Nat.div_unique i 2 p (i - p * 2)); lia. Qed.

(** The smaller child. *)
Lemma child_ok n d p :
  filled n d -> 1 <= p -> p * 2 <= n ->
  exists c, (if decide (p * 2 < n) then
               right ← Heap.priority_at priority d (p * 2 + 1);
               left ← Heap.priority_at priority d (p * 2);
               Ok (if (right <? left)%Z then p * 2 + 1 else p * 2)
             else Ok (p * 2)) = Ok c /\
    (c = p * 2 \/ c = p * 2 + 1) /\ c <= n /\ forall i, 2 <= i <= n -> i / 2 = p -> (key d c <= key d i)%Z.
Proof.
  intros Hf Hp Hle. destruct (decide (p * 2 < n)) as [Hlt|Hge].
  - rewrite !(priority_at_ok n) by (done || lia). cbn [mbind outcome_bind]. eexists. split; [done|].
    destruct (Z.ltb_spec (key d (p * 2 + 1)) (key d (p * 2))); (split_and!; [lia|lia|]); intros i Hi [-> | ->]%half_children; lia.
  - exists (p * 2). split_and!; [done|lia|lia|]. intros i Hi [-> | ->]%half_children; lia.
Qed.

Lemma sift_down_ok fuel n d p :
  filled n d -> below p n d -> 1 <= p -> n <= p + fuel ->
  exists d', Heap.sift_down priority (S fuel) n p d = Ok d' /\ length d' = length d /\ filled n d' /\ used n d' ≡ₚ used n d /\ heap n d'.
Proof.
  revert d p. induction fuel as [|fuel IH]; intros d p Hf Hb Hp Hfuel.
  - cbn [Heap.sift_down]. rewrite decide_False by lia. exists d. split_and!; try done. intros i Hi. apply (proj1 Hb); [done|].
    intros E. apply half_children in E; lia.
  - cbn [Heap.sift_down]. destruct (decide (p * 2 <= n)) as [Hle|Hgt].
    2: { exists d. split_and!; try done. intros i Hi. apply (proj1 Hb); [done|]. intros E. apply half_children in E; lia. }
    destruct (child_ok n d p Hf Hp Hle) as (c & -> & Hc & Hcn & Hmin). cbn [mbind outcome_bind].
    assert (Ecp : c / 2 = p) by (apply half_children; lia).
    rewrite !(priority_at_ok n) by (done || lia). cbn [mbind outcome_bind]. destruct (Z.leb_spec (key d p) (key d c)) as [Hok|Hbad].
    { exists d. split_and!; try done. intros i Hi. destruct (decide (i / 2 = p)) as [E|E]; [rewrite E; specialize (Hmin i Hi E); lia|by apply (proj1 Hb)]. }
    destruct (swap_ok n d p c Hf ltac:(lia) ltac:(lia) ltac:(lia)) as (d1 & -> & Hlen & Hf1 & Hu & Kp & Kc & Ko). cbn [mbind outcome_bind].
    destruct (IH d1 c Hf1) as (d' & E' & Hl' & Hf' & Hu' & Hh'); [|lia|lia|].
    2: { change (match fuel with 0 => Fault | S _ => Fault end) with (@Fault cells) in *. exists d'. split; [exact E'|]. split_and!; try done; [lia|by rewrite Hu']. }
    split.
    + intros i Hi Hne. pose proof (half_lt i ltac:(lia)) as Hh. destruct (decide (i = c)) as [->|Hic].
      * rewrite Ecp, Kp, Kc. lia.
      * destruct (decide (i / 2 = p)) as [E|E].
        -- rewrite E, Kp, (Ko i) by lia. apply Hmin; [lia|done].
        -- destruct (decide (i = p)) as [->|Hip].
           ++ rewrite Kp, (Ko (p / 2)) by lia. apply (proj2 Hb); lia.
           ++ rewrite (Ko i), (Ko (i / 2)) by lia. by apply (proj1 Hb).
    + intros i Hi E Hc2. pose proof (half_lt i ltac:(lia)) as Hh. rewrite Ecp, Kp. rewrite (Ko i) by lia. rewrite <- E. apply (proj1 Hb); lia.
Qed.

Lemma sift_up_ok fuel n d p :
  filled n d -> above p n d -> 1 <= p <= n -> p <= fuel ->
  exists d', Heap.sift_up priority fuel p d = Ok d' /\ length d' = length d /\ filled n d' /\ used n d' ≡ₚ used n d /\ heap n d'.
Proof.
  revert d p. induction fuel as [|fuel IH]; intros d p Hf Ha Hp Hfuel; [lia|]. cbn [Heap.sift_up].
  destruct (decide (1 < p)) as [Hp1|Hp1].
  2: { exists d. split_and!; try done. intros i Hi. apply (proj1 Ha); lia. }
  pose proof (half_lt p ltac:(lia)) as Hh. rewrite !(priority_at_ok n) by (done || lia). cbn [mbind outcome_bind].
  destruct (Z.leb_spec (key d (p / 2)) (key d p)) as [Hok|Hbad].
  { exists d. split_and!; try done. intros i Hi. destruct (decide (i = p)) as [->|]; [done|by apply (proj1 Ha)]. }
  destruct (swap_ok n d p (p / 2) Hf ltac:(lia) ltac:(lia) ltac:(lia)) as (d1 & -> & Hlen & Hf1 & Hu & Kp & Kq & Ko). cbn [mbind outcome_bind].
  destruct (IH d1 (p / 2) Hf1) as (d' & E' & Hl' & Hf' & Hu' & Hh'); [|lia|lia|].
  2: { exists d'. split; [exact E'|]. split_and!; try done; [lia|by rewrite Hu']. }
  split.
  - intros i Hi Hne. pose proof (half_lt i ltac:(lia)) as Hhi. destruct (decide (i = p)) as [->|Hip].
    + rewrite Kp, Kq. lia.
    + rewrite (Ko i) by done. destruct (decide (i / 2 = p)) as [E|E].
      * rewrite E, Kp. apply (proj2 Ha); lia.
      * destruct (decide (i / 2 = p / 2)) as [E2|E2].
        -- rewrite E2, Kq. pose proof (proj1 Ha i ltac:(lia) Hip) as H. rewrite E2 in H. lia.
        -- rewrite (Ko (i / 2)) by done. by apply (proj1 Ha).
  - intros i Hi E Hp2. pose proof (half_lt (p / 2) ltac:(lia)) as Hhh. pose proof (half_lt i ltac:(lia)) as Hhi.
    rewrite (Ko (p / 2 / 2)) by lia. pose proof (proj1 Ha (p / 2) ltac:(lia) ltac:(lia)) as H1. destruct (decide (i = p)) as [->|Hip].
    + rewrite Kp. lia.
    + rewrite (Ko i) by lia. pose proof (proj1 Ha i ltac:(lia) Hip) as H2. rewrite E in H2. lia.
Qed.

(** The least priority is at the top. *)
Lemma heap_top n d i : heap n d -> 1 <= i <= n -> (key d 1 <= key d i)%Z.
Proof.
  intros Hh. induction i as [i IH] using lt_wf_ind. intros Hi. destruct (decide (i = 1)) as [->|]; [lia|].
  pose proof (half_lt i ltac:(lia)) as Hhi. pose proof (IH (i / 2) ltac:(lia) ltac:(lia)). pose proof (Hh i ltac:(lia)). lia.
Qed.

Record heap_holds (q : PriorityQueue) (l : list nat) : Prop := {
  hh_len : length (h_data q) = h_cap q + 1;
  hh_size : h_size q = length l;
  hh_room : length l <= h_cap q;
  hh_filled : filled (h_size q) (h_data q);
  hh_used : used (h_size q) (h_data q) ≡ₚ Some <$> l;
  hh_heap : heap (h_size q) (h_data q);
}.

Lemma heap_create capacity : heap_holds (Heap.Create capacity) [].
Proof. split; simpl; rewrite ?length_replicate; try lia; try done; [split; [rewrite length_replicate; lia|lia]|intros i Hi; simpl in Hi; lia]. Qed.

Lemma key_insert_ne d p v i : i <> p -> key (<[p := v]> d) i = key d i.
Proof. intros Hne. unfold key. by rewrite list_lookup_insert_ne. Qed.

Lemma used_last n d v : d !! S n = Some v -> used (S n) d = used n d ++ [v].
Proof. intros Hv. unfold used. apply take_S_r. by rewrite lookup_drop. Qed.

Lemma heap_push (q : PriorityQueue) l x :
  heap_holds q l -> length l < h_cap q ->
  exists q', Heap.PushQueue priority x q = Ok (kStatusSuccess, q') /\ heap_holds q' (x :: l) /\ h_cap q' = h_cap q.
Proof.
  intros [Hlen Hsz Hr [_ Hf] Hu Hh] Hlt. unfold Heap.PushQueue, store. rewrite decide_False, decide_True by lia. cbn [mbind outcome_bind].
  set (n := h_size q) in *. set (d := <[n + 1 := Some x]> (h_data q)).
  assert (Hd : d !! S n = Some (Some x)) by (unfold d; rewrite Nat.add_1_r, list_lookup_insert_eq by lia; done).
  assert (Hfd : filled (n + 1) d).
  { split; [unfold d; rewrite length_insert; lia|]. intros p Hp. destruct (decide (p = n + 1)) as [->|]; [exists x; by rewrite Nat.add_1_r|].
    unfold d. rewrite list_lookup_insert_ne by lia. apply Hf. lia. }
  assert (Had : above (n + 1) (n + 1) d).
  { split; intros i Hi Hne; pose proof (half_lt i ltac:(lia)); [|lia]. unfold d. rewrite !key_insert_ne by lia. apply Hh. lia. }
  destruct (sift_up_ok (S (n + 1)) (n + 1) d (n + 1) Hfd Had ltac:(lia) ltac:(lia)) as (d' & -> & Hl' & Hf' & Hu' & Hh'). cbn [mbind outcome_bind].
  eexists. split; [done|]. split; [|done]. split; simpl; try lia; try done.
  - rewrite Hl'. unfold d. rewrite length_insert. lia.
  - rewrite Hu'. rewrite Nat.add_1_r, (used_last _ _ _ Hd). unfold d, used. rewrite Nat.add_1_r. destruct (h_data q) as [|v ds] eqn:Ed; [simpl in Hlen; lia|].
    simpl. rewrite !drop_0. rewrite take_insert_ge by lia. unfold used in Hu. simpl in Hu. rewrite drop_0 in Hu. rewrite Hu. by rewrite Permutation_app_comm.
Qed.

Lemma heap_pop (q : PriorityQueue) l :
  heap_holds q l -> l <> [] ->
  exists x l' q', Heap.PopQueue priority q = Ok (Some x, q') /\ l ≡ₚ x :: l' /\ heap_holds q' l' /\ h_cap q' = h_cap q /\
    forall y, y ∈ l -> (priority x <= priority y)%Z.
Proof.
  intros [Hlen Hsz Hr [Hlt Hf] Hu Hh] Hne. destruct l as [|y0 l0] eqn:El; [done|]. rewrite <- El in *.
  assert (Hn : h_size q = S (length l0)) by (rewrite Hsz, El; done). clear Hne.
  unfold Heap.PopQueue, Heap.IsQueueEmpty. rewrite bool_decide_eq_false_2 by lia.
  destruct (Hf 1 ltac:(lia)) as [x Hx]. destruct (Hf (h_size q) ltac:(lia)) as [z Hz].
  unfold load, store, at_. rewrite Hx, Hz. cbn [mbind outcome_bind]. rewrite decide_True by lia. cbn [mbind outcome_bind].
  set (d := h_data q) in *. set (n := h_size q) in *. set (m := n - 1). assert (Em : n = S m) by (unfold m; lia).
  set (d1 := <[1 := Some z]> d).
  assert (Hf1 : filled m d1).
  { split; [unfold d1; rewrite length_insert; lia|]. intros p Hp. destruct (decide (p = 1)) as [->|]; [exists z; unfold d1; by rewrite list_lookup_insert_eq by lia|].
    unfold d1. rewrite list_lookup_insert_ne by lia. apply Hf. lia. }
  assert (Hb1 : below 1 m d1).
  { split; intros i Hi Hne; pose proof (half_lt i ltac:(lia)); [|lia]. unfold d1. rewrite !key_insert_ne by lia. apply Hh. lia. }
  assert (Hperm : used n d ≡ₚ Some x :: used m d1).
  { rewrite Em in Hz. rewrite Em, (used_last _ _ _ Hz). destruct (decide (m = 0)) as [E0|].
    - rewrite E0 in *. rewrite Hx in Hz. injection Hz as ->. done.
    - unfold d1. rewrite used_insert by lia. rewrite insert_swap by (rewrite used_lookup by lia; done). by rewrite Permutation_app_comm. }
  destruct (sift_down_ok m m d1 1 Hf1 Hb1 ltac:(lia) ltac:(lia)) as (d' & -> & Hl' & Hf' & Hu' & Hh'). cbn [mbind outcome_bind].
  assert (Hxl : x ∈ l).
  { assert (Hin : Some x ∈ Some <$> l) by (rewrite <- Hu, Hperm; left). by apply list_elem_of_fmap in Hin as (? & [= ->] & ?). }
  apply elem_of_Permutation in Hxl as [l' Hl]. exists x, l'. eexists. split; [done|]. split; [done|]. split_and!; [|done|].
  - assert (Hlen' : length l = S (length l')) by (rewrite Hl; done). split; simpl; try done; try lia.
    + rewrite Hl'. unfold d1. rewrite length_insert. lia.
    + rewrite Hu'. apply (Permutation_cons_inv (a := Some x)). rewrite <- Hperm, Hu, Hl. done.
  - intros y Hy. assert (Hin : Some y ∈ used n d) by (rewrite Hu; by apply list_elem_of_fmap_2).
    apply list_elem_of_lookup in Hin as [i Hi]. pose proof (lookup_lt_Some _ _ _ Hi) as Hil. unfold used in Hil. rewrite length_take in Hil.
    replace i with (i + 1 - 1) in Hi by lia. rewrite used_lookup in Hi by lia. pose proof (heap_top n d (i + 1) Hh ltac:(lia)) as Ht.
    unfold key in Ht. by rewrite Hx, Hi in Ht.
Qed.

Lemma heap_pop_nil (q : PriorityQueue) : heap_holds q [] -> Heap.PopQueue priority q = Ok (None, q).
Proof. intros [_ Hs _ _ _ _]. unfold Heap.PopQueue, Heap.IsQueueEmpty. by rewrite bool_decide_eq_true_2. Qed.

Program Definition heap_laws : @ReadyLaws PriorityQueue (heap_ready priority) :=
  {| holds := heap_holds; picks := fun x l => forall y, y ∈ l -> (priority x <= priority y)%Z; room := h_cap |}.
Next Obligation. apply heap_pop_nil. Qed.
Next Obligation. intros q l H Hne. destruct (heap_pop q l H Hne) as (x & l' & q' & E & Hl & Hq & Hc & Hp). by exists x, l', q'. Qed.
Next Obligation. intros q l x H Hlt. destruct (heap_push q l x H Hlt) as (q' & E & Hq & Hc). by exists (x :: l), q'. Qed.
Next Obligation. intros q l H. apply H. Qed.
Next Obligation. done. Qed.
End heap_laws.
