(* ===== verification/ExecTopo.v ===== *)
(** * ExecTopo: the executors of a single thread

    [runtime/v2/core/executor]: the sequential executor, and the topological
    one, which runs a node when all nodes it waits for have run, with a ring or
    with a heap as its ready queue ([topological_executor.c],
    [priority_topological_executor.c]).  Kernels are functions on a memory of
    their own; the watchers of a node are memory too, which kernels of control
    flow rewrite.  Callbacks act on the subscriber's state. *)

From S2P Require Import Prelude ExecReady.

#[local] Open Scope nat_scope.

(** ** Kernels *)

(** [func] runs the kernel of a node; [node_watchers] are the numbers in the
    node's [Watcher], [None] outside the array. *)
Class Kernels := {
  KernelMem : Type;
  func : nat -> KernelMem -> Z * KernelMem;
  node_watchers : KernelMem -> nat -> option (list nat);
}.

(** [nodes[i]] is a pointer to a node, which is known by its [node_id]. *)
Record TopologicalExecutionData (Q M : Type) := MkEd {
  node_num : nat;
  nodes : list nat;
  ready_queue : Q;
  start_nodes : list nat;
  node_indegrees : list Z;
  node_indegrees_backup : list Z;
  kernel_mem : M;
}.
Arguments MkEd {Q M}.
Arguments node_num {Q M}.
Arguments nodes {Q M}.
Arguments ready_queue {Q M}.
Arguments start_nodes {Q M}.
Arguments node_indegrees {Q M}.
Arguments node_indegrees_backup {Q M}.
Arguments kernel_mem {Q M}.

Definition set_queue {Q M} (q : Q) (ed : TopologicalExecutionData Q M) :=
  MkEd (node_num ed) (nodes ed) q (start_nodes ed) (node_indegrees ed) (node_indegrees_backup ed) (kernel_mem ed).
Definition set_indegrees {Q M} (d : list Z) (ed : TopologicalExecutionData Q M) :=
  MkEd (node_num ed) (nodes ed) (ready_queue ed) (start_nodes ed) d (node_indegrees_backup ed) (kernel_mem ed).
Definition set_mem {Q M} (m : M) (ed : TopologicalExecutionData Q M) :=
  MkEd (node_num ed) (nodes ed) (ready_queue ed) (start_nodes ed) (node_indegrees ed) (node_indegrees_backup ed) m.

Definition write {A} (l : list A) (i : nat) (v : A) : outcome (list A) := if decide (i < length l) then Ok (<[i := v]> l) else Fault.

(** What a subscriber is told. *)
Inductive ExecutorEvent := kExecuteStart | kExecuteEnd | kModelStart | kModelEnd | kExecuteEventEnd.

(** ** Topological execution *)

Section executor.
Context {Q : Type} `{ReadyQueue Q} `{Kernels}.
Abbreviation Data := (TopologicalExecutionData Q KernelMem).

(** [while (PopQueue(...))]; the queue has at most [slots] elements. *)
Fixpoint Clear_loop (fuel : nat) (q : Q) : outcome Q :=
  match fuel with
  | O => Fault
  | S fuel => '(node, q) ← pop q; match node with Some _ => Clear_loop fuel q | None => Ok q end
  end.
Definition Clear (ed : Data) : outcome Data := q ← Clear_loop (S (slots (ready_queue ed))) (ready_queue ed); Ok (set_queue q ed).

Definition RecoverNodeInDegrees (ed : Data) : outcome Data :=
  d ← foldM (fun index d => b ← at_ (node_indegrees_backup ed) index; write d index b) (seq 0 (node_num ed)) (node_indegrees ed);
  Ok (set_indegrees d ed).

(** The status of [PushQueue] is not looked at. *)
Definition push_node (node : nat) (ed : Data) : outcome Data := '(_, q) ← push node (ready_queue ed); Ok (set_queue q ed).

Definition notify (node_id : nat) (ed : Data) : outcome Data :=
  d ← at_ (node_indegrees ed) node_id;
  ds ← write (node_indegrees ed) node_id (d - 1)%Z;
  let ed := set_indegrees ds ed in
  if (d - 1 =? 0)%Z then
    node ← at_ (nodes ed) node_id;
    ed ← push_node node ed;
    b ← at_ (node_indegrees_backup ed) node_id;
    ds ← write (node_indegrees ed) node_id b;
    Ok (set_indegrees ds ed)
  else Ok ed.

(** After a node: its watchers, as they are now. *)
Definition notify_watchers (node : nat) (ed : Data) : outcome Data :=
  watchers ← match node_watchers (kernel_mem ed) node with Some l => Ok l | None => Fault end;
  foldM notify watchers ed.

Fixpoint execute_loop (fuel : nat) (ed : Data) : outcome (Z * Data) :=
  match fuel with
  | O => Fault
  | S fuel =>
      '(node, q) ← pop (ready_queue ed);
      let ed := set_queue q ed in
      match node with
      | None => Ok (kStatusSuccess, ed)
      | Some node =>
          let '(ret, m) := func node (kernel_mem ed) in
          let ed := set_mem m ed in
          if negb (ret =? 0)%Z then ed ← RecoverNodeInDegrees ed; Ok (ret, ed)
          else ed ← notify_watchers node ed; execute_loop fuel ed
      end
  end.

(** The loop may go on for ever when kernels rewrite watchers: [fuel] bounds the
    number of nodes it executes. *)
Definition Execute (fuel : nat) (ed : Data) : outcome (Z * Data) :=
  ed ← Clear ed;
  ed ← foldM push_node (start_nodes ed) ed;
  execute_loop fuel ed.

(** ** With a subscriber *)

Section subscriber.
Context {S : Type} (callback : ExecutorEvent -> option nat -> Z -> S -> S).

Fixpoint execute_loop_with (fuel : nat) (ed : Data) (s : S) : outcome (Z * Data * S) :=
  match fuel with
  | O => Fault
  | Datatypes.S fuel =>
      '(node, q) ← pop (ready_queue ed);
      let ed := set_queue q ed in
      match node with
      | None => Ok (kStatusSuccess, ed, callback kModelEnd None kStatusSuccess s)
      | Some node =>
          let s := callback kExecuteStart (Some node) kStatusSuccess s in
          let '(ret, m) := func node (kernel_mem ed) in
          let ed := set_mem m ed in
          let s := callback kExecuteEnd (Some node) ret s in
          if negb (ret =? kStatusSuccess)%Z then ed ← RecoverNodeInDegrees ed; Ok (ret, ed, s)
          else ed ← notify_watchers node ed; execute_loop_with fuel ed s
      end
  end.

Definition ExecuteWithCallback (fuel : nat) (ed : Data) (s : S) : outcome (Z * Data * S) :=
  ed ← Clear ed;
  ed ← foldM push_node (start_nodes ed) ed;
  execute_loop_with fuel ed (callback kModelStart None kStatusSuccess s).
End subscriber.
End executor.

Section executors.
Context `{Kernels}.

Definition TopologicalExecute : nat -> TopologicalExecutionData RingQueue KernelMem -> outcome (Z * TopologicalExecutionData RingQueue KernelMem) := Execute.
Definition PriorityTopologicalExecute (priority : nat -> Z) :
  nat -> TopologicalExecutionData PriorityQueue KernelMem -> outcome (Z * TopologicalExecutionData PriorityQueue KernelMem) :=
  @Execute _ (heap_ready priority) _.

(** A subscriber is a state and a callback; a null one is refused. *)
Definition TopologicalExecuteWithCallback {S} (es : option (ExecutorEvent -> option nat -> Z -> S -> S))
    (fuel : nat) (ed : TopologicalExecutionData RingQueue KernelMem) (s : S) : outcome (Z * TopologicalExecutionData RingQueue KernelMem * S) :=
  match es with Some callback => ExecuteWithCallback callback fuel ed s | None => Ok (kStatusFailed, ed, s) end.
Definition PriorityTopologicalExecuteWithCallback (priority : nat -> Z) {S} (es : option (ExecutorEvent -> option nat -> Z -> S -> S))
    (fuel : nat) (ed : TopologicalExecutionData PriorityQueue KernelMem) (s : S) : outcome (Z * TopologicalExecutionData PriorityQueue KernelMem * S) :=
  match es with Some callback => @ExecuteWithCallback _ (heap_ready priority) _ _ callback fuel ed s | None => Ok (kStatusFailed, ed, s) end.

(** ** Sequential execution *)

(** The nodes of the array in its order. *)
Fixpoint SequentialExecute (nodes : list nat) (m : KernelMem) : Z * KernelMem :=
  match nodes with
  | [] => (kStatusSuccess, m)
  | node :: nodes => let '(ret, m) := func node m in if negb (ret =? kStatusSuccess)%Z then (ret, m) else SequentialExecute nodes m
  end.

Fixpoint sequential_with {S} (callback : ExecutorEvent -> option nat -> Z -> S -> S) (nodes : list nat) (m : KernelMem) (s : S) : Z * KernelMem * S :=
  match nodes with
  | [] => (kStatusSuccess, m, callback kModelEnd None kStatusSuccess s)
  | node :: nodes =>
      let s := callback kExecuteStart (Some node) kStatusSuccess s in
      let '(ret, m) := func node m in
      let s := callback kExecuteEnd (Some node) ret s in
      if negb (ret =? kStatusSuccess)%Z then (ret, m, s) else sequential_with callback nodes m s
  end.
Definition SequentialExecuteWithCallback {S} (es : option (ExecutorEvent -> option nat -> Z -> S -> S)) (nodes : list nat) (m : KernelMem) (s : S) :
  Z * KernelMem * S :=
  match es with
  | Some callback => sequential_with callback nodes m (callback kModelStart None kStatusSuccess s)
  | None => (kStatusFailed, m, s)
  end.
End executors.
