(* ===== verification/ExecTopoSound.v ===== *)
(** * ExecTopoSound: an execution is a sequential one in a legal order

    The plan of a graph: the nodes to execute, who watches whom, in-degrees that
    count the watched nodes.  While an execution runs, the in-degree of a node
    that is not ready is the number of notifications still to come.  The order
    that results respects the edges, and running it node after node gives the
    memory and the status of the execution. *)

From S2P Require Import Prelude ExecReady ExecTopo.

#[local] Open Scope nat_scope.

(** ** Counting *)

Fixpoint occ (j : nat) (l : list nat) : nat :=
  match l with [] => 0 | x :: l => (if decide (x = j) then 1 else 0) + occ j l end.

Lemma occ_app j l1 l2 : occ j (l1 ++ l2) = occ j l1 + occ j l2.
Proof. induction l1 as [|x l1 IH]; simpl; [done|]. rewrite IH. lia. Qed.

#[export] Instance occ_proper j : Proper ((≡ₚ) ==> (=)) (occ j).
Proof. intros l1 l2 Hp. induction Hp; simpl; lia. Qed.

Lemma occ_zero j l : occ j l = 0 <-> j ∉ l.
Proof.
  induction l as [|x l IH]; simpl; [split; [by intros _ ?%not_elem_of_nil|done]|]. rewrite not_elem_of_cons. case_decide; subst; [|rewrite Nat.add_0_l, IH]; split; intros; [lia|tauto|split; [congruence|done]|tauto].
Qed.

Lemma NoDup_bound (l A : list nat) : NoDup l -> l ⊆ A -> length l <= length A.
Proof. intros Hl Hs. apply submseteq_length, NoDup_submseteq; [done|]. intros x Hx. by apply Hs. Qed.

(** ** Plans *)

(** [p_active] are executed; [p_watchers x] wait for [x], as often as they have
    edges from it. *)
Record Plan := MkPlan {
  p_active : list nat;
  p_watchers : nat -> list nat;
  p_start : list nat;
  p_indegrees : list Z;
}.

Definition p_edges (p : Plan) : list nat := p_active p ≫= p_watchers p.

Record plan_ok (p : Plan) : Prop := {
  po_nodup : NoDup (p_active p);
  po_closed x y : x ∈ p_active p -> y ∈ p_watchers p x -> y ∈ p_active p;
  po_indegree j : j ∈ p_active p -> p_indegrees p !! j = Some (Z.of_nat (occ j (p_edges p)));
  po_start_nodup : NoDup (p_start p);
  po_start x : (x ∈ p_start p) <-> x ∈ p_active p /\ occ x (p_edges p) = 0;
  po_acyclic : exists rank : nat -> nat, forall x y, x ∈ p_active p -> y ∈ p_watchers p x -> rank x < rank y;
}.

(** The nodes that can run when [done] have run. *)
Definition ready_nodes (p : Plan) (done : list nat) : list nat :=
  filter (fun x => (x ∉ done) /\ Forall (fun w => x ∈ p_watchers p w -> w ∈ done) (p_active p)) (p_active p).

Lemma elem_of_ready p done x :
  (x ∈ ready_nodes p done) <-> x ∈ p_active p /\ (x ∉ done) /\ forall w, w ∈ p_active p -> x ∈ p_watchers p w -> w ∈ done.
Proof. unfold ready_nodes. rewrite list_elem_of_filter, Forall_forall. tauto. Qed.

(** A legal order: each node is ready when its turn comes, and [best] among
    those that are. *)
Inductive schedule (p : Plan) (best : nat -> list nat -> Prop) : list nat -> list nat -> Prop :=
| schedule_nil done : schedule p best done []
| schedule_cons done x order :
    x ∈ ready_nodes p done -> best x (ready_nodes p done) -> schedule p best (x :: done) order -> schedule p best done (x :: order).

Section sound.
Context {Q : Type} `{ReadyLaws Q} {K : Kernels} (p : Plan) (Hp : plan_ok p).
Abbreviation A := (p_active p).
Abbreviation W := (p_watchers p).
Abbreviation Data := (TopologicalExecutionData Q KernelMem).
Implicit Types (ed : Data) (d : list Z).

(** Kernels that leave the watchers alone. *)
Context (Hstatic : forall node m, node_watchers (func node m).2 = node_watchers m).

(** The parts of the data that an execution does not change. *)
Record fixed ed : Prop := {
  fx_num : node_num ed = length (p_indegrees p);
  fx_nodes : nodes ed = seq 0 (length (p_indegrees p));
  fx_start : start_nodes ed = p_start p;
  fx_backup : node_indegrees_backup ed = p_indegrees p;
  fx_length : length (node_indegrees ed) = length (p_indegrees p);
  fx_room : length A <= room (ready_queue ed);
  fx_watchers x : x ∈ A -> node_watchers (kernel_mem ed) x = Some (W x);
}.

(** Data that can be executed: what the builder makes and what an execution
    leaves, also one that failed. *)
Definition loaded ed : Prop := fixed ed /\ node_indegrees ed = p_indegrees p /\ exists l, holds (ready_queue ed) l.

(** [pending] notifications are still to come. *)
Definition degrees (over : nat -> Prop) (pending : list nat) d : Prop :=
  (forall j, j ∈ A -> over j -> occ j pending = 0 /\ d !! j = p_indegrees p !! j) /\
  (forall j, j ∈ A -> ~ over j -> 0 < occ j pending /\ d !! j = Some (Z.of_nat (occ j pending))) /\
  (forall j, j ∉ A -> d !! j = p_indegrees p !! j).

(** [done] have run, [rest] not, [ws] of the last one's watchers are not yet
    told, [l] are in the queue. *)
Record Inv (done rest ws l : list nat) ed : Prop := {
  iv_fixed : fixed ed;
  iv_split : done ++ rest ≡ₚ A;
  iv_queue : holds (ready_queue ed) l;
  iv_nodup : NoDup l;
  iv_rest : l ⊆ rest;
  iv_ws : ws ⊆ A;
  iv_degrees : degrees (fun j => j ∈ done \/ j ∈ l) (ws ++ (rest ≫= W)) (node_indegrees ed);
}.

Lemma split_nodup done rest : done ++ rest ≡ₚ A -> NoDup (done ++ rest).
Proof. intros E. rewrite E. apply Hp. Qed.

Lemma split_in done rest x : done ++ rest ≡ₚ A -> (x ∈ A) <-> x ∈ done \/ x ∈ rest.
Proof. intros <-. apply elem_of_app. Qed.

Lemma active_lt j : j ∈ A -> j < length (p_indegrees p).
Proof. intros Hj. apply lookup_lt_is_Some. rewrite (po_indegree _ Hp) by done. eauto. Qed.

Lemma lookup_ext d : (forall j, d !! j = p_indegrees p !! j) -> d = p_indegrees p.
Proof. apply list_eq. Qed.

(** *** A push *)

Lemma push_step l ed y :
  fixed ed -> holds (ready_queue ed) l -> NoDup (y :: l) -> y :: l ⊆ A ->
  exists l' q', push_node y ed = Ok (set_queue q' ed) /\ l' ≡ₚ y :: l /\ holds q' l' /\ room q' = room (ready_queue ed).
Proof.
  intros Hfx Hh Hnd Hs. pose proof (NoDup_bound _ _ Hnd Hs) as Hlen. pose proof (fx_room _ Hfx).
  destruct (push_room (ready_queue ed) l y Hh) as (l' & q' & E & Hl & Hh' & Hr & _); [simpl in Hlen; lia|].
  exists l', q'. unfold push_node. by rewrite E.
Qed.

Lemma push_all xs l ed :
  fixed ed -> holds (ready_queue ed) l -> NoDup (xs ++ l) -> xs ++ l ⊆ A ->
  exists l' q', foldM push_node xs ed = Ok (set_queue q' ed) /\ l' ≡ₚ xs ++ l /\ holds q' l' /\ room q' = room (ready_queue ed).
Proof.
  revert l ed. induction xs as [|x xs IH]; intros l ed Hfx Hh Hnd Hs; simpl.
  { exists l, (ready_queue ed). by destruct ed. }
  assert (Hsub : x :: l ⊆ A). { intros z Hz. apply Hs. simpl. rewrite elem_of_cons, elem_of_app. apply elem_of_cons in Hz. tauto. }
  assert (Hnd1 : NoDup (xs ++ x :: l)) by (by rewrite <- Permutation_middle).
  destruct (push_step l ed x Hfx Hh) as (l1 & q1 & -> & Hl1 & Hh1 & Hr1); [by apply NoDup_app in Hnd1 as (_ & _ & ?)|done|]. cbn [mbind outcome_bind].
  destruct (IH l1 (set_queue q1 ed)) as (l' & q' & E & Hl' & Hh' & Hr').
  - destruct Hfx. split; simpl; congruence || done.
  - done.
  - by rewrite Hl1.
  - rewrite Hl1. intros z Hz. apply Hs. rewrite <- Permutation_middle in Hz. exact Hz.
  - exists l', q'. rewrite E. split_and!; [done| |done|simpl in Hr'; congruence]. rewrite Hl', Hl1. by rewrite <- Permutation_middle.
Qed.

(** *** One notification *)

Lemma degrees_iff (over over' : nat -> Prop) R d : (forall j, over j <-> over' j) -> degrees over R d -> degrees over' R d.
Proof.
  intros E (D1 & D2 & D3). split_and!; [intros j Hj Hov|intros j Hj Hov|done].
  - apply D1; [done|by apply E].
  - apply D2; [done|by rewrite E].
Qed.

Lemma degrees_head over R d y : degrees over (y :: R) d -> y ∈ A -> ~ over y /\ d !! y = Some (Z.of_nat (1 + occ y R)).
Proof.
  intros (D1 & D2 & _) Hy. assert (Hno : ~ over y).
  { intros Hov. destruct (D1 y Hy Hov) as [E _]. simpl in E. rewrite decide_True in E by done. lia. }
  split; [done|]. destruct (D2 y Hy Hno) as [_ E]. simpl in E. by rewrite decide_True in E.
Qed.

(** It was not the last one for [y], or it was. *)
Lemma degrees_more over R d y :
  degrees over (y :: R) d -> y ∈ A -> occ y R <> 0 -> degrees over R (<[y := Z.of_nat (occ y R)]> d).
Proof.
  intros HD Hy Hne. destruct (degrees_head _ _ _ _ HD Hy) as [Hno Hd]. destruct HD as (D1 & D2 & D3). apply lookup_lt_Some in Hd.
  assert (Ho : forall j, j <> y -> occ j (y :: R) = occ j R) by (intros j Hj; simpl; by rewrite decide_False).
  split_and!; intros j Hj.
  - intros Hov. assert (Hjy : j <> y) by (intros ->; tauto). rewrite list_lookup_insert_ne, <- (Ho j) by done. by apply D1.
  - intros Hov. destruct (decide (j = y)) as [->|Hjy].
    + rewrite list_lookup_insert_eq by done. split; [lia|done].
    + rewrite list_lookup_insert_ne, <- (Ho j) by done. by apply D2.
  - rewrite list_lookup_insert_ne by (intros ->; tauto). by apply D3.
Qed.

Lemma degrees_last over R d y b :
  degrees over (y :: R) d -> y ∈ A -> occ y R = 0 -> p_indegrees p !! y = Some b -> degrees (fun j => j = y \/ over j) R (<[y := b]> d).
Proof.
  intros HD Hy Hz Hb. destruct (degrees_head _ _ _ _ HD Hy) as [Hno Hd]. destruct HD as (D1 & D2 & D3). apply lookup_lt_Some in Hd.
  assert (Ho : forall j, j <> y -> occ j (y :: R) = occ j R) by (intros j Hj; simpl; by rewrite decide_False).
  split_and!; intros j Hj.
  - intros Hov. destruct (decide (j = y)) as [->|Hjy].
    + by rewrite list_lookup_insert_eq.
    + rewrite list_lookup_insert_ne, <- (Ho j) by done. apply D1; [done|tauto].
  - intros Hov. assert (Hjy : j <> y) by tauto. rewrite list_lookup_insert_ne, <- (Ho j) by done. apply D2; [done|tauto].
  - rewrite list_lookup_insert_ne by (intros ->; tauto). by apply D3.
Qed.

Lemma fixed_set ed ds q : fixed ed -> length ds = length (p_indegrees p) -> room q = room (ready_queue ed) -> fixed (set_indegrees ds (set_queue q ed)).
Proof. intros [] E1 E2. split; simpl; congruence || done. Qed.

Lemma notify_step done rest ws l ed y :
  Inv done rest (y :: ws) l ed -> exists l' ed', notify y ed = Ok ed' /\ kernel_mem ed' = kernel_mem ed /\ Inv done rest ws l' ed'.
Proof.
  intros HI. pose proof HI as [Hfx Hsp Hq Hnd Hre Hws HD]. assert (Hy : y ∈ A) by (apply Hws; left).
  assert (Hws' : ws ⊆ A) by (intros z Hz; apply Hws; by right). pose proof (fx_length _ Hfx) as Hlen.
  simpl in HD. set (R := ws ++ (rest ≫= W)) in *. destruct (degrees_head _ _ _ _ HD Hy) as [Hno Hd].
  pose proof (lookup_lt_Some _ _ _ Hd) as Hyl. unfold notify, at_, write. rewrite Hd. cbn [mbind outcome_bind].
  rewrite decide_True by done. cbn [mbind outcome_bind]. replace (Z.of_nat (1 + occ y R) - 1)%Z with (Z.of_nat (occ y R)) by lia.
  destruct (Z.eqb_spec (Z.of_nat (occ y R)) 0) as [E0|E0].
  - assert (Hyr : y ∈ rest) by (apply (split_in _ _ y Hsp) in Hy as [?|?]; tauto).
    assert (Hsub : y :: l ⊆ A). { intros z [->|Hz]%elem_of_cons; [done|]. apply (split_in _ _ z Hsp). right. by apply Hre. }
    destruct (push_step l ed y Hfx Hq ltac:(constructor; [tauto|done]) Hsub) as (l' & q' & E & Hl & Hh & Hr).
    assert (Elk : nodes ed !! y = Some y) by (rewrite (fx_nodes _ Hfx); apply lookup_seq; split; [done|by apply active_lt]).
    cbn [nodes set_indegrees]. rewrite Elk. cbn [mbind outcome_bind].
    unfold push_node in *. destruct (push y (ready_queue ed)) as [[? q1]| |] eqn:Ep; try discriminate. injection E as ->.
    cbn [mbind outcome_bind ready_queue set_indegrees]. rewrite Ep. cbn. rewrite (fx_backup _ Hfx), (po_indegree _ Hp y Hy). cbn.
    rewrite length_insert, decide_True by done. cbn. eexists l', _. split; [done|]. split; [done|].
    split; try done; simpl; rewrite ?list_insert_insert_eq.
    + apply (fixed_set ed _ q'); [done|by rewrite length_insert, Hlen|done].
    + rewrite Hl. constructor; [tauto|done].
    + intros j. rewrite Hl, elem_of_cons. intros [->|Hj]; [done|by apply Hre].
    + eapply degrees_iff; [|apply degrees_last; [exact HD|done|fold R; lia|by apply Hp]]. intros j. rewrite Hl, elem_of_cons. tauto.
  - exists l. eexists. split; [done|]. split; [done|]. split; try done; simpl.
    + apply (fixed_set ed _ (ready_queue ed)); [done|by rewrite length_insert, Hlen|done].
    + apply degrees_more; [done|done|fold R; lia].
Qed.

Lemma notify_all done rest ws l ed :
  Inv done rest ws l ed -> exists l' ed', foldM notify ws ed = Ok ed' /\ kernel_mem ed' = kernel_mem ed /\ Inv done rest [] l' ed'.
Proof.
  revert l ed. induction ws as [|y ws IH]; intros l ed HI; [by exists l, ed|]. simpl.
  destruct (notify_step _ _ _ _ _ _ HI) as (l1 & ed1 & -> & Em & HI1). cbn [mbind outcome_bind].
  destruct (IH _ _ HI1) as (l' & ed' & E & Em' & HI'). exists l', ed'. split_and!; congruence || done.
Qed.

(** *** Who is ready *)

Lemma queue_ready done rest l ed : Inv done rest [] l ed -> l ≡ₚ ready_nodes p done.
Proof.
  intros HI. pose proof HI as [Hfx Hsp Hq Hnd Hre _ (D1 & D2 & _)]. pose proof (split_nodup _ _ Hsp) as (_ & Hdis & _)%NoDup_app.
  apply NoDup_Permutation; [done|apply NoDup_filter, Hp|]. intros x. rewrite elem_of_ready. split.
  - intros Hx. assert (HxA : x ∈ A) by (apply (split_in _ _ x Hsp); right; by apply Hre). split_and!; [done|intros ?; by apply (Hdis x), Hre|].
    intros w Hw Hxw. destruct (D1 x HxA ltac:(by right)) as [E _]. apply occ_zero in E. apply (split_in _ _ w Hsp) in Hw as [?|Hw]; [done|].
    destruct E. apply list_elem_of_bind. by exists w.
  - intros (HxA & Hnd' & Hall). destruct (decide (x ∈ done \/ x ∈ l)) as [[?|?]|Hno]; [done|done|].
    destruct (D2 x HxA Hno) as [E _]. assert (Hz : x ∈ rest ≫= W). { apply dec_stable. intros Hc. apply occ_zero in Hc. simpl in E. lia. }
    apply list_elem_of_bind in Hz as (w & Hxw & Hw). destruct (Hdis w); [|done]. apply Hall; [|done]. apply (split_in _ _ w Hsp). by right.
Qed.

(** With an empty queue nothing is left: a node of least rank would be ready. *)
Lemma queue_empty_done done rest ed : Inv done rest [] [] ed -> rest = [] /\ node_indegrees ed = p_indegrees p.
Proof.
  intros HI. pose proof HI as [Hfx Hsp Hq Hnd Hre _ (D1 & D2 & D3)]. pose proof (split_nodup _ _ Hsp) as (_ & Hdis & _)%NoDup_app.
  destruct (po_acyclic _ Hp) as [rank Hrank]. assert (Hnone : forall n x, rank x < n -> x ∉ rest).
  { induction n as [|n IH]; intros x Hlt Hx; [lia|]. assert (HxA : x ∈ A) by (apply (split_in _ _ x Hsp); by right).
    destruct (D2 x HxA) as [E _]; [intros [?|?%not_elem_of_nil]; [by apply (Hdis x)|done]|].
    assert (Hz : x ∈ rest ≫= W). { apply dec_stable. intros Hc. apply occ_zero in Hc. simpl in E. lia. }
    apply list_elem_of_bind in Hz as (w & Hxw & Hw). assert (HwA : w ∈ A) by (apply (split_in _ _ w Hsp); by right).
    apply (IH w); [|done]. pose proof (Hrank w x HwA Hxw). lia. }
  assert (E : rest = []). { destruct rest as [|x rest]; [done|]. destruct (Hnone (S (rank x)) x); [lia|left]. } split; [done|].
  apply lookup_ext. intros j. destruct (decide (j ∈ A)) as [Hj|]; [|by apply D3]. apply D1; [done|]. subst rest. apply (split_in _ _ j Hsp) in Hj as [?|?%not_elem_of_nil]; [by left|done].
Qed.

(** *** One node *)

Lemma pop_step done rest l ed :
  Inv done rest [] l ed -> l <> [] ->
  exists x l' rest' q, pop (ready_queue ed) = Ok (Some x, q) /\ rest ≡ₚ x :: rest' /\ picks x l /\ x ∈ l /\ x ∈ A /\ Inv (x :: done) rest' (W x) l' (set_queue q ed).
Proof.
  intros HI Hne. pose proof HI as [Hfx Hsp Hq Hnd Hre _ HD]. destruct (pop_cons _ _ Hq Hne) as (x & l' & q & E & Hl & Hh & Hpk & Hr & _).
  assert (Hxr : x ∈ rest) by (apply Hre; rewrite Hl; left). assert (HxA : x ∈ A) by (apply (split_in _ _ x Hsp); by right).
  apply elem_of_Permutation in Hxr as [rest' Hrest]. exists x, l', rest', q. split_and!; try done; [rewrite Hl; left|].
  rewrite Hl in Hnd. apply NoDup_cons in Hnd as [Hxl Hnd]. split; simpl; try done.
  - destruct Hfx. by split; simpl; rewrite ?Hr.
  - rewrite <- Hsp, Hrest. by rewrite <- Permutation_middle.
  - intros z Hz. assert (Hz' : z ∈ rest) by (apply Hre; rewrite Hl; by right). rewrite Hrest in Hz'. apply elem_of_cons in Hz' as [->|?]; done.
  - intros z Hz. by apply (po_closed _ Hp x).
  - assert (EP : W x ++ (rest' ≫= W) ≡ₚ rest ≫= W) by (by rewrite Hrest). unfold degrees in *. simpl in HD.
    setoid_rewrite EP. setoid_rewrite Hl in HD. setoid_rewrite elem_of_cons in HD. setoid_rewrite elem_of_cons. destruct HD as (D1 & D2 & D3). split_and!; [intros j Hj Hov|intros j Hj Hov|done].
    + apply D1; [done|tauto].
    + apply D2; [done|tauto].
Qed.

Lemma set_mem_inv done rest ws l ed node : Inv done rest ws l ed -> Inv done rest ws l (set_mem (func node (kernel_mem ed)).2 ed).
Proof. intros [[] ? ? ? ? ? ?]. split; try done. split; try done. simpl. intros x Hx. rewrite Hstatic. auto. Qed.

(** *** After a failure *)

Lemma recover_ok ed : fixed ed -> RecoverNodeInDegrees ed = Ok (set_indegrees (p_indegrees p) ed).
Proof.
  intros [Hn _ _ Hb Hl _ _]. unfold RecoverNodeInDegrees. rewrite Hn, Hb.
  assert (E : forall k d, k <= length d -> length d = length (p_indegrees p) ->
    foldM (fun index d => b ← at_ (p_indegrees p) index; write d index b) (seq (length d - k) k) d = Ok (take (length d - k) d ++ drop (length d - k) (p_indegrees p))).
  { induction k as [|k IH]; intros d Hk Hd; simpl.
    - rewrite Nat.sub_0_r, take_ge, drop_ge, app_nil_r by lia. done.
    - destruct (lookup_lt_is_Some_2 (p_indegrees p) (length d - S k)) as [b Eb]; [lia|]. assert (E1 : at_ (p_indegrees p) (length d - S k) = Ok b) by (unfold at_; by rewrite Eb).
      assert (E2 : write d (length d - S k) b = Ok (<[length d - S k := b]> d)) by (unfold write; by rewrite decide_True by lia).
      rewrite E1. cbn [mbind outcome_bind]. rewrite E2. cbn [mbind outcome_bind]. specialize (IH (<[length d - S k := b]> d)). rewrite length_insert in IH.
      replace (S (length d - S k)) with (length d - k) by lia. rewrite IH by lia. f_equal. replace (length d - k) with (S (length d - S k)) by lia.
      rewrite (drop_S _ _ _ Eb). rewrite (take_S_r _ _ b) by (by rewrite list_lookup_insert_eq by lia). rewrite take_insert_ge by lia. by rewrite <- app_assoc. }
  specialize (E (length (node_indegrees ed)) (node_indegrees ed)). rewrite Nat.sub_diag, Hl in E. rewrite E by lia. done.
Qed.

(** *** The whole execution *)

Section loop.
Context {S : Type} (callback : ExecutorEvent -> option nat -> Z -> S -> S).
Context (best : nat -> list nat -> Prop) (Hbest : forall x l l', picks x l -> x ∈ l -> l ≡ₚ l' -> best x l').

(** [order] is what was executed: legal, to the same end one after the other,
    and everything when no kernel failed. *)
Record executed (done rest order : list nat) (start : KernelMem * S) (result : Z * Data * S) : Prop := {
  ex_legal : schedule p best done order;
  ex_same : sequential_with callback order start.1 start.2 = (result.1.1, kernel_mem result.1.2, result.2);
  ex_loaded : loaded result.1.2;
  ex_all : result.1.1 = kStatusSuccess -> order ≡ₚ rest /\ holds (ready_queue result.1.2) [];
}.

Lemma loop_ok fuel done rest l ed s :
  Inv done rest [] l ed -> length rest < fuel ->
  exists order result, execute_loop_with callback fuel ed s = Ok result /\ executed done rest order (kernel_mem ed, s) result.
Proof.
  revert done rest l ed s. induction fuel as [|fuel IH]; intros done rest l ed s HI Hfuel; [lia|].
  assert (Hset : forall q, kernel_mem (set_queue q ed) = kernel_mem ed) by done. cbn [execute_loop_with].
  destruct (decide (l = [])) as [->|Hne].
  - rewrite (pop_nil _ (iv_queue _ _ _ _ _ HI)). cbn [mbind outcome_bind]. destruct (queue_empty_done _ _ _ HI) as [-> Ed].
    eexists [], _. split; [done|]. replace (set_queue (ready_queue ed) ed) with ed by (by destruct ed).
    split; [apply schedule_nil|done| |].
    + split; [apply HI|]. split; [done|]. exists []. apply HI.
    + split; [done|apply HI].
  - destruct (pop_step _ _ _ _ HI Hne) as (x & l' & rest' & q & -> & Hrest & Hpk & Hxl & HxA & HI'). cbn [mbind outcome_bind]. rewrite Hset.
    pose proof (queue_ready _ _ _ _ HI) as Hready. pose proof (Hbest _ _ _ Hpk Hxl Hready) as Hb. rewrite Hready in Hxl.
    apply (set_mem_inv _ _ _ _ _ x) in HI'. rewrite Hset in HI'.
    set (s1 := callback kExecuteStart (Some x) kStatusSuccess s). destruct (func x (kernel_mem ed)) as [ret m] eqn:Ef. simpl in HI'.
    set (s2 := callback kExecuteEnd (Some x) ret s1). set (ed1 := set_mem m (set_queue q ed)) in *.
    destruct (Z.eqb_spec ret kStatusSuccess) as [->|Hret]; simpl.
    + unfold notify_watchers. rewrite (fx_watchers _ (iv_fixed _ _ _ _ _ HI') x HxA). cbn [mbind outcome_bind].
      destruct (notify_all _ _ _ _ _ HI') as (l2 & ed2 & -> & Em & HI2). cbn [mbind outcome_bind].
      destruct (IH _ _ _ _ s2 HI2) as (order & result & -> & [Hlegal Hsame Hload Hall]); [rewrite Hrest in Hfuel; simpl in Hfuel; lia|].
      exists (x :: order), result. split; [done|]. split; [by constructor| |done|].
      * simpl. fold s1. rewrite Ef. fold s2. simpl. rewrite <- Hsame, Em. done.
      * intros E. destruct (Hall E) as [Ho Hq]. split; [|done]. by rewrite Hrest, Ho.
    + rewrite (recover_ok ed1) by apply HI'. cbn [mbind outcome_bind]. eexists [x], _. split; [done|]. split; simpl; [by repeat constructor| | |done].
      * fold s1. rewrite Ef. fold s2. apply Z.eqb_neq in Hret. by rewrite Hret.
      * split; [|split; [done|exists l'; apply HI']]. apply (fixed_set ed1 _ (ready_queue ed1)); [apply HI'|done|done].
Qed.

Lemma clear_queue_ok q l fuel : holds q l -> length l < fuel -> exists q', Clear_loop fuel q = Ok q' /\ holds q' [] /\ room q' = room q.
Proof.
  revert q l. induction fuel as [|fuel IH]; intros q l Hh Hl; [lia|]. cbn [Clear_loop]. destruct (decide (l = [])) as [->|Hne].
  - rewrite (pop_nil _ Hh). by exists q.
  - destruct (pop_cons _ _ Hh Hne) as (x & l' & q1 & -> & El & Hh1 & _ & Hr & _). cbn [mbind outcome_bind].
    destruct (IH q1 l' Hh1) as (q' & E & Hh' & Hr'); [rewrite El in Hl; simpl in Hl; lia|]. exists q'. split_and!; congruence || done.
Qed.

Theorem execute_ok fuel ed s :
  loaded ed -> length A < fuel ->
  exists order result, ExecuteWithCallback callback fuel ed s = Ok result /\
    executed [] A order (kernel_mem ed, callback kModelStart None kStatusSuccess s) result.
Proof.
  intros (Hfx & Hd & l0 & Hh0) Hfuel. unfold ExecuteWithCallback, Clear.
  destruct (clear_queue_ok _ l0 (Datatypes.S (slots (ready_queue ed))) Hh0) as (q & -> & Hh & Hr).
  { pose proof (holds_room _ _ Hh0). pose proof (room_slots (ready_queue ed)). lia. } cbn [mbind outcome_bind].
  assert (Hfx' : fixed (set_queue q ed)) by (destruct Hfx; split; simpl; congruence || done). rewrite (fx_start _ Hfx').
  destruct (push_all (p_start p) [] (set_queue q ed) Hfx' Hh) as (l & q' & -> & Hl & Hh' & Hr').
  { rewrite app_nil_r. apply Hp. } { rewrite app_nil_r. intros x Hx. by apply (po_start _ Hp). }
  rewrite app_nil_r in Hl. cbn [mbind outcome_bind]. 
  change (kernel_mem ed) with (kernel_mem (set_queue q' (set_queue q ed))). apply (loop_ok _ _ _ l); [|done].
  split; simpl; try done.
  - apply (fixed_set (set_queue q ed) (p_indegrees p) q') in Hfx'; [|done|done]. destruct Hfx'. split; simpl in *; congruence || done.
  - rewrite Hl. apply Hp.
  - intros x. rewrite Hl. intros Hx. by apply (po_start _ Hp).
  - by intros x ?%not_elem_of_nil.
  - rewrite Hd. assert (Hov : forall j, j ∈ A -> (j ∈ [] \/ j ∈ l) <-> occ j (p_edges p) = 0).
    { intros j Hj. rewrite Hl, (po_start _ Hp). split; [intros [?%not_elem_of_nil|?]; tauto|tauto]. }
    split_and!; [intros j Hj Hj1%Hov|intros j Hj Hj1|]; try done. rewrite (Hov j Hj) in Hj1. unfold p_edges in Hj1. split; [lia|by apply Hp].
Qed.
End loop.
End sound.

(** ** Without a subscriber *)

Section erase.
Context {Q : Type} `{ReadyQueue Q} {K : Kernels}.
Definition silent (_ : ExecutorEvent) (_ : option nat) (_ : Z) (s : unit) : unit := s.

Lemma execute_loop_silent fuel (ed : TopologicalExecutionData Q KernelMem) :
  execute_loop fuel ed = (r ← execute_loop_with silent fuel ed tt; Ok r.1).
Proof.
  revert ed. induction fuel as [|fuel IH]; intros ed; [done|]. cbn [execute_loop execute_loop_with]. destruct (pop (ready_queue ed)) as [[[x|] q]| |]; try done.
  cbn [mbind outcome_bind]. destruct (func x (kernel_mem (set_queue q ed))) as [ret m]. unfold kStatusSuccess. destruct (negb (ret =? 0)%Z).
  - by destruct (RecoverNodeInDegrees _).
  - destruct (notify_watchers _ _); try done. cbn [mbind outcome_bind]. apply IH.
Qed.

Lemma execute_silent fuel (ed : TopologicalExecutionData Q KernelMem) : Execute fuel ed = (r ← ExecuteWithCallback silent fuel ed tt; Ok r.1).
Proof.
  unfold Execute, ExecuteWithCallback. destruct (Clear ed) as [ed1| |]; try done. cbn [mbind outcome_bind].
  destruct (foldM push_node (start_nodes ed1) ed1); try done. apply execute_loop_silent.
Qed.

Lemma sequential_silent nodes m : SequentialExecute nodes m = (sequential_with silent nodes m tt).1.
Proof. revert m. induction nodes as [|x nodes IH]; intros m; simpl; [done|]. destruct (func x m) as [ret m']. by destruct (negb (ret =? kStatusSuccess)%Z). Qed.
End erase.

(** ** The executors *)

Definition anyone (_ : nat) (_ : list nat) : Prop := True.
Definition most_urgent (priority : nat -> Z) (x : nat) (l : list nat) : Prop := forall y, y ∈ l -> (priority x <= priority y)%Z.

Section executors.
Context {K : Kernels} (p : Plan) (Hp : plan_ok p).
Context (Hstatic : forall node m, node_watchers (func node m).2 = node_watchers m).

Lemma plain_ok {Q} `{ReadyLaws Q} best (Hbest : forall x l l', picks x l -> x ∈ l -> l ≡ₚ l' -> best x l') fuel (ed : TopologicalExecutionData Q KernelMem) :
  loaded p ed -> length (p_active p) < fuel ->
  exists order ret ed', Execute fuel ed = Ok (ret, ed') /\ schedule p best [] order /\
    SequentialExecute order (kernel_mem ed) = (ret, kernel_mem ed') /\ loaded p ed' /\
    (ret = kStatusSuccess -> order ≡ₚ p_active p /\ holds (ready_queue ed') []).
Proof.
  intros Hl Hfuel. destruct (execute_ok p Hp Hstatic silent best Hbest fuel ed tt Hl Hfuel) as (order & [[ret ed'] []] & E & [Hs Hseq Hl' Hall]).
  exists order, ret, ed'. rewrite execute_silent, E. split; [done|]. split; [done|]. split; [|done]. rewrite sequential_silent. simpl in Hseq. change (silent kModelStart None kStatusSuccess tt) with tt in Hseq. by rewrite Hseq.
Qed.
End executors.

(** C4: On execution data whose kernels leave the watchers of the nodes as they are
    (so without the control flow kernels that redirect watchers while they run),
    and with a ready queue that has a place for every node, the topological
    executor terminates, also when a kernel fails: its result is that of a
    sequential execution of nodes in an order in which each comes once and after
    all it waits for; without a failure that is every node; and the data it leaves
    can be executed again. *)
Theorem topological_execute_correct {K : Kernels} (p : Plan) fuel (ed : TopologicalExecutionData RingQueue KernelMem) :
  plan_ok p -> (forall node m, node_watchers (func node m).2 = node_watchers m) -> loaded p ed -> length (p_active p) < fuel ->
  exists order ret ed', TopologicalExecute fuel ed = Ok (ret, ed') /\ schedule p anyone [] order /\
    SequentialExecute order (kernel_mem ed) = (ret, kernel_mem ed') /\ loaded p ed' /\
    (ret = kStatusSuccess -> order ≡ₚ p_active p /\ Ring.IsQueueEmpty (ready_queue ed') = true).
Proof.
  intros Hp Hs Hl Hf. destruct (plain_ok p Hp Hs anyone ltac:(done) fuel ed Hl Hf) as (order & ret & ed' & E & Hsch & Hseq & Hl' & Hall).
  exists order, ret, ed'. split_and!; try done. intros Er. destruct (Hall Er) as [Ho [_ Hfr _ Hb _]]. split; [done|].
  apply bool_decide_eq_true_2. simpl in Hb. rewrite Nat.add_0_r, Nat.mod_small in Hb by done. done.
Qed.

(** C15: With kernels that leave the watchers of the nodes as they are, the
    priority executor does the same, and executes at every step a node whose
    priority is least among all nodes that are ready. *)
Theorem priority_execute_correct {K : Kernels} (priority : nat -> Z) (p : Plan) fuel (ed : TopologicalExecutionData PriorityQueue KernelMem) :
  plan_ok p -> (forall node m, node_watchers (func node m).2 = node_watchers m) -> @loaded _ _ (heap_laws priority) _ p ed -> length (p_active p) < fuel ->
  exists order ret ed', PriorityTopologicalExecute priority fuel ed = Ok (ret, ed') /\ schedule p (most_urgent priority) [] order /\
    SequentialExecute order (kernel_mem ed) = (ret, kernel_mem ed') /\ @loaded _ _ (heap_laws priority) _ p ed' /\
    (ret = kStatusSuccess -> order ≡ₚ p_active p /\ Heap.IsQueueEmpty (ready_queue ed') = true).
Proof.
  intros Hp Hs Hl Hf.
  assert (Hb : forall x l l', @picks _ _ (heap_laws priority) x l -> x ∈ l -> l ≡ₚ l' -> most_urgent priority x l').
  { intros x l l' Hpk _ E y. rewrite <- E. apply Hpk. }
  destruct (@plain_ok _ p Hp Hs _ _ (heap_laws priority) _ Hb fuel ed Hl Hf) as (order & ret & ed' & E & Hsch & Hseq & Hl' & Hall).
  exists order, ret, ed'. split_and!; try done. intros Er. destruct (Hall Er) as [Ho [_ Hsz _ _ _ _]]. split; [done|]. by apply bool_decide_eq_true_2.
Qed.

(** With a subscriber, whatever the ready queue, the executor tells it what
    the sequential executor would tell for that order, event by event. *)
Theorem execute_events_correct {K : Kernels} {Q} `{ReadyLaws Q} {S} (callback : ExecutorEvent -> option nat -> Z -> S -> S) (p : Plan) fuel
    (ed : TopologicalExecutionData Q KernelMem) (s : S) :
  plan_ok p -> (forall node m, node_watchers (func node m).2 = node_watchers m) -> loaded p ed -> length (p_active p) < fuel ->
  exists order ret ed' s', ExecuteWithCallback callback fuel ed s = Ok (ret, ed', s') /\ schedule p anyone [] order /\
    SequentialExecuteWithCallback (Some callback) order (kernel_mem ed) s = (ret, kernel_mem ed', s') /\ loaded p ed' /\
    (ret = kStatusSuccess -> order ≡ₚ p_active p).
Proof.
  intros Hp Hs Hl Hf. destruct (execute_ok p Hp Hs callback anyone ltac:(done) fuel ed s Hl Hf) as (order & [[ret ed'] s'] & E & [Hsch Hseq Hl' Hall]).
  exists order, ret, ed', s'. split_and!; try done. intros Er. by apply Hall.
Qed.
