(* ===== verification/ExecGraph.v ===== *)
(** * ExecGraph: from execute graph to execution data

    [runtime/v2/core/builder]: which nodes of an execute graph are executed
    ([node_types.h], [graph_node.h]), how [GraphNode] collects them, their
    in-degrees, the start nodes and who watches whom, and how it ties the nodes
    of subgraphs to the nodes of control flow ([graph_node.cc]).  A [FastNode] is
    known by a number; what the graph library answers about it is a record.  What
    the [GE_ASSERT] macros return is a parameter. *)

From stdpp Require Import strings.
From S2P Require Import Prelude.

#[local] Open Scope nat_scope.

(** ** Node types *)

Definition is_type (type : string) (node_type : string) : bool := bool_decide (node_type = type).

Definition IsFeedType (t : string) : bool := is_type "Data" t || is_type "AippData" t.
Definition IsConstFeedType : string -> bool := is_type "ConstData".
Definition IsInnerDataType : string -> bool := is_type "InnerData".
Definition IsInnerOutput : string -> bool := is_type "InnerNetOutput".
Definition IsOutputType : string -> bool := is_type "NetOutput".
Definition IsTypeOutputData : string -> bool := is_type "OutputData".
Definition IsConstType (t : string) : bool := is_type "Const" t || is_type "Constant" t.
Definition IsIfOrCaseType (t : string) : bool := existsb (fun type => is_type type t) ["If"; "StatelessIf"; "_If"] || existsb (fun type => is_type type t) ["Case"].
Definition IsWhileType (t : string) : bool := existsb (fun type => is_type type t) ["StatelessWhile"; "While"; "_While"].
Definition IsWaitAnyone : string -> bool := is_type "WaitAnyone".
Definition IsBranchPivot : string -> bool := is_type "BranchPivot".
Definition IsBranchDone : string -> bool := is_type "BranchDone".
Definition IsSubgraphCall : string -> bool := is_type "SubgraphCall".

Definition IsLaunchWithHandleNode (t : string) : bool := is_type "LaunchKernelWithHandle" t || is_type "LaunchMixKernelWithHandle" t.
Definition IsLaunchWithFlagNode (t : string) : bool := is_type "LaunchKernelWithFlag" t || is_type "LaunchMixKernelWithFlag" t.
Definition IsLaunchFFTSPlusTaskNode (t : string) : bool := is_type "LaunchFFTSPlusTask" t || is_type "LaunchFFTSPlusTaskNoCopy" t.
Definition IsAtomicLaunchNode (t : string) : bool := is_type "AtomicLaunchKernelWithFlag" t || is_type "AtomicLaunchKernelWithHandle" t.
Definition IsAiCoreLaunchNode (t : string) : bool := IsLaunchWithHandleNode t || IsLaunchWithFlagNode t || IsAtomicLaunchNode t.
Definition IsAiCpuLaunchNode (t : string) : bool := is_type "AicpuLaunchTfKernel" t || is_type "AicpuLaunchCCKernel" t.
Definition IsLaunchNode (t : string) : bool :=
  IsAiCoreLaunchNode t || IsAiCpuLaunchNode t || is_type "StarsTaskLaunchKernel" t || IsLaunchFFTSPlusTaskNode t || is_type "LaunchHcomKernel" t ||
  is_type "DavinciModelExecute" t || is_type "ExecuteOpFunc" t || is_type "ExecuteOpLaunch" t || is_type "ExecuteCustomOp" t.

(** The six kinds that are not executed. *)
Definition IsGraphInputNode (t : string) : bool := IsFeedType t || IsConstFeedType t.
Definition IsGraphOutputNode (t : string) : bool := IsOutputType t.
Definition IsUsrOutputNode (t : string) : bool := IsTypeOutputData t.
Definition IsMemTransferNode (t : string) : bool := IsInnerDataType t || IsInnerOutput t.
Definition IsHasSubGraphNode (t : string) : bool := IsIfOrCaseType t || IsWhileType t || IsSubgraphCall t.
Definition IsStroreConstDataNode (t : string) : bool := IsConstType t.

Definition IsNodeNeedExec (t : string) : bool :=
  negb (IsGraphInputNode t || IsGraphOutputNode t || IsUsrOutputNode t || IsMemTransferNode t || IsHasSubGraphNode t || IsStroreConstDataNode t).

(** ** The graph *)

(** The edges are null where the library left a hole; an edge is known by the
    node at its other end.  [fn_subgraphs] are the graphs that the root graph has
    under the node's instance names, each with its direct nodes; then the
    attributes the builders read, and for each output whether it is marked as a
    reference to another node's. *)
Record FastNode := MkNode {
  fn_type : string;
  fn_in_data : list (option nat);
  fn_in_control : list (option nat);
  fn_out_data : list (list (option nat));
  fn_out_control : list (option nat);
  fn_subgraphs : list (option (list nat));
  fn_index : option Z;
  fn_branch : option Z;
  fn_priority : option Z;
  fn_request_watcher : option bool;
  fn_in_symbols : list Z;
  fn_out_symbols : list Z;
  fn_out_refs : list bool;
  fn_compute_index : option Z;
  fn_extend_index : option Z;
}.

Definition present (edges : list (option nat)) : list nat := omap id edges.
Definition GetAllInNodes (n : FastNode) : list nat := present (fn_in_data n) ++ present (fn_in_control n).
Definition GetAllOutNodes (n : FastNode) : list nat := (fn_out_data n ≫= present) ++ present (fn_out_control n).

(** An execute graph: its nodes, with the ones of all subgraphs, and its own. *)
Record ExecuteGraph := MkGraph {
  fast_node : nat -> FastNode;
  GetAllNodes : list nat;
  GetDirectNode : list nat;
}.

(** ** GraphNode *)

(** Chains by node, [GraphAsyncValue]; a chain is known by a number. *)
Record GraphAsyncValue := MkValues {
  total_num : nat;
  nodes_to_output_values : gmap nat (list nat);
  nodes_to_input_values : gmap nat (list nat);
}.

(** The node made for a node of the graph has as its [node_id] its place in
    [nodes]; [watcher_address] is the attribute some kernels ask for. *)
Record GraphNode := MkGraphNode {
  gn_nodes : list nat;
  graph_nodes_to_executor_node : gmap nat nat;
  gn_indegrees : list Z;
  indexes_to_feed_input : gmap Z nat;
  indexes_to_output : list nat;
  gn_start_nodes : list nat;
  feed_nodes : list nat;
  gn_watchers : list (option (list nat));
  additional_add_info : gmap nat (list nat);
  additional_del_info : gmap nat (list nat);
  additional_indegree_info : gmap nat Z;
  watcher_address : gmap nat nat;
}.

Definition empty_graph_node : GraphNode := MkGraphNode [] ∅ [] ∅ [] [] [] [] ∅ ∅ ∅ ∅.

Definition set_exe (nodes : list nat) (m : gmap nat nat) (g : GraphNode) : GraphNode :=
  MkGraphNode nodes m (gn_indegrees g) (indexes_to_feed_input g) (indexes_to_output g) (gn_start_nodes g) (feed_nodes g) (gn_watchers g)
    (additional_add_info g) (additional_del_info g) (additional_indegree_info g) (watcher_address g).
Definition set_feed (m : gmap Z nat) (fs : list nat) (g : GraphNode) : GraphNode :=
  MkGraphNode (gn_nodes g) (graph_nodes_to_executor_node g) (gn_indegrees g) m (indexes_to_output g) (gn_start_nodes g) fs (gn_watchers g)
    (additional_add_info g) (additional_del_info g) (additional_indegree_info g) (watcher_address g).
Definition set_outputs (os : list nat) (g : GraphNode) : GraphNode :=
  MkGraphNode (gn_nodes g) (graph_nodes_to_executor_node g) (gn_indegrees g) (indexes_to_feed_input g) os (gn_start_nodes g) (feed_nodes g) (gn_watchers g)
    (additional_add_info g) (additional_del_info g) (additional_indegree_info g) (watcher_address g).
Definition set_topo (ds : list Z) (ss : list nat) (ws : list (option (list nat))) (g : GraphNode) : GraphNode :=
  MkGraphNode (gn_nodes g) (graph_nodes_to_executor_node g) ds (indexes_to_feed_input g) (indexes_to_output g) ss (feed_nodes g) ws
    (additional_add_info g) (additional_del_info g) (additional_indegree_info g) (watcher_address g).
Definition set_additional (adds dels : gmap nat (list nat)) (ds : gmap nat Z) (g : GraphNode) : GraphNode :=
  MkGraphNode (gn_nodes g) (graph_nodes_to_executor_node g) (gn_indegrees g) (indexes_to_feed_input g) (indexes_to_output g) (gn_start_nodes g) (feed_nodes g)
    (gn_watchers g) adds dels ds (watcher_address g).
Definition set_address (m : gmap nat nat) (g : GraphNode) : GraphNode :=
  MkGraphNode (gn_nodes g) (graph_nodes_to_executor_node g) (gn_indegrees g) (indexes_to_feed_input g) (indexes_to_output g) (gn_start_nodes g) (feed_nodes g)
    (gn_watchers g) (additional_add_info g) (additional_del_info g) (additional_indegree_info g) m.

(** [map[key]] of a map to vectors or numbers. *)
Definition vec (m : gmap nat (list nat)) (k : nat) : list nat := default [] (m !! k).
Definition num (m : gmap nat Z) (k : nat) : Z := default 0%Z (m !! k).

Definition put {A} (l : list A) (i : nat) (v : A) : outcome (list A) := if decide (i < length l) then Ok (<[i := v]> l) else Fault.

Section graph_node.
Context (ErrorResult : Status) (g : ExecuteGraph).
Abbreviation info := (fast_node g).
Abbreviation type_of node := (fn_type (info node)).

(** [GE_ASSERT_TRUE], [GE_ASSERT_NOTNULL] and [GE_ASSERT_SUCCESS]. *)
Definition assert_true (b : bool) : outcome unit := if b then Ok tt else Err ErrorResult.
Definition assert_some {A} (o : option A) : outcome A := match o with Some a => Ok a | None => Err ErrorResult end.
Definition assert_success {A} (m : outcome A) : outcome A := match m with Ok a => Ok a | Err _ => Err ErrorResult | Fault => Fault end.

(** *** Nodes *)

Definition ReadInFeed (node : nat) (values : GraphAsyncValue) (gn : GraphNode) : outcome GraphNode :=
  match fn_index (info node) with
  | None => Err GRAPH_FAILED
  | Some feed_index =>
      if bool_decide (is_Some (indexes_to_feed_input gn !! feed_index)) then Err PARAM_INVALID else
      match vec (nodes_to_output_values values) node with
      | [] => Err GRAPH_FAILED
      | v :: _ =>
          Ok (set_feed (<[feed_index := v]> (indexes_to_feed_input gn))
                (if IsFeedType (type_of node) then feed_nodes gn ++ [node] else feed_nodes gn) gn)
      end
  end.

Definition ReadInNetOutput (node : nat) (values : GraphAsyncValue) (gn : GraphNode) : outcome GraphNode :=
  let input_values := vec (nodes_to_input_values values) node in
  if decide (length input_values < length (fn_in_symbols (info node))) then Err PARAM_INVALID
  else Ok (set_outputs (indexes_to_output gn ++ input_values) gn).

(** The node gets the next number. *)
Definition ReadInNode (node : nat) (gn : GraphNode) : nat * GraphNode :=
  let id := length (gn_nodes gn) in
  (id, set_exe (gn_nodes gn ++ [id]) (<[node := id]> (graph_nodes_to_executor_node gn)) gn).

(** *** In-degrees and start nodes *)

Definition CalcIndegree (gn : GraphNode) (node : nat) : Z :=
  let incre_indegree indegree (edge : option nat) :=
    match edge with Some src => if IsNodeNeedExec (type_of src) then (indegree + 1)%Z else indegree | None => indegree end in
  let indegree := foldl incre_indegree 0%Z (fn_in_data (info node)) in
  let indegree := foldl incre_indegree indegree (fn_in_control (info node)) in
  let indegree := match additional_indegree_info gn !! node with Some d => (indegree + d)%Z | None => indegree end in
  if IsWaitAnyone (type_of node) then Z.min indegree 1 else indegree.

Definition IsStartNode (gn : GraphNode) (node : nat) : bool :=
  if IsStroreConstDataNode (type_of node) then false else (CalcIndegree gn node =? 0)%Z.

Definition ReadInIndegree (node id : nat) (gn : GraphNode) : outcome GraphNode :=
  ds ← put (gn_indegrees gn) id (CalcIndegree gn node);
  Ok (set_topo ds (gn_start_nodes gn) (gn_watchers gn) gn).

Definition ReadInStartNode (node id : nat) (gn : GraphNode) : GraphNode :=
  if IsStartNode gn node then set_topo (gn_indegrees gn) (gn_start_nodes gn ++ [id]) (gn_watchers gn) gn else gn.

(** *** Watchers *)

Definition GetExeNodeId (gn : GraphNode) (node : nat) : outcome nat := assert_some (graph_nodes_to_executor_node gn !! node).

Definition push_id (gn : GraphNode) (watch_node : nat) (watch_nodes : list nat) : outcome (list nat) :=
  node_id ← assert_success (GetExeNodeId gn watch_node); Ok (watch_nodes ++ [node_id]).

(** [std::find] and [erase] *)
Fixpoint erase_first (x : nat) (l : list nat) : list nat :=
  match l with [] => [] | y :: l => if decide (y = x) then l else y :: erase_first x l end.

Definition UpdateWatcherInfo (gn : GraphNode) (node : nat) (watch_nodes : list nat) : outcome (list nat) :=
  watch_nodes ← foldM (push_id gn) (vec (additional_add_info gn) node) watch_nodes;
  foldM (fun watch_node ws => node_id ← assert_success (GetExeNodeId gn watch_node); Ok (erase_first node_id ws))
    (vec (additional_del_info gn) node) watch_nodes.

Definition watch_edge (gn : GraphNode) (edge : option nat) (watch_nodes : list nat) : outcome (list nat) :=
  match edge with Some dst => if IsNodeNeedExec (type_of dst) then push_id gn dst watch_nodes else Ok watch_nodes | None => Ok watch_nodes end.

Definition ReadInWatcher (node id : nat) (gn : GraphNode) : outcome GraphNode :=
  watch_nodes ← foldM (fun edges ws => foldM (watch_edge gn) edges ws) (fn_out_data (info node)) [];
  watch_nodes ← foldM (watch_edge gn) (fn_out_control (info node)) watch_nodes;
  watch_nodes ← assert_success (UpdateWatcherInfo gn node watch_nodes);
  ws ← put (gn_watchers gn) id (Some watch_nodes);
  Ok (set_topo (gn_indegrees gn) (gn_start_nodes gn) ws gn).

Definition AssembleNodeRequestedExtraInfos (node id : nat) (gn : GraphNode) : outcome GraphNode :=
  if default false (fn_request_watcher (info node)) then Ok (set_address (<[node := id]> (watcher_address gn)) gn) else Ok gn.

Definition ReadInTopoInfo (node id : nat) (gn : GraphNode) : outcome GraphNode :=
  gn ← ReadInIndegree node id gn;
  let gn := ReadInStartNode node id gn in
  gn ← assert_success (ReadInWatcher node id gn);
  assert_success (AssembleNodeRequestedExtraInfos node id gn).

(** *** Subgraphs *)

Definition FindFirstNodeMatchType (graph : list nat) (type : string) : option nat := head (filter (fun n => type_of n = type) graph).

Definition GetSubgraphFromNode (node index : nat) : option (list nat) := default None (fn_subgraphs (info node) !! index).

Definition IsZeroInDegree (n : nat) : bool := IsInnerDataType (type_of n) || IsConstType (type_of n).
Definition IsSrcZeroInDegree (e : option nat) : bool := match e with None => true | Some src => IsZeroInDegree src end.
Definition IsGuardedByPivot (n : nat) : bool :=
  if IsZeroInDegree n then false else forallb IsSrcZeroInDegree (fn_in_data (info n)) && forallb IsSrcZeroInDegree (fn_in_control (info n)).

(** The first and the last node of a node of control flow. *)
Definition GetCtrlGraphInfo (node : nat) : outcome (nat * nat) :=
  if IsIfOrCaseType (type_of node) then
    cond_graph ← assert_some (GetSubgraphFromNode node 0);
    start ← assert_some (FindFirstNodeMatchType cond_graph "SwitchNotify");
    end_ ← assert_some (FindFirstNodeMatchType cond_graph "WaitAnyone");
    Ok (start, end_)
  else if IsWhileType (type_of node) then
    control_graph ← assert_some (GetSubgraphFromNode node 0);
    start ← assert_some (FindFirstNodeMatchType control_graph "Enter");
    end_ ← assert_some (FindFirstNodeMatchType control_graph "Exit");
    Ok (start, end_)
  else Err GRAPH_FAILED.

Definition is_no_need_update (t : string) : bool :=
  IsGraphInputNode t || IsGraphOutputNode t || IsUsrOutputNode t || IsMemTransferNode t || IsStroreConstDataNode t.

Definition SetAdditionalInfo (src_node dst_node : nat) (isAdd : bool) (gn : GraphNode) : outcome GraphNode :=
  if is_no_need_update (type_of src_node) || is_no_need_update (type_of dst_node) then Ok gn else
  src_node ← (if IsHasSubGraphNode (type_of src_node) then se ← assert_success (GetCtrlGraphInfo src_node); Ok se.2 else Ok src_node);
  dst_node ← (if IsHasSubGraphNode (type_of dst_node) then se ← assert_success (GetCtrlGraphInfo dst_node); Ok se.1 else Ok dst_node);
  if isAdd : bool then
    Ok (set_additional (<[src_node := vec (additional_add_info gn) src_node ++ [dst_node]]> (additional_add_info gn)) (additional_del_info gn)
          (<[dst_node := (num (additional_indegree_info gn) dst_node + 1)%Z]> (additional_indegree_info gn)) gn)
  else
    Ok (set_additional (additional_add_info gn) (<[src_node := vec (additional_del_info gn) src_node ++ [dst_node]]> (additional_del_info gn))
          (<[dst_node := (num (additional_indegree_info gn) dst_node - 1)%Z]> (additional_indegree_info gn)) gn).
Definition AddAdditionalInfo (src_node dst_node : nat) : GraphNode -> outcome GraphNode := SetAdditionalInfo src_node dst_node true.
Definition RemoveAdditionalInfo (src_node dst_node : nat) : GraphNode -> outcome GraphNode := SetAdditionalInfo src_node dst_node false.

(** [GE_ASSERT_GRAPH_SUCCESS(AddAdditionalInfo(...))] *)
Definition link (src_node dst_node : nat) (gn : GraphNode) : outcome GraphNode := assert_success (AddAdditionalInfo src_node dst_node gn).

(** The leaves of a graph but its output. *)
Definition is_leaf (n : nat) : bool := bool_decide (GetAllOutNodes (info n) = []) && negb (IsInnerOutput (type_of n)).

Definition GuardGraphByPivotAndDone (graph : list nat) (pivot done : nat) (gn : GraphNode) : outcome GraphNode :=
  gn ← foldM (fun body_node gn => if IsGuardedByPivot body_node then link pivot body_node gn else Ok gn) graph gn;
  net_output ← assert_some (FindFirstNodeMatchType graph "InnerNetOutput");
  gn ← foldM (fun body_output gn => link body_output done gn) (GetAllInNodes (info net_output)) gn;
  foldM (fun node gn => if is_leaf node then link node done gn else Ok gn) graph gn.

(** The nodes of one branch of an if or a case. *)
Definition ReadInBranchNode (node cond_node : nat) (gn : GraphNode) : outcome GraphNode :=
  let op_type := type_of cond_node in
  if negb (IsBranchPivot op_type) && negb (IsBranchDone op_type) then Ok gn else
  branch_index ← assert_some (fn_branch (info cond_node));
  branch_graph ← assert_some (GetSubgraphFromNode node (Z.to_nat (branch_index mod 2 ^ 32)));
  if IsBranchDone op_type then
    net_output ← assert_some (FindFirstNodeMatchType branch_graph "InnerNetOutput");
    gn ← foldM (fun in_ gn => link in_ cond_node gn) (GetAllInNodes (info net_output)) gn;
    foldM (fun tmp_node gn => if is_leaf tmp_node then link tmp_node cond_node gn else Ok gn) branch_graph gn
  else foldM (fun sub_n gn => if IsGuardedByPivot sub_n then link cond_node sub_n gn else Ok gn) branch_graph gn.

Definition ReadInIfOrCase (node : nat) (gn : GraphNode) : outcome GraphNode :=
  cond_graph ← assert_some (GetSubgraphFromNode node 0);
  switch_notify ← assert_some (FindFirstNodeMatchType cond_graph "SwitchNotify");
  gn ← foldM (fun in_ gn => link in_ switch_notify gn) (GetAllInNodes (info node)) gn;
  wait_anyone ← assert_some (FindFirstNodeMatchType cond_graph "WaitAnyone");
  gn ← foldM (fun out gn => link wait_anyone out gn) (GetAllOutNodes (info node)) gn;
  foldM (ReadInBranchNode node) cond_graph gn.

Definition ReadInWhile (node : nat) (gn : GraphNode) : outcome GraphNode :=
  control_graph ← assert_some (GetSubgraphFromNode node 0);
  enter ← assert_some (FindFirstNodeMatchType control_graph "Enter");
  gn ← foldM (fun in_ gn => link in_ enter gn) (GetAllInNodes (info node)) gn;
  exit ← assert_some (FindFirstNodeMatchType control_graph "Exit");
  gn ← foldM (fun out gn => link exit out gn) (GetAllOutNodes (info node)) gn;
  wait_anyone ← assert_some (FindFirstNodeMatchType control_graph "WaitAnyone");
  body_pivot ← assert_some (FindFirstNodeMatchType control_graph "BranchPivot");
  body_done ← assert_some (FindFirstNodeMatchType control_graph "BranchDone");
  gn ← link body_done wait_anyone gn;
  body_graph ← assert_some (GetSubgraphFromNode node 1);
  assert_success (GuardGraphByPivotAndDone body_graph body_pivot body_done gn).

Definition ReadInSubgraphCall (node : nat) (gn : GraphNode) : outcome GraphNode :=
  control_graph ← assert_some (GetSubgraphFromNode node 0);
  pivot ← assert_some (FindFirstNodeMatchType control_graph "BranchPivot");
  gn ← foldM (fun in_ gn => link in_ pivot gn) (GetAllInNodes (info node)) gn;
  done ← assert_some (FindFirstNodeMatchType control_graph "BranchDone");
  gn ← foldM (fun out gn => link done out gn) (GetAllOutNodes (info node)) gn;
  body_graph ← assert_some (GetSubgraphFromNode node 1);
  assert_success (GuardGraphByPivotAndDone body_graph pivot done gn).

Definition ReadInNodeHasSubgraph (node : nat) (gn : GraphNode) : outcome GraphNode :=
  if IsIfOrCaseType (type_of node) then ReadInIfOrCase node gn
  else if IsWhileType (type_of node) then ReadInWhile node gn
  else if IsSubgraphCall (type_of node) then ReadInSubgraphCall node gn
  else Err GRAPH_FAILED.
End graph_node.
