(* ===== verification/ExecBuild.v ===== *)
(** * ExecBuild: the builders of execution data

    [sequential_execution_data_builder.cc] and
    [topological_execution_data_builder.cc] of [runtime/v2/core/executor], and
    how [builder/graph_executor_builder.cc] chooses between them.  The registry
    of kernels and the buffers of the model are parameters. *)

From stdpp Require Import strings sorting.
From S2P Require Import Prelude ExecReady ExecTopo ExecGraph.

#[local] Open Scope nat_scope.

Definition kInvalidSymbol : Z := 2 ^ 64 - 1.
Definition max_priority : Z := 2 ^ 63 - 1.

(** What the registry and the model say: the kernel of a type is known, and may
    have a function that creates the outputs of a node; how many buffers there
    are. *)
Record Registry := MkRegistry {
  FindKernelFuncs : string -> option (option (nat -> bool));
  compute_nodes_num : Z;
  kernel_extend_num : Z;
}.

(** ** Chains *)

(** A value is known by the number it gets in the order of allocation;
    [symbols_to_value] is shared by the graphs of a model. *)
Abbreviation SymbolsToValue := (gmap Z nat).

Section values.
Context (ErrorResult : Status) (g : ExecuteGraph).

Definition node_symbols (node : nat) : list Z := fn_out_symbols (fast_node g node) ++ fn_in_symbols (fast_node g node).

(** The symbols without a value yet, in the order they are met. *)
Definition meet_symbol (known : SymbolsToValue) (symbol : Z) (ordered : list Z) : list Z :=
  match known !! symbol with None => if decide (symbol ∈ ordered) then ordered else ordered ++ [symbol] | Some _ => ordered end.

Definition meet_node (known : SymbolsToValue) (node : nat) (ordered : list Z) : outcome (list Z) :=
  _ ← assert_true ErrorResult (forallb (fun symbol => negb (symbol =? kInvalidSymbol)%Z) (node_symbols node));
  Ok (foldl (fun ordered symbol => meet_symbol known symbol ordered) ordered (node_symbols node)).

(** Values are given one after the other, from [base]. *)
Definition give_values (base : nat) (ordered : list Z) (known : SymbolsToValue) : SymbolsToValue :=
  foldl (fun m '(k, symbol) => <[symbol := base + k]> m) known (zip (seq 0 (length ordered)) ordered).

(** A node reads its chains through its symbols; one that has none stays null,
    which does not happen. *)
Definition chain_of (values : SymbolsToValue) (symbol : Z) : nat := default 0 (values !! symbol).

Definition AllocGraphAsyncValues (base : nat) (graph_nodes : list nat) (known : SymbolsToValue) : outcome (GraphAsyncValue * SymbolsToValue) :=
  ordered ← foldM (meet_node known) graph_nodes [];
  let values := give_values base ordered known in
  Ok (MkValues (length ordered)
        (foldl (fun m node => <[node := chain_of values <$> fn_out_symbols (fast_node g node)]> m) ∅ graph_nodes)
        (foldl (fun m node => <[node := chain_of values <$> fn_in_symbols (fast_node g node)]> m) ∅ graph_nodes), values).
End values.

(** ** Reading the nodes *)

(** The builder's state: the nodes of the graph with the nodes made for them. *)
Record Builder := MkBuilder { b_graph_node : GraphNode; ordered_graph_to_exe_nodes : list (nat * nat) }.

(** [std::map<int64_t, std::queue<...>>]: the keys ascend. *)
Abbreviation PriorityNodes := (list (Z * list nat)).

Fixpoint push_at (priority : Z) (node : nat) (m : PriorityNodes) : PriorityNodes :=
  match m with
  | [] => [(priority, [node])]
  | (k, q) :: m' => if (priority <? k)%Z then (priority, [node]) :: m else if (priority =? k)%Z then (k, q ++ [node]) :: m' else (k, q) :: push_at priority node m'
  end.

Section builder.
Context (ErrorResult : Status) (reg : Registry) (g : ExecuteGraph).
Abbreviation info := (fast_node g).
Abbreviation type_of node := (fn_type (info node)).

Definition ReadInOneNode (values : GraphAsyncValue) (node : nat) (b : Builder) : outcome Builder :=
  let node_type := type_of node in
  let keep m := gn ← m; Ok (MkBuilder gn (ordered_graph_to_exe_nodes b)) in
  if IsMemTransferNode node_type || IsUsrOutputNode node_type then Ok b
  else if IsGraphInputNode node_type then keep (ReadInFeed g node values (b_graph_node b))
  else if IsGraphOutputNode node_type then keep (ReadInNetOutput g node values (b_graph_node b))
  else if IsHasSubGraphNode node_type then keep (ReadInNodeHasSubgraph ErrorResult g node (b_graph_node b))
  else
    let '(id, gn) := ReadInNode node (b_graph_node b) in
    Ok (MkBuilder gn (ordered_graph_to_exe_nodes b ++ [(node, id)])).

Definition ReadInNodes (values : GraphAsyncValue) (b : Builder) : outcome Builder :=
  foldM (fun node b => assert_success ErrorResult (ReadInOneNode values node b)) (GetAllNodes g) b.

(** *** By priority *)

Definition node_priority (node : nat) : Z := default max_priority (fn_priority (info node)).

(** The nodes that are ready, those that were seen, and what the others wait
    for. *)
Record Ready := MkReady { priorities_to_ready_nodes : PriorityNodes; seen_nodes : gset nat; indegree_map : gmap nat Z }.

Definition PushToReadyQueue (node : nat) (r : Ready) : Ready :=
  if decide (node ∈ seen_nodes r) then r
  else MkReady (push_at (node_priority node) node (priorities_to_ready_nodes r)) ({[node]} ∪ seen_nodes r) (indegree_map r).

(** Not called on an empty map, nor with an empty queue in it. *)
Definition PopFromReadyQueue (r : Ready) : outcome (nat * Ready) :=
  match priorities_to_ready_nodes r with
  | (k, node :: q) :: m => Ok (node, MkReady (match q with [] => m | _ => (k, q) :: m end) (seen_nodes r) (indegree_map r))
  | _ => Fault
  end.

Definition collect_nodes (edge : option nat) (r : Ready) : outcome Ready :=
  match edge with
  | None => Ok r
  | Some out_node =>
      d ← assert_some ErrorResult (indegree_map r !! out_node);
      let d := ((d - 1) mod 2 ^ 64)%Z in
      let r := MkReady (priorities_to_ready_nodes r) (seen_nodes r) (<[out_node := d]> (indegree_map r)) in
      if (0 <? d)%Z then Ok r else Ok (PushToReadyQueue out_node r)
  end.

(** Every edge, the ones of the outputs first. *)
Definition collect_all (node : nat) (r : Ready) : outcome Ready :=
  r ← foldM (fun edges r => foldM (fun edge r => assert_success ErrorResult (collect_nodes edge r)) edges r) (fn_out_data (info node)) r;
  foldM (fun edge r => assert_success ErrorResult (collect_nodes edge r)) (fn_out_control (info node)) r.

Definition init_ready (node : nat) (r : Ready) : Ready :=
  let in_nodes_size := length (GetAllInNodes (info node)) in
  let r := MkReady (priorities_to_ready_nodes r) (seen_nodes r) (<[node := Z.of_nat in_nodes_size]> (indegree_map r)) in
  if decide (in_nodes_size = 0) then PushToReadyQueue node r else r.

(** A node is pushed once: as many turns as there are nodes, and one to find
    the map empty. *)
Fixpoint read_loop (fuel : nat) (values : GraphAsyncValue) (r : Ready) (b : Builder) : outcome Builder :=
  match priorities_to_ready_nodes r with
  | [] => Ok b
  | _ =>
      match fuel with
      | O => Fault
      | S fuel =>
          '(node, r) ← PopFromReadyQueue r;
          b ← assert_success ErrorResult (ReadInOneNode values node b);
          r ← collect_all node r;
          read_loop fuel values r b
      end
  end.

Definition ReadInNodesByPriority (values : GraphAsyncValue) (b : Builder) : outcome Builder :=
  let r := foldl (fun r node => init_ready node r) (MkReady [] ∅ ∅) (GetDirectNode g) in
  read_loop (length (GetDirectNode g)) values r b.

(** *** Inputs *)

(** [indexes_to_feed_input] in the order of its keys. *)
Definition feed_order (x y : Z * nat) : Prop := (x.1 <= y.1)%Z.
#[local] Instance feed_order_dec x y : Decision (feed_order x y) := decide (x.1 <= y.1)%Z.
Definition feeds (m : gmap Z nat) : list (Z * nat) := merge_sort feed_order (map_to_list m).

(** The two loops: the array, the next index, and the negative indices in
    descending order; [None] is the null pointer the function returns. *)
Definition place_feed (st : option (list (option nat) * Z * list Z)) (feed : Z * nat) : option (list (option nat) * Z * list Z) :=
  '(arr, index, appended) ← st;
  let '(k, v) := feed in
  if (0 <=? k)%Z then if (index =? k)%Z then Some (<[Z.to_nat index := Some v]> arr, (index + 1)%Z, appended) else None
  else if decide (k ∈ appended) then None else Some (arr, index, k :: appended).

Definition append_feed (m : gmap Z nat) (feed_size : Z) (st : option (list (option nat) * Z)) (k : Z) : option (list (option nat) * Z) :=
  '(arr, index) ← st;
  let append_index := (k * -1 - 1)%Z in
  if (append_index + feed_size =? index)%Z then Some (<[Z.to_nat index := m !! k]> arr, (index + 1)%Z) else None.

Definition CreateInputValues (m : gmap Z nat) : option (list (option nat)) :=
  '(arr, feed_size, appended) ← foldl place_feed (Some (replicate (size m) None, 0%Z, [])) (feeds m);
  fst <$> foldl (append_feed m feed_size) (Some (arr, feed_size)) appended.

(** ** Kernels and their outputs *)

Definition InitAllKernelFunctions (nodes : list (nat * nat)) : outcome unit :=
  foldM (fun '(org_node, _) _ => match FindKernelFuncs reg (type_of org_node) with None => Err GRAPH_FAILED | Some _ => Ok tt end) nodes tt.

(** [Get<void>(index)] with the index converted to [size_t]. *)
Definition buffer (n : Z) (index : option Z) : outcome (option Z) :=
  match index with None => Ok None | Some i => let i := (i mod 2 ^ 64)%Z in if (i <? n)%Z then Ok (Some i) else Err GRAPH_FAILED end.

(** The compute node info and the kernel extend info of each node. *)
Definition InitAllKernelExtendInfos (nodes : list (nat * nat)) : outcome (list (option Z * option Z)) :=
  foldM (fun '(org_node, _) infos =>
    node_info ← buffer (compute_nodes_num reg) (fn_compute_index (info org_node));
    ke_info ← buffer (kernel_extend_num reg) (fn_extend_index (info org_node));
    Ok (infos ++ [(node_info, ke_info)])) nodes [].

Definition HasOutputsNeedCreate (node : nat) : bool := existsb negb (fn_out_refs (info node)).

Definition CreateKernelOutputs (nodes : list (nat * nat)) : outcome unit :=
  foldM (fun '(org_node, exe_node) _ =>
    if negb (HasOutputsNeedCreate org_node) then Ok tt else
    match FindKernelFuncs reg (type_of org_node) with
    | None => Err GRAPH_FAILED
    | Some None => Ok tt
    | Some (Some outputs_creator) => if outputs_creator exe_node : bool then Ok tt else Err FAILED
    end) nodes tt.

(** ** Sequential execution data *)

Record SequentialExecutionData := MkSeqEd {
  s_nodes : list nat;
  s_input_values : list (option nat);
  s_output_values : list nat;
}.

Definition CreateSequentialData (gn : GraphNode) : outcome SequentialExecutionData :=
  input_values ← match CreateInputValues (indexes_to_feed_input gn) with
                 | Some arr => Ok arr
                 | None => if decide (0 < size (indexes_to_feed_input gn)) then Err ErrorResult else Ok []
                 end;
  Ok (MkSeqEd (gn_nodes gn) input_values (indexes_to_output gn)).

(** [Build(execution_data, resource_guard, graph_nodes)]: the data, the builder
    and the values the later graphs of the model see. *)
Definition SequentialBuildData (re_order_by_priority : bool) (base : nat) (known : SymbolsToValue) :
    outcome (SequentialExecutionData * Builder * SymbolsToValue) :=
  '(values, known) ← assert_success ErrorResult (AllocGraphAsyncValues ErrorResult g base (GetAllNodes g) known);
  let b := MkBuilder empty_graph_node [] in
  b ← assert_success ErrorResult (if re_order_by_priority then ReadInNodesByPriority values b else ReadInNodes values b);
  _ ← assert_success ErrorResult (InitAllKernelFunctions (ordered_graph_to_exe_nodes b));
  _ ← assert_success ErrorResult (InitAllKernelExtendInfos (ordered_graph_to_exe_nodes b));
  ed ← CreateSequentialData (b_graph_node b);
  Ok (ed, b, known).

Definition SequentialBuild (base : nat) (known : SymbolsToValue) : outcome (SequentialExecutionData * Builder) :=
  '(ed, b, _) ← assert_success ErrorResult (SequentialBuildData true base known);
  _ ← assert_success ErrorResult (CreateKernelOutputs (ordered_graph_to_exe_nodes b));
  Ok (ed, b).

(** ** Topological execution data *)

(** [SetPriorityForNode], by the number of the node that was made. *)
Definition exe_priority (nodes : list (nat * nat)) (id : nat) : Z := default max_priority ('(org_node, _) ← nodes !! id; fn_priority (info org_node)).

(** The graph nodes with their in-degrees and watchers. *)
Definition ReadInTopo (b : Builder) : outcome GraphNode :=
  let n := length (ordered_graph_to_exe_nodes b) in
  let gn := set_topo (replicate n 0%Z) (gn_start_nodes (b_graph_node b)) (replicate n None) (b_graph_node b) in
  foldM (fun '(node, id) gn => assert_success ErrorResult (ReadInTopoInfo ErrorResult g node id gn)) (ordered_graph_to_exe_nodes b) gn.

(** [CreateExecutionData]: a ring, or a heap, for the ready nodes. *)
Definition CreateTopologicalData {Q M} (queue : Q) (gn : GraphNode) (mem : M) : TopologicalExecutionData Q M :=
  MkEd (length (gn_nodes gn)) (gn_nodes gn) queue (gn_start_nodes gn) (gn_indegrees gn) (gn_indegrees gn) mem.

(** [TopologicalExecutionDataBuilder::Build]; the data is what follows. *)
Definition TopologicalBuildNodes (base : nat) (known : SymbolsToValue) : outcome (GraphNode * Builder) :=
  '(_, b, _) ← assert_success ErrorResult (SequentialBuildData false base known);
  gn ← assert_success ErrorResult (ReadInTopo b);
  _ ← assert_success ErrorResult (CreateKernelOutputs (ordered_graph_to_exe_nodes b));
  Ok (gn, b).

Definition TopologicalBuild {M} (base : nat) (known : SymbolsToValue) (load : GraphNode -> M) :
    outcome (TopologicalExecutionData RingQueue M) :=
  '(gn, _) ← TopologicalBuildNodes base known;
  Ok (CreateTopologicalData (Ring.Create (length (gn_nodes gn))) gn (load gn)).

(** With [priority_execution_], and the priorities of the nodes. *)
Definition PriorityTopologicalBuild {M} (base : nat) (known : SymbolsToValue) (load : GraphNode -> M) :
    outcome (TopologicalExecutionData PriorityQueue M * (nat -> Z)) :=
  '(gn, b) ← TopologicalBuildNodes base known;
  Ok (CreateTopologicalData (Heap.Create (length (gn_nodes gn) + 1)) gn (load gn), exe_priority (ordered_graph_to_exe_nodes b)).
End builder.

(** ** Which executor *)

Inductive ExecutorType := kSequentialPriority | kTopological | kTopologicalPriority | kTopologicalMultiThread | kEnd.

Record ExecutorSelectionArgs := MkArgs { has_ctrl_node : bool; launch_num : nat }.

Definition ExtractImportantInfo (g : ExecuteGraph) : ExecutorSelectionArgs :=
  foldl (fun arg node =>
    let node_type := fn_type (fast_node g node) in
    if negb (has_ctrl_node arg) && (IsIfOrCaseType node_type || IsWhileType node_type) then MkArgs true (launch_num arg)
    else if IsLaunchNode node_type then MkArgs (has_ctrl_node arg) (launch_num arg + 1) else arg) (MkArgs false 0) (GetAllNodes g).

#[export] Instance ExecutorType_eq_dec : EqDecision ExecutorType.
Proof. solve_decision. Defined.

Definition SelectExecutor (g : ExecuteGraph) (executor_option : option ExecutorType) : ExecutorType :=
  let chosen := match executor_option with Some t => if decide (t <> kEnd) then Some t else None | None => None end in
  match chosen with
  | Some t => t
  | None =>
      let arg := ExtractImportantInfo g in
      if negb (has_ctrl_node arg) then kSequentialPriority else if decide (5 <= launch_num arg) then kTopologicalPriority else kTopological
  end.
