(* ===== verification/ExecGraphSound.v ===== *)
(** * ExecGraphSound: in-degrees count watchers

    Whatever the control flow in the graph, the in-degree the builder gives a
    node is the number of times executed nodes will notify it: the additional
    links enter both sides of the balance.  A graph without control flow and
    without cycles therefore gets a plan the executors are correct for. *)

From stdpp Require Import strings.
From S2P Require Import Prelude ExecReady ExecTopo ExecTopoSound ExecGraph ExecBuild.

#[local] Open Scope nat_scope.

Create HintDb link_db.

(** ** When a function succeeds *)

Definition post {A} (m : outcome A) (P : A -> Prop) : Prop := forall a, m = Ok a -> P a.

Lemma post_ok {A} (a : A) (P : A -> Prop) : P a -> post (Ok a) P.
Proof. by intros H b [= <-]. Qed.

Lemma post_err {A} e (P : A -> Prop) : post (Err e) P.
Proof. by intros b. Qed.

Lemma post_bind {A B} (m : outcome A) (f : A -> outcome B) (P : A -> Prop) (R : B -> Prop) :
  post m P -> (forall a, P a -> post (f a) R) -> post (m ≫= f) R.
Proof. intros Hm Hf b (a & Ea & Eb)%bind_Ok. by apply (Hf a); [apply Hm|]. Qed.

Lemma post_mono {A} (m : outcome A) (P R : A -> Prop) : post m P -> (forall a, P a -> R a) -> post m R.
Proof. intros Hm HR a Ea. by apply HR, Hm. Qed.

Lemma post_success {A} e (m : outcome A) P : post m P -> post (assert_success e m) P.
Proof. destruct m; simpl; [done|intros _; apply post_err|by intros _ ?]. Qed.

Lemma post_some {A} e (o : option A) : post (assert_some e o) (fun a => o = Some a).
Proof. destruct o; simpl; [by apply post_ok|apply post_err]. Qed.

Lemma post_some_bind {A B} e (o : option A) (f : A -> outcome B) R : (forall a, o = Some a -> post (f a) R) -> post (assert_some e o ≫= f) R.
Proof. intros Hf. eapply post_bind; [apply post_some|exact Hf]. Qed.

Lemma post_fold {S A} (I : S -> Prop) (body : A -> S -> outcome S) l s :
  I s -> (forall x s, x ∈ l -> I s -> post (body x s) I) -> post (foldM body l s) I.
Proof.
  revert s. induction l as [|x l IH]; intros s Hs Hb; simpl; [by apply post_ok|].
  apply (post_bind _ _ I); [apply Hb; [left|done]|]. intros s' Hs'. apply IH; [done|]. intros y ? Hy. apply Hb. by right.
Qed.

Lemma filter_bool {A} (c : A -> bool) x l : filter (fun n => c n) (x :: l) = if c x then x :: filter (fun n => c n) l else filter (fun n => c n) l.
Proof. rewrite filter_cons. by destruct (c x). Qed.

(** ** The graph *)

Section graph.
Context (e : Status) (g : ExecuteGraph).
Abbreviation info := (fast_node g).
Abbreviation type_of node := (fn_type (info node)).
Abbreviation all := (GetAllNodes g).

(** Executed nodes; nodes that have a node made for them. *)
Definition executed_node (n : nat) : bool := IsNodeNeedExec (type_of n).
Definition made_node (n : nat) : bool := executed_node n || IsConstType (type_of n).
Definition E : list nat := filter (fun n => executed_node n) all.
Definition X : list nat := filter (fun n => made_node n) all.

(** What the library keeps: all nodes are listed once, with those of the
    subgraphs, and an edge is known at both ends. *)
Record graph_ok : Prop := {
  go_nodup : NoDup all;
  go_in n m : n ∈ all -> m ∈ GetAllInNodes (info n) -> m ∈ all;
  go_out n m : n ∈ all -> m ∈ GetAllOutNodes (info n) -> m ∈ all;
  go_sub n i graph m : n ∈ all -> GetSubgraphFromNode g n i = Some graph -> m ∈ graph -> m ∈ all;
  go_edges n m : n ∈ all -> m ∈ all -> occ m (GetAllOutNodes (info n)) = occ n (GetAllInNodes (info m));
}.
Context (Hg : graph_ok).

Lemma elem_of_E n : (n ∈ E) <-> n ∈ all /\ executed_node n = true.
Proof. unfold E. rewrite list_elem_of_filter, Is_true_true. tauto. Qed.

Lemma elem_of_X n : (n ∈ X) <-> n ∈ all /\ made_node n = true.
Proof. unfold X. rewrite list_elem_of_filter, Is_true_true. tauto. Qed.

Lemma find_first graph type n : FindFirstNodeMatchType g graph type = Some n -> n ∈ graph /\ type_of n = type.
Proof.
  unfold FindFirstNodeMatchType. intros Hh. assert (Hin : n ∈ filter (fun n => type_of n = type) graph).
  { destruct (filter _ graph); [done|]. injection Hh as ->. left. } apply list_elem_of_filter in Hin as [? ?]. done.
Qed.

(** *** Additional links *)

Record adds_ok (gn : GraphNode) : Prop := {
  ao_del : additional_del_info gn = ∅;
  ao_dst src dst : dst ∈ vec (additional_add_info gn) src -> dst ∈ E;
  ao_balance dst : num (additional_indegree_info gn) dst = Z.of_nat (occ dst (E ≫= vec (additional_add_info gn)));
}.

Lemma bind_update (m : gmap nat (list nat)) (l : list nat) src dst j :
  NoDup l -> src ∈ l -> occ j (l ≫= vec (<[src := vec m src ++ [dst]]> m)) = occ j (l ≫= vec m) + (if decide (dst = j) then 1 else 0).
Proof.
  induction l as [|x l IH]; intros Hnd Hin; [by apply not_elem_of_nil in Hin|]. apply NoDup_cons in Hnd as [Hx Hnd]. rewrite !bind_cons, !occ_app.
  destruct (decide (x = src)) as [->|Hne].
  - assert (Es : l ≫= vec (<[src := vec m src ++ [dst]]> m) = l ≫= vec m).
    { apply Forall_bind_ext, Forall_forall. intros y Hy. unfold vec at 1. rewrite lookup_insert_ne; [done|]. by intros <-. }
    rewrite Es. unfold vec at 1. rewrite lookup_insert_eq. simpl. rewrite occ_app. simpl. lia.
  - apply elem_of_cons in Hin as [?|Hin]; [congruence|]. rewrite IH by done. unfold vec at 1. rewrite lookup_insert_ne by done. unfold vec. lia.
Qed.

(** Only the links change while subgraphs are read. *)
Definition linked (gn0 gn : GraphNode) : Prop :=
  adds_ok gn /\ gn = set_additional (additional_add_info gn) (additional_del_info gn) (additional_indegree_info gn) gn0.

Lemma ctrl_ends node : node ∈ all -> post (GetCtrlGraphInfo e g node) (fun se => se.1 ∈ E /\ se.2 ∈ E).
Proof.
  intros Hn. unfold GetCtrlGraphInfo.
  assert (Hfound : forall graph (i : nat) n type, GetSubgraphFromNode g node i = Some graph -> FindFirstNodeMatchType g graph type = Some n -> IsNodeNeedExec type = true -> n ∈ E).
  { intros graph i n type Hgr [Hin Ht]%find_first He. apply elem_of_E. split; [by apply (go_sub Hg node i graph)|]. unfold executed_node. by rewrite Ht. }
  case_match; [|case_match; [|apply post_err]]; apply post_some_bind; intros graph Hgr;
    apply post_some_bind; intros a Ha; apply post_some_bind; intros b Hb; apply post_ok; simpl; split; (eapply Hfound; [eassumption|eassumption|by vm_compute]).
Qed.

Lemma needs_exec t : is_no_need_update t = false -> IsHasSubGraphNode t = false -> IsNodeNeedExec t = true.
Proof.
  unfold is_no_need_update, IsNodeNeedExec. destruct (IsGraphInputNode t), (IsGraphOutputNode t), (IsUsrOutputNode t), (IsMemTransferNode t), (IsHasSubGraphNode t),
    (IsStroreConstDataNode t); done.
Qed.

Lemma link_ok gn0 src dst gn : src ∈ all -> dst ∈ all -> linked gn0 gn -> post (link e g src dst gn) (linked gn0).
Proof.
  intros Hs Hd HI. apply post_success. unfold AddAdditionalInfo, SetAdditionalInfo. destruct (is_no_need_update (type_of src)) eqn:Es; [by apply post_ok|].
  destruct (is_no_need_update (type_of dst)) eqn:Ed; [by apply post_ok|]. cbn [orb].
  apply (post_bind _ _ (fun src' => src' ∈ E)).
  { case_match; [|apply post_ok, elem_of_E; split; [done|by apply needs_exec]].
    eapply post_bind; [by apply post_success, ctrl_ends|]. intros se [_ ?]. by apply post_ok. }
  intros src' Hs'. apply (post_bind _ _ (fun dst' => dst' ∈ E)).
  { case_match; [|apply post_ok, elem_of_E; split; [done|by apply needs_exec]].
    eapply post_bind; [by apply post_success, ctrl_ends|]. intros se [? _]. by apply post_ok. }
  intros dst' Hd'. apply post_ok. destruct HI as [[A1 A2 A3] A4]. split; [|simpl; by rewrite A4]. split; simpl; [done| |].
  - intros s d. unfold vec at 1. destruct (decide (s = src')) as [->|Hne].
    + rewrite lookup_insert_eq. simpl. rewrite elem_of_app, list_elem_of_singleton. intros [?| ->]; [by apply (A2 src')|done].
    + rewrite lookup_insert_ne by done. apply A2.
  - intros d. rewrite bind_update by (try apply NoDup_filter, Hg; done). unfold num at 1. destruct (decide (dst' = d)) as [->|Hne].
    + rewrite lookup_insert_eq. simpl. rewrite A3. lia.
    + rewrite lookup_insert_ne by done. fold (num (additional_indegree_info gn) d). rewrite A3. lia.
Qed.

(** A loop that links some nodes of a list with a given one. *)
Lemma link_from gn0 n (c : nat -> bool) l gn :
  n ∈ all -> (forall x, x ∈ l -> x ∈ all) -> linked gn0 gn -> post (foldM (fun x gn => if c x then link e g n x gn else Ok gn) l gn) (linked gn0).
Proof. intros Hn Hl HI. apply post_fold; [done|]. intros x s Hx Hs. destruct (c x); [|by apply post_ok]. by apply link_ok; [|apply Hl|]. Qed.
Lemma link_to gn0 n (c : nat -> bool) l gn :
  n ∈ all -> (forall x, x ∈ l -> x ∈ all) -> linked gn0 gn -> post (foldM (fun x gn => if c x then link e g x n gn else Ok gn) l gn) (linked gn0).
Proof. intros Hn Hl HI. apply post_fold; [done|]. intros x s Hx Hs. destruct (c x); [|by apply post_ok]. by apply link_ok; [apply Hl| |]. Qed.

Lemma in_nodes n : n ∈ all -> forall x, x ∈ GetAllInNodes (info n) -> x ∈ all.
Proof. intros Hn x. by apply Hg. Qed.
Lemma out_nodes n : n ∈ all -> forall x, x ∈ GetAllOutNodes (info n) -> x ∈ all.
Proof. intros Hn x. by apply Hg. Qed.
Lemma sub_nodes n (i : nat) graph : n ∈ all -> GetSubgraphFromNode g n i = Some graph -> forall x, x ∈ graph -> x ∈ all.
Proof. intros Hn Hgr x. by apply (go_sub Hg n i). Qed.
Lemma found_node graph type n : FindFirstNodeMatchType g graph type = Some n -> (forall x, x ∈ graph -> x ∈ all) -> n ∈ all.
Proof. intros [Hin _]%find_first H. by apply H. Qed.

(** Peel off one step of a function that links nodes. *)
Ltac link_step :=
  match goal with
  | |- post (assert_success _ _) _ => apply post_success
  | |- post (assert_some _ _ ≫= _) _ => apply post_some_bind; intros
  | |- post (foldM _ _ _ ≫= _) (linked ?gn0) => apply (post_bind _ _ (linked gn0)); [|intros]
  | |- post (link _ _ _ _ _ ≫= _) (linked ?gn0) => apply (post_bind _ _ (linked gn0)); [|intros]
  | |- post (foldM (fun x gn => link _ _ ?n x gn) _ _) _ => apply (link_from _ n (fun _ => true))
  | |- post (foldM (fun x gn => link _ _ x ?n gn) _ _) _ => apply (link_to _ n (fun _ => true))
  | |- post (foldM (fun x gn => if _ then link _ _ ?n x gn else _) _ _) _ => apply (link_from _ n)
  | |- post (foldM (fun x gn => if _ then link _ _ x ?n gn else _) _ _) _ => apply (link_to _ n)
  | |- post (link _ _ _ _ _) _ => apply link_ok
  end; try done.
Hint Resolve in_nodes out_nodes sub_nodes found_node : link_db.
Ltac link_steps := repeat link_step; eauto with link_db.

Lemma guard_ok gn0 graph pivot done gn :
  (forall x, x ∈ graph -> x ∈ all) -> pivot ∈ all -> done ∈ all -> linked gn0 gn -> post (GuardGraphByPivotAndDone e g graph pivot done gn) (linked gn0).
Proof. intros Hgr Hp Hd HI. unfold GuardGraphByPivotAndDone. link_steps. Qed.

Lemma branch_ok gn0 node cond_node gn : node ∈ all -> cond_node ∈ all -> linked gn0 gn -> post (ReadInBranchNode e g node cond_node gn) (linked gn0).
Proof. intros Hn Hc HI. unfold ReadInBranchNode. case_match; [by apply post_ok|]. do 2 link_step. case_match; link_steps. Qed.

Lemma subgraph_ok gn0 node gn : node ∈ all -> linked gn0 gn -> post (ReadInNodeHasSubgraph e g node gn) (linked gn0).
Proof.
  intros Hn HI. unfold ReadInNodeHasSubgraph. repeat case_match; [| | |apply post_err].
  - unfold ReadInIfOrCase. link_steps. apply post_fold; [done|]. intros x s Hx Hs. apply branch_ok; eauto with link_db.
  - unfold ReadInWhile. link_steps. apply guard_ok; eauto with link_db.
  - unfold ReadInSubgraphCall. link_steps. apply guard_ok; eauto with link_db.
Qed.

(** *** Reading the nodes *)

Lemma made_cases t :
  IsNodeNeedExec t || IsConstType t =
  negb (IsMemTransferNode t || IsUsrOutputNode t || IsGraphInputNode t || IsGraphOutputNode t || IsHasSubGraphNode t).
Proof.
  destruct (IsConstType t) eqn:Ec.
  - rewrite orb_true_r. unfold IsConstType, is_type in Ec. apply orb_true_iff in Ec as [->%bool_decide_eq_true| ->%bool_decide_eq_true]; by vm_compute.
  - rewrite orb_false_r. unfold IsNodeNeedExec, IsStroreConstDataNode. rewrite Ec.
    destruct (IsMemTransferNode t), (IsUsrOutputNode t), (IsGraphInputNode t), (IsGraphOutputNode t), (IsHasSubGraphNode t); done.
Qed.

(** After the nodes [done]: the ones that are made are numbered in order. *)
Definition made (done : list nat) : list nat := filter (fun n => made_node n) done.

Record read (done : list nat) (b : Builder) : Prop := {
  rd_order : ordered_graph_to_exe_nodes b = zip (made done) (seq 0 (length (made done)));
  rd_nodes : gn_nodes (b_graph_node b) = seq 0 (length (made done));
  rd_map n i : graph_nodes_to_executor_node (b_graph_node b) !! n = Some i <-> made done !! i = Some n;
  rd_start : gn_start_nodes (b_graph_node b) = [];
  rd_adds : adds_ok (b_graph_node b);
  rd_flat : (forall n, n ∈ done -> IsHasSubGraphNode (type_of n) = false) -> additional_add_info (b_graph_node b) = ∅;
}.

Lemma made_snoc done n : made (done ++ [n]) = if made_node n then made done ++ [n] else made done.
Proof. unfold made. rewrite filter_app. simpl. rewrite filter_cons, filter_nil. destruct (made_node n); simpl; [done|by rewrite app_nil_r]. Qed.

(** A node that is not made keeps the list. *)
Lemma read_keep done n b gn' :
  read done b -> made_node n = false -> adds_ok gn' -> gn_nodes gn' = gn_nodes (b_graph_node b) ->
  graph_nodes_to_executor_node gn' = graph_nodes_to_executor_node (b_graph_node b) -> gn_start_nodes gn' = gn_start_nodes (b_graph_node b) ->
  (IsHasSubGraphNode (type_of n) = false -> additional_add_info gn' = additional_add_info (b_graph_node b)) ->
  read (done ++ [n]) (MkBuilder gn' (ordered_graph_to_exe_nodes b)).
Proof.
  intros [] Hm Ha E1 E2 E3 E4. split; simpl; rewrite ?made_snoc, ?Hm, ?E1, ?E2, ?E3; try done.
  intros Hf. rewrite E4 by (apply Hf, elem_of_app; right; left). apply rd_flat0. intros m Hin. apply Hf, elem_of_app. by left.
Qed.

Lemma read_one values done n b : n ∈ all -> n ∉ done -> read done b -> post (ReadInOneNode e g values n b) (read (done ++ [n])).
Proof.
  intros Hn Hnew HR. unfold ReadInOneNode. pose proof (made_cases (type_of n)) as Hc. fold (executed_node n) in Hc. fold (made_node n) in Hc.
  pose proof HR as [R1 R2 R3 R4 R5 R6]. destruct (IsMemTransferNode (type_of n) || IsUsrOutputNode (type_of n)) eqn:E1; cbn [orb negb] in Hc.
  { apply post_ok. destruct b. by apply (read_keep _ _ _ _ HR). }
  destruct (IsGraphInputNode (type_of n)); cbn [orb negb] in Hc.
  { intros b' (gn & Eg & [= <-])%bind_Ok. unfold ReadInFeed in Eg. repeat case_match; simplify_eq; apply (read_keep _ _ _ _ HR); try done; by destruct R5. }
  destruct (IsGraphOutputNode (type_of n)); cbn [orb negb] in Hc.
  { intros b' (gn & Eg & [= <-])%bind_Ok. unfold ReadInNetOutput in Eg. repeat case_match; simplify_eq; apply (read_keep _ _ _ _ HR); try done; by destruct R5. }
  destruct (IsHasSubGraphNode (type_of n)) eqn:Esub; cbn [orb negb] in Hc.
  { intros b' (gn & Eg & [= <-])%bind_Ok. apply (subgraph_ok (b_graph_node b)) in Eg as [Ha Ef]; [|done|by split; [|destruct (b_graph_node b)]].
    apply (read_keep _ _ _ _ HR); try done; [by rewrite Ef..|congruence]. }
  cbn. apply post_ok. split; simpl; rewrite ?made_snoc, ?Hc, ?length_app; simpl; rewrite ?Nat.add_1_r, ?seq_S, ?R2, ?length_seq; try done.
  - rewrite R1, zip_with_app by (by rewrite length_seq). done.
  - intros m i. destruct (decide (m = n)) as [->|Hne].
    + rewrite lookup_insert_eq. split; [intros [= <-]; by rewrite lookup_app_r, Nat.sub_diag by done|].
      intros Hi. f_equal. apply lookup_app_Some in Hi as [Hi|[Hi Hs]]; [|apply lookup_lt_Some in Hs; simpl in Hs; lia].
      apply list_elem_of_lookup_2 in Hi. apply list_elem_of_filter in Hi as [_ Hi]. done.
    + rewrite lookup_insert_ne by done. rewrite R3, lookup_app_Some. split; [by left|]. intros [Hi|[_ Hi]]; [done|].
      apply list_lookup_singleton_Some in Hi as [_ ?]. congruence.
  - by destruct R5.
  - intros Hf. apply R6. intros m Hin. apply Hf, elem_of_app. by left.
Qed.

Lemma adds_empty : adds_ok empty_graph_node.
Proof.
  split; simpl; [done| |].
  - intros s d. unfold vec. rewrite lookup_empty. by intros ?%not_elem_of_nil.
  - intros d. unfold num. rewrite lookup_empty. simpl. rewrite (proj2 (occ_zero d _)); [done|].
    intros (x & Hx & _)%list_elem_of_bind. unfold vec in Hx. rewrite lookup_empty in Hx. by apply not_elem_of_nil in Hx.
Qed.

(** Any nodes, in any order. *)
Lemma read_list values order :
  NoDup order -> (forall n, n ∈ order -> n ∈ all) ->
  post (foldM (fun node b => assert_success e (ReadInOneNode e g values node b)) order (MkBuilder empty_graph_node [])) (read order).
Proof.
  intros Hnd Hall. assert (Hgen : forall rest done b, done ++ rest = order -> read done b ->
    post (foldM (fun node b => assert_success e (ReadInOneNode e g values node b)) rest b) (read order)).
  { induction rest as [|n rest IH]; intros done b Ed HR; simpl.
    - apply post_ok. rewrite app_nil_r in Ed. by subst.
    - rewrite <- Ed in Hnd. apply NoDup_app in Hnd as (_ & Hdis & _).
      eapply post_bind; [apply post_success, read_one; [|by intros Hc; apply (Hdis n Hc); left|exact HR]|].
      + apply Hall. rewrite <- Ed, elem_of_app. right. left.
      + intros b' HR'. apply (IH (done ++ [n])); [by rewrite <- app_assoc|done]. }
  apply (Hgen _ []); [done|]. split; simpl; try done; apply adds_empty.
Qed.

Lemma read_all values : post (ReadInNodes e g values (MkBuilder empty_graph_node [])) (read all).
Proof. by apply read_list; [apply Hg|]. Qed.

(** *** In-degrees and watchers *)

(** The nodes a node will notify. *)
Definition targets (gn : GraphNode) (n : nat) : list nat :=
  filter (fun m => executed_node m) (GetAllOutNodes (info n)) ++ vec (additional_add_info gn) n.

(** [ids] are the numbers of [ns]. *)
Definition numbered (gn : GraphNode) : list nat -> list nat -> Prop := Forall2 (fun n i => graph_nodes_to_executor_node gn !! n = Some i).

Lemma push_id_ok gn n ws : post (push_id e gn n ws) (fun ws' => exists i, ws' = ws ++ [i] /\ graph_nodes_to_executor_node gn !! n = Some i).
Proof. unfold push_id, GetExeNodeId. destruct (graph_nodes_to_executor_node gn !! n) as [i|]; simpl; [apply post_ok; by exists i|apply post_err]. Qed.

Lemma push_ids_ok gn l ws : post (foldM (push_id e gn) l ws) (fun ws' => exists ids, ws' = ws ++ ids /\ numbered gn l ids).
Proof.
  revert ws. induction l as [|n l IH]; intros ws; simpl; [apply post_ok; exists []; split; [by rewrite app_nil_r|apply Forall2_nil_2]|].
  eapply post_bind; [apply push_id_ok|]. intros ws1 (i & -> & Hi). eapply post_mono; [apply IH|]. intros ws' (ids & -> & Hids).
  exists (i :: ids). split; [by rewrite <- app_assoc|by constructor].
Qed.

Lemma watch_edges_ok gn edges ws :
  post (foldM (watch_edge e g gn) edges ws) (fun ws' => exists ids, ws' = ws ++ ids /\ numbered gn (filter (fun m => executed_node m) (present edges)) ids).
Proof.
  revert ws. induction edges as [|[n|] edges IH]; intros ws; simpl; [apply post_ok; exists []; split; [by rewrite app_nil_r|apply Forall2_nil_2]| |apply IH].
  change (present (Some n :: edges)) with (n :: present edges). rewrite filter_cons. fold (executed_node n). destruct (executed_node n); simpl.
  - eapply post_bind; [apply push_id_ok|]. intros ws1 (i & -> & Hi). eapply post_mono; [apply IH|]. intros ws' (ids & -> & Hids).
    exists (i :: ids). split; [by rewrite <- app_assoc|by constructor].
  - apply IH.
Qed.

Lemma watch_outputs_ok gn (outs : list (list (option nat))) ws :
  post (foldM (fun edges ws => foldM (watch_edge e g gn) edges ws) outs ws)
    (fun ws' => exists ids, ws' = ws ++ ids /\ numbered gn (filter (fun m => executed_node m) (outs ≫= present)) ids).
Proof.
  revert ws. induction outs as [|edges outs IH]; intros ws; [apply post_ok; exists []; split; [by rewrite app_nil_r|apply Forall2_nil_2]|]. rewrite bind_cons, filter_app. cbn [foldM].
  eapply post_bind; [apply watch_edges_ok|]. intros ws1 (ids1 & -> & H1). eapply post_mono; [apply IH|]. intros ws' (ids & -> & Hids).
  exists (ids1 ++ ids). split; [by rewrite <- app_assoc|by apply Forall2_app].
Qed.

(** One node. *)
Definition topo_step (gn gn' : GraphNode) (node id : nat) : Prop :=
  id < length (gn_indegrees gn) /\ exists ws, numbered gn (targets gn node) ws /\
    gn_indegrees gn' = <[id := CalcIndegree g gn node]> (gn_indegrees gn) /\
    gn_start_nodes gn' = gn_start_nodes gn ++ (if IsStartNode g gn node then [id] else []) /\
    gn_watchers gn' = <[id := Some ws]> (gn_watchers gn) /\
    gn_nodes gn' = gn_nodes gn /\ graph_nodes_to_executor_node gn' = graph_nodes_to_executor_node gn /\
    additional_add_info gn' = additional_add_info gn /\ additional_del_info gn' = additional_del_info gn /\
    additional_indegree_info gn' = additional_indegree_info gn.

Lemma put_ok {A} (l : list A) i v : post (put l i v) (fun l' => i < length l /\ l' = <[i := v]> l).
Proof. unfold put. case_decide; [by apply post_ok|by intros ?]. Qed.

Lemma topo_info_ok gn node id : additional_del_info gn = ∅ -> post (ReadInTopoInfo e g node id gn) (fun gn' => topo_step gn gn' node id).
Proof.
  intros Hdel. unfold ReadInTopoInfo, ReadInIndegree. intros gn' (gn1 & (ds & Eds & [= <-])%bind_Ok & E1)%bind_Ok.
  apply put_ok in Eds as [Hid ->]. revert E1.
  assert (H2 : ReadInStartNode g node id (set_topo (<[id := CalcIndegree g gn node]> (gn_indegrees gn)) (gn_start_nodes gn) (gn_watchers gn) gn) =
    set_topo (<[id := CalcIndegree g gn node]> (gn_indegrees gn)) (gn_start_nodes gn ++ (if IsStartNode g gn node then [id] else [])) (gn_watchers gn) gn).
  { unfold ReadInStartNode. change (IsStartNode g (set_topo _ _ _ gn) node) with (IsStartNode g gn node). destruct (IsStartNode g gn node); simpl; [done|by rewrite app_nil_r]. }
  rewrite H2. revert gn'. apply (post_bind _ _ (fun gn3 => topo_step gn gn3 node id)).
  - apply post_success. unfold ReadInWatcher. eapply post_bind; [apply watch_outputs_ok|]. intros ws1 (is1 & -> & F1).
    eapply post_bind; [apply watch_edges_ok|]. intros ws2 (is2 & -> & F2). eapply post_bind.
    { apply post_success. unfold UpdateWatcherInfo. eapply post_bind; [apply push_ids_ok|]. intros ws3 H3. simpl. rewrite Hdel. unfold vec. rewrite lookup_empty. apply post_ok, H3. }
    intros ws3 (is3 & -> & F3). eapply post_bind; [apply put_ok|]. intros ws' [_ ->]. apply post_ok. split; [done|]. eexists. split_and!; try done.
    unfold targets, GetAllOutNodes. rewrite filter_app. simpl. by repeat apply Forall2_app.
  - intros gn3 H3. apply post_success. unfold AssembleNodeRequestedExtraInfos. destruct (default false _); by apply post_ok.
Qed.

(** After the pairs [done], the first ones of [zip X (seq 0 n)]. *)
Record topo (gn0 : GraphNode) (done : list (nat * nat)) (gn : GraphNode) : Prop := {
  tp_nodes : gn_nodes gn = gn_nodes gn0;
  tp_map : graph_nodes_to_executor_node gn = graph_nodes_to_executor_node gn0;
  tp_add : additional_add_info gn = additional_add_info gn0;
  tp_del : additional_del_info gn = additional_del_info gn0;
  tp_additional : additional_indegree_info gn = additional_indegree_info gn0;
  tp_length : length (gn_indegrees gn) = length X /\ length (gn_watchers gn) = length X;
  tp_indegree n i : (n, i) ∈ done -> gn_indegrees gn !! i = Some (CalcIndegree g gn0 n);
  tp_watch n i : (n, i) ∈ done -> exists ws, gn_watchers gn !! i = Some (Some ws) /\ numbered gn0 (targets gn0 n) ws;
  tp_start : gn_start_nodes gn = (filter (fun p => IsStartNode g gn0 p.1) done).*2;
}.

Lemma calc_same gn gn0 n : additional_indegree_info gn = additional_indegree_info gn0 -> CalcIndegree g gn n = CalcIndegree g gn0 n.
Proof. intros E1. unfold CalcIndegree. by rewrite E1. Qed.

Lemma topo_snoc gn0 done gn gn' n i : topo gn0 done gn -> topo_step gn gn' n i -> i ∉ done.*2 -> topo gn0 (done ++ [(n, i)]) gn'.
Proof.
  intros [T1 T2 T3 T4 T5 [T6 T7] T8 T9 T10] (Hi & ws & Hws & S1 & S2 & S3 & S4 & S5 & S6 & S7 & S8) Hnew.
  assert (Hfresh : forall m j, (m, j) ∈ done -> j <> i). { intros m j Hj ->. apply Hnew. apply list_elem_of_fmap. by exists (m, i). }
  assert (Hst : IsStartNode g gn n = IsStartNode g gn0 n) by (unfold IsStartNode; by rewrite (calc_same gn gn0)).
  split; try congruence.
  - rewrite S1, S3, !length_insert. done.
  - intros m j [Hj|Hj%list_elem_of_singleton]%elem_of_app; rewrite S1.
    + rewrite list_lookup_insert_ne; [by apply T8|]. intros ->. by apply (Hfresh m j).
    + injection Hj as -> ->. rewrite list_lookup_insert_eq by done. by rewrite (calc_same gn gn0).
  - intros m j [Hj|Hj%list_elem_of_singleton]%elem_of_app; rewrite S3.
    + rewrite list_lookup_insert_ne; [by apply T9|]. intros ->. by apply (Hfresh m j).
    + injection Hj as -> ->. rewrite list_lookup_insert_eq by lia. exists ws. split; [done|]. unfold numbered, targets in *. by rewrite <- T2, <- T3.
  - rewrite S2, T10, filter_app, fmap_app, filter_cons, filter_nil. simpl. rewrite Hst. by destruct (IsStartNode g gn0 n).
Qed.

Lemma topo_all b : read all b -> post (ReadInTopo e g b) (topo (b_graph_node b) (ordered_graph_to_exe_nodes b)).
Proof.
  intros HR. unfold ReadInTopo. set (P := ordered_graph_to_exe_nodes b). set (gn0 := b_graph_node b).
  assert (Hnd : NoDup P.*2). { unfold P. rewrite (rd_order _ _ HR). rewrite snd_zip by (by rewrite length_seq). apply NoDup_seq. }
  assert (HlenP : length P = length X). { unfold P. rewrite (rd_order _ _ HR), length_zip_with, length_seq. apply Nat.min_id. }
  assert (Hgen : forall rest done gn, done ++ rest = P -> topo gn0 done gn ->
    post (foldM (fun '(node, id) gn => assert_success e (ReadInTopoInfo e g node id gn)) rest gn) (topo gn0 P)).
  { induction rest as [|[n i] rest IH]; intros done gn Ed HT; simpl.
    - apply post_ok. rewrite app_nil_r in Ed. by subst.
    - eapply post_bind; [apply post_success, topo_info_ok|].
      + rewrite (tp_del _ _ _ HT). apply HR.
      + intros gn' Hs. apply (IH (done ++ [(n, i)])); [by rewrite <- app_assoc|]. apply (topo_snoc _ _ gn); [done|done|].
        rewrite <- Ed, fmap_app in Hnd. apply NoDup_app in Hnd as (_ & Hdis & _). intros Hin. apply (Hdis _ Hin). simpl. left. }
  apply (Hgen _ []); [done|]. split; simpl; rewrite ?length_replicate; try done; try apply HR; by intros ? ? ?%not_elem_of_nil.
Qed.

(** *** The balance *)

Lemma occ_bind j (f : nat -> list nat) l : occ j (l ≫= f) = sum_list_with (fun x => occ j (f x)) l.
Proof. induction l as [|x l IH]; [done|]. rewrite bind_cons, occ_app. simpl. by rewrite IH. Qed.

Lemma sum_plus {A} (f h : A -> nat) l : sum_list_with (fun x => f x + h x) l = sum_list_with f l + sum_list_with h l.
Proof. induction l as [|x l IH]; simpl; [done|]. rewrite IH. lia. Qed.

Lemma sum_ext {A} (f h : A -> nat) l : (forall x, x ∈ l -> f x = h x) -> sum_list_with f l = sum_list_with h l.
Proof. induction l as [|x l IH]; intros Hx; simpl; [done|]. rewrite (Hx x) by left. rewrite IH; [done|]. intros y Hy. apply Hx. by right. Qed.

Lemma sum_one (x : nat) (l : list nat) : NoDup l -> sum_list_with (fun n => if decide (x = n) then 1 else 0) l = if decide (x ∈ l) then 1 else 0.
Proof.
  induction l as [|y l IH]; intros Hnd; simpl; [done|]. apply NoDup_cons in Hnd as [Hy Hnd]. rewrite IH by done.
  destruct (decide (x = y)) as [->|Hne]; [rewrite decide_False by done; rewrite decide_True by left; done|].
  destruct (decide (x ∈ l)) as [Hin|Hout]; [by rewrite decide_True by (by right)|]. rewrite decide_False; [done|]. by intros [?|?]%elem_of_cons.
Qed.

(** Edges into a node from executed nodes, counted at either end. *)
Lemma sum_in_edges l : (forall x, x ∈ l -> x ∈ all) -> sum_list_with (fun n => occ n l) E = length (filter (fun m => executed_node m) l).
Proof.
  induction l as [|x l IH]; intros Hl; simpl; [by induction E|].
  rewrite sum_plus, sum_one by (apply NoDup_filter, Hg). rewrite IH by (intros y Hy; apply Hl; by right). rewrite filter_cons.
  assert (Hx : (x ∈ E) <-> executed_node x = true) by (rewrite elem_of_E; split; [tauto|split; [apply Hl; left|done]]).
  destruct (executed_node x); simpl; [rewrite decide_True by tauto; done|]. rewrite decide_False; [done|]. by intros ?%Hx.
Qed.

Lemma occ_executed m l : executed_node m = true -> occ m (filter (fun m => executed_node m) l) = occ m l.
Proof.
  intros Hm. induction l as [|x l IH]; simpl; [done|]. rewrite filter_cons. destruct (decide (x = m)) as [->|Hne].
  - rewrite Hm. simpl. rewrite decide_True by done. lia.
  - destruct (executed_node x); simpl; [by rewrite decide_False by done|done].
Qed.

Definition capped (n : nat) (d : Z) : Z := if IsWaitAnyone (type_of n) then Z.min d 1 else d.

Lemma calc_value gn n :
  CalcIndegree g gn n = capped n (Z.of_nat (length (filter (fun m => executed_node m) (GetAllInNodes (info n)))) + num (additional_indegree_info gn) n).
Proof.
  unfold CalcIndegree, capped. set (incre := fun indegree edge => _).
  assert (Hf : forall edges d, foldl incre d edges = (d + Z.of_nat (length (filter (fun m => executed_node m) (present edges))))%Z).
  { induction edges as [|[x|] edges IH]; intros d; simpl; [lia| |apply IH]. change (present (Some x :: edges)) with (x :: present edges).
    rewrite filter_cons, IH. unfold incre. fold (executed_node x). destruct (executed_node x); simpl; lia. }
  rewrite !Hf. unfold GetAllInNodes. rewrite filter_app, length_app. unfold num. destruct (additional_indegree_info gn !! n); simpl; case_match; lia.
Qed.

Lemma balance gn m :
  adds_ok gn -> m ∈ E ->
  Z.of_nat (occ m (E ≫= targets gn)) = (Z.of_nat (length (filter (fun m => executed_node m) (GetAllInNodes (info m)))) + num (additional_indegree_info gn) m)%Z.
Proof.
  intros Ha [Hall Hm]%elem_of_E. rewrite (ao_balance _ Ha), occ_bind, occ_bind, <- Nat2Z.inj_add. f_equal.
  rewrite <- sum_in_edges by (intros x; by apply Hg). rewrite <- sum_plus. apply sum_ext. intros n [Hn _]%elem_of_E.
  unfold targets. rewrite occ_app, occ_executed by done. by rewrite (go_edges Hg).
Qed.

(** *** The plan *)

(** What the execution data says, by the numbers of the nodes. *)
Definition plan_of (b : Builder) (gn : GraphNode) : Plan :=
  MkPlan (filter (fun p => executed_node p.1) (ordered_graph_to_exe_nodes b)).*2 (fun i => default [] (mjoin (gn_watchers gn !! i)))
    (gn_start_nodes gn) (gn_indegrees gn).

Section plan.
Context (b : Builder) (gn : GraphNode) (HR : read all b) (HT : topo (b_graph_node b) (ordered_graph_to_exe_nodes b) gn).
Abbreviation P := (ordered_graph_to_exe_nodes b).
Abbreviation gn0 := (b_graph_node b).
Abbreviation p := (plan_of b gn).

Lemma pair_X n i : ((n, i) ∈ P) <-> X !! i = Some n.
Proof.
  rewrite (rd_order _ _ HR). split.
  - intros (k & Hk)%list_elem_of_lookup. apply lookup_zip_with_Some in Hk as (x & y & [= <- <-] & Hx & Hy). apply lookup_seq in Hy as [-> _]. done.
  - intros Hi. apply list_elem_of_lookup. exists i. apply lookup_zip_with_Some. exists n, i. split_and!; [done|done|].
    apply lookup_seq. split; [done|by eapply lookup_lt_Some].
Qed.

Lemma pair_map n i : ((n, i) ∈ P) <-> graph_nodes_to_executor_node gn0 !! n = Some i.
Proof. rewrite pair_X. symmetry. apply (rd_map _ _ HR). Qed.

Lemma pair_fun n i n' i' : (n, i) ∈ P -> (n', i') ∈ P -> n = n' <-> i = i'.
Proof. intros H1 H2. split; intros ->; [apply pair_map in H1, H2|apply pair_X in H1, H2]; congruence. Qed.

Lemma pair_made n : n ∈ all -> made_node n = true -> exists i, (n, i) ∈ P.
Proof. intros Hn Hm. assert (Hx : n ∈ X) by (by apply elem_of_X). apply list_elem_of_lookup in Hx as [i Hi]. exists i. by apply pair_X. Qed.

Lemma elem_of_active i : (i ∈ p_active p) <-> exists n, (n, i) ∈ P /\ executed_node n = true.
Proof.
  simpl. rewrite list_elem_of_fmap. split.
  - intros ([n j] & -> & [He Hin]%list_elem_of_filter). exists n. split; [done|by apply Is_true_true].
  - intros (n & Hin & He). exists (n, i). split; [done|]. apply list_elem_of_filter. split; [by apply Is_true_true|done].
Qed.

Lemma filter_fst (c : nat -> bool) (l k : list nat) : length l <= length k -> (filter (fun p => c p.1) (zip l k)).*1 = filter (fun n => c n) l.
Proof.
  revert k. induction l as [|x l IH]; intros [|y k] Hk; simpl in *; try done; try lia. rewrite !filter_cons. simpl.
  destruct (c x); simpl; by rewrite IH by lia.
Qed.

Lemma active_E : (filter (fun p => executed_node p.1) P).*1 = E.
Proof.
  rewrite (rd_order _ _ HR), filter_fst by (by rewrite length_seq). unfold made, E. generalize all as l. induction l as [|x l IH]; [done|]. rewrite !filter_bool.
  unfold made_node at 1. destruct (executed_node x) eqn:Ex; simpl.
  - by rewrite filter_bool, Ex, IH.
  - destruct (IsConstType _); [by rewrite filter_bool, Ex|done].
Qed.

Lemma filter_snd_nodup (c : nat * nat -> bool) (l : list (nat * nat)) : NoDup l.*2 -> NoDup (filter (fun p => c p) l).*2.
Proof.
  induction l as [|x l IH]; intros Hnd; simpl; [constructor|]. apply NoDup_cons in Hnd as [Hx Hnd]. rewrite filter_bool. destruct (c x); [|by apply IH].
  constructor; [|by apply IH]. intros (y & Hy & [_ Hin]%list_elem_of_filter)%list_elem_of_fmap. apply Hx. apply list_elem_of_fmap. by exists y.
Qed.

Lemma active_nodup : NoDup (p_active p).
Proof. apply (filter_snd_nodup (fun p => executed_node p.1)). rewrite (rd_order _ _ HR), snd_zip by (by rewrite length_seq). apply NoDup_seq. Qed.

(** Who watches whom, by numbers. *)
Lemma watchers_numbered n i : (n, i) ∈ P -> numbered gn0 (targets gn0 n) (p_watchers p i).
Proof. intros Hi. destruct (tp_watch _ _ _ HT n i Hi) as (ws & Ew & Hn). simpl. by rewrite Ew. Qed.

Lemma numbered_occ ns ids m j : numbered gn0 ns ids -> (m, j) ∈ P -> occ j ids = occ m ns.
Proof.
  intros Hf Hj. induction Hf as [|n i ns ids Hni Hf IH]; simpl; [done|]. apply pair_map in Hni. rewrite IH. f_equal.
  destruct (decide (n = m)) as [->|Hne]; [rewrite decide_True; [done|by apply (pair_fun _ _ _ _ Hni Hj)]|]. rewrite decide_False; [done|].
  by rewrite <- (pair_fun _ _ _ _ Hni Hj).
Qed.

Lemma edges_occ m j : (m, j) ∈ P -> occ j (p_edges p) = occ m (E ≫= targets gn0).
Proof.
  intros Hj. unfold p_edges. rewrite <- active_E. simpl. assert (Hsub : forall x, x ∈ filter (fun p => executed_node p.1) P -> x ∈ P) by (by intros x [_ ?]%list_elem_of_filter).
  revert Hsub. generalize (filter (fun p => executed_node p.1) P). induction l as [|[n i] l IH]; intros Hsub; [done|]. rewrite !fmap_cons, !bind_cons, !occ_app.
  rewrite IH by (intros x Hx; apply Hsub; by right). f_equal. apply numbered_occ; [|done]. apply watchers_numbered, Hsub. left.
Qed.

Lemma plan_indegree m j : (m, j) ∈ P -> executed_node m = true -> p_indegrees p !! j = Some (capped m (Z.of_nat (occ j (p_edges p)))).
Proof.
  intros Hj Hm. simpl. rewrite (tp_indegree _ _ _ HT m j Hj), calc_value. do 2 f_equal. rewrite (edges_occ m j Hj). symmetry. apply balance; [apply HR|].
  apply elem_of_E. split; [|done]. apply pair_X in Hj. apply list_elem_of_lookup_2, elem_of_X in Hj. tauto.
Qed.

Lemma plan_closed i j : i ∈ p_active p -> j ∈ p_watchers p i -> j ∈ p_active p.
Proof.
  intros (n & Hn & He)%elem_of_active Hj. pose proof (watchers_numbered n i Hn) as Hf. apply list_elem_of_lookup in Hj as [k Hk].
  destruct (Forall2_lookup_r _ _ _ _ _ Hf Hk) as (m & Hm & Hmj). apply elem_of_active. exists m. split; [by apply pair_map|].
  apply list_elem_of_lookup_2 in Hm. unfold targets in Hm. apply elem_of_app in Hm as [[Hx _]%list_elem_of_filter|Hm]; [by apply Is_true_true|].
  apply (ao_dst _ (rd_adds _ _ HR)), elem_of_E in Hm. tauto.
Qed.

Lemma plan_start i : (i ∈ p_start p) <-> i ∈ p_active p /\ p_indegrees p !! i = Some 0%Z.
Proof.
  simpl. rewrite (tp_start _ _ _ HT), list_elem_of_fmap. split.
  - intros ([n k] & -> & [Hs Hin]%list_elem_of_filter). simpl in *. apply Is_true_true in Hs. unfold IsStartNode in Hs. destruct (IsStroreConstDataNode (type_of n)) eqn:Ec; [done|].
    apply Z.eqb_eq in Hs. split; [|by rewrite (tp_indegree _ _ _ HT n k Hin), Hs]. apply elem_of_active. exists n. split; [done|].
    apply pair_X in Hin. apply list_elem_of_lookup_2, elem_of_X in Hin as [_ Hm]. unfold made_node in Hm. unfold IsStroreConstDataNode in Ec. rewrite Ec, orb_false_r in Hm. done.
  - intros [(n & Hin & He)%elem_of_active Hd]. exists (n, i). split; [done|]. apply list_elem_of_filter. split; [|done]. apply Is_true_true. simpl.
    rewrite (tp_indegree _ _ _ HT n i Hin) in Hd. injection Hd as Hd. unfold IsStartNode. rewrite Hd. simpl.
    unfold executed_node, IsNodeNeedExec in He. destruct (IsStroreConstDataNode (type_of n)); [|done]. by rewrite orb_true_r in He.
Qed.
End plan.

(** *** Graphs without control flow *)

Definition flat : Prop := forall n, n ∈ all -> IsHasSubGraphNode (type_of n) = false /\ IsWaitAnyone (type_of n) = false.
Definition acyclic : Prop := exists rank : nat -> nat, forall n m, n ∈ all -> m ∈ GetAllOutNodes (info n) -> rank n < rank m.

Section flat.
Context (b : Builder) (gn : GraphNode) (HR : read all b) (HT : topo (b_graph_node b) (ordered_graph_to_exe_nodes b) gn) (Hflat : flat).
Abbreviation P := (ordered_graph_to_exe_nodes b).
Abbreviation p := (plan_of b gn).

Lemma in_all n i : (n, i) ∈ P -> n ∈ all.
Proof. intros Hn. apply (pair_X b HR) in Hn. apply list_elem_of_lookup_2, elem_of_X in Hn. tauto. Qed.

(** Watchers are edges. *)
Lemma watcher_edge n i m j : (n, i) ∈ P -> (m, j) ∈ P -> (j ∈ p_watchers p i) <-> m ∈ GetAllOutNodes (info n) /\ executed_node m = true.
Proof.
  intros Hn Hm. pose proof (numbered_occ b HR _ _ m j (watchers_numbered b gn HT n i Hn) Hm) as Ho.
  assert (Hiff : (j ∈ p_watchers p i) <-> m ∈ targets (b_graph_node b) n).
  { destruct (decide (j ∈ p_watchers p i)) as [Hj|Hj], (decide (m ∈ targets (b_graph_node b) n)) as [Hk|Hk]; try tauto.
    - apply occ_zero in Hk. rewrite Hk in Ho. apply occ_zero in Ho. tauto.
    - apply occ_zero in Hj. rewrite Hj in Ho. symmetry in Ho. apply occ_zero in Ho. tauto. }
  rewrite Hiff. unfold targets. rewrite (rd_flat _ _ HR) by (intros x Hx; by apply Hflat). unfold vec. rewrite lookup_empty. simpl. rewrite app_nil_r, list_elem_of_filter, Is_true_true. tauto.
Qed.

Lemma flat_plan_ok : acyclic -> plan_ok p.
Proof.
  intros [rank Hrank].
  assert (Hind : forall j, j ∈ p_active p -> p_indegrees p !! j = Some (Z.of_nat (occ j (p_edges p)))).
  { intros j (m & Hm & He)%elem_of_active. rewrite (plan_indegree b gn HR HT m j Hm He). unfold capped. by rewrite (proj2 (Hflat m (in_all m j Hm))). }
  split.
  - by apply active_nodup.
  - intros i j. by apply plan_closed.
  - exact Hind.
  - simpl. rewrite (tp_start _ _ _ HT). assert (Hnd : NoDup P.*2) by (rewrite (rd_order _ _ HR), snd_zip by (by rewrite length_seq); apply NoDup_seq).
    by apply (filter_snd_nodup (fun p => IsStartNode g (b_graph_node b) p.1)).
  - intros i. rewrite (plan_start b gn HR HT). split; intros [Hi Hd]; (split; [done|]); rewrite (Hind i Hi) in *; [injection Hd as Hd; lia|by rewrite Hd].
  - exists (fun i => rank (default 0 (X !! i))). intros i j Hi Hj. pose proof (plan_closed b gn HR HT i j Hi Hj) as Hja.
    apply elem_of_active in Hi as (n & Hn & _), Hja as (m & Hm & He). pose proof (proj1 (watcher_edge n i m j Hn Hm) Hj) as [Hedge _].
    pose proof Hn as Hn'. apply (pair_X b HR) in Hn, Hm. rewrite Hn, Hm. simpl. apply Hrank; [by eapply in_all|done].
Qed.
End flat.
End graph.

(** ** What the builder made *)

Lemma assert_success_Ok {A} e (m : outcome A) a : assert_success e m = Ok a -> m = Ok a.
Proof. by destruct m. Qed.

Lemma build_nodes_ok e reg g base known gn b :
  graph_ok g -> TopologicalBuildNodes e reg g base known = Ok (gn, b) -> read g (GetAllNodes g) b /\ topo g (b_graph_node b) (ordered_graph_to_exe_nodes b) gn.
Proof.
  intros Hg. unfold TopologicalBuildNodes. intros ([[ed b0] k0] & E1%assert_success_Ok & (gn0 & E2%assert_success_Ok & (u & _ & [= -> ->])%bind_Ok)%bind_Ok)%bind_Ok.
  assert (HR : read g (GetAllNodes g) b).
  { unfold SequentialBuildData in E1. apply bind_Ok in E1 as ([values k] & _ & (b1 & Eb%assert_success_Ok & (? & _ & (? & _ & (? & _ & [= _ <- _])%bind_Ok)%bind_Ok)%bind_Ok)%bind_Ok).
    by apply (read_all e g Hg values). }
  split; [done|]. by apply (topo_all e g b HR).
Qed.

(** A schedule, place by place. *)
Lemma schedule_places p best done order :
  schedule p best done order ->
  NoDup order /\ (forall x, x ∈ order -> x ∈ p_active p /\ (x ∉ done)) /\
  forall k y x, order !! k = Some y -> x ∈ p_active p -> y ∈ p_watchers p x -> x ∈ done \/ exists k', k' < k /\ order !! k' = Some x.
Proof.
  induction 1 as [done|done x order Hx _ _ (IH1 & IH2 & IH3)]; [split_and!; [constructor|by intros ? ?%not_elem_of_nil|done]|].
  apply elem_of_ready in Hx as (Hxa & Hxd & Hxw). split_and!.
  - constructor; [|done]. intros Hin. destruct (IH2 x Hin) as [_ Hn]. apply Hn. left.
  - intros y [->|Hy]%elem_of_cons; [done|]. destruct (IH2 y Hy) as [? Hn]. split; [done|]. intros Hd. apply Hn. by right.
  - intros [|k] y w Hk Hw Hyw; [injection Hk as <-; left; by apply Hxw|]. destruct (IH3 k y w Hk Hw Hyw) as [[->|Hd]%elem_of_cons|(k' & Hlt & Hk')]; [|by left|].
    + right. exists 0. split; [lia|done].
    + right. exists (S k'). split; [lia|done].
Qed.

(** C7: Whatever the control flow in the graph, the in-degree the builder gives an
    executed node is the number of times the executed nodes will notify it, at
    most one for a [WaitAnyone]; watchers are executed nodes; and the start nodes
    are the executed nodes of in-degree zero. *)
Theorem indegrees_count_notifications e reg g base known gn b :
  graph_ok g -> TopologicalBuildNodes e reg g base known = Ok (gn, b) ->
  (forall n i, (n, i) ∈ ordered_graph_to_exe_nodes b -> executed_node g n = true ->
     gn_indegrees gn !! i = Some (capped g n (Z.of_nat (occ i (p_edges (plan_of g b gn)))))) /\
  (forall i j, i ∈ p_active (plan_of g b gn) -> j ∈ p_watchers (plan_of g b gn) i -> j ∈ p_active (plan_of g b gn)) /\
  (forall i, i ∈ gn_start_nodes gn <-> i ∈ p_active (plan_of g b gn) /\ gn_indegrees gn !! i = Some 0%Z).
Proof.
  intros Hg Hb. destruct (build_nodes_ok _ _ _ _ _ _ _ Hg Hb) as [HR HT]. split_and!.
  - intros n i. by apply plan_indegree.
  - by apply plan_closed.
  - by apply plan_start.
Qed.

(** The data that was built, as the executor wants it. *)
Lemma built_loaded {K : Kernels} e reg g base known (load : GraphNode -> KernelMem) gn b :
  graph_ok g -> TopologicalBuildNodes e reg g base known = Ok (gn, b) -> (forall i, node_watchers (load gn) i = mjoin (gn_watchers gn !! i)) ->
  loaded (plan_of g b gn) (CreateTopologicalData (Ring.Create (length (gn_nodes gn))) gn (load gn)).
Proof.
  intros Hg Hb Hload. destruct (build_nodes_ok _ _ _ _ _ _ _ Hg Hb) as [HR HT]. pose proof (tp_length _ _ _ _ HT) as [Hl _].
  assert (En : gn_nodes gn = seq 0 (length (gn_indegrees gn))) by (rewrite (tp_nodes _ _ _ _ HT), (rd_nodes _ _ _ HR), Hl; done).
  split; [|split; [done|exists []; apply ring_create]]. split; simpl; try done.
  - by rewrite En, length_seq.
  - rewrite Nat.add_sub, En, length_seq. rewrite <- (length_seq (length (gn_indegrees gn)) 0) at 1. apply NoDup_bound; [apply (active_nodup g b gn HR)|].
    intros i (n & Hn & _)%(elem_of_active g b gn). apply (pair_X g b HR) in Hn. apply elem_of_seq. rewrite Hl. split; [lia|by eapply lookup_lt_Some].
  - intros i (n & Hn & _)%(elem_of_active g b gn). rewrite Hload. destruct (tp_watch _ _ _ _ HT n i Hn) as (ws & -> & _). done.
Qed.

(** The names of the nodes with the numbers [order]. *)
Definition names_of (g : ExecuteGraph) (order : list nat) : list nat := (fun i => default 0 (X g !! i)) <$> order.

Section names.
Context (g : ExecuteGraph) (b : Builder) (gn : GraphNode) (Hg : graph_ok g) (HR : read g (GetAllNodes g) b).
Abbreviation p := (plan_of g b gn).

Lemma names_numbers order : order ⊆ p_active p -> Forall2 (fun n i => X g !! i = Some n) (names_of g order) order.
Proof.
  intros Hs. unfold names_of. apply Forall2_fmap_l. apply Forall_Forall2_diag, Forall_forall. intros i Hi. apply Hs, (elem_of_active g b gn) in Hi as (n & Hn & _).
  apply (pair_X g b HR) in Hn. simpl; by rewrite Hn.
Qed.

Lemma names_active : names_of g (p_active p) = E g.
Proof.
  unfold names_of. rewrite <- (active_E g b HR). simpl. rewrite <- list_fmap_compose. apply list_fmap_ext. intros k [n i] Hk. simpl.
  apply list_elem_of_lookup_2 in Hk. apply list_elem_of_filter in Hk as [_ Hk]. apply (pair_X g b HR) in Hk. by rewrite Hk.
Qed.

Lemma names_nodup order : order ⊆ p_active p -> NoDup order -> NoDup (names_of g order).
Proof.
  intros Hs Hnd. pose proof (names_numbers order Hs) as Hf. apply NoDup_alt. intros k1 k2 n H1 H2.
  destruct (Forall2_lookup_l _ _ _ _ _ Hf H1) as (i1 & Hi1 & E1), (Forall2_lookup_l _ _ _ _ _ Hf H2) as (i2 & Hi2 & E2).
  assert (HX : NoDup (X g)) by (apply NoDup_filter, Hg). pose proof (NoDup_lookup _ _ _ _ HX E1 E2) as <-. by apply (NoDup_lookup _ _ _ _ Hnd Hi1 Hi2).
Qed.
End names.

(** C16: A graph without control flow and without cycles that was built executes
    every one of its executed nodes once and after the nodes it has edges from,
    until one fails; the result is that of the sequential execution. *)
Theorem built_graph_executes {K : Kernels} e reg g base known (load : GraphNode -> KernelMem) fuel ed :
  graph_ok g -> flat g -> acyclic g -> (forall node m, node_watchers (func node m).2 = node_watchers m) ->
  (forall gn i, node_watchers (load gn) i = mjoin (gn_watchers gn !! i)) ->
  TopologicalBuild e reg g base known load = Ok ed -> length (GetAllNodes g) < fuel ->
  exists names order ret ed', TopologicalExecute fuel ed = Ok (ret, ed') /\ SequentialExecute order (kernel_mem ed) = (ret, kernel_mem ed') /\
    Forall2 (fun n i => X g !! i = Some n) names order /\ NoDup names /\ names ⊆ E g /\
    (forall k n m, names !! k = Some m -> n ∈ E g -> m ∈ GetAllOutNodes (fast_node g n) -> exists k', k' < k /\ names !! k' = Some n) /\
    (ret = kStatusSuccess -> names ≡ₚ E g).
Proof.
  intros Hg Hflat Hac Hst Hload ([gn b] & Hb & [= <-])%bind_Ok Hfuel. destruct (build_nodes_ok _ _ _ _ _ _ _ Hg Hb) as [HR HT].
  pose proof (flat_plan_ok g Hg b gn HR HT Hflat Hac) as Hp. pose proof (built_loaded e reg g base known load gn b Hg Hb (Hload gn)) as Hl.
  assert (Hlen : length (p_active (plan_of g b gn)) < fuel).
  { rewrite <- (length_fmap (fun i => default 0 (X g !! i))). fold (names_of g (p_active (plan_of g b gn))). rewrite (names_active g b gn HR).
    eapply Nat.le_lt_trans; [apply length_filter|done]. }
  destruct (plain_ok _ Hp Hst anyone ltac:(done) fuel _ Hl Hlen) as (order & ret & ed' & Er & Hs & Hseq & _ & Hall).
  destruct (schedule_places _ _ _ _ Hs) as (Hnd & Hact & Hpl). assert (Hsub : order ⊆ p_active (plan_of g b gn)) by (intros x Hx; by apply Hact).
  pose proof (names_numbers g b gn HR order Hsub) as Hf. exists (names_of g order), order, ret, ed'. split; [done|]. split; [done|]. split; [done|].
  split; [by apply (names_nodup g b gn)|]. split_and!.
  - intros n Hn. apply list_elem_of_lookup in Hn as [k Hk]. destruct (Forall2_lookup_l _ _ _ _ _ Hf Hk) as (i & Hi & Ei).
    apply list_elem_of_lookup_2, Hsub, (elem_of_active g b gn) in Hi as (n' & Hn' & He). apply (pair_X g b HR) in Hn'. assert (n' = n) as -> by congruence.
    apply elem_of_E. split; [|done]. apply list_elem_of_lookup_2, elem_of_X in Ei. tauto.
  - intros k n m Hk Hn Hedge. destruct (Forall2_lookup_l _ _ _ _ _ Hf Hk) as (j & Hj & Ej). pose proof (list_elem_of_lookup_2 _ _ _ Hj) as (m' & Hm & He)%Hsub%(elem_of_active g b gn).
    apply (pair_X g b HR) in Hm as Em. assert (m' = m) as -> by congruence. apply elem_of_E in Hn as [Hna Hne].
    destruct (pair_made g b HR n Hna) as [i Hi]; [unfold made_node; by rewrite Hne|].
    destruct (Hpl k j i Hj) as [?%not_elem_of_nil|(k' & Hlt & Hk')]; [apply elem_of_active; by exists n|by apply (watcher_edge g b gn HR HT Hflat n i m j)|done|].
    exists k'. split; [done|]. destruct (Forall2_lookup_r _ _ _ _ _ Hf Hk') as (n' & Hn' & En'). apply (pair_X g b HR) in Hi. congruence.
  - intros Eret. destruct (Hall Eret) as [Ho _]. rewrite <- (names_active g b gn HR). unfold names_of. by rewrite Ho.
Qed.
