(* ===== verification/ExecReadOrder.v ===== *)
(** * ExecReadOrder: the order of the sequential executor

    [ReadInNodesByPriority] reads the nodes of a graph in an order that respects
    the edges, and among the nodes that are ready takes one whose priority comes
    first.  The nodes are made, and later executed, in that order. *)

From stdpp Require Import strings sorting.
From S2P Require Import Prelude ExecReady ExecTopo ExecTopoSound ExecGraph ExecBuild ExecGraphSound.

#[local] Open Scope nat_scope.

Section order.
Context (e : Status) (g : ExecuteGraph).
Abbreviation info := (fast_node g).
Abbreviation D := (GetDirectNode g).
Abbreviation outs n := (GetAllOutNodes (info n)).

(** ** The map of queues *)

Definition elems (m : PriorityNodes) : list nat := m ≫= snd.

Record pq_ok (m : PriorityNodes) : Prop := {
  pq_sorted : StronglySorted Z.lt m.*1;
  pq_queues k q : (k, q) ∈ m -> q <> [] /\ forall x, x ∈ q -> node_priority g x = k;
}.

Lemma push_at_keys k n m j : j ∈ (push_at k n m).*1 -> j = k \/ j ∈ m.*1.
Proof.
  induction m as [|[k' q] m IH]; simpl; [rewrite list_elem_of_singleton; tauto|]. repeat case_match; simpl; rewrite !elem_of_cons; [tauto|tauto|]. intros [?|?]; [tauto|]. destruct IH; tauto.
Qed.

Lemma push_at_ok m n : pq_ok m -> pq_ok (push_at (node_priority g n) n m) /\ elems (push_at (node_priority g n) n m) ≡ₚ n :: elems m.
Proof.
  set (k := node_priority g n). intros [Hs Hq]. induction m as [|[k' q] m IH]; simpl in *.
  - split; [|done]. split; [repeat constructor|]. intros j q [= -> ->]%list_elem_of_singleton. split; [done|]. by intros x ->%list_elem_of_singleton.
  - inversion Hs as [|? ? Hs' Hall]; subst. assert (Hq' : forall k q, (k, q) ∈ m -> q <> [] /\ forall x, x ∈ q -> node_priority g x = k) by (intros; apply Hq; by right).
    destruct (Z.ltb_spec k k') as [Hlt|Hge]; [|destruct (Z.eqb_spec k k') as [Heq|Hne]].
    + split; [|done]. split.
      * constructor; [done|]. constructor; [done|]. eapply Forall_impl; [exact Hall|]. simpl. lia.
      * intros j q0 [[= -> ->]|Hin]%elem_of_cons; [|by apply Hq]. split; [done|]. by intros x ->%list_elem_of_singleton.
    + split; [split; [done|]|].
      * intros j q0 [[= -> ->]|Hin]%elem_of_cons; [|by apply Hq']. destruct (Hq k' q) as [Hne Hpr]; [left|]. split; [by destruct q|].
        intros x [Hx| ->%list_elem_of_singleton]%elem_of_app; [by apply Hpr|done].
      * unfold elems. rewrite !bind_cons. simpl. rewrite <- app_assoc. simpl. by rewrite Permutation_middle.
    + destruct (IH Hs' Hq') as [[I1 I2] I3]. split; [split|].
      * simpl. constructor; [done|]. apply Forall_forall. intros j [->|Hj]%push_at_keys; [lia|]. by eapply Forall_forall in Hall.
      * intros j q0 [[= -> ->]|Hin]%elem_of_cons; [apply Hq; left|by apply I2].
      * unfold elems in *. rewrite !bind_cons, I3. simpl. by rewrite Permutation_middle.
Qed.

Lemma pop_ok r :
  pq_ok (priorities_to_ready_nodes r) -> priorities_to_ready_nodes r <> [] ->
  exists x m, PopFromReadyQueue r = Ok (x, MkReady m (seen_nodes r) (indegree_map r)) /\ pq_ok m /\
    elems (priorities_to_ready_nodes r) ≡ₚ x :: elems m /\ forall y, y ∈ elems (priorities_to_ready_nodes r) -> (node_priority g x <= node_priority g y)%Z.
Proof.
  intros [Hs Hq] Hne. unfold PopFromReadyQueue. destruct (priorities_to_ready_nodes r) as [|[k q] m] eqn:Em; [done|].
  destruct (Hq k q) as [Hqne Hpr]; [left|]. destruct q as [|x q]; [done|]. inversion Hs as [|? ? Hs' Hall]; subst. eexists x, _. split; [done|].
  assert (Hq' : forall k q, (k, q) ∈ m -> q <> [] /\ forall x, x ∈ q -> node_priority g x = k) by (intros; apply Hq; by right).
  split_and!.
  - destruct q as [|y q]; [by split|]. split; [by constructor|]. intros j q0 [[= -> ->]|Hin]%elem_of_cons; [|by apply Hq']. split; [done|]. intros z Hz. apply Hpr. by right.
  - destruct q; unfold elems; rewrite !bind_cons; simpl; done.
  - intros y (p & Hy & Hp)%list_elem_of_bind. destruct p as [j q']. rewrite (Hpr x) by left.
    apply elem_of_cons in Hp as [[= -> ->]|Hin]; [by rewrite (Hpr y)|]. rewrite (proj2 (Hq' j q' Hin) y Hy).
    apply Forall_forall with (x := j) in Hall; [simpl in Hall; lia|]. apply list_elem_of_fmap. by exists (j, q').
Qed.

(** ** The graph *)

(** A graph whose nodes have all their edges in it. *)
Record direct_ok : Prop := {
  do_nodup : NoDup D;
  do_in n m : n ∈ D -> m ∈ GetAllInNodes (info n) -> m ∈ D;
  do_out n m : n ∈ D -> m ∈ outs n -> m ∈ D;
  do_edges n m : n ∈ D -> m ∈ D -> occ m (outs n) = occ n (GetAllInNodes (info m));
  do_size n : n ∈ D -> (Z.of_nat (length (GetAllInNodes (info n))) < 2 ^ 64)%Z;
  do_acyclic : exists rank : nat -> nat, forall n m, n ∈ D -> m ∈ outs n -> rank n < rank m;
}.
Context (Hg : direct_ok).

(** The nodes, and who waits for whom. *)
Definition read_plan : Plan := MkPlan D (fun n => outs n) [] [].

Lemma in_edges_count m : m ∈ D -> occ m (D ≫= fun n => outs n) = length (GetAllInNodes (info m)).
Proof.
  intros Hm. rewrite occ_bind, (sum_ext _ (fun n => occ n (GetAllInNodes (info m)))) by (intros n Hn; by apply Hg).
  assert (Hl : forall x, x ∈ GetAllInNodes (info m) -> x ∈ D) by (intros x; by apply Hg). revert Hl. generalize (GetAllInNodes (info m)).
  induction l as [|x l IH]; intros Hl; simpl; [clear; by induction D|]. rewrite sum_plus, sum_one by apply Hg.
  rewrite decide_True by (apply Hl; left). rewrite IH; [done|]. intros y Hy. apply Hl. by right.
Qed.

(** ** Loops *)

(** [done] were read, [ws] of the last one's edges are not yet followed. *)
Record RInv (done rest ws : list nat) (r : Ready) : Prop := {
  ri_split : done ++ rest ≡ₚ D;
  ri_queue : pq_ok (priorities_to_ready_nodes r);
  ri_nodup : NoDup (elems (priorities_to_ready_nodes r));
  ri_rest : elems (priorities_to_ready_nodes r) ⊆ rest;
  ri_seen x : (x ∈ seen_nodes r) <-> x ∈ done \/ x ∈ elems (priorities_to_ready_nodes r);
  ri_ws : ws ⊆ D;
  ri_map j : j ∈ D -> indegree_map r !! j = Some (Z.of_nat (occ j (ws ++ (rest ≫= fun n => outs n))));
  ri_zero j : j ∈ D -> (j ∈ done \/ j ∈ elems (priorities_to_ready_nodes r)) <-> occ j (ws ++ (rest ≫= fun n => outs n)) = 0;
}.

Lemma push_ready n r :
  pq_ok (priorities_to_ready_nodes r) -> n ∉ seen_nodes r ->
  exists m, PushToReadyQueue g n r = MkReady m ({[n]} ∪ seen_nodes r) (indegree_map r) /\ pq_ok m /\ elems m ≡ₚ n :: elems (priorities_to_ready_nodes r).
Proof. intros Hq Hn. unfold PushToReadyQueue. rewrite decide_False by done. eexists. split; [done|]. by apply push_at_ok. Qed.

Lemma occ_split done rest : done ++ rest ≡ₚ D -> forall j, occ j (rest ≫= fun n => outs n) <= occ j (D ≫= fun n => outs n).
Proof. intros Hp j. rewrite <- Hp, bind_app, occ_app. lia. Qed.

(** Notifications still to come for a node are at most its edges. *)
Definition bounded (ws rest : list nat) : Prop := forall j, j ∈ D -> (Z.of_nat (occ j (ws ++ (rest ≫= fun n => outs n))) < 2 ^ 64)%Z.

Lemma collect_step done rest ws y r :
  RInv done rest (y :: ws) r -> bounded (y :: ws) rest -> exists r', collect_nodes e g (Some y) r = Ok r' /\ RInv done rest ws r'.
Proof.
  intros HI Hbd. pose proof HI as [H1 H2 H3 H4 H5 H6 H7 H8]. assert (Hy : y ∈ D) by (apply H6; left). assert (H6' : ws ⊆ D) by (intros z Hz; apply H6; by right).
  specialize (Hbd y Hy). pose proof (H7 y Hy) as Hd. pose proof (H8 y Hy) as Hz. simpl in *. set (R := ws ++ (rest ≫= fun n => outs n)) in *.
  rewrite decide_True in Hd, Hz, Hbd by done.
  assert (Hother : forall j, j <> y -> (if decide (y = j) then 1 else 0) + occ j R = occ j R) by (intros j Hj; by rewrite decide_False).
  unfold collect_nodes. rewrite Hd. cbn [assert_some mbind outcome_bind]. rewrite Z.mod_small by lia. replace (Z.of_nat (1 + occ y R) - 1)%Z with (Z.of_nat (occ y R)) by lia.
  set (r1 := MkReady _ _ _).
  assert (Hmap : forall j, j ∈ D -> indegree_map r1 !! j = Some (Z.of_nat (occ j R))).
  { intros j Hj. unfold r1. simpl. destruct (decide (j = y)) as [->|Hne]; [by rewrite lookup_insert_eq|]. rewrite lookup_insert_ne, H7, Hother by done. done. }
  destruct (Z.ltb_spec 0 (Z.of_nat (occ y R))) as [Hpos|Hnon].
  - exists r1. split; [done|]. split; try done. fold R. intros j Hj. destruct (decide (j = y)) as [->|Hne]; [simpl; rewrite Hz; lia|]. simpl. rewrite H8, Hother by done. done.
  - assert (Hns : y ∉ seen_nodes r1) by (simpl; rewrite H5, Hz; lia). destruct (push_ready y r1 H2 Hns) as (m & Em & Hq & Hel). eexists. split; [by rewrite Em|]. split; simpl; try done.
    + rewrite Hel. constructor; [|done]. simpl. intros Hin. assert (Hf : y ∈ done \/ y ∈ elems (priorities_to_ready_nodes r)) by (by right). apply Hz in Hf. lia.
    + intros z. rewrite Hel. intros [->|Hz']%elem_of_cons; [|by apply H4].
      rewrite <- H1 in Hy. apply elem_of_app in Hy as [Hyd|?]; [|done]. assert (Hf : y ∈ done \/ y ∈ elems (priorities_to_ready_nodes r)) by (by left). apply Hz in Hf. lia.
    + intros x. rewrite elem_of_union, elem_of_singleton, H5, Hel, elem_of_cons. simpl. tauto.
    + fold R. intros j Hj. rewrite Hel, elem_of_cons. simpl. destruct (decide (j = y)) as [->|Hne]; [split; [lia|tauto]|]. specialize (H8 j Hj). rewrite Hother in H8 by done. tauto.
Qed.

(** The edges of a list, null or not. *)
Lemma collect_edges done rest edges ws r :
  RInv done rest (present edges ++ ws) r -> bounded (present edges ++ ws) rest ->
  exists r', foldM (fun edge r => assert_success e (collect_nodes e g edge r)) edges r = Ok r' /\ RInv done rest ws r'.
Proof.
  revert r. induction edges as [|[y|] edges IH]; intros r HI Hbd; [by exists r| |by apply IH].
  change (present (Some y :: edges) ++ ws) with (y :: (present edges ++ ws)) in *. destruct (collect_step _ _ _ _ _ HI Hbd) as (r1 & E1 & HI1).
  cbn [foldM]. rewrite E1. cbn [assert_success mbind outcome_bind]. apply IH; [done|]. intros j Hj. specialize (Hbd j Hj). simpl in Hbd. lia.
Qed.

Lemma collect_outputs done rest outputs ws r :
  RInv done rest ((outputs ≫= present) ++ ws) r -> bounded ((outputs ≫= present) ++ ws) rest ->
  exists r', foldM (fun edges r => foldM (fun edge r => assert_success e (collect_nodes e g edge r)) edges r) outputs r = Ok r' /\ RInv done rest ws r'.
Proof.
  revert r. induction outputs as [|edges outputs IH]; intros r HI Hbd; [by exists r|]. rewrite bind_cons, <- app_assoc in HI, Hbd.
  destruct (collect_edges _ _ _ _ _ HI Hbd) as (r1 & E1 & HI1). cbn [foldM]. rewrite E1. cbn [mbind outcome_bind]. apply IH; [done|].
  intros j Hj. specialize (Hbd j Hj). rewrite <- app_assoc, occ_app in Hbd. lia.
Qed.

Lemma collect_all_ok done rest n r :
  RInv done rest (outs n) r -> bounded (outs n) rest -> exists r', collect_all e g n r = Ok r' /\ RInv done rest [] r'.
Proof.
  intros HI Hbd. unfold collect_all. destruct (collect_outputs done rest (fn_out_data (info n)) (present (fn_out_control (info n))) r HI Hbd) as (r1 & -> & HI1).
  cbn [mbind outcome_bind]. apply (collect_edges done rest (fn_out_control (info n)) []); rewrite app_nil_r; [done|].
  intros j Hj. specialize (Hbd j Hj). unfold GetAllOutNodes in Hbd at 1. rewrite <- app_assoc, occ_app in Hbd. lia.
Qed.

(** ** The start *)

Definition started (done : list nat) (r : Ready) : Prop :=
  pq_ok (priorities_to_ready_nodes r) /\ NoDup (elems (priorities_to_ready_nodes r)) /\
  (forall x, (x ∈ elems (priorities_to_ready_nodes r)) <-> x ∈ done /\ length (GetAllInNodes (info x)) = 0) /\
  (forall x, (x ∈ seen_nodes r) <-> x ∈ elems (priorities_to_ready_nodes r)) /\
  forall j, j ∈ done -> indegree_map r !! j = Some (Z.of_nat (length (GetAllInNodes (info j)))).

Lemma init_step done n r : started done r -> n ∉ done -> started (n :: done) (init_ready g n r).
Proof.
  intros (H1 & H2 & H3 & H4 & H5) Hn. unfold init_ready. set (r1 := MkReady _ _ _).
  assert (Hmap : forall j, j ∈ n :: done -> indegree_map r1 !! j = Some (Z.of_nat (length (GetAllInNodes (info j))))).
  { intros j Hj. simpl. destruct (decide (j = n)) as [->|Hne]; [by rewrite lookup_insert_eq|]. rewrite lookup_insert_ne by done. apply H5. by apply elem_of_cons in Hj as [?|?]. }
  case_decide as Hz.
  - assert (Hns : n ∉ seen_nodes r1) by (simpl; rewrite H4, H3; tauto). destruct (push_ready n r1 H1 Hns) as (m & -> & Hq & Hel). split_and!; simpl; try done.
    + rewrite Hel. constructor; [simpl; rewrite H3; tauto|done].
    + intros x. rewrite Hel, !elem_of_cons. simpl. rewrite H3. split; [intros [->|?]; tauto|tauto].
    + intros x. rewrite elem_of_union, elem_of_singleton, H4, Hel, elem_of_cons. done.
  - split_and!; simpl; try done. intros x. rewrite H3, elem_of_cons. split; [tauto|]. intros [[->|?] ?]; [done|tauto].
Qed.

Lemma init_ok : RInv [] D [] (foldl (fun r node => init_ready g node r) (MkReady [] ∅ ∅) D).
Proof.
  assert (Hgen : forall rest done r, started done r -> NoDup (rest ++ done) -> exists done', done' ≡ₚ rest ++ done /\ started done' (foldl (fun r node => init_ready g node r) r rest)).
  { induction rest as [|n rest IH]; intros done r Hs Hnd; [by exists done|]. simpl in *. apply NoDup_cons in Hnd as [Hn Hnd].
    destruct (IH (n :: done) (init_ready g n r)) as (done' & Hp & Hs').
    - apply init_step; [done|]. intros Hin. apply Hn, elem_of_app. by right.
    - rewrite <- Permutation_middle. by constructor.
    - exists done'. split; [|done]. by rewrite Hp, <- Permutation_middle. }
  destruct (Hgen D [] (MkReady [] ∅ ∅)) as (done & Hd & Hs).
  - assert (Hnil : forall P : Prop, (exists x : nat, x ∈ []) -> P) by (by intros P [x ?%not_elem_of_nil]). split_and!.
    + split; [apply SSorted_nil|]. by intros ? ? ?%not_elem_of_nil.
    + apply NoDup_nil_2.
    + intros x. split; [intros Hx|intros [Hx _]]; apply Hnil; by exists x.
    + intros x. split; [set_solver|intros Hx; apply Hnil; by exists x].
    + by intros j ?%not_elem_of_nil.
  - rewrite app_nil_r. apply Hg.
  - rewrite app_nil_r in Hd. destruct Hs as (H1 & H2 & H3 & H4 & H5). split; simpl; try done.
    + intros x [Hx _]%H3. by rewrite Hd in Hx.
    + intros x. rewrite H4. split; [tauto|]. by intros [?%not_elem_of_nil|?].
    + by intros x ?%not_elem_of_nil.
    + intros j Hj. rewrite H5 by (by rewrite Hd). by rewrite in_edges_count.
    + intros j Hj. rewrite in_edges_count by done. rewrite H3, Hd. split; [by intros [?%not_elem_of_nil|[_ ?]]|tauto].
Qed.

(** ** The loop *)

Lemma ready_elems done rest r : RInv done rest [] r -> elems (priorities_to_ready_nodes r) ≡ₚ ready_nodes read_plan done.
Proof.
  intros [H1 H2 H3 H4 H5 H6 H7 H8]. pose proof (do_nodup Hg) as Hnd. rewrite <- H1 in Hnd. apply NoDup_app in Hnd as (_ & Hdis & _).
  assert (HD : forall x, x ∈ D <-> x ∈ done \/ x ∈ rest) by (intros x; by rewrite <- H1, elem_of_app).
  apply NoDup_Permutation; [done|apply NoDup_filter, Hg|]. intros x. rewrite elem_of_ready. simpl. split.
  - intros Hx. assert (HxD : x ∈ D) by (apply HD; right; by apply H4). split_and!; [done|intros ?; by apply (Hdis x), H4|]. intros w Hw Hxw.
    assert (Hz : occ x (rest ≫= fun n => outs n) = 0) by (apply (H8 x HxD); by right). apply occ_zero in Hz. apply HD in Hw as [?|Hw]; [done|].
    destruct Hz. apply list_elem_of_bind. by exists w.
  - intros (HxD & Hxd & Hall). assert (Hz : occ x (rest ≫= fun n => outs n) = 0).
    { apply occ_zero. intros (w & Hxw & Hw)%list_elem_of_bind. apply (Hdis w); [|done]. apply Hall; [apply HD; by right|done]. }
    apply (H8 x HxD) in Hz as [?|?]; done.
Qed.

Lemma empty_queue_done done rest r : RInv done rest [] r -> priorities_to_ready_nodes r = [] -> rest = [].
Proof.
  intros [H1 H2 H3 H4 H5 H6 H7 H8] Eq. pose proof (do_nodup Hg) as Hnd. rewrite <- H1 in Hnd. apply NoDup_app in Hnd as (_ & Hdis & _).
  assert (HD : forall x, x ∈ rest -> x ∈ D) by (intros x Hx; rewrite <- H1, elem_of_app; by right). destruct (do_acyclic Hg) as [rank Hrank].
  assert (Hnone : forall n x, rank x < n -> x ∉ rest).
  { induction n as [|n IH]; intros x Hlt Hx; [lia|]. assert (Hz : x ∈ rest ≫= fun n => outs n).
    { apply dec_stable. intros Hz%occ_zero. apply (H8 x (HD x Hx)) in Hz as [Hz|Hz]; [by apply (Hdis x)|]. rewrite Eq in Hz. by apply not_elem_of_nil in Hz. }
    apply list_elem_of_bind in Hz as (w & Hxw & Hw). apply (IH w); [|done]. pose proof (Hrank w x (HD w Hw) Hxw). lia. }
  destruct rest as [|x rest]; [done|]. destruct (Hnone (S (rank x)) x); [lia|left].
Qed.

Lemma pop_inv done rest r :
  RInv done rest [] r -> priorities_to_ready_nodes r <> [] ->
  exists x r' rest', PopFromReadyQueue r = Ok (x, r') /\ rest ≡ₚ x :: rest' /\ RInv (x :: done) rest' (outs x) r' /\ bounded (outs x) rest' /\
    x ∈ ready_nodes read_plan done /\ most_urgent (node_priority g) x (ready_nodes read_plan done).
Proof.
  intros HI Hne. pose proof HI as [H1 H2 H3 H4 H5 H6 H7 H8]. pose proof (ready_elems _ _ _ HI) as Hready.
  destruct (pop_ok r H2 Hne) as (x & m & E & Hm & Hel & Hmin). assert (Hxe : x ∈ elems (priorities_to_ready_nodes r)) by (rewrite Hel; left).
  pose proof (H4 x Hxe) as Hxr. apply elem_of_Permutation in Hxr as [rest' Hrest]. exists x, (MkReady m (seen_nodes r) (indegree_map r)), rest'.
  assert (HxD : x ∈ D) by (rewrite <- H1, Hrest, elem_of_app; right; left).
  assert (EP : outs x ++ (rest' ≫= fun n => outs n) ≡ₚ rest ≫= fun n => outs n) by (by rewrite Hrest). rewrite Hel in H3. apply NoDup_cons in H3 as [Hxm H3].
  split_and!; [done|done| | |by rewrite <- Hready|intros y; rewrite <- Hready; apply Hmin].
  - split; simpl; try done.
    + rewrite <- H1, Hrest. by rewrite <- Permutation_middle.
    + intros z Hz. assert (Hz' : z ∈ rest) by (apply H4; rewrite Hel; by right). rewrite Hrest in Hz'. apply elem_of_cons in Hz' as [->|?]; done.
    + intros z. rewrite H5, Hel, !elem_of_cons. tauto.
    + intros z. by apply Hg.
    + intros j Hj. rewrite EP. by apply H7.
    + intros j Hj. rewrite EP, elem_of_cons. specialize (H8 j Hj). rewrite Hel, elem_of_cons in H8. simpl in H8. tauto.
  - intros j Hj. rewrite EP. pose proof (occ_split _ _ H1 j). pose proof (in_edges_count j Hj). pose proof (do_size Hg j Hj). lia.
Qed.

Lemma read_loop_ok fuel done rest r :
  RInv done rest [] r -> length rest <= fuel ->
  exists order, schedule read_plan (most_urgent (node_priority g)) done order /\ order ≡ₚ rest /\
    forall values b, read_loop e g fuel values r b = foldM (fun node b => assert_success e (ReadInOneNode e g values node b)) order b.
Proof.
  revert done rest r. induction fuel as [|fuel IH]; intros done rest r HI Hfuel.
  - destruct rest; [|simpl in Hfuel; lia]. exists []. split_and!; [constructor|done|]. intros values b. simpl.
    assert (Ee : elems (priorities_to_ready_nodes r) = []). { destruct (elems _) as [|x l] eqn:El; [done|]. pose proof (ri_rest _ _ _ _ HI x) as Hx. rewrite El in Hx.
      by destruct (not_elem_of_nil x); apply Hx; left. }
    destruct (priorities_to_ready_nodes r) as [|[k q] m] eqn:Em; [done|]. destruct (pq_queues _ (ri_queue _ _ _ _ HI) k q) as [Hq _]; [rewrite Em; left|].
    unfold elems in Ee. rewrite bind_cons in Ee. simpl in Ee. by destruct q.
  - destruct (decide (priorities_to_ready_nodes r = [])) as [Em|Hne].
    { pose proof (empty_queue_done _ _ _ HI Em) as ->. exists []. split_and!; [constructor|done|]. intros values b. simpl. by rewrite Em. }
    destruct (pop_inv _ _ _ HI Hne) as (x & r1 & rest' & Ep & Hrest & HI1 & Hbd & Hx & Hb).
    destruct (collect_all_ok _ _ _ _ HI1 Hbd) as (r2 & Ec & HI2). destruct (IH _ _ _ HI2) as (order & Hs & Ho & Hrun); [rewrite Hrest in Hfuel; simpl in Hfuel; lia|].
    exists (x :: order). split_and!; [by constructor|by rewrite Hrest, Ho|]. intros values b. cbn [read_loop]. destruct (priorities_to_ready_nodes r) as [|kq m]; [done|].
    rewrite Ep. cbn [mbind outcome_bind foldM]. destruct (assert_success e (ReadInOneNode e g values x b)); try done. cbn [mbind outcome_bind]. rewrite Ec. apply Hrun.
Qed.
End order.

(** C21: Reading by priority is reading the nodes one by one in an order that does
    not depend on what reading them does: every node once, after all nodes it has
    edges from, and at every step one whose priority is first among the nodes
    that are ready. *)
Theorem priority_order_correct e g :
  direct_ok g -> exists order, schedule (read_plan g) (most_urgent (node_priority g)) [] order /\ order ≡ₚ GetDirectNode g /\
    forall values b, ReadInNodesByPriority e g values b = foldM (fun node b => assert_success e (ReadInOneNode e g values node b)) order b.
Proof. intros Hg. apply (read_loop_ok e g Hg _ [] (GetDirectNode g)); [by apply init_ok|done]. Qed.

(** What the sequential builder makes: the nodes are numbered, and put into
    the execution data, in such an order; the nodes of constants are among
    them. *)
Theorem sequential_build_order e reg g base known ed b :
  graph_ok g -> direct_ok g -> GetDirectNode g = GetAllNodes g -> SequentialBuild e reg g base known = Ok (ed, b) ->
  exists order, schedule (read_plan g) (most_urgent (node_priority g)) [] order /\ order ≡ₚ GetAllNodes g /\
    ordered_graph_to_exe_nodes b = zip (made g order) (s_nodes ed) /\ s_nodes ed = seq 0 (length (made g order)).
Proof.
  intros Hg Hd Ed ([[ed0 b0] k0] & E1%assert_success_Ok & (? & _ & [= -> ->])%bind_Ok)%bind_Ok. unfold SequentialBuildData in E1.
  apply bind_Ok in E1 as ([values k] & _ & (b1 & Eb%assert_success_Ok & (? & _ & (? & _ & (ed1 & Ec & [= -> -> _])%bind_Ok)%bind_Ok)%bind_Ok)%bind_Ok).
  destruct (read_loop_ok e g Hd _ [] (GetDirectNode g) _ (init_ok g Hd) (le_n _)) as (order & Hs & Ho & Hrun). exists order.
  unfold ReadInNodesByPriority in Eb. rewrite Hrun in Eb. rewrite Ed in Ho.
  apply (read_list e g Hg values order) in Eb as [R1 R2 _ _ _ _]; [|rewrite Ho; apply Hg|intros n; by rewrite Ho].
  assert (En : s_nodes ed = gn_nodes (b_graph_node b)) by (unfold CreateSequentialData in Ec; apply bind_Ok in Ec as (? & _ & [= <-]); done).
  rewrite En, R2. done.
Qed.
