(* ===== verification/ExecValues.v ===== *)
(** * ExecValues: chains and inputs

    Two pins of a model share a chain exactly when they have the same symbol,
    also across the graphs of the model; and the array of inputs is filled from
    the indices of the data nodes, or refused. *)

From stdpp Require Import strings sorting.
From S2P Require Import Prelude ExecReady ExecTopo ExecTopoSound ExecGraph ExecBuild ExecGraphSound.

#[local] Open Scope nat_scope.

(** ** Chains *)

Section values.
Context (e : Status) (g : ExecuteGraph) (known : SymbolsToValue).

(** [ordered] has the symbols of the nodes [done] that have no value yet. *)
Record met (done : list nat) (ordered : list Z) : Prop := {
  mt_nodup : NoDup ordered;
  mt_new s : s ∈ ordered -> known !! s = None;
  mt_all n s : n ∈ done -> s ∈ node_symbols g n -> is_Some (known !! s) \/ s ∈ ordered;
}.

Lemma meet_symbols_ok done ordered l :
  met done ordered -> let ordered' := foldl (fun o s => meet_symbol known s o) ordered l in
  NoDup ordered' /\ (forall s, s ∈ ordered' -> known !! s = None) /\ (forall s, s ∈ ordered -> s ∈ ordered') /\ forall s, s ∈ l -> is_Some (known !! s) \/ s ∈ ordered'.
Proof.
  intros [H1 H2 _]. revert ordered H1 H2. induction l as [|x l IH]; intros ordered H1 H2; simpl; [split_and!; [done|done|done|by intros s ?%not_elem_of_nil]|].
  assert (Hx : NoDup (meet_symbol known x ordered) /\ (forall s, s ∈ meet_symbol known x ordered -> known !! s = None) /\
    (forall s, s ∈ ordered -> s ∈ meet_symbol known x ordered) /\ (is_Some (known !! x) \/ x ∈ meet_symbol known x ordered)).
  { unfold meet_symbol. destruct (known !! x) as [v|] eqn:Ex; [split_and!; try done; by left|]. case_decide as Hin; [split_and!; try done; by right|]. split_and!.
    - apply NoDup_app. split_and!; [done| |apply NoDup_singleton]. intros s Hs ->%list_elem_of_singleton. done.
    - intros s [Hs| ->%list_elem_of_singleton]%elem_of_app; [by apply H2|done].
    - intros s Hs. apply elem_of_app. by left.
    - right. apply elem_of_app. right. left. }
  destruct Hx as (X1 & X2 & X3 & X4). destruct (IH _ X1 X2) as (Y1 & Y2 & Y3 & Y4). split_and!; [done|done|auto|].
  intros s [->|Hs]%elem_of_cons; [|by apply Y4]. destruct X4 as [?|?]; [by left|right; by apply Y3].
Qed.

Lemma meet_nodes_ok nodes done ordered : met done ordered -> post (foldM (meet_node e g known) nodes ordered) (met (done ++ nodes)).
Proof.
  revert done ordered. induction nodes as [|n nodes IH]; intros done ordered Hm; simpl; [apply post_ok; by rewrite app_nil_r|].
  eapply (post_bind _ _ (met (done ++ [n]))).
  - unfold meet_node. apply (post_bind _ _ (fun _ => True)); [by intros ? ?|]. intros ? _. apply post_ok. destruct (meet_symbols_ok done ordered (node_symbols g n) Hm) as (H1 & H2 & H3 & H4).
    split; [done|done|]. intros m s [Hm'| ->%list_elem_of_singleton]%elem_of_app Hs; [|by apply H4]. destruct (mt_all _ _ Hm m s Hm' Hs); [by left|right; by apply H3].
  - intros o Ho. eapply post_mono; [by apply IH|]. intros o'. by rewrite <- app_assoc.
Qed.

(** New symbols get new values, one each. *)
Lemma give_lookup base ordered s :
  NoDup ordered ->
  (forall k, ordered !! k = Some s -> give_values base ordered known !! s = Some (base + k)) /\ (s ∉ ordered -> give_values base ordered known !! s = known !! s).
Proof.
  intros Hnd. unfold give_values. induction ordered as [|x l IH] using rev_ind; [done|].
  rewrite length_app, Nat.add_1_r, seq_S. simpl. rewrite zip_with_app by (by rewrite length_seq). rewrite foldl_app. simpl.
  apply NoDup_app in Hnd as (Hl & Hdis & _). destruct (IH Hl) as [I1 I2]. split.
  - intros k Hk. apply lookup_app_Some in Hk as [Hk|[Hge Hk]].
    + rewrite lookup_insert_ne; [by apply I1|]. intros ->. apply (Hdis s); [by eapply list_elem_of_lookup_2|left].
    + apply list_lookup_singleton_Some in Hk as [Hz ->]. rewrite lookup_insert_eq. f_equal. lia.
  - intros Hn. rewrite elem_of_app, list_elem_of_singleton in Hn. rewrite lookup_insert_ne by (intros ->; tauto). apply I2. tauto.
Qed.

Lemma fold_insert {A} (f : nat -> A) nodes (m : gmap nat A) n :
  foldl (fun m node => <[node := f node]> m) m nodes !! n = if decide (n ∈ nodes) then Some (f n) else m !! n.
Proof.
  revert m. induction nodes as [|x nodes IH]; intros m; simpl; [done|]. rewrite IH. destruct (decide (n ∈ nodes)) as [Hin|Hout].
  - by rewrite decide_True by (by right).
  - destruct (decide (n = x)) as [->|Hne]; [rewrite lookup_insert_eq, decide_True by left; done|]. rewrite lookup_insert_ne by done. rewrite decide_False; [done|]. by intros [?|?]%elem_of_cons.
Qed.
End values.

Definition one_symbol_each (m : SymbolsToValue) : Prop := forall s s' x, m !! s = Some x -> m !! s' = Some x -> s = s'.

(** C34: Allocating the chains of a graph keeps the values that symbols already
    have, gives every other symbol one of its own from the new ones, and gives
    every pin of the graph the value of its symbol: two pins share a chain
    exactly when they have the same symbol. *)
Theorem chains_follow_symbols e g base nodes known values known' :
  AllocGraphAsyncValues e g base nodes known = Ok (values, known') ->
  one_symbol_each known -> (forall s x, known !! s = Some x -> x < base) ->
  known ⊆ known' /\ one_symbol_each known' /\ (forall s x, known' !! s = Some x -> known !! s = Some x \/ base <= x < base + total_num values) /\
  forall n, n ∈ nodes ->
    (exists l, nodes_to_output_values values !! n = Some l /\ Forall2 (fun s x => known' !! s = Some x) (fn_out_symbols (fast_node g n)) l) /\
    (exists l, nodes_to_input_values values !! n = Some l /\ Forall2 (fun s x => known' !! s = Some x) (fn_in_symbols (fast_node g n)) l).
Proof.
  intros (ordered & Ho & [= <- <-])%bind_Ok Hone Hold.
  apply (meet_nodes_ok e g known nodes [] []) in Ho as [H1 H2 H3]; [|split; [constructor|by intros s ?%not_elem_of_nil|by intros n s ?%not_elem_of_nil]].
  assert (Hcase : forall s x, give_values base ordered known !! s = Some x -> (exists k, ordered !! k = Some s /\ x = base + k) \/ (s ∉ ordered) /\ known !! s = Some x).
  { intros s x Hx. destruct (give_lookup known base ordered s H1) as [L1 L2]. destruct (decide (s ∈ ordered)) as [[k Hk]%list_elem_of_lookup|Hn].
    - left. exists k. split; [done|]. rewrite (L1 k Hk) in Hx. by injection Hx.
    - right. split; [done|]. by rewrite L2 in Hx. }
  assert (Hhas : forall n s, n ∈ nodes -> s ∈ node_symbols g n -> give_values base ordered known !! s = Some (chain_of (give_values base ordered known) s)).
  { intros n s Hn Hs. unfold chain_of. destruct (give_lookup known base ordered s H1) as [L1 L2]. destruct (decide (s ∈ ordered)) as [[k Hk]%list_elem_of_lookup|Hno].
    - by rewrite (L1 k Hk).
    - rewrite L2 by done. destruct (H3 n s Hn Hs) as [[x ->]|?]; done. }
  split_and!.
  - apply map_subseteq_spec. intros s x Hx. rewrite (proj2 (give_lookup known base ordered s H1)); [done|]. intros Hin%H2. congruence.
  - intros s s' x Hs Hs'. destruct (Hcase s x Hs) as [(k & Hk & ->)|[_ Hk]], (Hcase s' _ Hs') as [(k' & Hk' & E)|[_ Hk']].
    + assert (k = k') as <- by lia. congruence.
    + apply Hold in Hk'. lia.
    + apply Hold in Hk. lia.
    + by eapply Hone.
  - intros s x Hx. destruct (Hcase s x Hx) as [(k & Hk & ->)|[_ Hk]]; [right|by left]. apply lookup_lt_Some in Hk. simpl. lia.
  - intros n Hn. simpl. rewrite !fold_insert, !decide_True by done. split; (eexists; split; [done|]); apply Forall2_fmap_r, Forall_Forall2_diag, Forall_forall; intros s Hs;
      apply (Hhas n); try done; apply elem_of_app; [by left|by right].
Qed.

(** ** Inputs *)

Section inputs.
Implicit Types (arr : list (option nat)) (l : list (Z * nat)) (ks : list Z).

Lemma place_none l : foldl place_feed None l = None.
Proof. by induction l. Qed.
Lemma append_none m f ks : foldl (append_feed m f) None ks = None.
Proof. by induction ks. Qed.

(** The negative indices are kept for later. *)
Lemma place_negative arr index app l :
  (forall k v, (k, v) ∈ l -> (k < 0)%Z) -> NoDup (l.*1 ++ app) -> foldl place_feed (Some (arr, index, app)) l = Some (arr, index, reverse l.*1 ++ app).
Proof.
  revert app. induction l as [|[k v] l IH]; intros app Hneg Hnd; simpl; [done|]. simpl in Hnd. apply NoDup_cons in Hnd as [Hk Hnd].
  pose proof (Hneg k v ltac:(left)). rewrite (proj2 (Z.leb_gt 0 k)) by lia. rewrite decide_False by (intros ?; apply Hk, elem_of_app; by right).
  rewrite IH.
  - by rewrite reverse_cons, <- app_assoc.
  - intros j w Hj. apply (Hneg j w). by right.
  - rewrite <- Permutation_middle. by constructor.
Qed.

(** The others must come one after the other. *)
Lemma place_others arr pre app l :
  (forall k v, (k, v) ∈ l -> (0 <= k)%Z) -> length arr >= length pre + length l ->
  foldl place_feed (Some (pre ++ drop (length pre) arr, Z.of_nat (length pre), app)) l =
  if decide (l.*1 = seqZ (Z.of_nat (length pre)) (Z.of_nat (length l))) then
    Some ((pre ++ (Some <$> l.*2)) ++ drop (length pre + length l) arr, Z.of_nat (length pre + length l), app) else None.
Proof.
  revert pre. induction l as [|[k v] l IH]; intros pre Hpos Hlen.
  - rewrite decide_True by done. simpl. rewrite app_nil_r, Nat.add_0_r. done.
  - cbn [foldl]. cbn [place_feed mbind option_bind]. pose proof (Hpos k v ltac:(left)). rewrite (proj2 (Z.leb_le 0 k)) by lia.
    cbn [fmap list_fmap length]. rewrite Nat2Z.inj_succ, seqZ_cons, Z.pred_succ by lia. simpl in Hlen. destruct (Z.eqb_spec (Z.of_nat (length pre)) k) as [<-|Hne].
    + rewrite Nat2Z.id. replace (<[length pre := Some v]> (pre ++ drop (length pre) arr)) with ((pre ++ [Some v]) ++ drop (length (pre ++ [Some v])) arr).
      2: { rewrite length_app, Nat.add_1_r. destruct (lookup_lt_is_Some_2 arr (length pre)) as [w Hw]; [lia|]. rewrite (drop_S _ _ _ Hw).
        rewrite <- app_assoc. rewrite insert_app_r_alt by lia. by rewrite Nat.sub_diag. }
      replace (Z.of_nat (length pre) + 1)%Z with (Z.of_nat (length (pre ++ [Some v]))) by (rewrite length_app; simpl; lia).
      rewrite IH; [|intros j w Hj; apply (Hpos j w); by right|rewrite length_app; simpl; lia]. rewrite length_app. simpl.
      replace (Z.of_nat (length pre + 1)) with (Z.succ (Z.of_nat (length pre))) by lia. rewrite <- app_assoc. simpl.
      destruct (decide (l.*1 = _)) as [E|E]; [rewrite decide_True by (by f_equal)|rewrite decide_False by congruence; done]. replace (length pre + 1 + length l) with (length pre + S (length l)) by lia. by rewrite <- !app_assoc.
    + rewrite place_none, decide_False; [done|]. intros E. injection E as E _. lia.
Qed.

(** The negative indices, from [-1 - f] down. *)
Definition after (f n : nat) : list Z := (fun i => (- 1 - i)%Z) <$> seqZ (Z.of_nat f) (Z.of_nat n).

Lemma append_ok m (f : nat) arr pre ks :
  length arr >= f + length pre + length ks -> 
  foldl (append_feed m (Z.of_nat f)) (Some (take f arr ++ pre ++ drop (f + length pre) arr, Z.of_nat (f + length pre))) ks =
  if decide (ks = after (length pre) (length ks)) then
    Some (take f arr ++ (pre ++ ((m !!.) <$> ks)) ++ drop (f + length pre + length ks) arr, Z.of_nat (f + length pre + length ks)) else None.
Proof.
  revert pre. induction ks as [|k ks IH]; intros pre Hlen.
  - rewrite decide_True by done. simpl. by rewrite app_nil_r, Nat.add_0_r.
  - cbn [foldl]. cbn [append_feed mbind option_bind]. unfold after. cbn [length]. rewrite Nat2Z.inj_succ, seqZ_cons, Z.pred_succ by lia. cbn [fmap list_fmap]. simpl in Hlen.
    destruct (Z.eqb_spec (k * -1 - 1 + Z.of_nat f) (Z.of_nat (f + length pre))) as [Heq|Hne].
    + rewrite Nat2Z.id. replace (<[f + length pre := m !! k]> (take f arr ++ pre ++ drop (f + length pre) arr)) with (take f arr ++ (pre ++ [m !! k]) ++ drop (f + length (pre ++ [m !! k])) arr).
      2: { rewrite length_app. simpl. destruct (lookup_lt_is_Some_2 arr (f + length pre)) as [w Hw]; [lia|]. rewrite (drop_S _ _ _ Hw).
        rewrite insert_app_r_alt by (rewrite length_take; lia). rewrite length_take, Nat.min_l by lia. replace (f + length pre - f) with (length pre) by lia.
        rewrite insert_app_r_alt by lia. rewrite Nat.sub_diag. simpl. rewrite <- app_assoc. simpl. do 4 f_equal. lia. }
      replace (Z.of_nat (f + length pre) + 1)%Z with (Z.of_nat (f + length (pre ++ [m !! k]))) by (rewrite length_app; simpl; lia).
      rewrite IH by (rewrite length_app; simpl; lia). rewrite length_app. simpl. unfold after.
      replace (Z.of_nat (length pre + 1)) with (Z.succ (Z.of_nat (length pre))) by lia.
      destruct (decide (ks = _)) as [E|E]; [rewrite decide_True by (f_equal; [lia|done])|rewrite decide_False by congruence; done].
      rewrite <- !app_assoc. simpl. by replace (f + (length pre + 1) + length ks) with (f + length pre + S (length ks)) by lia.
    + rewrite append_none, decide_False; [done|]. intros E. injection E as E _. lia.
Qed.

Lemma elem_of_after i n : (i ∈ after 0 n) <-> (- Z.of_nat n <= i < 0)%Z.
Proof.
  unfold after. rewrite list_elem_of_fmap. split; [intros (j & -> & Hj%elem_of_seqZ); lia|]. intros Hi. exists (- 1 - i)%Z. split; [lia|]. apply elem_of_seqZ. lia.
Qed.

Lemma seqZ_sorted lo n : StronglySorted Z.le (seqZ lo (Z.of_nat n)).
Proof.
  revert lo. induction n as [|n IH]; intros lo; [constructor|]. rewrite seqZ_cons by lia. replace (Z.pred (Z.of_nat (S n))) with (Z.of_nat n) by lia. constructor; [apply IH|].
  apply Forall_forall. intros x Hx%elem_of_seqZ. lia.
Qed.

Lemma after_reverse n : after 0 n = reverse (seqZ (- Z.of_nat n) (Z.of_nat n)).
Proof.
  induction n as [|n IH]; [done|]. unfold after in *. replace (Z.of_nat (S n)) with (Z.of_nat n + 1)%Z by lia. rewrite seqZ_app, fmap_app, IH by lia.
  change (seqZ (Z.of_nat 0 + Z.of_nat n) 1) with [(0 + Z.of_nat n)%Z]. cbn [fmap list_fmap].
  rewrite (Z.add_comm (Z.of_nat n) 1), (seqZ_app _ 1) by lia. change (seqZ (- (1 + Z.of_nat n)) 1) with [(- (1 + Z.of_nat n))%Z]. rewrite reverse_app.
  replace (- (1 + Z.of_nat n) + 1)%Z with (- Z.of_nat n)%Z by lia. by replace (- 1 - (0 + Z.of_nat n))%Z with (- (1 + Z.of_nat n))%Z by lia.
Qed.

(** A sorted list without duplicates that has the numbers of an interval. *)
Lemma sorted_interval ks lo n :
  StronglySorted Z.le ks -> NoDup ks -> (forall i, i ∈ ks <-> (lo <= i < lo + Z.of_nat n)%Z) -> ks = seqZ lo (Z.of_nat n).
Proof.
  intros Hs Hnd Hin. apply (StronglySorted_unique Z.le); [done|apply seqZ_sorted|]. apply NoDup_Permutation; [done|apply NoDup_seqZ|]. intros i. by rewrite Hin, elem_of_seqZ.
Qed.

(** The keys in order: first the negative ones. *)
Lemma feeds_split m :
  exists neg pos, feeds m = neg ++ pos /\ (forall k v, (k, v) ∈ neg -> (k < 0)%Z) /\ (forall k v, (k, v) ∈ pos -> (0 <= k)%Z) /\
    NoDup (neg.*1 ++ pos.*1) /\ StronglySorted Z.le neg.*1 /\ StronglySorted Z.le pos.*1 /\ neg ++ pos ≡ₚ map_to_list m.
Proof.
  assert (Hs : StronglySorted feed_order (feeds m)).
  { apply StronglySorted_merge_sort; [intros x y z; unfold feed_order; lia|intros x y; unfold feed_order; lia]. }
  assert (Hp : feeds m ≡ₚ map_to_list m) by apply merge_sort_Permutation.
  assert (Hnd : NoDup (feeds m).*1) by (rewrite Hp; apply NoDup_fst_map_to_list).
  assert (Hsplit : forall l, StronglySorted feed_order l -> exists neg pos, l = neg ++ pos /\ (forall k v, (k, v) ∈ neg -> (k < 0)%Z) /\ (forall k v, (k, v) ∈ pos -> (0 <= k)%Z) /\
    StronglySorted Z.le neg.*1 /\ StronglySorted Z.le pos.*1).
  { induction l as [|[k v] l IH]; intros Hl; [exists [], []; split_and!; [done|by intros ? ? ?%not_elem_of_nil..|apply SSorted_nil|apply SSorted_nil]|].
    inversion Hl as [|? ? Hl' Hall]; subst. destruct (IH Hl') as (neg & pos & -> & Hneg & Hpos & S1 & S2).
    assert (Hk : forall j w, (j, w) ∈ neg ++ pos -> (k <= j)%Z) by (intros j w Hj; rewrite Forall_forall in Hall; exact (Hall (j, w) Hj)).
    destruct (Z.ltb_spec k 0) as [Hlt|Hge].
    - exists ((k, v) :: neg), pos. split_and!; try done; [intros j w [[= -> ->]|Hj]%elem_of_cons; [done|by eapply Hneg]|]. simpl. constructor; [done|].
      apply Forall_forall. intros j ([j' w] & -> & Hj)%list_elem_of_fmap. apply (Hk j' w), elem_of_app. by left.
    - destruct neg as [|[j w] neg]; [|pose proof (Hneg j w ltac:(left)); pose proof (Hk j w ltac:(left)); lia].
      exists [], ((k, v) :: pos). split_and!; try done; [intros j w [[= -> ->]|Hj]%elem_of_cons; [done|by eapply Hpos]|]. simpl. constructor; [done|].
      apply Forall_forall. intros j ([j' w] & -> & Hj)%list_elem_of_fmap. apply (Hk j' w). done. }
  destruct (Hsplit _ Hs) as (neg & pos & E & Hneg & Hpos & S1 & S2). exists neg, pos. rewrite E, fmap_app in Hnd. rewrite E in Hp. done.
Qed.

(** What the function computes. *)
Lemma create_split m neg pos :
  feeds m = neg ++ pos -> (forall k v, (k, v) ∈ neg -> (k < 0)%Z) -> (forall k v, (k, v) ∈ pos -> (0 <= k)%Z) -> NoDup (neg.*1 ++ pos.*1) -> neg ++ pos ≡ₚ map_to_list m ->
  CreateInputValues m =
  if decide (pos.*1 = seqZ 0 (Z.of_nat (length pos)) /\ reverse neg.*1 = after 0 (length neg)) then Some ((m !!.) <$> (pos.*1 ++ reverse neg.*1)) else None.
Proof.
  intros Ef Hneg Hpos Hnd Hp. unfold CreateInputValues. rewrite Ef, foldl_app.
  assert (Hsize : size m = length neg + length pos) by (rewrite <- length_map_to_list, <- Hp, length_app; done).
  rewrite place_negative; [|done|rewrite app_nil_r; by apply NoDup_app in Hnd as (? & _ & _)]. rewrite app_nil_r.
  assert (Hval : Some <$> pos.*2 = (m !!.) <$> pos.*1).
  { rewrite <- !list_fmap_compose. apply list_fmap_ext. intros i [k v] Hi. simpl. symmetry. apply elem_of_map_to_list. rewrite <- Hp, elem_of_app. right. by eapply list_elem_of_lookup_2. }
  pose proof (place_others (replicate (size m) None) [] (reverse neg.*1) pos Hpos) as Hpl. rewrite length_replicate in Hpl. simpl in Hpl. rewrite drop_0 in Hpl. change (Z.of_nat 0) with 0%Z in Hpl. rewrite Hpl by lia.
  destruct (decide (pos.*1 = _)) as [E1|E1]; [|by rewrite decide_False by tauto]. cbn [mbind option_bind]. rewrite Hval.
  set (arr := ((m !!.) <$> pos.*1) ++ _). assert (Hla : length arr = size m).
  { unfold arr. rewrite length_app, !length_fmap, length_drop, length_replicate. lia. }
  assert (Htake : take (length pos) arr = (m !!.) <$> pos.*1) by (unfold arr; rewrite take_app_length'; [done|by rewrite !length_fmap]).
  pose proof (append_ok m (length pos) arr [] (reverse neg.*1)) as Hap. simpl in Hap. rewrite Nat.add_0_r, take_drop, length_reverse, length_fmap in Hap.
  rewrite Hap by lia. destruct (decide (reverse neg.*1 = _)) as [E2|E2]; [|by rewrite decide_False by tauto]. rewrite decide_True by done. simpl.
  rewrite Htake, drop_ge, app_nil_r, fmap_app by lia. done.
Qed.
End inputs.

(** C37: The array of inputs is made exactly when the indices of the data nodes are
    [0 .. k-1] and [-1 .. -a]; it then has the chain of each, the negative ones
    after the others. *)
Theorem create_inputs_correct (m : gmap Z nat) arr :
  CreateInputValues m = Some arr <->
  exists k a : nat, (forall i, is_Some (m !! i) <-> (- Z.of_nat a <= i < Z.of_nat k)%Z) /\ arr = (m !!.) <$> (seqZ 0 (Z.of_nat k) ++ after 0 a).
Proof.
  destruct (feeds_split m) as (neg & pos & Ef & Hneg & Hpos & Hnd & S1 & S2 & Hp). rewrite (create_split m neg pos) by done.
  assert (Hdom : forall i, is_Some (m !! i) <-> i ∈ neg.*1 \/ i ∈ pos.*1).
  { intros i. rewrite <- elem_of_app, <- fmap_app, Hp. rewrite list_elem_of_fmap. split; [intros [x Hx]; exists (i, x); split; [done|by apply elem_of_map_to_list]|].
    intros ([j x] & -> & Hx%elem_of_map_to_list). by exists x. }
  assert (Hn : forall i, i ∈ neg.*1 -> (i < 0)%Z) by (intros i ([j x] & -> & Hx)%list_elem_of_fmap; by eapply Hneg).
  assert (Hq : forall i, i ∈ pos.*1 -> (0 <= i)%Z) by (intros i ([j x] & -> & Hx)%list_elem_of_fmap; by eapply Hpos).
  apply NoDup_app in Hnd as (N1 & _ & N2). split.
  - case_decide as Hc; [|done]. destruct Hc as [E1 E2]. intros [= <-]. exists (length pos), (length neg). rewrite E1, E2. split; [|done].
    intros i. rewrite Hdom, E1, <- elem_of_reverse, E2, elem_of_after, elem_of_seqZ. lia.
  - intros (k & a & Hi & ->).
    assert (E1 : pos.*1 = seqZ 0 (Z.of_nat k)).
    { apply sorted_interval; [done|done|]. intros i. specialize (Hi i). rewrite Hdom in Hi. split; [intros Hin; pose proof (Hq i Hin); pose proof (proj1 Hi (or_intror Hin)); lia|]. intros Hr. destruct (proj2 Hi ltac:(lia)) as [Hin|?]; [|done].
      apply Hn in Hin. lia. }
    assert (E2 : neg.*1 = seqZ (- Z.of_nat a) (Z.of_nat a)).
    { apply sorted_interval; [done|done|]. intros i. specialize (Hi i). rewrite Hdom in Hi. split; [intros Hin; pose proof (Hn i Hin); pose proof (proj1 Hi (or_introl Hin)); lia|]. intros Hr. destruct (proj2 Hi ltac:(lia)) as [?|Hin]; [done|].
      apply Hq in Hin. lia. }
    assert (L1 : length pos = k) by (apply (f_equal length) in E1; rewrite length_fmap, length_seqZ in E1; lia).
    assert (L2 : length neg = a) by (apply (f_equal length) in E2; rewrite length_fmap, length_seqZ in E2; lia).
    rewrite L1, L2, E1, E2, after_reverse. by rewrite decide_True.
Qed.
