(* ===== verification/ExecGraphRuns.v ===== *)
(** * ExecGraphRuns: small graphs built and executed

    A graph with an input, a constant and an output, and a graph with an if. *)

From stdpp Require Import strings sorting.
From S2P Require Import Prelude ExecReady ExecTopo ExecTopoSound ExecGraph ExecBuild ExecGraphSound ExecReadOrder ExecValues.

(** * Executions of small graphs

    A diamond of four nodes, a graph with constants and an output, and a graph
    with an if: what the builders make of them, what the executors do with it, and
    that the hypotheses of the theorems hold there. *)

#[local] Open Scope nat_scope.

(** Kernels that write their number down; kernel 9 fails. *)
Definition log_kernels : Kernels :=
  {| KernelMem := list nat * list (option (list nat));
     func n m := (if decide (n = 9) then 7%Z else 0%Z, (m.1 ++ [n], m.2));
     node_watchers m i := mjoin (m.2 !! i) |}.
#[local] Existing Instance log_kernels.

Lemma log_static : forall node (m : KernelMem), node_watchers (func node m).2 = node_watchers m.
Proof. done. Qed.

(** ** A diamond *)

Definition diamond : Plan := MkPlan [0; 1; 2; 3] (fun n => match n with 0 => [1; 2] | 1 => [3] | 2 => [3; 3] | _ => [] end) [0] [0; 1; 1; 3]%Z.

Definition diamond_watchers : list (option (list nat)) := [Some [1; 2]; Some [3]; Some [3; 3]; Some []].
Definition diamond_ed {Q} (q : Q) : TopologicalExecutionData Q KernelMem := MkEd 4 [0; 1; 2; 3] q [0] [0; 1; 1; 3]%Z [0; 1; 1; 3]%Z (([], diamond_watchers) : KernelMem).

Lemma diamond_ok : plan_ok diamond.
Proof.
  split.
  - by apply (bool_decide_unpack _).
  - intros x y Hx. revert y. apply Forall_forall. revert x Hx. apply Forall_forall. by apply (bool_decide_unpack _).
  - apply Forall_forall. by apply (bool_decide_unpack _).
  - by apply (bool_decide_unpack _).
  - intros x. simpl. rewrite !elem_of_cons, elem_of_nil. split; [intros [->|[]]; split; [by left|done]|]. intros [[->|[->|[->|[->|[]]]]] Hz]; try done; by left.
  - exists id. intros x y Hx. revert y. apply Forall_forall. revert x Hx. apply Forall_forall. by apply (bool_decide_unpack _).
Qed.

Lemma diamond_fixed {Q} `{ReadyLaws Q} (q : Q) : 4 <= room q -> fixed diamond (diamond_ed q).
Proof. intros Hr. split; try done. apply Forall_forall. repeat constructor. Qed.

Lemma diamond_ring : loaded diamond (diamond_ed (Ring.Create 4)).
Proof. split; [by apply diamond_fixed|]. split; [done|]. exists []. apply ring_create. Qed.

Definition urgency (n : nat) : Z := match n with 1 => 5 | 2 => 1 | _ => 0 end.
Lemma diamond_heap : @loaded _ _ (heap_laws urgency) _ diamond (diamond_ed (Heap.Create 5)).
Proof. split; [apply (@diamond_fixed _ _ (heap_laws urgency)); simpl; lia|]. split; [done|]. exists []. apply heap_create. Qed.

Lemma topological_execute_correct_run :
  exists order ret ed', TopologicalExecute 5 (diamond_ed (Ring.Create 4)) = Ok (ret, ed') /\ schedule diamond anyone [] order /\
    SequentialExecute order (kernel_mem (diamond_ed (Ring.Create 4))) = (ret, kernel_mem ed') /\ loaded diamond ed' /\
    (ret = kStatusSuccess -> order ≡ₚ p_active diamond /\ Ring.IsQueueEmpty (ready_queue ed') = true).
Proof. apply (topological_execute_correct diamond 5); [apply diamond_ok|apply log_static|apply diamond_ring|simpl; lia]. Defined.

Lemma priority_execute_correct_run :
  exists order ret ed', PriorityTopologicalExecute urgency 5 (diamond_ed (Heap.Create 5)) = Ok (ret, ed') /\ schedule diamond (most_urgent urgency) [] order /\
    SequentialExecute order (kernel_mem (diamond_ed (Heap.Create 5))) = (ret, kernel_mem ed') /\ @loaded _ _ (heap_laws urgency) _ diamond ed' /\
    (ret = kStatusSuccess -> order ≡ₚ p_active diamond /\ Heap.IsQueueEmpty (ready_queue ed') = true).
Proof. apply (priority_execute_correct urgency diamond 5); [apply diamond_ok|apply log_static|apply diamond_heap|simpl; lia]. Defined.

(** A subscriber that counts. *)
Definition count_events (_ : ExecutorEvent) (_ : option nat) (_ : Z) (n : nat) : nat := n + 1.

Lemma execute_events_correct_run :
  exists order ret ed' s', ExecuteWithCallback count_events 5 (diamond_ed (Ring.Create 4)) 0 = Ok (ret, ed', s') /\ schedule diamond anyone [] order /\
    SequentialExecuteWithCallback (Some count_events) order (kernel_mem (diamond_ed (Ring.Create 4))) 0 = (ret, kernel_mem ed', s') /\ loaded diamond ed' /\
    (ret = kStatusSuccess -> order ≡ₚ p_active diamond).
Proof. apply (execute_events_correct count_events diamond 5); [apply diamond_ok|apply log_static|apply diamond_ring|simpl; lia]. Defined.

(** The ring runs the nodes in the order they get ready, the heap by priority;
    ten events. *)
Definition ran {Q} (r : outcome (Z * TopologicalExecutionData Q KernelMem)) : option (Z * list nat) :=
  match r with Ok (ret, ed) => Some (ret, (kernel_mem ed : list nat * list (option (list nat))).1) | _ => None end.
Example diamond_in_order : ran (TopologicalExecute 5 (diamond_ed (Ring.Create 4))) = Some (0%Z, [0; 1; 2; 3]).
Proof. by vm_compute. Qed.
Example diamond_by_priority : ran (PriorityTopologicalExecute urgency 5 (diamond_ed (Heap.Create 5))) = Some (0%Z, [0; 2; 1; 3]).
Proof. by vm_compute. Qed.
Example diamond_events : match ExecuteWithCallback count_events 5 (diamond_ed (Ring.Create 4)) 0 with Ok (_, _, s) => s = 10 | _ => False end.
Proof. by vm_compute. Qed.
(** One slot too few, and a node is lost without a word. *)
Example small_ring_loses_nodes : ran (TopologicalExecute 5 (diamond_ed (Ring.Create 1))) = Some (0%Z, [0; 1]).
Proof. by vm_compute. Qed.

#[local] Open Scope nat_scope.
#[local] Existing Instance log_kernels.

(** ** Graphs from lists *)

Definition node (type : string) (ins ictl : list (option nat)) (outs : list (list (option nat))) (octl : list (option nat)) (isym osym : list Z) : FastNode :=
  MkNode type ins ictl outs octl [] (if is_type "Data" type then Some 0%Z else None) None None None isym osym ((fun _ => false) <$> osym) None None.
Definition with_priority (p : Z) (n : FastNode) : FastNode :=
  MkNode (fn_type n) (fn_in_data n) (fn_in_control n) (fn_out_data n) (fn_out_control n) (fn_subgraphs n) (fn_index n) (fn_branch n) (Some p) (fn_request_watcher n)
    (fn_in_symbols n) (fn_out_symbols n) (fn_out_refs n) (fn_compute_index n) (fn_extend_index n).
Definition with_branch (b : Z) (n : FastNode) : FastNode :=
  MkNode (fn_type n) (fn_in_data n) (fn_in_control n) (fn_out_data n) (fn_out_control n) (fn_subgraphs n) (fn_index n) (Some b) (fn_priority n) (fn_request_watcher n)
    (fn_in_symbols n) (fn_out_symbols n) (fn_out_refs n) (fn_compute_index n) (fn_extend_index n).
Definition with_subgraphs (gs : list (option (list nat))) (n : FastNode) : FastNode :=
  MkNode (fn_type n) (fn_in_data n) (fn_in_control n) (fn_out_data n) (fn_out_control n) gs (fn_index n) (fn_branch n) (fn_priority n) (fn_request_watcher n)
    (fn_in_symbols n) (fn_out_symbols n) (fn_out_refs n) (fn_compute_index n) (fn_extend_index n).

Definition graph_of (nodes : list FastNode) (direct : list nat) : ExecuteGraph :=
  MkGraph (fun n => nth n nodes (node "Null" [] [] [] [] [] [])) (seq 0 (length nodes)) direct.

(** The conditions on a graph, as a test. *)
Definition graph_test (g : ExecuteGraph) : Prop :=
  NoDup (GetAllNodes g) /\
  Forall (fun n => Forall (fun m => m ∈ GetAllNodes g) (GetAllInNodes (fast_node g n)) /\ Forall (fun m => m ∈ GetAllNodes g) (GetAllOutNodes (fast_node g n)) /\
    Forall (fun o => Forall (fun m => m ∈ GetAllNodes g) (default [] o)) (fn_subgraphs (fast_node g n)) /\
    Forall (fun m => occ m (GetAllOutNodes (fast_node g n)) = occ n (GetAllInNodes (fast_node g m))) (GetAllNodes g)) (GetAllNodes g).

Lemma graph_test_ok g : graph_test g -> graph_ok g.
Proof.
  intros [Hnd Hall]. rewrite Forall_forall in Hall. split; [done|..].
  - intros n m Hn. destruct (Hall n Hn) as (H1 & _). rewrite Forall_forall in H1. apply H1.
  - intros n m Hn. destruct (Hall n Hn) as (_ & H2 & _). rewrite Forall_forall in H2. apply H2.
  - intros n i graph m Hn Hg. destruct (Hall n Hn) as (_ & _ & H3 & _). rewrite Forall_forall in H3. unfold GetSubgraphFromNode in Hg.
    destruct (fn_subgraphs (fast_node g n) !! i) as [o|] eqn:Eo; [|done]. simpl in Hg. subst o. specialize (H3 _ (list_elem_of_lookup_2 _ _ _ Eo)).
    simpl in H3. rewrite Forall_forall in H3. apply H3.
  - intros n m Hn. destruct (Hall n Hn) as (_ & _ & _ & H4). rewrite Forall_forall in H4. apply H4.
Qed.

(** Every kernel is known and creates its outputs. *)
Definition all_kernels : Registry := MkRegistry (fun _ => Some None) 0 0.

(** ** Without control flow *)

Definition net : ExecuteGraph := graph_of
  [node "Data" [] [] [[Some 2]] [] [] [10%Z];
   node "Const" [] [] [[Some 2]] [] [] [11%Z];
   node "InferShape" [Some 0; Some 1] [] [[Some 3]; [None; Some 4]] [] [10; 11]%Z [12; 13]%Z;
   with_priority 5 (node "Tiling" [Some 2] [] [[Some 5]] [] [12%Z] [14%Z]);
   with_priority 1 (node "AllocMemory" [Some 2] [] [[]] [Some 5] [13%Z] [15%Z]);
   node "LaunchKernelWithFlag" [Some 3; None] [Some 4] [[Some 6]] [] [14%Z] [16%Z];
   node "NetOutput" [Some 5] [] [] [] [16%Z] []] [0; 1; 2; 3; 4; 5; 6].

Lemma net_ok : graph_ok net.
Proof. apply graph_test_ok. by apply (bool_decide_unpack _). Qed.
Lemma net_flat : flat net.
Proof. unfold flat. apply Forall_forall. by apply (bool_decide_unpack _). Qed.
Lemma net_acyclic : acyclic net.
Proof. exists id. intros n m Hn. revert m. apply Forall_forall. revert n Hn. apply Forall_forall. by apply (bool_decide_unpack _). Qed.
Lemma net_direct : direct_ok net.
Proof.
  destruct net_ok as [H1 H2 H3 _ H5]. split; [done|done|done|done| |].
  - apply Forall_forall. by apply (bool_decide_unpack _).
  - destruct net_acyclic as [rank Hr]. by exists rank.
Qed.

(** The kernels start with nothing written down, and the watchers made. *)
Definition load_log (gn : GraphNode) : KernelMem := ([], gn_watchers gn).
Definition net_build : outcome (TopologicalExecutionData RingQueue KernelMem) := TopologicalBuild FAILED all_kernels net 100 ∅ load_log.
Definition net_ed : TopologicalExecutionData RingQueue KernelMem := match net_build with Ok ed => ed | _ => diamond_ed (Ring.Create 0) end.

Lemma built_graph_executes_run :
  exists names order ret ed', TopologicalExecute 8 net_ed = Ok (ret, ed') /\ SequentialExecute order (kernel_mem net_ed) = (ret, kernel_mem ed') /\
    Forall2 (fun n i => X net !! i = Some n) names order /\ NoDup names /\ names ⊆ E net /\
    (forall k n m, names !! k = Some m -> n ∈ E net -> m ∈ GetAllOutNodes (fast_node net n) -> exists k', k' < k /\ names !! k' = Some n) /\
    (ret = kStatusSuccess -> names ≡ₚ E net).
Proof.
  apply (built_graph_executes FAILED all_kernels net 100 ∅ load_log 8 net_ed); [apply net_ok|apply net_flat|apply net_acyclic|apply log_static|done|by vm_compute|simpl; lia].
Defined.

(** The constant, number 0, is not executed; its in-degree is not counted. *)
Example net_runs : node_indegrees net_ed = [0; 0; 1; 1; 2]%Z /\ start_nodes net_ed = [1] /\ ran (TopologicalExecute 8 net_ed) = Some (0%Z, [1; 2; 3; 4]).
Proof. by vm_compute. Qed.

Definition net_sequential : outcome (SequentialExecutionData * Builder) := SequentialBuild FAILED all_kernels net 100 ∅.
Definition net_seq_ed : SequentialExecutionData * Builder :=
  match net_sequential with Ok r => r | _ => (MkSeqEd [] [] [], MkBuilder empty_graph_node []) end.

Lemma priority_order_correct_run :
  exists order, schedule (read_plan net) (most_urgent (node_priority net)) [] order /\ order ≡ₚ GetDirectNode net /\
    forall values b, ReadInNodesByPriority FAILED net values b = foldM (fun node b => assert_success FAILED (ReadInOneNode FAILED net values node b)) order b.
Proof. apply (priority_order_correct FAILED net). apply net_direct. Defined.

Lemma sequential_build_order_run :
  exists order, schedule (read_plan net) (most_urgent (node_priority net)) [] order /\ order ≡ₚ GetAllNodes net /\
    ordered_graph_to_exe_nodes net_seq_ed.2 = zip (made net order) (s_nodes net_seq_ed.1) /\ s_nodes net_seq_ed.1 = seq 0 (length (made net order)).
Proof. apply (sequential_build_order FAILED all_kernels net 100 ∅ net_seq_ed.1 net_seq_ed.2); [apply net_ok|apply net_direct|done|by vm_compute]. Defined.

(** The memory is allocated before the tiling, whose priority comes later; the
    constant is executed too. *)
Example net_sequence : ordered_graph_to_exe_nodes net_seq_ed.2 = [(1, 0); (2, 1); (4, 2); (3, 3); (5, 4)] /\ s_nodes net_seq_ed.1 = [0; 1; 2; 3; 4].
Proof. by vm_compute. Qed.
Example constants_are_executed : (SequentialExecute (s_nodes net_seq_ed.1) (([], []) : KernelMem)).2 = (([0; 1; 2; 3; 4], []) : KernelMem).
Proof. by vm_compute. Qed.

Definition net_values : GraphAsyncValue * SymbolsToValue :=
  match AllocGraphAsyncValues FAILED net 100 (GetAllNodes net) {[12%Z := 7]} with Ok r => r | _ => (MkValues 0 ∅ ∅, ∅) end.

Lemma one_known : one_symbol_each {[12%Z := 7]}.
Proof. by intros s s' x [<- _]%lookup_singleton_Some [<- _]%lookup_singleton_Some. Qed.

Lemma chains_follow_symbols_run :
  ({[12%Z := 7]} : SymbolsToValue) ⊆ net_values.2 /\ one_symbol_each net_values.2 /\
  (forall s x, net_values.2 !! s = Some x -> ({[12%Z := 7]} : SymbolsToValue) !! s = Some x \/ 100 <= x < 100 + total_num net_values.1) /\
  forall n, n ∈ GetAllNodes net ->
    (exists l, nodes_to_output_values net_values.1 !! n = Some l /\ Forall2 (fun s x => net_values.2 !! s = Some x) (fn_out_symbols (fast_node net n)) l) /\
    (exists l, nodes_to_input_values net_values.1 !! n = Some l /\ Forall2 (fun s x => net_values.2 !! s = Some x) (fn_in_symbols (fast_node net n)) l).
Proof.
  apply (chains_follow_symbols FAILED net 100 (GetAllNodes net) {[12%Z := 7]} net_values.1 net_values.2); [by vm_compute|apply one_known|].
  intros s x [_ <-]%lookup_singleton_Some. lia.
Defined.

(** ** With an if *)

(** Node 1 is an if between 0 and 2; 3 to 8 are its condition graph, with a pivot
    and a done for each branch; 9 with 10 and 11 with 12 are the branches. *)
Definition branching : ExecuteGraph := graph_of
  [node "Shape" [] [] [[Some 1]] [] [] [20%Z];
   with_subgraphs [Some [3; 4; 5; 6; 7; 8]; Some [9; 10]; Some [11; 12]] (node "If" [Some 0] [] [[Some 2]] [] [20%Z] [21%Z]);
   node "Use" [Some 1] [] [] [] [21%Z] [];
   node "SwitchNotify" [] [] [[Some 4]; [Some 5]] [] [] [22; 23]%Z;
   with_branch 1 (node "BranchPivot" [Some 3] [] [] [] [22%Z] []);
   with_branch 2 (node "BranchPivot" [Some 3] [] [] [] [23%Z] []);
   with_branch 1 (node "BranchDone" [] [] [] [Some 8] [] []);
   with_branch 2 (node "BranchDone" [] [] [] [Some 8] [] []);
   node "WaitAnyone" [] [Some 6; Some 7] [] [] [] [];
   node "Then" [] [] [[Some 10]] [] [] [24%Z];
   node "InnerNetOutput" [Some 9] [] [] [] [24%Z] [];
   node "Else" [] [] [[Some 12]] [] [] [25%Z];
   node "InnerNetOutput" [Some 11] [] [] [] [25%Z] []] [0; 1; 2].

Lemma branching_ok : graph_ok branching.
Proof. apply graph_test_ok. by apply (bool_decide_unpack _). Qed.

Definition branching_build : GraphNode * Builder :=
  match TopologicalBuildNodes FAILED all_kernels branching 0 ∅ with Ok r => r | _ => (empty_graph_node, MkBuilder empty_graph_node []) end.

Lemma indegrees_count_notifications_run :
  (forall n i, (n, i) ∈ ordered_graph_to_exe_nodes branching_build.2 -> executed_node branching n = true ->
     gn_indegrees branching_build.1 !! i = Some (capped branching n (Z.of_nat (occ i (p_edges (plan_of branching branching_build.2 branching_build.1)))))) /\
  (forall i j, i ∈ p_active (plan_of branching branching_build.2 branching_build.1) -> j ∈ p_watchers (plan_of branching branching_build.2 branching_build.1) i ->
     j ∈ p_active (plan_of branching branching_build.2 branching_build.1)) /\
  (forall i, i ∈ gn_start_nodes branching_build.1 <->
     i ∈ p_active (plan_of branching branching_build.2 branching_build.1) /\ gn_indegrees branching_build.1 !! i = Some 0%Z).
Proof. apply (indegrees_count_notifications FAILED all_kernels branching 0 ∅ branching_build.1 branching_build.2); [apply branching_ok|by vm_compute]. Defined.

(** The shape notifies the switch, a pivot its branch, a branch its done, and the
    node that waits for anyone what uses the result: it waits for one. *)
Example branching_topo :
  (ordered_graph_to_exe_nodes branching_build.2).*1 = [0; 2; 3; 4; 5; 6; 7; 8; 9; 11] /\
  gn_indegrees branching_build.1 = [0; 1; 1; 1; 1; 1; 1; 1; 1; 1]%Z /\ gn_start_nodes branching_build.1 = [0] /\
  gn_watchers branching_build.1 = Some <$> [[2]; []; [3; 4]; [8]; [9]; [7]; [7]; [1]; [5]; [6]].
Proof. by vm_compute. Qed.
