(* ===== verification/ExecSymbols.v ===== *)
(** * ExecSymbols: pins that hold the same value

    [runtime/v2/core/builder/equivalent_data_edges.cc]: an output and the inputs
    it feeds, the data of a subgraph and the pins of the node it belongs to, and
    outputs that refer to other outputs get one symbol.  An endpoint is a 64 bit
    number made of the id of a node, the index of a pin and a direction; classes
    of endpoints are kept as sets and merged the smaller into the larger. *)

From stdpp Require Import strings relations.
From S2P Require Import Prelude ExecGraph ExecBuild.

#[local] Open Scope Z_scope.

(** ** Endpoints *)

Definition kInputEnd : Z := 0.
Definition kOutputEnd : Z := 1.

(** Bit fields of 32, 31 and 1 bits. *)
Record EndPoint := MkEndPoint { ep_id : Z; ep_index : Z; ep_direction : Z }.
Definition end_point (id index direction : Z) : EndPoint := MkEndPoint (id mod 2 ^ 32) (index mod 2 ^ 31) (direction mod 2).

Definition Encode (p : EndPoint) : Z := Z.lor (Z.lor (ep_id p) (Z.shiftl (ep_index p) 32)) (Z.shiftl (ep_direction p) 63).
Definition Decode (endpoint : Z) : EndPoint :=
  end_point (Z.land endpoint 0xffffffff) (Z.land (Z.shiftr endpoint 32) 0x7fffffff) (Z.shiftr endpoint 63).

(** ** Classes *)

Record EquivalentDataEdges := MkEdges { symbols_to_endpoints : gmap Z (gset Z); endpoints_to_symbol : gmap Z Z }.

Definition Add (endpoint : Z) (st : EquivalentDataEdges) : EquivalentDataEdges :=
  MkEdges (<[endpoint := {[endpoint]}]> (symbols_to_endpoints st)) (<[endpoint := endpoint]> (endpoints_to_symbol st)).

(** [symbols_to_endpoints_[symbol]] *)
Definition class_of (st : EquivalentDataEdges) (symbol : Z) : gset Z := default ∅ (symbols_to_endpoints st !! symbol).

(** [symbols_to_endpoints_[symbol].emplace(endpoint); endpoints_to_symbol_[endpoint] = symbol] *)
Definition join_class (symbol endpoint : Z) (st : EquivalentDataEdges) : EquivalentDataEdges :=
  MkEdges (<[symbol := {[endpoint]} ∪ class_of st symbol]> (symbols_to_endpoints st)) (<[endpoint := symbol]> (endpoints_to_symbol st)).

Definition Merge (endpoint1 endpoint2 : Z) (st : EquivalentDataEdges) : EquivalentDataEdges :=
  match endpoints_to_symbol st !! endpoint1, endpoints_to_symbol st !! endpoint2 with
  | None, None =>
      MkEdges (<[endpoint1 := {[endpoint1; endpoint2]}]> (symbols_to_endpoints st))
        (<[endpoint2 := endpoint1]> (<[endpoint1 := endpoint1]> (endpoints_to_symbol st)))
  | None, Some symbol2 => join_class symbol2 endpoint1 st
  | Some symbol1, None => join_class symbol1 endpoint2 st
  | Some symbol1, Some symbol2 =>
      if symbol1 =? symbol2 then st else
      let swap := bool_decide (size (class_of st symbol2) < size (class_of st symbol1))%nat in
      let '(from_symbol, to_symbol) := if swap then (symbol2, symbol1) else (symbol1, symbol2) in
      let st := foldl (fun st from_endpoint => join_class to_symbol from_endpoint st) st (elements (class_of st from_symbol)) in
      MkEdges (delete from_symbol (symbols_to_endpoints st)) (endpoints_to_symbol st)
  end.

(** ** The graph *)

(** What is asked of a node: its id, for each output the inputs its edges end at,
    the indices its own input edges end at, the index of a data node, the node its
    graph belongs to, and for each output the name and index it refers to. *)
Record PinNode := MkPin {
  pn_type : string;
  pn_id : Z;
  pn_name : string;
  pn_in_num : nat;
  pn_outs : list (list (option (nat * Z)));
  pn_in_edges : list (option Z);
  pn_index : option Z;
  pn_parent : option nat;
  pn_refs : list (option (string * option Z));
}.

Section edges.
Context (ErrorResult : Status) (pin : nat -> PinNode) (all_nodes : list nat).

Definition out_end (node : nat) (index : Z) : Z := Encode (end_point (pn_id (pin node)) index kOutputEnd).
Definition in_end (node : nat) (index : Z) : Z := Encode (end_point (pn_id (pin node)) index kInputEnd).

(** The outputs of a node, each with its edges. *)
Definition add_output (node : nat) (output : nat * list (option (nat * Z))) (st : EquivalentDataEdges) : EquivalentDataEdges :=
  let out_endpoint := out_end node (Z.of_nat output.1) in
  foldl (fun st edge => match edge with None => st | Some (dst, dst_input) => Merge out_endpoint (in_end dst dst_input) st end) (Add out_endpoint st) output.2.

Definition io_node (node : nat) '((st, node_id_states) : EquivalentDataEdges * list bool) : outcome (EquivalentDataEdges * list bool) :=
  let node_id := Z.to_nat (pn_id (pin node) mod 2 ^ 64) in
  _ ← assert_true ErrorResult (bool_decide (node_id_states !! node_id = Some false));
  Ok (foldl (fun st output => add_output node output st) st (imap pair (pn_outs (pin node))), <[node_id := true]> node_id_states).

Definition ConstructIoEquivalent (st : EquivalentDataEdges) : outcome EquivalentDataEdges :=
  '(st, _) ← foldM io_node all_nodes (st, replicate (length all_nodes) false);
  Ok st.

Definition ConstructInnerDataEquivalent (node : nat) (st : EquivalentDataEdges) : outcome EquivalentDataEdges :=
  index ← assert_some ErrorResult (pn_index (pin node));
  parent_node ← assert_some ErrorResult (pn_parent (pin node));
  Ok (Merge (in_end parent_node index) (out_end node 0) st).

Definition ConstructInnerOutputEquivalent (node : nat) (st : EquivalentDataEdges) : outcome EquivalentDataEdges :=
  parent_node ← assert_some ErrorResult (pn_parent (pin node));
  Ok (foldl (fun st edge => match edge with None => st | Some dst_input => Merge (in_end node dst_input) (out_end parent_node dst_input) st end) st (pn_in_edges (pin node))).

Definition ConstructInnerDataOutputEquivalent (st : EquivalentDataEdges) : outcome EquivalentDataEdges :=
  foldM (fun node st =>
    st ← (if IsInnerDataType (pn_type (pin node)) then assert_success ErrorResult (ConstructInnerDataEquivalent node st) else Ok st);
    if IsInnerOutput (pn_type (pin node)) then assert_success ErrorResult (ConstructInnerOutputEquivalent node st) else Ok st) all_nodes st.

(** The first node of a name. *)
Definition node_of_name (name : string) : option nat := head (filter (fun n => pn_name (pin n) = name) all_nodes).

Definition ConstructRefOutputEquivalent (st : EquivalentDataEdges) : outcome EquivalentDataEdges :=
  foldM (fun node st =>
    foldM (fun '(i, ref) st =>
      match ref with
      | None => Ok st
      | Some (src_node_name, kRefFromIndex) =>
          src_index ← assert_some ErrorResult kRefFromIndex;
          src ← assert_some ErrorResult (node_of_name src_node_name);
          Ok (Merge (out_end node (Z.of_nat i)) (out_end src src_index) st)
      end) (imap pair (pn_refs (pin node))) st) all_nodes st.

(** The symbols of the inputs and outputs of each node. *)
Record Symbols := MkSymbols { input_symbols : gmap nat (list Z); output_symbols : gmap nat (list Z) }.

Definition no_symbols : Symbols :=
  MkSymbols (list_to_map ((fun n => (n, replicate (pn_in_num (pin n)) kInvalidSymbol)) <$> all_nodes))
    (list_to_map ((fun n => (n, replicate (length (pn_outs (pin n))) kInvalidSymbol)) <$> all_nodes)).

(** [SetInputSymbol] and [SetOutputSymbol] *)
Definition set_symbol (node : nat) (index : nat) (symbol : Z) (m : gmap nat (list Z)) : outcome (gmap nat (list Z)) :=
  let l := default [] (m !! node) in
  if decide (index < length l)%nat then Ok (<[node := <[index := symbol]> l]> m) else Err GRAPH_FAILED.

Definition set_endpoint (symbol endpoint : Z) (t : Symbols) : outcome Symbols :=
  let p := Decode endpoint in
  node ← assert_some ErrorResult (all_nodes !! Z.to_nat (ep_id p));
  if ep_direction p =? kInputEnd then
    m ← assert_success ErrorResult (set_symbol node (Z.to_nat (ep_index p)) symbol (input_symbols t)); Ok (MkSymbols m (output_symbols t))
  else
    m ← assert_success ErrorResult (set_symbol node (Z.to_nat (ep_index p)) symbol (output_symbols t)); Ok (MkSymbols (input_symbols t) m).

Definition SetInputOutputSymbols (st : EquivalentDataEdges) : outcome Symbols :=
  foldM (fun '(symbol, endpoints) t => foldM (set_endpoint symbol) (elements endpoints) t) (map_to_list (symbols_to_endpoints st)) no_symbols.

Definition UpdateEquivalentEdges : outcome Symbols :=
  st ← assert_success ErrorResult (ConstructIoEquivalent (MkEdges ∅ ∅));
  st ← assert_success ErrorResult (ConstructInnerDataOutputEquivalent st);
  st ← assert_success ErrorResult (ConstructRefOutputEquivalent st);
  assert_success ErrorResult (SetInputOutputSymbols st).
End edges.
