(* ===== verification/ExecSymbolsSound.v ===== *)
(** * ExecSymbolsSound: symbols are the classes of linked pins

    The classes are those of the least equivalence that has all the links, and
    the symbols set on the pins are those of their classes.  With the allocation
    of chains: two pins share a chain exactly when links connect them. *)

From stdpp Require Import strings relations.
From S2P Require Import Prelude ExecReady ExecTopo ExecTopoSound ExecGraph ExecBuild ExecGraphSound ExecValues ExecSymbols NumBits.

#[local] Open Scope Z_scope.
#[local] Set Warnings "-clear-no-such-hyp".

(** ** Links *)

Definition linked_by (L : list (Z * Z)) (x y : Z) : Prop := rtsc (fun a b => (a, b) ∈ L) x y.

Lemma linked_refl L x : linked_by L x x.
Proof. apply rtc_refl. Qed.
Lemma linked_sym L x y : linked_by L x y -> linked_by L y x.
Proof. unfold linked_by. by symmetry. Qed.
Lemma linked_trans L x y z : linked_by L x y -> linked_by L y z -> linked_by L x z.
Proof. unfold linked_by. intros H1 H2. by etrans. Qed.
Lemma linked_mono L L' x y : L ⊆ L' -> linked_by L x y -> linked_by L' x y.
Proof. intros Hs. apply (rtsc_congruence id). intros a b Hab. by apply Hs. Qed.
Lemma linked_one L a b : (a, b) ∈ L -> linked_by L a b.
Proof. intros Hab. by apply rtsc_lr. Qed.

(** One more link joins two classes. *)
Lemma linked_cons L a b x y :
  linked_by ((a, b) :: L) x y <-> linked_by L x y \/ (linked_by L x a /\ linked_by L b y) \/ (linked_by L x b /\ linked_by L a y).
Proof.
  assert (Hs : L ⊆ (a, b) :: L) by (intros p Hp; by right). assert (Hab : linked_by ((a, b) :: L) a b) by (apply linked_one; left). split.
  - intros Hxy. induction Hxy as [x|x y z Hstep _ IH]; [left; apply linked_refl|].
    assert (Hone : (x = a /\ y = b) \/ (x = b /\ y = a) \/ linked_by L x y).
    { destruct Hstep as [[[= -> ->]|Hin]%elem_of_cons|[[= -> ->]|Hin]%elem_of_cons]; [by left|right; right; by apply linked_one|right; by left|].
      right. right. apply linked_sym. by apply linked_one. }
    pose proof (linked_refl L a) as Ra. pose proof (linked_refl L b) as Rb.
    destruct Hone as [[-> ->]|[[-> ->]|Hl]].
    + destruct IH as [IH|[[I1 I2]|[I1 I2]]]; [right; left; done|right; left; done|left; done].
    + destruct IH as [IH|[[I1 I2]|[I1 I2]]]; [right; right; done|left; done|right; right; done].
    + destruct IH as [IH|[[I1 I2]|[I1 I2]]]; [left|right; left; split; [|done]|right; right; split; [|done]]; by eapply linked_trans.
  - intros [H|[[H1 H2]|[H1 H2]]]; [by eapply linked_mono| |].
    + apply (linked_trans _ _ a); [by eapply linked_mono|]. apply (linked_trans _ _ b); [done|by eapply linked_mono].
    + apply (linked_trans _ _ b); [by eapply linked_mono|]. apply (linked_trans _ _ a); [by apply linked_sym|by eapply linked_mono].
Qed.

(** Nothing is linked with a point no link mentions. *)
Lemma linked_outside L (P : Z -> Prop) x y : (forall a b, (a, b) ∈ L -> P a /\ P b) -> linked_by L x y -> x = y \/ (P x /\ P y).
Proof.
  intros HL Hxy. induction Hxy as [x|x y z Hstep _ IH]; [by left|]. assert (Hp : P x /\ P y) by (destruct Hstep as [Hin|Hin]; apply HL in Hin; tauto).
  destruct IH as [->|[_ ?]]; tauto.
Qed.

(** ** The classes *)

Record classes (st : EquivalentDataEdges) (L : list (Z * Z)) : Prop := {
  cl_class s x : x ∈ class_of st s <-> endpoints_to_symbol st !! x = Some s;
  cl_key s : is_Some (symbols_to_endpoints st !! s) -> is_Some (endpoints_to_symbol st !! s);
  cl_links a b : (a, b) ∈ L -> is_Some (endpoints_to_symbol st !! a) /\ is_Some (endpoints_to_symbol st !! b);
  cl_same x y s s' : endpoints_to_symbol st !! x = Some s -> endpoints_to_symbol st !! y = Some s' -> s = s' <-> linked_by L x y;
}.

Lemma classes_empty : classes (MkEdges ∅ ∅) [].
Proof.
  split; simpl.
  - intros s x. unfold class_of. simpl. rewrite !lookup_empty. simpl. split; [by intros ?%elem_of_empty|done].
  - intros s. by rewrite lookup_empty.
  - by intros a b ?%not_elem_of_nil.
  - intros x y s s'. by rewrite lookup_empty.
Qed.

Lemma new_unlinked st L a x : classes st L -> endpoints_to_symbol st !! a = None -> linked_by L x a -> x = a.
Proof.
  intros HC Ha Hx. destruct (linked_outside L (fun z => is_Some (endpoints_to_symbol st !! z)) x a) as [?|[_ [s Hs]]]; [apply HC|done|done|congruence].
Qed.

Lemma new_key st L a : classes st L -> endpoints_to_symbol st !! a = None -> symbols_to_endpoints st !! a = None.
Proof. intros HC Ha. apply eq_None_not_Some. intros [s Hs]%(cl_key _ _ HC). congruence. Qed.

Lemma new_symbol st L a x s : classes st L -> endpoints_to_symbol st !! a = None -> endpoints_to_symbol st !! x = Some s -> s <> a.
Proof.
  intros HC Ha Hx ->. apply (cl_class _ _ HC) in Hx. unfold class_of in Hx. rewrite (new_key st L a HC Ha) in Hx. by apply elem_of_empty in Hx.
Qed.

Lemma add_classes st L a : classes st L -> endpoints_to_symbol st !! a = None -> classes (Add a st) L.
Proof.
  intros HC Ha. pose proof (new_key st L a HC Ha) as Hk. split; simpl.
  - intros s x. unfold class_of. simpl. destruct (decide (s = a)) as [->|Hs].
    + rewrite lookup_insert_eq. simpl. rewrite elem_of_singleton. destruct (decide (x = a)) as [->|Hx]; [by rewrite lookup_insert_eq|]. rewrite lookup_insert_ne by done.
      split; [done|]. intros Hx'. by destruct (new_symbol st L a x a HC Ha Hx').
    + rewrite lookup_insert_ne by done. fold (class_of st s). rewrite (cl_class _ _ HC). destruct (decide (x = a)) as [->|Hx]; [rewrite lookup_insert_eq, Ha; split; congruence|].
      by rewrite lookup_insert_ne.
  - intros s. destruct (decide (s = a)) as [->|Hs]; [by rewrite !lookup_insert_eq|]. rewrite !lookup_insert_ne by done. apply HC.
  - intros x y [[sx Hx] [sy Hy]]%(cl_links _ _ HC). assert (x <> a /\ y <> a) as [? ?] by (split; congruence). by rewrite !lookup_insert_ne by done.
  - intros x y s s'. destruct (decide (x = a)) as [->|Hx], (decide (y = a)) as [->|Hy]; rewrite ?lookup_insert_eq, ?lookup_insert_ne by done.
    + intros [= <-] [= <-]. split; [intros _; apply linked_refl|done].
    + intros [= <-] Hs'. split; [intros <-; by destruct (new_symbol st L a y a HC Ha Hs')|]. intros Hl%linked_sym. by apply (new_unlinked st L a y HC Ha) in Hl.
    + intros Hs [= <-]. split; [intros ->; by destruct (new_symbol st L a x a HC Ha Hs)|]. intros Hl. by apply (new_unlinked st L a x HC Ha) in Hl.
    + apply HC.
Qed.

(** *** A link *)

Lemma classes_swap st L a b : classes st ((a, b) :: L) -> classes st ((b, a) :: L).
Proof.
  intros [H1 H2 H3 H4]. split; [done|done| |].
  - intros x y [[= -> ->]|Hin]%elem_of_cons; [destruct (H3 a b); [left|done]|apply H3; by right].
  - intros x y s s' Hx Hy. rewrite (H4 x y s s' Hx Hy), !linked_cons. tauto.
Qed.

Lemma same_classes st L a b s : classes st L -> endpoints_to_symbol st !! a = Some s -> endpoints_to_symbol st !! b = Some s -> classes st ((a, b) :: L).
Proof.
  intros HC Ha Hb. pose proof (proj1 (cl_same _ _ HC a b s s Ha Hb) eq_refl) as Hab. destruct HC as [H1 H2 H3 H4]. split; [done|done| |].
  - intros x y [[= -> ->]|Hin]%elem_of_cons; [by rewrite Ha, Hb|by apply H3].
  - intros x y sx sy Hx Hy. rewrite (H4 x y sx sy Hx Hy), linked_cons. split; [tauto|]. intros [?|[[L1 L2]|[L1 L2]]]; [done| |].
    + apply (linked_trans _ _ a); [done|]. by apply (linked_trans _ _ b).
    + apply (linked_trans _ _ b); [done|]. apply (linked_trans _ _ a); [by apply linked_sym|done].
Qed.

Lemma join_classes st L a b s :
  classes st L -> endpoints_to_symbol st !! a = None -> endpoints_to_symbol st !! b = Some s -> classes (join_class s a st) ((a, b) :: L).
Proof.
  intros HC Ha Hb. assert (Hold : forall x v, endpoints_to_symbol st !! x = Some v -> x <> a) by (intros x v Hx ->; congruence).
  assert (Hsk : is_Some (endpoints_to_symbol st !! s)).
  { apply (cl_key _ _ HC). apply (cl_class _ _ HC) in Hb. unfold class_of in Hb. destruct (symbols_to_endpoints st !! s); [by eexists|by apply elem_of_empty in Hb]. }
  assert (Hnl : forall x, x <> a -> ~ linked_by L x a) by (intros x Hne Hl; by apply (new_unlinked st L a x HC Ha) in Hl).
  assert (Hnl' : forall x, x <> a -> ~ linked_by L a x) by (intros x Hne Hl; apply (Hnl x Hne); by apply linked_sym).
  split; simpl.
  - intros s' x. assert (Hc : (x ∈ class_of (join_class s a st) s') <-> (s' = s /\ x = a) \/ endpoints_to_symbol st !! x = Some s').
    { rewrite <- (cl_class _ _ HC). unfold class_of at 1. simpl. destruct (decide (s' = s)) as [->|Hs].
      - rewrite lookup_insert_eq. simpl. rewrite elem_of_union, elem_of_singleton. tauto.
      - rewrite lookup_insert_ne by done. fold (class_of st s'). tauto. }
    rewrite Hc. destruct (decide (x = a)) as [->|Hx]; [rewrite lookup_insert_eq, Ha|rewrite lookup_insert_ne by done]; split.
    + intros [[-> _]|?]; done.
    + intros [= ->]. by left.
    + intros [[_ ?]|?]; done.
    + by right.
  - intros s' Hk. destruct (decide (s' = a)) as [->|Hne]; [by rewrite lookup_insert_eq|]. rewrite lookup_insert_ne by done.
    destruct (decide (s' = s)) as [->|Hs]; [done|]. rewrite lookup_insert_ne in Hk by done. by apply HC.
  - intros x y [[= -> ->]|Hin]%elem_of_cons; [rewrite lookup_insert_eq, lookup_insert_ne by (by apply not_eq_sym, (Hold b s)); by rewrite Hb|].
    apply (cl_links _ _ HC) in Hin as [[vx Hx] [vy Hy]]. rewrite !lookup_insert_ne by (apply not_eq_sym; by eapply Hold). by rewrite Hx, Hy.
  - pose proof (Hold b s Hb) as Hba. intros x y sx sy. rewrite linked_cons. destruct (decide (x = a)) as [->|Hx], (decide (y = a)) as [->|Hy]; rewrite ?lookup_insert_eq, ?lookup_insert_ne by done.
    + intros [= <-] [= <-]. split; [intros _; left; apply linked_refl|done].
    + intros [= <-] Hy'. rewrite (cl_same _ _ HC b y s sy Hb Hy'). pose proof (linked_refl L a). pose proof (Hnl' y Hy). pose proof (Hnl' b Hba). tauto.
    + intros Hx' [= <-]. rewrite (cl_same _ _ HC x b sx s Hx' Hb). pose proof (linked_refl L a). pose proof (Hnl x Hx). pose proof (Hnl b Hba). tauto.
    + intros Hx' Hy'. rewrite (cl_same _ _ HC x y sx sy Hx' Hy'). pose proof (Hnl x Hx). pose proof (Hnl' y Hy). tauto.
Qed.

(** A class is moved into another. *)
Lemma fold_join to l st :
  let st' := foldl (fun st x => join_class to x st) st l in
  (forall x, endpoints_to_symbol st' !! x = if decide (x ∈ l) then Some to else endpoints_to_symbol st !! x) /\
  class_of st' to = list_to_set l ∪ class_of st to /\ (forall s, s <> to -> symbols_to_endpoints st' !! s = symbols_to_endpoints st !! s) /\
  (is_Some (symbols_to_endpoints st !! to) -> is_Some (symbols_to_endpoints st' !! to)).
Proof.
  revert st. induction l as [|y l IH]; intros st; simpl.
  - split_and!; [done|by rewrite union_empty_l_L|done|done].
  - destruct (IH (join_class to y st)) as (I1 & I2 & I3 & I4). split_and!.
    + intros x. rewrite I1. simpl. destruct (decide (x ∈ l)) as [Hin|Hout]; [by rewrite decide_True by (by right)|].
      destruct (decide (x = y)) as [->|Hne]; [rewrite lookup_insert_eq, decide_True by left; done|]. rewrite lookup_insert_ne, decide_False by (done || by intros [?|?]%elem_of_cons). done.
    + rewrite I2. unfold class_of at 1. simpl. rewrite lookup_insert_eq. simpl. set_solver.
    + intros s Hs. rewrite I3 by done. simpl. by rewrite lookup_insert_ne.
    + intros _. apply I4. simpl. by rewrite lookup_insert_eq.
Qed.

Lemma move_classes st L a b from to :
  classes st L -> endpoints_to_symbol st !! a = Some from -> endpoints_to_symbol st !! b = Some to -> from <> to ->
  let st' := foldl (fun st x => join_class to x st) st (elements (class_of st from)) in
  classes (MkEdges (delete from (symbols_to_endpoints st')) (endpoints_to_symbol st')) ((a, b) :: L).
Proof.
  intros HC Ha Hb Hne st'. destruct (fold_join to (elements (class_of st from)) st) as (F1 & F2 & F3 & F4). fold st' in F1, F2, F3, F4.
  assert (G1 : forall x v, endpoints_to_symbol st !! x = Some v -> endpoints_to_symbol st' !! x = Some (if decide (v = from) then to else v)).
  { intros x v Hx. rewrite F1. destruct (decide (v = from)) as [->|Hv].
    - rewrite decide_True; [done|]. apply elem_of_elements. by apply (cl_class _ _ HC).
    - rewrite decide_False; [done|]. rewrite elem_of_elements, (cl_class _ _ HC). congruence. }
  assert (G2 : forall x, is_Some (endpoints_to_symbol st' !! x) -> is_Some (endpoints_to_symbol st !! x)).
  { intros x. rewrite F1. case_decide as Hin; [|done]. intros _. apply elem_of_elements, (cl_class _ _ HC) in Hin. by eexists. }
  split; simpl.
  - intros s x. unfold class_of. simpl. destruct (decide (s = from)) as [->|Hs].
    + rewrite lookup_delete_eq. simpl. split; [by intros ?%elem_of_empty|]. intros Hx. destruct (G2 x ltac:(by eexists)) as [v Hv]. rewrite (G1 x v Hv) in Hx. case_decide; congruence.
    + rewrite lookup_delete_ne by done. fold (class_of st' s). destruct (decide (s = to)) as [->|Ht].
      * rewrite F2, elem_of_union, elem_of_list_to_set, elem_of_elements, !(cl_class _ _ HC). split.
        -- intros [Hx|Hx]; rewrite (G1 x _ Hx); [by rewrite decide_True|by rewrite decide_False by congruence].
        -- intros Hx. destruct (G2 x ltac:(by eexists)) as [v Hv]. rewrite (G1 x v Hv) in Hx. case_decide as Hc; [subst v; by left|right; congruence].
      * unfold class_of. rewrite F3 by done. fold (class_of st s). rewrite (cl_class _ _ HC). split.
        -- intros Hx. rewrite (G1 x _ Hx). by rewrite decide_False.
        -- intros Hx. destruct (G2 x ltac:(by eexists)) as [v Hv]. rewrite (G1 x v Hv) in Hx. case_decide; congruence.
  - intros s. destruct (decide (s = from)) as [->|Hs]; [rewrite lookup_delete_eq; by intros [? ?]|]. rewrite lookup_delete_ne by done. intros Hk.
    assert (Hk' : is_Some (endpoints_to_symbol st !! s)).
    { apply (cl_key _ _ HC). destruct (decide (s = to)) as [->|Ht]; [|by rewrite F3 in Hk]. apply (cl_class _ _ HC) in Hb. unfold class_of in Hb.
      destruct (symbols_to_endpoints st !! to); [by eexists|by apply elem_of_empty in Hb]. }
    destruct Hk' as [v Hv]. rewrite (G1 s v Hv). by eexists.
  - intros x y [[= -> ->]|Hin]%elem_of_cons; [rewrite (G1 _ _ Ha), (G1 _ _ Hb); by split; eexists|].
    apply (cl_links _ _ HC) in Hin as [[vx Hx] [vy Hy]]. rewrite (G1 _ _ Hx), (G1 _ _ Hy). by split; eexists.
  - intros x y sx sy Hx Hy. destruct (G2 x ltac:(by eexists)) as [vx Hvx], (G2 y ltac:(by eexists)) as [vy Hvy].
    rewrite (G1 x vx Hvx) in Hx. rewrite (G1 y vy Hvy) in Hy. injection Hx as <-. injection Hy as <-.
    rewrite linked_cons, <- (cl_same _ _ HC x y vx vy Hvx Hvy), <- (cl_same _ _ HC x a vx from Hvx Ha), <- (cl_same _ _ HC b y to vy Hb Hvy),
      <- (cl_same _ _ HC x b vx to Hvx Hb), <- (cl_same _ _ HC a y from vy Ha Hvy).
    destruct (decide (vx = from)), (decide (vy = from)); subst; split; intros; intuition congruence.
Qed.

Lemma merge_classes st L a b : classes st L -> classes (Merge a b st) ((a, b) :: L).
Proof.
  intros HC. unfold Merge. destruct (endpoints_to_symbol st !! a) as [s1|] eqn:Ha, (endpoints_to_symbol st !! b) as [s2|] eqn:Hb.
  - destruct (Z.eqb_spec s1 s2) as [->|Hne]; [by apply (same_classes st L a b s2)|]. case_bool_decide.
    + apply classes_swap. by apply (move_classes st L b a s2 s1).
    + by apply (move_classes st L a b s1 s2).
  - apply classes_swap. by apply join_classes.
  - by apply join_classes.
  - pose proof (add_classes st L a HC Ha) as HA. assert (Haa : endpoints_to_symbol (Add a st) !! a = Some a) by (simpl; by rewrite lookup_insert_eq).
    assert (E : MkEdges (<[a := {[a; b]}]> (symbols_to_endpoints st)) (<[b := a]> (<[a := a]> (endpoints_to_symbol st))) = join_class a b (Add a st)).
    { unfold join_class, class_of. simpl. rewrite lookup_insert_eq. simpl. rewrite insert_insert_eq. do 2 f_equal. set_solver. }
    rewrite E. destruct (decide (a = b)) as [<-|Hne].
    + rewrite <- E. replace ({[a; a]} : gset Z) with ({[a]} : gset Z) by set_solver. rewrite insert_insert_eq. by apply (same_classes (Add a st) L a a a).
    + apply classes_swap. apply join_classes; [done| |done]. simpl. by rewrite lookup_insert_ne.
Qed.

(** Which endpoints are in a class. *)
Definition mentioned (st : EquivalentDataEdges) (x : Z) : Prop := is_Some (endpoints_to_symbol st !! x).

Lemma some_insert (m : gmap Z Z) k v x : is_Some (<[k := v]> m !! x) <-> x = k \/ is_Some (m !! x).
Proof.
  destruct (decide (x = k)) as [->|Hne]; [rewrite lookup_insert_eq; split; [by left|by eexists]|]. rewrite lookup_insert_ne by done. tauto.
Qed.

Lemma add_mentioned st a x : mentioned (Add a st) x <-> x = a \/ mentioned st x.
Proof. apply some_insert. Qed.

Lemma merge_mentioned st L a b x : classes st L -> mentioned (Merge a b st) x <-> x = a \/ x = b \/ mentioned st x.
Proof.
  intros HC. unfold Merge, mentioned. destruct (endpoints_to_symbol st !! a) as [s1|] eqn:Ha, (endpoints_to_symbol st !! b) as [s2|] eqn:Hb.
  - assert (Hin : x = a \/ x = b \/ is_Some (endpoints_to_symbol st !! x) <-> is_Some (endpoints_to_symbol st !! x)).
    { split; [|tauto]. intros [->|[->|?]]; [rewrite Ha|rewrite Hb|done]; by eexists. }
    rewrite Hin. destruct (s1 =? s2); [done|]. case_bool_decide; simpl; (rewrite (proj1 (fold_join _ _ _)); case_decide as Hd; [|done];
      apply elem_of_elements, (cl_class _ _ HC) in Hd; rewrite Hd; split; by eexists).
  - simpl. rewrite some_insert. split; [tauto|]. intros [->|?]; [right; by rewrite Ha|tauto].
  - simpl. rewrite some_insert. split; [tauto|]. intros [?|[->|?]]; [tauto|right; by rewrite Hb|tauto].
  - simpl. rewrite !some_insert. tauto.
Qed.

(** ** Encoding *)

Lemma encode_value id index d : Encode (end_point id index d) = d mod 2 * 2 ^ 63 + index mod 2 ^ 31 * 2 ^ 32 + id mod 2 ^ 32.
Proof.
  unfold Encode, end_point. simpl. pose proof (Z.mod_pos_bound id (2 ^ 32) ltac:(lia)). pose proof (Z.mod_pos_bound index (2 ^ 31) ltac:(lia)).
  rewrite !Z.shiftl_mul_pow2 by lia. rewrite (Z.lor_comm (id mod 2 ^ 32)), lor_low by lia. rewrite Z.lor_comm, lor_low by lia. lia.
Qed.

Lemma decode_encode id index d : Decode (Encode (end_point id index d)) = end_point id index d.
Proof.
  unfold Decode. rewrite encode_value. set (i := id mod 2 ^ 32). set (j := index mod 2 ^ 31). set (k := d mod 2).
  assert (Hi : 0 <= i < 2 ^ 32) by (by apply Z.mod_pos_bound). assert (Hj : 0 <= j < 2 ^ 31) by (by apply Z.mod_pos_bound). assert (Hk : 0 <= k < 2) by (by apply Z.mod_pos_bound).
  change 0xffffffff with (Z.ones 32). change 0x7fffffff with (Z.ones 31). rewrite !Z.land_ones, !Z.shiftr_div_pow2 by lia.
  assert (E1 : (k * 2 ^ 63 + j * 2 ^ 32 + i) mod 2 ^ 32 = i) by (symmetry; apply (Z.mod_unique _ _ (k * 2 ^ 31 + j)); lia).
  assert (E2 : (k * 2 ^ 63 + j * 2 ^ 32 + i) / 2 ^ 32 = k * 2 ^ 31 + j) by (symmetry; apply (Z.div_unique _ _ _ i); lia).
  assert (E3 : (k * 2 ^ 63 + j * 2 ^ 32 + i) / 2 ^ 63 = k) by (symmetry; apply (Z.div_unique _ _ _ (j * 2 ^ 32 + i)); lia).
  assert (E4 : (k * 2 ^ 31 + j) mod 2 ^ 31 = j) by (symmetry; apply (Z.mod_unique _ _ k); lia).
  rewrite E1, E2, E3, E4. unfold end_point. rewrite (Z.mod_small i), (Z.mod_small j), (Z.mod_small k) by lia. done.
Qed.

Lemma encode_inj id index d id' index' d' :
  Encode (end_point id index d) = Encode (end_point id' index' d') -> id mod 2 ^ 32 = id' mod 2 ^ 32 /\ index mod 2 ^ 31 = index' mod 2 ^ 31 /\ d mod 2 = d' mod 2.
Proof. intros E. apply (f_equal Decode) in E. rewrite !decode_encode in E. by injection E. Qed.

(** ** Pins *)

Inductive Pin := InPin (node : nat) (index : Z) | OutPin (node : nat) (index : Z).
#[export] Instance Pin_eq_dec : EqDecision Pin.
Proof. solve_decision. Defined.

Section pins.
Context (ErrorResult : Status) (pin : nat -> PinNode) (all_nodes : list nat).

Definition endpoint (p : Pin) : Z := match p with InPin n i => in_end pin n i | OutPin n i => out_end pin n i end.

Definition in_range (p : Pin) : Prop :=
  match p with
  | InPin n i => n ∈ all_nodes /\ 0 <= i < Z.of_nat (pn_in_num (pin n))
  | OutPin n i => n ∈ all_nodes /\ 0 <= i < Z.of_nat (length (pn_outs (pin n)))
  end.

(** Pins that hold the same value: the ends of an edge, the data of a subgraph
    and the input of the node the subgraph belongs to, an input of the output
    of a subgraph and the output of that node, an output and the one it refers to. *)
Inductive pin_link : Pin -> Pin -> Prop :=
  | link_edge n i es dst d : n ∈ all_nodes -> pn_outs (pin n) !! i = Some es -> Some (dst, d) ∈ es -> pin_link (OutPin n (Z.of_nat i)) (InPin dst d)
  | link_data n index p : n ∈ all_nodes -> IsInnerDataType (pn_type (pin n)) = true -> pn_index (pin n) = Some index -> pn_parent (pin n) = Some p ->
      pin_link (InPin p index) (OutPin n 0)
  | link_output n d p : n ∈ all_nodes -> IsInnerOutput (pn_type (pin n)) = true -> pn_parent (pin n) = Some p -> Some d ∈ pn_in_edges (pin n) ->
      pin_link (InPin n d) (OutPin p d)
  | link_ref n i name j s : n ∈ all_nodes -> pn_refs (pin n) !! i = Some (Some (name, Some j)) -> node_of_name pin all_nodes name = Some s ->
      pin_link (OutPin n (Z.of_nat i)) (OutPin s j).

(** The graph is sorted, ids are positions, and its edges, subgraphs and
    references lead to pins that exist. *)
Record pins_ok : Prop := {
  po_id i n : all_nodes !! i = Some n -> pn_id (pin n) = Z.of_nat i;
  po_size : Z.of_nat (length all_nodes) < 2 ^ 32;
  po_nums n : n ∈ all_nodes -> Z.of_nat (pn_in_num (pin n)) < 2 ^ 31 /\ Z.of_nat (length (pn_outs (pin n))) < 2 ^ 31;
  po_link p q : pin_link p q -> in_range p /\ in_range q;
  po_data n : n ∈ all_nodes -> IsInnerDataType (pn_type (pin n)) = true -> is_Some (pn_index (pin n)) /\ is_Some (pn_parent (pin n));
  po_output n : n ∈ all_nodes -> IsInnerOutput (pn_type (pin n)) = true -> is_Some (pn_parent (pin n));
  po_ref n i name j : n ∈ all_nodes -> pn_refs (pin n) !! i = Some (Some (name, j)) -> is_Some j /\ is_Some (node_of_name pin all_nodes name);
}.

Context (Hok : pins_ok).

Lemma node_id n : n ∈ all_nodes -> exists i, all_nodes !! i = Some n /\ pn_id (pin n) = Z.of_nat i /\ 0 <= Z.of_nat i < 2 ^ 32.
Proof.
  intros [i Hi]%list_elem_of_lookup. exists i. pose proof (lookup_lt_Some _ _ _ Hi). pose proof (po_size Hok). split_and!; [done|by apply Hok|lia..].
Qed.

Lemma nodes_nodup : NoDup all_nodes.
Proof. apply NoDup_alt. intros i j n Hi%(po_id Hok) Hj%(po_id Hok). lia. Qed.

Lemma endpoint_inj p q : in_range p -> in_range q -> endpoint p = endpoint q -> p = q.
Proof.
  assert (Hid : forall m n, m ∈ all_nodes -> n ∈ all_nodes -> pn_id (pin m) mod 2 ^ 32 = pn_id (pin n) mod 2 ^ 32 -> m = n).
  { intros m n (i & Hi & -> & ?)%node_id (j & Hj & -> & ?)%node_id E. rewrite !Z.mod_small in E by done. apply Nat2Z.inj in E as ->. congruence. }
  destruct p as [n i|n i], q as [m j|m j]; intros [Hn Hi] [Hm Hj] (E1 & E2 & E3)%encode_inj; try done;
    (apply Hid in E1 as ->; [|done|done]); pose proof (po_nums Hok m Hm); rewrite !Z.mod_small in E2 by lia; by subst.
Qed.

Lemma endpoint_valid p : in_range p -> endpoint p <> kInvalidSymbol.
Proof.
  destruct p as [n i|n i]; intros [Hn Hi]; destruct (node_id n Hn) as (j & _ & Hj & ?); unfold endpoint, in_end, out_end, kInvalidSymbol; rewrite encode_value, Hj.
  - pose proof (Z.mod_pos_bound i (2 ^ 31) ltac:(lia)). rewrite (Z.mod_small (Z.of_nat j)) by lia. change (kInputEnd mod 2) with 0. lia.
  - pose proof (po_nums Hok n Hn) as [_ ?]. rewrite (Z.mod_small (Z.of_nat j)), (Z.mod_small i) by lia. change (kOutputEnd mod 2) with 1. lia.
Qed.

(** ** The classes of a set of links *)

Definition ends (l : Pin * Pin) : Z * Z := (endpoint l.1, endpoint l.2).
Definition touched (A : Pin -> Prop) (R : Pin -> Pin -> Prop) (p : Pin) : Prop := A p \/ exists q, R p q \/ R q p.

(** The pins [A] have been added and the links [R] merged. *)
Definition built (st : EquivalentDataEdges) (A : Pin -> Prop) (R : Pin -> Pin -> Prop) : Prop :=
  exists L, classes st (ends <$> L) /\ (forall p q, (p, q) ∈ L <-> R p q) /\ forall x, mentioned st x <-> exists p, x = endpoint p /\ touched A R p.

Lemma built_ext st A R A' R' : built st A R -> (forall p, A p <-> A' p) -> (forall p q, R p q <-> R' p q) -> built st A' R'.
Proof.
  intros (L & H1 & H2 & H3) HA HR. exists L. split_and!; [done|intros p q; by rewrite H2|]. intros x. rewrite H3. unfold touched. setoid_rewrite HA. by setoid_rewrite HR.
Qed.

Lemma built_nothing : built (MkEdges ∅ ∅) (fun _ => False) (fun _ _ => False).
Proof.
  exists []. split_and!; [apply classes_empty|intros p q; split; [by intros ?%not_elem_of_nil|done]|]. intros x. unfold mentioned, touched. simpl. rewrite lookup_empty.
  split; [by intros [? ?]|]. intros (p & _ & [?|[q [?|?]]]); done.
Qed.

Lemma built_add st A R p : built st A R -> (forall q, touched A R q -> endpoint q <> endpoint p) -> built (Add (endpoint p) st) (fun q => q = p \/ A q) R.
Proof.
  intros (L & H1 & H2 & H3) Hnew. exists L. split_and!; [|done|].
  - apply add_classes; [done|]. apply eq_None_not_Some. intros (q & E & Hq)%H3. by apply (Hnew q Hq).
  - intros x. rewrite add_mentioned, H3. unfold touched. split.
    + intros [->|(q & -> & Hq)]; [exists p; tauto|exists q; tauto].
    + intros (q & -> & [[->|?]|?]); [by left|right; exists q; tauto..].
Qed.

Lemma built_merge st A R p q : built st A R -> built (Merge (endpoint p) (endpoint q) st) A (fun a b => (a = p /\ b = q) \/ R a b).
Proof.
  intros (L & H1 & H2 & H3). exists ((p, q) :: L). split_and!.
  - by apply merge_classes.
  - intros a b. rewrite elem_of_cons, H2. split; (intros [E|?]; [left|by right]); [by injection E|by destruct E as [-> ->]].
  - intros x. rewrite (merge_mentioned st _ _ _ x H1), H3. unfold touched. split.
    + intros [->|[->|(a & -> & [?|(b & [?|?])])]]; [exists p|exists q|exists a|exists a|exists a]; (split; [done|]); [right; exists q|right; exists p|left|right; exists b|right; exists b]; tauto.
    + intros (a & -> & [?|(b & [[[-> ->]|?]|[[-> ->]|?]])]); [|tauto| |tauto|]; right; right; exists a; (split; [done|]); [by left|right; exists b; tauto..].
Qed.

Definition merges (l : list (Pin * Pin)) (st : EquivalentDataEdges) : EquivalentDataEdges := foldl (fun st l => Merge (endpoint l.1) (endpoint l.2) st) st l.

Lemma built_merges l st A R : built st A R -> built (merges l st) A (fun a b => (a, b) ∈ l \/ R a b).
Proof.
  revert st R. induction l as [|[p q] l IH]; intros st R HB; simpl.
  - eapply built_ext; [exact HB|done|]. intros a b. rewrite elem_of_nil. tauto.
  - eapply built_ext; [apply (IH _ (fun a b => (a = p /\ b = q) \/ R a b)), built_merge, HB|done|]. intros a b. cbn beta. rewrite elem_of_cons. split.
    + intros [?|[[-> ->]|?]]; tauto.
    + intros [[[= -> ->]|?]|?]; tauto.
Qed.

(** One step of a loop links [Rx x]; the loop links them all. *)
Definition links_step (m : EquivalentDataEdges -> outcome EquivalentDataEdges) (Rx : Pin -> Pin -> Prop) : Prop :=
  forall st A R, built st A R -> exists st', m st = Ok st' /\ built st' A (fun a b => Rx a b \/ R a b).

Lemma links_merges l m (Rx : Pin -> Pin -> Prop) : (forall st, m st = Ok (merges l st)) -> (forall p q, (p, q) ∈ l <-> Rx p q) -> links_step m Rx.
Proof. intros Hm Hl st A R HB. eexists. split; [apply Hm|]. eapply built_ext; [by apply (built_merges l)|done|]. intros p q. cbn beta. by rewrite Hl. Qed.

Lemma links_none m Rx : (forall st, m st = Ok st) -> (forall p q, ~ Rx p q) -> links_step m Rx.
Proof. intros Hm Hr. apply (links_merges []); [done|]. intros p q. rewrite elem_of_nil. split; [done|]. by intros ?%Hr. Qed.

Lemma links_seq m1 m2 R1 R2 : links_step m1 R1 -> links_step m2 R2 -> links_step (fun st => st ← m1 st; m2 st) (fun p q => R1 p q \/ R2 p q).
Proof.
  intros H1 H2 st A R HB. destruct (H1 st A R HB) as (st1 & E1 & HB1). destruct (H2 st1 A _ HB1) as (st2 & E2 & HB2). exists st2. cbn beta. rewrite E1. split; [exact E2|].
  eapply built_ext; [exact HB2|done|]. intros p q. cbn beta. tauto.
Qed.

Lemma links_ext m Rx Ry : links_step m Rx -> (forall p q, Rx p q <-> Ry p q) -> links_step m Ry.
Proof. intros Hm E st A R HB. destruct (Hm st A R HB) as (st' & ? & ?). exists st'. split; [done|]. eapply built_ext; [done|done|]. intros p q. cbn beta. by rewrite E. Qed.

Lemma links_fold {X} (body : X -> EquivalentDataEdges -> outcome EquivalentDataEdges) (l : list X) Rx :
  (forall x, x ∈ l -> links_step (body x) (Rx x)) -> links_step (foldM body l) (fun p q => exists x, x ∈ l /\ Rx x p q).
Proof.
  induction l as [|x l IH]; intros Hb.
  - apply links_none; [done|]. intros p q (x & []%not_elem_of_nil & _).
  - eapply links_ext; [apply (links_seq (body x) (foldM body l) (Rx x)); [apply Hb; left|apply IH; intros y Hy; apply Hb; by right]|].
    intros p q. cbn beta. setoid_rewrite elem_of_cons. split; [intros [?|(y & ? & ?)]; [by exists x; tauto|by exists y; tauto]|intros (y & [->|?] & ?); [by left|right; by exists y]].
Qed.

Lemma links_success m Rx : links_step m Rx -> links_step (fun st => assert_success ErrorResult (m st)) Rx.
Proof. intros Hm st A R HB. destruct (Hm st A R HB) as (st' & E & ?). exists st'. rewrite E. done. Qed.

(** ** The links of each kind *)

Lemma foldl_merges {X} (f : X -> option (Pin * Pin)) (g : EquivalentDataEdges -> X -> EquivalentDataEdges) l st :
  (forall st x, g st x = match f x with None => st | Some l => Merge (endpoint l.1) (endpoint l.2) st end) -> foldl g st l = merges (omap f l) st.
Proof. intros Hg. revert st. induction l as [|x l IH]; intros st; [done|]. cbn. rewrite IH, Hg. by destruct (f x). Qed.

Definition data_link (n : nat) (p q : Pin) : Prop := exists index par, pn_index (pin n) = Some index /\ pn_parent (pin n) = Some par /\ p = InPin par index /\ q = OutPin n 0.
Definition output_link (n : nat) (p q : Pin) : Prop := exists d par, pn_parent (pin n) = Some par /\ Some d ∈ pn_in_edges (pin n) /\ p = InPin n d /\ q = OutPin par d.
Definition ref_link (n : nat) (r : nat * option (string * option Z)) (p q : Pin) : Prop :=
  exists name j s, r.2 = Some (name, Some j) /\ node_of_name pin all_nodes name = Some s /\ p = OutPin n (Z.of_nat r.1) /\ q = OutPin s j.

Lemma data_links n : n ∈ all_nodes -> IsInnerDataType (pn_type (pin n)) = true -> links_step (ConstructInnerDataEquivalent ErrorResult pin n) (data_link n).
Proof.
  intros Hn Ht. destruct (po_data Hok n Hn Ht) as [[index Hi] [par Hp]]. apply (links_merges [(InPin par index, OutPin n 0)]).
  - intros st. unfold ConstructInnerDataEquivalent. by rewrite Hi, Hp.
  - intros p q. rewrite list_elem_of_singleton. unfold data_link. rewrite Hi, Hp. split; [intros [= -> ->]; by exists index, par|]. intros (index1 & par1 & E1 & E2 & -> & ->). by simplify_eq.
Qed.

Lemma output_links n : n ∈ all_nodes -> IsInnerOutput (pn_type (pin n)) = true -> links_step (ConstructInnerOutputEquivalent ErrorResult pin n) (output_link n).
Proof.
  intros Hn Ht. destruct (po_output Hok n Hn Ht) as [par Hp]. apply (links_merges (omap (fmap (fun d => (InPin n d, OutPin par d))) (pn_in_edges (pin n)))).
  - intros st. unfold ConstructInnerOutputEquivalent. rewrite Hp. simpl. f_equal. apply foldl_merges. by intros st' [d|].
  - intros p q. rewrite list_elem_of_omap. unfold output_link. rewrite Hp. split.
    + intros ([d|] & Hd & [= <- <-]). by exists d, par.
    + intros (d & ? & [= <-] & Hd & -> & ->). by exists (Some d).
Qed.

Lemma inner_links :
  links_step (ConstructInnerDataOutputEquivalent ErrorResult pin all_nodes)
    (fun p q => exists n, n ∈ all_nodes /\ ((IsInnerDataType (pn_type (pin n)) = true /\ data_link n p q) \/ (IsInnerOutput (pn_type (pin n)) = true /\ output_link n p q))).
Proof.
  apply (links_fold _ _ (fun n p q => (IsInnerDataType (pn_type (pin n)) = true /\ data_link n p q) \/ (IsInnerOutput (pn_type (pin n)) = true /\ output_link n p q))).
  intros n Hn. apply (links_seq (fun st => if IsInnerDataType (pn_type (pin n)) then assert_success ErrorResult (ConstructInnerDataEquivalent ErrorResult pin n st) else Ok st)
    (fun st => if IsInnerOutput (pn_type (pin n)) then assert_success ErrorResult (ConstructInnerOutputEquivalent ErrorResult pin n st) else Ok st)
    (fun p q => IsInnerDataType (pn_type (pin n)) = true /\ data_link n p q) (fun p q => IsInnerOutput (pn_type (pin n)) = true /\ output_link n p q)).
  - destruct (IsInnerDataType (pn_type (pin n))) eqn:Ht; [|apply links_none; [done|by intros p q [? _]]].
    eapply links_ext; [by apply links_success, data_links|]. intros p q. tauto.
  - destruct (IsInnerOutput (pn_type (pin n))) eqn:Ht; [|apply links_none; [done|by intros p q [? _]]].
    eapply links_ext; [by apply links_success, output_links|]. intros p q. tauto.
Qed.

Lemma elem_of_imap_pair {X} (l : list X) i x : (i, x) ∈ imap pair l <-> l !! i = Some x.
Proof.
  rewrite elem_of_lookup_imap. split; [by intros (j & y & [= -> ->] & ?)|]. intros ?. by exists i, x.
Qed.

Lemma ref_links :
  links_step (ConstructRefOutputEquivalent ErrorResult pin all_nodes)
    (fun p q => exists n, n ∈ all_nodes /\ exists r, r ∈ imap pair (pn_refs (pin n)) /\ ref_link n r p q).
Proof.
  apply (links_fold _ _ (fun n p q => exists r, r ∈ imap pair (pn_refs (pin n)) /\ ref_link n r p q)). intros n Hn.
  apply (links_fold _ _ (ref_link n)). intros [i [[name j]|]] Hr; [|apply links_none; [done|by intros p q (? & ? & ? & [=] & _)]].
  apply elem_of_imap_pair in Hr. destruct (po_ref Hok n i name j Hn Hr) as [[k ->] [s Hs]]. apply (links_merges [(OutPin n (Z.of_nat i), OutPin s k)]).
  - intros st. simpl. by rewrite Hs.
  - intros p q. rewrite list_elem_of_singleton. unfold ref_link. simpl. split; [intros [= -> ->]; by exists name, k, s|]. intros (? & ? & ? & [= <- <-] & Hs' & -> & ->). rewrite Hs in Hs'. by injection Hs' as ->.
Qed.

(** *** Outputs and their edges *)

Definition io_added (D : nat -> nat -> Prop) (p : Pin) : Prop := exists m j, D m j /\ p = OutPin m (Z.of_nat j).
Definition io_link (D : nat -> nat -> Prop) (p q : Pin) : Prop :=
  exists m j es dst d, D m j /\ pn_outs (pin m) !! j = Some es /\ Some (dst, d) ∈ es /\ p = OutPin m (Z.of_nat j) /\ q = InPin dst d.
Definition io_built (st : EquivalentDataEdges) (D : nat -> nat -> Prop) : Prop :=
  built st (io_added D) (io_link D) /\ forall m j, D m j -> m ∈ all_nodes /\ (j < length (pn_outs (pin m)))%nat.

Lemma io_ext st D D' : io_built st D -> (forall m j, D m j <-> D' m j) -> io_built st D'.
Proof.
  intros [HB HD] E. split; [|intros m j; rewrite <- E; apply HD]. eapply built_ext; [exact HB| |]; unfold io_added, io_link; [intros p|intros p q]; by setoid_rewrite E.
Qed.

Lemma io_fresh D n i q :
  (forall m j, D m j -> m ∈ all_nodes /\ (j < length (pn_outs (pin m)))%nat) -> n ∈ all_nodes -> (i < length (pn_outs (pin n)))%nat -> ~ D n i ->
  touched (io_added D) (io_link D) q -> endpoint q <> endpoint (OutPin n (Z.of_nat i)).
Proof.
  intros HD Hn Hi Hnew Hq E. assert (Hin : in_range q /\ forall m j, q = OutPin m (Z.of_nat j) -> D m j).
  { destruct Hq as [(m & j & Hm & ->)|(q' & [(m & j & es & dst & d & Hm & Hj & Hd & -> & ->)|(m & j & es & dst & d & Hm & Hj & Hd & -> & ->)])].
    - destruct (HD m j Hm). split; [simpl; split; [done|lia]|]. intros ? ? [= <- ?%Nat2Z.inj]. by subst.
    - destruct (HD m j Hm). split; [simpl; split; [done|lia]|]. intros ? ? [= <- ?%Nat2Z.inj]. by subst.
    - destruct (HD m j Hm). split; [|done]. apply (po_link Hok (OutPin m (Z.of_nat j)) (InPin dst d)). by eapply link_edge. }
  destruct Hin as [Hr Hd]. apply endpoint_inj in E; [|done|simpl; split; [done|lia]]. by apply Hnew, Hd.
Qed.

Lemma output_built st D n i es :
  io_built st D -> n ∈ all_nodes -> pn_outs (pin n) !! i = Some es -> ~ D n i -> io_built (add_output pin n (i, es) st) (fun m j => (m = n /\ j = i) \/ D m j).
Proof.
  intros [HB HD] Hn Hi Hnew. pose proof (lookup_lt_Some _ _ _ Hi) as Hlt. split; [|intros m j [[-> ->]|?]; [done|by apply HD]].
  set (link := fun e : option (nat * Z) => (fun '(dst, d) => (OutPin n (Z.of_nat i), InPin dst d)) <$> e).
  assert (E : add_output pin n (i, es) st = merges (omap link es) (Add (endpoint (OutPin n (Z.of_nat i))) st)) by (apply foldl_merges; by intros st' [[dst d]|]).
  rewrite E. eapply built_ext; [apply built_merges, built_add; [exact HB|intros q Hq; by apply (io_fresh D n i q)]| |].
  - intros p. unfold io_added. split.
    + intros [->|(m & j & ? & ->)]; [exists n, i; tauto|exists m, j; tauto].
    + intros (m & j & [[-> ->]|?] & ->); [by left|right; by exists m, j].
  - intros p q. cbn beta. rewrite list_elem_of_omap. unfold io_link. split.
    + intros [([[dst d]|] & Hd & [= <- <-])|(m & j & es' & dst & d & ? & ?)]; [exists n, i, es, dst, d; tauto|exists m, j, es', dst, d; tauto].
    + intros (m & j & es' & dst & d & [[-> ->]|Hm] & Hj & Hd & -> & ->); [|right; by exists m, j, es', dst, d].
      left. rewrite Hi in Hj. injection Hj as <-. by exists (Some (dst, d)).
Qed.

Lemma outputs_built st D n k :
  io_built st D -> n ∈ all_nodes -> (forall j, ~ D n j) -> (k <= length (pn_outs (pin n)))%nat ->
  io_built (foldl (fun st output => add_output pin n output st) st (imap pair (take k (pn_outs (pin n))))) (fun m j => (m = n /\ (j < k)%nat) \/ D m j).
Proof.
  intros HB Hn Hnew. induction k as [|k IH]; intros Hk.
  - rewrite take_0. simpl. eapply io_ext; [exact HB|]. intros m j. cbn beta. split; [tauto|]. intros [[_ ?]|?]; [lia|done].
  - destruct (lookup_lt_is_Some_2 (pn_outs (pin n)) k ltac:(lia)) as [es Hes]. rewrite (take_S_r _ _ es Hes), imap_app, foldl_app. simpl.
    rewrite Nat.add_0_r, length_take, Nat.min_l by lia. eapply io_ext; [apply output_built; [apply IH; lia|done|done|]|].
    + intros [[_ ?]|?]; [lia|by eapply Hnew].
    + intros m j. cbn beta. split; [intros [[-> ->]|[[-> ?]|?]]; [left; lia|left; lia|by right]|]. intros [[-> ?]|?]; [|tauto]. destruct (decide (j = k)) as [->|?]; [by left|right; left; lia].
Qed.

Definition outputs_of (nodes : list nat) (m j : nat) : Prop := m ∈ nodes /\ (j < length (pn_outs (pin m)))%nat.

Lemma io_loop_built pre suf st states :
  all_nodes = pre ++ suf -> io_built st (outputs_of pre) ->
  (forall i, (length pre <= i < length all_nodes)%nat -> states !! i = Some false) ->
  exists st' states', foldM (io_node ErrorResult pin) suf (st, states) = Ok (st', states') /\ io_built st' (outputs_of all_nodes).
Proof.
  revert pre st states. induction suf as [|n suf IH]; intros pre st states Hall HB Hst.
  - rewrite app_nil_r in Hall. subst pre. by exists st, states.
  - assert (Hn : all_nodes !! length pre = Some n) by (rewrite Hall; by apply list_lookup_middle). pose proof (po_id Hok _ _ Hn) as Hid. pose proof (po_size Hok) as Hsz.
    pose proof (lookup_lt_Some _ _ _ Hn) as Hlt. 
    assert (E : io_node ErrorResult pin n (st, states) = Ok (foldl (fun st output => add_output pin n output st) st (imap pair (pn_outs (pin n))), <[length pre := true]> states)).
    { unfold io_node. rewrite Hid, Z.mod_small, Nat2Z.id by lia. rewrite bool_decide_true by (apply Hst; lia). done. }
    cbn [foldM]. rewrite E. cbn.
    apply (IH (pre ++ [n])).
    + by rewrite <- app_assoc.
    + rewrite <- (take_ge (pn_outs (pin n)) (length (pn_outs (pin n)))) at 1 by done. eapply io_ext; [apply (outputs_built _ (outputs_of pre)); [done|by eapply list_elem_of_lookup_2| |done]|].
      * intros j [Hin _]. pose proof nodes_nodup as Hnd. rewrite Hall in Hnd. apply NoDup_app in Hnd as (_ & Hnd & _). apply (Hnd n Hin). left.
      * intros m j. unfold outputs_of. rewrite elem_of_app, list_elem_of_singleton. cbn beta. split; [intros [[-> ?]|[? ?]]; tauto|]. intros [[?| ->] ?]; tauto.
    + intros i Hi. rewrite length_app in Hi. simpl in Hi. rewrite list_lookup_insert_ne by lia. apply Hst. lia.
Qed.

Lemma io_equivalent_built : exists st, ConstructIoEquivalent ErrorResult pin all_nodes (MkEdges ∅ ∅) = Ok st /\ io_built st (outputs_of all_nodes).
Proof.
  destruct (io_loop_built [] all_nodes (MkEdges ∅ ∅) (replicate (length all_nodes) false)) as (st & states & E & HB); [done| | |].
  - split; [|by intros m j [?%not_elem_of_nil _]]. eapply built_ext; [apply built_nothing| |].
    + intros p. split; [done|]. by intros (m & j & [?%not_elem_of_nil _] & _).
    + intros p q. split; [done|]. by intros (m & j & ? & ? & ? & [?%not_elem_of_nil _] & _).
  - intros i Hi. apply lookup_replicate_2. lia.
  - exists st. unfold ConstructIoEquivalent. rewrite E. done.
Qed.

(** *** All of them *)

Lemma links_are_pin_links p q :
  (exists n, n ∈ all_nodes /\ exists r, r ∈ imap pair (pn_refs (pin n)) /\ ref_link n r p q) \/
  (exists n, n ∈ all_nodes /\ ((IsInnerDataType (pn_type (pin n)) = true /\ data_link n p q) \/ (IsInnerOutput (pn_type (pin n)) = true /\ output_link n p q))) \/
  io_link (outputs_of all_nodes) p q <-> pin_link p q.
Proof.
  split.
  - intros [(n & Hn & [i r] & Hr%elem_of_imap_pair & name & j & s & Er & Hs & -> & ->)|[(n & Hn & [[Ht (index & par & ? & ? & -> & ->)]|[Ht (d & par & ? & ? & -> & ->)]])|(m & j & es & dst & d & [? ?] & ? & ? & -> & ->)]].
    + simpl in Er. subst r. by eapply link_ref.
    + by eapply link_data.
    + by eapply link_output.
    + by eapply link_edge.
  - destruct 1 as [n i es dst d Hn Hi Hd|n index par Hn Ht Hi Hp|n d par Hn Ht Hp Hd|n i name j s Hn Hr Hs].
    + right. right. exists n, i, es, dst, d. split_and!; try done. by apply lookup_lt_Some in Hi.
    + right. left. exists n. split; [done|]. left. split; [done|]. by exists index, par.
    + right. left. exists n. split; [done|]. right. split; [done|]. by exists d, par.
    + left. exists n. split; [done|]. exists (i, Some (name, Some j)). split; [by apply elem_of_imap_pair|]. by exists name, j, s.
Qed.

Definition is_output (p : Pin) : Prop := exists n i, n ∈ all_nodes /\ (i < length (pn_outs (pin n)))%nat /\ p = OutPin n (Z.of_nat i).

Lemma edges_built :
  exists st, (st ← assert_success ErrorResult (ConstructIoEquivalent ErrorResult pin all_nodes (MkEdges ∅ ∅));
    st ← assert_success ErrorResult (ConstructInnerDataOutputEquivalent ErrorResult pin all_nodes st);
    assert_success ErrorResult (ConstructRefOutputEquivalent ErrorResult pin all_nodes st)) = Ok st /\ built st is_output pin_link.
Proof.
  destruct io_equivalent_built as (st1 & E1 & HB1 & _). destruct (inner_links st1 _ _ HB1) as (st2 & E2 & HB2). destruct (ref_links st2 _ _ HB2) as (st3 & E3 & HB3).
  exists st3. rewrite E1. cbn. rewrite E2. cbn. rewrite E3. split; [done|]. eapply built_ext; [exact HB3| |].
  - intros p. unfold io_added, is_output, outputs_of. split; [intros (m & j & [? ?] & ?); by exists m, j|intros (m & j & ? & ? & ?); exists m, j; tauto].
  - apply links_are_pin_links.
Qed.

Lemma touched_in_range p : touched is_output pin_link p -> in_range p.
Proof. intros [(n & i & Hn & Hi & ->)|(q & [H|H])]; [simpl; split; [done|lia]|apply (po_link Hok) in H; tauto..]. Qed.

(** Links between endpoints are links between pins. *)
Lemma linked_pins L p q :
  (forall a b, (a, b) ∈ L <-> pin_link a b) -> in_range p -> in_range q -> linked_by (ends <$> L) (endpoint p) (endpoint q) <-> rtsc pin_link p q.
Proof.
  intros HL Hp Hq. split.
  - assert (Hgen : forall x y, linked_by (ends <$> L) x y -> forall p, in_range p -> x = endpoint p -> exists q, in_range q /\ y = endpoint q /\ rtsc pin_link p q).
    { clear p q Hp Hq. intros x y Hxy. induction Hxy as [x|x y z Hstep _ IH]; intros p Hp ->; [exists p; split_and!; [done..|apply rtc_refl]|].
      assert (Hone : exists r, y = endpoint r /\ in_range r /\ sc pin_link p r).
      { destruct Hstep as [([a b] & [= Ea Eb] & Hab%HL)%list_elem_of_fmap|([a b] & [= Ea Eb] & Hab%HL)%list_elem_of_fmap]; destruct (po_link Hok a b Hab) as [Ha Hb];
          apply endpoint_inj in Ea || apply endpoint_inj in Eb; try done; subst; eexists; (split; [done|]); (split; [done|]); [by left|by right]. }
      destruct Hone as (r & -> & Hr & Hpr). destruct (IH r Hr eq_refl) as (q & Hq & -> & Hrq). exists q. split_and!; [done..|]. by eapply rtc_l. }
    intros H. destruct (Hgen _ _ H p Hp eq_refl) as (q' & Hq' & E & Hpq). by apply endpoint_inj in E as ->.
  - apply (rtsc_congruence endpoint). intros a b Hab%HL. apply list_elem_of_fmap. by exists (a, b).
Qed.
End pins.
