(* ===== verification/ExecSymbolsFinal.v ===== *)
(** * ExecSymbolsFinal: pins share a symbol exactly when links connect them

    Setting the symbols of the classes on the pins; with the classes of
    [ExecSymbolsSound], the symbols of a graph. *)

From stdpp Require Import strings relations.
From S2P Require Import Prelude ExecGraph ExecBuild ExecSymbols ExecSymbolsSound.

#[local] Open Scope Z_scope.

Section symbols.
Context (ErrorResult : Status) (pin : nat -> PinNode) (all_nodes : list nat).
Abbreviation endpoint := (endpoint pin).
Abbreviation in_range := (in_range pin all_nodes).
Abbreviation pin_link := (pin_link pin all_nodes).

Definition get_symbol (t : Symbols) (p : Pin) : option Z :=
  match p with InPin n i => default [] (input_symbols t !! n) !! Z.to_nat i | OutPin n i => default [] (output_symbols t !! n) !! Z.to_nat i end.

Context (Hok : pins_ok pin all_nodes).

(** ** Setting symbols *)

Lemma set_symbol_ok n i s (m : gmap nat (list Z)) :
  is_Some (default [] (m !! n) !! i) ->
  exists m', set_symbol n i s m = Ok m' /\ forall k j, default [] (m' !! k) !! j = if decide (k = n /\ j = i) then Some s else default [] (m !! k) !! j.
Proof.
  intros Hi%lookup_lt_is_Some. unfold set_symbol. rewrite decide_True by done. eexists. split; [done|]. intros k j. destruct (decide (k = n)) as [->|Hk].
  - rewrite lookup_insert_eq. simpl. destruct (decide (j = i)) as [->|Hj]; [by rewrite list_lookup_insert_eq, decide_True|].
    rewrite list_lookup_insert_ne, decide_False by (done || by intros [_ ?]). done.
  - rewrite lookup_insert_ne by done. by rewrite decide_False by (by intros [? _]).
Qed.

Definition full (t : Symbols) : Prop := forall p, in_range p -> is_Some (get_symbol t p).

Lemma to_nat_range i j : 0 <= i -> 0 <= j -> Z.to_nat j = Z.to_nat i -> j = i.
Proof. lia. Qed.

Lemma set_endpoint_ok t s p :
  in_range p -> full t ->
  exists t', set_endpoint ErrorResult all_nodes s (endpoint p) t = Ok t' /\ forall q, in_range q -> get_symbol t' q = if decide (q = p) then Some s else get_symbol t q.
Proof.
  intros Hp Hf. pose proof (Hf p Hp) as Hg.
  assert (Hd : forall n i d, n ∈ all_nodes -> 0 <= i < 2 ^ 31 -> 0 <= d < 2 ->
    exists k, Decode (Encode (end_point (pn_id (pin n)) i d)) = MkEndPoint (Z.of_nat k) i d /\ all_nodes !! k = Some n).
  { intros n i d Hn Hi Hd. destruct (node_id pin all_nodes Hok n Hn) as (k & Hk & -> & ?). exists k. rewrite decode_encode. unfold end_point. by rewrite !Z.mod_small by done. }
  destruct p as [n i|n i]; destruct Hp as [Hn Hi]; pose proof (po_nums _ _ Hok n Hn) as [Hin Hout];
    [destruct (Hd n i kInputEnd Hn ltac:(lia) ltac:(done)) as (k & Ek & Hk)|destruct (Hd n i kOutputEnd Hn ltac:(lia) ltac:(done)) as (k & Ek & Hk)];
    destruct (set_symbol_ok n (Z.to_nat i) s _ Hg) as (m' & Em & Hm); unfold set_endpoint, ExecSymbolsSound.endpoint, in_end, out_end; rewrite Ek; cbn;
    rewrite Nat2Z.id, Hk; cbn; rewrite Em; cbn; eexists; (split; [done|]); intros [m j|m j] Hq; cbn; rewrite ?Hm; try (by rewrite decide_False by done);
    destruct Hq as [_ Hj]; apply decide_ext; (split; [intros [-> E]; f_equal; by apply to_nat_range in E as ->; [|lia|lia]|by intros [= -> ->]]).
Qed.

Lemma set_endpoints_ok s l t :
  (forall x, x ∈ l -> exists p, in_range p /\ x = endpoint p) -> full t ->
  exists t', foldM (set_endpoint ErrorResult all_nodes s) l t = Ok t' /\ full t' /\
    forall q, in_range q -> get_symbol t' q = if decide (endpoint q ∈ l) then Some s else get_symbol t q.
Proof.
  revert t. induction l as [|x l IH]; intros t Hl Hf; simpl; [by exists t|]. destruct (Hl x) as (p & Hp & ->); [left|].
  destruct (set_endpoint_ok t s p Hp Hf) as (t1 & E1 & H1). rewrite E1. simpl.
  assert (Hf1 : full t1) by (intros q Hq; rewrite H1 by done; case_decide; [done|by apply Hf]).
  destruct (IH t1) as (t' & E' & Hf' & H'); [intros y Hy; apply Hl; by right|done|]. exists t'. split_and!; [done..|]. intros q Hq. rewrite H' by done.
  destruct (decide (endpoint q ∈ l)); [by rewrite decide_True by (by right)|]. rewrite H1 by done. destruct (decide (q = p)) as [->|Hne]; [by rewrite decide_True by left|].
  rewrite decide_False; [done|]. intros [E|?]%elem_of_cons; [|done]. apply (endpoint_inj pin all_nodes Hok) in E; done.
Qed.

Lemma set_classes_ok (l : list (Z * gset Z)) t :
  (forall s E x, (s, E) ∈ l -> x ∈ E -> exists p, in_range p /\ x = endpoint p) -> (forall s E s' E' x, (s, E) ∈ l -> (s', E') ∈ l -> x ∈ E -> x ∈ E' -> s = s') -> full t ->
  exists t', foldM (fun '(symbol, endpoints) t => foldM (set_endpoint ErrorResult all_nodes symbol) (elements endpoints) t) l t = Ok t' /\ full t' /\
    forall q, in_range q -> (forall s E, (s, E) ∈ l -> endpoint q ∈ E -> get_symbol t' q = Some s) /\ ((forall s E, (s, E) ∈ l -> endpoint q ∉ E) -> get_symbol t' q = get_symbol t q).
Proof.
  revert t. induction l as [|[s0 E0] l IH]; intros t Hl Hone Hf; simpl.
  - exists t. split_and!; [done..|]. intros q _. split; [by intros s E ?%not_elem_of_nil|done].
  - destruct (set_endpoints_ok s0 (elements E0) t) as (t1 & E1 & Hf1 & H1); [intros x Hx%elem_of_elements; apply (Hl s0 E0); [left|done]|done|]. rewrite E1. simpl.
    destruct (IH t1) as (t' & E' & Hf' & H'); [intros s E x Hin; apply (Hl s E); by right|intros s E s' E' x Hs Hs'; apply (Hone s E s' E'); by right|done|].
    exists t'. split_and!; [done..|]. intros q Hq. destruct (H' q Hq) as [I1 I2]. specialize (H1 q Hq). split.
    + intros s E [[= -> ->]|Hin]%elem_of_cons Hx; [|by apply (I1 s E)].
      destruct (decide (Exists (fun c => endpoint q ∈ c.2) l)) as [([s E] & Hin & Hc)%Exists_exists|Hno].
      * rewrite (I1 s E Hin Hc). f_equal. apply (Hone s E s0 E0 (endpoint q)); [by right|left|done|done].
      * rewrite I2, H1, decide_True; [done|by apply elem_of_elements|]. intros s E Hin Hc. apply Hno. apply Exists_exists. by exists (s, E).
    + intros Hno. rewrite I2, H1, decide_False; [done| |intros s E Hin; apply (Hno s E); by right]. rewrite elem_of_elements. apply (Hno s0 E0). left.
Qed.

Lemma no_symbols_get p : in_range p -> get_symbol (no_symbols pin all_nodes) p = Some kInvalidSymbol.
Proof.
  assert (Hl : forall (f : nat -> list Z) n, n ∈ all_nodes -> (list_to_map ((fun n => (n, f n)) <$> all_nodes) : gmap nat (list Z)) !! n = Some (f n)).
  { intros f n Hn. apply elem_of_list_to_map.
    - rewrite <- list_fmap_compose. change (NoDup (id <$> all_nodes)). rewrite list_fmap_id. by apply nodes_nodup with pin.
    - apply list_elem_of_fmap. by exists n. }
  destruct p as [n i|n i]; intros [Hn Hi]; simpl; rewrite (Hl (fun n => replicate _ kInvalidSymbol) n Hn); simpl; apply lookup_replicate_2; lia.
Qed.

Lemma symbols_set st L :
  classes st L -> (forall x, mentioned st x -> exists p, in_range p /\ x = endpoint p) ->
  exists t, SetInputOutputSymbols ErrorResult pin all_nodes st = Ok t /\ forall q, in_range q -> get_symbol t q = Some (default kInvalidSymbol (endpoints_to_symbol st !! endpoint q)).
Proof.
  intros HC Hm. assert (Hin : forall s E x, (s, E) ∈ map_to_list (symbols_to_endpoints st) -> x ∈ E -> endpoints_to_symbol st !! x = Some s).
  { intros s E x Hs%elem_of_map_to_list Hx. apply (cl_class _ _ HC). unfold class_of. by rewrite Hs. }
  destruct (set_classes_ok (map_to_list (symbols_to_endpoints st)) (no_symbols pin all_nodes)) as (t & Et & _ & Ht).
  - intros s E x Hs Hx. apply Hm. exists s. by apply (Hin s E).
  - intros s E s' E' x Hs Hs' Hx Hx'. pose proof (Hin s E x Hs Hx). pose proof (Hin s' E' x Hs' Hx'). congruence.
  - intros p Hp. rewrite no_symbols_get by done. by eexists.
  - exists t. split; [exact Et|]. intros q Hq. destruct (Ht q Hq) as [H1 H2]. destruct (endpoints_to_symbol st !! endpoint q) as [s|] eqn:Es; simpl.
    + apply (cl_class _ _ HC) in Es. unfold class_of in Es. destruct (symbols_to_endpoints st !! s) as [E|] eqn:EE; [|by apply elem_of_empty in Es].
      apply (H1 s E); [by apply elem_of_map_to_list|done].
    + rewrite H2, no_symbols_get; [done..|]. intros s E Hs Hx. pose proof (Hin s E _ Hs Hx). congruence.
Qed.

(** C17: For a sorted graph whose edges, subgraphs and references lead to pins that
    exist, symbols are set: every output gets one, an input gets one exactly when
    a link ends at it, and a pin with a symbol shares it with exactly the pins
    that links connect it to, whatever the number of links between them. *)
Theorem symbols_are_link_classes :
  exists t, UpdateEquivalentEdges ErrorResult pin all_nodes = Ok t /\
    (forall p, in_range p -> exists s, get_symbol t p = Some s /\ (s <> kInvalidSymbol <-> (exists n i, p = OutPin n i) \/ exists q, pin_link p q \/ pin_link q p)) /\
    (forall p q s, in_range p -> in_range q -> get_symbol t p = Some s -> s <> kInvalidSymbol -> get_symbol t q = Some s <-> rtsc pin_link p q).
Proof.
  destruct (edges_built ErrorResult pin all_nodes Hok) as (st & Est & L & HC & HL & Hm). pose proof (touched_in_range pin all_nodes Hok) as Htr.
  assert (Hran : forall x, mentioned st x -> exists p, in_range p /\ x = endpoint p) by (intros x (p & -> & Hp)%Hm; exists p; split; [by apply Htr|done]).
  destruct (symbols_set st _ HC Hran) as (t & Et & Ht). exists t.
  assert (Hval : forall x s, endpoints_to_symbol st !! x = Some s -> s <> kInvalidSymbol).
  { intros x s Hx. assert (Hs : mentioned st s). { apply (cl_key _ _ HC). apply (cl_class _ _ HC) in Hx. unfold class_of in Hx. destruct (symbols_to_endpoints st !! s); [by eexists|by apply elem_of_empty in Hx]. }
    apply Hran in Hs as (p & Hp & ->). by apply (endpoint_valid pin all_nodes Hok). }
  split_and!.
  - unfold UpdateEquivalentEdges. apply bind_Ok in Est as (st1 & E1 & Est). rewrite E1. cbn. apply bind_Ok in Est as (st2 & E2 & Est). rewrite E2. cbn. rewrite Est. cbn. by rewrite Et.
  - intros p Hp. rewrite (Ht p Hp). eexists. split; [done|]. trans (touched (is_output pin all_nodes) pin_link p).
    + split.
      * destruct (endpoints_to_symbol st !! endpoint p) as [s|] eqn:Es; [intros _|by intros []]. destruct (proj1 (Hm (endpoint p)) ltac:(by eexists)) as (q & E & Hq).
        apply (endpoint_inj pin all_nodes Hok) in E as ->; [done|done|by apply Htr].
      * intros Hq. destruct (proj2 (Hm (endpoint p)) ltac:(by exists p)) as [s Es]. rewrite Es. simpl. by apply (Hval (endpoint p)).
    + unfold touched. split; (intros [H|?]; [left|by right]); [destruct H as (n & i & _ & _ & ->); by eexists _, _|].
      destruct H as (n & i & ->), Hp as [Hn Hi]. exists n, (Z.to_nat i). split_and!; [done|lia|f_equal; lia].
  - intros p q s Hp Hq. rewrite (Ht p Hp), (Ht q Hq), <- (linked_pins pin all_nodes Hok L p q HL Hp Hq). intros [= Es] Hs.
    destruct (endpoints_to_symbol st !! endpoint p) as [sp|] eqn:Ep; [|by simpl in Es]. simpl in Es. subst sp. destruct (endpoints_to_symbol st !! endpoint q) as [sq|] eqn:Eq; simpl.
    + rewrite <- (cl_same _ _ HC _ _ s sq Ep Eq). split; [by intros [= ->]|by intros ->].
    + split; [congruence|]. intros Hl. destruct (new_unlinked st _ (endpoint q) (endpoint p) HC Eq Hl). congruence.
Qed.
End symbols.

(** * The symbols of a graph with a subgraph and a reference *)

#[local] Open Scope Z_scope.

(** A constant feeds a node whose subgraph hands its input to its output; the
    constant is referred to by the output of a node nothing follows. *)
Definition pins : list PinNode :=
  [MkPin "Const" 0 "value" 0 [[Some (1%nat, 0)]] [] None None [None];
   MkPin "SubgraphCall" 1 "call" 1 [[None; Some (4%nat, 0)]] [Some 0] None None [None];
   MkPin "InnerData" 2 "data" 0 [[Some (3%nat, 0)]] [] (Some 0) (Some 1%nat) [None];
   MkPin "InnerNetOutput" 3 "out" 1 [] [None; Some 0] None (Some 1%nat) [];
   MkPin "NetOutput" 4 "net_output" 2 [] [Some 0] None None [];
   MkPin "Assign" 5 "assign" 0 [[]; []] [] None None [Some ("value", Some 0); None]].
Definition pin_at (n : nat) : PinNode := nth n pins (MkPin "Null" 0 "" 0 [] [] None None []).
Definition pin_nodes : list nat := seq 0 6.

(** ** The conditions on a graph, as a test *)

Section test.
Context (pin : nat -> PinNode) (all_nodes : list nat).

#[local] Instance in_range_dec p : Decision (in_range pin all_nodes p).
Proof. destruct p; simpl; apply _. Defined.

Definition all_some {A} (P : A -> Prop) (l : list (option A)) : Prop := Forall P (omap id l).

Lemma all_some_in {A} (P : A -> Prop) l x : all_some P l -> Some x ∈ l -> P x.
Proof. unfold all_some. rewrite Forall_forall. intros Hl Hx. apply Hl, list_elem_of_omap. by exists (Some x). Qed.

Definition node_test (n : nat) : Prop :=
  Z.of_nat (pn_in_num (pin n)) < 2 ^ 31 /\ Z.of_nat (length (pn_outs (pin n))) < 2 ^ 31 /\
  Forall (all_some (fun e => in_range pin all_nodes (InPin e.1 e.2))) (pn_outs (pin n)) /\
  (if IsInnerDataType (pn_type (pin n)) then match pn_index (pin n), pn_parent (pin n) with Some index, Some p => in_range pin all_nodes (InPin p index) /\ in_range pin all_nodes (OutPin n 0) | _, _ => False end else True) /\
  (if IsInnerOutput (pn_type (pin n)) then match pn_parent (pin n) with Some p => all_some (fun d => in_range pin all_nodes (InPin n d) /\ in_range pin all_nodes (OutPin p d)) (pn_in_edges (pin n)) | None => False end else True) /\
  (length (pn_refs (pin n)) <= length (pn_outs (pin n)))%nat /\
  all_some (fun r => match r.2, node_of_name pin all_nodes r.1 with Some j, Some s => in_range pin all_nodes (OutPin s j) | _, _ => False end) (pn_refs (pin n)).

#[export] Instance node_test_dec n : Decision (node_test n).
Proof.
  unfold node_test, all_some. repeat (apply and_dec); try apply _; repeat case_match; try apply _; apply Forall_dec; intros [? []]; simpl; repeat case_match; apply _.
Defined.

Lemma node_tests_ok :
  pn_id ∘ pin <$> all_nodes = seqZ 0 (Z.of_nat (length all_nodes)) -> Z.of_nat (length all_nodes) < 2 ^ 32 -> Forall node_test all_nodes -> pins_ok pin all_nodes.
Proof.
  intros Hid Hsz Hall. rewrite Forall_forall in Hall. split.
  - intros i n Hi. assert (E : (pn_id ∘ pin <$> all_nodes) !! i = Some (pn_id (pin n))) by (by rewrite list_lookup_fmap, Hi). rewrite Hid in E. apply lookup_seqZ in E as [-> _]. lia.
  - done.
  - intros n (? & ? & _)%Hall. done.
  - destruct 1 as [n i es dst d Hn Hi Hd|n index par Hn Ht Hi Hp|n d par Hn Ht Hp Hd|n i name j s Hn Hr Hs]; pose proof (Hall n Hn) as (T1 & T2 & T3 & T4 & T5 & T6 & T7).
    + split; [split; [done|apply lookup_lt_Some in Hi; lia]|]. rewrite Forall_lookup in T3. by apply (all_some_in _ _ (dst, d) (T3 i es Hi)).
    + by rewrite Ht, Hi, Hp in T4.
    + rewrite Ht, Hp in T5. by apply (all_some_in _ _ d T5).
    + split; [split; [done|apply lookup_lt_Some in Hr; lia]|]. pose proof (all_some_in _ _ (name, Some j) T7 (list_elem_of_lookup_2 _ _ _ Hr)) as H. simpl in H. by rewrite Hs in H.
  - intros n Hn Ht. destruct (Hall n Hn) as (_ & _ & _ & T & _). rewrite Ht in T. destruct (pn_index (pin n)), (pn_parent (pin n)); done.
  - intros n Hn Ht. destruct (Hall n Hn) as (_ & _ & _ & _ & T & _). rewrite Ht in T. destruct (pn_parent (pin n)); [by eexists|done].
  - intros n i name j Hn Hr. destruct (Hall n Hn) as (_ & _ & _ & _ & _ & _ & T). pose proof (all_some_in _ _ (name, j) T (list_elem_of_lookup_2 _ _ _ Hr)) as H. simpl in H.
    destruct j, (node_of_name pin all_nodes name); done.
Qed.
End test.

Lemma pins_at_ok : pins_ok pin_at pin_nodes.
Proof. apply node_tests_ok; [done|done|]. apply (bool_decide_unpack _). by vm_compute. Qed.

Module RunsSymbols.
Lemma symbols_are_link_classes_run :
  exists t, UpdateEquivalentEdges FAILED pin_at pin_nodes = Ok t /\
    get_symbol t (OutPin 5 0) = get_symbol t (InPin 4 0) /\ get_symbol t (OutPin 5 1) <> get_symbol t (OutPin 5 0) /\ get_symbol t (InPin 4 1) = Some kInvalidSymbol.
Proof.
  destruct (symbols_are_link_classes FAILED pin_at pin_nodes pins_at_ok) as (t & Et & _ & _). exists t. split; [exact Et|].
  vm_compute in Et. injection Et as <-. split_and!; [reflexivity|discriminate|reflexivity].
Defined.
End RunsSymbols.
