(* ===== verification/GraphBitmap.v ===== *)
(** * GraphBitmap: bit sets of any size

    [graph_metadef/graph/common/large_bm.cc]: a vector of 64 bit words used as a
    set of indices below a size. *)

From S2P Require Import Prelude ExecTopo.

#[local] Open Scope nat_scope.

(** ** The code *)

Definition kBitsEachValue : nat := 64.
Definition AlignBitSize (bit_size : nat) : nat := bit_size + kBitsEachValue - 1.
Definition AlignArraySize (bit_size : nat) : nat := Nat.shiftr (AlignBitSize bit_size) 6.

Record LargeBitmap := MkBitmap { bm_size : nat; bm_bits : list Z }.

Definition LargeBitmap_new (size : nat) : LargeBitmap := MkBitmap size (replicate (AlignArraySize size) 0%Z).

Definition bit_mask (index : nat) : Z := Z.shiftl 1 (Z.of_nat (index mod kBitsEachValue)).

Definition ClearBit (bit_idx : nat) (bm : LargeBitmap) : outcome LargeBitmap :=
  w ← at_ (bm_bits bm) (Nat.shiftr bit_idx 6);
  bits ← write (bm_bits bm) (Nat.shiftr bit_idx 6) (Z.land w (Z.lxor (Z.ones 64) (bit_mask bit_idx)));
  Ok (MkBitmap (bm_size bm) bits).

Definition SetValues (value : Z) (bm : LargeBitmap) : LargeBitmap := MkBitmap (bm_size bm) ((fun _ => value) <$> bm_bits bm).

Definition SetBit (index : nat) (bm : LargeBitmap) : outcome LargeBitmap :=
  if index <? bm_size bm then
    w ← at_ (bm_bits bm) (index / kBitsEachValue);
    bits ← write (bm_bits bm) (index / kBitsEachValue) (Z.lor w (bit_mask index));
    Ok (MkBitmap (bm_size bm) bits)
  else Ok bm.

Definition GetBit (index : nat) (bm : LargeBitmap) : outcome bool :=
  if index <? bm_size bm then
    w ← at_ (bm_bits bm) (index / kBitsEachValue);
    Ok (negb (Z.land w (bit_mask index) =? 0)%Z)
  else Ok false.

(** The words both have. *)
Definition combine (op : Z -> Z -> Z) (bits another : list Z) : list Z :=
  imap (fun index bit => match another !! index with Some w => op bit w | None => bit end) bits.
Definition Or (another_bm bm : LargeBitmap) : LargeBitmap := MkBitmap (bm_size bm) (combine Z.lor (bm_bits bm) (bm_bits another_bm)).
Definition And (another_bm bm : LargeBitmap) : LargeBitmap := MkBitmap (bm_size bm) (combine Z.land (bm_bits bm) (bm_bits another_bm)).

Definition bm_eq (bm another_bm : LargeBitmap) : bool := bool_decide (bm_bits bm = bm_bits another_bm).

Definition ResizeBits (new_size : nat) (bm : LargeBitmap) : outcome LargeBitmap :=
  if new_size <? bm_size bm then Ok bm else
  let new_byte_size := AlignArraySize new_size in
  if new_byte_size =? AlignArraySize (bm_size bm) then Ok (MkBitmap new_size (bm_bits bm)) else
  let bits := take new_byte_size (bm_bits bm) ++ replicate (new_byte_size - length (bm_bits bm)) 0%Z in
  bm' ← foldM ClearBit (seq (bm_size bm) (AlignBitSize (bm_size bm) - bm_size bm)) (MkBitmap (bm_size bm) bits);
  Ok (MkBitmap new_size (bm_bits bm')).

(** ** As a set *)

#[local] Arguments Nat.div : simpl never.
#[local] Arguments Nat.modulo : simpl never.

(** Bit [i] of the words. *)
Definition bit (bm : LargeBitmap) (i : nat) : bool := Z.testbit (default 0%Z (bm_bits bm !! (i / 64))) (Z.of_nat (i mod 64)).

(** As many words as the size needs, and no bit at or above the size. *)
Record bitmap_ok (bm : LargeBitmap) : Prop := {
  bm_length : length (bm_bits bm) = AlignArraySize (bm_size bm);
  bm_above i : bm_size bm <= i -> bit bm i = false;
}.

Lemma align_size n : AlignArraySize n = (n + 63) / 64.
Proof. unfold AlignArraySize, AlignBitSize, kBitsEachValue. rewrite Nat.shiftr_div_pow2. f_equal. lia. Qed.

Lemma word_below n i : i < n -> i / 64 < AlignArraySize n.
Proof. intros Hi. rewrite align_size. apply Nat.Div0.div_lt_upper_bound. pose proof (Nat.div_mod (n + 63) 64 ltac:(lia)). pose proof (Nat.mod_upper_bound (n + 63) 64 ltac:(lia)). lia. Qed.


Lemma mask_bits j k : Z.testbit (bit_mask j) (Z.of_nat (k mod 64)) = bool_decide (k mod 64 = j mod 64).
Proof.
  unfold bit_mask, kBitsEachValue. rewrite Z.shiftl_1_l, Z.pow2_bits_eqb by lia. apply eq_bool_prop_intro. rewrite Is_true_true, Z.eqb_eq, bool_decide_spec. lia.
Qed.

Lemma same_index i j : i / 64 = j / 64 -> i mod 64 = j mod 64 -> i = j.
Proof. intros Hd Hm. rewrite (Nat.div_mod i 64), (Nat.div_mod j 64) by lia. by rewrite Hd, Hm. Qed.

(** A word replaced by another. *)
Lemma bit_write s l (j : nat) w (f : Z -> Z) i :
  l !! (j / 64) = Some w -> bit (MkBitmap s (<[j / 64 := f w]> l)) i = if decide (i / 64 = j / 64) then Z.testbit (f w) (Z.of_nat (i mod 64)) else bit (MkBitmap s l) i.
Proof.
  intros Hw. unfold bit. cbn [bm_bits]. destruct (decide (i / 64 = j / 64)) as [->|Hne]; [rewrite list_lookup_insert_eq by (by apply lookup_lt_Some in Hw); done|]. by rewrite list_lookup_insert_ne.
Qed.

Lemma bit_get s l j w : l !! (j / 64) = Some w -> bit (MkBitmap s l) j = Z.testbit w (Z.of_nat (j mod 64)).
Proof. intros Hw. unfold bit. cbn [bm_bits]. by rewrite Hw. Qed.

Lemma new_ok n : bitmap_ok (LargeBitmap_new n) /\ forall i, bit (LargeBitmap_new n) i = false.
Proof.
  assert (H : forall i, bit (LargeBitmap_new n) i = false).
  { intros i. unfold bit. cbn [bm_bits LargeBitmap_new]. destruct (replicate (AlignArraySize n) 0%Z !! (i / 64)) as [w|] eqn:E; simpl; [|by rewrite Z.bits_0]. apply lookup_replicate in E as [-> _]. apply Z.bits_0. }
  split; [|done]. split; [simpl; by rewrite length_replicate|auto].
Qed.

Lemma clear_bit_ok j bm :
  j / 64 < length (bm_bits bm) ->
  exists bm', ClearBit j bm = Ok bm' /\ bm_size bm' = bm_size bm /\ length (bm_bits bm') = length (bm_bits bm) /\ forall i, bit bm' i = bit bm i && negb (bool_decide (i = j)).
Proof.
  intros Hj. destruct bm as [s l]. simpl in *. destruct (lookup_lt_is_Some_2 l _ Hj) as [w Hw]. unfold ClearBit, at_, write. cbn [bm_bits bm_size]. rewrite Nat.shiftr_div_pow2. change (2 ^ 6) with 64.
  rewrite Hw. cbn [mbind outcome_bind]. rewrite decide_True by done. cbn [mbind outcome_bind]. eexists. split; [done|]. cbn [bm_bits bm_size]. rewrite length_insert. split_and!; [done..|]. intros i.
  rewrite (bit_write s l j w (fun w => Z.land w (Z.lxor (Z.ones 64) (bit_mask j))) i Hw). destruct (decide (i / 64 = j / 64)) as [E|E].
  - assert (Hi : l !! (i / 64) = Some w) by (by rewrite E). rewrite (bit_get s l i w Hi), Z.land_spec, Z.lxor_spec, mask_bits, Z.testbit_ones_nonneg by (try lia).
    pose proof (Nat.mod_upper_bound i 64 ltac:(lia)). rewrite (proj2 (Z.ltb_lt _ _)) by lia. rewrite xorb_true_l. do 2 f_equal. apply bool_decide_ext. split; [by apply same_index|by intros ->].
  - rewrite bool_decide_false by congruence. by rewrite andb_true_r.
Qed.

Lemma set_bit_ok j bm :
  bitmap_ok bm -> j < bm_size bm -> exists bm', SetBit j bm = Ok bm' /\ bitmap_ok bm' /\ bm_size bm' = bm_size bm /\ forall i, bit bm' i = bool_decide (i = j) || bit bm i.
Proof.
  intros [Hl Ha] Hj. destruct bm as [s l]. simpl in *. assert (Hw : is_Some (l !! (j / 64))) by (apply lookup_lt_is_Some; rewrite Hl; by apply word_below). destruct Hw as [w Hw].
  unfold SetBit, at_, write. simpl bm_size. simpl bm_bits. unfold kBitsEachValue. rewrite (proj2 (Nat.ltb_lt _ _)) by done. rewrite Hw. cbn [mbind outcome_bind]. rewrite decide_True by (by apply lookup_lt_Some in Hw). cbn [mbind outcome_bind].
  eexists. split; [done|]. assert (Hb : forall i, bit (MkBitmap s (<[j / 64 := Z.lor w (bit_mask j)]> l)) i = bool_decide (i = j) || bit (MkBitmap s l) i).
  { intros i. rewrite (bit_write s l j w (fun w => Z.lor w (bit_mask j)) i Hw). destruct (decide (i / 64 = j / 64)) as [E|E].
    - assert (Hi : l !! (i / 64) = Some w) by (by rewrite E). rewrite (bit_get s l i w Hi), Z.lor_spec, mask_bits, orb_comm. f_equal. apply bool_decide_ext. split; [by apply same_index|by intros ->].
    - by rewrite bool_decide_false by congruence. }
  split_and!; [split|done|done]; simpl; [by rewrite length_insert|]. intros i Hi. rewrite Hb, Ha by done. rewrite bool_decide_false by lia. done.
Qed.

Lemma get_bit_ok j bm : bitmap_ok bm -> GetBit j bm = Ok (bit bm j).
Proof.
  intros [Hl Ha]. unfold GetBit. destruct (Nat.ltb_spec j (bm_size bm)) as [Hj|Hj]; [|by rewrite Ha]. unfold at_, kBitsEachValue.
  assert (Hw : is_Some (bm_bits bm !! (j / 64))) by (apply lookup_lt_is_Some; rewrite Hl; by apply word_below). destruct Hw as [w Hw]. rewrite Hw. cbn [mbind outcome_bind]. f_equal. unfold bit. rewrite Hw. cbn [default].
  set (k := Z.of_nat (j mod 64)). destruct (Z.eqb_spec (Z.land w (bit_mask j)) 0) as [E|E]; simpl.
  - pose proof (f_equal (fun x => Z.testbit x k) E) as H. simpl in H. unfold k in *. rewrite Z.land_spec, mask_bits, bool_decide_true, andb_true_r, Z.bits_0 in H by done. done.
  - symmetry. apply not_false_iff_true. intros Hf. apply E. apply Z.bits_inj'. intros i Hi. rewrite Z.land_spec, Z.bits_0. unfold bit_mask, kBitsEachValue. rewrite Z.shiftl_1_l, Z.pow2_bits_eqb by lia.
    destruct (Z.eqb_spec (Z.of_nat (j mod 64)) i) as [<-|_]; [by fold k; rewrite Hf|by rewrite andb_false_r].
Qed.

Lemma or_ok a b : bitmap_ok a -> bitmap_ok b -> bm_size b <= bm_size a -> bitmap_ok (Or b a) /\ bm_size (Or b a) = bm_size a /\ forall i, bit (Or b a) i = bit a i || bit b i.
Proof.
  intros [La Ha] [Lb Hb] Hs. assert (H : forall i, bit (Or b a) i = bit a i || bit b i).
  { intros i. unfold bit, Or, combine. cbn [bm_bits]. rewrite list_lookup_imap. destruct (bm_bits a !! (i / 64)) as [w|] eqn:Ew; simpl.
    - destruct (bm_bits b !! (i / 64)) as [v|]; simpl; [by rewrite Z.lor_spec|by rewrite Z.bits_0, orb_false_r].
    - rewrite Z.bits_0. symmetry. assert (Hn : bm_size a <= i). { apply lookup_ge_None in Ew. rewrite La in Ew. apply Nat.nlt_ge. intros Hlt%word_below. lia. }
      apply Hb. lia. }
  split_and!; [split|done|done]; [unfold Or, combine; simpl; by rewrite length_imap|]. intros i Hi. rewrite H, Ha, Hb; [done|simpl in Hi; lia|done].
Qed.

Lemma clear_values_ok bm : bitmap_ok bm -> bitmap_ok (SetValues 0 bm) /\ bm_size (SetValues 0 bm) = bm_size bm /\ forall i, bit (SetValues 0 bm) i = false.
Proof.
  intros [Hl _]. assert (H : forall i, bit (SetValues 0 bm) i = false).
  { intros i. unfold bit. cbn [bm_bits SetValues]. rewrite list_lookup_fmap. destruct (bm_bits bm !! (i / 64)); simpl; apply Z.bits_0. }
  split_and!; [split|done|done]; [simpl; by rewrite length_fmap|auto].
Qed.

(** [ResizeBits] stays inside the words, keeps the set and raises its bound. *)
Lemma clear_range_ok (l : list nat) bm :
  (forall j, j ∈ l -> j / 64 < length (bm_bits bm)) ->
  exists bm', foldM ClearBit l bm = Ok bm' /\ bm_size bm' = bm_size bm /\ length (bm_bits bm') = length (bm_bits bm) /\ forall i, bit bm' i = bit bm i && negb (bool_decide (i ∈ l)).
Proof.
  revert bm. induction l as [|j l IH]; intros bm Hl; cbn [foldM].
  - exists bm. split_and!; [done..|]. intros i. rewrite bool_decide_false by apply not_elem_of_nil. by rewrite andb_true_r.
  - destruct (clear_bit_ok j bm) as (bm1 & E1 & Hs1 & Hl1 & Hb1); [apply Hl; left|]. rewrite E1. simpl.
    destruct (IH bm1) as (bm2 & E2 & Hs2 & Hl2 & Hb2); [intros k Hk; rewrite Hl1; apply Hl; by right|]. exists bm2. split_and!; [done|congruence..|]. intros i. rewrite Hb2, Hb1, <- andb_assoc. f_equal.
    rewrite <- negb_orb. f_equal. apply eq_bool_prop_intro. rewrite orb_True, !bool_decide_spec, elem_of_cons. tauto.
Qed.

Lemma resize_ok n bm :
  bitmap_ok bm -> bm_size bm <= n -> exists bm', ResizeBits n bm = Ok bm' /\ bitmap_ok bm' /\ bm_size bm' = n /\ forall i, bit bm' i = bit bm i.
Proof.
  intros [Hl Ha] Hn. unfold ResizeBits. rewrite (proj2 (Nat.ltb_ge _ _)) by done. destruct (Nat.eqb_spec (AlignArraySize n) (AlignArraySize (bm_size bm))) as [E|E].
  - eexists. split; [done|]. split_and!; [split|done|done]; simpl; [congruence|]. intros i Hi. apply Ha. lia.
  - assert (Hlt : length (bm_bits bm) < AlignArraySize n).
    { rewrite Hl. rewrite !align_size in *. pose proof (Nat.Div0.div_le_mono (bm_size bm + 63) (n + 63) 64 ltac:(lia)). lia. }
    rewrite take_ge by lia. set (bits := bm_bits bm ++ replicate (AlignArraySize n - length (bm_bits bm)) 0%Z).
    assert (Hb : forall i, bit (MkBitmap (bm_size bm) bits) i = bit bm i).
    { intros i. unfold bit, bits. cbn [bm_bits]. rewrite lookup_app. destruct (bm_bits bm !! (i / 64)) as [w|]; [done|]. destruct (replicate _ _ !! _) as [w|] eqn:Ew; [|done].
      apply lookup_replicate in Ew as [-> _]. done. }
    assert (Hlen : length bits = AlignArraySize n) by (unfold bits; rewrite length_app, length_replicate; lia).
    destruct (clear_range_ok (seq (bm_size bm) (AlignBitSize (bm_size bm) - bm_size bm)) (MkBitmap (bm_size bm) bits)) as (bm' & E' & _ & Hl' & Hb').
    + intros j Hj%elem_of_seq. simpl. rewrite Hlen. unfold AlignBitSize, kBitsEachValue in Hj. apply Nat.le_lt_trans with (length (bm_bits bm)); [|done]. rewrite Hl, align_size.
      apply Nat.Div0.div_le_mono. lia.
    + rewrite E'. cbn [mbind outcome_bind]. eexists. split; [done|].
      assert (Hfin : forall i, bit (MkBitmap n (bm_bits bm')) i = bit bm i).
      { intros i. change (bit bm' i = bit bm i). rewrite Hb', Hb. destruct (decide (i < bm_size bm)) as [Hi|Hi]; [|rewrite Ha by lia; done].
        rewrite bool_decide_false by (rewrite elem_of_seq; lia). by rewrite andb_true_r. }
      split_and!; [split|done|done]; simpl; [rewrite Hl'; exact Hlen|]. intros i Hi. rewrite Hfin. apply Ha. lia.
Qed.
