(* ===== verification/GraphConnect.v ===== *)
(** * GraphConnect: which nodes reach which, and cycles made by fusing nodes

    [graph_metadef/graph/utils/connection_matrix.cc] keeps for every node the set
    of nodes that reach it; [graph_metadef/graph/utils/cycle_detector.cc] uses it
    to tell whether fusing a group of nodes makes a cycle. *)

From stdpp Require Import strings.
From S2P Require Import Prelude ExecTopo GraphBitmap.

#[local] Open Scope nat_scope.

(** What is asked of a graph: its nodes in order, their names and neighbours. *)
Record ComputeGraph := MkCompute {
  cg_id : nat;
  GetDirectNode : list nat;
  node_name : nat -> string;
  GetInAllNodes : nat -> list nat;
  GetOutAllNodes : nat -> list nat;
}.

(** ** ConnectionMatrixImpl *)

(** [graph_]: the graph [lock] returns. *)
Record ConnectionMatrixImpl := MkMatrix {
  cm_size : nat;
  cm_used : nat;
  bit_maps_ : list LargeBitmap;
  name_to_index_ : gmap string nat;
  graph_ : option nat;
}.

Definition expand_step_ : nat := 64.

Definition set_bit_maps (f : list LargeBitmap) (m : ConnectionMatrixImpl) : ConnectionMatrixImpl := MkMatrix (cm_size m) (cm_used m) f (name_to_index_ m) (graph_ m).

Definition ConnectionMatrixImpl_new (graph : ComputeGraph) : ConnectionMatrixImpl :=
  let size := length (GetDirectNode graph) in
  MkMatrix size size (replicate size (LargeBitmap_new size))
    (foldl (fun names '(index, node) => <[node_name graph node := index]> names) ∅ (imap pair (GetDirectNode graph))) (Some (cg_id graph)).

(** 0 when the name is not known. *)
Definition GetIndex (op_name : string) (m : ConnectionMatrixImpl) : nat := default 0 (name_to_index_ m !! op_name).

Definition GetBitMap (index : nat) (m : ConnectionMatrixImpl) : outcome LargeBitmap := at_ (bit_maps_ m) index.
Definition put_bit_map (index : nat) (bm : LargeBitmap) (m : ConnectionMatrixImpl) : outcome ConnectionMatrixImpl :=
  maps ← write (bit_maps_ m) index bm; Ok (set_bit_maps maps m).

Definition IsConnected (a b : string) (m : ConnectionMatrixImpl) : outcome bool := bm ← GetBitMap (GetIndex b m) m; GetBit (GetIndex a m) bm.

(** The maps of all of [names] joined to [bm]. *)
Definition or_all (names : list string) (m : ConnectionMatrixImpl) (bm : LargeBitmap) : outcome LargeBitmap :=
  foldM (fun name bm => another ← GetBitMap (GetIndex name m) m; Ok (Or another bm)) names bm.

Section graph.
Context (graph : ComputeGraph).

Definition SetConnectivity (inputs : list nat) (node : nat) (m : ConnectionMatrixImpl) : outcome ConnectionMatrixImpl :=
  let index := GetIndex (node_name graph node) m in
  bitmap ← GetBitMap index m;
  let bitmap := if bool_decide (node ∈ inputs) then bitmap else SetValues 0 bitmap in
  bitmap ← SetBit index bitmap;
  m ← put_bit_map index bitmap m;
  foldM (fun input m =>
    if bool_decide (input <> node) then
      another ← GetBitMap (GetIndex (node_name graph input) m) m;
      bitmap ← GetBitMap index m;
      put_bit_map index (Or another bitmap) m
    else Ok m) inputs m.

Definition Generate (m : ConnectionMatrixImpl) : outcome ConnectionMatrixImpl :=
  let m := MkMatrix (cm_size m) (cm_used m) (bit_maps_ m) (name_to_index_ m) (match graph_ m with None => Some (cg_id graph) | g => g end) in
  foldM (fun node m => SetConnectivity (GetInAllNodes graph node) node m) (GetDirectNode graph) m.

(** Whether some of [indexes] is in the map. *)
Definition has_any (indexes : list nat) (bm : LargeBitmap) : outcome bool :=
  foldM (fun index found => if (found : bool) then Ok true else GetBit index bm) indexes false.

Definition Update (fusion_nodes : list nat) (m : ConnectionMatrixImpl) : outcome ConnectionMatrixImpl :=
  match graph_ m with
  | None => Ok m
  | Some g =>
      if negb (g =? cg_id graph) then Ok m else
      let names := node_name graph <$> fusion_nodes in
      new_bit_vector ← or_all names m (SetValues 0 (LargeBitmap_new (length (GetDirectNode graph))));
      foldM (fun node m =>
        let index := GetIndex (node_name graph node) m in
        bm ← GetBitMap index m;
        is_connected_to_fusion ← has_any ((fun name => GetIndex name m) <$> names) bm;
        if (is_connected_to_fusion : bool) then put_bit_map index (Or new_bit_vector bm) m else Ok m) (GetDirectNode graph) m
  end.
End graph.

(** The maps, made larger when one more node would fill them. *)
Definition grow (m : ConnectionMatrixImpl) : outcome (nat * list LargeBitmap) :=
  if cm_size m <=? cm_used m + 1 then
    let new_size := cm_size m + expand_step_ in
    maps ← foldM (fun bm maps => bm ← ResizeBits new_size bm; Ok (maps ++ [bm])) (bit_maps_ m) [];
    let maps := take new_size maps ++ replicate (new_size - length maps) (LargeBitmap_new new_size) in
    maps ← foldM (fun i maps => bm ← at_ maps i; write maps i (SetValues 0 bm)) (seq (cm_used m) (new_size - cm_used m)) maps;
    Ok (new_size, maps)
  else Ok (cm_size m, bit_maps_ m).

Definition AddNode (op_name : string) (m : ConnectionMatrixImpl) : outcome (nat * ConnectionMatrixImpl) :=
  '(size, maps) ← grow m;
  let new_index := cm_used m in
  Ok (new_index, MkMatrix size (cm_used m + 1) maps (<[op_name := new_index]> (name_to_index_ m)) (graph_ m)).

(** The map of the new node is read again at every step: it is one of the maps. *)
Definition ExpandAndUpdate (fusion_nodes : list string) (op_name : string) (m : ConnectionMatrixImpl) : outcome ConnectionMatrixImpl :=
  '(new_index, m) ← AddNode op_name m;
  bm ← GetBitMap new_index m;
  bm ← SetBit new_index bm;
  m ← put_bit_map new_index bm m;
  m ← foldM (fun name m => another ← GetBitMap (GetIndex name m) m; bm ← GetBitMap new_index m; put_bit_map new_index (Or another bm) m) fusion_nodes m;
  let fusion_indexs := (fun name => GetIndex name m) <$> fusion_nodes in
  foldM (fun i m =>
    node_map ← GetBitMap i m;
    found ← has_any fusion_indexs node_map;
    if (found : bool) then new_bit_vector ← GetBitMap new_index m; put_bit_map i (Or new_bit_vector node_map) m else Ok m) (seq 0 (cm_used m)) m.

(** ** CycleDetector *)

Section detector.
Context (graph : ComputeGraph) (connectivity : ConnectionMatrixImpl).

(** Loops that return at the first [true]. *)
Definition anyM {A} (f : A -> outcome bool) (l : list A) : outcome bool := foldM (fun x found => if (found : bool) then Ok true else f x) l false.

Definition CheckEachPeerOut (node : nat) (scope_nodes : list (option nat)) : outcome bool :=
  anyM (fun peer_out =>
    if bool_decide (Some peer_out ∈ scope_nodes) then Ok false else
    anyM (fun node_temp =>
      match node_temp with
      | None => Ok false
      | Some node_temp => if node_temp =? node then Ok false else IsConnected (node_name graph peer_out) (node_name graph node_temp) connectivity
      end) scope_nodes) (GetOutAllNodes graph node).

Definition DetectOneScope (scope_nodes : list (option nat)) : outcome bool :=
  anyM (fun node => match node with None => Ok false | Some node => CheckEachPeerOut node scope_nodes end) scope_nodes.

Definition HasDetectedCycle (fusion_nodes : list (list (option nat))) : outcome bool := anyM DetectOneScope fusion_nodes.
End detector.

(** [connectivity_]; [Init] makes and fills the matrix once. *)
Definition Init (graph : ComputeGraph) (connectivity : option ConnectionMatrixImpl) : outcome ConnectionMatrixImpl :=
  match connectivity with Some m => Ok m | None => Generate graph (ConnectionMatrixImpl_new graph) end.
