(* ===== verification/GraphConnectSound.v ===== *)
(** * GraphConnectSound: the matrix is reachability, detection is exact

    On a sorted graph the matrix holds the paths of the graph; updating it for a
    fused group gives the paths of the graph with the group joined; and the
    detector reports a group exactly when fusing it makes a cycle. *)

From stdpp Require Import strings relations.
From S2P Require Import Prelude ExecTopo ExecTopoSound GraphBitmap GraphConnect.

#[local] Open Scope nat_scope.

(** ** The matrix *)

Abbreviation idx m a := (name_to_index_ m !! a).

Record matrix_ok (m : ConnectionMatrixImpl) : Prop := {
  mo_len : length (bit_maps_ m) = cm_size m;
  mo_rows i bm : bit_maps_ m !! i = Some bm -> bitmap_ok bm /\ bm_size bm = cm_size m;
  mo_used : cm_used m <= cm_size m;
  mo_index a i : idx m a = Some i -> i < cm_used m;
  mo_inj a b i : idx m a = Some i -> idx m b = Some i -> a = b;
  mo_free j bm i : cm_used m <= j -> bit_maps_ m !! j = Some bm -> bit bm i = false;
}.

(** Only the maps differ. *)
Definition frame (m m' : ConnectionMatrixImpl) : Prop :=
  cm_size m' = cm_size m /\ cm_used m' = cm_used m /\ name_to_index_ m' = name_to_index_ m /\ graph_ m' = graph_ m.

Lemma frame_refl m : frame m m.
Proof. done. Qed.
Lemma frame_trans m1 m2 m3 : frame m1 m2 -> frame m2 m3 -> frame m1 m3.
Proof. intros (? & ? & ? & ?) (? & ? & ? & ?). repeat split; congruence. Qed.
Lemma frame_index a m m' : frame m m' -> GetIndex a m' = GetIndex a m.
Proof. intros (_ & _ & E & _). unfold GetIndex. by rewrite E. Qed.

(** Row [j] of the matrix, as a set of indices. *)
Definition row (m : ConnectionMatrixImpl) (j i : nat) : Prop := exists bm, bit_maps_ m !! j = Some bm /\ bit bm i = true.

Definition represents (m : ConnectionMatrixImpl) (R : string -> string -> Prop) : Prop :=
  forall b j, idx m b = Some j -> forall i, row m j i <-> exists a, idx m a = Some i /\ R a b.

Lemma get_index m a i : idx m a = Some i -> GetIndex a m = i.
Proof. unfold GetIndex. by intros ->. Qed.

Lemma get_row m j : matrix_ok m -> j < cm_used m -> exists bm, GetBitMap j m = Ok bm /\ bit_maps_ m !! j = Some bm /\ bitmap_ok bm /\ bm_size bm = cm_size m /\ forall i, row m j i <-> bit bm i = true.
Proof.
  intros Hm Hj. destruct (lookup_lt_is_Some_2 (bit_maps_ m) j) as [bm Hbm]; [rewrite (mo_len _ Hm); pose proof (mo_used _ Hm); lia|]. exists bm. unfold GetBitMap, at_. rewrite Hbm.
  destruct (mo_rows _ Hm j bm Hbm). split_and!; [done..|]. intros i. unfold row. rewrite Hbm. split; [by intros (? & [= <-] & ?)|]. intros ?. by exists bm.
Qed.

Lemma put_row m j bm :
  matrix_ok m -> j < cm_used m -> bitmap_ok bm -> bm_size bm = cm_size m ->
  exists m', put_bit_map j bm m = Ok m' /\ matrix_ok m' /\ frame m m' /\ (forall i, row m' j i <-> bit bm i = true) /\ forall k i, k <> j -> row m' k i <-> row m k i.
Proof.
  intros Hm Hj Hbm Hs. assert (Hlt : j < length (bit_maps_ m)) by (rewrite (mo_len _ Hm); pose proof (mo_used _ Hm); lia). unfold put_bit_map, write. rewrite decide_True by done.
  cbn [mbind outcome_bind]. eexists. split; [done|]. unfold row. simpl. split; [|split; [done|split]].
  - destruct Hm as [H1 H2 H3 H4 H5 H6]. split; simpl; [by rewrite length_insert| |done|done|done|].
    + intros i b Hi. destruct (decide (i = j)) as [->|Hne]; [rewrite list_lookup_insert_eq in Hi by done; by injection Hi as <-|]. rewrite list_lookup_insert_ne in Hi by done. by eapply H2.
    + intros i b k Hi. rewrite list_lookup_insert_ne by lia. by apply H6.
  - intros i. rewrite list_lookup_insert_eq by done. split; [by intros (? & [= <-] & ?)|]. intros ?. by exists bm.
  - intros k i Hk. by rewrite list_lookup_insert_ne.
Qed.

Lemma connected_ok m R a b :
  matrix_ok m -> represents m R -> is_Some (idx m a) -> is_Some (idx m b) -> exists v, IsConnected a b m = Ok v /\ (v = true <-> R a b).
Proof.
  intros Hm HR [i Hi] [j Hj]. unfold IsConnected. rewrite (get_index m b j Hj), (get_index m a i Hi). destruct (get_row m j Hm) as (bm & E & _ & Hok & _ & Hrow); [by eapply mo_index|].
  rewrite E. cbn [mbind outcome_bind]. rewrite get_bit_ok by done. eexists. split; [done|]. rewrite <- Hrow, (HR b j Hj). split; [|intros ?; by exists a].
  intros (a' & Ha' & Hab). by rewrite (mo_inj _ Hm a a' i).
Qed.

(** Joining the rows of some names to row [j]. *)
Lemma or_loop_ok j names m :
  matrix_ok m -> j < cm_used m -> (forall a, a ∈ names -> is_Some (idx m a)) ->
  exists m', foldM (fun name m => another ← GetBitMap (GetIndex name m) m; bm ← GetBitMap j m; put_bit_map j (Or another bm) m) names m = Ok m' /\ matrix_ok m' /\ frame m m' /\
    (forall i, row m' j i <-> row m j i \/ exists a k, a ∈ names /\ idx m a = Some k /\ row m k i) /\ forall k i, k <> j -> row m' k i <-> row m k i.
Proof.
  revert m. induction names as [|a names IH]; intros m Hm Hj Hn; cbn [foldM].
  - exists m. split_and!; [done|done|apply frame_refl| |done]. intros i. split; [by left|]. intros [?|(a & k & ?%not_elem_of_nil & _)]; done.
  - destruct (Hn a ltac:(left)) as [k Hk]. rewrite (get_index m a k Hk). destruct (get_row m k Hm) as (another & E1 & _ & O1 & S1 & R1); [by eapply mo_index|].
    destruct (get_row m j Hm Hj) as (bm & E2 & _ & O2 & S2 & R2). rewrite E1. cbn [mbind outcome_bind]. rewrite E2. cbn [mbind outcome_bind].
    destruct (or_ok bm another O2 O1 ltac:(lia)) as (O3 & S3 & B3). destruct (put_row m j (Or another bm) Hm Hj O3 ltac:(congruence)) as (m1 & E3 & Hm1 & Hf1 & Hj1 & Ho1).
    rewrite E3. cbn [mbind outcome_bind]. pose proof Hf1 as (F1 & F2 & F3 & F4).
    destruct (IH m1 Hm1) as (m' & E' & Hm' & Hf' & Hj' & Ho'); [lia|intros b Hb; rewrite F3; apply Hn; by right|]. exists m'. split_and!; [done|done|by eapply frame_trans| |].
    + assert (Hj1' : forall i, row m1 j i <-> row m j i \/ row m k i) by (intros i; by rewrite Hj1, B3, orb_true_iff, R2, R1).
      assert (Hany : forall k' i, row m1 k' i -> row m k' i \/ row m j i \/ row m k i).
      { intros k' i. destruct (decide (k' = j)) as [->|Hne]; [rewrite Hj1'; tauto|]. rewrite Ho1 by done. tauto. }
      assert (Hmon : forall k' i, row m k' i -> row m1 k' i).
      { intros k' i Hr. destruct (decide (k' = j)) as [->|Hne]; [apply Hj1'; by left|]. by apply Ho1. }
      intros i. rewrite Hj', Hj1'. setoid_rewrite elem_of_cons. rewrite F3. split.
      * intros [[?|?]|(b & k' & ? & ? & [?|[?|?]]%Hany)]; [by left|right; exists a, k; tauto|right; exists b, k'; tauto|by left|right; exists a, k; tauto].
      * intros [?|(b & k' & [->|Hb] & Hk' & Hr)]; [tauto|left; right; congruence|]. right. exists b, k'. split_and!; [done..|by apply Hmon].
    + intros k' i Hk'. rewrite Ho', Ho1 by done. done.
Qed.

(** ** Generating it *)

Lemma foldM_ext {S A} (f g : A -> S -> outcome S) l s : (forall x s, x ∈ l -> f x s = g x s) -> foldM f l s = foldM g l s.
Proof.
  revert s. induction l as [|x l IH]; intros s H; cbn [foldM]; [done|]. rewrite H by left. destruct (g x s); [|done..]. cbn [mbind outcome_bind]. apply IH. intros y ? Hy. apply H. by right.
Qed.

Lemma foldM_fmap {S A B} (h : B -> A) (f : A -> S -> outcome S) l s : foldM f (h <$> l) s = foldM (fun x => f (h x)) l s.
Proof. revert s. induction l as [|x l IH]; intros s; cbn; [done|]. destruct (f (h x) s); [apply IH|done..]. Qed.

Lemma foldM_app {S A} (f : A -> S -> outcome S) l1 l2 s : foldM f (l1 ++ l2) s = (s ← foldM f l1 s; foldM f l2 s).
Proof. revert s. induction l1 as [|x l1 IH]; intros s; cbn; [done|]. destruct (f x s); [apply IH|done..]. Qed.

Section graph.
Context (g : ComputeGraph).
Abbreviation nodes := (GetDirectNode g).
Abbreviation name := (node_name g).

(** Nodes after their inputs, and names that tell them apart. *)
Record sorted_graph : Prop := {
  sg_names : NoDup (name <$> nodes);
  sg_sorted i n m : nodes !! i = Some n -> m ∈ GetInAllNodes g n -> exists j, j < i /\ nodes !! j = Some m;
}.

Definition edge (a b : nat) : Prop := b ∈ nodes /\ a ∈ GetInAllNodes g b.
Definition name_edge (x y : string) : Prop := exists a b, edge a b /\ x = name a /\ y = name b.

(** The matrix knows exactly the nodes of the graph. *)
Record matrix_of (m : ConnectionMatrixImpl) : Prop := {
  mg_ok : matrix_ok m;
  mg_dom a : is_Some (idx m a) <-> exists n, n ∈ nodes /\ a = name n;
  mg_size : cm_size m = length nodes;
}.

Lemma frame_of m m' : matrix_ok m' -> frame m m' -> matrix_of m -> matrix_of m'.
Proof. intros H (E1 & _ & E & _) [_ H2 H3]. split; [done|by setoid_rewrite E|congruence]. Qed.

Context (Hg : sorted_graph).

Lemma name_inj a b : a ∈ nodes -> b ∈ nodes -> name a = name b -> a = b.
Proof.
  intros [i Hi]%list_elem_of_lookup [j Hj]%list_elem_of_lookup E. assert (i = j) as <-; [|congruence].
  eapply (NoDup_lookup _ i j _ (sg_names Hg)); rewrite list_lookup_fmap; [by rewrite Hi|by rewrite Hj, E].
Qed.

Lemma edge_nodes a b : edge a b -> a ∈ nodes /\ b ∈ nodes.
Proof. intros [Hb Ha]. split; [|done]. apply list_elem_of_lookup in Hb as [i Hi]. destruct (sg_sorted Hg i b a Hi Ha) as (j & _ & Hj). by eapply list_elem_of_lookup_2. Qed.

Lemma edge_irrefl a : ~ edge a a.
Proof.
  intros [[i Hi]%list_elem_of_lookup Ha]. destruct (sg_sorted Hg i a a Hi Ha) as (j & Hlt & Hj). assert (j = i); [|lia].
  eapply (NoDup_lookup _ j i (name a) (sg_names Hg)); rewrite list_lookup_fmap; [by rewrite Hj|by rewrite Hi].
Qed.

(** The last step of a path. *)
Lemma path_last x n : n ∈ nodes -> rtc name_edge x (name n) <-> x = name n \/ exists a, a ∈ GetInAllNodes g n /\ rtc name_edge x (name a).
Proof.
  intros Hn. split.
  - intros H. apply rtc_inv_r in H as [<-|(y & Hxy & (a & b & Hab & -> & E))]; [by left|]. right. exists a. split; [|done].
    destruct (edge_nodes a b Hab) as [_ Hb]. apply name_inj in E as <-; [by destruct Hab|done..].
  - intros [->|(a & Ha & Hxa)]; [done|]. eapply rtc_r; [exact Hxa|]. by exists a, n.
Qed.

Lemma connectivity_ok m n :
  matrix_of m -> n ∈ nodes -> exists m' j, SetConnectivity g (GetInAllNodes g n) n m = Ok m' /\ matrix_of m' /\ frame m m' /\ idx m (name n) = Some j /\
    (forall i, row m' j i <-> i = j \/ exists a k, a ∈ GetInAllNodes g n /\ idx m (name a) = Some k /\ row m k i) /\ forall k i, k <> j -> row m' k i <-> row m k i.
Proof.
  intros Hmg Hn. pose proof (mg_ok _ Hmg) as Hm. destruct (proj2 (mg_dom _ Hmg (name n)) ltac:(by exists n)) as [j Hj].
  assert (Hself : forall a, a ∈ GetInAllNodes g n -> a <> n) by (intros a Ha ->; by apply (edge_irrefl n)).
  assert (Hin : forall a, a ∈ GetInAllNodes g n -> exists k, idx m (name a) = Some k /\ k <> j).
  { intros a Ha. destruct (edge_nodes a n) as [Han _]; [done|]. destruct (proj2 (mg_dom _ Hmg (name a)) ltac:(by exists a)) as [k Hk]. exists k. split; [done|]. intros ->.
    apply (Hself a Ha). apply name_inj; [done..|]. by eapply (mo_inj _ Hm). }
  assert (Hlt : j < cm_used m) by (by eapply mo_index). destruct (get_row m j Hm Hlt) as (bm & E & _ & Ob & Sb & _). unfold SetConnectivity. rewrite (get_index m _ j Hj), E. cbn [mbind outcome_bind].
  rewrite bool_decide_false by (intros Ha; by apply (Hself n Ha)). destruct (clear_values_ok bm Ob) as (O1 & S1 & B1). pose proof (mo_used _ Hm) as Hu.
  destruct (set_bit_ok j (SetValues 0 bm) O1 ltac:(lia)) as (bm2 & E2 & O2 & S2 & B2). rewrite E2. cbn [mbind outcome_bind].
  destruct (put_row m j bm2 Hm Hlt O2 ltac:(congruence)) as (m1 & E3 & Hm1 & Hf1 & Hj1 & Ho1). rewrite E3. cbn [mbind outcome_bind]. pose proof Hf1 as (F1 & F2 & F3 & F4).
  destruct (or_loop_ok j (name <$> GetInAllNodes g n) m1 Hm1) as (m' & E' & Hm' & Hf' & Hj' & Ho').
  { lia. } { intros x (a & -> & Ha)%list_elem_of_fmap. rewrite F3. destruct (Hin a Ha) as (k & Hk & _). by eexists. }
  exists m', j. rewrite foldM_fmap in E'. split; [|split; [apply (frame_of m); [done|by eapply frame_trans|done]|split; [by eapply frame_trans|split; [done|split]]]].
  - rewrite <- E'. apply foldM_ext. intros a s Ha. rewrite bool_decide_true by (by apply Hself). done.
  - intros i. rewrite Hj', Hj1, B2, B1, orb_false_r, bool_decide_eq_true, F3. split; (intros [?|H]; [by left|right]).
    + destruct H as (x & k & (a & -> & Ha)%list_elem_of_fmap & Hk & Hr). exists a, k. split_and!; [done..|]. destruct (Hin a Ha) as (k' & Hk' & Hne). apply Ho1; [congruence|done].
    + destruct H as (a & k & Ha & Hk & Hr). exists (name a), k. split_and!; [apply list_elem_of_fmap; by exists a|done|]. destruct (Hin a Ha) as (k' & Hk' & Hne). apply Ho1; [congruence|done].
  - intros k i Hk. rewrite Ho', Ho1 by done. done.
Qed.

Lemma generate_loop pre suf m :
  nodes = pre ++ suf -> matrix_of m -> (forall n j, n ∈ pre -> idx m (name n) = Some j -> forall i, row m j i <-> exists x, idx m x = Some i /\ rtc name_edge x (name n)) ->
  exists m', foldM (fun node m => SetConnectivity g (GetInAllNodes g node) node m) suf m = Ok m' /\ matrix_of m' /\ frame m m' /\ represents m' (rtc name_edge).
Proof.
  revert pre m. induction suf as [|n suf IH]; intros pre m Hall Hm Hpre; cbn [foldM].
  - exists m. split_and!; [done|done|apply frame_refl|]. intros b j Hj i. destruct (proj1 (mg_dom _ Hm b) ltac:(by eexists)) as (n & Hn & ->). rewrite Hall, app_nil_r in Hn. by apply Hpre.
  - assert (Hi : nodes !! length pre = Some n) by (rewrite Hall; by apply list_lookup_middle). assert (Hn : n ∈ nodes) by (by eapply list_elem_of_lookup_2).
    destruct (connectivity_ok m n Hm Hn) as (m1 & j & E1 & Hm1 & Hf1 & Hj & Hrow & Hoth). rewrite E1. cbn [mbind outcome_bind]. pose proof Hf1 as (_ & _ & F3 & _).
    assert (Hinput : forall a, a ∈ GetInAllNodes g n -> a ∈ pre).
    { intros a Ha. destruct (sg_sorted Hg _ _ a Hi Ha) as (k & Hk & Hka). rewrite Hall, lookup_app_l in Hka by done. by eapply list_elem_of_lookup_2. }
    assert (Hpn : forall b, b ∈ pre -> idx m (name b) <> Some j).
    { intros b Hb E. assert (name b = name n) as Hbn by (by eapply (mo_inj _ (mg_ok _ Hm))). apply name_inj in Hbn as ->; [|rewrite Hall; apply elem_of_app; by left|done].
      pose proof (sg_names Hg) as Hnd. rewrite Hall, fmap_app, fmap_cons in Hnd. apply NoDup_app in Hnd as (_ & Hnd & _). eapply (Hnd (name n)); [apply list_elem_of_fmap; by exists n|left]. }
    destruct (IH (pre ++ [n]) m1) as (m' & E' & Hm' & Hf' & Hr').
    + by rewrite <- app_assoc.
    + done.
    + intros b k [Hb| ->%list_elem_of_singleton]%elem_of_app Hk i; rewrite F3 in *.
      * rewrite Hoth by (intros ->; by apply (Hpn b Hb)). by apply Hpre.
      * rewrite Hj in Hk. injection Hk as <-. rewrite Hrow. split.
        -- intros [->|(a & k & Ha & Hk & Hr)]; [by exists (name n)|]. apply (Hpre a k (Hinput a Ha) Hk) in Hr as (x & Hx & Hxa). exists x. split; [done|]. apply path_last; [done|]. right. by exists a.
        -- intros (x & Hx & [->|(a & Ha & Hxa)]%path_last); [left; congruence| |done]. right. destruct (proj2 (mg_dom _ Hm (name a))) as [k Hk].
           { exists a. split; [|done]. rewrite Hall. apply elem_of_app. left. by apply Hinput. }
           exists a, k. split_and!; [done..|]. apply (Hpre a k (Hinput a Ha) Hk). by exists x.
    + exists m'. split_and!; [done|done|by eapply frame_trans|done].
Qed.

Lemma new_index l a i :
  NoDup (name <$> l) -> (foldl (fun names '(index, node) => <[name node := index]> names) (∅ : gmap string nat) (imap pair l)) !! a = Some i <-> exists n, l !! i = Some n /\ a = name n.
Proof.
  revert i. induction l as [|x l IH] using rev_ind; intros i Hnd.
  - simpl. rewrite lookup_empty. split; [done|]. by intros (n & ? & _).
  - rewrite imap_app, foldl_app. simpl. rewrite Nat.add_0_r. rewrite fmap_app in Hnd. apply NoDup_app in Hnd as (Hnd & Hdis & _).
    destruct (decide (a = name x)) as [->|Hne].
    + rewrite lookup_insert_eq. split; [intros [= <-]; exists x; split; [by apply list_lookup_middle|done]|]. intros (n & Hn & E).
      destruct (decide (i < length l)) as [Hi|Hi].
      * rewrite lookup_app_l in Hn by done. destruct (Hdis (name x)); [rewrite E; apply list_elem_of_fmap; exists n; split; [done|by eapply list_elem_of_lookup_2]|left].
      * apply lookup_lt_Some in Hn. rewrite length_app in Hn. simpl in Hn. f_equal. lia.
    + rewrite lookup_insert_ne by done. rewrite (IH i Hnd). split; intros (n & Hn & ->).
      * exists n. split; [by apply lookup_app_l_Some|done].
      * exists n. split; [|done]. apply lookup_app_Some in Hn as [Hn|[_ Hn]]; [done|]. destruct (i - length l); simplify_eq/=.
Qed.

Lemma new_matrix_of : matrix_of (ConnectionMatrixImpl_new g).
Proof.
  assert (Hx : forall a i, idx (ConnectionMatrixImpl_new g) a = Some i <-> exists n, nodes !! i = Some n /\ a = name n) by (intros a i; apply new_index, Hg).
  split; [split| |done].
  - simpl. by rewrite length_replicate.
  - simpl. intros i bm [-> _]%lookup_replicate. by split; [apply new_ok|].
  - done.
  - intros a i (n & Hn%lookup_lt_Some & _)%Hx. done.
  - intros a b i (n & Hn & ->)%Hx (n' & Hn' & ->)%Hx. congruence.
  - simpl. intros j bm i Hj [_ ?]%lookup_replicate. lia.
  - intros a. split.
    + intros [i (n & Hn & ->)%Hx]. exists n. split; [by eapply list_elem_of_lookup_2|done].
    + intros (n & [i Hi]%list_elem_of_lookup & ->). exists i. apply Hx. by exists n.
Qed.

(** ** Questions asked of all *)

Lemma anyM_ok {A} (f : A -> outcome bool) (P : A -> Prop) l :
  (forall x, x ∈ l -> exists v, f x = Ok v /\ (v = true <-> P x)) -> exists v, anyM f l = Ok v /\ (v = true <-> exists x, x ∈ l /\ P x).
Proof.
  unfold anyM. assert (Hgen : forall b, (forall x, x ∈ l -> exists v, f x = Ok v /\ (v = true <-> P x)) ->
    exists v, foldM (fun x found => if (found : bool) then Ok true else f x) l b = Ok v /\ (v = true <-> b = true \/ exists x, x ∈ l /\ P x)).
  { induction l as [|x l IH]; intros b Hl; cbn [foldM].
    - exists b. split; [done|]. split; [by left|]. intros [?|(x & ?%not_elem_of_nil & _)]; done.
    - assert (Hl' : forall y, y ∈ l -> exists v, f y = Ok v /\ (v = true <-> P y)) by (intros y Hy; apply Hl; by right). setoid_rewrite elem_of_cons. destruct b; cbn [mbind outcome_bind].
      + destruct (IH true Hl') as (v & E & Hv). exists v. split; [done|]. rewrite Hv. tauto.
      + destruct (Hl x ltac:(left)) as (b & Eb & Hb). rewrite Eb. cbn [mbind outcome_bind]. destruct (IH b Hl') as (v & E & Hv). exists v. split; [done|]. rewrite Hv, Hb. split.
        * intros [?|(y & ? & ?)]; right; [by exists x; tauto|by exists y; tauto].
        * intros [?|(y & [->|?] & ?)]; [done|by left|right; by exists y]. }
  intros Hl. destruct (Hgen false Hl) as (v & E & Hv). exists v. split; [done|]. rewrite Hv. split; [by intros [?|?]|by right].
Qed.

Lemma has_any_ok l bm : bitmap_ok bm -> exists v, has_any l bm = Ok v /\ (v = true <-> exists i, i ∈ l /\ bit bm i = true).
Proof. intros Hb. apply (anyM_ok (fun i => GetBit i bm) (fun i => bit bm i = true)). intros i _. exists (bit bm i). by rewrite get_bit_ok. Qed.

(** ** Updating it for a fused group *)

(** The paths when all of [F] are joined. *)
Definition joined (R : string -> string -> Prop) (F : list string) (x y : string) : Prop := R x y \/ exists f f', f ∈ F /\ f' ∈ F /\ R x f /\ R f' y.

Lemma or_all_ok m names bm :
  matrix_ok m -> bitmap_ok bm -> bm_size bm = cm_size m -> (forall a, a ∈ names -> is_Some (idx m a)) ->
  exists bm', or_all names m bm = Ok bm' /\ bitmap_ok bm' /\ bm_size bm' = cm_size m /\ forall i, bit bm' i = true <-> bit bm i = true \/ exists a k, a ∈ names /\ idx m a = Some k /\ row m k i.
Proof.
  intros Hm. unfold or_all. revert bm. induction names as [|a names IH]; intros bm Hb Hs Hn; cbn [foldM].
  - exists bm. split_and!; [done..|]. intros i. split; [by left|]. intros [?|(a & k & ?%not_elem_of_nil & _)]; done.
  - destruct (Hn a ltac:(left)) as [k Hk]. rewrite (get_index m a k Hk). destruct (get_row m k Hm) as (another & E & _ & Oa & Sa & Ra); [by eapply mo_index|]. rewrite E. cbn [mbind outcome_bind].
    destruct (or_ok bm another Hb Oa ltac:(lia)) as (O1 & S1 & B1). destruct (IH (Or another bm) O1 ltac:(congruence)) as (bm' & E' & O' & S' & B'); [intros b Hin; apply Hn; by right|].
    exists bm'. split_and!; [done..|]. intros i. rewrite B', B1, orb_true_iff, <- Ra. setoid_rewrite elem_of_cons. split.
    + intros [[?|?]|(b & k' & ? & ? & ?)]; [by left|right; exists a, k; tauto|right; exists b, k'; tauto].
    + intros [?|(b & k' & [->|?] & ? & ?)]; [tauto|left; right; congruence|right; by exists b, k'].
Qed.

(** One row of the update: joined with [V] when it has one of the indices. *)
Lemma update_row m j js V :
  matrix_ok m -> j < cm_used m -> bitmap_ok V -> bm_size V = cm_size m ->
  exists m', (bm ← GetBitMap j m; found ← has_any js bm; if (found : bool) then put_bit_map j (Or V bm) m else Ok m) = Ok m' /\ matrix_ok m' /\ frame m m' /\
    (forall i, row m' j i <-> row m j i \/ (bit V i = true /\ exists k, k ∈ js /\ row m j k)) /\ forall k i, k <> j -> row m' k i <-> row m k i.
Proof.
  intros Hm Hj HV HS. destruct (get_row m j Hm Hj) as (bm & E & _ & Ob & Sb & Rb). rewrite E. cbn [mbind outcome_bind]. destruct (has_any_ok js bm Ob) as (v & Ev & Hv). rewrite Ev. cbn [mbind outcome_bind].
  assert (Hv' : v = true <-> exists k, k ∈ js /\ row m j k) by (rewrite Hv; by setoid_rewrite Rb). destruct v.
  - destruct (or_ok bm V Ob HV ltac:(lia)) as (O1 & S1 & B1). destruct (put_row m j (Or V bm) Hm Hj O1 ltac:(congruence)) as (m' & E' & Hm' & Hf & Hr & Ho). exists m'. split_and!; [done..| |done].
    intros i. rewrite Hr, B1, orb_true_iff, Rb. pose proof (proj1 Hv' eq_refl). tauto.
  - exists m. split_and!; [done|done|apply frame_refl| |done]. intros i. split; [by left|]. intros [?|[_ H%Hv']]; done.
Qed.

Section update.
Context (m0 : ConnectionMatrixImpl) (R : string -> string -> Prop) (F : list nat).
Context (Hm0 : matrix_of m0) (HR : represents m0 R) (HF : forall f, f ∈ F -> f ∈ nodes).

Lemma update_loop V pre suf m :
  nodes = pre ++ suf -> matrix_of m -> frame m0 m -> bitmap_ok V -> bm_size V = cm_size m0 ->
  (forall i, bit V i = true <-> exists x f, f ∈ name <$> F /\ idx m0 x = Some i /\ R x f) ->
  (forall n j, n ∈ nodes -> idx m0 (name n) = Some j -> forall i, row m j i <-> exists x, idx m0 x = Some i /\ (R x (name n) \/ (n ∈ pre /\ joined R (name <$> F) x (name n)))) ->
  exists m', foldM (fun node m => let index := GetIndex (name node) m in bm ← GetBitMap index m; is_connected_to_fusion ← has_any ((fun name => GetIndex name m) <$> (name <$> F)) bm;
    if (is_connected_to_fusion : bool) then put_bit_map index (Or V bm) m else Ok m) suf m = Ok m' /\ matrix_of m' /\ frame m0 m' /\ represents m' (joined R (name <$> F)).
Proof.
  intros Hall Hm Hf HV HVs HVb. revert pre m Hall Hm Hf. induction suf as [|n suf IH]; intros pre m Hall Hm Hf Hrows; cbn [foldM].
  - exists m. split_and!; [done..|]. intros b j Hj i. pose proof Hf as (_ & _ & F3 & _). rewrite F3 in *. destruct (proj1 (mg_dom _ Hm0 b) ltac:(by eexists)) as (n & Hn & ->).
    rewrite (Hrows n j Hn Hj). assert (Hpre : n ∈ pre) by (by rewrite Hall, app_nil_r in Hn). unfold joined. split; intros (x & Hx & H); exists x; (split; [done|]); tauto.
  - assert (Hi : nodes !! length pre = Some n) by (rewrite Hall; by apply list_lookup_middle). assert (Hn : n ∈ nodes) by (by eapply list_elem_of_lookup_2).
    destruct (proj2 (mg_dom _ Hm0 (name n)) ltac:(by exists n)) as [j Hj]. pose proof Hf as (F1 & F2 & F3 & F4).
    assert (Hnp : n ∉ pre). { intros Hin. pose proof (NoDup_fmap_1 _ _ (sg_names Hg)) as Hnd. rewrite Hall in Hnd. apply NoDup_app in Hnd as (_ & Hd & _). apply (Hd n Hin). left. }
    destruct (update_row m j ((fun name => GetIndex name m) <$> (name <$> F)) V (mg_ok _ Hm)) as (m1 & E1 & Hm1 & Hf1 & Hr1 & Ho1); [rewrite F2; by eapply (mo_index _ (mg_ok _ Hm0))|done|congruence|].
    cbv zeta. rewrite (frame_index (name n) m0 m Hf), (get_index m0 _ j Hj). rewrite E1. cbn [mbind outcome_bind].
    apply (IH (pre ++ [n])); [by rewrite <- app_assoc|by apply (frame_of m)|by eapply frame_trans|]. intros b k Hb Hk i.
    assert (Hpp : b ∈ pre ++ [n] <-> b ∈ pre \/ b = n) by (by rewrite elem_of_app, list_elem_of_singleton). setoid_rewrite Hpp. clear Hpp.
    destruct (decide (b = n)) as [->|Hbn].
    + rewrite Hj in Hk. injection Hk as <-. rewrite Hr1, !(Hrows n j Hn Hj), HVb.
      assert (Hfound : (exists k, k ∈ (fun name => GetIndex name m) <$> (name <$> F) /\ row m j k) <-> exists f, f ∈ name <$> F /\ R f (name n)).
      { setoid_rewrite list_elem_of_fmap. split.
        - intros (k & (a & -> & (f & -> & Hfin)%list_elem_of_fmap) & Hrow). destruct (proj2 (mg_dom _ Hm0 (name f)) ltac:(exists f; split; [by apply HF|done])) as [kf Hkf].
          rewrite (frame_index _ _ _ Hf), (get_index m0 _ kf Hkf) in Hrow. apply (Hrows n j Hn Hj) in Hrow as (x & Hx & [Hxn|[Hp _]]); [|done].
          assert (x = name f) as -> by (by eapply (mo_inj _ (mg_ok _ Hm0))). exists (name f). split; [by exists f|done].
        - intros (a & (f & -> & Hfin) & Hfn). destruct (proj2 (mg_dom _ Hm0 (name f)) ltac:(exists f; split; [by apply HF|done])) as [kf Hkf]. exists kf. split.
          + exists (name f). split; [by rewrite (frame_index _ _ _ Hf), (get_index m0 _ kf Hkf)|]. apply list_elem_of_fmap. by exists f.
          + apply (Hrows n j Hn Hj). exists (name f). split; [done|by left]. }
      rewrite Hfound. unfold joined. split.
      * intros [(x & Hx & [?|[? _]])|[(x & f & Hfx & Hx & Hxf) (f' & Hf' & Hf'n)]]; [exists x; tauto|done|]. exists x. split; [done|]. right. split; [by right|]. right. by exists f, f'.
      * intros (x & Hx & [?|[_ [?|(f & f' & ? & ? & ? & ?)]]]); [left; exists x; tauto|left; exists x; tauto|]. right. split; [by exists x, f|by exists f'].
    + rewrite Ho1; [|intros ->; apply Hbn, name_inj; [done..|by eapply (mo_inj _ (mg_ok _ Hm0))]]. rewrite (Hrows b k Hb Hk). split; intros (x & Hx & H); exists x; (split; [done|]); tauto.
Qed.

Lemma update_ok : graph_ m0 = Some (cg_id g) -> exists m', Update g F m0 = Ok m' /\ matrix_of m' /\ frame m0 m' /\ represents m' (joined R (name <$> F)).
Proof.
  intros Hgr. unfold Update. rewrite Hgr, Nat.eqb_refl. cbn [negb]. destruct (new_ok (length nodes)) as [O1 B1]. destruct (clear_values_ok _ O1) as (O2 & S2 & B2).
  assert (Hknown : forall a, a ∈ name <$> F -> is_Some (idx m0 a)) by (intros a (f & -> & Hf)%list_elem_of_fmap; apply (mg_dom _ Hm0); exists f; split; [by apply HF|done]).
  destruct (or_all_ok m0 (name <$> F) _ (mg_ok _ Hm0) O2) as (V & EV & OV & SV & BV); [rewrite S2; simpl; symmetry; apply (mg_size _ Hm0)|done|]. rewrite EV. cbn [mbind outcome_bind].
  apply (update_loop V []); [done|done|apply frame_refl|done|done| |].
  - intros i. rewrite BV, B2. split.
    + intros [?|(f & k & Hf & Hk & (x & Hx & Hxf)%(HR f k Hk))]; [done|]. by exists x, f.
    + intros (x & f & Hf & Hx & Hxf). right. destruct (Hknown f Hf) as [k Hk]. exists f, k. split_and!; [done..|]. apply (HR f k Hk). by exists x.
  - intros n j Hn Hj i. rewrite (HR _ j Hj). split; intros (x & Hx & H); exists x; (split; [done|]); [by left|]. destruct H as [?|[?%not_elem_of_nil _]]; done.
Qed.
End update.

(** ** Paths *)

Definition within (E : nat -> nat -> Prop) : Prop := forall a b, E a b -> a ∈ nodes /\ b ∈ nodes.
Definition by_name (E : nat -> nat -> Prop) (x y : string) : Prop := exists a b, E a b /\ x = name a /\ y = name b.

Lemma by_name_paths E a b : within E -> a ∈ nodes -> b ∈ nodes -> rtc (by_name E) (name a) (name b) <-> rtc E a b.
Proof.
  intros HE Ha Hb. split.
  - assert (Hgen : forall x y, rtc (by_name E) x y -> forall a, a ∈ nodes -> x = name a -> exists b, b ∈ nodes /\ y = name b /\ rtc E a b).
    { intros x y Hxy. induction Hxy as [x|x y z (c & d & Hcd & -> & ->) _ IH]; intros a' Ha' E'; [by exists a'|]. destruct (HE c d Hcd) as [Hc Hd]. apply name_inj in E' as ->; [|done..].
      destruct (IH d Hd eq_refl) as (e & He & -> & Hde). exists e. split_and!; [done..|]. by eapply rtc_l. }
    intros H. destruct (Hgen _ _ H a Ha eq_refl) as (b' & Hb' & E' & Hab). by apply name_inj in E' as <-.
  - apply (rtc_congruence name). intros c d Hcd. by exists c, d.
Qed.

Lemma joined_paths (E : nat -> nat -> Prop) F x y :
  joined (rtc (by_name E)) (name <$> F) x y <-> rtc (by_name (fun a b => E a b \/ (a ∈ F /\ b ∈ F))) x y.
Proof.
  assert (Hsub : forall x y, rtc (by_name E) x y -> rtc (by_name (fun a b => E a b \/ (a ∈ F /\ b ∈ F))) x y).
  { intros x' y'. apply (rtc_congruence id). intros ? ? (a & b & ? & -> & ->). exists a, b. tauto. }
  split.
  - intros [H|(f & f' & (n & -> & Hn)%list_elem_of_fmap & (n' & -> & Hn')%list_elem_of_fmap & Hxf & Hfy)]; [by apply Hsub|].
    etrans; [by apply Hsub|]. eapply rtc_l; [|by apply Hsub]. exists n, n'. tauto.
  - intros H. induction H as [x|x y z (a & b & [Hab|[Ha Hb]] & -> & ->) _ IH]; [by left| |].
    + assert (Hone : by_name E (name a) (name b)) by (by exists a, b). destruct IH as [IH|(f & f' & ? & ? & ? & ?)]; [left; by eapply rtc_l|]. right. exists f, f'. split_and!; [done..|by eapply rtc_l|done].
    + assert (Ha' : name a ∈ name <$> F) by (apply list_elem_of_fmap; by exists a). assert (Hb' : name b ∈ name <$> F) by (apply list_elem_of_fmap; by exists b).
      right. destruct IH as [IH|(f & f' & ? & ? & ? & ?)]; [by exists (name a), (name b)|by exists (name a), f'].
Qed.

Lemma represents_ext m R R' : represents m R -> (forall x y, R x y <-> R' x y) -> represents m R'.
Proof. intros H E b j Hj i. rewrite (H b j Hj). by setoid_rewrite E. Qed.

(** The edges once each of [Fs] has been fused. *)
Definition fused (Fs : list (list nat)) (a b : nat) : Prop := edge a b \/ exists F, F ∈ Fs /\ a ∈ F /\ b ∈ F.

Lemma fused_within Fs : (forall F f, F ∈ Fs -> f ∈ F -> f ∈ nodes) -> within (fused Fs).
Proof. intros HF a b [H|(F & HF' & Ha & Hb)]; [by apply edge_nodes|]. split; by eapply HF. Qed.

Lemma updates_ok Fs done_ m :
  matrix_of m -> graph_ m = Some (cg_id g) -> represents m (rtc (by_name (fused done_))) -> (forall F f, F ∈ Fs -> f ∈ F -> f ∈ nodes) ->
  exists m', foldM (Update g) Fs m = Ok m' /\ matrix_of m' /\ represents m' (rtc (by_name (fused (done_ ++ Fs)))).
Proof.
  revert done_ m. induction Fs as [|F Fs IH]; intros done_ m Hm Hgr Hrep HF; cbn [foldM].
  - exists m. rewrite app_nil_r. done.
  - destruct (update_ok m _ F Hm Hrep) as (m1 & E1 & Hm1 & (_ & _ & _ & F4) & Hr1); [intros f Hf; apply (HF F); [left|done]|done|]. rewrite E1. cbn [mbind outcome_bind].
    assert (HFs : forall G f, G ∈ Fs -> f ∈ G -> f ∈ nodes) by (intros G f HG; apply HF; by right).
    destruct (IH (done_ ++ [F]) m1 Hm1 ltac:(congruence)) as (m' & E' & Hm' & Hr'); [|done|exists m'; by rewrite <- app_assoc in Hr'].
    eapply represents_ext; [exact Hr1|]. intros x y. rewrite joined_paths.
    assert (Hiff : forall a b, (fused done_ a b \/ (a ∈ F /\ b ∈ F)) <-> fused (done_ ++ [F]) a b).
    { intros a b. unfold fused. setoid_rewrite elem_of_app. setoid_rewrite list_elem_of_singleton. split.
      - intros [[?|(G & ? & ?)]|?]; [by left|right; exists G; tauto|right; exists F; tauto].
      - intros [?|(G & [?| ->] & ?)]; [tauto|left; right; by exists G|tauto]. }
    split; apply (rtc_congruence id); intros ? ? (a & b & Hab%Hiff & -> & ->); by exists a, b.
Qed.

Lemma matrix_answers Fs :
  (forall F f, F ∈ Fs -> f ∈ F -> f ∈ nodes) ->
  exists m, (m ← Init g None; foldM (Update g) Fs m) = Ok m /\
    forall a b, a ∈ nodes -> b ∈ nodes -> exists v, IsConnected (name a) (name b) m = Ok v /\ (v = true <-> rtc (fused Fs) a b).
Proof.
  intros HF. pose proof new_matrix_of as Hnew. destruct (generate_loop [] nodes (ConnectionMatrixImpl_new g)) as (m1 & E1 & Hm1 & (_ & _ & _ & F4) & Hr1); [done|done|by intros n j ?%not_elem_of_nil|].
  assert (Hr0 : represents m1 (rtc (by_name (fused [])))).
  { eapply represents_ext; [exact Hr1|]. intros x y. split; apply (rtc_congruence id); intros ? ? (a & b & Hab & -> & ->); exists a, b; (split; [|done]); [by left|].
    destruct Hab as [?|(F & ?%not_elem_of_nil & _)]; done. }
  destruct (updates_ok Fs [] m1 Hm1 F4 Hr0 HF) as (m' & E' & Hm' & Hr'). exists m'. split; [assert (E0 : Init g None = Ok m1) by exact E1; rewrite E0; exact E'|].
  intros a b Ha Hb. destruct (connected_ok m' _ (name a) (name b) (mg_ok _ Hm') Hr') as (v & Ev & Hv); [apply (mg_dom _ Hm'); by exists a|apply (mg_dom _ Hm'); by exists b|].
  exists v. split; [done|]. rewrite Hv. apply by_name_paths; [by apply fused_within|done..].
Qed.

Lemma connected_after_init :
  exists m, Init g None = Ok m /\ forall a b, a ∈ nodes -> b ∈ nodes -> exists v, IsConnected (name a) (name b) m = Ok v /\ (v = true <-> rtc edge a b).
Proof.
  destruct (matrix_answers []) as (m & Em & Hm); [by intros F f ?%not_elem_of_nil|]. apply bind_Ok in Em as (m' & Em & [= ->]). exists m. split; [done|]. intros a b Ha Hb.
  destruct (Hm a b Ha Hb) as (v & Ev & Hv). exists v. split; [done|]. rewrite Hv. split; apply (rtc_congruence id); intros x y; [|by left]. intros [?|(F & ?%not_elem_of_nil & _)]; done.
Qed.

(** C20: On a graph whose nodes come after their inputs, the matrix says of any two
    nodes whether a path leads from one to the other, and it goes on to do so,
    for the graph in which the nodes of a group are one, whatever groups it is
    updated for one after the other. *)
Theorem connection_matrix_correct Fs :
  (forall F f, F ∈ Fs -> f ∈ F -> f ∈ nodes) ->
  exists m, (m ← Init g None; foldM (Update g) Fs m) = Ok m /\
    forall a b, a ∈ nodes -> b ∈ nodes -> exists v, IsConnected (name a) (name b) m = Ok v /\ (v = true <-> rtc (fused Fs) a b).
Proof. apply matrix_answers. Qed.
End graph.
