(* ===== verification/GraphCycleSound.v ===== *)
(** * GraphCycleSound: a group is reported exactly when fusing it makes a cycle

    [DetectOneScope] looks for an edge that leaves a group and a path from its
    end back to another node of the group.  It takes the groups one by one; the
    header of the detector speaks of fusing them all, which is what it answers
    for one group, and on the safe side for several. *)

From stdpp Require Import strings relations.
From S2P Require Import Prelude ExecTopo GraphBitmap GraphConnect GraphConnectSound.

#[local] Open Scope nat_scope.

Section graph.
Context (g : ComputeGraph).
Abbreviation nodes := (GetDirectNode g).
Abbreviation edge := (edge g).



Context (Hg : sorted_graph g).








(** ** The detector *)


Context (Hout : forall n p, n ∈ nodes -> p ∈ GetOutAllNodes g n <-> edge n p).


(** ** All groups fused *)

(** The graph in which every group is one node, [inl] of its place. *)
Definition entity (groups : list (list nat)) (x : nat) : nat + nat :=
  match list_find (fun S => x ∈ S) groups with Some (i, _) => inl i | None => inr x end.
Definition together_edge (groups : list (list nat)) (u v : nat + nat) : Prop :=
  u <> v /\ exists x y, edge x y /\ u = entity groups x /\ v = entity groups y.
Definition cycle_together (groups : list (list nat)) : Prop := exists u, tc (together_edge groups) u u.






End graph.

(** * Adding the fused node to the matrix

    [ExpandAndUpdate] gives the matrix a row and a column for the node a group was
    fused to; the maps grow by a step when they are full. *)

#[local] Open Scope nat_scope.

(** ** Growing *)

Lemma resize_all n maps acc :
  (forall bm, bm ∈ maps -> bitmap_ok bm /\ bm_size bm <= n) ->
  exists maps', foldM (fun bm maps => bm ← ResizeBits n bm; Ok (maps ++ [bm])) maps acc = Ok (acc ++ maps') /\
    Forall2 (fun bm bm' => bitmap_ok bm' /\ bm_size bm' = n /\ forall i, bit bm' i = bit bm i) maps maps'.
Proof.
  revert acc. induction maps as [|bm maps IH]; intros acc Hm; cbn [foldM]; [exists []; by rewrite app_nil_r|]. destruct (Hm bm ltac:(left)) as [Ob Sb].
  destruct (resize_ok n bm Ob Sb) as (bm' & E & O' & S' & B'). rewrite E. cbn [mbind outcome_bind]. destruct (IH (acc ++ [bm'])) as (maps' & E' & HF); [intros b Hb; apply Hm; by right|].
  exists (bm' :: maps'). rewrite E', <- app_assoc. split; [done|]. by apply Forall2_cons.
Qed.

(** Clearing rows that are empty. *)
Lemma clear_rows l maps n :
  (forall j bm, maps !! j = Some bm -> bitmap_ok bm /\ bm_size bm = n) -> (forall j, j ∈ l -> exists bm, maps !! j = Some bm /\ forall i, bit bm i = false) ->
  exists maps', foldM (fun i maps => bm ← at_ maps i; write maps i (SetValues 0 bm)) l maps = Ok maps' /\ length maps' = length maps /\
    forall j bm', maps' !! j = Some bm' -> bitmap_ok bm' /\ bm_size bm' = n /\ exists bm, maps !! j = Some bm /\ forall i, bit bm' i = bit bm i.
Proof.
  revert maps. induction l as [|k l IH]; intros maps Hok Hl; cbn [foldM].
  - exists maps. split_and!; [done..|]. intros j bm Hj. destruct (Hok j bm Hj). split_and!; [done..|]. by exists bm.
  - destruct (Hl k ltac:(left)) as (bm & Hk & Hb). unfold at_. rewrite Hk. cbn [mbind outcome_bind]. unfold write. pose proof (lookup_lt_Some _ _ _ Hk) as Hlt. rewrite decide_True by done. cbn [mbind outcome_bind].
    destruct (Hok k bm Hk) as [Ob Sb]. destruct (clear_values_ok bm Ob) as (O1 & S1 & B1).
    assert (Hsame : forall j bm1, <[k := SetValues 0 bm]> maps !! j = Some bm1 -> bitmap_ok bm1 /\ bm_size bm1 = n /\ exists bm0, maps !! j = Some bm0 /\ forall i, bit bm1 i = bit bm0 i).
    { intros j bm1 Hj. destruct (decide (j = k)) as [->|Hne].
      - rewrite list_lookup_insert_eq in Hj by done. injection Hj as <-. split_and!; [done|congruence|]. exists bm. split; [done|]. intros i. by rewrite B1, Hb.
      - rewrite list_lookup_insert_ne in Hj by done. destruct (Hok j bm1 Hj). split_and!; [done..|]. by exists bm1. }
    destruct (IH (<[k := SetValues 0 bm]> maps)) as (maps' & E' & L' & H').
    + intros j bm1 Hj. by destruct (Hsame j bm1 Hj) as (? & ? & _).
    + intros j Hj. destruct (decide (j = k)) as [->|Hne]; [exists (SetValues 0 bm); by rewrite list_lookup_insert_eq|]. rewrite list_lookup_insert_ne by done. apply Hl. by right.
    + exists maps'. rewrite length_insert in L'. split_and!; [done..|]. intros j bm' Hj. destruct (H' j bm' Hj) as (? & ? & bm1 & Hj1 & Hb1). destruct (Hsame j bm1 Hj1) as (_ & _ & bm0 & Hj0 & Hb0).
      split_and!; [done..|]. exists bm0. split; [done|]. intros i. by rewrite Hb1.
Qed.

Lemma grow_ok m :
  matrix_ok m -> exists size maps, grow m = Ok (size, maps) /\ cm_used m + 1 <= size /\ length maps = size /\
    (forall j bm, maps !! j = Some bm -> bitmap_ok bm /\ bm_size bm = size /\ forall i, bit bm i = true <-> row m j i) /\ (forall j i, row m j i -> j < size).
Proof.
  intros Hm. pose proof (mo_used _ Hm) as Hu. unfold grow.
  destruct (Nat.leb_spec (cm_size m) (cm_used m + 1)) as [Hle|Hlt].
  - cbv zeta. set (n := cm_size m + expand_step_). assert (Hn : n = cm_size m + 64) by done.
    destruct (resize_all n (bit_maps_ m) []) as (maps1 & E1 & F1); [intros bm [j Hj]%list_elem_of_lookup; destruct (mo_rows _ Hm j bm Hj); split; [done|lia]|]. rewrite E1. cbn [mbind outcome_bind app].
    assert (L1 : length maps1 = cm_size m) by (rewrite <- (mo_len _ Hm); symmetry; by eapply Forall2_length). rewrite take_ge by lia. set (maps2 := maps1 ++ replicate (n - length maps1) (LargeBitmap_new n)).
    assert (L2 : length maps2 = n) by (unfold maps2; rewrite length_app, length_replicate; lia).
    assert (Hrow2 : forall j bm, maps2 !! j = Some bm -> bitmap_ok bm /\ bm_size bm = n /\ forall i, bit bm i = true <-> row m j i).
    { intros j bm [Hj|[Hge Hj]]%lookup_app_Some.
      - destruct (Forall2_lookup_r _ _ _ _ _ F1 Hj) as (bm0 & Hj0 & O & S & B). split_and!; [done..|]. intros i. rewrite B. unfold row. rewrite Hj0. split; [intros ?; by exists bm0|by intros (? & [= <-] & ?)].
      - apply lookup_replicate in Hj as [-> _]. destruct (new_ok n) as [O B]. split_and!; [done..|]. intros i. rewrite B. split; [done|]. intros (bm & Hb%lookup_lt_Some & _). rewrite (mo_len _ Hm) in Hb. lia. }
    destruct (clear_rows (seq (cm_used m) (n - cm_used m)) maps2 n) as (maps3 & E3 & L3 & H3).
    + intros j bm Hj. by destruct (Hrow2 j bm Hj) as (? & ? & _).
    + intros j Hj%elem_of_seq. destruct (lookup_lt_is_Some_2 maps2 j ltac:(lia)) as [bm Hbm]. exists bm. split; [done|]. intros i. destruct (Hrow2 j bm Hbm) as (_ & _ & Hb).
      apply not_true_iff_false. intros (bm0 & Hb0 & Ht)%Hb. rewrite (mo_free _ Hm j bm0 i) in Ht; [done|lia|done].
    + rewrite E3. cbn [mbind outcome_bind]. exists n, maps3. split_and!; [done|lia|congruence| |].
      * intros j bm Hj. destruct (H3 j bm Hj) as (? & ? & bm2 & Hj2 & Hb2). destruct (Hrow2 j bm2 Hj2) as (_ & _ & Hb). split_and!; [done..|]. intros i. by rewrite Hb2.
      * intros j i (bm & Hb%lookup_lt_Some & _). rewrite (mo_len _ Hm) in Hb. lia.
  - exists (cm_size m), (bit_maps_ m). split_and!; [done|lia|apply (mo_len _ Hm)| |].
    + intros j bm Hj. destruct (mo_rows _ Hm j bm Hj). split_and!; [done..|]. intros i. unfold row. rewrite Hj. split; [intros ?; by exists bm|by intros (? & [= <-] & ?)].
    + intros j i (bm & Hb%lookup_lt_Some & _). rewrite (mo_len _ Hm) in Hb. lia.
Qed.

Lemma add_node_ok v m :
  matrix_ok m -> idx m v = None ->
  exists m', AddNode v m = Ok (cm_used m, m') /\ matrix_ok m' /\ cm_used m' = cm_used m + 1 /\ name_to_index_ m' = <[v := cm_used m]> (name_to_index_ m) /\ graph_ m' = graph_ m /\ forall k i, row m' k i <-> row m k i.
Proof.
  intros Hm Hv.
  destruct (grow_ok m Hm) as (size & maps & E & Hs & Hl & Hrows & Hlow). unfold AddNode. rewrite E. cbn [mbind outcome_bind]. eexists. split; [done|]. simpl. split_and!; try done.
  - split; simpl; [done| |done| | |].
    + intros j bm Hj. by destruct (Hrows j bm Hj) as (? & ? & _).
    + intros a i. destruct (decide (a = v)) as [->|Hne]; [rewrite lookup_insert_eq; intros [= <-]; lia|]. rewrite lookup_insert_ne by done. intros Hi%(mo_index _ Hm). lia.
    + intros a b i. destruct (decide (a = v)) as [->|Hne], (decide (b = v)) as [->|Hne']; rewrite ?lookup_insert_eq, ?lookup_insert_ne by done; try done.
      * intros [= <-] Hb%(mo_index _ Hm). lia.
      * intros Ha%(mo_index _ Hm) [= <-]. lia.
      * by apply (mo_inj _ Hm).
    + intros j bm i Hj Hjb. destruct (Hrows j bm Hjb) as (_ & _ & Hb). apply not_true_iff_false. intros (bm0 & Hb0 & Ht)%Hb. rewrite (mo_free _ Hm j bm0 i) in Ht; [done|lia|done].
  - intros k i. split.
    + intros (bm & Hk & Hb). by apply (Hrows k bm Hk).
    + intros Hr. pose proof (Hlow k i Hr) as Hlt. rewrite <- Hl in Hlt. apply lookup_lt_is_Some in Hlt as [bm Hbm]. exists bm. split; [done|]. by apply (Hrows k bm Hbm).
Qed.

(** ** Joining *)

Lemma expand_loop v js m0 k m :
  matrix_ok m -> frame m0 m -> v < cm_used m0 -> k <= cm_used m0 ->
  let upd j i := row m0 j i \/ (row m0 v i /\ exists k, k ∈ js /\ row m0 j k) in
  (forall j i, row m j i <-> if decide (j < cm_used m0 - k) then upd j i else row m0 j i) ->
  exists m', foldM (fun i m => node_map ← GetBitMap i m; found ← has_any js node_map;
    if (found : bool) then new_bit_vector ← GetBitMap v m; put_bit_map i (Or new_bit_vector node_map) m else Ok m) (seq (cm_used m0 - k) k) m = Ok m' /\
    matrix_ok m' /\ frame m0 m' /\ forall j i, row m' j i <-> if decide (j < cm_used m0) then upd j i else row m0 j i.
Proof.
  intros Hm Hf Hv Hk upd. revert m Hm Hf Hk. induction k as [|k IH]; intros m Hm Hf Hk Hrows; cbn [seq foldM].
  - exists m. rewrite Nat.sub_0_r in Hrows. done.
  - pose proof Hf as (F1 & F2 & F3 & F4). set (j := cm_used m0 - S k) in *. assert (Hj : j < cm_used m) by lia. destruct (get_row m v Hm ltac:(lia)) as (V & EV & _ & OV & SV & RV).
    destruct (update_row m j js V Hm Hj OV SV) as (m1 & E1 & Hm1 & Hf1 & Hr1 & Ho1). rewrite EV. cbn [mbind outcome_bind]. rewrite E1. cbn [mbind outcome_bind].
    assert (Hvrow : forall i, row m v i <-> row m0 v i) by (intros i; rewrite Hrows; case_decide; [unfold upd; tauto|done]).
    replace (S j) with (cm_used m0 - k) by lia. apply IH; [done|by eapply frame_trans|lia|]. intros j' i. destruct (decide (j' = j)) as [->|Hne].
    + rewrite decide_True by lia. assert (Hjm : forall i, row m j i <-> row m0 j i) by (intros i'; rewrite Hrows, decide_False by lia; done).
      rewrite Hr1, <- RV, Hvrow, Hjm. unfold upd. setoid_rewrite Hjm. done.
    + rewrite Ho1, Hrows by done. destruct (decide (j' < j)); [by rewrite decide_True by lia|]. by rewrite decide_False by lia.
Qed.

(** The paths with a new vertex that the group leads to and from. *)
Definition with_vertex (E : string -> string -> Prop) (F : list string) (v x y : string) : Prop := E x y \/ (x ∈ F /\ y = v) \/ (x = v /\ y ∈ F).

Lemma with_vertex_paths (E : string -> string -> Prop) F v :
  (forall x, ~ E x v /\ ~ E v x) -> forall x y, rtc (with_vertex E F v) x y <->
    rtc E x y \/ ((x = v \/ exists f, f ∈ F /\ rtc E x f) /\ (y = v \/ exists f, f ∈ F /\ rtc E f y)).
Proof.
  intros Hv x y. assert (Hsub : forall x y, rtc E x y -> rtc (with_vertex E F v) x y) by (intros x' y'; apply (rtc_congruence id); intros ? ? ?; by left). split.
  - induction 1 as [x|x y z Hxy _ IH]; [by left|]. destruct Hxy as [Hxy|[[Hx ->]|[-> Hy]]].
    + destruct IH as [IH|[[->|(f & Hf & Hyf)] IH]]; [left; by eapply rtc_l|by destruct (Hv x)|]. right. split; [|done]. right. exists f. split; [done|by eapply rtc_l].
    + right. split; [right; by exists x|]. destruct IH as [IH|[_ IH]]; [|done]. apply rtc_inv in IH as [<-|(w & Hw & _)]; [by left|by destruct (Hv w)].
    + right. split; [by left|]. destruct IH as [IH|[_ IH]]; [right; by exists y|done].
  - intros [H|[Hx Hy]]; [by apply Hsub|]. trans v.
    + destruct Hx as [->|(f & Hf & Hxf)]; [done|]. eapply rtc_r; [by apply Hsub|]. right. by left.
    + destruct Hy as [->|(f & Hf & Hfy)]; [done|]. eapply rtc_l; [|by apply Hsub]. right. by right.
Qed.

Lemma expand_ok m (E : string -> string -> Prop) F v :
  matrix_ok m -> represents m (rtc E) -> idx m v = None -> (forall f, f ∈ F -> is_Some (idx m f)) -> (forall x y, E x y -> is_Some (idx m x) /\ is_Some (idx m y)) ->
  exists m', ExpandAndUpdate F v m = Ok m' /\ matrix_ok m' /\ (forall a, is_Some (idx m' a) <-> a = v \/ is_Some (idx m a)) /\ represents m' (rtc (with_vertex E F v)).
Proof.
  intros Hm HR Hv HF HE. assert (Hv' : forall x, ~ E x v /\ ~ E v x) by (intros x; split; intros [Hx Hy]%HE; [destruct Hy as [? Hy]|destruct Hx as [? Hx]]; congruence).
  assert (Hne : forall f, f ∈ F -> f <> v) by (intros f [i Hi]%HF ->; congruence).
  destruct (add_node_ok v m Hm Hv) as (m1 & E1 & Hm1 & U1 & N1 & _ & R1). unfold ExpandAndUpdate. rewrite E1. cbn [mbind outcome_bind]. set (n := cm_used m) in *.
  destruct (get_row m1 n Hm1 ltac:(lia)) as (bm & E2 & _ & O2 & S2 & Rn). rewrite E2. cbn [mbind outcome_bind]. pose proof (mo_used _ Hm1) as Hu.
  destruct (set_bit_ok n bm O2 ltac:(lia)) as (bm' & E3 & O3 & S3 & B3). rewrite E3. cbn [mbind outcome_bind].
  destruct (put_row m1 n bm' Hm1 ltac:(lia) O3 ltac:(congruence)) as (m2 & E4 & Hm2 & Hf2 & Hn2 & Ho2). rewrite E4. cbn [mbind outcome_bind]. pose proof Hf2 as (_ & U2 & N2 & _).
  assert (HF2 : forall f, f ∈ F -> idx m2 f = idx m f) by (intros f Hf; rewrite N2, N1, lookup_insert_ne by (by apply not_eq_sym, Hne); done).
  assert (Hempty : forall i, ~ row m n i) by (intros i (b & Hb & Ht); rewrite (mo_free _ Hm n b i) in Ht; done).
  destruct (or_loop_ok n F m2 Hm2) as (m3 & E5 & Hm3 & Hf3 & Hn3 & Ho3); [lia|intros f Hf; rewrite HF2 by done; by apply HF|]. rewrite E5. cbn [mbind outcome_bind]. pose proof Hf3 as (_ & U3 & N3 & _).
  set (js := (fun name => GetIndex name m3) <$> F).
  destruct (expand_loop n js m3 (cm_used m3) m3 Hm3 (frame_refl m3)) as (m4 & E6 & Hm4 & Hf4 & Hr4); [lia|lia|intros j i; rewrite decide_False by lia; done|].
  rewrite Nat.sub_diag in E6. pose proof Hf4 as (_ & _ & N4 & _).
  assert (Hidx : name_to_index_ m4 = <[v := n]> (name_to_index_ m)) by congruence.
  (* rows before the loop *)
  assert (Hlow : forall a i, idx m a = Some i -> i < n) by apply (mo_index _ Hm).
  assert (Hold : forall j i, j <> n -> row m3 j i <-> row m j i) by (intros j i Hj; rewrite Ho3, Ho2, R1 by done; done).
  assert (Hnew : forall i, row m3 n i <-> i = n \/ exists f k, f ∈ F /\ idx m f = Some k /\ row m k i).
  { intros i. rewrite Hn3, Hn2, B3, orb_true_iff, bool_decide_eq_true, <- Rn, R1. split.
    - intros [[?|Hb]|(f & k & Hf & Hk & Hr)]; [by left|by apply Hempty in Hb|]. right. rewrite HF2 in Hk by done. exists f, k. split_and!; [done..|]. apply R1. apply Ho2; [|done]. intros ->. apply Hlow in Hk. lia.
    - intros [->|(f & k & Hf & Hk & Hr)]; [by left; left|]. right. exists f, k. rewrite HF2 by done. split_and!; [done..|]. apply Ho2; [intros ->; apply Hlow in Hk; lia|]. by apply R1. }
  assert (Hjs : forall k, k ∈ js <-> exists f, f ∈ F /\ idx m f = Some k).
  { intros k. unfold js. rewrite list_elem_of_fmap. assert (Hgi : forall f, f ∈ F -> forall k', idx m f = Some k' -> GetIndex f m3 = k') by (intros f Hf k' Hk'; apply get_index; by rewrite N3, HF2).
    split; [intros (f & -> & Hf)|intros (f & Hf & Hk); exists f; split; [symmetry; by apply Hgi|done]]. destruct (HF f Hf) as [k' Hk']. exists f. split; [done|]. by rewrite (Hgi f Hf k' Hk'). }
  exists m4. split_and!; [exact E6|done| |].
  { intros a. rewrite Hidx. destruct (decide (a = v)) as [->|Ha]; [rewrite lookup_insert_eq; split; [by left|by eexists]|]. rewrite lookup_insert_ne by done. tauto. }
  (* who reaches the new vertex, and whom it reaches *)
  assert (Hto : forall i, row m3 n i <-> exists a, idx m4 a = Some i /\ (a = v \/ exists f, f ∈ F /\ rtc E a f)).
  { intros i. rewrite Hnew, Hidx. split.
    - intros [->|(f & k & Hf & Hk & (a & Ha & Haf)%(HR f k Hk))]; [exists v; rewrite lookup_insert_eq; tauto|]. exists a. rewrite lookup_insert_ne by (intros ->; congruence). split; [done|right; by exists f].
    - intros (a & Ha & H). destruct (decide (a = v)) as [->|Hav]; [rewrite lookup_insert_eq in Ha; injection Ha as <-; by left|]. rewrite lookup_insert_ne in Ha by done.
      destruct H as [?|(f & Hf & Haf)]; [done|]. right. destruct (HF f Hf) as [k Hk]. exists f, k. split_and!; [done..|]. apply (HR f k Hk). by exists a. }
  intros b j Hj i. rewrite Hidx in Hj. rewrite Hr4. setoid_rewrite with_vertex_paths; [|done]. destruct (decide (b = v)) as [->|Hb].
  - rewrite lookup_insert_eq in Hj. injection Hj as <-. rewrite decide_True by lia.
    assert (Hnv : forall a, a <> v -> ~ rtc E a v) by (intros a Ha [->|(w & _ & Hw)]%rtc_inv_r; [done|by destruct (Hv' w)]). split.
    + intros [H|[H _]]; apply Hto in H as (a & Ha & H); exists a; (split; [done|]); right; (split; [done|by left]).
    + intros (a & Ha & H). left. apply Hto. exists a. split; [done|]. destruct H as [H|[H _]]; [|done]. left. destruct (decide (a = v)); [done|by apply Hnv in H].
  - rewrite lookup_insert_ne in Hj by done. pose proof (Hlow b j Hj) as Hjn. rewrite decide_True by lia.
    assert (Hb' : forall i, row m3 j i <-> exists a, idx m a = Some i /\ rtc E a b) by (intros i'; rewrite Hold by lia; by apply HR).
    assert (Hfrom : (exists k, k ∈ js /\ row m3 j k) <-> exists f, f ∈ F /\ rtc E f b).
    { split.
      - intros (k & (f & Hf & Hk)%Hjs & (a & Ha & Hab)%Hb'). exists f. split; [done|]. by rewrite (mo_inj _ Hm f a k Hk Ha).
      - intros (f & Hf & Hfb). destruct (HF f Hf) as [k Hk]. exists k. split; [apply Hjs; by exists f|]. apply Hb'. by exists f. }
    assert (Hvb : ~ rtc E v b) by (intros [E'|(w & Hw & _)]%rtc_inv; [done|by destruct (Hv' w)]).
    rewrite Hb', Hto, Hfrom, Hidx. split.
    + intros [(a & Ha & Hab)|[(a & Ha & H) Hfb]]; exists a; [rewrite lookup_insert_ne by (intros ->; congruence)|]; (split; [done|]); [by left|right; split; [done|by right]].
    + intros (a & Ha & [Hab|[H1 [?|H2]]]); [|done|].
      * left. exists a. split; [|done]. destruct (decide (a = v)) as [->|Hav]; [done|]. by rewrite lookup_insert_ne in Ha.
      * right. split; [|done]. by exists a.
Qed.

Section graph.
Context (g : ComputeGraph) (Hg : sorted_graph g).
Abbreviation nodes := (GetDirectNode g).
Abbreviation name := (node_name g).

(** Groups fused one after the other: of each the nodes, which may be fused nodes
    themselves, and the name of the node they become. *)
Fixpoint well_named (names : list string) (steps : list (list string * string)) : Prop :=
  match steps with [] => True | (F, v) :: steps => (forall f, f ∈ F -> f ∈ names) /\ (v ∉ names) /\ well_named (v :: names) steps end.
Definition names_after (names : list string) (steps : list (list string * string)) : list string := foldl (fun names '(_, v) => v :: names) names steps.
Definition edges_after (E : string -> string -> Prop) (steps : list (list string * string)) : string -> string -> Prop := foldl (fun E '(F, v) => with_vertex E F v) E steps.

Lemma expand_all steps : forall names E m,
  matrix_ok m -> represents m (rtc E) -> (forall a, is_Some (idx m a) <-> a ∈ names) -> (forall x y, E x y -> x ∈ names /\ y ∈ names) -> well_named names steps ->
  exists m', foldM (fun '(F, v) m => ExpandAndUpdate F v m) steps m = Ok m' /\ matrix_ok m' /\ represents m' (rtc (edges_after E steps)) /\
    forall a, is_Some (idx m' a) <-> a ∈ names_after names steps.
Proof.
  induction steps as [|[F v] steps IH]; intros names E m Hm Hr Hd HE Hw; cbn [foldM]; [by exists m|]. destruct Hw as (HF & Hv & Hw).
  destruct (expand_ok m E F v Hm Hr) as (m1 & E1 & Hm1 & Hd1 & Hr1).
  - apply eq_None_not_Some. by rewrite Hd.
  - intros f Hf. by apply Hd, HF.
  - intros x y [Hx Hy]%HE. by rewrite !Hd.
  - rewrite E1. cbn [mbind outcome_bind]. apply (IH (v :: names)); try done.
    + intros a. rewrite Hd1, Hd. by rewrite elem_of_cons.
    + intros x y [[Hx Hy]%HE|[[Hx ->]|[-> Hy]]]; rewrite !elem_of_cons; auto.
Qed.

(** C35: On a sorted graph, groups are fused one after the other, a group being nodes
    of the graph and nodes fused before, and the matrix is expanded for each.  It
    stays the reachability of the graph with a new vertex for every group, which
    every node of the group leads to and which leads to every node of it: when the
    maps have to grow, as at the first expansion, and when there is room left from
    that, as at the next ones. *)
Theorem expanded_matrix_correct steps :
  well_named (name <$> nodes) steps ->
  exists m, (m ← Init g None; foldM (fun '(F, v) m => ExpandAndUpdate F v m) steps m) = Ok m /\
    forall x y, x ∈ names_after (name <$> nodes) steps -> y ∈ names_after (name <$> nodes) steps ->
      exists b, IsConnected x y m = Ok b /\ (b = true <-> rtc (edges_after (name_edge g) steps) x y).
Proof.
  intros Hw. destruct (generate_loop g Hg [] nodes (ConnectionMatrixImpl_new g)) as (m1 & E1 & Hm1 & _ & Hr1); [done|by apply new_matrix_of|by intros n j ?%not_elem_of_nil|].
  assert (Hdom : forall a, is_Some (idx m1 a) <-> a ∈ name <$> nodes) by (intros a; rewrite (mg_dom g _ Hm1), list_elem_of_fmap; split; intros (n & ? & ?); by exists n).
  destruct (expand_all steps (name <$> nodes) (name_edge g) m1 (mg_ok g _ Hm1) Hr1 Hdom) as (m & E & Hm & Hr & Hd); [|done|].
  - intros x y (a & b & [Ha Hb]%(edge_nodes g Hg) & -> & ->). split; apply list_elem_of_fmap; by eexists.
  - exists m. split; [assert (E0 : Init g None = Ok m1) by exact E1; by rewrite E0|]. intros x y Hx Hy. apply connected_ok; [done..| |]; by apply Hd.
Qed.
End graph.

(** * Small graphs fused

    A chain with a side branch, and two groups that make a cycle only together. *)

#[local] Open Scope nat_scope.
#[local] Set Warnings "-clear-no-such-hyp".

Definition of_edges (names : list string) (order : list nat) (edges : list (nat * nat)) : ComputeGraph :=
  MkCompute 7 order (fun n => nth n names "") (fun n => (filter (fun e => e.2 = n) edges).*1) (fun n => (filter (fun e => e.1 = n) edges).*2).

(** The conditions on a graph, as a test. *)
Lemma sorted_test g :
  NoDup (node_name g <$> GetDirectNode g) ->
  Forall (fun '(i, n) => Forall (fun m => Exists (fun x => x = m) (take i (GetDirectNode g))) (GetInAllNodes g n)) (imap pair (GetDirectNode g)) -> sorted_graph g.
Proof.
  intros Hn Hs. split; [done|]. intros i n m Hi Hm. rewrite Forall_forall in Hs. specialize (Hs (i, n)). simpl in Hs. rewrite Forall_forall in Hs.
  assert (Hin : (i, n) ∈ imap pair (GetDirectNode g)) by (apply elem_of_lookup_imap; by exists i, n). specialize (Hs Hin m Hm). apply Exists_exists in Hs as (x & Hx & ->).
  apply list_elem_of_lookup in Hx as [j Hj]. apply lookup_take_Some in Hj as [Hj Hlt]. by exists j.
Qed.


Definition chain_edges : list (nat * nat) := [(0, 1); (1, 2); (0, 3); (3, 4)].
Definition chain : ComputeGraph := of_edges ["a"; "b"; "c"; "d"; "e"] [0; 1; 2; 3; 4] chain_edges.

Lemma chain_sorted : sorted_graph chain.
Proof. apply sorted_test; apply (bool_decide_unpack _); by vm_compute. Qed.


Lemma all_in_chain (l : list nat) : bool_decide (Forall (fun n => n ∈ GetDirectNode chain) l) = true -> forall n, n ∈ l -> n ∈ GetDirectNode chain.
Proof. intros H%bool_decide_eq_true. by rewrite Forall_forall in H. Qed.

Module RunsConnect.
Lemma connection_matrix_correct_run :
  exists m, (m ← Init chain None; foldM (Update chain) [[2; 3]; [4]] m) = Ok m /\ IsConnected "b" "e" m = Ok true /\ IsConnected "e" "b" m = Ok false /\ rtc (fused chain [[2; 3]; [4]]) 1 4.
Proof.
  destruct (connection_matrix_correct chain chain_sorted [[2; 3]; [4]]) as (m & Em & Hm).
  - intros F f HF Hf. apply (all_in_chain [2; 3; 4]); [by vm_compute|]. repeat (apply elem_of_cons in HF as [->|HF]; [set_solver|]). by apply not_elem_of_nil in HF.
  - exists m. split; [exact Em|]. destruct (Hm 1 4) as (v & Ev & Hv); [by apply (bool_decide_unpack _)..|]. vm_compute in Em. injection Em as <-. split; [reflexivity|]. split; [reflexivity|].
    apply Hv. vm_compute in Ev. by injection Ev as <-.
Defined.


(** The first expansion makes the maps 64 longer, the second finds room. *)
Definition expansions : list (list string * string) := [(["b"; "d"], "fused"); (["fused"; "c"], "again")].

Example expansions_grow :
  (m ← Init chain None; m1 ← ExpandAndUpdate ["b"; "d"] "fused" m; m2 ← ExpandAndUpdate ["fused"; "c"] "again" m1; Ok (cm_size m, cm_size m1, cm_size m2)) = Ok (5, 69, 69).
Proof. vm_compute. reflexivity. Qed.

Lemma expansions_named : well_named (node_name chain <$> GetDirectNode chain) expansions.
Proof.
  cbn [well_named expansions]. split_and!; try done; try (by apply (bool_decide_unpack _)).
  all: intros f Hf; repeat (apply elem_of_cons in Hf as [->|Hf]; [by apply (bool_decide_unpack _)|]); by apply not_elem_of_nil in Hf.
Qed.

Lemma expanded_matrix_correct_run :
  exists m, (m ← Init chain None; foldM (fun '(F, v) m => ExpandAndUpdate F v m) expansions m) = Ok m /\
    IsConnected "b" "fused" m = Ok true /\ IsConnected "a" "again" m = Ok true /\ IsConnected "again" "e" m = Ok true /\ IsConnected "e" "fused" m = Ok false.
Proof.
  destruct (expanded_matrix_correct chain chain_sorted expansions) as (m & Em & _); [apply expansions_named|].
  exists m. split; [exact Em|]. vm_compute in Em. injection Em as <-. split_and!; reflexivity.
Defined.
End RunsConnect.

(** ** Groups together *)

(** [0 -> 2] and [3 -> 1]: the groups [0; 1] and [2; 3] lead to each other, and
    neither alone makes a cycle. *)
Definition crossing : ComputeGraph := of_edges ["a"; "b"; "c"; "d"] [0; 3; 1; 2] [(0, 2); (3, 1)].

Theorem two_groups_not_detected :
  exists m, Init crossing None = Ok m /\ HasDetectedCycle crossing m [[Some 0; Some 1]; [Some 2; Some 3]] = Ok false /\
    cycle_together crossing [[0; 1]; [2; 3]].
Proof.
  eexists. split; [vm_compute; reflexivity|]. split; [vm_compute; reflexivity|]. exists (inl 0).
  apply tc_l with (inl 1); [|apply tc_once]; (split; [done|]); [exists 0, 2|exists 3, 1]; (split; [split; by apply (bool_decide_unpack _)|done]).
Qed.

(** Nodes out of order: a path is missed. *)
Theorem unsorted_matrix_misses_path :
  let g := of_edges ["a"; "b"; "c"] [2; 1; 0] [(0, 1); (1, 2)] in
  exists m, Init g None = Ok m /\ IsConnected "a" "c" m = Ok false /\ rtc (edge g) 0 2.
Proof.
  eexists. split; [vm_compute; reflexivity|]. split; [vm_compute; reflexivity|]. apply rtc_l with 1; [|apply rtc_once]; (split; by apply (bool_decide_unpack _)).
Qed.
