(* ===== verification/GraphSort.v ===== *)
(** * GraphSort: topological sorting of an execute graph

    [graph_metadef/graph/fast_graph/execute_graph.cc]: breadth first, depth first
    and reverse depth first sorting, the stack they share ([fast_graph_utils.h])
    and the pass that delays nodes to their first use. *)

From stdpp Require Import strings.
From Stdlib Require Import String.
From S2P Require Import Prelude ExecGraph.

#[local] Open Scope nat_scope.

(** What is asked of a node: its name and type, the sources of its input edges,
    the ends of its output edges, the bytes of its outputs and whether it is a
    constant. *)
Record SortNode := MkSortNode {
  sn_name : string;
  sn_type : string;
  sn_in_data : list (option nat);
  sn_in_control : list (option nat);
  sn_out_data : list (list (option (nat * Z)));
  sn_out_control : list (option nat);
  sn_output_size : Z;
  sn_const : bool;
}.

Record SortGraph := MkSortGraph { sort_node : nat -> SortNode; direct_nodes : list nat; inputs_order_ : list string }.

Definition kControlEdgeIndex : Z := -1.

(** The edges that are there. *)
Definition present {A} (l : list (option A)) : list A := omap id l.

(** ** Containers *)

(** [std::set] and [std::map] keyed by a node: [emplace] does nothing when an
    equal key is there. *)
Fixpoint emplace (cmp : nat -> nat -> comparison) (n : nat) (l : list nat) : list nat :=
  match l with
  | [] => [n]
  | x :: l' => match cmp n x with Lt => n :: x :: l' | Eq => x :: l' | Gt => x :: emplace cmp n l' end
  end.

Section graph.
Context (g : SortGraph).
Abbreviation info := (sort_node g).

(** [std::map<std::string, FastNode *>] *)
Definition by_name (a b : nat) : comparison := String.compare (sn_name (info a)) (sn_name (info b)).

Definition GetAllOutEdgesSize (n : nat) : Z := Z.of_nat (length (present (concat (sn_out_data (info n)))) + length (present (sn_out_control (info n)))).

(** [NodeOutInfo::operator<] *)
Definition node_out_info (a b : nat) : comparison :=
  match (GetAllOutEdgesSize a ?= GetAllOutEdgesSize b)%Z with
  | Eq => match (sn_output_size (info a) ?= sn_output_size (info b))%Z with Eq => by_name a b | c => c end
  | c => c
  end.

(** [NodeCmp]: larger first. *)
Definition NodeCmp (a b : nat) : comparison :=
  match (sn_output_size (info b) ?= sn_output_size (info a))%Z with Eq => by_name b a | c => c end.

(** [TopoSortStack]: one of its two containers is used. *)
Record StackMode := MkMode { is_mem_priority_ : bool; is_dfs_ : bool; is_reverse_dfs_ : bool }.
Definition use_mem (mode : StackMode) : bool := is_mem_priority_ mode && negb (is_reverse_dfs_ mode).

Definition Push (mode : StackMode) (node : nat) (stack : list nat) : list nat :=
  if use_mem mode then emplace node_out_info node stack else if is_dfs_ mode then stack ++ [node] else node :: stack.

Definition Pop (mode : StackMode) (stack : list nat) : option (nat * list nat) :=
  if use_mem mode then match stack with [] => None | x :: stack => Some (x, stack) end
  else match last stack with None => None | Some x => Some (x, take (length stack - 1) stack) end.

(** ** Ready nodes *)

Definition is_next_iteration (n : nat) : bool := is_type "NextIteration" (sn_type (info n)) || is_type "RefNextIteration" (sn_type (info n)).

Definition GetAllInEdgeSize (n : nat) : Z := Z.of_nat (length (present (sn_in_control (info n))) + length (present (sn_in_data (info n)))).

(** [None]: [ModifySizeByNodeType] failed. *)
Definition ModifySizeByNodeType (in_edge_size : option Z) (src : option nat) : option Z :=
  match in_edge_size, src with
  | Some size, Some src => if is_next_iteration src then if (size =? 0)%Z then None else Some (size - 1)%Z else Some size
  | size, _ => size
  end.
Definition GetInEdgeSize (n : nat) : Z := default 0%Z (foldl ModifySizeByNodeType (Some (GetAllInEdgeSize n)) (sn_in_data (info n))).

(** The place of a name in the order the user gave. *)
Definition input_place (n : nat) : option nat := list_find (fun name => name = sn_name (info n)) (inputs_order_ g) ≫= fun p => Some p.1.

Definition swap_at (i j : nat) (stack : list nat) : list nat :=
  match stack !! i, stack !! j with Some a, Some b => <[j := a]> (<[i := b]> stack) | _, _ => stack end.

(** [inx_i] is read once, before the loop over [j]. *)
Definition order_input (i : nat) (stack : list nat) : list nat :=
  match stack !! i ≫= input_place with
  | None => stack
  | Some inx_i => foldl (fun stack j => match stack !! j ≫= input_place with None => stack | Some inx_j => if inx_i <? inx_j then swap_at i j stack else stack end)
      stack (seq (i + 1) (length stack - (i + 1)))
  end.
Definition order_inputs (stack : list nat) : list nat := foldl (fun stack i => order_input i stack) stack (seq 0 (length stack)).

Definition in_edge_nums : gmap nat Z := list_to_map ((fun n => (n, GetInEdgeSize n mod 2 ^ 32)%Z) <$> direct_nodes g).

Definition SortNodes : list nat * gmap nat Z :=
  let ready := filter (fun n => (GetInEdgeSize n mod 2 ^ 32)%Z = 0%Z) (direct_nodes g) in
  let no_data_nodes_vec := filter (fun n => is_type "Data" (sn_type (info n)) = false) ready in
  let data_nodes_vec := filter (fun n => is_type "Data" (sn_type (info n)) = true) ready in
  (order_inputs (rev no_data_nodes_vec ++ rev data_nodes_vec), in_edge_nums).

(** [GetOutNodesFromEdge] and [GetOutNodesFromEdgesToMap]: an edge less, and
    [add] when it was the last. *)
Definition out_node (add : nat -> list nat -> list nat) (node : nat) '((nums, out_nodes) : gmap nat Z * list nat) : gmap nat Z * list nat :=
  match nums !! node with
  | None => (nums, out_nodes)
  | Some num => let num := ((num - 1) mod 2 ^ 32)%Z in (<[node := num]> nums, if (num =? 0)%Z then add node out_nodes else out_nodes)
  end.
Definition GetOutNodesFromEdge : nat -> gmap nat Z * list nat -> gmap nat Z * list nat := out_node (fun node out => out ++ [node]).
Definition GetOutNodesFromEdgesToMap : nat -> gmap nat Z * list nat -> gmap nat Z * list nat := out_node (emplace by_name).

Definition for_each (f : nat -> gmap nat Z * list nat -> gmap nat Z * list nat) (dsts : list nat) (s : gmap nat Z * list nat) : gmap nat Z * list nat :=
  foldl (fun s dst => f dst s) s dsts.

(** ** Breadth first *)

Definition CollectBreadthOutNode (node : nat) (s : gmap nat Z * list nat) : gmap nat Z * list nat :=
  let s := foldl (fun s edges => for_each GetOutNodesFromEdgesToMap (filter (fun e => e.2 <> kControlEdgeIndex) (present edges)).*1 s) s (sn_out_data (info node)) in
  for_each GetOutNodesFromEdgesToMap (present (sn_out_control (info node))) s.

Fixpoint bfs_loop (fuel : nat) (mode : StackMode) (stack_input topo_sort_stack : list nat) (nums : gmap nat Z) (node_vec : list nat) : option (list nat) :=
  match fuel with
  | O => None
  | S fuel =>
      let next := match Pop mode topo_sort_stack with
        | Some (node, stack) => Some (node, stack_input, stack)
        | None => match last stack_input with None => None | Some node => Some (node, take (length stack_input - 1) stack_input, topo_sort_stack) end
        end in
      match next with
      | None => Some node_vec
      | Some (node, stack_input, topo_sort_stack) =>
          let '(nums, breadth_node_map) := CollectBreadthOutNode node (nums, []) in
          bfs_loop fuel mode stack_input (foldl (fun stack node => Push mode node stack) topo_sort_stack breadth_node_map) nums (node_vec ++ [node])
      end
  end.

Definition BFSTopologicalSorting (is_mem_priority : bool) : option (list nat) :=
  let '(stack_input, nums) := SortNodes in
  bfs_loop (S (length (direct_nodes g))) (MkMode is_mem_priority false false) stack_input [] nums [].

(** ** Depth first *)

Definition stack_push (reverse : bool) (mode : StackMode) (out_nodes stack : list nat) : list nat :=
  foldl (fun stack node => Push mode node stack) stack (if reverse then rev out_nodes else out_nodes).

Definition dfs_edges (reverse : bool) (mode : StackMode) (dsts : list nat) '((nums, stack) : gmap nat Z * list nat) : gmap nat Z * list nat :=
  let '(nums, out_nodes) := for_each GetOutNodesFromEdge dsts (nums, []) in (nums, stack_push reverse mode out_nodes stack).

Fixpoint dfs_loop (fuel : nat) (reverse : bool) (mode : StackMode) (stack : list nat) (nums : gmap nat Z) (node_vec : list nat) : option (list nat) :=
  match fuel with
  | O => None
  | S fuel =>
      match Pop mode stack with
      | None => Some node_vec
      | Some (node, stack) =>
          let s := foldl (fun s edges => dfs_edges reverse mode (present edges).*1 s) (nums, stack) (sn_out_data (info node)) in
          let '(nums, stack) := dfs_edges reverse mode (present (sn_out_control (info node))) s in
          dfs_loop fuel reverse mode stack nums (node_vec ++ [node])
      end
  end.

Definition DFSTopologicalSorting (is_mem_priority reverse : bool) : option (list nat) :=
  let '(stack, nums) := SortNodes in
  let mode := MkMode is_mem_priority true reverse in
  dfs_loop (S (length (direct_nodes g))) reverse mode (foldl (fun s node => Push mode node s) [] stack) nums [].

(** ** Reverse depth first *)

Inductive FastWalkStatus := kNotWalked | kWalking | kWalked.
#[export] Instance FastWalkStatus_eq_dec : EqDecision FastWalkStatus.
Proof. solve_decision. Defined.

Definition GetInNodes (current : nat) : list nat := present (sn_in_data (info current)) ++ present (sn_in_control (info current)).
Definition input_nodes (current : nat) : list nat := foldl (fun s n => emplace NodeCmp n s) [] (GetInNodes current).

Definition status (walk : gmap nat FastWalkStatus) (n : nat) : FastWalkStatus := default kNotWalked (walk !! n).

(** The end of the vector is the head of [stack]. *)
Fixpoint walk_loop (fuel : nat) (stack : list nat) (walk : gmap nat FastWalkStatus) (node_vec : list nat) : option (gmap nat FastWalkStatus * list nat) :=
  match fuel with
  | O => None
  | S fuel =>
      match stack with
      | [] => Some (walk, node_vec)
      | current :: below =>
          match status walk current with
          | kNotWalked => walk_loop fuel (rev (input_nodes current) ++ stack) (<[current := kWalking]> walk) node_vec
          | kWalking => walk_loop fuel below (<[current := kWalked]> walk) (node_vec ++ [current])
          | kWalked => walk_loop fuel below walk node_vec
          end
      end
  end.

Definition OutNodesIsEmpty (n : nat) : bool := (GetAllOutEdgesSize n =? 0)%Z.

(** A turn for every edge and two for every node. *)
Definition walk_fuel : nat := S (2 * length (direct_nodes g) + length (direct_nodes g ≫= input_nodes)).

Definition RDFSTopologicalSorting : option (list nat) :=
  foldl (fun r node => '(walk, node_vec) ← r; if OutNodesIsEmpty node then walk_loop walk_fuel [node] walk node_vec else Some (walk, node_vec)) (Some (∅, [])) (direct_nodes g)
    ≫= fun r => Some r.2.

(** ** Delaying *)

(** The answer when all inputs are kept anyway: constants, variables, inputs of the graph. *)
Definition long_life_peer (peer : nat) : bool :=
  let type := sn_type (info peer) in
  let is_io_data := bool_decide (peer ∈ direct_nodes g) && (bool_decide (type ∈ ["Data"; "RefData"; "AippData"; "AnnData"]) || is_type "ConstPlaceHolder" type) in
  sn_const (info peer) || is_type "Variable" type || is_type "VariableV2" type || is_io_data.
Definition InputIsLongLifeTimeNode (n : nat) : bool :=
  let peers := present (sn_in_data (info n)) in negb (bool_decide (peers = [])) && forallb long_life_peer peers.

Definition GetAllOutNodes (n : nat) : list nat := (present (concat (sn_out_data (info n)))).*1 ++ present (sn_out_control (info n)).

(** The first use: the least id, [0] standing for none so far. *)
Definition min_out_index (id : nat -> nat) (outs : list nat) : nat := foldl (fun min_index out => if (min_index =? 0) || (id out <? min_index) then id out else min_index) 0 outs.

(** [Some (index, out_count)] on success. *)
Definition GetOutNodeIndex (id : nat -> nat) (nodes : list nat) : option (nat * nat) :=
  match last nodes with
  | None => None
  | Some node =>
      if (length nodes =? 1) && negb (default false (InputIsLongLifeTimeNode <$> head nodes)) then None else
      if negb (length nodes =? 1) && negb (length (sn_in_data (info node)) =? 1) then None else
      let outs := GetAllOutNodes node in
      if bool_decide (outs = []) then None else Some (min_out_index id outs, length outs)
  end.

Definition delay_step (id : nat -> nat) (i : nat) (delay_nodes : list (bool * list nat)) : list (bool * list nat) :=
  match delay_nodes !! i with
  | Some (true, group) =>
      match GetOutNodeIndex id group with
      | Some (delay_to_index, out_count) =>
          match delay_nodes !! delay_to_index with
          | Some (first, group') =>
              if i + 1 <? delay_to_index then
                <[i := (true, [])]> (<[delay_to_index := (if 1 <? out_count then false else first, group ++ group')]> delay_nodes)
              else delay_nodes
          | None => delay_nodes
          end
      | None => delay_nodes
      end
  | _ => delay_nodes
  end.

(** Ids are the places in [nodes]. *)
Definition place_of (nodes : list nat) (n : nat) : nat := default 0 (fst <$> list_find (fun m => m = n) nodes).

Definition DelayTopoSort (nodes : list nat) : list nat :=
  let delay_nodes := foldl (fun d i => delay_step (place_of nodes) i d) ((fun n => (true, [n])) <$> nodes) (seq 0 (length nodes)) in
  concat delay_nodes.*2.

(** ** Sorting *)

Inductive FastTopoSortingMode := kBFS | kDFS | kRDFS.
#[export] Instance FastTopoSortingMode_eq_dec : EqDecision FastTopoSortingMode.
Proof. solve_decision. Defined.

(** The new order of the nodes. *)
Definition TopologicalSortingGraph (use_topo_strategy : FastTopoSortingMode) (is_memory_priority dfs_reverse : bool) : outcome (list nat) :=
  let node_vec := match use_topo_strategy with
    | kBFS => BFSTopologicalSorting is_memory_priority
    | kDFS => DFSTopologicalSorting is_memory_priority dfs_reverse
    | kRDFS => RDFSTopologicalSorting
    end in
  match node_vec with
  | None => Fault
  | Some node_vec =>
      if negb (length node_vec =? length (direct_nodes g)) then Err GRAPH_FAILED else
      Ok (if is_memory_priority || match use_topo_strategy with kRDFS => true | _ => false end then DelayTopoSort node_vec else node_vec)
  end.
End graph.
