(* ===== verification/GraphSortSound.v ===== *)
(** * GraphSortSound: breadth first and depth first sorting

    Both take ready nodes one by one, from a queue, a stack or the set ordered by
    memory: they return an order that respects the edges, and less than all nodes
    exactly when there is none. *)

From stdpp Require Import strings.
From Stdlib Require Import String.
From S2P Require Import Prelude ExecTopoSound ExecGraph ExecGraphSound GraphSort.

(** * Removing ready nodes one by one

    What breadth first and depth first sorting have in common: counters of the
    edges from nodes not yet taken, and a collection of the nodes whose counter is
    zero.  In whatever order ready nodes are taken, the result respects the edges,
    and nodes are left over exactly when no order does. *)

#[local] Open Scope nat_scope.

(** ** Orders *)

(** Every node after all that have edges to it. *)
Definition respects (D : list nat) (outs : nat -> list nat) (order : list nat) : Prop :=
  forall l1 n l2, order = l1 ++ n :: l2 -> forall m, m ∈ D -> n ∈ outs m -> m ∈ l1.

Definition topological (D : list nat) (outs : nat -> list nat) (order : list nat) : Prop := order ≡ₚ D /\ respects D outs order.

Section kahn.
Context (D : list nat) (outs : nat -> list nat).
Context (HD : NoDup D) (Houts : forall n m, n ∈ D -> m ∈ outs n -> m ∈ D).

(** [done] were taken, [rest] were not, the edges of the last one to [ws] are still to be counted. *)
Record KInv (done rest ws ready : list nat) (nums : gmap nat Z) : Prop := {
  k_split : done ++ rest ≡ₚ D;
  k_count n : n ∈ D -> nums !! n = Some (Z.of_nat (occ n (ws ++ (rest ≫= outs))));
  k_nodup : NoDup ready;
  k_ready n : n ∈ ready <-> n ∈ rest /\ occ n (ws ++ (rest ≫= outs)) = 0;
  k_done n : n ∈ done -> occ n (ws ++ (rest ≫= outs)) = 0;
  k_order : respects D outs done;
  k_ws n : n ∈ ws -> n ∈ D;
  k_bound n : n ∈ D -> (Z.of_nat (occ n (ws ++ (rest ≫= outs))) < 2 ^ 32)%Z;
}.

Lemma kinv_perm done rest ws ready ready' nums : KInv done rest ws ready nums -> ready ≡ₚ ready' -> KInv done rest ws ready' nums.
Proof. intros [H1 H2 H3 H4 H5 H6 H7 H8] Hp. split; try done; [by rewrite <- Hp|]. intros n. rewrite <- Hp. apply H4. Qed.

Lemma occ_cons y (x : nat) l : occ y (x :: l) = (if decide (y = x) then 1 else 0) + occ y l.
Proof. change (x :: l) with ([x] ++ l). rewrite occ_app. f_equal. unfold occ. simpl. by repeat case_decide. Qed.

Lemma in_split done rest ws ready nums n : KInv done rest ws ready nums -> n ∈ D <-> n ∈ done \/ n ∈ rest.
Proof. intros HK. rewrite <- (k_split _ _ _ _ _ HK). apply elem_of_app. Qed.

(** An edge is counted. *)
Lemma count_edge done rest y ws ready nums :
  KInv done rest (y :: ws) ready nums ->
  exists k, nums !! y = Some (Z.of_nat (S k)) /\ KInv done rest ws (if decide (k = 0) then y :: ready else ready) (<[y := Z.of_nat k]> nums) /\ (y ∉ ready) /\ k = occ y (ws ++ (rest ≫= outs)).
Proof.
  intros HK. pose proof HK as [H1 H2 H3 H4 H5 H6 H7 H8]. assert (Hy : y ∈ D) by (apply H7; left). set (k := occ y (ws ++ (rest ≫= outs))).
  assert (Hocc : forall n, occ n ((y :: ws) ++ (rest ≫= outs)) = (if decide (n = y) then 1 else 0) + occ n (ws ++ (rest ≫= outs))) by (intros n; apply occ_cons).
  assert (Hyo : occ y ((y :: ws) ++ (rest ≫= outs)) = S k) by (rewrite Hocc, decide_True by done; done).
  assert (Hrest : y ∈ rest). { apply (in_split _ _ _ _ _ y HK) in Hy as [Hd|?]; [|done]. apply H5 in Hd. lia. }
  assert (Hnr : y ∉ ready) by (intros [_ ?]%H4; lia). exists k. split_and!; [rewrite H2 by done; by rewrite Hyo| |done|done].
  split; try done.
  - intros n Hn. destruct (decide (n = y)) as [->|Hne]; [by rewrite lookup_insert_eq|]. rewrite lookup_insert_ne by done. rewrite H2, Hocc, decide_False by done. done.
  - case_decide; [by apply NoDup_cons|done].
  - intros n. destruct (decide (n = y)) as [->|Hne].
    + fold k. case_decide as Hk; [split; [done|left]|]. split; [done|]. intros [_ ?]. lia.
    + assert (Hn : n ∈ (if decide (k = 0) then y :: ready else ready) <-> n ∈ ready) by (case_decide; [rewrite elem_of_cons; tauto|done]). rewrite Hn, H4, Hocc, decide_False by done. done.
  - intros n Hn. pose proof (H5 n Hn) as H. rewrite Hocc in H. lia.
  - intros n Hn. apply H7. by right.
  - intros n Hn. pose proof (H8 n Hn) as H. rewrite Hocc in H. lia.
Qed.

(** A ready node is taken. *)
Lemma take_node done rest x ready nums :
  KInv done rest [] (x :: ready) nums -> exists rest', rest ≡ₚ x :: rest' /\ KInv (done ++ [x]) rest' (outs x) ready nums.
Proof.
  intros [H1 H2 H3 H4 H5 H6 H7 H8]. destruct (proj1 (H4 x) ltac:(left)) as [Hx Hx0]. apply elem_of_Permutation in Hx as [rest' Hp]. exists rest'. split; [done|].
  assert (Hocc : forall n, occ n (outs x ++ (rest' ≫= outs)) = occ n (rest ≫= outs)).
  { intros n. assert (E : rest ≫= outs ≡ₚ outs x ++ (rest' ≫= outs)) by (rewrite Hp; by rewrite bind_cons). unfold occ. by rewrite E. }
  simpl in H2, H4, H5, Hx0. assert (Hsplit : (done ++ [x]) ++ rest' ≡ₚ D) by (rewrite <- H1, Hp, <- app_assoc; done).
  assert (HxD : x ∈ D) by (rewrite <- Hsplit; apply elem_of_app; left; apply elem_of_app; right; left).
  apply NoDup_cons in H3 as [Hnx H3]. split; try done.
  - intros n Hn. rewrite Hocc. by apply H2.
  - intros n. rewrite Hocc. specialize (H4 n). assert (Hr : n ∈ rest <-> n = x \/ n ∈ rest') by (by rewrite Hp, elem_of_cons). rewrite elem_of_cons, Hr in H4. clear Hr. destruct (decide (n = x)) as [->|Hne]; [|tauto].
    split; [done|]. intros [Hr _]. pose proof HD as Hnd. rewrite <- Hsplit in Hnd. apply NoDup_app in Hnd as (_ & Hnd & _). destruct (Hnd x); [|done]. apply elem_of_app. right. left.
  - intros n Hn. rewrite Hocc. apply elem_of_app in Hn as [Hn| ->%list_elem_of_singleton]; [by apply H5|done].
  - intros l1 n l2 E m Hm Hnm. destruct l2 as [|z l2 _] using rev_ind.
    + apply app_inj_tail in E as [<- <-]. rewrite <- H1 in Hm. apply elem_of_app in Hm as [?|Hm]; [done|]. exfalso.
      apply (proj1 (occ_zero x (rest ≫= outs)) Hx0). apply list_elem_of_bind. by exists m.
    + rewrite app_comm_cons, app_assoc in E. apply app_inj_tail in E as [E _]. by eapply H6.
  - intros n Hn. by apply (Houts x).
  - intros n Hn. rewrite Hocc. by apply H8.
Qed.

(** Nothing ready: all were taken, or no order respects the edges. *)
Lemma stuck done rest nums : KInv done rest [] [] nums -> (rest = [] /\ topological D outs done) \/ (rest <> [] /\ forall order, ~ topological D outs order).
Proof.
  intros HK. pose proof HK as [H1 H2 H3 H4 H5 H6 H7 H8]. destruct rest as [|x rest]; [left; rewrite app_nil_r in H1; done|]. right. split; [done|]. intros order [Hp Hr].
  set (R := x :: rest) in *. assert (HR : forall n, n ∈ R -> exists m, m ∈ R /\ n ∈ outs m).
  { intros n Hn. destruct (decide (occ n (R ≫= outs) = 0)) as [E|E]; [by destruct (not_elem_of_nil _ (proj2 (H4 n) (conj Hn E)))|].
    destruct (decide (n ∈ R ≫= outs)) as [(m & Hm1 & Hm2)%list_elem_of_bind|Hno]; [by exists m|]. by apply occ_zero in Hno. }
  assert (Hfirst : forall l1 l2, order = l1 ++ l2 -> forall n, n ∈ l1 -> n ∉ R).
  { induction l1 as [|z l1 IH] using rev_ind; intros l2 E n Hn; [by apply not_elem_of_nil in Hn|]. rewrite <- app_assoc in E. apply elem_of_app in Hn as [Hn| ->%list_elem_of_singleton]; [by apply (IH _ E)|].
    intros (m & Hm & Hzm)%HR. apply (IH _ E m); [|done]. apply (Hr l1 z l2 E); [|done]. apply (in_split _ _ _ _ _ m HK). by right. }
  apply (Hfirst order [] ltac:(by rewrite app_nil_r) x); [|left]. rewrite Hp. apply (in_split _ _ _ _ _ x HK). right. left.
Qed.

Lemma start nums : (forall n, n ∈ D -> nums !! n = Some (Z.of_nat (occ n (D ≫= outs)))) -> (forall n, n ∈ D -> (Z.of_nat (occ n (D ≫= outs)) < 2 ^ 32)%Z) -> KInv [] D [] (filter (fun n => occ n (D ≫= outs) = 0) D) nums.
Proof.
  intros Hn Hb. split; simpl; try done.
  - by apply NoDup_filter.
  - intros n. rewrite list_elem_of_filter. tauto.
  - by intros n ?%not_elem_of_nil.
  - intros l1 n l2 E. by destruct l1.
  - by intros n ?%not_elem_of_nil.
Qed.
End kahn.

#[local] Open Scope nat_scope.

(** ** Containers *)

Lemma emplace_new cmp n l : (forall x, x ∈ l -> cmp n x <> Eq) -> emplace cmp n l ≡ₚ n :: l.
Proof.
  induction l as [|x l IH]; intros Hn; simpl; [done|]. destruct (cmp n x) eqn:E; [by destruct (Hn x ltac:(left))|done|].
  rewrite IH by (intros y Hy; apply Hn; by right). apply Permutation_swap.
Qed.

Section graph.
Context (g : SortGraph).
Abbreviation D := (direct_nodes g).
Abbreviation info := (sort_node g).
Abbreviation outs := (GetAllOutNodes g).

(** A graph whose nodes have all their edges in it, no loops of iterations, and
    names that tell nodes apart. *)
Record sort_ok : Prop := {
  so_nodup : NoDup D;
  so_names a b : a ∈ D -> b ∈ D -> sn_name (info a) = sn_name (info b) -> a = b;
  so_out n m : n ∈ D -> m ∈ outs n -> m ∈ D;
  so_in n m : n ∈ D -> m ∈ GetInNodes g n -> m ∈ D;
  so_edges n m : n ∈ D -> m ∈ D -> occ m (outs n) = occ n (GetInNodes g m);
  so_data n e : n ∈ D -> e ∈ present (concat (sn_out_data (info n))) -> e.2 <> kControlEdgeIndex;
  so_plain n m : n ∈ D -> Some m ∈ sn_in_data (info n) -> is_next_iteration g m = false;
  so_size n : n ∈ D -> (Z.of_nat (length (GetInNodes g n)) < 2 ^ 32)%Z;
}.

Context (Hg : sort_ok).

Lemma by_name_eq a b : by_name g a b = Eq -> sn_name (info a) = sn_name (info b).
Proof. apply String.compare_eq_iff. Qed.

Lemma out_info_eq a b : node_out_info g a b = Eq -> sn_name (info a) = sn_name (info b).
Proof. unfold node_out_info. destruct (_ ?= _)%Z; [|done..]. destruct (_ ?= _)%Z; [|done..]. apply by_name_eq. Qed.

Lemma push_perm mode n stack : n ∈ D -> (forall x, x ∈ stack -> x ∈ D) -> n ∉ stack -> Push g mode n stack ≡ₚ n :: stack.
Proof.
  intros Hn Hs Hnew. unfold Push. destruct (use_mem mode).
  - apply emplace_new. intros x Hx E%out_info_eq. apply (so_names Hg) in E as ->; [done..|by apply Hs].
  - destruct (is_dfs_ mode); [by rewrite <- Permutation_cons_append|done].
Qed.

Lemma pop_spec mode stack : (Pop mode stack = None /\ stack = []) \/ exists x s, Pop mode stack = Some (x, s) /\ stack ≡ₚ x :: s.
Proof.
  unfold Pop. destruct (use_mem mode).
  - destruct stack as [|x s]; [by left|]. right. by exists x, s.
  - destruct stack as [|x s _] using rev_ind; [by left|]. right. rewrite last_snoc. exists x, s. rewrite length_app. simpl. replace (length s + 1 - 1) with (length s) by lia.
    rewrite take_app_length. split; [done|]. by rewrite <- Permutation_cons_append.
Qed.

(** ** Counting *)

Lemma in_count m : m ∈ D -> occ m (D ≫= outs) = length (GetInNodes g m).
Proof.
  intros Hm. change outs with (fun n => outs n). rewrite occ_bind, (sum_ext _ (fun n => occ n (GetInNodes g m))) by (intros n Hn; by apply (so_edges Hg)).
  assert (Hl : forall x, x ∈ GetInNodes g m -> x ∈ D) by (intros x; by apply (so_in Hg)). revert Hl. generalize (GetInNodes g m).
  induction l as [|x l IH]; intros Hl; simpl; [clear; by induction D|]. rewrite sum_plus, sum_one by apply (so_nodup Hg).
  rewrite decide_True by (apply Hl; left). rewrite IH; [done|]. intros y Hy. apply Hl. by right.
Qed.

Lemma in_size n : n ∈ D -> GetInEdgeSize g n = Z.of_nat (length (GetInNodes g n)).
Proof.
  intros Hn. unfold GetInEdgeSize. assert (Hf : forall l size, (forall m, Some m ∈ l -> is_next_iteration g m = false) -> foldl (ModifySizeByNodeType g) (Some size) l = Some size).
  { induction l as [|o l IH]; intros size Hl; [done|]. destruct o as [m|]; simpl; [rewrite (Hl m) by left|]; apply IH; intros m' Hm'; apply Hl; by right. }
  rewrite Hf; [|intros m; by apply (so_plain Hg)]. simpl. unfold GetAllInEdgeSize, GetInNodes. rewrite length_app. lia.
Qed.

Lemma in_num n : n ∈ D -> (GetInEdgeSize g n mod 2 ^ 32)%Z = Z.of_nat (occ n (D ≫= outs)).
Proof. intros Hn. rewrite in_size, in_count by done. apply Z.mod_small. pose proof (so_size Hg n Hn). lia. Qed.

(** A loop over the ends of edges counts them. *)
Definition adds (add : nat -> list nat -> list nat) : Prop := forall y out, y ∈ D -> (forall x, x ∈ out -> x ∈ D) -> y ∉ out -> add y out ≡ₚ y :: out.

Lemma count_edges add dsts done rest ws base out nums :
  adds add -> KInv D outs done rest (dsts ++ ws) (base ++ out) nums ->
  exists out' nums', for_each (out_node add) dsts (nums, out) = (nums', out') /\ KInv D outs done rest ws (base ++ out') nums'.
Proof.
  intros Hadd. revert out nums. induction dsts as [|y dsts IH]; intros out nums HK; [by exists out, nums|].
  destruct (count_edge D outs done rest y (dsts ++ ws) (base ++ out) nums HK) as (k & Hk & HK' & Hy & Ek).
  assert (HyD : y ∈ D) by (apply (k_ws _ _ _ _ _ _ _ HK); left). pose proof (k_bound _ _ _ _ _ _ _ HK' y HyD) as Hb. rewrite <- Ek in Hb.
  assert (E1 : out_node add y (nums, out) = (<[y := Z.of_nat k]> nums, if (Z.of_nat k =? 0)%Z then add y out else out)).
  { unfold out_node. rewrite Hk. replace (Z.of_nat (S k) - 1)%Z with (Z.of_nat k) by lia. by rewrite Z.mod_small by lia. }
  change (for_each (out_node add) (y :: dsts) (nums, out)) with (for_each (out_node add) dsts (out_node add y (nums, out))). rewrite E1.
  set (out1 := if (Z.of_nat k =? 0)%Z then add y out else out). apply (IH out1 (<[y := Z.of_nat k]> nums)). eapply kinv_perm; [exact HK'|]. unfold out1.
  assert (Hout : forall x, x ∈ out -> x ∈ D).
  { intros x Hx. apply (in_split D outs _ _ _ _ _ x HK). right. apply (k_ready _ _ _ _ _ _ _ HK x). apply elem_of_app. by right. }
  destruct (decide (k = 0)) as [->|Hk0]; [|by rewrite (proj2 (Z.eqb_neq _ _)) by lia]. simpl. rewrite (Hadd y out HyD Hout) by (intros ?; apply Hy, elem_of_app; by right). by rewrite Permutation_middle.
Qed.

Lemma adds_append : adds (fun node out => out ++ [node]).
Proof. intros y out _ _ _. by rewrite <- Permutation_cons_append. Qed.

Lemma adds_named : adds (emplace (by_name g)).
Proof. intros y out Hy Ho Hn. apply emplace_new. intros x Hx E%by_name_eq. apply (so_names Hg) in E as ->; [done..|by apply Ho]. Qed.

Lemma push_each mode l stack :
  NoDup (stack ++ l) -> (forall x, x ∈ stack ++ l -> x ∈ D) -> foldl (fun stack node => Push g mode node stack) stack l ≡ₚ stack ++ l.
Proof.
  revert stack. induction l as [|x l IH]; intros stack Hnd Hin; simpl; [by rewrite app_nil_r|].
  assert (Hp : Push g mode x stack ≡ₚ x :: stack).
  { apply push_perm; [apply Hin, elem_of_app; right; left|intros y Hy; apply Hin, elem_of_app; by left|]. intros Hx. apply NoDup_app in Hnd as (_ & Hd & _). apply (Hd x Hx). left. }
  assert (Hq : Push g mode x stack ++ l ≡ₚ stack ++ x :: l) by (rewrite Hp; apply Permutation_middle). rewrite IH; [done|by rewrite Hq|]. intros y Hy. apply Hin. by rewrite <- Hq.
Qed.

(** ** The order the inputs start in *)

Lemma swap_at_perm i j stack : swap_at i j stack ≡ₚ stack.
Proof.
  unfold swap_at. destruct (stack !! i) as [a|] eqn:Ei; [|done]. destruct (stack !! j) as [b|] eqn:Ej; [|done]. by apply ExecReady.swap_perm.
Qed.

Lemma foldl_perm {A} (f : list nat -> A -> list nat) l stack : (forall s x, f s x ≡ₚ s) -> foldl f stack l ≡ₚ stack.
Proof. intros Hf. revert stack. induction l as [|x l IH]; intros stack; simpl; [done|]. by rewrite IH, Hf. Qed.

Lemma order_inputs_perm stack : order_inputs g stack ≡ₚ stack.
Proof.
  apply foldl_perm. intros s i. unfold order_input. destruct (s !! i ≫= input_place g); [|done]. apply foldl_perm. intros s' j. destruct (s' !! j ≫= input_place g); [|done].
  case_match; [apply swap_at_perm|done].
Qed.

Lemma filter_split (P : nat -> bool) l : rev (filter (fun n => P n = false) l) ++ rev (filter (fun n => P n = true) l) ≡ₚ l.
Proof.
  rewrite <- !Permutation_rev. induction l as [|x l IH]; [done|]. rewrite !filter_cons. destruct (P x); repeat case_decide; try done; simpl; [|by rewrite IH]. by rewrite <- Permutation_middle, IH.
Qed.

Lemma sort_nodes_start : exists stack nums, SortNodes g = (stack, nums) /\ KInv D outs [] D [] stack nums.
Proof.
  unfold SortNodes. eexists _, _. split; [done|]. eapply kinv_perm.
  - apply start; [apply (so_nodup Hg)| |].
    + intros n Hn. unfold in_edge_nums. apply elem_of_list_to_map; [|apply list_elem_of_fmap; exists n; split; [by rewrite in_num|done]].
      rewrite <- list_fmap_compose. change (NoDup (id <$> D)). rewrite list_fmap_id. apply (so_nodup Hg).
    + intros n Hn. rewrite in_count by done. by apply (so_size Hg).
  - rewrite order_inputs_perm. rewrite (filter_split (fun n => is_type "Data" (sn_type (info n)))). apply NoDup_Permutation; [apply NoDup_filter, (so_nodup Hg)..|].
    intros n. rewrite !list_elem_of_filter. split; intros [H Hn]; (split; [|done]); [rewrite in_num by done; lia|]. rewrite in_num in H by done. lia.
Qed.

(** ** Edges in groups *)

Lemma foldl_bind {A B S} (f : S -> B -> S) (h : A -> list B) s l : foldl (fun s a => foldl f s (h a)) s l = foldl f s (l ≫= h).
Proof. revert s. induction l as [|a l IH]; intros s; simpl; [done|]. by rewrite IH, foldl_app. Qed.

Lemma present_concat {A} (l : list (list (option A))) : present (concat l) = l ≫= present.
Proof. induction l as [|x l IH]; simpl; [done|]. unfold present in *. by rewrite omap_app, IH. Qed.

Lemma fmap_bind {A B C} (f : B -> C) (h : A -> list B) l : f <$> (l ≫= h) = l ≫= fun x => f <$> h x.
Proof. induction l as [|x l IH]; [done|]. by rewrite !bind_cons, fmap_app, IH. Qed.

Lemma filter_all {A} (P : A -> Prop) `{!forall x, Decision (P x)} (l : list A) : (forall x, x ∈ l -> P x) -> filter P l = l.
Proof. induction l as [|x l IH]; intros Hl; [done|]. rewrite filter_cons_True by (apply Hl; left). f_equal. apply IH. intros y Hy. apply Hl. by right. Qed.

Lemma outs_groups n : outs n = (sn_out_data (info n) ≫= fun edges => (present edges).*1) ++ present (sn_out_control (info n)).
Proof. unfold GetAllOutNodes. by rewrite present_concat, fmap_bind. Qed.

Lemma collect_breadth_edges n s : n ∈ D -> CollectBreadthOutNode g n s = for_each (GetOutNodesFromEdgesToMap g) (outs n) s.
Proof.
  intros Hn. unfold CollectBreadthOutNode, for_each. rewrite outs_groups, foldl_app. f_equal. rewrite foldl_bind. f_equal.
  assert (Hd : forall edges e, edges ∈ sn_out_data (info n) -> e ∈ present edges -> e.2 <> kControlEdgeIndex).
  { intros edges e Hin He. apply (so_data Hg n); [done|]. rewrite present_concat. apply list_elem_of_bind. by exists edges. }
  revert Hd. generalize (sn_out_data (info n)). induction l as [|edges l IH]; intros Hd; [done|]. rewrite !bind_cons, IH by (intros e' e Hin; apply Hd; by right). f_equal. f_equal.
  apply filter_all. intros e. apply Hd. left.
Qed.

(** ** The loops *)

(** The result: an order, or too few nodes because there is none. *)
Definition sorts (order : list nat) : Prop := topological D outs order \/ (length order <> length D /\ forall o, ~ topological D outs o).

Lemma stuck_sorts done rest nums : KInv D outs done rest [] [] nums -> sorts done.
Proof.
  intros HK. destruct (stuck D outs done rest nums HK) as [[_ ?]|[Hne ?]]; [by left|right]. split; [|done]. pose proof (Permutation_length (k_split _ _ _ _ _ _ _ HK)) as E. rewrite length_app in E.
  destruct rest; [done|]. simpl in E. lia.
Qed.

Lemma ready_in_D done rest ws ready nums x : KInv D outs done rest ws ready nums -> x ∈ ready -> x ∈ D.
Proof. intros HK Hx. apply (in_split D outs _ _ _ _ _ x HK). right. by apply (k_ready _ _ _ _ _ _ _ HK x). Qed.

Lemma rest_shorter (rest rest' : list nat) x : rest ≡ₚ x :: rest' -> length rest = S (length rest').
Proof. intros Hp. by rewrite Hp. Qed.

Lemma bfs_loop_sorts fuel mode done rest stack_input topo nums :
  KInv D outs done rest [] (stack_input ++ topo) nums -> length rest < fuel -> exists order, bfs_loop g fuel mode stack_input topo nums done = Some order /\ sorts order.
Proof.
  revert done rest stack_input topo nums. induction fuel as [|fuel IH]; intros done rest stack_input topo nums HK Hf; [lia|].
  assert (Hnext : forall x si tp, KInv D outs done rest [] (x :: (si ++ tp)) nums ->
    exists order, (let '(nums, breadth_node_map) := CollectBreadthOutNode g x (nums, []) in
      bfs_loop g fuel mode si (foldl (fun stack node => Push g mode node stack) tp breadth_node_map) nums (done ++ [x])) = Some order /\ sorts order).
  { intros x si tp HK1. assert (Hx : x ∈ D) by (eapply ready_in_D; [exact HK1|left]).
    destruct (take_node D outs (so_nodup Hg) (so_out Hg) done rest x (si ++ tp) nums HK1) as (rest' & Hp & HK2). rewrite collect_breadth_edges by done.
    destruct (count_edges (emplace (by_name g)) (outs x) (done ++ [x]) rest' [] (si ++ tp) [] nums adds_named) as (out & nums' & E & HK3); [by rewrite !app_nil_r|].
    change (GetOutNodesFromEdgesToMap g) with (out_node (emplace (by_name g))). rewrite E. apply rest_shorter in Hp.
    assert (Hpush : foldl (fun stack node => Push g mode node stack) tp out ≡ₚ tp ++ out).
    { pose proof (k_nodup _ _ _ _ _ _ _ HK3) as Hnd. rewrite <- app_assoc in Hnd. apply NoDup_app in Hnd as (_ & _ & Hnd). apply push_each; [done|].
      intros y Hy. eapply ready_in_D; [exact HK3|]. rewrite <- app_assoc. apply elem_of_app. by right. }
    eapply IH; [|instantiate (1 := rest'); lia]. eapply kinv_perm; [exact HK3|]. by rewrite Hpush, app_assoc. }
  cbn [bfs_loop]. destruct (pop_spec mode topo) as [[E ->]|(x & s & E & Hp)]; rewrite E; cbv beta zeta.
  - rewrite app_nil_r in HK. destruct stack_input as [|x si _] using rev_ind; [exists done; split; [done|by eapply stuck_sorts]|].
    rewrite last_snoc, length_app. simpl length. replace (length si + 1 - 1) with (length si) by lia. rewrite take_app_length. apply Hnext. rewrite app_nil_r.
    eapply kinv_perm; [exact HK|]. by rewrite <- Permutation_cons_append.
  - apply Hnext. eapply kinv_perm; [exact HK|]. rewrite Hp. by rewrite Permutation_middle.
Qed.

Lemma dfs_edges_count reverse mode dsts done rest ws stack nums :
  KInv D outs done rest (dsts ++ ws) stack nums -> exists nums' stack', dfs_edges g reverse mode dsts (nums, stack) = (nums', stack') /\ KInv D outs done rest ws stack' nums'.
Proof.
  intros HK. destruct (count_edges (fun node out => out ++ [node]) dsts done rest ws stack [] nums adds_append) as (out & nums' & E & HK'); [by rewrite app_nil_r|].
  unfold dfs_edges, GetOutNodesFromEdge. rewrite E. eexists _, _. split; [done|]. eapply kinv_perm; [exact HK'|]. unfold stack_push.
  assert (Hrev : stack ++ (if reverse then rev out else out) ≡ₚ stack ++ out) by (destruct reverse; [by rewrite <- Permutation_rev|done]). symmetry. etrans; [|exact Hrev]. apply push_each.
  - rewrite Hrev. apply (k_nodup _ _ _ _ _ _ _ HK').
  - intros y Hy. rewrite Hrev in Hy. by eapply ready_in_D.
Qed.

Lemma dfs_groups_count reverse mode groups done rest ws stack nums :
  KInv D outs done rest ((groups ≫= fun edges : list (option (nat * Z)) => (present edges).*1) ++ ws) stack nums ->
  exists nums' stack', foldl (fun s edges => dfs_edges g reverse mode (present edges).*1 s) (nums, stack) groups = (nums', stack') /\ KInv D outs done rest ws stack' nums'.
Proof.
  revert stack nums. induction groups as [|edges groups IH]; intros stack nums HK; [by exists nums, stack|]. rewrite bind_cons, <- app_assoc in HK.
  destruct (dfs_edges_count reverse mode _ _ _ _ _ _ HK) as (nums1 & stack1 & E & HK1). cbn [foldl]. rewrite E. by apply IH.
Qed.

Lemma dfs_loop_sorts fuel reverse mode done rest stack nums :
  KInv D outs done rest [] stack nums -> length rest < fuel -> exists order, dfs_loop g fuel reverse mode stack nums done = Some order /\ sorts order.
Proof.
  revert done rest stack nums. induction fuel as [|fuel IH]; intros done rest stack nums HK Hf; [lia|]. cbn [dfs_loop].
  destruct (pop_spec mode stack) as [[E ->]|(x & s & E & Hp)]; rewrite E; [exists done; split; [done|by eapply stuck_sorts]|].
  assert (HK1 : KInv D outs done rest [] (x :: s) nums) by (by eapply kinv_perm). destruct (take_node D outs (so_nodup Hg) (so_out Hg) done rest x s nums HK1) as (rest' & Hr & HK2).
  rewrite outs_groups in HK2. destruct (dfs_groups_count reverse mode _ _ _ _ _ _ HK2) as (nums1 & s1 & E1 & HK3). cbv zeta. rewrite E1.
  destruct (dfs_edges_count reverse mode (present (sn_out_control (info x))) (done ++ [x]) rest' [] s1 nums1) as (nums2 & s2 & E2 & HK4); [by rewrite app_nil_r|]. rewrite E2.
  apply rest_shorter in Hr. eapply IH; [exact HK4|lia].
Qed.

Lemma bfs_sorts is_mem : exists order, BFSTopologicalSorting g is_mem = Some order /\ sorts order.
Proof. destruct sort_nodes_start as (stack & nums & E & HK). unfold BFSTopologicalSorting. rewrite E. eapply bfs_loop_sorts; [by rewrite app_nil_r|lia]. Qed.

Lemma dfs_sorts is_mem reverse : exists order, DFSTopologicalSorting g is_mem reverse = Some order /\ sorts order.
Proof.
  destruct sort_nodes_start as (stack & nums & E & HK). unfold DFSTopologicalSorting. rewrite E. eapply dfs_loop_sorts; [|apply Nat.lt_succ_diag_r]. eapply kinv_perm; [exact HK|]. symmetry.
  apply (push_each _ stack []); [apply (k_nodup _ _ _ _ _ _ _ HK)|]. intros x Hx. by eapply ready_in_D.
Qed.
End graph.
