(* ===== verification/GraphSortDelay.v ===== *)
(** * GraphSortDelay: delaying nodes keeps the order topological

    [DelayTopoSort] moves a node whose inputs stay alive anyway, with the nodes
    delayed to it, in front of its first use. *)

From stdpp Require Import strings.
From S2P Require Import Prelude ExecTopoSound GraphSort GraphSortSound.

#[local] Open Scope nat_scope.

(** ** Before *)

Definition before (l : list nat) (u v : nat) : Prop := exists l1 l2, l = l1 ++ l2 /\ u ∈ l1 /\ v ∈ l2.

Lemma before_app_l l l' u v : before l u v -> before (l ++ l') u v.
Proof. intros (a & b & -> & Hu & Hv). exists a, (b ++ l'). rewrite app_assoc. split_and!; [done..|]. apply elem_of_app. by left. Qed.
Lemma before_app_r l l' u v : before l u v -> before (l' ++ l) u v.
Proof. intros (a & b & -> & Hu & Hv). exists (l' ++ a), b. rewrite app_assoc. split_and!; [done| |done]. apply elem_of_app. by right. Qed.
Lemma before_across l l' u v : u ∈ l -> v ∈ l' -> before (l ++ l') u v.
Proof. intros. by exists l, l'. Qed.

Lemma before_in l u v : before l u v -> u ∈ l /\ v ∈ l.
Proof. intros (a & b & -> & Hu & Hv). split; apply elem_of_app; tauto. Qed.

Lemma respects_before D outs l : NoDup l -> l ≡ₚ D -> respects D outs l <-> forall u v, u ∈ D -> v ∈ D -> v ∈ outs u -> before l u v.
Proof.
  intros Hnd Hp. split.
  - intros Hr u v Hu Hv Huv. rewrite <- Hp in Hv. apply list_elem_of_split in Hv as (l1 & l2 & E). exists l1, (v :: l2). split_and!; [done|by eapply Hr|left].
  - intros Hb l1 n l2 E m Hm Hn. assert (HnD : n ∈ D) by (rewrite <- Hp, E; apply elem_of_app; right; left). destruct (Hb m n Hm HnD Hn) as (a & b & Eab & Ha & [j Hj]%list_elem_of_lookup).
    assert (Hi1 : l !! length l1 = Some n) by (rewrite E; by apply list_lookup_middle). assert (Hi2 : l !! (length a + j) = Some n) by (rewrite Eab; by rewrite lookup_app_r, Nat.add_comm, Nat.add_sub by lia).
    pose proof (NoDup_lookup _ _ _ _ Hnd Hi1 Hi2) as Hidx. apply list_elem_of_lookup in Ha as [i Hi]. pose proof (lookup_lt_Some _ _ _ Hi).
    assert (Hl : l !! i = Some m) by (rewrite Eab; by apply lookup_app_l_Some). rewrite E, lookup_app_l in Hl by lia. by eapply list_elem_of_lookup_2.
Qed.

(** ** Groups *)

Lemma concat_group {A} (G : list (list A)) j g x : G !! j = Some g -> x ∈ g -> x ∈ concat G.
Proof. intros Hj Hx. apply list_elem_of_In, in_concat. exists g. split; [by apply list_elem_of_In; eapply list_elem_of_lookup_2|by apply list_elem_of_In]. Qed.

Lemma in_group {A} (G : list (list A)) x : x ∈ concat G -> exists j g, G !! j = Some g /\ x ∈ g.
Proof. intros (g & Hg & Hx)%list_elem_of_In%in_concat. apply list_elem_of_In, list_elem_of_lookup in Hg as [j Hj]. exists j, g. split; [done|by apply list_elem_of_In]. Qed.

Lemma group_unique {A} (G : list (list A)) j k gj gk x : NoDup (concat G) -> G !! j = Some gj -> G !! k = Some gk -> x ∈ gj -> x ∈ gk -> j = k.
Proof.
  revert j k. induction G as [|g G IH]; intros j k Hnd Hj Hk Hxj Hxk; [done|]. simpl in Hnd. apply NoDup_app in Hnd as (_ & Hd & Hnd). destruct j as [|j], k as [|k]; simplify_eq/=.
  - done.
  - destruct (Hd x Hxj). by eapply concat_group.
  - destruct (Hd x Hxk). by eapply concat_group.
  - f_equal. by eapply IH.
Qed.

(** A group moved in front of a later one. *)
Lemma move_perm {A} (G : list (list A)) i k gi gk :
  i < k -> G !! i = Some gi -> G !! k = Some gk -> concat (<[i := []]> (<[k := gi ++ gk]> G)) ≡ₚ concat G.
Proof.
  revert i k. induction G as [|g G IH]; intros i k Hik Hi Hk; [done|]. destruct k as [|k]; [lia|]. destruct i as [|i]; simplify_eq/=; [|by rewrite IH by (done || lia)]. clear IH Hik.
  revert k Hk. induction G as [|g G IH]; intros k Hk; [done|]. destruct k as [|k]; simplify_eq/=; [by rewrite app_assoc|]. rewrite IH by done. by rewrite !app_assoc, (Permutation_app_comm g gi).
Qed.

Lemma concat_before (G : list (list nat)) j k gj gk u v :
  G !! j = Some gj -> G !! k = Some gk -> u ∈ gj -> v ∈ gk -> j < k \/ (j = k /\ before gj u v) -> before (concat G) u v.
Proof.
  revert j k. induction G as [|g G IH]; intros j k Hj Hk Hu Hv H; [done|]. simpl. destruct j as [|j], k as [|k]; simplify_eq/=.
  - destruct H as [?|[_ ?]]; [lia|by apply before_app_l].
  - apply before_across; [done|]. by eapply concat_group.
  - destruct H as [?|[? _]]; lia.
  - apply before_app_r. apply (IH j k); [done..|]. destruct H as [?|[? ?]]; [left; lia|right; split; [lia|done]].
Qed.

Section delay.
Context (g : SortGraph) (ns : list nat).
Abbreviation D := (direct_nodes g).
Abbreviation outs := (GetAllOutNodes g).
Context (Hnd : NoDup D) (Hout : forall n m, n ∈ D -> m ∈ outs n -> m ∈ D) (Hns : topological D outs ns).
Abbreviation place := (place_of ns).

Lemma ns_nodup : NoDup ns.
Proof. destruct Hns as [Hp _]. by rewrite Hp. Qed.

Lemma place_spec n : n ∈ D -> ns !! place n = Some n.
Proof.
  destruct Hns as [Hp _]. rewrite <- Hp. intros Hn. unfold place_of. destruct (list_find (fun m => m = n) ns) as [[i m]|] eqn:E; simpl.
  - apply list_find_Some in E as (Hi & -> & _). done.
  - apply list_find_None in E. rewrite Forall_forall in E. by destruct (E n Hn).
Qed.

Lemma place_lookup i n : ns !! i = Some n -> place n = i.
Proof.
  intros Hi. destruct Hns as [Hp _]. assert (Hn : n ∈ D) by (rewrite <- Hp; by eapply list_elem_of_lookup_2). eapply (NoDup_lookup _ _ _ _ ns_nodup); [by apply place_spec|done].
Qed.

Lemma edge_places u v : u ∈ D -> v ∈ outs u -> place u < place v.
Proof.
  intros Hu Huv. pose proof (Hout u v Hu Huv) as Hv. destruct Hns as [Hp Hr]. pose proof (place_spec v Hv) as Hi. pose proof (list_elem_of_split_length ns (place v) v Hi) as (l1 & l2 & E & El).
  pose proof (Hr l1 v l2 E u Hu Huv) as [j Hj]%list_elem_of_lookup. pose proof (lookup_lt_Some _ _ _ Hj). rewrite (place_lookup j u); [lia|]. rewrite E. by apply lookup_app_l_Some.
Qed.

Lemma min_out_least l v : (forall w, w ∈ l -> 0 < place w) -> v ∈ l -> 0 < min_out_index place l <= place v.
Proof.
  intros Hl Hv. unfold min_out_index. assert (Hgen : forall m, foldl (fun m out => if (m =? 0) || (place out <? m) then place out else m) m l <= place v /\
    (0 < m -> foldl (fun m out => if (m =? 0) || (place out <? m) then place out else m) m l <= m) /\ 0 < foldl (fun m out => if (m =? 0) || (place out <? m) then place out else m) m l).
  2: { specialize (Hgen 0). lia. }
  clear - Hl Hv. revert Hl Hv. induction l as [|x l IH]; intros Hl Hv m; [by apply not_elem_of_nil in Hv|]. cbn [foldl]. set (m1 := if (m =? 0) || (place x <? m) then place x else m).
  assert (Hm1 : 0 < m1 <= place x /\ (0 < m -> m1 <= m)). { pose proof (Hl x ltac:(left)). unfold m1. destruct (Nat.eqb_spec m 0), (Nat.ltb_spec (place x) m); simpl; lia. }
  clearbody m1. assert (Hle : forall m, 0 < m -> 0 < foldl (fun m out => if (m =? 0) || (place out <? m) then place out else m) m l <= m).
  { assert (Hl' : forall w, w ∈ l -> 0 < place w) by (intros w Hw; apply Hl; by right). clear - Hl'. induction l as [|y l IH]; intros m Hm; cbn [foldl]; [lia|].
    pose proof (Hl' y ltac:(left)). destruct (Nat.eqb_spec m 0), (Nat.ltb_spec (place y) m); simpl;
      (match goal with |- context [foldl _ ?k l] => pose proof (IH ltac:(intros w Hw; apply Hl'; by right) k) end); lia. }
  pose proof (Hle m1 ltac:(lia)). apply elem_of_cons in Hv as [->|Hv]; [lia|]. destruct (IH ltac:(intros w Hw; apply Hl; by right) Hv m1) as (I1 & I2 & I3). lia.
Qed.

(** ** The invariant *)

(** Slot [j] of the delayed nodes, from slot [i] on untouched ones still end in
    their own node; nodes only move to later slots; edges go from earlier to later;
    in a slot that may still move, only its own node is used outside it. *)
Record DInv (i : nat) (d : list (bool * list nat)) : Prop := {
  d_length : length d = length ns;
  d_perm : concat d.*2 ≡ₚ ns;
  d_own j b gr : i <= j -> d !! j = Some (b, gr) -> exists pre n, gr = pre ++ [n] /\ ns !! j = Some n;
  d_later j b gr n : d !! j = Some (b, gr) -> n ∈ gr -> place n <= j;
  d_edges u v j k bj bk gj gk : u ∈ D -> v ∈ outs u -> d !! j = Some (bj, gj) -> d !! k = Some (bk, gk) -> u ∈ gj -> v ∈ gk -> j < k \/ (j = k /\ before gj u v);
  d_inside j gr u v : d !! j = Some (true, gr) -> u ∈ gr -> place u <> j -> v ∈ outs u -> v ∈ gr;
}.

Lemma groups_lookup (d : list (bool * list nat)) j b gr : d !! j = Some (b, gr) -> d.*2 !! j = Some gr.
Proof. intros E. by rewrite list_lookup_fmap, E. Qed.

Lemma concat_nodup (d : list (bool * list nat)) : concat d.*2 ≡ₚ ns -> NoDup (concat d.*2).
Proof. intros ->. apply ns_nodup. Qed.

Lemma delay_start : DInv 0 ((fun n => (true, [n])) <$> ns).
Proof.
  assert (Hl : forall j b gr, ((fun n => (true, [n])) <$> ns) !! j = Some (b, gr) -> exists n, ns !! j = Some n /\ gr = [n]).
  { intros j b gr Hj. rewrite list_lookup_fmap in Hj. destruct (ns !! j) as [n|]; [|done]. injection Hj as <- <-. by exists n. }
  split.
  - apply length_fmap.
  - clear. induction ns as [|n l IH]; simpl; [done|]. by apply Permutation_skip.
  - intros j b gr _ (n & Hn & ->)%Hl. by exists [], n.
  - intros j b gr n (m & Hm & ->)%Hl ->%list_elem_of_singleton. by rewrite (place_lookup j m).
  - intros u v j k bj bk gj gk Hu Huv (m & Hm & ->)%Hl (m' & Hm' & ->)%Hl ->%list_elem_of_singleton ->%list_elem_of_singleton. left.
    pose proof (edge_places m m' Hu Huv). by rewrite (place_lookup j m), (place_lookup k m') in H.
  - intros j gr u v (m & Hm & ->)%Hl ->%list_elem_of_singleton Hne _. by rewrite (place_lookup j m) in Hne.
Qed.

Lemma delay_skip i d : DInv i d -> DInv (S i) d.
Proof. intros [H1 H2 H3 H4 H5 H6]. split; try done. intros j b gr Hj. apply H3. lia. Qed.

Section move.
Context (i k : nat) (d : list (bool * list nat)) (gi gk : list nat) (f : bool) (c : nat).
Context (HI : DInv i d) (Hi : d !! i = Some (true, gi)) (Hk : d !! k = Some (f, gk)) (Hik : i < k).
Context (Hget : GetOutNodeIndex g place gi = Some (k, c)).
Abbreviation f' := (if 1 <? c then false else f).
Abbreviation d' := (<[i := (true, [])]> (<[k := (f', gi ++ gk)]> d)).

Lemma moved_lookup j b gr : d' !! j = Some (b, gr) -> (j = i /\ gr = []) \/ (j = k /\ b = f' /\ gr = gi ++ gk) \/ (j <> i /\ j <> k /\ d !! j = Some (b, gr)).
Proof.
  pose proof (lookup_lt_Some _ _ _ Hi). pose proof (lookup_lt_Some _ _ _ Hk). destruct (decide (j = i)) as [->|Hji].
  - rewrite list_lookup_insert_eq by (by rewrite length_insert). intros [= <- <-]. by left.
  - rewrite list_lookup_insert_ne by done. destruct (decide (j = k)) as [->|Hjk].
    + rewrite list_lookup_insert_eq by done. intros [= <- <-]. right. by left.
    + rewrite list_lookup_insert_ne by done. intros ?. right. by right.
Qed.

Lemma moved_perm : concat d'.*2 ≡ₚ ns.
Proof. rewrite <- (d_perm _ _ HI). rewrite !list_fmap_insert. simpl. apply move_perm; [done|by eapply groups_lookup..]. Qed.

(** The own node of the group that moves, and its uses. *)
Lemma moved_own : exists pre n, gi = pre ++ [n] /\ ns !! i = Some n /\ (forall v, v ∈ outs n -> k <= place v) /\ c = length (outs n).
Proof.
  destruct (d_own _ _ HI i true gi ltac:(lia) Hi) as (pre & n & E & Hn). exists pre, n. split_and!; [done..| |].
  - intros v Hv. unfold GetOutNodeIndex in Hget. rewrite E, last_snoc in Hget. repeat case_match; simplify_eq.
    assert (HnD : n ∈ D) by (destruct Hns as [Hp _]; rewrite <- Hp; by eapply list_elem_of_lookup_2). apply min_out_least; [|done]. intros w Hw. pose proof (edge_places n w HnD Hw). lia.
  - unfold GetOutNodeIndex in Hget. rewrite E, last_snoc in Hget. by repeat case_match; simplify_eq.
Qed.

(** Where a member of the moving group is used. *)
Lemma moved_uses u v : u ∈ gi -> u ∈ D -> v ∈ outs u -> v ∈ gi \/ k <= place v.
Proof.
  destruct moved_own as (pre & n & E & Hn & Hmin & _). intros Hu HuD Huv. destruct (decide (place u = i)) as [Hp|Hp].
  - right. apply Hmin. assert (u = n) as <-; [|done]. pose proof (place_spec u HuD) as Hs. rewrite Hp in Hs. congruence.
  - left. by apply (d_inside _ _ HI i gi u v).
Qed.

Lemma moved_edges u v j l bj bl gj gl :
  u ∈ D -> v ∈ outs u -> d' !! j = Some (bj, gj) -> d' !! l = Some (bl, gl) -> u ∈ gj -> v ∈ gl -> j < l \/ (j = l /\ before gj u v).
Proof.
  intros Hu Huv Hj%moved_lookup Hl%moved_lookup Hgj Hgl. pose proof (concat_nodup d (d_perm _ _ HI)) as Hcn.
  assert (Hslot : forall x a ba ga, d !! a = Some (ba, ga) -> x ∈ ga -> place x <= a) by (intros x a ba ga Ha Hx; by eapply (d_later _ _ HI)).
  destruct Hj as [[-> ->]|[(-> & _ & ->)|(Hji & Hjk & Hj)]]; [by apply not_elem_of_nil in Hgj| |];
    (destruct Hl as [[-> ->]|[(-> & _ & ->)|(Hli & Hlk & Hl)]]; [by apply not_elem_of_nil in Hgl| |]).
  - right. split; [done|]. apply elem_of_app in Hgj as [Hgj|Hgj], Hgl as [Hgl|Hgl].
    + apply before_app_l. by destruct (d_edges _ _ HI u v i i true true gi gi Hu Huv Hi Hi Hgj Hgl) as [?|[_ ?]]; [lia|].
    + by apply before_across.
    + destruct (d_edges _ _ HI u v k i f true gk gi Hu Huv Hk Hi Hgj Hgl) as [?|[? _]]; lia.
    + apply before_app_r. by destruct (d_edges _ _ HI u v k k f f gk gk Hu Huv Hk Hk Hgj Hgl) as [?|[_ ?]]; [lia|].
  - left. apply elem_of_app in Hgj as [Hgj|Hgj].
    + destruct (moved_uses u v Hgj Hu Huv) as [Hvi|Hvk]; [destruct Hli; apply (group_unique d.*2 l i gl gi v Hcn); [by eapply groups_lookup..|done|done]|]. pose proof (Hslot v l bl gl Hl Hgl). lia.
    + destruct (d_edges _ _ HI u v k l f bl gk gl Hu Huv Hk Hl Hgj Hgl) as [?|[? _]]; [done|congruence].
  - left. apply elem_of_app in Hgl as [Hgl|Hgl].
    + destruct (d_edges _ _ HI u v j i bj true gj gi Hu Huv Hj Hi Hgj Hgl) as [?|[? _]]; [lia|congruence].
    + destruct (d_edges _ _ HI u v j k bj f gj gk Hu Huv Hj Hk Hgj Hgl) as [?|[? _]]; [done|congruence].
  - by apply (d_edges _ _ HI u v j l bj bl gj gl).
Qed.

Lemma moved_inside j gr u v : d' !! j = Some (true, gr) -> u ∈ gr -> place u <> j -> v ∈ outs u -> v ∈ gr.
Proof.
  intros [[-> ->]|[(-> & Hf & ->)|(Hji & Hjk & Hj)]]%moved_lookup Hu Hp Hv; [by apply not_elem_of_nil in Hu| |by apply (d_inside _ _ HI j gr u v)].
  destruct (Nat.ltb_spec 1 c) as [?|Hc]; [done|]. apply elem_of_app. apply elem_of_app in Hu as [Hu|Hu]; [|right; apply (d_inside _ _ HI k gk u v); [congruence|done..]].
  destruct (decide (place u = i)) as [Hpi|Hpi]; [|left; by apply (d_inside _ _ HI i gi u v)]. right. destruct moved_own as (pre & n & E & Hn & Hmin & Hcn).
  assert (HuD : u ∈ D) by (destruct Hns as [Hpm _]; rewrite <- Hpm, <- (d_perm _ _ HI); apply (concat_group _ i gi); [by eapply groups_lookup|done]).
  assert (u = n) as -> by (pose proof (place_spec u HuD) as Hs; rewrite Hpi in Hs; congruence).
  destruct (d_own _ _ HI k f gk ltac:(lia) Hk) as (pre' & n' & -> & Hn'). apply elem_of_app. right. apply list_elem_of_singleton.
  assert (Hone : outs n = [v]) by (destruct (outs n) as [|a [|b l]]; simpl in Hcn; [by apply not_elem_of_nil in Hv|by apply list_elem_of_singleton in Hv as ->|lia]).
  assert (Hpl : place v = k).
  { unfold GetOutNodeIndex in Hget. rewrite E, last_snoc in Hget. repeat case_match; simplify_eq. rewrite Hone. done. }
  pose proof (place_spec v (Hout n v HuD Hv)) as Hs. rewrite Hpl in Hs. congruence.
Qed.

Lemma delay_moved : DInv (S i) d'.
Proof.
  split; [rewrite !length_insert; apply HI|apply moved_perm| | |apply moved_edges|apply moved_inside].
  - intros j b gr Hj [[-> _]|[(-> & _ & ->)|(_ & _ & Hl)]]%moved_lookup; [lia| |apply (d_own _ _ HI j b gr); [lia|done]].
    destruct (d_own _ _ HI k f gk ltac:(lia) Hk) as (pre' & n' & -> & Hn'). exists (gi ++ pre'), n'. by rewrite app_assoc.
  - intros j b gr n [[-> ->]|[(-> & _ & ->)|(_ & _ & Hl)]]%moved_lookup Hn; [by apply not_elem_of_nil in Hn| |by eapply (d_later _ _ HI)].
    apply elem_of_app in Hn as [Hn|Hn]; [pose proof (d_later _ _ HI i true gi n Hi Hn); lia|by eapply (d_later _ _ HI)].
Qed.
End move.

Lemma delay_step_ok i d : DInv i d -> DInv (S i) (delay_step g place i d).
Proof.
  intros HI. unfold delay_step. destruct (d !! i) as [[[|] gi]|] eqn:Hi; [|by apply delay_skip..]. destruct (GetOutNodeIndex g place gi) as [[k c]|] eqn:Hget; [|by apply delay_skip].
  destruct (d !! k) as [[f gk]|] eqn:Hk; [|by apply delay_skip]. destruct (Nat.ltb_spec (i + 1) k) as [Hik|]; [|by apply delay_skip]. apply delay_moved; try done. lia.
Qed.

Lemma delay_topological : topological D outs (DelayTopoSort g ns).
Proof.
  assert (Hloop : forall len i d, DInv i d -> DInv (i + len) (foldl (fun d i => delay_step g place i d) d (seq i len))).
  { induction len as [|len IH]; intros i d HI; simpl; [by rewrite Nat.add_0_r|]. rewrite <- Nat.add_succ_comm. apply IH. by apply delay_step_ok. }
  unfold DelayTopoSort. pose proof (Hloop (length ns) 0 _ delay_start) as HI. set (d := foldl _ _ _) in *. pose proof (d_perm _ _ HI) as Hp. pose proof (concat_nodup d Hp) as Hn.
  assert (HpD : concat d.*2 ≡ₚ D) by (rewrite Hp; apply Hns). split; [done|]. apply respects_before; [done..|]. intros u v Hu Hv Huv.
  rewrite <- HpD in Hu, Hv. apply in_group in Hu as (j & gj & Hj & Hgj), Hv as (k & gk & Hk & Hgk). rewrite list_lookup_fmap in Hj, Hk.
  destruct (d !! j) as [[bj gj']|] eqn:Ej; [|done]. destruct (d !! k) as [[bk gk']|] eqn:Ek; [|done]. simplify_eq/=. eapply (concat_before d.*2 j k); [by eapply groups_lookup..|done|done|].
  eapply (d_edges _ _ HI u v j k); [|done..]. rewrite <- HpD. apply (concat_group _ j gj); [by eapply groups_lookup|done].
Qed.
End delay.
