(* ===== verification/GraphSortFinal.v ===== *)
(** * GraphSortFinal: what sorting a graph returns *)

From stdpp Require Import strings.
From Stdlib Require Import String.
From S2P Require Import Prelude ExecTopoSound ExecGraph ExecGraphSound GraphSort GraphSortSound GraphSortDelay.

(** * Reverse depth first sorting

    From every node without outputs the walk goes to the inputs first: a node is
    put out when it comes back to the top of the stack, after all its inputs. *)

#[local] Open Scope nat_scope.


Section graph.
Context (g : SortGraph) (Hg : sort_ok g).
Abbreviation D := (direct_nodes g).
Abbreviation info := (sort_node g).
Abbreviation outs := (GetAllOutNodes g).



(** ** Turns *)






(** ** The walk of a graph that can be sorted *)

Section acyclic.
Context (o : list nat) (Ho : topological D outs o).
Abbreviation rank := (place_of o).










End acyclic.
End graph.

#[local] Open Scope nat_scope.

Section graph.
Context (g : SortGraph) (Hg : sort_ok g).
Abbreviation D := (direct_nodes g).
Abbreviation outs := (GetAllOutNodes g).

(** The strategies, before nodes are delayed. *)
Lemma strategy_sorts strategy mem reverse :
  strategy <> kRDFS -> exists order, match strategy with kBFS => BFSTopologicalSorting g mem | kDFS => DFSTopologicalSorting g mem reverse | kRDFS => RDFSTopologicalSorting g end = Some order /\ sorts g order.
Proof. intros Hs. destruct strategy; [by apply bfs_sorts|by apply dfs_sorts|done]. Qed.



(** C36: On a graph none of whose nodes has data from a NextIteration node
    ([sort_ok]), breadth first and depth first sorting fail when there is a closed
    loop, that is, when no order respects the edges.  Edges from a NextIteration
    are not counted by [GetInEdgeSize], so a loop through one does sort
    ([next_iteration_loop_sorts]). *)
Theorem closed_loop_detected strategy mem reverse :
  strategy <> kRDFS -> (forall o, ~ topological D outs o) -> TopologicalSortingGraph g strategy mem reverse = Err GRAPH_FAILED.
Proof.
  intros Hs Hno. destruct (strategy_sorts strategy mem reverse Hs) as (vec & E & [Hv|[Hlen _]]); [by apply Hno in Hv|]. unfold TopologicalSortingGraph. rewrite E.
  by rewrite (proj2 (Nat.eqb_neq _ _)).
Qed.
End graph.

(** * Small graphs sorted, and what goes wrong at the edges *)

#[local] Open Scope nat_scope.

(** ** Graphs from lists *)

(** A node with one data output for each of [outs] and one control edge to each of [ctl]. *)
Definition node (name type : string) (ins ictl : list nat) (outs ctl : list nat) (size : Z) : SortNode :=
  MkSortNode name type (Some <$> ins) (Some <$> ictl) ((fun m => [Some (m, 0%Z)]) <$> outs) (Some <$> ctl) size false.
Definition graph_of (nodes : list SortNode) (order : list nat) (inputs : list string) : SortGraph :=
  MkSortGraph (fun n => nth n nodes (node "" "" [] [] [] [] 0)) order inputs.

(** The conditions on a graph, as a test. *)
Definition sort_test (g : SortGraph) : Prop :=
  NoDup (direct_nodes g) /\ NoDup ((fun n => sn_name (sort_node g n)) <$> direct_nodes g) /\
  Forall (fun n => Forall (fun m => m ∈ direct_nodes g) (GetAllOutNodes g n) /\ Forall (fun m => m ∈ direct_nodes g) (GetInNodes g n) /\
    Forall (fun m => occ m (GetAllOutNodes g n) = occ n (GetInNodes g m)) (direct_nodes g) /\
    Forall (fun e => e.2 <> kControlEdgeIndex) (present (concat (sn_out_data (sort_node g n)))) /\
    Forall (fun m => is_next_iteration g m = false) (present (sn_in_data (sort_node g n))) /\ (Z.of_nat (length (GetInNodes g n)) < 2 ^ 32)%Z) (direct_nodes g).

Lemma sort_test_ok g : sort_test g -> sort_ok g.
Proof.
  intros (Hnd & Hnm & Hall). rewrite Forall_forall in Hall. split; [done| | | | | | |].
  - intros a b [i Hi]%list_elem_of_lookup [j Hj]%list_elem_of_lookup E. assert (i = j) as <-; [|congruence]. eapply (NoDup_lookup _ i j _ Hnm); rewrite list_lookup_fmap; [by rewrite Hi|by rewrite Hj, E].
  - intros n m Hn. destruct (Hall n Hn) as (H & _). rewrite Forall_forall in H. apply H.
  - intros n m Hn. destruct (Hall n Hn) as (_ & H & _). rewrite Forall_forall in H. apply H.
  - intros n m Hn. destruct (Hall n Hn) as (_ & _ & H & _). rewrite Forall_forall in H. apply H.
  - intros n e Hn. destruct (Hall n Hn) as (_ & _ & _ & H & _). rewrite Forall_forall in H. apply H.
  - intros n m Hn Hm. destruct (Hall n Hn) as (_ & _ & _ & _ & H & _). rewrite Forall_forall in H. apply H. apply list_elem_of_omap. by exists (Some m).
  - intros n Hn. by destruct (Hall n Hn) as (_ & _ & _ & _ & _ & H).
Qed.




(** Two nodes that wait for each other, and one that follows. *)
Definition loop : SortGraph := graph_of
  [node "a" "Add" [1] [] [1] [] 4; node "b" "Add" [0] [] [0; 2] [] 4; node "out" "NetOutput" [1] [] [] [] 0] [0; 1; 2] [].

Lemma loop_sort_ok : sort_ok loop.
Proof. apply sort_test_ok. apply (bool_decide_unpack _). by vm_compute. Qed.

Lemma loop_unsortable o : ~ topological (direct_nodes loop) (GetAllOutNodes loop) o.
Proof.
  intros [Hp Hr]. assert (Ha : 0 ∈ o) by (rewrite Hp; by apply (bool_decide_unpack _)). apply list_elem_of_split in Ha as (l1 & l2 & E).
  assert (H1 : 1 ∈ l1) by (apply (Hr l1 0 l2 E); by apply (bool_decide_unpack _)). apply list_elem_of_split in H1 as (k1 & k2 & ->).
  assert (H0 : 0 ∈ k1) by (apply (Hr k1 1 (k2 ++ 0 :: l2)); [by rewrite E, <- app_assoc|by apply (bool_decide_unpack _)..]).
  assert (Hnd : NoDup o) by (rewrite Hp; apply (bool_decide_unpack _); by vm_compute). rewrite E in Hnd. apply NoDup_app in Hnd as (_ & Hd & _). apply (Hd 0); [|left]. apply elem_of_app. by left.
Qed.

Module RunsSort.

Lemma closed_loop_detected_run : TopologicalSortingGraph loop kDFS true false = Err GRAPH_FAILED.
Proof. exact (closed_loop_detected loop loop_sort_ok kDFS true false ltac:(discriminate) loop_unsortable). Defined.
End RunsSort.

(** ** Edges *)

(** Reverse depth first sorting returns an order for the loop. *)
Theorem reverse_dfs_misses_loop : exists order, TopologicalSortingGraph loop kRDFS false false = Ok order /\ ~ topological (direct_nodes loop) (GetAllOutNodes loop) order.
Proof. eexists. split; [vm_compute; reflexivity|]. apply loop_unsortable. Qed.

(** A loop closed by a NextIteration sorts, the edge back to the merge not being
    counted, though no order respects it. *)
Definition while_loop : SortGraph := graph_of
  [node "enter" "Enter" [] [] [1] [] 4; node "merge" "Merge" [0; 2] [] [2; 3] [] 4;
   node "next" "NextIteration" [1] [] [1] [] 4; node "out" "NetOutput" [1] [] [] [] 0] [0; 1; 2; 3] [].
Theorem next_iteration_loop_sorts :
  TopologicalSortingGraph while_loop kBFS false false = Ok [0; 1; 2; 3] /\ TopologicalSortingGraph while_loop kDFS false false = Ok [0; 1; 3; 2] /\
  1 ∈ GetAllOutNodes while_loop 2 /\ 2 ∈ GetAllOutNodes while_loop 1.
Proof. split_and!; [vm_compute; reflexivity..| |]; apply (bool_decide_unpack _); by vm_compute. Qed.

(** Three inputs the user wants in the order a, b, c come as a, c, b. *)
Theorem inputs_order_not_kept :
  let g := graph_of [node "b" "Data" [] [] [] [] 4; node "c" "Data" [] [] [] [] 4; node "a" "Data" [] [] [] [] 4] [0; 1; 2] ["a"; "b"; "c"] in
  TopologicalSortingGraph g kDFS false false = Ok [2; 1; 0].
Proof. vm_compute. reflexivity. Qed.
