(* ===== verification/SchedTask.v ===== *)
(** * SchedTask: the tasks of the multi-thread executor

    [runtime/v2/core/executor/multi_thread_topological/executor/schedule]: the
    tag that chooses a kernel's worker group ([kernel_tags.cc]), the task
    ([exec_task.cc]) and the interface between the scheduler and the producers
    of tasks ([task_producer.h], [tagged_task_producer.h]).  The fields of a
    task that only the kernel producer sets ([indegree_], [watcher_tasks_],
    [priority_] and their like) keep their first values with the producers
    modelled here: a task is ready from the start and has no watchers. *)

From stdpp Require Import strings.
From S2P Require Import Prelude ExecReady ExecTopo ExecTopoSound ExecGraph.

#[local] Open Scope nat_scope.

Definition GRAPH_SUCCESS : Z := 0.
Definition END_OF_SEQUENCE : Z := 1343225863.

(** ** Tags *)

Inductive ExecTaskType := NORMAL | MEMORY | LAUNCH | MAX.

#[export] Instance ExecTaskType_eq_dec : EqDecision ExecTaskType.
Proof. solve_decision. Defined.

Definition type_index (t : ExecTaskType) : nat :=
  match t with NORMAL => 0 | MEMORY => 1 | LAUNCH => 2 | MAX => 3 end.

(** [GetKernelType] of a node, and the [critical_section] that the kernel
    registry has for a kernel type. *)
Class KernelInfo := {
  GetKernelType : nat -> option string;
  FindKernelInfo : string -> option string;
}.

Definition IsExecuteOpPrepareNode : string -> bool := is_type "ExecuteOpPrepare".
Definition IsBuildTensorNode (t : string) : bool := is_type "BuildTensor" t || is_type "BuildTensorStorage" t || is_type "BuildTensorPureShape" t.
Definition IsIdentityNode (t : string) : bool := is_type "IdentityAddr" t || is_type "IdentityShapeAndAddr" t.
Definition IsSplitDataTensorNode : string -> bool := is_type "SplitDataTensor".
Definition IsAllocHostCpuOutputMemoryNode : string -> bool := is_type "AllocHostCpuOutputMemory".

Definition IsBrokenNormalToMemoryWaterFlowNode (t : string) : bool :=
  IsAllocHostCpuOutputMemoryNode t || IsSplitDataTensorNode t || IsBuildTensorNode t || IsIdentityNode t.

Definition IsMemoryToNormalWaterFlowNode (t : string) : bool := IsExecuteOpPrepareNode t.

(** Kernels that choose among their watchers when they run. *)
Definition IsSwitchNotify `{KernelInfo} (node : nat) : bool :=
  match GetKernelType node with Some t => is_type "SwitchNotify" t || is_type "CondSwitchNotify" t | None => false end.

Definition critical_to_types (critical_section : string) : option ExecTaskType :=
  if bool_decide (critical_section = "memory"%string) then Some MEMORY else None.

Record KernelTags := MkTags { thread_num_ : nat; node_tags_ : list ExecTaskType }.

Section tags.
Context `{KernelInfo}.

(** [resize] keeps the tags that are there. *)
Definition Reset (node_num thread_num : nat) (tags : KernelTags) : KernelTags :=
  MkTags thread_num (resize (node_num + 1) MAX (node_tags_ tags)).

Definition UpdateTag (kernel : nat) (tags : KernelTags) : outcome (ExecTaskType * KernelTags) :=
  let put (t : ExecTaskType) tags := l ← write (node_tags_ tags) kernel t; Ok (MkTags (thread_num_ tags) l) in
  tags ← put NORMAL tags;
  match GetKernelType kernel with
  | None => Ok (NORMAL, tags)
  | Some node_type =>
      match FindKernelInfo node_type with
      | None => Ok (NORMAL, tags)
      | Some critical_section =>
          tags ← (if IsLaunchNode node_type then put LAUNCH tags else Ok tags);
          tags ← match critical_to_types critical_section with Some t => put t tags | None => Ok tags end;
          tags ← (if IsBrokenNormalToMemoryWaterFlowNode node_type && (thread_num_ tags =? 3) then put NORMAL tags else Ok tags);
          tags ← (if IsMemoryToNormalWaterFlowNode node_type then put MEMORY tags else Ok tags);
          t ← at_ (node_tags_ tags) kernel;
          Ok (t, tags)
      end
  end.

Definition GetByNode (kernel : nat) (tags : KernelTags) : outcome (ExecTaskType * KernelTags) :=
  t ← at_ (node_tags_ tags) kernel;
  if bool_decide (t <> MAX) then Ok (t, tags) else UpdateTag kernel tags.

(** The tag of a kernel, without the table. *)
Definition tag_of (thread_num : nat) (kernel : nat) : ExecTaskType :=
  match GetKernelType kernel ≫= fun node_type => (fun c => (node_type, c)) <$> FindKernelInfo node_type with
  | None => NORMAL
  | Some (node_type, critical_section) =>
      if IsMemoryToNormalWaterFlowNode node_type then MEMORY
      else if IsBrokenNormalToMemoryWaterFlowNode node_type && (thread_num =? 3) then NORMAL
      else default (if IsLaunchNode node_type then LAUNCH else NORMAL) (critical_to_types critical_section)
  end.

(** The table is a cache of [tag_of] for [n] kernels. *)
Definition tags_ok (n : nat) (tags : KernelTags) : Prop :=
  n < length (node_tags_ tags) /\ forall k t, node_tags_ tags !! k = Some t -> t = MAX \/ t = tag_of (thread_num_ tags) k.

End tags.

(** ** Tasks *)

(** [ran] is not in the code: the kernels that [Execute] has called. *)
Record ExecTask := MkTask { task_node_list_ : list nat; type_ : ExecTaskType; kernel_ret_ : Z; ran : list nat }.

Definition NewTask : ExecTask := MkTask [] NORMAL kStatusFailed [].

Definition SetType (t : ExecTaskType) (task : ExecTask) : ExecTask := MkTask (task_node_list_ task) t (kernel_ret_ task) (ran task).
Definition AddNode (kernel : nat) (task : ExecTask) : ExecTask :=
  MkTask (task_node_list_ task ++ [kernel]) (type_ task) (kernel_ret_ task) (ran task).
Definition set_ran (l : list nat) (task : ExecTask) : ExecTask := MkTask (task_node_list_ task) (type_ task) (kernel_ret_ task) l.

(** One pass of the loop of [Execute] over the task's kernels, which calls
    [kernel]; the kernel's status decides whether the loop goes on. *)
Definition call_kernel `{Kernels} (kernel : nat) (task : ExecTask) (m : KernelMem) : bool * ExecTask * KernelMem :=
  let '(ret, m) := func kernel m in
  let task := MkTask (task_node_list_ task) (type_ task) ret (ran task ++ [kernel]) in
  (bool_decide (ret = kStatusSuccess) || bool_decide (ret = END_OF_SEQUENCE), task, m).

(** ** Producers *)

(** What a producer reads and writes of the execution data. *)
Record ProducerData := MkData {
  pd_nodes : list nat;
  pd_start_nodes : list nat;
  pd_indegrees : list Z;
  pd_backup : list Z;
}.

Definition set_degrees (d : list Z) (ed : ProducerData) : ProducerData := MkData (pd_nodes ed) (pd_start_nodes ed) d (pd_backup ed).

(** Statuses are [Z]; watchers are read from the memory of the kernels. *)
Class TaskProducer `{Kernels} (P : Type) := {
  StartUp : KernelMem -> P -> outcome (Z * P);
  Produce : P -> list ExecTask * P;
  DoRecycleTask : KernelMem -> ExecTask -> P -> outcome (Z * P);
  EndUp : P -> outcome (Z * P);
}.

(** [TaggedTaskProducer::Recycle]; what is left of the package after a failure
    goes back to the pool of tasks. *)
Fixpoint Recycle `{TaskProducer P} (m : KernelMem) (package : list ExecTask) (s : P) : outcome (Z * P) :=
  match package with
  | [] => Ok (kStatusSuccess, s)
  | task :: package =>
      '(ret, s) ← DoRecycleTask m task s;
      if bool_decide (ret <> kStatusSuccess) then Ok (ret, s) else Recycle m package s
  end.

(** ** The table of tags *)

Section tags_proofs.
Context `{KernelInfo}.

Lemma tag_of_not_max n k : tag_of n k <> MAX.
Proof. unfold tag_of, critical_to_types. repeat case_match; simplify_eq/=; try done; repeat case_match; done. Qed.

Lemma write_ok {A} (l : list A) i v : i < length l -> write l i v = Ok (<[i := v]> l).
Proof. intros. unfold write. by rewrite decide_True by done. Qed.

(** Whatever was looked up before, [GetByNode] gives the tag of the kernel. *)
Lemma GetByNode_ok n k tags :
  tags_ok n tags -> k <= n -> exists tags', GetByNode k tags = Ok (tag_of (thread_num_ tags) k, tags') /\ tags_ok n tags' /\ thread_num_ tags' = thread_num_ tags.
Proof.
  intros [Hlen Hok] Hk. destruct tags as [tn l]; simpl in *. assert (Hkl : k < length l) by lia.
  destruct (lookup_lt_is_Some_2 l k Hkl) as [t Et]. unfold GetByNode. simpl. rewrite (proj2 (at_Ok _ _ _) Et). cbn [mbind outcome_bind].
  case_bool_decide as Hmax; [exists (MkTags tn l); destruct (Hok _ _ Et) as [->| ->]; done|].
  assert (Hput : forall t, t = tag_of tn k -> tags_ok n (MkTags tn (<[k := t]> l))).
  { intros t' ->. split; simpl; [by rewrite length_insert|]. intros j u. destruct (decide (j = k)) as [->|Hne].
    - rewrite list_lookup_insert_eq by done. intros [= <-]. by right.
    - rewrite list_lookup_insert_ne by done. apply Hok. }
  unfold UpdateTag. simpl. rewrite write_ok by done. cbn [mbind outcome_bind].
  assert (Hw : forall t t', write (<[k := t]> l) k t' = Ok (<[k := t']> l)).
  { intros. rewrite write_ok by (by rewrite length_insert). by rewrite list_insert_insert_eq. }
  assert (Hat : forall t, at_ (<[k := t]> l) k = Ok t) by (intros; by apply at_Ok, list_lookup_insert_eq).
  assert (Hdone : forall t, t = tag_of tn k -> exists tags', Ok (t, MkTags tn (<[k := t]> l)) = Ok (tag_of tn k, tags') /\ tags_ok n tags' /\ thread_num_ tags' = tn) by (intros ? ->; eauto).
  destruct (GetKernelType k) as [node_type|] eqn:E1; simpl; [|apply Hdone; unfold tag_of; by rewrite E1].
  destruct (FindKernelInfo node_type) as [c|] eqn:E2; simpl; [|apply Hdone; unfold tag_of; rewrite E1; simpl; by rewrite E2].
  destruct (IsLaunchNode node_type) eqn:E4, (critical_to_types c) as [u|] eqn:E5, (IsBrokenNormalToMemoryWaterFlowNode node_type && (tn =? 3)) eqn:E3,
    (IsMemoryToNormalWaterFlowNode node_type) eqn:E6; repeat (rewrite ?Hw; cbn [mbind outcome_bind thread_num_ node_tags_]; rewrite ?E3); rewrite Hat;
    apply Hdone; unfold tag_of; rewrite E1; simpl; rewrite E2; simpl; rewrite E6; try done; rewrite E3; try done; rewrite E5; simpl; by rewrite ?E4.
Qed.

Lemma Reset_ok n tn : tags_ok n (Reset n tn (MkTags 0 [])).
Proof.
  split; simpl; [rewrite length_resize; lia|]. intros k t Hk. left. rewrite resize_nil in Hk. by apply lookup_replicate in Hk as [-> _].
Qed.

End tags_proofs.

(** * What a producer of tasks promises

    The scheduler's theorems are proved against [ProducerLaws]: a producer hands
    out every node of a plan once, in tasks whose nodes can run one after the
    other as soon as the task is handed out. *)

#[local] Open Scope nat_scope.

(** Memories whose watchers are those of the plan. *)
Definition watched {K : Kernels} (p : Plan) (m : KernelMem) : Prop := forall x, x ∈ p_active p -> node_watchers m x = Some (p_watchers p x).

(** [l] can run, in this order, when [before] have run. *)
Fixpoint legal (p : Plan) (before l : list nat) : Prop :=
  match l with
  | [] => True
  | x :: l => (forall w, w ∈ p_active p -> x ∈ p_watchers p w -> w ∈ before) /\ legal p (x :: before) l
  end.

Lemma legal_mono p b b' l : b ⊆ b' -> legal p b l -> legal p b' l.
Proof. revert b b'. induction l as [|x l IH]; simpl; intros b b' Hb; [done|]. intros [Hx Hl]. split; [intros; by apply Hb, Hx|]. eapply IH; [|done]. set_solver. Qed.

Lemma legal_app p b l1 l2 : legal p b (l1 ++ l2) <-> legal p b l1 /\ legal p (rev l1 ++ b) l2.
Proof.
  revert b. induction l1 as [|x l1 IH]; simpl; intros b; [tauto|]. rewrite IH, <- app_assoc. simpl. tauto.
Qed.

Lemma legal_pred p b l x w : legal p b l -> x ∈ l -> w ∈ p_active p -> x ∈ p_watchers p w -> w ∈ b ++ l.
Proof.
  revert b. induction l as [|y l IH]; simpl; intros b Hl Hx Hw Hxw; [by apply not_elem_of_nil in Hx|]. destruct Hl as [Hy Hl].
  apply elem_of_cons in Hx as [->|Hx]; [specialize (Hy _ Hw Hxw); set_solver|]. specialize (IH _ Hl Hx Hw Hxw). set_solver.
Qed.

(** A task that no worker has seen. *)
Definition fresh_task (t : ExecTask) : Prop := ran t = [] /\ type_ t <> MAX.

(** [active s K out]: the kernels [K] are recycled, tasks with the kernels [out]
    are handed out and not recycled. *)
Class ProducerLaws {K : Kernels} (p : Plan) (P : Type) {TP : TaskProducer P} := {
  at_rest : P -> Prop;
  active : P -> list nat -> list (list nat) -> Prop;
  law_startup m s : watched p m -> at_rest s -> exists s', StartUp m s = Ok (kStatusSuccess, s') /\ active s' [] [];
  law_produce s k out :
    active s k out ->
    active (Produce s).2 k (out ++ (task_node_list_ <$> (Produce s).1)) /\ Forall fresh_task (Produce s).1 /\ (Produce (Produce s).2).1 = [];
  law_recycle m s k t out :
    watched p m -> active s k (task_node_list_ t :: out) -> kernel_ret_ t = kStatusSuccess ->
    exists s', DoRecycleTask m t s = Ok (kStatusSuccess, s') /\ active s' (k ++ task_node_list_ t) out;
  law_failed m s t : kernel_ret_ t <> kStatusSuccess -> DoRecycleTask m t s = Ok (kernel_ret_ t, s);
  law_perm s k out out' : out ≡ₚ out' -> active s k out -> active s k out';
  law_legal s k out l : active s k out -> l ∈ out -> l <> [] /\ legal p k l;
  law_once s k out : active s k out -> NoDup (k ++ concat out) /\ k ++ concat out ⊆ p_active p;
  law_finish s k : active s k [] -> (Produce s).1 = [] -> k ≡ₚ p_active p /\ exists s', EndUp s = Ok (kStatusSuccess, s') /\ at_rest s';
}.
