(* ===== verification/SchedChain.v ===== *)
(** * SchedChain: two producers of tasks

    [chain_task_producer.cc]: a task is a node with the nodes that wait for it
    alone, and so on; [single_task_producer.cc]: one task with all nodes.
    Recursion is bounded by the number of nodes; [SchedChainSound] shows
    that this is enough. *)

From S2P Require Import Prelude ExecReady ExecTopo SchedTask.

#[local] Open Scope nat_scope.

Definition read_watchers `{Kernels} (m : KernelMem) (node : nat) : outcome (list nat) :=
  match node_watchers m node with Some l => Ok l | None => Fault end.

(** [--node_indegrees[id]] and what it leaves. *)
Definition decrement (id : nat) (ed : ProducerData) : outcome (Z * ProducerData) :=
  d ← at_ (pd_indegrees ed) id;
  l ← write (pd_indegrees ed) id (d - 1)%Z;
  Ok ((d - 1)%Z, set_degrees l ed).

(** [node_indegrees[id] = node_indegrees_backup[id]] *)
Definition restore (id : nat) (ed : ProducerData) : outcome ProducerData :=
  b ← at_ (pd_backup ed) id;
  l ← write (pd_indegrees ed) id b;
  Ok (set_degrees l ed).

(** ** Chains *)

(** [allocs] counts the calls of [task_allocator_.New]. *)
Record ChainTaskProducer := MkChain { c_data : ProducerData; c_tasks : list ExecTask; c_tags : KernelTags; c_allocs : nat }.

Definition c_set_data (ed : ProducerData) (c : ChainTaskProducer) := MkChain ed (c_tasks c) (c_tags c) (c_allocs c).
Definition c_push (task : ExecTask) (c : ChainTaskProducer) := MkChain (c_data c) (c_tasks c ++ [task]) (c_tags c) (c_allocs c).

Module Chain.
Section chain.
Context `{Kernels} `{KernelInfo}.
(** Whether the [n]-th [New] returns a task and not a null pointer. *)
Context (memory : nat -> bool).

Definition New (c : ChainTaskProducer) : option ExecTask * ChainTaskProducer :=
  (if memory (c_allocs c) then Some NewTask else None, MkChain (c_data c) (c_tasks c) (c_tags c) (S (c_allocs c))).

Definition Prepare (ed : ProducerData) (c : ChainTaskProducer) : ChainTaskProducer :=
  MkChain ed (c_tasks c) (Reset (length (pd_nodes ed)) 0 (c_tags c)) (c_allocs c).

Definition AddKernel (task : ExecTask) (node : nat) (c : ChainTaskProducer) : outcome (ExecTask * ChainTaskProducer) :=
  '(kernel_tag, tags) ← GetByNode node (c_tags c);
  let c := MkChain (c_data c) (c_tasks c) tags (c_allocs c) in
  if bool_decide (kernel_tag = NORMAL) then Ok (AddNode node task, c) else Ok (AddNode node (SetType kernel_tag task), c).

Fixpoint CollectChain (fuel : nat) (m : KernelMem) (node : nat) (s : ExecTask * ChainTaskProducer) : outcome (ExecTask * ChainTaskProducer) :=
  match fuel with
  | O => Fault
  | S fuel =>
      '(task, c) ← AddKernel s.1 node s.2;
      if IsSwitchNotify node then Ok (task, c) else
      watchers ← read_watchers m node;
      foldM (fun dst_id s =>
        b ← at_ (pd_backup (c_data s.2)) dst_id;
        if (b =? 1)%Z then
          '(d, ed) ← decrement dst_id (c_data s.2);
          let s := (s.1, c_set_data ed s.2) in
          if (d =? 0)%Z then next ← at_ (pd_nodes ed) dst_id; CollectChain fuel m next s else Ok s
        else Ok s) watchers (task, c)
  end.

Definition fuel_of (c : ChainTaskProducer) : nat := length (pd_nodes (c_data c)) + 1.

Definition StartUp (m : KernelMem) (c : ChainTaskProducer) : outcome (Z * ChainTaskProducer) :=
  c ← foldM (fun node c =>
        match New c with
        | (Some task, c) => '(task, c) ← CollectChain (fuel_of c) m node (task, c); Ok (c_push task c)
        | (None, c) => Ok c
        end) (pd_start_nodes (c_data c)) c;
  Ok (kStatusSuccess, c).

Definition notify (m : KernelMem) (node_id : nat) (c : ChainTaskProducer) : outcome ChainTaskProducer :=
  d ← at_ (pd_indegrees (c_data c)) node_id;
  if (d =? 0)%Z then ed ← restore node_id (c_data c); Ok (c_set_data ed c)
  else
    '(d, ed) ← decrement node_id (c_data c);
    let c := c_set_data ed c in
    if (d =? 0)%Z then
      match New c with
      | (Some task, c) =>
          next ← at_ (pd_nodes (c_data c)) node_id;
          '(task, c) ← CollectChain (fuel_of c) m next (task, c);
          let c := c_push task c in
          ed ← restore node_id (c_data c);
          Ok (c_set_data ed c)
      | (None, c) => Ok c
      end
    else Ok c.

Definition KernelDone (m : KernelMem) (node : nat) (c : ChainTaskProducer) : outcome ChainTaskProducer :=
  watchers ← read_watchers m node;
  foldM (notify m) watchers c.

(** [Free] gives the task back to the pool. *)
Definition DoRecycleTask (m : KernelMem) (task : ExecTask) (c : ChainTaskProducer) : outcome (Z * ChainTaskProducer) :=
  if bool_decide (kernel_ret_ task <> GRAPH_SUCCESS) then Ok (kernel_ret_ task, c)
  else c ← foldM (KernelDone m) (task_node_list_ task) c; Ok (kStatusSuccess, c).

Definition Produce (c : ChainTaskProducer) : list ExecTask * ChainTaskProducer :=
  (c_tasks c, MkChain (c_data c) [] (c_tags c) (c_allocs c)).

#[export] Instance chain_producer : TaskProducer ChainTaskProducer := {|
  SchedTask.StartUp := StartUp;
  SchedTask.Produce := Produce;
  SchedTask.DoRecycleTask := DoRecycleTask;
  EndUp c := Ok (kStatusSuccess, c);
|}.

End chain.
End Chain.

(** ** One task *)

Record SingleTaskProducer := MkSingle { s_data : ProducerData; s_tasks : list ExecTask; execTask_ : ExecTask }.

Module Single.
Section single.
Context `{Kernels}.

Definition set_data (ed : ProducerData) (s : SingleTaskProducer) := MkSingle ed (s_tasks s) (execTask_ s).

Fixpoint TravelNodes (fuel : nat) (m : KernelMem) (node : nat) (s : SingleTaskProducer) : outcome SingleTaskProducer :=
  match fuel with
  | O => Fault
  | S fuel =>
      let s := MkSingle (s_data s) (s_tasks s) (AddNode node (execTask_ s)) in
      watchers ← read_watchers m node;
      foldM (fun node_id s =>
        '(d, ed) ← decrement node_id (s_data s);
        let s := set_data ed s in
        if (d =? 0)%Z then
          next ← at_ (pd_nodes ed) node_id;
          s ← TravelNodes fuel m next s;
          ed ← restore node_id (s_data s);
          Ok (set_data ed s)
        else Ok s) watchers s
  end.

Definition StartUp (m : KernelMem) (s : SingleTaskProducer) : outcome (Z * SingleTaskProducer) :=
  s ← foldM (TravelNodes (length (pd_nodes (s_data s)) + 1) m) (pd_start_nodes (s_data s)) s;
  Ok (kStatusSuccess, MkSingle (s_data s) (s_tasks s ++ [execTask_ s]) (execTask_ s)).

Definition Produce (s : SingleTaskProducer) : list ExecTask * SingleTaskProducer := (s_tasks s, MkSingle (s_data s) [] (execTask_ s)).

(** The task that comes back is the one the producer keeps. *)
Definition DoRecycleTask (_ : KernelMem) (task : ExecTask) (s : SingleTaskProducer) : outcome (Z * SingleTaskProducer) :=
  Ok (kStatusSuccess, MkSingle (s_data s) (s_tasks s) task).

#[export] Instance single_producer : TaskProducer SingleTaskProducer := {|
  SchedTask.StartUp := StartUp;
  SchedTask.Produce := Produce;
  SchedTask.DoRecycleTask := DoRecycleTask;
  EndUp s := Ok (kStatusSuccess, s);
|}.

End single.
End Single.
