(* ===== verification/SchedChainSound.v ===== *)
(** * SchedChainSound: the chain producer keeps its promise

    Starting up, recycling and finishing in terms of the invariant, and the
    instance of [ProducerLaws]. *)

From S2P Require Import Prelude ExecReady ExecTopo ExecTopoSound SchedTask SchedChain.

(** * The indegrees of the chain producer

    A node is recycled, collected or left.  The indegree of a node that is left
    counts the edges from nodes that are not recycled; that of a collected node
    is zero until the node before it is recycled, and then what it was at first. *)

#[local] Open Scope nat_scope.

Section chain.
Context {K : Kernels} {KI : KernelInfo} (p : Plan) (Hp : plan_ok p).
Abbreviation A := (p_active p).
Abbreviation W := (p_watchers p).
Abbreviation E := (p_edges p).
Abbreviation deg := (p_indegrees p).
Implicit Types (c : ChainTaskProducer) (d : list Z).

Lemma occ_edge x y : x ∈ A -> occ y (W x) <= occ y E.
Proof.
  unfold p_edges. intros Hx. apply list_elem_of_split in Hx as (l1 & l2 & ->). rewrite bind_app. simpl. rewrite !occ_app. lia.
Qed.

Lemma occ_pos y l : y ∈ l -> 0 < occ y l.
Proof. intros Hy. destruct (occ y l) eqn:Eo; [|lia]. by apply occ_zero in Eo. Qed.

Lemma bind_pred (l : list nat) y : 0 < occ y (l ≫= W) -> exists w, w ∈ l /\ y ∈ W w.
Proof.
  intros Ho. assert (Hin : y ∈ l ≫= W) by (destruct (decide (y ∈ l ≫= W)) as [?|Hn]; [done|apply occ_zero in Hn; lia]).
  apply list_elem_of_bind in Hin as (w & ? & ?). eauto.
Qed.

(** A node with one edge has one node before it. *)
Lemma one_pred y w w' : occ y E = 1 -> w ∈ A -> w' ∈ A -> y ∈ W w -> y ∈ W w' -> w = w'.
Proof.
  intros Ho Hw Hw' Hy Hy'. destruct (decide (w = w')) as [|Hne]; [done|]. exfalso. unfold p_edges in Ho.
  apply list_elem_of_split in Hw as (l1 & l2 & EA). rewrite EA in Ho, Hw'. rewrite bind_app in Ho. simpl in Ho. rewrite !occ_app in Ho.
  pose proof (occ_pos _ _ Hy). assert (Hin : w' ∈ l1 \/ w' ∈ l2) by set_solver.
  destruct Hin as [Hin|Hin]; apply list_elem_of_split in Hin as (l3 & l4 & ->); rewrite bind_app in Ho; simpl in Ho; rewrite !occ_app in Ho;
    pose proof (occ_pos _ _ Hy'); lia.
Qed.

Lemma not_self x : x ∈ A -> x ∉ W x.
Proof. intros Hx Hin. destruct (po_acyclic _ Hp) as [rank Hr]. specialize (Hr _ _ Hx Hin). lia. Qed.

(** ** The invariant *)

Record cfixed c : Prop := {
  cf_nodes : pd_nodes (c_data c) = seq 0 (length deg);
  cf_start : pd_start_nodes (c_data c) = p_start p;
  cf_backup : pd_backup (c_data c) = deg;
  cf_length : length (pd_indegrees (c_data c)) = length deg;
  cf_tags : tags_ok (length deg) (c_tags c);
}.

(** [k] are recycled, [ws] are edges of theirs still to be counted, [open] are
    collected, [rest] are not; the indegrees of [ex] are not looked at. *)
Record CI (ex ws k open rest : list nat) c : Prop := {
  ci_fixed : cfixed c;
  ci_split : k ++ open ++ rest ≡ₚ A;
  ci_le j : occ j (ws ++ ((open ++ rest) ≫= W)) <= occ j E;
  ci_ws : ws ⊆ A;
  ci_rest j : j ∈ rest -> 0 < occ j (ws ++ ((open ++ rest) ≫= W)) /\ pd_indegrees (c_data c) !! j = Some (Z.of_nat (occ j (ws ++ ((open ++ rest) ≫= W))));
  ci_over j : j ∈ k ++ open -> (j ∉ ex) ->
    pd_indegrees (c_data c) !! j = if decide (occ j (ws ++ ((open ++ rest) ≫= W)) = 0) then deg !! j else Some 0%Z;
  ci_one j : j ∈ k ++ open -> 0 < occ j (ws ++ ((open ++ rest) ≫= W)) -> occ j E = 1;
  ci_out j : (j ∉ A) -> pd_indegrees (c_data c) !! j = deg !! j;
  ci_closed j w : j ∈ k ++ open -> w ∈ A -> j ∈ W w -> w ∈ k ++ open;
}.

Lemma active_deg j : j ∈ A -> j < length deg.
Proof. intros Hj. apply lookup_lt_is_Some. rewrite (po_indegree _ Hp) by done. eauto. Qed.

Lemma ci_nodup ex ws k open rest c : CI ex ws k open rest c -> NoDup (k ++ open ++ rest).
Proof. intros HI. rewrite (ci_split _ _ _ _ _ _ HI). apply Hp. Qed.

Lemma ci_in ex ws k open rest c j : CI ex ws k open rest c -> (j ∈ A) <-> j ∈ k ++ open \/ j ∈ rest.
Proof. intros HI. rewrite <- (ci_split _ _ _ _ _ _ HI). rewrite !elem_of_app. tauto. Qed.

Lemma ci_apart ex ws k open rest c j : CI ex ws k open rest c -> j ∈ rest -> j ∉ k ++ open.
Proof. intros HI Hj Hko. pose proof (ci_nodup _ _ _ _ _ _ HI) as Hn. rewrite app_assoc in Hn. apply NoDup_app in Hn as (_ & Hd & _). by apply (Hd j). Qed.

(** ** Degrees *)

Lemma cf_set c d : cfixed c -> length d = length deg -> cfixed (c_set_data (set_degrees d (c_data c)) c).
Proof. intros [] Hd. split; done. Qed.

Lemma decrement_ok c j v :
  cfixed c -> pd_indegrees (c_data c) !! j = Some v ->
  decrement j (c_data c) = Ok ((v - 1)%Z, set_degrees (<[j := (v - 1)%Z]> (pd_indegrees (c_data c))) (c_data c)).
Proof.
  intros Hf Hj. unfold decrement. rewrite (proj2 (at_Ok _ _ _) Hj). cbn [mbind outcome_bind]. rewrite write_ok; [done|]. by eapply lookup_lt_Some.
Qed.

Lemma restore_ok c j :
  cfixed c -> j ∈ A -> restore j (c_data c) = Ok (set_degrees (<[j := Z.of_nat (occ j E)]> (pd_indegrees (c_data c))) (c_data c)).
Proof.
  intros Hf Hj. unfold restore. rewrite (cf_backup _ Hf), (proj2 (at_Ok _ _ _) (po_indegree _ Hp _ Hj)). cbn [mbind outcome_bind].
  rewrite write_ok; [done|]. rewrite (cf_length _ Hf). by apply active_deg.
Qed.

(** ** Collecting *)

Lemma AddKernel_ok c t x :
  cfixed c -> x ∈ A -> type_ t <> MAX ->
  exists t' tags, Chain.AddKernel t x c = Ok (t', MkChain (c_data c) (c_tasks c) tags (c_allocs c)) /\ task_node_list_ t' = task_node_list_ t ++ [x] /\
    ran t' = ran t /\ type_ t' <> MAX /\ cfixed (MkChain (c_data c) (c_tasks c) tags (c_allocs c)).
Proof.
  intros Hf Hx Ht. unfold Chain.AddKernel. pose proof (active_deg _ Hx). destruct (GetByNode_ok _ x _ (cf_tags _ Hf)) as (tags & -> & Htags & _); [lia|].
  cbn [mbind outcome_bind]. assert (Hf' : cfixed (MkChain (c_data c) (c_tasks c) tags (c_allocs c))) by (destruct Hf; by split).
  case_bool_decide; eexists _, tags; split_and!; try done. simpl. apply tag_of_not_max.
Qed.

Lemma ci_tags ex ws k open rest c tags : CI ex ws k open rest c -> cfixed (MkChain (c_data c) (c_tasks c) tags (c_allocs c)) -> CI ex ws k open rest (MkChain (c_data c) (c_tasks c) tags (c_allocs c)).
Proof. intros [] Hf. by split. Qed.

(** What waits for [x] alone is left. *)
Definition unfolded (x : nat) (rest : list nat) : Prop := forall y, y ∈ W x -> occ y E = 1 -> y ∈ rest.

Lemma unfolded_rest ex ws k open rest c y rest' : CI ex ws k open rest c -> rest ≡ₚ y :: rest' -> unfolded y rest'.
Proof.
  intros HI Hrest z Hz Hoz. assert (Hyr : y ∈ rest) by (rewrite Hrest; by left). assert (HyA : y ∈ A) by (by eapply ci_in; [done|right]).
  destruct (decide (z ∈ k ++ open)) as [Hzko|Hzko].
  { exfalso. apply (ci_apart _ _ _ _ _ _ _ HI Hyr). by apply (ci_closed _ _ _ _ _ _ HI _ _ Hzko HyA Hz). }
  assert (Hzr : z ∈ rest) by (destruct (proj1 (ci_in _ _ _ _ _ _ z HI) (po_closed _ Hp _ _ HyA Hz)); done).
  rewrite Hrest in Hzr. apply elem_of_cons in Hzr as [->|]; [|done]. by apply not_self in Hz.
Qed.

(** Moving the next link of a chain. *)
Lemma move_link ex ws k open rest c x y :
  CI ex ws k open rest c -> (forall j, j ∈ ex -> j ∈ k ++ open) -> x ∈ k ++ open -> x ∈ A -> y ∈ W x -> occ y E = 1 -> y ∈ rest ->
  exists rest', rest ≡ₚ y :: rest' /\ pd_indegrees (c_data c) !! y = Some 1%Z /\
    CI ex ws k (open ++ [y]) rest' (c_set_data (set_degrees (<[y := 0%Z]> (pd_indegrees (c_data c))) (c_data c)) c) /\ unfolded y rest'.
Proof.
  intros HI Hex Hx HxA Hy Ho Hyr. pose proof (ci_apart _ _ _ _ _ _ _ HI Hyr) as Hyko.
  assert (Hyex : y ∉ ex) by (intros ?%Hex; done).
  assert (HyA : y ∈ A) by (by eapply ci_in; [done|right]).
  destruct (ci_rest _ _ _ _ _ _ HI _ Hyr) as [Hpos Hd]. pose proof (ci_le _ _ _ _ _ _ HI y) as Hle.
  apply elem_of_Permutation in Hyr as [rest' Hrest]. exists rest'.
  assert (HR : forall j, occ j (ws ++ ((open ++ [y]) ++ rest') ≫= W) = occ j (ws ++ (open ++ rest) ≫= W)).
  { intros j. by rewrite Hrest, <- app_assoc. }
  assert (Hd1 : pd_indegrees (c_data c) !! y = Some 1%Z) by (rewrite Hd; f_equal; lia).
  assert (Hylt : y < length (pd_indegrees (c_data c))) by (by eapply lookup_lt_Some).
  assert (Hlook : forall j, j <> y -> <[y:=0%Z]> (pd_indegrees (c_data c)) !! j = pd_indegrees (c_data c) !! j) by (intros; by apply list_lookup_insert_ne).
  assert (Hnd : NoDup (k ++ open ++ y :: rest')) by (rewrite <- Hrest; by eapply ci_nodup).
  split; [done|]. split; [done|]. split; [split|].
  - apply cf_set; [apply HI|]. rewrite length_insert. apply HI.
  - rewrite <- (ci_split _ _ _ _ _ _ HI), Hrest, <- app_assoc. done.
  - intros j. rewrite HR. apply HI.
  - apply HI.
  - intros j Hj. rewrite HR. cbn [c_data c_set_data pd_indegrees set_degrees]. rewrite Hlook; [apply HI; rewrite Hrest; by right|]. intros ->. apply NoDup_app in Hnd as (_ & _ & Hnd). apply NoDup_app in Hnd as (_ & _ & Hnd). by apply NoDup_cons in Hnd as [].
  - intros j Hj Hjex. rewrite HR. cbn [c_data c_set_data pd_indegrees set_degrees]. destruct (decide (j = y)) as [->|Hne].
    + rewrite list_lookup_insert_eq by done. rewrite decide_False by lia. done.
    + rewrite Hlook by done. apply HI; [|done]. set_solver.
  - intros j Hj. rewrite HR. destruct (decide (j = y)) as [->|Hne]; [done|]. apply (ci_one _ _ _ _ _ _ HI). set_solver.
  - intros j Hj. simpl. rewrite Hlook by (intros ->; done). by apply HI.
  - intros j w Hj Hw Hjw. destruct (decide (j = y)) as [->|Hne]; [|assert (Hjko : j ∈ k ++ open) by set_solver; pose proof (ci_closed _ _ _ _ _ _ HI _ _ Hjko Hw Hjw); set_solver].
    rewrite (one_pred y w x) by done. set_solver.
  - by eapply unfolded_rest.
Qed.

Lemma node_at c j : cfixed c -> j ∈ A -> at_ (pd_nodes (c_data c)) j = Ok j.
Proof. intros Hf Hj. apply at_Ok. rewrite (cf_nodes _ Hf), lookup_seq. split; [done|]. by apply active_deg. Qed.

(** What a collection of nodes [N] after [x] leaves. *)
Record collected ex ws k open rest c (t : ExecTask) (N : list nat) rest' t' c' : Prop := {
  co_nodes : task_node_list_ t' = task_node_list_ t ++ N;
  co_ran : ran t' = ran t;
  co_type : type_ t' <> MAX;
  co_tasks : c_tasks c' = c_tasks c;
  co_rest : rest ≡ₚ N ++ rest';
  co_inv : CI ex ws k (open ++ N) rest' c';
}.

(** The body of the loop over watchers. *)
Definition link_step fuel m dst_id (s : ExecTask * ChainTaskProducer) : outcome (ExecTask * ChainTaskProducer) :=
  b ← at_ (pd_backup (c_data s.2)) dst_id;
  if (b =? 1)%Z then
    '(d, ed) ← decrement dst_id (c_data s.2);
    let s := (s.1, c_set_data ed s.2) in
    if (d =? 0)%Z then next ← at_ (pd_nodes ed) dst_id; Chain.CollectChain fuel m next s else Ok s
  else Ok s.

Lemma CollectChain_unfold fuel m x s :
  Chain.CollectChain (S fuel) m x s =
    ('(task, c) ← Chain.AddKernel s.1 x s.2; if IsSwitchNotify x then Ok (task, c) else watchers ← read_watchers m x; foldM (link_step fuel m) watchers (task, c)).
Proof. done. Qed.

Definition collects fuel m : Prop := forall ex ws k open rest c t x,
  CI ex ws k open rest c -> ex ⊆ k ++ open -> x ∈ k ++ open -> x ∈ A -> unfolded x rest -> type_ t <> MAX -> length rest < fuel ->
  exists N rest' t' c', Chain.CollectChain fuel m x (t, c) = Ok (t', c') /\ legal p [x] N /\
    collected ex ws k open rest c (AddNode x t) N rest' t' c'.

Lemma links_ok fuel m (Hrec : collects fuel m) x l ex ws k open rest c t :
  CI ex ws k open rest c -> ex ⊆ k ++ open -> x ∈ k ++ open -> x ∈ A -> l ⊆ W x -> (forall y, occ y l <= occ y (W x)) ->
  (forall y, y ∈ l -> occ y E = 1 -> y ∈ rest) -> type_ t <> MAX -> length rest <= fuel ->
  exists N rest' t' c', foldM (link_step fuel m) l (t, c) = Ok (t', c') /\ legal p [x] N /\ collected ex ws k open rest c t N rest' t' c'.
Proof.
  revert open rest c t. induction l as [|y l IH]; intros open rest c t HI Hex Hx HxA Hl Hocc Hun Ht Hfuel.
  { exists [], rest, t, c. split; [done|]. split; [done|]. split; rewrite ?app_nil_r; done. }
  assert (HyW : y ∈ W x) by (apply Hl; by left). pose proof (po_closed _ Hp _ _ HxA HyW) as HyA.
  assert (Hocc' : forall z, occ z l <= occ z (W x)) by (intros z; specialize (Hocc z); simpl in Hocc; case_decide; lia).
  cbn [foldM]. unfold link_step at 2. cbn [fst snd]. rewrite (cf_backup _ (ci_fixed _ _ _ _ _ _ HI)), (proj2 (at_Ok _ _ _) (po_indegree _ Hp _ HyA)). cbn [mbind outcome_bind].
  destruct (Z.eqb_spec (Z.of_nat (occ y E)) 1) as [Ho|Ho]; cbn [mbind outcome_bind];
    [|apply IH; try done; [set_solver|intros z Hz; apply Hun; by right]].
  assert (Ho1 : occ y E = 1) by lia. destruct (move_link _ _ _ _ _ _ _ _ HI Hex Hx HxA HyW Ho1 (Hun _ ltac:(by left) Ho1)) as (rest1 & Hr1 & Hd1 & HI1 & Hu1).
  rewrite (decrement_ok _ _ 1%Z) by (try apply HI; done). cbn [mbind outcome_bind]. change (1 - 1)%Z with 0%Z. change (0 =? 0)%Z with true. cbn [fst snd].
  set (c1 := c_set_data _ c) in *. change (pd_nodes (set_degrees _ (c_data c))) with (pd_nodes (c_data c1)). rewrite (node_at c1 y) by (done || apply HI1).
  cbn [mbind outcome_bind].
  destruct (Hrec ex ws k (open ++ [y]) rest1 c1 t y) as (N1 & rest2 & t2 & c2 & -> & HL1 & HC1); try done; [set_solver|set_solver|rewrite Hr1 in Hfuel; simpl in Hfuel; lia|].
  cbn [mbind outcome_bind]. destruct HC1 as [Hn1 Hran1 Hty1 Htk1 Hrest1 HI2].
  destruct (IH ((open ++ [y]) ++ N1) rest2 c2 t2) as (N2 & rest3 & t3 & c3 & -> & HL2 & [Hn2 Hran2 Hty2 Htk2 Hrest2 HI3]); try done; [set_solver|set_solver|set_solver| |
    rewrite Hr1, Hrest1 in Hfuel; simpl in Hfuel; rewrite length_app in Hfuel; lia|].
  { intros z Hz Hoz. assert (Hzy : z <> y).
    { intros ->. specialize (Hocc y). simpl in Hocc. rewrite decide_True in Hocc by done. pose proof (occ_pos _ _ Hz). pose proof (occ_edge x y HxA). lia. }
    assert (Hzr : z ∈ rest) by (apply Hun; [by right|done]). rewrite Hr1, Hrest1 in Hzr. apply elem_of_cons in Hzr as [?|Hzr]; [done|]. apply elem_of_app in Hzr as [Hzn|?]; [|done].
    exfalso. assert (HzW : z ∈ W x) by (apply Hl; by right). pose proof (legal_pred _ _ _ _ _ HL1 Hzn HxA HzW) as Hxin.
    apply (ci_apart _ _ _ _ _ _ x HI); [|done]. rewrite Hr1, Hrest1. set_solver. }
  exists (y :: N1 ++ N2), rest3, t3, c3. split; [done|]. split.
  - simpl. split; [intros w Hw Hyw; rewrite (one_pred y w x) by done; by left|]. apply legal_app. split; [eapply legal_mono; [|exact HL1]; set_solver|].
    eapply legal_mono; [|exact HL2]. set_solver.
  - split; [rewrite Hn2, Hn1; simpl; by rewrite <- !app_assoc|by rewrite Hran2, Hran1|done|by rewrite Htk2, Htk1|rewrite Hr1, Hrest1, Hrest2; simpl; by rewrite <- app_assoc|].
    rewrite <- !app_assoc in HI3. done.
Qed.

Lemma collect_ok m fuel : watched p m -> collects fuel m.
Proof.
  intros Hm. induction fuel as [|fuel IH]; intros ex ws k open rest c t x HI Hex Hx HxA Hu Ht Hfuel; [lia|]. rewrite CollectChain_unfold. simpl.
  destruct (AddKernel_ok c t x) as (t1 & tags & -> & Hn & Hran & Hty & Hf1); [apply HI|done|done|]. cbn [mbind outcome_bind].
  pose proof (ci_tags _ _ _ _ _ _ _ HI Hf1) as HI1. set (c1 := MkChain _ _ _ _) in *. destruct (IsSwitchNotify x).
  { exists [], rest, t1, c1. split; [done|]. split; [done|]. split; rewrite ?app_nil_r; done. }
  unfold read_watchers. rewrite Hm by done. cbn [mbind outcome_bind].
  destruct (links_ok fuel m IH x (W x) ex ws k open rest c1 t1) as (N & rest' & t' & c' & -> & HL & [Hn' Hran' Hty' Htk' Hr' HI']); try done; [lia|].
  exists N, rest', t', c'. split; [done|]. split; [done|]. split; try done; [by rewrite Hn', Hn|by rewrite Hran'].
Qed.
(** ** Counting an edge *)

Lemma ci_perm ex ws k open open' rest c : open ≡ₚ open' -> CI ex ws k open rest c -> CI ex ws k open' rest c.
Proof.
  intros Ho [? Hs Hle Hws Hr Hov Hone Hout Hcl]. assert (HR : forall j, occ j (ws ++ (open ++ rest) ≫= W) = occ j (ws ++ (open' ++ rest) ≫= W)) by (intros; by rewrite Ho).
  split; [done|by rewrite <- Ho|intros j; rewrite <- HR; apply Hle|done|intros j Hj; rewrite <- HR; by apply Hr| | |done|].
  - intros j Hj. rewrite <- HR. apply Hov. by rewrite Ho.
  - intros j Hj. rewrite <- HR. apply Hone. by rewrite Ho.
  - intros j w. rewrite <- Ho. apply Hcl.
Qed.

Lemma ci_data ex ws k open rest c c' : c_data c' = c_data c -> c_tags c' = c_tags c -> CI ex ws k open rest c -> CI ex ws k open rest c'.
Proof. intros Ed Et [[] ? ? ? ? ? ? ? ?]. split; rewrite ?Ed; try done. by split; rewrite ?Ed, ?Et. Qed.

(** A node of [open] is recycled: its edges are to be counted. *)
Lemma ci_done ws k open rest c x : CI [] ws k (x :: open) rest c -> CI [] (W x ++ ws) (k ++ [x]) open rest c.
Proof.
  intros [? Hs Hle Hws Hr Hov Hone Hout Hcl].
  assert (HR : forall j, occ j ((W x ++ ws) ++ (open ++ rest) ≫= W) = occ j (ws ++ ((x :: open) ++ rest) ≫= W)) by (intros j; change (((x :: open) ++ rest) ≫= W) with (W x ++ (open ++ rest) ≫= W); rewrite !occ_app; lia).
  assert (HA : x ∈ A) by (rewrite <- Hs; set_solver).
  split; [done|by rewrite <- Hs, <- app_assoc|intros j; rewrite HR; apply Hle| |intros j Hj; rewrite HR; by apply Hr| | |done|].
  - intros y [Hy|Hy]%elem_of_app; [by eapply po_closed|by apply Hws].
  - intros j Hj. rewrite HR. apply Hov. by rewrite <- app_assoc in Hj.
  - intros j Hj. rewrite HR. apply Hone. by rewrite <- app_assoc in Hj.
  - intros j w. rewrite <- !app_assoc. apply Hcl.
Qed.

(** An edge to a node that is in a task already. *)
Lemma count_collected y ws k open rest c :
  CI [] (y :: ws) k open rest c -> y ∈ k ++ open ->
  pd_indegrees (c_data c) !! y = Some 0%Z /\ CI [] ws k open rest (c_set_data (set_degrees (<[y := Z.of_nat (occ y E)]> (pd_indegrees (c_data c))) (c_data c)) c).
Proof.
  intros HI Hy. pose proof (ci_over _ _ _ _ _ _ HI y Hy ltac:(apply not_elem_of_nil)) as Hd. pose proof (ci_one _ _ _ _ _ _ HI y Hy) as Hone. pose proof (ci_le _ _ _ _ _ _ HI y) as Hle.
  pose proof HI as [Hf Hs _ Hws Hr Hov Hon Hout Hcl].
  assert (HR : forall j, occ j ((y :: ws) ++ (open ++ rest) ≫= W) = (if decide (y = j) then 1 else 0) + occ j (ws ++ (open ++ rest) ≫= W)) by done.
  rewrite HR in Hd, Hone, Hle. rewrite (decide_True (P := y = y)) in Hd, Hone, Hle by done. rewrite decide_False in Hd by lia. specialize (Hone ltac:(lia)).
  assert (Hylt : y < length (pd_indegrees (c_data c))) by (by eapply lookup_lt_Some). assert (HyA : y ∈ A) by (apply Hws; by left).
  split; [done|]. split.
  - apply cf_set; [done|]. rewrite length_insert. apply Hf.
  - done.
  - intros j. pose proof (ci_le _ _ _ _ _ _ HI j) as Hj. rewrite HR in Hj. lia.
  - intros z Hz. apply Hws. by right.
  - intros j Hj. specialize (Hr j Hj). rewrite HR in Hr. assert (y <> j) by (intros ->; by apply (ci_apart _ _ _ _ _ _ _ HI Hj)). rewrite decide_False in Hr by done.
    simpl. by rewrite list_lookup_insert_ne.
  - intros j Hj Hex. simpl. destruct (decide (y = j)) as [->|Hne].
    + rewrite list_lookup_insert_eq by done. rewrite decide_True by lia. symmetry. by apply (po_indegree _ Hp).
    + rewrite list_lookup_insert_ne by done. rewrite Hov by done. rewrite HR. by rewrite (decide_False (P := y = j)) by done.
  - intros j Hj Hpos. apply Hon; [done|]. rewrite HR. lia.
  - intros j Hj. simpl. rewrite list_lookup_insert_ne by (intros ->; done). by apply Hout.
  - done.
Qed.

(** An edge to a node that is left, and not the last. *)
Lemma count_left y ws k open rest c :
  CI [] (y :: ws) k open rest c -> y ∈ rest -> 0 < occ y (ws ++ (open ++ rest) ≫= W) ->
  CI [] ws k open rest (c_set_data (set_degrees (<[y := Z.of_nat (occ y (ws ++ (open ++ rest) ≫= W))]> (pd_indegrees (c_data c))) (c_data c)) c).
Proof.
  intros HI Hy Hpos. pose proof (ci_apart _ _ _ _ _ _ _ HI Hy) as Hyko.
  destruct HI as [Hf Hs Hle Hws Hr Hov Hon Hout Hcl].
  assert (HR : forall j, occ j ((y :: ws) ++ (open ++ rest) ≫= W) = (if decide (y = j) then 1 else 0) + occ j (ws ++ (open ++ rest) ≫= W)) by done.
  assert (HyA : y ∈ A) by (apply Hws; by left). assert (Hylt : y < length (pd_indegrees (c_data c))) by (rewrite (cf_length _ Hf); by apply active_deg).
  split.
  - apply cf_set; [done|]. rewrite length_insert. apply Hf.
  - done.
  - intros j. specialize (Hle j). rewrite HR in Hle. lia.
  - intros z Hz. apply Hws. by right.
  - intros j Hj. simpl. destruct (decide (y = j)) as [->|Hne]; [by rewrite list_lookup_insert_eq|]. rewrite list_lookup_insert_ne by done.
    specialize (Hr j Hj). by rewrite HR, decide_False in Hr.
  - intros j Hj Hex. assert (y <> j) by (intros ->; done). simpl. rewrite list_lookup_insert_ne by done. rewrite Hov by done. rewrite HR. by rewrite (decide_False (P := y = j)) by done.
  - intros j Hj Hp'. apply Hon; [done|]. rewrite HR. lia.
  - intros j Hj. simpl. rewrite list_lookup_insert_ne by (intros ->; done). by apply Hout.
  - done.
Qed.

(** The last edge to a node: the node heads a task. *)
Lemma open_head y ws k open rest c :
  CI [] (y :: ws) k open rest c -> y ∈ rest -> occ y (ws ++ (open ++ rest) ≫= W) = 0 ->
  exists rest', rest ≡ₚ y :: rest' /\ unfolded y rest' /\ (forall w, w ∈ A -> y ∈ W w -> w ∈ k) /\
    CI [y] ws k (open ++ [y]) rest' (c_set_data (set_degrees (<[y := 0%Z]> (pd_indegrees (c_data c))) (c_data c)) c).
Proof.
  intros HI Hy Hz. pose proof (ci_apart _ _ _ _ _ _ _ HI Hy) as Hyko. pose proof (ci_nodup _ _ _ _ _ _ HI) as Hnd.
  apply elem_of_Permutation in Hy as [rest' Hrest]. exists rest'. split; [done|]. split; [by eapply unfolded_rest|].
  assert (Hpre : forall w, w ∈ A -> y ∈ W w -> w ∈ k).
  { intros w Hw Hyw. rewrite <- (ci_split _ _ _ _ _ _ HI) in Hw. apply elem_of_app in Hw as [?|Hw]; [done|]. exfalso.
    rewrite occ_app in Hz. assert (Hzb : occ y ((open ++ rest) ≫= W) = 0) by lia. apply occ_zero in Hzb. apply Hzb, list_elem_of_bind. eauto. }
  split; [done|]. destruct HI as [Hf Hs Hle Hws Hr Hov Hon Hout Hcl]. rewrite Hrest in Hnd.
  assert (HR : forall j, occ j ((y :: ws) ++ (open ++ rest) ≫= W) = (if decide (y = j) then 1 else 0) + occ j (ws ++ ((open ++ [y]) ++ rest') ≫= W)).
  { intros j. rewrite Hrest, <- app_assoc. done. }
  assert (HyA : y ∈ A) by (apply Hws; by left). assert (Hylt : y < length (pd_indegrees (c_data c))) by (rewrite (cf_length _ Hf); by apply active_deg).
  assert (Hoy : occ y (ws ++ ((open ++ [y]) ++ rest') ≫= W) = 0) by (rewrite <- Hz, Hrest, <- app_assoc; done).
  split.
  - apply cf_set; [done|]. rewrite length_insert. apply Hf.
  - rewrite <- Hs, Hrest, <- app_assoc. done.
  - intros j. specialize (Hle j). rewrite HR in Hle. lia.
  - intros z Hzw. apply Hws. by right.
  - intros j Hj. assert (y <> j).
    { intros ->. apply NoDup_app in Hnd as (_ & _ & Hnd). apply NoDup_app in Hnd as (_ & _ & Hnd). by apply NoDup_cons in Hnd as []. }
    simpl. rewrite list_lookup_insert_ne by done. specialize (Hr j ltac:(rewrite Hrest; by right)). rewrite HR in Hr. by rewrite (decide_False (P := y = j)) in Hr by done.
  - intros j Hj Hex. assert (y <> j) by set_solver. simpl. rewrite list_lookup_insert_ne by done. rewrite Hov by set_solver. rewrite HR. by rewrite (decide_False (P := y = j)) by done.
  - intros j Hj Hp'. destruct (decide (y = j)) as [->|Hne]; [lia|]. apply Hon; [set_solver|]. rewrite HR. lia.
  - intros j Hj. simpl. rewrite list_lookup_insert_ne by (intros ->; done). by apply Hout.
  - intros j w Hj Hw Hjw. destruct (decide (y = j)) as [->|Hne]; [specialize (Hpre w Hw Hjw); set_solver|].
    assert (Hjk : j ∈ k ++ open) by set_solver. specialize (Hcl _ _ Hjk Hw Hjw). set_solver.
Qed.

Lemma close_head y ws k open rest c :
  CI [y] ws k open rest c -> y ∈ k ++ open -> occ y (ws ++ (open ++ rest) ≫= W) = 0 ->
  CI [] ws k open rest (c_set_data (set_degrees (<[y := Z.of_nat (occ y E)]> (pd_indegrees (c_data c))) (c_data c)) c).
Proof.
  intros HI Hy Hz. assert (HyA : y ∈ A) by (by eapply ci_in; [done|left]). pose proof (fun Hr => ci_apart _ _ _ _ _ _ y HI Hr Hy) as Hyr.
  destruct HI as [Hf Hs Hle Hws Hr Hov Hon Hout Hcl]. assert (Hylt : y < length (pd_indegrees (c_data c))) by (rewrite (cf_length _ Hf); by apply active_deg).
  split; try done.
  - apply cf_set; [done|]. rewrite length_insert. apply Hf.
  - intros j Hj. simpl. rewrite list_lookup_insert_ne by (intros ->; tauto). by apply Hr.
  - intros j Hj _. simpl. destruct (decide (y = j)) as [->|Hne].
    + rewrite list_lookup_insert_eq, decide_True by done. symmetry. by apply (po_indegree _ Hp).
    + rewrite list_lookup_insert_ne by done. apply Hov; [done|]. set_solver.
  - intros j Hj. simpl. rewrite list_lookup_insert_ne by (intros ->; done). by apply Hout.
Qed.
End chain.

#[local] Open Scope nat_scope.

Section chain.
Context {K : Kernels} {KI : KernelInfo} (p : Plan) (Hp : plan_ok p) (memory : nat -> bool) (Hmem : forall n, memory n = true).
Abbreviation A := (p_active p).
Abbreviation W := (p_watchers p).
Abbreviation E := (p_edges p).
Abbreviation CI := (CI p).
Implicit Types (c : ChainTaskProducer) (ws k open rest l : list nat).

Lemma collected_bound ex ws k open rest c : CI ex ws k open rest c -> length rest < Chain.fuel_of c.
Proof.
  intros HI. unfold Chain.fuel_of. rewrite (cf_nodes _ _ (ci_fixed _ _ _ _ _ _ _ HI)), length_seq. pose proof (ci_nodup p Hp _ _ _ _ _ _ HI) as Hn.
  apply NoDup_app in Hn as (_ & _ & Hn). apply NoDup_app in Hn as (_ & _ & Hn).
  pose proof (NoDup_bound rest (seq 0 (length (p_indegrees p))) Hn) as Hb. rewrite length_seq in Hb. enough (length rest <= length (p_indegrees p)) by lia. apply Hb.
  intros j Hj. apply elem_of_seq. split; [lia|]. apply (active_deg p Hp). eapply ci_in; [done|]. by right.
Qed.

Definition allocated c : ChainTaskProducer := MkChain (c_data c) (c_tasks c) (c_tags c) (S (c_allocs c)).

Lemma New_ok c : Chain.New memory c = (Some NewTask, allocated c).
Proof. unfold Chain.New. by rewrite Hmem. Qed.

Lemma spawn_ok m ex ws k open rest c x :
  watched p m -> CI ex ws k open rest c -> ex ⊆ k ++ open -> x ∈ k ++ open -> x ∈ A -> unfolded p x rest ->
  exists N rest' t c', Chain.CollectChain (Chain.fuel_of (allocated c)) m x (NewTask, allocated c) = Ok (t, c') /\ legal p [x] N /\
    task_node_list_ t = x :: N /\ fresh_task t /\ c_tasks c' = c_tasks c /\ rest ≡ₚ N ++ rest' /\ CI ex ws k (open ++ N) rest' c'.
Proof.
  intros Hm HI Hex Hx HxA Hu. assert (HI1 : CI ex ws k open rest (allocated c)) by (by eapply ci_data; [..|done]).
  destruct (collect_ok p Hp m (Chain.fuel_of (allocated c)) Hm ex ws k open rest (allocated c) NewTask x) as (N & rest' & t & c' & Ec & HL & [Hn Hr Ht Htk Hrest HI']);
    try done; [by eapply collected_bound|].
  exists N, rest', t, c'. by split_and!.
Qed.

Definition task_good k l : Prop := l <> [] /\ legal p k l.

(** [open] are in tasks that are handed out, with the invariant for all that are
    collected. *)
Definition RI ws k open c : Prop :=
  (exists rest, CI [] ws k (open ++ concat (task_node_list_ <$> c_tasks c)) rest c) /\
  Forall (fun t => fresh_task t /\ task_good k (task_node_list_ t)) (c_tasks c).

Lemma good_mono k k' l : k ⊆ k' -> task_good k l -> task_good k' l.
Proof. intros Hk [? ?]. split; [done|]. by eapply legal_mono. Qed.

Lemma good_all_mono k k' ts : k ⊆ k' -> Forall (fun t => fresh_task t /\ task_good k (task_node_list_ t)) ts -> Forall (fun t => fresh_task t /\ task_good k' (task_node_list_ t)) ts.
Proof. intros Hk Hts. eapply Forall_impl; [exact Hts|]. intros t [? ?]. split; [done|]. by eapply good_mono. Qed.

Lemma pushed_nodes (ts : list ExecTask) t : concat (task_node_list_ <$> ts ++ [t]) = concat (task_node_list_ <$> ts) ++ task_node_list_ t.
Proof. rewrite fmap_app, concat_app. simpl. by rewrite app_nil_r. Qed.

Lemma notify_ok m y ws k open c : watched p m -> RI (y :: ws) k open c -> exists c', Chain.notify memory m y c = Ok c' /\ RI ws k open c'.
Proof.
  intros Hm [[rest HI] Hts]. set (all := open ++ concat _) in HI. assert (HyA : y ∈ A) by (apply (ci_ws _ _ _ _ _ _ _ HI); by left).
  pose proof (ci_fixed _ _ _ _ _ _ _ HI) as Hf. unfold Chain.notify. destruct (decide (y ∈ rest)) as [Hyr|Hyr].
  - destruct (ci_rest _ _ _ _ _ _ _ HI y Hyr) as [_ Hd]. set (n := occ y (ws ++ (all ++ rest) ≫= W)).
    assert (HR : occ y ((y :: ws) ++ (all ++ rest) ≫= W) = S n) by (unfold n; simpl; by rewrite decide_True). rewrite HR in Hd.
    rewrite (proj2 (at_Ok _ _ _) Hd). cbn [mbind outcome_bind]. rewrite (proj2 (Z.eqb_neq _ _)) by lia. rewrite (decrement_ok p _ _ _ Hf Hd). cbn [mbind outcome_bind].
    replace (Z.of_nat (S n) - 1)%Z with (Z.of_nat n) by lia. destruct (Z.eqb_spec (Z.of_nat n) 0) as [Hn|Hn].
    + assert (Hn0 : n = 0) by lia. rewrite Hn0. change (Z.of_nat 0) with 0%Z. destruct (open_head p Hp y ws k all rest c HI Hyr Hn0) as (rest1 & Hr1 & Hu & Hpre & HI1).
      set (c1 := c_set_data _ c) in *. rewrite New_ok. change (c_data (allocated c1)) with (c_data c1). rewrite (node_at p Hp c1 y (ci_fixed _ _ _ _ _ _ _ HI1) HyA). cbn [mbind outcome_bind].
      destruct (spawn_ok m [y] ws k (all ++ [y]) rest1 c1 y Hm HI1) as (N & rest2 & t & c2 & -> & HL & Hnodes & Hfresh & Htk & Hr2 & HI2); [set_solver|set_solver|done|done|]. cbn [mbind outcome_bind].
      apply (ci_data _ _ _ _ _ _ c2 (c_push t c2)) in HI2; [|done..]. rewrite (restore_ok p Hp (c_push t c2) y (ci_fixed _ _ _ _ _ _ _ HI2) HyA). cbn [mbind outcome_bind]. eexists. split; [done|].
      split; [exists rest2|]; [|apply Forall_app; split; [by rewrite Htk|]; apply Forall_singleton; split; [done|]; rewrite Hnodes; split; [done|]; split; [done|]; eapply legal_mono; [|exact HL]; set_solver].
      simpl. rewrite pushed_nodes, Htk, Hnodes, app_assoc. change (open ++ concat (task_node_list_ <$> c_tasks c1)) with all. replace (all ++ y :: N) with ((all ++ [y]) ++ N) by (by rewrite <- app_assoc).
      apply (close_head p Hp y ws k _ rest2 (c_push t c2)); [done|set_solver|]. rewrite <- Hn0. unfold n. rewrite Hr1, Hr2, <- !app_assoc. done.
    + cbn [mbind outcome_bind]. eexists. split; [done|]. split; [exists rest|done]. apply (count_left p Hp); [done|done|]. change (open ++ _) with all. fold n. lia.
  - assert (Hyk : y ∈ k ++ all) by (destruct (proj1 (ci_in p _ _ _ _ _ _ y HI) HyA); done). destruct (count_collected p Hp y ws k all rest c HI Hyk) as [Hd HI'].
    rewrite (proj2 (at_Ok _ _ _) Hd). cbn [mbind outcome_bind Z.eqb]. rewrite (restore_ok p Hp _ _ Hf HyA). cbn [mbind outcome_bind]. eexists. split; [done|]. split; [by exists rest|done].
Qed.

Lemma notify_all_ok m l k open c : watched p m -> RI l k open c -> exists c', foldM (Chain.notify memory m) l c = Ok c' /\ RI [] k open c'.
Proof.
  intros Hm. revert c. induction l as [|y l IH]; intros c HR; [by exists c|]. destruct (notify_ok m y l k open c Hm HR) as (c1 & E1 & HR1).
  cbn [foldM]. rewrite E1. cbn [mbind outcome_bind]. by apply IH.
Qed.

Lemma KernelDone_ok m x k open c : watched p m -> RI [] k (x :: open) c -> exists c', Chain.KernelDone memory m x c = Ok c' /\ RI [] (k ++ [x]) open c'.
Proof.
  intros Hm [[rest HI] Hts]. unfold Chain.KernelDone, read_watchers. assert (HxA : x ∈ A) by (eapply (ci_in p); [done|]; left; set_solver). rewrite Hm by done. cbn [mbind outcome_bind].
  apply notify_all_ok; [done|]. split; [|eapply good_all_mono; [|done]; set_solver]. exists rest. apply (ci_done p Hp) in HI. by rewrite app_nil_r in HI.
Qed.

Lemma recycle_ok m l k open c : watched p m -> RI [] k (l ++ open) c -> exists c', foldM (Chain.KernelDone memory m) l c = Ok c' /\ RI [] (k ++ l) open c'.
Proof.
  intros Hm. revert k c. induction l as [|x l IH]; intros k c HR; [rewrite app_nil_r; by exists c|]. destruct (KernelDone_ok m x k (l ++ open) c Hm HR) as (c1 & E1 & HR1).
  cbn [foldM]. rewrite E1. cbn [mbind outcome_bind]. destruct (IH _ _ HR1) as (c2 & E2 & HR2). exists c2. split; [done|]. by rewrite <- app_assoc in HR2.
Qed.

(** ** Starting up *)

Definition chain_rest c : Prop := cfixed p c /\ pd_indegrees (c_data c) = p_indegrees p /\ c_tasks c = [].

Lemma init_inv c : chain_rest c -> exists rest, CI [] [] [] (p_start p) rest c /\ forall x, x ∈ p_start p -> unfolded p x rest.
Proof.
  intros (Hf & Hd & _). exists (filter (.∉ p_start p) A).
  assert (Hs : p_start p ++ filter (.∉ p_start p) A ≡ₚ A).
  { apply NoDup_Permutation; [apply NoDup_app; split_and!|apply Hp|].
    - apply Hp.
    - intros x Hx [Hn _]%list_elem_of_filter. done.
    - apply NoDup_filter, Hp.
    - intros x. rewrite elem_of_app, list_elem_of_filter. pose proof (po_start _ Hp x). destruct (decide (x ∈ p_start p)); tauto. }
  assert (HR : forall j, occ j ([] ++ (p_start p ++ filter (.∉ p_start p) A) ≫= W) = occ j E) by (intros j; simpl; unfold p_edges; by rewrite Hs).
  assert (Hpos : forall j, j ∈ A -> (j ∉ p_start p) -> 0 < occ j E) by (intros j Hj Hn; destruct (occ j E) eqn:Ej; [exfalso; apply Hn, (po_start _ Hp); done|lia]).
  split; [split|].
  - done.
  - done.
  - intros j. rewrite HR. done.
  - set_solver.
  - intros j [Hn Hj]%list_elem_of_filter. rewrite HR, Hd. split; [by apply Hpos|]. by apply (po_indegree _ Hp).
  - intros j [_ Hj]%(po_start _ Hp) _. rewrite HR, Hj, Hd. done.
  - intros j [_ Hj]%(po_start _ Hp). rewrite HR. lia.
  - intros j _. by rewrite Hd.
  - intros j w [_ Hj]%(po_start _ Hp) Hw Hjw. pose proof (occ_edge p w j Hw). pose proof (occ_pos _ _ Hjw). lia.
  - intros x Hx y Hy Ho. apply (po_start _ Hp) in Hx as [HxA _]. apply list_elem_of_filter. split; [|by eapply po_closed]. intros [_ ?]%(po_start _ Hp). lia.
Qed.

Lemma start_ok m l rest c :
  watched p m -> l ⊆ A -> CI [] [] [] (l ++ concat (task_node_list_ <$> c_tasks c)) rest c -> (forall x, x ∈ l -> unfolded p x rest /\ occ x E = 0) ->
  Forall (fun t => fresh_task t /\ task_good [] (task_node_list_ t)) (c_tasks c) ->
  exists c', foldM (fun node c => match Chain.New memory c with
      | (Some task, c) => '(task, c) ← Chain.CollectChain (Chain.fuel_of c) m node (task, c); Ok (c_push task c) | (None, c) => Ok c end) l c = Ok c' /\ RI [] [] [] c'.
Proof.
  intros Hm. revert rest c. induction l as [|x l IH]; intros rest c Hl HI Hu Hts; [exists c; split; [done|]; split; [by exists rest|done]|].
  set (T := concat _) in HI. assert (HxA : x ∈ A) by (apply Hl; by left). cbn [foldM]. rewrite New_ok.
  destruct (spawn_ok m [] [] [] ((x :: l) ++ T) rest c x Hm HI) as (N & rest' & t & c' & -> & HL & Hn & Hfr & Htk & Hr & HI'); [set_solver|set_solver|done|by apply Hu; left|].
  cbn [mbind outcome_bind]. pose proof (ci_nodup p Hp _ _ _ _ _ _ HI) as Hnd.
  apply (IH rest'); [set_solver| | |].
  - simpl. rewrite pushed_nodes, Htk, Hn. fold T. apply (ci_data p _ _ _ _ _ c'); [done..|]. eapply ci_perm; [|exact HI']. solve_Permutation.
  - intros s Hs. split; [|apply Hu; by right]. intros y Hy Ho. assert (Hyr : y ∈ rest) by (eapply Hu; [by right| |]; done). rewrite Hr in Hyr. apply elem_of_app in Hyr as [HyN|?]; [|done].
    exfalso. assert (HsA : s ∈ A) by (apply Hl; by right). pose proof (legal_pred _ _ _ _ _ HL HyN HsA Hy) as Hin. apply elem_of_cons in Hin as [->|Hin].
    + simpl in Hnd. apply NoDup_cons in Hnd as [Hnd _]. set_solver.
    + apply (ci_apart p Hp _ _ _ _ _ _ s HI); [rewrite Hr; set_solver|set_solver].
  - simpl. rewrite Htk. apply Forall_app. split; [done|]. apply Forall_singleton. split; [done|]. rewrite Hn. split; [done|]. split; [|done].
    intros w Hw Hxw. destruct (Hu x ltac:(by left)) as [_ Ho]. pose proof (occ_edge p w x Hw). pose proof (occ_pos _ _ Hxw). lia.
Qed.

(** ** The end *)

Lemma all_done k rest c : CI [] [] k [] rest c -> k ≡ₚ A /\ pd_indegrees (c_data c) = p_indegrees p.
Proof.
  intros HI. assert (Hnil : rest = []).
  { destruct (po_acyclic _ Hp) as [rank Hrank]. enough (Hn : forall n j, j ∈ rest -> rank j < n -> False).
    { destruct rest as [|x rest]; [done|]. exfalso. apply (Hn (S (rank x)) x); [by left|lia]. }
    induction n as [|n IH]; intros j Hj Hlt; [lia|]. destruct (ci_rest _ _ _ _ _ _ _ HI j Hj) as [Hpos _]. simpl in Hpos. apply bind_pred in Hpos as (w & Hw & Hjw).
    apply (IH w Hw). assert (HwA : w ∈ A) by (eapply ci_in; [done|by right]). specialize (Hrank _ _ HwA Hjw). lia. }
  subst rest. pose proof (ci_split _ _ _ _ _ _ _ HI) as Hk. simpl in Hk. rewrite app_nil_r in Hk. split; [done|]. apply list_eq. intros j. destruct (decide (j ∈ A)) as [Hj|Hj]; [|by apply (ci_out _ _ _ _ _ _ _ HI)].
  pose proof (ci_over _ _ _ _ _ _ _ HI j) as Ho. rewrite app_nil_r, Hk in Ho. rewrite (Ho Hj ltac:(apply not_elem_of_nil)). done.
Qed.

Definition chain_active c k (out : list (list nat)) : Prop := RI [] k (concat out) c /\ Forall (task_good k) out.

#[export] Instance chain_laws : ProducerLaws p ChainTaskProducer (TP := Chain.chain_producer memory).
Proof.
  refine {| at_rest := chain_rest; active := chain_active |}.
  - intros m c Hm Hc. destruct (init_inv c Hc) as (rest & HI & Hu). destruct Hc as (Hf & Hd & Ht). simpl. unfold Chain.StartUp. rewrite (cf_start _ _ Hf).
    destruct (start_ok m (p_start p) rest c Hm) as (c' & -> & HR); [intros x ?%(po_start _ Hp); tauto|by rewrite Ht; simpl; rewrite app_nil_r| |by rewrite Ht|by exists c'].
    intros x Hx. split; [by apply Hu|]. by apply (po_start _ Hp).
  - intros c k out [[[rest HI] Hts] Hout]. simpl. split; [|split; [|done]].
    + split; [split; [exists rest|done]|].
      * simpl. rewrite concat_app, app_nil_r. eapply (ci_data p _ _ _ _ _ c); [done..|exact HI].
      * apply Forall_app. split; [done|]. apply Forall_fmap. eapply Forall_impl; [exact Hts|]. by intros ? [].
    + eapply Forall_impl; [exact Hts|]. by intros ? [].
  - intros m c k t out Hm [HR Hout] Hret. simpl. unfold Chain.DoRecycleTask. rewrite bool_decide_false by (intros Hn; by apply Hn).
    destruct (recycle_ok m (task_node_list_ t) k (concat out) c Hm HR) as (c' & -> & HR'). exists c'. split; [done|]. split; [done|]. apply Forall_cons in Hout as [_ Hout].
    eapply Forall_impl; [exact Hout|]. intros l. apply good_mono. set_solver.
  - intros m c t Hret. simpl. unfold Chain.DoRecycleTask. by rewrite bool_decide_true.
  - intros c k out out' Ho [[[rest HI] Hts] Hout]. split; [split; [exists rest|done]|by rewrite <- Ho]. eapply ci_perm; [|exact HI]. by rewrite Ho.
  - intros c k out l [_ Hout] Hl. rewrite Forall_forall in Hout. by apply Hout.
  - intros c k out [[[rest HI] Hts] Hout]. pose proof (ci_nodup p Hp _ _ _ _ _ _ HI) as Hn. rewrite <- app_assoc in Hn. split; [by rewrite app_assoc in Hn; apply NoDup_app in Hn as []|].
    intros x Hx. eapply (ci_in p); [exact HI|]. left. set_solver.
  - intros c k [[[rest HI] Hts] Hout] Hprod. simpl in Hprod. simpl in HI. rewrite Hprod in HI. destruct (all_done _ _ _ HI) as [Hk Hd]. split; [done|]. exists c. split; [done|].
    split; [apply HI|]. done.
Defined.
End chain.

(** * The producer of a single task

    The first task of [single_task_producer.cc] has every node of the plan once,
    in an order in which they can run, and the traversal restores the
    indegrees. *)

#[local] Open Scope nat_scope.

Section single.
Context {K : Kernels} (p : Plan) (Hp : plan_ok p).
Abbreviation A := (p_active p).
Abbreviation W := (p_watchers p).
Abbreviation E := (p_edges p).
Abbreviation deg := (p_indegrees p).
Implicit Types (s : SingleTaskProducer) (ex ws todo rest : list nat).

Abbreviation degs s := (pd_indegrees (s_data s)).
Abbreviation visited s := (task_node_list_ (execTask_ s)).

Record sfixed s : Prop := {
  sf_nodes : pd_nodes (s_data s) = seq 0 (length deg);
  sf_start : pd_start_nodes (s_data s) = p_start p;
  sf_backup : pd_backup (s_data s) = deg;
  sf_length : length (degs s) = length deg;
  sf_tasks : s_tasks s = [];
}.

(** [todo] can be visited, [ws] are edges of visited nodes still to be counted;
    the indegrees of [ex] are zero for the time being. *)
Record SI ex ws todo rest s : Prop := {
  si_fixed : sfixed s;
  si_split : visited s ++ todo ++ rest ≡ₚ A;
  si_ws : ws ⊆ A;
  si_rest j : j ∈ rest -> 0 < occ j (ws ++ (todo ++ rest) ≫= W) /\ degs s !! j = Some (Z.of_nat (occ j (ws ++ (todo ++ rest) ≫= W)));
  si_free j : j ∈ visited s ++ todo -> occ j (ws ++ (todo ++ rest) ≫= W) = 0;
  si_deg j : j ∈ visited s ++ todo -> (j ∉ ex) -> degs s !! j = deg !! j;
  si_out j : (j ∉ A) -> degs s !! j = deg !! j;
  si_legal : legal p [] (visited s);
}.

Lemma si_nodup ex ws todo rest s : SI ex ws todo rest s -> NoDup (visited s ++ todo ++ rest).
Proof. intros HI. rewrite (si_split _ _ _ _ _ HI). apply Hp. Qed.

Lemma si_apart ex ws todo rest s j : SI ex ws todo rest s -> j ∈ rest -> j ∉ visited s ++ todo.
Proof. intros HI Hj Hv. pose proof (si_nodup _ _ _ _ _ HI) as Hn. rewrite app_assoc in Hn. apply NoDup_app in Hn as (_ & Hd & _). by apply (Hd j). Qed.

Lemma si_where ex ws todo rest s j : SI ex ws todo rest s -> j ∈ A -> j ∈ visited s ++ todo \/ j ∈ rest.
Proof. intros HI. rewrite <- (si_split _ _ _ _ _ HI), !elem_of_app. tauto. Qed.

Lemma si_free_apart ex ws todo rest s j : SI ex ws todo rest s -> j ∈ A -> 0 < occ j (ws ++ (todo ++ rest) ≫= W) -> j ∈ rest.
Proof. intros HI Hj Hpos. destruct (si_where _ _ _ _ _ _ HI Hj) as [Hv|]; [|done]. pose proof (si_free _ _ _ _ _ HI j Hv). lia. Qed.

Lemma sf_set s d : sfixed s -> length d = length deg -> sfixed (Single.set_data (set_degrees d (s_data s)) s).
Proof. intros [] Hd. by split. Qed.

(** ** A visit *)

Definition visit (x : nat) s : SingleTaskProducer := MkSingle (s_data s) (s_tasks s) (AddNode x (execTask_ s)).

Lemma visit_inv ex ws x todo rest s : SI ex ws (x :: todo) rest s -> SI ex (W x ++ ws) todo rest (visit x s).
Proof.
  intros HI. assert (HxA : x ∈ A) by (rewrite <- (si_split _ _ _ _ _ HI); set_solver). pose proof (si_free _ _ _ _ _ HI x ltac:(set_solver)) as Hx0.
  assert (HR : forall j, occ j ((W x ++ ws) ++ (todo ++ rest) ≫= W) = occ j (ws ++ ((x :: todo) ++ rest) ≫= W)).
  { intros j. change (((x :: todo) ++ rest) ≫= W) with (W x ++ (todo ++ rest) ≫= W). rewrite !occ_app. lia. }
  assert (Hpre : forall w, w ∈ A -> x ∈ W w -> w ∈ visited s).
  { intros w Hw Hxw. rewrite <- (si_split _ _ _ _ _ HI) in Hw. apply elem_of_app in Hw as [?|Hw]; [done|]. exfalso. rewrite occ_app in Hx0.
    assert (Hz : occ x (((x :: todo) ++ rest) ≫= W) = 0) by lia. apply occ_zero in Hz. apply Hz, list_elem_of_bind. eauto. }
  destruct HI as [Hf Hs Hws Hr Hfr Hd Ho Hl]. split; simpl; rewrite <- ?app_assoc; simpl.
  - destruct Hf. by split.
  - done.
  - intros y [Hy|Hy]%elem_of_app; [by eapply po_closed|by apply Hws].
  - intros j Hj. rewrite app_assoc, HR. by apply Hr.
  - intros j Hj. rewrite app_assoc, HR. by apply Hfr.
  - intros j Hj. by apply Hd.
  - done.
  - apply legal_app. split; [done|]. simpl. split; [|done]. intros w Hw Hxw. rewrite app_nil_r. apply list_elem_of_In. rewrite <- in_rev. apply list_elem_of_In. by apply Hpre.
Qed.

(** ** An edge *)

Lemma edge_left ex y ws todo rest s :
  SI ex (y :: ws) todo rest s -> y ∈ rest -> 0 < occ y (ws ++ (todo ++ rest) ≫= W) ->
  SI ex ws todo rest (Single.set_data (set_degrees (<[y := Z.of_nat (occ y (ws ++ (todo ++ rest) ≫= W))]> (degs s)) (s_data s)) s).
Proof.
  intros HI Hy Hpos. pose proof (si_apart _ _ _ _ _ _ HI Hy) as Hyv. destruct HI as [Hf Hs Hws Hr Hfr Hd Ho Hl].
  assert (HR : forall j, occ j ((y :: ws) ++ (todo ++ rest) ≫= W) = (if decide (y = j) then 1 else 0) + occ j (ws ++ (todo ++ rest) ≫= W)) by done.
  assert (HyA : y ∈ A) by (apply Hws; by left). assert (Hylt : y < length (degs s)) by (rewrite (sf_length _ Hf); by apply active_deg).
  split; simpl; try done.
  - apply sf_set; [done|]. rewrite length_insert. apply Hf.
  - set_solver.
  - intros j Hj. destruct (decide (y = j)) as [->|Hne]; [by rewrite list_lookup_insert_eq|]. rewrite list_lookup_insert_ne by done. specialize (Hr j Hj). by rewrite HR, decide_False in Hr.
  - intros j Hj. specialize (Hfr j Hj). rewrite HR in Hfr. lia.
  - intros j Hj Hex. rewrite list_lookup_insert_ne by (intros ->; done). by apply Hd.
  - intros j Hj. rewrite list_lookup_insert_ne by (intros ->; done). by apply Ho.
Qed.

Lemma edge_last ex y ws todo rest s :
  SI ex (y :: ws) todo rest s -> y ∈ rest -> occ y (ws ++ (todo ++ rest) ≫= W) = 0 ->
  exists rest', rest ≡ₚ y :: rest' /\ SI (y :: ex) ws (y :: todo) rest' (Single.set_data (set_degrees (<[y := 0%Z]> (degs s)) (s_data s)) s).
Proof.
  intros HI Hy Hz. pose proof (si_apart _ _ _ _ _ _ HI Hy) as Hyv. pose proof (si_nodup _ _ _ _ _ HI) as Hnd. apply elem_of_Permutation in Hy as [rest' Hrest]. exists rest'. split; [done|].
  destruct HI as [Hf Hs Hws Hr Hfr Hd Ho Hl]. rewrite Hrest in Hnd.
  assert (Hperm : todo ++ rest ≡ₚ (y :: todo) ++ rest') by (rewrite Hrest; solve_Permutation).
  assert (HR : forall j, occ j ((y :: ws) ++ (todo ++ rest) ≫= W) = (if decide (y = j) then 1 else 0) + occ j (ws ++ ((y :: todo) ++ rest') ≫= W)).
  { intros j. by rewrite Hperm. }
  assert (HyA : y ∈ A) by (apply Hws; by left). assert (Hylt : y < length (degs s)) by (rewrite (sf_length _ Hf); by apply active_deg).
  assert (Hoy : occ y (ws ++ ((y :: todo) ++ rest') ≫= W) = 0) by (by rewrite <- Hperm).
  split; simpl; try done.
  - apply sf_set; [done|]. rewrite length_insert. apply Hf.
  - rewrite <- Hs, Hrest. solve_Permutation.
  - set_solver.
  - intros j Hj. assert (y <> j) by (intros ->; apply NoDup_app in Hnd as (_ & _ & Hnd); apply NoDup_app in Hnd as (_ & _ & Hnd); by apply NoDup_cons in Hnd as []).
    rewrite list_lookup_insert_ne by done. specialize (Hr j ltac:(rewrite Hrest; by right)). rewrite HR in Hr. by rewrite (decide_False (P := y = j)) in Hr by done.
  - intros j Hj. destruct (decide (y = j)) as [->|Hne]; [done|]. specialize (Hfr j ltac:(set_solver)). rewrite HR in Hfr. rewrite (decide_False (P := y = j)) in Hfr by done. done.
  - intros j Hj Hex. assert (y <> j) by set_solver. rewrite list_lookup_insert_ne by done. apply Hd; set_solver.
  - intros j Hj. rewrite list_lookup_insert_ne by (intros ->; done). by apply Ho.
Qed.

Lemma restored ex y ws todo rest s :
  SI (y :: ex) ws todo rest s -> y ∈ visited s -> SI ex ws todo rest (Single.set_data (set_degrees (<[y := Z.of_nat (occ y E)]> (degs s)) (s_data s)) s).
Proof.
  intros HI Hy. assert (HyA : y ∈ A) by (rewrite <- (si_split _ _ _ _ _ HI); set_solver). pose proof (fun Hr => si_apart _ _ _ _ _ y HI Hr ltac:(set_solver)) as Hyr.
  destruct HI as [Hf Hs Hws Hr Hfr Hd Ho Hl]. assert (Hylt : y < length (degs s)) by (rewrite (sf_length _ Hf); by apply active_deg).
  split; simpl; try done.
  - apply sf_set; [done|]. rewrite length_insert. apply Hf.
  - intros j Hj. rewrite list_lookup_insert_ne by (intros ->; tauto). by apply Hr.
  - intros j Hj Hex. destruct (decide (y = j)) as [->|Hne]; [rewrite list_lookup_insert_eq by done; symmetry; by apply (po_indegree _ Hp)|]. rewrite list_lookup_insert_ne by done. apply Hd; set_solver.
  - intros j Hj. rewrite list_lookup_insert_ne by (intros ->; done). by apply Ho.
Qed.

(** ** The traversal *)

Definition edge_step fuel m node_id s : outcome SingleTaskProducer :=
  '(d, ed) ← decrement node_id (s_data s);
  let s := Single.set_data ed s in
  if (d =? 0)%Z then
    next ← at_ (pd_nodes ed) node_id; s ← Single.TravelNodes fuel m next s; ed ← restore node_id (s_data s); Ok (Single.set_data ed s)
  else Ok s.

Lemma TravelNodes_unfold fuel m x s :
  Single.TravelNodes (S fuel) m x s = (watchers ← read_watchers m x; foldM (edge_step fuel m) watchers (visit x s)).
Proof. done. Qed.

Definition travels fuel m : Prop := forall ex ws x todo rest s, SI ex ws (x :: todo) rest s -> length rest < fuel ->
  exists N rest' s', Single.TravelNodes fuel m x s = Ok s' /\ rest ≡ₚ N ++ rest' /\ visited s' = visited s ++ x :: N /\ SI ex ws todo rest' s'.

Lemma edges_ok fuel m (Hrec : travels fuel m) l ex ws todo rest s :
  SI ex (l ++ ws) todo rest s -> length rest <= fuel ->
  exists N rest' s', foldM (edge_step fuel m) l s = Ok s' /\ rest ≡ₚ N ++ rest' /\ visited s' = visited s ++ N /\ SI ex ws todo rest' s'.
Proof.
  revert rest s. induction l as [|y l IH]; intros rest s HI Hfuel; [exists [], rest, s; by rewrite app_nil_r|]. simpl in HI. cbn [foldM].
  assert (HyA : y ∈ A) by (apply (si_ws _ _ _ _ _ HI); by left). assert (Hyr : y ∈ rest) by (eapply si_free_apart; [done|done|]; simpl; rewrite decide_True by done; lia).
  set (n := occ y ((l ++ ws) ++ (todo ++ rest) ≫= W)). destruct (si_rest _ _ _ _ _ HI y Hyr) as [_ Hd].
  replace (occ y ((y :: l ++ ws) ++ (todo ++ rest) ≫= W)) with (S n) in Hd by (unfold n; simpl; by rewrite decide_True by done).
  assert (Hylt : y < length (degs s)) by (by eapply lookup_lt_Some). pose proof (si_fixed _ _ _ _ _ HI) as Hf.
  assert (Es : edge_step fuel m y s = let s1 := Single.set_data (set_degrees (<[y := Z.of_nat n]> (degs s)) (s_data s)) s in
    if (Z.of_nat n =? 0)%Z then s ← Single.TravelNodes fuel m y s1; ed ← restore y (s_data s); Ok (Single.set_data ed s) else Ok s1).
  { unfold edge_step, decrement. rewrite (proj2 (at_Ok _ _ _) Hd). cbn [mbind outcome_bind]. replace (Z.of_nat (S n) - 1)%Z with (Z.of_nat n) by lia. rewrite write_ok by done. cbn [mbind outcome_bind].
    destruct (Z.of_nat n =? 0)%Z; [|done]. simpl. rewrite (sf_nodes _ Hf). rewrite (proj2 (at_Ok (seq 0 (length deg)) y y)); [done|]. apply lookup_seq. split; [done|]. by apply active_deg. }
  rewrite Es. cbn zeta. destruct (Z.eqb_spec (Z.of_nat n) 0) as [Hn|Hn].
  - assert (Hn0 : n = 0) by lia. destruct (edge_last _ _ _ _ _ _ HI Hyr Hn0) as (rest1 & Hr1 & HI1). rewrite Hn. 
    destruct (Hrec _ _ _ _ _ _ HI1) as (N1 & rest2 & s2 & -> & Hr2 & Hv2 & HI2); [rewrite Hr1 in Hfuel; simpl in Hfuel; lia|]. cbn [mbind outcome_bind].
    pose proof (si_fixed _ _ _ _ _ HI2) as Hf2. unfold restore. rewrite (sf_backup _ Hf2), (proj2 (at_Ok _ _ _) (po_indegree _ Hp _ HyA)). cbn [mbind outcome_bind].
    rewrite write_ok by (rewrite (sf_length _ Hf2); by apply active_deg). cbn [mbind outcome_bind]. apply restored in HI2; [|rewrite Hv2; set_solver].
    destruct (IH _ _ HI2) as (N2 & rest3 & s3 & -> & Hr3 & Hv3 & HI3); [rewrite Hr1, Hr2 in Hfuel; simpl in Hfuel; rewrite length_app in Hfuel; lia|].
    exists (y :: N1 ++ N2), rest3, s3. split; [done|]. split; [rewrite Hr1, Hr2, Hr3; simpl; by rewrite <- app_assoc|]. split; [|done]. rewrite Hv3. simpl. rewrite Hv2. simpl. by rewrite <- app_assoc.
  - cbn [mbind outcome_bind]. apply edge_left in HI; [|done|fold n; lia]. destruct (IH _ _ HI Hfuel) as (N2 & rest3 & s3 & E3 & Hr3 & Hv3 & HI3). exists N2, rest3, s3. done.
Qed.

Lemma travel_ok m fuel : watched p m -> travels fuel m.
Proof.
  intros Hm. induction fuel as [|fuel IH]; intros ex ws x todo rest s HI Hfuel; [lia|]. rewrite TravelNodes_unfold. unfold read_watchers.
  assert (HxA : x ∈ A) by (rewrite <- (si_split _ _ _ _ _ HI); set_solver). rewrite Hm by done. cbn [mbind outcome_bind].
  destruct (edges_ok fuel m IH (W x) ex ws todo rest (visit x s)) as (N & rest' & s' & -> & Hr & Hv & HI'); [by apply visit_inv|lia|].
  exists N, rest', s'. split; [done|]. split; [done|]. split; [|done]. rewrite Hv. simpl. by rewrite <- app_assoc.
Qed.

Lemma starts_ok m fuel l rest s :
  watched p m -> SI [] [] l rest s -> length rest < fuel ->
  exists rest' s', foldM (Single.TravelNodes fuel m) l s = Ok s' /\ SI [] [] [] rest' s'.
Proof.
  intros Hm. revert rest s. induction l as [|x l IH]; intros rest s HI Hfuel; [by exists rest, s|]. destruct (travel_ok m fuel Hm _ _ _ _ _ _ HI Hfuel) as (N & rest' & s' & E1 & Hr & _ & HI').
  cbn [foldM]. rewrite E1. cbn [mbind outcome_bind]. apply (IH rest'); [done|]. rewrite Hr, length_app in Hfuel. lia.
Qed.

Definition single_rest s : Prop := sfixed s /\ degs s = deg /\ execTask_ s = NewTask.

(** The first task of a single producer has all nodes, in an order in which they
    can run; the indegrees are what they were. *)
Theorem single_task_complete m s :
  watched p m -> single_rest s ->
  exists s' t, Single.StartUp m s = Ok (kStatusSuccess, s') /\ s_tasks s' = [t] /\ legal p [] (task_node_list_ t) /\ task_node_list_ t ≡ₚ A /\ degs s' = deg.
Proof.
  intros Hm (Hf & Hd & Ht). set (rest := filter (.∉ p_start p) A).
  assert (Hs : p_start p ++ rest ≡ₚ A).
  { apply NoDup_Permutation; [apply NoDup_app; split_and!|apply Hp|].
    - apply Hp.
    - intros x Hx [Hn _]%list_elem_of_filter. done.
    - apply NoDup_filter, Hp.
    - intros x. unfold rest. rewrite elem_of_app, list_elem_of_filter. pose proof (po_start _ Hp x). destruct (decide (x ∈ p_start p)); tauto. }
  assert (HR : forall j, occ j ([] ++ (p_start p ++ rest) ≫= W) = occ j E) by (intros j; simpl; unfold p_edges; by rewrite Hs).
  assert (HI : SI [] [] (p_start p) rest s).
  { split; rewrite ?Ht; simpl.
    - done.
    - done.
    - set_solver.
    - intros j [Hn Hj]%list_elem_of_filter. change ((p_start p ++ rest) ≫= W) with ([] ++ (p_start p ++ rest) ≫= W). rewrite HR, Hd. split; [|by apply (po_indegree _ Hp)].
      destruct (occ j E) eqn:Ej; [exfalso; apply Hn, (po_start _ Hp); done|lia].
    - intros j [_ Hj]%(po_start _ Hp). change ((p_start p ++ rest) ≫= W) with ([] ++ (p_start p ++ rest) ≫= W). by rewrite HR.
    - intros j _ _. by rewrite Hd.
    - intros j _. by rewrite Hd.
    - done. }
  assert (Hlen : length rest < length (pd_nodes (s_data s)) + 1).
  { rewrite (sf_nodes _ Hf), length_seq. pose proof (NoDup_bound rest (seq 0 (length deg)) (NoDup_filter _ _ (po_nodup _ Hp))) as Hb. rewrite length_seq in Hb. enough (length rest <= length deg) by lia. apply Hb.
    intros j [_ Hj]%list_elem_of_filter. apply elem_of_seq. split; [lia|]. by apply active_deg. }
  destruct (starts_ok m _ _ _ _ Hm HI Hlen) as (rest' & s' & E1 & HI'). unfold Single.StartUp. rewrite (sf_start _ Hf), E1. cbn [mbind outcome_bind].
  assert (Hnil : rest' = []).
  { destruct (po_acyclic _ Hp) as [rank Hrank]. enough (Hn : forall n j, j ∈ rest' -> rank j < n -> False).
    { destruct rest' as [|x r]; [done|]. exfalso. apply (Hn (S (rank x)) x); [by left|lia]. }
    induction n as [|n IH]; intros j Hj Hlt; [lia|]. destruct (si_rest _ _ _ _ _ HI' j Hj) as [Hpos _]. simpl in Hpos. apply bind_pred in Hpos as (w & Hw & Hjw).
    apply (IH w Hw). assert (HwA : w ∈ A) by (rewrite <- (si_split _ _ _ _ _ HI'); set_solver). specialize (Hrank _ _ HwA Hjw). lia. }
  subst rest'. eexists _, (execTask_ s'). split; [done|]. split; [simpl; by rewrite (sf_tasks _ (si_fixed _ _ _ _ _ HI'))|]. split; [apply HI'|].
  pose proof (si_split _ _ _ _ _ HI') as Hv. rewrite !app_nil_r in Hv. split; [done|]. simpl. apply list_eq. intros j. destruct (decide (j ∈ A)) as [Hj|Hj]; [|by apply (si_out _ _ _ _ _ HI')].
  apply (si_deg _ _ _ _ _ HI'); [rewrite app_nil_r; by rewrite Hv|apply not_elem_of_nil].
Qed.
End single.
