(* ===== verification/SchedWork.v ===== *)
(** * SchedWork: the task scheduler and its workers

    [scheduler/task_scheduler.cc], [worker/task_worker_group.cc] and
    [worker/task_worker_impl.h].  The scheduler's own thread and the threads of
    the workers take turns at the operations on the queues and at calling
    kernels: [step].  A queue is a bounded list ([ExecMpmc] is the queue
    itself); an attempt that finds a queue full or empty and is repeated leaves
    the thread where it is.  The streams bound to threads, profiling and the
    counters that are only printed are left out. *)

From S2P Require Import Prelude ExecReady ExecTopo SchedTask.

#[local] Open Scope nat_scope.

(** ** Workers *)

(** Where a thread is in [ExecuteTasks]: before [Pop], before the kernels
    [rest] of its task, or before [Push] with the task done. *)
Inductive TaskThread := Idle | Executing (task : ExecTask) (rest : list nat) | Pushing (task : ExecTask).

Record TaskWorker := MkWorker {
  pending_task_queue_ : list ExecTask;
  pending_capacity : nat;
  completed_task_queue_ : list ExecTask;
  completed_capacity : nat;
  threads_ : list TaskThread;
  is_sleep_ : bool;
}.

Definition set_sleep (b : bool) (w : TaskWorker) : TaskWorker :=
  MkWorker (pending_task_queue_ w) (pending_capacity w) (completed_task_queue_ w) (completed_capacity w) (threads_ w) b.
Definition set_pending (q : list ExecTask) (w : TaskWorker) : TaskWorker :=
  MkWorker q (pending_capacity w) (completed_task_queue_ w) (completed_capacity w) (threads_ w) (is_sleep_ w).
Definition set_completed (q : list ExecTask) (w : TaskWorker) : TaskWorker :=
  MkWorker (pending_task_queue_ w) (pending_capacity w) q (completed_capacity w) (threads_ w) (is_sleep_ w).
Definition set_thread (i : nat) (th : TaskThread) (w : TaskWorker) : TaskWorker :=
  MkWorker (pending_task_queue_ w) (pending_capacity w) (completed_task_queue_ w) (completed_capacity w) (<[i := th]> (threads_ w)) (is_sleep_ w).

(** The queues have [2 ^ log2] places. *)
Definition CreateWorker (pending_log2 completed_log2 thread_count : nat) : TaskWorker :=
  MkWorker [] (2 ^ pending_log2) [] (2 ^ completed_log2) (replicate thread_count Idle) true.

Definition Submit (task : ExecTask) (w : TaskWorker) : bool * TaskWorker :=
  if bool_decide (length (pending_task_queue_ w) < pending_capacity w) then (true, set_pending (pending_task_queue_ w ++ [task]) w) else (false, w).

(** One [Pop] of [Fetch]. *)
Definition FetchOne (w : TaskWorker) : option ExecTask * TaskWorker :=
  match completed_task_queue_ w with [] => (None, w) | task :: q => (Some task, set_completed q w) end.

Definition WakeupThreads : TaskWorker -> TaskWorker := set_sleep false.
Definition SleepThreads : TaskWorker -> TaskWorker := set_sleep true.

(** ** Groups *)

Record TaskWorkerGroup := MkGroup { workers_ : list TaskWorker; submitted_count_ : nat; completed_count_ : nat; has_launched_ : bool }.

Definition set_workers (l : list TaskWorker) (g : TaskWorkerGroup) : TaskWorkerGroup := MkGroup l (submitted_count_ g) (completed_count_ g) (has_launched_ g).

Module Group.

Definition Add (worker : TaskWorker) (g : TaskWorkerGroup) : TaskWorkerGroup := set_workers (workers_ g ++ [worker]) g.

(** The threads of every worker can be started. *)
Definition Start (g : TaskWorkerGroup) : bool * TaskWorkerGroup :=
  let launched := has_launched_ g || bool_decide (workers_ g <> []) in (launched, MkGroup (workers_ g) (submitted_count_ g) (completed_count_ g) launched).

Definition WakeupWorkers (g : TaskWorkerGroup) : TaskWorkerGroup := if has_launched_ g then set_workers (WakeupThreads <$> workers_ g) g else g.
Definition SleepWorkers (g : TaskWorkerGroup) : TaskWorkerGroup := if has_launched_ g then set_workers (SleepThreads <$> workers_ g) g else g.

Definition IsFinish (g : TaskWorkerGroup) : bool := bool_decide (submitted_count_ g <= completed_count_ g).

Definition ExecuteTask (task : ExecTask) (workerId : nat) (g : TaskWorkerGroup) : outcome (bool * TaskWorkerGroup) :=
  worker ← at_ (workers_ g) workerId;
  let '(ok, worker) := Submit task worker in
  Ok (ok, if ok then MkGroup (<[workerId := worker]> (workers_ g)) (S (submitted_count_ g)) (completed_count_ g) (has_launched_ g) else g).

End Group.

(** ** The scheduler *)

(** Why tasks are fetched: to recycle them, or to let the workers come to rest
    after a kernel failed, in the passes of a loop over the task types. *)
Inductive Purpose := Recycling | Draining (ret : Z) (pass : nat).

(** Where the scheduler's thread is: at the head of the loop of [Schedule]; in
    [ExecuteTasks] with these tasks to submit; in [FetchResult] of the first of
    these groups, with the workers still to be asked once it is known that the
    group is not finished; or back. *)
Inductive Control :=
| Producing
| Submitting (unprocessed_tasks : list ExecTask)
| Fetching (why : Purpose) (groups : list nat) (workers : option (list nat)) (completed_tasks : list ExecTask)
| Returned (ret : Z).

(** [log] is not in the code: the kernels called so far. *)
Record TaskScheduler (P M : Type) := MkScheduler {
  task_producer_ : P;
  worker_groups_ : list TaskWorkerGroup;
  worker_group_index_ : list ExecTaskType;
  exec_worker_group_ids : list nat;
  total_submitted_count_ : nat;
  total_completed_count_ : nat;
  force_quit_ : bool;
  control : Control;
  memory : M;
  log : list nat;
}.
Arguments MkScheduler {P M}.
Arguments task_producer_ {P M}.
Arguments worker_groups_ {P M}.
Arguments worker_group_index_ {P M}.
Arguments exec_worker_group_ids {P M}.
Arguments total_submitted_count_ {P M}.
Arguments total_completed_count_ {P M}.
Arguments force_quit_ {P M}.
Arguments control {P M}.
Arguments memory {P M}.
Arguments log {P M}.

Section scheduler.
Context {K : Kernels} {P : Type} {TP : TaskProducer P}.
Abbreviation TaskScheduler := (TaskScheduler P KernelMem).
Implicit Types (s : TaskScheduler).

Definition set_control (c : Control) s : TaskScheduler :=
  MkScheduler (task_producer_ s) (worker_groups_ s) (worker_group_index_ s) (exec_worker_group_ids s) (total_submitted_count_ s) (total_completed_count_ s)
    (force_quit_ s) c (memory s) (log s).
Definition set_producer (pr : P) s : TaskScheduler :=
  MkScheduler pr (worker_groups_ s) (worker_group_index_ s) (exec_worker_group_ids s) (total_submitted_count_ s) (total_completed_count_ s)
    (force_quit_ s) (control s) (memory s) (log s).
Definition set_groups (gs : list TaskWorkerGroup) s : TaskScheduler :=
  MkScheduler (task_producer_ s) gs (worker_group_index_ s) (exec_worker_group_ids s) (total_submitted_count_ s) (total_completed_count_ s)
    (force_quit_ s) (control s) (memory s) (log s).
Definition set_ids (ids : list nat) s : TaskScheduler :=
  MkScheduler (task_producer_ s) (worker_groups_ s) (worker_group_index_ s) ids (total_submitted_count_ s) (total_completed_count_ s)
    (force_quit_ s) (control s) (memory s) (log s).
Definition set_counts (submitted completed : nat) s : TaskScheduler :=
  MkScheduler (task_producer_ s) (worker_groups_ s) (worker_group_index_ s) (exec_worker_group_ids s) submitted completed
    (force_quit_ s) (control s) (memory s) (log s).
Definition set_force (b : bool) s : TaskScheduler :=
  MkScheduler (task_producer_ s) (worker_groups_ s) (worker_group_index_ s) (exec_worker_group_ids s) (total_submitted_count_ s) (total_completed_count_ s)
    b (control s) (memory s) (log s).
Definition set_memory (m : KernelMem) (l : list nat) s : TaskScheduler :=
  MkScheduler (task_producer_ s) (worker_groups_ s) (worker_group_index_ s) (exec_worker_group_ids s) (total_submitted_count_ s) (total_completed_count_ s)
    (force_quit_ s) (control s) m l.

Definition MaxType : nat := type_index MAX.

(** A scheduler with a producer and no workers. *)
Definition CreateScheduler (producer : P) (m : KernelMem) : TaskScheduler :=
  MkScheduler producer (replicate MaxType (MkGroup [] 0 0 false)) (replicate MaxType NORMAL) (replicate MaxType 0) 0 0 false (Returned kStatusSuccess) m [].

Definition AddWorker (worker : TaskWorker) (type : ExecTaskType) s : outcome (Z * TaskScheduler) :=
  if bool_decide (MaxType <= type_index type) then Ok (kStatusFailed, s) else
  g ← at_ (worker_groups_ s) (type_index type);
  Ok (kStatusSuccess,
    MkScheduler (task_producer_ s) (<[type_index type := Group.Add worker g]> (worker_groups_ s)) (<[type_index type := type]> (worker_group_index_ s))
      (exec_worker_group_ids s) (total_submitted_count_ s) (total_completed_count_ s) (force_quit_ s) (control s) (memory s) (log s)).

Definition has_launched s : bool := existsb has_launched_ (worker_groups_ s).

Definition LaunchWorkers s : Z * TaskScheduler :=
  let s := set_groups ((fun g => (Group.Start g).2) <$> worker_groups_ s) s in
  (if has_launched s then kStatusSuccess else kStatusFailed, s).

Definition kLeastThreadNumber : nat := 2.

(** The scheduler [MultiThreadExecutionDataBuilder::Build] makes for a prepared
    producer: a worker for memory, one for launching when there is a thread for
    it, one for the rest, with queues of the default size. *)
Definition BuildScheduler (queue_size_log2 thread_num : nat) (producer : P) (m : KernelMem) : outcome TaskScheduler :=
  let add (type : ExecTaskType) (thread_count : nat) s := '(_, s) ← AddWorker (CreateWorker queue_size_log2 queue_size_log2 thread_count) type s; Ok s in
  reject_if (bool_decide (thread_num < kLeastThreadNumber)) FAILED (
  s ← add MEMORY 1 (CreateScheduler producer m);
  '(s, thread_num) ← (if bool_decide (kLeastThreadNumber < thread_num) then s ← add LAUNCH 1 s; Ok (s, thread_num - 1) else Ok (s, thread_num));
  s ← add NORMAL (thread_num - 1) s;
  let '(ret, s) := LaunchWorkers s in
  if bool_decide (ret <> kStatusSuccess) then Err FAILED else Ok s).

Definition WakeupWorkers s : TaskScheduler := set_groups (Group.WakeupWorkers <$> worker_groups_ s) s.
Definition SleepWorkers s : TaskScheduler := set_groups (Group.SleepWorkers <$> worker_groups_ s) s.

Definition ShouldScheduleMore s : bool := bool_decide (total_completed_count_ s < total_submitted_count_ s).

(** The head of [FetchResult] of every group. *)
Definition fetch_all (why : Purpose) s : TaskScheduler := set_control (Fetching why (seq 0 (length (worker_groups_ s))) None []) s.

(** [Schedule] up to its loop. *)
Definition Schedule s : outcome TaskScheduler :=
  if negb (has_launched s) then Ok (set_control (Returned kStatusFailed) s) else
  '(ret, pr) ← StartUp (memory s) (task_producer_ s);
  let s := set_producer pr s in
  if bool_decide (ret <> kStatusSuccess) then Ok (set_control (Returned kStatusFailed) s) else
  let s := set_force false (set_counts 0 0 s) in
  let s := set_memory (memory s) [] (set_ids (replicate MaxType 0) s) in
  Ok (set_control Producing (WakeupWorkers s)).

(** [ExecuteTasks], to where it has tasks to submit. *)
Definition produce_step s : outcome TaskScheduler :=
  let '(tasks, pr) := Produce (task_producer_ s) in
  let s := set_producer pr s in
  if bool_decide (tasks <> []) then Ok (set_control (Submitting tasks) s)
  else if ShouldScheduleMore s then Ok (fetch_all Recycling s)
  else
    '(ret, pr) ← EndUp (task_producer_ s);
    let s := set_producer pr s in
    if bool_decide (ret <> kStatusSuccess) then Ok (set_control (Returned kStatusFailed) s)
    else Ok (set_control (Returned kStatusSuccess) (SleepWorkers s)).

(** A task whose worker group has no workers is dropped; one that a worker has
    no room for is offered again, to the next worker. *)
Definition submit_step (task : ExecTask) (unprocessed : list ExecTask) s : outcome TaskScheduler :=
  type ← at_ (worker_group_index_ s) (type_index (type_ task));
  let id := type_index type in
  group ← at_ (worker_groups_ s) id;
  let worker_id_max := length (workers_ group) in
  if bool_decide (worker_id_max = 0) then Ok (set_control (Submitting unprocessed) s) else
  n ← at_ (exec_worker_group_ids s) id;
  let s := set_ids (<[id := S n]> (exec_worker_group_ids s)) s in
  '(ok, group) ← Group.ExecuteTask task (n mod worker_id_max) group;
  let s := set_groups (<[id := group]> (worker_groups_ s)) s in
  if ok : bool then Ok (set_control (Submitting unprocessed) (set_counts (S (total_submitted_count_ s)) (total_completed_count_ s) s))
  else Ok (set_control (Submitting (task :: unprocessed)) s).

(** The head of the loop of [RecycleTaskWhenExecuteFailed]. *)
Definition drain (ret : Z) s : TaskScheduler := if ShouldScheduleMore s then fetch_all (Draining ret 0) s else set_control (Returned ret) s.

(** After the last group. *)
Definition fetched (why : Purpose) (completed_tasks : list ExecTask) s : outcome TaskScheduler :=
  let count s := set_counts (total_submitted_count_ s) (total_completed_count_ s + length completed_tasks) s in
  match why with
  | Recycling =>
      if bool_decide (completed_tasks = []) then Ok (fetch_all Recycling s) else
      let s := count s in
      '(ret, pr) ← Recycle (memory s) completed_tasks (task_producer_ s);
      let s := set_producer pr s in
      if bool_decide (ret <> kStatusSuccess) then Ok (drain ret (set_force true s)) else Ok (set_control Producing s)
  | Draining ret pass =>
      let s := count s in
      if bool_decide (S pass < MaxType) then Ok (fetch_all (Draining ret (S pass)) s) else Ok (drain ret s)
  end.

(** The scheduler's thread.  [completed_count_] is kept up to date by the task;
    it is read only when [FetchResult] begins. *)
Definition main_step s : outcome TaskScheduler :=
  match control s with
  | Producing => produce_step s
  | Submitting [] => Ok (fetch_all Recycling s)
  | Submitting (task :: unprocessed) => submit_step task unprocessed s
  | Fetching why [] _ completed_tasks => fetched why completed_tasks s
  | Fetching why (g :: gs) None completed_tasks =>
      group ← at_ (worker_groups_ s) g;
      if Group.IsFinish group then Ok (set_control (Fetching why gs None completed_tasks) s)
      else Ok (set_control (Fetching why (g :: gs) (Some (seq 0 (length (workers_ group)))) completed_tasks) s)
  | Fetching why (g :: gs) (Some []) completed_tasks => Ok (set_control (Fetching why gs None completed_tasks) s)
  | Fetching why (g :: gs) (Some (w :: ws)) completed_tasks =>
      group ← at_ (worker_groups_ s) g;
      worker ← at_ (workers_ group) w;
      match FetchOne worker with
      | (None, _) => Ok (set_control (Fetching why (g :: gs) (Some ws) completed_tasks) s)
      | (Some task, worker) =>
          let group := MkGroup (<[w := worker]> (workers_ group)) (submitted_count_ group) (S (completed_count_ group)) (has_launched_ group) in
          Ok (set_control (Fetching why (g :: gs) (Some (w :: ws)) (completed_tasks ++ [task])) (set_groups (<[g := group]> (worker_groups_ s)) s))
      end
  | Returned _ => Ok s
  end.

(** ** Threads of workers *)

(** What a thread does next, with its worker, the memory of the kernels and the
    kernels called; [None] when it has to wait. *)
Definition thread_step (force_quit : bool) (i : nat) (w : TaskWorker) (m : KernelMem) (l : list nat) : option (TaskWorker * KernelMem * list nat) :=
  match threads_ w !! i with
  | None => None
  | Some Idle =>
      if is_sleep_ w then None else
      match pending_task_queue_ w with
      | [] => None
      | task :: q => Some (set_thread i (Executing (set_ran [] task) (task_node_list_ task)) (set_pending q w), m, l)
      end
  | Some (Executing task []) => Some (set_thread i (Pushing task) w, m, l)
  | Some (Executing task (kernel :: rest)) =>
      if force_quit then Some (set_thread i (Pushing task) w, m, l) else
      let '(continue, task, m) := call_kernel kernel task m in
      Some (set_thread i (if continue : bool then Executing task rest else Pushing task) w, m, l ++ [kernel])
  | Some (Pushing task) =>
      if bool_decide (length (completed_task_queue_ w) < completed_capacity w)
      then Some (set_thread i Idle (set_completed (completed_task_queue_ w ++ [task]) w), m, l) else None
  end.

Definition worker_step (g w i : nat) s : option TaskScheduler :=
  group ← worker_groups_ s !! g;
  worker ← workers_ group !! w;
  '(worker, m, l) ← thread_step (force_quit_ s) i worker (memory s) (log s);
  Some (set_memory m l (set_groups (<[g := set_workers (<[w := worker]> (workers_ group)) group]> (worker_groups_ s)) s)).

Definition returned s : Prop := exists ret, control s = Returned ret.

Inductive step : TaskScheduler -> TaskScheduler -> Prop :=
| step_main s s' : ~ returned s -> main_step s = Ok s' -> step s s'
| step_worker g w i s s' : worker_step g w i s = Some s' -> step s s'.

End scheduler.
