(* ===== verification/SchedWorkSound.v ===== *)
(** * SchedWorkSound: what the scheduler and its workers keep true

    The invariant, and that every step of a worker's thread keeps it: a kernel is
    called only when all kernels it waits for have been. *)

From S2P Require Import Prelude ExecReady ExecTopo ExecTopoSound SchedTask SchedWork.

(** * The tasks in flight and the scheduler's invariant

    Every task that is handed out and not recycled is with the scheduler's
    thread or in a worker, with a stage: waiting, running, finished.  A step of
    a worker's thread moves one task on ([thread_job]). *)

#[local] Open Scope nat_scope.

(** ** Tasks in flight *)

Inductive Stage := Waiting | Running (rest : list nat) | Finished.

Abbreviation job := (Stage * ExecTask)%type.

Definition thread_jobs (th : TaskThread) : list job :=
  match th with Idle => [] | Executing t rest => [(Running rest, t)] | Pushing t => [(Finished, t)] end.
Definition worker_jobs (w : TaskWorker) : list job :=
  (pair Waiting <$> pending_task_queue_ w) ++ (threads_ w ≫= thread_jobs) ++ (pair Finished <$> completed_task_queue_ w).
Definition group_jobs (g : TaskWorkerGroup) : list job := workers_ g ≫= worker_jobs.
Definition jobs_of (gs : list TaskWorkerGroup) : list job := gs ≫= group_jobs.

(** What the scheduler's thread holds. *)
Definition waiting (c : Control) : list ExecTask := match c with Submitting l => l | _ => [] end.
Definition package (c : Control) : list ExecTask := match c with Fetching _ _ _ l => l | _ => [] end.
Definition control_jobs (c : Control) : list job := (pair Waiting <$> waiting c) ++ (pair Finished <$> package c).

(** Changing one element changes its part of a [bind]. *)
Lemma bind_insert {A B} (f : A -> list B) (l : list A) i x :
  l !! i = Some x -> exists r, (l ≫= f) ≡ₚ f x ++ r /\ forall y, (<[i := y]> l ≫= f) ≡ₚ f y ++ r.
Proof.
  intros Hx. exists ((take i l ≫= f) ++ (drop (S i) l ≫= f)). split; [|intros y; rewrite insert_take_drop by (by eapply lookup_lt_Some)].
  - rewrite <- (take_drop_middle l i x Hx) at 1. rewrite bind_app. simpl. solve_Permutation.
  - rewrite bind_app. simpl. solve_Permutation.
Qed.

(** *** One step of a task *)

Section jobs.
Context {K : Kernels}.

Inductive job_step (force : bool) : job -> KernelMem -> list nat -> job -> KernelMem -> list nat -> Prop :=
| job_pop t m l : job_step force (Waiting, t) m l (Running (task_node_list_ t), set_ran [] t) m l
| job_end t m l : job_step force (Running [], t) m l (Finished, t) m l
| job_quit t n r m l : force = true -> job_step force (Running (n :: r), t) m l (Finished, t) m l
| job_call t t' n r (b : bool) m m' l :
    force = false -> call_kernel n t m = (b, t', m') ->
    job_step force (Running (n :: r), t) m l (if b then Running r else Finished, t') m' (l ++ [n])
| job_push t m l : job_step force (Finished, t) m l (Finished, t) m l.

Lemma thread_job force i w m l w' m' l' :
  thread_step force i w m l = Some (w', m', l') ->
  exists j j' r, worker_jobs w ≡ₚ j :: r /\ worker_jobs w' ≡ₚ j' :: r /\ job_step force j m l j' m' l' /\
    length (threads_ w') = length (threads_ w) /\ pending_capacity w' = pending_capacity w /\ completed_capacity w' = completed_capacity w /\ is_sleep_ w' = is_sleep_ w.
Proof.
  unfold thread_step. destruct (threads_ w !! i) as [th|] eqn:Eth; [|done]. destruct (bind_insert thread_jobs _ _ _ Eth) as (r & Hr & Hins).
  destruct th as [|t [|n rest]|t].
  - destruct (is_sleep_ w) eqn:Es; [done|]. destruct (pending_task_queue_ w) as [|t q] eqn:Eq; [done|]. intros [= <- <- <-].
    eexists (Waiting, t), _, (((pair Waiting) <$> q) ++ r ++ (pair Finished <$> completed_task_queue_ w)). unfold worker_jobs. simpl. rewrite Eq, Hins, Hr. simpl.
    split_and!; [done| |constructor|by rewrite length_insert|done|done|done]. solve_Permutation.
  - intros [= <- <- <-]. eexists (Running [], t), _, ((pair Waiting <$> pending_task_queue_ w) ++ r ++ (pair Finished <$> completed_task_queue_ w)). unfold worker_jobs. simpl. rewrite Hins, Hr. simpl.
    split_and!; [| |constructor|by rewrite length_insert|done|done|done]; solve_Permutation.
  - destruct force.
    + intros [= <- <- <-]. eexists (Running (n :: rest), t), _, ((pair Waiting <$> pending_task_queue_ w) ++ r ++ (pair Finished <$> completed_task_queue_ w)). unfold worker_jobs. simpl. rewrite Hins, Hr. simpl.
      split_and!; [| |by constructor|by rewrite length_insert|done|done|done]; solve_Permutation.
    + destruct (call_kernel n t m) as [[b t'] m1] eqn:Ec. intros [= <- <- <-].
      eexists (Running (n :: rest), t), (if b then Running rest else Finished, t'), ((pair Waiting <$> pending_task_queue_ w) ++ r ++ (pair Finished <$> completed_task_queue_ w)).
      unfold worker_jobs. simpl. rewrite Hins, Hr. split_and!; [| |by constructor|by rewrite length_insert|done|done|done]; destruct b; simpl; solve_Permutation.
  - case_bool_decide; [|done]. intros [= <- <- <-]. eexists (Finished, t), _, ((pair Waiting <$> pending_task_queue_ w) ++ r ++ (pair Finished <$> completed_task_queue_ w)).
    unfold worker_jobs. simpl. rewrite Hins, Hr, fmap_app. simpl. split_and!; [| |constructor|by rewrite length_insert|done|done|done]; solve_Permutation.
Qed.

(** A kernel's status is that of its task. *)
Definition status_of (t : ExecTask) : Prop := exists n m, n ∈ ran t /\ (func n m).1 = kernel_ret_ t.

(** A finished task has run all its kernels, or reports a status of one. *)
Definition job_ok (j : job) : Prop :=
  match j.1 with
  | Waiting => ran j.2 = [] /\ type_ j.2 <> MAX
  | Running r => task_node_list_ j.2 = ran j.2 ++ r /\ (ran j.2 = [] \/ status_of j.2)
  | Finished => status_of j.2 /\ exists r, task_node_list_ j.2 = ran j.2 ++ r /\ (kernel_ret_ j.2 = kStatusSuccess -> r = [])
  end.

Lemma job_prefix j : job_ok j -> exists r, task_node_list_ j.2 = ran j.2 ++ r.
Proof. destruct j as [[|r|] t]; unfold job_ok; simpl; [intros [-> _]; simpl; eauto|intros [-> _]; eauto|intros (_ & r & -> & _); eauto]. Qed.

Lemma call_kernel_ok n t m b t' m' :
  call_kernel n t m = (b, t', m') ->
  m' = (func n m).2 /\ task_node_list_ t' = task_node_list_ t /\ ran t' = ran t ++ [n] /\ status_of t' /\ (b = false -> kernel_ret_ t' <> kStatusSuccess).
Proof.
  unfold call_kernel. destruct (func n m) as [ret m1] eqn:Ef. intros [= <- <- <-]. split; [done|]. split; [done|]. split; [done|]. split; [exists n, m; simpl; rewrite Ef; set_solver|].
  simpl. intros [Hb _]%orb_false_iff. by apply bool_decide_eq_false in Hb.
Qed.

(** A step keeps the task's kernels; it appends what it calls to those the task
    has run and to the log. *)
Lemma job_step_ok force j m l j' m' l' :
  job_step force j m l j' m' l' -> task_node_list_ j.2 <> [] -> job_ok j ->
  task_node_list_ j'.2 = task_node_list_ j.2 /\ (force = false -> job_ok j') /\
  (j'.1 = Waiting -> False) /\ exists x, l' = l ++ x /\ ran j'.2 = ran j.2 ++ x /\
    ((x = [] /\ m' = m) \/ (force = false /\ exists n r, x = [n] /\ m' = (func n m).2 /\ task_node_list_ j.2 = ran j.2 ++ n :: r)).
Proof.
  intros Hs Hne Hok. destruct Hs as [t m l|t m l|t n r m l Hf|t t' n r b m m' l Hf Hc|t m l]; unfold job_ok in *; simpl in *.
  - destruct Hok as [Hran _]. split; [done|]. split; [by auto|]. split; [done|]. exists []. rewrite Hran, app_nil_r. by auto.
  - destruct Hok as [Hn Hst]. rewrite app_nil_r in Hn. split; [done|]. split.
    { intros _. destruct Hst as [Hst|Hst]; [congruence|]. split; [done|]. exists []. by rewrite app_nil_r. }
    split; [done|]. exists []. rewrite !app_nil_r. by auto.
  - split; [done|]. split; [by rewrite Hf|]. split; [done|]. exists []. rewrite !app_nil_r. by auto.
  - destruct (call_kernel_ok _ _ _ _ _ _ Hc) as (-> & Hn & Hr & Hst & Hret). destruct Hok as [Hok _]. split; [done|]. split.
    { intros _. destruct b; simpl; [rewrite Hn, Hr, Hok, <- app_assoc; by auto|]. split; [done|]. exists r. rewrite Hn, Hr, Hok, <- app_assoc. split; [done|]. intros E. by destruct (Hret eq_refl). }
    split; [by destruct b|]. exists [n]. split; [done|]. split; [done|]. right. split; [done|]. exists n, r. done.
  - split; [done|]. split; [done|]. split; [done|]. exists []. rewrite !app_nil_r. by auto.
Qed.
End jobs.

#[local] Open Scope nat_scope.

(** The memory that kernels leave, one after the other. *)
Definition run_kernels {K : Kernels} (l : list nat) (m : KernelMem) : KernelMem := foldl (fun m n => (func n m).2) m l.

Lemma run_kernels_snoc {K : Kernels} l n m : run_kernels (l ++ [n]) m = (func n (run_kernels l m)).2.
Proof. unfold run_kernels. by rewrite foldl_app. Qed.

Lemma schedule_snoc p best done l x :
  schedule p best done l -> x ∈ ready_nodes p (rev l ++ done) -> best x (ready_nodes p (rev l ++ done)) -> schedule p best done (l ++ [x]).
Proof.
  induction 1 as [done|done y l Hy Hb Hs IH]; simpl; intros Hx Hbest; [by repeat constructor|].
  rewrite <- app_assoc in Hx, Hbest. constructor; [done|done|]. by apply IH.
Qed.

Lemma elem_of_rev {A} (x : A) l : x ∈ rev l <-> x ∈ l.
Proof. by rewrite !list_elem_of_In, <- in_rev. Qed.

Section inv.
Context {K : Kernels} (p : Plan) {P : Type} {TP : TaskProducer P} {PL : ProducerLaws p P} (m0 : KernelMem).
Context (Hstatic : forall node m, node_watchers (func node m).2 = node_watchers m).
Abbreviation A := (p_active p).
Abbreviation Sched := (TaskScheduler P KernelMem).
Implicit Types (s : Sched) (fl : list job) (gs : list TaskWorkerGroup).

(** ** Tasks in flight *)

Definition nodes_of (fl : list job) : list (list nat) := (fun j => task_node_list_ j.2) <$> fl.
Definition ran_of (fl : list job) : list nat := fl ≫= (fun j => ran j.2).

(** The producer has recycled some kernels, all of which ran, and the tasks in
    flight are those it handed out. *)
Definition in_flight (pr : P) (l : list nat) fl : Prop :=
  exists k, active pr k (nodes_of fl) /\ Forall job_ok fl /\ l ≡ₚ k ++ ran_of fl.

Lemma in_flight_perm pr l fl fl' : fl ≡ₚ fl' -> in_flight pr l fl -> in_flight pr l fl'.
Proof.
  intros Hf (k & Ha & Hok & Hl). exists k. split; [|split].
  - eapply law_perm; [|exact Ha]. unfold nodes_of. by rewrite Hf.
  - by rewrite <- Hf.
  - rewrite Hl. unfold ran_of. by rewrite Hf.
Qed.

(** The kernels of a task in flight that have not run are no one else's. *)
Lemma ran_sub fl : Forall job_ok fl -> ran_of fl ⊆+ concat (nodes_of fl).
Proof.
  induction 1 as [|j fl Hj _ IH]; simpl; [done|]. destruct (job_prefix _ Hj) as [r ->]. change (ran_of (j :: fl)) with (ran j.2 ++ ran_of fl).
  apply submseteq_app; [apply submseteq_inserts_r|]; done.
Qed.

Lemma next_ready pr l j fl n r :
  in_flight pr l (j :: fl) -> task_node_list_ j.2 = ran j.2 ++ n :: r -> n ∈ ready_nodes p (rev l).
Proof.
  intros (k & Ha & Hok & Hl) Hn. destruct (law_once _ _ _ Ha) as [Hnd Hsub]. destruct (law_legal _ _ _ _ Ha ltac:(by left)) as [_ Hlegal].
  apply Forall_cons in Hok as [_ Hok]. pose proof (ran_sub _ Hok) as Hrs. rewrite Hn in Hlegal. apply legal_app in Hlegal as [_ [Hpre _]].
  change (nodes_of (j :: fl)) with (task_node_list_ j.2 :: nodes_of fl) in *. change (ran_of (j :: fl)) with (ran j.2 ++ ran_of fl) in *. rewrite Hn in Hnd, Hsub. simpl in Hnd, Hsub.
  apply elem_of_ready. split; [apply Hsub; set_solver|]. rewrite elem_of_rev. split.
  - rewrite Hl, !elem_of_app. intros Hin.
    assert (Hp : k ++ (ran j.2 ++ n :: r) ++ concat (nodes_of fl) ≡ₚ n :: (k ++ ran j.2 ++ concat (nodes_of fl)) ++ r) by solve_Permutation.
    rewrite Hp in Hnd. apply NoDup_cons in Hnd as [Hnot _]. apply Hnot. rewrite !elem_of_app. destruct Hin as [?|[?|Hin]]; [tauto..|]. left. right. right.
    by eapply elem_of_submseteq.
  - intros w Hw Hnw. specialize (Hpre w Hw Hnw). rewrite elem_of_rev, Hl. rewrite elem_of_app, elem_of_rev in Hpre. set_solver.
Qed.

Lemma in_flight_step pr m l j j' fl m' l' :
  in_flight pr l (j :: fl) -> job_step false j m l j' m' l' -> schedule p anyone [] l -> m = run_kernels l m0 -> watched p m ->
  in_flight pr l' (j' :: fl) /\ schedule p anyone [] l' /\ m' = run_kernels l' m0 /\ watched p m'.
Proof.
  intros HF Hs Hsch Hm Hw. pose proof HF as (k & Ha & Hok & Hl). apply Forall_cons in Hok as [Hj Hok].
  destruct (law_legal _ _ _ _ Ha ltac:(by left)) as [Hne _]. destruct (job_step_ok _ _ _ _ _ _ _ Hs Hne Hj) as (Hn & Hok' & _ & x & -> & Hr & Hx).
  split.
  - exists k. split; [|split].
    + unfold nodes_of. simpl. by rewrite Hn.
    + constructor; [by apply Hok'|done].
    + rewrite Hl. change (ran_of (?a :: fl)) with (ran a.2 ++ ran_of fl). rewrite Hr. solve_Permutation.
  - destruct Hx as [[-> ->]|(_ & n & r & -> & -> & Hnr)]; [by rewrite app_nil_r|]. split; [|split].
    + pose proof (next_ready _ _ _ _ _ _ HF Hnr) as Hready. apply schedule_snoc; [done|by rewrite app_nil_r|done].
    + by rewrite run_kernels_snoc, <- Hm.
    + intros y Hy. rewrite Hstatic. by apply Hw.
Qed.

(** ** The invariant *)

Definition worker_wf (w : TaskWorker) : Prop := 0 < length (threads_ w) /\ length A <= pending_capacity w /\ length A <= completed_capacity w.
Definition group_wf (g : TaskWorkerGroup) : Prop :=
  Forall worker_wf (workers_ g) /\ (workers_ g <> [] -> has_launched_ g = true) /\ submitted_count_ g = completed_count_ g + length (group_jobs g).
Definition group_awake (g : TaskWorkerGroup) : Prop := Forall (fun w => is_sleep_ w = false) (workers_ g).

Definition shape gs : list nat := (fun g => length (workers_ g)) <$> gs.

(** Each task type has a group with a worker. *)
Definition index_ok s : Prop := forall t, t <> MAX ->
  exists t' n, worker_group_index_ s !! type_index t = Some t' /\ shape (worker_groups_ s) !! type_index t' = Some (S n) /\ is_Some (exec_worker_group_ids s !! type_index t').

Definition position_ok (sh : list nat) (c : Control) : Prop :=
  match c with
  | Fetching _ gs ws _ => Forall (fun g => g < length sh) gs /\ match ws, gs with Some l, g :: _ => exists n, sh !! g = Some n /\ Forall (fun w => w < n) l | _, _ => True end
  | _ => True
  end.

Record common s : Prop := {
  cm_legal : schedule p anyone [] (log s);
  cm_memory : memory s = run_kernels (log s) m0;
  cm_watched : watched p (memory s);
  cm_groups : Forall group_wf (worker_groups_ s);
  cm_index : index_ok s;
  cm_position : position_ok (shape (worker_groups_ s)) (control s);
  cm_count : total_submitted_count_ s = total_completed_count_ s + length (package (control s)) + length (jobs_of (worker_groups_ s));
  cm_bound : length (waiting (control s)) + length (package (control s)) + length (jobs_of (worker_groups_ s)) <= length A;
  cm_awake : ~ returned s -> Forall group_awake (worker_groups_ s);
}.

(** All tasks in flight. *)
Definition flight s : list job := control_jobs (control s) ++ jobs_of (worker_groups_ s).

(** [ret] is the status of a kernel that was called. *)
Definition kernel_status s (ret : Z) : Prop := exists n m, n ∈ log s /\ (func n m).1 = ret.

Definition mode_ok s : Prop :=
  match control s with
  | Fetching (Draining ret _) _ _ _ => force_quit_ s = true /\ ret <> kStatusSuccess /\ kernel_status s ret
  | Returned ret =>
      jobs_of (worker_groups_ s) = [] /\
      (ret = kStatusSuccess -> log s ≡ₚ A /\ at_rest (task_producer_ s)) /\ (ret <> kStatusSuccess -> kernel_status s ret)
  | _ => force_quit_ s = false /\ in_flight (task_producer_ s) (log s) (flight s) /\ (control s <> Producing -> flight s <> [])
  end.

Definition Inv s : Prop := common s /\ mode_ok s.

(** ** Steps of workers *)

Lemma jobs_one_worker gs g group w worker :
  gs !! g = Some group -> workers_ group !! w = Some worker ->
  exists r rg, group_jobs group ≡ₚ worker_jobs worker ++ rg /\ jobs_of gs ≡ₚ worker_jobs worker ++ r /\
    forall worker' a b, group_jobs (MkGroup (<[w := worker']> (workers_ group)) a b (has_launched_ group)) ≡ₚ worker_jobs worker' ++ rg /\
      jobs_of (<[g := MkGroup (<[w := worker']> (workers_ group)) a b (has_launched_ group)]> gs) ≡ₚ worker_jobs worker' ++ r.
Proof.
  intros Hg Hw. destruct (bind_insert group_jobs _ _ _ Hg) as (r1 & H1 & I1). destruct (bind_insert worker_jobs _ _ _ Hw) as (r2 & H2 & I2).
  exists (r2 ++ r1), r2. split; [done|]. unfold jobs_of. rewrite H1. unfold group_jobs at 1 2. rewrite H2. split; [solve_Permutation|].
  intros worker' a b. split; [apply I2|]. rewrite I1. unfold group_jobs at 1. simpl. rewrite I2. solve_Permutation.
Qed.

Lemma shape_insert gs g group group' :
  gs !! g = Some group -> length (workers_ group') = length (workers_ group) -> shape (<[g := group']> gs) = shape gs.
Proof. intros Hg Hl. unfold shape. rewrite list_fmap_insert. apply list_insert_id. rewrite list_lookup_fmap, Hg. simpl. by rewrite Hl. Qed.

Lemma worker_effect g w i s s' :
  worker_step g w i s = Some s' -> Forall group_wf (worker_groups_ s) ->
  exists j j' r gs m l, s' = set_memory m l (set_groups gs s) /\ jobs_of (worker_groups_ s) ≡ₚ j :: r /\ jobs_of gs ≡ₚ j' :: r /\
    job_step (force_quit_ s) j (memory s) (log s) j' m l /\ shape gs = shape (worker_groups_ s) /\ Forall group_wf gs /\
    (Forall group_awake (worker_groups_ s) -> Forall group_awake gs).
Proof.
  unfold worker_step. intros Hs Hwf. destruct (worker_groups_ s !! g) as [group|] eqn:Eg; simpl in Hs; [|done]. destruct (workers_ group !! w) as [worker|] eqn:Ew; simpl in Hs; [|done].
  destruct (thread_step _ _ _ _ _) as [[[worker' m] l]|] eqn:Et; [|done]. simplify_eq/=.
  destruct (thread_job _ _ _ _ _ _ _ _ Et) as (j & j' & r0 & Hj & Hj' & Hjs & Hth & Hpc & Hcc & Hsl).
  destruct (jobs_one_worker _ _ _ _ _ Eg Ew) as (r & rg & Hg & Hall & Hins). destruct (Hins worker' (submitted_count_ group) (completed_count_ group)) as [Hg' Hall'].
  rewrite Forall_lookup in Hwf. destruct (Hwf _ _ Eg) as (Hws & Hla & Hcnt).
  eexists j, j', (r0 ++ r), _, m, l. split; [done|]. rewrite Hall, Hj. split; [done|]. split; [rewrite Hall', Hj'; done|]. split; [done|].
  split; [eapply shape_insert; [done|]; simpl; by rewrite length_insert|]. split.
  - apply Forall_insert; [by apply Forall_lookup|]. split; [|split].
    + simpl. apply Forall_insert; [done|]. rewrite Forall_lookup in Hws. destruct (Hws _ _ Ew) as (? & ? & ?). split; [by rewrite Hth|]. by rewrite Hpc, Hcc.
    + simpl. intros _. apply Hla. intros E. by rewrite E in Ew.
    + simpl. rewrite Hcnt. f_equal. unfold set_workers. rewrite Hg', Hg, Hj, Hj'. done.
  - intros Haw. apply Forall_insert; [done|]. simpl. rewrite Forall_lookup in Haw. apply Forall_insert; [by apply (Haw _ _ Eg)|]. rewrite Hsl.
    pose proof (Haw _ _ Eg) as Hga. unfold group_awake in Hga. rewrite Forall_lookup in Hga. by apply (Hga _ _ Ew).
Qed.

Lemma flight_split s j r : jobs_of (worker_groups_ s) ≡ₚ j :: r -> flight s ≡ₚ j :: control_jobs (control s) ++ r.
Proof. intros H. unfold flight. rewrite H. solve_Permutation. Qed.

(** In the draining mode no kernel is called. *)
Lemma quit_step j m l j' m' l' : job_step true j m l j' m' l' -> m' = m /\ l' = l.
Proof. inversion 1; done. Qed.

Lemma worker_inv g w i s s' : Inv s -> worker_step g w i s = Some s' -> Inv s'.
Proof.
  intros [HC HM] Hs. destruct (worker_effect _ _ _ _ _ Hs (cm_groups _ HC)) as (j & j' & r & gs & m & l & -> & Hj & Hj' & Hjs & Hsh & Hwf & Haw).
  assert (Hlen : length (jobs_of gs) = length (jobs_of (worker_groups_ s))) by (by rewrite Hj, Hj').
  assert (HC' : schedule p anyone [] l -> m = run_kernels l m0 -> watched p m -> common (set_memory m l (set_groups gs s))).
  { intros. destruct HC as [_ _ _ _ Hix Hps Hct Hbd Hak]. split; simpl; rewrite ?Hlen; try done; [|by rewrite Hsh|by intros; apply Haw, Hak].
    intros t Ht. destruct (Hix t Ht) as (t' & n & ? & ? & ?). exists t', n. simpl. by rewrite Hsh. }
  pose proof (cm_legal _ HC) as Hl. pose proof (cm_memory _ HC) as Hm. pose proof (cm_watched _ HC) as Hw.
  assert (Hnormal : in_flight (task_producer_ s) (log s) (flight s) -> force_quit_ s = false ->
    common (set_memory m l (set_groups gs s)) /\ in_flight (task_producer_ s) l (control_jobs (control s) ++ jobs_of gs) /\ control_jobs (control s) ++ jobs_of gs <> []).
  { intros HF Hf. rewrite Hf in Hjs. apply (in_flight_perm _ _ _ _ (flight_split _ _ _ Hj)) in HF.
    destruct (in_flight_step _ _ _ _ _ _ _ _ HF Hjs Hl Hm Hw) as (HF' & ? & ? & ?). split; [by apply HC'|]. split; [eapply in_flight_perm; [|exact HF']; rewrite Hj'; solve_Permutation|].
    intros [_ E]%app_nil. rewrite E in Hj'. by apply Permutation_nil_cons in Hj'. }
  unfold Inv, mode_ok, flight in *. simpl in *. destruct (control s) as [|ts|[|ret pass] gs' ws pkg|ret] eqn:Ec.
  - destruct HM as (? & HF & _). by destruct (Hnormal HF) as (? & ? & ?).
  - destruct HM as (? & HF & _). by destruct (Hnormal HF) as (? & ? & ?).
  - destruct HM as (? & HF & _). by destruct (Hnormal HF) as (? & ? & ?).
  - destruct HM as (Hf & Hr & Hk). rewrite Hf in Hjs. destruct (quit_step _ _ _ _ _ _ Hjs) as [-> ->]. split; [by apply HC'|]. done.
  - destruct HM as (Hnil & _). rewrite Hnil in Hj. by apply Permutation_nil_cons in Hj.
Qed.
End inv.

(** * The scheduler's thread keeps the invariant

    [main_ok]: a step of the scheduler's thread has an outcome, and the
    invariant holds after it. *)

#[local] Open Scope nat_scope.

Section main.
Context {K : Kernels} (p : Plan) {P : Type} {TP : TaskProducer P} {PL : ProducerLaws p P} (m0 : KernelMem).
Abbreviation A := (p_active p).
Abbreviation Sched := (TaskScheduler P KernelMem).
Abbreviation in_flight := (in_flight p).
Abbreviation common := (common p m0).
Abbreviation mode_ok := (mode_ok p).
Abbreviation Inv := (Inv p m0).
Implicit Types (s : Sched) (fl : list job) (gs : list TaskWorkerGroup).

(** ** Tasks and the producer *)

Lemma nodes_of_app fl fl' : nodes_of (fl ++ fl') = nodes_of fl ++ nodes_of fl'.
Proof. apply fmap_app. Qed.

Lemma ran_of_app fl fl' : ran_of (fl ++ fl') = ran_of fl ++ ran_of fl'.
Proof. apply bind_app. Qed.

Lemma nodes_of_stage st ts : nodes_of (pair st <$> ts) = task_node_list_ <$> ts.
Proof. unfold nodes_of. by rewrite <- list_fmap_compose. Qed.

(** No more tasks are in flight than there are nodes. *)
Lemma flight_bound pr l fl : in_flight pr l fl -> length fl <= length A.
Proof.
  intros (k & Ha & _). destruct (law_once _ _ _ Ha) as [Hnd Hsub]. apply NoDup_app in Hnd as (_ & _ & Hnd).
  transitivity (length (concat (nodes_of fl))).
  - assert (Hne : Forall (fun x => x <> []) (nodes_of fl)) by (apply Forall_forall; intros x Hx; by apply (law_legal _ _ _ _ Ha)). clear -Hne. revert Hne.
    induction fl as [|j fl IH]; simpl; [lia|]. intros [Hj Hne]%Forall_cons. specialize (IH Hne). rewrite length_app. destruct (task_node_list_ j.2); simpl; [done|lia].
  - apply NoDup_bound; [done|]. set_solver.
Qed.

Lemma fresh_ran ts : Forall fresh_task ts -> ran_of (pair Waiting <$> ts) = [].
Proof.
  induction 1 as [|t ts [Ht _] _ IH]; [done|]. change (ran_of (pair Waiting <$> t :: ts)) with (ran t ++ ran_of (pair Waiting <$> ts)). by rewrite Ht, IH.
Qed.

Lemma produce_ok pr l fl :
  in_flight pr l fl ->
  in_flight (Produce pr).2 l ((pair Waiting <$> (Produce pr).1) ++ fl) /\ (Produce (Produce pr).2).1 = [] /\ ran_of (pair Waiting <$> (Produce pr).1) = [].
Proof.
  intros (k & Ha & Hok & Hl). destruct (law_produce _ _ _ Ha) as (Ha' & Hfr & Hnil). split; [|split; [done|by apply fresh_ran]]. exists k. split; [|split].
  - eapply law_perm; [|exact Ha']. rewrite nodes_of_app, nodes_of_stage. solve_Permutation.
  - apply Forall_app. split; [|done]. apply Forall_fmap. eapply Forall_impl; [exact Hfr|]. by intros t [? ?].
  - by rewrite ran_of_app, fresh_ran.
Qed.

(** A package of finished tasks is recycled, or one of them reports the failure
    of a kernel. *)
Lemma recycle_package m pkg pr l fl :
  watched p m -> in_flight pr l ((pair Finished <$> pkg) ++ fl) ->
  exists ret pr', Recycle m pkg pr = Ok (ret, pr') /\ (ret = kStatusSuccess -> in_flight pr' l fl) /\
    (ret <> kStatusSuccess -> exists n mm, n ∈ l /\ (func n mm).1 = ret).
Proof.
  intros Hm. revert pr. induction pkg as [|t pkg IH]; simpl; intros pr HF; [by exists kStatusSuccess, pr|].
  destruct HF as (k & Ha & Hok & Hl). apply Forall_cons in Hok as [Hj Hok]. destruct Hj as ((n & mm & Hn & Hst) & r & Hnodes & Hr). simpl in *.
  change (ran_of ((Finished, t) :: ?x)) with (ran t ++ ran_of x) in Hl. change (nodes_of ((Finished, t) :: ?x)) with (task_node_list_ t :: nodes_of x) in Ha.
  destruct (decide (kernel_ret_ t = kStatusSuccess)) as [Eret|Eret].
  - destruct (law_recycle _ _ _ _ _ Hm Ha Eret) as (pr1 & -> & Ha1). cbn [mbind outcome_bind]. rewrite bool_decide_false by (by intros Hx).
    apply IH. exists (k ++ task_node_list_ t). split; [done|]. split; [done|]. rewrite Hl, Hnodes, (Hr Eret), app_nil_r. solve_Permutation.
  - rewrite (law_failed _ _ _ Eret). cbn [mbind outcome_bind]. rewrite bool_decide_true by done. exists (kernel_ret_ t), pr. split; [done|]. split; [done|].
    intros _. exists n, mm. split; [|done]. rewrite Hl. set_solver.
Qed.

(** ** Groups *)

Lemma sleep_jobs b (g : TaskWorkerGroup) : group_jobs (set_workers (set_sleep b <$> workers_ g) g) = group_jobs g.
Proof. unfold group_jobs. simpl. induction (workers_ g) as [|w l IH]; [done|]. by rewrite fmap_cons, !bind_cons, IH. Qed.

Lemma sleep_all (f : TaskWorkerGroup -> TaskWorkerGroup) b gs :
  (forall g, f g = if has_launched_ g then set_workers (set_sleep b <$> workers_ g) g else g) -> Forall (group_wf p) gs ->
  jobs_of (f <$> gs) = jobs_of gs /\ shape (f <$> gs) = shape gs /\ Forall (group_wf p) (f <$> gs) /\ (b = false -> Forall group_awake (f <$> gs)).
Proof.
  intros Hf. induction 1 as [|g gs Hg _ (IHj & IHs & IHw & IHa)]; [done|]. assert (Hfg : group_jobs (f g) = group_jobs g).
  { rewrite Hf. destruct (has_launched_ g); [apply sleep_jobs|done]. }
  assert (Hwg : length (workers_ (f g)) = length (workers_ g)) by (rewrite Hf; destruct (has_launched_ g); [apply length_fmap|done]).
  split; [|split; [|split]].
  - change (jobs_of (f <$> g :: gs)) with (group_jobs (f g) ++ jobs_of (f <$> gs)). by rewrite Hfg, IHj.
  - change (shape (f <$> g :: gs)) with (length (workers_ (f g)) :: shape (f <$> gs)). rewrite Hwg, IHs. done.
  - simpl. constructor; [|done]. destruct Hg as (Hws & Hla & Hc). unfold group_wf. rewrite Hfg, Hf. destruct (has_launched_ g) eqn:El; [|by rewrite El]. simpl.
    split; [|by rewrite El]. apply Forall_fmap. eapply Forall_impl; [exact Hws|]. by intros w (? & ? & ?).
  - intros ->. simpl. constructor; [|by apply IHa]. rewrite Hf. destruct Hg as (_ & Hla & _). destruct (has_launched_ g) eqn:El.
    + unfold group_awake. simpl. apply Forall_fmap, Forall_true. done.
    + destruct (decide (workers_ g = [])) as [En|En]; [unfold group_awake; by rewrite En|]. by specialize (Hla En).
Qed.

(** ** The states *)

(** Only the scheduler's own place changes. *)
Lemma common_control s c :
  common s -> ~ returned s -> position_ok (shape (worker_groups_ s)) c -> length (package c) = length (package (control s)) -> length (waiting c) <= length (waiting (control s)) ->
  common (set_control c s).
Proof.
  intros [? ? ? ? ? ? ? ? Haw] Hr Hc Hp Hw. split; try done; simpl; [by rewrite Hp|rewrite Hp; lia|]. intros _. by apply Haw.
Qed.

Lemma all_positions s : Forall (fun g => g < length (shape (worker_groups_ s))) (seq 0 (length (worker_groups_ s))).
Proof. apply Forall_forall. intros g Hg. apply elem_of_seq in Hg. unfold shape. rewrite length_fmap. lia. Qed.

Lemma common_fetch_all s why :
  common s -> ~ returned s -> package (control s) = [] -> common (fetch_all why s).
Proof. intros HC Hr Hp. apply common_control; [done|done|split; [apply all_positions|done]|by rewrite Hp|simpl; lia]. Qed.

Lemma not_returned s : (forall ret, control s <> Returned ret) -> ~ returned s.
Proof. intros H [ret Hr]. by apply (H ret). Qed.

Lemma produce_inv s : Inv s -> control s = Producing ->
  exists s', main_step s = Ok s' /\ Inv s' /\
    (returned s' \/ (log s' = log s /\ ran_of (flight s') = ran_of (flight s) /\ ((exists ts, control s' = Submitting ts) \/ exists gl ws pkg, control s' = Fetching Recycling gl ws pkg))).
Proof.
  intros [HC HM] Ec. assert (Hnr : ~ returned s) by (intros [ret Hr]; congruence). unfold main_step. rewrite Ec. unfold produce_step.
  unfold mode_ok, flight in HM. rewrite Ec in HM. destruct HM as (Hf & HF & _). simpl in HF. destruct (produce_ok _ _ _ HF) as (HF' & Hnil & Hran). destruct (Produce (task_producer_ s)) as [tasks pr]. simpl in *.
  assert (HCp : forall pr, common (set_producer pr s)) by (intros; destruct HC; by split). case_bool_decide as Ht.
  - eexists. split; [done|]. split; [|right; split; [done|]; split; [|by eauto]; unfold flight, control_jobs; simpl; by rewrite Ec, app_nil_r, ran_of_app, Hran].
    split; [|split; [done|]].
    + pose proof (flight_bound _ _ _ HF') as Hb. rewrite length_app, length_fmap in Hb. destruct (HCp pr) as [? ? ? ? ? ? Hct Hbd Haw]. simpl in *. rewrite Ec in Hct. simpl in Hct.
      split; try done; simpl; [lia|]. intros _. by apply Haw.
    + unfold flight, control_jobs. simpl. rewrite app_nil_r. split; [done|]. intros _. by destruct tasks.
  - assert (Htn : tasks = []) by (destruct tasks; [done|by destruct Ht]). subst tasks. simpl in HF'. unfold ShouldScheduleMore. simpl.
    pose proof (cm_count _ _ _ HC) as Hct. rewrite Ec in Hct. simpl in Hct. case_bool_decide as Hmore.
    + eexists. split; [done|]. split; [|right; split; [done|]; split; [unfold flight, control_jobs; simpl; by rewrite Ec|]; right; by eexists _, _, _].
      split; [apply common_fetch_all; [done|done|]; simpl; by rewrite Ec|]. split; [done|]. split; [done|]. intros _ E. unfold flight in E. simpl in E. rewrite E in Hct. simpl in Hct. lia.
    + assert (Hj : jobs_of (worker_groups_ s) = []) by (apply nil_length_inv; lia). rewrite Hj in HF'.
      destruct HF' as (k & Ha & _ & Hl). destruct (law_finish _ _ Ha Hnil) as [Hk (pr' & -> & Hrest)]. cbn [mbind outcome_bind]. rewrite bool_decide_false by (by intros Hx).
      eexists. split; [done|]. split; [|left; by eexists]. destruct (sleep_all Group.SleepWorkers true (worker_groups_ s) ltac:(done) (cm_groups _ _ _ HC)) as (Ej & Es & Hw & _). split.
      * destruct HC as [? ? ? ? Hix ? _ ? _]. split; try done; simpl; [|by rewrite Ej, Hj in *; simpl; lia|by rewrite Ej, Hj; simpl; lia|intros Hn; exfalso; apply Hn; eexists; done].
        intros t Ht'. destruct (Hix t Ht') as (t' & n & ? & ? & ?). exists t', n. simpl. by rewrite Es.
      * split; [simpl; by rewrite Ej|]. split; [|done]. intros _. simpl. split; [|done]. rewrite Hl, Hk. simpl. by rewrite app_nil_r.
Qed.

(** ** Submitting *)

Lemma worker_pending_bound w : length (pending_task_queue_ w) <= length (worker_jobs w).
Proof. unfold worker_jobs. rewrite length_app, length_fmap. lia. Qed.

Lemma submit_jobs t w : worker_jobs (set_pending (pending_task_queue_ w ++ [t]) w) ≡ₚ (Waiting, t) :: worker_jobs w.
Proof. unfold worker_jobs. simpl. rewrite fmap_app. simpl. solve_Permutation. Qed.

(** A group after a change to one worker, with the tasks counted. *)
Lemma group_update gs g group w worker worker' a b :
  gs !! g = Some group -> workers_ group !! w = Some worker -> Forall (group_wf p) gs ->
  threads_ worker' = threads_ worker -> pending_capacity worker' = pending_capacity worker -> completed_capacity worker' = completed_capacity worker ->
  is_sleep_ worker' = is_sleep_ worker ->
  (forall rg, length (group_jobs group) = length (worker_jobs worker ++ rg) -> a = b + length (worker_jobs worker' ++ rg)) ->
  let gs' := <[g := MkGroup (<[w := worker']> (workers_ group)) a b (has_launched_ group)]> gs in
  shape gs' = shape gs /\ Forall (group_wf p) gs' /\ (Forall group_awake gs -> Forall group_awake gs').
Proof.
  intros Hg Hw Hwf Hth Hpc Hcc Hsl Hcnt gs'. destruct (jobs_one_worker _ _ _ _ _ Hg Hw) as (r & rg & Hgj & _ & Hins). destruct (Hins worker' a b) as [Hgj' _].
  split; [eapply shape_insert; [done|]; simpl; by rewrite length_insert|]. rewrite Forall_lookup in Hwf. destruct (Hwf _ _ Hg) as (Hws & Hla & _). split.
  - apply Forall_insert; [by apply Forall_lookup|]. split; [|split]; simpl.
    + apply Forall_insert; [done|]. rewrite Forall_lookup in Hws. destruct (Hws _ _ Hw) as (? & ? & ?). unfold worker_wf. by rewrite Hth, Hpc, Hcc.
    + intros _. apply Hla. intros E. by rewrite E in Hw.
    + rewrite Hgj'. apply Hcnt. by rewrite Hgj.
  - intros Haw. apply Forall_insert; [done|]. rewrite Forall_lookup in Haw. pose proof (Haw _ _ Hg) as Hga. unfold group_awake in *. simpl. apply Forall_insert; [done|].
    rewrite Hsl. rewrite Forall_lookup in Hga. by apply (Hga _ _ Hw).
Qed.

Lemma submit_inv s t ts : Inv s -> control s = Submitting (t :: ts) -> exists s', main_step s = Ok s' /\ Inv s' /\ control s' = Submitting ts /\ log s' = log s /\ flight s' ≡ₚ flight s.
Proof.
  intros [HC HM] Ec. assert (Hnr : ~ returned s) by (intros [ret Hr]; congruence). unfold main_step. rewrite Ec. unfold submit_step.
  unfold mode_ok, flight in HM. rewrite Ec in HM. destruct HM as (Hf & HF & _). assert (Hty : type_ t <> MAX).
  { destruct HF as (_ & _ & Hok & _). apply Forall_cons in Hok as [[_ Hok] _]. done. }
  destruct (cm_index _ _ _ HC t.(type_) Hty) as (ty & n & Hix & Hsh & [id Hid]). rewrite (proj2 (at_Ok _ _ _) Hix). cbn [mbind outcome_bind].
  unfold shape in Hsh. rewrite list_lookup_fmap in Hsh. destruct (worker_groups_ s !! type_index ty) as [group|] eqn:Eg; simpl in Hsh; [|done]. apply (inj Some) in Hsh.
  rewrite (proj2 (at_Ok _ _ _) Eg). cbn [mbind outcome_bind]. rewrite Hsh, bool_decide_false by lia. rewrite (proj2 (at_Ok _ _ _) Hid). cbn [mbind outcome_bind].
  set (w := id mod S n). assert (Hwlt : w < length (workers_ group)) by (rewrite Hsh; apply Nat.mod_upper_bound; lia). destruct (lookup_lt_is_Some_2 _ _ Hwlt) as [worker Ew].
  unfold Group.ExecuteTask. rewrite (proj2 (at_Ok _ _ _) Ew). cbn [mbind outcome_bind]. unfold Submit.
  pose proof (cm_groups _ _ _ HC) as Hwf. destruct (jobs_one_worker _ _ _ _ _ Eg Ew) as (r & rg & Hgj & Hall & Hins).
  pose proof (cm_bound _ _ _ HC) as Hbd. rewrite Ec in Hbd. simpl in Hbd. rewrite Hall, length_app in Hbd. pose proof (worker_pending_bound worker).
  assert (Hcap : length A <= pending_capacity worker).
  { rewrite Forall_lookup in Hwf. destruct (Hwf _ _ Eg) as (Hws & _). rewrite Forall_lookup in Hws. destruct (Hws _ _ Ew) as (_ & ? & _). done. }
  rewrite bool_decide_true by lia. cbn [mbind outcome_bind]. set (worker' := set_pending _ worker). eexists. split; [done|].
  destruct (Hins worker' (S (submitted_count_ group)) (completed_count_ group)) as [_ Hall'].
  destruct (group_update _ _ _ _ _ worker' (S (submitted_count_ group)) (completed_count_ group) Eg Ew Hwf) as (Hs' & Hw' & Ha'); [done..| |].
  { intros rg' Hl. rewrite length_app. unfold worker'. rewrite submit_jobs. simpl. rewrite length_app in Hl. rewrite Forall_lookup in Hwf. destruct (Hwf _ _ Eg) as (_ & _ & Hct). lia. }
  assert (Hjobs : jobs_of (<[type_index ty := MkGroup (<[w := worker']> (workers_ group)) (S (submitted_count_ group)) (completed_count_ group) (has_launched_ group)]> (worker_groups_ s)) ≡ₚ (Waiting, t) :: jobs_of (worker_groups_ s)).
  { rewrite Hall', Hall. unfold worker'. by rewrite submit_jobs. }
  split; [|split; [done|split; [done|]]]; [split; [|split; [done|]]|].
  - destruct HC as [? ? ? ? Hx Hps Hct Hb Haw]. rewrite Ec in Hct, Hb. simpl in Hct, Hb. split; try done; simpl; [|rewrite Hjobs; simpl; lia|rewrite Hjobs; simpl; lia|intros _; by apply Ha', Haw].
    intros t' Ht'. destruct (Hx t' Ht') as (ty' & n' & H1 & H2 & H3). exists ty', n'. simpl. rewrite Hs'. split; [done|]. split; [done|].
    apply lookup_lt_is_Some. rewrite length_insert. by apply lookup_lt_is_Some.
  - unfold flight. simpl. split; [eapply in_flight_perm; [|exact HF]; rewrite Hjobs; unfold control_jobs; simpl; rewrite !app_nil_r; solve_Permutation|].
    intros _ [_ E]%app_nil. rewrite E in Hjobs. by apply Permutation_nil_cons in Hjobs.
  - unfold flight. simpl. rewrite Ec, Hjobs. unfold control_jobs. simpl. rewrite !app_nil_r. solve_Permutation.
Qed.

(** ** Fetching *)

Definition purpose_ok s (why : Purpose) pkg : Prop :=
  match why with
  | Draining ret _ => force_quit_ s = true /\ ret <> kStatusSuccess /\ kernel_status s ret
  | Recycling => force_quit_ s = false /\ in_flight (task_producer_ s) (log s) ((pair Finished <$> pkg) ++ jobs_of (worker_groups_ s)) /\ (pair Finished <$> pkg) ++ jobs_of (worker_groups_ s) <> []
  end.

Lemma mode_fetching s why gl ws pkg : control s = Fetching why gl ws pkg -> mode_ok s <-> purpose_ok s why pkg.
Proof. intros Ec. unfold mode_ok, flight, control_jobs. rewrite Ec. destruct why; [|done]. simpl. split; [intros (? & ? & Hn)|intros (? & ? & Hn)]; split_and!; try done; by apply Hn. Qed.

(** Another place in the loops of [FetchResult]. *)
Lemma fetching_inv s why gl ws pkg gl' ws' :
  Inv s -> control s = Fetching why gl ws pkg -> position_ok (shape (worker_groups_ s)) (Fetching why gl' ws' pkg) -> Inv (set_control (Fetching why gl' ws' pkg) s).
Proof.
  intros [HC HM] Ec Hps. rewrite (mode_fetching _ _ _ _ _ Ec) in HM. split; [|by eapply (mode_fetching _ why gl' ws' pkg)].
  apply common_control; [done|intros [ret Hr]; congruence|done|by rewrite Ec|simpl; lia].
Qed.

Lemma fetch_jobs t q w : completed_task_queue_ w = t :: q -> worker_jobs w ≡ₚ (Finished, t) :: worker_jobs (set_completed q w).
Proof. intros E. unfold worker_jobs. simpl. rewrite E. simpl. solve_Permutation. Qed.

Lemma fetch_one_inv s why g gl w ws pkg group worker t q :
  Inv s -> control s = Fetching why (g :: gl) (Some (w :: ws)) pkg -> worker_groups_ s !! g = Some group -> workers_ group !! w = Some worker -> completed_task_queue_ worker = t :: q ->
  Inv (set_control (Fetching why (g :: gl) (Some (w :: ws)) (pkg ++ [t]))
    (set_groups (<[g := MkGroup (<[w := set_completed q worker]> (workers_ group)) (submitted_count_ group) (S (completed_count_ group)) (has_launched_ group)]> (worker_groups_ s)) s)).
Proof.
  intros [HC HM] Ec Eg Ew Eq. rewrite (mode_fetching _ _ _ _ _ Ec) in HM. pose proof (cm_groups _ _ _ HC) as Hwf.
  destruct (jobs_one_worker _ _ _ _ _ Eg Ew) as (r & rg & Hgj & Hall & Hins). set (worker' := set_completed q worker).
  destruct (Hins worker' (submitted_count_ group) (S (completed_count_ group))) as [_ Hall']. pose proof (fetch_jobs _ _ _ Eq) as Hj. fold worker' in Hj.
  destruct (group_update _ _ _ _ _ worker' (submitted_count_ group) (S (completed_count_ group)) Eg Ew Hwf) as (Hs' & Hw' & Ha'); [done..| |].
  { intros rg' Hl. rewrite Hj in Hl. simpl in Hl. rewrite Forall_lookup in Hwf. destruct (Hwf _ _ Eg) as (_ & _ & Hct). lia. }
  assert (Hjobs : jobs_of (worker_groups_ s) ≡ₚ (Finished, t) :: jobs_of (<[g := MkGroup (<[w := worker']> (workers_ group)) (submitted_count_ group) (S (completed_count_ group)) (has_launched_ group)]> (worker_groups_ s))).
  { rewrite Hall', Hall. by rewrite Hj. }
  split.
  - destruct HC as [? ? ? ? Hx Hps Hct Hb Haw]. rewrite Ec in Hct, Hb, Hps. simpl in Hct, Hb. rewrite Hjobs in Hct, Hb. simpl in Hct, Hb. split; try done; simpl; rewrite ?length_app; simpl; [|by rewrite Hs'|lia|lia|].
    + intros t' Ht'. destruct (Hx t' Ht') as (ty' & n' & H1 & H2 & H3). exists ty', n'. simpl. by rewrite Hs'.
    + intros _. apply Ha', Haw. intros [ret Hr]. congruence.
  - eapply (mode_fetching _ why _ _ (pkg ++ [t])); [done|]. destruct why as [|ret pass]; [|done]. destruct HM as (Hf & HF & _). split; [done|]. simpl. split; [eapply in_flight_perm; [|exact HF]; rewrite Hjobs, fmap_app; simpl; solve_Permutation|].
    rewrite fmap_app. by destruct pkg.
Qed.

Lemma counted_common s why ws pkg :
  common s -> control s = Fetching why [] ws pkg ->
  let s1 := set_counts (total_submitted_count_ s) (total_completed_count_ s + length pkg) s in
  forall pr b c, position_ok (shape (worker_groups_ s)) c -> package c = [] -> waiting c = [] -> common (set_control c (set_force b (set_producer pr s1))).
Proof.
  intros HC Ec s1 pr b c Hps Hp Hw. destruct HC as [? ? ? ? Hx _ Hct Hb Haw]. rewrite Ec in Hct, Hb. simpl in Hct, Hb. split; try done; simpl; rewrite ?Hp, ?Hw; simpl; [lia|lia|].
  intros _. apply Haw. intros [ret Hr]. congruence.
Qed.

(** A loop that waits for the workers, or the end of it. *)
Lemma drain_inv s why ws pkg pr ret :
  common s -> control s = Fetching why [] ws pkg -> ret <> kStatusSuccess -> kernel_status s ret ->
  Inv (drain ret (set_force true (set_producer pr (set_counts (total_submitted_count_ s) (total_completed_count_ s + length pkg) s)))).
Proof.
  intros HC Ec Hret Hk. pose proof (cm_count _ _ _ HC) as Hct. rewrite Ec in Hct. simpl in Hct. unfold drain, ShouldScheduleMore. simpl. case_bool_decide as Hmore.
  - split; [|done]. eapply counted_common; [done|done| |done|done]. split; [apply (all_positions s)|done].
  - split; [by eapply counted_common|]. split; [simpl; apply nil_length_inv; lia|]. split; [done|]. intros _. done.
Qed.

Lemma fetched_inv s why ws pkg : Inv s -> control s = Fetching why [] ws pkg -> exists s', main_step s = Ok s' /\ Inv s'.
Proof.
  intros [HC HM] Ec. assert (Hnr : ~ returned s) by (intros [ret Hr]; congruence). unfold main_step. rewrite Ec. rewrite (mode_fetching _ _ _ _ _ Ec) in HM.
  destruct why as [|ret pass]; simpl.
  - destruct HM as (Hf & HF & Hne). case_bool_decide as Hp.
    + subst pkg. eexists. split; [done|]. split; [apply common_fetch_all; [done|done|by rewrite Ec]|]. by split.
    + destruct (recycle_package (memory s) _ _ _ _ (cm_watched _ _ _ HC) HF) as (ret & pr & -> & Hok & Hbad). cbn [mbind outcome_bind]. case_bool_decide as Hret.
      * eexists. split; [done|]. eapply drain_inv; [done|done|done|]. by apply Hbad.
      * eexists. split; [done|]. split; [|split; [done|split; [by apply Hok|done]]].
        pose proof (counted_common s Recycling ws pkg HC Ec pr (force_quit_ s) Producing I eq_refl eq_refl) as Hc. exact Hc.
  - destruct HM as (Hf & Hret & Hk). case_bool_decide as Hpass.
    + eexists. split; [done|]. split; [|done]. pose proof (counted_common s _ ws pkg HC Ec (task_producer_ s) (force_quit_ s) (Fetching (Draining ret (S pass)) (seq 0 (length (worker_groups_ s))) None [])) as Hc.
      apply Hc; [|done..]. split; [apply (all_positions s)|done].
    + eexists. split; [done|]. pose proof (drain_inv s _ ws pkg (task_producer_ s) ret HC Ec Hret Hk) as Hd. rewrite <- Hf in Hd. exact Hd.
Qed.

Lemma main_ok s : Inv s -> ~ returned s -> exists s', main_step s = Ok s' /\ Inv s'.
Proof.
  intros HI Hnr. destruct (control s) as [|[|t ts]|why [|g gl] [[|w ws]|] pkg|ret] eqn:Ec.
  - destruct (produce_inv s HI Ec) as (s' & ? & ? & _). eauto.
  - unfold main_step. rewrite Ec. eexists. split; [done|]. destruct HI as [HC HM]. split; [apply common_fetch_all; [done|done|by rewrite Ec]|].
    unfold mode_ok, flight in HM. rewrite Ec in HM. destruct HM as (? & ? & Hn). split; [done|]. split; [done|]. intros _. by apply Hn.
  - destruct (submit_inv s t ts HI Ec) as (s' & ? & ? & _). eauto.
  - by eapply fetched_inv.
  - by eapply fetched_inv.
  - by eapply fetched_inv.
  - pose proof (cm_position _ _ _ (proj1 HI)) as Hps. rewrite Ec in Hps. destruct Hps as [[_ Hps]%Forall_cons _].
    unfold main_step. rewrite Ec. eexists. split; [done|]. by eapply fetching_inv.
  - pose proof (cm_position _ _ _ (proj1 HI)) as Hps. rewrite Ec in Hps. destruct Hps as [Hgl (n & Hn & [Hw Hws]%Forall_cons)].
    unfold shape in Hn. rewrite list_lookup_fmap in Hn. destruct (worker_groups_ s !! g) as [group|] eqn:Eg; simpl in Hn; [|done]. apply (inj Some) in Hn. subst n.
    destruct (lookup_lt_is_Some_2 _ _ Hw) as [worker Ew]. unfold main_step. rewrite Ec, (proj2 (at_Ok _ _ _) Eg). cbn [mbind outcome_bind]. rewrite (proj2 (at_Ok _ _ _) Ew). cbn [mbind outcome_bind].
    unfold FetchOne. destruct (completed_task_queue_ worker) as [|t q] eqn:Eq; eexists; (split; [done|]); [|by eapply fetch_one_inv].
    eapply fetching_inv; [done|done|]. split; [done|]. exists (length (workers_ group)). unfold shape. rewrite list_lookup_fmap, Eg. done.
  - pose proof (cm_position _ _ _ (proj1 HI)) as Hps. rewrite Ec in Hps. destruct Hps as [Hall _]. pose proof Hall as [Hg Hgl]%Forall_cons.
    destruct (lookup_lt_is_Some_2 _ _ Hg) as [n Hn]. unfold shape in Hn. rewrite list_lookup_fmap in Hn. destruct (worker_groups_ s !! g) as [group|] eqn:Eg; simpl in Hn; [|done]. apply (inj Some) in Hn.
    unfold main_step. rewrite Ec, (proj2 (at_Ok _ _ _) Eg). cbn [mbind outcome_bind]. destruct (Group.IsFinish group); eexists; (split; [done|]); (eapply fetching_inv; [done|done|]).
    + split; done.
    + split; [done|]. exists (length (workers_ group)). unfold shape. rewrite list_lookup_fmap, Eg. split; [done|]. apply Forall_forall. intros x Hx. apply elem_of_seq in Hx. lia.
  - exfalso. apply Hnr. by eexists.
Qed.
End main.
