(* ===== verification/SchedFinal.v ===== *)
(** * SchedFinal: the multi-thread executor is correct

    A scheduler that is [ready] runs the kernels of a plan in a legal order
    whatever the workers' threads do, and can always return; when it returns
    success every kernel has run and it is [ready] again.  The builder's
    schedulers are [ready]. *)

From S2P Require Import Prelude ExecReady ExecTopo ExecTopoSound SchedTask SchedChain SchedChainSound SchedWork SchedWorkSound.

(** * A schedule can always be brought to its end

    The workers come to rest, the scheduler's thread finds what they finished,
    and each pass through its loop recycles a task. *)

#[local] Open Scope nat_scope.

(** ** The work of the workers *)

Definition thread_work (th : TaskThread) : list unit :=
  match th with Idle => [] | Executing _ rest => replicate (length rest + 2) tt | Pushing _ => [tt] end.
Definition worker_work (w : TaskWorker) : list unit :=
  (pending_task_queue_ w ≫= fun t => replicate (length (task_node_list_ t) + 3) tt) ++ (threads_ w ≫= thread_work).
Definition group_work (g : TaskWorkerGroup) : list unit := workers_ g ≫= worker_work.
Definition work (gs : list TaskWorkerGroup) : nat := length (gs ≫= group_work).

Section live.
Context {K : Kernels} (p : Plan) {P : Type} {TP : TaskProducer P} {PL : ProducerLaws p P} (m0 : KernelMem).
Context (Hstatic : forall node m, node_watchers (func node m).2 = node_watchers m).
Abbreviation A := (p_active p).
Abbreviation Sched := (TaskScheduler P KernelMem).
Abbreviation Inv := (Inv p m0).
Implicit Types (s : Sched) (gs : list TaskWorkerGroup).

Lemma thread_work_less force i w m l w' m' l' : thread_step force i w m l = Some (w', m', l') -> length (worker_work w') < length (worker_work w).
Proof.
  unfold thread_step. destruct (threads_ w !! i) as [th|] eqn:Eth; [|done]. destruct (bind_insert thread_work _ _ _ Eth) as (r & Hr & Hins). destruct th as [|t [|n rest]|t].
  - destruct (is_sleep_ w); [done|]. destruct (pending_task_queue_ w) as [|t q] eqn:Eq; [done|]. intros [= <- <- <-]. unfold worker_work. cbn [pending_task_queue_ threads_ set_thread set_pending]. rewrite Eq, Hins, Hr, bind_cons. cbn [thread_work app].
    rewrite !length_app, !length_replicate. lia.
  - intros [= <- <- <-]. unfold worker_work. simpl. rewrite Hins, Hr. simpl. rewrite !length_app. simpl. lia.
  - destruct force; [|destruct (call_kernel n t m) as [[b t'] m1]]; intros [= <- <- <-]; unfold worker_work; simpl; rewrite Hins, Hr; [|destruct b]; simpl; rewrite !length_app; simpl; rewrite ?length_app, ?length_replicate; lia.
  - case_bool_decide; [|done]. intros [= <- <- <-]. unfold worker_work. simpl. rewrite Hins, Hr. simpl. rewrite !length_app. simpl. lia.
Qed.

Lemma thread_progress force w m l :
  worker_wf p w -> is_sleep_ w = false -> length (worker_jobs w) <= length A -> worker_work w <> [] -> exists i r, thread_step force i w m l = Some r.
Proof.
  intros (Hth & _ & Hcap) Haw Hb Hne. destruct (decide (Exists (fun th => thread_work th <> []) (threads_ w))) as [Hex|Hall].
  - apply Exists_exists in Hex as (th & Hin & Hw). apply list_elem_of_lookup in Hin as [i Hi]. exists i. unfold thread_step. rewrite Hi. destruct th as [|t [|n rest]|t].
    + done.
    + eauto.
    + destruct force; [eauto|]. destruct (call_kernel n t m) as [[b t'] m1]. eauto.
    + rewrite bool_decide_true; [eauto|]. unfold worker_jobs in Hb. destruct (bind_insert thread_jobs _ _ _ Hi) as (r & Hr & _). rewrite Hr in Hb. rewrite !length_app, !length_fmap in Hb. simpl in Hb. lia.
  - destruct (threads_ w) as [|th ths] eqn:Et; [simpl in Hth; lia|]. exists 0. unfold thread_step. rewrite Et. simpl.
    assert (Hidle : th = Idle) by (destruct th; [done|exfalso; apply Hall; left; simpl; by rewrite Nat.add_comm|exfalso; by apply Hall; left]). subst th.
    rewrite Haw. destruct (pending_task_queue_ w) as [|t q] eqn:Eq; [|eauto]. exfalso. apply Hne. unfold worker_work. rewrite Eq, Et. cbn [mbind list_bind app thread_work]. clear -Hall.
    induction ths as [|th ths IH]; [done|]. destruct (decide (thread_work th = [])) as [E|E]; [|exfalso; apply Hall; right; by left]. rewrite bind_cons, E. apply IH. intros H. apply Hall. inversion H; [by left|]. right. by right.
Qed.

Definition quiet gs : Prop := work gs = 0.

Lemma work_worker gs g group w worker :
  gs !! g = Some group -> workers_ group !! w = Some worker ->
  exists r, work gs = length (worker_work worker) + r /\ forall worker' a b, work (<[g := MkGroup (<[w := worker']> (workers_ group)) a b (has_launched_ group)]> gs) = length (worker_work worker') + r.
Proof.
  intros Hg Hw. destruct (bind_insert group_work _ _ _ Hg) as (r1 & H1 & I1). destruct (bind_insert worker_work _ _ _ Hw) as (r2 & H2 & I2). exists (length r2 + length r1).
  unfold work. split; [|intros worker' a b]; [rewrite H1; unfold group_work at 1|rewrite I1; unfold group_work at 1; simpl]; [rewrite H2|rewrite I2]; rewrite !length_app; lia.
Qed.

Lemma work_zero gs g group w worker : quiet gs -> gs !! g = Some group -> workers_ group !! w = Some worker -> worker_work worker = [].
Proof. intros Hq Hg Hw. destruct (work_worker _ _ _ _ _ Hg Hw) as (r & Hr & _). unfold quiet in Hq. apply nil_length_inv. lia. Qed.

(** A worker with work to do. *)
Lemma work_somewhere gs : work gs <> 0 -> exists g group w worker, gs !! g = Some group /\ workers_ group !! w = Some worker /\ worker_work worker <> [].
Proof.
  intros Hw. assert (Hne : gs ≫= group_work <> []) by (intros E; unfold work in Hw; by rewrite E in Hw).
  destruct (gs ≫= group_work) as [|x l] eqn:E; [done|]. assert (Hx : x ∈ gs ≫= group_work) by (rewrite E; by left).
  apply list_elem_of_bind in Hx as (group & Hx & Hg). apply list_elem_of_bind in Hx as (worker & Hx & Hww). apply list_elem_of_lookup in Hg as [g Hg]. apply list_elem_of_lookup in Hww as [w Hww].
  exists g, group, w, worker. split; [done|]. split; [done|]. intros E'. rewrite E' in Hx. by apply not_elem_of_nil in Hx.
Qed.

Lemma worker_jobs_bound gs g group w worker : gs !! g = Some group -> workers_ group !! w = Some worker -> length (worker_jobs worker) <= length (jobs_of gs).
Proof. intros Hg Hw. destruct (jobs_one_worker _ _ _ _ _ Hg Hw) as (r & rg & _ & -> & _). rewrite length_app. lia. Qed.

(** The number of kernels whose tasks are recycled. *)
Definition recycled s : nat := length (log s) - length (ran_of (flight s)).

Definition producing (c : Control) : Prop := match c with Fetching (Draining _ _) _ _ _ | Returned _ => False | _ => True end.

Lemma producing_mode s : Inv s -> producing (control s) -> force_quit_ s = false /\ in_flight p (task_producer_ s) (log s) (flight s) /\ (control s <> Producing -> flight s <> []).
Proof. intros [_ HM] Hc. unfold mode_ok in HM. by destruct (control s) as [| |[]|]. Qed.

Lemma worker_recycled g w i s s' : Inv s -> producing (control s) -> worker_step g w i s = Some s' -> recycled s' = recycled s /\ control s' = control s.
Proof.
  intros HI Hc Hs. destruct (producing_mode _ HI Hc) as (Hf & (k & Ha & Hok & _) & _).
  destruct (worker_effect p _ _ _ _ _ Hs (cm_groups _ _ _ (proj1 HI))) as (j & j' & r & gs & m & l & -> & Hj & Hj' & Hjs & _). split; [|done].
  pose proof (flight_split _ _ _ Hj) as Hfl. rewrite Hfl in Hok. apply Forall_cons in Hok as [Hjok _]. rewrite Hf in Hjs.
  assert (Hne : task_node_list_ j.2 <> []).
  { apply (law_legal _ _ _ (task_node_list_ j.2) Ha). unfold nodes_of. apply (list_elem_of_fmap_2' (fun j => task_node_list_ j.2) (flight s) j); [|done]. rewrite Hfl. by left. }
  destruct (job_step_ok _ _ _ _ _ _ _ Hjs Hne Hjok) as (_ & _ & _ & x & -> & Hr & _).
  assert (Hfl' : flight (set_memory m (log s ++ x) (set_groups gs s)) ≡ₚ j' :: control_jobs (control s) ++ r) by (unfold flight; simpl; rewrite Hj'; solve_Permutation).
  unfold recycled, ran_of. rewrite Hfl, Hfl', !bind_cons, Hr. simpl. rewrite !length_app. lia.
Qed.

(** The workers come to rest while the scheduler's thread stays where it is. *)
Lemma workers_rest s : Inv s -> ~ returned s -> exists s', rtc step s s' /\ Inv s' /\ quiet (worker_groups_ s') /\ control s' = control s /\ (producing (control s) -> recycled s' = recycled s).
Proof.
  remember (work (worker_groups_ s)) as n eqn:En. revert s En. induction n as [n IH] using lt_wf_ind. intros s -> HI Hnr.
  destruct (decide (work (worker_groups_ s) = 0)) as [E|E]; [by exists s|]. destruct (work_somewhere _ E) as (g & group & w & worker & Hg & Hw & Hne).
  pose proof HI as [HC _]. pose proof (cm_groups _ _ _ HC) as Hwf. rewrite Forall_lookup in Hwf. destruct (Hwf _ _ Hg) as (Hws & _). rewrite Forall_lookup in Hws.
  pose proof (cm_awake _ _ _ HC Hnr) as Haw. rewrite Forall_lookup in Haw. pose proof (Haw _ _ Hg) as Hga. unfold group_awake in Hga. rewrite Forall_lookup in Hga.
  pose proof (worker_jobs_bound _ _ _ _ _ Hg Hw). pose proof (cm_bound _ _ _ HC).
  destruct (thread_progress (force_quit_ s) worker (memory s) (log s) (Hws _ _ Hw) (Hga _ _ Hw) ltac:(lia) Hne) as (i & [[worker' m'] l'] & Et).
  set (s1 := set_memory m' l' (set_groups (<[g := set_workers (<[w := worker']> (workers_ group)) group]> (worker_groups_ s)) s)).
  assert (Es : worker_step g w i s = Some s1) by (unfold worker_step; rewrite Hg; simpl; rewrite Hw; simpl; by rewrite Et).
  pose proof (worker_inv p m0 Hstatic _ _ _ _ _ HI Es) as HI1. destruct (work_worker _ _ _ _ _ Hg Hw) as (r & Hr & Hr'). pose proof (thread_work_less _ _ _ _ _ _ _ _ Et).
  destruct (IH (work (worker_groups_ s1))) with (s := s1) as (s2 & Hs2 & HI2 & Hq & Hc & Hrc); [|done|done|done|].
  { unfold s1. simpl. unfold set_workers. rewrite Hr'. lia. }
  exists s2. split; [eapply rtc_l; [by eapply step_worker|done]|]. split; [done|]. split; [done|]. split; [done|].
  intros Hpr. destruct (worker_recycled _ _ _ _ _ HI Hpr Es) as [<- _]. by apply Hrc.
Qed.

(** ** A round through the groups *)

(** A finished task in what is still to be looked at. *)
Definition ahead gs (gl : list nat) (ws : option (list nat)) : Prop :=
  exists g group w worker, gs !! g = Some group /\ workers_ group !! w = Some worker /\ completed_task_queue_ worker <> [] /\
    match ws, gl with None, _ => g ∈ gl | Some l, g0 :: gl => (g = g0 /\ w ∈ l) \/ g ∈ gl | Some _, [] => False end.

Definition left_groups gs (gl : list nat) : nat := sum_list ((fun g => default 0 (shape gs !! g) + 2) <$> gl).
Definition left_places gs (gl : list nat) (ws : option (list nat)) : nat :=
  match ws, gl with Some l, _ :: gl => length l + 1 + left_groups gs gl | Some _, [] => 0 | None, _ => left_groups gs gl end.

Lemma left_groups_cons gs g gl : left_groups gs (g :: gl) = default 0 (shape gs !! g) + 2 + left_groups gs gl.
Proof. done. Qed.

(** What a round leaves as it is. *)
Record same_work s s' : Prop := {
  sw_log : log s' = log s;
  sw_producer : task_producer_ s' = task_producer_ s;
  sw_flight : flight s' ≡ₚ flight s;
  sw_quiet : quiet (worker_groups_ s) -> quiet (worker_groups_ s');
}.

#[local] Instance same_work_trans : Transitive same_work.
Proof. intros s1 s2 s3 [] []. split; [congruence|congruence|by etransitivity|auto]. Qed.

Lemma main_rtc s s' : ~ returned s -> main_step s = Ok s' -> rtc step s s'.
Proof. intros. by apply rtc_once, step_main. Qed.

Lemma fetch_work t q (worker : TaskWorker) : completed_task_queue_ worker = t :: q -> worker_work (set_completed q worker) = worker_work worker.
Proof. done. Qed.

(** One step of a round. *)
Lemma round_step s why g gl ws pkg :
  Inv s -> control s = Fetching why (g :: gl) ws pkg ->
  exists s' gl' ws' pkg', main_step s = Ok s' /\ Inv s' /\ control s' = Fetching why gl' ws' pkg' /\ same_work s s' /\
    length (jobs_of (worker_groups_ s')) + length pkg' = length (jobs_of (worker_groups_ s)) + length pkg /\ length pkg <= length pkg' /\
    length (jobs_of (worker_groups_ s')) + left_places (worker_groups_ s') gl' ws' < length (jobs_of (worker_groups_ s)) + left_places (worker_groups_ s) (g :: gl) ws /\
    (ahead (worker_groups_ s) (g :: gl) ws -> pkg' <> [] \/ ahead (worker_groups_ s') gl' ws').
Proof.
  intros HI Ec. assert (Hnr : ~ returned s) by (intros [ret Hr]; congruence). destruct (main_ok p m0 s HI Hnr) as (s1 & E1 & HI1).
  pose proof (cm_position _ _ _ (proj1 HI)) as Hps. rewrite Ec in Hps. exists s1.
  assert (Hset : forall gl' ws', s1 = set_control (Fetching why gl' ws' pkg) s -> left_places (worker_groups_ s) gl' ws' < left_places (worker_groups_ s) (g :: gl) ws ->
    (ahead (worker_groups_ s) (g :: gl) ws -> ahead (worker_groups_ s) gl' ws') -> exists gl' ws' pkg', main_step s = Ok s1 /\ Inv s1 /\ control s1 = Fetching why gl' ws' pkg' /\ same_work s s1 /\
    length (jobs_of (worker_groups_ s1)) + length pkg' = length (jobs_of (worker_groups_ s)) + length pkg /\ length pkg <= length pkg' /\
    length (jobs_of (worker_groups_ s1)) + left_places (worker_groups_ s1) gl' ws' < length (jobs_of (worker_groups_ s)) + left_places (worker_groups_ s) (g :: gl) ws /\
    (ahead (worker_groups_ s) (g :: gl) ws -> pkg' <> [] \/ ahead (worker_groups_ s1) gl' ws')).
  { intros gl' ws' -> Hlt Hah. exists gl', ws', pkg. split_and!; try done; simpl; [|lia|by auto]. split; [done|done| |done]. unfold flight, control_jobs. simpl. by rewrite Ec. }
  pose proof E1 as Emain. unfold main_step in E1 at 1. rewrite Ec in E1. destruct ws as [[|w ws]|]; simpl in E1.
  - simplify_eq. eapply Hset; [done|simpl; lia|]. intros (g' & group & w & worker & ? & ? & ? & [[_ Hin]|Hin]); [by apply not_elem_of_nil in Hin|]. by exists g', group, w, worker.
  - destruct (worker_groups_ s !! g) as [group|] eqn:Eg; simpl in E1; [|unfold at_ in E1; rewrite Eg in E1; done]. rewrite (proj2 (at_Ok _ _ _) Eg) in E1. cbn [mbind outcome_bind] in E1.
    destruct (workers_ group !! w) as [worker|] eqn:Ew; [|unfold at_ in E1; rewrite Ew in E1; done]. rewrite (proj2 (at_Ok _ _ _) Ew) in E1. cbn [mbind outcome_bind] in E1.
    unfold FetchOne in E1. destruct (completed_task_queue_ worker) as [|t q] eqn:Eq; simplify_eq.
    + eapply Hset; [done|simpl; lia|]. intros (g' & group' & w' & worker' & Hg' & Hw' & Hc' & Hin). exists g', group', w', worker'. split_and!; try done.
      destruct Hin as [[-> [->|Hin]%elem_of_cons]|Hin]; [simplify_eq|by auto|by auto].
    + exists (g :: gl), (Some (w :: ws)), (pkg ++ [t]). destruct (jobs_one_worker _ _ _ _ _ Eg Ew) as (r & rg & _ & Hall & Hins). pose proof (fetch_jobs _ _ _ Eq) as Hj.
      set (worker' := set_completed q worker) in *. destruct (Hins worker' (submitted_count_ group) (S (completed_count_ group))) as [_ Hall'].
      assert (Hjobs : jobs_of (worker_groups_ s) ≡ₚ (Finished, t) :: jobs_of (<[g := MkGroup (<[w := worker']> (workers_ group)) (submitted_count_ group) (S (completed_count_ group)) (has_launched_ group)]> (worker_groups_ s))) by (rewrite Hall', Hall; by rewrite Hj).
      assert (Hsh : shape (<[g := MkGroup (<[w := worker']> (workers_ group)) (submitted_count_ group) (S (completed_count_ group)) (has_launched_ group)]> (worker_groups_ s)) = shape (worker_groups_ s)) by (eapply shape_insert; [done|]; simpl; by rewrite length_insert).
      split_and!; try done; simpl; rewrite ?length_app; simpl; [|rewrite Hjobs; simpl; lia|lia|rewrite Hjobs; unfold left_groups; rewrite Hsh; simpl; lia|intros _; left; by destruct pkg].
      split; [done|done| |].
      * unfold flight, control_jobs. simpl. rewrite Ec. simpl. rewrite Hjobs, fmap_app. simpl. solve_Permutation.
      * simpl. intros Hq. destruct (work_worker _ _ _ _ _ Eg Ew) as (r' & Hr & Hr'). unfold quiet in *. rewrite Hr'. unfold worker'. by rewrite (fetch_work _ _ _ Eq), <- Hr.
  - destruct Hps as [[Hg _]%Forall_cons _]. destruct (worker_groups_ s !! g) as [group|] eqn:Eg; [|unfold at_ in E1; rewrite Eg in E1; done]. rewrite (proj2 (at_Ok _ _ _) Eg) in E1. cbn [mbind outcome_bind] in E1.
    assert (Hsh : shape (worker_groups_ s) !! g = Some (length (workers_ group))) by (unfold shape; by rewrite list_lookup_fmap, Eg).
    destruct (Group.IsFinish group) eqn:Ef; simplify_eq.
    + eapply Hset; [done|unfold left_places; rewrite left_groups_cons; lia|]. intros (g' & group' & w' & worker' & Hg' & Hw' & Hc' & Hin). exists g', group', w', worker'. split_and!; try done.
      apply elem_of_cons in Hin as [->|?]; [|done]. exfalso. simplify_eq. unfold Group.IsFinish in Ef. apply bool_decide_eq_true in Ef.
      pose proof (cm_groups _ _ _ (proj1 HI)) as Hwf. rewrite Forall_lookup in Hwf. destruct (Hwf _ _ Eg) as (_ & _ & Hct). destruct (completed_task_queue_ worker') as [|t q] eqn:Eq; [done|].
      assert (Hin : (Finished, t) ∈ group_jobs group) by (apply list_elem_of_bind; exists worker'; split; [rewrite (fetch_jobs _ _ _ Eq); by left|by eapply list_elem_of_lookup_2]).
      assert (group_jobs group = []) by (apply nil_length_inv; lia). rewrite H in Hin. by apply not_elem_of_nil in Hin.
    + eapply Hset; [done|unfold left_places; rewrite left_groups_cons, length_seq, Hsh; simpl; lia|]. intros (g' & group' & w' & worker' & Hg' & Hw' & Hc' & Hin). exists g', group', w', worker'. split_and!; try done.
      apply elem_of_cons in Hin as [->|?]; [|by right]. left. split; [done|]. simplify_eq. apply elem_of_seq. split; [lia|]. simpl. by eapply lookup_lt_Some.
Qed.

Lemma fetch_round s why gl ws pkg :
  Inv s -> control s = Fetching why gl ws pkg ->
  exists s' ws' pkg', rtc step s s' /\ Inv s' /\ control s' = Fetching why [] ws' pkg' /\ same_work s s' /\
    length (jobs_of (worker_groups_ s')) + length pkg' = length (jobs_of (worker_groups_ s)) + length pkg /\ length pkg <= length pkg' /\
    (ahead (worker_groups_ s) gl ws -> pkg' <> []).
Proof.
  remember (length (jobs_of (worker_groups_ s)) + left_places (worker_groups_ s) gl ws) as n eqn:En. revert s gl ws pkg En. induction n as [n IH] using lt_wf_ind.
  intros s gl ws pkg -> HI Ec. destruct gl as [|g gl].
  - exists s, ws, pkg. split_and!; try done. intros (g & group & w & worker & _ & _ & _ & Hin). destruct ws; [done|]. by apply not_elem_of_nil in Hin.
  - destruct (round_step s why g gl ws pkg HI Ec) as (s1 & gl1 & ws1 & pkg1 & E1 & HI1 & Ec1 & Hsw & Hl1 & Hp1 & Hlt & Hah). assert (Hnr : ~ returned s) by (intros [ret Hr]; congruence).
    destruct (IH _ Hlt s1 gl1 ws1 pkg1 eq_refl HI1 Ec1) as (s2 & ws2 & pkg2 & Hr2 & HI2 & Ec2 & Hsw2 & Hl2 & Hp2 & Hah2).
    exists s2, ws2, pkg2. split; [etransitivity; [by apply main_rtc|done]|]. split_and!; try done; [by etransitivity|lia|lia|]. intros H. destruct (Hah H) as [Hne|H1]; [|by apply Hah2].
    destruct pkg1; [done|]. by destruct pkg2; [simpl in Hp2; lia|].
Qed.
End live.

(** * The scheduler's loop comes to its end

    From every state of a schedule there are steps that bring [Schedule] back,
    also after a kernel failed. *)

#[local] Open Scope nat_scope.

Section ends.
Context {K : Kernels} (p : Plan) {P : Type} {TP : TaskProducer P} {PL : ProducerLaws p P} (m0 : KernelMem).
Context (Hstatic : forall node m, node_watchers (func node m).2 = node_watchers m).
Abbreviation A := (p_active p).
Abbreviation Sched := (TaskScheduler P KernelMem).
Abbreviation Inv := (Inv p m0).
Implicit Types (s : Sched) (gs : list TaskWorkerGroup).

Definition ends s : Prop := exists s', rtc step s s' /\ returned s' /\ Inv s'.

Lemma ends_rtc s s' : rtc step s s' -> ends s' -> ends s.
Proof. intros Hr (s2 & Hr2 & ? & ?). exists s2. split; [by etransitivity|done]. Qed.

Lemma ends_returned s : Inv s -> returned s -> ends s.
Proof. intros. by exists s. Qed.

(** At rest, what is in the workers is finished. *)
Lemma all_ahead s : quiet (worker_groups_ s) -> jobs_of (worker_groups_ s) <> [] -> ahead (worker_groups_ s) (seq 0 (length (worker_groups_ s))) None.
Proof.
  intros Hq Hne. destruct (jobs_of (worker_groups_ s)) as [|j l] eqn:Ej; [done|]. assert (Hj : j ∈ jobs_of (worker_groups_ s)) by (rewrite Ej; by left).
  apply list_elem_of_bind in Hj as (group & Hj & Hg). apply list_elem_of_bind in Hj as (worker & Hj & Hw). apply list_elem_of_lookup in Hg as [g Hg]. apply list_elem_of_lookup in Hw as [w Hw].
  exists g, group, w, worker. split; [done|]. split; [done|]. split; [|apply elem_of_seq; apply lookup_lt_Some in Hg; lia].
  pose proof (work_zero _ _ _ _ _ Hq Hg Hw) as Hz. unfold worker_work in Hz. apply app_nil in Hz as [Hp Ht]. unfold worker_jobs in Hj. intros Hc. rewrite Hc, app_nil_r in Hj. apply elem_of_app in Hj as [Hj|Hj].
  - destruct (pending_task_queue_ worker) as [|t q]; [by apply not_elem_of_nil in Hj|]. rewrite bind_cons in Hp. apply app_nil in Hp as [Hp _]. by rewrite Nat.add_comm in Hp.
  - apply list_elem_of_bind in Hj as (th & Hj & Hth). assert (Hn : thread_work th = []).
    { destruct (thread_work th) as [|x y] eqn:E; [done|]. exfalso. assert (Hx : x ∈ threads_ worker ≫= thread_work) by (apply list_elem_of_bind; exists th; split; [rewrite E; by left|done]). rewrite Ht in Hx. by apply not_elem_of_nil in Hx. }
    destruct th as [|t r|t]; simpl in *; [by apply not_elem_of_nil in Hj|by rewrite Nat.add_comm in Hn|done].
Qed.

(** ** After a failure *)

Lemma drain_next s ret pass ws pkg :
  Inv s -> control s = Fetching (Draining ret pass) [] ws pkg ->
  exists s', main_step s = Ok s' /\ Inv s' /\ worker_groups_ s' = worker_groups_ s /\
    (returned s' \/ exists pass', control s' = Fetching (Draining ret pass') (seq 0 (length (worker_groups_ s'))) None [] /\
      ((pass' = S pass /\ S pass < MaxType) \/ (pass' = 0 /\ jobs_of (worker_groups_ s) <> []))).
Proof.
  intros HI Ec. assert (Hnr : ~ returned s) by (intros [r Hr]; congruence). destruct (main_ok p m0 s HI Hnr) as (s1 & E1 & HI1). exists s1. split; [done|]. split; [done|].
  pose proof (cm_count _ _ _ (proj1 HI)) as Hct. rewrite Ec in Hct. simpl in Hct.
  unfold main_step in E1. rewrite Ec in E1. simpl in E1. case_bool_decide as Hp; simplify_eq; [split; [done|]; right; eexists; split; [done|]; by left|].
  unfold drain, ShouldScheduleMore. simpl. case_bool_decide as Hm; simpl; (split; [done|]); [right|left; by eexists].
  eexists. split; [done|]. right. split; [done|]. intros E. rewrite E in Hct. simpl in Hct. lia.
Qed.

Lemma drain_rounds n s ret pass :
  length (jobs_of (worker_groups_ s)) * 4 + (MaxType - pass) < n -> Inv s -> quiet (worker_groups_ s) -> (pass = 0 -> jobs_of (worker_groups_ s) <> []) \/ 0 < pass ->
  pass < MaxType -> control s = Fetching (Draining ret pass) (seq 0 (length (worker_groups_ s))) None [] -> ends s.
Proof.
  revert s pass. induction n as [|n IH]; intros s pass Hn HI Hq Hpass Hmax Ec; [lia|].
  destruct (fetch_round p m0 s _ _ _ _ HI Ec) as (s1 & ws1 & pkg1 & Hr1 & HI1 & Ec1 & Hsw & Hl1 & _ & Hah). eapply ends_rtc; [exact Hr1|].
  pose proof (sw_quiet _ _ Hsw Hq) as Hq1. destruct (drain_next s1 ret pass ws1 pkg1 HI1 Ec1) as (s2 & E2 & HI2 & Eg2 & Hc2).
  assert (Hnr : ~ returned s1) by (intros [r Hr]; congruence). eapply ends_rtc; [by apply main_rtc|]. destruct Hc2 as [Hret|(pass' & Ec2 & Hp')]; [by apply ends_returned|].
  simpl in Hl1. apply (IH s2 pass'); try done; rewrite ?Eg2; try done.
  - destruct Hp' as [[-> Hlt]|[-> Hne]]; [lia|]. assert (Hs : jobs_of (worker_groups_ s) <> []) by (intros E; rewrite E in Hl1; simpl in Hl1; apply Hne, nil_length_inv; lia).
    specialize (Hah (all_ahead _ Hq Hs)). destruct pkg1 as [|t pkg1]; [done|]. simpl in Hl1. unfold MaxType in *. simpl in *. lia.
  - destruct Hp' as [[-> Hlt]|[-> Hne]]; [right; lia|by left].
  - destruct Hp' as [[-> Hlt]|[-> Hne]]; [done|]. unfold MaxType. simpl. lia.
Qed.

Lemma drain_ends s ret pass gl ws pkg : Inv s -> control s = Fetching (Draining ret pass) gl ws pkg -> ends s.
Proof.
  intros HI Ec. assert (Hnr : ~ returned s) by (intros [r Hr]; congruence). destruct (workers_rest p m0 Hstatic s HI Hnr) as (s1 & Hr1 & HI1 & Hq1 & Ec1 & _). rewrite Ec in Ec1. eapply ends_rtc; [exact Hr1|].
  destruct (fetch_round p m0 s1 _ _ _ _ HI1 Ec1) as (s2 & ws2 & pkg2 & Hr2 & HI2 & Ec2 & Hsw & _). eapply ends_rtc; [exact Hr2|]. pose proof (sw_quiet _ _ Hsw Hq1) as Hq2.
  destruct (drain_next s2 ret pass ws2 pkg2 HI2 Ec2) as (s3 & E3 & HI3 & Eg3 & Hc3). assert (Hnr2 : ~ returned s2) by (intros [r Hr]; congruence). eapply ends_rtc; [by apply main_rtc|].
  destruct Hc3 as [Hret|(pass' & Ec3 & Hp')]; [by apply ends_returned|]. eapply (drain_rounds _ s3 ret pass'); [apply Nat.lt_succ_diag_r|done|by rewrite Eg3| | |done].
  - rewrite Eg3. destruct Hp' as [[-> Hlt]|[-> Hne]]; [right; lia|by left].
  - destruct Hp' as [[-> Hlt]|[-> Hne]]; [done|]. unfold MaxType. simpl. lia.
Qed.

(** ** Without a failure *)

Lemma log_bound s : Inv s -> producing (control s) -> length (ran_of (flight s)) <= length (log s) <= length A.
Proof.
  intros HI Hc. destruct (producing_mode _ _ _ HI Hc) as (_ & (k & Ha & Hok & Hl) & _). rewrite Hl, length_app. split; [lia|]. destruct (law_once _ _ _ Ha) as [Hnd Hsub].
  pose proof (NoDup_bound _ _ Hnd Hsub) as Hb. rewrite length_app in Hb. pose proof (submseteq_length _ _ (ran_sub _ Hok)). lia.
Qed.

Lemma recycle_next s ws pkg :
  Inv s -> control s = Fetching Recycling [] ws pkg -> pkg <> [] ->
  exists s', main_step s = Ok s' /\ Inv s' /\
    ((control s' = Producing /\ recycled s < recycled s') \/ returned s' \/ exists ret pass gl ws pkg, control s' = Fetching (Draining ret pass) gl ws pkg).
Proof.
  intros HI Ec Hp. assert (Hnr : ~ returned s) by (intros [r Hr]; congruence). destruct (main_ok p m0 s HI Hnr) as (s1 & E1 & HI1). exists s1. split; [done|]. split; [done|].
  assert (Hc : producing (control s)) by (by rewrite Ec). pose proof (log_bound s HI Hc) as [Hb _]. destruct (producing_mode _ _ _ HI Hc) as (_ & (k & _ & Hok & _) & _).
  unfold main_step in E1. rewrite Ec in E1. simpl in E1. rewrite bool_decide_false in E1 by done. destruct (Recycle _ _ _) as [[ret pr]| |]; cbn [mbind outcome_bind] in E1; try done.
  case_bool_decide as Hret; simplify_eq.
  - right. unfold drain, ShouldScheduleMore. simpl. case_bool_decide; simpl; [right; by eexists _, _, _, _, _|left; by eexists].
  - left. split; [done|]. unfold recycled. simpl. unfold flight, control_jobs in *. simpl. rewrite Ec in Hok, Hb |- *. simpl in Hok, Hb |- *. destruct pkg as [|t pkg]; [done|]. simpl in Hok, Hb |- *.
    apply Forall_cons in Hok as [[(n & mm & Hn & _) _] _]. simpl in Hn. change (ran_of ((Finished, t) :: ?x)) with (ran t ++ ran_of x) in *. rewrite ran_of_app, !length_app in *.
    destruct (ran t); [by apply not_elem_of_nil in Hn|]. simpl in *. lia.
Qed.

(** From the head of a round, with the workers at rest. *)
Lemma recycle_round s gl ws pkg :
  Inv s -> control s = Fetching Recycling gl ws pkg ->
  exists s' ws' pkg', rtc step s s' /\ Inv s' /\ control s' = Fetching Recycling [] ws' pkg' /\ pkg' <> [] /\ recycled s' = recycled s.
Proof.
  intros HI Ec. assert (Hnr : ~ returned s) by (intros [r Hr]; congruence). destruct (workers_rest p m0 Hstatic s HI Hnr) as (s1 & Hr1 & HI1 & Hq1 & Ec1 & Hrc1). rewrite Ec in Ec1, Hrc1. specialize (Hrc1 I).
  destruct (fetch_round p m0 s1 _ _ _ _ HI1 Ec1) as (s2 & ws2 & pkg2 & Hr2 & HI2 & Ec2 & [Hlg _ Hfl Hq2] & _). specialize (Hq2 Hq1).
  assert (Hrc2 : recycled s2 = recycled s1) by (unfold recycled, ran_of; by rewrite Hlg, Hfl). destruct pkg2 as [|t pkg2].
  2: { exists s2, ws2, (t :: pkg2). split; [by etransitivity|]. split_and!; try done. congruence. }
  assert (Hnr2 : ~ returned s2) by (intros [r Hr]; congruence). destruct (producing_mode _ _ _ HI2) as (_ & _ & Hne); [by rewrite Ec2|]. unfold flight, control_jobs in Hne. rewrite Ec2 in Hne. specialize (Hne ltac:(done)). simpl in Hne.
  destruct (main_ok p m0 s2 HI2 Hnr2) as (s3 & E3 & HI3). pose proof E3 as E3'. unfold main_step in E3. rewrite Ec2 in E3. simpl in E3. simplify_eq.
  destruct (fetch_round p m0 (fetch_all Recycling s2) Recycling _ None [] HI3 eq_refl) as (s4 & ws4 & pkg4 & Hr4 & HI4 & Ec4 & [Hlg4 _ Hfl4 _] & _ & _ & Hah). specialize (Hah (all_ahead s2 Hq2 Hne)).
  exists s4, ws4, pkg4. split; [etransitivity; [exact Hr1|]; etransitivity; [exact Hr2|]; etransitivity; [by apply main_rtc|exact Hr4]|]. split_and!; try done.
  transitivity (recycled s2); [|congruence]. unfold recycled, ran_of. rewrite Hlg4, Hfl4. unfold flight, control_jobs. simpl. by rewrite Ec2.
Qed.

Lemma submit_all s ts : Inv s -> control s = Submitting ts -> exists s' gl ws pkg, rtc step s s' /\ Inv s' /\ control s' = Fetching Recycling gl ws pkg /\ recycled s' = recycled s.
Proof.
  revert s. induction ts as [|t ts IH]; intros s HI Ec; assert (Hnr : ~ returned s) by (intros [r Hr]; congruence).
  - destruct (main_ok p m0 s HI Hnr) as (s1 & E1 & HI1). pose proof E1 as E1'. unfold main_step in E1. rewrite Ec in E1. simplify_eq. eexists (fetch_all Recycling s), _, _, _.
    split; [by apply main_rtc|]. split; [done|]. split; [done|]. unfold recycled, flight, control_jobs. simpl. by rewrite Ec.
  - destruct (submit_inv p m0 s t ts HI Ec) as (s1 & E1 & HI1 & Ec1 & Hlg & Hfl). destruct (IH s1 HI1 Ec1) as (s2 & gl & ws & pkg & Hr2 & HI2 & Ec2 & Hrc). exists s2, gl, ws, pkg.
    split; [etransitivity; [by apply main_rtc|done]|]. split; [done|]. split; [done|]. rewrite Hrc. unfold recycled, ran_of. by rewrite Hlg, Hfl.
Qed.

Lemma recycle_ends n s gl ws pkg :
  (forall s', recycled s < recycled s' -> Inv s' -> control s' = Producing -> ends s') -> n = recycled s -> Inv s -> control s = Fetching Recycling gl ws pkg -> ends s.
Proof.
  intros IH _ HI Ec. destruct (recycle_round s gl ws pkg HI Ec) as (s1 & ws1 & pkg1 & Hr1 & HI1 & Ec1 & Hne & Hrc). eapply ends_rtc; [exact Hr1|].
  destruct (recycle_next s1 ws1 pkg1 HI1 Ec1 Hne) as (s2 & E2 & HI2 & Hc2). assert (Hnr : ~ returned s1) by (intros [r Hr]; congruence). eapply ends_rtc; [by apply main_rtc|].
  destruct Hc2 as [[Ec2 Hlt]|[Hret|(ret & pass & gl2 & ws2 & pkg2 & Ec2)]]; [apply IH; [lia|done..]|by apply ends_returned|by eapply drain_ends].
Qed.

Lemma produce_ends n s : length A - recycled s < n -> Inv s -> control s = Producing -> ends s.
Proof.
  revert s. induction n as [|n IH]; intros s Hn HI Ec; [lia|]. assert (Hnr : ~ returned s) by (intros [r Hr]; congruence).
  destruct (produce_inv p m0 s HI Ec) as (s1 & E1 & HI1 & Hc). eapply ends_rtc; [by apply main_rtc|]. destruct Hc as [Hret|(Hlg & Hran & Hc)]; [by apply ends_returned|].
  assert (Hrc : recycled s1 = recycled s) by (unfold recycled; by rewrite Hlg, Hran).
  assert (Hnext : forall s', recycled s1 < recycled s' -> Inv s' -> control s' = Producing -> ends s').
  { intros s' Hlt HI' Ec'. apply IH; [|done|done]. pose proof (log_bound s' HI' ltac:(by rewrite Ec')). unfold recycled in *. lia. }
  destruct Hc as [[ts Ec1]|(gl & ws & pkg & Ec1)].
  - destruct (submit_all s1 ts HI1 Ec1) as (s2 & gl & ws & pkg & Hr2 & HI2 & Ec2 & Hrc2). eapply ends_rtc; [exact Hr2|]. eapply (recycle_ends _ s2); [by rewrite Hrc2|done|done|done].
  - by eapply (recycle_ends _ s1).
Qed.

Theorem inv_ends s : Inv s -> ends s.
Proof.
  intros HI. assert (Hp : forall s, Inv s -> control s = Producing -> ends s) by (intros; by eapply produce_ends; [apply Nat.lt_succ_diag_r|..]). destruct (control s) as [|ts|[|ret pass] gl ws pkg|ret] eqn:Ec.
  - by apply Hp.
  - destruct (submit_all s ts HI Ec) as (s2 & gl & ws & pkg & Hr2 & HI2 & Ec2 & _). eapply ends_rtc; [exact Hr2|]. eapply (recycle_ends _ s2); [by auto|done|done|done].
  - eapply (recycle_ends _ s); [by auto|done|done|done].
  - by eapply drain_ends.
  - apply ends_returned; [done|by eexists].
Qed.
End ends.

#[local] Open Scope nat_scope.

Section final.
Context {K : Kernels} (p : Plan) {P : Type} {TP : TaskProducer P} {PL : ProducerLaws p P}.
Abbreviation A := (p_active p).
Abbreviation Sched := (TaskScheduler P KernelMem).
Implicit Types (s : Sched).

(** Between schedules. *)
Record ready s : Prop := {
  rd_producer : at_rest (task_producer_ s);
  rd_watched : watched p (memory s);
  rd_jobs : jobs_of (worker_groups_ s) = [];
  rd_groups : Forall (group_wf p) (worker_groups_ s);
  rd_index t : t <> MAX -> exists t' n, worker_group_index_ s !! type_index t = Some t' /\ t' <> MAX /\ shape (worker_groups_ s) !! type_index t' = Some (S n);
}.

Lemma ready_launched s : ready s -> has_launched s = true.
Proof.
  intros HR. destruct (rd_index _ HR NORMAL) as (t' & n & _ & _ & Hs); [done|]. unfold shape in Hs. rewrite list_lookup_fmap in Hs.
  destruct (worker_groups_ s !! type_index t') as [g|] eqn:Eg; simpl in Hs; [|done]. apply (inj Some) in Hs.
  unfold has_launched. apply existsb_exists. exists g. split; [apply list_elem_of_In; by eapply list_elem_of_lookup_2|]. pose proof (rd_groups _ HR) as Hw. rewrite Forall_lookup in Hw. destruct (Hw _ _ Eg) as (_ & Hl & _).
  apply Hl. intros E. by rewrite E in Hs.
Qed.

Lemma schedule_starts s : ready s -> exists s', Schedule s = Ok s' /\ Inv p (memory s) s'.
Proof.
  intros HR. unfold Schedule. rewrite ready_launched by done. simpl. destruct (law_startup _ _ (rd_watched _ HR) (rd_producer _ HR)) as (pr & -> & Ha). cbn [mbind outcome_bind].
  rewrite bool_decide_false by (by intros Hx). destruct (sleep_all p Group.WakeupWorkers false (worker_groups_ s) ltac:(done) (rd_groups _ HR)) as (Ej & Es & Hw & Hawake).
  eexists. split; [done|]. split; [split; simpl|].
  - constructor.
  - done.
  - apply HR.
  - done.
  - intros t Ht. destruct (rd_index _ HR t Ht) as (t' & n & Hi & Hm & Hs). exists t', n. simpl. rewrite Es. split; [done|]. split; [done|]. by destruct t'; eauto.
  - done.
  - by rewrite Ej, (rd_jobs _ HR).
  - rewrite Ej, (rd_jobs _ HR). simpl. lia.
  - intros _. by apply Hawake.
  - unfold mode_ok. simpl. split; [done|]. split; [|done]. unfold flight, control_jobs. simpl. rewrite Ej, (rd_jobs _ HR). exists []. split; [done|]. by split.
Qed.

(** The builder's scheduler is ready. *)
Lemma build_ready log2 thread_num pr m :
  kLeastThreadNumber <= thread_num -> length A <= 2 ^ log2 -> at_rest pr -> watched p m -> exists s, BuildScheduler log2 thread_num pr m = Ok s /\ ready s.
Proof.
  intros Hn Hq Hpr Hm. assert (Hw : forall n, 0 < n -> worker_wf p (CreateWorker log2 log2 n)) by (intros n Hpos; split; simpl; [by rewrite length_replicate|done]).
  assert (Hj : forall n, worker_jobs (CreateWorker log2 log2 n) = []).
  { intros n. unfold worker_jobs. simpl. rewrite app_nil_r. induction n as [|n IH]; [done|]. by rewrite replicate_S, bind_cons, IH. }
  assert (Hg : forall n, 0 < n -> group_wf p (MkGroup [CreateWorker log2 log2 n] 0 0 true)).
  { intros n Hpos. split; [by constructor; [apply Hw|]|]. split; [done|]. unfold group_jobs. simpl. by rewrite Hj. }
  assert (H0 : group_wf p (MkGroup [] 0 0 false)) by (split; [constructor|done]).
  unfold kLeastThreadNumber in *. unfold BuildScheduler. rewrite bool_decide_false by (unfold kLeastThreadNumber; lia). cbn [reject_if mbind outcome_bind AddWorker]. unfold kLeastThreadNumber.
  case_bool_decide as H3; eexists; (split; [reflexivity|]); (split; [done|done| | |]); simpl.
  1,4: unfold jobs_of, group_jobs; simpl; by rewrite !Hj.
  1,3: repeat (apply Forall_cons; split; [first [exact H0|apply Hg; lia]|]); constructor.
  all: intros [] Ht; try done; eexists _, _; repeat split; done.
Qed.

Context (Hstatic : forall node m, node_watchers (func node m).2 = node_watchers m).

Lemma step_inv m0 s s' : Inv p m0 s -> step s s' -> Inv p m0 s'.
Proof.
  intros HI Hs. destruct Hs as [s s' Hnr E|g w i s s' E]; [|by eapply worker_inv]. destruct (main_ok p m0 s HI Hnr) as (s1 & E1 & HI1). congruence.
Qed.

Lemma steps_inv m0 s s' : Inv p m0 s -> rtc step s s' -> Inv p m0 s'.
Proof. intros HI Hr. induction Hr as [|s1 s2 s3 Hs _ IH]; [done|]. apply IH. by eapply step_inv. Qed.

Lemma index_kept s s' : step s s' -> worker_group_index_ s' = worker_group_index_ s.
Proof.
  destruct 1 as [s s' Hnr E|g w i s s' E].
  - unfold main_step, produce_step, submit_step, fetched, drain, fetch_all in E. repeat (case_match; simplify_eq/=; try done); unfold mbind, outcome_bind in E; repeat (case_match; simplify_eq/=; try done).
  - unfold worker_step, mbind, option_bind in E. repeat case_match; by simplify_eq/=.
Qed.

Lemma indexes_kept s s' : rtc step s s' -> worker_group_index_ s' = worker_group_index_ s.
Proof. induction 1 as [|s1 s2 s3 Hs _ IH]; [done|]. by rewrite IH, (index_kept _ _ Hs). Qed.

(** [Schedule] is back with success: all is as before. *)
Lemma returned_ready m0 s0 s :
  ready s0 -> worker_group_index_ s = worker_group_index_ s0 -> Inv p m0 s -> control s = Returned kStatusSuccess -> ready s.
Proof.
  intros HR Hix [HC HM] Ec. unfold mode_ok in HM. rewrite Ec in HM. destruct HM as (Hj & Hok & _). destruct (Hok eq_refl) as [_ Hrest]. destruct HC. split; try done.
  intros t Ht. destruct (cm_index t Ht) as (t' & n & Hi & Hs & _). exists t', n. split; [done|]. split; [|done]. destruct (rd_index _ HR t Ht) as (u & ? & Hu & Hm & _). rewrite Hix in Hi. congruence.
Qed.

Theorem schedule_safe s s1 s2 :
  ready s -> Schedule s = Ok s1 -> rtc step s1 s2 ->
  schedule p anyone [] (log s2) /\ memory s2 = run_kernels (log s2) (memory s) /\
  forall ret, control s2 = Returned ret ->
    jobs_of (worker_groups_ s2) = [] /\ (ret = kStatusSuccess -> log s2 ≡ₚ A /\ ready s2) /\ (ret <> kStatusSuccess -> kernel_status s2 ret).
Proof.
  intros HR E1 Hr. destruct (schedule_starts s HR) as (s1' & E1' & HI). assert (s1' = s1) as -> by congruence. pose proof (steps_inv _ _ _ HI Hr) as HI2. pose proof HI2 as [HC HM]. split; [apply HC|]. split; [apply HC|].
  assert (Hix : worker_group_index_ s2 = worker_group_index_ s).
  { rewrite (indexes_kept _ _ Hr). unfold Schedule in E1. rewrite ready_launched in E1 by done. simpl in E1. destruct (StartUp _ _) as [[ret pr]| |]; cbn [mbind outcome_bind] in E1; try done. by case_bool_decide; simplify_eq. }
  intros ret Ec. unfold mode_ok in HM. rewrite Ec in HM. destruct HM as (Hj & Hok & Hbad). split; [done|]. split; [|done]. intros ->. split; [by apply Hok|]. by eapply returned_ready.
Qed.

Theorem schedule_live s : ready s -> exists s1, Schedule s = Ok s1 /\ forall s2, rtc step s1 s2 -> exists s3 ret, rtc step s2 s3 /\ control s3 = Returned ret.
Proof.
  intros HR. destruct (schedule_starts s HR) as (s1 & E1 & HI). exists s1. split; [done|]. intros s2 Hr. pose proof (steps_inv _ _ _ HI Hr) as HI2.
  destruct (inv_ends p (memory s) Hstatic s2 HI2) as (s3 & Hr3 & [ret Hret] & _). by exists s3, ret.
Qed.
End final.

(** ** With the chain producer *)

(** C5: Kernels leave the watchers of the nodes as they are, there is always memory
    for a task, and the queues of the workers have a place for every node
    ([ready]).  Then, whatever the threads of the workers do and in whichever
    order, the multi-thread executor with chained tasks calls each kernel at most
    once and after all kernels it waits for; a call, with the test whether to quit
    in front of it, is one step, and the memory is that of the calls in the order
    they were made.  When [Schedule] is back the workers hold no task, and then
    either all kernels have run and the scheduler can be used again, or its status
    is that of a kernel it called. *)
Theorem multi_thread_schedule_safe {K : Kernels} {KI : KernelInfo} (p : Plan) (Hp : plan_ok p) (has_memory : nat -> bool) (Hmem : forall n, has_memory n = true)
    (s s1 s2 : TaskScheduler ChainTaskProducer KernelMem) :
  let _ := Chain.chain_producer has_memory in
  let _ := chain_laws p Hp has_memory Hmem in
  (forall node m, node_watchers (func node m).2 = node_watchers m) -> ready p s -> Schedule s = Ok s1 -> rtc step s1 s2 ->
  schedule p anyone [] (log s2) /\ memory s2 = run_kernels (log s2) (memory s) /\
  forall ret, control s2 = Returned ret ->
    jobs_of (worker_groups_ s2) = [] /\ (ret = kStatusSuccess -> log s2 ≡ₚ p_active p /\ ready p s2) /\ (ret <> kStatusSuccess -> kernel_status s2 ret).
Proof. intros TP PL Hstatic. by apply schedule_safe. Qed.

(** C6: The scheduler that the builder makes for a plan of at most as many nodes
    as a queue has places, with at least [kLeastThreadNumber] threads, kernels
    that leave the watchers as they are and always memory for a task, starts, and
    from every state it can get to there are steps that bring [Schedule] back: no
    schedule ends in a deadlock, also not after a kernel failed. *)
Theorem multi_thread_schedule_returns {K : Kernels} {KI : KernelInfo} (p : Plan) (has_memory : nat -> bool) (log2 thread_num : nat) (c : ChainTaskProducer) (m : KernelMem) :
  let _ := Chain.chain_producer has_memory in
  plan_ok p -> (forall n, has_memory n = true) -> (forall node m, node_watchers (func node m).2 = node_watchers m) ->
  kLeastThreadNumber <= thread_num -> length (p_active p) <= 2 ^ log2 -> chain_rest p c -> watched p m ->
  exists s s1, BuildScheduler log2 thread_num c m = Ok s /\ Schedule s = Ok s1 /\
    forall s2, rtc step s1 s2 -> exists s3 ret, rtc step s2 s3 /\ control s3 = Returned ret.
Proof.
  intros TP Hp Hmem Hstatic Hn Hq Hc Hm. set (PL := chain_laws p Hp has_memory Hmem). destruct (build_ready p (PL := PL) log2 thread_num c m Hn Hq Hc Hm) as (s & Es & Hr).
  destruct (schedule_live p (PL := PL) Hstatic s Hr) as (s1 & E1 & Hl). by exists s, s1.
Qed.
