(* ===== verification/SchedRuns.v ===== *)
(** * SchedRuns: schedules of the multi-thread executor

    A plan of six nodes, two chains that meet in a third, run by the threads of
    three workers in a fixed order of turns; what a kernel's failure and an end
    of sequence do; and the producer of a single task. *)

From stdpp Require Import strings.
From S2P Require Import Prelude ExecReady ExecTopo ExecTopoSound SchedTask SchedChain SchedChainSound SchedWork SchedWorkSound SchedFinal.

#[local] Open Scope nat_scope.

Module ScheduleRuns.

(** Turns of the scheduler's thread ([None]) and of threads of workers; a thread
    that has to wait loses its turn. *)
Fixpoint run `{TP : TaskProducer P} (turns : list (option (nat * nat * nat))) (s : TaskScheduler P KernelMem) : outcome (TaskScheduler P KernelMem) :=
  match turns with
  | [] => Ok s
  | None :: turns => match control s with Returned _ => run turns s | _ => s ← main_step s; run turns s end
  | Some (g, w, i) :: turns => match worker_step g w i s with Some s => run turns s | None => run turns s end
  end.

Lemma run_steps `{TP : TaskProducer P} turns (s s' : TaskScheduler P KernelMem) : run turns s = Ok s' -> rtc step s s'.
Proof.
  revert s. induction turns as [|[[[g w] i]|] turns IH]; simpl; intros s E; [by simplify_eq| |].
  - destruct (worker_step g w i s) as [s1|] eqn:Es; [|by apply IH]. eapply rtc_l; [by eapply step_worker|]. by apply IH.
  - destruct (control s) eqn:Ec; try (apply bind_Ok in E as (s1 & Em & E); eapply rtc_l; [apply step_main; [intros [ret Hr]; congruence|exact Em]|by apply IH]). by apply IH.
Qed.

Definition round : list (option (nat * nat * nat)) := [None; Some (0, 0, 0); Some (1, 0, 0); Some (2, 0, 0); None; Some (0, 0, 0)].
Definition rounds (n : nat) : list (option (nat * nat * nat)) := concat (replicate n round).

(** 0 -> 2 -> 4, 1 -> 3 -> 4, 4 -> 5 *)
Definition net_watchers (x : nat) : list nat := match x with 0 => [2] | 1 => [3] | 2 => [4] | 3 => [4] | 4 => [5] | _ => [] end.
Definition net : Plan := MkPlan [0; 1; 2; 3; 4; 5] net_watchers [0; 1] [0; 0; 1; 1; 2; 1]%Z.

Lemma sched_net_ok : plan_ok net.
Proof.
  split.
  - apply (bool_decide_unpack _). by vm_compute.
  - assert (H : Forall (fun x => Forall (fun y => y ∈ p_active net) (net_watchers x)) (p_active net)) by (apply (bool_decide_unpack _); by vm_compute).
    intros x y Hx Hy. rewrite Forall_forall in H. specialize (H x Hx). rewrite Forall_forall in H. by apply H.
  - assert (H : Forall (fun j => p_indegrees net !! j = Some (Z.of_nat (occ j (p_edges net)))) (p_active net)) by (apply (bool_decide_unpack _); by vm_compute).
    intros j Hj. rewrite Forall_forall in H. by apply H.
  - apply (bool_decide_unpack _). by vm_compute.
  - assert (H : Forall (fun x => bool_decide (x ∈ p_start net) = bool_decide (occ x (p_edges net) = 0)) (p_active net)) by (apply (bool_decide_unpack _); by vm_compute).
    intros x. rewrite Forall_forall in H. split.
    + intros Hx. assert (HxA : x ∈ p_active net) by (assert (Hs : Forall (fun x => x ∈ p_active net) (p_start net)) by (apply (bool_decide_unpack _); by vm_compute); rewrite Forall_forall in Hs; by apply Hs).
      split; [done|]. specialize (H x HxA). rewrite bool_decide_true in H by done. symmetry in H. by apply bool_decide_eq_true in H.
    + intros [HxA Ho]. specialize (H x HxA). rewrite (bool_decide_true (occ x _ = 0)) in H by done. by apply bool_decide_eq_true in H.
  - exists (fun x => x). assert (H : Forall (fun x => Forall (fun y => x < y) (net_watchers x)) (p_active net)) by (apply (bool_decide_unpack _); by vm_compute).
    intros x y Hx Hy. rewrite Forall_forall in H. specialize (H x Hx). rewrite Forall_forall in H. by apply H.
Qed.

(** A kernel notes that it ran; its status may depend on what ran before. *)
Definition kernels (status : nat -> list nat -> Z) : Kernels := {|
  KernelMem := list nat;
  func n m := (status n m, m ++ [n]);
  node_watchers _ n := Some (net_watchers n);
|}.

Definition plain_info : KernelInfo := {|
  GetKernelType n := if bool_decide (n = 2) then Some "AllocMemHbm"%string else None;
  FindKernelInfo t := if bool_decide (t = "AllocMemHbm"%string) then Some "memory"%string else None;
|}.
#[local] Existing Instance plain_info.

Definition data : ProducerData := MkData (seq 0 6) [0; 1] (p_indegrees net) (p_indegrees net).
Definition chain : ChainTaskProducer := Chain.Prepare data (MkChain data [] (MkTags 0 []) 0).
Definition always (_ : nat) : bool := true.

(** The start of a schedule on workers with queues of eight places, and then
    [n] rounds. *)
Definition schedule_for (status : nat -> list nat -> Z) (n : nat) : outcome (TaskScheduler ChainTaskProducer (list nat)) :=
  let _ := kernels status in let _ := Chain.chain_producer always in
  s ← BuildScheduler 3 3 chain []; s ← Schedule s; run (rounds n) s.

Definition fine (_ : nat) (_ : list nat) : Z := kStatusSuccess.

(** What is to be seen of a scheduler. *)
Definition outcome_of (r : outcome (TaskScheduler ChainTaskProducer (list nat))) : option (list nat * option Z * list Z) :=
  match r with
  | Ok s => Some (log s, match control s with Returned ret => Some ret | _ => None end, pd_indegrees (c_data (task_producer_ s)))
  | _ => None
  end.

Example chains_run : outcome_of (schedule_for fine 40) = Some ([1; 3; 0; 2; 4; 5], Some kStatusSuccess, [0; 0; 1; 1; 2; 1]%Z).
Proof. vm_compute. reflexivity. Qed.

Lemma chain_at_rest : let _ := kernels fine in chain_rest net chain.
Proof. split; [|done]. split; try done. apply Reset_ok. Qed.

Lemma fine_watched status : let _ := kernels status in watched net [].
Proof. by intros ? x _. Qed.

Lemma chains_done : exists s2, schedule_for fine 40 = Ok s2 /\ control s2 = Returned kStatusSuccess.
Proof. eexists. split; [vm_compute; reflexivity|reflexivity]. Qed.

Lemma chains_ready :
  exists s, @BuildScheduler (kernels fine) _ 3 3 chain [] = Ok s /\
    @ready (kernels fine) net _ (@Chain.chain_producer (kernels fine) _ always) (@chain_laws (kernels fine) _ net sched_net_ok always (fun _ => eq_refl)) s.
Proof.
  apply build_ready; [unfold kLeastThreadNumber; lia|by apply (bool_decide_unpack _); vm_compute|exact chain_at_rest|apply (fine_watched fine)].
Qed.

Lemma schedule_steps status n (s s2 : TaskScheduler ChainTaskProducer (list nat)) :
  schedule_for status n = Ok s2 -> @BuildScheduler (kernels status) _ 3 3 chain [] = Ok s ->
  exists s1, @Schedule (kernels status) _ (@Chain.chain_producer (kernels status) _ always) s = Ok s1 /\
    rtc (@step (kernels status) _ (@Chain.chain_producer (kernels status) _ always)) s1 s2.
Proof.
  intros E Es. unfold schedule_for in E. cbv zeta in E. rewrite Es in E. apply bind_Ok in E as (s' & [= ->] & E). apply bind_Ok in E as (s1 & E1 & Erun). exists s1. split; [exact E1|]. by eapply run_steps.
Qed.

(** The theorems at this plan. *)
Lemma multi_thread_schedule_safe_run :
  exists s2, schedule_for fine 40 = Ok s2 /\ schedule net anyone [] (log s2) /\ log s2 ≡ₚ [0; 1; 2; 3; 4; 5].
Proof.
  destruct chains_ready as (s & Es & Hr). destruct chains_done as (s2 & E2 & Ec). destruct (schedule_steps _ _ _ _ E2 Es) as (s1 & E1 & Hs).
  destruct (@multi_thread_schedule_safe (kernels fine) _ net sched_net_ok always (fun _ => eq_refl) s s1 s2 (fun _ _ => eq_refl) Hr E1 Hs) as (Hl & _ & Hret).
  exists s2. split; [exact E2|]. split; [exact Hl|]. destruct (Hret _ Ec) as (_ & Hok & _). destruct (Hok eq_refl) as [Hall _]. exact Hall.
Defined.

Lemma multi_thread_schedule_returns_run :
  let _ := kernels fine in let _ := Chain.chain_producer always in
  exists s s1, BuildScheduler 3 3 chain [] = Ok s /\ Schedule s = Ok s1 /\ exists s3 ret, rtc step s1 s3 /\ control s3 = Returned ret.
Proof.
  intros KK TP. destruct (@multi_thread_schedule_returns (kernels fine) _ net always 3 3 chain [] sched_net_ok (fun _ => eq_refl) (fun _ _ => eq_refl)) as (s & s1 & Es & E1 & Hl);
    [unfold kLeastThreadNumber; lia|by apply (bool_decide_unpack _); vm_compute|exact chain_at_rest|exact (fine_watched fine)|].
  exists s, s1. split; [exact Es|]. split; [exact E1|]. apply Hl. apply rtc_refl.
Defined.

(** ** After a failure *)

(** The next schedule on the same scheduler. *)
Definition again (status : nat -> list nat -> Z) (n : nat) (r : outcome (TaskScheduler ChainTaskProducer (list nat))) : outcome (TaskScheduler ChainTaskProducer (list nat)) :=
  let _ := kernels status in let _ := Chain.chain_producer always in
  match r with Ok s => s ← Schedule s; run (rounds n) s | Err e => Err e | Fault => Fault end.

(** Kernel 1 fails when it is called for the first time. *)
Definition fails_once (n : nat) (m : list nat) : Z := if bool_decide (n = 1) && negb (bool_decide (1 ∈ m)) then 7%Z else kStatusSuccess.

(** A schedule with a failure returns the kernel's status and leaves the
    indegrees of collected nodes at zero: the next schedule reports success, and
    four of the six kernels have not run. *)
Theorem indegrees_not_recovered :
  outcome_of (schedule_for fails_once 60) = Some ([1; 0; 2], Some 7%Z, [0; 0; 0; 0; 2; 1]%Z) /\
  outcome_of (again fails_once 60 (schedule_for fails_once 60)) = Some ([0; 1], Some kStatusSuccess, [0; 0; -2; -2; 2; 1]%Z).
Proof. split; vm_compute; reflexivity. Qed.

(** An end of sequence in front of another kernel of the same task. *)
Definition ends_at_0 (n : nat) (_ : list nat) : Z := if bool_decide (n = 0) then END_OF_SEQUENCE else kStatusSuccess.

(** The end of the sequence is not reported, and the kernels behind it run. *)
Theorem end_of_sequence_lost : outcome_of (schedule_for ends_at_0 40) = Some ([1; 3; 0; 2; 4; 5], Some kStatusSuccess, [0; 0; 1; 1; 2; 1]%Z).
Proof. vm_compute. reflexivity. Qed.

(** ** The single task *)

Definition single : SingleTaskProducer := MkSingle data [] NewTask.

Definition single_for (status : nat -> list nat -> Z) (n : nat) : outcome (TaskScheduler SingleTaskProducer (list nat)) :=
  let _ := kernels status in let _ := Single.single_producer in
  s ← BuildScheduler 3 3 single []; s ← Schedule s; run (rounds n) s.
Definition single_again (status : nat -> list nat -> Z) (n : nat) (r : outcome (TaskScheduler SingleTaskProducer (list nat))) : outcome (TaskScheduler SingleTaskProducer (list nat)) :=
  let _ := kernels status in let _ := Single.single_producer in
  match r with Ok s => s ← Schedule s; run (rounds n) s | Err e => Err e | Fault => Fault end.
Definition single_outcome (r : outcome (TaskScheduler SingleTaskProducer (list nat))) : option (list nat * option Z) :=
  match r with Ok s => Some (log s, match control s with Returned ret => Some ret | _ => None end) | _ => None end.

(** The task keeps its kernels: a second schedule calls each twice. *)
Theorem single_task_repeats :
  single_outcome (single_for fine 60) = Some ([0; 2; 1; 3; 4; 5], Some kStatusSuccess) /\
  single_outcome (single_again fine 60 (single_for fine 60)) = Some ([0; 2; 1; 3; 4; 5; 0; 2; 1; 3; 4; 5], Some kStatusSuccess).
Proof. split; vm_compute; reflexivity. Qed.

(** A kernel's failure stops the task and is reported as success. *)
Theorem single_failure_lost : single_outcome (single_for fails_once 60) = Some ([0; 2; 1], Some kStatusSuccess).
Proof. vm_compute. reflexivity. Qed.
End ScheduleRuns.
