(* ===== verification/GraphList.v ===== *)
(** * GraphList: the quick list of the graph library

    [graph_metadef/graph/fast_graph/quick_list.h] and [list_element.h]: a ring of
    elements through a head the list owns, with a pointer to its last element,
    and in every element its owner and mode.  The chains of the elements are a
    heap as in [MemLink], owners and modes a second map; the assignments are in
    the order of the source, and following a null or dangling pointer is a
    [Fault].  The data of an element is not read by the list: a comparison is a
    function of two elements. *)

From S2P Require Import Prelude MemLink.

#[local] Open Scope Z_scope.

Inductive ListMode := kWorkMode | kFreeMode.

(** A list object is known by a number, an element by its address. *)
Record Tag := MkTag { owner : option nat; mode : ListMode }.
Record store := MkStore { chains : heap; tags : gmap addr Tag }.
Record QuickList := MkQuick { this : nat; head_ : addr; tail_ : pointer; total_size_ : Z }.

Definition write_next (p v : pointer) (st : store) : outcome store := h ← set_next p v (chains st); Ok (MkStore h (tags st)).
Definition write_prev (p v : pointer) (st : store) : outcome store := h ← set_prev p v (chains st); Ok (MkStore h (tags st)).
Definition read_next (p : pointer) (st : store) : outcome pointer := get_next p (chains st).
Definition read_prev (p : pointer) (st : store) : outcome pointer := get_prev p (chains st).
Definition read_tag (a : addr) (st : store) : outcome Tag := match tags st !! a with Some t => Ok t | None => Fault end.
Definition write_tag (a : addr) (o : option nat) (m : ListMode) (st : store) : outcome store :=
  _ ← read_tag a st; Ok (MkStore (chains st) (<[a := MkTag o m]> (tags st))).

Definition set_tail (p : pointer) (q : QuickList) : QuickList := MkQuick (this q) (head_ q) p (total_size_ q).
Definition add_size (n : Z) (q : QuickList) : QuickList := MkQuick (this q) (head_ q) (tail_ q) (uwrap 64 (total_size_ q + n)).

Module Quick.

(** An element that [new] has made. *)
Definition fresh_element : Chain * Tag := (LinkNode.fresh, MkTag None kFreeMode).

(** [mem] is the element that [init] makes. *)
Definition init (list : nat) (mem : addr) (st : store) : outcome (QuickList * store) :=
  let s := Some mem in
  st ← write_next s s st;
  st ← write_prev s s st;
  t ← read_tag mem st;
  st ← write_tag mem (Some list) (mode t) st;
  Ok (MkQuick list mem s 0, st).

Definition begin_ (q : QuickList) (st : store) : outcome pointer := read_next (Some (head_ q)) st.
Definition end_ (q : QuickList) : pointer := Some (head_ q).
Definition size (q : QuickList) : Z := total_size_ q.
Definition empty (q : QuickList) (st : store) : outcome bool := n ← read_next (Some (head_ q)) st; Ok (bool_decide (n = Some (head_ q))).

Definition push_back (element : addr) (m : ListMode) (q : QuickList) (st : store) : outcome (QuickList * store) :=
  let e := Some element in let head := Some (head_ q) in
  st ← write_next (tail_ q) e st;
  st ← write_prev e (tail_ q) st;
  st ← write_next e head st;
  st ← write_tag element (Some (this q)) m st;
  let q := set_tail e q in
  st ← write_prev head e st;
  Ok (add_size 1 q, st).

Definition insert (pos : pointer) (element : addr) (m : ListMode) (q : QuickList) (st : store) : outcome (QuickList * store) :=
  let e := Some element in let head := Some (head_ q) in
  b ← begin_ q st;
  '(q, st) ←
    (if bool_decide (pos = b) then
       src_node ← read_next head st;
       st ← write_next head e st;
       st ← write_next e src_node st;
       st ← write_prev e head st;
       st ← write_prev src_node e st;
       Ok (if bool_decide (tail_ q = head) then set_tail e q else q, st)
     else if bool_decide (pos = end_ q) then
       n ← read_next (tail_ q) st;
       st ← write_next e n st;
       st ← write_prev e (tail_ q) st;
       st ← write_next (tail_ q) e st;
       let q := set_tail e q in
       st ← write_prev head (tail_ q) st;
       Ok (q, st)
     else
       prev ← read_prev pos st;
       st ← write_prev e prev st;
       st ← write_next e pos st;
       st ← write_next prev e st;
       st ← write_prev pos e st;
       Ok (q, st));
  st ← write_tag element (Some (this q)) m st;
  Ok (add_size 1 q, st).

Definition push_front (x : addr) (m : ListMode) (q : QuickList) (st : store) : outcome (QuickList * store) :=
  b ← begin_ q st; insert b x m q st.

(** The two halves of [move]: linking an unlinked element, and the whole. *)
Definition place (src dst : addr) (before_flag : bool) (q : QuickList) (st : store) : outcome (QuickList * store) :=
  let cur := Some src in let d := Some dst in
  if before_flag then
    dst_prev ← read_prev d st;
    st ← write_prev d cur st;
    st ← write_next dst_prev cur st;
    st ← write_prev cur dst_prev st;
    st ← write_next cur d st;
    Ok (q, st)
  else
    dst_next ← read_next d st;
    st ← write_prev dst_next cur st;
    st ← write_next d cur st;
    st ← write_prev cur d st;
    st ← write_next cur dst_next st;
    Ok (if bool_decide (tail_ q = d) then set_tail cur q else q, st).

Definition move (src dst : addr) (before_flag : bool) (q : QuickList) (st : store) : outcome (QuickList * store) :=
  let cur := Some src in
  next ← read_next cur st;
  prev ← read_prev cur st;
  st ← write_next prev next st;
  st ← write_prev next prev st;
  let q := if bool_decide (tail_ q = cur) then set_tail prev q else q in
  place src dst before_flag q st.

Definition erase (x : addr) (q : QuickList) (st : store) : outcome (Z * (QuickList * store)) :=
  t ← read_tag x st;
  if bool_decide (owner t <> Some (this q)) then Ok (-1, (q, st)) else
  prev ← read_prev (Some x) st;
  if bool_decide (prev = None) then Ok (0, (q, st)) else
  let q := if bool_decide (tail_ q = Some x) then set_tail prev q else q in
  next ← read_next (Some x) st;
  st ← write_prev (Some x) None st;
  st ← write_next (Some x) None st;
  st ← write_tag x None kFreeMode st;
  st ← write_next prev next st;
  st ← write_prev next prev st;
  Ok (0, (add_size (-1) q, st)).

(** [erase] with an iterator returns the one behind it. *)
Definition erase_at (pos : pointer) (q : QuickList) (st : store) : outcome (pointer * (QuickList * store)) :=
  match pos with
  | None => Fault
  | Some element => next ← read_next pos st; '(_, r) ← erase element q st; Ok (next, r)
  end.

Fixpoint clear_loop (fuel : nat) (iter : pointer) (q : QuickList) (st : store) : outcome (QuickList * store) :=
  match fuel with
  | O => Fault
  | S fuel => if bool_decide (iter = end_ q) then Ok (q, st) else '(iter, (q, st)) ← erase_at iter q st; clear_loop fuel iter q st
  end.
Definition clear (q : QuickList) (st : store) : outcome (QuickList * store) :=
  b ← begin_ q st; clear_loop (S (base.size (chains st))) b q st.

(** The loops [for (iter = begin(); iter != end(); ++iter)]. *)
Fixpoint walk {S} (fuel : nat) (iter stop : pointer) (body : addr -> S -> store -> outcome (S * store)) (s : S) (st : store) : outcome (S * store) :=
  match fuel with
  | O => Fault
  | Datatypes.S fuel =>
      if bool_decide (iter = stop) then Ok (s, st) else
      match iter with
      | None => Fault
      | Some a => '(s, st) ← body a s st; n ← read_next iter st; walk fuel n stop body s st
      end
  end.
Definition for_each {S} (q : QuickList) (body : addr -> S -> store -> outcome (S * store)) (s : S) (st : store) : outcome (S * store) :=
  b ← begin_ q st; walk (Datatypes.S (base.size (chains st))) b (end_ q) body s st.

Definition CollectAllItemToVector (q : QuickList) (st : store) : outcome (list addr) :=
  '(l, _) ← for_each q (fun a l st => Ok (l ++ [a], st)) [] st; Ok l.

Definition set_owner (o : nat) (a : addr) (s : unit) (st : store) : outcome (unit * store) :=
  t ← read_tag a st; st ← write_tag a (Some o) (mode t) st; Ok (s, st).

Definition swap (q list : QuickList) (st : store) : outcome (QuickList * QuickList * store) :=
  '(_, st) ← for_each list (set_owner (this q)) tt st;
  '(_, st) ← for_each q (set_owner (this list)) tt st;
  let q' := MkQuick (this q) (head_ list) (tail_ list) (total_size_ list) in
  '(_, st) ← set_owner (this q) (head_ q') tt st;
  let list' := MkQuick (this list) (head_ q) (tail_ q) (total_size_ q) in
  '(_, st) ← set_owner (this list) (head_ list') tt st;
  Ok (q', list', st).

(** ** Sorting *)

(** [std::list::merge]: an element of [l2] goes in front only of greater ones. *)
Fixpoint merge (comp : addr -> addr -> bool) (l1 : list addr) : list addr -> list addr :=
  fix go (l2 : list addr) : list addr :=
    match l1, l2 with
    | [], _ => l2
    | _, [] => l1
    | x :: l1', y :: l2' => if comp y x then y :: go l2' else x :: merge comp l1' l2
    end.

(** The loop over [counter]: [bins] are the lists of [tmp] in front of [fill]. *)
Fixpoint carry_in (comp : addr -> addr -> bool) (carry : list addr) (bins : list (list addr)) : list (list addr) :=
  match bins with
  | [] => [carry]
  | [] :: bins => carry :: bins
  | bin :: bins => [] :: carry_in comp (merge comp bin carry) bins
  end.

Definition kBins : nat := 64.

Fixpoint distribute (fuel : nat) (comp : addr -> addr -> bool) (bins : list (list addr)) (q : QuickList) (st : store) : outcome (list (list addr) * (QuickList * store)) :=
  match fuel with
  | O => Fault
  | S fuel =>
      iter ← begin_ q st;
      match iter with
      | None => Fault
      | Some element =>
          '(_, (q, st)) ← erase_at iter q st;
          let bins := carry_in comp [element] bins in
          if bool_decide (kBins < length bins)%nat then Fault else
          e ← empty q st;
          if e : bool then Ok (bins, (q, st)) else distribute fuel comp bins q st
      end
  end.

(** [counter->merge( *(counter - 1), comp)] from the second bin on. *)
Definition merge_bins (comp : addr -> addr -> bool) (bins : list (list addr)) : list addr := foldl (fun l bin => merge comp bin l) [] bins.

Definition push_all (l : list addr) (q : QuickList) (st : store) : outcome (QuickList * store) :=
  foldM (fun element '(q, st) => push_back element kWorkMode q st) l (q, st).

Definition sort (comp : addr -> addr -> bool) (q : QuickList) (st : store) : outcome (QuickList * store) :=
  if bool_decide (total_size_ q <= 1) then Ok (q, st) else
  '(bins, (q, st)) ← distribute (S (base.size (chains st))) comp [] q st;
  '(q, st) ← clear q st;
  push_all (merge_bins comp bins) q st.

End Quick.
