(* ===== verification/GraphListSound.v ===== *)
(** * GraphListSound: the operations of the quick list

    The invariant of a quick list and what every operation does to the list of
    its elements: linking, unlinking, moving, and which elements are left alone. *)

From S2P Require Import Prelude MemLink GraphList.

#[local] Open Scope Z_scope.
#[local] Set Warnings "-clear-no-such-hyp".

(** ** Linking and unlinking in a ring *)

Section rings.
Implicit Types (h : heap) (a b s x y : addr) (l : list addr).

(** The neighbours of a place in the ring through [s]. *)
Definition pred_of s l : addr := default s (last l).
Definition succ_of s l : addr := default s (head l).

Lemma pred_split s l : exists p, s :: l = p ++ [pred_of s l].
Proof.
  unfold pred_of. destruct l as [|x l _] using rev_ind; [by exists []|].
  exists (s :: l). by rewrite last_snoc.
Qed.

Lemma succ_split s l : exists p, l ++ [s] = succ_of s l :: p.
Proof. destruct l as [|x l]; [by exists []|]. by exists (l ++ [s]). Qed.

Lemma pred_elem s l : pred_of s l ∈ s :: l.
Proof. destruct (pred_split s l) as [p ->]. set_solver. Qed.

Lemma succ_elem s l : succ_of s l ∈ s :: l.
Proof. destruct l; set_solver. Qed.

Lemma ring_cut h s l1 l2 :
  ring h s (l1 ++ l2) -> path h (s :: l1) /\ joined h (pred_of s l1) (succ_of s l2) /\ path h (l2 ++ [s]).
Proof.
  intros [_ Hp]. destruct (pred_split s l1) as [p1 E1], (succ_split s l2) as [p2 E2].
  assert (E : s :: (l1 ++ l2) ++ [s] = p1 ++ pred_of s l1 :: l2 ++ [s]).
  { rewrite <- app_assoc, app_comm_cons, E1, <- app_assoc. done. }
  rewrite E in Hp. apply path_app in Hp as [H1 H2]. rewrite <- E1 in H1. split; [done|].
  rewrite E2 in *. exact H2.
Qed.

Lemma ring_ext h h' s l :
  ring h s l -> (forall y, y ∈ s :: l -> nxt h' y = nxt h y /\ prv h' y = prv h y) -> ring h' s l.
Proof.
  intros [Hnd Hp] He. split; [done|]. apply (path_frame h); [done| |].
  - intros y Hy. rewrite app_comm_cons, removelast_snoc in Hy. by apply He.
  - intros y Hy. apply He. set_solver.
Qed.

Lemma ring_link h h' s l1 x l2 :
  ring h s (l1 ++ l2) -> x ∉ s :: l1 ++ l2 ->
  joined h' (pred_of s l1) x -> joined h' x (succ_of s l2) ->
  (forall y, y <> pred_of s l1 -> y <> x -> nxt h' y = nxt h y) ->
  (forall y, y <> succ_of s l2 -> y <> x -> prv h' y = prv h y) ->
  ring h' s (l1 ++ x :: l2).
Proof.
  intros Hr Hx Ja Jb Hn Hp. destruct (ring_cut _ _ _ _ Hr) as (H1 & _ & H2).
  destruct (pred_split s l1) as [p1 E1], (succ_split s l2) as [p2 E2].
  apply (ring_splice h h' s l1 [x] l2 p1 (pred_of s l1) (succ_of s l2) p2); try done.
  - destruct Hr as [Hnd _]. rewrite NoDup_cons, NoDup_app in Hnd |- *. simpl. rewrite NoDup_cons. set_solver.
  - intros y ? Hy. apply Hn; [done|]. set_solver.
  - intros y ? Hy. apply Hp; [done|]. set_solver.
Qed.

Lemma ring_unlink h h' s l1 x l2 :
  ring h s (l1 ++ x :: l2) -> joined h' (pred_of s l1) (succ_of s l2) ->
  (forall y, y <> pred_of s l1 -> y <> x -> nxt h' y = nxt h y) ->
  (forall y, y <> succ_of s l2 -> y <> x -> prv h' y = prv h y) ->
  ring h' s (l1 ++ l2).
Proof.
  intros Hr Ja Hn Hp. destruct (ring_cut _ _ _ _ Hr) as (H1 & _ & _).
  destruct (ring_cut h s (l1 ++ [x]) l2) as (_ & _ & H2); [by rewrite <- app_assoc|].
  assert (Hvx : valid h x) by (eapply ring_valid; [done|]; set_solver).
  destruct (pred_split s l1) as [p1 E1], (succ_split s l2) as [p2 E2].
  destruct Hr as [Hnd _]. rewrite NoDup_cons, NoDup_app, NoDup_cons in Hnd. destruct Hnd as (Hs & Hnd1 & Hd & Hx & Hnd2).
  pose proof (pred_elem s l1) as Hpe. pose proof (succ_elem s l2) as Hse.
  assert (Hxs : x <> s /\ (x ∉ l1) /\ (x ∉ l2)) by set_solver. destruct Hxs as (Hxs & Hx1 & Hx2).
  destruct Hvx as [c Hc]. set (h1 := (<[x := c]> h') : heap).
  assert (Hne : forall y, y <> x -> nxt h1 y = nxt h' y /\ prv h1 y = prv h' y)
    by (intros; unfold nxt, prv, h1; by rewrite lookup_insert_ne).
  assert (Heq : nxt h1 x = nxt h x /\ prv h1 x = prv h x)
    by (unfold nxt, prv, h1; by rewrite lookup_insert_eq, Hc).
  apply (ring_ext h1); [|intros y Hy; destruct (Hne y) as [-> ->]; [set_solver|done]].
  apply (ring_splice h _ s l1 [] l2 p1 (pred_of s l1) (succ_of s l2) p2); try done.
  - simpl. rewrite NoDup_cons, NoDup_app. set_solver.
  - destruct Ja as [Ja Jb]. split; [split|done]; by destruct (Hne (pred_of s l1)), (Hne (succ_of s l2)); [set_solver..|congruence].
  - intros y Hy _. destruct (decide (y = x)) as [->|]; [by apply Heq|]. destruct (Hne y) as [-> _]; auto.
  - intros y Hy _. destruct (decide (y = x)) as [->|]; [by apply Heq|]. destruct (Hne y) as [_ ->]; auto.
Qed.
End rings.

(** ** Stores *)

Section stores.
Implicit Types (st : store) (a x y : addr) (l : list addr) (q : QuickList).

Definition tagged st a : Prop := is_Some (tags st !! a).
Definition live st a : Prop := valid (chains st) a /\ tagged st a.

Lemma write_next_ok st a v : valid (chains st) a -> write_next (Some a) v st = Ok (MkStore (upd_next a v (chains st)) (tags st)).
Proof. intros. unfold write_next. by rewrite set_next_ok. Qed.

Lemma write_prev_ok st a v : valid (chains st) a -> write_prev (Some a) v st = Ok (MkStore (upd_prev a v (chains st)) (tags st)).
Proof. intros. unfold write_prev. by rewrite set_prev_ok. Qed.

Lemma read_next_ok st a : valid (chains st) a -> read_next (Some a) st = Ok (nxt (chains st) a).
Proof. apply get_next_ok. Qed.

Lemma read_prev_ok st a : valid (chains st) a -> read_prev (Some a) st = Ok (prv (chains st) a).
Proof. apply get_prev_ok. Qed.

Lemma write_tag_ok st a o m : tagged st a -> write_tag a o m st = Ok (MkStore (chains st) (<[a := MkTag o m]> (tags st))).
Proof. intros [t Ht]. unfold write_tag, read_tag. by rewrite Ht. Qed.

(** Nothing outside [l] changed, and nothing was made or freed. *)
Definition spares l st st' : Prop :=
  only l (chains st) (chains st') /\ (forall y, y ∉ l -> tags st' !! y = tags st !! y) /\
  (forall y, tagged st' y <-> tagged st y).

Lemma spares_refl l st : spares l st st.
Proof. done. Qed.

Lemma spares_trans l l' st1 st2 st3 : spares l st1 st2 -> spares l' st2 st3 -> l' ⊆ l -> spares l st1 st3.
Proof.
  intros ([Ho1 Hv1] & Ht1 & Hd1) ([Ho2 Hv2] & Ht2 & Hd2) Hsub. split_and!; [split| |].
  - intros y Hy. rewrite Ho2, Ho1; set_solver.
  - intros y. by rewrite Hv2, Hv1.
  - intros y Hy. rewrite Ht2, Ht1; set_solver.
  - intros y. by rewrite Hd2, Hd1.
Qed.

Lemma spares_live l st st' y : spares l st st' -> live st' y <-> live st y.
Proof. intros ([_ Hv] & _ & Hd). unfold live. by rewrite Hv, Hd. Qed.

Lemma spares_mono l l' st st' : spares l st st' -> l ⊆ l' -> spares l' st st'.
Proof. intros ([Ho Hv] & Ht & Hd) Hs. split_and!; [split| |]; intros; auto. Qed.

Lemma spares_tag l st h x o m :
  only l (chains st) h -> x ∈ l -> tagged st x -> spares l st (MkStore h (<[x := MkTag o m]> (tags st))).
Proof.
  intros Ho Hx Ht. split_and!; [done| |]; cbn [tags].
  - intros y Hy. rewrite lookup_insert_ne; [done|set_solver].
  - intros y. unfold tagged. cbn [tags]. destruct (decide (y = x)) as [->|].
    + rewrite lookup_insert_eq. split; [done|]. by eexists.
    + by rewrite lookup_insert_ne.
Qed.

Lemma spares_chains l st h : only l (chains st) h -> spares l st (MkStore h (tags st)).
Proof. done. Qed.

(** ** The invariant of a quick list *)

Record is_quick st q l : Prop := {
  quick_ring : ring (chains st) (head_ q) l;
  quick_tail : tail_ q = Some (pred_of (head_ q) l);
  quick_size : total_size_ q = uwrap 64 (zlen l);
  quick_tagged : forall y, y ∈ head_ q :: l -> tagged st y;
  quick_owner : forall y t, tags st !! y = Some t -> owner t = Some (this q) <-> y ∈ head_ q :: l
}.

Definition same_list q q' : Prop := this q' = this q /\ head_ q' = head_ q.

Lemma quick_live st q l y : is_quick st q l -> y ∈ head_ q :: l -> live st y.
Proof. intros Hq Hy. split; [eapply ring_valid; [apply Hq|done]|by apply Hq]. Qed.

Lemma quick_nodup st q l : is_quick st q l -> NoDup (head_ q :: l).
Proof. intros Hq. apply Hq. Qed.

(** One element changed its owner. *)
Lemma quick_retag st st' q q' l l' x o m :
  is_quick st q l -> same_list q q' -> tagged st x -> tags st' = <[x := MkTag o m]> (tags st) ->
  ring (chains st') (head_ q) l' -> tail_ q' = Some (pred_of (head_ q) l') -> total_size_ q' = uwrap 64 (zlen l') ->
  (forall y, y <> x -> y ∈ head_ q :: l' <-> y ∈ head_ q :: l) ->
  (o = Some (this q) <-> x ∈ head_ q :: l') -> is_quick st' q' l'.
Proof.
  intros Hq [Et Eh] Hx Htags Hr Htl Hsz Hin Ho. split; rewrite ?Et, ?Eh; try done.
  - intros y Hy. unfold tagged. rewrite Htags. destruct (decide (y = x)) as [->|].
    + rewrite lookup_insert_eq. by eexists.
    + rewrite lookup_insert_ne by done. apply (quick_tagged _ _ _ Hq). by apply Hin.
  - intros y t. rewrite Htags. destruct (decide (y = x)) as [->|].
    + rewrite lookup_insert_eq. intros [= <-]. done.
    + rewrite lookup_insert_ne by done. intros Hy. rewrite (quick_owner _ _ _ Hq _ _ Hy). by rewrite Hin.
Qed.
End stores.

#[export] Hint Resolve spares_refl : ge_db.

Ltac tag_ok := first [assumption | unfold tagged; cbn [tags]; assumption].

(** Step through reads and writes of a store; [rw] rewrites the values read. *)
Ltac list_run rw :=
  repeat (first
    [ rewrite read_next_ok by (cbn [chains]; heap_valid) | rewrite read_prev_ok by (cbn [chains]; heap_valid)
    | rewrite write_next_ok by (cbn [chains]; heap_valid) | rewrite write_prev_ok by (cbn [chains]; heap_valid)
    | rewrite write_tag_ok by tag_ok ];
    cbn [chains tags]; heap_simp; rw; cbn [mbind outcome_bind]).

Ltac link_done := try first [done | split; by heap_simp | intros; by heap_simp | only_tac].

Section operations.
Implicit Types (st : store) (a x y : addr) (l : list addr) (q : QuickList).

(** The post-condition of the operations that link an element [x]. *)
Definition linked st q x m l' '((q', st') : QuickList * store) : Prop :=
  same_list q q' /\ is_quick st' q' l' /\ spares (head_ q :: l') st st' /\
  tags st' !! x = Some (MkTag (Some (this q)) m).

Lemma pred_snoc s l x : pred_of s (l ++ [x]) = x.
Proof. unfold pred_of. by rewrite last_snoc. Qed.

Lemma pred_cons s l x : pred_of s (x :: l) = pred_of x l.
Proof. unfold pred_of. rewrite last_cons. by destruct (last l). Qed.

Lemma pred_app s l1 x l2 : pred_of s (l1 ++ x :: l2) = pred_of x l2.
Proof. unfold pred_of. rewrite last_app_cons, last_cons. by destruct (last l2). Qed.

Lemma linked_intro st q l1 x l2 m h' q' :
  is_quick st q (l1 ++ l2) -> x ∉ head_ q :: l1 ++ l2 -> tagged st x -> same_list q q' ->
  total_size_ q' = uwrap 64 (total_size_ q + 1) -> tail_ q' = Some (pred_of (head_ q) (l1 ++ x :: l2)) ->
  joined h' (pred_of (head_ q) l1) x -> joined h' x (succ_of (head_ q) l2) ->
  (forall y, y <> pred_of (head_ q) l1 -> y <> x -> nxt h' y = nxt (chains st) y) ->
  (forall y, y <> succ_of (head_ q) l2 -> y <> x -> prv h' y = prv (chains st) y) ->
  only (head_ q :: l1 ++ x :: l2) (chains st) h' ->
  linked st q x m (l1 ++ x :: l2) (q', MkStore h' (<[x := MkTag (Some (this q)) m]> (tags st))).
Proof.
  intros Hq Hx Htx Hs Hsz Htl Ja Jb Hn Hp Ho. split_and!; [done| |eapply spares_tag; [done|set_solver|done]|by apply lookup_insert_eq].
  eapply (quick_retag st _ q _ (l1 ++ l2)); try done; [..|set_solver].
  - by apply (ring_link (chains st)); [apply Hq|..].
  - rewrite Hsz, (quick_size _ _ _ Hq), uwrap_add. f_equal. rewrite !zlen_app. unfold zlen. simpl. lia.
  - set_solver.
Qed.

Lemma quick_push_back_ok st q l x m :
  is_quick st q l -> x ∉ head_ q :: l -> live st x ->
  wp (Quick.push_back x m q st) (linked st q x m (l ++ [x])).
Proof.
  intros Hq Hx [Hvx Htx]. pose proof (pred_elem (head_ q) l) as Hpe.
  destruct (quick_live st q l (head_ q) Hq) as [Hvs _]; [set_solver|].
  destruct (quick_live st q l (pred_of (head_ q) l) Hq) as [Hva _]; [done|].
  assert (x <> head_ q /\ x <> pred_of (head_ q) l) as [Hxs Hxa] by (split; intros ->; set_solver).
  unfold Quick.push_back. rewrite (quick_tail _ _ _ Hq). list_run idtac. apply wp_ret.
  apply linked_intro; rewrite ?app_nil_r, ?pred_snoc; try done.
  - split; by heap_simp.
  - split; by heap_simp.
  - intros. by heap_simp.
  - unfold succ_of. simpl. intros. by heap_simp.
  - only_tac.
Qed.

(** The first element, or the head. *)
Lemma quick_begin st q l : is_quick st q l -> Quick.begin_ q st = Ok (Some (succ_of (head_ q) l)).
Proof.
  intros Hq. unfold Quick.begin_. destruct (quick_live st q l (head_ q) Hq) as [Hv _]; [set_solver|].
  rewrite read_next_ok by done. destruct (ring_cut _ _ [] l (quick_ring _ _ _ Hq)) as (_ & [Hn _] & _).
  unfold pred_of in Hn. cbn [last default from_option] in Hn. by rewrite Hn.
Qed.

Lemma quick_ends st q l1 l2 :
  is_quick st q (l1 ++ l2) -> joined (chains st) (pred_of (head_ q) l1) (succ_of (head_ q) l2) /\
    live st (pred_of (head_ q) l1) /\ live st (succ_of (head_ q) l2) /\ live st (head_ q).
Proof.
  intros Hq. pose proof (pred_elem (head_ q) l1). pose proof (succ_elem (head_ q) l2).
  split_and!; [apply (ring_cut _ _ _ _ (quick_ring _ _ _ Hq))|eapply quick_live; [done|]; set_solver..].
Qed.

(** [insert] at any place: in front, at the end, in between. *)
Lemma insert_ok st q l1 l2 x m :
  is_quick st q (l1 ++ l2) -> x ∉ head_ q :: l1 ++ l2 -> live st x ->
  wp (Quick.insert (Some (succ_of (head_ q) l2)) x m q st) (linked st q x m (l1 ++ x :: l2)).
Proof.
  intros Hq Hx [Hvx Htx]. destruct (quick_ends _ _ _ _ Hq) as ([Hna Hpb] & [Hva _] & [Hvb _] & [Hvs _]).
  pose proof (quick_nodup _ _ _ Hq) as [Hs Hnd]%NoDup_cons. pose proof (quick_tail _ _ _ Hq) as Htl.
  pose proof (pred_elem (head_ q) l1) as Hpe. pose proof (succ_elem (head_ q) l2) as Hse.
  assert (x <> head_ q /\ x <> pred_of (head_ q) l1 /\ x <> succ_of (head_ q) l2) as (Hxs & Hxa & Hxb)
    by (split_and!; intros ->; set_solver).
  unfold Quick.insert. rewrite (quick_begin _ _ _ Hq). cbn [mbind outcome_bind]. unfold Quick.end_.
  destruct l1 as [|z l1]; [rewrite bool_decide_eq_true_2 by done|rewrite bool_decide_eq_false_2; [destruct l2 as [|z' l2]|]].
  - change (pred_of (head_ q) []) with (head_ q) in *. cbn [app] in *. list_run ltac:(rewrite ?Hna). apply wp_ret.
    set (q' := if bool_decide _ then _ else _).
    assert (same_list q q' /\ total_size_ q' = total_size_ q /\ tail_ q' = Some (pred_of x l2)) as ([Et Eh] & Esz & Etl).
    { unfold q'. destruct l2 as [|z l2]; [by rewrite bool_decide_eq_true_2|].
      rewrite bool_decide_eq_false_2; [by rewrite Htl, !pred_cons|]. rewrite Htl. rewrite pred_cons. intros [= E].
      apply Hs. rewrite <- E. apply pred_elem. }
    rewrite Et. apply (linked_intro st q [] x l2); cbn [app]; change (pred_of (head_ q) []) with (head_ q);
      rewrite ?pred_cons; link_done. cbn. by rewrite Esz.
  - rewrite bool_decide_eq_true_2 by done. rewrite app_nil_r in *. change (succ_of (head_ q) []) with (head_ q) in *. rewrite Htl.
    list_run ltac:(rewrite ?Hna). apply wp_ret. cbn [set_tail this].
    apply (linked_intro st q (z :: l1) x []); rewrite ?app_nil_r, ?pred_snoc; change (succ_of (head_ q) []) with (head_ q); link_done.
  - change (succ_of (head_ q) (z' :: l2)) with z' in *. rewrite bool_decide_eq_false_2 by set_solver.
    list_run ltac:(rewrite ?Hpb). apply wp_ret.
    apply (linked_intro st q (z :: l1) x (z' :: l2)); change (succ_of (head_ q) (z' :: l2)) with z'; link_done.
    cbn [tail_ add_size]. by rewrite Htl, !pred_app, pred_cons.
  - simpl. intros [= E]. apply NoDup_cons in Hnd as [Hz _]. destruct l2 as [|z' l2]; simpl in E; set_solver.
Qed.

Lemma quick_push_front_ok st q l x m :
  is_quick st q l -> x ∉ head_ q :: l -> live st x -> wp (Quick.push_front x m q st) (linked st q x m (x :: l)).
Proof.
  intros Hq Hx Hl. unfold Quick.push_front. rewrite (quick_begin _ _ _ Hq). by apply (insert_ok st q [] l x m).
Qed.

(** The last element is the one in front of the head. *)
Lemma pred_self x l : x ∉ l -> pred_of x l = x <-> l = [].
Proof.
  intros Hx. split; [|by intros ->]. destruct l as [|y l]; [done|]. rewrite pred_cons. intros E.
  exfalso. apply Hx. rewrite <- E at 1. apply pred_elem.
Qed.

Lemma unlinked_tail s l1 x l2 :
  x ∉ l2 -> (if bool_decide (Some (pred_of s (l1 ++ x :: l2)) = Some x) then Some (pred_of s l1) else Some (pred_of s (l1 ++ x :: l2)))
    = Some (pred_of s (l1 ++ l2)).
Proof.
  intros Hx. rewrite pred_app. case_bool_decide as E.
  - injection E as E. apply pred_self in E as ->; [|done]. by rewrite app_nil_r.
  - destruct l2 as [|y l2]; [done|]. by rewrite pred_app, pred_cons.
Qed.

Definition unlinked st q x l l' '((q', st') : QuickList * store) : Prop :=
  same_list q q' /\ is_quick st' q' l' /\ spares (head_ q :: l) st st' /\
  tags st' !! x = Some (MkTag None kFreeMode) /\ chains st' !! x = Some LinkNode.fresh.

(** Where an element sits. *)
Lemma quick_at st q l1 x l2 :
  is_quick st q (l1 ++ x :: l2) ->
  joined (chains st) (pred_of (head_ q) l1) x /\ joined (chains st) x (succ_of (head_ q) l2) /\
  live st x /\ live st (pred_of (head_ q) l1) /\ live st (succ_of (head_ q) l2) /\
  (x <> head_ q) /\ (x ∉ l1 ++ l2) /\ x <> pred_of (head_ q) l1 /\ x <> succ_of (head_ q) l2.
Proof.
  intros Hq. destruct (quick_ends _ _ _ _ Hq) as (J1 & La & Lx & _).
  assert (Hq' : is_quick st q ((l1 ++ [x]) ++ l2)) by (by rewrite <- app_assoc).
  destruct (quick_ends _ _ _ _ Hq') as (J2 & _ & Lb & _). rewrite pred_snoc in J2.
  pose proof (quick_nodup _ _ _ Hq) as Hnd. rewrite NoDup_cons, NoDup_app, NoDup_cons in Hnd.
  pose proof (pred_elem (head_ q) l1). pose proof (succ_elem (head_ q) l2).
  assert (x ∉ head_ q :: l1 ++ l2) by set_solver.
  split_and!; try done; [set_solver|set_solver|intros E; rewrite <- E in *; set_solver..].
Qed.

Lemma erase_ok st q l1 x l2 :
  is_quick st q (l1 ++ x :: l2) ->
  wp (Quick.erase x q st) (fun '(r, s) => r = 0 /\ unlinked st q x (l1 ++ x :: l2) (l1 ++ l2) s).
Proof.
  intros Hq. destruct (quick_at _ _ _ _ _ Hq) as ([Hna Hpx] & [Hnx Hpb] & [Hvx Htx] & [Hva _] & [Hvb _] & Hxs & Hxl & Hxa & Hxb).
  destruct Htx as [t Ht]. assert (Htx : tagged st x) by (by eexists).
  unfold Quick.erase, read_tag. rewrite Ht. cbn [mbind outcome_bind].
  rewrite bool_decide_eq_false_2; [|intros E; apply E, (quick_owner _ _ _ Hq _ _ Ht); set_solver].
  rewrite read_prev_ok by done. rewrite Hpx. cbn [mbind outcome_bind].
  rewrite bool_decide_eq_false_2 by done. list_run ltac:(rewrite ?Hnx).
  apply wp_ret. split; [done|]. set (q' := if bool_decide _ then _ else _).
  assert (same_list q q' /\ total_size_ q' = total_size_ q /\ tail_ q' = Some (pred_of (head_ q) (l1 ++ l2))) as (Hs & Esz & Etl).
  { unfold q'. rewrite (quick_tail _ _ _ Hq). rewrite <- (unlinked_tail (head_ q) l1 x l2) by set_solver.
    case_bool_decide; split_and!; try done. apply Hq. }
  split_and!; [apply Hs| | | |].
  - eapply (quick_retag st _ q _ (l1 ++ x :: l2)); try done.
    + cbn [chains]. apply (ring_unlink (chains st) _ _ l1 x l2); [apply Hq|split; by heap_simp|intros; by heap_simp..].
    + cbn. rewrite Esz, (quick_size _ _ _ Hq), uwrap_add. f_equal. rewrite !zlen_app. unfold zlen. simpl. lia.
    + set_solver.
    + split; [done|]. set_solver.
  - eapply spares_tag; [|set_solver|done]. pose proof (pred_elem (head_ q) l1). pose proof (succ_elem (head_ q) l2). only_tac.
  - by apply lookup_insert_eq.
  - destruct Hvx as [c Hc]. unfold upd_next, upd_prev. cbn [chains].
    by rewrite !lookup_alter_ne, !lookup_alter_eq, Hc by done.
Qed.

(** An element that the list does not own is left alone. *)
Lemma erase_other st q l x :
  is_quick st q l -> tagged st x -> x ∉ head_ q :: l -> Quick.erase x q st = Ok (-1, (q, st)).
Proof.
  intros Hq [t Ht] Hx. unfold Quick.erase, read_tag. rewrite Ht. cbn [mbind outcome_bind].
  rewrite bool_decide_eq_true_2; [done|]. by rewrite (quick_owner _ _ _ Hq _ _ Ht).
Qed.

Lemma erase_at_ok st q l1 x l2 :
  is_quick st q (l1 ++ x :: l2) ->
  wp (Quick.erase_at (Some x) q st) (fun '(p, s) => p = Some (succ_of (head_ q) l2) /\ unlinked st q x (l1 ++ x :: l2) (l1 ++ l2) s).
Proof.
  intros Hq. destruct (quick_at _ _ _ _ _ Hq) as (_ & [Hnx _] & [Hvx _] & _). unfold Quick.erase_at.
  rewrite read_next_ok by done. rewrite Hnx. cbn [mbind outcome_bind].
  apply wp_bind. eapply wp_mono; [by apply erase_ok|]. by intros [r s] [_ Hs].
Qed.

Lemma clear_loop_ok fuel st q l :
  is_quick st q l -> (length l < fuel)%nat ->
  wp (Quick.clear_loop fuel (Some (succ_of (head_ q) l)) q st) (fun '(q', st') =>
    same_list q q' /\ is_quick st' q' [] /\ spares (head_ q :: l) st st').
Proof.
  revert st q l. induction fuel as [|fuel IH]; intros st q l Hq Hf; [lia|]. cbn [Quick.clear_loop].
  unfold Quick.end_. destruct l as [|x l].
  - rewrite bool_decide_eq_true_2 by done. by apply wp_ret.
  - change (succ_of (head_ q) (x :: l)) with x.
    destruct (quick_at _ _ [] _ _ Hq) as (_ & _ & _ & _ & _ & Hx & _). rewrite bool_decide_eq_false_2 by congruence.
    apply wp_bind. eapply wp_mono; [by apply (erase_at_ok st q [] x l)|].
    intros [p [q1 st1]] (-> & [Et Eh] & Hq1 & Hs1 & _). rewrite <- Eh. simpl in Hf.
    eapply wp_mono; [apply (IH st1 q1 l); [done|lia]|]. intros [q2 st2] ([Et2 Eh2] & Hq2 & Hs2).
    split; [split; congruence|]. split; [done|]. rewrite Eh in *. eapply spares_trans; [exact Hs1|exact Hs2|]. set_solver.
Qed.

(** The fuel of the loops is enough. *)
Lemma quick_fuel st q l : is_quick st q l -> (length l < S (base.size (chains st)))%nat.
Proof.
  intros Hq. apply Nat.lt_succ_r, NoDup_length_size; [by apply quick_nodup, NoDup_cons in Hq as [_ ?]|].
  intros y Hy. eapply quick_live; [done|]. set_solver.
Qed.

Lemma quick_clear_ok st q l :
  is_quick st q l ->
  wp (Quick.clear q st) (fun '(q', st') => same_list q q' /\ is_quick st' q' [] /\ spares (head_ q :: l) st st').
Proof.
  intros Hq. unfold Quick.clear. rewrite (quick_begin _ _ _ Hq). cbn [mbind outcome_bind].
  apply clear_loop_ok; [done|by eapply quick_fuel].
Qed.
End operations.
