(* ===== verification/GraphListMove.v ===== *)
(** * GraphListMove: moving an element, reading and swapping quick lists *)

From S2P Require Import Prelude MemLink GraphList GraphListSound.

#[local] Open Scope Z_scope.
#[local] Set Warnings "-clear-no-such-hyp".

Section moving.
Implicit Types (st : store) (h : heap) (s a x y : addr) (l : list addr) (q : QuickList).

Lemma quick_reordered st q h l l' t :
  is_quick st q l -> ring h (head_ q) l' -> l' ≡ₚ l -> t = Some (pred_of (head_ q) l') ->
  is_quick (MkStore h (tags st)) (set_tail t q) l'.
Proof.
  intros Hq Hr Hp ->. split; cbn [chains tags head_ tail_ total_size_ set_tail this]; try done.
  - rewrite (quick_size _ _ _ Hq). unfold zlen. by rewrite Hp.
  - intros y Hy. apply (quick_tagged _ _ _ Hq). by rewrite <- Hp.
  - intros y u Hu. rewrite (quick_owner _ _ _ Hq _ _ Hu). by rewrite Hp.
Qed.

(** The place where [move] puts an element. *)
Definition moved (before : bool) k1 x y k2 : list addr := if before then k1 ++ x :: y :: k2 else k1 ++ y :: x :: k2.

Lemma moved_permuted before k1 x y k2 : moved before k1 x y k2 ≡ₚ x :: k1 ++ y :: k2.
Proof. destruct before; simpl; solve_Permutation. Qed.

Lemma set_tail_tail q : set_tail (tail_ q) q = q.
Proof. by destruct q. Qed.

Lemma set_tail_if (b : bool) p q : (if b then set_tail p q else q) = set_tail (if b then p else tail_ q) q.
Proof. destruct b; [done|]. by rewrite set_tail_tail. Qed.

Lemma place_ok h t s k1 x y k2 before q :
  ring h s (k1 ++ y :: k2) -> x ∉ s :: k1 ++ y :: k2 -> valid h x ->
  wp (Quick.place x y before (set_tail (Some (pred_of s (k1 ++ y :: k2))) q) (MkStore h t)) (fun '(q', st') =>
    q' = set_tail (Some (pred_of s (moved before k1 x y k2))) q /\
    exists h', st' = MkStore h' t /\ ring h' s (moved before k1 x y k2) /\ only (s :: x :: k1 ++ y :: k2) h h').
Proof.
  intros Hr Hx Hvx. assert (Hv : forall z, z ∈ s :: k1 ++ y :: k2 -> valid h z) by (intros; by eapply ring_valid).
  assert (Hvy : valid h y) by (apply Hv; set_solver). assert (Hxy : x <> y) by set_solver. unfold Quick.place. destruct before.
  - destruct (ring_cut h s k1 (y :: k2)) as (_ & [Hn Hp] & _); [done|]. change (succ_of s (y :: k2)) with y in *.
    pose proof (pred_elem s k1) as Hpe. assert (Hva : valid h (pred_of s k1)) by (apply Hv; set_solver).
    assert (Hxa : x <> pred_of s k1) by (intros E; rewrite <- E in *; set_solver).
    list_run ltac:(rewrite ?Hp). apply wp_ret. simpl. split; [by rewrite !pred_app, pred_cons|].
    eexists. split_and!; [done| |only_tac].
    apply (ring_link h _ s k1 x (y :: k2)); change (succ_of s (y :: k2)) with y; link_done.
  - destruct (ring_cut h s (k1 ++ [y]) k2) as (_ & [Hn Hp] & _); [by rewrite <- app_assoc|]. rewrite pred_snoc in *.
    pose proof (succ_elem s k2) as Hse. assert (Hvb : valid h (succ_of s k2)) by (apply Hv; set_solver).
    assert (Hxb : x <> succ_of s k2) by (intros E; rewrite <- E in *; set_solver).
    list_run ltac:(rewrite ?Hn). apply wp_ret. simpl. split.
    { rewrite set_tail_if. cbn [tail_ set_tail this head_ total_size_]. unfold set_tail. f_equal. rewrite !pred_app, pred_cons.
      destruct Hr as [Hnd _]. rewrite NoDup_cons, NoDup_app, NoDup_cons in Hnd.
      destruct (decide (k2 = [])) as [->|Hk]; [by rewrite bool_decide_eq_true_2|].
      rewrite bool_decide_eq_false_2; [destruct k2; [done|by rewrite !pred_cons]|]. intros [= E]. apply Hk. apply pred_self in E; [done|tauto]. }
    eexists. split_and!; [done| |only_tac]. replace (k1 ++ y :: x :: k2) with ((k1 ++ [y]) ++ x :: k2) by (by rewrite <- app_assoc).
    apply (ring_link h _ s (k1 ++ [y]) x k2); rewrite ?pred_snoc, <- ?app_assoc; link_done.
Qed.

Lemma move_ok st q l1 x l2 k1 y k2 before :
  is_quick st q (l1 ++ x :: l2) -> l1 ++ l2 = k1 ++ y :: k2 ->
  wp (Quick.move x y before q st) (fun '(q', st') =>
    same_list q q' /\ is_quick st' q' (moved before k1 x y k2) /\ spares (head_ q :: l1 ++ x :: l2) st st' /\ tags st' = tags st).
Proof.
  intros Hq Ek. set (s := head_ q).
  destruct (quick_at _ _ _ _ _ Hq) as ([Hna Hpx] & [Hnx Hpb] & [Hvx Htx] & [Hva _] & [Hvb _] & Hxs & Hxl & Hxa & Hxb).
  unfold Quick.move. list_run ltac:(rewrite ?Hnx, ?Hpx). fold s in Hpx, Hnx, Hna, Hpb, Hva, Hvb, Hxa, Hxb, Hxs |- *.
  set (h1 := upd_prev _ _ (upd_next _ _ (chains st))).
  assert (Hr1 : ring h1 s (k1 ++ y :: k2)).
  { rewrite <- Ek. apply (ring_unlink (chains st) _ _ l1 x l2); [apply Hq|split; unfold h1; by heap_simp|intros; unfold h1; by heap_simp..]. }
  assert (Ho1 : only (s :: l1 ++ x :: l2) (chains st) h1).
  { unfold h1. pose proof (pred_elem s l1). pose proof (succ_elem s l2). only_tac. }
  rewrite set_tail_if, (quick_tail _ _ _ Hq). fold s. rewrite (unlinked_tail s l1 x l2) by set_solver. rewrite Ek.
  assert (Hx1 : x ∉ s :: k1 ++ y :: k2) by (rewrite <- Ek; set_solver).
  assert (Hv1 : valid h1 x /\ valid h1 y) by (split; [by apply Ho1|eapply ring_valid; [done|]; set_solver]).
  clearbody h1. destruct Hv1 as [Hvx1 Hvy1].
  eapply wp_mono; [by apply (place_ok h1 (tags st) s)|]. intros [q' st'] (-> & h' & -> & Hr & Ho).
  split; [done|]. split_and!; [|split; [|done]|done].
  - apply (quick_reordered st q _ (l1 ++ x :: l2)); [done..| |done].
    rewrite moved_permuted, <- Ek. solve_Permutation.
  - destruct Ho1 as [Ho1 Hv1], Ho as [Ho Hv]. split; cbn [chains].
    + intros z Hz. rewrite Ho, Ho1; [done..|]. rewrite <- Ek. set_solver.
    + intros z. by rewrite Hv, Hv1.
Qed.
End moving.

(** ** Reading *)

Section reading.
Implicit Types (st : store) (x y : addr) (l : list addr) (q : QuickList).

(** A loop over the elements whose body leaves the chains alone. *)
Lemma walk_ok {S} fuel (body : addr -> S -> store -> outcome (S * store)) (I : list addr -> S -> store -> Prop) st0 q l1 l2 s st :
  is_quick st0 q (l1 ++ l2) -> (length l2 < fuel)%nat -> chains st = chains st0 -> I l1 s st ->
  (forall k1 a k2 s st, l1 ++ l2 = k1 ++ a :: k2 -> chains st = chains st0 -> I k1 s st ->
    wp (body a s st) (fun '(s', st') => chains st' = chains st0 /\ I (k1 ++ [a]) s' st')) ->
  wp (Quick.walk fuel (Some (succ_of (head_ q) l2)) (Quick.end_ q) body s st)
    (fun '(s', st') => chains st' = chains st0 /\ I (l1 ++ l2) s' st').
Proof.
  revert l1 l2 s st. induction fuel as [|fuel IH]; intros l1 l2 s st Hq Hf Hc HI Hb; [lia|]. cbn [Quick.walk].
  unfold Quick.end_. destruct l2 as [|x l2].
  - rewrite bool_decide_eq_true_2 by done. rewrite app_nil_r. by apply wp_ret.
  - change (succ_of (head_ q) (x :: l2)) with x. destruct (quick_at _ _ _ _ _ Hq) as (_ & [Hnx _] & [Hvx _] & _ & _ & Hxs & _).
    rewrite bool_decide_eq_false_2 by congruence. apply wp_bind.
    eapply wp_mono; [by apply (Hb l1 x l2)|]. intros [s1 st1] [Hc1 HI1]. rewrite read_next_ok by (by rewrite Hc1).
    rewrite Hc1, Hnx. cbn [mbind outcome_bind]. simpl in Hf.
    replace (l1 ++ x :: l2) with ((l1 ++ [x]) ++ l2) in * by (by rewrite <- app_assoc).
    apply IH; [done|lia|done..].
Qed.

Lemma for_each_ok {S} (body : addr -> S -> store -> outcome (S * store)) (I : list addr -> S -> store -> Prop) st0 q l s st :
  is_quick st0 q l -> chains st = chains st0 -> I [] s st ->
  (forall k1 a k2 s st, l = k1 ++ a :: k2 -> chains st = chains st0 -> I k1 s st ->
    wp (body a s st) (fun '(s', st') => chains st' = chains st0 /\ I (k1 ++ [a]) s' st')) ->
  wp (Quick.for_each q body s st) (fun '(s', st') => chains st' = chains st0 /\ I l s' st').
Proof.
  intros Hq Hc HI Hb. unfold Quick.for_each. pose proof (quick_begin _ _ _ Hq) as Hbg. unfold Quick.begin_, read_next in *.
  rewrite Hc, Hbg. cbn [mbind outcome_bind]. apply (walk_ok _ body I st0 q [] l); try done. by eapply quick_fuel.
Qed.

Lemma quick_collect_ok st q l : is_quick st q l -> Quick.CollectAllItemToVector q st = Ok l.
Proof.
  intros Hq. unfold Quick.CollectAllItemToVector.
  pose proof (for_each_ok (fun a l st => Ok (l ++ [a], st)) (fun k k' _ => k' = k) st q l [] st Hq) as Hw.
  destruct (proj1 (wp_Ok _ _) (Hw eq_refl eq_refl ltac:(by intros k1 a k2 ? st' _ ? ->; apply wp_ret))) as ([l' st'] & E & _ & ->).
  by rewrite E.
Qed.

Lemma quick_empty_ok st q l : is_quick st q l -> Quick.empty q st = Ok (bool_decide (l = [])).
Proof.
  intros Hq. pose proof (quick_begin _ _ _ Hq) as Hb. unfold Quick.empty, Quick.begin_ in *. rewrite Hb. cbn [mbind outcome_bind].
  f_equal. apply bool_decide_ext. destruct l as [|x l]; [done|]. destruct (quick_at _ _ [] _ _ Hq) as (_ & _ & _ & _ & _ & Hxs & _).
  split; [|done]. intros [= E]. by destruct Hxs.
Qed.
End reading.

(** ** Swapping *)

Section swapping.
Implicit Types (st : store) (x y : addr) (l D : list addr) (q p : QuickList).

(** The elements [D] are given the owner [o]. *)
Definition reowned (o : nat) D st st' : Prop :=
  chains st' = chains st /\
  forall y, tags st' !! y = if decide (y ∈ D) then (fun t => MkTag (Some o) (mode t)) <$> tags st !! y else tags st !! y.

Lemma set_owner_ok o a s st0 st D :
  reowned o D st0 st -> tagged st0 a ->
  wp (Quick.set_owner o a s st) (fun '(_, st') => reowned o (D ++ [a]) st0 st').
Proof.
  intros [Hc Ht] [t Hta]. unfold Quick.set_owner.
  assert (Hta' : exists t', tags st !! a = Some t' /\ mode t' = mode t).
  { rewrite Ht, Hta. destruct (decide (a ∈ D)); by eexists. }
  destruct Hta' as (t' & Ha & Em). unfold write_tag, read_tag. rewrite Ha. cbn [mbind outcome_bind].
  apply wp_ret. split; [done|]. cbn [tags]. intros y. destruct (decide (y = a)) as [->|Hne].
  - rewrite lookup_insert_eq, decide_True by set_solver. rewrite Hta. simpl. by rewrite Em.
  - rewrite lookup_insert_ne by done. rewrite Ht. destruct (decide (y ∈ D)); [rewrite decide_True by set_solver|rewrite decide_False by set_solver]; done.
Qed.

Lemma reowned_nil o st : reowned o [] st st.
Proof. split; [done|]. intros y. by rewrite decide_False by set_solver. Qed.

Lemma reown_all st0 st q l o :
  is_quick st0 q l -> chains st = chains st0 -> (forall y, y ∈ l -> tagged st y) ->
  wp (Quick.for_each q (Quick.set_owner o) tt st) (fun '(_, st') => reowned o l st st').
Proof.
  intros Hq Hc Ht. eapply wp_mono; [apply (for_each_ok _ (fun k _ st' => reowned o k st st') st0 q l)|]; try done.
  - intros k1 a k2 [] st1 El Hc1 HI. eapply wp_mono; [apply set_owner_ok; [exact HI|apply Ht; set_solver]|].
    intros [[] st2] Hr. split; [|done]. destruct Hr as [-> _]. done.
  - intros [[] st'] Hst. exact (proj2 Hst).
Qed.

Lemma reowned_tagged o D st st' y : reowned o D st st' -> tagged st' y <-> tagged st y.
Proof. intros [_ Ht]. unfold tagged. rewrite Ht. destruct (decide _); [by rewrite fmap_is_Some|done]. Qed.

(** Two lists own different elements. *)
Lemma quick_disjoint st q l p k y :
  is_quick st q l -> is_quick st p k -> this q <> this p -> y ∈ head_ q :: l -> y ∉ head_ p :: k.
Proof.
  intros Hq Hp Hne H1 H2. destruct (quick_tagged _ _ _ Hq y H1) as [t Ht].
  pose proof (proj2 (quick_owner _ _ _ Hq _ _ Ht) H1). pose proof (proj2 (quick_owner _ _ _ Hp _ _ Ht) H2). congruence.
Qed.

(** Both lists change hands. *)
Definition exchanged st q l p k st' : Prop :=
  chains st' = chains st /\
  forall y, tags st' !! y =
    if decide (y ∈ head_ p :: k) then (fun t => MkTag (Some (this q)) (mode t)) <$> tags st !! y
    else if decide (y ∈ head_ q :: l) then (fun t => MkTag (Some (this p)) (mode t)) <$> tags st !! y else tags st !! y.

Lemma reowned_exchanged st q l p k st1 st2 st3 st4 :
  (forall y, y ∈ head_ q :: l -> y ∉ head_ p :: k) ->
  reowned (this q) k st st1 -> reowned (this p) l st1 st2 -> reowned (this q) [head_ p] st2 st3 ->
  reowned (this p) [head_ q] st3 st4 -> exchanged st q l p k st4.
Proof.
  intros Hd [C1 T1] [C2 T2] [C3 T3] [C4 T4]. split; [congruence|]. intros y. rewrite T4, T3, T2, T1.
  specialize (Hd y). rewrite !elem_of_cons in Hd. clear -Hd.
  destruct (decide (y = head_ p)), (decide (y ∈ k)), (decide (y = head_ q)), (decide (y ∈ l)); try tauto.
  all: repeat match goal with
    | |- context [decide ?P] => first [rewrite (decide_True (P := P)) by (rewrite ?elem_of_cons, ?elem_of_nil; tauto)
                                     | rewrite (decide_False (P := P)) by (rewrite ?elem_of_cons, ?elem_of_nil; tauto)]
    end; try done.
  all: by rewrite <- option_fmap_compose.
Qed.

Lemma exchanged_quick st q l p k st' :
  is_quick st q l -> is_quick st p k -> this q <> this p -> exchanged st q l p k st' ->
  is_quick st' (MkQuick (this q) (head_ p) (tail_ p) (total_size_ p)) k /\
  is_quick st' (MkQuick (this p) (head_ q) (tail_ q) (total_size_ q)) l.
Proof.
  intros Hq Hp Hne [Hc Ht].
  assert (Hd : forall y, y ∈ head_ q :: l -> y ∉ head_ p :: k) by (intros y Hy; by apply (quick_disjoint st q l p k y)).
  assert (Htag : forall y, tagged st' y <-> tagged st y).
  { intros y. unfold tagged. rewrite Ht. repeat (destruct (decide _)); by rewrite ?fmap_is_Some. }
  split; split; cbn [this head_ tail_ total_size_]; rewrite ?Hc; try apply Hp; try apply Hq;
    try (intros y Hy; apply Htag; first [by apply Hp | by apply Hq]); intros y t; rewrite Ht.
  all: destruct (decide (y ∈ head_ p :: k)) as [Hy|Hy], (decide (y ∈ head_ q :: l)) as [Hy'|Hy']; try (by destruct (Hd y)).
  all: try (intros (u & Hu & ->)%fmap_Some; cbn [owner]; split; [|done]; congruence).
  all: try (intros (u & Hu & ->)%fmap_Some; cbn [owner]; split; [congruence|tauto]).
  all: intros Hu; first [rewrite (quick_owner _ _ _ Hq _ _ Hu) | rewrite (quick_owner _ _ _ Hp _ _ Hu)]; tauto.
Qed.

Lemma exchanged_spares st q l p k st' : exchanged st q l p k st' -> spares (head_ q :: l ++ head_ p :: k) st st'.
Proof.
  intros [Hc Ht]. split_and!; [rewrite Hc; apply only_refl| |].
  - intros y Hy. rewrite Ht, !decide_False by set_solver. done.
  - intros y. unfold tagged. rewrite Ht. repeat (destruct (decide _)); by rewrite ?fmap_is_Some.
Qed.

Lemma quick_swap_ok st q l p k :
  is_quick st q l -> is_quick st p k -> this q <> this p ->
  wp (Quick.swap q p st) (fun '(q', p', st') =>
    this q' = this q /\ this p' = this p /\ is_quick st' q' k /\ is_quick st' p' l /\ spares (head_ q :: l ++ head_ p :: k) st st').
Proof.
  intros Hq Hp Hne. unfold Quick.swap.
  assert (Hlq : forall y, y ∈ head_ q :: l -> tagged st y) by apply Hq.
  assert (Hlp : forall y, y ∈ head_ p :: k -> tagged st y) by apply Hp.
  apply wp_bind. eapply wp_mono; [apply (reown_all st st p k (this q)); [done..|set_solver]|]. intros [[] st1] H1.
  assert (Ht1 := fun y => reowned_tagged _ _ _ _ y H1).
  apply wp_bind. eapply wp_mono; [apply (reown_all st st1 q l (this p)); [done|apply H1|]; intros; apply Ht1; set_solver|].
  intros [[] st2] H2. assert (Ht2 := fun y => reowned_tagged _ _ _ _ y H2). cbn [head_].
  apply wp_bind. eapply wp_mono; [apply set_owner_ok; [apply reowned_nil|]; apply Ht2, Ht1; set_solver|].
  intros [[] st3] H3. assert (Ht3 := fun y => reowned_tagged _ _ _ _ y H3).
  apply wp_bind. eapply wp_mono; [apply set_owner_ok; [apply reowned_nil|]; apply Ht3, Ht2, Ht1; set_solver|].
  intros [[] st4] H4. apply wp_ret. split; [done|]. split; [done|].
  assert (He : exchanged st q l p k st4).
  { eapply reowned_exchanged; try done. intros y Hy. by apply (quick_disjoint st q l p k y). }
  destruct (exchanged_quick _ _ _ _ _ _ Hq Hp Hne He). split_and!; [done..|]. by apply exchanged_spares.
Qed.
End swapping.
