(* ===== verification/GraphListSort.v ===== *)
(** * GraphListSort: sorting a quick list

    The merge sort over 64 bins is the stable insertion sort, for every
    comparison that is a strict weak order. *)

From S2P Require Import Prelude MemLink GraphList GraphListSound GraphListMove.
From Stdlib Require Import Sorting.Sorted.

#[local] Open Scope Z_scope.
#[local] Set Warnings "-clear-no-such-hyp".

(** What C++ asks of a comparison. *)
Class StrictWeakOrder (comp : addr -> addr -> bool) : Prop := {
  comp_irrefl : forall x, comp x x = false;
  comp_trans : forall x y z, comp x y = true -> comp y z = true -> comp x z = true;
  comp_equiv : forall x y z, comp x y = false -> comp y x = false -> comp y z = false -> comp z y = false -> comp x z = false
}.

(** The specification: the stable insertion sort. *)
Fixpoint put (comp : addr -> addr -> bool) (x : addr) (l : list addr) : list addr :=
  match l with [] => [x] | y :: l' => if comp y x then y :: put comp x l' else x :: l end.
Definition sorted_by (comp : addr -> addr -> bool) (l : list addr) : list addr := foldr (put comp) [] l.

Section ordering.
Context {comp : addr -> addr -> bool} `{!StrictWeakOrder comp}.
Implicit Types (x y z : addr) (l k : list addr).

Lemma comp_negative x y z : comp x y = false -> comp y z = false -> comp x z = false.
Proof.
  intros H1 H2. destruct (comp x z) eqn:E; [|done].
  destruct (comp y x) eqn:Eyx; [by rewrite (comp_trans y x z Eyx E) in H2|].
  destruct (comp z y) eqn:Ezy; [by rewrite (comp_trans x z y E Ezy) in H1|].
  by rewrite (comp_equiv x y z) in E.
Qed.

Lemma merge_nil_l l : Quick.merge comp [] l = l.
Proof. by destruct l. Qed.

Lemma merge_nil_r l : Quick.merge comp l [] = l.
Proof. by destruct l. Qed.

Lemma merge_cons x y l k :
  Quick.merge comp (x :: l) (y :: k) =
    if comp y x then y :: Quick.merge comp (x :: l) k else x :: Quick.merge comp l (y :: k).
Proof. done. Qed.

Lemma merge_put x l k : Quick.merge comp (put comp x l) k = put comp x (Quick.merge comp l k).
Proof.
  revert k. induction l as [|z l IHl]; intros k.
  - rewrite merge_nil_l. induction k as [|y k IHk]; [done|]. cbn [put]. rewrite merge_cons, merge_nil_l. by rewrite <- IHk.
  - cbn [put]. destruct (comp z x) eqn:Ezx.
    + induction k as [|y k IHk]; [rewrite !merge_nil_r; cbn [put]; by rewrite Ezx|]. rewrite !merge_cons.
      destruct (comp y z) eqn:Eyz; cbn [put]; [|by rewrite Ezx, IHl]. by rewrite (comp_trans y z x), IHk.
    + induction k as [|y k IHk]; [rewrite !merge_nil_r; cbn [put]; by rewrite Ezx|]. rewrite (merge_cons x), merge_cons.
      destruct (comp y x) eqn:Eyx.
      * destruct (comp y z) eqn:Eyz; [|by rewrite (comp_negative y z x) in Eyx]. cbn [put]. by rewrite Eyx, IHk.
      * destruct (comp y z); cbn [put]; [by rewrite Eyx|by rewrite Ezx].
Qed.

Lemma merge_sorted_by l k : Quick.merge comp (sorted_by comp l) (sorted_by comp k) = sorted_by comp (l ++ k).
Proof. induction l as [|x l IH]; [apply merge_nil_l|]. unfold sorted_by in *. cbn [foldr app]. by rewrite merge_put, IH. Qed.

(** ** The specification is a stable sort *)

Lemma put_perm x l : put comp x l ≡ₚ x :: l.
Proof. induction l as [|y l IH]; [done|]. simpl. destruct (comp y x); [rewrite IH; constructor|done]. Qed.

Lemma sorted_by_perm l : sorted_by comp l ≡ₚ l.
Proof. induction l as [|x l IH]; [done|]. simpl. by rewrite put_perm, IH. Qed.

Lemma put_sorted x l :
  StronglySorted (fun a b => comp b a = false) l -> StronglySorted (fun a b => comp b a = false) (put comp x l).
Proof.
  induction 1 as [|y l Hl IH Hy]; simpl; [by repeat constructor|]. destruct (comp y x) eqn:E.
  - constructor; [done|]. rewrite put_perm. constructor; [|done].
    destruct (comp x y) eqn:E2; [|done]. pose proof (comp_trans x y x E2 E). pose proof (comp_irrefl x). congruence.
  - constructor; [by constructor|]. constructor; [done|]. eapply Forall_impl; [exact Hy|]. intros z Hz. by apply (comp_negative z y x).
Qed.

Lemma sorted_by_sorted l : StronglySorted (fun a b => comp b a = false) (sorted_by comp l).
Proof. induction l; [constructor|]. by apply put_sorted. Qed.

(** Elements that compare equal to [z]. *)
Definition equivalent z y : Prop := comp y z = false /\ comp z y = false.
#[export] Instance equivalent_dec z y : Decision (equivalent z y).
Proof. apply _. Defined.

Lemma put_stable z x l : filter (equivalent z) (put comp x l) = filter (equivalent z) (x :: l).
Proof.
  induction l as [|y l IH]; [done|]. simpl. destruct (comp y x) eqn:E; [|done].
  destruct (decide (equivalent z x)) as [[Hx1 Hx2]|Hx].
  - assert (Hy : ~ equivalent z y).
    { intros [Hy1 Hy2]. by rewrite (comp_equiv y z x) in E. }
    rewrite !(filter_cons_False _ y), IH, !(filter_cons_True _ x), !(filter_cons_False _ y) by done. done.
  - rewrite !(filter_cons_False _ x) by done. rewrite !filter_cons, IH. rewrite !(filter_cons_False _ x) by done. done.
Qed.

Lemma sorted_by_stable z l : filter (equivalent z) (sorted_by comp l) = filter (equivalent z) l.
Proof. induction l as [|x l IH]; [done|]. simpl. rewrite put_stable, !filter_cons, IH. done. Qed.
End ordering.

(** ** Bins *)

Section bins.
Context {comp : addr -> addr -> bool} `{!StrictWeakOrder comp}.
Implicit Types (c p : list addr) (parts bins : list (list addr)).

(** From the bin [i] on, a bin is empty or has 2^i elements, and the last one is not empty. *)
Fixpoint sized (i : nat) bins : Prop :=
  match bins with
  | [] => True
  | [bin] => length bin = (2 ^ i)%nat
  | bin :: bins' => (bin = [] \/ length bin = (2 ^ i)%nat) /\ sized (S i) bins'
  end.

(** The bins hold the elements [p] taken so far, the later ones in front. *)
Definition filled i bins p : Prop := exists parts, bins = sorted_by comp <$> parts /\ mjoin (reverse parts) = p /\ sized i parts.

Lemma join_snoc parts c : mjoin (parts ++ [c]) = mjoin parts ++ c.
Proof. rewrite join_app. simpl. by rewrite app_nil_r. Qed.

Lemma sized_tail i c parts : sized i (c :: parts) -> sized (S i) parts.
Proof. destruct parts; [done|]. by intros [_ ?]. Qed.

Lemma sized_cons i c parts : (c = [] \/ length c = (2 ^ i)%nat) -> parts <> [] -> sized (S i) parts -> sized i (c :: parts).
Proof. by destruct parts. Qed.

Lemma sorted_by_nil c : sorted_by comp c = [] -> c = [].
Proof. intros E. apply Permutation_nil. by rewrite <- E, sorted_by_perm. Qed.

Lemma carry_in_ok i c bins p :
  length c = (2 ^ i)%nat -> filled i bins p -> filled i (Quick.carry_in comp (sorted_by comp c) bins) (p ++ c).
Proof.
  intros Hc (parts & -> & <- & Hs). revert i c Hc Hs. induction parts as [|d parts IH]; intros i c Hc Hs; rewrite ?fmap_cons; cbn [Quick.carry_in].
  - exists [c]. split_and!; [done|simpl; by rewrite app_nil_r|done].
  - rewrite reverse_cons, join_snoc. destruct (sorted_by comp d) as [|z d'] eqn:Ed.
    + apply sorted_by_nil in Ed as ->. exists (c :: parts). rewrite reverse_cons, join_snoc, app_nil_r.
      split_and!; [done..|]. destruct parts as [|d2 parts]; [done|]. split; [by right|by apply (sized_tail _ _ _ Hs)].
    + destruct (IH (S i) (d ++ c)) as (parts' & Ep & Ej & Hs').
      { rewrite length_app. enough (length d = (2 ^ i)%nat) by (simpl; lia).
        destruct parts; [done|]. destruct Hs as [[->|?] _]; [by simplify_eq/=|done]. }
      { by eapply sized_tail. }
      exists ([] :: parts'). rewrite <- Ed, merge_sorted_by, Ep, reverse_cons, join_snoc, app_nil_r, Ej, app_assoc.
      split_and!; [done..|]. apply sized_cons; [by left| |done]. intros ->. simpl in Ep. by destruct (sorted_by comp <$> parts) as [|[]].
Qed.

(** So many bins have at least half of what would fit. *)
Lemma sized_length i parts : parts <> [] -> sized i parts -> (2 ^ (i + length parts - 1) <= length (mjoin (reverse parts)))%nat.
Proof.
  revert i. induction parts as [|d parts IH]; intros i Hne Hs; [done|]. rewrite reverse_cons, join_snoc, length_app.
  destruct parts as [|d2 parts].
  - simpl in *. replace (i + 1 - 1)%nat with i by lia. lia.
  - specialize (IH (S i) ltac:(done) ltac:(by eapply sized_tail)). simpl length in *.
    replace (i + S (S (length parts)) - 1)%nat with (S i + S (length parts) - 1)%nat by lia. lia.
Qed.

Lemma filled_bins bins p : filled 0 bins p -> zlen p < 2 ^ 64 -> (length bins <= Quick.kBins)%nat.
Proof.
  intros (parts & -> & <- & Hs) Hp. rewrite length_fmap. destruct (decide (parts = [])) as [->|Hne]; [unfold Quick.kBins; simpl; lia|].
  pose proof (sized_length 0 parts Hne Hs) as Hl. destruct (le_lt_dec (length parts) 64); [done|]. exfalso.
  apply Nat2Z.inj_le in Hl. rewrite Nat2Z.inj_pow in Hl. unfold zlen in Hp.
  assert (2 ^ 64 <= 2 ^ Z.of_nat (0 + length parts - 1)) by (apply Z.pow_le_mono_r; lia). change (Z.of_nat 2) with 2 in Hl. lia.
Qed.

Lemma merge_bins_ok i bins p : filled i bins p -> Quick.merge_bins comp bins = sorted_by comp p.
Proof.
  intros (parts & -> & <- & _). unfold Quick.merge_bins.
  assert (H : forall d, foldl (fun l bin => Quick.merge comp bin l) (sorted_by comp d) (sorted_by comp <$> parts) = sorted_by comp (mjoin (reverse parts) ++ d)).
  { induction parts as [|c parts IH]; intros d; [done|]. simpl. rewrite merge_sorted_by, IH, reverse_cons, join_snoc, app_assoc. done. }
  specialize (H []). by rewrite app_nil_r in H.
Qed.
End bins.

(** ** Taking the elements out and putting them back *)

Section sorting.
Context {comp : addr -> addr -> bool} `{!StrictWeakOrder comp}.
Implicit Types (st : store) (l k p : list addr) (q : QuickList) (bins : list (list addr)).

Lemma distribute_ok fuel bins p q st l :
  is_quick st q l -> l <> [] -> (length l < fuel)%nat -> filled (comp := comp) 0 bins p -> zlen (p ++ l) < 2 ^ 64 ->
  wp (Quick.distribute fuel comp bins q st) (fun '(bins', (q', st')) =>
    same_list q q' /\ is_quick st' q' [] /\ spares (head_ q :: l) st st' /\ filled (comp := comp) 0 bins' (p ++ l)).
Proof.
  revert bins p q st l. induction fuel as [|fuel IH]; intros bins p q st l Hq Hne Hf Hb Hlen; [lia|]. cbn [Quick.distribute].
  destruct l as [|x l]; [done|]. rewrite (quick_begin _ _ _ Hq). cbn [mbind outcome_bind]. change (succ_of (head_ q) (x :: l)) with x.
  apply wp_bind. eapply wp_mono; [by apply (erase_at_ok st q [] x l)|].
  intros [r [q1 st1]] (_ & [Et Eh] & Hq1 & Hs1 & _). cbn [app] in Hq1, Hs1.
  pose proof (carry_in_ok (comp := comp) 0 [x] bins p eq_refl Hb) as Hb1. change (sorted_by comp [x]) with [x] in Hb1.
  assert (Hlen1 : zlen (p ++ [x]) < 2 ^ 64) by (unfold zlen in *; rewrite !length_app in *; cbn [length] in *; lia).
  rewrite bool_decide_eq_false_2 by (pose proof (filled_bins _ _ Hb1 Hlen1); lia).
  rewrite (quick_empty_ok _ _ _ Hq1). cbn [mbind outcome_bind]. destruct l as [|y l].
  - rewrite bool_decide_eq_true_2 by done. apply wp_ret. done.
  - rewrite bool_decide_eq_false_2 by done. replace (p ++ x :: y :: l) with ((p ++ [x]) ++ y :: l) in * by (by rewrite <- app_assoc).
    eapply wp_mono; [apply (IH _ (p ++ [x]) q1 st1 (y :: l)); [done|done|simpl in *; lia|done|done]|].
    intros [bins' [q2 st2]] ([Et2 Eh2] & Hq2 & Hs2 & Hb2). split; [split; congruence|]. split_and!; [done| |done].
    rewrite Eh in Hs2. eapply spares_trans; [exact Hs1|exact Hs2|]. set_solver.
Qed.

Lemma push_all_ok l k q st :
  is_quick st q k -> NoDup (head_ q :: k ++ l) -> (forall x, x ∈ l -> live st x) ->
  wp (Quick.push_all l q st) (fun '(q', st') => same_list q q' /\ is_quick st' q' (k ++ l) /\ spares (head_ q :: k ++ l) st st').
Proof.
  unfold Quick.push_all. revert k q st. induction l as [|x l IH]; intros k q st Hq Hnd Hl; cbn [foldM].
  - apply wp_ret. rewrite app_nil_r. done.
  - apply wp_bind. pose proof Hnd as Hx. rewrite NoDup_cons, NoDup_app, NoDup_cons in Hx.
    eapply wp_mono; [apply (quick_push_back_ok st q k x kWorkMode); [done|set_solver|apply Hl; by left]|].
    intros [q1 st1] ([Et Eh] & Hq1 & Hs1 & _). replace (k ++ x :: l) with ((k ++ [x]) ++ l) in * by (by rewrite <- app_assoc).
    eapply wp_mono; [apply (IH (k ++ [x]) q1 st1); [done|by rewrite Eh|]|].
    + intros y Hy. eapply spares_live; [done|]. apply Hl. by right.
    + intros [q2 st2] ([Et2 Eh2] & Hq2 & Hs2). split; [split; congruence|]. split; [done|]. rewrite Eh in Hs2.
      eapply spares_trans; [eapply spares_mono; [exact Hs1|]|exact Hs2|]; set_solver.
Qed.

Lemma quick_total st q l : is_quick st q l -> Z.of_nat (base.size (chains st)) < 2 ^ 64 -> total_size_ q = zlen l /\ zlen l < 2 ^ 64.
Proof.
  intros Hq Hs. pose proof (quick_fuel _ _ _ Hq) as Hf. assert (zlen l < 2 ^ 64) by (unfold zlen; lia). split; [|done].
  rewrite (quick_size _ _ _ Hq). apply Z.mod_small. split; [apply zlen_nonneg|done].
Qed.

Lemma sort_ok st q l :
  is_quick st q l -> Z.of_nat (base.size (chains st)) < 2 ^ 64 ->
  wp (Quick.sort comp q st) (fun '(q', st') => same_list q q' /\ is_quick st' q' (sorted_by comp l) /\ spares (head_ q :: l) st st').
Proof.
  intros Hq Hsz. destruct (quick_total _ _ _ Hq Hsz) as [Htot Hlt]. unfold Quick.sort. rewrite Htot. case_bool_decide as Hle.
  { destruct l as [|x [|y l]]; [by apply wp_ret..|]. unfold zlen in Hle. simpl in Hle. lia. }
  assert (Hne : l <> []) by (intros ->; unfold zlen in Hle; simpl in Hle; lia).
  apply wp_bind. eapply wp_mono; [apply (distribute_ok _ [] [] q st l Hq Hne); [by eapply quick_fuel|by exists []|exact Hlt]|].
  intros [bins [q1 st1]] ([Et1 Eh1] & Hq1 & Hs1 & Hb). rewrite (merge_bins_ok 0 bins l Hb).
  apply wp_bind. eapply wp_mono; [by apply quick_clear_ok|]. intros [q2 st2] ([Et2 Eh2] & Hq2 & Hs2).
  assert (Hp := sorted_by_perm (comp := comp) l). assert (Eh : head_ q2 = head_ q) by congruence.
  eapply wp_mono; [apply (push_all_ok (sorted_by comp l) [] q2 st2 Hq2)|].
  - cbn [app]. rewrite Hp, Eh. by eapply quick_nodup.
  - intros x Hx. eapply spares_live; [done|]. eapply spares_live; [done|]. eapply quick_live; [done|]. rewrite <- Hp. by right.
  - intros [q3 st3] ([Et3 Eh3] & Hq3 & Hs3). split; [split; congruence|]. split; [done|]. rewrite Eh1 in Hs2. rewrite Eh in Hs3.
    cbn [app] in Hs3. eapply spares_trans; [eapply spares_trans; [exact Hs1|exact Hs2|set_solver]|exact Hs3|]. by rewrite Hp.
Qed.
End sorting.
