(* ===== verification/GraphListRefine.v ===== *)
(** * GraphListRefine: the quick list implements a list

    Sequences of operations on a quick list against the same operations on a list
    of elements, sorting, swapping, and runs. *)

From S2P Require Import Prelude MemLink GraphList GraphListSound GraphListMove GraphListSort.
From Stdlib Require Import Sorting.Sorted.

#[local] Open Scope Z_scope.
#[local] Set Warnings "-clear-no-such-hyp".

(** ** Commands *)

Inductive quick_op :=
  | QPushBack (x : addr) (m : ListMode)
  | QPushFront (x : addr) (m : ListMode)
  | QInsert (pos : addr) (x : addr) (m : ListMode)
  | QMove (x y : addr) (before_flag : bool)
  | QErase (x : addr)
  | QEraseAt (x : addr)
  | QClear
  | QSort (comp : addr -> addr -> bool).

Inductive Reply := NoReply | Code (r : Z) | At (p : pointer).

Definition quick_exec (op : quick_op) (q : QuickList) (st : store) : outcome (Reply * (QuickList * store)) :=
  match op with
  | QPushBack x m => s ← Quick.push_back x m q st; Ok (NoReply, s)
  | QPushFront x m => s ← Quick.push_front x m q st; Ok (NoReply, s)
  | QInsert pos x m => s ← Quick.insert (Some pos) x m q st; Ok (NoReply, s)
  | QMove x y b => s ← Quick.move x y b q st; Ok (Code 0, s)
  | QErase x => '(r, s) ← Quick.erase x q st; Ok (Code r, s)
  | QEraseAt x => '(p, s) ← Quick.erase_at (Some x) q st; Ok (At p, s)
  | QClear => s ← Quick.clear q st; Ok (NoReply, s)
  | QSort comp => s ← Quick.sort comp q st; Ok (NoReply, s)
  end.

Fixpoint quick_run (ops : list quick_op) (q : QuickList) (st : store) : outcome (list Reply * (QuickList * store)) :=
  match ops with
  | [] => Ok ([], (q, st))
  | op :: ops => '(r, (q, st)) ← quick_exec op q st; '(rs, s) ← quick_run ops q st; Ok (r :: rs, s)
  end.

(** ** The specification *)

(** [x] next to [y]; the element behind [x], or the end [s]. *)
Fixpoint next_to (before_flag : bool) (x y : addr) (l : list addr) : list addr :=
  match l with
  | [] => []
  | z :: l => if bool_decide (z = y) then (if before_flag then x :: y :: l else y :: x :: l) else z :: next_to before_flag x y l
  end.
Fixpoint behind (s x : addr) (l : list addr) : addr :=
  match l with [] => s | z :: l => if bool_decide (z = x) then default s (head l) else behind s x l end.
Definition without (x : addr) (l : list addr) : list addr := filter (fun y => y <> x) l.

(** [s] is the end of the list; [None] is a caller's mistake: linking an element
    twice, moving one next to itself, a place that is not in the list. *)
Definition quick_spec (s : addr) (op : quick_op) (l : list addr) : option (Reply * list addr) :=
  match op with
  | QPushBack x _ => if decide (x ∈ l) then None else Some (NoReply, l ++ [x])
  | QPushFront x _ => if decide (x ∈ l) then None else Some (NoReply, x :: l)
  | QInsert pos x _ =>
      if decide (x ∈ l) then None else if decide (pos = s) then Some (NoReply, l ++ [x])
      else if decide (pos ∈ l) then Some (NoReply, next_to true x pos l) else None
  | QMove x y b => if decide (x <> y /\ x ∈ l /\ y ∈ l) then Some (Code 0, next_to b x y (without x l)) else None
  | QErase x => if decide (x = s) then None else if decide (x ∈ l) then Some (Code 0, without x l) else Some (Code (-1), l)
  | QEraseAt x => if decide (x ∈ l) then Some (At (Some (behind s x l)), without x l) else None
  | QClear => Some (NoReply, [])
  | QSort comp => Some (NoReply, sorted_by comp l)
  end.

Fixpoint quick_spec_run (s : addr) (ops : list quick_op) (l : list addr) : option (list Reply * list addr) :=
  match ops with
  | [] => Some ([], l)
  | op :: ops => '(r, l) ← quick_spec s op l; '(rs, l) ← quick_spec_run s ops l; Some (r :: rs, l)
  end.

(** Elements to link are live and not the head, and comparisons are orders. *)
Definition quick_op_ok (st : store) (s : addr) (op : quick_op) : Prop :=
  match op with
  | QPushBack x _ | QPushFront x _ | QInsert _ x _ => live st x /\ x <> s
  | QErase x => tagged st x
  | QSort comp => StrictWeakOrder comp
  | _ => True
  end.

Definition pushed (op : quick_op) : list addr :=
  match op with QPushBack x _ | QPushFront x _ | QInsert _ x _ => [x] | _ => [] end.

(** ** Refinement *)

Section refinement.
Implicit Types (st : store) (s x y : addr) (l k : list addr) (q : QuickList).

Lemma next_to_split b x y k1 k2 : y ∉ k1 -> next_to b x y (k1 ++ y :: k2) = moved b k1 x y k2.
Proof.
  induction k1 as [|z k1 IH]; intros Hy; simpl.
  - rewrite bool_decide_eq_true_2 by done. by destruct b.
  - rewrite bool_decide_eq_false_2 by set_solver. rewrite IH by set_solver. by destruct b.
Qed.

Lemma behind_split s x k1 k2 : x ∉ k1 -> behind s x (k1 ++ x :: k2) = succ_of s k2.
Proof.
  induction k1 as [|z k1 IH]; intros Hy; simpl; [by rewrite bool_decide_eq_true_2|].
  rewrite bool_decide_eq_false_2 by set_solver. apply IH. set_solver.
Qed.

(** A split at an element of a list without duplicates. *)
Lemma nodup_split x l : NoDup l -> x ∈ l -> exists l1 l2, l = l1 ++ x :: l2 /\ (x ∉ l1) /\ without x l = l1 ++ l2.
Proof.
  intros Hnd Hx. apply list_elem_of_split in Hx as (l1 & l2 & ->). exists l1, l2. unfold without. rewrite filter_remove by done.
  rewrite NoDup_app in Hnd. split_and!; [done|set_solver|done].
Qed.

(** What an operation leaves. *)
Definition refined st q op l r l' '((r', (q', st')) : Reply * (QuickList * store)) : Prop :=
  r' = r /\ same_list q q' /\ is_quick st' q' l' /\ spares (head_ q :: l ++ pushed op) st st' /\ l' ⊆ l ++ pushed op.

Lemma linked_refined st q x m l l' (s : QuickList * store) r :
  linked st q x m l' s -> l' ≡ₚ x :: l -> forall op, pushed op = [x] -> refined st q op l r l' (r, s).
Proof.
  destruct s as [q' st']. intros (Hs & Hq & Hsp & _) Hp op Ho. unfold refined. rewrite Ho.
  split_and!; [done|apply Hs|done| |rewrite Hp; clear; set_solver].
  eapply spares_mono; [exact Hsp|]. rewrite Hp. clear. set_solver.
Qed.

Lemma unlinked_refined st q x l l' (s : QuickList * store) r :
  unlinked st q x l l' s -> l' ⊆ l -> forall op, pushed op = [] -> refined st q op l r l' (r, s).
Proof.
  destruct s as [q' st']. intros (Hs & Hq & Hsp & _) Hp op Ho. unfold refined. rewrite Ho, app_nil_r.
  split_and!; [done|apply Hs|done..].
Qed.

Lemma insert_refines st q l pos x m :
  is_quick st q l -> x ∉ head_ q :: l -> live st x -> pos ∈ head_ q :: l ->
  wp (Quick.insert (Some pos) x m q st) (linked st q x m (if decide (pos = head_ q) then l ++ [x] else next_to true x pos l)).
Proof.
  intros Hq Hx Hl Hpos. destruct (decide (pos = head_ q)) as [->|Hne].
  - apply (insert_ok st q l []); rewrite ?app_nil_r; done.
  - apply elem_of_cons in Hpos as [|Hpos]; [done|]. pose proof (quick_nodup _ _ _ Hq) as [_ Hnd]%NoDup_cons.
    destruct (nodup_split pos l Hnd Hpos) as (l1 & l2 & -> & H1 & _). rewrite next_to_split by done.
    by apply (insert_ok st q l1 (pos :: l2)).
Qed.

Lemma quick_exec_refines op st q l r l' :
  is_quick st q l -> Z.of_nat (base.size (chains st)) < 2 ^ 64 -> quick_op_ok st (head_ q) op ->
  quick_spec (head_ q) op l = Some (r, l') -> wp (quick_exec op q st) (refined st q op l r l').
Proof.
  intros Hq Hsz Hok Hs. pose proof (quick_nodup _ _ _ Hq) as [Hh Hnd]%NoDup_cons.
  destruct op as [x m|x m|pos x m|x y b|x|x| |comp]; cbn [quick_exec quick_spec quick_op_ok] in *.
  - destruct (decide (x ∈ l)); [done|]. injection Hs as <- <-. destruct Hok as [Hl Hne]. apply wp_bind.
    eapply wp_mono; [apply (quick_push_back_ok st q l x m); [done|set_solver|done]|]. intros s Hs. eapply linked_refined; [done|solve_Permutation|done].
  - destruct (decide (x ∈ l)); [done|]. injection Hs as <- <-. destruct Hok as [Hl Hne]. apply wp_bind.
    eapply wp_mono; [apply (quick_push_front_ok st q l x m); [done|set_solver|done]|]. intros s Hs. by eapply linked_refined.
  - destruct (decide (x ∈ l)); [done|]. destruct Hok as [Hl Hne]. apply wp_bind.
    eapply wp_mono; [apply (insert_refines st q l pos x m); [done|set_solver|done|]|].
    + destruct (decide (pos = head_ q)); [set_solver|]. destruct (decide (pos ∈ l)); [set_solver|done].
    + intros s Hlk. destruct (decide (pos = head_ q)); [injection Hs as <- <-; eapply linked_refined; [done|solve_Permutation|done]|].
      destruct (decide (pos ∈ l)) as [Hpos|]; [injection Hs as <- <-|done].
      eapply linked_refined; [done| |done]. destruct (nodup_split pos l Hnd Hpos) as (l1 & l2 & -> & H1 & _).
      rewrite next_to_split by done. apply moved_permuted.
  - destruct (decide _) as [(Hxy & Hx & Hy)|]; [injection Hs as <- <-|done].
    destruct (nodup_split x l Hnd Hx) as (l1 & l2 & -> & H1 & ->).
    assert (Hnd' : NoDup (l1 ++ l2)) by (rewrite NoDup_app, NoDup_cons in Hnd; rewrite NoDup_app; set_solver).
    destruct (nodup_split y (l1 ++ l2) Hnd') as (k1 & k2 & Ek & H2 & _); [set_solver|]. rewrite Ek, next_to_split by done.
    apply wp_bind. eapply wp_mono; [by apply (move_ok st q l1 x l2 k1 y k2 b)|]. intros [q' st'] ([Et Eh] & Hq' & Hsp & _).
    split_and!; cbn [pushed]; rewrite ?app_nil_r; [done|done|done|done|]. rewrite moved_permuted, <- Ek. set_solver.
  - destruct (decide (x = head_ q)); [done|]. destruct (decide (x ∈ l)) as [Hx|Hx]; injection Hs as <- <-.
    + destruct (nodup_split x l Hnd Hx) as (l1 & l2 & -> & H1 & ->).
      apply wp_bind. eapply wp_mono; [by apply erase_ok|]. intros [r s] [-> Hu]. eapply unlinked_refined; [done|set_solver|done].
    + rewrite (erase_other st q l x) by (done || set_solver). cbn [mbind outcome_bind]. apply wp_ret. unfold refined. cbn [pushed]. by rewrite app_nil_r.
  - destruct (decide (x ∈ l)) as [Hx|]; [injection Hs as <- <-|done].
    destruct (nodup_split x l Hnd Hx) as (l1 & l2 & -> & H1 & ->). rewrite behind_split by done.
    apply wp_bind. eapply wp_mono; [by apply erase_at_ok|]. intros [p s] [-> Hu]. eapply unlinked_refined; [done|set_solver|done].
  - injection Hs as <- <-. apply wp_bind. eapply wp_mono; [by apply quick_clear_ok|]. intros [q' st'] (Hs & Hq' & Hsp).
    unfold refined. cbn [pushed]. rewrite app_nil_r. split_and!; [done|apply Hs|done|done|set_solver].
  - injection Hs as <- <-. apply wp_bind. eapply wp_mono; [by apply sort_ok|]. intros [q' st'] (Hs & Hq' & Hsp).
    unfold refined. cbn [pushed]. rewrite app_nil_r. split_and!; [done|apply Hs|done|done|]. by rewrite sorted_by_perm.
Qed.

Lemma spares_size D st st' : spares D st st' -> base.size (chains st') = base.size (chains st).
Proof.
  intros ([_ Hv] & _). rewrite <- !size_dom. f_equal. apply set_eq. intros y. rewrite !elem_of_dom. apply Hv.
Qed.

Lemma op_ok_spares D st st' s op : spares D st st' -> quick_op_ok st s op -> quick_op_ok st' s op.
Proof.
  intros Hsp. destruct op; cbn [quick_op_ok]; try done; [..|apply (proj2 (proj2 Hsp))];
    intros [Hl Hne]; (split; [by apply (spares_live _ _ _ _ Hsp)|done]).
Qed.

Lemma quick_reads st q l :
  is_quick st q l -> Z.of_nat (base.size (chains st)) < 2 ^ 64 ->
  Quick.CollectAllItemToVector q st = Ok l /\ Quick.empty q st = Ok (bool_decide (l = [])) /\ Quick.size q = zlen l.
Proof. intros Hq Hsz. split_and!; [by apply quick_collect_ok|by apply quick_empty_ok|by apply (quick_total st)]. Qed.

(** C9: a quick list implements a list.  Whatever sequence of operations is legal
    on the abstract list (pushing, inserting, moving, erasing by element and by
    iterator, clearing, sorting) runs on the linked elements without following a
    bad pointer, gives the same answers (an element of another list is refused
    with -1), and leaves the same list: reading it gives the elements in order,
    the size is their number.  No element but those of the list and those pushed is
    touched. *)
Theorem quick_list_refines_list ops st q l rs l' :
  is_quick st q l -> Z.of_nat (base.size (chains st)) < 2 ^ 64 -> Forall (quick_op_ok st (head_ q)) ops ->
  quick_spec_run (head_ q) ops l = Some (rs, l') ->
  exists q' st', quick_run ops q st = Ok (rs, (q', st')) /\ is_quick st' q' l' /\
    Quick.CollectAllItemToVector q' st' = Ok l' /\ Quick.empty q' st' = Ok (bool_decide (l' = [])) /\ Quick.size q' = zlen l' /\
    spares (head_ q :: l ++ (ops ≫= pushed)) st st'.
Proof.
  revert st q l rs l'. induction ops as [|op ops IH]; intros st q l rs l' Hq Hsz Hok Hs; simpl in Hs.
  - injection Hs as <- <-. exists q, st. destruct (quick_reads _ _ _ Hq Hsz) as (? & ? & ?). done.
  - apply bind_Some in Hs as ([r l1] & Hs1 & Hs). apply bind_Some in Hs as ([rs1 l2] & Hs2 & [= <- <-]).
    apply Forall_cons in Hok as [Hop Hok].
    pose proof (quick_exec_refines _ _ _ _ _ _ Hq Hsz Hop Hs1) as ([r' [q1 st1]] & E1 & -> & [Et Eh] & Hq1 & Hsp & Hsub)%wp_Ok.
    rewrite <- Eh in Hs2. destruct (IH st1 q1 l1 rs1 l2) as (q2 & st2 & E2 & Hq2 & Hc & He & Hz & Hsp2); [done|by rewrite (spares_size _ _ _ Hsp)| |done|].
    { eapply Forall_impl; [exact Hok|]. intros o Ho. rewrite Eh. by eapply op_ok_spares. }
    exists q2, st2. cbn [quick_run]. rewrite E1. cbn [mbind outcome_bind]. rewrite E2. split_and!; try done. rewrite bind_cons, Eh in *.
    eapply spares_trans; [eapply spares_mono; [exact Hsp|]|exact Hsp2|]; [|set_solver]. clear. set_solver.
Qed.

(** C10: sorting.  For every comparison that is a strict weak order, [sort] leaves
    the same elements, in order, and equal ones in the order they had: the 64 bins
    are enough for all elements a list can have, and no element is lost on the way
    through them. *)
Theorem quick_list_sort_correct comp `{!StrictWeakOrder comp} st q l :
  is_quick st q l -> Z.of_nat (base.size (chains st)) < 2 ^ 64 ->
  exists q' st' l', Quick.sort comp q st = Ok (q', st') /\ same_list q q' /\ is_quick st' q' l' /\ l' ≡ₚ l /\
    StronglySorted (fun a b => comp b a = false) l' /\
    (forall z, filter (equivalent (comp := comp) z) l' = filter (equivalent (comp := comp) z) l) /\
    spares (head_ q :: l) st st'.
Proof.
  intros Hq Hsz. pose proof (sort_ok (comp := comp) st q l Hq Hsz) as ([q' st'] & E & Hs & Hq' & Hsp)%wp_Ok.
  exists q', st', (sorted_by comp l). split_and!; [done|apply Hs|done|apply sorted_by_perm|apply sorted_by_sorted|intros z; apply sorted_by_stable|done].
Qed.

(** Swapping two lists exchanges their elements, which know their new owner. *)
Theorem quick_list_swap st q l p k :
  is_quick st q l -> is_quick st p k -> this q <> this p ->
  exists q' p' st', Quick.swap q p st = Ok (q', p', st') /\ this q' = this q /\ this p' = this p /\ is_quick st' q' k /\ is_quick st' p' l.
Proof.
  intros Hq Hp Hne. pose proof (quick_swap_ok _ _ _ _ _ Hq Hp Hne) as ([[q' p'] st'] & E & ? & ? & ? & ? & _)%wp_Ok. by exists q', p', st'.
Qed.

(** A list that was just made. *)
Lemma quick_init_ok st list mem :
  live st mem -> (forall y t, tags st !! y = Some t -> owner t <> Some list) ->
  wp (Quick.init list mem st) (fun '(q, st') => this q = list /\ head_ q = mem /\ is_quick st' q [] /\ spares [mem] st st').
Proof.
  intros [Hv [t Ht]] Ho. unfold Quick.init. assert (Htag : tagged st mem) by (by eexists). list_run idtac.
  unfold read_tag. cbn [tags]. rewrite Ht. cbn [mbind outcome_bind]. list_run idtac. apply wp_ret.
  split_and!; [done|done| |eapply spares_tag; [|set_solver|done]; only_tac]. split; cbn [chains tags head_ tail_ total_size_ this]; try done.
  - split; [apply NoDup_singleton|]. split; [split|done]; by heap_simp.
  - intros y Hy. assert (y = mem) as -> by set_solver. exists (MkTag (Some list) (mode t)). apply lookup_insert_eq.
  - intros y u. destruct (decide (y = mem)) as [->|Hne]; [rewrite lookup_insert_eq; intros [= <-]; set_solver|].
    rewrite lookup_insert_ne by done. intros Hu. split; [intros E; by destruct (Ho _ _ Hu)|set_solver].
Qed.
End refinement.

(** ** Runs *)

Module RunsQuick.
#[local] Open Scope positive_scope.

(** Two heads and five elements, all as [new] leaves them. *)
Definition elements : list addr := [1; 2; 11; 12; 13; 14; 15].
Definition store0 : store :=
  MkStore (list_to_map ((fun a => (a, Quick.fresh_element.1)) <$> elements)) (list_to_map ((fun a => (a, Quick.fresh_element.2)) <$> elements)).

Definition by_address (x y : addr) : bool := bool_decide (x < y).
(** Even addresses in front of odd ones. *)
Definition by_parity (x y : addr) : bool := bool_decide (Z.rem (Zpos x) 2 < Z.rem (Zpos y) 2)%Z.

#[export] Instance address_order : StrictWeakOrder by_address.
Proof. split; intros *; unfold by_address; rewrite ?bool_decide_eq_true, ?bool_decide_eq_false; lia. Qed.
#[export] Instance parity_order : StrictWeakOrder by_parity.
Proof. split; intros *; unfold by_parity; rewrite ?bool_decide_eq_true, ?bool_decide_eq_false; lia. Qed.

(** An empty list whose head is 1. *)
Definition made : outcome (QuickList * store) := Quick.init 7 1 store0.

Lemma made_ok : exists q st, made = Ok (q, st) /\ head_ q = 1 /\ is_quick st q [] /\ spares [1] store0 st.
Proof.
  assert (Hw : wp made (fun '(q, st') => this q = 7%nat /\ head_ q = 1 /\ is_quick st' q [] /\ spares [1] store0 st')).
  { apply quick_init_ok; [split; by eexists|]. intros y t Hy%elem_of_list_to_map_2. unfold elements in Hy. set_solver. }
  apply wp_Ok in Hw as ([q st] & E & _ & Eh & Hq & Hs). by exists q, st.
Qed.

Definition script : list quick_op :=
  [QPushBack 13 kWorkMode; QPushBack 11 kWorkMode; QPushFront 12 kWorkMode; QInsert 11 14 kWorkMode; QInsert 1 15 kFreeMode;
   QMove 12 11 false; QErase 2; QSort by_address; QEraseAt 12; QErase 14].

Definition replies : list Reply := [NoReply; NoReply; NoReply; NoReply; NoReply; Code 0; Code (-1); NoReply; At (Some 13); Code 0].

Example script_spec : quick_spec_run 1 script [] = Some (replies, [11; 13; 15]).
Proof. vm_compute. reflexivity. Qed.

Lemma script_ok st : spares [1] store0 st -> Forall (quick_op_ok st 1) script.
Proof.
  intros Hs. unfold script. rewrite !Forall_cons, Forall_nil. cbn [quick_op_ok].
  split_and!; first [done | apply (spares_live _ _ _ _ Hs); split; by eexists | apply address_order | apply (proj2 (proj2 Hs)); by eexists].
Qed.

Lemma quick_list_refines_list_run :
  exists q st q' st', made = Ok (q, st) /\ quick_run script q st = Ok (replies, (q', st')) /\
    Quick.CollectAllItemToVector q' st' = Ok [11; 13; 15].
Proof.
  destruct made_ok as (q & st & E & Eh & Hq & Hs). exists q, st.
  destruct (quick_list_refines_list script st q [] replies [11; 13; 15] Hq) as (q' & st' & E1 & _ & Ec & _).
  - rewrite (spares_size _ _ _ Hs). reflexivity.
  - rewrite Eh. apply script_ok, Hs.
  - rewrite Eh. exact script_spec.
  - exists q', st'. split; [exact E|]. split; [exact E1|exact Ec].
Defined.

(** Five elements, and the list as it is after they were pushed. *)
Definition five : list addr := [13; 12; 15; 11; 14].
Definition pushed_five : outcome (QuickList * store) := '(q, st) ← made; Quick.push_all five q st.

Lemma pushed_five_ok : exists q st, pushed_five = Ok (q, st) /\ is_quick st q five /\ base.size (chains st) = 7%nat.
Proof.
  destruct made_ok as (q & st & E & Eh & Hq & Hs).
  assert (Hl : Forall (live st) five).
  { unfold five. rewrite !Forall_cons, Forall_nil. split_and!; first [done | apply (spares_live _ _ _ _ Hs); split; by eexists]. }
  rewrite Forall_forall in Hl. pose proof (push_all_ok five [] q st Hq) as Hw.
  destruct (proj1 (wp_Ok _ _) (Hw ltac:(rewrite Eh; by apply (bool_decide_unpack _)) Hl)) as ([q' st'] & E' & _ & Hq' & Hs').
  exists q', st'. unfold pushed_five. rewrite E. cbn [mbind outcome_bind]. split_and!; [done..|].
  rewrite (spares_size _ _ _ Hs'), (spares_size _ _ _ Hs). done.
Qed.

(** Even elements first; among equal ones the order is kept. *)
Lemma quick_list_sort_correct_run :
  exists q st q' st' l', pushed_five = Ok (q, st) /\ Quick.sort by_parity q st = Ok (q', st') /\ is_quick st' q' l' /\ l' ≡ₚ five.
Proof.
  destruct pushed_five_ok as (q & st & E & Hq & Hsz). exists q, st.
  destruct (@quick_list_sort_correct by_parity parity_order st q five Hq) as (q' & st' & l' & E' & _ & Hq' & Hp & _); [rewrite Hsz; reflexivity|].
  exists q', st', l'. split; [exact E|]. split; [exact E'|]. split; [exact Hq'|exact Hp].
Defined.

Example sorted_by_parity :
  ('(q, st) ← pushed_five; '(q, st) ← Quick.sort by_parity q st; Quick.CollectAllItemToVector q st) = Ok [12; 14; 13; 15; 11].
Proof. vm_compute. reflexivity. Qed.

(** Moving an element next to itself leaves it pointing at itself: reading the list
    does not come to an end. *)
Example move_to_itself_breaks_the_ring :
  ('(q, st) ← made; '(_, (q, st)) ← quick_run [QPushBack 11 kWorkMode; QPushBack 12 kWorkMode; QMove 11 11 true] q st;
   n ← read_next (Some 1) st; m ← read_next n st; Ok (n, m, Quick.size q)) = Ok (Some 11, Some 11, 2%Z).
Proof. vm_compute. reflexivity. Qed.
End RunsQuick.
